(* ===== verification/_CoqProject ===== *)
-Q . S2P
Prelude.v
StateError.v
SzTypes.v
Delta.v
Crc.v
Crc32Tables.v
Crc32Braid.v
Lz4Stream.v
LzmaParse.v
LzmaDec.v
LzmaDecSym.v
LzmaDecSafe.v
LzmaDecKeep.v
DicToBuf.v
LzmaApi.v
Lzma2Dec.v
Lzma2Safe.v
Lzma2Api.v
Bra.v
Bra86.v
BraRiscv.v
BraWords.v
Bra86Ok.v
BraArmt.v
BraRiscvOk.v
BraRiscvRun.v
Sort.v
RangeEnc.v
LzmaEnc.v
LzmaEncMem.v
RangeCoder.v
LzmaCodec.v
LzmaDist.v
LzmaSymbols.v
LzmaFollow.v
LzmaRun.v
LzmaReplay.v
LzmaStart.v
LzmaRoundtrip.v
MatchFinder.v
LzFind.v
LzFindWindow.v
LzFindTree.v
LzFindBt.v
LzFindSearch.v
LzFindHc.v
LzFindForest.v
LzFindLaws.v
LzFindInit.v
LzFindNorm.v
LzmaEncFast.v
LzmaPrices.v
LzmaEncOpt.v
LzmaEncBlocks.v
LzmaPricesOk.v
LzmaFastOk.v
LzmaOptPath.v
LzmaOptPrices.v
LzmaOptPairs.v
LzmaOptSteps.v
LzmaOptStart.v
LzmaOptOk.v
LzmaEncRun.v
LzmaEncProps.v
LzmaEncode.v
Lzma86.v
