(* ===== verification/Prelude.v ===== *)
(** * SunPack's native codec core: a verification development

    SunPack (src/) unpacks archives on Windows, x64 and ARM64.  A Python application drives a
    worker process (src/native/sevenzip_bridge/src, C++) that links the 7-Zip 26.04 sources,
    zlib-ng and LZ4.  The logic written in C is the codec core below that worker, and this
    library models it: the LZMA family with its encoder and its match finder, the CRCs that
    guard every archive, the filters, and the one C component of SunPack's own, the LZ4
    stream adapter.

    C below is src/native/sevenzip_bridge/7z2604-src/C.

    ** The parts and how they interact

<<
      LzmaEncode -- LzmaEnc_SetProps, _MemPrepare          LzmaDecode -- LzmaDec_Allocate
          |                                                    |
      LzmaEnc_CodeOneBlock -- GetOptimum, GetOptimumFast   LzmaDec_DecodeToDic -- LzmaDec_TryDummy
          |                     |                              |
      range encoder        match finder (interface)        range decoder
      (CRangeEnc)          hash chains, binary trees       (CLzmaDec)
                                                               |
      LzmaDec_DecodeToBuf, Lzma2Dec_DecodeToBuf  --------------+
      Lzma2Dec_DecodeToDic, Lzma2Dec_Parse  -------------------+
>>

    The filters (Delta, branch converters), the CRCs, HeapSort and the LZ4 adapter stand
    beside it: the C++ handlers call them directly.

    ** Files

    Shared:
    - Prelude: machine words ([wrap]), [loop] and its rules ([loop_total]: an invariant and a
      measure, which is how loops are proved to end), results that are there and meet a
      postcondition ([yields]), checked access to buffers ([rd], [wr], [wrz]), lemmas, tactics;
    - StateError: a state and error monad with total-correctness weakest preconditions;
    - SzTypes: C/7zTypes.h, the [SRes] codes.

    CRC:
    - Crc: C/7zCrc.c, 7zCrcOpt.c, XzCrc64.c, XzCrc64Opt.c: table generators and 12-byte loops,
      equal to the bit-serial register;
    - Crc32Tables, Crc32Braid: zlib-ng crc32.c, crc32_braid_tbl.h and arch/generic, and the
      [CrcUpdate] with which SunPack replaces 7-Zip's.

    Filters and sorting:
    - Delta: C/Delta.c;
    - Bra, BraWords, BraArmt: C/Bra.c: the converters, the proofs for instructions of four
      bytes, the proofs for Thumb;
    - Bra86, Bra86Ok: C/Bra86.c: the x86 converter; a walk over the bytes with the same
      decisions in both directions, and the turns of the code as searches of that walk;
    - BraRiscv, BraRiscvOk, BraRiscvRun: BranchConv_RISCV of C/Bra.c; a walk over halfwords
      that rewrites instructions by their fields, and the code as that walk;
    - Sort: C/Sort.c.

    LZ4:
    - Lz4Stream: src/native/lz4_stream/stream.c over the interface [Lz4World] of its
      callbacks and of the LZ4F library, with the laws [Lz4Laws]: a context goes from the
      header it took in to the end of a frame, and has then given out what the library says
      the frame decompresses to ([frame_content]).

    LZMA decoder (C/LzmaDec.c) and LZMA2 decoder (C/Lzma2Dec.c):
    - LzmaParse: the range decoder; what the decoder reads is a tree of bit requests, and
      LzmaDec_DecodeReal_3 and LzmaDec_TryDummy are two interpreters of the same tree;
    - LzmaDec: the state CLzmaDec and every function up to LzmaDec_DecodeToDic;
    - LzmaDecSym, LzmaDecSafe, LzmaDecKeep: the invariant [wf] and its preservation;
    - DicToBuf: the loop of LzmaDec_DecodeToBuf and Lzma2Dec_DecodeToBuf, verified once
      against the interface [DicDecoder] with the laws [DicDecoderLaws];
    - LzmaApi: allocation, LzmaDec_DecodeToBuf, LzmaDecode, the properties;
    - Lzma2Dec, Lzma2Safe, Lzma2Api: the chunk headers, the invariant, what the calls promise.

    LZMA encoder (C/LzmaEnc.c):
    - RangeEnc, LzmaEnc: the range encoder, the coding of symbols, blocks, the end mark, and
      LzmaEnc_MemEncode for a parse of the data that is given;
    - LzmaEncMem, RangeCoder, LzmaCodec, LzmaDist, LzmaSymbols, LzmaFollow, LzmaRun,
      LzmaReplay, LzmaStart, LzmaRoundtrip: the round trip, in layers: bits, requests of one
      symbol, one symbol coded and decoded, the whole encoding, the decoder in step with it;
    - MatchFinder: the interface IMatchFinder2 as the class [IMatchFinder2] with its laws;
    - LzmaEncFast: the look-ahead and GetOptimumFast; LzmaPrices: the tables of prices;
      LzmaEncOpt: GetOptimum and Backward; LzmaEncBlocks: the blocks in both modes;
    - LzmaFastOk: what ReadMatchDistances and GetOptimumFast return, against that interface;
    - LzmaPricesOk: every table is filled without leaving it, with prices that are bounded;
    - LzmaOptPath, LzmaOptPrices, LzmaOptPairs, LzmaOptSteps, LzmaOptStart, LzmaOptOk: the
      entries of [opt] are chains of valid symbols, and every step of GetOptimum keeps them
      so; Backward lays out one of them;
    - LzmaEncRun: both modes against the encoder that is given its choices;
    - LzmaEncProps, LzmaEncode: the properties, creation, LzmaEncode, and the composition with
      the match finder and with LzmaDecode;
    - Lzma86: C/Lzma86Enc.c and Lzma86Dec.c, LZMA over the x86 converter, with the two
      round trips composed.

    Match finder (C/LzFind.c):
    - LzFind: the object, MatchFinder_Create and _Init, the limits, normalisation, hash heads,
      chains and trees, GetMatches and Skip for every [btMode] and [numHashBytes];
    - LzFindWindow, LzFindTree, LzFindBt, LzFindSearch, LzFindHc, LzFindForest, LzFindLaws: the
      window, search trees of positions, and both kinds of search as instances of the laws of
      the interface;
    - LzFindInit, LzFindNorm: the start, sequences of calls, normalisation, kept blocks.

    ** What the theorems show

    - Round trips: LzmaEncode, in both modes, then LzmaDecode; the encoder for any parse of the data then the
      decoder; LZMA86 over both; the properties; Delta; the branch converters, x86 also piece by
      piece.
    - Safety and invariants: a decoder that was allocated and initialised stays well-formed
      whatever input it is given and however it is cut into calls, and no call leaves a
      buffer or fails to return; the same for the match finder over any sequence of searches.
    - Refinement: the chunk headers of LZMA2 against the table of the format; the LZ4 adapter
      against sequences of frames, each with the output the library has for it; fast mode and normal mode, whatever the match finder and
      whatever the probabilities make the prices, against the encoder that is given its choices.
    - Equivalence: every CRC routine with the bit-serial one; TryDummy with the decoder;
      the two versions of RC_BIT; the blocked normalisation with one pass.
    - Errors, bounds, termination: which result codes can come out of each entry point and what
      they mean; slots of distances; Lzma2Dec_Parse.

    ** Bounds

    The round trips of LzmaEncode and LZMA86 are for data of 1 to 2^32 - 2 bytes, the one for a
    given parse for data of 1 to 2^32 - 1: empty data and data of 4 GiB and more are not
    covered by them (LzmaEnc_MemEncode_total covers empty data).  The theorems on sequences of
    searches are for data of at most 2^32 - 2 bytes, which no search normalises;
    normalisation is verified as a function of its own.  LZMA86 is covered for levels 0 to 4:
    from 5 on, its default, it asks for the match finder in threads.  LzmaDecode and
    Lzma2Decode are covered for a destination that is not empty.

    ** Conventions

    Unsigned words are [Z] with the wrap-around written where the code can wrap.  A buffer is a
    list and a pointer into it an index; an access out of range is [None], and so is a loop that
    runs out of fuel, so "the call returns [Some]" says that it stays in its buffers and that
    it ends.  Every theorem about an entry point states it.  The fuel of each loop is written
    next to it: the length of what it consumes, or a measure that the proofs show to decrease.
    GetOptimum has a turn for each of the 2048 entries of [opt]; a path through them costs at
    most [cost_max] for every byte (LzmaOptPrices), so that no sum of prices comes near
    [kInfinityPrice], let alone 2^32.
    Memory allocation and calls out of the core are arguments or class methods with laws; each
    theorem about them has an instance at a concrete one.  Targets are little-endian with
    64-bit [size_t], as the build has them.

    ** Not modelled

    The threads around encoder, decoder and match finder: with trees, normal mode and more than
    one thread the encoder hands the match finder to threads, and LzmaEnc_Alloc is [None]
    there.  Input to the match finder from a stream; the LZMA2 encoder, XZ,
    PPMd, Zstandard, BCJ2, AES and the hash functions; the
    assembly and SIMD versions of routines that are modelled in C; zlib-ng beyond its CRC; and
    all code in C++, Rust and Python.  The manifest lists each with the reason. *)

From stdpp Require Import base numbers list list_numbers.
From Stdlib Require Import ZArith Lia.

(** ** Machine integers *)

Declare Scope word_scope.
Delimit Scope word_scope with word.

(** Unsigned wrap-around at [w] bits. *)
Definition wrap (w x : Z) : Z := (x mod 2 ^ w)%Z.

Abbreviation u8 := (wrap 8).
Abbreviation u16 := (wrap 16).
Abbreviation u32 := (wrap 32).
Abbreviation u64 := (wrap 64).

Definition in_width (w x : Z) : Prop := (0 <= x < 2 ^ w)%Z.

(** A buffer of bytes: every element is an 8-bit value. *)
Definition bytes (l : list Z) : Prop := Forall (in_width 8) l.

Notation "x &&& y" := (Z.land x y) (at level 40, left associativity) : word_scope.
Notation "x ||| y" := (Z.lor x y) (at level 50, left associativity) : word_scope.
Notation "x ^^^ y" := (Z.lxor x y) (at level 45, left associativity) : word_scope.
Notation "x <<< y" := (Z.shiftl x y) (at level 35, no associativity) : word_scope.
Notation "x >>> y" := (Z.shiftr x y) (at level 35, no associativity) : word_scope.

(** ** Loops

    [loop fuel body s] iterates [body]: [inl s'] continues with [s'], [inr r]
    leaves the loop with [r].  [None] is a memory access out of range (raised by
    the body) or exhausted fuel; the components prove that neither happens. *)
Section Loop.
Context {S R : Type}.

Fixpoint loop (fuel : nat) (body : S -> option (S + R)) (s : S) : option R :=
  match fuel with
  | O => None
  | Datatypes.S fuel' =>
      match body s with
      | None => None
      | Some (inl s') => loop fuel' body s'
      | Some (inr r) => Some r
      end
  end.
End Loop.

(** [while (cond) body]. *)
Definition while {S : Type} (fuel : nat) (cond : S -> bool) (body : S -> option S) (s : S)
  : option S :=
  loop fuel (fun s => if cond s then option_map inl (body s) else Some (inr s)) s.

(** [do body while (cond)]. *)
Definition do_while {S : Type} (fuel : nat) (body : S -> option S) (cond : S -> bool) (s : S)
  : option S :=
  loop fuel
    (fun s => match body s with
              | None => None
              | Some s' => if cond s' then Some (inl s') else Some (inr s')
              end) s.

(** ** Byte order *)

Fixpoint le_load (l : list Z) : Z :=
  match l with
  | [] => 0
  | b :: l' => b + 256 * le_load l'
  end.

Fixpoint le_bytes (n : nat) (v : Z) : list Z :=
  match n with
  | O => []
  | S n' => (v mod 256)%Z :: le_bytes n' (v / 256)%Z
  end.

(** [l[p .. p+n)], [None] when it is not entirely inside the buffer. *)
Definition slice (l : list Z) (p n : nat) : option (list Z) :=
  if decide (p + n <= length l)%nat then Some (take n (drop p l)) else None.

(** Overwrite [l[p .. p+length v)]. *)
Definition blit (l : list Z) (p : nat) (v : list Z) : option (list Z) :=
  if decide (p + length v <= length l)%nat
  then Some (take p l ++ v ++ drop (p + length v) l) else None.

(** ** Rules for loops: an invariant and a decreasing measure give a result. *)

Lemma loop_total {S R : Type} (I : S -> Prop) (m : S -> nat) (Q : R -> Prop)
    (body : S -> option (S + R)) :
  (forall s, I s ->
     match body s with
     | Some (inl s') => I s' /\ (m s' < m s)%nat
     | Some (inr r) => Q r
     | None => False
     end) ->
  forall fuel s, I s -> (m s < fuel)%nat ->
  exists r, loop fuel body s = Some r /\ Q r.
Proof.
  intros Hbody fuel. induction fuel as [|fuel IH]; intros s HI Hm; [lia|].
  specialize (Hbody s HI). simpl.
  destruct (body s) as [[s'|r]|]; [|eauto|done].
  destruct Hbody. apply IH; [done|lia].
Qed.

(** ** Total correctness: there is a result, and it meets [Q]. *)
Definition yields {A : Type} (o : option A) (Q : A -> Prop) : Prop := match o with Some a => Q a | None => False end.

Lemma yields_iff {A : Type} (o : option A) (Q : A -> Prop) : yields o Q <-> exists a, o = Some a /\ Q a.
Proof. destruct o as [a|]; [|by split; [|intros (? & ? & _)]]. split; [by exists a|]. by intros (? & [= <-] & ?). Qed.

Lemma yields_mono {A : Type} (o : option A) (Q Q' : A -> Prop) : yields o Q -> (forall a, Q a -> Q' a) -> yields o Q'.
Proof. destruct o as [a|]; [|done]. intros H HQ. by apply HQ. Qed.

Lemma yields_bind {A B : Type} (o : option A) (f : A -> option B) (Q : B -> Prop) :
  yields o (fun a => yields (f a) Q) -> yields (o ≫= f) Q.
Proof. by destruct o. Qed.

(** The next call, which yields what [P] says. *)
Lemma yields_then {A B : Type} (P : A -> Prop) (o : option A) (f : A -> option B) (Q : B -> Prop) :
  yields o P -> (forall a, P a -> yields (f a) Q) -> yields (o ≫= f) Q.
Proof. destruct o as [a|]; [|done]. intros H HQ. by apply HQ. Qed.

Lemma yields_loop {S R : Type} (I : S -> Prop) (m : S -> nat) (Q : R -> Prop) (body : S -> option (S + R)) :
  (forall s, I s -> yields (body s) (fun r => match r with inl s' => I s' /\ (m s' < m s)%nat | inr r => Q r end)) ->
  forall fuel s, I s -> (m s < fuel)%nat -> yields (loop fuel body s) Q.
Proof.
  intros Hb fuel s Hs Hm. apply yields_iff. apply (loop_total I m); [|done..]. clear s Hs Hm. intros s Hs.
  specialize (Hb s Hs). by destruct (body s) as [[s'|r]|].
Qed.

Lemma yields_while {S : Type} (I : S -> Prop) (m : S -> nat) (cond : S -> bool) (body : S -> option S) :
  (forall s, I s -> cond s = true -> yields (body s) (fun s' => I s' /\ (m s' < m s)%nat)) ->
  forall fuel s, I s -> (m s < fuel)%nat -> yields (while fuel cond body s) (fun s => I s /\ cond s = false).
Proof.
  intros Hb. apply yields_loop. intros s Hs. destruct (cond s) eqn:E; [|done]. specialize (Hb s Hs E). by destruct (body s).
Qed.

Lemma yields_do_while {S : Type} (I : S -> Prop) (m : S -> nat) (Q : S -> Prop) (body : S -> option S) (cond : S -> bool) :
  (forall s, I s -> yields (body s) (fun s' => if cond s' then I s' /\ (m s' < m s)%nat else Q s')) ->
  forall fuel s, I s -> (m s < fuel)%nat -> yields (do_while fuel body cond s) Q.
Proof.
  intros Hb. apply yields_loop. intros s Hs. specialize (Hb s Hs). destruct (body s) as [s'|]; [|done]. cbn in *. by destruct (cond s').
Qed.

(** What holds of the results there are: partial correctness. *)
Definition returns {A : Type} (o : option A) (Q : A -> Prop) : Prop := forall a, o = Some a -> Q a.

Lemma returns_Some {A : Type} (a : A) (Q : A -> Prop) : Q a -> returns (Some a) Q.
Proof. by intros ? ? [= <-]. Qed.

Lemma returns_None {A : Type} (Q : A -> Prop) : returns None Q.
Proof. done. Qed.

Lemma returns_bind {A B : Type} (o : option A) (f : A -> option B) (Q : B -> Prop) :
  returns o (fun a => returns (f a) Q) -> returns (o ≫= f) Q.
Proof. intros H b Hb. destruct o as [a|]; [exact (H a eq_refl b Hb)|done]. Qed.

Lemma returns_map {A B : Type} (o : option A) (f : A -> B) (Q : B -> Prop) :
  returns o (fun a => Q (f a)) -> returns (option_map f o) Q.
Proof. intros H b Hb. destruct o as [a|]; [|done]. injection Hb as <-. by apply H. Qed.

Lemma returns_mono {A : Type} (o : option A) (Q Q' : A -> Prop) :
  returns o Q -> (forall a, Q a -> Q' a) -> returns o Q'.
Proof. intros H HQ a Ha. by apply HQ, H. Qed.

Lemma returns_loop {S R : Type} (I : S -> Prop) (Q : R -> Prop) (body : S -> option (S + R)) :
  (forall s, I s -> returns (body s) (fun r => match r with inl s' => I s' | inr r => Q r end)) ->
  forall fuel s, I s -> returns (loop fuel body s) Q.
Proof.
  intros Hbody fuel. induction fuel as [|fuel IH]; intros s Hs r; [done|]. cbn.
  specialize (Hbody s Hs). destruct (body s) as [[s'|r']|]; [|intros [= <-]; by apply (Hbody (inr r'))|done].
  apply IH, (Hbody (inl s')). done.
Qed.

Lemma returns_while {S : Type} (I : S -> Prop) (cond : S -> bool) (body : S -> option S) fuel s :
  (forall s, I s -> returns (body s) I) -> I s -> returns (while fuel cond body s) I.
Proof.
  intros Hb. apply returns_loop. intros s0 H0. destruct (cond s0); [|by apply returns_Some].
  apply returns_map, Hb, H0.
Qed.

Lemma returns_do_while {S : Type} (I : S -> Prop) (cond : S -> bool) (body : S -> option S) fuel s :
  (forall s, I s -> returns (body s) I) -> I s -> returns (do_while fuel body cond s) I.
Proof.
  intros Hb. apply returns_loop. intros s0 H0. specialize (Hb s0 H0).
  destruct (body s0) as [s1|]; [|done]. specialize (Hb s1 eq_refl).
  destruct (cond s1); by apply returns_Some.
Qed.

Lemma while_total {S : Type} (I : S -> Prop) (m : S -> nat) (cond : S -> bool)
    (body : S -> option S) :
  (forall s, I s -> cond s = true ->
     exists s', body s = Some s' /\ I s' /\ (m s' < m s)%nat) ->
  forall fuel s, I s -> (m s < fuel)%nat ->
  exists s', while fuel cond body s = Some s' /\ I s' /\ cond s' = false.
Proof.
  intros Hbody fuel s HI Hm. unfold while.
  apply (loop_total I m (fun s' => I s' /\ cond s' = false)); [|done..].
  intros s0 H0. destruct (cond s0) eqn:Hc; [|done].
  destruct (Hbody s0 H0 Hc) as (s' & -> & ? & ?). done.
Qed.

Lemma do_while_total {S : Type} (I : S -> Prop) (m : S -> nat) (Q : S -> Prop)
    (body : S -> option S) (cond : S -> bool) :
  (forall s, I s ->
     exists s', body s = Some s' /\
       if cond s' then I s' /\ (m s' < m s)%nat else Q s') ->
  forall fuel s, I s -> (m s < fuel)%nat ->
  exists s', do_while fuel body cond s = Some s' /\ Q s'.
Proof.
  intros Hbody fuel s HI Hm. unfold do_while.
  apply (loop_total I m Q); [|done..].
  intros s0 H0. destruct (Hbody s0 H0) as (s' & -> & H'). by destruct (cond s').
Qed.

(** The same rules with the final state given. *)

Lemma while_run {S : Type} (I : S -> Prop) (m : S -> nat) (r : S) (cond : S -> bool)
    (body : S -> option S) fuel s :
  I s -> (m s < fuel)%nat ->
  (forall s, I s ->
     if cond s then exists s', body s = Some s' /\ I s' /\ (m s' < m s)%nat else s = r) ->
  while fuel cond body s = Some r.
Proof.
  intros HI Hm Hbody.
  destruct (while_total I m cond body) with (fuel := fuel) (s := s) as (s' & -> & HI' & Hc);
    [|done..|].
  - intros s0 H0 Hc. specialize (Hbody s0 H0). by rewrite Hc in Hbody.
  - specialize (Hbody s' HI'). rewrite Hc in Hbody. by subst.
Qed.

Lemma do_while_run {S : Type} (I : S -> Prop) (m : S -> nat) (r : S)
    (body : S -> option S) (cond : S -> bool) fuel s :
  I s -> (m s < fuel)%nat ->
  (forall s, I s ->
     exists s', body s = Some s' /\
       if cond s' then I s' /\ (m s' < m s)%nat else s' = r) ->
  do_while fuel body cond s = Some r.
Proof.
  intros HI Hm Hbody.
  destruct (do_while_total I m (fun s' => s' = r) body cond Hbody fuel s HI Hm) as (s' & -> & ->).
  done.
Qed.

(** The same rules for a loop anywhere in the goal. *)

Lemma while_bind {S : Type} (I : S -> Prop) (m : S -> nat) (K : option S -> Prop)
    (cond : S -> bool) (body : S -> option S) fuel s :
  I s -> (m s < fuel)%nat ->
  (forall s, I s -> cond s = true ->
     exists s', body s = Some s' /\ I s' /\ (m s' < m s)%nat) ->
  (forall s', I s' -> cond s' = false -> K (Some s')) ->
  K (while fuel cond body s).
Proof.
  intros HI Hm Hbody HK.
  destruct (while_total I m cond body Hbody fuel s HI Hm) as (s' & -> & ? & ?). by apply HK.
Qed.

Lemma do_while_bind {S : Type} (I : S -> Prop) (m : S -> nat) (Q : S -> Prop)
    (K : option S -> Prop) (body : S -> option S) (cond : S -> bool) fuel s :
  I s -> (m s < fuel)%nat ->
  (forall s, I s ->
     exists s', body s = Some s' /\ if cond s' then I s' /\ (m s' < m s)%nat else Q s') ->
  (forall s', Q s' -> K (Some s')) ->
  K (do_while fuel body cond s).
Proof.
  intros HI Hm Hbody HK.
  destruct (do_while_total I m Q body cond Hbody fuel s HI Hm) as (s' & -> & ?). by apply HK.
Qed.

Lemma loop_bind {S R : Type} (I : S -> Prop) (m : S -> nat) (Q : R -> Prop) (K : option R -> Prop)
    (body : S -> option (S + R)) fuel s :
  I s -> (m s < fuel)%nat ->
  (forall s, I s ->
     match body s with
     | Some (inl s') => I s' /\ (m s' < m s)%nat
     | Some (inr r) => Q r
     | None => False
     end) ->
  (forall r, Q r -> K (Some r)) ->
  K (loop fuel body s).
Proof.
  intros HI Hm Hbody HK. destruct (loop_total I m Q body Hbody fuel s HI Hm) as (r & -> & ?). by apply HK.
Qed.

Tactic Notation "loop_inv" uconstr(I) uconstr(m) uconstr(Q) :=
  lazymatch goal with
  | |- context [loop ?f ?b ?s] =>
      let T := type of s in pattern (loop f b s); apply (@loop_bind T _ I m Q)
  end.

Tactic Notation "while_inv" uconstr(I) uconstr(m) :=
  lazymatch goal with
  | |- context [while ?f ?c ?b ?s] =>
      let T := type of s in pattern (while f c b s); apply (@while_bind T I m)
  end.

Tactic Notation "do_while_inv" uconstr(I) uconstr(m) uconstr(Q) :=
  lazymatch goal with
  | |- context [do_while ?f ?b ?c ?s] =>
      let T := type of s in pattern (do_while f b c s); apply (@do_while_bind T I m Q)
  end.

(** ** Checked array accesses and the state of an array inside a loop *)

(** [splice i B A]: the array whose first [i] cells were already rewritten from
    [A] to [B]. *)
Definition splice {A : Type} (i : nat) (xs ys : list A) : list A := take i xs ++ drop i ys.

(** [l[i] = v], [None] out of range. *)
Definition wr {A : Type} (l : list A) (i : nat) (v : A) : option (list A) :=
  if decide (i < length l)%nat then Some (<[i := v]> l) else None.

Section Splice.
Context {A : Type}.
Implicit Types xs ys l : list A.

Lemma length_splice i xs ys :
  length xs = length ys -> length (splice i xs ys) = length ys.
Proof. intros. unfold splice. rewrite length_app, length_take, length_drop. lia. Qed.

Lemma lookup_splice_lt i j xs ys :
  length xs = length ys -> (j < i)%nat -> splice i xs ys !! j = xs !! j.
Proof.
  intros Hl Hj. unfold splice.
  destruct (decide (j < length xs)%nat).
  - rewrite lookup_app_l by (rewrite length_take; lia). by rewrite lookup_take_lt.
  - rewrite (lookup_ge_None_2 xs) by lia. apply lookup_ge_None_2.
    rewrite length_app, length_take, length_drop. lia.
Qed.

Lemma lookup_splice_ge i j xs ys :
  length xs = length ys -> (i <= j)%nat -> splice i xs ys !! j = ys !! j.
Proof.
  intros Hl Hj. unfold splice.
  destruct (decide (j < length xs)%nat).
  - rewrite lookup_app_r by (rewrite length_take; lia).
    rewrite lookup_drop, length_take. f_equal. lia.
  - rewrite (lookup_ge_None_2 ys) by lia. apply lookup_ge_None_2.
    rewrite length_app, length_take, length_drop. lia.
Qed.

Lemma splice_0 xs ys : splice 0 xs ys = ys.
Proof. done. Qed.

Lemma splice_full i xs ys :
  length xs = length ys -> (length xs <= i)%nat -> splice i xs ys = xs.
Proof.
  intros ? ?. unfold splice. rewrite take_ge, drop_ge by lia. apply app_nil_r.
Qed.

Lemma wr_Some l i v : (i < length l)%nat -> wr l i v = Some (<[i := v]> l).
Proof. intros. unfold wr. by rewrite decide_True. Qed.

(** A loop that walks upwards. *)
Lemma wr_splice_up i v xs ys :
  length xs = length ys -> xs !! i = Some v ->
  wr (splice i xs ys) i v = Some (splice (S i) xs ys).
Proof.
  intros Hl Hi. pose proof (lookup_lt_Some _ _ _ Hi).
  rewrite wr_Some by (rewrite length_splice; lia). f_equal.
  apply list_eq. intros j. destruct (decide (i = j)) as [->|Hij].
  - rewrite list_lookup_insert_eq by (rewrite length_splice; lia).
    by rewrite lookup_splice_lt by lia.
  - rewrite list_lookup_insert_ne by done.
    destruct (decide (j < i)%nat).
    + by rewrite !lookup_splice_lt by lia.
    + by rewrite !lookup_splice_ge by lia.
Qed.

(** A loop that walks downwards. *)
Lemma wr_splice_down i v xs ys :
  length xs = length ys -> ys !! i = Some v ->
  wr (splice (S i) xs ys) i v = Some (splice i xs ys).
Proof.
  intros Hl Hi. pose proof (lookup_lt_Some _ _ _ Hi).
  rewrite wr_Some by (rewrite length_splice; lia). f_equal.
  apply list_eq. intros j. destruct (decide (i = j)) as [->|Hij].
  - rewrite list_lookup_insert_eq by (rewrite length_splice; lia).
    by rewrite lookup_splice_ge by lia.
  - rewrite list_lookup_insert_ne by done.
    destruct (decide (j < i)%nat).
    + by rewrite !lookup_splice_lt by lia.
    + by rewrite !lookup_splice_ge by lia.
Qed.
End Splice.

(** ** Widths *)

Lemma wrap_in_width w x : (0 <= w)%Z -> in_width w (wrap w x).
Proof. intros. unfold wrap, in_width. apply Z.mod_pos_bound. lia. Qed.

Lemma wrap_small w x : in_width w x -> wrap w x = x.
Proof. intros. by apply Z.mod_small. Qed.

Lemma wrap_le w x : (0 <= w)%Z -> (0 <= x)%Z -> (0 <= wrap w x <= x)%Z.
Proof.
  intros Hw Hx. pose proof (Z.mod_pos_bound x (2 ^ w)) as H. pose proof (Z.pow_pos_nonneg 2 w). pose proof (Z.mod_le x (2 ^ w)).
  unfold wrap. lia.
Qed.

Lemma wrap_wrap w x : (0 <= w)%Z -> wrap w (wrap w x) = wrap w x.
Proof. intros. unfold wrap. apply Zmod_mod. Qed.

Lemma in_width_mono w w' x : (0 <= w <= w')%Z -> in_width w x -> in_width w' x.
Proof. intros Hw [Hx1 Hx2]. pose proof (Z.pow_le_mono_r 2 w w'). split; lia. Qed.

Create HintDb width.
#[export] Hint Resolve wrap_in_width : width.
#[export] Hint Extern 1 (0 <= _)%Z => lia : width.

(** ** Automation for lengths and lookups *)

Create Rewrite HintDb len.
#[export] Hint Rewrite @length_app @length_take @length_drop @length_insert @length_replicate
  @length_fmap @length_zip_with @length_cons @length_nil : len.

(** Length goals. *)
Ltac len := autorewrite with len in *; try lia; try congruence.

(** Push a lookup through appends, takes, drops and splices whose index is
    decided by [lia]. *)
Ltac lk :=
  repeat first
    [ rewrite lookup_app_l by (autorewrite with len; lia)
    | rewrite lookup_app_r by (autorewrite with len; lia)
    | rewrite lookup_take_lt by lia
    | rewrite lookup_drop
    | rewrite lookup_splice_lt by (autorewrite with len; lia)
    | rewrite lookup_splice_ge by (autorewrite with len; lia) ];
  autorewrite with len.

(** Run the [let*] steps of an [option] computation whose heads are known. *)
Ltac opt := repeat (progress cbn [mbind option_bind option_map fst snd]).

(** [bytes] of a literal list. *)
Ltac byte_list := repeat (apply Forall_cons_2; [unfold in_width; lia|]); apply Forall_nil_2.

(** ** Bit operations as arithmetic *)

Lemma land_ones_mod n x : (0 <= n)%Z -> Z.land x (2 ^ n - 1) = (x mod 2 ^ n)%Z.
Proof. intros. rewrite <-Z.land_ones by done. by rewrite Z.ones_equiv, Z.sub_1_r. Qed.

Lemma land_255 x : Z.land x 255 = (x mod 256)%Z.
Proof. apply (land_ones_mod 8). lia. Qed.

(** Two numbers with disjoint bits. *)
Lemma lxor_shiftl_add n x y :
  (0 <= n)%Z -> (0 <= x < 2 ^ n)%Z -> Z.lxor x (Z.shiftl y n) = (x + y * 2 ^ n)%Z.
Proof.
  intros Hn Hx. rewrite <-Z.shiftl_mul_pow2 by done. symmetry. apply Z.add_nocarry_lxor.
  apply Z.bits_inj'. intros i Hi. rewrite Z.land_spec, Z.bits_0.
  destruct (decide (i < n)%Z).
  - rewrite Z.shiftl_spec_low by done. apply andb_false_r.
  - rewrite <-(Z.mod_small x (2 ^ n)) by done. rewrite Z.mod_pow2_bits_high by lia. done.
Qed.

Lemma lor_shiftl_add n x y :
  (0 <= n)%Z -> (0 <= x < 2 ^ n)%Z -> Z.lor x (Z.shiftl y n) = (x + y * 2 ^ n)%Z.
Proof.
  intros Hn Hx. rewrite <-lxor_shiftl_add by done. symmetry. apply Z.lxor_lor.
  apply Z.bits_inj'. intros i Hi. rewrite Z.land_spec, Z.bits_0.
  destruct (decide (i < n)%Z).
  - rewrite Z.shiftl_spec_low by done. apply andb_false_r.
  - rewrite <-(Z.mod_small x (2 ^ n)) by done. rewrite Z.mod_pow2_bits_high by lia. done.
Qed.

(** Any number is its low part and its high part. *)
Lemma lxor_split n x :
  (0 <= n)%Z -> Z.lxor (x mod 2 ^ n) (Z.shiftl (Z.shiftr x n) n) = x.
Proof.
  intros Hn. rewrite lxor_shiftl_add by (try done; apply Z.mod_pos_bound; lia).
  rewrite Z.shiftr_div_pow2 by done.
  pose proof (Z.div_mod x (2 ^ n) ltac:(lia)). lia.
Qed.

Lemma lxor_in_width w x y :
  (0 <= w)%Z -> in_width w x -> in_width w y -> in_width w (Z.lxor x y).
Proof.
  unfold in_width. intros Hw [Hx1 Hx2] [Hy1 Hy2].
  assert (0 <= Z.lxor x y)%Z by (apply Z.lxor_nonneg; lia). split; [done|].
  destruct (decide (Z.lxor x y = 0)%Z) as [->|]; [lia|].
  apply Z.log2_lt_pow2; [lia|].
  pose proof (Z.log2_lxor x y Hx1 Hy1).
  destruct (decide (x = 0)%Z) as [->|]; destruct (decide (y = 0)%Z) as [->|].
  - done.
  - rewrite Z.lxor_0_l. apply Z.log2_lt_pow2; lia.
  - rewrite Z.lxor_0_r. apply Z.log2_lt_pow2; lia.
  - apply Z.log2_lt_pow2 in Hx2, Hy2; lia.
Qed.

Lemma shiftr_in_width w x n : (0 <= n)%Z -> in_width w x -> in_width w (Z.shiftr x n).
Proof.
  unfold in_width. intros Hn [Hx1 Hx2]. rewrite Z.shiftr_div_pow2 by done.
  split; [apply Z.div_pos; lia|].
  apply Z.le_lt_trans with x; [|done]. apply Z.div_le_upper_bound; [lia|]. nia.
Qed.

Lemma land_in_width w x y : (0 <= w)%Z -> in_width w x -> in_width w (Z.land x y).
Proof.
  unfold in_width. intros Hw Hx.
  rewrite <-(Z.mod_small x (2 ^ w)) by done. rewrite <-Z.land_ones by done.
  rewrite <-Z.land_assoc, (Z.land_comm _ y), Z.land_assoc, Z.land_ones by done.
  apply Z.mod_pos_bound. lia.
Qed.

Lemma lor_in_width w x y :
  (0 <= w)%Z -> in_width w x -> in_width w y -> in_width w (Z.lor x y).
Proof.
  unfold in_width. intros Hw [Hx1 Hx2] [Hy1 Hy2].
  assert (0 <= Z.lor x y)%Z by (apply Z.lor_nonneg; lia). split; [done|].
  assert (forall z, 0 <= z < 2 ^ w -> Z.shiftr z w = 0)%Z as Hs
    by (intros z Hz; rewrite Z.shiftr_div_pow2 by lia; apply Z.div_small; lia).
  assert (Z.shiftr (Z.lor x y) w = 0)%Z as H0 by (rewrite Z.shiftr_lor, !Hs by lia; done).
  rewrite Z.shiftr_div_pow2 in H0 by lia. apply Z.div_small_iff in H0; [|apply Z.pow_nonzero; lia].
  assert (0 < 2 ^ w)%Z by (apply Z.pow_pos_nonneg; lia). lia.
Qed.

#[export] Hint Resolve lor_in_width lxor_in_width shiftr_in_width land_in_width : width.

Lemma le_load_cons b l : in_width 8 b -> le_load (b :: l) = Z.lxor b (Z.shiftl (le_load l) 8).
Proof. intros. rewrite lxor_shiftl_add by (done || lia). simpl. lia. Qed.

Lemma le_load_nonneg l : bytes l -> (0 <= le_load l < 256 ^ Z.of_nat (length l))%Z.
Proof.
  induction 1 as [|b l Hb Hl IH]; [simpl; lia|].
  rewrite length_cons, Nat2Z.inj_succ, Z.pow_succ_r by lia. unfold in_width in Hb.
  change (le_load (b :: l)) with (b + 256 * le_load l)%Z. change (2 ^ 8)%Z with 256%Z in Hb. nia.
Qed.

Lemma bytes_take n l : bytes l -> bytes (take n l).
Proof. apply Forall_take. Qed.

Lemma bytes_drop n l : bytes l -> bytes (drop n l).
Proof. apply Forall_drop. Qed.

Lemma bytes_lookup l i b : bytes l -> l !! i = Some b -> in_width 8 b.
Proof. intros Hl Hi. exact (Forall_lookup_1 _ _ _ _ Hl Hi). Qed.

#[export] Hint Resolve bytes_take bytes_drop bytes_lookup : width.

Lemma le_load_in_width l w :
  bytes l -> (8 * Z.of_nat (length l) <= w)%Z -> in_width w (le_load l).
Proof.
  intros Hl Hw. pose proof (le_load_nonneg l Hl) as [H1 H2]. split; [done|].
  apply Z.lt_le_trans with (1 := H2).
  change 256%Z with (2 ^ 8)%Z. rewrite <-Z.pow_mul_r by lia. apply Z.pow_le_mono_r; lia.
Qed.

Lemma le_load_app xs ys :
  bytes xs ->
  le_load (xs ++ ys) = Z.lxor (le_load xs) (Z.shiftl (le_load ys) (8 * Z.of_nat (length xs))).
Proof.
  intros Hx. rewrite lxor_shiftl_add by (lia || by apply le_load_in_width).
  induction Hx as [|b xs Hb Hx IH].
  - simpl. lia.
  - rewrite length_cons, Nat2Z.inj_succ, Z.mul_succ_r, Z.pow_add_r by lia. simpl. rewrite IH. lia.
Qed.

Lemma slice_Some l p n : (p + n <= length l)%nat -> slice l p n = Some (take n (drop p l)).
Proof. intros. unfold slice. by rewrite decide_True. Qed.

Lemma take_take_drop {A : Type} (l : list A) p n :
  take (p + n) l = take p l ++ take n (drop p l).
Proof. symmetry. apply take_take_drop. Qed.

Lemma take_S_lookup {A : Type} (l : list A) p x :
  l !! p = Some x -> take (S p) l = take p l ++ [x].
Proof. apply take_S_r. Qed.

(** ** Arrays indexed by Z *)

(** [l[i]]: a negative index is out of range too. *)
Definition rd {A : Type} (l : list A) (i : Z) : option A :=
  if (i <? 0)%Z then None else l !! Z.to_nat i.

(** [l[i] = v] *)
Definition wrz {A : Type} (l : list A) (i : Z) (v : A) : option (list A) :=
  if (i <? 0)%Z then None else wr l (Z.to_nat i) v.

Lemma rd_lookup {A} (l : list A) i : (0 <= i)%Z -> rd l i = l !! Z.to_nat i.
Proof. intros. unfold rd. by destruct (Z.ltb_spec i 0); [lia|]. Qed.

Lemma rd_Some {A} (l : list A) i :
  (0 <= i < Z.of_nat (length l))%Z -> exists x, rd l i = Some x.
Proof. intros. rewrite rd_lookup by lia. apply lookup_lt_is_Some_2. lia. Qed.

Lemma yields_rd {A} (l : list A) i (Q : A -> Prop) :
  (0 <= i < Z.of_nat (length l))%Z -> (forall x, rd l i = Some x -> Q x) -> yields (rd l i) Q.
Proof. intros Hi HQ. destruct (rd_Some l i Hi) as [x Hx]. rewrite Hx. by apply HQ. Qed.

Lemma rd_range {A} (l : list A) i x : rd l i = Some x -> (0 <= i < Z.of_nat (length l))%Z.
Proof.
  unfold rd. destruct (Z.ltb_spec i 0); [done|]. intros Hx. apply lookup_lt_Some in Hx. lia.
Qed.

Lemma rd_Forall {A} (P : A -> Prop) l i x : Forall P l -> rd l i = Some x -> P x.
Proof.
  unfold rd. destruct (i <? 0)%Z; [done|]. intros Hl Hx. exact (Forall_lookup_1 _ _ _ _ Hl Hx).
Qed.

Lemma wrz_Some {A} (l : list A) i v :
  (0 <= i < Z.of_nat (length l))%Z -> wrz l i v = Some (<[Z.to_nat i := v]> l).
Proof. intros. unfold wrz. destruct (Z.ltb_spec i 0); [lia|]. apply wr_Some. lia. Qed.

Lemma wrz_inv {A} (l l' : list A) i v :
  wrz l i v = Some l' -> (0 <= i < Z.of_nat (length l))%Z /\ l' = <[Z.to_nat i := v]> l.
Proof.
  unfold wrz, wr. destruct (Z.ltb_spec i 0); [done|]. destruct (decide _); [|done]. intros [= <-]. split; [lia|done].
Qed.

Lemma rd_insert_ne {A} (l : list A) i j v :
  (0 <= i)%Z -> i <> j -> rd (<[Z.to_nat i := v]> l) j = rd l j.
Proof.
  intros Hi Hne. unfold rd. destruct (Z.ltb_spec j 0); [done|]. apply list_lookup_insert_ne. lia.
Qed.

(** ** Checking a property of all bytes by evaluation *)

Lemma forall_range (f : Z -> bool) (n : nat) :
  forallb f (seqZ 0 (Z.of_nat n)) = true -> forall x, (0 <= x < Z.of_nat n)%Z -> f x = true.
Proof. intros H x Hx. rewrite forallb_forall in H. apply H, list_elem_of_In, elem_of_seqZ. lia. Qed.

Lemma forall_bytes (f : Z -> bool) :
  forallb f (seqZ 0 256) = true -> forall b, in_width 8 b -> f b = true.
Proof. intros H b Hb. apply (forall_range f 256); [done|]. unfold in_width in Hb. lia. Qed.

(** ** Contiguous masks, and words as bytes *)

Section LandMask.
Local Open Scope Z_scope.
Local Open Scope word_scope.

Lemma land_mask a b x : 0 <= a <= b -> Z.land x (2 ^ b - 2 ^ a) = (x mod 2 ^ b) / 2 ^ a * 2 ^ a.
Proof.
  intros Hab. rewrite <-Z.shiftr_div_pow2, <-Z.shiftl_mul_pow2, <-Z.land_ones by lia.
  replace (2 ^ b - 2 ^ a) with (Z.ones (b - a) <<< a).
  2:{ rewrite Z.shiftl_mul_pow2, Z.ones_equiv by lia.
      replace (2 ^ b) with (2 ^ (b - a) * 2 ^ a) by (rewrite <-Z.pow_add_r by lia; f_equal; lia). lia. }
  apply Z.bits_inj'. intros i Hi. rewrite Z.land_spec, !Z.shiftl_spec by lia.
  destruct (Z.lt_ge_cases i a) as [Hlt|Hge].
  - rewrite !(Z.testbit_neg_r _ (i - a)) by lia. by rewrite andb_false_r.
  - rewrite Z.shiftr_spec, Z.sub_add, Z.land_spec by lia. f_equal.
    rewrite !Z.testbit_ones_nonneg by lia.
    destruct (Z.ltb_spec (i - a) (b - a)), (Z.ltb_spec i b); (lia || done).
Qed.
End LandMask.

Lemma length_le_bytes n v : length (le_bytes n v) = n.
Proof. revert v. induction n as [|n IH]; intros v; [done|]. cbn. by rewrite IH. Qed.

Lemma bytes_le_bytes n v : bytes (le_bytes n v).
Proof.
  revert v. induction n as [|n IH]; intros v; [apply Forall_nil_2|].
  apply Forall_cons_2; [apply Z.mod_pos_bound; lia|apply IH].
Qed.

Lemma le_load_bytes n v : (0 <= v < 256 ^ Z.of_nat n)%Z -> le_load (le_bytes n v) = v.
Proof.
  revert v. induction n as [|n IH]; intros v Hv; [cbn in *; lia|].
  rewrite Nat2Z.inj_succ, Z.pow_succ_r in Hv by lia.
  change (v mod 256 + 256 * le_load (le_bytes n (v / 256)) = v)%Z.
  rewrite IH; [pose proof (Z.div_mod v 256 ltac:(lia)); lia|].
  split; [apply Z.div_pos; lia|apply Z.div_lt_upper_bound; lia].
Qed.

Lemma le_bytes_load l : bytes l -> le_bytes (length l) (le_load l) = l.
Proof.
  induction 1 as [|b l Hb Hl IH]; [done|].
  change (le_load (b :: l)) with (b + 256 * le_load l)%Z. cbn [length le_bytes].
  unfold in_width in Hb. change (2 ^ 8)%Z with 256%Z in Hb.
  rewrite Z.mul_comm, Z.mod_add, Z.div_add, Z.mod_small, Z.div_small by lia. by rewrite Z.add_0_l, IH.
Qed.
#[export] Hint Resolve bytes_le_bytes : width.
