(* ===== verification/StateError.v ===== *)
(** * A state and error monad

    [M S E A]: a computation that reads and writes a state of type [S] and ends in
    an error of type [E] or a value of type [A]; [None] is an access out of range
    or exhausted fuel.  Total-correctness weakest preconditions [wp] give the
    components their specifications: a [wp] fact says the computation produces a
    result, and which. *)

From stdpp Require Import base list.
From Stdlib Require Import Lia.
From S2P Require Import Prelude.

Definition M (S E A : Type) : Type := S -> option (S * (E + A)).

#[export] Instance M_ret S E : MRet (M S E) := fun A a s => Some (s, inr a).

#[export] Instance M_bind S E : MBind (M S E) := fun A B k m s =>
  match m s with
  | None => None
  | Some (s, inl e) => Some (s, inl e)
  | Some (s, inr a) => k a s
  end.

Definition throw {S E A} (e : E) : M S E A := fun s => Some (s, inl e).
Definition get {S E} : M S E S := fun s => Some (s, inr s).
Definition put {S E} (s : S) : M S E unit := fun _ => Some (s, inr tt).
Definition modify {S E} (f : S -> S) : M S E unit := fun s => Some (f s, inr tt).

(** A checked access. *)
Definition access {S E A} (o : option A) : M S E A :=
  fun s => match o with Some a => Some (s, inr a) | None => None end.

(** Errors as values. *)
Definition catch {S E A} (m : M S E A) : M S E (E + A) :=
  fun s => match m s with Some (s, r) => Some (s, inr r) | None => None end.

(** [f] runs on every exit of [m]: [goto done]. *)
Definition finally {S E A} (m : M S E A) (f : S -> S) : M S E A :=
  fun s => match m s with Some (s, r) => Some (f s, r) | None => None end.

(** [inl] continues, [inr] leaves the loop. *)
Fixpoint mloop {S E I R} (fuel : nat) (body : I -> M S E (I + R)) (i : I) : M S E R :=
  match fuel with
  | O => fun _ => None
  | Datatypes.S fuel =>
      r ← body i;
      match r with
      | inl i => mloop fuel body i
      | inr r => mret r
      end
  end.

(** ** Weakest preconditions *)

Section Wp.
Context {S E : Type}.

Definition wp {A} (m : M S E A) (Q : A -> S -> Prop) (X : E -> S -> Prop) (s : S) : Prop :=
  match m s with
  | None => False
  | Some (s', inr a) => Q a s'
  | Some (s', inl e) => X e s'
  end.

Lemma wp_ret {A} (a : A) Q X s : Q a s -> wp (mret a) Q X s.
Proof. done. Qed.

Lemma wp_bind {A B} (m : M S E A) (k : A -> M S E B) Q X s :
  wp m (fun a s => wp (k a) Q X s) X s -> wp (m ≫= k) Q X s.
Proof. unfold wp, mbind, M_bind. by destruct (m s) as [[s' [e|a]]|]. Qed.

Lemma wp_bind_inv {A B} (m : M S E A) (k : A -> M S E B) Q X s :
  wp (m ≫= k) Q X s -> wp m (fun a s => wp (k a) Q X s) X s.
Proof. unfold wp, mbind, M_bind. by destruct (m s) as [[s' [e|a]]|]. Qed.

Lemma wp_throw {A} (e : E) (Q : A -> S -> Prop) (X : E -> S -> Prop) s :
  X e s -> wp (throw e) Q X s.
Proof. done. Qed.

Lemma wp_get (Q : S -> S -> Prop) X s : Q s s -> wp get Q X s.
Proof. done. Qed.

Lemma wp_put s' (Q : unit -> S -> Prop) X s : Q tt s' -> wp (put s') Q X s.
Proof. done. Qed.

Lemma wp_modify f (Q : unit -> S -> Prop) X s : Q tt (f s) -> wp (modify f) Q X s.
Proof. done. Qed.

Lemma wp_access {A} (o : option A) a (Q : A -> S -> Prop) X s :
  o = Some a -> Q a s -> wp (access o) Q X s.
Proof. intros -> HQ. done. Qed.

Lemma wp_catch {A} (m : M S E A) Q X s :
  wp m (fun a => Q (inr a)) (fun e => Q (inl e)) s -> wp (catch m) Q X s.
Proof. unfold wp, catch. by destruct (m s) as [[s' [e|a]]|]. Qed.

Lemma wp_finally {A} (m : M S E A) (f : S -> S) Q X s :
  wp m (fun a s => Q a (f s)) (fun e s => X e (f s)) s -> wp (finally m f) Q X s.
Proof. unfold wp, finally. by destruct (m s) as [[s' [e|a]]|]. Qed.

Lemma wp_mono {A} (m : M S E A) (Q Q' : A -> S -> Prop) (X X' : E -> S -> Prop) s :
  wp m Q X s -> (forall a s, Q a s -> Q' a s) -> (forall e s, X e s -> X' e s) -> wp m Q' X' s.
Proof. unfold wp. intros H HQ HX. destruct (m s) as [[s' [e|a]]|]; eauto. Qed.

(** A result and what is known of it. *)
Lemma wp_result {A} (m : M S E A) Q X s :
  wp m Q X s ->
  exists s' r, m s = Some (s', r) /\ match r with inr a => Q a s' | inl e => X e s' end.
Proof. unfold wp. destruct (m s) as [[s' [e|a]]|]; [eauto..|done]. Qed.

(** A loop with an invariant and a measure that decreases at every turn. *)
Lemma wp_mloop {I R} (Inv : I -> S -> Prop) (m : I -> S -> nat) (body : I -> M S E (I + R)) Q X :
  (forall i s, Inv i s ->
     wp (body i)
       (fun r s' => match r with inl i' => Inv i' s' /\ (m i' s' < m i s)%nat | inr r => Q r s' end)
       X s) ->
  forall fuel i s, Inv i s -> (m i s < fuel)%nat -> wp (mloop fuel body i) Q X s.
Proof.
  intros Hbody fuel. induction fuel as [|fuel IH]; intros i s Hi Hm; [lia|].
  cbn [mloop]. apply wp_bind. eapply wp_mono; [by apply Hbody| |done].
  intros [i'|r] s' Hr; [|done]. apply IH; [apply Hr|lia].
Qed.
End Wp.

(** One step of a [wp] goal. *)
Ltac wp_step :=
  lazymatch goal with
  | |- wp (mret _) _ _ _ => apply wp_ret
  | |- wp (throw _) _ _ _ => apply wp_throw
  | |- wp get _ _ _ => apply wp_get
  | |- wp (put _) _ _ _ => apply wp_put
  | |- wp (modify _) _ _ _ => apply wp_modify
  | |- wp (catch _) _ _ _ => apply wp_catch
  | |- wp (finally _ _) _ _ _ => apply wp_finally
  | |- wp (mbind _ _) _ _ _ => apply wp_bind
  end; cbv beta zeta.
Ltac wps := repeat wp_step.
