(* ===== verification/SzTypes.v ===== *)
(** * Result codes of the 7-Zip core

    src/native/sevenzip_bridge/7z2604-src/C/7zTypes.h: the values of [SRes], shared
    by the decoders. *)

Inductive SRes :=
  | SZ_OK | SZ_ERROR_DATA | SZ_ERROR_MEM | SZ_ERROR_CRC | SZ_ERROR_UNSUPPORTED | SZ_ERROR_PARAM
  | SZ_ERROR_INPUT_EOF | SZ_ERROR_OUTPUT_EOF | SZ_ERROR_READ | SZ_ERROR_WRITE | SZ_ERROR_PROGRESS
  | SZ_ERROR_FAIL | SZ_ERROR_THREAD | SZ_ERROR_ARCHIVE | SZ_ERROR_NO_ARCHIVE.

(** [if (res != SZ_OK)] *)
Definition not_ok (r : SRes) : bool := match r with SZ_OK => false | _ => true end.
