(* ===== verification/Delta.v ===== *)
(** * Delta filter (src/native/sevenzip_bridge/7z2604-src/C/Delta.c)

    [Delta_Encode] replaces every byte by its difference with the byte [delta]
    positions before, [Delta_Decode] undoes it; both work in place on a buffer
    and carry the last [delta] plain bytes of the stream in [state].  The
    definitions follow the C loops over checked array accesses; the
    specification is a queue of the last [delta] plain bytes. *)

From stdpp Require Import base numbers list list_numbers.
From Stdlib Require Import ZArith Lia.
From S2P Require Import Prelude.

Definition DELTA_STATE_SIZE : nat := 256.

(** ** The C functions *)

Definition Delta_Init (state : list Z) : option (list Z) :=
  option_map snd
    (while (S DELTA_STATE_SIZE) (fun '(i, _) => i <? DELTA_STATE_SIZE)
       (fun '(i, st) => st ← wr st i 0%Z; Some (S i, st)) (O, state)).

(** [do temp[i] = state[i]; while (++i != delta)] *)
Definition copy_state (temp state : list Z) (delta : nat) : option (list Z) :=
  option_map snd
    (do_while (S DELTA_STATE_SIZE)
       (fun '(i, temp) => b ← state !! i; temp ← wr temp i b; Some (S i, temp))
       (fun '(i, _) => negb (i =? delta)) (O, temp)).

(** The branch [size <= delta] of [Delta_Encode]. *)
Definition encode_short (state temp : list Z) (delta : nat) (data : list Z)
  : option (list Z * list Z) :=
  let size := length data in
  '(i, data, temp) ←
    do_while (S size)
      (fun '(i, data, temp) =>
         b ← data !! i; t ← temp !! i;
         data ← wr data i (u8 (b - t)); temp ← wr temp i b; Some (S i, data, temp))
      (fun '(i, _, _) => negb (i =? size)) (O, data, temp);
  '(_, _, state) ←
    do_while (S delta)
      (fun '(k, i, state) =>
         let i := if i =? delta then O else i in
         t ← temp !! i; state ← wr state k t; Some (S k, S i, state))
      (fun '(k, _, _) => negb (k =? delta)) (O, i, state);
  Some (state, data).

(** [--p; *p = ( *p - p[dif])] with [dif = -delta] *)
Definition sub_back (delta : nat) '((p, data) : nat * list Z) : option (nat * list Z) :=
  match p with
  | O => None
  | S p =>
      if p <? delta then None
      else a ← data !! p; b ← data !! (p - delta)%nat;
           data ← wr data p (u8 (a - b)); Some (p, data)
  end.

(** The branch [size > delta] of [Delta_Encode]. *)
Definition encode_long (state temp : list Z) (delta : nat) (data : list Z)
  : option (list Z * list Z) :=
  let size := length data in
  '(_, p, state) ←
    do_while (S delta)
      (fun '(i, p, state) => b ← data !! p; state ← wr state i b; Some (S i, S p, state))
      (fun '(i, _, _) => negb (i =? delta)) (O, (size - delta)%nat, state);
  s1 ← (if Nat.odd (size - delta) then sub_back delta (p, data) else Some (p, data));
  s2 ← while (S size) (fun '(p, _) => negb (p =? delta))
         (fun s => s ← sub_back delta s; sub_back delta s) s1;
  '(_, _, data) ←
    do_while (S delta)
      (fun '(p, dif, data) =>
         match p, dif with
         | S p, S dif => a ← data !! p; t ← temp !! dif;
                         data ← wr data p (u8 (a - t)); Some (p, dif, data)
         | _, _ => None
         end)
      (fun '(_, dif, _) => negb (dif =? 0)) (s2.1, delta, s2.2);
  Some (state, data).

(** [temp] is the uninitialised stack array of the C function. *)
Definition Delta_Encode (temp state : list Z) (delta : nat) (data : list Z)
  : option (list Z * list Z) :=
  if length data =? 0 then Some (state, data)
  else
    temp ← copy_state temp state delta;
    if length data <=? delta then encode_short state temp delta data
    else encode_long state temp delta data.

(** The branch [size <= delta] of [Delta_Decode]: the state and data positions
    at which the final copy starts. *)
Definition decode_short (state : list Z) (delta : nat) (data : list Z)
  : option (list Z * nat * list Z * nat) :=
  let size := length data in
  '(i, data) ←
    do_while (S size)
      (fun '(i, data) =>
         a ← data !! i; b ← state !! i; data ← wr data i (u8 (a + b)); Some (S i, data))
      (fun '(i, _) => negb (i =? size)) (O, data);
  '(sp, _, state) ←
    while (S delta) (fun '(_, delta, _) => negb (delta =? i))
      (fun '(sp, delta, state) =>
         b ← state !! (sp + i)%nat; state ← wr state sp b; Some (S sp, pred delta, state))
      (O, delta, state);
  Some (state, sp, data, (size - i)%nat).

Definition decode_long (state : list Z) (delta : nat) (data : list Z)
  : option (list Z * nat * list Z * nat) :=
  let size := length data in
  '(p, data) ←
    do_while (S delta)
      (fun '(i, data) =>
         a ← data !! i; b ← state !! i; data ← wr data i (u8 (a + b)); Some (S i, data))
      (fun '(i, _) => negb (i =? delta)) (O, data);
  '(p, data) ←
    do_while (S size)
      (fun '(p, data) =>
         a ← data !! p; b ← data !! (p - delta)%nat;
         data ← wr data p (u8 (a + b)); Some (S p, data))
      (fun '(p, _) => negb (p =? size)) (p, data);
  Some (state, O, data, (p - delta)%nat).

Definition Delta_Decode (state : list Z) (delta : nat) (data : list Z)
  : option (list Z * list Z) :=
  let size := length data in
  if size =? 0 then Some (state, data)
  else
    '(state, sp, data, p) ←
      (if size <=? delta then decode_short state delta data else decode_long state delta data);
    '(_, _, state) ←
      do_while (S size)
        (fun '(sp, p, state) => b ← data !! p; state ← wr state sp b; Some (S sp, S p, state))
        (fun '(_, p, _) => negb (p =? size)) (sp, p, state);
    Some (state, data).

(** ** Specification: a queue of the last [delta] plain bytes *)

Fixpoint delta_enc (q data : list Z) : list Z :=
  match data, q with
  | b :: data, h :: q => u8 (b - h) :: delta_enc (q ++ [b]) data
  | _, _ => []
  end.

Fixpoint delta_dec (q data : list Z) : list Z :=
  match data, q with
  | b :: data, h :: q => let x := u8 (b + h) in x :: delta_dec (q ++ [x]) data
  | _, _ => []
  end.

(** The queue after the plain bytes [plain]. *)
Definition queue_after (q plain : list Z) : list Z := drop (length plain) (q ++ plain).

(** The state array: the queue in its first [delta] cells, the rest untouched. *)
Definition state_with (q state : list Z) : list Z := q ++ drop (length q) state.

(** ** The specification *)

Lemma length_delta_enc q data : q <> [] -> length (delta_enc q data) = length data.
Proof.
  revert q. induction data as [|b data IH]; intros [|h q] Hq; simpl; try done.
  by rewrite IH by (by destruct q).
Qed.

Lemma length_delta_dec q data : q <> [] -> length (delta_dec q data) = length data.
Proof.
  revert q. induction data as [|b data IH]; intros [|h q] Hq; simpl; try done.
  by rewrite IH by (by destruct q).
Qed.

Lemma lookup_delta_enc q data i b h :
  q <> [] -> data !! i = Some b -> (q ++ data) !! i = Some h ->
  delta_enc q data !! i = Some (u8 (b - h)).
Proof.
  revert q i. induction data as [|b' data IH]; intros [|h' q] i Hq Hb Hh; try done.
  destruct i as [|i]; simpl in *; [congruence|].
  apply IH; [by destruct q|done|]. by rewrite <-app_assoc.
Qed.

Lemma lookup_delta_dec q data i b h :
  q <> [] -> data !! i = Some b -> (q ++ delta_dec q data) !! i = Some h ->
  delta_dec q data !! i = Some (u8 (b + h)).
Proof.
  revert q i. induction data as [|b' data IH]; intros [|h' q] i Hq Hb Hh; try done.
  destruct i as [|i]; simpl in *; [congruence|].
  apply IH; [by destruct q|done|]. by rewrite <-app_assoc.
Qed.

Lemma bytes_delta_enc q data : bytes (delta_enc q data).
Proof.
  revert q. induction data as [|b data IH]; intros [|h q]; simpl; constructor; auto with width.
  apply IH.
Qed.

Lemma bytes_delta_dec q data : bytes (delta_dec q data).
Proof.
  revert q. induction data as [|b data IH]; intros [|h q]; simpl; constructor; auto with width.
  apply IH.
Qed.

Lemma u8_sub_add b h : in_width 8 b -> u8 (u8 (b - h) + h) = b.
Proof. intros. unfold wrap. rewrite Zplus_mod_idemp_l, Z.sub_add. by apply Z.mod_small. Qed.

Lemma u8_add_sub b h : in_width 8 b -> u8 (u8 (b + h) - h) = b.
Proof. intros. unfold wrap. rewrite Zminus_mod_idemp_l, Z.add_simpl_r. by apply Z.mod_small. Qed.

Lemma delta_dec_enc q data : q <> [] -> bytes data -> delta_dec q (delta_enc q data) = data.
Proof.
  revert q. induction data as [|b data IH]; intros [|h q] Hq Hd; try done.
  inversion_clear Hd. simpl. rewrite u8_sub_add by done. f_equal. apply IH; [by destruct q|done].
Qed.

Lemma delta_enc_dec q data : q <> [] -> bytes data -> delta_enc q (delta_dec q data) = data.
Proof.
  revert q. induction data as [|b data IH]; intros [|h q] Hq Hd; try done.
  inversion_clear Hd. simpl. rewrite u8_add_sub by done. f_equal. apply IH; [by destruct q|done].
Qed.

Lemma length_queue_after q plain : length (queue_after q plain) = length q.
Proof. unfold queue_after. len. Qed.

Lemma queue_after_cons h q b plain : queue_after (h :: q) (b :: plain) = queue_after (q ++ [b]) plain.
Proof. unfold queue_after. simpl. by rewrite <-app_assoc. Qed.

Lemma delta_enc_app q xs ys :
  q <> [] -> delta_enc q (xs ++ ys) = delta_enc q xs ++ delta_enc (queue_after q xs) ys.
Proof.
  revert q. induction xs as [|b xs IH]; intros [|h q] Hq; try done.
  - unfold queue_after. simpl. by rewrite app_nil_r.
  - rewrite queue_after_cons. simpl. f_equal. apply IH. by destruct q.
Qed.

Lemma length_state_with q state :
  (length q <= length state)%nat -> length (state_with q state) = length state.
Proof. unfold state_with. len. Qed.

(** ** The loops implement the specification *)

Section Refinement.
Context (state : list Z) (delta : nat).
Hypothesis delta_pos : (0 < delta)%nat.
Hypothesis delta_max : (delta <= DELTA_STATE_SIZE)%nat.
Hypothesis state_size : length state = DELTA_STATE_SIZE.

Let q := take delta state.

Lemma length_q : length q = delta.
Proof. unfold q. len. Qed.

Lemma q_nonempty : q <> [].
Proof. intros H. pose proof length_q as Hl. rewrite H in Hl. simpl in Hl. lia. Qed.

Lemma copy_state_spec temp :
  length temp = DELTA_STATE_SIZE -> copy_state temp state delta = Some (splice delta state temp).
Proof.
  intros Ht. unfold copy_state.
  rewrite (do_while_run
    (fun '(i, t) => (i < delta)%nat /\ t = splice i state temp)
    (fun '(i, _) => (delta - i)%nat) (delta, splice delta state temp)); [done|..].
  - split; [lia|done].
  - lia.
  - intros [i t] [Hi ->].
    destruct (lookup_lt_is_Some_2 state i) as [b Hb]; [lia|]. rewrite Hb. opt.
    rewrite (wr_splice_up i b) by (done || lia). opt. eexists; split; [done|]; opt.
    destruct (Nat.eqb_spec (S i) delta) as [Heq|]; simpl; [by rewrite Heq|]. repeat split; lia.
Qed.

Section Encode.
Context (temp data : list Z).
Hypothesis temp_size : length temp = DELTA_STATE_SIZE.
Hypothesis temp_state : forall i, (i < delta)%nat -> temp !! i = state !! i.
Hypothesis data_nonempty : (0 < length data)%nat.

Let size := length data.
Let enc := delta_enc q data.
Let st' := state_with (queue_after q data) state.

Lemma length_enc : length enc = size.
Proof. unfold enc. rewrite length_delta_enc; [done|apply q_nonempty]. Qed.

Lemma length_st' : length st' = DELTA_STATE_SIZE.
Proof.
  unfold st'. rewrite length_state_with; [done|].
  rewrite length_queue_after, length_q. lia.
Qed.

Lemma st'_lookup k : (k < delta)%nat -> st' !! k = (q ++ data) !! (size + k)%nat.
Proof.
  intros Hk. unfold st', state_with. pose proof (length_queue_after q data).
  pose proof length_q. rewrite lookup_app_l by lia. unfold queue_after. by rewrite lookup_drop.
Qed.

Lemma splice_st' : splice delta st' state = st'.
Proof.
  unfold st', state_with, splice. pose proof (length_queue_after q data) as H1.
  pose proof length_q as H2. rewrite take_app_length' by lia. do 2 f_equal. lia.
Qed.

Lemma enc_lookup_state i a h :
  (i < delta)%nat -> data !! i = Some a -> state !! i = Some h -> enc !! i = Some (u8 (a - h)).
Proof.
  intros Hi Ha Hh. apply lookup_delta_enc; [apply q_nonempty|done|].
  pose proof length_q. rewrite lookup_app_l by lia. unfold q. by rewrite lookup_take_lt.
Qed.

Lemma enc_lookup_data i a h :
  (delta <= i)%nat -> data !! i = Some a -> data !! (i - delta)%nat = Some h ->
  enc !! i = Some (u8 (a - h)).
Proof.
  intros Hi Ha Hh. apply lookup_delta_enc; [apply q_nonempty|done|].
  pose proof length_q. rewrite lookup_app_r by lia. by rewrite length_q.
Qed.

Lemma encode_short_spec :
  (size <= delta)%nat -> encode_short state temp delta data = Some (st', enc).
Proof.
  intros Hs. unfold encode_short. fold size. pose proof length_enc.
  set (temp' := data ++ drop size temp).
  assert (length temp' = length temp) by (unfold temp', size; len).
  rewrite (do_while_run
    (fun '(i, d, t) => (i < size)%nat /\ d = splice i enc data /\ t = splice i temp' temp)
    (fun '(i, _, _) => (size - i)%nat) (size, enc, temp')); [|done|lia|].
  2:{ intros [[i d] t] (Hi & -> & ->).
      destruct (lookup_lt_is_Some_2 data i) as [a Ha]; [done|].
      destruct (lookup_lt_is_Some_2 state i) as [h Hh]; [lia|].
      opt. rewrite (lookup_splice_ge i i enc), Ha by lia. opt.
      rewrite (lookup_splice_ge i i temp'), temp_state, Hh by lia. opt.
      rewrite (wr_splice_up i _ enc) by first [lia|apply enc_lookup_state; done || lia]. opt.
      rewrite (wr_splice_up i _ temp') by first [lia|unfold temp'; by rewrite lookup_app_l]. opt.
      eexists; split; [done|]; opt.
      destruct (Nat.eqb_spec (S i) size) as [->|]; simpl; [|repeat split; lia].
      rewrite (splice_full size enc) by lia. unfold splice, temp'.
      by rewrite take_app_length' by done. }
  opt.
  rewrite (do_while_run
    (fun '(k, i, s) => (k < delta)%nat /\ s = splice k st' state /\
       i = (if decide (size + k <= delta)%nat then size + k else size + k - delta)%nat)
    (fun '(k, _, _) => (delta - k)%nat) (delta, size, st')); [done|..|lia|].
  - split; [lia|]. split; [done|]. rewrite decide_True by lia. lia.
  - intros [[k i] s] (Hk & -> & Hi).
    set (j := if i =? delta then O else i).
    assert (Hj : j = if decide (size + k < delta)%nat then (size + k)%nat else (size + k - delta)%nat).
    { unfold j. destruct (Nat.eqb_spec i delta); repeat case_decide; lia. }
    destruct (lookup_lt_is_Some_2 st' k) as [v Hv]; [rewrite length_st'; lia|].
    assert (temp' !! j = Some v) as ->.
    { rewrite <-Hv, st'_lookup by done. rewrite Hj. unfold temp'. pose proof length_q.
      case_decide.
      - rewrite lookup_app_r, lookup_drop, lookup_app_l by lia. fold size.
        unfold q. rewrite lookup_take_lt by lia.
        replace (size + (size + k - size))%nat with (size + k)%nat by lia. by apply temp_state.
      - rewrite lookup_app_l, lookup_app_r by lia. f_equal. lia. }
    opt. rewrite (wr_splice_up k v) by (rewrite ?length_st'; done). opt.
    eexists; split; [done|]; opt.
    destruct (Nat.eqb_spec (S k) delta) as [Heq|]; simpl.
    + rewrite Heq, splice_st'. do 2 f_equal. rewrite Hj. case_decide; lia.
    + split; [|lia]. split; [lia|]. split; [done|]. rewrite Hj. repeat case_decide; lia.
Qed.

Lemma sub_back_spec p :
  (delta <= p < size)%nat ->
  sub_back delta (S p, splice (S p) data enc) = Some (p, splice p data enc).
Proof.
  intros Hp. pose proof length_enc. unfold sub_back.
  destruct (Nat.ltb_spec p delta); [lia|].
  destruct (lookup_lt_is_Some_2 data p) as [a Ha]; [fold size; lia|].
  destruct (lookup_lt_is_Some_2 data (p - delta)) as [h Hh]; [fold size; lia|].
  rewrite !lookup_splice_lt, Ha, Hh by (fold size; lia). opt.
  rewrite (wr_splice_down p _ data enc); [done|done|].
  apply enc_lookup_data; done || lia.
Qed.

Lemma encode_tail_spec :
  (delta < size)%nat ->
  do_while (S delta)
    (fun '(p, dif, data) =>
       match p, dif with
       | S p, S dif => a ← data !! p; t ← temp !! dif;
                       data ← wr data p (u8 (a - t)); Some (p, dif, data)
       | _, _ => None
       end)
    (fun '(_, dif, _) => negb (dif =? 0)) (delta, delta, splice delta data enc)
  = Some (O, O, enc).
Proof.
  intros Hs. pose proof length_enc.
  apply (do_while_run
    (fun '(p, dif, d) => p = dif /\ (0 < p <= delta)%nat /\ d = splice p data enc)
    (fun '(p, _, _) => p)); [repeat split; lia|lia|].
  intros [[p dif] d] (<- & Hp & ->). destruct p as [|p]; [lia|].
  destruct (lookup_lt_is_Some_2 data p) as [a Ha]; [fold size; lia|].
  destruct (lookup_lt_is_Some_2 state p) as [h Hh]; [lia|].
  opt. rewrite lookup_splice_lt, Ha by (fold size; lia). opt.
  rewrite temp_state, Hh by lia. opt.
  rewrite (wr_splice_down p _ data enc) by first [done|apply enc_lookup_state; done || lia].
  opt. eexists; split; [done|]. opt.
  destruct (Nat.eqb_spec p 0) as [->|]; simpl; [done|]. repeat split; lia.
Qed.

Lemma encode_long_spec :
  (delta < size)%nat -> encode_long state temp delta data = Some (st', enc).
Proof.
  intros Hs. unfold encode_long. fold size. pose proof length_enc.
  rewrite (do_while_run
    (fun '(i, p, s) => (i < delta)%nat /\ p = (size - delta + i)%nat /\ s = splice i st' state)
    (fun '(i, _, _) => (delta - i)%nat) (delta, size, st')); [|repeat split; lia|lia|].
  2:{ intros [[i p] s] (Hi & -> & ->). opt.
      destruct (lookup_lt_is_Some_2 data (size - delta + i)) as [v Hv]; [fold size; lia|].
      rewrite Hv. opt. pose proof length_q.
      rewrite (wr_splice_up i v st') by first
        [rewrite length_st'; lia
        |rewrite st'_lookup, lookup_app_r by lia; rewrite <-Hv; f_equal; lia].
      opt. eexists; split; [done|]. opt.
      destruct (Nat.eqb_spec (S i) delta) as [Heq|]; simpl.
      - rewrite Heq, splice_st'. do 2 f_equal. lia.
      - repeat split; lia. }
  opt.
  assert (exists p, (delta <= p <= size)%nat /\ Nat.even (p - delta) = true /\
    (if Nat.odd (size - delta) then sub_back delta (size, data) else Some (size, data))
    = Some (p, splice p data enc)) as (p1 & Hp1 & Hev & ->).
  { assert (splice size data enc = data) as Hd by (apply splice_full; fold size; lia).
    destruct (Nat.odd (size - delta)) eqn:Hodd.
    - exists (size - 1)%nat. split; [lia|]. split.
      + rewrite <-Nat.negb_odd. replace (size - 1 - delta)%nat with (Nat.pred (size - delta)) by lia.
        rewrite Nat.odd_pred by lia. by rewrite <-Nat.negb_odd, Hodd.
      + rewrite <-Hd at 1. replace size with (S (size - 1)) at 1 2 by lia. by apply sub_back_spec; lia.
    - exists size. rewrite Hd. split; [lia|]. split; [by rewrite <-Nat.negb_odd, Hodd|done]. }
  opt.
  rewrite (while_run
    (fun '(p, d) => (delta <= p <= size)%nat /\ Nat.even (p - delta) = true /\ d = splice p data enc)
    fst (delta, splice delta data enc)); [|done|simpl; lia|].
  2:{ intros [p d] (Hp & Hpev & ->). opt.
      destruct (Nat.eqb_spec p delta) as [->|Hne]; cbn [negb]; [done|].
      destruct (p - delta)%nat as [|[|k]] eqn:Hk; [lia|done|].
      replace p with (S (S (delta + k))) by lia.
      rewrite sub_back_spec by lia. opt. rewrite sub_back_spec by lia.
      eexists; split; [done|]. repeat split; try lia; [|simpl; lia].
      by replace (delta + k - delta)%nat with k by lia. }
  opt. rewrite encode_tail_spec by done. done.
Qed.
End Encode.

Section Decode.
Context (data : list Z).
Hypothesis data_nonempty : (0 < length data)%nat.

Let size := length data.
Let dec := delta_dec q data.
Let st' := state_with (queue_after q dec) state.

Lemma length_dec : length dec = size.
Proof. unfold dec. rewrite length_delta_dec; [done|apply q_nonempty]. Qed.

Lemma dec_lookup_state i a h :
  (i < delta)%nat -> data !! i = Some a -> state !! i = Some h -> dec !! i = Some (u8 (a + h)).
Proof.
  intros Hi Ha Hh. apply lookup_delta_dec; [apply q_nonempty|done|].
  pose proof length_q. rewrite lookup_app_l by lia. unfold q. by rewrite lookup_take_lt.
Qed.

Lemma dec_lookup_data i a h :
  (delta <= i)%nat -> data !! i = Some a -> dec !! (i - delta)%nat = Some h ->
  dec !! i = Some (u8 (a + h)).
Proof.
  intros Hi Ha Hh. apply lookup_delta_dec; [apply q_nonempty|done|].
  pose proof length_q. rewrite lookup_app_r by lia. by rewrite length_q.
Qed.

(** The first loop of both branches, over the bytes that only need [state]. *)
Lemma decode_head_spec n :
  (0 < n <= size)%nat -> (n <= delta)%nat ->
  forall fuel, (n < fuel)%nat ->
  do_while fuel
    (fun '(i, data) =>
       a ← data !! i; b ← state !! i; data ← wr data i (u8 (a + b)); Some (S i, data))
    (fun '(i, _) => negb (i =? n)) (O, data)
  = Some (n, splice n dec data).
Proof.
  intros Hn Hnd fuel Hfuel. pose proof length_dec.
  apply (do_while_run
    (fun '(i, d) => (i < n)%nat /\ d = splice i dec data) (fun '(i, _) => (n - i)%nat));
    [split; [lia|done]|lia|].
  intros [i d] (Hi & ->). opt.
  destruct (lookup_lt_is_Some_2 data i) as [a Ha]; [fold size; lia|].
  destruct (lookup_lt_is_Some_2 state i) as [h Hh]; [lia|].
  rewrite lookup_splice_ge, Ha, Hh by (fold size; lia). opt.
  rewrite (wr_splice_up i _ dec) by first [done|apply dec_lookup_state; done || lia].
  opt. eexists; split; [done|]. opt.
  destruct (Nat.eqb_spec (S i) n) as [Heq|]; simpl; [by rewrite Heq|]. repeat split; lia.
Qed.

(** [for (; delta != i; state++, delta--) *state = state[i];] *)
Lemma decode_shift_spec :
  (size <= delta)%nat ->
  while (S delta) (fun '(_, delta, _) => negb (delta =? size))
    (fun '(sp, delta, state) =>
       b ← state !! (sp + size)%nat; state ← wr state sp b; Some (S sp, pred delta, state))
    (O, delta, state)
  = Some ((delta - size)%nat, size, splice (delta - size) (drop size state ++ take size state) state).
Proof.
  intros Hs. set (sh := drop size state ++ take size state).
  assert (length sh = length state) by (unfold sh; len).
  apply (while_run
    (fun '(sp, d, s) => (d + sp = delta)%nat /\ (size <= d)%nat /\ s = splice sp sh state)
    (fun '(_, d, _) => d)); [repeat split; lia|lia|].
  intros [[sp d] s] (Hd & Hge & ->). opt.
  destruct (Nat.eqb_spec d size) as [->|Hne]; cbn [negb].
  - do 2 f_equal; f_equal; lia.
  - destruct (lookup_lt_is_Some_2 state (sp + size)) as [b Hb]; [lia|].
    rewrite lookup_splice_ge, Hb by lia. opt.
    rewrite (wr_splice_up sp b sh).
    + opt. eexists; split; [done|]. repeat split; lia.
    + done.
    + unfold sh. rewrite lookup_app_l, lookup_drop by len. rewrite <-Hb. f_equal. lia.
Qed.

(** The final copy of the last plain bytes into the state array. *)
Lemma decode_final_spec st0 sp p :
  length st0 = DELTA_STATE_SIZE -> (p < size)%nat -> (sp + (size - p) = delta)%nat ->
  (forall k, (k < sp)%nat -> st0 !! k = st' !! k) ->
  (forall k, (delta <= k)%nat -> st0 !! k = state !! k) ->
  do_while (S size)
    (fun '(sp, p, state) => b ← dec !! p; state ← wr state sp b; Some (S sp, S p, state))
    (fun '(_, p, _) => negb (p =? size)) (sp, p, st0)
  = Some (delta, size, st').
Proof.
  intros Hl Hp Hsp Hlo Hhi. pose proof length_dec. pose proof length_q as Hq.
  pose proof (length_queue_after q dec) as Hqa.
  assert (length st' = DELTA_STATE_SIZE) as Hst'.
  { unfold st'. rewrite length_state_with; lia. }
  assert (forall k, (k < delta)%nat -> st' !! k = (q ++ dec) !! (size + k)%nat) as Hst'k.
  { intros k Hk. unfold st', state_with. rewrite lookup_app_l by lia.
    unfold queue_after. rewrite lookup_drop. f_equal. lia. }
  apply (do_while_run
    (fun '(s, i, st) => (p <= i < size)%nat /\ (s = sp + (i - p))%nat /\
       length st = DELTA_STATE_SIZE /\
       (forall k, (k < s)%nat -> st !! k = st' !! k) /\
       (forall k, (delta <= k)%nat -> st !! k = state !! k))
    (fun '(_, i, _) => (size - i)%nat)).
  - repeat split; try done; lia.
  - lia.
  - intros [[s i] st] (Hi & -> & Hlen & Hlo' & Hhi'). opt.
    destruct (lookup_lt_is_Some_2 dec i) as [b Hb]; [lia|]. rewrite Hb. opt.
    rewrite wr_Some by lia. opt. eexists; split; [done|]. opt.
    set (st2 := <[(sp + (i - p))%nat := b]> st).
    assert (length st2 = DELTA_STATE_SIZE) by (unfold st2; len).
    assert (forall k, (k < S (sp + (i - p)))%nat -> st2 !! k = st' !! k) as Hlo2.
    { intros k Hk. unfold st2. destruct (decide (k = sp + (i - p))%nat) as [->|].
      - rewrite list_lookup_insert_eq by lia. rewrite Hst'k, lookup_app_r by lia.
        rewrite <-Hb. f_equal. lia.
      - rewrite list_lookup_insert_ne by lia. apply Hlo'. lia. }
    assert (forall k, (delta <= k)%nat -> st2 !! k = state !! k) as Hhi2.
    { intros k Hk. unfold st2. rewrite list_lookup_insert_ne by lia. by apply Hhi'. }
    destruct (Nat.eqb_spec (S i) size) as [Heq|]; cbn [negb].
    + f_equal; [f_equal; lia|]. apply list_eq. intros k.
      destruct (decide (k < delta)%nat); [apply Hlo2; lia|]. rewrite Hhi2 by lia.
      unfold st', state_with. rewrite lookup_app_r, lookup_drop by lia. f_equal. lia.
    + split; [|lia]. repeat split; try done; try lia.
Qed.

Lemma decode_short_spec :
  (size <= delta)%nat ->
  decode_short state delta data
  = Some (splice (delta - size) (drop size state ++ take size state) state,
          (delta - size)%nat, dec, O).
Proof.
  intros Hs. pose proof length_dec. unfold decode_short. fold size.
  rewrite (decode_head_spec size) by lia. opt.
  rewrite decode_shift_spec by done. opt.
  rewrite (splice_full size dec) by lia. do 2 f_equal. lia.
Qed.

Lemma decode_long_spec :
  (delta < size)%nat ->
  decode_long state delta data = Some (state, O, dec, (size - delta)%nat).
Proof.
  intros Hs. pose proof length_dec. unfold decode_long. fold size.
  rewrite (decode_head_spec delta) by lia. opt.
  rewrite (do_while_run
    (fun '(p, d) => (delta <= p < size)%nat /\ d = splice p dec data)
    (fun '(p, _) => (size - p)%nat) (size, dec)); [done|split; [lia|done]|lia|].
  intros [p d] (Hp & ->). opt.
  destruct (lookup_lt_is_Some_2 data p) as [a Ha]; [fold size; lia|].
  destruct (lookup_lt_is_Some_2 dec (p - delta)) as [h Hh]; [lia|].
  rewrite (lookup_splice_ge p p dec), Ha by (fold size; lia). opt.
  rewrite (lookup_splice_lt p (p - delta) dec), Hh by (fold size; lia). opt.
  rewrite (wr_splice_up p _ dec) by first [done|apply dec_lookup_data; done || lia].
  opt. eexists; split; [done|]. opt.
  destruct (Nat.eqb_spec (S p) size) as [Heq|]; cbn [negb]; [|repeat split; lia].
  rewrite Heq. by rewrite splice_full by lia.
Qed.
End Decode.

Lemma state_with_take : state_with q state = state.
Proof. unfold state_with. rewrite length_q. apply take_drop. Qed.

(** Both functions compute the queue specification, within bounds. *)
Lemma Delta_Encode_spec temp data :
  length temp = DELTA_STATE_SIZE ->
  Delta_Encode temp state delta data
  = Some (state_with (queue_after q data) state, delta_enc q data).
Proof.
  intros Ht. unfold Delta_Encode. destruct (Nat.eqb_spec (length data) 0) as [H0|H0].
  - apply nil_length_inv in H0 as ->. unfold queue_after. simpl.
    by rewrite app_nil_r, drop_0, state_with_take.
  - rewrite copy_state_spec by done. opt.
    assert (length (splice delta state temp) = DELTA_STATE_SIZE) by (rewrite length_splice; lia).
    assert (forall i, (i < delta)%nat -> splice delta state temp !! i = state !! i).
    { intros. apply lookup_splice_lt; lia. }
    destruct (Nat.leb_spec (length data) delta).
    + apply encode_short_spec; done || lia.
    + apply encode_long_spec; done || lia.
Qed.

Lemma Delta_Decode_spec data :
  Delta_Decode state delta data
  = Some (state_with (queue_after q (delta_dec q data)) state, delta_dec q data).
Proof.
  unfold Delta_Decode. destruct (Nat.eqb_spec (length data) 0) as [H0|H0].
  - apply nil_length_inv in H0 as ->. unfold queue_after. simpl.
    by rewrite app_nil_r, drop_0, state_with_take.
  - destruct (Nat.leb_spec (length data) delta) as [Hle|Hgt].
    + rewrite decode_short_spec by lia. opt.
      set (st0 := splice _ _ state).
      assert (length (drop (length data) state ++ take (length data) state) = length state) by len.
      rewrite (decode_final_spec data ltac:(lia) st0); [done|..].
      * unfold st0. rewrite length_splice; lia.
      * lia.
      * lia.
      * intros k Hk. unfold st0, state_with, queue_after. pose proof length_q.
        pose proof (length_delta_dec q data q_nonempty).
        rewrite lookup_splice_lt, !lookup_app_l, !lookup_drop by len.
        rewrite lookup_app_l by lia. rewrite H2. unfold q. by rewrite lookup_take_lt by lia.
      * intros k Hk. unfold st0. by rewrite lookup_splice_ge by lia.
    + rewrite decode_long_spec by lia. opt.
      rewrite (decode_final_spec data ltac:(lia) state); [done|done|lia|lia| |done].
      intros k Hk. lia.
Qed.
End Refinement.

Lemma take_state_with q state : take (length q) (state_with q state) = q.
Proof. unfold state_with. apply take_app_length. Qed.

Lemma drop_state_with q state :
  drop (length q) (state_with q state) = drop (length q) state.
Proof. unfold state_with. apply drop_app_length. Qed.

Lemma Delta_Init_spec state :
  length state = DELTA_STATE_SIZE -> Delta_Init state = Some (replicate DELTA_STATE_SIZE 0%Z).
Proof.
  intros Hl. unfold Delta_Init.
  while_inv
    (fun '(i, st) => (i <= DELTA_STATE_SIZE)%nat /\
       st = splice i (replicate DELTA_STATE_SIZE 0%Z) state)
    (fun '(i, _) => (DELTA_STATE_SIZE - i)%nat).
  - split; [lia|done].
  - lia.
  - intros [i st] (Hi & ->) Hc. apply Nat.ltb_lt in Hc.
    rewrite (wr_splice_up i 0%Z) by (rewrite ?length_replicate; lia || by apply lookup_replicate_2).
    opt. eexists; split; [reflexivity|]. repeat split; lia.
  - intros [i st] (Hi & ->) Hc. apply Nat.ltb_ge in Hc. opt.
    by rewrite splice_full by (rewrite ?length_replicate; lia).
Qed.

Lemma delta_dec_app q xs ys :
  q <> [] ->
  delta_dec q (xs ++ ys) = delta_dec q xs ++ delta_dec (queue_after q (delta_dec q xs)) ys.
Proof.
  revert q. induction xs as [|b xs IH]; intros [|h q] Hq; try done.
  - by unfold queue_after; cbn [delta_dec length app]; rewrite app_nil_r.
  - cbn [app delta_dec]. rewrite IH by (by destruct q). by rewrite queue_after_cons.
Qed.

Lemma queue_after_app q xs ys : queue_after q (xs ++ ys) = queue_after (queue_after q xs) ys.
Proof.
  unfold queue_after. rewrite length_app, app_assoc, <-drop_drop.
  rewrite (drop_app_le (q ++ xs)) by (rewrite length_app; lia). done.
Qed.

Lemma state_with_twice q q' state :
  length q = length q' -> (length q <= length state)%nat ->
  state_with q' (state_with q state) = state_with q' state.
Proof. intros Hl Hs. unfold state_with. rewrite <-Hl, drop_app_length. done. Qed.

(** ** Properties *)

(** The code's precondition: 1 <= delta <= 256, arrays of 256 cells. *)
Definition delta_args (delta : nat) (state temp : list Z) : Prop :=
  (0 < delta)%nat /\ (delta <= DELTA_STATE_SIZE)%nat /\
  length state = DELTA_STATE_SIZE /\ length temp = DELTA_STATE_SIZE.

(** C20: Round trip.  For every delta from 1 to 256 and every buffer, the encoder
    returns, the decoder started from the same state restores the buffer, and
    both leave the same state array, so the next buffer stays in step. *)
Theorem Delta_roundtrip delta state temp data :
  delta_args delta state temp -> bytes data ->
  exists st ys, Delta_Encode temp state delta data = Some (st, ys) /\
    Delta_Decode state delta ys = Some (st, data).
Proof.
  intros (Hd & Hm & Hs & Ht) Hb.
  rewrite (Delta_Encode_spec state delta Hd Hm Hs temp data Ht).
  do 2 eexists. split; [done|].
  rewrite (Delta_Decode_spec state delta Hd Hm Hs).
  by rewrite delta_dec_enc by (by try apply q_nonempty).
Qed.

Lemma Delta_roundtrip_witness :
  exists st ys,
    Delta_Encode (replicate 256 7%Z) (replicate 256 0%Z) 2 [1; 2; 4; 3]%Z = Some (st, ys) /\
    Delta_Decode (replicate 256 0%Z) 2 ys = Some (st, [1; 2; 4; 3]%Z).
Proof.
  apply Delta_roundtrip; [|byte_list].
  unfold delta_args, DELTA_STATE_SIZE. split_and!; [lia|lia|done|done].
Defined.

(** Streaming.  Cutting the input into two buffers and carrying the state
    array from one call to the next gives the bytes and the state of one call on
    the whole input, for the encoder and for the decoder. *)
Theorem Delta_streaming delta state temp temp' xs ys :
  delta_args delta state temp -> length temp' = DELTA_STATE_SIZE ->
  (exists st1 st2 xs' ys',
    Delta_Encode temp state delta xs = Some (st1, xs') /\
    Delta_Encode temp' st1 delta ys = Some (st2, ys') /\
    Delta_Encode temp state delta (xs ++ ys) = Some (st2, xs' ++ ys')) /\
  (exists st1 st2 xs' ys',
    Delta_Decode state delta xs = Some (st1, xs') /\
    Delta_Decode st1 delta ys = Some (st2, ys') /\
    Delta_Decode state delta (xs ++ ys) = Some (st2, xs' ++ ys')).
Proof.
  intros (Hd & Hm & Hs & Ht) Ht'.
  pose proof (length_q state delta Hd Hm Hs) as Hq.
  pose proof (q_nonempty state delta Hd Hm Hs) as Hne.
  set (q := take delta state) in *.
  assert (forall l, length (state_with (queue_after q l) state) = DELTA_STATE_SIZE /\
            take delta (state_with (queue_after q l) state) = queue_after q l) as Hst.
  { intros l. split.
    - rewrite length_state_with; rewrite ?length_queue_after; lia.
    - rewrite <-Hq, <-(length_queue_after q l). apply take_state_with. }
  split.
  - rewrite !(Delta_Encode_spec state delta Hd Hm Hs temp) by done. fold q.
    destruct (Hst xs) as [Hl Htk]. do 4 eexists. split; [done|].
    rewrite (Delta_Encode_spec _ delta Hd Hm Hl temp') by done. rewrite Htk. split; [done|].
    rewrite delta_enc_app, queue_after_app by done.
    rewrite state_with_twice by (rewrite ?length_queue_after; lia). done.
  - rewrite !(Delta_Decode_spec state delta Hd Hm Hs). fold q.
    destruct (Hst (delta_dec q xs)) as [Hl Htk]. do 4 eexists. split; [done|].
    rewrite (Delta_Decode_spec _ delta Hd Hm Hl), Htk. split; [done|].
    rewrite delta_dec_app, queue_after_app by done.
    rewrite state_with_twice by (rewrite ?length_queue_after; lia). done.
Qed.

Lemma Delta_streaming_witness :
  (exists st1 st2 xs' ys',
    Delta_Encode (replicate 256 7%Z) (replicate 256 0%Z) 3 [5]%Z = Some (st1, xs') /\
    Delta_Encode (replicate 256 9%Z) st1 3 [1; 2; 4; 3]%Z = Some (st2, ys') /\
    Delta_Encode (replicate 256 7%Z) (replicate 256 0%Z) 3 ([5] ++ [1; 2; 4; 3])%Z
    = Some (st2, xs' ++ ys')) /\
  (exists st1 st2 xs' ys',
    Delta_Decode (replicate 256 0%Z) 3 [5]%Z = Some (st1, xs') /\
    Delta_Decode st1 3 [1; 2; 4; 3]%Z = Some (st2, ys') /\
    Delta_Decode (replicate 256 0%Z) 3 ([5] ++ [1; 2; 4; 3])%Z = Some (st2, xs' ++ ys')).
Proof.
  apply Delta_streaming; [|done].
  unfold delta_args, DELTA_STATE_SIZE. split_and!; [lia|lia|done|done].
Defined.
