(* ===== verification/Crc.v ===== *)
(** * CRC-32 and CRC-64

    7zCrc.c, 7zCrcOpt.c, XzCrc64.c and XzCrc64Opt.c of
    src/native/sevenzip_bridge/7z2604-src/C: the table generators and the
    12-byte update loops, against the bit-serial shift register.  A message is
    one long little-endian word, and the register is linear over GF(2): the
    proofs only push [crc_bits] through xor and shifts. *)

From stdpp Require Import base numbers list list_numbers.
From Stdlib Require Import ZArith Lia.
From S2P Require Import Prelude.
Local Open Scope Z_scope.
Local Open Scope word_scope.

(** ** Bit-serial reference *)

(** One step of the shift register: [r = (r >> 1) ^ (poly & (0 - (r & 1)))]. *)
Definition crc_bit (w poly r : Z) : Z :=
  (r >>> 1) ^^^ (poly &&& wrap w (0 - (r &&& 1))).

Definition crc_bits (w poly : Z) (n : nat) (r : Z) : Z := Nat.iter n (crc_bit w poly) r.

(** The register after one more byte, and after a message. *)
Definition crc_byte (w poly v b : Z) : Z := crc_bits w poly 8 (v ^^^ b).
Definition crc_update (w poly v : Z) (data : list Z) : Z := fold_left (crc_byte w poly) data v.

(** ** Tables and table-driven updates *)

(** [for (j = 0; j < 8; j++) r = (r >> 1) ^ (poly & (0 - (r & 1)));] for the
    first 256 entries of the table. *)
Definition table_head (w poly : Z) (table : list Z) : option (list Z) :=
  option_map snd
    (while 257 (fun '(i, _) => (i <? 256)%nat)
       (fun '(i, table) =>
          let r := crc_bits w poly 8 (Z.of_nat i) in
          table ← wr table i r; Some (S i, table)) (O, table)).

(** 7zCrc.c: [for (i = 256; i < 256 * N; i++)] *)
Definition CrcGenerateTable (n : nat) (table : list Z) : option (list Z) :=
  table ← table_head 32 0xEDB88320 table;
  option_map snd
    (while (S (256 * n)) (fun '(i, _) => (i <? 256 * n)%nat)
       (fun '(i, table) =>
          r ← table !! (i - 256)%nat; t ← table !! Z.to_nat (r &&& 0xFF);
          table ← wr table i (t ^^^ (r >>> 8)); Some (S i, table)) (256%nat, table)).

(** XzCrc64.c: [for (i = 0; i < 256 * (N - 1); i++)] *)
Definition Crc64GenerateTable (n : nat) (table : list Z) : option (list Z) :=
  table ← table_head 64 0xC96C5795D7870F42 table;
  option_map snd
    (while (S (256 * n)) (fun '(i, _) => (i <? 256 * (n - 1))%nat)
       (fun '(i, table) =>
          r0 ← table !! i; t ← table !! Z.to_nat (u8 r0);
          table ← wr table (i + 256)%nat (t ^^^ (r0 >>> 8)); Some (S i, table)) (O, table)).

(** [table[((crc) ^ (b)) & 0xFF] ^ ((crc) >> 8)] *)
Definition CRC_UPDATE_BYTE_2 (table : list Z) (crc b : Z) : option Z :=
  t ← table !! Z.to_nat ((crc ^^^ b) &&& 0xFF); Some (t ^^^ (crc >>> 8)).

(** [Q(n, d)], [Q32LE(n, d)]: one 32-bit word through four tables. *)
Definition Q (table : list Z) (n : nat) (d : Z) : option Z :=
  a ← table !! ((n * 4 + 3) * 0x100 + Z.to_nat (d &&& 0xFF))%nat;
  b ← table !! ((n * 4 + 2) * 0x100 + Z.to_nat ((d >>> 8) &&& 0xFF))%nat;
  c ← table !! ((n * 4 + 1) * 0x100 + Z.to_nat ((d >>> 16) &&& 0xFF))%nat;
  e ← table !! ((n * 4 + 0) * 0x100 + Z.to_nat (d >>> 24))%nat;
  Some (a ^^^ b ^^^ c ^^^ e).

(** [R(a)]: the 32-bit little-endian word [a] at [p]. *)
Definition R (data : list Z) (p a : nat) : option Z := option_map le_load (slice data (p + 4 * a) 4).

(** The body of the 12-byte loop of [CrcUpdateT12]. *)
Definition block32_T12 (table data : list Z) (p : nat) (v : Z) : option Z :=
  r0 ← R data p 0;
  let v := v ^^^ r0 in
  d ← R data p 1; x ← Q table 1 d;
  d ← R data p 2; q ← Q table 0 d;
  let x := x ^^^ q in
  q ← Q table 2 v; Some (x ^^^ q).

(** The body of the 12-byte loop of [XzCrc64UpdateT12]. *)
Definition block64_T12 (table data : list Z) (p : nat) (v : Z) : option Z :=
  r0 ← R data p 0; r1 ← R data p 1;
  let v0 := u32 v ^^^ r0 in
  let v1 := u32 (v >>> 32) ^^^ r1 in
  w ← R data p 2; v ← Q table 0 w;
  q2 ← Q table 2 v0; q1 ← Q table 1 v1; Some (v ^^^ (q2 ^^^ q1)).

(** The loops around the blocks: bytes up to the alignment of the address
    [addr + p], whole blocks, remaining bytes. *)
Definition update_T12 (block : list Z -> list Z -> nat -> Z -> option Z)
    (addr v : Z) (data table : list Z) : option Z :=
  let size := length data in
  '(size, p, v) ←
    while (S size)
      (fun '(size, p, _) => negb (size =? 0)%nat && negb ((addr + Z.of_nat p) &&& (7 - (12 &&& 4)) =? 0))
      (fun '(size, p, v) =>
         b ← data !! p; v ← CRC_UPDATE_BYTE_2 table v b; Some (pred size, S p, v)) (size, O, v);
  let lim := (p + size)%nat in
  '(p, lim, v) ←
    (if (12 <=? size)%nat then
       let lim := (lim - 12)%nat in
       '(p, v) ←
         do_while (S size) (fun '(p, v) => v ← block table data p v; Some (p + 12, v)%nat)
           (fun '(p, _) => (p <=? lim)%nat) (p, v);
       Some (p, (lim + 12)%nat, v)
     else Some (p, lim, v));
  option_map snd
    (while (S size) (fun '(p, _) => (p <? lim)%nat)
       (fun '(p, v) => b ← data !! p; v ← CRC_UPDATE_BYTE_2 table v b; Some (S p, v)) (p, v)).

Definition CrcUpdateT12 (addr v : Z) (data table : list Z) : option Z :=
  update_T12 block32_T12 addr v data table.

Definition XzCrc64UpdateT12 (addr v : Z) (data table : list Z) : option Z :=
  update_T12 block64_T12 addr v data table.

(** ** The shift register is linear *)

Section Register.
Context (w poly : Z).
Hypothesis w_pos : 8 <= w.
Hypothesis poly_width : in_width w poly.

Local Abbreviation bit := (crc_bit w poly).
Local Abbreviation bits := (crc_bits w poly).

Lemma crc_bit_alt r : bit r = (r >>> 1) ^^^ (if Z.odd r then poly else 0).
Proof.
  unfold crc_bit. f_equal. rewrite (land_ones_mod 1 r ltac:(lia) : r &&& 1 = r mod 2).
  assert (wrap w (0 - 1) = 2 ^ w - 1) as Hm.
  { unfold wrap. rewrite <-(Z_mod_plus_full _ 1). rewrite Z.mod_small; lia. }
  rewrite Zmod_odd. destruct (Z.odd r).
  - rewrite Hm, land_ones_mod by lia. by apply Z.mod_small.
  - unfold wrap. by rewrite Z.mod_0_l, Z.land_0_r by lia.
Qed.

Lemma crc_bit_lxor x y : bit (x ^^^ y) = bit x ^^^ bit y.
Proof.
  rewrite !crc_bit_alt, Z.shiftr_lxor, <-!Z.bit0_odd, Z.lxor_spec.
  apply Z.bits_inj'. intros i _. rewrite !Z.lxor_spec.
  destruct (Z.testbit x 0), (Z.testbit y 0); simpl; rewrite ?Z.bits_0;
    destruct (Z.testbit (x >>> 1) i), (Z.testbit (y >>> 1) i), (Z.testbit poly i); done.
Qed.

Lemma crc_bits_lxor n x y : bits n (x ^^^ y) = bits n x ^^^ bits n y.
Proof.
  induction n as [|n IH]; [done|]. unfold crc_bits in *. simpl. by rewrite IH, crc_bit_lxor.
Qed.

Lemma crc_bits_add n m r : bits (n + m) r = bits n (bits m r).
Proof. apply Nat.iter_add. Qed.

Lemma crc_bits_0_r n : bits n 0 = 0.
Proof.
  induction n as [|n IH]; [done|]. unfold crc_bits in *. simpl. rewrite IH.
  by rewrite crc_bit_alt.
Qed.

(** Zero bits only shift. *)
Lemma crc_bits_shift n x : bits n (x <<< Z.of_nat n) = x.
Proof.
  induction n as [|n IH]; [apply Z.shiftl_0_r|].
  replace (S n) with (n + 1)%nat by lia. rewrite crc_bits_add.
  rewrite <-IH at 2. f_equal. unfold crc_bits. simpl. rewrite crc_bit_alt.
  replace (Z.of_nat (n + 1)) with (Z.of_nat n + 1) by lia.
  rewrite <-Z.shiftl_shiftl by lia. rewrite <-Z.bit0_odd, Z.shiftl_spec_low, Z.lxor_0_r by lia.
  rewrite Z.shiftr_shiftl_l by lia. by rewrite Z.sub_diag, Z.shiftl_0_r.
Qed.

Lemma crc_bits_shiftl n m x :
  (n <= m)%nat -> bits m (x <<< Z.of_nat n) = bits (m - n) x.
Proof.
  intros. replace m with ((m - n) + n)%nat at 1 by lia. by rewrite crc_bits_add, crc_bits_shift.
Qed.

(** Split off the low byte of a word. *)
Lemma crc_bits_split m d :
  (8 <= m)%nat -> bits m d = bits m (d &&& 0xFF) ^^^ bits (m - 8) (d >>> 8).
Proof.
  intros Hm. rewrite <-(crc_bits_shiftl 8 m) by done. rewrite <-crc_bits_lxor. f_equal.
  rewrite land_255. symmetry. by apply (lxor_split 8).
Qed.

Lemma crc_byte_split r : bits 8 r = bits 8 (r &&& 0xFF) ^^^ (r >>> 8).
Proof. by rewrite crc_bits_split by lia. Qed.

Lemma crc_bit_in_width r : in_width w r -> in_width w (bit r).
Proof.
  intros. rewrite crc_bit_alt. apply lxor_in_width; [lia|auto with width|].
  destruct (Z.odd r); [done|]. unfold in_width. lia.
Qed.

Lemma crc_bits_in_width n r : in_width w r -> in_width w (bits n r).
Proof. intros. unfold crc_bits. induction n; [done|]. simpl. by apply crc_bit_in_width. Qed.

Lemma in_width_byte b : in_width 8 b -> in_width w b.
Proof. unfold in_width. intros. pose proof (Z.pow_le_mono_r 2 8 w). lia. Qed.

Lemma crc_update_in_width v data :
  in_width w v -> bytes data -> in_width w (crc_update w poly v data).
Proof.
  intros Hv Hd. revert v Hv. induction Hd as [|b l Hb Hl IH]; intros v Hv; [done|].
  simpl. apply IH. apply crc_bits_in_width, lxor_in_width; [lia|done|by apply in_width_byte].
Qed.

Lemma crc_update_app v xs ys :
  crc_update w poly v (xs ++ ys) = crc_update w poly (crc_update w poly v xs) ys.
Proof. apply fold_left_app. Qed.

Lemma crc_update_cons v b l : crc_update w poly v (b :: l) = crc_update w poly (crc_byte w poly v b) l.
Proof. reflexivity. Qed.

Lemma crc_update_nil v : crc_update w poly v [] = v.
Proof. reflexivity. Qed.

Lemma crc_update_snoc v l b :
  crc_update w poly v (l ++ [b]) = crc_byte w poly (crc_update w poly v l) b.
Proof. by rewrite crc_update_app, crc_update_cons, crc_update_nil. Qed.

(** A message is one long little-endian word. *)
Lemma crc_update_load v data :
  bytes data -> crc_update w poly v data = bits (8 * length data) (v ^^^ le_load data).
Proof.
  intros Hd. revert v. induction Hd as [|b l Hb Hl IH]; intros v.
  - cbn [le_load length]. rewrite Z.lxor_0_r, Nat.mul_0_r. reflexivity.
  - rewrite crc_update_cons, length_cons, Nat.mul_succ_r, crc_bits_add, IH.
    rewrite le_load_cons by exact Hb. f_equal. unfold crc_byte.
    rewrite <-Z.lxor_assoc, (crc_bits_lxor 8 (v ^^^ b)). f_equal.
    symmetry. rewrite <-(crc_bits_shift 8 (le_load l)) at 2. reflexivity.
Qed.
End Register.

(** ** Tables *)

(** Entry [256 k + b] of a table is byte [b] followed by [k] zero bytes. *)
Definition is_table (w poly : Z) (n : nat) (table : list Z) : Prop :=
  length table = (256 * n)%nat /\
  forall k b, (k < n)%nat -> (b < 256)%nat ->
    table !! (k * 256 + b)%nat = Some (crc_bits w poly (8 * S k) (Z.of_nat b)).

Section Tables.
Context (w poly : Z).
Hypothesis w_pos : 8 <= w.
Hypothesis poly_width : in_width w poly.

Local Abbreviation bits := (crc_bits w poly).
Local Abbreviation entry i := (bits (8 * S (i / 256)) (Z.of_nat (i mod 256))).

Lemma is_table_entries n table :
  length table = (256 * n)%nat ->
  (forall i, (i < 256 * n)%nat -> table !! i = Some (entry i)) -> is_table w poly n table.
Proof.
  intros Hl Ht. split; [done|]. intros k b Hk Hb. rewrite Ht by lia.
  rewrite Nat.div_add_l, Nat.div_small, Nat.add_0_r by lia.
  by rewrite Nat.add_comm, Nat.Div0.mod_add, Nat.mod_small by lia.
Qed.

Lemma table_lookup n table k x :
  is_table w poly n table -> (k < n)%nat -> 0 <= x < 256 ->
  table !! (k * 256 + Z.to_nat x)%nat = Some (bits (8 * S k) x).
Proof. intros [_ Ht] Hk Hx. rewrite Ht by lia. by rewrite Z2Nat.id by lia. Qed.

Lemma table_lookup_0 n table x :
  is_table w poly n table -> (0 < n)%nat -> 0 <= x < 256 ->
  table !! Z.to_nat x = Some (bits 8 x).
Proof. intros. by apply (table_lookup n table 0). Qed.

Lemma land_FF_range x : 0 <= x &&& 0xFF < 256.
Proof. rewrite land_255. by apply Z.mod_pos_bound. Qed.

Lemma CRC_UPDATE_BYTE_2_spec n table v b :
  is_table w poly n table -> (0 < n)%nat -> in_width 8 b ->
  CRC_UPDATE_BYTE_2 table v b = Some (crc_byte w poly v b).
Proof.
  intros Ht Hn Hb. unfold CRC_UPDATE_BYTE_2.
  rewrite (table_lookup_0 n) by (done || apply land_FF_range). opt. f_equal.
  unfold crc_byte. rewrite (crc_byte_split w poly w_pos poly_width (v ^^^ b)). f_equal.
  rewrite Z.shiftr_lxor. unfold in_width in Hb. rewrite (Z.shiftr_div_pow2 b) by lia.
  rewrite (Z.div_small b) by done. by rewrite Z.lxor_0_r.
Qed.

Lemma Q_spec n table k d :
  is_table w poly n table -> (k * 4 + 3 < n)%nat -> in_width 32 d ->
  Q table k d = Some (bits (32 * S k) d).
Proof.
  intros Ht Hk Hd. unfold Q.
  assert (0 <= d >>> 24 < 256) as H24.
  { unfold in_width in Hd. rewrite Z.shiftr_div_pow2 by lia.
    split; [apply Z.div_pos; lia|apply Z.div_lt_upper_bound; lia]. }
  rewrite !(table_lookup n) by (try done; try lia; apply land_FF_range). opt. f_equal.
  rewrite (crc_bits_split w poly w_pos poly_width (32 * S k) d) by lia.
  rewrite (crc_bits_split w poly w_pos poly_width _ (d >>> 8)) by lia.
  rewrite (crc_bits_split w poly w_pos poly_width _ ((d >>> 8) >>> 8)) by lia.
  rewrite !Z.shiftr_shiftr, <-!Z.lxor_assoc by lia.
  do 3 (f_equal; [|f_equal; lia]). f_equal; lia.
Qed.

(** The table generators. *)
Lemma table_head_spec n table :
  (0 < n)%nat -> length table = (256 * n)%nat ->
  exists t, table_head w poly table = Some t /\ length t = (256 * n)%nat /\
    forall i, (i < 256)%nat -> t !! i = Some (bits 8 (Z.of_nat i)).
Proof.
  intros Hn Hl. unfold table_head.
  while_inv
    (fun '(i, t) => (i <= 256)%nat /\ length t = (256 * n)%nat /\
       forall j, (j < i)%nat -> t !! j = Some (bits 8 (Z.of_nat j)))
    (fun '(i, _) => (256 - i)%nat).
  - split_and!; [lia|done|lia].
  - lia.
  - intros [i t] (Hi & Ht & Hj) Hc. apply Nat.ltb_lt in Hc.
    rewrite wr_Some by lia. opt. eexists; split; [done|]. split; [|lia].
    split_and!; [lia|by len|]. intros j Hlt.
    destruct (decide (j = i)) as [->|]; [by rewrite list_lookup_insert_eq by lia|].
    rewrite list_lookup_insert_ne by done. apply Hj. lia.
  - intros [i t] (Hi & Ht & Hj) Hc. apply Nat.ltb_ge in Hc. exists t.
    split_and!; [done|done|]. intros j Hlt. apply Hj. lia.
Qed.

Lemma entry_low i : (i < 256)%nat -> entry i = bits 8 (Z.of_nat i).
Proof. intros. by rewrite Nat.div_small, Nat.mod_small by done. Qed.

Lemma entry_next i : (256 <= i)%nat -> entry i = bits 8 (entry (i - 256)).
Proof.
  intros Hi. rewrite <-(crc_bits_add w poly).
  assert (i = (i - 256) + 1 * 256)%nat as Hd by lia. rewrite Hd at 1 2.
  rewrite Nat.div_add, Nat.Div0.mod_add by lia. f_equal. lia.
Qed.
End Tables.

Lemma poly32_width : in_width 32 0xEDB88320.
Proof. done. Qed.

Lemma poly64_width : in_width 64 0xC96C5795D7870F42.
Proof. done. Qed.

#[export] Hint Resolve poly32_width poly64_width : width.

Lemma CrcGenerateTable_spec n table :
  (0 < n)%nat -> length table = (256 * n)%nat ->
  exists t, CrcGenerateTable n table = Some t /\ is_table 32 0xEDB88320 n t.
Proof.
  intros Hn Hl. unfold CrcGenerateTable.
  destruct (table_head_spec 32 0xEDB88320 n table) as (t0 & -> & Hl0 & Ht0); [done..|].
  opt.
  set (entry := fun i => crc_bits 32 0xEDB88320 (8 * S (i / 256)) (Z.of_nat (i mod 256))).
  while_inv
    (fun '(i, t) => (256 <= i <= 256 * n)%nat /\ length t = (256 * n)%nat /\
       forall j, (j < i)%nat -> t !! j = Some (entry j))
    (fun '(i, _) => (256 * n - i)%nat).
  - split_and!; [lia|lia|done|]. intros j Hlt. rewrite Ht0 by done. unfold entry.
    by rewrite entry_low.
  - lia.
  - intros [i t] (Hi & Ht & Hj) Hc. apply Nat.ltb_lt in Hc.
    rewrite (Hj (i - 256)%nat) by lia. opt.
    pose proof (land_FF_range (entry (i - 256)%nat)).
    rewrite Hj by lia. opt. rewrite wr_Some by lia. opt. eexists; split; [done|].
    split; [|lia]. split_and!; [lia|lia|by len|]. intros j Hlt.
    destruct (decide (j = i)) as [->|].
    + rewrite list_lookup_insert_eq by lia. f_equal.
      assert (entry i = crc_bits 32 0xEDB88320 8 (entry (i - 256)%nat)) as ->
        by (apply entry_next; lia).
      rewrite (crc_byte_split 32 _ ltac:(lia) poly32_width (entry _)). f_equal.
      unfold entry at 1. rewrite entry_low by lia. by rewrite Z2Nat.id by lia.
    + rewrite list_lookup_insert_ne by done. apply Hj. lia.
  - intros [i t] (Hi & Ht & Hj) Hc. apply Nat.ltb_ge in Hc. exists t. split; [done|].
    apply is_table_entries; [done|]. intros j Hlt. apply Hj. lia.
Qed.

Lemma Crc64GenerateTable_spec n table :
  (0 < n)%nat -> length table = (256 * n)%nat ->
  exists t, Crc64GenerateTable n table = Some t /\ is_table 64 0xC96C5795D7870F42 n t.
Proof.
  intros Hn Hl. unfold Crc64GenerateTable.
  destruct (table_head_spec 64 0xC96C5795D7870F42 n table) as (t0 & -> & Hl0 & Ht0); [done..|].
  opt.
  set (entry := fun i => crc_bits 64 0xC96C5795D7870F42 (8 * S (i / 256)) (Z.of_nat (i mod 256))).
  while_inv
    (fun '(i, t) => (i <= 256 * (n - 1))%nat /\ length t = (256 * n)%nat /\
       forall j, (j < i + 256)%nat -> t !! j = Some (entry j))
    (fun '(i, _) => (256 * n - i)%nat).
  - split_and!; [lia|done|]. intros j Hlt. rewrite Ht0 by done. unfold entry.
    by rewrite entry_low.
  - lia.
  - intros [i t] (Hi & Ht & Hj) Hc. apply Nat.ltb_lt in Hc.
    rewrite (Hj i) by lia. opt.
    pose proof (wrap_in_width 8 (entry i) ltac:(lia)) as Hw. unfold in_width in Hw.
    rewrite Hj by lia. opt. rewrite wr_Some by lia. opt. eexists; split; [done|].
    split; [|lia]. split_and!; [lia|by len|]. intros j Hlt.
    destruct (decide (j = i + 256)%nat) as [->|].
    + rewrite list_lookup_insert_eq by lia. f_equal.
      assert (entry (i + 256)%nat = crc_bits 64 0xC96C5795D7870F42 8 (entry i)) as ->.
      { unfold entry. rewrite (entry_next 64 _ (i + 256)) by lia. do 4 f_equal; f_equal; lia. }
      rewrite (crc_byte_split 64 _ ltac:(lia) poly64_width (entry _)). f_equal.
      unfold entry at 1. rewrite entry_low by lia. rewrite Z2Nat.id by lia. by rewrite land_255.
    + rewrite list_lookup_insert_ne by done. apply Hj. lia.
  - intros [i t] (Hi & Ht & Hj) Hc. apply Nat.ltb_ge in Hc. exists t. split; [done|].
    apply is_table_entries; [done|]. intros j Hlt. apply Hj. lia.
Qed.

(** ** Table-driven updates compute the bit-serial CRC *)

Lemma R_spec data p a :
  (p + 4 * a + 4 <= length data)%nat -> R data p a = Some (le_load (take 4 (drop (p + 4 * a) data))).
Proof. intros. unfold R. by rewrite slice_Some by lia. Qed.

(** Twelve bytes as three words. *)
Lemma le_load_12 data p :
  bytes data -> (p + 12 <= length data)%nat ->
  le_load (take 12 (drop p data))
  = le_load (take 4 (drop p data))
    ^^^ (le_load (take 4 (drop (p + 4) data)) <<< 32)
    ^^^ (le_load (take 4 (drop (p + 8) data)) <<< 64).
Proof.
  intros Hd Hp. change 12%nat with (4 + (4 + 4))%nat at 1.
  rewrite (take_take_drop _ 4), (take_take_drop _ 4), !drop_drop.
  rewrite !le_load_app by auto with width.
  rewrite !length_take, !length_drop, !Nat.min_l by lia.
  rewrite Z.shiftl_lxor, Z.shiftl_shiftl, Z.lxor_assoc by lia.
  by replace (p + 4 + 4)%nat with (p + 8)%nat by lia.
Qed.

Section T12.
Context (w poly : Z) (table : list Z) (data : list Z).
Hypothesis w_pos : 8 <= w.
Hypothesis poly_width : in_width w poly.
Hypothesis table_ok : is_table w poly 12 table.
Hypothesis data_bytes : bytes data.

Lemma byte_word4 p : in_width 32 (le_load (take 4 (drop p data))).
Proof.
  apply le_load_in_width; [auto with width|]. rewrite length_take. lia.
Qed.

Context (block : list Z -> list Z -> nat -> Z -> option Z) (state_ok : Z -> Prop).
Hypothesis state_next : forall v b, state_ok v -> in_width 8 b -> state_ok (crc_byte w poly v b).
Hypothesis block_spec : forall p v,
  state_ok v -> (p + 12 <= length data)%nat ->
  block table data p v = Some (crc_update w poly v (take 12 (drop p data))).

Lemma state_next_list l v : bytes l -> state_ok v -> state_ok (crc_update w poly v l).
Proof.
  intros Hl. revert v. induction Hl as [|b l Hb Hl IH]; intros v Hv; [done|].
  cbn [crc_update fold_left]. apply IH. apply state_next; assumption.
Qed.

Lemma byte_step_spec v0 p b :
  data !! p = Some b ->
  CRC_UPDATE_BYTE_2 table (crc_update w poly v0 (take p data)) b
  = Some (crc_update w poly v0 (take (S p) data)).
Proof.
  intros Hb. rewrite (take_S_lookup _ _ _ Hb), crc_update_app.
  apply (CRC_UPDATE_BYTE_2_spec w poly w_pos poly_width 12 table); [exact table_ok|lia|].
  exact (bytes_lookup data p b data_bytes Hb).
Qed.

Lemma block_step_spec v0 p :
  state_ok v0 -> (p + 12 <= length data)%nat ->
  block table data p (crc_update w poly v0 (take p data))
  = Some (crc_update w poly v0 (take (p + 12) data)).
Proof.
  intros Hv Hp. rewrite block_spec; [|apply state_next_list; auto with width|exact Hp].
  rewrite take_take_drop, crc_update_app. reflexivity.
Qed.

(** The loop over the last bytes. *)
Lemma tail_bytes_spec fuel v0 p :
  (p <= length data)%nat -> (length data - p < fuel)%nat ->
  option_map snd
    (while fuel (fun '(p, _) => (p <? length data)%nat)
       (fun '(p, v) => b ← data !! p; v ← CRC_UPDATE_BYTE_2 table v b; Some (S p, v))
       (p, crc_update w poly v0 (take p data)))
  = Some (crc_update w poly v0 data).
Proof.
  intros Hp Hf.
  while_inv
    (fun '(q, v) => (q <= length data)%nat /\ v = crc_update w poly v0 (take q data))
    (fun '(q, _) => (length data - q)%nat); [split; [lia|reflexivity]|lia|..].
  - intros [q v] (Hq & ->) Hc. apply Nat.ltb_lt in Hc.
    destruct (lookup_lt_is_Some_2 data q Hc) as [b Hb].
    rewrite Hb. opt. rewrite (byte_step_spec v0 q b Hb). opt.
    eexists; split; [reflexivity|]. repeat split; lia.
  - intros [q v] (Hq & ->) Hc. apply Nat.ltb_ge in Hc. opt.
    rewrite take_ge by lia. reflexivity.
Qed.

Lemma update_T12_spec addr v0 :
  state_ok v0 -> update_T12 block addr v0 data table = Some (crc_update w poly v0 data).
Proof.
  intros Hv0. unfold update_T12.
  while_inv
    (fun '(n, p, v) => (n + p = length data)%nat /\ v = crc_update w poly v0 (take p data))
    (fun '(n, _, _) => n); [split; [lia|reflexivity]|lia|..].
  { intros [[n p] v] (Hn & ->) Hc. apply andb_true_iff in Hc as [Hc _].
    apply negb_true_iff, Nat.eqb_neq in Hc.
    destruct (lookup_lt_is_Some_2 data p) as [b Hb]; [lia|].
    rewrite Hb. opt. rewrite (byte_step_spec v0 p b Hb). opt.
    eexists; split; [reflexivity|]. repeat split; lia. }
  intros [[n p] v] (Hn & ->) _. opt.
  destruct (Nat.leb_spec 12 n) as [H12|].
  - do_while_inv
      (fun '(q, v) => (p <= q)%nat /\ (q + 12 <= length data)%nat /\
         v = crc_update w poly v0 (take q data))
      (fun '(q, _) => (length data - q)%nat)
      (fun '(q, v) => (p <= q <= length data)%nat /\ v = crc_update w poly v0 (take q data));
      [split_and!; [lia|lia|reflexivity]|lia|..].
    + intros [q v] (Hq & Hq' & ->). rewrite (block_step_spec v0 q Hv0 Hq'). opt.
      eexists; split; [reflexivity|]. opt.
      destruct (Nat.leb_spec (q + 12) (p + n - 12)); repeat split; lia.
    + intros [q v] (Hq & ->). opt.
      replace (p + n - 12 + 12)%nat with (length data) by lia. apply tail_bytes_spec; lia.
  - opt. rewrite (Nat.add_comm p n), Hn. apply tail_bytes_spec; lia.
Qed.
End T12.

(** A 12-byte message, word by word. *)
Lemma crc_update_12 w poly v data p :
  8 <= w -> in_width w poly -> bytes data -> (p + 12 <= length data)%nat ->
  crc_update w poly v (take 12 (drop p data))
  = crc_bits w poly 96 (v ^^^ le_load (take 4 (drop p data)))
    ^^^ crc_bits w poly 64 (le_load (take 4 (drop (p + 4) data)))
    ^^^ crc_bits w poly 32 (le_load (take 4 (drop (p + 8) data))).
Proof.
  intros Hw Hpoly Hd Hp.
  rewrite crc_update_load by auto with width.
  rewrite length_take, length_drop, Nat.min_l by lia. rewrite le_load_12 by assumption.
  rewrite <-!Z.lxor_assoc, !(crc_bits_lxor w poly Hw Hpoly).
  rewrite (crc_bits_shiftl w poly Hw Hpoly 32 (8 * 12)),
    (crc_bits_shiftl w poly Hw Hpoly 64 (8 * 12)) by lia.
  reflexivity.
Qed.

Lemma block32_T12_spec table data p v :
  is_table 32 0xEDB88320 12 table -> bytes data -> in_width 32 v -> (p + 12 <= length data)%nat ->
  block32_T12 table data p v = Some (crc_update 32 0xEDB88320 v (take 12 (drop p data))).
Proof.
  intros Ht Hd Hv Hp. unfold block32_T12.
  rewrite !R_spec by lia. opt.
  assert (32 >= 8) as Hw by lia. apply Z.ge_le in Hw.
  pose proof (Q_spec 32 _ Hw poly32_width 12 table) as HQ.
  pose proof (byte_word4 data Hd) as Hb.
  rewrite (HQ 1%nat), (HQ 0%nat), (HQ 2%nat) by (assumption || lia || auto with width).
  opt. rewrite (crc_update_12 32 _ v data p Hw poly32_width Hd Hp). f_equal.
  rewrite Nat.mul_0_r, Nat.add_0_r.
  rewrite (Z.lxor_comm (_ ^^^ _) (crc_bits _ _ (32 * 3) _)), <-Z.lxor_assoc. reflexivity.
Qed.

Lemma split_64 v : in_width 64 v -> u32 v ^^^ (u32 (v >>> 32) <<< 32) = v.
Proof.
  intros Hv. unfold u32 at 2. unfold wrap. unfold in_width in Hv.
  rewrite (Z.mod_small (v >>> 32)).
  - by apply (lxor_split 32).
  - rewrite Z.shiftr_div_pow2 by lia. split; [apply Z.div_pos; lia|].
    apply Z.div_lt_upper_bound; lia.
Qed.

Lemma block64_T12_spec table data p v :
  is_table 64 0xC96C5795D7870F42 12 table -> bytes data -> in_width 64 v ->
  (p + 12 <= length data)%nat ->
  block64_T12 table data p v = Some (crc_update 64 0xC96C5795D7870F42 v (take 12 (drop p data))).
Proof.
  intros Ht Hd Hv Hp. unfold block64_T12.
  rewrite !R_spec by lia. opt.
  assert (64 >= 8) as Hw by lia. apply Z.ge_le in Hw.
  pose proof (Q_spec 64 _ Hw poly64_width 12 table) as HQ.
  pose proof (byte_word4 data Hd) as Hb.
  rewrite (HQ 0%nat), (HQ 2%nat), (HQ 1%nat) by (assumption || lia || auto with width).
  opt. rewrite (crc_update_12 64 _ v data p Hw poly64_width Hd Hp). f_equal.
  rewrite <-(split_64 v Hv) at 3. rewrite Nat.mul_0_r, Nat.add_0_r.
  rewrite !(crc_bits_lxor 64 _ Hw poly64_width).
  rewrite (crc_bits_shiftl 64 _ Hw poly64_width 32 96) by lia.
  rewrite Z.lxor_comm. rewrite !Z.lxor_assoc. f_equal.
  rewrite <-!Z.lxor_assoc. f_equal. f_equal. apply Z.lxor_comm.
Qed.

Lemma CrcUpdateT12_spec table addr v data :
  is_table 32 0xEDB88320 12 table -> in_width 32 v -> bytes data ->
  CrcUpdateT12 addr v data table = Some (crc_update 32 0xEDB88320 v data).
Proof.
  intros Ht Hv Hd. assert (32 >= 8) as Hw by lia. apply Z.ge_le in Hw.
  apply (update_T12_spec 32 _ table data Hw poly32_width Ht Hd block32_T12 (in_width 32));
    [|intros; by apply block32_T12_spec|done].
  intros v' b Hv' Hb. apply (crc_bits_in_width 32 _ Hw poly32_width).
  apply lxor_in_width; [lia|done|by apply in_width_byte].
Qed.

Lemma XzCrc64UpdateT12_spec table addr v data :
  is_table 64 0xC96C5795D7870F42 12 table -> in_width 64 v -> bytes data ->
  XzCrc64UpdateT12 addr v data table = Some (crc_update 64 0xC96C5795D7870F42 v data).
Proof.
  intros Ht Hv Hd. assert (64 >= 8) as Hw by lia. apply Z.ge_le in Hw.
  apply (update_T12_spec 64 _ table data Hw poly64_width Ht Hd block64_T12 (in_width 64));
    [|intros; by apply block64_T12_spec|done].
  intros v' b Hv' Hb. apply (crc_bits_in_width 64 _ Hw poly64_width).
  apply lxor_in_width; [lia|done|by apply in_width_byte].
Qed.

(** ** Properties *)

(** C30: CRC-64 of the .xz format.  Whatever the table memory holds, the generator
    fills it, and the 12-bytes-per-step update over that table computes the
    bit-serial CRC with polynomial 0xC96C5795D7870F42 for every buffer, every
    buffer address and every 64-bit start value; no table access is out of
    range. *)
Theorem XzCrc64_correct table :
  length table = (256 * 12)%nat ->
  exists t, Crc64GenerateTable 12 table = Some t /\
    forall addr v data, in_width 64 v -> bytes data ->
      XzCrc64UpdateT12 addr v data t = Some (crc_update 64 0xC96C5795D7870F42 v data).
Proof.
  intros Hl. destruct (Crc64GenerateTable_spec 12 table) as (t & Hg & Ht); [lia|done|].
  exists t. split; [done|]. intros. by apply XzCrc64UpdateT12_spec.
Qed.

Lemma XzCrc64_correct_witness :
  exists t, Crc64GenerateTable 12 (replicate (256 * 12) 0) = Some t /\
    forall addr v data, in_width 64 v -> bytes data ->
      XzCrc64UpdateT12 addr v data t = Some (crc_update 64 0xC96C5795D7870F42 v data).
Proof. apply XzCrc64_correct. by rewrite length_replicate. Defined.
