(* ===== verification/Crc32Braid.v ===== *)
(** * zlib-ng's crc32 and SunPack's CrcUpdate

    crc32.c and arch/generic/crc32_braid_c.c of
    src/native/sevenzip_bridge/zlib-ng-2.3.3 (BRAID_N = 5, BRAID_W = 8, little
    endian), and [CrcUpdate]/[CrcCalc] of 7z2604-src/C/7zCrc.c, which SunPack
    routes through [zng_crc32_z]. *)

From stdpp Require Import base numbers list list_numbers.
From Stdlib Require Import ZArith Lia.
From S2P Require Import Prelude Crc Crc32Tables.
Local Open Scope Z_scope.
Local Open Scope word_scope.

(** ** zlib-ng: crc32_braid_internal (BRAID_N = 5, BRAID_W = 8, little endian) *)

(** [crc_word]: eight byte steps on a 64-bit word. *)
Definition crc_word (crc_table : list Z) (data : Z) : option Z :=
  option_map (fun s => u32 s.2)
    (while 9 (fun '(k, _) => (k <? 8)%nat)
       (fun '(k, data) =>
          t ← crc_table !! Z.to_nat (data &&& 0xff); Some (S k, (data >>> 8) ^^^ t)) (O, data)).

(** [crc = BRAID_TABLE[0][word & 0xff]; for (k = 1; k < W; k++)
     crc ^= BRAID_TABLE[k][(word >> (k << 3)) & 0xff];] *)
Definition braid_step (braid_table : list (list Z)) (word : Z) : option Z :=
  row ← braid_table !! O; crc ← row !! Z.to_nat (word &&& 0xff);
  option_map snd
    (while 9 (fun '(k, _) => (k <? 8)%nat)
       (fun '(k, crc) =>
          row ← braid_table !! k;
          t ← row !! Z.to_nat ((word >>> (Z.of_nat k <<< 3)) &&& 0xff);
          Some (S k, crc ^^^ t)) (1%nat, crc)).

(** [words[i]] for the 64-bit word [i] from byte [p]. *)
Definition word64 (buf : list Z) (p i : nat) : option Z := option_map le_load (slice buf (p + 8 * i) 8).

Definition CRC_DO1 (crc_table buf : list Z) (c : Z) (p : nat) : option (Z * nat) :=
  b ← buf !! p; t ← crc_table !! Z.to_nat ((c ^^^ b) &&& 0xff); Some (t ^^^ (c >>> 8), S p).

Fixpoint CRC_DO (n : nat) (crc_table buf : list Z) (c : Z) (p : nat) : option (Z * nat) :=
  match n with
  | O => Some (c, p)
  | S n => '(c, p) ← CRC_DO1 crc_table buf c p; CRC_DO n crc_table buf c p
  end.

(** The braided middle part: [blks] blocks of 40 bytes from byte [p]. *)
Definition braid_blocks (crc_table : list Z) (braid_table : list (list Z)) (buf : list Z)
    (blks p : nat) (c : Z) : option (Z * nat) :=
  '(_, p, (crc0, crc1, crc2, crc3, crc4)) ←
    while (S blks)
      (fun '(blks, _, _) => negb (pred blks =? 0)%nat)
      (fun '(blks, p, (crc0, crc1, crc2, crc3, crc4)) =>
         w0 ← word64 buf p 0; w1 ← word64 buf p 1; w2 ← word64 buf p 2;
         w3 ← word64 buf p 3; w4 ← word64 buf p 4;
         crc0 ← braid_step braid_table (crc0 ^^^ w0); crc1 ← braid_step braid_table (crc1 ^^^ w1);
         crc2 ← braid_step braid_table (crc2 ^^^ w2); crc3 ← braid_step braid_table (crc3 ^^^ w3);
         crc4 ← braid_step braid_table (crc4 ^^^ w4);
         Some (pred blks, p + 40, (crc0, crc1, crc2, crc3, crc4))%nat)
      (blks, p, (c, 0, 0, 0, 0));
  w0 ← word64 buf p 0; w1 ← word64 buf p 1; w2 ← word64 buf p 2;
  w3 ← word64 buf p 3; w4 ← word64 buf p 4;
  comb ← crc_word crc_table (crc0 ^^^ w0);
  comb ← crc_word crc_table (crc1 ^^^ w1 ^^^ comb);
  comb ← crc_word crc_table (crc2 ^^^ w2 ^^^ comb);
  comb ← crc_word crc_table (crc3 ^^^ w3 ^^^ comb);
  comb ← crc_word crc_table (crc4 ^^^ w4 ^^^ comb);
  Some (u32 comb, p + 40)%nat.

Definition crc32_braid_internal (crc_table : list Z) (braid_table : list (list Z))
    (addr c : Z) (buf : list Z) : option Z :=
  let len := length buf in
  '(c, p, len) ←
    (if (5 * 8 + 8 - 1 <=? len)%nat then
       '(len, p, c) ←
         while (S len)
           (fun '(len, p, _) => negb (len =? 0)%nat && negb ((addr + Z.of_nat p) &&& (8 - 1) =? 0))
           (fun '(len, p, c) => '(c, p) ← CRC_DO1 crc_table buf c p; Some (pred len, p, c))
           (len, O, c);
       let blks := (len / (5 * 8))%nat in
       let len := (len - blks * 5 * 8)%nat in
       '(c, p) ← braid_blocks crc_table braid_table buf blks p c;
       Some (c, p, len)
     else Some (c, O, len));
  '(len, p, c) ←
    while (S len) (fun '(len, _, _) => (8 <=? len)%nat)
      (fun '(len, p, c) => '(c, p) ← CRC_DO 8 crc_table buf c p; Some (len - 8, p, c)%nat)
      (len, p, c);
  '(_, _, c) ←
    while (S len) (fun '(len, _, _) => negb (len =? 0)%nat)
      (fun '(len, p, c) => '(c, p) ← CRC_DO1 crc_table buf c p; Some (pred len, p, c))
      (len, p, c);
  Some c.

Definition crc32_braid (crc_table : list Z) (braid_table : list (list Z))
    (addr c : Z) (buf : list Z) : option Z :=
  let c := Z.lnot c &&& 0xffffffff in
  c ← crc32_braid_internal crc_table braid_table addr c buf;
  Some (c ^^^ 0xffffffff).

(** ** SunPack: CrcUpdate through the zlib-ng dispatch table

    [crc32_z] calls whichever CRC routine the function table holds for the
    running processor; what SunPack relies on is that it maps the finalised
    CRC of a prefix to the finalised CRC of the extended message. *)
Class Crc32Impl := { functable_crc32 : Z -> Z -> list Z -> option Z }.

Class Crc32Laws (I : Crc32Impl) : Prop := {
  functable_crc32_spec addr c buf :
    in_width 32 c -> bytes buf ->
    functable_crc32 addr c buf
    = Some (crc_update 32 0xEDB88320 (c ^^^ 0xFFFFFFFF) buf ^^^ 0xFFFFFFFF)
}.

Definition CRC_INIT_VAL : Z := 0xFFFFFFFF.
Definition CRC_GET_DIGEST (crc : Z) : Z := crc ^^^ CRC_INIT_VAL.

Section Update.
Context {I : Crc32Impl}.

(** [None] as the buffer address is the null pointer. *)
Definition zng_crc32_z (buf : option Z) (crc : Z) (data : list Z) : option Z :=
  match buf with
  | None => Some 0
  | Some addr => functable_crc32 addr crc data
  end.

Definition CrcUpdate (buf : option Z) (crc : Z) (data : list Z) : option Z :=
  if (length data =? 0)%nat then Some crc
  else r ← zng_crc32_z buf (crc ^^^ CRC_INIT_VAL) data; Some (r ^^^ CRC_INIT_VAL).

Definition CrcCalc (buf : option Z) (data : list Z) : option Z :=
  r ← CrcUpdate buf CRC_INIT_VAL data; Some (r ^^^ CRC_INIT_VAL).
End Update.

(** ** The tables *)

Local Abbreviation poly := 0xEDB88320.
Local Abbreviation bits := (crc_bits 32 poly).

Lemma width_32 : 8 <= 32.
Proof. lia. Qed.

(** Row [k] of the braid table, entry [b]: byte [k] of a word followed by the
    rest of a block of 40 bytes. *)
Definition is_braid_table (T : list (list Z)) : Prop :=
  forall k b, (k < 8)%nat -> 0 <= b < 256 ->
    exists row, T !! k = Some row /\ row !! Z.to_nat b = Some (bits (8 * (40 - k)) b).

(** The register is linear, so a row is spanned by the images of the eight bits
    of a byte. *)
Definition span (basis : list Z) : list Z :=
  fold_left (fun acc e => acc ++ map (Z.lxor e) acc) basis [0].

Definition bit_basis : list Z := [1; 2; 4; 8; 16; 32; 64; 128].

Lemma map_span (f : Z -> Z) basis :
  f 0 = 0 -> (forall x y, f (x ^^^ y) = f x ^^^ f y) -> map f (span basis) = span (map f basis).
Proof.
  intros H0 Hf. unfold span.
  assert (forall l, map f (fold_left (fun acc e => acc ++ map (Z.lxor e) acc) basis l)
    = fold_left (fun acc e => acc ++ map (Z.lxor e) acc) (map f basis) (map f l)) as H.
  { induction basis as [|e basis IH]; intros l; [reflexivity|].
    cbn [fold_left map]. rewrite IH, map_app, !map_map. do 2 f_equal.
    apply map_ext. intros x. apply Hf. }
  rewrite H. cbn [map]. by rewrite H0.
Qed.

Definition row (n : nat) : list Z := span (map (bits n) bit_basis).

Lemma row_lookup n b : 0 <= b < 256 -> row n !! Z.to_nat b = Some (bits n b).
Proof.
  intros Hb. unfold row. rewrite <-(map_span (bits n)); cycle 1.
  - apply (crc_bits_0_r 32 poly width_32 poly32_width).
  - apply (crc_bits_lxor 32 poly width_32 poly32_width).
  - replace (span bit_basis) with (map Z.of_nat (seq 0 256)) by reflexivity.
    rewrite map_map. change (@map) with (fun A B => @fmap list list_fmap A B). cbv beta.
    rewrite list_lookup_fmap, lookup_seq_lt by lia. simpl. f_equal. f_equal. lia.
Qed.

Lemma crc_table_row : crc_table = row 8.
Proof. reflexivity. Qed.

Lemma crc_braid_table_rows :
  crc_braid_table = map (fun k => row (8 * (40 - k))) (seq 0 8).
Proof. reflexivity. Qed.

Lemma crc_table_ok : is_table 32 poly 1 crc_table.
Proof.
  split; [reflexivity|]. intros k b Hk Hb. replace k with 0%nat by lia.
  change (8 * S 0)%nat with 8%nat.
  rewrite crc_table_row, <-(row_lookup 8 (Z.of_nat b)), Nat2Z.id by lia. reflexivity.
Qed.

Lemma crc_braid_table_ok : is_braid_table crc_braid_table.
Proof.
  intros k b Hk Hb. exists (row (8 * (40 - k))). split; [|by apply row_lookup].
  rewrite crc_braid_table_rows. do 8 (destruct k as [|k]; [reflexivity|]). lia.
Qed.

(** ** Words *)

(** Enough steps bring any word down to the width of the register. *)
Lemma crc_bit_shrink w x : 32 <= w -> in_width (w + 1) x -> in_width w (crc_bit 32 poly x).
Proof.
  intros Hw Hx. rewrite (crc_bit_alt 32 poly width_32 poly32_width).
  apply lxor_in_width; [lia| |].
  - unfold in_width in *. rewrite Z.shiftr_div_pow2 by lia. rewrite Z.pow_add_r in Hx by lia.
    split; [apply Z.div_pos; lia|apply Z.div_lt_upper_bound; lia].
  - pose proof (Z.pow_le_mono_r 2 32 w). destruct (Z.odd x); split; lia.
Qed.

Lemma crc_bits_shrink n w x :
  32 <= w -> in_width (w + Z.of_nat n) x -> in_width w (bits n x).
Proof.
  revert x. induction n as [|n IH]; intros x Hw Hx.
  - by rewrite Z.add_0_r in Hx.
  - replace (S n) with (n + 1)%nat by lia. rewrite crc_bits_add. apply IH; [done|].
    apply (crc_bit_shrink (w + Z.of_nat n)); [lia|].
    by replace (w + Z.of_nat n + 1) with (w + Z.of_nat (S n)) by lia.
Qed.

Lemma crc_bits_width_64 n x : in_width 64 x -> in_width 64 (bits n x).
Proof.
  intros Hx. induction n as [|n IH]; [exact Hx|].
  apply crc_bit_shrink; [lia|]. exact (in_width_mono 64 65 _ ltac:(lia) IH).
Qed.

Lemma crc_word_spec d : in_width 64 d -> crc_word crc_table d = Some (bits 64 d).
Proof.
  intros Hd. unfold crc_word.
  while_inv
    (fun '(k, x) => (k <= 8)%nat /\ bits (8 * (8 - k)) x = bits 64 d)
    (fun '(k, _) => (8 - k)%nat).
  - split; [lia|]. reflexivity.
  - lia.
  - intros [k x] (Hk & Hx) Hc. apply Nat.ltb_lt in Hc.
    rewrite (table_lookup_0 32 poly 1) by (apply crc_table_ok || lia || apply land_FF_range).
    opt. eexists; split; [reflexivity|]. split; [|lia]. split; [lia|].
    rewrite Z.lxor_comm, <-(crc_byte_split 32 poly width_32 poly32_width), <-crc_bits_add.
    rewrite <-Hx. f_equal. lia.
  - intros [k x] (Hk & Hx) Hc. apply Nat.ltb_ge in Hc. replace k with 8%nat in Hx by lia.
    opt. f_equal. rewrite <-Hx. apply wrap_small. change (8 * (8 - 8))%nat with 0%nat in Hx.
    change (in_width 32 (bits 0 x)). rewrite Hx. apply crc_bits_shrink; [lia|].
    unfold in_width in *. simpl. lia.
Qed.

Lemma braid_step_spec word : in_width 64 word -> braid_step crc_braid_table word = Some (bits 320 word).
Proof.
  intros Hw. unfold braid_step.
  destruct (crc_braid_table_ok 0%nat (word &&& 0xff)) as (r0 & -> & Hr0); [lia|apply land_FF_range|].
  opt. rewrite Hr0. opt.
  while_inv
    (fun '(k, crc) => (1 <= k <= 8)%nat /\
       crc ^^^ bits (8 * (40 - k)) (word >>> (8 * Z.of_nat k)) = bits 320 word)
    (fun '(k, _) => (8 - k)%nat).
  - split; [lia|]. symmetry. apply (crc_bits_split 32 poly width_32 poly32_width 320). lia.
  - lia.
  - intros [k crc] (Hk & Hx) Hc. apply Nat.ltb_lt in Hc.
    replace (Z.of_nat k <<< 3) with (8 * Z.of_nat k) by (rewrite Z.shiftl_mul_pow2; lia).
    destruct (crc_braid_table_ok k ((word >>> (8 * Z.of_nat k)) &&& 0xff)) as (r & -> & Hr);
      [lia|apply land_FF_range|].
    opt. rewrite Hr. opt. eexists; split; [reflexivity|]. split; [|lia]. split; [lia|].
    rewrite <-Hx, Z.lxor_assoc. f_equal.
    rewrite (crc_bits_split 32 poly width_32 poly32_width _ (word >>> (8 * Z.of_nat k))) by lia.
    rewrite Z.shiftr_shiftr by lia. f_equal. f_equal; [lia|]. f_equal. lia.
  - intros [k crc] (Hk & Hx) Hc. apply Nat.ltb_ge in Hc. opt. f_equal. rewrite <-Hx.
    replace k with 8%nat by lia. unfold in_width in Hw.
    rewrite (Z.shiftr_div_pow2 word) by lia. rewrite Z.div_small by lia.
    by rewrite (crc_bits_0_r 32 poly width_32 poly32_width), Z.lxor_0_r.
Qed.

(** ** Braids *)

Lemma lxor_exchange a b c d : (a ^^^ b) ^^^ (c ^^^ d) = (a ^^^ c) ^^^ (b ^^^ d).
Proof. rewrite !Z.lxor_assoc. f_equal. rewrite <-!Z.lxor_assoc. f_equal. apply Z.lxor_comm. Qed.

(** Five words as one block. *)
Definition lanes (x0 x1 x2 x3 x4 : Z) : Z :=
  x0 ^^^ (x1 <<< 64) ^^^ (x2 <<< 128) ^^^ (x3 <<< 192) ^^^ (x4 <<< 256).

Lemma lanes_lxor x0 x1 x2 x3 x4 y0 y1 y2 y3 y4 :
  lanes (x0 ^^^ y0) (x1 ^^^ y1) (x2 ^^^ y2) (x3 ^^^ y3) (x4 ^^^ y4)
  = lanes x0 x1 x2 x3 x4 ^^^ lanes y0 y1 y2 y3 y4.
Proof.
  unfold lanes. rewrite !Z.shiftl_lxor. symmetry.
  do 4 (etransitivity; [apply lxor_exchange|]; f_equal).
Qed.

Lemma bits_lanes x0 x1 x2 x3 x4 :
  bits 320 (lanes x0 x1 x2 x3 x4)
  = bits 320 x0 ^^^ bits 256 x1 ^^^ bits 192 x2 ^^^ bits 128 x3 ^^^ bits 64 x4.
Proof.
  unfold lanes. rewrite !(crc_bits_lxor 32 poly width_32 poly32_width).
  rewrite (crc_bits_shiftl 32 poly width_32 poly32_width 64 320),
    (crc_bits_shiftl 32 poly width_32 poly32_width 128 320),
    (crc_bits_shiftl 32 poly width_32 poly32_width 192 320),
    (crc_bits_shiftl 32 poly width_32 poly32_width 256 320) by lia.
  reflexivity.
Qed.

(** One independent step per braid, seen from the end of the next block. *)
Lemma lanes_step x0 x1 x2 x3 x4 :
  bits 320 (lanes (bits 320 x0) (bits 320 x1) (bits 320 x2) (bits 320 x3) (bits 320 x4))
  = bits 320 (bits 320 (lanes x0 x1 x2 x3 x4)).
Proof.
  rewrite !bits_lanes, !(crc_bits_lxor 32 poly width_32 poly32_width), <-!crc_bits_add.
  repeat (f_equal; try (f_equal; lia)).
Qed.

(** The words are folded one into the other at the end. *)
Lemma lanes_comb x0 x1 x2 x3 x4 :
  bits 64 (x4 ^^^ bits 64 (x3 ^^^ bits 64 (x2 ^^^ bits 64 (x1 ^^^ bits 64 x0))))
  = bits 320 (lanes x0 x1 x2 x3 x4).
Proof.
  rewrite bits_lanes, !(crc_bits_lxor 32 poly width_32 poly32_width), <-!crc_bits_add.
  do 4 (etransitivity; [apply Z.lxor_comm|]; f_equal).
Qed.

Lemma aligned_within addr : exists j, (j < 8)%nat /\ (addr + Z.of_nat j) &&& (8 - 1) = 0.
Proof.
  exists (Z.to_nat ((- addr) mod 8)). pose proof (Z.mod_pos_bound (- addr) 8 ltac:(lia)).
  split; [lia|]. rewrite Z2Nat.id by lia. rewrite (land_ones_mod 3 _ ltac:(lia) : _ &&& (8 - 1) = _).
  rewrite Zplus_mod_idemp_r. by replace (addr + - addr) with 0 by lia.
Qed.

Section Blocks.
Context (buf : list Z).
Hypothesis buf_bytes : bytes buf.

Local Abbreviation word p i := (le_load (take 8 (drop (p + 8 * i) buf))).
Local Abbreviation block p := (lanes (word p 0) (word p 1) (word p 2) (word p 3) (word p 4)).

Lemma word64_spec p i : (p + 8 * i + 8 <= length buf)%nat -> word64 buf p i = Some (word p i).
Proof. intros. unfold word64. by rewrite slice_Some by lia. Qed.

Lemma word64_width p i : in_width 64 (word p i).
Proof. apply le_load_in_width; [auto with width|]. rewrite length_take. lia. Qed.

Lemma block_load p :
  (p + 40 <= length buf)%nat -> le_load (take 40 (drop p buf)) = block p.
Proof.
  intros Hp. change 40%nat with (8 + (8 + (8 + (8 + 8))))%nat.
  rewrite !take_take_drop, !drop_drop, !le_load_app by auto with width.
  rewrite !length_take, !length_drop, !Nat.min_l by lia.
  unfold lanes. rewrite !Z.shiftl_lxor, !Z.shiftl_shiftl, <-!Z.lxor_assoc by lia.
  repeat (f_equal; try lia).
Qed.

Lemma crc_update_block v p :
  (p + 40 <= length buf)%nat ->
  crc_update 32 poly v (take 40 (drop p buf)) = bits 320 (v ^^^ block p).
Proof.
  intros Hp. rewrite (crc_update_load 32 poly width_32 poly32_width) by auto with width.
  rewrite block_load, length_take, length_drop, Nat.min_l by lia. reflexivity.
Qed.

Lemma braid_blocks_spec blks p c :
  (0 < blks)%nat -> (p + 40 * blks <= length buf)%nat -> in_width 32 c ->
  braid_blocks crc_table crc_braid_table buf blks p c
  = Some (crc_update 32 poly c (take (40 * blks) (drop p buf)), p + 40 * blks)%nat.
Proof.
  intros Hb Hp Hc. unfold braid_blocks.
  while_inv
    (fun '(n, q, (c0, c1, c2, c3, c4)) =>
       (0 < n)%nat /\ (p <= q)%nat /\ (q + 40 * n = p + 40 * blks)%nat /\
       Forall (in_width 64) [c0; c1; c2; c3; c4] /\
       bits 320 (lanes c0 c1 c2 c3 c4)
       = bits 320 (crc_update 32 poly c (take (q - p) (drop p buf))))
    (fun '(n, _, _) => n).
  - split_and!; [lia|lia|lia| |].
    + apply Forall_cons_2; [exact (in_width_mono 32 64 c ltac:(lia) Hc)|]. by repeat constructor.
    + rewrite Nat.sub_diag. cbn [take crc_update fold_left]. f_equal. unfold lanes.
      by rewrite !Z.shiftl_0_l, !Z.lxor_0_r.
  - lia.
  - intros [[n q] [[[[c0 c1] c2] c3] c4]] (Hn & Hpq & Hq & Hw & Hv) Hc0.
    apply negb_true_iff, Nat.eqb_neq in Hc0. rewrite !word64_spec by lia. opt.
    rewrite !Forall_cons in Hw. destruct Hw as (H0 & H1 & H2 & H3 & H4 & _).
    rewrite !braid_step_spec by auto using lxor_in_width, word64_width with width.
    opt. eexists; split; [reflexivity|]. split; [|lia]. split_and!; [lia|lia|lia| |].
    + repeat (apply Forall_cons_2;
                [apply crc_bits_width_64; auto using lxor_in_width, word64_width with width|]).
      apply Forall_nil_2.
    + rewrite lanes_step, lanes_lxor, (crc_bits_lxor 32 poly width_32 poly32_width 320 (lanes _ _ _ _ _)), Hv.
      rewrite <-(crc_bits_lxor 32 poly width_32 poly32_width), <-crc_update_block by lia.
      replace (q + 40 - p)%nat with (q - p + 40)%nat by lia.
      rewrite take_take_drop, crc_update_app, drop_drop. do 3 f_equal. f_equal. lia.
  - intros [[n q] [[[[c0 c1] c2] c3] c4]] (Hn & Hpq & Hq & Hw & Hv) Hc0.
    apply negb_false_iff, Nat.eqb_eq in Hc0. opt. rewrite !word64_spec by lia. opt.
    rewrite !Forall_cons in Hw. destruct Hw as (H0 & H1 & H2 & H3 & H4 & _).
    repeat (rewrite crc_word_spec
      by auto 12 using lxor_in_width, word64_width, crc_bits_width_64 with width; opt).
    rewrite lanes_comb, lanes_lxor.
    rewrite (crc_bits_lxor 32 poly width_32 poly32_width 320 (lanes _ _ _ _ _)), Hv.
    rewrite <-(crc_bits_lxor 32 poly width_32 poly32_width), <-crc_update_block by lia.
    assert (40 * blks = q - p + 40)%nat as Hlen by lia.
    rewrite Hlen, take_take_drop, crc_update_app, drop_drop.
    replace (p + (q - p))%nat with q by lia. opt.
    rewrite wrap_small by
      (repeat apply (crc_update_in_width 32 poly width_32 poly32_width); auto with width).
    replace (p + (q - p + 40))%nat with (q + 40)%nat by lia. reflexivity.
Qed.

Context (c0 : Z).
Hypothesis c0_width : in_width 32 c0.
Local Abbreviation upto p := (crc_update 32 poly c0 (take p buf)).

Lemma CRC_DO1_spec p :
  (p < length buf)%nat -> CRC_DO1 crc_table buf (upto p) p = Some (upto (S p), S p).
Proof.
  intros Hp. destruct (lookup_lt_is_Some_2 buf p Hp) as [b Hb]. unfold CRC_DO1. rewrite Hb. opt.
  pose proof (CRC_UPDATE_BYTE_2_spec 32 poly width_32 poly32_width 1 crc_table (upto p) b
                crc_table_ok ltac:(lia) (bytes_lookup _ _ _ buf_bytes Hb)) as Hs.
  unfold CRC_UPDATE_BYTE_2 in Hs. destruct (crc_table !! _) as [t|]; [|discriminate].
  cbn [mbind option_bind] in *. injection Hs as Hs. rewrite Hs.
  by rewrite (take_S_lookup _ _ _ Hb), crc_update_snoc.
Qed.

Lemma CRC_DO_spec n p :
  (p + n <= length buf)%nat -> CRC_DO n crc_table buf (upto p) p = Some (upto (p + n), p + n)%nat.
Proof.
  revert p. induction n as [|n IH]; intros p Hp.
  - by rewrite Nat.add_0_r.
  - cbn [CRC_DO]. rewrite CRC_DO1_spec by lia. opt. rewrite IH by lia.
    by replace (S p + n)%nat with (p + S n)%nat by lia.
Qed.

(** The loops after the braids. *)
Lemma tail_spec fuel len p :
  (p + len = length buf)%nat -> (len < fuel)%nat ->
  ('(len, p, c) ←
     while fuel (fun '(len, _, _) => (8 <=? len)%nat)
       (fun '(len, p, c) => '(c, p) ← CRC_DO 8 crc_table buf c p; Some (len - 8, p, c)%nat)
       (len, p, upto p);
   '(_, _, c) ←
     while (S len) (fun '(len, _, _) => negb (len =? 0)%nat)
       (fun '(len, p, c) => '(c, p) ← CRC_DO1 crc_table buf c p; Some (pred len, p, c))
       (len, p, c);
   Some c) = Some (crc_update 32 poly c0 buf).
Proof.
  intros Hp Hf.
  while_inv
    (fun '(n, q, c) => (q + n = length buf)%nat /\ c = upto q)
    (fun '(n, _, _) => n); [done|lia|..].
  - intros [[n q] c] (Hn & ->) Hc. apply Nat.leb_le in Hc.
    rewrite CRC_DO_spec by lia. opt. eexists; split; [reflexivity|]. repeat split; lia.
  - intros [[n q] c] (Hn & ->) _. opt.
    while_inv
      (fun '(n, q, c) => (q + n = length buf)%nat /\ c = upto q)
      (fun '(n, _, _) => n); [done|lia|..].
    + intros [[n' q'] c] (Hn' & ->) Hc. apply negb_true_iff, Nat.eqb_neq in Hc.
      rewrite CRC_DO1_spec by lia. opt. eexists; split; [reflexivity|]. repeat split; lia.
    + intros [[n' q'] c] (Hn' & ->) Hc. apply negb_false_iff, Nat.eqb_eq in Hc. opt.
      by rewrite take_ge by lia.
Qed.

Lemma crc32_braid_internal_spec addr :
  crc32_braid_internal crc_table crc_braid_table addr c0 buf = Some (crc_update 32 poly c0 buf).
Proof.
  unfold crc32_braid_internal. destruct (Nat.leb_spec (5 * 8 + 8 - 1) (length buf)) as [Hlen|].
  2: { opt. exact (tail_spec (S (length buf)) (length buf) 0 eq_refl ltac:(lia)). }
  while_inv
    (fun '(n, q, c) => (q + n = length buf)%nat /\ (q < 8)%nat /\
       (forall j, (j < q)%nat -> (addr + Z.of_nat j) &&& (8 - 1) <> 0) /\ c = upto q)
    (fun '(n, _, _) => n); [split_and!; [lia|lia|lia|done]|lia|..].
  - intros [[n q] c] (Hn & Hq & Ha & ->) Hc. apply andb_true_iff in Hc as [Hc1 Hc2].
    apply negb_true_iff, Nat.eqb_neq in Hc1. apply negb_true_iff, Z.eqb_neq in Hc2.
    assert (S q < 8)%nat as Hq'.
    { pose proof (aligned_within addr) as (j & Hj & Hz).
      destruct (decide (j < q)%nat) as [Hlt|]; [by destruct (Ha j Hlt)|].
      destruct (decide (j = q)) as [->|]; [done|lia]. }
    rewrite CRC_DO1_spec by lia. opt. eexists; split; [reflexivity|]. split; [|lia].
    split_and!; [lia|lia| |reflexivity].
    intros j Hj. destruct (decide (j = q)) as [->|]; [done|]. apply Ha. lia.
  - intros [[n q] c] (Hn & Hq & _ & ->) _. opt.
    assert (0 < n / 40)%nat by (apply Nat.div_str_pos; lia).
    pose proof (Nat.Div0.mul_div_le n 40).
    change (5 * 8)%nat with 40%nat.
    rewrite braid_blocks_spec;
      [|done|lia|apply crc_update_in_width; auto using width_32 with width].
    opt. rewrite <-crc_update_app, <-take_take_drop. apply tail_spec; lia.
Qed.
End Blocks.

Lemma crc32_braid_spec addr c buf :
  in_width 32 c -> bytes buf ->
  crc32_braid crc_table crc_braid_table addr c buf
  = Some (crc_update 32 poly (c ^^^ 0xFFFFFFFF) buf ^^^ 0xFFFFFFFF).
Proof.
  intros Hc Hb. unfold crc32_braid.
  assert (Z.lnot c &&& 0xffffffff = c ^^^ 0xFFFFFFFF) as ->.
  { rewrite (land_ones_mod 32 (Z.lnot c) ltac:(lia) : _ &&& 0xffffffff = _).
    rewrite <-(Z.land_ones _ 32) by lia. rewrite <-(Z.mod_small c (2 ^ 32)) by exact Hc.
    rewrite <-(Z.land_ones c 32) by lia. change 0xFFFFFFFF with (Z.ones 32).
    apply Z.bits_inj'. intros i Hi. rewrite !Z.lxor_spec, !Z.land_spec, Z.lnot_spec, Z.land_spec by lia.
    destruct (decide (i < 32)).
    - rewrite Z.ones_spec_low by lia. by destruct (Z.testbit c i).
    - rewrite Z.ones_spec_high by lia. by rewrite !andb_false_r. }
  rewrite crc32_braid_internal_spec; [reflexivity|done|].
  apply lxor_in_width; [lia|done|split; lia].
Qed.

(** The portable routine implements the interface. *)
#[export] Instance crc32_braid_impl : Crc32Impl :=
  {| functable_crc32 := crc32_braid crc_table crc_braid_table |}.

#[export] Instance crc32_braid_laws : Crc32Laws crc32_braid_impl.
Proof. split. apply crc32_braid_spec. Qed.

(** ** CrcUpdate, for any lawful routine *)

Section CrcUpdate.
Context {I : Crc32Impl} {L : Crc32Laws I}.

Lemma lxor_mask_twice x : x ^^^ CRC_INIT_VAL ^^^ CRC_INIT_VAL = x.
Proof. by rewrite Z.lxor_assoc, Z.lxor_nilpotent, Z.lxor_0_r. Qed.

Lemma CrcUpdate_spec addr crc data :
  in_width 32 crc -> bytes data ->
  CrcUpdate (Some addr) crc data = Some (crc_update 32 poly crc data).
Proof.
  intros Hc Hd. unfold CrcUpdate. destruct data as [|b data]; [reflexivity|].
  cbn [length Nat.eqb zng_crc32_z].
  rewrite (functable_crc32_spec addr) by (auto || apply lxor_in_width; done). opt.
  by rewrite !lxor_mask_twice.
Qed.

Lemma CrcCalc_spec addr data :
  bytes data ->
  CrcCalc (Some addr) data = Some (crc_update 32 poly CRC_INIT_VAL data ^^^ CRC_INIT_VAL).
Proof. intros Hd. unfold CrcCalc. by rewrite CrcUpdate_spec. Qed.
End CrcUpdate.

(** ** Properties *)

(** C6: zlib-ng's braided CRC-32, with the static tables of the source: for every
    buffer, address and previous CRC, alignment bytes, five interleaved braids of
    64-bit words, their combination and the tail compute the bit-serial CRC with
    polynomial 0xEDB88320, pre- and post-conditioned by inversion. *)
Theorem crc32_braid_correct addr c buf :
  in_width 32 c -> bytes buf ->
  crc32_braid crc_table crc_braid_table addr c buf
  = Some (crc_update 32 0xEDB88320 (c ^^^ 0xFFFFFFFF) buf ^^^ 0xFFFFFFFF).
Proof. apply crc32_braid_spec. Qed.

Lemma crc32_braid_correct_witness :
  crc32_braid crc_table crc_braid_table 3 0 (map Z.of_nat (seq 1 60))
  = Some (crc_update 32 0xEDB88320 (0 ^^^ 0xFFFFFFFF) (map Z.of_nat (seq 1 60)) ^^^ 0xFFFFFFFF).
Proof. apply crc32_braid_correct; [split; lia|cbn [seq map]; byte_list]. Defined.

(** C9: SunPack's replacement is transparent.  Over any lawful CRC routine,
    [CrcUpdate] returns what 7-Zip's own table-driven [CrcUpdateT12] returns with
    the generated tables, for every buffer and every 32-bit register value. *)
Theorem CrcUpdate_replaces_CrcUpdateT12 (I : Crc32Impl) (L : Crc32Laws I) table :
  length table = (256 * 12)%nat ->
  exists t, CrcGenerateTable 12 table = Some t /\
    forall addr v data, in_width 32 v -> bytes data ->
      CrcUpdate (Some addr) v data = CrcUpdateT12 addr v data t.
Proof.
  intros Hl. destruct (CrcGenerateTable_spec 12 table) as (t & Hg & Ht); [lia|done|].
  exists t. split; [done|]. intros. rewrite CrcUpdate_spec by done.
  by rewrite CrcUpdateT12_spec.
Qed.

Lemma CrcUpdate_replaces_CrcUpdateT12_witness :
  exists t, CrcGenerateTable 12 (replicate (256 * 12) 0) = Some t /\
    forall addr v data, in_width 32 v -> bytes data ->
      CrcUpdate (Some addr) v data = CrcUpdateT12 addr v data t.
Proof.
  apply (CrcUpdate_replaces_CrcUpdateT12 crc32_braid_impl crc32_braid_laws).
  by rewrite length_replicate.
Defined.

(** Incremental use.  Over any lawful routine the CRC of a file read in two
    pieces, at any addresses, is the CRC of the whole, and [CrcCalc] is the
    digest of [CrcUpdate] from the initial value; an empty piece changes nothing
    even when its pointer is null. *)
Theorem CrcUpdate_incremental (I : Crc32Impl) (L : Crc32Laws I) a b c xs ys :
  bytes xs -> bytes ys ->
  exists r, CrcUpdate (Some a) CRC_INIT_VAL xs = Some r /\
    CrcUpdate None r [] = Some r /\
    CrcUpdate (Some b) r ys = CrcUpdate (Some c) CRC_INIT_VAL (xs ++ ys) /\
    exists r', CrcUpdate (Some b) r ys = Some r' /\
      CrcCalc (Some c) (xs ++ ys) = Some (CRC_GET_DIGEST r').
Proof.
  intros Hx Hy. assert (in_width 32 CRC_INIT_VAL) as Hi by done.
  assert (bytes (xs ++ ys)) as Hxy by (by apply Forall_app_2).
  exists (crc_update 32 poly CRC_INIT_VAL xs).
  rewrite !CrcUpdate_spec by (auto; apply crc_update_in_width; auto using width_32 with width).
  rewrite crc_update_app. split_and!; [done..|]. eexists. split; [done|].
  by rewrite CrcCalc_spec, crc_update_app.
Qed.

Lemma CrcUpdate_incremental_witness :
  exists r, CrcUpdate (Some 1) CRC_INIT_VAL [0x31; 0x32; 0x33] = Some r /\
    CrcUpdate None r [] = Some r /\
    CrcUpdate (Some 0) r [0x34; 0x35; 0x36; 0x37; 0x38; 0x39]
    = CrcUpdate (Some 5) CRC_INIT_VAL ([0x31; 0x32; 0x33] ++ [0x34; 0x35; 0x36; 0x37; 0x38; 0x39]) /\
    exists r', CrcUpdate (Some 0) r [0x34; 0x35; 0x36; 0x37; 0x38; 0x39] = Some r' /\
      CrcCalc (Some 5) ([0x31; 0x32; 0x33] ++ [0x34; 0x35; 0x36; 0x37; 0x38; 0x39])
      = Some (CRC_GET_DIGEST r').
Proof.
  apply (CrcUpdate_incremental crc32_braid_impl crc32_braid_laws); byte_list.
Defined.

(** The check value of CRC-32/ISO-HDLC. *)
Example CrcCalc_check : CrcCalc (Some 0) (map Z.of_nat (seq 0x31 9)) = Some 0xCBF43926.
Proof. reflexivity. Qed.
