(* ===== verification/Lz4Stream.v ===== *)
(** * SunPack's LZ4 stream adapter

    src/native/lz4_stream/stream.c and stream.h: the loop that reads a
    concatenation of LZ4 frames and skippable frames through callbacks, hands
    frames to the LZ4F library and counts what it did.

    The callbacks and the library act on a world of type [E] (the caller's
    [opaque] object, the library's heap); what they do is the interface
    [Lz4World], what the adapter relies on is [Lz4Laws]. *)

From stdpp Require Import base numbers list list_numbers.
From Stdlib Require Import ZArith Lia.
From S2P Require Import Prelude StateError.
Local Open Scope Z_scope.
Local Open Scope word_scope.

Inductive sup_lz4_error :=
  | SUP_LZ4_OK | SUP_LZ4_IO | SUP_LZ4_TRUNCATED | SUP_LZ4_DATA
  | SUP_LZ4_CHECKSUM | SUP_LZ4_UNSUPPORTED | SUP_LZ4_MEMORY | SUP_LZ4_CANCELLED.

#[export] Instance sup_lz4_error_eq_dec : EqDecision sup_lz4_error.
Proof. solve_decision. Defined.

Record sup_lz4_result := {
  input_bytes : Z; output_bytes : Z; frames : Z; skippable_frames : Z;
  content_checked_frames : Z; block_checked_frames : Z; error : sup_lz4_error
}.

Record frameInfo := { contentChecksumFlag : bool; blockChecksumFlag : bool }.

(** The callbacks, and the LZ4F functions the adapter calls.  [None] for an
    optional callback is the null pointer; [custom_memory] says whether
    [allocate] was given. A context is a pointer, its contents are in the world. *)
Class Lz4World (E Ctx : Type) := {
  read : E -> Z -> E * Z * list Z;
  skip : option (E -> Z -> E * Z);
  write : E -> list Z -> E * Z;
  progress : option (E -> Z -> Z -> E * Z);
  custom_memory : bool;
  LZ4F_createDecompressionContext_advanced : E -> E * option Ctx;
  LZ4F_createDecompressionContext : E -> E * Z * Ctx;
  LZ4F_getFrameInfo : E -> Ctx -> list Z -> E * Z * frameInfo * nat;
  LZ4F_decompress : E -> Ctx -> Z -> list Z -> E * Z * list Z * nat;
  LZ4F_freeDecompressionContext : E -> Ctx -> E
}.

Definition BUFFER_SIZE : Z := 256 * 1024.
Definition FRAME_MAGIC : Z := 0x184d2204.

(** ** Library error codes *)

Definition LZ4F_ERROR_blockChecksum_invalid : Z := 7.
Definition LZ4F_ERROR_allocation_failed : Z := 9.
Definition LZ4F_ERROR_headerChecksum_invalid : Z := 17.
Definition LZ4F_ERROR_contentChecksum_invalid : Z := 18.
Definition LZ4F_ERROR_maxCode : Z := 24.

Definition LZ4F_isError (code : Z) : bool := u64 (- LZ4F_ERROR_maxCode) <? code.

Definition LZ4F_getErrorCode (functionResult : Z) : Z :=
  if negb (LZ4F_isError functionResult) then 0 else u64 (- functionResult).

Definition library_error (rc : Z) : sup_lz4_error :=
  let error := LZ4F_getErrorCode rc in
  if (error =? LZ4F_ERROR_contentChecksum_invalid) || (error =? LZ4F_ERROR_blockChecksum_invalid)
     || (error =? LZ4F_ERROR_headerChecksum_invalid) then SUP_LZ4_CHECKSUM
  else if error =? LZ4F_ERROR_allocation_failed then SUP_LZ4_MEMORY
  else SUP_LZ4_DATA.

(** ** The stream *)

Section Stream.
Context {E Ctx : Type} {W : Lz4World E Ctx}.

(** [input] is the initialised part [input[0 .. size)] of the buffer. *)
Record stream := { env : E; input : list Z; pos : nat; result : sup_lz4_result }.

Definition size (s : stream) : nat := length (input s).

Definition set_env (e : E) (s : stream) : stream :=
  {| env := e; input := input s; pos := pos s; result := result s |}.
Definition set_buffer (l : list Z) (p : nat) (s : stream) : stream :=
  {| env := env s; input := l; pos := p; result := result s |}.
Definition set_result (r : sup_lz4_result) (s : stream) : stream :=
  {| env := env s; input := input s; pos := pos s; result := r |}.

Definition add_input (n : Z) (r : sup_lz4_result) : sup_lz4_result :=
  {| input_bytes := u64 (input_bytes r + n); output_bytes := output_bytes r; frames := frames r;
     skippable_frames := skippable_frames r; content_checked_frames := content_checked_frames r;
     block_checked_frames := block_checked_frames r; error := error r |}.
Definition add_output (n : Z) (r : sup_lz4_result) : sup_lz4_result :=
  {| input_bytes := input_bytes r; output_bytes := u64 (output_bytes r + n); frames := frames r;
     skippable_frames := skippable_frames r; content_checked_frames := content_checked_frames r;
     block_checked_frames := block_checked_frames r; error := error r |}.

Local Abbreviation M := (M stream sup_lz4_error).

Definition le32 (p : list Z) (i : nat) : option Z :=
  b0 ← p !! i; b1 ← p !! (i + 1)%nat; b2 ← p !! (i + 2)%nat; b3 ← p !! (i + 3)%nat;
  Some (b0 ||| (b1 <<< 8) ||| (b2 <<< 16) ||| (b3 <<< 24)).

Definition le64 (p : list Z) (i : nat) : option Z :=
  lo ← le32 p i; hi ← le32 p (i + 4); Some (lo ||| (hi <<< 32)).

Definition is_skip (magic : Z) : bool := (magic &&& 0xfffffff0) =? 0x184d2a50.

Definition tick : M unit :=
  s ← get;
  match progress with
  | None => mret tt
  | Some progress =>
      let '(e, stop) := progress (env s) (input_bytes (result s)) (output_bytes (result s)) in
      put (set_env e s);;
      if stop =? 0 then mret tt else throw SUP_LZ4_CANCELLED
  end.

Definition need (n : nat) : M unit :=
  mloop (S n)
    (fun _ =>
       s ← get;
       if (n <=? size s - pos s)%nat then mret (inr tt)
       else
         tick;;
         modify (fun s => if (pos s =? 0)%nat then s else set_buffer (drop (pos s) (input s)) 0 s);;
         s ← get;
         let room := BUFFER_SIZE - Z.of_nat (size s) in
         let '(e, got, data) := read (env s) room in
         put (set_env e s);;
         if (got <? 0) || (room <? got) then throw SUP_LZ4_IO
         else if got =? 0 then throw SUP_LZ4_TRUNCATED
         else put (set_buffer (input s ++ data) (pos s) (set_env e s));; mret (inl tt)) tt.

Definition consume (n : nat) : M unit :=
  modify (fun s =>
    set_result (add_input (Z.of_nat n) (result s)) (set_buffer (input s) (pos s + n) s)).

(** [take = n < available ? n : available] *)
Definition available (s : stream) : nat := (size s - pos s)%nat.
Definition take_of (n : Z) (s : stream) : nat :=
  if n <? Z.of_nat (available s) then Z.to_nat n else available s.

Definition skip_bytes (fuel : nat) (n : Z) : M unit :=
  s ← get;
  let take := take_of n s in
  consume take;;
  let n := n - Z.of_nat take in
  match (if n =? 0 then None else skip) with
  | Some skip =>
      s ← get;
      let '(e, error) := skip (env s) n in
      put (set_env e s);;
      if negb (error =? 0) then throw (if error =? 1 then SUP_LZ4_TRUNCATED else SUP_LZ4_IO)
      else modify (fun s => set_result (add_input n (result s)) s);; tick
  | None =>
      mloop fuel
        (fun n =>
           if n =? 0 then mret (inr tt)
           else
             need 1;;
             s ← get;
             let take := take_of n s in
             consume take;; mret (inl (n - Z.of_nat take))) n
  end.

Definition emit (data : list Z) : M unit :=
  s ← get;
  let n := Z.of_nat (length data) in
  if 2 ^ 64 - 1 - output_bytes (result s) <? n then throw SUP_LZ4_DATA
  else
    (if n =? 0 then mret tt
     else
       let '(e, failed) := write (env s) data in
       put (set_env e s);;
       if failed =? 0 then mret tt else throw SUP_LZ4_IO);;
    modify (fun s => set_result (add_output n (result s)) s);;
    tick.

Definition header_size (flags : Z) : nat :=
  let has_size := negb ((flags &&& 8) =? 0) in
  let has_dict := negb ((flags &&& 1) =? 0) in
  (7 + (if has_size then 8 else 0) + (if has_dict then 4 else 0))%nat.

Definition create_context : M Ctx :=
  s ← get;
  if custom_memory then
    let '(e, ctx) := LZ4F_createDecompressionContext_advanced (env s) in
    put (set_env e s);;
    match ctx with None => throw SUP_LZ4_MEMORY | Some ctx => mret ctx end
  else
    let '(e, hint, ctx) := LZ4F_createDecompressionContext (env s) in
    put (set_env e s);;
    if LZ4F_isError hint then throw (library_error hint) else mret ctx.

(** [do { ... } while (hint)] *)
Definition decompress_loop (fuel : nat) (ctx : Ctx) : M unit :=
  mloop fuel
    (fun _ =>
       need 1;;
       s ← get;
       let '(e, hint, out, source_size) :=
         LZ4F_decompress (env s) ctx BUFFER_SIZE (drop (pos s) (input s)) in
       put (set_env e s);;
       if LZ4F_isError hint then throw (library_error hint)
       else
         consume source_size;;
         emit out;;
         if negb (hint =? 0) && (source_size =? 0)%nat && (length out =? 0)%nat
         then throw SUP_LZ4_DATA
         else mret (if hint =? 0 then inr tt else inl tt)) tt.

Definition count_frame (info : frameInfo) (r : sup_lz4_result) : sup_lz4_result :=
  {| input_bytes := input_bytes r; output_bytes := output_bytes r; frames := u64 (frames r + 1);
     skippable_frames := skippable_frames r;
     content_checked_frames :=
       if contentChecksumFlag info then u64 (content_checked_frames r + 1)
       else content_checked_frames r;
     block_checked_frames :=
       if blockChecksumFlag info then u64 (block_checked_frames r + 1)
       else block_checked_frames r;
     error := error r |}.

Definition count_skippable (r : sup_lz4_result) : sup_lz4_result :=
  {| input_bytes := input_bytes r; output_bytes := output_bytes r; frames := frames r;
     skippable_frames := u64 (skippable_frames r + 1);
     content_checked_frames := content_checked_frames r;
     block_checked_frames := block_checked_frames r; error := error r |}.

(** The part of [modern] between the creation and the release of the context. *)
Definition modern_body (fuel : nat) (flags expected start_out : Z) (ctx : Ctx) : M unit :=
  s ← get;
  let '(e, hint, info, source_size) :=
    LZ4F_getFrameInfo (env s) ctx (take (header_size flags) (drop (pos s) (input s))) in
  put (set_env e s);;
  if LZ4F_isError hint then throw (library_error hint)
  else
    consume source_size;;
    if negb ((flags &&& 1) =? 0) then throw SUP_LZ4_UNSUPPORTED
    else
      decompress_loop fuel ctx;;
      s ← get;
      if negb ((flags &&& 8) =? 0)
         && negb (u64 (output_bytes (result s) - start_out) =? expected) then throw SUP_LZ4_DATA
      else modify (fun s => set_result (count_frame info (result s)) s).

Definition modern (fuel : nat) : M unit :=
  s0 ← get;
  let start_out := output_bytes (result s0) in
  need 7;;
  s ← get;
  flags ← access (input s !! (pos s + 4)%nat);
  need (header_size flags);;
  s ← get;
  expected ← (if (flags &&& 8) =? 0 then mret 0 else access (le64 (input s) (pos s + 6)));
  ctx ← create_context;
  finally (modern_body fuel flags expected start_out ctx)
    (fun s => set_env (LZ4F_freeDecompressionContext (env s) ctx) s).

Definition skippable (fuel : nat) : M unit :=
  need 8;;
  s ← get;
  size ← access (le32 (input s) (pos s + 4));
  consume 8;;
  skip_bytes fuel size;;
  modify (fun s => set_result (count_skippable (result s)) s).

(** One turn of [for (;;)]. *)
Definition next_frame (fuel : nat) : M (unit + unit) :=
  rc ← catch (need 4);
  s ← get;
  match rc with
  | inl SUP_LZ4_TRUNCATED =>
      if (pos s =? size s)%nat
         && (negb (frames (result s) =? 0) || negb (skippable_frames (result s) =? 0))
      then mret (inr tt) else throw SUP_LZ4_TRUNCATED
  | inl rc => throw rc
  | inr _ =>
      magic ← access (le32 (input s) (pos s));
      (if magic =? FRAME_MAGIC then modern fuel
       else if is_skip magic then skippable fuel
       else throw SUP_LZ4_DATA);;
      mret (inl tt)
  end.

Definition zero_result : sup_lz4_result :=
  {| input_bytes := 0; output_bytes := 0; frames := 0; skippable_frames := 0;
     content_checked_frames := 0; block_checked_frames := 0; error := SUP_LZ4_OK |}.

Definition set_error (rc : sup_lz4_error) (r : sup_lz4_result) : sup_lz4_result :=
  {| input_bytes := input_bytes r; output_bytes := output_bytes r; frames := frames r;
     skippable_frames := skippable_frames r; content_checked_frames := content_checked_frames r;
     block_checked_frames := block_checked_frames r; error := rc |}.

(** [buffers]: both calls of malloc succeeded. *)
Definition sup_lz4_decode_with_memory (fuel : nat) (buffers : bool) (e : E)
  : option (E * sup_lz4_result * sup_lz4_error) :=
  let s := {| env := e; input := []; pos := 0; result := zero_result |} in
  if negb buffers then Some (e, set_error SUP_LZ4_MEMORY zero_result, SUP_LZ4_MEMORY)
  else
    '(s, rc) ← mloop fuel (fun _ => next_frame fuel) tt s;
    let rc := match rc with inl rc => rc | inr _ => SUP_LZ4_OK end in
    Some (env s, set_error rc (result s), rc).
End Stream.

(** [sup_lz4_decode]: no memory functions. *)
Definition without_memory {E Ctx} (W : Lz4World E Ctx) : Lz4World E Ctx :=
  {| read := read; skip := skip; write := write; progress := progress; custom_memory := false;
     LZ4F_createDecompressionContext_advanced := LZ4F_createDecompressionContext_advanced;
     LZ4F_createDecompressionContext := LZ4F_createDecompressionContext;
     LZ4F_getFrameInfo := LZ4F_getFrameInfo; LZ4F_decompress := LZ4F_decompress;
     LZ4F_freeDecompressionContext := LZ4F_freeDecompressionContext |}.

Definition sup_lz4_decode {E Ctx} {W : Lz4World E Ctx} (fuel : nat) (buffers : bool) (e : E)
  : option (E * sup_lz4_result * sup_lz4_error) :=
  sup_lz4_decode_with_memory (W := without_memory W) fuel buffers e.

(** ** What the adapter relies on *)

(** What a context has taken in and given out since it was made, and how much output it can
    still produce without new input. *)
Record progress_of := { consumed : list Z; produced : list Z; owed : nat }.

(** What the header of a frame says of its checksums. *)
Definition header_info (flags : Z) : frameInfo :=
  {| contentChecksumFlag := negb ((flags &&& 4) =? 0); blockChecksumFlag := negb ((flags &&& 16) =? 0) |}.

(** [unread]: the bytes the read callback still has; [written]: the bytes the
    write callback accepted; [context]: how far a context is; [frame_content b]: what [b]
    decompresses to, if it is exactly one LZ4 frame. *)
Class Lz4Laws {E Ctx : Type} (W : Lz4World E Ctx) := {
  unread : E -> list Z;
  written : E -> list Z;
  context : E -> Ctx -> progress_of;
  frame_content : list Z -> option (list Z);
  owed_max : nat;
  owed_bound e ctx : (owed (context e ctx) <= owed_max)%nat;
  read_law e n e' got data :
    read e n = (e', got, data) -> 0 <= got <= n ->
    Z.of_nat (length data) = got /\ unread e = data ++ unread e' /\ written e' = written e /\
    (got = 0 -> 0 < n -> unread e = []) /\ forall c, context e' c = context e c;
  skip_law f e n e' :
    skip = Some f -> 0 < n -> f e n = (e', 0) ->
    n <= Z.of_nat (length (unread e)) /\ unread e' = drop (Z.to_nat n) (unread e) /\
    written e' = written e;
  skip_exhausted_law f e n e' :
    skip = Some f -> 0 < n -> f e n = (e', 1) ->
    Z.of_nat (length (unread e)) < n /\ written e' = written e;
  write_law e data e' :
    write e data = (e', 0) ->
    unread e' = unread e /\ written e' = written e ++ data /\ forall c, context e' c = context e c;
  progress_law f e i o e' r :
    progress = Some f -> f e i o = (e', r) ->
    unread e' = unread e /\ written e' = written e /\ forall c, context e' c = context e c;
  (* a new context has done nothing *)
  create_advanced_law e e' c :
    LZ4F_createDecompressionContext_advanced e = (e', c) ->
    unread e' = unread e /\ written e' = written e /\
    forall c', c = Some c' -> consumed (context e' c') = [] /\ produced (context e' c') = [];
  create_law e e' h c :
    LZ4F_createDecompressionContext e = (e', h, c) ->
    unread e' = unread e /\ written e' = written e /\
    (LZ4F_isError h = false -> consumed (context e' c) = [] /\ produced (context e' c) = []);
  free_law e c :
    unread (LZ4F_freeDecompressionContext e c) = unread e /\
    written (LZ4F_freeDecompressionContext e c) = written e;
  (* a new context that is given exactly the header of an LZ4 frame takes it in or refuses it *)
  getFrameInfo_law e c src e' hint info n :
    LZ4F_getFrameInfo e c src = (e', hint, info, n) ->
    unread e' = unread e /\ written e' = written e /\
    (LZ4F_isError hint = false -> consumed (context e c) = [] -> produced (context e c) = [] ->
     forall flags, le_load (take 4 src) = FRAME_MAGIC -> src !! 4%nat = Some flags -> length src = header_size flags ->
     n = length src /\ info = header_info flags /\
     consumed (context e' c) = src /\ produced (context e' c) = []);
  (* a context that took in a header goes on with the frame; it answers 0 when all of it was
     decompressed, and is then ready for another *)
  decompress_law e c cap src e' hint out n :
    LZ4F_decompress e c cap src = (e', hint, out, n) ->
    unread e' = unread e /\ written e' = written e /\
    (LZ4F_isError hint = false -> consumed (context e c) <> [] ->
     (n <= length src)%nat /\
     (hint <> 0 ->
      consumed (context e' c) = consumed (context e c) ++ take n src /\
      produced (context e' c) = produced (context e c) ++ out /\
      (n = 0%nat -> out <> [] -> (owed (context e' c) < owed (context e c))%nat)) /\
     (hint = 0 ->
      frame_content (consumed (context e c) ++ take n src) = Some (produced (context e c) ++ out)))
}.

(** ** The format of the stream *)

(** A frame, with the bytes written for it. *)
Inductive segment :=
  | Skippable (b : list Z)
  | Modern (b out : list Z).

Definition seg_bytes (g : segment) : list Z := match g with Skippable b | Modern b _ => b end.
Definition seg_out (g : segment) : list Z := match g with Skippable _ => [] | Modern _ out => out end.

(** What makes the bytes a frame, and the output that of the frame: what the adapter checks
    itself, and the decompression. *)
Definition seg_ok {E Ctx} {W : Lz4World E Ctx} {L : Lz4Laws W} (g : segment) : Prop :=
  match g with
  | Skippable b =>
      (8 <= length b)%nat /\ is_skip (le_load (take 4 b)) = true /\
      le_load (take 4 (drop 4 b)) = Z.of_nat (length b - 8)
  | Modern b out =>
      le_load (take 4 b) = FRAME_MAGIC /\
      exists flags, b !! 4%nat = Some flags /\ (flags &&& 1) = 0 /\
        (header_size flags <= length b)%nat /\
        ((flags &&& 8) <> 0 -> le_load (take 8 (drop 6 b)) = Z.of_nat (length out)) /\
        frame_content b = Some out
  end.

Definition is_modern (g : segment) : bool := match g with Modern _ _ => true | _ => false end.

(** The frames whose header asks for a checksum of the content, or of the blocks. *)
Definition checks (f : frameInfo -> bool) (g : segment) : bool :=
  match g with Modern b _ => f (header_info (nth 4 b 0)) | Skippable _ => false end.

Definition count (p : segment -> bool) (gs : list segment) : Z := Z.of_nat (length (filter p gs)).

Lemma count_snoc p gs g : count p (gs ++ [g]) = count p gs + (if p g then 1 else 0).
Proof.
  unfold count. rewrite filter_app, length_app. cbn [filter list_filter].
  destruct (decide (p g)) as [H|H]; destruct (p g); cbn in *; try done; lia.
Qed.

Lemma count_split p gs : count p gs + count (fun g => negb (p g)) gs = Z.of_nat (length gs).
Proof.
  induction gs as [|g gs IH] using rev_ind; [done|].
  rewrite !count_snoc, length_app. cbn. destruct (p g); cbn; lia.
Qed.

(** ** The readers of the buffer *)

Lemma le32_spec p i :
  bytes p -> (i + 4 <= length p)%nat -> le32 p i = Some (le_load (take 4 (drop i p))).
Proof.
  intros Hp Hi. unfold le32.
  assert (forall k, (k < 4)%nat -> exists b, p !! (i + k)%nat = Some b /\ in_width 8 b) as Hb.
  { intros k Hk. destruct (lookup_lt_is_Some_2 p (i + k)) as [b Hb]; [lia|]. exists b.
    split; [done|]. by apply (bytes_lookup p (i + k)). }
  destruct (Hb 0%nat ltac:(lia)) as (b0 & H0 & W0). rewrite Nat.add_0_r in H0.
  destruct (Hb 1%nat ltac:(lia)) as (b1 & H1 & W1).
  destruct (Hb 2%nat ltac:(lia)) as (b2 & H2 & W2).
  destruct (Hb 3%nat ltac:(lia)) as (b3 & H3 & W3).
  rewrite H0, H1, H2, H3. opt. f_equal.
  assert (take 4 (drop i p) = [b0; b1; b2; b3]) as ->.
  { rewrite (drop_S _ _ _ H0). rewrite (drop_S p b1 (S i)) by (by rewrite <-H1; f_equal; lia).
    rewrite (drop_S p b2 (S (S i))) by (by rewrite <-H2; f_equal; lia).
    rewrite (drop_S p b3 (S (S (S i)))) by (by rewrite <-H3; f_equal; lia). done. }
  unfold in_width in *. cbn [le_load].
  rewrite (lor_shiftl_add 8 b0) by lia. rewrite (lor_shiftl_add 16) by lia.
  rewrite (lor_shiftl_add 24) by lia. lia.
Qed.

Lemma le64_spec p i :
  bytes p -> (i + 8 <= length p)%nat -> le64 p i = Some (le_load (take 8 (drop i p))).
Proof.
  intros Hp Hi. unfold le64. rewrite !le32_spec by (done || lia). opt. f_equal.
  rewrite lor_shiftl_add; [|lia|apply le_load_in_width; [auto with width|len]].
  change 8%nat with (4 + 4)%nat. rewrite take_take_drop, drop_drop.
  rewrite le_load_app by auto with width. rewrite length_take, length_drop, Nat.min_l by lia.
  rewrite lxor_shiftl_add; [done|lia|apply le_load_in_width; [auto with width|len]].
Qed.

Lemma le32_drop p i k : le32 (drop i p) k = le32 p (i + k).
Proof. unfold le32. rewrite !lookup_drop, !Nat.add_assoc. done. Qed.

Lemma le64_drop p i k : le64 (drop i p) k = le64 p (i + k).
Proof. unfold le64. rewrite !le32_drop, !Nat.add_assoc. done. Qed.

(** ** Specifications of the operations *)

Section Specs.
Context {E Ctx : Type} {W : Lz4World E Ctx} {L : Lz4Laws W}.
Context (src wr0 : list Z) (fuel : nat).
Hypothesis src_bytes : bytes src.
Hypothesis src_size : Z.of_nat (length src) < 2 ^ 64.
Hypothesis fuel_enough : ((length src + 1) * (owed_max + 1) < fuel)%nat.

Local Abbreviation stream := (@stream E).

Definition pending (s : stream) : list Z := drop (pos s) (input s).
Definition ahead (s : stream) : list Z := pending s ++ unread (env s).

(** The stream stands after [c] of the source and has written [o]. *)
Record Inv (c o : list Z) (s : stream) : Prop := {
  inv_pos : (pos s <= size s)%nat;
  inv_size : Z.of_nat (size s) <= BUFFER_SIZE;
  inv_src : src = c ++ ahead s;
  inv_in : input_bytes (result s) = Z.of_nat (length c);
  inv_out : written (env s) = wr0 ++ o;
  inv_outb : output_bytes (result s) = Z.of_nat (length o);
  inv_outw : Z.of_nat (length o) < 2 ^ 64
}.

(** The counters that frames and skippable frames advance. *)
Definition counts (r : sup_lz4_result) : Z * Z * Z * Z :=
  (frames r, skippable_frames r, content_checked_frames r, block_checked_frames r).

(** Who is to blame for an error. *)
Definition host_cancels : Prop :=
  exists f e i o, progress = Some f /\ (f e i o).2 <> 0.
Definition host_fails : Prop :=
  (exists e n, 0 < n /\ let '(_, got, _) := read e n in got < 0 \/ n < got) \/
  (exists e data, (write e data).2 <> 0) \/
  (exists f e n, skip = Some f /\ (f e n).2 <> 0 /\ (f e n).2 <> 1).
Definition blame (e : sup_lz4_error) : Prop :=
  match e with
  | SUP_LZ4_CANCELLED => host_cancels
  | SUP_LZ4_IO => host_fails
  | SUP_LZ4_OK => False
  | _ => True
  end.

Definition host_error (e : sup_lz4_error) : Prop := e = SUP_LZ4_CANCELLED \/ e = SUP_LZ4_IO.

(** At an error the counters are [cs], and what was written starts with [o]; after a callback
    that failed nothing is known of that. *)
Definition Err (cs : Z * Z * Z * Z) (o : list Z) (e : sup_lz4_error) (s : stream) : Prop :=
  blame e /\ counts (result s) = cs /\ 0 <= input_bytes (result s) <= Z.of_nat (length src) /\
  (e <> SUP_LZ4_IO -> exists more, written (env s) = wr0 ++ o ++ more /\ output_bytes (result s) = Z.of_nat (length (o ++ more))).

Lemma err_more cs o x e s : Err cs (o ++ x) e s -> Err cs o e s.
Proof.
  intros (Hb & Hc & Hi & Ho). split; [done|]. split; [done|]. split; [done|]. intros Hne. destruct (Ho Hne) as (more & Hw & Hl).
  exists (x ++ more). by rewrite app_assoc in Hw |- *; rewrite <-!app_assoc in *.
Qed.

Lemma inv_bound c o s : Inv c o s -> 0 <= input_bytes (result s) <= Z.of_nat (length src).
Proof. intros HI. rewrite (inv_in _ _ _ HI), (inv_src _ _ _ HI), length_app. lia. Qed.

Lemma inv_ahead_le c o s : Inv c o s -> (length (ahead s) <= length src)%nat.
Proof. intros HI. rewrite (inv_src _ _ _ HI), length_app. lia. Qed.

Lemma inv_err c o s e : Inv c o s -> blame e -> Err (counts (result s)) o e s.
Proof.
  intros HI Hb. split; [done|]. split; [done|]. split; [by apply (inv_bound c o)|]. intros _. exists []. rewrite app_nil_r.
  split; [apply (inv_out _ _ _ HI)|apply (inv_outb _ _ _ HI)].
Qed.

Lemma bytes_ahead c o s : Inv c o s -> bytes (ahead s).
Proof.
  intros HI. pose proof src_bytes as Hb. rewrite (inv_src _ _ _ HI) in Hb.
  by apply Forall_app in Hb as [_ Hb].
Qed.

Lemma bytes_pending c o s : Inv c o s -> bytes (pending s).
Proof. intros HI. apply bytes_ahead in HI. by apply Forall_app in HI as [HI _]. Qed.

Lemma length_pending (s : stream) : length (pending s) = (size s - pos s)%nat.
Proof. unfold pending. by rewrite length_drop. Qed.

(** Steps of the world that neither read nor write. *)
Lemma inv_env c o s e :
  Inv c o s -> unread e = unread (env s) -> written e = written (env s) -> Inv c o (set_env e s).
Proof.
  intros [] Hu Hw. constructor; cbn [set_env]; try done.
  - unfold ahead, pending in *. cbn. by rewrite Hu.
  - cbn. by rewrite Hw.
Qed.

Lemma tick_spec c o s :
  Inv c o s ->
  wp tick
    (fun _ s' => Inv c o s' /\ input s' = input s /\ pos s' = pos s /\ result s' = result s /\
       unread (env s') = unread (env s) /\ forall x, context (env s') x = context (env s) x)
    (fun e s' => e = SUP_LZ4_CANCELLED /\ Err (counts (result s)) o e s') s.
Proof.
  intros HI. unfold tick. wps. destruct progress as [f|] eqn:Hf; [|by wps].
  destruct (f _ _ _) as [e stop] eqn:He. wps.
  destruct (progress_law _ _ _ _ _ _ Hf He) as (Hu & Hw & Hr).
  destruct (Z.eqb_spec stop 0) as [H0|H0]; wps.
  - split_and!; [by apply inv_env|done..].
  - split; [done|]. apply (inv_err c o (set_env e s)); [by apply inv_env|]. unfold blame, host_cancels.
    do 4 eexists. split; [done|]. by rewrite He.
Qed.

(** memmove of the unread tail changes nothing the stream stands for. *)
Lemma compact_inv c o s :
  Inv c o s ->
  Inv c o (if (pos s =? 0)%nat then s else set_buffer (drop (pos s) (input s)) 0 s).
Proof.
  intros HI. destruct (pos s =? 0)%nat; [done|]. destruct HI as [Hp Hs Hsrc Hin Hout Hob How].
  constructor; unfold size, ahead, pending in *; cbn [set_buffer env input pos result]; try done.
  - lia.
  - rewrite length_drop. lia.
Qed.

Lemma need_spec n c o s :
  (n < 32)%nat -> Inv c o s ->
  wp (need n)
    (fun _ s' => Inv c o s' /\ (n <= length (pending s'))%nat /\ result s' = result s /\
       ahead s' = ahead s /\ forall x, context (env s') x = context (env s) x)
    (fun e s' => Err (counts (result s)) o e s' /\ (e = SUP_LZ4_TRUNCATED \/ host_error e) /\
       (e = SUP_LZ4_TRUNCATED ->
        Inv c o s' /\ result s' = result s /\ unread (env s') = [] /\ (length (pending s') < n)%nat))
    s.
Proof.
  intros Hn HI. unfold need.
  apply (wp_mloop
    (fun _ s' => Inv c o s' /\ result s' = result s /\ forall x, context (env s') x = context (env s) x)
    (fun _ s' => (n - length (pending s'))%nat)); [|done|lia].
  rename HI into HI0. intros _ s1 (HI & Hres & Hrk). wps.
  rewrite <-length_pending. destruct (Nat.leb_spec n (length (pending s1))) as [Hle|Hgt]; wps.
  { split_and!; try done. apply (app_inv_head c). by rewrite <-(inv_src _ _ _ HI), <-(inv_src _ _ _ HI0). }
  eapply wp_mono; [by apply tick_spec| |].
  2: { intros e s2 [-> He]. rewrite Hres in He. split_and!; [apply He..|by right; left|done]. }
  intros _ s2 (HI2 & Hi2 & Hp2 & Hr2 & Hu2 & Hrk2). apply wp_bind, wp_modify. wps.
  set (s3 := if (pos s2 =? 0)%nat then s2 else _).
  assert (Inv c o s3) as HI3 by (by apply compact_inv).
  assert (result s3 = result s) as Hr3 by (unfold s3; destruct (_ =? _)%nat; cbn; congruence).
  assert (pos s3 = 0%nat /\ pending s3 = pending s1) as [Hp3 Hpend3].
  { unfold s3, pending. destruct (Nat.eqb_spec (pos s2) 0) as [Hz|Hz]; cbn.
    - split; [done|]. by rewrite Hi2, Hp2.
    - split; [done|]. by rewrite drop_0, Hi2, Hp2. }
  assert (forall x, context (env s3) x = context (env s) x) as Hrk3.
  { intros x. rewrite <-Hrk, <-Hrk2. unfold s3. by destruct (_ =? _)%nat. }
  clearbody s3. clear s2 HI2 Hi2 Hp2 Hr2 Hu2 Hrk2.
  destruct (read (env s3) _) as [[e got] data] eqn:Hread. wps.
  assert (size s3 < n)%nat as Hsz.
  { pose proof (length_pending s3) as Hl. rewrite Hpend3, Hp3 in Hl. lia. }
  assert (0 < BUFFER_SIZE - Z.of_nat (size s3)) as Hroom by (unfold BUFFER_SIZE; lia).
  assert (host_fails -> Err (counts (result s)) o SUP_LZ4_IO (set_env e s3)) as Hio.
  { intros Hh. rewrite <-Hr3. split; [done|]. split; [done|]. split; [apply (inv_bound c o s3 HI3)|done]. }
  destruct (Z.ltb_spec got 0) as [Hneg|Hpos]; [|destruct (Z.ltb_spec (BUFFER_SIZE - Z.of_nat (size s3)) got) as [Hbig|Hok]].
  1,2: cbn [orb]; wps; split; [|by split; [right; right|]];
    apply Hio; left; do 2 eexists; (split; [exact Hroom|]); rewrite Hread; lia.
  destruct (read_law _ _ _ _ _ Hread) as (Hlen & Hun & Hwr & Hz & Hrk4); [lia|].
  cbn [orb]. destruct (Z.eqb_spec got 0) as [->|Hgot]; wps.
  - assert (data = []) as -> by (destruct data; [done|cbn in Hlen; lia]).
    assert (Inv c o (set_env e s3)) as HI4 by (apply inv_env; [done|by symmetry|done]).
    split; [rewrite <-Hr3; by apply (inv_err c o (set_env e s3))|]. split; [by left|].
    intros _. split_and!; [done|done| |].
    + cbn. rewrite (Hz eq_refl Hroom) in Hun. by symmetry.
    + change (pending (set_env e s3)) with (pending s3). rewrite Hpend3. lia.
  - destruct HI3 as [Hp Hs Hsrc Hin Hout Hob How]. split; [split_and!|].
    + constructor; cbn; try done; unfold size in *; cbn; rewrite ?length_app; try lia.
      * unfold ahead, pending in *. cbn. rewrite Hsrc, Hun, Hp3, !drop_0. by rewrite <-app_assoc.
      * by rewrite Hwr.
    + done.
    + intros x. cbn. by rewrite Hrk4.
    + rewrite <-Hpend3 in *. rewrite !length_pending in *. unfold size in *. cbn.
      rewrite length_app. lia.
Qed.

Lemma add_bytes_small x n m :
  x = Z.of_nat n -> Z.of_nat (n + m) < 2 ^ 64 -> u64 (x + Z.of_nat m) = Z.of_nat (n + m).
Proof. intros -> Hm. rewrite <-Nat2Z.inj_add. apply wrap_small. split; lia. Qed.

Lemma consume_spec n c o s :
  Inv c o s -> (n <= length (pending s))%nat ->
  wp (consume n)
    (fun _ s' => Inv (c ++ take n (pending s)) o s' /\ env s' = env s /\
       pending s' = drop n (pending s) /\ counts (result s') = counts (result s))
    (fun _ _ => False) s.
Proof.
  intros HI Hn. pose proof (length_pending s) as Hl. destruct HI as [Hp Hs Hsrc Hin Hout Hob How].
  unfold consume. wps. set (s2 := set_result _ _).
  assert (pending s2 = drop n (pending s)) as Hpend by (unfold pending; cbn; by rewrite drop_drop).
  split_and!; [|done|done|done]. constructor; try done.
  - unfold size in *. cbn. lia.
  - rewrite Hsrc at 1. rewrite <-app_assoc. f_equal. unfold ahead. rewrite Hpend.
    by rewrite app_assoc, take_drop.
  - cbn. rewrite (add_bytes_small _ (length c)) by
      (done || (rewrite Hsrc, length_app in src_size; unfold ahead in src_size;
                rewrite length_app in src_size; lia)).
    rewrite length_app, length_take. lia.
Qed.

Lemma inv_shrinks c b o o' s s' :
  Inv c o s -> Inv (c ++ b) o' s' -> (length (ahead s') + length b = length (ahead s))%nat.
Proof.
  intros H H'. pose proof (inv_src _ _ _ H) as Hs. rewrite (inv_src _ _ _ H') in Hs at 1.
  apply (f_equal length) in Hs. rewrite !length_app in Hs. lia.
Qed.

Lemma inv_next c b o o' s s' :
  Inv c o s -> Inv (c ++ b) o' s' -> ahead s = b ++ ahead s'.
Proof.
  intros H H'. pose proof (inv_src _ _ _ H) as Hs. rewrite (inv_src _ _ _ H') in Hs at 1.
  rewrite <-app_assoc in Hs. by apply app_inv_head in Hs.
Qed.

(** Errors inherited from an operation that keeps the counters. *)
Lemma err_counts cs cs' o e s : cs = cs' -> Err cs o e s -> Err cs' o e s.
Proof. by intros ->. Qed.

Lemma length_ahead s : length (ahead s) = (length (pending s) + length (unread (env s)))%nat.
Proof. unfold ahead. apply length_app. Qed.

(** The copying branch of [skip_bytes]. *)
Lemma skip_loop_spec n c o s :
  Inv c o s -> 0 <= n ->
  wp (mloop fuel
        (fun n =>
           if n =? 0 then mret (inr tt)
           else
             need 1;;
             s ← get;
             let take := take_of n s in
             consume take;; mret (inl (n - Z.of_nat take))) n)
    (fun _ s' => exists b, Z.of_nat (length b) = n /\ Inv (c ++ b) o s' /\
       counts (result s') = counts (result s))
    (fun e s' => Err (counts (result s)) o e s' /\
       (host_error e \/ Z.of_nat (length (ahead s)) < n)) s.
Proof.
  intros HI Hn.
  apply (wp_mloop
    (fun k s' => exists b, Z.of_nat (length b) + k = n /\ 0 <= k /\ Inv (c ++ b) o s' /\
       counts (result s') = counts (result s))
    (fun _ s' => length (ahead s'))).
  2: { exists []. rewrite app_nil_r. split_and!; try done; lia. }
  2: { pose proof (inv_ahead_le _ _ _ HI). nia. }
  intros k s1 (b & Hk & Hk0 & HI1 & Hc1).
  destruct (Z.eqb_spec k 0) as [->|Hk1]; wps.
  { exists b. split_and!; [lia|done|done]. }
  eapply wp_mono; [by apply (need_spec 1); [lia|]| |].
  2: { intros e s' (He & Hwho & Htr). rewrite Hc1 in He. split; [done|].
       destruct Hwho as [->|]; [right|by left].
       destruct (Htr eq_refl) as (HI2 & _ & Hu2 & Hp2).
       pose proof (inv_shrinks _ _ _ _ _ _ HI HI2) as Hs. rewrite length_ahead, Hu2 in Hs.
       cbn [length] in Hs. lia. }
  intros _ s2 (HI2 & Hp2 & Hr2 & Ha2 & _). wps.
  assert ((take_of k s2 <= length (pending s2))%nat /\ (0 < take_of k s2)%nat /\
    Z.of_nat (take_of k s2) <= k) as (Ht1 & Ht2 & Ht3).
  { unfold take_of, available. rewrite <-length_pending.
    destruct (Z.ltb_spec k (Z.of_nat (length (pending s2)))); lia. }
  eapply wp_mono; [by apply consume_spec| |done].
  intros _ s3 (HI3 & He3 & Hp3 & Hc3). wps. split.
  - exists (b ++ take (take_of k s2) (pending s2)). rewrite app_assoc.
    split_and!; [|lia|done|by rewrite Hc3, Hr2].
    rewrite length_app, length_take. lia.
  - rewrite <-Ha2. pose proof (inv_shrinks _ _ _ _ _ _ HI2 HI3) as Hs.
    rewrite length_take in Hs. lia.
Qed.

Lemma skip_bytes_spec n c o s :
  Inv c o s -> 0 <= n ->
  wp (skip_bytes fuel n)
    (fun _ s' => exists b, Z.of_nat (length b) = n /\ Inv (c ++ b) o s' /\
       counts (result s') = counts (result s))
    (fun e s' => Err (counts (result s)) o e s' /\
       (host_error e \/ Z.of_nat (length (ahead s)) < n)) s.
Proof.
  intros HI Hn. unfold skip_bytes. wps.
  assert ((take_of n s <= length (pending s))%nat /\ Z.of_nat (take_of n s) <= n /\
    (take_of n s = length (pending s) \/ Z.of_nat (take_of n s) = n)) as (Ht1 & Ht2 & Ht3).
  { unfold take_of, available. rewrite <-length_pending.
    destruct (Z.ltb_spec n (Z.of_nat (length (pending s)))); lia. }
  eapply wp_mono; [by apply consume_spec| |done].
  intros _ s1 (HI1 & He1 & Hp1 & Hc1). rewrite <-Hc1.
  set (t := take_of n s) in *.
  destruct (if n - Z.of_nat t =? 0 then None else skip) as [f|] eqn:Hsk.
  2: { eapply wp_mono; [apply skip_loop_spec; [done|lia]| |].
       2: { intros e s' [He Hwho]. split; [done|]. destruct Hwho; [by left|right].
            pose proof (inv_shrinks _ _ _ _ _ _ HI HI1) as Hs. rewrite length_take in Hs. lia. }
       intros _ s2 (b & Hb & HI2 & Hc2). exists (take t (pending s) ++ b).
       rewrite app_assoc, length_app, length_take. split_and!; [lia|done|done]. }
  destruct (Z.eqb_spec (n - Z.of_nat t) 0) as [|Hnz]; [done|].
  wps. destruct (f (env s1) _) as [e err] eqn:Hf. wps.
  destruct (Z.eqb_spec err 0) as [->|Herr]; cbn [negb]; wps.
  2: { split; [split; [|split; [done|split; [apply (inv_bound _ _ _ HI1)|]]]|].
       - destruct (Z.eqb_spec err 1); [done|]. right; right. do 3 eexists. by rewrite Hf.
       - destruct (Z.eqb_spec err 1) as [->|]; [|done]. intros _.
         destruct (skip_exhausted_law f (env s1) (n - Z.of_nat t) e Hsk ltac:(lia) Hf) as [_ Hwe].
         exists []. rewrite app_nil_r. split; [change (written e = wr0 ++ o); rewrite Hwe; apply (inv_out _ _ _ HI1)|apply (inv_outb _ _ _ HI1)].
       - destruct (Z.eqb_spec err 1) as [->|]; [right|by left; right].
         destruct (skip_exhausted_law f (env s1) (n - Z.of_nat t) e Hsk ltac:(lia) Hf) as [Hex _].
         pose proof (inv_shrinks _ _ _ _ _ _ HI HI1) as Hs.
         rewrite length_take, length_ahead, Hp1, length_drop in Hs. lia. }
  destruct (skip_law f (env s1) (n - Z.of_nat t) e Hsk ltac:(lia) Hf) as (Hle & Hun & Hwr).
  set (m := Z.to_nat (n - Z.of_nat t)) in *.
  assert (n - Z.of_nat t = Z.of_nat m) as Hm by lia. rewrite Hm in *.
  set (s2 := set_result _ _).
  assert (pending s1 = []) as Hpe by (rewrite Hp1; apply drop_ge; lia).
  assert (Inv ((c ++ take t (pending s)) ++ take m (unread (env s1))) o s2) as HI2.
  { destruct HI1 as [Hp Hs Hsrc Hin Hout Hob How]. constructor; try done.
    - rewrite Hsrc at 1. rewrite <-!app_assoc. do 2 f_equal. unfold ahead.
      change (pending s2) with (pending s1). rewrite Hpe. cbn [app].
      change (unread (env s2)) with (unread e). by rewrite Hun, take_drop.
    - cbn. rewrite (add_bytes_small _ (length (c ++ take t (pending s)))).
      + rewrite (length_app _ (take m _)), (length_take _ m). lia.
      + done.
      + rewrite Hsrc, (length_app _ (ahead s1)), length_ahead in src_size. lia.
    - cbn. by rewrite Hwr. }
  eapply wp_mono; [by apply (tick_spec _ _ s2 HI2)| |by intros e' s' [-> He]; split; [|left; left]].
  intros _ s3 (HI3 & _ & _ & Hr3 & _). rewrite <-app_assoc in HI3.
  eexists. split; [|split; [exact HI3|by rewrite Hr3]].
  rewrite length_app, !length_take. lia.
Qed.

(** Output is written and counted; the read side does not move. *)
Lemma emit_spec out c o s :
  Inv c o s ->
  wp (emit out)
    (fun _ s' => Inv c (o ++ out) s' /\ ahead s' = ahead s /\ pending s' = pending s /\
       counts (result s') = counts (result s) /\ forall x, context (env s') x = context (env s) x)
    (Err (counts (result s)) o) s.
Proof.
  intros HI. pose proof HI as [Hp Hs Hsrc Hin Hout Hob How].
  unfold emit. wps. rewrite Hob.
  destruct (Z.ltb_spec (2 ^ 64 - 1 - Z.of_nat (length o)) (Z.of_nat (length out))) as [|Hroom]; wps.
  { by apply (inv_err c o). }
  assert (forall e, unread e = unread (env s) -> written e = written (env s) ++ out ->
    (forall x, context e x = context (env s) x) ->
    wp (modify (fun s => set_result (add_output (Z.of_nat (length out)) (result s)) s);; tick)
      (fun _ s' => Inv c (o ++ out) s' /\ ahead s' = ahead s /\ pending s' = pending s /\
         counts (result s') = counts (result s) /\ forall x, context (env s') x = context (env s) x)
      (Err (counts (result s)) o) (set_env e s)) as Hrest.
  { intros e Hu Hw Hr. wps. set (s1 := set_result _ _).
    assert (Inv c (o ++ out) s1) as HI1.
    { constructor; try done.
      - unfold ahead, pending in *. cbn. by rewrite Hu.
      - cbn. by rewrite Hw, Hout, app_assoc.
      - cbn. rewrite (add_bytes_small _ (length o)) by (done || lia). by rewrite length_app.
      - rewrite length_app. lia. }
    eapply wp_mono; [by apply (tick_spec c (o ++ out))| |intros e' s' [_ He]; apply (err_more _ o out); exact He].
    intros _ s2 (HI2 & Hi2 & Hp2 & Hr2 & Hu2 & Hrk2). unfold ahead, pending.
    rewrite Hi2, Hp2, Hu2, Hr2. split_and!; [done| |done|done|].
    - cbn. by rewrite Hu.
    - intros x. by rewrite Hrk2, <-Hr. }
  destruct (Z.eqb_spec (Z.of_nat (length out)) 0) as [H0|H0].
  - assert (out = []) as -> by (destruct out; [done|cbn in H0; lia]).
    specialize (Hrest (env s)). replace (set_env (env s) s) with s in Hrest by (by destruct s).
    apply wp_ret, Hrest; [done|by rewrite app_nil_r|done].
  - destruct (write (env s) out) as [e failed] eqn:Hwr. apply wp_bind, wp_put.
    destruct (Z.eqb_spec failed 0) as [->|Hf].
    + destruct (write_law _ _ _ Hwr) as (Hu & Hw & Hr). by apply wp_ret, Hrest.
    + apply wp_throw. split; [|split; [done|split; [apply (inv_bound _ _ _ HI)|done]]]. right; left. do 2 eexists. by rewrite Hwr.
Qed.

Lemma library_error_blame rc : blame (library_error rc).
Proof. unfold library_error. by repeat destruct (_ =? _). Qed.

(** The loop writes what the library makes of the bytes it takes from the stream. *)
Lemma decompress_loop_spec ctx h c o s :
  Inv c o s -> consumed (context (env s) ctx) = h -> h <> [] -> produced (context (env s) ctx) = [] ->
  wp (decompress_loop fuel ctx)
    (fun _ s' => exists b out, Inv (c ++ b) (o ++ out) s' /\ counts (result s') = counts (result s) /\ frame_content (h ++ b) = Some out)
    (Err (counts (result s)) o) s.
Proof.
  intros HI Hcons Hh Hprod. unfold decompress_loop.
  apply (wp_mloop
    (fun _ s' => exists b out, Inv (c ++ b) (o ++ out) s' /\ counts (result s') = counts (result s) /\
       consumed (context (env s') ctx) = h ++ b /\ produced (context (env s') ctx) = out)
    (fun _ s' => length (ahead s') * (owed_max + 1) + owed (context (env s') ctx))%nat).
  2: { exists [], []. rewrite !app_nil_r. by split_and!. }
  2: { pose proof (inv_ahead_le _ _ _ HI). pose proof (owed_bound (env s) ctx). nia. }
  clear Hcons Hprod.
  intros _ s1 (b & out & HI1 & Hc1 & Hcons & Hprod). wps. rewrite <-Hc1.
  eapply wp_mono; [by apply (need_spec 1); [lia|]| |by intros e s' [He _]; apply (err_more _ o out)].
  intros _ s2 (HI2 & Hp2 & Hr2 & Ha2 & Hrk2). wps. rewrite <-Hr2. rewrite <-Hrk2 in Hcons, Hprod.
  destruct (LZ4F_decompress _ _ _ _) as [[[e hint] o'] n] eqn:Hd.
  destruct (decompress_law _ _ _ _ _ _ _ _ Hd) as (Hu & Hw & Hok). wps.
  assert (Inv (c ++ b) (o ++ out) (set_env e s2)) as HI3 by (by apply inv_env).
  destruct (LZ4F_isError hint) eqn:Herr; wps.
  { apply (err_more _ o out), (inv_err _ _ (set_env e s2) _ HI3), library_error_blame. }
  destruct (Hok eq_refl) as (Hn & Hmore & Hend); [rewrite Hcons; by destruct h|].
  change (drop (pos s2) (input s2)) with (pending s2) in Hn, Hmore, Hend. rewrite Hcons, Hprod in Hmore, Hend.
  eapply wp_mono; [apply (consume_spec n _ _ _ HI3); exact Hn| |done].
  intros _ s4 (HI4 & He4 & Hp4 & Hc4).
  change (counts (result (set_env e s2))) with (counts (result s2)) in Hc4. wps. rewrite <-Hc4.
  eapply wp_mono; [by apply (emit_spec o')| |by intros e0 s' He; apply (err_more _ o out)].
  intros _ s5 (HI5 & Ha5 & Hp5 & Hc5 & Hrk5).
  assert (length (ahead s5) + n = length (ahead s1))%nat as Hlen.
  { rewrite Ha5, <-Ha2. pose proof (inv_shrinks _ _ _ _ _ _ HI3 HI4) as Hs.
    rewrite length_take, Nat.min_l in Hs by exact Hn.
    change (ahead (set_env e s2)) with (pending s2 ++ unread e) in Hs. rewrite Hu in Hs.
    unfold ahead at 2. lia. }
  rewrite <-!app_assoc in HI5.
  destruct (negb (hint =? 0) && (n =? 0)%nat && (length o' =? 0)%nat) eqn:Hstuck; wps.
  { rewrite <-Hc5. apply (err_more _ o (out ++ o')). by apply (inv_err _ _ _ _ HI5). }
  change (pending (set_env e s2)) with (pending s2) in HI5. rewrite <-app_assoc in Hmore, Hend.
  assert (context (env s5) ctx = context e ctx) as Hctx by (rewrite Hrk5, He4; done).
  destruct (Z.eqb_spec hint 0) as [->|Hh0].
  { eexists _, _. split; [exact HI5|]. split; [by rewrite Hc5|]. by apply Hend. }
  destruct (Hmore Hh0) as (Hcons' & Hprod' & Hrk). split; [eexists _, _; split; [exact HI5|split; [by rewrite Hc5|by rewrite Hctx]]|].
  pose proof (owed_bound (env s5) ctx).
  destruct (Nat.eq_dec n 0) as [->|Hn0]; [|nia].
  assert (o' <> []) as Ho'.
  { intros ->. apply Z.eqb_neq in Hh0. by rewrite ?Hh0 in Hstuck. }
  specialize (Hrk eq_refl Ho'). rewrite Hctx, <-Hrk2. lia.
Qed.

Lemma inv_result c o s r :
  Inv c o s -> input_bytes r = input_bytes (result s) -> output_bytes r = output_bytes (result s) ->
  Inv c o (set_result r s).
Proof. intros [] Hi Ho. constructor; cbn; congruence || done. Qed.

Lemma count_frame_counts i r r' :
  counts r = counts r' -> counts (count_frame i r) = counts (count_frame i r').
Proof. unfold counts. intros [= H1 H2 H3 H4]. cbn. by rewrite H1, H2, H3, H4. Qed.

Lemma count_skippable_counts r r' :
  counts r = counts r' -> counts (count_skippable r) = counts (count_skippable r').
Proof. unfold counts. intros [= H1 H2 H3 H4]. cbn. by rewrite H1, H2, H3, H4. Qed.

Lemma header_size_15 flags : (flags &&& 8) <> 0 -> (15 <= header_size flags)%nat.
Proof.
  intros H8. unfold header_size. apply Z.eqb_neq in H8. rewrite H8.
  destruct (_ =? _); cbn; lia.
Qed.

Lemma create_context_spec c o s :
  Inv c o s ->
  wp create_context
    (fun ctx s' => Inv c o s' /\ pending s' = pending s /\ result s' = result s /\
       consumed (context (env s') ctx) = [] /\ produced (context (env s') ctx) = [])
    (Err (counts (result s)) o) s.
Proof.
  intros HI. unfold create_context. wps. destruct custom_memory.
  - destruct (LZ4F_createDecompressionContext_advanced _) as [e ctx] eqn:Hc.
    destruct (create_advanced_law _ _ _ Hc) as (Hu & Hw & Hnew). wps.
    pose proof (inv_env c o s e HI Hu Hw) as HI1.
    destruct ctx; wps; [|by apply (inv_err _ _ _ _ HI1)]. split; [done|]. split; [done|]. split; [done|]. by apply Hnew.
  - destruct (LZ4F_createDecompressionContext _) as [[e hint] ctx] eqn:Hc.
    destruct (create_law _ _ _ _ Hc) as (Hu & Hw & Hnew). wps.
    pose proof (inv_env c o s e HI Hu Hw) as HI1.
    destruct (LZ4F_isError hint); wps; [|by split; [|split; [|split; [|apply Hnew]]]].
    apply (inv_err _ _ _ _ HI1), library_error_blame.
Qed.

Lemma header_size_bounds flags : (7 <= header_size flags < 32)%nat.
Proof. unfold header_size. destruct (_ =? _), (_ =? _); simpl; lia. Qed.

Lemma modern_body_spec flags expected ctx c o s :
  Inv c o s -> (header_size flags <= length (pending s))%nat -> pending s !! 4%nat = Some flags ->
  le_load (take 4 (pending s)) = FRAME_MAGIC ->
  consumed (context (env s) ctx) = [] -> produced (context (env s) ctx) = [] ->
  wp (modern_body fuel flags expected (Z.of_nat (length o)) ctx)
    (fun _ s' => exists b out,
       Inv (c ++ take (header_size flags) (pending s) ++ b) (o ++ out) s' /\
       (flags &&& 1) = 0 /\ ((flags &&& 8) <> 0 -> expected = Z.of_nat (length out)) /\
       frame_content (take (header_size flags) (pending s) ++ b) = Some out /\
       counts (result s') = counts (count_frame (header_info flags) (result s)))
    (Err (counts (result s)) o) s.
Proof.
  intros HI Hlen Hfl Hmagic Hcons Hprod. unfold modern_body. wps. pose proof (header_size_bounds flags) as H7.
  change (drop (pos s) (input s)) with (pending s). set (h := take (header_size flags) (pending s)).
  assert (length h = header_size flags) as Hh by (unfold h; rewrite length_take; lia).
  destruct (LZ4F_getFrameInfo _ _ _) as [[[e hint] info] n] eqn:Hg.
  destruct (getFrameInfo_law _ _ _ _ _ _ _ Hg) as (Hu & Hw & Hn). wps.
  pose proof (inv_env c o s e HI Hu Hw) as HI1.
  destruct (LZ4F_isError hint) eqn:Herr; wps.
  { apply (inv_err _ _ _ _ HI1), library_error_blame. }
  destruct (Hn eq_refl Hcons Hprod flags) as (-> & -> & Hcons1 & Hprod1); [..|done|].
  { rewrite <-Hmagic. unfold h. by rewrite take_take, Nat.min_l by lia. }
  { unfold h. by rewrite lookup_take_lt by lia. }
  rewrite Hh. eapply wp_mono; [apply (consume_spec _ _ _ _ HI1); exact Hlen| |done].
  intros _ s2 (HI2 & He2 & Hp2 & Hc2). wps.
  change (counts (result (set_env e s))) with (counts (result s)) in Hc2.
  change (pending (set_env e s)) with (pending s) in *. fold h in HI2. rewrite <-Hc2.
  destruct (Z.eqb_spec (flags &&& 1) 0) as [H1|H1]; cbn [negb]; wps.
  2: { by apply (inv_err _ _ _ _ HI2). }
  assert (context (env s2) ctx = context e ctx) as Hctx by (by rewrite He2).
  eapply wp_mono; [apply (decompress_loop_spec ctx h); [exact HI2|by rewrite Hctx|intros ->; cbn in Hh; lia|by rewrite Hctx]| |done].
  intros _ s3 (b & out & HI3 & Hc3 & Hcontent). wps. rewrite <-Hc3.
  assert (u64 (output_bytes (result s3) - Z.of_nat (length o)) = Z.of_nat (length out)) as ->.
  { rewrite (inv_outb _ _ _ HI3), length_app. pose proof (inv_outw _ _ _ HI3) as Hlt.
    rewrite length_app in Hlt. unfold wrap. rewrite Z.mod_small; lia. }
  destruct (negb ((flags &&& 8) =? 0) && negb (Z.of_nat (length out) =? expected)) eqn:Hbad; wps.
  { apply (err_more _ o out). by apply (inv_err _ _ _ _ HI3). }
  exists b, out. split_and!; [|done| |done|].
  - rewrite app_assoc. by apply inv_result.
  - intros H8. apply Z.eqb_neq in H8. rewrite H8 in Hbad. cbn in Hbad.
    by apply negb_false_iff, Z.eqb_eq in Hbad.
  - apply count_frame_counts. congruence.
Qed.

Lemma modern_spec c o s :
  Inv c o s -> le_load (take 4 (ahead s)) = FRAME_MAGIC ->
  wp (modern fuel)
    (fun _ s' => exists b out, Inv (c ++ b) (o ++ out) s' /\ seg_ok (Modern b out) /\
       counts (result s') = counts (count_frame (header_info (nth 4 b 0)) (result s)))
    (Err (counts (result s)) o) s.
Proof.
  intros HI Hmagic. unfold modern. wps.
  eapply wp_mono; [by apply (need_spec 7); [lia|]| |by intros e s' [He _]].
  intros _ s1 (HI1 & Hn1 & Hr1 & Ha1 & _). wps.
  destruct (lookup_lt_is_Some_2 (pending s1) 4) as [flags Hfl]; [lia|].
  apply (wp_access _ flags); [by unfold pending in Hfl; rewrite lookup_drop in Hfl|]. wps.
  rewrite <-Hr1.
  eapply wp_mono; [apply (need_spec (header_size flags)); [|exact HI1]| |by intros e s' [He _]].
  { apply header_size_bounds. }
  intros _ s2 (HI2 & Hn2 & Hr2 & Ha2 & _). wps. rewrite <-Hr2.
  assert (pending s2 !! 4%nat = Some flags) as Hfl2.
  { assert (ahead s1 !! 4%nat = Some flags) as Hf
      by (unfold ahead; rewrite lookup_app_l by lia; exact Hfl).
    rewrite <-Ha2 in Hf. unfold ahead in Hf. rewrite lookup_app_l in Hf; [done|].
    unfold header_size in Hn2. lia. }
  set (expected := if (flags &&& 8) =? 0 then 0 else le_load (take 8 (drop 6 (pending s2)))).
  assert (forall Q, Q expected s2 ->
    wp (if (flags &&& 8) =? 0 then mret 0 else access (le64 (input s2) (pos s2 + 6))) Q
      (Err (counts (result s2)) o) s2) as Hexp.
  { intros Q HQ. unfold expected in HQ. destruct (Z.eqb_spec (flags &&& 8) 0) as [|H8]; [by wps|].
    apply (wp_access _ (le_load (take 8 (drop 6 (pending s2))))); [|done].
    pose proof (bytes_pending _ _ _ HI2) as Hb.
    assert (15 <= length (pending s2))%nat.
    { pose proof (header_size_15 flags H8). lia. }
    rewrite <-(le64_drop _ (pos s2)). apply le64_spec; [done|].
    change (6 + 8 <= length (pending s2))%nat. lia. }
  apply Hexp. wps.
  eapply wp_mono; [by apply create_context_spec| |done].
  intros ctx s3 (HI3 & Hp3 & Hr3 & Hcons3 & Hprod3). wps.
  rewrite (inv_outb _ _ _ HI2).
  pose proof (header_size_bounds flags) as [H7 _].
  assert (le_load (take 4 (pending s3)) = FRAME_MAGIC) as Hmagic3.
  { rewrite Hp3, <-Hmagic, <-Ha1, <-Ha2. unfold ahead. rewrite take_app_le by lia. done. }
  rewrite <-Hr3. rewrite <-Hp3 in Hn2, Hfl2.
  eapply wp_mono; [by apply (modern_body_spec flags expected ctx c o)| |].
  2: { intros e s' (Hbl & Hcs & Hi & Hwr). split; [done|]. split; [done|]. split; [done|].
       destruct (free_law (env s') ctx) as [_ Hfw]. cbn [env set_env result]. by rewrite Hfw. }
  intros _ s4 (b & out & HI4 & H1 & H8 & Hcontent & Hc4).
  destruct (free_law (env s4) ctx) as [Hfu Hfw].
  eexists _, out. split_and!; [by apply inv_env| |].
  2: { change (counts (result (set_env (LZ4F_freeDecompressionContext (env s4) ctx) s4))) with (counts (result s4)). rewrite Hc4.
       rewrite (nth_lookup_Some _ 4 0 flags); [done|]. rewrite lookup_app_l, lookup_take_lt by (rewrite ?length_take; lia). done. }
  set (h := take (header_size flags) (pending s3)) in *.
  assert (length h = header_size flags) as Hl by (unfold h; rewrite length_take; lia).
  assert (h = take (header_size flags) (pending s2)) as Hh by (unfold h; by rewrite Hp3).
  assert (exists k, ahead s = h ++ k) as [k Hk].
  { exists (drop (header_size flags) (pending s2) ++ unread (env s2)).
    rewrite Hh, app_assoc, take_drop. change (ahead s = ahead s2). congruence. }
  split; [|exists flags; split_and!].
  - rewrite <-Hmagic, Hk, !take_app_le by lia. done.
  - rewrite lookup_app_l by lia. unfold h. rewrite lookup_take_lt by lia. done.
  - done.
  - rewrite length_app. lia.
  - intros H8'. rewrite <-(H8 H8'). unfold expected.
    pose proof (header_size_15 flags H8') as H15. apply Z.eqb_neq in H8'. rewrite H8'.
    rewrite drop_app_le, take_app_le by (rewrite ?length_drop; lia).
    rewrite Hh, skipn_firstn_comm, take_take, Nat.min_l by lia. done.
  - exact Hcontent.
Qed.

Lemma ahead_pending n (s : stream) : (n <= length (pending s))%nat -> take n (ahead s) = take n (pending s).
Proof. intros Hn. unfold ahead. by rewrite take_app_le. Qed.

Lemma skippable_spec c o s :
  Inv c o s -> is_skip (le_load (take 4 (ahead s))) = true ->
  wp (skippable fuel)
    (fun _ s' => exists b, Inv (c ++ b) o s' /\ seg_ok (Skippable b) /\
       counts (result s') = counts (count_skippable (result s)))
    (fun e s' => Err (counts (result s)) o e s' /\
       (host_error e \/ ~ exists b rest, seg_ok (Skippable b) /\ ahead s = b ++ rest)) s.
Proof.
  intros HI Hmagic. unfold skippable. wps.
  eapply wp_mono; [by apply (need_spec 8); [lia|]| |].
  2: { intros e s' (He & Hwho & Htr). split; [done|]. destruct Hwho as [->|]; [right|by left].
       destruct (Htr eq_refl) as (HI1 & _ & Hu1 & Hp1). intros (b & rest & (Hb & _) & Hab).
       pose proof (inv_src _ _ _ HI) as Hs. rewrite (inv_src _ _ _ HI1) in Hs at 1.
       apply app_inv_head, (f_equal length) in Hs. rewrite Hab, length_app, length_ahead, Hu1 in Hs.
       cbn [length] in Hs. lia. }
  intros _ s1 (HI1 & Hn1 & Hr1 & Ha1 & _). wps. rewrite <-Hr1.
  pose proof (bytes_pending _ _ _ HI1) as Hb.
  set (n := le_load (take 4 (drop 4 (pending s1)))).
  assert (0 <= n) as Hn by (apply le_load_nonneg; auto with width).
  apply (wp_access _ n).
  { rewrite <-le32_drop. apply le32_spec; [done|]. change (4 + 4 <= length (pending s1))%nat. lia. }
  wps. eapply wp_mono; [by apply (consume_spec 8)| |done].
  intros _ s2 (HI2 & He2 & Hp2 & Hc2). wps. rewrite <-Hc2.
  eapply wp_mono; [by apply (skip_bytes_spec n)| |].
  2: { intros e s' [He Hwho]. split; [done|]. destruct Hwho as [|Hlt]; [by left|right].
       intros (b & rest & (Hb8 & _ & Hsz) & Hab). rewrite <-Ha1 in Hab.
       pose proof (inv_shrinks _ _ _ _ _ _ HI1 HI2) as Hs.
       rewrite length_take, Nat.min_l, Hab, length_app in Hs by lia.
       assert (n = Z.of_nat (length b - 8)); [|lia].
       rewrite <-Hsz. unfold n. f_equal. pose proof (f_equal (fun l => take 4 (drop 4 l)) Hab) as Hd.
       cbv beta in Hd. unfold ahead in Hd.
       rewrite !drop_app_le, !take_app_le in Hd by (rewrite ?length_drop; lia). done. }
  intros _ s3 (b & Hlb & HI3 & Hc3). wps.
  set (h := take 8 (pending s1)) in *.
  assert (length h = 8%nat) as Hl by (unfold h; rewrite length_take; lia).
  exists (h ++ b). split; [|split; [unfold seg_ok; split_and!|]].
  - rewrite app_assoc. by apply inv_result.
  - rewrite length_app. lia.
  - rewrite take_app_le by lia. unfold h. rewrite take_take, Nat.min_l by lia.
    by rewrite <-(ahead_pending 4 s1), Ha1 by lia.
  - rewrite length_app, Hl, drop_app_le, take_app_le by (rewrite ?length_drop; lia).
    unfold h. rewrite skipn_firstn_comm, take_take, Nat.min_l by lia. fold n. lia.
  - apply count_skippable_counts. congruence.
Qed.

(** ** The whole stream *)

Definition tally (gs : list segment) (r : sup_lz4_result) : Prop :=
  frames r = count is_modern gs /\
  skippable_frames r = count (fun g => negb (is_modern g)) gs /\
  content_checked_frames r = count (checks contentChecksumFlag) gs /\
  block_checked_frames r = count (checks blockChecksumFlag) gs.

Local Abbreviation bytes_of gs := (concat (map seg_bytes gs)).
Local Abbreviation out_of gs := (concat (map seg_out gs)).

Definition Parsed (gs : list segment) (s : stream) : Prop :=
  Inv (bytes_of gs) (out_of gs) s /\ Forall seg_ok gs /\ tally gs (result s).

Lemma tally_counts gs r r' : counts r = counts r' -> tally gs r -> tally gs r'.
Proof. unfold counts, tally. intros [= H1 H2 H3 H4]. by rewrite H1, H2, H3, H4. Qed.

Lemma seg_ok_length g : seg_ok g -> (1 <= length (seg_bytes g))%nat.
Proof.
  destruct g as [b|b out]; cbn; [lia|]. intros (_ & flags & _ & _ & Hl & _).
  unfold header_size in Hl. lia.
Qed.

Lemma segs_length gs : Forall seg_ok gs -> (length gs <= length (bytes_of gs))%nat.
Proof.
  induction 1 as [|g gs Hg Hgs IH]; [done|]. cbn. rewrite length_app.
  pose proof (seg_ok_length g Hg). lia.
Qed.

Lemma count_le p gs : 0 <= count p gs <= Z.of_nat (length gs).
Proof. unfold count. pose proof (length_filter p gs). lia. Qed.

(** One more frame. *)
Lemma parsed_snoc gs g s s' :
  Parsed gs s -> seg_ok g ->
  Inv (bytes_of gs ++ seg_bytes g) (out_of gs ++ seg_out g) s' ->
  counts (result s') = counts (match g with
                               | Modern b _ => count_frame (header_info (nth 4 b 0)) (result s)
                               | Skippable _ => count_skippable (result s)
                               end) ->
  Parsed (gs ++ [g]) s'.
Proof.
  intros (_ & Hok & Hf & Hs & Hcc & Hbc) Hg HI Hcounts.
  assert (Forall seg_ok (gs ++ [g])) as Hok' by (by apply Forall_app_2; [|apply Forall_singleton]).
  assert (Inv (bytes_of (gs ++ [g])) (out_of (gs ++ [g])) s') as HI'.
  { rewrite !map_app, !concat_app. cbn. by rewrite !app_nil_r. }
  split_and!; [done|done|].
  assert (Z.of_nat (length (gs ++ [g])) < 2 ^ 64) as Hlt.
  { pose proof (segs_length _ Hok'). pose proof (inv_src _ _ _ HI') as Hsrc.
    apply (f_equal length) in Hsrc. rewrite length_app in Hsrc. lia. }
  pose proof (count_le is_modern (gs ++ [g])) as Hm.
  pose proof (count_le (fun g => negb (is_modern g)) (gs ++ [g])) as Hn.
  pose proof (count_le (checks contentChecksumFlag) (gs ++ [g])) as Hc.
  pose proof (count_le (checks blockChecksumFlag) (gs ++ [g])) as Hd.
  rewrite !count_snoc in Hm, Hn, Hc, Hd.
  assert (forall x, 0 <= x < 2 ^ 64 -> u64 x = x) as Hw by (intros; by apply Z.mod_small).
  unfold tally. rewrite !count_snoc. destruct g as [b|b out]; cbn [negb is_modern checks] in *.
  - injection Hcounts as H1 H2 H3 H4. rewrite H1, H2, H3, H4. cbn. rewrite Hf, Hs, Hcc, Hbc in *. rewrite !Hw by lia. lia.
  - set (info := header_info (nth 4 b 0)) in *. clearbody info. injection Hcounts as H1 H2 H3 H4. rewrite H1, H2, H3, H4. cbn.
    rewrite Hf, Hs, Hcc, Hbc in *. destruct (contentChecksumFlag info), (blockChecksumFlag info); rewrite !Hw by lia; lia.
Qed.

(** A skippable frame is determined by the stream it starts. *)
Lemma skippable_unique b g rest rest' :
  seg_ok (Skippable b) -> seg_ok g -> b ++ rest = seg_bytes g ++ rest' ->
  g = Skippable b /\ rest = rest'.
Proof.
  intros (Hb8 & Hbm & Hbs) Hg Heq.
  assert (4 <= length (seg_bytes g))%nat as Hg4.
  { destruct g as [b'|b' out]; cbn in *; [lia|].
    destruct Hg as (_ & flags & _ & _ & Hl & _). unfold header_size in Hl. lia. }
  assert (take 4 (seg_bytes g) = take 4 b) as H4.
  { apply (f_equal (take 4)) in Heq. by rewrite !take_app_le in Heq by lia. }
  destruct g as [b'|b' out]; cbn [seg_bytes] in *; [|exfalso].
  - destruct Hg as (Hg8 & _ & Hgs).
    assert (take 4 (drop 4 b) = take 4 (drop 4 b')) as H8.
    { apply (f_equal (fun l => take 4 (drop 4 l))) in Heq. cbv beta in Heq.
      by rewrite !drop_app_le, !take_app_le in Heq by (rewrite ?length_drop; lia). }
    rewrite H8, Hgs in Hbs. apply app_inj_1 in Heq as [-> ->]; [done|lia].
  - destruct Hg as [Hgm _]. rewrite <-H4, Hgm in Hbm. done.
Qed.

Lemma next_frame_spec gs s :
  Parsed gs s ->
  wp (next_frame fuel)
    (fun r s' => match r with
       | inl _ => exists g, Parsed (gs ++ [g]) s' /\ seg_ok g /\ ahead s = seg_bytes g ++ ahead s'
       | inr _ => Parsed gs s' /\ ahead s = [] /\ ahead s' = [] /\ gs <> []
       end)
    (fun e s' => Err (counts (result s)) (out_of gs) e s' /\
       (host_error e \/ (ahead s = [] -> gs = []) /\
        ~ exists b rest, seg_ok (Skippable b) /\ ahead s = b ++ rest)) s.
Proof.
  intros HP. pose proof HP as (HI & Hok & Ht). unfold next_frame. wps.
  eapply wp_mono; [by apply (need_spec 4); [lia|]| |].
  - intros _ s1 (HI1 & Hn1 & Hr1 & Ha1 & _). wps.
    assert (Parsed gs s1) as HP1 by (split_and!; [done|done|by rewrite Hr1]).
    pose proof (bytes_pending _ _ _ HI1) as Hb. rewrite <-Hr1, <-Ha1.
    assert (ahead s1 <> []) as Hne.
    { intros Hnil. apply (f_equal length) in Hnil. rewrite length_ahead in Hnil. cbn in Hnil. lia. }
    assert (forall b rest, seg_ok (Skippable b) -> ahead s1 = b ++ rest ->
      is_skip (le_load (take 4 (ahead s1))) = true) as Hisk.
    { intros b rest (Hb8 & Hbm & _) ->. by rewrite take_app_le by lia. }
    apply (wp_access _ (le_load (take 4 (ahead s1)))).
    { rewrite ahead_pending by lia. rewrite <-(Nat.add_0_r (pos s1)), <-le32_drop.
      apply le32_spec; [done|]. done. }
    wps. destruct (Z.eqb_spec (le_load (take 4 (ahead s1))) FRAME_MAGIC) as [Hm|_];
      [|destruct (is_skip _) eqn:Hm].
    + eapply wp_mono; [by apply modern_spec| |].
      * intros _ s2 (b & out & HI2 & Hg & Hc). wps. exists (Modern b out). split_and!.
        -- by apply (parsed_snoc _ _ s1).
        -- done.
        -- apply (inv_next _ _ _ _ _ _ HI1 HI2).
      * intros e s2 He. split; [done|right]. split; [done|]. intros (b & rest & Hbo & Hab).
        specialize (Hisk _ _ Hbo Hab). by rewrite Hm in Hisk.
    + eapply wp_mono; [by apply skippable_spec| |].
      * intros _ s2 (b & HI2 & Hg & Hc). wps. exists (Skippable b). split_and!.
        -- apply (parsed_snoc _ _ s1); [done|done|cbn; by rewrite app_nil_r|done].
        -- done.
        -- apply (inv_next _ _ _ _ _ _ HI1 HI2).
      * intros e s2 [He Hwho]. split; [done|]. destruct Hwho; [by left|right]. by split.
    + apply wp_throw. split; [by apply (inv_err _ _ _ _ HI1)|right]. split; [done|].
      intros (b & rest & Hbo & Hab). specialize (Hisk _ _ Hbo Hab). congruence.
  - intros e s1 (He & Hwho & Htr). wps.
    destruct (decide (e = SUP_LZ4_TRUNCATED)) as [->|Hnt].
    2: { destruct Hwho as [|[->| ->]]; [done|..]; apply wp_throw; split; try done; left; [by left|by right]. }
    destruct (Htr eq_refl) as (HI1 & Hr1 & Hu1 & Hlt).
    assert (ahead s = pending s1) as Has.
    { apply (app_inv_head (bytes_of gs)). rewrite <-(inv_src _ _ _ HI), (inv_src _ _ _ HI1).
      unfold ahead. by rewrite Hu1, app_nil_r. }
    assert (~ exists b rest, seg_ok (Skippable b) /\ ahead s = b ++ rest) as Hno.
    { intros (b & rest & (Hb8 & _) & Hab). rewrite Has in Hab. rewrite Hab, length_app in Hlt. lia. }
    destruct (Nat.eqb_spec (pos s1) (size s1)) as [Hps|Hps].
    2: { apply wp_throw. split; [done|right]. split; [|done]. rewrite Has. intros Hnil.
         apply (f_equal length) in Hnil. rewrite length_pending in Hnil.
         pose proof (inv_pos _ _ _ HI1). cbn in Hnil. lia. }
    assert (pending s1 = []) as Hpe by (apply drop_ge; unfold size in Hps; lia).
    rewrite Hr1.
    destruct (negb (frames (result s) =? 0) || negb (skippable_frames (result s) =? 0)) eqn:Hsome.
    + apply wp_ret. split; [split_and!; [done|done|by rewrite Hr1]|]. split_and!; [congruence| |].
      * unfold ahead. by rewrite Hpe, Hu1.
      * intros ->. destruct Ht as (Hf & Hs & _). rewrite Hf, Hs in Hsome. done.
    + apply wp_throw. split; [done|right]. split; [|done]. intros _.
      apply orb_false_iff in Hsome as [H1 H2]. apply negb_false_iff, Z.eqb_eq in H1, H2.
      destruct Ht as (Hf & Hs & _). rewrite Hf in H1. rewrite Hs in H2.
      pose proof (count_split is_modern gs). apply nil_length_inv. lia.
Qed.

Lemma decode_loop_spec s :
  Parsed [] s ->
  wp (mloop fuel (fun _ => next_frame fuel) tt)
    (fun _ s' => exists gs, Parsed gs s' /\ ahead s' = [] /\ gs <> [])
    (fun e s' => blame e /\ 0 <= input_bytes (result s') <= Z.of_nat (length src) /\
       exists gs rest, src = bytes_of gs ++ rest /\ Forall seg_ok gs /\ tally gs (result s') /\
         (e <> SUP_LZ4_IO -> exists more, written (env s') = wr0 ++ out_of gs ++ more /\
            output_bytes (result s') = Z.of_nat (length (out_of gs ++ more))))
    s.
Proof.
  intros HP. apply (wp_mloop (fun _ s' => exists gs, Parsed gs s') (fun _ s' => length (ahead s'))).
  - intros _ s1 [gs HP1]. eapply wp_mono; [by apply next_frame_spec| |].
    + intros [[]|[]] s2 Hs2; [|by destruct Hs2 as (? & _ & ?); eauto].
      destruct Hs2 as (g & Hg & Hgo & Ha). split; [by eauto|].
      rewrite Ha, length_app. pose proof (seg_ok_length g Hgo). lia.
    + intros e s2 ((Hb & Hc & Hi & Hw) & _). destruct HP1 as (HI & Hok & Ht). split_and!; [done|lia|lia|].
      exists gs, (ahead s1). split_and!; [apply (inv_src _ _ _ HI)|done| |done].
      by apply (tally_counts gs (result s1)).
  - by exists [].
  - destruct HP as (HI & _). pose proof (inv_ahead_le _ _ _ HI). nia.
Qed.

(** Skippable frames are accepted by any host that does its part. *)
Lemma decode_loop_skippable gs s :
  Parsed [] s -> ahead s = bytes_of gs -> gs <> [] ->
  Forall (fun g => seg_ok g /\ is_modern g = false) gs ->
  wp (mloop fuel (fun _ => next_frame fuel) tt)
    (fun _ s' => Parsed gs s' /\ ahead s' = [])
    (fun e s' => host_error e /\ blame e) s.
Proof.
  intros HP Ha Hne Hall.
  apply (wp_mloop
    (fun _ s' => exists done todo, gs = done ++ todo /\ Parsed done s' /\ ahead s' = bytes_of todo)
    (fun _ s' => length (ahead s'))).
  - intros _ s1 (dn & todo & Hgs & HP1 & Ha1).
    assert (Forall (fun g => seg_ok g /\ is_modern g = false) todo) as Htodo.
    { rewrite Hgs in Hall. by apply Forall_app in Hall as [_ Hall]. }
    eapply wp_mono; [by apply next_frame_spec| |].
    + intros [[]|[]] s2 Hs2.
      * destruct Hs2 as (g & Hg & Hgo & Ha2). rewrite Ha1 in Ha2.
        destruct Htodo as [|h todo [Hh Hhm] Htodo]; cbn in Ha2.
        { pose proof (seg_ok_length g Hgo) as Hl. apply (f_equal length) in Ha2.
          rewrite length_app in Ha2. cbn in Ha2. lia. }
        destruct h as [b|]; [|done].
        destruct (skippable_unique b g _ _ Hh Hgo Ha2) as [-> Hrest]. split.
        -- exists (dn ++ [Skippable b]), todo. split_and!; [by rewrite <-app_assoc|done|done].
        -- rewrite Ha1. cbn. rewrite length_app, Hrest. destruct Hh as [Hh _]. lia.
      * destruct Hs2 as (HP2 & Hnil & Hnil2 & _). rewrite Ha1 in Hnil.
        destruct Htodo as [|h todo [Hh Hhm] Htodo].
        { rewrite app_nil_r in Hgs. subst gs. by split. }
        pose proof (seg_ok_length h Hh). apply (f_equal length) in Hnil. cbn in Hnil.
        rewrite length_app in Hnil. lia.
    + intros e s2 ((Hb & _) & Hwho). split; [|done]. destruct Hwho as [|[Hend Hno]]; [done|exfalso].
      destruct Htodo as [|h todo [Hh Hhm] Htodo].
      * apply Hne. rewrite app_nil_r in Hgs. rewrite Hgs. by apply Hend.
      * destruct h as [b|]; [|done]. apply Hno. exists b, (bytes_of todo). by rewrite Ha1.
  - exists [], gs. done.
  - destruct HP as (HI & _). pose proof (inv_ahead_le _ _ _ HI). nia.
Qed.
End Specs.

Arguments host_cancels {E Ctx} W.
Arguments host_fails {E Ctx} W.

(** [sup_lz4_decode] relies on the same host. *)
#[export] Instance without_memory_laws {E Ctx} (W : Lz4World E Ctx) (L : Lz4Laws W) :
  Lz4Laws (without_memory W) :=
  @Build_Lz4Laws E Ctx (without_memory W)
    (@unread _ _ W L)
    (@written _ _ W L)
    (@context _ _ W L)
    (@frame_content _ _ W L)
    (@owed_max _ _ W L)
    (@owed_bound _ _ W L)
    (@read_law _ _ W L)
    (@skip_law _ _ W L)
    (@skip_exhausted_law _ _ W L)
    (@write_law _ _ W L)
    (@progress_law _ _ W L)
    (@create_advanced_law _ _ W L)
    (@create_law _ _ W L)
    (@free_law _ _ W L)
    (@getFrameInfo_law _ _ W L)
    (@decompress_law _ _ W L).

(** Fuel that is always enough: one turn per byte still to come and per step of
    output the library may owe. *)
Definition fuel_for {E Ctx} {W : Lz4World E Ctx} {L : Lz4Laws W} (e : E) : nat :=
  ((length (unread e) + 1) * (owed_max + 1))%nat.

(** A stream the adapter can be given. *)
Definition stream_ok {E Ctx} {W : Lz4World E Ctx} {L : Lz4Laws W} (e : E) : Prop :=
  bytes (unread e) /\ Z.of_nat (length (unread e)) < 2 ^ 64.

Section Entry.
Context {E Ctx : Type} {W : Lz4World E Ctx} {L : Lz4Laws W}.
Context (fuel : nat) (e : E).
Hypothesis e_ok : stream_ok e.
Hypothesis fuel_ok : (fuel_for e < fuel)%nat.

Lemma parsed_init :
  Parsed (unread e) (written e) [] {| env := e; input := []; pos := 0; result := zero_result |}.
Proof.
  split_and!; [|by constructor|done].
  constructor; cbn; try done. by rewrite app_nil_r.
Qed.

(** The loop result seen through the entry point. *)
Lemma decode_result (P : E -> sup_lz4_result -> sup_lz4_error -> Prop) Q X :
  wp (mloop fuel (fun _ => next_frame fuel) tt) Q X
    {| env := e; input := []; pos := 0; result := zero_result |} ->
  (forall s, Q tt s -> P (env s) (set_error SUP_LZ4_OK (result s)) SUP_LZ4_OK) ->
  (forall rc s, X rc s -> P (env s) (set_error rc (result s)) rc) ->
  exists e' r rc, sup_lz4_decode_with_memory fuel true e = Some (e', r, rc) /\ P e' r rc.
Proof.
  intros Hwp HQ HX. unfold sup_lz4_decode_with_memory.
  destruct (wp_result _ _ _ _ Hwp) as (s & rc & Heq & Hrc). cbn [negb].
  rewrite Heq. cbn [mbind option_bind]. destruct rc as [rc|[]]; eauto 10.
Qed.

Lemma decode_outcome :
  exists e' r rc, sup_lz4_decode_with_memory fuel true e = Some (e', r, rc) /\ error r = rc /\
    ((rc = SUP_LZ4_OK /\ exists gs, gs <> [] /\ Forall seg_ok gs /\
        unread e = concat (map seg_bytes gs) /\ unread e' = [] /\
        written e' = written e ++ concat (map seg_out gs) /\
        input_bytes r = Z.of_nat (length (unread e)) /\
        output_bytes r = Z.of_nat (length (concat (map seg_out gs))) /\ tally gs r) \/
     (rc <> SUP_LZ4_OK /\ blame rc /\ 0 <= input_bytes r <= Z.of_nat (length (unread e)) /\
      exists gs rest, unread e = concat (map seg_bytes gs) ++ rest /\ Forall seg_ok gs /\
        tally gs r /\
        (rc <> SUP_LZ4_IO -> exists more, written e' = written e ++ concat (map seg_out gs) ++ more /\
           output_bytes r = Z.of_nat (length (concat (map seg_out gs) ++ more))))).
Proof.
  destruct e_ok as [Hb Hl].
  eapply decode_result; [by apply (decode_loop_spec (unread e) (written e)), parsed_init|..].
  - intros s (gs & (HI & Hok & Ht) & Ha & Hne). split; [done|left]. split; [done|].
    exists gs. destruct HI as [Hp Hs Hsrc Hin Hout Hob How].
    rewrite Ha, app_nil_r in Hsrc. apply app_nil in Ha as [_ Hu].
    split_and!; try done. cbn. by rewrite Hin, Hsrc.
  - intros rc s (Hbl & Hi & Hgs). split; [done|right].
    split; [by intros ->|]. split; [done|]. by split.
Qed.

Lemma decode_skippable gs :
  ~ host_fails W -> ~ host_cancels W ->
  unread e = concat (map seg_bytes gs) -> gs <> [] ->
  Forall (fun g => seg_ok g /\ is_modern g = false) gs ->
  exists e' r rc, sup_lz4_decode_with_memory fuel true e = Some (e', r, rc) /\
    rc = SUP_LZ4_OK /\ written e' = written e /\
    skippable_frames r = Z.of_nat (length gs) /\ frames r = 0 /\
    input_bytes r = Z.of_nat (length (unread e)) /\ output_bytes r = 0.
Proof.
  intros Hnf Hnc Hsrc Hne Hall. destruct e_ok as [Hb Hl].
  eapply decode_result; [by apply (decode_loop_skippable (unread e) (written e) _ Hb Hl fuel_ok gs),
                            Hall; [apply parsed_init|..]|..].
  - intros s ((HI & Hok & Hf & Hs & _) & Ha). destruct HI as [_ _ Hs' Hin Hout Hob _].
    assert (forall l, Forall (fun g => seg_ok g /\ is_modern g = false) l ->
      concat (map seg_out l) = [] /\ count is_modern l = 0) as Hsk.
    { induction 1 as [|g l [_ Hg] _ [IH1 IH2]]; [done|]. destruct g; [|done]. split; [exact IH1|exact IH2]. }
    destruct (Hsk gs Hall) as [Ho Hm]. rewrite Ho in *. cbn. rewrite Hin, Hob, Hf, Hm.
    rewrite Hs, <-(count_split is_modern gs), Hm, Hsrc, app_nil_r in *. split_and!; done.
  - intros rc s [[->| ->] Hbl]; exfalso; [by apply Hnc|by apply Hnf].
Qed.
End Entry.

(** ** A concrete host

    Reads deliver at most three bytes at a time; the library's frames are a
    header, bytes other than zero that stand for themselves, and a zero.  The world is what
    is unread, what was written, and what the library has taken in. *)

Definition example_frame (b : list Z) : option (list Z) :=
  match rev (drop 7 b) with
  | 0 :: body => if existsb (Z.eqb 0) body then None else Some (rev body)
  | _ => None
  end.

Definition example_state (k : list Z) : progress_of :=
  {| consumed := k; produced := List.filter (fun b => negb (0 =? b)) (drop 7 k); owed := O |}.

Definition example_world : Lz4World (list Z * list Z * list Z) unit := {|
  read := fun '(u, w, k) n =>
    let i := Z.to_nat (Z.min 3 (Z.min n (Z.of_nat (length u)))) in
    ((drop i u, w, k), Z.of_nat (length (take i u)), take i u);
  skip := None;
  write := fun '(u, w, k) data => ((u, w ++ data, k), 0);
  progress := None;
  custom_memory := false;
  LZ4F_createDecompressionContext_advanced := fun '(u, w, _) => ((u, w, []), Some tt);
  LZ4F_createDecompressionContext := fun '(u, w, _) => ((u, w, []), 0, tt);
  LZ4F_getFrameInfo := fun '(u, w, _) _ src =>
    if (length src =? 7)%nat then ((u, w, src), 1, header_info (nth 4 src 0), 7%nat)
    else ((u, w, []), u64 (-1), header_info 0, O);
  LZ4F_decompress := fun '(u, w, k) _ _ src =>
    if (length k <? 7)%nat || existsb (Z.eqb 0) (drop 7 k) then ((u, w, k), u64 (-1), [], O)
    else match src with
         | [] => ((u, w, k), 1, [], O)
         | b :: _ => ((u, w, k ++ [b]), (if 0 =? b then 0 else 1), (if 0 =? b then [] else [b]), 1%nat)
         end;
  LZ4F_freeDecompressionContext := fun e _ => e
|}.

Lemma no_zero k : existsb (Z.eqb 0) k = false -> List.filter (fun b => negb (0 =? b)) k = k.
Proof. induction k as [|b k IH]; [done|]. cbn [existsb List.filter]. intros [-> Hk]%orb_false_iff. cbn [negb]. by rewrite IH. Qed.

#[export, refine] Instance example_laws : Lz4Laws example_world :=
  {| unread := fun e => e.1.1; written := fun e => e.1.2; context := fun e _ => example_state e.2;
     frame_content := example_frame; owed_max := O |}.
Proof.
  - done.
  - intros [[u w] k] n e' got data [= <- <- <-] Hgot.
    split_and!; [done|symmetry; apply take_drop|done| |done].
    intros Hz Hn. cbn [fst] in *. rewrite length_take in Hz. destruct u; [done|cbn [length] in Hz; lia].
  - done.
  - done.
  - intros [[u w] k] data e' [= <-]. done.
  - done.
  - intros [[u w] k] e' c [= <- <-]. done.
  - intros [[u w] k] e' h c [= <- <- <-]. done.
  - done.
  - intros [[u w] k] c src e' hint info n. cbn [LZ4F_getFrameInfo example_world].
    destruct (Nat.eqb_spec (length src) 7) as [H7|H7]; intros [= <- <- <- <-]; (split; [done|]); (split; [done|]); [|done].
    intros _ _ _ flags _ Hfl _. split; [done|]. split; [by rewrite (nth_lookup_Some _ _ _ _ Hfl)|]. split; [done|].
    cbn [produced example_state snd]. by rewrite drop_ge by lia.
  - intros [[u w] k] c cap src e' hint out n. cbn [LZ4F_decompress example_world].
    destruct (Nat.ltb_spec (length k) 7) as [H7|H7]; cbn [orb]; [intros [= <- <- <- <-]; done|].
    destruct (existsb (Z.eqb 0) (drop 7 k)) eqn:Hk; [intros [= <- <- <- <-]; done|].
    destruct src as [|b src]; intros [= <- <- <- <-]; (split; [done|]); (split; [done|]); intros _ _.
    + cbn. rewrite !app_nil_r. by split_and!.
    + cbn [consumed produced owed example_state length take snd]. rewrite ?take_0, ?firstn_O. split; [lia|]. split.
      { rewrite drop_app_le, List.filter_app by lia. intros _. split; [done|]. split; [by destruct b|done]. }
      unfold example_frame. rewrite drop_app_le, rev_app_distr by lia. cbn [take rev app List.filter].
      destruct (Z.eqb_spec 0 b) as [<-|Hb]; [|by destruct b]. intros _. cbn [negb]. rewrite app_nil_r, no_zero by done.
      destruct (existsb (Z.eqb 0) (rev (drop 7 k))) eqn:Hr; [|by rewrite rev_involutive].
      apply existsb_exists in Hr as (x & Hx & E). apply in_rev in Hx. exfalso.
      assert (existsb (Z.eqb 0) (drop 7 k) = true) as H by (apply existsb_exists; by exists x). congruence.
Defined.

(** A skippable frame of two bytes, then a frame that stands for "AB". *)
Definition example_stream : list Z :=
  [0x50; 0x2a; 0x4d; 0x18; 2; 0; 0; 0; 9; 9;
   0x04; 0x22; 0x4d; 0x18; 0x40; 0x40; 0xc0; 65; 66; 0].

Example example_decode :
  sup_lz4_decode_with_memory (W := example_world) 30 true (example_stream, [], [])
  = Some (([], [65; 66], [0x04; 0x22; 0x4d; 0x18; 0x40; 0x40; 0xc0; 65; 66; 0]),
      {| input_bytes := 20; output_bytes := 2; frames := 1; skippable_frames := 1;
         content_checked_frames := 0; block_checked_frames := 0; error := SUP_LZ4_OK |},
      SUP_LZ4_OK).
Proof. vm_compute. reflexivity. Qed.

(** ** Properties *)

(** C3: Success means the whole stream.  For any host and library that keep their
    contracts, however the reads are cut, the decoder returns; if it reports
    success, the source is exactly a non-empty sequence of skippable frames and
    LZ4 frames, all of it was consumed, and what was written is, frame by frame and in order,
    what the library says each LZ4 frame decompresses to.  The receipt counts the bytes on
    both sides, the frames of each kind, and those whose headers ask for checksums. *)
Theorem sup_lz4_success_is_complete {E Ctx} (W : Lz4World E Ctx) (L : Lz4Laws W) fuel e :
  stream_ok e -> (fuel_for e < fuel)%nat ->
  exists e' r rc, sup_lz4_decode_with_memory fuel true e = Some (e', r, rc) /\ error r = rc /\
    (rc = SUP_LZ4_OK ->
     exists gs, gs <> [] /\ Forall seg_ok gs /\ unread e = concat (map seg_bytes gs) /\
       unread e' = [] /\ written e' = written e ++ concat (map seg_out gs) /\
       input_bytes r = Z.of_nat (length (unread e)) /\
       output_bytes r = Z.of_nat (length (concat (map seg_out gs))) /\ tally gs r).
Proof.
  intros Hok Hf. destruct (decode_outcome fuel e Hok Hf) as (e' & r & rc & Hd & He & Hrc).
  exists e', r, rc. split_and!; [done|done|]. intros ->. destruct Hrc as [[_ Hgs]|[Hne _]]; done.
Qed.

Lemma sup_lz4_success_is_complete_witness :
  exists e' r rc,
    sup_lz4_decode_with_memory (W := example_world) 30 true (example_stream, [], []) = Some (e', r, rc) /\
    error r = rc /\
    (rc = SUP_LZ4_OK ->
     exists gs, gs <> [] /\ Forall (seg_ok (L := example_laws)) gs /\ example_stream = concat (map seg_bytes gs) /\
       e'.1.1 = [] /\ e'.1.2 = [] ++ concat (map seg_out gs) /\
       input_bytes r = Z.of_nat (length example_stream) /\
       output_bytes r = Z.of_nat (length (concat (map seg_out gs))) /\ tally gs r).
Proof.
  apply (sup_lz4_success_is_complete example_world example_laws 30 (example_stream, [], [])).
  - split; [unfold example_stream; cbn; byte_list|cbn; lia].
  - cbn. lia.
Defined.

(** C22: Every other outcome is accounted for.  An error is never an invented
    host failure: CANCELLED means the progress callback asked to stop, IO means a
    read, write or skip callback failed.  The receipt repeats the code and never claims more
    input than there is; its counters are those of a prefix of the source that is a sequence
    of complete frames, each with what the library says it decompresses to.  Unless a callback
    failed, what was written starts with the output of those frames, in order, and the receipt
    counts the bytes of all that was written. *)
Theorem sup_lz4_failure_is_accounted {E Ctx} (W : Lz4World E Ctx) (L : Lz4Laws W) fuel e e' r rc :
  stream_ok e -> (fuel_for e < fuel)%nat ->
  sup_lz4_decode_with_memory fuel true e = Some (e', r, rc) -> rc <> SUP_LZ4_OK ->
  error r = rc /\ (rc = SUP_LZ4_CANCELLED -> host_cancels W) /\ (rc = SUP_LZ4_IO -> host_fails W) /\
  0 <= input_bytes r <= Z.of_nat (length (unread e)) /\
  exists gs rest, unread e = concat (map seg_bytes gs) ++ rest /\ Forall seg_ok gs /\ tally gs r /\
    (rc <> SUP_LZ4_IO -> exists more, written e' = written e ++ concat (map seg_out gs) ++ more /\
       output_bytes r = Z.of_nat (length (concat (map seg_out gs) ++ more))).
Proof.
  intros Hok Hf Hd Hne. destruct (decode_outcome fuel e Hok Hf) as (e2 & r2 & rc2 & Hd2 & He & Hrc).
  rewrite Hd in Hd2. injection Hd2 as <- <- <-.
  destruct Hrc as [[? _]|(_ & Hb & Hi & Hgs)]; [done|].
  split_and!; [done|by intros ->|by intros ->|apply Hi|apply Hi|done].
Qed.

Lemma sup_lz4_failure_is_accounted_witness :
  let e := (take 19 example_stream, [], []) in
  exists e' r rc,
    sup_lz4_decode_with_memory (W := example_world) 30 true e = Some (e', r, rc) /\
    error r = rc /\ (rc = SUP_LZ4_CANCELLED -> host_cancels example_world) /\ (rc = SUP_LZ4_IO -> host_fails example_world) /\
    0 <= input_bytes r <= 19 /\
    exists gs rest, take 19 example_stream = concat (map seg_bytes gs) ++ rest /\ Forall (seg_ok (L := example_laws)) gs /\ tally gs r /\
      (rc <> SUP_LZ4_IO -> exists more, e'.1.2 = [] ++ concat (map seg_out gs) ++ more /\
         output_bytes r = Z.of_nat (length (concat (map seg_out gs) ++ more))).
Proof.
  do 3 eexists. split; [vm_compute; reflexivity|].
  eapply (sup_lz4_failure_is_accounted example_world example_laws 30 (take 19 example_stream, [], []));
    [|cbn; lia|vm_compute; reflexivity|discriminate].
  split; [unfold example_stream; cbn; byte_list|cbn; lia].
Defined.

(** C23: Skippable frames are accepted.  A non-empty sequence of well-formed
    skippable frames is decoded successfully by any host whose callbacks neither
    fail nor cancel, whatever the sizes of the reads: nothing is written, and
    every frame and byte is counted. *)
Theorem sup_lz4_skippable_accepted {E Ctx} (W : Lz4World E Ctx) (L : Lz4Laws W) fuel e gs :
  stream_ok e -> (fuel_for e < fuel)%nat -> ~ host_fails W -> ~ host_cancels W ->
  unread e = concat (map seg_bytes gs) -> gs <> [] ->
  Forall (fun g => seg_ok g /\ is_modern g = false) gs ->
  exists e' r rc, sup_lz4_decode_with_memory fuel true e = Some (e', r, rc) /\
    rc = SUP_LZ4_OK /\ written e' = written e /\
    skippable_frames r = Z.of_nat (length gs) /\ frames r = 0 /\
    input_bytes r = Z.of_nat (length (unread e)) /\ output_bytes r = 0.
Proof. intros Hok Hf. by apply decode_skippable. Qed.

Lemma sup_lz4_skippable_accepted_witness :
  let e := (take 10 example_stream, [], []) in
  exists e' r rc, sup_lz4_decode_with_memory (W := example_world) 30 true e = Some (e', r, rc) /\
    rc = SUP_LZ4_OK /\ e'.1.2 = [] /\ skippable_frames r = 1 /\ frames r = 0 /\
    input_bytes r = 10 /\ output_bytes r = 0.
Proof.
  apply (sup_lz4_skippable_accepted example_world example_laws 30 (take 10 example_stream, [], [])
           [Skippable (take 10 example_stream)]).
  - split; [unfold example_stream; cbn; byte_list|cbn; lia].
  - cbn. lia.
  - intros [(e & n & Hn & H)|[(e & d & H)|(f & e & n & H & _)]]; [| |done].
    + destruct e as [[u w] k]. cbn in H. rewrite length_take in H. lia.
    + destruct e as [[u w] k]. by apply H.
  - intros (f & e & i & o & H & _). done.
  - reflexivity.
  - done.
  - apply Forall_singleton. split; [|done]. split_and!; [cbn; lia|reflexivity|reflexivity].
Defined.
