(* ===== verification/LzmaParse.v ===== *)
(** * LZMA: the range decoder and parse trees

    The macros of LzmaDec.c that decode one bit.  What the decoder reads from the
    range coder is written once as a tree of bit requests ([parse]); the two
    readers of the code are two interpreters of such trees:

    - [run]: [IF_BIT_0]/[UPDATE_0]/[UPDATE_1] of LzmaDec_DecodeReal_3, which
      adapts the probabilities and reads the input without a check;
    - [run_check]: the [_CHECK] macros of LzmaDec_TryDummy, which leave the
      probabilities alone and stop at the end of the input.

    Proved once for every tree whose probabilities are in range, are asked for
    at most once, and whose paths are no longer than those of an LZMA symbol
    ([good]): no access out of range, at most 20 bytes of input per symbol, and
    agreement of the two readers. *)

From stdpp Require Import base numbers list list_numbers.
From Stdlib Require Import ZArith Lia.
From S2P Require Import Prelude.
Local Open Scope Z_scope.
Local Open Scope word_scope.

Definition kTopValue : Z := 1 <<< 24.
Definition kNumBitModelTotalBits : Z := 11.
Definition kBitModelTotal : Z := 1 <<< kNumBitModelTotalBits.
Definition kNumMoveBits : Z := 5.
Definition LZMA_REQUIRED_INPUT_MAX : Z := 20.

(** What is asked of the range decoder: a bit with the probability at an index,
    or a direct bit, whose answer is the mask [t] of the source; [Oob] is an
    access to the dictionary out of range. *)
Inductive parse (A : Type) : Type :=
  | Ret (a : A)
  | Bit (p : Z) (k : bool -> parse A)
  | Direct (k : Z -> parse A)
  | Oob.
Arguments Ret {A} a.
Arguments Bit {A} p k.
Arguments Direct {A} k.
Arguments Oob {A}.

#[export] Instance parse_ret : MRet parse := @Ret.

#[export] Instance parse_bind : MBind parse := fun A B f =>
  fix go (t : parse A) : parse B :=
    match t with
    | Ret a => f a
    | Bit p k => Bit p (fun b => go (k b))
    | Direct k => Direct (fun t => go (k t))
    | Oob => Oob
    end.

(** Requests as operations of the monad. *)
Definition IF_BIT (p : Z) : parse bool := Bit p Ret.
Definition direct_bit : parse Z := Direct Ret.
Definition access {A} (o : option A) : parse A := match o with Some a => Ret a | None => Oob end.

(** [range], [code], the probabilities and the position in the input. *)
Record rc := { probs : list Z; range : Z; code : Z; buf : Z }.

Definition set_probs (l : list Z) (c : rc) : rc :=
  {| probs := l; range := range c; code := code c; buf := buf c |}.
Definition set_range (r k : Z) (c : rc) : rc :=
  {| probs := probs c; range := r; code := k; buf := buf c |}.

Definition set_buf (b : Z) (c : rc) : rc :=
  {| probs := probs c; range := range c; code := code c; buf := b |}.

(** [range <<= 8; code = (code << 8) | *buf++] *)
Definition shift_in (b : Z) (c : rc) : rc :=
  {| probs := probs c; range := u32 (range c <<< 8); code := u32 (code c <<< 8) ||| b;
     buf := buf c + 1 |}.

Definition NORMALIZE (inp : list Z) (c : rc) : option rc :=
  if range c <? kTopValue then b ← rd inp (buf c); Some (shift_in b c) else Some c.

(** [NORMALIZE_CHECK]: [inl tt] is [return DUMMY_INPUT_EOF]. *)
Definition NORMALIZE_CHECK (inp : list Z) (bufLimit : Z) (c : rc) : option (unit + rc) :=
  if range c <? kTopValue then
    if bufLimit <=? buf c then Some (inl tt)
    else b ← rd inp (buf c); Some (inr (shift_in b c))
  else Some (inr c).

Definition bound_of (c : rc) (ttt : Z) : Z := u32 ((range c >>> kNumBitModelTotalBits) * ttt).

Definition UPDATE_0 (p ttt bound : Z) (c : rc) : option rc :=
  l ← wrz (probs c) p (ttt + ((kBitModelTotal - ttt) >>> kNumMoveBits));
  Some (set_range bound (code c) (set_probs l c)).

Definition UPDATE_1 (p ttt bound : Z) (c : rc) : option rc :=
  l ← wrz (probs c) p (ttt - (ttt >>> kNumMoveBits));
  Some (set_range (u32 (range c - bound)) (u32 (code c - bound)) (set_probs l c)).

(** The direct bit of DecodeReal: the mask [t] and the new state. *)
Definition direct_real (c : rc) : Z * rc :=
  let range := range c >>> 1 in
  let code := u32 (code c - range) in
  let t := u32 (0 - (code >>> 31)) in
  (t, set_range range (u32 (code + (range &&& t))) c).

(** The direct bit of TryDummy. *)
Definition direct_dummy (c : rc) : rc :=
  let range := range c >>> 1 in
  set_range range (u32 (code c - (range &&& u32 ((u32 (code c - range) >>> 31) - 1)))) c.

Fixpoint run {A} (inp : list Z) (t : parse A) (c : rc) : option (A * rc) :=
  match t with
  | Ret a => Some (a, c)
  | Bit p k =>
      ttt ← rd (probs c) p;
      c ← NORMALIZE inp c;
      let bound := bound_of c ttt in
      if code c <? bound
      then c ← UPDATE_0 p ttt bound c; run inp (k false) c
      else c ← UPDATE_1 p ttt bound c; run inp (k true) c
  | Direct k =>
      c ← NORMALIZE inp c;
      let '(t, c) := direct_real c in
      run inp (k t) c
  | Oob => None
  end.

Fixpoint run_check {A} (inp : list Z) (bufLimit : Z) (t : parse A) (c : rc)
  : option (unit + A * rc) :=
  match t with
  | Ret a => Some (inr (a, c))
  | Bit p k =>
      ttt ← rd (probs c) p;
      r ← NORMALIZE_CHECK inp bufLimit c;
      match r with
      | inl tt => Some (inl tt)
      | inr c =>
          let bound := bound_of c ttt in
          if code c <? bound
          then run_check inp bufLimit (k false) (set_range bound (code c) c)
          else run_check inp bufLimit (k true)
                 (set_range (u32 (range c - bound)) (u32 (code c - bound)) c)
      end
  | Direct k =>
      r ← NORMALIZE_CHECK inp bufLimit c;
      match r with
      | inl tt => Some (inl tt)
      | inr c => run_check inp bufLimit (k (fst (direct_real c))) (direct_dummy c)
      end
  | Oob => None
  end.

(** ** Trees of LZMA symbols *)

(** Path lengths: 22 bits and 26 direct bits, or 23 bits. *)
Definition fits (i j : nat) : Prop := (i <= 22 /\ j <= 26)%nat \/ (i <= 23 /\ j = 0)%nat.

(** Every probability index is below [n] and new on its path, every path fits,
    and the results satisfy [Q]. *)
Fixpoint good {A} (n : Z) (used : list Z) (i j : nat) (Q : list Z -> nat -> nat -> A -> Prop)
    (t : parse A) : Prop :=
  match t with
  | Ret a => Q used i j a
  | Bit p k =>
      (0 <= p < n) /\ (p ∉ used) /\ fits (S i) j /\
      forall b, good n (p :: used) (S i) j Q (k b)
  | Direct k => fits i (S j) /\ (forall t, (t = 0 \/ t = 2 ^ 32 - 1) -> good n used i (S j) Q (k t))
  | Oob => False
  end.

Lemma good_mono {A} n u i j (Q Q' : list Z -> nat -> nat -> A -> Prop) t :
  good n u i j Q t -> (forall u i j a, Q u i j a -> Q' u i j a) -> good n u i j Q' t.
Proof.
  revert u i j. induction t as [a|p k IH|k IH|]; intros u i j Ht HQ; cbn in *; [by apply HQ| | |done].
  - destruct Ht as (Hp & Hu & Hf & Hk). split_and!; try done; [lia|lia|]. intros b. by apply IH.
  - destruct Ht as (Hf & Hk). split; [done|]. intros t Ht. by apply IH; [apply Hk|].
Qed.

Lemma good_bind {A B} n u i j (Q : list Z -> nat -> nat -> B -> Prop) (t : parse A) (f : A -> parse B) :
  good n u i j (fun u i j a => good n u i j Q (f a)) t -> good n u i j Q (t ≫= f).
Proof.
  revert u i j. induction t as [a|p k IH|k IH|]; intros u i j Ht; cbn in *; [done| | |done].
  - destruct Ht as (Hp & Hu & Hf & Hk). split_and!; try done; [lia|lia|]. intros b. by apply IH.
  - destruct Ht as (Hf & Hk). split; [done|]. intros t Ht. by apply IH, Hk.
Qed.

(** The two readers run the same tree up to what they return. *)
Fixpoint shape {A B} (f : A -> B -> Prop) (td : parse A) (tr : parse B) : Prop :=
  match td, tr with
  | Ret a, Ret b => f a b
  | Bit p k, Bit p' k' => p = p' /\ forall b, shape f (k b) (k' b)
  | Direct k, Direct k' => forall t, shape f (k t) (k' t)
  | Oob, Oob => True
  | _, _ => False
  end.

Lemma shape_bind {A B A' B'} (f : A -> B -> Prop) (g : A' -> B' -> Prop) td tr kd kr :
  shape f td tr -> (forall a b, f a b -> shape g (kd a) (kr b)) -> shape g (td ≫= kd) (tr ≫= kr).
Proof.
  revert tr. induction td as [a|p k IH|k IH|]; intros [b|p' k'|k'|] H Hk; cbn in *; try done;
    [by apply Hk|..].
  - destruct H as [-> H]. split; [done|]. intros b. by apply IH.
  - intros t. by apply IH.
Qed.

Lemma shape_refl {A} (t : parse A) : shape eq t t.
Proof. induction t; cbn; auto. Qed.

Lemma shape_mono {A B} (f g : A -> B -> Prop) td tr :
  shape f td tr -> (forall a b, f a b -> g a b) -> shape g td tr.
Proof.
  revert tr. induction td as [a|p k IH|k IH|]; intros [b|p' k'|k'|] H Hfg; cbn in *; try done;
    [by apply Hfg|..].
  - destruct H as [-> H]. split; [done|]. intros b. by apply IH.
  - intros t. by apply IH.
Qed.

(** ** One bit *)

(** Probabilities stay away from both ends. *)
Definition prob_ok (x : Z) : Prop := 31 <= x <= 2017.

(** The first [m] probabilities are in use: there may be more, not initialised. *)
Definition probs_ok (m : Z) (l : list Z) : Prop :=
  m <= Z.of_nat (length l) /\ forall p x, p < m -> rd l p = Some x -> prob_ok x.

Lemma probs_ok_insert m l p v : 0 <= p -> probs_ok m l -> prob_ok v -> probs_ok m (<[Z.to_nat p := v]> l).
Proof.
  intros Hp [Hl Hx] Hv. split; [by rewrite length_insert|]. intros q x Hq Hr.
  destruct (Z.eq_dec p q) as [<-|Hne].
  - pose proof (rd_range _ _ _ Hr) as Hlt. rewrite length_insert in Hlt.
    rewrite rd_lookup, list_lookup_insert_eq in Hr by lia. congruence.
  - rewrite rd_insert_ne in Hr by lia. by apply (Hx q).
Qed.

Record rc_ok (m : Z) (c : rc) : Prop := {
  ok_probs : probs_ok m (probs c);
  ok_range : 2 ^ 16 <= range c < 2 ^ 32;
  ok_code : 0 <= code c < 2 ^ 32;
  ok_buf : 0 <= buf c
}.
Arguments ok_probs {m} c _.
Arguments ok_range {m} c _.
Arguments ok_code {m} c _.
Arguments ok_buf {m} c _.

Definition normalized (c : rc) : Prop := 2 ^ 24 <= range c.

Lemma prob_up x : prob_ok x -> prob_ok (x + ((kBitModelTotal - x) >>> kNumMoveBits)).
Proof.
  unfold prob_ok, kBitModelTotal, kNumMoveBits. intros. change (1 <<< kNumBitModelTotalBits) with 2048.
  rewrite Z.shiftr_div_pow2 by lia. change (2 ^ 5) with 32.
  pose proof (Z.div_mod (2048 - x) 32 ltac:(lia)). pose proof (Z.mod_pos_bound (2048 - x) 32 ltac:(lia)).
  lia.
Qed.

Lemma prob_down x : prob_ok x -> prob_ok (x - (x >>> kNumMoveBits)).
Proof.
  unfold prob_ok, kNumMoveBits. intros. rewrite Z.shiftr_div_pow2 by lia. change (2 ^ 5) with 32.
  pose proof (Z.div_mod x 32 ltac:(lia)). pose proof (Z.mod_pos_bound x 32 ltac:(lia)). lia.
Qed.

(** The bound splits a normalized range into two parts that are not too small. *)
Lemma bound_split c x :
  normalized c -> range c < 2 ^ 32 -> prob_ok x ->
  2 ^ 17 <= bound_of c x /\ range c <= 67 * bound_of c x /\
  2 ^ 17 <= range c - bound_of c x /\ range c <= 67 * (range c - bound_of c x).
Proof.
  unfold normalized, prob_ok, bound_of, kNumBitModelTotalBits. intros Hn Hr Hx.
  rewrite Z.shiftr_div_pow2 by lia. change (2 ^ 11) with 2048.
  pose proof (Z.div_mod (range c) 2048 ltac:(lia)) as Hd.
  pose proof (Z.mod_pos_bound (range c) 2048 ltac:(lia)) as Hm.
  set (q := range c / 2048) in *.
  assert (q * 31 <= q * x <= q * 2017) by nia.
  unfold wrap. rewrite Z.mod_small by lia. lia.
Qed.

Lemma shift_in_ok {m} b c :
  rc_ok m c -> range c < kTopValue -> in_width 8 b ->
  rc_ok m (shift_in b c) /\ normalized (shift_in b c) /\ range (shift_in b c) = range c * 256.
Proof.
  intros [Hp Hr Hc Hb] Hlt Hw. unfold kTopValue in Hlt. change (1 <<< 24) with (2 ^ 24) in Hlt.
  assert (u32 (range c <<< 8) = range c * 256) as Heq.
  { unfold wrap. rewrite Z.shiftl_mul_pow2 by lia. apply Z.mod_small. lia. }
  unfold normalized. split; [constructor|split]; cbn; rewrite ?Heq; try done; try lia.
  rewrite Z.lor_comm.
  pose proof (Z.mod_pos_bound (code c * 2 ^ 8) (2 ^ 32) ltac:(lia)).
  unfold wrap. rewrite Z.shiftl_mul_pow2 by lia.
  change (2 ^ 32) with (2 ^ 24 * 2 ^ 8). rewrite Z.mul_mod_distr_r by lia.
  rewrite <-Z.shiftl_mul_pow2, lor_shiftl_add by (lia || exact Hw).
  pose proof (Z.mod_pos_bound (code c) (2 ^ 24) ltac:(lia)). unfold in_width in Hw. lia.
Qed.

Lemma NORMALIZE_ok {m} inp c :
  bytes inp -> rc_ok m c -> (range c < 2 ^ 24 -> buf c < Z.of_nat (length inp)) ->
  exists c', NORMALIZE inp c = Some c' /\ rc_ok m c' /\ normalized c' /\ probs c' = probs c /\
    ((c' = c) \/ (range c < 2 ^ 24 /\ buf c' = buf c + 1 /\ range c' = range c * 256)).
Proof.
  intros Hi Hc Hb. unfold NORMALIZE. change kTopValue with (2 ^ 24).
  destruct (Z.ltb_spec (range c) (2 ^ 24)) as [Hlt|Hge].
  - destruct (rd_Some inp (buf c)) as [b Hrd]; [pose proof (ok_buf _ Hc); lia|].
    rewrite Hrd. opt. destruct (shift_in_ok b c Hc Hlt) as (H1 & H2 & H3).
    { exact (rd_Forall _ _ _ _ Hi Hrd). }
    eexists. split; [done|]. split_and!; [done|done|done|right]. done.
  - exists c. split_and!; [done|done|exact Hge|done|by left].
Qed.

Lemma NORMALIZE_normalized inp c : normalized c -> NORMALIZE inp c = Some c.
Proof.
  unfold normalized, NORMALIZE. intros Hn. change kTopValue with (2 ^ 24).
  by destruct (Z.ltb_spec (range c) (2 ^ 24)); [lia|].
Qed.

(** A checked normalisation that does not stop is a normalisation. *)
Lemma NORMALIZE_CHECK_inr inp lim c c' :
  NORMALIZE_CHECK inp lim c = Some (inr c') -> NORMALIZE inp c = Some c'.
Proof.
  unfold NORMALIZE_CHECK, NORMALIZE. destruct (range c <? kTopValue); [|by intros [= <-]].
  destruct (lim <=? buf c); [done|]. destruct (rd inp (buf c)); [|done]. by intros [= <-].
Qed.

Lemma UPDATE_0_ok {m} p x c :
  rc_ok m c -> normalized c -> p < m -> rd (probs c) p = Some x ->
  exists c', UPDATE_0 p x (bound_of c x) c = Some c' /\ rc_ok m c' /\
    range c' = bound_of c x /\ code c' = code c /\ buf c' = buf c /\
    probs c' = <[Z.to_nat p := x + ((kBitModelTotal - x) >>> kNumMoveBits)]> (probs c).
Proof.
  intros [Hp Hr Hc Hb] Hn Hpm Hx. pose proof (rd_range _ _ _ Hx).
  pose proof (proj2 Hp _ _ Hpm Hx) as Hok. unfold UPDATE_0. rewrite wrz_Some by done. opt.
  eexists. split; [done|].
  destruct (bound_split c x Hn) as (H1 & H2 & H3 & H4); [lia|done|].
  split; [constructor; cbn; try lia; apply probs_ok_insert; (lia || done || by apply prob_up)|done].
Qed.

Lemma UPDATE_1_ok {m} p x c :
  rc_ok m c -> normalized c -> p < m -> rd (probs c) p = Some x -> bound_of c x <= code c ->
  exists c', UPDATE_1 p x (bound_of c x) c = Some c' /\ rc_ok m c' /\
    range c' = range c - bound_of c x /\ code c' = code c - bound_of c x /\ buf c' = buf c /\
    probs c' = <[Z.to_nat p := x - (x >>> kNumMoveBits)]> (probs c).
Proof.
  intros [Hp Hr Hc Hb] Hn Hpm Hx Hle. pose proof (rd_range _ _ _ Hx).
  pose proof (proj2 Hp _ _ Hpm Hx) as Hok. unfold UPDATE_1. rewrite wrz_Some by done. opt.
  destruct (bound_split c x Hn) as (H1 & H2 & H3 & H4); [lia|done|].
  unfold wrap at 1 2. rewrite !Z.mod_small by lia.
  eexists. split; [done|].
  split; [constructor; cbn; try lia; apply probs_ok_insert; (lia || done || by apply prob_down)|done].
Qed.

(** ** Input per symbol

    Every modelled bit divides the range by at most 67, every direct bit by at
    most 2049/1024, and every byte of input multiplies it by 256. *)
Definition Budget (s : Z) (i j : nat) (c : rc) : Prop :=
  s <= buf c /\
  2 ^ 24 * 256 ^ (buf c - s) * 1024 ^ Z.of_nat j
  <= range c * 67 ^ Z.of_nat i * 2049 ^ Z.of_nat j.

Lemma budget_init c : normalized c -> Budget (buf c) 0 0 c.
Proof. unfold normalized, Budget. intros. rewrite Z.sub_diag. simpl Z.of_nat. lia. Qed.

(** Within the paths of a symbol, a pending shift is at most the 20th. *)
Lemma fits_bytes i j m :
  fits i j -> 0 <= m -> 256 ^ m * 1024 ^ Z.of_nat j < 67 ^ Z.of_nat i * 2049 ^ Z.of_nat j -> m < 20.
Proof.
  intros Hf Hm Hlt. destruct (Z.lt_ge_cases m 20) as [|Hge]; [done|exfalso].
  assert (256 ^ 20 <= 256 ^ m) by (apply Z.pow_le_mono_r; lia).
  assert (67 ^ Z.of_nat i * 2049 ^ Z.of_nat j <= 256 ^ 20 * 1024 ^ Z.of_nat j) as Hle; [|nia].
  destruct Hf as [[Hi Hj]|[Hi ->]].
  - assert (67 ^ Z.of_nat i <= 67 ^ 22) by (apply Z.pow_le_mono_r; lia).
    assert (67 ^ 22 * 2049 ^ Z.of_nat j <= 256 ^ 20 * 1024 ^ Z.of_nat j); [|nia].
    assert (forall k, (k <= 26)%nat ->
      67 ^ 22 * 2049 ^ Z.of_nat (26 - k) * 1024 ^ Z.of_nat k
      <= 256 ^ 20 * 1024 ^ Z.of_nat (26 - k) * 1024 ^ Z.of_nat k) as Hk.
    { intros k. induction k as [|k IH]; intros Hk; [vm_compute; discriminate|].
      specialize (IH ltac:(lia)). replace (26 - k)%nat with (S (26 - S k)) in IH by lia.
      rewrite !Nat2Z.inj_succ, !Z.pow_succ_r in * by lia.
      set (X := 67 ^ 22) in *. set (Y := 256 ^ 20) in *.
      set (a := 2049 ^ Z.of_nat (26 - S k)) in *. set (b := 1024 ^ Z.of_nat (26 - S k)) in *.
      set (d := 1024 ^ Z.of_nat k) in *. assert (0 < a /\ 0 < d) by (split; apply Z.pow_pos_nonneg; lia).
      assert (0 < X) by reflexivity. nia. }
    specialize (Hk (26 - j)%nat ltac:(lia)). replace (26 - (26 - j))%nat with j in Hk by lia.
    apply Z.mul_le_mono_pos_r in Hk; [done|]. apply Z.pow_pos_nonneg; lia.
  - change (Z.of_nat 0) with 0. rewrite !Z.pow_0_r, !Z.mul_1_r.
    assert (67 ^ Z.of_nat i <= 67 ^ 23) by (apply Z.pow_le_mono_r; lia).
    assert (67 ^ 23 <= 256 ^ 20) by (vm_compute; discriminate). lia.
Qed.

Lemma budget_shift s i j c :
  Budget s i j c -> fits i j -> range c < 2 ^ 24 -> 0 < range c -> buf c - s < 20.
Proof.
  intros [Hs Hb] Hf Hlt Hpos. apply (fits_bytes i j); [done|lia|].
  assert (0 < 67 ^ Z.of_nat i * 2049 ^ Z.of_nat j).
  { apply Z.mul_pos_pos; apply Z.pow_pos_nonneg; lia. }
  set (X := 67 ^ Z.of_nat i) in *. set (Y := 2049 ^ Z.of_nat j) in *.
  set (P := 256 ^ (buf c - s)) in *. set (R := 1024 ^ Z.of_nat j) in *. nia.
Qed.

(** After the last shift too, at most 20 bytes. *)
Lemma budget_20 {m} s i j c : Budget s i j c -> fits i j -> rc_ok m c -> normalized c -> buf c - s <= 20.
Proof.
  intros [Hs Hb] Hf Hok Hn. destruct (Z.le_gt_cases (buf c - s) 20) as [|Hgt]; [done|].
  enough (buf c - s - 1 < 20) by lia. apply (fits_bytes i j); [done|lia|].
  pose proof (ok_range _ Hok).
  replace (buf c - s) with (Z.succ (buf c - s - 1)) in Hb by lia. rewrite Z.pow_succ_r in Hb by lia.
  assert (0 < 67 ^ Z.of_nat i * 2049 ^ Z.of_nat j).
  { apply Z.mul_pos_pos; apply Z.pow_pos_nonneg; lia. }
  set (X := 67 ^ Z.of_nat i) in *. set (Y := 2049 ^ Z.of_nat j) in *.
  set (P := 256 ^ (buf c - s - 1)) in *. set (R := 1024 ^ Z.of_nat j) in *. nia.
Qed.

Lemma budget_normalize s i j c c' :
  Budget s i j c ->
  (c' = c) \/ (range c < 2 ^ 24 /\ buf c' = buf c + 1 /\ range c' = range c * 256) ->
  Budget s i j c'.
Proof.
  intros Hb [->|(_ & Hbuf & Hr)]; [done|]. destruct Hb as [Hs Hb]. split; [lia|].
  rewrite Hbuf, Hr. replace (buf c + 1 - s) with (Z.succ (buf c - s)) by lia.
  rewrite Z.pow_succ_r by lia. nia.
Qed.

Lemma budget_bit s i j c c' :
  Budget s i j c -> buf c' = buf c -> range c <= 67 * range c' -> Budget s (S i) j c'.
Proof.
  intros [Hs Hb] Hbuf Hr. split; [lia|]. rewrite Hbuf, Nat2Z.inj_succ, Z.pow_succ_r by lia.
  assert (0 < 67 ^ Z.of_nat i * 2049 ^ Z.of_nat j).
  { apply Z.mul_pos_pos; apply Z.pow_pos_nonneg; lia. }
  set (X := 67 ^ Z.of_nat i) in *. set (Y := 2049 ^ Z.of_nat j) in *. nia.
Qed.

Lemma budget_direct s i j c c' :
  Budget s i j c -> buf c' = buf c -> 1024 * range c <= 2049 * range c' -> Budget s i (S j) c'.
Proof.
  intros [Hs Hb] Hbuf Hr. split; [lia|]. rewrite Hbuf, Nat2Z.inj_succ, !Z.pow_succ_r by lia.
  assert (0 < 67 ^ Z.of_nat i * 2049 ^ Z.of_nat j).
  { apply Z.mul_pos_pos; apply Z.pow_pos_nonneg; lia. }
  set (X := 67 ^ Z.of_nat i) in *. set (Y := 2049 ^ Z.of_nat j) in *. nia.
Qed.

Lemma direct_real_ok {m} c t c' :
  rc_ok m c -> normalized c -> direct_real c = (t, c') ->
  rc_ok m c' /\ buf c' = buf c /\ probs c' = probs c /\ 1024 * range c <= 2049 * range c' /\
  (t = 0 \/ t = 2 ^ 32 - 1) /\ direct_dummy c = c'.
Proof.
  intros [Hp Hr Hc Hb] Hn Hd. unfold normalized in Hn. unfold direct_real in Hd.
  injection Hd as Ht Hc'. unfold direct_dummy.
  assert (range c >>> 1 = range c / 2) as Hr2 by (by rewrite Z.shiftr_div_pow2 by lia).
  rewrite Hr2 in *. set (r := range c / 2) in *.
  pose proof (Z.div_mod (range c) 2 ltac:(lia)) as Hdm.
  pose proof (Z.mod_pos_bound (range c) 2 ltac:(lia)). fold r in Hdm.
  assert (0 <= u32 (code c - r) < 2 ^ 32) as Hw by (apply Z.mod_pos_bound; lia).
  assert (u32 (code c - r) >>> 31 = 0 \/ u32 (code c - r) >>> 31 = 1) as Htop.
  { rewrite Z.shiftr_div_pow2 by lia.
    assert (0 <= u32 (code c - r) / 2 ^ 31 < 2); [|lia].
    split; [apply Z.div_pos; lia|apply Z.div_lt_upper_bound; lia]. }
  assert (r &&& (2 ^ 32 - 1) = r) as Hmask by (rewrite land_ones_mod by lia; apply Z.mod_small; lia).
  assert (u32 (0 - 0) = 0 /\ u32 (0 - 1) = 2 ^ 32 - 1 /\ u32 (1 - 1) = 0) as (E0 & E1 & E2) by done.
  destruct Htop as [Htop|Htop]; rewrite Htop in *.
  - rewrite E0 in *. change (u32 (0 - 1)) with (2 ^ 32 - 1) in *.
    rewrite Z.land_0_r, Z.add_0_r in Hc'. rewrite Hmask. subst t.
    rewrite (wrap_wrap 32) in Hc' by lia. rewrite Hc'. subst c'. cbn.
    split_and!; try done; [constructor; cbn; try done; lia|lia|by left].
  - rewrite E1, E2 in *. rewrite Z.land_0_r, Z.sub_0_r. subst t. rewrite Hmask in Hc'.
    assert (u32 (u32 (code c - r) + r) = u32 (code c)) as Hback.
    { unfold wrap. rewrite Zplus_mod_idemp_l. f_equal. lia. }
    assert (u32 (code c) = code c) as Hcc by (by apply wrap_small).
    rewrite Hback, Hcc in Hc'. rewrite Hcc, Hc'. subst c'. cbn.
    split_and!; try done; [constructor; cbn; try done; lia|lia|by right].
Qed.

(** ** Reading a whole tree *)

Section Run.
Context (inp : list Z) (n : Z).
Hypothesis inp_bytes : bytes inp.

(** No access out of range, and no more than 20 bytes from a normalized start,
    when the input has them. *)
Lemma run_total {A} s (t : parse A) : forall u i j Q c,
  good n u i j Q t -> rc_ok n c -> Budget s i j c -> fits i j ->
  s + 20 <= Z.of_nat (length inp) ->
  exists a c', run inp t c = Some (a, c') /\ rc_ok n c' /\ length (probs c') = length (probs c) /\
    exists u' i' j', Q u' i' j' a /\ Budget s i' j' c' /\ fits i' j'.
Proof.
  induction t as [a|p k IH|k IH|]; intros u i j Q c Hg Hok Hb Hf Hinp; cbn [good run] in *; [..|done].
  - exists a, c. split_and!; [done|done|done|]. by exists u, i, j.
  - destruct Hg as (Hp & Hu & Hf' & Hk).
    destruct (rd_Some (probs c) p) as [x Hx]; [pose proof (proj1 (ok_probs _ Hok)); lia|]. rewrite Hx. opt.
    destruct (NORMALIZE_ok inp c inp_bytes Hok) as (c1 & Hn1 & Hok1 & Hnorm & Hp1 & Hc1).
    { intros Hlt. pose proof (budget_shift _ _ _ _ Hb Hf Hlt). pose proof (ok_range _ Hok). lia. }
    rewrite Hn1. opt. pose proof (budget_normalize _ _ _ _ _ Hb Hc1) as Hb1.
    rewrite <-Hp1 in Hx. pose proof (proj2 (ok_probs _ Hok1) _ _ (proj2 Hp) Hx) as Hxo.
    pose proof (ok_range _ Hok1) as Hr1.
    destruct (bound_split c1 x Hnorm) as (H1 & H2 & H3 & H4); [lia|done|].
    destruct (Z.ltb_spec (code c1) (bound_of c1 x)) as [Hlt|Hge].
    + destruct (UPDATE_0_ok p x c1 Hok1 Hnorm (proj2 Hp) Hx) as (c2 & -> & Hok2 & Hr2 & _ & Hb2 & Hp2). opt.
      destruct (IH false _ _ _ _ c2 (Hk false)) as (a & c' & Hrun & Hok' & Hl' & Hq); try done.
      * apply (budget_bit _ _ _ c1); [done|done|]. by rewrite Hr2.
      * exists a, c'. split_and!; try done. by rewrite Hl', Hp2, length_insert, Hp1.
    + destruct (UPDATE_1_ok p x c1 Hok1 Hnorm (proj2 Hp) Hx Hge) as (c2 & -> & Hok2 & Hr2 & _ & Hb2 & Hp2). opt.
      destruct (IH true _ _ _ _ c2 (Hk true)) as (a & c' & Hrun & Hok' & Hl' & Hq); try done.
      * apply (budget_bit _ _ _ c1); [done|done|]. by rewrite Hr2.
      * exists a, c'. split_and!; try done. by rewrite Hl', Hp2, length_insert, Hp1.
  - destruct Hg as (Hf' & Hk).
    destruct (NORMALIZE_ok inp c inp_bytes Hok) as (c1 & Hn1 & Hok1 & Hnorm & Hp1 & Hc1).
    { intros Hlt. pose proof (budget_shift _ _ _ _ Hb Hf Hlt). pose proof (ok_range _ Hok). lia. }
    rewrite Hn1. opt. pose proof (budget_normalize _ _ _ _ _ Hb Hc1) as Hb1.
    destruct (direct_real c1) as [t c2] eqn:Hd.
    destruct (direct_real_ok _ _ _ Hok1 Hnorm Hd) as (Hok2 & Hb2 & Hp2 & Hr2 & Ht & _).
    destruct (IH t _ _ _ _ c2 (Hk t Ht)) as (a & c' & Hrun & Hok' & Hl' & Hq); try done.
    + by apply (budget_direct _ _ _ c1).
    + exists a, c'. split_and!; try done. by rewrite Hl', Hp2, Hp1.
Qed.

(** ** The reader that checks *)

(** A checked shift that stops found the input at an end. *)
Lemma NORMALIZE_CHECK_spec lim c :
  lim <= Z.of_nat (length inp) -> rc_ok n c ->
  (NORMALIZE_CHECK inp lim c = Some (inl tt) /\ range c < 2 ^ 24 /\ lim <= buf c) \/
  (exists c', NORMALIZE_CHECK inp lim c = Some (inr c') /\ rc_ok n c' /\ normalized c' /\
     probs c' = probs c /\ (range c < 2 ^ 24 -> buf c < lim) /\
     ((c' = c) \/ (range c < 2 ^ 24 /\ buf c' = buf c + 1 /\ range c' = range c * 256))).
Proof.
  intros Hl Hok. unfold NORMALIZE_CHECK. change kTopValue with (2 ^ 24).
  destruct (Z.ltb_spec (range c) (2 ^ 24)) as [Hlt|Hge].
  - destruct (Z.leb_spec lim (buf c)) as [Hle|Hgt]; [by left|right].
    destruct (rd_Some inp (buf c)) as [b Hrd]; [pose proof (ok_buf _ Hok); lia|].
    rewrite Hrd. opt. destruct (shift_in_ok b c Hok Hlt) as (H1 & H2 & H3).
    { exact (rd_Forall _ _ _ _ inp_bytes Hrd). }
    eexists. split; [done|]. split_and!; [done|done|done|done|right]. done.
  - right. exists c. split_and!; [done|done|exact Hge|done|lia|by left].
Qed.

Lemma set_range_ok c r k :
  rc_ok n c -> 2 ^ 16 <= r < 2 ^ 32 -> 0 <= k < 2 ^ 32 -> rc_ok n (set_range r k c).
Proof. intros [] ? ?. by constructor. Qed.

Lemma run_check_spec {A} lim (t : parse A) : forall u i j Q c,
  good n u i j Q t -> rc_ok n c -> fits i j ->
  lim <= Z.of_nat (length inp) ->
  exists r, run_check inp lim t c = Some r /\
    match r with
    | inl _ => forall s, Budget s i j c -> lim < s + 20
    | inr (a, c') => rc_ok n c' /\ probs c' = probs c /\ buf c <= buf c' /\
        exists u' i' j', Q u' i' j' a /\ fits i' j' /\ forall s, Budget s i j c -> Budget s i' j' c'
    end.
Proof.
  induction t as [a|p k IH|k IH|]; intros u i j Q c Hg Hok Hf Hl; cbn [good run_check] in *; [..|done].
  - eexists. split; [done|]. cbn. split_and!; [done|done|lia|]. by exists u, i, j.
  - destruct Hg as (Hp & Hu & Hf' & Hk).
    destruct (rd_Some (probs c) p) as [x Hx]; [pose proof (proj1 (ok_probs _ Hok)); lia|]. rewrite Hx. opt.
    destruct (NORMALIZE_CHECK_spec lim c Hl Hok)
      as [(-> & Hlt & Hend)|(c1 & -> & Hok1 & Hnorm & Hp1 & _ & Hc1)]; opt.
    { eexists. split; [done|]. intros s Hb. pose proof (budget_shift _ _ _ _ Hb Hf Hlt).
      pose proof (ok_range _ Hok). lia. }
    rewrite <-Hp1 in Hx. pose proof (proj2 (ok_probs _ Hok1) _ _ (proj2 Hp) Hx) as Hxo.
    pose proof (ok_range _ Hok1) as Hr1. pose proof (ok_code _ Hok1) as Hk1.
    destruct (bound_split c1 x Hnorm) as (H1 & H2 & H3 & H4); [lia|done|].
    assert (forall b c2, rc_ok n c2 -> probs c2 = probs c1 -> buf c2 = buf c1 ->
      range c1 <= 67 * range c2 ->
      exists r, run_check inp lim (k b) c2 = Some r /\
        match r with
        | inl _ => forall s, Budget s i j c -> lim < s + 20
        | inr (a, c') => rc_ok n c' /\ probs c' = probs c /\ buf c <= buf c' /\
            exists u' i' j', Q u' i' j' a /\ fits i' j' /\
              forall s, Budget s i j c -> Budget s i' j' c'
        end) as Hnext.
    { intros b c2 Hok2 Hp2 Hb2 Hr2.
      destruct (IH b _ _ _ _ c2 (Hk b)) as (r & Hrun & Hr); try done.
      exists r. split; [done|]. assert (forall s, Budget s i j c -> Budget s (S i) j c2) as Hbud.
      { intros s Hb. apply (budget_bit _ _ _ c1); [by apply (budget_normalize _ _ _ c)|done|done]. }
      destruct r as [|[a c']]; [by auto|].
      destruct Hr as (Hok' & Hp' & Hb' & u' & i' & j' & HQ & Hf2 & Hbud').
      split_and!; [done|congruence|destruct Hc1 as [->|]; lia|].
      exists u', i', j'. auto. }
    destruct (Z.ltb_spec (code c1) (bound_of c1 x)) as [Hlt|Hge]; apply Hnext; try done.
    + apply set_range_ok; [done|lia|lia].
    + unfold wrap. rewrite !Z.mod_small by lia. apply set_range_ok; [done|lia|lia].
    + cbn. unfold wrap. rewrite Z.mod_small by lia. done.
  - destruct Hg as (Hf' & Hk).
    destruct (NORMALIZE_CHECK_spec lim c Hl Hok)
      as [(-> & Hlt & Hend)|(c1 & -> & Hok1 & Hnorm & Hp1 & _ & Hc1)]; opt.
    { eexists. split; [done|]. intros s Hb. pose proof (budget_shift _ _ _ _ Hb Hf Hlt).
      pose proof (ok_range _ Hok). lia. }
    destruct (direct_real c1) as [t c2] eqn:Hd.
    destruct (direct_real_ok _ _ _ Hok1 Hnorm Hd) as (Hok2 & Hb2 & Hp2 & Hr2 & Ht & ->). cbn [fst].
    destruct (IH t _ _ _ _ c2 (Hk t Ht)) as (r & Hrun & Hr); try done.
    exists r. split; [done|]. assert (forall s, Budget s i j c -> Budget s i (S j) c2) as Hbud.
    { intros s Hb. apply (budget_direct _ _ _ c1); [by apply (budget_normalize _ _ _ c)|done|done]. }
    destruct r as [|[a c']]; [by auto|].
    destruct Hr as (Hok' & Hp' & Hb' & u' & i' & j' & HQ & Hf2 & Hbud').
    split_and!; [done|congruence|destruct Hc1 as [->|]; lia|].
    exists u', i', j'. auto.
Qed.

(** ** The two readers agree

    [rel u]: the same coder, and probabilities that differ at most at the
    indices [u] already used. *)
Definition rel (u : list Z) (c d : rc) : Prop :=
  range c = range d /\ code c = code d /\ buf c = buf d /\
  length (probs c) = length (probs d) /\
  forall p, p ∉ u -> rd (probs c) p = rd (probs d) p.

Lemma NORMALIZE_inv c c' :
  rc_ok n c -> NORMALIZE inp c = Some c' -> rc_ok n c' /\ normalized c' /\ probs c' = probs c.
Proof.
  intros Hok. unfold NORMALIZE. change kTopValue with (2 ^ 24).
  destruct (Z.ltb_spec (range c) (2 ^ 24)) as [Hlt|Hge].
  - destruct (rd inp (buf c)) as [b|] eqn:Hrd; [|done]. cbn. intros [= <-].
    destruct (shift_in_ok b c Hok Hlt) as (H1 & H2 & _); [|done].
    exact (rd_Forall _ _ _ _ inp_bytes Hrd).
  - intros [= <-]. done.
Qed.

Lemma NORMALIZE_rel u c d d' :
  rel u c d -> NORMALIZE inp d = Some d' -> exists c', NORMALIZE inp c = Some c' /\ rel u c' d'.
Proof.
  intros (Hr & Hk & Hb & Hl & Hp). unfold NORMALIZE. rewrite Hr, Hb.
  destruct (range d <? kTopValue).
  - destruct (rd inp (buf d)) as [b|]; [|done]. cbn. intros [= <-]. eexists. split; [done|].
    unfold rel, shift_in. cbn. by rewrite Hr, Hk, Hb.
  - intros [= <-]. by exists c.
Qed.

Lemma run_check_run {A B} (f : A -> B -> Prop) lim (td : parse A) : forall (tr : parse B) u i j Q c d a d',
  shape f td tr -> good n u i j Q tr -> rel u c d -> rc_ok n c ->
  run_check inp lim td d = Some (inr (a, d')) -> lim <= Z.of_nat (length inp) ->
  exists b c', run inp tr c = Some (b, c') /\ f a b /\ rc_ok n c' /\
    length (probs c') = length (probs c) /\ exists u' i' j', Q u' i' j' b /\ rel u' c' d'.
Proof.
  induction td as [a0|p k IH|k IH|]; intros [b0|p' k'|k'|] u i j Q c d a d' Hs Hg Hrel Hok Hrun Hl;
    cbn [shape good run run_check] in *; try done.
  - injection Hrun as <- <-. exists b0, c. split_and!; try done. by exists u, i, j.
  - destruct Hs as [-> Hs]. destruct Hg as (Hp & Hu & Hf' & Hk).
    pose proof Hrel as (_ & _ & _ & _ & Hpr). rewrite (Hpr p' Hu).
    destruct (rd (probs d) p') as [x|] eqn:Hx; [|done]. cbn [mbind option_bind] in *.
    destruct (NORMALIZE_CHECK inp lim d) as [[[]|d1]|] eqn:Hn; cbn [mbind option_bind] in Hrun; try done.
    apply NORMALIZE_CHECK_inr in Hn as Hnd. destruct (NORMALIZE_rel u c d d1 Hrel Hnd) as (c1 & Hc1 & Hrel1).
    rewrite Hc1. cbn [mbind option_bind].
    destruct (NORMALIZE_inv c c1 Hok Hc1) as (Hok1 & Hnorm & Hp1).
    assert (rd (probs c1) p' = Some x) as Hx1 by (rewrite Hp1, (Hpr p' Hu); exact Hx).
    pose proof Hrel1 as (Hr1 & Hk1 & Hb1 & Hl1 & Hpr1).
    assert (bound_of d1 x = bound_of c1 x) as Hbd by (unfold bound_of; by rewrite Hr1).
    assert (forall b c2 d2, rc_ok n c2 -> length (probs c2) = length (probs c1) ->
      (forall q, q <> p' -> rd (probs c2) q = rd (probs c1) q) -> probs d2 = probs d1 ->
      range c2 = range d2 -> code c2 = code d2 -> buf c2 = buf d2 ->
      run_check inp lim (k b) d2 = Some (inr (a, d')) ->
      exists b' c', run inp (k' b) c2 = Some (b', c') /\ f a b' /\ rc_ok n c' /\
        length (probs c') = length (probs c) /\ exists u' i' j', Q u' i' j' b' /\ rel u' c' d')
      as Hnext.
    { intros b c2 d2 Hok2 Hl2 Hq2 Hpd Hr2 Hk2 Hb2 Hrun2.
      destruct (IH b (k' b) (p' :: u) (S i) j Q c2 d2 a d') as (b' & c' & H1 & H2 & H3 & H4 & H5); try done.
      - split_and!; try done; [congruence|]. intros q Hq. apply not_elem_of_cons in Hq as [Hqp Hqu].
        by rewrite Hq2, Hpd, Hpr1.
      - exists b', c'. split_and!; try done. congruence. }
    rewrite Hbd, <-Hk1 in Hrun. pose proof (rd_range _ _ _ Hx1).
    destruct (Z.ltb_spec (code c1) (bound_of c1 x)) as [Hlt|Hge].
    + destruct (UPDATE_0_ok p' x c1 Hok1 Hnorm (proj2 Hp) Hx1) as (c2 & -> & Hok2 & Hr2 & Hk2 & Hb2 & Hp2).
      cbn [mbind option_bind].
      apply (Hnext false c2 (set_range (bound_of c1 x) (code c1) d1)); cbn; try done; try congruence.
      * by rewrite Hp2, length_insert.
      * intros q Hq. rewrite Hp2. apply rd_insert_ne; [lia|congruence].
    + destruct (UPDATE_1_ok p' x c1 Hok1 Hnorm (proj2 Hp) Hx1 Hge) as (c2 & -> & Hok2 & Hr2 & Hk2 & Hb2 & Hp2).
      cbn [mbind option_bind]. pose proof (ok_range _ Hok2). pose proof (ok_code _ Hok2).
      apply (Hnext true c2 (set_range (u32 (range d1 - bound_of c1 x))
                              (u32 (code c1 - bound_of c1 x)) d1)); cbn; try done; try congruence.
      * by rewrite Hp2, length_insert.
      * intros q Hq. rewrite Hp2. apply rd_insert_ne; [lia|congruence].
      * rewrite <-Hr1, <-Hr2. symmetry. apply wrap_small; unfold in_width; lia.
      * rewrite <-Hk2. symmetry. apply wrap_small; unfold in_width; lia.
  - destruct Hg as (Hf' & Hk).
    destruct (NORMALIZE_CHECK inp lim d) as [[[]|d1]|] eqn:Hn; cbn [mbind option_bind] in Hrun; try done.
    apply NORMALIZE_CHECK_inr in Hn as Hnd. destruct (NORMALIZE_rel u c d d1 Hrel Hnd) as (c1 & Hc1 & Hrel1).
    rewrite Hc1. cbn [mbind option_bind].
    destruct (NORMALIZE_inv c c1 Hok Hc1) as (Hok1 & Hnorm & Hp1).
    destruct (direct_real c1) as [t c2] eqn:Hd.
    destruct (direct_real_ok _ _ _ Hok1 Hnorm Hd) as (Hok2 & Hb2 & Hp2 & Hr2 & Ht & Hdum).
    pose proof Hrel1 as (Hr1 & Hk1 & Hb1 & Hl1 & Hpr1).
    assert (fst (direct_real d1) = t) as Htd.
    { apply (f_equal fst) in Hd. cbn in Hd. rewrite <-Hd. unfold direct_real. cbn.
      by rewrite Hr1, Hk1. }
    rewrite Htd in Hrun.
    destruct (IH t (k' t) u i (S j) Q c2 (direct_dummy d1) a d')
      as (b' & c' & H1 & H2 & H3 & H4 & H5); try done; [by apply Hk| |].
    + rewrite <-Hdum. unfold rel, direct_dummy. cbn. rewrite Hr1, Hk1. by split_and!.
    + exists b', c'. split_and!; try done. congruence.
Qed.

(** ** More input

    [inp] is a prefix of what [inp2] holds up to the limit. *)
Context (inp2 : list Z) (lim lim2 : Z).
Hypothesis prefix : forall i, i < lim -> rd inp2 i = rd inp i.
Hypothesis lim_le : lim <= lim2.

Lemma NORMALIZE_CHECK_more c c' :
  NORMALIZE_CHECK inp lim c = Some (inr c') -> NORMALIZE_CHECK inp2 lim2 c = Some (inr c').
Proof.
  unfold NORMALIZE_CHECK. destruct (range c <? kTopValue); [|done].
  destruct (Z.leb_spec lim (buf c)); [done|]. destruct (Z.leb_spec lim2 (buf c)); [lia|].
  by rewrite prefix by lia.
Qed.

Lemma run_check_more {A} (t : parse A) : forall c a c',
  run_check inp lim t c = Some (inr (a, c')) -> run_check inp2 lim2 t c = Some (inr (a, c')).
Proof.
  induction t as [a0|p k IH|k IH|]; intros c a c'; cbn [run_check]; [done| | |done].
  - destruct (rd (probs c) p) as [x|]; [|done]. cbn [mbind option_bind].
    destruct (NORMALIZE_CHECK inp lim c) as [[[]|c1]|] eqn:Hn; cbn [mbind option_bind]; try done.
    rewrite (NORMALIZE_CHECK_more _ _ Hn). cbn [mbind option_bind].
    destruct (_ <? _); apply IH.
  - destruct (NORMALIZE_CHECK inp lim c) as [[[]|c1]|] eqn:Hn; cbn [mbind option_bind]; try done.
    rewrite (NORMALIZE_CHECK_more _ _ Hn). cbn [mbind option_bind]. apply IH.
Qed.

Lemma NORMALIZE_CHECK_buf inp' l c c' :
  NORMALIZE_CHECK inp' l c = Some (inr c') ->
  buf c <= buf c' /\ (NORMALIZE_CHECK inp lim c = Some (inl tt) -> lim < buf c').
Proof.
  unfold NORMALIZE_CHECK. destruct (range c <? kTopValue).
  - destruct (l <=? buf c); [done|]. destruct (rd inp' (buf c)) as [b|]; [|done].
    intros [= <-]. cbn. split; [lia|]. destruct (Z.leb_spec lim (buf c)); [lia|].
    by destruct (rd inp (buf c)).
  - intros [= <-]. split; [lia|done].
Qed.

Lemma run_check_buf {A} inp' l (t : parse A) : forall c a c',
  run_check inp' l t c = Some (inr (a, c')) -> buf c <= buf c'.
Proof.
  induction t as [a0|p k IH|k IH|]; intros c a c'; cbn [run_check]; [..|done].
  - intros [= <- <-]. lia.
  - destruct (rd (probs c) p) as [x|]; [|done]. cbn [mbind option_bind].
    destruct (NORMALIZE_CHECK inp' l c) as [[[]|c1]|] eqn:Hn; cbn [mbind option_bind]; try done.
    apply NORMALIZE_CHECK_buf in Hn as [Hn _].
    destruct (_ <? _); intros Hr; apply IH in Hr; cbn in Hr; lia.
  - destruct (NORMALIZE_CHECK inp' l c) as [[[]|c1]|] eqn:Hn; cbn [mbind option_bind]; try done.
    apply NORMALIZE_CHECK_buf in Hn as [Hn _]. intros Hr. apply IH in Hr. cbn in Hr. lia.
Qed.

(** What stopped at an end reads past it when there is more. *)
Lemma run_check_past {A} (t : parse A) : forall c a c',
  run_check inp lim t c = Some (inl tt) -> run_check inp2 lim2 t c = Some (inr (a, c')) ->
  lim < buf c'.
Proof.
  induction t as [a0|p k IH|k IH|]; intros c a c'; cbn [run_check]; [done| | |done].
  - destruct (rd (probs c) p) as [x|]; [|done]. cbn [mbind option_bind].
    destruct (NORMALIZE_CHECK inp2 lim2 c) as [[[]|c2]|] eqn:Hn2; cbn [mbind option_bind]; try done.
    destruct (NORMALIZE_CHECK inp lim c) as [[[]|c1]|] eqn:Hn; cbn [mbind option_bind]; try done.
    + intros _ Hr. apply NORMALIZE_CHECK_buf in Hn2 as [_ Hlt]. specialize (Hlt Hn).
      destruct (_ <? _); apply run_check_buf in Hr; cbn in Hr; lia.
    + rewrite (NORMALIZE_CHECK_more _ _ Hn) in Hn2. injection Hn2 as <-.
      destruct (_ <? _); apply IH.
  - destruct (NORMALIZE_CHECK inp2 lim2 c) as [[[]|c2]|] eqn:Hn2; cbn [mbind option_bind]; try done.
    destruct (NORMALIZE_CHECK inp lim c) as [[[]|c1]|] eqn:Hn; cbn [mbind option_bind]; try done.
    + intros _ Hr. apply NORMALIZE_CHECK_buf in Hn2 as [_ Hlt]. specialize (Hlt Hn).
      apply run_check_buf in Hr. cbn in Hr. lia.
    + rewrite (NORMALIZE_CHECK_more _ _ Hn) in Hn2. injection Hn2 as <-. apply IH.
Qed.

(** The checked reader never passes its limit. *)
Lemma run_check_lim {A} inp' l (t : parse A) : forall c a c',
  run_check inp' l t c = Some (inr (a, c')) -> buf c <= l -> buf c' <= l.
Proof.
  assert (forall c c', NORMALIZE_CHECK inp' l c = Some (inr c') -> buf c <= l -> buf c' <= l) as Hn.
  { intros c c'. unfold NORMALIZE_CHECK. destruct (range c <? kTopValue); [|by intros [= <-]].
    destruct (Z.leb_spec l (buf c)); [done|]. destruct (rd inp' (buf c)); [|done]. intros [= <-]. cbn. lia. }
  induction t as [a0|p k IH|k IH|]; intros c a c'; cbn [run_check]; [..|done].
  - by intros [= <- <-].
  - destruct (rd (probs c) p) as [x|]; [|done]. cbn [mbind option_bind].
    destruct (NORMALIZE_CHECK inp' l c) as [[[]|c1]|] eqn:Hc; cbn [mbind option_bind]; try done.
    intros Hr Hl. specialize (Hn _ _ Hc Hl). destruct (_ <? _); by apply IH in Hr.
  - destruct (NORMALIZE_CHECK inp' l c) as [[[]|c1]|] eqn:Hc; cbn [mbind option_bind]; try done.
    intros Hr Hl. specialize (Hn _ _ Hc Hl). by apply IH in Hr.
Qed.
End Run.

(** ** The same input at another place *)
Section Shift.
Context (inp inp2 : list Z) (lim d : Z).
Hypothesis same : forall i, 0 <= i - d -> i < lim -> rd inp2 (i - d) = rd inp i.

Definition shifted (c c2 : rc) : Prop :=
  probs c2 = probs c /\ range c2 = range c /\ code c2 = code c /\ buf c2 = buf c - d /\ 0 <= buf c2.

Lemma NORMALIZE_CHECK_shift c c2 :
  shifted c c2 ->
  match NORMALIZE_CHECK inp lim c with
  | Some (inr c') => exists c2', NORMALIZE_CHECK inp2 (lim - d) c2 = Some (inr c2') /\ shifted c' c2'
  | Some (inl tt) => NORMALIZE_CHECK inp2 (lim - d) c2 = Some (inl tt)
  | None => True
  end.
Proof.
  intros (Hp & Hr & Hc & Hb & H0). unfold NORMALIZE_CHECK. rewrite Hr, Hb.
  destruct (range c <? kTopValue).
  - destruct (Z.leb_spec lim (buf c)), (Z.leb_spec (lim - d) (buf c - d)); try lia; [done|].
    rewrite same by lia. destruct (rd inp (buf c)) as [b|]; [|done]. cbn. eexists. split; [done|].
    unfold shifted, shift_in. cbn. rewrite Hp, Hr, Hc. split_and!; try done; lia.
  - eexists. split; [done|]. by split_and!.
Qed.

Lemma run_check_shift {A} (t : parse A) : forall c c2,
  shifted c c2 ->
  match run_check inp lim t c with
  | Some (inr (a, c')) => exists c2', run_check inp2 (lim - d) t c2 = Some (inr (a, c2')) /\ shifted c' c2'
  | Some (inl tt) => run_check inp2 (lim - d) t c2 = Some (inl tt)
  | None => True
  end.
Proof.
  induction t as [a|p k IH|k IH|]; intros c c2 Hs; cbn [run_check]; [|..|done].
  - by exists c2.
  - pose proof Hs as (Hp & _). rewrite Hp. destruct (rd (probs c) p) as [x|]; [|done]. cbn [mbind option_bind].
    pose proof (NORMALIZE_CHECK_shift c c2 Hs) as Hn.
    destruct (NORMALIZE_CHECK inp lim c) as [[[]|c1]|]; cbn [mbind option_bind]; [by rewrite Hn| |done].
    destruct Hn as (c2' & -> & Hs1). cbn [mbind option_bind].
    pose proof Hs1 as (Hp1 & Hr1 & Hk1 & Hb1 & H01).
    replace (bound_of c2' x) with (bound_of c1 x) by (unfold bound_of; by rewrite Hr1).
    rewrite Hk1, Hr1. destruct (_ <? _); apply IH; by split_and!.
  - pose proof (NORMALIZE_CHECK_shift c c2 Hs) as Hn.
    destruct (NORMALIZE_CHECK inp lim c) as [[[]|c1]|]; cbn [mbind option_bind]; [by rewrite Hn| |done].
    destruct Hn as (c2' & -> & Hs1). cbn [mbind option_bind].
    pose proof Hs1 as (Hp1 & Hr1 & Hk1 & Hb1 & H01).
    replace (fst (direct_real c2')) with (fst (direct_real c1)) by (unfold direct_real; cbn; by rewrite Hr1, Hk1).
    apply IH. unfold direct_dummy, shifted. cbn. rewrite Hr1, Hk1. by split_and!.
Qed.
End Shift.

(** A tree like a good one is good. *)
Lemma good_shape_l {A B} n (f : A -> B -> Prop) (td : parse A) : forall (tr : parse B) u i j Q,
  shape f td tr -> good n u i j Q tr -> good n u i j (fun u i j a => exists b, f a b /\ Q u i j b) td.
Proof.
  induction td as [a|p k IH|k IH|]; intros [b|p' k'|k'|] u i j Q Hs Hg; cbn in *; try done.
  - by exists b.
  - destruct Hs as [-> Hs]. destruct Hg as (? & ? & ? & Hk). split_and!; try done; try lia.
    intros b. by eapply IH.
  - destruct Hg as (? & Hk). split; [done|]. intros t Ht. eapply IH; auto.
Qed.
