(* ===== verification/LzmaDec.v ===== *)
(** * LZMA decoder

    src/native/sevenzip_bridge/7z2604-src/C/LzmaDec.c and LzmaDec.h: symbols,
    the dictionary, LzmaDec_DecodeReal_3, LzmaDec_WriteRem, LzmaDec_DecodeReal2,
    LzmaDec_TryDummy, LzmaDec_InitDicAndState, LzmaDec_DecodeToDic,
    LzmaProps_Decode.

    [p->buf] is a position in the buffer it points into, which the functions
    take as the argument [inp]. *)

From stdpp Require Import base numbers list list_numbers.
From Stdlib Require Import ZArith Lia.
From S2P Require Import Prelude SzTypes LzmaParse.
Local Open Scope Z_scope.
Local Open Scope word_scope.

(** ** Layout of the probabilities *)

Definition kNumPosBitsMax : Z := 4.
Definition kNumPosStatesMax : Z := 1 <<< kNumPosBitsMax.
Definition kLenNumLowBits : Z := 3.
Definition kLenNumLowSymbols : Z := 1 <<< kLenNumLowBits.
Definition kLenNumHighBits : Z := 8.
Definition kLenNumHighSymbols : Z := 1 <<< kLenNumHighBits.
Definition LenLow : Z := 0.
Definition LenHigh : Z := LenLow + 2 * (kNumPosStatesMax <<< kLenNumLowBits).
Definition kNumLenProbs : Z := LenHigh + kLenNumHighSymbols.
Definition LenChoice : Z := LenLow.
Definition LenChoice2 : Z := LenLow + (1 <<< kLenNumLowBits).
Definition kNumStates : Z := 12.
Definition kNumStates2 : Z := 16.
Definition kNumLitStates : Z := 7.
Definition kStartPosModelIndex : Z := 4.
Definition kEndPosModelIndex : Z := 14.
Definition kNumFullDistances : Z := 1 <<< (kEndPosModelIndex >>> 1).
Definition kNumPosSlotBits : Z := 6.
Definition kNumLenToPosStates : Z := 4.
Definition kNumAlignBits : Z := 4.
Definition kAlignTableSize : Z := 1 <<< kNumAlignBits.
Definition kMatchMinLen : Z := 2.
Definition kMatchSpecLenStart : Z := kMatchMinLen + kLenNumLowSymbols * 2 + kLenNumHighSymbols.
Definition kMatchSpecLen_Error_Data : Z := 1 <<< 9.
Definition kMatchSpecLen_Error_Fail : Z := kMatchSpecLen_Error_Data - 1.
Definition RC_INIT_SIZE : Z := 5.

Definition kStartOffset : Z := 1664.
Definition SpecPos : Z := - kStartOffset.
Definition IsRep0Long : Z := SpecPos + kNumFullDistances.
Definition RepLenCoder : Z := IsRep0Long + (kNumStates2 <<< kNumPosBitsMax).
Definition LenCoder : Z := RepLenCoder + kNumLenProbs.
Definition IsMatch : Z := LenCoder + kNumLenProbs.
Definition Align : Z := IsMatch + (kNumStates2 <<< kNumPosBitsMax).
Definition IsRep : Z := Align + kAlignTableSize.
Definition IsRepG0 : Z := IsRep + kNumStates.
Definition IsRepG1 : Z := IsRepG0 + kNumStates.
Definition IsRepG2 : Z := IsRepG1 + kNumStates.
Definition PosSlot : Z := IsRepG2 + kNumStates.
Definition Literal : Z := PosSlot + (kNumLenToPosStates <<< kNumPosSlotBits).
Definition NUM_BASE_PROBS : Z := Literal + kStartOffset.
Definition LZMA_LIT_SIZE : Z := 0x300.

Example Align_is_0 : Align = 0.
Proof. reflexivity. Qed.
Example NUM_BASE_PROBS_is_1984 : NUM_BASE_PROBS = 1984.
Proof. reflexivity. Qed.

(** ** Data *)

Record CLzmaProps := { lc : Z; lp : Z; pb : Z; dicSize : Z }.

Definition LzmaProps_GetNumProbs (p : CLzmaProps) : Z :=
  NUM_BASE_PROBS + (LZMA_LIT_SIZE <<< (lc p + lp p)).

(** [range], [code], [probs] and [buf] are the coder. *)
Record CLzmaDec := {
  prop : CLzmaProps;
  coder : rc;
  dic : list Z;
  dicPos : Z;
  processedPos : Z;
  checkDicSize : Z;
  rep0 : Z; rep1 : Z; rep2 : Z; rep3 : Z;
  state : Z;
  remainLen : Z;
  tempBufSize : Z;
  tempBuf : list Z
}.

Definition dicBufSize (p : CLzmaDec) : Z := Z.of_nat (length (dic p)).

Definition set_coder (c : rc) (p : CLzmaDec) : CLzmaDec :=
  {| prop := prop p; coder := c; dic := dic p; dicPos := dicPos p;
     processedPos := processedPos p; checkDicSize := checkDicSize p;
     rep0 := rep0 p; rep1 := rep1 p; rep2 := rep2 p; rep3 := rep3 p;
     state := state p; remainLen := remainLen p;
     tempBufSize := tempBufSize p; tempBuf := tempBuf p |}.
Definition set_dic (l : list Z) (pos processed : Z) (p : CLzmaDec) : CLzmaDec :=
  {| prop := prop p; coder := coder p; dic := l; dicPos := pos;
     processedPos := processed; checkDicSize := checkDicSize p;
     rep0 := rep0 p; rep1 := rep1 p; rep2 := rep2 p; rep3 := rep3 p;
     state := state p; remainLen := remainLen p;
     tempBufSize := tempBufSize p; tempBuf := tempBuf p |}.
Definition set_check (n : Z) (p : CLzmaDec) : CLzmaDec :=
  {| prop := prop p; coder := coder p; dic := dic p; dicPos := dicPos p;
     processedPos := processedPos p; checkDicSize := n;
     rep0 := rep0 p; rep1 := rep1 p; rep2 := rep2 p; rep3 := rep3 p;
     state := state p; remainLen := remainLen p;
     tempBufSize := tempBufSize p; tempBuf := tempBuf p |}.
Definition set_state (s r0 r1 r2 r3 : Z) (p : CLzmaDec) : CLzmaDec :=
  {| prop := prop p; coder := coder p; dic := dic p; dicPos := dicPos p;
     processedPos := processedPos p; checkDicSize := checkDicSize p;
     rep0 := r0; rep1 := r1; rep2 := r2; rep3 := r3; state := s; remainLen := remainLen p;
     tempBufSize := tempBufSize p; tempBuf := tempBuf p |}.
Definition set_remain (n : Z) (p : CLzmaDec) : CLzmaDec :=
  {| prop := prop p; coder := coder p; dic := dic p; dicPos := dicPos p;
     processedPos := processedPos p; checkDicSize := checkDicSize p;
     rep0 := rep0 p; rep1 := rep1 p; rep2 := rep2 p; rep3 := rep3 p;
     state := state p; remainLen := n;
     tempBufSize := tempBufSize p; tempBuf := tempBuf p |}.
Definition set_temp (n : Z) (l : list Z) (p : CLzmaDec) : CLzmaDec :=
  {| prop := prop p; coder := coder p; dic := dic p; dicPos := dicPos p;
     processedPos := processedPos p; checkDicSize := checkDicSize p;
     rep0 := rep0 p; rep1 := rep1 p; rep2 := rep2 p; rep3 := rep3 p;
     state := state p; remainLen := remainLen p; tempBufSize := n; tempBuf := l |}.

Inductive ELzmaFinishMode := LZMA_FINISH_ANY | LZMA_FINISH_END.
Inductive ELzmaStatus :=
  | LZMA_STATUS_NOT_SPECIFIED | LZMA_STATUS_FINISHED_WITH_MARK | LZMA_STATUS_NOT_FINISHED
  | LZMA_STATUS_NEEDS_MORE_INPUT | LZMA_STATUS_MAYBE_FINISHED_WITHOUT_MARK.
Inductive ELzmaDummy := DUMMY_INPUT_EOF | DUMMY_LIT | DUMMY_MATCH | DUMMY_REP.

(** ** Bit trees *)

Definition P (off : Z) : parse bool := IF_BIT (kStartOffset + off).

Definition TREE_GET_BIT (base i : Z) : parse Z :=
  b ← P (base + i); mret (if (b : bool) then i + i + 1 else i + i).

(** [n] bits of a tree: NORMAL_LITER_DEC 8 times, TREE_6_DECODE, the unrolled
    length trees. *)
Fixpoint tree_bits (n : nat) (base i : Z) : parse Z :=
  match n with
  | O => mret i
  | S n => i ← TREE_GET_BIT base i; tree_bits n base i
  end.

(** [do { TREE_GET_BIT } while (i < limit)], at most [S fuel] turns. *)
Fixpoint TREE_LOOP (fuel : nat) (base limit i : Z) : parse Z :=
  i ← TREE_GET_BIT base i;
  match fuel with
  | O => mret i
  | S fuel => if i <? limit then TREE_LOOP fuel base limit i else mret i
  end.

Definition TREE_DECODE (base limit : Z) : parse Z :=
  i ← TREE_LOOP 7 base limit 1; mret (i - limit).

Definition TREE_6_DECODE (base : Z) : parse Z := i ← tree_bits 6 base 1; mret (i - 0x40).

(** [n] turns of REV_BIT_VAR. *)
Fixpoint rev_bits (n : nat) (base i m : Z) : parse (Z * Z) :=
  match n with
  | O => mret (i, m)
  | S n =>
      b ← P (base + i);
      if (b : bool) then let m := m + m in rev_bits n base (i + m) m
      else rev_bits n base (i + m) (m + m)
  end.

Definition REV_BIT_CONST (base i m : Z) : parse Z :=
  b ← P (base + i); mret (if (b : bool) then i + m * 2 else i + m).

Definition REV_BIT_LAST (base i m : Z) : parse Z :=
  b ← P (base + i); mret (if (b : bool) then i else i - m).

(** [n] turns of MATCHED_LITER_DEC. *)
Fixpoint matched_bits (n : nat) (base matchByte offs symbol : Z) : parse Z :=
  match n with
  | O => mret symbol
  | S n =>
      let matchByte := matchByte + matchByte in
      let bit := offs in
      let offs := offs &&& matchByte in
      b ← P (base + (offs + bit + symbol));
      if (b : bool) then matched_bits n base matchByte offs (symbol + symbol + 1)
      else matched_bits n base matchByte (offs ^^^ bit) (symbol + symbol)
  end.

(** ** Symbols, as DecodeReal reads them *)

Definition CALC_POS_STATE (processedPos pbMask : Z) : Z := (processedPos &&& pbMask) <<< 4.

Definition pbMask (p : CLzmaDec) : Z := (1 <<< pb (prop p)) - 1.

Definition posState (p : CLzmaDec) : Z := CALC_POS_STATE (processedPos p) (pbMask p).

(** The byte before the current position, and the byte at distance [rep0]. *)
Definition prev_byte (p : CLzmaDec) : option Z :=
  rd (dic p) ((if dicPos p =? 0 then dicBufSize p else dicPos p) - 1).

Definition rep_pos (p : CLzmaDec) : Z :=
  u64 (dicPos p - rep0 p + (if dicPos p <? rep0 p then dicBufSize p else 0)).

Definition match_byte (p : CLzmaDec) : option Z := rd (dic p) (rep_pos p).

Definition lpMask (p : CLzmaDec) : Z := (0x100 <<< lp (prop p)) - (0x100 >>> lc (prop p)).

Definition real_literal (p : CLzmaDec) : parse Z :=
  if negb (processedPos p =? 0) || negb (checkDicSize p =? 0) then
    prev ← access (prev_byte p);
    mret (Literal
          + 3 * ((u32 (u32 (processedPos p <<< 8) + prev) &&& lpMask p) <<< lc (prop p)))
  else mret Literal.

(** What one symbol is; [SymMatch] carries the distance (minus one), [SymRep] the
    four distances, both the length minus two. *)
Inductive sym :=
  | SymLit (state symbol : Z)
  | SymShortRep (state : Z)
  | SymRep (state rep0 rep1 rep2 rep3 len : Z)
  | SymMatch (state distance len : Z)
  | SymEnd (state : Z).

Definition real_lit (p : CLzmaDec) : parse sym :=
  base ← real_literal p;
  if state p <? kNumLitStates then
    let state := state p - (if state p <? 4 then state p else 3) in
    symbol ← tree_bits 8 base 1;
    mret (SymLit state symbol)
  else
    matchByte ← access (match_byte p);
    let state := state p - (if state p <? 10 then 3 else 6) in
    symbol ← matched_bits 8 base matchByte 0x100 1;
    mret (SymLit state symbol).

Definition real_len (prob posState : Z) : parse Z :=
  b ← P (prob + LenChoice);
  if negb b then
    len ← tree_bits 3 (prob + LenLow + posState) 1; mret (len - 8)
  else
    b ← P (prob + LenChoice2);
    if negb b then
      tree_bits 3 (prob + LenLow + posState + (1 <<< kLenNumLowBits)) 1
    else
      len ← TREE_DECODE (prob + LenHigh) (1 <<< kLenNumHighBits);
      mret (len + kLenNumLowSymbols * 2).

(** [do ... while (--numDirectBits)] over direct bits. *)
Fixpoint direct_bits (n : nat) (distance : Z) : parse Z :=
  match n with
  | O => mret distance
  | S n => t ← direct_bit; direct_bits n (u32 (u32 (distance <<< 1) + u32 (t + 1)))
  end.

(** [None]: the end mark. *)
Definition real_distance (len : Z) : parse (option Z) :=
  let temp := (if len <? kNumLenToPosStates then len else kNumLenToPosStates - 1) <<< kNumPosSlotBits in
  distance ← TREE_6_DECODE (PosSlot + temp);
  if kStartPosModelIndex <=? distance then
    let posSlot := distance in
    let numDirectBits := (distance >>> 1) - 1 in
    let distance := 2 ||| (distance &&& 1) in
    if posSlot <? kEndPosModelIndex then
      let distance := distance <<< numDirectBits in
      '(distance, m) ← rev_bits (Z.to_nat numDirectBits) SpecPos (distance + 1) 1;
      mret (Some (distance - m))
    else
      let numDirectBits := numDirectBits - kNumAlignBits in
      distance ← direct_bits (Z.to_nat numDirectBits) distance;
      let distance := u32 (distance <<< kNumAlignBits) in
      i ← REV_BIT_CONST Align 1 1;
      i ← REV_BIT_CONST Align i 2;
      i ← REV_BIT_CONST Align i 4;
      i ← REV_BIT_LAST Align i 8;
      let distance := distance ||| i in
      mret (if distance =? 0xFFFFFFFF then None else Some distance)
  else mret (Some distance).

Definition real_match (p : CLzmaDec) : parse sym :=
  let st := state p + kNumStates in
  len ← real_len LenCoder (posState p);
  distance ← real_distance len;
  mret match distance with
       | None => SymEnd (st - kNumStates)
       | Some distance =>
           SymMatch (if st <? kNumStates + kNumLitStates then kNumLitStates else kNumLitStates + 3)
             distance len
       end.

(** From the choice of the distance on. *)
Definition rep_len (p : CLzmaDec) (r0 r1 r2 r3 : Z) : parse sym :=
  let st := if state p <? kNumLitStates then 8 else 11 in
  len ← real_len RepLenCoder (posState p);
  mret (SymRep st r0 r1 r2 r3 len).

Definition real_rep (p : CLzmaDec) : parse sym :=
  let r0 := rep0 p in let r1 := rep1 p in let r2 := rep2 p in let r3 := rep3 p in
  b ← P (IsRepG0 + state p);
  if negb b then
    b ← P (IsRep0Long + (posState p + state p));
    if negb b then mret (SymShortRep (if state p <? kNumLitStates then 9 else 11))
    else rep_len p r0 r1 r2 r3
  else
    b ← P (IsRepG1 + state p);
    if negb b then rep_len p r1 r0 r2 r3
    else
      b ← P (IsRepG2 + state p);
      if negb b then rep_len p r2 r0 r1 r3
      else rep_len p r3 r0 r1 r2.

Definition decode_real (p : CLzmaDec) : parse sym :=
  b ← P (IsMatch + (posState p + state p));
  if negb b then real_lit p
  else
    b ← P (IsRep + state p);
    if negb b then real_match p else real_rep p.

(** ** Symbols, as TryDummy reads them *)

Definition dummy_literal (p : CLzmaDec) : parse Z :=
  if negb (checkDicSize p =? 0) || negb (processedPos p =? 0) then
    prev ← access (prev_byte p);
    mret (Literal
          + LZMA_LIT_SIZE * (((processedPos p &&& ((1 <<< lp (prop p)) - 1)) <<< lc (prop p))
                             + (prev >>> (8 - lc (prop p)))))
  else mret Literal.

(** [do ... while (symbol < 0x100)] around MATCHED_LITER_DEC. *)
Fixpoint matched_loop (fuel : nat) (base matchByte offs symbol : Z) : parse Z :=
  let matchByte := matchByte + matchByte in
  let bit := offs in
  let offs := offs &&& matchByte in
  b ← P (base + (offs + bit + symbol));
  let '(offs, symbol) :=
    if (b : bool) then (offs, symbol + symbol + 1) else (offs ^^^ bit, symbol + symbol) in
  match fuel with
  | O => mret symbol
  | S fuel => if symbol <? 0x100 then matched_loop fuel base matchByte offs symbol else mret symbol
  end.

Definition dummy_lit (p : CLzmaDec) : parse ELzmaDummy :=
  base ← dummy_literal p;
  if state p <? kNumLitStates then
    _ ← TREE_LOOP 7 base 0x100 1; mret DUMMY_LIT
  else
    matchByte ← access (match_byte p);
    _ ← matched_loop 7 base matchByte 0x100 1; mret DUMMY_LIT.

Definition dummy_len (prob posState : Z) : parse Z :=
  b ← P (prob + LenChoice);
  '(probLen, offset, limit) ←
    (if negb b then mret (prob + LenLow + posState, 0, 1 <<< kLenNumLowBits)
     else
       b ← P (prob + LenChoice2);
       if negb b then
         mret (prob + LenLow + posState + (1 <<< kLenNumLowBits), kLenNumLowSymbols,
               1 <<< kLenNumLowBits)
       else mret (prob + LenHigh, kLenNumLowSymbols * 2, 1 <<< kLenNumHighBits));
  len ← TREE_DECODE probLen limit;
  mret (len + offset).

(** Direct bits whose value is not needed. *)
Fixpoint skip_direct (n : nat) : parse unit :=
  match n with
  | O => mret tt
  | S n => _ ← direct_bit; skip_direct n
  end.

Definition dummy_distance (len : Z) : parse unit :=
  let temp :=
    (if len <? kNumLenToPosStates - 1 then len else kNumLenToPosStates - 1) <<< kNumPosSlotBits in
  posSlot ← TREE_DECODE (PosSlot + temp) (1 <<< kNumPosSlotBits);
  if kStartPosModelIndex <=? posSlot then
    let numDirectBits := (posSlot >>> 1) - 1 in
    '(prob, numDirectBits) ←
      (if posSlot <? kEndPosModelIndex then
         mret (SpecPos + ((2 ||| (posSlot &&& 1)) <<< numDirectBits), numDirectBits)
       else
         skip_direct (Z.to_nat (numDirectBits - kNumAlignBits)) ;;
         mret (Align, kNumAlignBits));
    _ ← rev_bits (Z.to_nat numDirectBits) prob 1 1;
    mret tt
  else mret tt.

Definition dummy_match (p : CLzmaDec) : parse ELzmaDummy :=
  len ← dummy_len LenCoder (posState p);
  dummy_distance len ;;
  mret DUMMY_MATCH.

Definition dummy_rep (p : CLzmaDec) : parse ELzmaDummy :=
  let finish := _ ← dummy_len RepLenCoder (posState p); mret DUMMY_REP in
  b ← P (IsRepG0 + state p);
  if negb b then
    b ← P (IsRep0Long + (posState p + state p));
    if negb b then mret DUMMY_REP else finish
  else
    b ← P (IsRepG1 + state p);
    if negb b then finish
    else _ ← P (IsRepG2 + state p); finish.

Definition decode_dummy (p : CLzmaDec) : parse ELzmaDummy :=
  b ← P (IsMatch + (posState p + state p));
  if negb b then dummy_lit p
  else
    b ← P (IsRep + state p);
    if negb b then dummy_match p else dummy_rep p.

(** The result and [*bufOut], reading [inp] from [from] up to [bufLimit]. *)
Definition LzmaDec_TryDummy (p : CLzmaDec) (inp : list Z) (from bufLimit : Z)
  : option (ELzmaDummy * Z) :=
  r ← run_check inp bufLimit (decode_dummy p) (set_buf from (coder p));
  match r with
  | inl tt => Some (DUMMY_INPUT_EOF, bufLimit)
  | inr (res, c) =>
      r ← NORMALIZE_CHECK inp bufLimit c;
      match r with
      | inl tt => Some (DUMMY_INPUT_EOF, bufLimit)
      | inr c => Some (res, buf c)
      end
  end.

(** ** Effects of a symbol *)

(** [do *dest = *(dest + src) while (++dest != lim)] *)
Definition copy_fwd (dic : list Z) (pos dicPos len : Z) : option (list Z) :=
  option_map snd
    (do_while (S (Z.to_nat len))
       (fun '(i, dic) => b ← rd dic (pos + i); dic ← wrz dic (dicPos + i) b; Some (i + 1, dic))
       (fun '(i, _) => negb (i =? len)) (0, dic)).

(** [do { dic[dicPos++] = dic[pos]; if (++pos == dicBufSize) pos = 0; } while (--curLen)] *)
Definition copy_wrap (dic : list Z) (pos dicPos len : Z) : option (list Z) :=
  option_map (fun s => s.2)
    (do_while (S (Z.to_nat len))
       (fun '(pos, dicPos, len, dic) =>
          b ← rd dic pos; dic ← wrz dic dicPos b;
          let pos := pos + 1 in
          let pos := if pos =? Z.of_nat (length dic) then 0 else pos in
          Some (pos, dicPos + 1, len - 1, dic))
       (fun '(_, _, len, _) => negb (len =? 0)) (pos, dicPos, len, dic)).

(** From [len += kMatchMinLen] on: [false] is [break]. *)
Definition copy_match (limit len : Z) (p : CLzmaDec) : option (CLzmaDec * bool) :=
  let len := len + kMatchMinLen in
  let rem := u64 (limit - dicPos p) in
  if rem =? 0 then Some (set_remain len p, false)
  else
    let curLen := if rem <? len then rem else len in
    let pos := rep_pos p in
    dic ← (if curLen <=? dicBufSize p - pos then copy_fwd (dic p) pos (dicPos p) curLen
           else copy_wrap (dic p) pos (dicPos p) curLen);
    Some (set_remain (len - curLen)
            (set_dic dic (dicPos p + curLen) (u32 (processedPos p + curLen)) p), true).

Definition exec_sym (limit : Z) (s : sym) (p : CLzmaDec) : option (CLzmaDec * bool) :=
  match s with
  | SymLit state symbol =>
      dic ← wrz (dic p) (dicPos p) (u8 symbol);
      Some (set_state state (rep0 p) (rep1 p) (rep2 p) (rep3 p)
              (set_dic dic (dicPos p + 1) (u32 (processedPos p + 1)) p), true)
  | SymShortRep state =>
      b ← match_byte p;
      dic ← wrz (dic p) (dicPos p) b;
      Some (set_state state (rep0 p) (rep1 p) (rep2 p) (rep3 p)
              (set_dic dic (dicPos p + 1) (u32 (processedPos p + 1)) p), true)
  | SymRep state r0 r1 r2 r3 len => copy_match limit len (set_state state r0 r1 r2 r3 p)
  | SymMatch state distance len =>
      let p := set_state state (u32 (distance + 1)) (rep0 p) (rep1 p) (rep2 p) p in
      if (if checkDicSize p =? 0 then processedPos p else checkDicSize p) <=? distance
      then Some (set_remain (len + (kMatchSpecLen_Error_Data + kMatchMinLen)) p, false)
      else copy_match limit len p
  | SymEnd state =>
      Some (set_remain kMatchSpecLenStart
              (set_state state (rep0 p) (rep1 p) (rep2 p) (rep3 p) p), false)
  end.

(** One turn of the main loop. *)
Definition real_turn (inp : list Z) (limit : Z) (p : CLzmaDec) : option (CLzmaDec * bool) :=
  '(s, c) ← run inp (decode_real p) (coder p); exec_sym limit s (set_coder c p).

Definition LzmaDec_DecodeReal_3 (inp : list Z) (p : CLzmaDec) (limit bufLimit : Z)
  : option (CLzmaDec * SRes) :=
  p ← loop (S (Z.to_nat (limit - dicPos p)))
        (fun p =>
           '(p, go) ← real_turn inp limit p;
           if go && (dicPos p <? limit) && (buf (coder p) <? bufLimit)
           then Some (inl p) else Some (inr p)) (set_remain 0 p);
  c ← NORMALIZE inp (coder p);
  let p := set_coder c p in
  Some (p, if kMatchSpecLen_Error_Data <=? remainLen p then SZ_ERROR_DATA else SZ_OK).

(** ** Around the main loop *)

Definition LzmaDec_WriteRem (p : CLzmaDec) (limit : Z) : option CLzmaDec :=
  let len := remainLen p in
  if len =? 0 then Some p
  else
    let rem := u64 (limit - dicPos p) in
    let len := if rem <? len then rem else len in
    if len =? 0 then Some p
    else
      let p :=
        if (checkDicSize p =? 0) && (u32 (dicSize (prop p) - processedPos p) <=? len)
        then set_check (dicSize (prop p)) p else p in
      let processed := u32 (processedPos p + len) in
      let remain := u32 (remainLen p - len) in
      '(dic, pos, _) ←
        do_while (S (Z.to_nat len))
          (fun '(dic, pos, len) =>
             b ← rd dic (u64 (pos - rep0 p + (if pos <? rep0 p then Z.of_nat (length dic) else 0)));
             dic ← wrz dic pos b; Some (dic, pos + 1, len - 1))
          (fun '(_, _, len) => negb (len =? 0)) (dic p, dicPos p, len);
      Some (set_remain remain (set_dic dic pos processed p)).

Definition kRange0 : Z := 0xFFFFFFFF.
Definition kBound0 : Z :=
  (kRange0 >>> kNumBitModelTotalBits) <<< (kNumBitModelTotalBits - 1).
Definition kBadRepCode : Z :=
  kBound0 + (((kRange0 - kBound0) >>> kNumBitModelTotalBits) <<< (kNumBitModelTotalBits - 1)).

Definition LzmaDec_DecodeReal2 (inp : list Z) (p : CLzmaDec) (limit bufLimit : Z)
  : option (CLzmaDec * SRes) :=
  let limit :=
    if checkDicSize p =? 0 then
      let rem := u32 (dicSize (prop p) - processedPos p) in
      if rem <? u64 (limit - dicPos p) then dicPos p + rem else limit
    else limit in
  '(p, res) ← LzmaDec_DecodeReal_3 inp p limit bufLimit;
  let p :=
    if (checkDicSize p =? 0) && (dicSize (prop p) <=? processedPos p)
    then set_check (dicSize (prop p)) p else p in
  Some (p, res).

Definition LzmaDec_InitDicAndState (initDic initState : bool) (p : CLzmaDec) : CLzmaDec :=
  let p := set_temp 0 (tempBuf p) (set_remain (kMatchSpecLenStart + 1) p) in
  let p := if initDic
           then set_remain (kMatchSpecLenStart + 2) (set_check 0 (set_dic (dic p) (dicPos p) 0 p))
           else p in
  if initState then set_remain (kMatchSpecLenStart + 2) p else p.

Definition LzmaDec_Init (p : CLzmaDec) : CLzmaDec :=
  LzmaDec_InitDicAndState true true (set_dic (dic p) 0 (processedPos p) p).

(** ** LzmaDec_DecodeToDic *)

(** What a call returns: the decoder, [*srcLen], the result and [*status]. *)
Definition outcome : Type := CLzmaDec * Z * SRes * ELzmaStatus.

(** [break] out of [for (;;)]: an internal error. *)
Definition fail (p : CLzmaDec) (srcLen : Z) : outcome :=
  (set_remain kMatchSpecLen_Error_Fail p, srcLen, SZ_ERROR_FAIL, LZMA_STATUS_NOT_SPECIFIED).

(** [for (; inSize > 0 && p->tempBufSize < RC_INIT_SIZE; ...)] *)
Definition fill_init (src : list Z) (p : CLzmaDec) : option (CLzmaDec * Z) :=
  while 6
    (fun '(p, s) => (0 <? Z.of_nat (length src) - s) && (tempBufSize p <? RC_INIT_SIZE))
    (fun '(p, s) =>
       b ← rd src s; l ← wrz (tempBuf p) (tempBufSize p) b;
       Some (set_temp (tempBufSize p + 1) l p, s + 1)) (p, 0).

Definition init_probs (p : CLzmaDec) : option (list Z) :=
  let numProbs := LzmaProps_GetNumProbs (prop p) in
  option_map snd
    (while (S (Z.to_nat numProbs)) (fun '(i, _) => i <? numProbs)
       (fun '(i, l) => l ← wrz l i (kBitModelTotal >>> 1); Some (i + 1, l)) (0, probs (coder p))).

(** The part before [for (;;)] when [remainLen > kMatchSpecLenStart]. *)
Definition start_stream (p : CLzmaDec) (src : list Z) : option (outcome + CLzmaDec * Z) :=
  if kMatchSpecLenStart + 2 <? remainLen p then
    Some (inl (p, 0,
               if remainLen p =? kMatchSpecLen_Error_Fail then SZ_ERROR_FAIL else SZ_ERROR_DATA,
               LZMA_STATUS_NOT_SPECIFIED))
  else
    '(p, s) ← fill_init src p;
    t0 ← rd (tempBuf p) 0;
    if negb (tempBufSize p =? 0) && negb (t0 =? 0)
    then Some (inl (p, s, SZ_ERROR_DATA, LZMA_STATUS_NOT_SPECIFIED))
    else if tempBufSize p <? RC_INIT_SIZE
    then Some (inl (p, s, SZ_OK, LZMA_STATUS_NEEDS_MORE_INPUT))
    else
      t1 ← rd (tempBuf p) 1; t2 ← rd (tempBuf p) 2; t3 ← rd (tempBuf p) 3; t4 ← rd (tempBuf p) 4;
      let code := (t1 <<< 24) ||| (t2 <<< 16) ||| (t3 <<< 8) ||| t4 in
      let p := set_coder (set_range (range (coder p)) code (coder p)) p in
      if (checkDicSize p =? 0) && (processedPos p =? 0) && (kBadRepCode <=? code)
      then Some (inl (p, s, SZ_ERROR_DATA, LZMA_STATUS_NOT_SPECIFIED))
      else
        let p := set_temp 0 (tempBuf p) (set_coder (set_range 0xFFFFFFFF code (coder p)) p) in
        p ← (if kMatchSpecLenStart + 1 <? remainLen p then
               l ← init_probs p;
               Some (set_state 0 1 1 1 1 (set_coder (set_probs l (coder p)) p))
             else Some p);
        Some (inr (set_remain 0 p, s)).

(** [memcpy] of the input into [tempBuf] by a counting loop. *)
Definition store_temp (src : list Z) (s n : Z) (tempBuf : list Z) : option (list Z) :=
  option_map snd
    (while (S (Z.to_nat n)) (fun '(i, _) => i <? n)
       (fun '(i, l) => b ← rd src (s + i); l ← wrz l i b; Some (i + 1, l)) (0, tempBuf)).

Definition is_match (d : ELzmaDummy) : bool := match d with DUMMY_MATCH => true | _ => false end.
Definition is_eof (d : ELzmaDummy) : bool := match d with DUMMY_INPUT_EOF => true | _ => false end.

(** A turn that decodes from [src]: [inl] continues. *)
Definition turn_src (p : CLzmaDec) (dicLimit : Z) (src : list Z) (s : Z) (checkEndMarkNow : bool)
  : option ((CLzmaDec * Z) + outcome) :=
  let inSize := Z.of_nat (length src) - s in
  r ← (if (inSize <? LZMA_REQUIRED_INPUT_MAX) || checkEndMarkNow then
         '(dummyRes, bufOut) ← LzmaDec_TryDummy p src s (s + inSize);
         if is_eof dummyRes then
           if LZMA_REQUIRED_INPUT_MAX <=? inSize then Some (inr (fail p s))
           else
             l ← store_temp src s inSize (tempBuf p);
             Some (inr (set_temp inSize l p, s + inSize, SZ_OK, LZMA_STATUS_NEEDS_MORE_INPUT))
         else
           let dummyProcessed := bufOut - s in
           if LZMA_REQUIRED_INPUT_MAX <? dummyProcessed then Some (inr (fail p s))
           else if checkEndMarkNow && negb (is_match dummyRes) then
             l ← store_temp src s dummyProcessed (tempBuf p);
             Some (inr (set_temp dummyProcessed l p, s + dummyProcessed, SZ_ERROR_DATA,
                        LZMA_STATUS_NOT_FINISHED))
           else Some (inl (s, dummyProcessed))
       else Some (inl (s + inSize - LZMA_REQUIRED_INPUT_MAX, -1)));
  match r with
  | inr o => Some (inr o)
  | inl (bufLimit, dummyProcessed) =>
      '(p, res) ← LzmaDec_DecodeReal2 src (set_coder (set_buf s (coder p)) p) dicLimit bufLimit;
      let processed := buf (coder p) - s in
      if (if dummyProcessed <? 0 then inSize <? processed else negb (dummyProcessed =? processed))
      then Some (inr (fail p s))
      else if not_ok res
      then Some (inr (set_remain kMatchSpecLen_Error_Data p, s + processed, SZ_ERROR_DATA,
                      LZMA_STATUS_NOT_SPECIFIED))
      else Some (inl (p, s + processed))
  end.

(** [while (rem < LZMA_REQUIRED_INPUT_MAX && ahead < inSize)] *)
Definition fill_temp (src : list Z) (s : Z) (p : CLzmaDec) : option (list Z * Z * Z) :=
  while 21
    (fun '(_, rem, ahead) =>
       (rem <? LZMA_REQUIRED_INPUT_MAX) && (ahead <? Z.of_nat (length src) - s))
    (fun '(l, rem, ahead) =>
       b ← rd src (s + ahead); l ← wrz l rem b; Some (l, rem + 1, ahead + 1))
    (tempBuf p, tempBufSize p, 0).

(** A turn that decodes one symbol from [tempBuf]. *)
Definition turn_temp (p : CLzmaDec) (dicLimit : Z) (src : list Z) (s : Z) (checkEndMarkNow : bool)
  : option ((CLzmaDec * Z) + outcome) :=
  '(l, rem, ahead) ← fill_temp src s p;
  let p := set_temp (tempBufSize p) l p in
  r ← (if (rem <? LZMA_REQUIRED_INPUT_MAX) || checkEndMarkNow then
         '(dummyRes, bufOut) ← LzmaDec_TryDummy p l 0 rem;
         if is_eof dummyRes then
           if LZMA_REQUIRED_INPUT_MAX <=? rem then Some (inr (fail p s))
           else Some (inr (set_temp rem l p, s + ahead, SZ_OK, LZMA_STATUS_NEEDS_MORE_INPUT))
         else
           let dummyProcessed := bufOut in
           if dummyProcessed <? tempBufSize p then Some (inr (fail p s))
           else if checkEndMarkNow && negb (is_match dummyRes) then
             Some (inr (set_temp dummyProcessed l p, s + (dummyProcessed - tempBufSize p),
                        SZ_ERROR_DATA, LZMA_STATUS_NOT_FINISHED))
           else Some (inl dummyProcessed)
       else Some (inl (-1)));
  match r with
  | inr o => Some (inr o)
  | inl dummyProcessed =>
      '(p, res) ← LzmaDec_DecodeReal2 l (set_coder (set_buf 0 (coder p)) p) dicLimit 0;
      let processed := buf (coder p) in
      let rem := tempBufSize p in
      if (if dummyProcessed <? 0
          then (LZMA_REQUIRED_INPUT_MAX <? processed) || (processed <? rem)
          else negb (dummyProcessed =? processed))
      then Some (inr (fail p s))
      else
        let processed := processed - rem in
        let p := set_temp 0 l p in
        if not_ok res
        then Some (inr (set_remain kMatchSpecLen_Error_Data p, s + processed, SZ_ERROR_DATA,
                        LZMA_STATUS_NOT_SPECIFIED))
        else Some (inl (p, s + processed))
  end.

(** One turn of [for (;;)]. *)
Definition dic_turn (dicLimit : Z) (src : list Z) (finishMode : ELzmaFinishMode)
    '((p, s) : CLzmaDec * Z) : option ((CLzmaDec * Z) + outcome) :=
  if remainLen p =? kMatchSpecLenStart then
    if negb (code (coder p) =? 0)
    then Some (inr (p, s, SZ_ERROR_DATA, LZMA_STATUS_NOT_SPECIFIED))
    else Some (inr (p, s, SZ_OK, LZMA_STATUS_FINISHED_WITH_MARK))
  else
    p ← LzmaDec_WriteRem p dicLimit;
    let atLimit := dicLimit <=? dicPos p in
    if atLimit && (remainLen p =? 0) && (code (coder p) =? 0)
    then Some (inr (p, s, SZ_OK, LZMA_STATUS_MAYBE_FINISHED_WITHOUT_MARK))
    else if atLimit && (match finishMode with LZMA_FINISH_ANY => true | _ => false end)
    then Some (inr (p, s, SZ_OK, LZMA_STATUS_NOT_FINISHED))
    else if atLimit && negb (remainLen p =? 0)
    then Some (inr (p, s, SZ_ERROR_DATA, LZMA_STATUS_NOT_FINISHED))
    else if tempBufSize p =? 0 then turn_src p dicLimit src s atLimit
    else turn_temp p dicLimit src s atLimit.

Definition LzmaDec_DecodeToDic (p : CLzmaDec) (dicLimit : Z) (src : list Z)
    (finishMode : ELzmaFinishMode) : option outcome :=
  r ← (if kMatchSpecLenStart <? remainLen p then start_stream p src else Some (inr (p, 0)));
  match r with
  | inl o => Some o
  | inr (p, s) =>
      loop (S (S (S (Z.to_nat (dicLimit - dicPos p))))) (dic_turn dicLimit src finishMode) (p, s)
  end.

(** ** LzmaProps_Decode *)

Definition LZMA_PROPS_SIZE : Z := 5.
Definition LZMA_DIC_MIN : Z := 1 <<< 12.

Definition LzmaProps_Decode (data : list Z) : option (SRes * option CLzmaProps) :=
  if Z.of_nat (length data) <? LZMA_PROPS_SIZE then Some (SZ_ERROR_UNSUPPORTED, None)
  else
    d0 ← rd data 0; d1 ← rd data 1; d2 ← rd data 2; d3 ← rd data 3; d4 ← rd data 4;
    let dicSize := d1 ||| (d2 <<< 8) ||| (d3 <<< 16) ||| (d4 <<< 24) in
    let dicSize := if dicSize <? LZMA_DIC_MIN then LZMA_DIC_MIN else dicSize in
    if 9 * 5 * 5 <=? d0 then Some (SZ_ERROR_UNSUPPORTED, None)
    else
      let d := d0 / 9 in
      Some (SZ_OK, Some {| lc := d0 mod 9; lp := d mod 5; pb := d / 5; dicSize := dicSize |}).
