(* ===== verification/LzmaDecSym.v ===== *)
(** * LZMA decoder: the symbols

    What one symbol of LzmaDec.c reads: for every well-formed decoder
    ([sym_pre]) the tree [decode_real] is [good] (probabilities in range, none
    asked for twice, at most 22 modelled and 26 direct bits), its symbol has
    lengths and distances in range ([sym_ok]), and LzmaDec_TryDummy walks the
    same tree ([shape_symbol]). *)

From stdpp Require Import base numbers list list_numbers.
From Stdlib Require Import ZArith Lia.
From S2P Require Import Prelude SzTypes LzmaParse LzmaDec.
Local Open Scope Z_scope.
Local Open Scope word_scope.

(** The layout as numbers. *)
Ltac layout :=
  change kStartOffset with 1664 in *; change SpecPos with (-1664) in *;
  change IsRep0Long with (-1536) in *; change RepLenCoder with (-1280) in *;
  change LenCoder with (-768) in *; change IsMatch with (-256) in *;
  change Align with 0 in *; change IsRep with 16 in *; change IsRepG0 with 28 in *;
  change IsRepG1 with 40 in *; change IsRepG2 with 52 in *; change PosSlot with 64 in *;
  change Literal with 320 in *; change LenLow with 0 in *; change LenChoice with 0 in *;
  change LenChoice2 with 8 in *; change LenHigh with 256 in *;
  change (1 <<< kLenNumLowBits) with 8 in *; change (1 <<< kLenNumHighBits) with 256 in *;
  change kLenNumLowSymbols with 8 in *; change kNumLitStates with 7 in *;
  change kNumStates with 12 in *; change kNumLenToPosStates with 4 in *;
  change kNumPosSlotBits with 6 in *; change kStartPosModelIndex with 4 in *;
  change kEndPosModelIndex with 14 in *; change kNumAlignBits with 4 in *;
  change (1 <<< 6) with 64 in *; change LZMA_LIT_SIZE with 768 in *;
  change kMatchMinLen with 2 in *; change kMatchSpecLenStart with 274 in *;
  change kMatchSpecLen_Error_Data with 512 in *; change kMatchSpecLen_Error_Fail with 511 in *.

(** ** Rules for [good]

    The indices already used are known through a set [R] that contains them. *)
Definition within (u : list Z) (R : Z -> Prop) : Prop := forall x, x ∈ u -> R x.

Lemma within_nil R : within [] R.
Proof. intros x Hx. by apply elem_of_nil in Hx. Qed.

Lemma within_mono u (R R' : Z -> Prop) : within u R -> (forall x, R x -> R' x) -> within u R'.
Proof. unfold within. auto. Qed.

(** Every [Ret] of a tree after the bit counts [i] and [j], whatever was used. *)
Section Good.
Context (n : Z).

Lemma good_P {A} u i j (R : Z -> Prop) Q off (k : bool -> parse A) :
  within u R -> 0 <= kStartOffset + off < n -> ~ R (kStartOffset + off) -> fits (S i) j ->
  (forall b u', within u' (fun x => R x \/ x = kStartOffset + off) -> good n u' (S i) j Q (k b)) ->
  good n u i j Q (P off ≫= k).
Proof.
  intros Hu Hn Hr Hf Hk. cbn. split_and!; [lia|lia|intros Hin; by apply Hr, Hu|done|].
  intros b. apply Hk. intros x [->|Hx]%elem_of_cons; [by right|left; by apply Hu].
Qed.

(** [k] bits of a tree of [L] leaves, below the node [x]. *)
Lemma good_tree_bits L k : forall u i j (R : Z -> Prop) Q base x,
  within u R -> 1 <= x -> L <= x * 2 ^ Z.of_nat k -> (x + 1) * 2 ^ Z.of_nat k <= 2 * L ->
  0 <= kStartOffset + base -> kStartOffset + base + L <= n ->
  (forall y, x <= y < L -> ~ R (kStartOffset + base + y)) ->
  fits (i + k) j ->
  (forall u' x',
     within u' (fun z => R z \/ kStartOffset + base + x <= z < kStartOffset + base + L) ->
     L <= x' < 2 * L -> Q u' (i + k)%nat j x') ->
  good n u i j Q (tree_bits k base x).
Proof.
  induction k as [|k IH]; intros u i j R Q base x Hu Hx HL HL2 Hb Hn HR Hf HQ.
  - cbn. rewrite Nat.add_0_r in HQ. apply HQ; [|lia]. apply (within_mono u R); auto.
  - rewrite Nat2Z.inj_succ, Z.pow_succ_r in HL, HL2 by lia.
    assert (0 < 2 ^ Z.of_nat k) by (apply Z.pow_pos_nonneg; lia).
    assert (x < L) by nia.
    cbn [tree_bits]. unfold TREE_GET_BIT. cbn [mbind parse_bind].
    apply (good_P u i j R _ (base + x)); [done|lia| |unfold fits in *; lia|].
    { rewrite Z.add_assoc. apply HR. lia. }
    intros b u' Hu'. cbn.
    set (x' := if b then x + x + 1 else x + x).
    assert (2 * x <= x' <= 2 * x + 1) as Hx' by (unfold x'; destruct b; lia).
    apply (IH u' (S i) j (fun z => R z \/ z = kStartOffset + (base + x)) Q base x');
      [done|lia|nia|nia|done|done| |by rewrite Nat.add_succ_comm|].
    + intros y Hy [Hr|?]; [|lia]. eapply HR; [|exact Hr]. lia.
    + rewrite Nat.add_succ_comm. intros u2 x2 Hu2 Hx2. apply HQ; [|done].
      apply (within_mono _ _ _ Hu2). intros z [[Hz| ->]|Hz]; [by left|lia|lia].
Qed.

(** [k] bits of a reversed tree: [m] doubles, the node stays in [[o+m, o+2m)]. *)
Lemma good_rev_bits o M k : forall u i j (R : Z -> Prop) Q base x m,
  within u R -> 1 <= m -> o + m <= x < o + 2 * m -> m * 2 ^ Z.of_nat k = M ->
  0 <= kStartOffset + base + o -> kStartOffset + base + o + M <= n ->
  (forall y, x <= y < o + M -> ~ R (kStartOffset + base + y)) ->
  fits (i + k) j ->
  (forall u' x',
     within u' (fun z => R z \/ kStartOffset + base + x <= z < kStartOffset + base + o + M) ->
     o + M <= x' < o + 2 * M -> Q u' (i + k)%nat j (x', M)) ->
  good n u i j Q (rev_bits k base x m).
Proof.
  induction k as [|k IH]; intros u i j R Q base x m Hu Hm Hx HM Hb Hn HR Hf HQ.
  - cbn. rewrite Nat.add_0_r in HQ. change (Z.of_nat 0) with 0 in HM. rewrite Z.pow_0_r, Z.mul_1_r in HM.
    subst M. apply HQ; [|lia]. apply (within_mono u R); auto.
  - rewrite Nat2Z.inj_succ, Z.pow_succ_r in HM by lia.
    assert (0 < 2 ^ Z.of_nat k) by (apply Z.pow_pos_nonneg; lia).
    assert (2 * m <= M) by nia.
    cbn [rev_bits]. apply (good_P u i j R _ (base + x)); [done|lia| |unfold fits in *; lia|].
    { rewrite Z.add_assoc. apply HR. lia. }
    intros b u' Hu'.
    assert (forall x', x + m <= x' <= x + 2 * m ->
      good n u' (S i) j Q (rev_bits k base x' (m + m))) as Hnext; [|destruct b; apply Hnext; lia].
    intros x' Hx'.
    apply (IH u' (S i) j (fun z => R z \/ z = kStartOffset + (base + x)) Q base x' (m + m));
      [done|lia|lia|nia|done|done| |by rewrite Nat.add_succ_comm|].
    + intros y Hy [Hr|?]; [|lia]. eapply HR; [|exact Hr]. lia.
    + rewrite Nat.add_succ_comm. intros u2 x2 Hu2 Hx2. apply HQ; [|done].
      apply (within_mono _ _ _ Hu2). intros z [[Hz| ->]|Hz]; [by left|lia|lia].
Qed.

Lemma good_direct_bits k : forall u i j Q x,
  0 <= x -> fits i (j + k) -> (forall x', 0 <= x' -> Q u i (j + k)%nat x') ->
  good n u i j Q (direct_bits k x).
Proof.
  induction k as [|k IH]; intros u i j Q x Hx Hf HQ.
  - cbn. rewrite Nat.add_0_r in HQ. by apply HQ.
  - cbn. split; [unfold fits in *; lia|]. intros t _.
    apply IH; [apply wrap_in_width; lia|by rewrite Nat.add_succ_comm|].
    by rewrite Nat.add_succ_comm.
Qed.

(** The literal coder that knows the byte at [rep0]: its node is [off + bit + x] with
    [off + bit] one of 0, 256, 512. *)
Lemma good_matched_bits k : forall u i j (R : Z -> Prop) Q base matchByte offs x,
  within u R -> 0 <= matchByte -> offs = 0 \/ offs = 256 -> 1 <= x ->
  x * 2 ^ Z.of_nat k <= 256 + 255 -> 256 <= x * 2 ^ Z.of_nat k -> (x + 1) * 2 ^ Z.of_nat k <= 512 ->
  0 <= kStartOffset + base -> kStartOffset + base + 768 <= n ->
  (forall y e, x <= y < 256 -> e = 0 \/ e = 256 \/ e = 512 -> ~ R (kStartOffset + base + e + y)) ->
  fits (i + k) j ->
  (forall u' x', 256 <= x' < 512 -> Q u' (i + k)%nat j x') ->
  good n u i j Q (matched_bits k base matchByte offs x).
Proof.
  induction k as [|k IH]; intros u i j R Q base mb offs x Hu Hmb Ho Hx HL HL' HL2 Hb Hn HR Hf HQ.
  - cbn. rewrite Nat.add_0_r in HQ. apply HQ. change (Z.of_nat 0) with 0 in *. lia.
  - rewrite Nat2Z.inj_succ, Z.pow_succ_r in HL, HL', HL2 by lia.
    assert (0 < 2 ^ Z.of_nat k) by (apply Z.pow_pos_nonneg; lia).
    assert (x < 256) by nia.
    assert ((offs &&& (mb + mb)) = 0 \/ (offs &&& (mb + mb)) = 256 /\ offs = 256) as Hand.
    { destruct Ho as [->| ->]; [by left|].
      assert (256 &&& (mb + mb) = Z.b2z (Z.testbit (mb + mb) 8) * 2 ^ 8) as ->.
      { apply Z.bits_inj'. intros q Hq. rewrite Z.land_spec, <-Z.shiftl_mul_pow2, Z.shiftl_spec by lia.
        change 256 with (2 ^ 8). rewrite Z.pow2_bits_eqb by lia.
        destruct (Z.eqb_spec 8 q) as [<-|Hne].
        - cbn [andb]. rewrite Z.sub_diag. by destruct (Z.testbit (mb + mb) 8).
        - cbn [andb]. symmetry. destruct (Z.lt_ge_cases q 8); [by apply Z.testbit_neg_r; lia|].
          destruct (Z.testbit (mb + mb) 8); [|apply Z.bits_0].
          apply (Z.bits_above_log2 1); [lia|]. change (Z.log2 1) with 0. lia. }
      destruct (Z.testbit (mb + mb) 8); [right|left]; done. }
    set (o2 := offs &&& (mb + mb)) in *.
    cbn [matched_bits]. fold o2.
    apply (good_P u i j R _ (base + (o2 + offs + x))); [done|lia| |unfold fits in *; lia|].
    { replace (kStartOffset + (base + (o2 + offs + x))) with (kStartOffset + base + (o2 + offs) + x) by lia.
      apply HR; lia. }
    intros b u' Hu'.
    assert (forall o' x', o' = 0 \/ o' = 256 -> 2 * x <= x' <= 2 * x + 1 ->
      good n u' (S i) j Q (matched_bits k base (mb + mb) o' x')) as Hnext.
    { intros o' x' Ho' Hx'.
      apply (IH u' (S i) j (fun z => R z \/ z = kStartOffset + (base + (o2 + offs + x))) Q base);
        [done|lia|done|lia|nia|nia|nia|done|done| |by rewrite Nat.add_succ_comm|].
      - intros y e Hy He [Hr|?]; [|lia]. eapply HR; [| |exact Hr]; [lia|done].
      - rewrite Nat.add_succ_comm. exact HQ. }
    destruct b; apply Hnext; try lia.
    destruct Hand as [->|[-> ->]]; [rewrite Z.lxor_0_l; lia|by left].
Qed.
End Good.

(** ** Two spellings of a tree *)

Lemma good_shape {A} n (t t' : parse A) : forall u i j Q,
  shape eq t t' -> good n u i j Q t -> good n u i j Q t'.
Proof.
  revert t'. induction t as [a|q k IH|k IH|]; intros [b|q' k'|k'|] u i j Q H Hg; cbn in *; try done.
  - by subst.
  - destruct H as [<- H]. destruct Hg as (? & ? & ? & Hk). split_and!; try done; try lia.
    intros b. by eapply IH.
  - destruct Hg as (? & Hk). split; [done|]. intros t Ht. eapply IH; auto.
Qed.

Lemma shape_sym {A B} (f : A -> B -> Prop) t t' : shape f t t' -> shape (fun b a => f a b) t' t.
Proof.
  revert t'. induction t as [a|q k IH|k IH|]; intros [b|q' k'|k'|] H; cbn in *; try done.
  - destruct H as [-> H]. split; [done|]. intros b. by apply IH.
  - intros b. by apply IH.
Qed.

Lemma shape_map_l {A A' B} (f : A -> B -> Prop) (g : A' -> B -> Prop) (h : A -> A') t t' :
  shape f t t' -> (forall a b, f a b -> g (h a) b) -> shape g (t ≫= fun a => Ret (h a)) t'.
Proof.
  intros H Hfg. revert t' H. induction t as [a|q k IH|k IH|]; intros [b|q' k'|k'|] H; cbn in *; try done.
  - by apply Hfg.
  - destruct H as [-> H]. split; [done|]. intros b. by apply IH.
  - intros b. by apply IH.
Qed.

(** The loop [while (i < L)] takes the bits of a tree of [L] leaves. *)
Lemma tree_loop_bits L k : forall fuel base x, (k <= fuel)%nat -> 1 <= x ->
  L <= x * 2 ^ Z.of_nat (S k) -> (x + 1) * 2 ^ Z.of_nat (S k) <= 2 * L ->
  shape eq (tree_bits (S k) base x) (TREE_LOOP fuel base L x).
Proof.
  induction k as [|k IH]; intros fuel base x Hf Hx HL HL2.
  - change (2 ^ Z.of_nat 1) with 2 in *.
    destruct fuel as [|fuel]; (split; [done|]); intros b; cbn; [done|].
    destruct b; [destruct (Z.ltb_spec (x + x + 1) L)|destruct (Z.ltb_spec (x + x) L)];
      [lia|done|lia|done].
  - destruct fuel as [|fuel]; [lia|]. rewrite Nat2Z.inj_succ, Z.pow_succ_r in HL, HL2 by lia.
    assert (2 <= 2 ^ Z.of_nat (S k)).
    { rewrite Nat2Z.inj_succ, Z.pow_succ_r by lia. pose proof (Z.pow_pos_nonneg 2 (Z.of_nat k)). lia. }
    cbn [tree_bits]. cbn -[tree_bits Z.of_nat]. split; [done|]. intros b.
    set (y := if b then x + x + 1 else x + x).
    assert (2 * x <= y <= 2 * x + 1) by (unfold y; destruct b; lia).
    destruct (Z.ltb_spec y L); [apply IH; (lia || nia)|nia].
Qed.

(** ** Well-formed decoders and their symbols *)

Definition props_ok (q : CLzmaProps) : Prop :=
  0 <= lc q <= 8 /\ 0 <= lp q <= 4 /\ 0 <= pb q <= 4 /\ 0 <= dicSize q < 2 ^ 32.

Definition rep_ok (p : CLzmaDec) (r : Z) : Prop := 1 <= r <= dicBufSize p.

(** What decoding a symbol relies on. *)
Record sym_pre (p : CLzmaDec) : Prop := {
  pre_props : props_ok (prop p);
  pre_dic : bytes (dic p);
  pre_size : 1 <= dicBufSize p < 2 ^ 63;
  pre_pos : 0 <= dicPos p <= dicBufSize p;
  pre_processed : in_width 32 (processedPos p);
  pre_state : 0 <= state p < 12;
  pre_rep0 : rep_ok p (rep0 p);
  pre_rep1 : rep_ok p (rep1 p);
  pre_rep2 : rep_ok p (rep2 p);
  pre_rep3 : rep_ok p (rep3 p)
}.

(** Lengths are at most 273, less two. *)
Definition len_ok (len : Z) : Prop := 0 <= len < 272.

Definition sym_ok (p : CLzmaDec) (s : sym) : Prop :=
  match s with
  | SymLit st x => 0 <= st < 12 /\ 256 <= x < 512
  | SymShortRep st => 0 <= st < 12
  | SymRep st r0 r1 r2 r3 len =>
      0 <= st < 12 /\ rep_ok p r0 /\ rep_ok p r1 /\ rep_ok p r2 /\ rep_ok p r3 /\ len_ok len
  | SymMatch st d len => 0 <= st < 12 /\ 0 <= d /\ len_ok len
  | SymEnd st => 0 <= st < 12
  end.

(** Both readers compute the same literal coder. *)
Definition literal_index (q : CLzmaProps) (processed prev : Z) : Z :=
  (processed mod 2 ^ lp q) * 2 ^ lc q + prev / 2 ^ (8 - lc q).

Lemma real_literal_offset q pp prev :
  props_ok q -> 0 <= pp -> in_width 8 prev ->
  3 * ((u32 (u32 (pp <<< 8) + prev) &&& ((0x100 <<< lp q) - (0x100 >>> lc q))) <<< lc q)
  = 768 * literal_index q pp prev.
Proof.
  intros (Hlc & Hlp & _) Hpp Hprev. unfold in_width in Hprev.
  replace (0x100 <<< lp q) with (2 ^ (8 + lp q))
    by (rewrite Z.shiftl_mul_pow2, Z.pow_add_r by lia; done).
  replace (0x100 >>> lc q) with (2 ^ (8 - lc q)).
  2:{ rewrite Z.shiftr_div_pow2, Z.pow_sub_r by lia. done. }
  rewrite land_mask by lia.
  assert (u32 (u32 (pp <<< 8) + prev) mod 2 ^ (8 + lp q) = (pp mod 2 ^ lp q) * 256 + prev) as ->.
  { unfold wrap. rewrite Zplus_mod_idemp_l, Z.shiftl_mul_pow2 by lia.
    rewrite Z.mod_mod_divide by (exists (2 ^ (24 - lp q)); rewrite <-Z.pow_add_r by lia; f_equal; lia).
    pose proof (Z.div_mod pp (2 ^ lp q) ltac:(apply Z.pow_nonzero; lia)) as Hd.
    pose proof (Z.mod_pos_bound pp (2 ^ lp q) ltac:(apply Z.pow_pos_nonneg; lia)).
    rewrite Z.pow_add_r by lia. symmetry.
    apply Z.mod_unique with (q := pp / 2 ^ lp q); [left; nia|]. nia. }
  unfold literal_index. rewrite !Z.shiftl_mul_pow2 by lia.
  set (a := 8 - lc q). set (m := pp mod 2 ^ lp q).
  assert (2 ^ lc q * 2 ^ a = 256) as Ha.
  { unfold a. rewrite <-Z.pow_add_r by lia. by replace (lc q + (8 - lc q)) with 8 by lia. }
  assert ((m * 256 + prev) / 2 ^ a = m * 2 ^ lc q + prev / 2 ^ a) as ->.
  2:{ rewrite <-Z.mul_assoc, (Z.mul_comm (2 ^ a)), Ha. lia. }
  rewrite <-Ha, Z.mul_assoc, Z.add_comm, Z.div_add by (apply Z.pow_nonzero; lia). lia.
Qed.

Lemma dummy_literal_offset q pp prev :
  props_ok q -> 0 <= pp -> in_width 8 prev ->
  ((pp &&& ((1 <<< lp q) - 1)) <<< lc q) + (prev >>> (8 - lc q)) = literal_index q pp prev.
Proof.
  intros (Hlc & Hlp & _) Hpp Hprev.
  rewrite (Z.shiftl_mul_pow2 1), Z.mul_1_l, land_ones_mod by lia.
  by rewrite Z.shiftl_mul_pow2, Z.shiftr_div_pow2 by lia.
Qed.

Lemma literal_index_bound q pp prev :
  props_ok q -> 0 <= pp -> in_width 8 prev -> 0 <= literal_index q pp prev < 2 ^ (lc q + lp q).
Proof.
  intros (Hlc & Hlp & _) Hpp Hprev. unfold in_width in Hprev. unfold literal_index.
  pose proof (Z.mod_pos_bound pp (2 ^ lp q) ltac:(apply Z.pow_pos_nonneg; lia)).
  assert (0 <= prev / 2 ^ (8 - lc q) < 2 ^ lc q).
  { split; [apply Z.div_pos; [lia|apply Z.pow_pos_nonneg; lia]|].
    apply Z.div_lt_upper_bound; [apply Z.pow_pos_nonneg; lia|].
    rewrite <-Z.pow_add_r by lia. replace (8 - lc q + lc q) with 8 by lia. lia. }
  rewrite Z.pow_add_r by lia. nia.
Qed.

Lemma num_probs q : props_ok q -> LzmaProps_GetNumProbs q = 1984 + 768 * 2 ^ (lc q + lp q).
Proof.
  intros (Hlc & Hlp & _). unfold LzmaProps_GetNumProbs. rewrite Z.shiftl_mul_pow2 by lia. done.
Qed.

Section Symbol.
Context (p : CLzmaDec).
Hypothesis Hp : sym_pre p.

Lemma posState_ok : exists k, 0 <= k < 16 /\ posState p = 16 * k.
Proof.
  destruct (pre_props _ Hp) as (_ & _ & Hpb & _).
  unfold posState, CALC_POS_STATE, pbMask. rewrite (Z.shiftl_mul_pow2 1), Z.mul_1_l by lia.
  rewrite land_ones_mod, Z.shiftl_mul_pow2 by lia.
  exists (processedPos p mod 2 ^ pb (prop p)). split; [|lia].
  pose proof (Z.mod_pos_bound (processedPos p) (2 ^ pb (prop p)) ltac:(apply Z.pow_pos_nonneg; lia)).
  assert (2 ^ pb (prop p) <= 2 ^ 4) by (apply Z.pow_le_mono_r; lia). lia.
Qed.

Lemma prev_byte_ok : exists b, prev_byte p = Some b /\ in_width 8 b.
Proof.
  destruct Hp. unfold prev_byte, dicBufSize in *.
  destruct (rd_Some (dic p) ((if dicPos p =? 0 then Z.of_nat (length (dic p)) else dicPos p) - 1)) as [b Hb].
  { destruct (Z.eqb_spec (dicPos p) 0); lia. }
  exists b. split; [done|]. exact (rd_Forall _ _ _ _ pre_dic0 Hb).
Qed.

Lemma rep_pos_ok : 0 <= rep_pos p < dicBufSize p.
Proof.
  destruct Hp. unfold rep_ok, dicBufSize in *. unfold rep_pos, dicBufSize.
  destruct (Z.ltb_spec (dicPos p) (rep0 p)); unfold wrap; rewrite Z.mod_small by lia; lia.
Qed.

Lemma match_byte_ok : exists b, match_byte p = Some b /\ in_width 8 b.
Proof.
  unfold match_byte. destruct (rd_Some (dic p) (rep_pos p) rep_pos_ok) as [b Hb].
  exists b. split; [done|]. exact (rd_Forall _ _ _ _ (pre_dic _ Hp) Hb).
Qed.

(** The literal coder: an index of it, the same for both readers. *)
Lemma literal_base : exists k, 0 <= k < 2 ^ (lc (prop p) + lp (prop p)) /\
  real_literal p = Ret (320 + 768 * k) /\ dummy_literal p = Ret (320 + 768 * k).
Proof.
  destruct prev_byte_ok as (b & Hb & Hw). pose proof (pre_props _ Hp) as Hq.
  pose proof (pre_processed _ Hp) as [Hpp _].
  unfold real_literal, dummy_literal. rewrite (orb_comm (negb (checkDicSize p =? 0))).
  destruct (negb (processedPos p =? 0) || negb (checkDicSize p =? 0)).
  - rewrite Hb. cbn [access mbind parse_bind mret parse_ret]. unfold lpMask.
    rewrite real_literal_offset, dummy_literal_offset by done.
    exists (literal_index (prop p) (processedPos p) b). split; [by apply literal_index_bound|done].
  - exists 0. split; [split; [lia|apply Z.pow_pos_nonneg; destruct Hq as (? & ? & _); lia]|done].
Qed.

(** ** Every symbol is a good tree *)

Local Abbreviation n := (LzmaProps_GetNumProbs (prop p)).

Lemma n_ge : 2752 <= n.
Proof.
  rewrite num_probs by apply Hp. destruct (pre_props _ Hp) as ((? & _) & (? & _) & _).
  pose proof (Z.pow_pos_nonneg 2 (lc (prop p) + lp (prop p)) ltac:(lia) ltac:(lia)). lia.
Qed.

Local Ltac region := layout; try match goal with |- context [n] => pose proof n_ge | |- _ => idtac end; lia.

Lemma good_access {A B} (o : option A) a (k : A -> parse B) u i j Q :
  o = Some a -> good n u i j Q (k a) -> good n u i j Q (access o ≫= k).
Proof. by intros ->. Qed.

Lemma good_lit u (R : Z -> Prop) i :
  (i = 1)%nat -> within u R -> (forall x, 1984 <= x -> ~ R x) ->
  good n u i 0 (fun _ _ _ => sym_ok p) (real_lit p).
Proof.
  intros -> Hu HR. unfold real_lit.
  destruct (literal_base) as (k & Hk & -> & _). cbn [mbind parse_bind].
  pose proof (pre_state _ Hp) as Hst.
  assert (1984 + 768 * k + 768 <= n) as Hn.
  { rewrite num_probs by apply Hp. nia. }
  layout. destruct (Z.ltb_spec (state p) 7).
  - apply good_bind, (good_tree_bits n 256 8 u 1 0 R); layout; try lia; try done.
    + intros y Hy. apply HR. lia.
    + unfold fits. lia.
    + intros u' x _ Hx. cbn. split; [|lia]. destruct (Z.ltb_spec (state p) 4); lia.
  - destruct (match_byte_ok) as (b & Hb & Hw). unfold in_width in Hw.
    eapply good_access; [exact Hb|].
    apply good_bind, (good_matched_bits n 8 u 1 0 R); layout; try lia; try done.
    + intros y e Hy He. apply HR. lia.
    + unfold fits. lia.
    + intros u' x Hx. cbn. split; [|lia]. destruct (Z.ltb_spec (state p) 10); lia.
Qed.

(** A length: at most 10 bits, of the coder at [prob]. *)
Lemma good_len u (R : Z -> Prop) i prob Q :
  prob = RepLenCoder \/ prob = LenCoder -> (i <= 5)%nat -> within u R ->
  (forall x, kStartOffset + prob <= x < kStartOffset + prob + 512 -> ~ R x) ->
  (forall u' i' len, (i' <= i + 10)%nat ->
     within u' (fun x => R x \/ kStartOffset + prob <= x < kStartOffset + prob + 512) ->
     len_ok len -> Q u' i' 0%nat len) ->
  good n u i 0 Q (real_len prob (posState p)).
Proof.
  intros Hprob Hi Hu HR HQ. destruct posState_ok as (k & Hk & Hps). pose proof n_ge.
  unfold real_len. rewrite Hps.
  assert (forall m base L u2 R2 i2 (g : Z -> Z), within u2 R2 -> L = 2 ^ Z.of_nat m -> (i2 + m <= i + 10)%nat ->
    prob <= base -> base + L <= prob + 512 ->
    (forall x, kStartOffset + base + 1 <= x < kStartOffset + base + L -> ~ R2 x) ->
    (forall x, R2 x -> R x \/ kStartOffset + prob <= x < kStartOffset + prob + 512) ->
    (forall x, L <= x < 2 * L -> len_ok (g x)) ->
    good n u2 i2 0 (fun u i j x => Q u i j (g x)) (tree_bits m base 1)) as Htree.
  { intros m base L u2 R2 i2 g Hu2 HL Hm Hb1 Hb2 HR2 HRR Hg.
    apply (good_tree_bits n L m u2 i2 0 R2); [done|layout; lia..| |unfold fits; lia|].
    - intros y Hy. apply HR2. lia.
    - intros u3 x Hu3 Hx. apply HQ; [lia| |by apply Hg].
      apply (within_mono _ _ _ Hu3). intros z [Hz|Hz]; [by apply HRR|right]. lia. }
  apply (good_P n u i 0 R); [done|layout; lia|apply HR; layout; lia|unfold fits; lia|].
  intros [|] u1 Hu1; cbn [negb].
  - apply (good_P n u1 (S i) 0 _ _ _ _ Hu1); [layout; lia| |unfold fits; lia|].
    { layout. intros [Hr|?]; [|lia]. eapply HR; [|exact Hr]. lia. }
    intros [|] u2 Hu2; cbn [negb].
    + unfold TREE_DECODE. apply good_bind, good_bind, (good_shape n (tree_bits 8 (prob + LenHigh) 1)).
      { apply tree_loop_bits; (done || lia). }
      cbn [good]. apply (Htree 8%nat (prob + LenHigh) 256 u2 _ (S (S i)) (fun x => x - (1 <<< kLenNumHighBits) + kLenNumLowSymbols * 2) Hu2);
        unfold len_ok; layout; try lia.
      * intros x Hx [[Hr|?]|?]; [|lia..]. eapply HR; [|exact Hr]. lia.
      * intros x [[Hr|?]|?]; [by left|right; lia..].
    + apply (Htree 3%nat _ 8 u2 _ (S (S i)) (fun x => x) Hu2); unfold len_ok; layout; try lia.
      * intros x Hx [[Hr|?]|?]; [|lia..]. eapply HR; [|exact Hr]. lia.
      * intros x [[Hr|?]|?]; [by left|right; lia..].
  - apply good_bind. apply (Htree 3%nat _ 8 u1 _ (S i) (fun x => x - 8) Hu1); unfold len_ok; layout; try lia.
    + intros x Hx [Hr|?]; [|lia]. eapply HR; [|exact Hr]. lia.
    + intros x [Hr|?]; [by left|right; lia].
Qed.
(** A distance: 6 bits of slot, then at most 5 bits, or at most 26 direct bits and 4. *)
Lemma good_distance u (R : Z -> Prop) i len (Q : list Z -> nat -> nat -> option Z -> Prop) :
  (i <= 12)%nat -> 0 <= len -> within u R ->
  (forall x, 0 <= x < 128 \/ 1664 <= x < 1680 \/ 1728 <= x < 1984 -> ~ R x) ->
  (forall u' i' j' d, match d with Some d => 0 <= d | None => True end -> Q u' i' j' d) ->
  good n u i 0 Q (real_distance len).
Proof.
  intros Hi Hlen Hu HR HQ. pose proof n_ge. unfold real_distance. rewrite Z.shiftl_mul_pow2 by (layout; lia).
  layout. set (l := if len <? 4 then len else 4 - 1).
  assert (0 <= l <= 3) by (unfold l; destruct (Z.ltb_spec len 4); lia).
  unfold TREE_6_DECODE. apply good_bind, good_bind.
  apply (good_tree_bits n 64 6 u i 0 R); layout; try lia; try done.
  { intros y Hy. apply HR. lia. }
  { unfold fits. lia. }
  intros u1 x Hu1 Hx. cbn [good mret parse_ret]. set (slot := x - 64). assert (0 <= slot < 64) by (unfold slot; lia). clearbody slot.
  destruct (Z.leb_spec 4 slot) as [Hslot|Hslot]; [|apply (HQ _ _ _ (Some slot)); lia].
  rewrite !Z.shiftr_div_pow2 by lia. change (2 ^ 1) with 2.
  assert (2 <= 2 ||| (slot &&& 1) <= 3) as Hlow.
  { change 1 with (2 ^ 1 - 1). rewrite land_ones_mod by lia. change (2 ^ 1) with 2.
    pose proof (Z.mod_pos_bound slot 2 ltac:(lia)).
    assert (slot mod 2 = 0 \/ slot mod 2 = 1) as [->| ->] by lia; [change (2 ||| 0) with 2|change (2 ||| 1) with 3]; lia. }
  set (low := 2 ||| (slot &&& 1)) in *.
  destruct (Z.ltb_spec slot 14) as [Hs|Hs].
  - assert (1 <= slot / 2 - 1 <= 5) as Hk.
    { split; [|apply Z.lt_succ_r, Z.lt_sub_lt_add_r, Z.div_lt_upper_bound; lia].
      assert (2 <= slot / 2) by (apply Z.div_le_lower_bound; lia). lia. }
    set (k := slot / 2 - 1) in *. rewrite Z.shiftl_mul_pow2 by lia.
    assert (2 <= 2 ^ k <= 32).
    { change 2 with (2 ^ 1) at 1. change 32 with (2 ^ 5). split; apply Z.pow_le_mono_r; lia. }
    apply good_bind, (good_rev_bits n (low * 2 ^ k) (2 ^ k) (Z.to_nat k) u1 (i + 6) 0
      (fun z => R z \/ 1664 + (64 + l * 2 ^ 6) + 1 <= z < 1664 + (64 + l * 2 ^ 6) + 64));
      layout; rewrite ?Z2Nat.id by lia; try lia; try nia; try done.
    + intros y Hy [Hr|?]; [|nia]. eapply HR; [|exact Hr]. nia.
    + unfold fits. lia.
    + intros u2 x' _ Hx'. refine (HQ _ _ _ (Some _) _). nia.
  - assert (6 <= slot / 2 - 1 <= 30) as Hk.
    { assert (7 <= slot / 2) by (apply Z.div_le_lower_bound; lia).
      assert (slot / 2 < 32) by (apply Z.div_lt_upper_bound; lia). lia. }
    apply good_bind, (good_direct_bits n (Z.to_nat (slot / 2 - 1 - 4))); [lia|unfold fits; lia|].
    intros x' Hx'.
    assert (forall b c d e : bool, 0 <=
      (u32 (x' <<< 4) ||| (let i1 := if b then 1 + 1 * 2 else 1 + 1 in
        let i2 := if c then i1 + 2 * 2 else i1 + 2 in
        let i3 := if d then i2 + 4 * 2 else i2 + 4 in if e then i3 else i3 - 8))) as Hd.
    { intros b c d e. apply Z.lor_nonneg. split; [apply wrap_in_width; lia|]. destruct b, c, d, e; cbn; lia. }
    set (R2 := fun z => R z \/ 1664 + (64 + l * 2 ^ 6) + 1 <= z < 1664 + (64 + l * 2 ^ 6) + 64) in *.
    assert (forall z, 1664 <= z < 1680 -> ~ R2 z) as HR2.
    { intros z Hz [Hr|?]; [|lia]. eapply HR; [|exact Hr]. lia. }
    unfold REV_BIT_CONST, REV_BIT_LAST.
    apply good_bind, (good_P n u1 _ _ R2); layout; [done|lia|apply HR2; lia|unfold fits; lia|].
    intros b u2 Hu2. cbn [good mret parse_ret].
    apply good_bind, (good_P n u2 _ _ _ _ _ _ Hu2); layout; [destruct b; lia|
      intros [Hr|?]; [|destruct b; lia]; eapply HR2; [|exact Hr]; destruct b; lia|unfold fits; lia|].
    intros c u3 Hu3. cbn [good mret parse_ret].
    apply good_bind, (good_P n u3 _ _ _ _ _ _ Hu3); layout; [destruct b, c; lia|
      intros [[Hr|?]|?]; [|destruct b, c; lia..]; eapply HR2; [|exact Hr]; destruct b, c; lia|unfold fits; lia|].
    intros d u4 Hu4. cbn [good mret parse_ret].
    apply good_bind, (good_P n u4 _ _ _ _ _ _ Hu4); layout; [destruct b, c, d; lia|
      intros [[[Hr|?]|?]|?]; [|destruct b, c, d; lia..]; eapply HR2; [|exact Hr]; destruct b, c, d; lia|unfold fits; lia|].
    intros e u5 Hu5. cbn [good mret parse_ret].
    apply HQ. specialize (Hd b c d e). cbv zeta in Hd.
    match goal with |- context [if ?x then None else _] => destruct x end; [done|exact Hd].
Qed.

Lemma good_match u (R : Z -> Prop) :
  within u R ->
  (forall x, R x -> 128 <= x < 384 \/ 1408 <= x < 1664 \/ 1680 <= x < 1692) ->
  good n u 2 0 (fun _ _ _ => sym_ok p) (real_match p).
Proof.
  intros Hu HR. unfold real_match. pose proof (pre_state _ Hp). apply good_bind.
  apply (good_len u R); [by right|lia|done| |]; layout.
  { intros x Hx Hr. apply HR in Hr. lia. }
  intros u1 i1 len Hi1 Hu1 Hlen. apply good_bind, (good_distance u1 _ i1 len _ ltac:(lia) ltac:(unfold len_ok in Hlen; lia) Hu1).
  - intros x Hx [Hr|?]; [apply HR in Hr|]; lia.
  - intros u2 i2 j2 [d|] Hd; cbn; [|lia]. refine (conj _ (conj Hd Hlen)).
    destruct (Z.ltb_spec (state p + 12) (12 + 7)); lia.
Qed.

Lemma good_rep u (R : Z -> Prop) :
  within u R ->
  (forall x, R x -> 1408 <= x < 1664 \/ 1680 <= x < 1692) ->
  good n u 2 0 (fun _ _ _ => sym_ok p) (real_rep p).
Proof.
  intros Hu HR. unfold real_rep. pose proof (pre_state _ Hp) as Hst. pose proof n_ge.
  destruct posState_ok as (k & Hk & Hps).
  assert (forall i u' R' r0 r1 r2 r3, (i <= 5)%nat -> within u' R' ->
    (forall x, R' x -> 128 <= x < 384 \/ 1408 <= x < 1728) ->
    rep_ok p r0 -> rep_ok p r1 -> rep_ok p r2 -> rep_ok p r3 ->
    good n u' i 0 (fun _ _ _ => sym_ok p) (rep_len p r0 r1 r2 r3)) as Hfin.
  { intros i u' R' r0 r1 r2 r3 Hi Hu' HR' H0 H1 H2 H3. unfold rep_len. apply good_bind.
    apply (good_len u' R'); [by left|lia|done| |]; layout.
    { intros x Hx Hr. apply HR' in Hr. lia. }
    intros u1 i1 len Hi1 Hu1 Hlen. cbn. split_and!; try done; destruct (state p <? 7); lia. }
  destruct Hp as [_ _ _ _ _ _ Hr0 Hr1 Hr2 Hr3]. rewrite Hps.
  apply (good_P n u 2 0 R); layout; [done|lia|intros Hr; apply HR in Hr; lia|unfold fits; lia|].
  intros [|] u1 Hu1; cbn [negb].
  - apply (good_P n u1 3 0 _ _ _ _ Hu1); layout; [lia| |unfold fits; lia|].
    { intros [Hr|?]; [apply HR in Hr|]; lia. }
    intros [|] u2 Hu2; cbn [negb].
    + apply (good_P n u2 4 0 _ _ _ _ Hu2); layout; [lia| |unfold fits; lia|].
      { intros [[Hr|?]|?]; [apply HR in Hr|..]; lia. }
      intros [|] u3 Hu3; cbn [negb]; apply (Hfin 5%nat _ _ _ _ _ _ ltac:(lia) Hu3); try done;
        intros x [[[Hr|?]|?]|?]; try apply HR in Hr; lia.
    + apply (Hfin 4%nat _ _ _ _ _ _ ltac:(lia) Hu2); try done.
      intros x [[Hr|?]|?]; [apply HR in Hr|..]; lia.
  - apply (good_P n u1 3 0 _ _ _ _ Hu1); layout; [lia| |unfold fits; lia|].
    { intros [Hr|?]; [apply HR in Hr|]; lia. }
    intros [|] u2 Hu2; cbn [negb].
    + apply (Hfin 4%nat _ _ _ _ _ _ ltac:(lia) Hu2); try done.
      intros x [[Hr|?]|?]; [apply HR in Hr|..]; lia.
    + cbn. destruct (state p <? 7); lia.
Qed.

Lemma good_symbol : good n [] 0 0 (fun _ _ _ => sym_ok p) (decode_real p).
Proof.
  unfold decode_real. pose proof (pre_state _ Hp) as Hst. pose proof n_ge.
  destruct posState_ok as (k & Hk & Hps). rewrite Hps.
  apply (good_P n [] 0 0 (fun _ => False)); layout; [apply within_nil|lia|by intros []|unfold fits; lia|].
  intros [|] u1 Hu1; cbn [negb].
  - apply (good_P n u1 1 0 _ _ _ _ Hu1); layout; [lia|intros [[]|?]; lia|unfold fits; lia|].
    intros [|] u2 Hu2; cbn [negb].
    + apply (good_rep u2 _ Hu2). intros x [[[]|?]|?]; lia.
    + apply (good_match u2 _ Hu2). intros x [[[]|?]|?]; lia.
  - apply (good_lit u1 _ 1 eq_refl Hu1). intros x Hx [[]|?]; lia.
Qed.

(** ** LzmaDec_TryDummy walks the same tree *)

Definition kind (s : sym) : ELzmaDummy :=
  match s with
  | SymLit _ _ => DUMMY_LIT
  | SymShortRep _ | SymRep _ _ _ _ _ _ => DUMMY_REP
  | SymMatch _ _ _ | SymEnd _ => DUMMY_MATCH
  end.

Lemma shape_P {A B} (f : A -> B -> Prop) off off' (k : bool -> parse A) (k' : bool -> parse B) :
  off = off' -> (forall b, shape f (k b) (k' b)) -> shape f (P off ≫= k) (P off' ≫= k').
Proof. intros -> H. cbn. auto. Qed.

Lemma shape_tree L k base : (k <= 7)%nat -> L = 2 ^ Z.of_nat (S k) ->
  shape (fun x y => x = y - L) (TREE_DECODE base L) (tree_bits (S k) base 1).
Proof.
  intros Hk ->. apply (shape_map_l eq); [|by intros a b ->].
  eapply shape_mono; [apply shape_sym, tree_loop_bits; (done || lia)|]. by intros a b ->.
Qed.

Lemma shape_len prob ps : shape eq (dummy_len prob ps) (real_len prob ps).
Proof.
  unfold dummy_len, real_len. layout. cbn -[TREE_DECODE tree_bits].
  split; [done|]. intros [|]; cbn -[TREE_DECODE tree_bits].
  - split; [done|]. intros [|]; cbn -[TREE_DECODE tree_bits].
    + apply (shape_bind eq); [apply shape_refl|]. by intros a b ->.
    + apply (shape_map_l (fun x y => x = y - 8)); [by apply (shape_tree 8 2); lia|]. intros a b ->. lia.
  - apply (shape_bind (fun x y => x = y - 8)); [by apply (shape_tree 8 2); lia|].
    intros a b ->. cbn. lia.
Qed.

Lemma shape_rev_bits k base d : forall i m,
  shape (fun _ _ => True) (rev_bits k (base + d) i m) (rev_bits k base (d + i) m).
Proof.
  induction k as [|k IH]; intros i m; cbn [rev_bits]; [done|].
  apply shape_P; [lia|]. intros [|]; rewrite <-Z.add_assoc; apply IH.
Qed.

Lemma shape_direct k : forall x, shape (fun _ _ => True) (skip_direct k) (direct_bits k x).
Proof. induction k as [|k IH]; intros x; cbn; [done|]. intros t. apply IH. Qed.

Lemma matched_loop_bits k : forall base mb offs x, 1 <= x ->
  256 <= x * 2 ^ Z.of_nat (S k) -> (x + 1) * 2 ^ Z.of_nat (S k) <= 512 ->
  shape (fun _ _ => True) (matched_loop k base mb offs x) (matched_bits (S k) base mb offs x).
Proof.
  induction k as [|k IH]; intros base mb offs x Hx HL HL2.
  - cbn. split; [done|]. by intros [|].
  - rewrite Nat2Z.inj_succ, Z.pow_succ_r in HL, HL2 by lia.
    assert (2 <= 2 ^ Z.of_nat (S k)).
    { rewrite Nat2Z.inj_succ, Z.pow_succ_r by lia. pose proof (Z.pow_pos_nonneg 2 (Z.of_nat k)). lia. }
    cbn [matched_bits]. cbn -[matched_bits Z.of_nat]. split; [done|]. intros [|].
    + destruct (Z.ltb_spec (x + x + 1) 256); [apply IH; nia|nia].
    + destruct (Z.ltb_spec (x + x) 256); [apply IH; nia|nia].
Qed.
Lemma shape_distance len : shape (fun _ _ => True) (dummy_distance len) (real_distance len).
Proof.
  unfold dummy_distance, real_distance. layout.
  replace (if len <? 4 then len else 4 - 1) with (if len <? 4 - 1 then len else 4 - 1)
    by (destruct (Z.ltb_spec len (4 - 1)), (Z.ltb_spec len 4); lia).
  set (base := 64 + _). apply (shape_bind eq).
  { unfold TREE_6_DECODE. change (TREE_DECODE base 64) with (TREE_LOOP 7 base 64 1 ≫= fun i => Ret (i - 64)).
    apply (shape_bind eq); [|by intros a b ->].
    eapply shape_mono; [apply shape_sym, (tree_loop_bits 64 5); (done || lia)|]. by intros a b ->. }
  intros slot _ <-. destruct (4 <=? slot); [|done]. destruct (slot <? 14).
  - cbn [mbind parse_bind mret parse_ret].
    apply (shape_bind (fun _ _ => True)); [apply shape_rev_bits|by intros ? [] _].
  - apply (shape_bind (fun x _ => x = (0, 4))).
    { apply (shape_map_l (fun _ _ => True)); [apply shape_direct|done]. }
    intros _ distance ->. cbn -[Z.mul Z.lor wrap Z.shiftl].
    do 4 (split; [reflexivity|]; intros [|]); cbn; reflexivity.
Qed.

Lemma shape_match : shape (fun d s => kind s = d) (dummy_match p) (real_match p).
Proof.
  unfold dummy_match, real_match. apply (shape_bind eq); [apply shape_len|]. intros len _ <-.
  apply (shape_bind (fun _ _ => True)); [apply shape_distance|]. by intros _ [d|] _.
Qed.

Lemma shape_rep : shape (fun d s => kind s = d) (dummy_rep p) (real_rep p).
Proof.
  assert (forall r0 r1 r2 r3, shape (fun d s => kind s = d)
    (_ ← dummy_len RepLenCoder (posState p); mret DUMMY_REP) (rep_len p r0 r1 r2 r3)) as Hlen.
  { intros r0 r1 r2 r3. unfold rep_len. apply (shape_bind eq); [apply shape_len|]. by intros len _ <-. }
  unfold dummy_rep, real_rep. apply shape_P; [done|]. intros [|]; cbn [negb].
  - apply shape_P; [done|]. intros [|]; cbn [negb]; [|apply Hlen].
    apply shape_P; [done|]. intros [|]; cbn [negb]; apply Hlen.
  - apply shape_P; [done|]. intros [|]; cbn [negb]; [apply Hlen|done].
Qed.

Lemma shape_symbol : shape (fun d s => kind s = d) (decode_dummy p) (decode_real p).
Proof.
  unfold decode_dummy, decode_real. apply shape_P; [done|]. intros [|]; cbn [negb].
  - apply shape_P; [done|]. intros [|]; cbn [negb]; [apply shape_rep|apply shape_match].
  - unfold dummy_lit, real_lit. destruct (literal_base) as (k & Hk & -> & ->).
    cbn [mbind parse_bind]. destruct (state p <? kNumLitStates).
    + apply (shape_bind (fun _ _ => True)); [|done].
      eapply shape_mono; [apply shape_sym, tree_loop_bits; (done || lia)|done].
    + destruct match_byte_ok as (b & -> & _). cbn [access mbind parse_bind].
      apply (shape_bind (fun _ _ => True)); [|done]. by apply (matched_loop_bits 7); lia.
Qed.
End Symbol.
