(* ===== verification/LzmaDecSafe.v ===== *)
(** * LZMA decoder: every call is safe

    The invariant of CLzmaDec ([wf]) and its proof for LzmaDec_DecodeToDic: from
    any well-formed decoder and any input, every call returns, stays inside the
    dictionary, the probabilities, the temporary buffer and the input, never
    reports the internal error SZ_ERROR_FAIL, and leaves a well-formed decoder. *)

From stdpp Require Import base numbers list list_numbers.
From Stdlib Require Import ZArith Lia.
From S2P Require Import Prelude SzTypes LzmaParse LzmaDec LzmaDecSym.
Local Open Scope Z_scope.
Local Open Scope word_scope.

(** ** Effects of a symbol *)

(** What decoding never changes, and what it does to the dictionary: only
    [[dicPos p, dicPos p')] is written. *)
Record advance (p p' : CLzmaDec) : Prop := {
  adv_prop : prop p' = prop p;
  adv_size : length (dic p') = length (dic p);
  adv_bytes : bytes (dic p');
  adv_pos : dicPos p <= dicPos p';
  adv_frame : forall i, i < dicPos p \/ dicPos p' <= i -> rd (dic p') i = rd (dic p) i;
  adv_temp : tempBuf p' = tempBuf p;
  adv_tempSize : tempBufSize p' = tempBufSize p
}.

Lemma advance_refl p : bytes (dic p) -> advance p p.
Proof. intros. by constructor. Qed.

Lemma advance_trans p q r : advance p q -> advance q r -> advance p r.
Proof.
  intros [] []. constructor; try congruence; [lia|].
  intros i Hi. rewrite adv_frame1, adv_frame0; [done|lia|lia].
Qed.

Lemma rd_insert_eq {A} (l : list A) i v : 0 <= i < Z.of_nat (length l) -> rd (<[Z.to_nat i := v]> l) i = Some v.
Proof. intros. rewrite rd_lookup by lia. apply list_lookup_insert_eq. lia. Qed.

(** The copy loops: [dic'] is [dic] outside the [len] cells written. *)
Definition copied (dic dic' : list Z) (dicPos len : Z) : Prop :=
  length dic' = length dic /\ bytes dic' /\
  forall i, i < dicPos \/ dicPos + len <= i -> rd dic' i = rd dic i.

Lemma copied_step dic dic' d k b :
  copied dic dic' d k -> 0 <= d -> 0 <= k -> d + k < Z.of_nat (length dic) -> in_width 8 b ->
  wrz dic' (d + k) b = Some (<[Z.to_nat (d + k) := b]> dic') /\
  copied dic (<[Z.to_nat (d + k) := b]> dic') d (k + 1).
Proof.
  intros (Hl & Hb & Hf) Hd Hk Hlt Hw. split; [apply wrz_Some; lia|].
  split; [by rewrite length_insert|]. split; [by apply Forall_insert|].
  intros i Hi. rewrite rd_insert_ne by lia. apply Hf. lia.
Qed.

Lemma copied_0 dic d : bytes dic -> copied dic dic d 0.
Proof. intros. by split. Qed.

Lemma copy_fwd_ok dic pos d len :
  bytes dic -> 0 <= pos -> pos + len <= Z.of_nat (length dic) -> 0 <= d ->
  d + len <= Z.of_nat (length dic) -> 1 <= len ->
  exists dic', copy_fwd dic pos d len = Some dic' /\ copied dic dic' d len.
Proof.
  intros Hb Hp Hpl Hd Hdl Hlen. unfold copy_fwd.
  do_while_inv (fun '(i, l) => 0 <= i < len /\ copied dic l d i) (fun '(i, _) => Z.to_nat (len - i))
    (fun '(i, l) => copied dic l d len).
  - split; [lia|by apply copied_0].
  - lia.
  - intros [i l] [Hi Hc]. pose proof Hc as (Hl & Hbl & _).
    destruct (rd_Some l (pos + i)) as [b Hr]; [lia|]. rewrite Hr. opt.
    destruct (copied_step dic l d i b Hc) as [-> Hc']; [lia..|exact (rd_Forall _ _ _ _ Hbl Hr)|]. opt.
    eexists. split; [done|]. cbv beta iota zeta. destruct (Z.eqb_spec (i + 1) len) as [<-|]; cbn [negb]; [done|].
    split; [split; [lia|done]|lia].
  - intros [i l] Hc. exists l. done.
Qed.

Lemma copy_wrap_ok dic pos d len :
  bytes dic -> 0 <= pos < Z.of_nat (length dic) -> 0 <= d ->
  d + len <= Z.of_nat (length dic) -> 1 <= len ->
  exists dic', copy_wrap dic pos d len = Some dic' /\ copied dic dic' d len.
Proof.
  intros Hb Hp Hd Hdl Hlen. unfold copy_wrap.
  do_while_inv
    (fun '(q, e, k, l) => 0 <= q < Z.of_nat (length dic) /\ e = d + (len - k) /\ 1 <= k <= len /\
       copied dic l d (len - k))
    (fun '(_, _, k, _) => Z.to_nat k) (fun '(_, _, _, l) => copied dic l d len).
  - split_and!; [lia..|]. rewrite Z.sub_diag. by apply copied_0.
  - lia.
  - intros [[[q e] k] l] (Hq & -> & Hk & Hc). pose proof Hc as (Hl & Hbl & _).
    destruct (rd_Some l q) as [b Hr]; [lia|]. rewrite Hr. opt.
    destruct (copied_step dic l d (len - k) b Hc) as [-> Hc']; [lia..|exact (rd_Forall _ _ _ _ Hbl Hr)|]. opt.
    eexists. split; [done|]. rewrite length_insert, Hl.
    replace (len - k + 1) with (len - (k - 1)) in Hc' by lia.
    destruct (Z.eqb_spec (k - 1) 0) as [E|E]; cbn [negb].
    + by rewrite E, Z.sub_0_r in Hc'.
    + split; [|lia]. split_and!; try lia; [destruct (Z.eqb_spec (q + 1) (Z.of_nat (length dic))); lia..|done].
  - intros [[[q e] k] l] Hc. exists l. done.
Qed.

(** The distances a match may have: what was written, or the whole dictionary.  [win]
    is the form inside the main loop, which stops at [limit]. *)
Definition win (limit : Z) (p : CLzmaDec) : Prop :=
  (if checkDicSize p =? 0 then processedPos p + (limit - dicPos p) else checkDicSize p)
  <= Z.min (dicBufSize p) (dicSize (prop p)).

(** What [exec_sym] may leave in [remainLen], and whether the loop goes on. *)
Definition after_sym (limit : Z) (p p' : CLzmaDec) (go : bool) : Prop :=
  if go
  then sym_pre p' /\ dicPos p < dicPos p' /\ 0 <= remainLen p' <= 273 /\
       (dicPos p' < limit -> remainLen p' = 0)
  else dicPos p' = dicPos p /\
       ((sym_pre p' /\ (remainLen p' = 274 \/ 1 <= remainLen p' <= 273 /\ dicPos p' = limit)) \/
        512 <= remainLen p').

Lemma copied_advance p p' len :
  copied (dic p) (dic p') (dicPos p) len -> 0 <= len -> dicPos p' = dicPos p + len ->
  prop p' = prop p -> tempBuf p' = tempBuf p -> tempBufSize p' = tempBufSize p -> advance p p'.
Proof.
  intros (Hl & Hb & Hf) Hlen Hd Hprop Ht Hts. constructor; try done; [lia|].
  intros i Hi. apply Hf. lia.
Qed.

Lemma sym_pre_advance p p' :
  sym_pre p -> advance p p' -> dicPos p' <= dicBufSize p -> in_width 32 (processedPos p') ->
  0 <= state p' < 12 -> rep_ok p (rep0 p') -> rep_ok p (rep1 p') -> rep_ok p (rep2 p') ->
  rep_ok p (rep3 p') -> sym_pre p'.
Proof.
  intros [] []. unfold rep_ok, dicBufSize in *. intros. constructor; unfold rep_ok, dicBufSize;
    rewrite ?adv_size0, ?adv_prop0; try done; lia.
Qed.

(** The processed bytes follow the dictionary position, modulo 2^32. *)
Definition counted (p p' : CLzmaDec) : Prop :=
  coder p' = coder p /\ checkDicSize p' = checkDicSize p /\
  processedPos p' = u32 (processedPos p + (dicPos p' - dicPos p)).

Lemma counted_still p p' :
  in_width 32 (processedPos p) -> coder p' = coder p -> checkDicSize p' = checkDicSize p ->
  processedPos p' = processedPos p -> dicPos p' = dicPos p -> counted p p'.
Proof.
  intros Hw Hc Hd Hpp Hpos. split_and!; [done|done|].
  rewrite Hpos, Z.sub_diag, Z.add_0_r, Hpp. symmetry. by apply wrap_small.
Qed.

Lemma copy_match_ok limit len p :
  sym_pre p -> len_ok len -> dicPos p <= limit <= dicBufSize p -> remainLen p = 0 ->
  exists p' go, copy_match limit len p = Some (p', go) /\ advance p p' /\ counted p p' /\
    dicPos p' <= limit /\ after_sym limit p p' go.
Proof.
  intros Hp Hlen Hlim Hrem. unfold len_ok in Hlen. unfold copy_match. layout.
  pose proof (rep_pos_ok p Hp) as Hrp. pose proof Hp as [Hpr Hb Hsz Hpos Hpp Hst Hr0 Hr1 Hr2 Hr3].
  assert (u64 (limit - dicPos p) = limit - dicPos p) as ->.
  { unfold wrap. apply Z.mod_small. lia. }
  destruct (Z.eqb_spec (limit - dicPos p) 0) as [E|E].
  - exists (set_remain (len + 2) p), false. split; [done|].
    refine (conj _ (conj _ (conj _ _))); [by constructor|by apply counted_still|cbn; lia|].
    split; [done|]. left. split; [by constructor|right]. cbn. lia.
  - set (cur := if limit - dicPos p <? len + 2 then limit - dicPos p else len + 2).
    assert (1 <= cur <= len + 2 /\ cur <= limit - dicPos p /\ (cur = limit - dicPos p \/ cur = len + 2)) as Hcur.
    { unfold cur. destruct (Z.ltb_spec (limit - dicPos p) (len + 2)); lia. }
    assert (exists l, (if cur <=? dicBufSize p - rep_pos p
             then copy_fwd (dic p) (rep_pos p) (dicPos p) cur
             else copy_wrap (dic p) (rep_pos p) (dicPos p) cur) = Some l /\ copied (dic p) l (dicPos p) cur)
      as (l & -> & Hc).
    { unfold dicBufSize in *. destruct (Z.leb_spec cur (Z.of_nat (length (dic p)) - rep_pos p)).
      - apply copy_fwd_ok; (done || lia).
      - apply copy_wrap_ok; (done || lia). }
    opt. eexists _, true. split; [reflexivity|].
    assert (forall p', p' = set_remain (len + 2 - cur) (set_dic l (dicPos p + cur) (u32 (processedPos p + cur)) p) ->
      advance p p') as Hadv.
    { intros p' ->. apply (copied_advance _ _ cur); cbn; (done || lia). }
    specialize (Hadv _ eq_refl). split; [exact Hadv|].
    refine (conj _ (conj _ (conj _ (conj _ (conj _ _))))); cbn; [|lia| |lia|lia|lia].
    + split_and!; [done|done|]. cbn. do 2 f_equal. lia.
    + apply (sym_pre_advance p); try done; cbn; [lia|]. apply wrap_in_width. lia.
Qed.

(** A write of one byte. *)
Lemma put_byte_ok limit p st b :
  sym_pre p -> 0 <= st < 12 -> in_width 8 b -> dicPos p < limit <= dicBufSize p -> remainLen p = 0 ->
  exists l, wrz (dic p) (dicPos p) b = Some l /\
    let p' := set_state st (rep0 p) (rep1 p) (rep2 p) (rep3 p)
                (set_dic l (dicPos p + 1) (u32 (processedPos p + 1)) p) in
    advance p p' /\ counted p p' /\ dicPos p' <= limit /\ after_sym limit p p' true.
Proof.
  intros Hp Hst Hw Hlim Hrem. pose proof Hp as [Hpr Hb Hsz Hpos Hpp _ Hr0 Hr1 Hr2 Hr3].
  unfold dicBufSize in *.
  destruct (copied_step (dic p) (dic p) (dicPos p) 0 b) as [Hwr Hc]; [by apply copied_0|lia..|done|].
  rewrite Z.add_0_r in *. rewrite Hwr. eexists. split; [done|]. cbv zeta. set (p' := set_state _ _ _ _ _ _).
  assert (advance p p') as Hadv by (apply (copied_advance _ _ 1); cbn; (done || lia)).
  split; [done|]. refine (conj _ (conj _ (conj _ (conj _ (conj _ _))))); cbn; [|lia| |lia|lia|lia].
  - split_and!; [done|done|]. cbn. do 2 f_equal. lia.
  - apply (sym_pre_advance p); try done; cbn; [unfold dicBufSize; lia|]. apply wrap_in_width. lia.
Qed.

Lemma exec_sym_ok limit s p :
  sym_pre p -> sym_ok p s -> dicPos p <= limit <= dicBufSize p -> remainLen p = 0 -> win limit p ->
  kind s = DUMMY_MATCH \/ dicPos p < limit ->
  exists p' go, exec_sym limit s p = Some (p', go) /\ advance p p' /\ counted p p' /\
    dicPos p' <= limit /\ after_sym limit p p' go.
Proof.
  intros Hp Hs Hlim Hrem Hwin Hkind. pose proof Hp as [Hpr Hb Hsz Hpos Hpp Hst Hr0 Hr1 Hr2 Hr3].
  destruct s as [st x|st|st r0 r1 r2 r3 len|st d len|st]; cbn [sym_ok exec_sym kind] in *.
  - destruct Hs as [Hs1 Hs2]. destruct Hkind as [|Hlt]; [done|].
    destruct (put_byte_ok limit p st (u8 x)) as (l & -> & H); [done|done|apply wrap_in_width; lia|lia|done|].
    opt. by eexists _, true.
  - destruct Hkind as [|Hlt]; [done|]. destruct (match_byte_ok p Hp) as (b & -> & Hw). opt.
    destruct (put_byte_ok limit p st b) as (l & -> & H); [done|done|done|lia|done|]. opt. by eexists _, true.
  - destruct Hs as (Hs & H0 & H1 & H2 & H3 & Hlen).
    destruct (copy_match_ok limit len (set_state st r0 r1 r2 r3 p)) as (p' & go & He & Ha & Hc & Hl & Haft); try done.
    exists p', go. split_and!; try done. destruct Ha. by constructor.
  - destruct Hs as (Hs & Hd & Hlen). layout. cbn [checkDicSize processedPos set_state].
    destruct (Z.leb_spec (if checkDicSize p =? 0 then processedPos p else checkDicSize p) d) as [Hle|Hgt].
    + eexists _, false. split; [done|].
      refine (conj _ (conj _ (conj _ _))); [by constructor|by apply counted_still|cbn; lia|].
      split; [done|]. right. cbn. unfold len_ok in Hlen. lia.
    + assert (rep_ok p (u32 (d + 1))) as Hrd.
      { destruct Hpr as (_ & _ & _ & Hds). unfold rep_ok, win, wrap in *.
        rewrite Z.mod_small by (destruct (checkDicSize p =? 0); lia).
        destruct (checkDicSize p =? 0); lia. }
      destruct (copy_match_ok limit len (set_state st (u32 (d + 1)) (rep0 p) (rep1 p) (rep2 p) p))
        as (p' & go & He & Ha & Hc & Hl & Haft); try done.
      exists p', go. split_and!; try done. destruct Ha. by constructor.
  - layout. eexists _, false. split; [done|].
    refine (conj _ (conj _ (conj _ _))); [by constructor|by apply counted_still|cbn; lia|].
    split; [done|]. left. split; [by constructor|by left].
Qed.

(** ** LzmaDec_DecodeReal_3 *)

Abbreviation nprobs p := (LzmaProps_GetNumProbs (prop p)).

(** Relations between the decoder before and after, whatever the coder. *)
Record moved (limit : Z) (p p' : CLzmaDec) : Prop := {
  mv_advance : advance p p';
  mv_check : checkDicSize p' = checkDicSize p;
  mv_processed : processedPos p' = u32 (processedPos p + (dicPos p' - dicPos p));
  mv_limit : dicPos p' <= limit
}.

Lemma moved_trans limit p q r : moved limit p q -> moved limit q r -> moved limit p r.
Proof.
  intros [A1 C1 P1 L1] [A2 C2 P2 L2]. constructor; [by eapply advance_trans|congruence| |done].
  rewrite P2, P1. unfold wrap. rewrite Zplus_mod_idemp_l. f_equal. lia.
Qed.

Lemma moved_refl limit p :
  bytes (dic p) -> in_width 32 (processedPos p) -> dicPos p <= limit -> moved limit p p.
Proof.
  intros. constructor; [by apply advance_refl|done| |done].
  rewrite Z.sub_diag, Z.add_0_r. symmetry. by apply wrap_small.
Qed.

(** How the main loop may stop. *)
Definition stopped (limit : Z) (p p' : CLzmaDec) : Prop :=
  (sym_pre p' /\ 0 <= remainLen p' <= 274 /\
   (dicPos p' < limit -> remainLen p' = 0 \/ remainLen p' = 274) /\
   (dicPos p' = dicPos p -> remainLen p' <> 0)) \/
  512 <= remainLen p'.

Lemma run_Bit_normalize {A} inp q (k : bool -> parse A) c c1 :
  NORMALIZE inp c = Some c1 -> normalized c1 -> probs c1 = probs c ->
  run inp (Bit q k) c = run inp (Bit q k) c1.
Proof.
  intros Hn Hnorm Hp. cbn [run]. rewrite Hp, Hn. by rewrite (NORMALIZE_normalized inp c1 Hnorm).
Qed.

(** A coder that can be normalised, at [b], and has 20 bytes from there. *)
Definition ready (n : Z) (inp : list Z) (c : rc) (b : Z) : Prop :=
  exists c1, NORMALIZE inp c = Some c1 /\ normalized c1 /\ rc_ok n c1 /\ probs c1 = probs c /\ buf c1 = b.

Section Real.
Context (inp : list Z).
Hypothesis inp_bytes : bytes inp.

Lemma ready_set_buf_normalized n c : rc_ok n c -> normalized c -> ready n inp c (buf c).
Proof. intros. exists c. split_and!; try done. by apply NORMALIZE_normalized. Qed.

(** One symbol, when 20 bytes remain. *)
Lemma run_symbol p b :
  sym_pre p -> ready (nprobs p) inp (coder p) b ->
  b + 20 <= Z.of_nat (length inp) ->
  exists s c', run inp (decode_real p) (coder p) = Some (s, c') /\ sym_ok p s /\ rc_ok (nprobs p) c' /\
    length (probs c') = length (probs (coder p)) /\
    exists e, ready (nprobs p) inp c' e /\ b <= buf c' <= e /\ e <= b + 20 /\ e <= buf c' + 1.
Proof.
  intros Hp (c1 & Hn & Hnorm & Hok & Hpr & <-) Hb.
  assert (decode_real p = Bit (kStartOffset + (IsMatch + (posState p + state p)))
    (fun b => if negb b then real_lit p else (b ← P (IsRep + state p);
       if negb b then real_match p else real_rep p))) as Hdec by done.
  rewrite Hdec, (run_Bit_normalize _ _ _ _ c1), <-Hdec by done.
  destruct (run_total inp (nprobs p) inp_bytes (buf c1) (decode_real p) [] 0 0 _ c1 (good_symbol p Hp))
    as (s & c' & Hrun & Hok' & Hl' & u & i & j & Hs & Hbud & Hfits);
    [done|by apply budget_init|unfold fits; lia|done|].
  exists s, c'. split_and!; [done|done|done|congruence|].
  destruct (NORMALIZE_ok inp c' inp_bytes Hok') as (c2 & Hn2 & Hok2 & Hnorm2 & Hp2 & Hc2).
  { intros Hlt. pose proof (budget_shift _ _ _ _ Hbud Hfits Hlt). pose proof (ok_range _ Hok'). lia. }
  pose proof (budget_normalize _ _ _ _ _ Hbud Hc2) as Hbud2.
  pose proof (budget_20 _ _ _ _ Hbud2 Hfits Hok2 Hnorm2). destruct Hbud as [Hbs _].
  exists (buf c2). split; [by exists c2|]. destruct Hc2 as [->|(_ & E & _)]; lia.
Qed.

Lemma win_moved limit p p' :
  props_ok (prop p) -> 0 <= processedPos p -> dicPos p <= dicPos p' -> win limit p -> moved limit p p' ->
  win limit p'.
Proof.
  intros (_ & _ & _ & Hd) Hpp Hpos Hw [Ha Hc Hproc Hl]. unfold win, dicBufSize in *.
  rewrite Hc, (adv_prop _ _ Ha), (adv_size _ _ Ha), Hproc. destruct (checkDicSize p =? 0); [|done].
  unfold wrap. rewrite Z.mod_small; lia.
Qed.

Lemma real_turn_ok limit p s c' :
  sym_pre p -> run inp (decode_real p) (coder p) = Some (s, c') -> sym_ok p s ->
  dicPos p <= limit <= dicBufSize p -> remainLen p = 0 -> win limit p ->
  kind s = DUMMY_MATCH \/ dicPos p < limit ->
  exists p' go, real_turn inp limit p = Some (p', go) /\ moved limit p p' /\ coder p' = c' /\
    after_sym limit p p' go /\ win limit p'.
Proof.
  intros Hp Hrun Hs Hlim Hrem Hwin Hk. unfold real_turn. rewrite Hrun. opt.
  destruct (exec_sym_ok limit s (set_coder c' p)) as (p' & go & He & Ha & (Hc & Hd & Hpp) & Hl & Haft); try done.
  { destruct Hp. by constructor. }
  assert (moved limit p p') as Hmv by (constructor; try done; destruct Ha; by constructor).
  exists p', go. split_and!; try done. apply (win_moved limit p p'); try done; [by apply Hp|by apply Hp|].
  apply (adv_pos _ _ (mv_advance _ _ _ Hmv)).
Qed.

Lemma after_sym_stopped limit p0 p p' go :
  after_sym limit p p' go -> dicPos p0 <= dicPos p -> stopped limit p0 p'.
Proof.
  unfold after_sym, stopped. intros Haft Hpos. destruct go.
  - destruct Haft as (H1 & H2 & H3 & H4). left. split_and!; try done; try lia.
  - destruct Haft as (H1 & [[H2 H3]|H2]); [left|by right]. split_and!; try done; lia.
Qed.

(** What LzmaDec_DecodeReal_3 leaves, with the input read up to [e]. *)
Record real_post (limit : Z) (p p' : CLzmaDec) (e : Z) : Prop := {
  rp_moved : moved limit p p';
  rp_stopped : stopped limit p p';
  rp_probs : length (probs (coder p')) = length (probs (coder p));
  rp_ok : rc_ok (nprobs p) (coder p');
  rp_norm : normalized (coder p');
  rp_buf : buf (coder p') = e
}.

Definition real_res (p : CLzmaDec) : SRes :=
  if kMatchSpecLen_Error_Data <=? remainLen p then SZ_ERROR_DATA else SZ_OK.

(** The end of the function, after the loop stopped in [p']. *)
Lemma real_end limit p p' e :
  moved limit p p' -> stopped limit p p' -> length (probs (coder p')) = length (probs (coder p)) ->
  ready (nprobs p) inp (coder p') e ->
  exists q, (c ← NORMALIZE inp (coder p'); Some (set_coder c p', real_res (set_coder c p')))
            = Some (q, real_res q) /\ real_post limit p q e.
Proof.
  intros Hm Hst Hl (c1 & Hn & Hnorm & Hok & Hp & Hb). rewrite Hn. opt. eexists. split; [reflexivity|].
  constructor; cbn; try done; [| |congruence].
  - destruct Hm as [[]]. constructor; [by constructor|done..].
  - destruct Hst as [(Hs & H)|H]; [left|by right]. split; [destruct Hs; by constructor|done].
Qed.

(** Many symbols: the loop stops at the last 20 bytes. *)
Lemma DecodeReal_3_bulk p limit bufLimit b :
  sym_pre p -> ready (nprobs p) inp (coder p) b ->
  b + 20 <= Z.of_nat (length inp) -> bufLimit + 20 <= Z.of_nat (length inp) ->
  dicPos p < limit <= dicBufSize p -> win limit p ->
  exists q e, LzmaDec_DecodeReal_3 inp p limit bufLimit = Some (q, real_res q) /\
    real_post limit p q e /\ b <= e <= Z.of_nat (length inp).
Proof.
  intros Hp Hready Hb Hlim Hpos Hwin. unfold LzmaDec_DecodeReal_3.
  set (p0 := set_remain 0 p). assert (sym_pre p0) as Hp0 by (destruct Hp; by constructor).
  edestruct (loop_total
    (fun p => moved limit p0 p /\ sym_pre p /\ length (probs (coder p)) = length (probs (coder p0)) /\
       (exists b', ready (nprobs p0) inp (coder p) b' /\ b <= b' /\ b' + 20 <= Z.of_nat (length inp)) /\
       dicPos p < limit /\ remainLen p = 0 /\ win limit p)
    (fun p => Z.to_nat (limit - dicPos p))
    (fun p' => moved limit p0 p' /\ stopped limit p0 p' /\
       length (probs (coder p')) = length (probs (coder p0)) /\
       exists e, ready (nprobs p0) inp (coder p') e /\ b <= e <= Z.of_nat (length inp)))
    as (p' & -> & Hm & Hst & Hl & e & He & Hbe).
  - intros q (Hm & Hq & Hl & (b' & Hr & Hb1 & Hb2) & Hd & Hrem & Hw).
    pose proof (mv_advance _ _ _ Hm) as Ha.
    destruct (run_symbol q b') as (s & c' & Hrun & Hs & Hok & Hl' & e & He & Hbe & Hee & Heb);
      rewrite ?(adv_prop _ _ Ha) in *; try done.
    destruct (real_turn_ok limit q s c') as (q' & go & -> & Hm' & Hc & Haft & Hw'); try done; [|by right|].
    { unfold dicBufSize in *. rewrite (adv_size _ _ Ha). cbn. lia. }
    opt. pose proof (mv_limit _ _ _ Hm') as Hl2. pose proof (mv_advance _ _ _ Hm') as Ha'.
    pose proof (adv_pos _ _ Ha). pose proof (adv_pos _ _ Ha').
    pose proof (moved_trans _ _ _ _ Hm Hm') as Hm2.
    pose proof (after_sym_stopped limit p0 q q' go Haft ltac:(lia)) as Hst.
    assert (moved limit p0 q' /\ stopped limit p0 q' /\
      length (probs (coder q')) = length (probs (coder p0)) /\
      (exists e, ready (nprobs p0) inp (coder q') e /\ b <= e <= Z.of_nat (length inp))) as Hstop.
    { split_and!; try done; [congruence|]. exists e. rewrite Hc. split; [done|lia]. }
    destruct go; [|done]. destruct Haft as (Hq' & Hlt & _ & Hr').
    destruct (Z.ltb_spec (dicPos q') limit) as [Hd'|]; [|done].
    destruct (Z.ltb_spec (buf (coder q')) bufLimit) as [Hb'|]; [|done].
    cbn [andb]. split; [|lia]. split_and!; try done; [congruence| |by apply Hr'].
    exists e. rewrite Hc in *. split; [done|lia].
  - split_and!; try done; [|by exists b|cbn; lia].
    apply moved_refl; [apply Hp|apply Hp|cbn; lia].
  - cbn. lia.
  - opt. destruct (real_end limit p0 p' e) as (q & Hq & Hpost); try done.
    exists q, e. split; [exact Hq|]. split; [|done]. destruct Hpost as [[[]] ? ? ? ? ?].
    by constructor.
Qed.

(** One symbol: the caller's limit stops the loop. *)
Lemma DecodeReal_3_single p limit bufLimit s c' e :
  sym_pre p -> run inp (decode_real p) (coder p) = Some (s, c') -> sym_ok p s ->
  length (probs c') = length (probs (coder p)) -> ready (nprobs p) inp c' e -> bufLimit <= buf c' ->
  dicPos p <= limit <= dicBufSize p -> win limit p ->
  kind s = DUMMY_MATCH \/ dicPos p < limit ->
  exists q, LzmaDec_DecodeReal_3 inp p limit bufLimit = Some (q, real_res q) /\ real_post limit p q e.
Proof.
  intros Hp Hrun Hs Hl Hready Hb Hpos Hwin Hk. unfold LzmaDec_DecodeReal_3.
  set (p0 := set_remain 0 p). assert (sym_pre p0) as Hp0 by (destruct Hp; by constructor).
  destruct (real_turn_ok limit p0 s c') as (p' & go & Hturn & Hm & Hc & Haft & Hw); try done.
  pose proof (after_sym_stopped limit p0 p0 p' go Haft ltac:(lia)) as Hst.
  cbn [loop]. rewrite Hturn. opt. rewrite Hc.
  destruct (Z.ltb_spec (buf c') bufLimit); [lia|]. rewrite andb_false_r. opt.
  destruct (real_end limit p0 p' e) as (q & Hq & Hpost); try done; [by rewrite Hc..|].
  exists q. split; [exact Hq|]. destruct Hpost as [[[]] ? ? ? ? ?].
  by constructor.
Qed.
End Real.

(** ** LzmaDec_TryDummy *)

Lemma kind_not_eof s : kind s <> DUMMY_INPUT_EOF.
Proof. by destruct s. Qed.

(** It returns, reads between [from] and [lim], takes at most 20 bytes, says EOF only
    with fewer than 20 bytes, and predicts LzmaDec_DecodeReal_3 otherwise. *)
Lemma TryDummy_spec inp p from lim :
  bytes inp -> sym_pre p -> rc_ok (nprobs p) (coder p) -> normalized (coder p) -> 0 <= from <= lim -> lim <= Z.of_nat (length inp) ->
  exists d b, LzmaDec_TryDummy p inp from lim = Some (d, b) /\
    ((d = DUMMY_INPUT_EOF /\ b = lim /\ lim < from + 20) \/
     (d <> DUMMY_INPUT_EOF /\ from <= b <= lim /\ b <= from + 20 /\
      exists s c', run inp (decode_real p) (set_buf from (coder p)) = Some (s, c') /\ kind s = d /\
        sym_ok p s /\ length (probs c') = length (probs (coder p)) /\ ready (nprobs p) inp c' b /\ from <= buf c')).
Proof.
  intros Hi Hp Hok Hnorm Hfrom Hlim. unfold LzmaDec_TryDummy. set (c := set_buf from (coder p)).
  assert (rc_ok (nprobs p) c) as Hc by (destruct Hok; constructor; cbn; (done || lia)).
  assert (Budget from 0 0 c) as Hbud by (by apply (budget_init c)).
  pose proof (good_symbol p Hp) as Hgood. pose proof (shape_symbol p Hp) as Hshape.
  assert (fits 0 0) as Hf0 by (unfold fits; lia).
  destruct (run_check_spec inp (nprobs p) Hi lim (decode_dummy p) [] 0 0 _ c
              (good_shape_l _ _ _ _ _ _ _ _ Hshape Hgood)) as (r & Hr & Hspec); try done.
  rewrite Hr. opt. destruct r as [[]|[d c1]].
  - exists DUMMY_INPUT_EOF, lim. split; [done|left]. split_and!; try done. by apply Hspec.
  - destruct Hspec as (Hok1 & Hp1 & Hb1 & u & i & j & _ & Hfits & Hbud1). specialize (Hbud1 from Hbud).
    cbn in Hb1.
    destruct (run_check_run inp (nprobs p) Hi _ lim (decode_dummy p) (decode_real p) [] 0 0 _ c c d c1
                Hshape Hgood) as (s & c' & Hrun & Hk & Hok' & Hl' & u' & i' & j' & Hs & Hrel); try done.
    pose proof (run_check_lim inp lim _ _ _ _ Hr ltac:(cbn; lia)) as Hl1.
    destruct (NORMALIZE_CHECK_spec inp _ Hi lim c1 Hlim Hok1)
      as [(-> & Hlt & Hend)|(c2 & Hn & Hok2 & Hnorm2 & Hp2 & Hcons & Hc2)].
    { opt. exists DUMMY_INPUT_EOF, lim. split; [done|left]. split_and!; try done.
      pose proof (budget_shift _ _ _ _ Hbud1 Hfits Hlt). pose proof (ok_range _ Hok1). lia. }
    rewrite Hn. opt. exists d, (buf c2). split; [done|right]. split; [rewrite <-Hk; apply kind_not_eof|].
    pose proof (budget_normalize _ _ _ _ _ Hbud1 Hc2) as Hbud2.
    pose proof (budget_20 _ _ _ _ Hbud2 Hfits Hok2 Hnorm2).
    split; [destruct Hc2 as [->|(Hlt & -> & _)]; [lia|specialize (Hcons Hlt); lia]|]. split; [lia|].
    exists s, c'. split_and!; try done.
    + apply NORMALIZE_CHECK_inr in Hn. destruct (NORMALIZE_rel inp _ _ _ _ Hrel Hn) as (c3 & Hn3 & Hrel3).
      destruct (NORMALIZE_inv inp _ Hi _ _ Hok' Hn3) as (Hok3 & Hnorm3 & Hp3). exists c3. split_and!; try done.
      by destruct Hrel3 as (_ & _ & -> & _).
    + destruct Hrel as (_ & _ & -> & _). lia.
Qed.

(** With more input: a symbol that was complete is the same, and one that was not
    takes more than there was. *)
Lemma TryDummy_more inp inp2 p from lim lim2 d b d2 b2 :
  (forall i, i < lim -> rd inp2 i = rd inp i) -> lim <= lim2 -> from <= lim ->
  LzmaDec_TryDummy p inp from lim = Some (d, b) ->
  LzmaDec_TryDummy p inp2 from lim2 = Some (d2, b2) -> d2 <> DUMMY_INPUT_EOF ->
  if is_eof d then lim < b2 else d2 = d /\ b2 = b.
Proof.
  intros Hpre Hle Hfrom. unfold LzmaDec_TryDummy. set (c := set_buf from (coder p)).
  destruct (run_check inp lim (decode_dummy p) c) as [[[]|[a c1]]|] eqn:Hr; [..|done].
  - cbn [mbind option_bind]. intros [= <- <-].
    destruct (run_check inp2 lim2 (decode_dummy p) c) as [[[]|[a2 c2]]|] eqn:Hr2; [by intros [= <- <-]| |done].
    cbn [mbind option_bind].
    destruct (NORMALIZE_CHECK inp2 lim2 c2) as [[[]|c3]|] eqn:Hn2; [by intros [= <- <-]| |done].
    cbn [mbind option_bind]. intros [= <- <-] _. cbn.
    pose proof (run_check_past inp inp2 lim lim2 Hpre Hle _ _ _ _ Hr Hr2).
    apply (NORMALIZE_CHECK_buf inp lim) in Hn2 as [? _]. lia.
  - rewrite (run_check_more inp inp2 lim lim2 Hpre Hle _ _ _ _ Hr). cbn [mbind option_bind].
    destruct (NORMALIZE_CHECK inp lim c1) as [[[]|c3]|] eqn:Hn; [..|done]; cbn [mbind option_bind].
    + intros [= <- <-]. destruct (NORMALIZE_CHECK inp2 lim2 c1) as [[[]|c4]|] eqn:Hn2;
        [by intros [= <- <-]| |done]. cbn [mbind option_bind]. intros [= <- <-] _. cbn.
      apply (NORMALIZE_CHECK_buf inp lim) in Hn2 as [_ H]. by apply H.
    + rewrite (NORMALIZE_CHECK_more inp inp2 lim lim2 Hpre Hle _ _ Hn). cbn [mbind option_bind].
      intros [= <- <-] [= <- <-] Hd. by destruct a.
Qed.

(** The same bytes at another place. *)
Lemma TryDummy_shift inp inp2 p from lim d b :
  (forall i, from <= i < lim -> rd inp2 (i - from) = rd inp i) -> from <= lim ->
  LzmaDec_TryDummy p inp from lim = Some (d, b) ->
  LzmaDec_TryDummy p inp2 0 (lim - from) = Some (d, b - from).
Proof.
  intros Hs Hle. unfold LzmaDec_TryDummy.
  assert (forall i, 0 <= i - from -> i < lim -> rd inp2 (i - from) = rd inp i) as Hs'
    by (intros; apply Hs; lia).
  assert (shifted from (set_buf from (coder p)) (set_buf 0 (coder p))) as Hsh0
    by (unfold shifted; cbn; split_and!; (done || lia)).
  pose proof (run_check_shift inp inp2 lim from Hs' (decode_dummy p) _ _ Hsh0) as Hrc.
  destruct (run_check inp lim (decode_dummy p) (set_buf from (coder p))) as [[[]|[a c1]]|]; [..|done].
  - rewrite Hrc. cbn [mbind option_bind]. by intros [= <- <-].
  - destruct Hrc as (c1' & -> & Hsh). cbn [mbind option_bind].
    pose proof (NORMALIZE_CHECK_shift inp inp2 lim from Hs' c1 c1' Hsh) as Hn.
    destruct (NORMALIZE_CHECK inp lim c1) as [[[]|c2]|]; [..|done]; cbn [mbind option_bind].
    + rewrite Hn. cbn [mbind option_bind]. by intros [= <- <-].
    + destruct Hn as (c2' & -> & (_ & _ & _ & Hb & _)). cbn [mbind option_bind]. intros [= <- <-]. by rewrite Hb.
Qed.

(** ** The invariant *)

(** The distances allowed never reach outside the dictionary buffer, whether that is as
    large as the dictionary or only as large as the output (LzmaDecode). *)
Definition window_ok (p : CLzmaDec) : Prop :=
  if checkDicSize p =? 0
  then processedPos p < dicSize (prop p) /\
       (dicSize (prop p) <= dicBufSize p \/ processedPos p <= dicPos p)
  else checkDicSize p = dicSize (prop p) /\ dicSize (prop p) <= dicBufSize p.

(** What is kept in [tempBuf] is one incomplete symbol, or exactly one symbol. *)
Definition temp_ok (p : CLzmaDec) : Prop :=
  tempBufSize p = 0 \/
  exists d b, LzmaDec_TryDummy p (tempBuf p) 0 (tempBufSize p) = Some (d, b) /\
    (d = DUMMY_INPUT_EOF \/ b = tempBufSize p).

Record base (p : CLzmaDec) : Prop := {
  base_dicSize : 1 <= dicSize (prop p) < 2 ^ 32;
  base_window : window_ok p;
  base_probs : nprobs p <= Z.of_nat (length (probs (coder p)));
  base_temp : length (tempBuf p) = 20%nat;
  base_tempBytes : bytes (tempBuf p);
  base_tempSize : 0 <= tempBufSize p <= 20;
  base_buf : 0 <= buf (coder p)
}.

(** A decoder between two symbols. *)
Record running (p : CLzmaDec) : Prop := {
  run_pre : sym_pre p;
  run_rc : rc_ok (nprobs p) (coder p);
  run_norm : normalized (coder p);
  run_remain : 0 <= remainLen p <= 274;
  run_tempRemain : tempBufSize p = 0 \/ remainLen p = 0;
  run_temp : temp_ok p
}.

(** Before the first byte of a stream: with all state to be initialised, or with the
    state of the previous stream kept. *)
Definition starting (p : CLzmaDec) : Prop :=
  tempBufSize p <= RC_INIT_SIZE /\
  (remainLen p = kMatchSpecLenStart + 2 \/
   remainLen p = kMatchSpecLenStart + 1 /\ probs_ok (nprobs p) (probs (coder p)) /\
     0 <= state p < 12 /\ rep_ok p (rep0 p) /\ rep_ok p (rep1 p) /\ rep_ok p (rep2 p) /\
     rep_ok p (rep3 p)).

Record wf (p : CLzmaDec) : Prop := {
  wf_base : base p;
  wf_props : props_ok (prop p);
  wf_dic : bytes (dic p);
  wf_size : 1 <= dicBufSize p < 2 ^ 63;
  wf_pos : 0 <= dicPos p <= dicBufSize p;
  wf_processed : in_width 32 (processedPos p);
  wf_code : in_width 32 (code (coder p));
  wf_state : kMatchSpecLen_Error_Data <= remainLen p \/ starting p \/ running p
}.

Lemma window_moved limit p p' :
  dicSize (prop p) < 2 ^ 32 -> 0 <= processedPos p -> moved limit p p' -> window_ok p ->
  (checkDicSize p = 0 -> processedPos p + (dicPos p' - dicPos p) < dicSize (prop p)) ->
  window_ok p'.
Proof.
  intros Hd Hpp [Ha Hc Hp _] Hw Hlt. pose proof (adv_pos _ _ Ha). unfold window_ok, dicBufSize in *.
  rewrite Hc, Hp, (adv_prop _ _ Ha), (adv_size _ _ Ha).
  destruct (Z.eqb_spec (checkDicSize p) 0) as [E|E]; [|done]. specialize (Hlt E).
  unfold wrap. rewrite Z.mod_small by lia. lia.
Qed.

(** [checkDicSize] becomes the dictionary size as soon as that much was written. *)
Definition check_full (p : CLzmaDec) : CLzmaDec :=
  if (checkDicSize p =? 0) && (dicSize (prop p) <=? processedPos p)
  then set_check (dicSize (prop p)) p else p.

Lemma window_full limit p p' :
  dicSize (prop p) < 2 ^ 32 -> 1 <= dicSize (prop p) -> 0 <= processedPos p -> moved limit p p' ->
  dicPos p' <= dicBufSize p -> window_ok p ->
  (checkDicSize p = 0 -> processedPos p + (dicPos p' - dicPos p) <= dicSize (prop p)) ->
  window_ok (check_full p').
Proof.
  intros Hd H1 Hpp Hm Hpos Hw Hle. pose proof Hm as [Ha Hc Hp _]. pose proof (adv_pos _ _ Ha).
  unfold check_full. rewrite Hc.
  destruct (Z.eqb_spec (checkDicSize p) 0) as [E|E]; cbn [andb].
  - specialize (Hle E).
    assert (processedPos p' = processedPos p + (dicPos p' - dicPos p)) as Hpp'.
    { rewrite Hp. unfold wrap. apply Z.mod_small. lia. }
    rewrite (adv_prop _ _ Ha).
    destruct (Z.leb_spec (dicSize (prop p)) (processedPos p')) as [Hge|Hlt].
    + unfold window_ok, dicBufSize in *. cbn. rewrite (adv_prop _ _ Ha), (adv_size _ _ Ha), E in *.
      destruct (Z.eqb_spec (dicSize (prop p)) 0); cbn in Hw; [lia|]. lia.
    + apply (window_moved limit p); try done. intros _. lia.
  - apply (window_moved limit p); try done.
Qed.

Lemma moved_check limit p p' : moved limit p p' -> advance p (check_full p').
Proof.
  intros [Ha _ _ _]. unfold check_full. destruct (_ && _); [|done]. destruct Ha. by constructor.
Qed.

(** ** LzmaDec_WriteRem *)

Lemma write_rem_loop dic0 d r len :
  bytes dic0 -> 0 <= d -> 1 <= len -> d + len <= Z.of_nat (length dic0) ->
  Z.of_nat (length dic0) < 2 ^ 63 -> 1 <= r <= Z.of_nat (length dic0) ->
  exists l, do_while (S (Z.to_nat len))
    (fun '(dic, pos, len) =>
       b ← rd dic (u64 (pos - r + (if pos <? r then Z.of_nat (length dic) else 0)));
       dic ← wrz dic pos b; Some (dic, pos + 1, len - 1))
    (fun '(_, _, len) => negb (len =? 0)) (dic0, d, len) = Some (l, d + len, 0) /\ copied dic0 l d len.
Proof.
  intros Hb Hd Hlen Hdl Hsz Hr.
  do_while_inv
    (fun '(l, e, k) => e = d + (len - k) /\ 1 <= k <= len /\ copied dic0 l d (len - k))
    (fun '(_, _, k) => Z.to_nat k)
    (fun '(l, e, k) => e = d + len /\ k = 0 /\ copied dic0 l d len).
  - split_and!; [lia..|]. rewrite Z.sub_diag. by apply copied_0.
  - lia.
  - intros [[l e] k] (-> & Hk & Hc). pose proof Hc as (Hl & Hbl & _).
    destruct (rd_Some l (u64 (d + (len - k) - r + (if d + (len - k) <? r then Z.of_nat (length l) else 0)))) as [b Hrd].
    { rewrite Hl. unfold wrap. destruct (Z.ltb_spec (d + (len - k)) r); rewrite Z.mod_small; lia. }
    rewrite Hrd. opt.
    destruct (copied_step dic0 l d (len - k) b Hc) as [-> Hc']; [lia..|exact (rd_Forall _ _ _ _ Hbl Hrd)|]. opt.
    eexists. split; [done|]. cbv beta iota zeta. replace (len - k + 1) with (len - (k - 1)) in Hc' by lia.
    destruct (Z.eqb_spec (k - 1) 0) as [E|E]; cbn [negb].
    + rewrite E, Z.sub_0_r in Hc'. split_and!; [lia|done|done].
    + split; [split_and!; try lia; done|lia].
  - intros [[l e] k] (-> & -> & Hc). exists l. done.
Qed.

Lemma LzmaDec_WriteRem_ok p limit :
  sym_pre p -> 1 <= dicSize (prop p) < 2 ^ 32 -> window_ok p -> 0 <= remainLen p <= 273 ->
  dicPos p <= limit <= dicBufSize p ->
  exists p', LzmaDec_WriteRem p limit = Some p' /\ advance p p' /\ sym_pre p' /\ window_ok p' /\
    coder p' = coder p /\ remainLen p' = remainLen p - (dicPos p' - dicPos p) /\
    dicPos p' = dicPos p + Z.min (remainLen p) (limit - dicPos p).
Proof.
  intros Hp Hds Hw Hrem Hlim. pose proof Hp as [Hpr Hb Hsz Hpos Hpp Hst Hr0 Hr1 Hr2 Hr3].
  unfold LzmaDec_WriteRem.
  assert (u64 (limit - dicPos p) = limit - dicPos p) as ->.
  { unfold wrap. apply Z.mod_small. lia. }
  destruct (Z.eqb_spec (remainLen p) 0) as [E|E].
  { exists p. split; [done|]. split; [by apply advance_refl|]. split_and!; (done || lia). }
  set (len := if limit - dicPos p <? remainLen p then limit - dicPos p else remainLen p).
  assert (len = Z.min (remainLen p) (limit - dicPos p)) as Hlen.
  { unfold len. destruct (Z.ltb_spec (limit - dicPos p) (remainLen p)); lia. }
  clearbody len. rewrite <-Hlen. destruct (Z.eqb_spec len 0) as [El|El].
  { exists p. split; [done|]. split; [by apply advance_refl|]. split_and!; (done || lia). }
  set (q := if (checkDicSize p =? 0) && (u32 (dicSize (prop p) - processedPos p) <=? len)
            then set_check (dicSize (prop p)) p else p).
  assert (dic q = dic p /\ dicPos q = dicPos p /\ rep0 q = rep0 p /\ processedPos q = processedPos p /\
          remainLen q = remainLen p /\ coder q = coder p /\ prop q = prop p) as (Q1 & Q2 & Q3 & Q4 & Q5 & Q6 & Q7).
  { unfold q. by destruct (_ && _). }
  rewrite Q1, Q2, Q3.
  destruct (write_rem_loop (dic p) (dicPos p) (rep0 p) len) as (l & -> & Hc); unfold dicBufSize in *; [done|lia|lia|lia|lia|done|].
  opt. eexists. split; [reflexivity|].
  set (p' := set_remain _ _). assert (dicPos p' = dicPos p + len) as Hd by done.
  assert (advance p p') as Ha.
  { apply (copied_advance _ _ len); cbn; try done; try lia; unfold q; by destruct (_ && _). }
  assert (processedPos p' = u32 (processedPos p + len)) as Hpp' by (cbn; by rewrite Q4).
  assert (sym_pre p') as Hp'.
  { apply (sym_pre_advance p); try done; unfold dicBufSize in *; try (cbn; unfold q; destruct (_ && _); cbn; (done || lia)).
    rewrite Hpp'. apply wrap_in_width. lia. }
  split; [done|]. split; [done|]. split; [|split_and!; [done| |by rewrite Hd]].
  2:{ rewrite Hd. change (remainLen p') with (u32 (remainLen q - len)). rewrite Q5. unfold wrap.
      rewrite Z.mod_small; lia. }
  unfold window_ok, dicBufSize in *. rewrite Hpp', Hd, (adv_prop _ _ Ha), (adv_size _ _ Ha).
  change (checkDicSize p') with (checkDicSize q). unfold in_width in Hpp.
  assert (checkDicSize q = if checkDicSize p =? 0
    then if dicSize (prop p) - processedPos p <=? len then dicSize (prop p) else 0
    else checkDicSize p) as ->.
  { unfold q. destruct (Z.eqb_spec (checkDicSize p) 0) as [Ec|Ec]; cbn [andb]; [|done].
    unfold wrap. rewrite Z.mod_small by lia. destruct (dicSize (prop p) - processedPos p <=? len); [reflexivity|exact Ec]. }
  destruct (Z.eqb_spec (checkDicSize p) 0) as [Ec|Ec].
  - destruct (Z.leb_spec (dicSize (prop p) - processedPos p) len) as [Hge|Hlt].
    + destruct (Z.eqb_spec (dicSize (prop p)) 0); lia.
    + cbn [Z.eqb]. unfold wrap. rewrite Z.mod_small; lia.
  - destruct (Z.eqb_spec (checkDicSize p) 0); [lia|done].
Qed.

(** ** LzmaDec_DecodeReal2 *)

(** The limit given to the main loop. *)
Definition real_limit (p : CLzmaDec) (limit : Z) : Z :=
  if checkDicSize p =? 0 then
    let rem := u32 (dicSize (prop p) - processedPos p) in
    if rem <? u64 (limit - dicPos p) then dicPos p + rem else limit
  else limit.

Lemma DecodeReal2_eq inp p limit bufLimit :
  LzmaDec_DecodeReal2 inp p limit bufLimit =
  '(p, res) ← LzmaDec_DecodeReal_3 inp p (real_limit p limit) bufLimit; Some (check_full p, res).
Proof. done. Qed.

Lemma real_limit_ok p limit :
  sym_pre p -> 1 <= dicSize (prop p) < 2 ^ 32 -> window_ok p -> dicPos p <= limit <= dicBufSize p ->
  dicPos p <= real_limit p limit <= limit /\ (dicPos p < limit -> dicPos p < real_limit p limit) /\
  win (real_limit p limit) p.
Proof.
  intros Hp Hds Hw Hlim. pose proof Hp as [Hpr Hb Hsz Hpos [Hpp _] Hst Hr0 Hr1 Hr2 Hr3].
  unfold real_limit, win, window_ok in *. destruct (Z.eqb_spec (checkDicSize p) 0) as [E|E]; [|lia].
  unfold wrap. rewrite !Z.mod_small by lia.
  destruct (Z.ltb_spec (dicSize (prop p) - processedPos p) (limit - dicPos p)); lia.
Qed.

(** A decoder about to decode a symbol. *)
Record turn_pre (dicLimit : Z) (p : CLzmaDec) : Prop := {
  tp_base : base p;
  tp_pre : sym_pre p;
  tp_rc : rc_ok (nprobs p) (coder p);
  tp_norm : normalized (coder p);
  tp_limit : dicPos p <= dicLimit <= dicBufSize p
}.

(** What LzmaDec_DecodeReal2 leaves. *)
Record real2_post (dicLimit : Z) (p q : CLzmaDec) (e : Z) : Prop := {
  r2_advance : advance p q;
  r2_base : base q;
  r2_rc : rc_ok (nprobs p) (coder q);
  r2_norm : normalized (coder q);
  r2_buf : buf (coder q) = e;
  r2_limit : dicPos q <= dicLimit;
  r2_processed : in_width 32 (processedPos q);
  r2_stopped :
    (sym_pre q /\ 0 <= remainLen q <= 274 /\ (dicPos q = dicPos p -> remainLen q <> 0)) \/
    512 <= remainLen q
}.

Lemma real2_post_ok dicLimit p q e :
  turn_pre dicLimit p -> real_post (real_limit p dicLimit) p q e ->
  real2_post dicLimit p (check_full q) e.
Proof.
  intros [[Hds Hw Hlen Ht Htb Hts _] Hp Hrc Hnorm Hlim] [Hm Hst Hl Hrc' Hnorm' Hbuf].
  destruct (real_limit_ok p dicLimit Hp Hds Hw Hlim) as (Hrl & _ & Hwin).
  pose proof Hm as [Ha Hc Hpp Hpl]. pose proof (pre_processed _ Hp) as [Hp0 _].
  assert (window_ok (check_full q)) as Hw'.
  { apply (window_full (real_limit p dicLimit) p); try done; try lia.
    intros E. unfold win in Hwin. rewrite E in Hwin. cbn [Z.eqb] in Hwin. lia. }
  pose proof (moved_check _ _ _ Hm) as Ha'.
  assert (forall X (f : CLzmaDec -> X), (forall n q, f (set_check n q) = f q) -> f (check_full q) = f q) as Hcf.
  { intros X f Hf. unfold check_full. destruct (_ && _); [apply Hf|done]. }
  constructor; try done; rewrite ?(Hcf _ coder), ?(Hcf _ dicPos), ?(Hcf _ processedPos), ?(Hcf _ remainLen) by done;
    try done; [|lia|rewrite Hpp; apply wrap_in_width; lia|].
  - constructor; rewrite ?(Hcf _ coder), ?(Hcf _ prop), ?(Hcf _ tempBuf), ?(Hcf _ tempBufSize),
      ?(adv_prop _ _ Ha), ?(adv_temp _ _ Ha), ?(adv_tempSize _ _ Ha) by done; try done; [by rewrite Hl|apply Hrc'].
  - destruct Hst as [(Hs & H1 & H2 & H3)|H]; [left|by right]. split_and!; try done; try lia.
    unfold check_full. destruct (_ && _); [destruct Hs; by constructor|done].
Qed.

Lemma turn_pre_set_buf dicLimit p b : turn_pre dicLimit p -> 0 <= b -> turn_pre dicLimit (set_coder (set_buf b (coder p)) p).
Proof.
  intros [[] [] [] Hn Hl] Hb. constructor; try done; constructor; try done.
Qed.

(** The two uses of LzmaDec_DecodeReal2. *)
Lemma DecodeReal2_bulk inp dicLimit p s bufLimit :
  bytes inp -> turn_pre dicLimit p -> 0 <= s -> s + 20 <= Z.of_nat (length inp) ->
  bufLimit + 20 <= Z.of_nat (length inp) -> dicPos p < dicLimit ->
  exists q e, LzmaDec_DecodeReal2 inp (set_coder (set_buf s (coder p)) p) dicLimit bufLimit
    = Some (q, real_res q) /\ real2_post dicLimit p q e /\ s <= e <= Z.of_nat (length inp).
Proof.
  intros Hi Hp0 Hs Hs20 Hlim Hlt. pose proof (turn_pre_set_buf _ _ s Hp0 Hs) as Hp.
  set (p' := set_coder _ p) in *. pose proof Hp as [Hb Hsp Hrc Hn Hl].
  destruct (real_limit_ok p' dicLimit Hsp (base_dicSize _ Hb) (base_window _ Hb) Hl) as (Hr1 & Hr2 & Hw).
  destruct (DecodeReal_3_bulk inp Hi p' (real_limit p' dicLimit) bufLimit s)
    as (q & e & Hq & Hpost & He); try done; [by apply (ready_set_buf_normalized inp _ _ Hrc)|split; [by apply Hr2|lia]|].
  rewrite DecodeReal2_eq, Hq. opt. exists (check_full q), e.
  split; [unfold real_res, check_full; by destruct (_ && _)|]. split; [|done].
  destruct (real2_post_ok _ _ _ _ Hp Hpost) as [[] ? ? ? ? ? ? ?]. by constructor.
Qed.

Lemma DecodeReal2_single inp dicLimit p from bufLimit s c' e :
  turn_pre dicLimit p -> 0 <= from ->
  run inp (decode_real p) (set_buf from (coder p)) = Some (s, c') -> sym_ok p s ->
  length (probs c') = length (probs (coder p)) -> ready (nprobs p) inp c' e -> bufLimit <= buf c' ->
  kind s = DUMMY_MATCH \/ dicPos p < dicLimit ->
  exists q, LzmaDec_DecodeReal2 inp (set_coder (set_buf from (coder p)) p) dicLimit bufLimit
    = Some (q, real_res q) /\ real2_post dicLimit p q e.
Proof.
  intros Hp0 Hfrom Hrun Hs Hl Hready Hbl Hk. pose proof (turn_pre_set_buf _ _ from Hp0 Hfrom) as Hp.
  set (p' := set_coder _ p) in *. pose proof Hp as [Hb Hsp Hrc Hn Hlim].
  destruct (real_limit_ok p' dicLimit Hsp (base_dicSize _ Hb) (base_window _ Hb) Hlim) as (Hr1 & Hr2 & Hw).
  destruct (DecodeReal_3_single inp p' (real_limit p' dicLimit) bufLimit s c' e) as (q & Hq & Hpost); try done.
  { lia. }
  { destruct Hk; [by left|right]. by apply Hr2. }
  rewrite DecodeReal2_eq, Hq. opt. exists (check_full q).
  split; [unfold real_res, check_full; by destruct (_ && _)|].
  destruct (real2_post_ok _ _ _ _ Hp Hpost) as [[] ? ? ? ? ? ? ?]. by constructor.
Qed.

(** ** The turns of LzmaDec_DecodeToDic *)

(** [advance] without the temporary buffer. *)
Record grow (p p' : CLzmaDec) : Prop := {
  gr_prop : prop p' = prop p;
  gr_size : length (dic p') = length (dic p);
  gr_pos : dicPos p <= dicPos p';
  gr_frame : forall i, i < dicPos p \/ dicPos p' <= i -> rd (dic p') i = rd (dic p) i
}.

Lemma grow_refl p : grow p p.
Proof. by constructor. Qed.

Lemma grow_trans p q r : grow p q -> grow q r -> grow p r.
Proof.
  intros [] []. constructor; try congruence; [lia|]. intros i Hi. rewrite gr_frame1, gr_frame0; [done|lia|lia].
Qed.

Lemma advance_grow p p' : advance p p' -> grow p p'.
Proof. intros []. by constructor. Qed.

(** What the result and the status say (LzmaDec.h). *)
Definition result_ok (dicLimit : Z) (src : list Z) (mode : ELzmaFinishMode) (o : outcome) : Prop :=
  let '(p, n, res, status) := o in
  match res, status with
  | SZ_OK, LZMA_STATUS_NEEDS_MORE_INPUT => n = Z.of_nat (length src)
  | SZ_OK, LZMA_STATUS_FINISHED_WITH_MARK => remainLen p = kMatchSpecLenStart /\ code (coder p) = 0
  | SZ_OK, LZMA_STATUS_MAYBE_FINISHED_WITHOUT_MARK =>
      dicPos p = dicLimit /\ remainLen p = 0 /\ code (coder p) = 0
  | SZ_OK, LZMA_STATUS_NOT_FINISHED => dicPos p = dicLimit /\ mode = LZMA_FINISH_ANY
  | SZ_ERROR_DATA, LZMA_STATUS_NOT_SPECIFIED => True
  | SZ_ERROR_DATA, LZMA_STATUS_NOT_FINISHED => dicPos p = dicLimit /\ mode = LZMA_FINISH_END
  | _, _ => False
  end.

Definition outcome_ok (dicLimit : Z) (src : list Z) (mode : ELzmaFinishMode) (p : CLzmaDec) (s : Z)
    (o : outcome) : Prop :=
  let '(p', n, res, status) := o in
  wf p' /\ grow p p' /\ dicPos p' <= dicLimit /\ s <= n <= Z.of_nat (length src) /\
  result_ok dicLimit src mode o.

(** A turn that goes on. *)
Record turn_next (dicLimit : Z) (src : list Z) (p : CLzmaDec) (s : Z) (p' : CLzmaDec) (s' : Z) : Prop := {
  tn_base : base p';
  tn_running : running p';
  tn_grow : grow p p';
  tn_limit : dicPos p' <= dicLimit;
  tn_src : s <= s' <= Z.of_nat (length src);
  tn_progress : dicPos p' = dicPos p -> remainLen p' <> 0
}.

Definition turn_ok (dicLimit : Z) (src : list Z) (mode : ELzmaFinishMode) (p : CLzmaDec) (s : Z)
    (r : CLzmaDec * Z + outcome) : Prop :=
  match r with
  | inl (p', s') => turn_next dicLimit src p s p' s'
  | inr o => outcome_ok dicLimit src mode p s o
  end.

Lemma wf_running p : base p -> running p -> wf p.
Proof.
  intros Hb Hr. pose proof (run_pre _ Hr) as []. constructor; try done; [|by right; right].
  apply (ok_code _ (run_rc _ Hr)).
Qed.

Lemma base_temp_change p n l :
  base p -> length l = 20%nat -> bytes l -> 0 <= n <= 20 -> base (set_temp n l p).
Proof. intros []. by constructor. Qed.

(** After LzmaDec_DecodeReal2 with an empty temporary buffer: an error, or a decoder
    that runs. *)
Lemma after_real2 dicLimit src mode p p0 q e s s' :
  turn_pre dicLimit p -> real2_post dicLimit p q e -> grow p0 p -> dicPos p0 = dicPos p ->
  tempBufSize q = 0 -> s <= s' <= Z.of_nat (length src) ->
  turn_ok dicLimit src mode p0 s
    (if not_ok (real_res q)
     then inr (set_remain kMatchSpecLen_Error_Data q, s', SZ_ERROR_DATA, LZMA_STATUS_NOT_SPECIFIED)
     else inl (q, s')).
Proof.
  intros [Hb0 Hp0 _ _ [_ Hlim0]] [Ha Hb Hrc Hn He Hl Hpp Hst] Hg Hd Ht Hs.
  pose proof (grow_trans _ _ _ Hg (advance_grow _ _ Ha)) as Hg2.
  unfold real_res. layout. destruct (Z.leb_spec 512 (remainLen q)) as [H|H]; cbn [not_ok turn_ok outcome_ok].
  - split_and!; try done; [|by destruct Hg2|lia..].
    pose proof (adv_prop _ _ Ha) as Hprop. pose proof (adv_size _ _ Ha) as Hsize.
    constructor; unfold dicBufSize; cbn; rewrite ?Hprop, ?Hsize; try apply Hp0; try done.
    + destruct Hb. by constructor.
    + apply Ha.
    + pose proof (pre_pos _ Hp0). pose proof (adv_pos _ _ Ha). unfold dicBufSize in *. lia.
    + apply (ok_code _ Hrc).
    + left. layout. lia.
  - destruct Hst as [(Hs1 & Hs2 & Hs3)|]; [|lia].
    constructor; try done; [|intros E; apply Hs3; lia].
    constructor; rewrite ?(adv_prop _ _ Ha); try done; by left.
Qed.

(** Copying input to the temporary buffer. *)
Lemma store_temp_ok src s n temp :
  bytes src -> bytes temp -> 0 <= s -> 0 <= n <= Z.of_nat (length temp) ->
  s + n <= Z.of_nat (length src) ->
  exists l, store_temp src s n temp = Some l /\ length l = length temp /\ bytes l /\
    forall i, s <= i < s + n -> rd l (i - s) = rd src i.
Proof.
  intros Hsrc Htemp Hs Hn Hsn. unfold store_temp.
  while_inv (fun '(i, l) => 0 <= i <= n /\ length l = length temp /\ bytes l /\
      forall k, s <= k < s + i -> rd l (k - s) = rd src k)
    (fun '(i, _) => Z.to_nat (n - i)).
  - split_and!; try done; try lia.
  - lia.
  - intros [i l] (Hi & Hl & Hb & Hk) Hc. apply Z.ltb_lt in Hc.
    destruct (rd_Some src (s + i)) as [b Hr]; [lia|]. rewrite Hr. opt. rewrite wrz_Some by lia. opt.
    pose proof (rd_Forall _ _ _ _ Hsrc Hr).
    eexists. split; [done|]. split; [|lia]. split; [lia|]. split; [by rewrite length_insert|].
    split; [by apply Forall_insert|]. intros k Hks. destruct (Z.eq_dec (k - s) i) as [E|E].
    + rewrite E, rd_insert_eq by lia. by replace k with (s + i) by lia.
    + rewrite rd_insert_ne by lia. apply Hk. lia.
  - intros [i l] (Hi & Hl & Hb & Hk) Hc. apply Z.ltb_ge in Hc. exists l. split; [done|].
    split_and!; try done. intros k Hks. apply Hk. lia.
Qed.

Lemma fill_temp_ok src s p :
  bytes src -> base p -> 0 <= s <= Z.of_nat (length src) ->
  exists l rem ahead, fill_temp src s p = Some (l, rem, ahead) /\ length l = 20%nat /\ bytes l /\
    rem = tempBufSize p + ahead /\ 0 <= ahead /\ s + ahead <= Z.of_nat (length src) /\ rem <= 20 /\
    (rem < 20 -> s + ahead = Z.of_nat (length src)) /\
    forall i, i < tempBufSize p -> rd l i = rd (tempBuf p) i.
Proof.
  intros Hsrc [_ _ _ Ht Htb Hts _] Hs. unfold fill_temp. change LZMA_REQUIRED_INPUT_MAX with 20.
  while_inv (fun '(l, rem, ahead) => length l = 20%nat /\ bytes l /\ rem = tempBufSize p + ahead /\
      0 <= ahead /\ s + ahead <= Z.of_nat (length src) /\ rem <= 20 /\
      forall i, i < tempBufSize p -> rd l i = rd (tempBuf p) i)
    (fun '(_, rem, _) => Z.to_nat (20 - rem)).
  - split_and!; try done; lia.
  - lia.
  - intros [[l rem] ahead] (Hl & Hb & -> & Ha & Hsa & Hr & Hk) Hc.
    apply andb_true_iff in Hc as [Hc1%Z.ltb_lt Hc2%Z.ltb_lt].
    destruct (rd_Some src (s + ahead)) as [b Hrd]; [lia|]. rewrite Hrd. opt. rewrite wrz_Some by lia. opt.
    pose proof (rd_Forall _ _ _ _ Hsrc Hrd).
    eexists. split; [done|]. split; [|lia]. split_and!; try lia; [by rewrite length_insert|by apply Forall_insert|].
    intros i Hi. rewrite rd_insert_ne by lia. by apply Hk.
  - intros [[l rem] ahead] (Hl & Hb & -> & Ha & Hsa & Hr & Hk) Hc.
    exists l, (tempBufSize p + ahead), ahead. split; [done|]. split_and!; try done; try lia; intros Hlt; apply andb_false_iff in Hc as [Hc%Z.ltb_ge|Hc%Z.ltb_ge]; lia.
Qed.

Lemma turn_running dicLimit p n l :
  turn_pre dicLimit p -> remainLen p = 0 -> length l = 20%nat -> bytes l -> 0 <= n <= 20 ->
  temp_ok (set_temp n l p) -> base (set_temp n l p) /\ running (set_temp n l p).
Proof.
  intros [Hb Hp Hrc Hn _] Hrem Hl Hbl Hns Ht. split; [by apply base_temp_change|].
  constructor; try done; [by destruct Hp; constructor|cbn; lia|by right].
Qed.

(** Stopping with part of a symbol, or a whole symbol, in the temporary buffer. *)
Lemma stop_outcome dicLimit src mode p s n l s' res st :
  turn_pre dicLimit p -> remainLen p = 0 -> length l = 20%nat -> bytes l -> 0 <= n <= 20 ->
  temp_ok (set_temp n l p) -> s <= s' <= Z.of_nat (length src) ->
  result_ok dicLimit src mode (set_temp n l p, s', res, st) ->
  turn_ok dicLimit src mode p s (inr (set_temp n l p, s', res, st)).
Proof.
  intros Htp Hrem Hl Hbl Hn Ht Hs Hr. destruct (turn_running _ _ _ _ Htp Hrem Hl Hbl Hn Ht) as [Hb Hrun].
  split; [by apply wf_running|]. split; [by constructor|]. split; [apply Htp|done].
Qed.

Lemma turn_src_ok dicLimit src mode p s :
  bytes src -> turn_pre dicLimit p -> remainLen p = 0 -> tempBufSize p = 0 ->
  0 <= s <= Z.of_nat (length src) ->
  (dicLimit <= dicPos p -> mode = LZMA_FINISH_END) ->
  exists r, turn_src p dicLimit src s (dicLimit <=? dicPos p) = Some r /\ turn_ok dicLimit src mode p s r.
Proof.
  intros Hsrc Htp Hrem Htemp Hs Hmode. pose proof Htp as [Hb Hp Hrc Hnorm Hlim].
  unfold turn_src. change LZMA_REQUIRED_INPUT_MAX with 20.
  set (inSize := Z.of_nat (length src) - s).
  destruct ((inSize <? 20) || (dicLimit <=? dicPos p)) eqn:Hmodes.
  - destruct (TryDummy_spec src p s (s + inSize)) as (d & b & Hd & Hspec); try done; [unfold inSize; lia..|].
    rewrite Hd. opt.
    destruct Hspec as [(-> & -> & Hlt)|(Hne & Hbr & Hb20 & x & c' & Hrun & Hk & Hsx & Hl' & Hready & Hbuf)];
      cbn [is_eof].
    + destruct (Z.leb_spec 20 inSize); [lia|].
      destruct (store_temp_ok src s inSize (tempBuf p)) as (l & -> & Hl & Hbl & Hcopy);
        [done|apply Hb|lia|rewrite (base_temp _ Hb); unfold inSize in *; lia|unfold inSize; lia|]. opt.
      eexists. split; [done|]. rewrite (base_temp _ Hb) in Hl.
      apply stop_outcome; try done; [unfold inSize in *; lia| |unfold inSize; lia|cbn; unfold inSize; lia].
      right. exists DUMMY_INPUT_EOF, inSize. split; [|by left].
      pose proof (TryDummy_shift src l p s (s + inSize) _ _ ltac:(intros i Hi; apply Hcopy; lia) ltac:(unfold inSize; lia) Hd) as Hsh.
      replace (s + inSize - s) with inSize in Hsh by lia. exact Hsh.
    + replace (is_eof d) with false by (destruct d; done || by destruct Hne).
      destruct (Z.ltb_spec 20 (b - s)); [lia|].
      destruct ((dicLimit <=? dicPos p) && negb (is_match d)) eqn:Hend.
      * apply andb_true_iff in Hend as [Hend%Z.leb_le Hnm].
        destruct (store_temp_ok src s (b - s) (tempBuf p)) as (l & -> & Hl & Hbl & Hcopy);
          [done|apply Hb|lia|rewrite (base_temp _ Hb); lia|unfold inSize in *; lia|]. opt.
        eexists. split; [done|]. rewrite (base_temp _ Hb) in Hl.
        apply stop_outcome; try done; [lia| |unfold inSize in *; lia|cbn; split; [lia|by apply Hmode]].
        right.
        destruct (TryDummy_spec src p s b) as (d2 & b2 & Hd2 & Hspec2); try done; [lia|unfold inSize in *; lia|].
        exists d2, (b2 - s). split.
        { exact (TryDummy_shift src l p s b _ _ ltac:(intros i Hi; apply Hcopy; lia) ltac:(lia) Hd2). }
        pose proof (TryDummy_more src src p s b (s + inSize) d2 b2 d b ltac:(done) ltac:(lia) ltac:(lia) Hd2 Hd Hne) as Hmore.
        cbn [tempBufSize set_temp].
        destruct d2; [by left|right; destruct Hmore; lia..].
      * opt. destruct (DecodeReal2_single src dicLimit p s s x c' b) as (q & Hq & Hpost); try done; [lia| |].
        { apply andb_false_iff in Hend as [Hend%Z.leb_gt|Hend]; [by right|left].
          rewrite Hk. by destruct d. }
        rewrite Hq. opt. rewrite (r2_buf _ _ _ _ Hpost). destruct (Z.ltb_spec (b - s) 0); [lia|].
        rewrite Z.eqb_refl. cbn [negb].
        pose proof (r2_advance _ _ _ _ Hpost) as Ha.
        pose proof (after_real2 dicLimit src mode p p q b s (s + (b - s)) Htp Hpost (grow_refl p) eq_refl
          ltac:(rewrite (adv_tempSize _ _ Ha); done) ltac:(unfold inSize in *; lia)) as Hfin.
        destruct (not_ok (real_res q)); (eexists; split; [reflexivity|exact Hfin]).
  - apply orb_false_iff in Hmodes as [Hsz%Z.ltb_ge Hlt%Z.leb_gt]. opt.
    destruct (DecodeReal2_bulk src dicLimit p s (s + inSize - 20)) as (q & e & Hq & Hpost & He); try done;
      [lia|unfold inSize in *; lia..|].
    rewrite Hq. opt. rewrite (r2_buf _ _ _ _ Hpost). cbn [Z.ltb Z.compare].
    destruct (Z.ltb_spec inSize (e - s)); [unfold inSize in *; lia|].
   
    pose proof (r2_advance _ _ _ _ Hpost) as Ha.
    pose proof (after_real2 dicLimit src mode p p q e s (s + (e - s)) Htp Hpost (grow_refl p) eq_refl
      ltac:(rewrite (adv_tempSize _ _ Ha); done) ltac:(unfold inSize in *; lia)) as Hfin.
    destruct (not_ok (real_res q)); (eexists; split; [reflexivity|exact Hfin]).
Qed.

Lemma real2_post_temp dicLimit p q e n l :
  real2_post dicLimit p q e -> length l = 20%nat -> bytes l -> 0 <= n <= 20 ->
  real2_post dicLimit (set_temp n l p) (set_temp n l q) e.
Proof.
  intros [Ha Hb Hrc Hn He Hl Hpp Hst] Hl20 Hbl Hns. constructor; try done.
  - destruct Ha. by constructor.
  - by apply base_temp_change.
  - destruct Hst as [(Hs & H)|H]; [left; split; [destruct Hs; by constructor|done]|by right].
Qed.

(** One symbol from the temporary buffer [l], which the reader without checks takes
    up to [b]. *)
Lemma temp_symbol_ok dicLimit src mode p s l b x c' :
  turn_pre dicLimit p -> length l = 20%nat -> bytes l ->
  run l (decode_real p) (set_buf 0 (coder p)) = Some (x, c') -> sym_ok p x ->
  length (probs c') = length (probs (coder p)) -> ready (nprobs p) l c' b -> 0 <= buf c' ->
  kind x = DUMMY_MATCH \/ dicPos p < dicLimit ->
  tempBufSize p <= b -> 0 <= s -> s + (b - tempBufSize p) <= Z.of_nat (length src) ->
  exists q, LzmaDec_DecodeReal2 l (set_coder (set_buf 0 (coder p)) p) dicLimit 0 = Some (q, real_res q) /\
    buf (coder q) = b /\ tempBufSize q = tempBufSize p /\
    turn_ok dicLimit src mode p s
      (if not_ok (real_res q)
       then inr (set_remain kMatchSpecLen_Error_Data (set_temp 0 l q), s + (b - tempBufSize p),
                 SZ_ERROR_DATA, LZMA_STATUS_NOT_SPECIFIED)
       else inl (set_temp 0 l q, s + (b - tempBufSize p))).
Proof.
  intros Htp Hl Hbl Hrun Hx Hl' Hready Hbuf Hk Hge Hs Hsb.
  destruct (DecodeReal2_single l dicLimit p 0 0 x c' b) as (q & Hq & Hpost); try done.
  exists q. split; [done|]. split; [apply Hpost|].
  split; [apply (adv_tempSize _ _ (r2_advance _ _ _ _ Hpost))|].
  pose proof (real2_post_temp _ _ _ _ 0 l Hpost Hl Hbl ltac:(lia)) as Hpost'.
  assert (turn_pre dicLimit (set_temp 0 l p)) as Htp'.
  { destruct Htp as [H1 H2 H3 H4 H5]. constructor; try done; [by apply base_temp_change|]. destruct H2. by constructor. }
  apply (after_real2 dicLimit src mode (set_temp 0 l p) p (set_temp 0 l q) b); try done. lia.
Qed.

Lemma turn_temp_ok dicLimit src mode p s :
  bytes src -> turn_pre dicLimit p -> remainLen p = 0 -> tempBufSize p <> 0 -> temp_ok p ->
  0 <= s <= Z.of_nat (length src) ->
  (dicLimit <= dicPos p -> mode = LZMA_FINISH_END) ->
  exists r, turn_temp p dicLimit src s (dicLimit <=? dicPos p) = Some r /\ turn_ok dicLimit src mode p s r.
Proof.
  intros Hsrc Htp Hrem Hne Htemp Hs Hmode. unfold turn_temp.
  destruct (fill_temp_ok src s p Hsrc (tp_base _ _ Htp) Hs)
    as (l & rem & ahead & -> & Hl & Hbl & -> & Hah & Hsa & Hr20 & Hfull & Hpre). opt.
  change LZMA_REQUIRED_INPUT_MAX with 20. pose proof (base_tempSize _ (tp_base _ _ Htp)) as Hts.
  set (t := tempBufSize p) in *. set (rem := t + ahead) in *. set (p1 := set_temp t l p).
  assert (turn_pre dicLimit p1) as Htp1.
  { destruct Htp as [H1 H2 H3 H4 H5]. constructor; try done; [by apply base_temp_change|]. destruct H2. by constructor. }
  pose proof Htp1 as [Hb1 Hp1 Hrc1 Hn1 Hlim1].
  destruct (TryDummy_spec l p1 0 rem) as (d & b & Hd & Hspec); try done; [unfold rem; lia|rewrite Hl; lia|].
  assert (d <> DUMMY_INPUT_EOF -> t <= b) as Htb.
  { intros Hde. destruct Htemp as [|(d0 & b0 & Hd0 & Hor)]; [done|].
    change (LzmaDec_TryDummy p (tempBuf p) 0 t) with (LzmaDec_TryDummy p1 (tempBuf p) 0 t) in Hd0.
    pose proof (TryDummy_more (tempBuf p) l p1 0 t rem d0 b0 d b Hpre ltac:(unfold rem; lia) ltac:(lia) Hd0 Hd Hde) as Hm.
    fold t in Hor. destruct d0; cbn in Hm; destruct Hor as [|]; try done; try lia; destruct Hm; lia. }
  assert (forall b' d', d' <> DUMMY_INPUT_EOF -> LzmaDec_TryDummy p1 l 0 rem = Some (d', b') -> t <= b' <= rem ->
    temp_ok (set_temp b' l p1)) as Hwhole.
  { intros b' d' Hd' Hdb Hb'. right.
    destruct (TryDummy_spec l p1 0 b') as (d2 & b2 & Hd2 & _); try done; [lia|rewrite Hl; lia|].
    exists d2, b2. split; [exact Hd2|].
    pose proof (TryDummy_more l l p1 0 b' rem d2 b2 d' b' ltac:(done) ltac:(lia) ltac:(lia) Hd2 Hdb Hd') as Hm.
    cbn [tempBufSize set_temp]. destruct d2; cbn in Hm; [by left|right; destruct Hm; lia..]. }
  assert (forall x c' (Hk : kind x = DUMMY_MATCH \/ dicPos p < dicLimit), 
    run l (decode_real p1) (set_buf 0 (coder p1)) = Some (x, c') -> sym_ok p1 x ->
    length (probs c') = length (probs (coder p1)) -> ready (nprobs p) l c' b -> 0 <= buf c' -> t <= b <= rem ->
    exists q, LzmaDec_DecodeReal2 l (set_coder (set_buf 0 (coder p1)) p1) dicLimit 0 = Some (q, real_res q) /\
      buf (coder q) = b /\ tempBufSize q = t /\
      turn_ok dicLimit src mode p s
       (if not_ok (real_res q)
       then inr (set_remain kMatchSpecLen_Error_Data (set_temp 0 l q), s + (b - t),
                 SZ_ERROR_DATA, LZMA_STATUS_NOT_SPECIFIED)
       else inl (set_temp 0 l q, s + (b - t)))) as Hsym.
  { intros x c' Hk Hrun Hx Hl' Hready Hbuf Hbb.
    destruct (temp_symbol_ok dicLimit src mode p1 s l b x c') as (q & Hq & Hqb & Hqt & Hok); try done;
      [cbn; lia|lia|cbn; unfold rem in *; lia|].
    exists q. split_and!; try done. cbn in Hok. fold t in Hok.
    destruct (not_ok (real_res q)); cbn [turn_ok outcome_ok] in *.
    - destruct Hok as (H1 & H2 & H3). split; [done|]. split; [destruct H2; by constructor|exact H3].
    - destruct Hok as [H1 H2 [] H4 H5 H6]. constructor; try done. }
  destruct ((rem <? 20) || (dicLimit <=? dicPos p)) eqn:Hmodes.
  - rewrite Hd. opt.
    destruct Hspec as [(-> & -> & Hlt)|(Hde & Hbr & Hb20 & x & c' & Hrun & Hk & Hsx & Hl' & Hready & Hbuf)];
      cbn [is_eof].
    + destruct (Z.leb_spec 20 rem); [lia|]. eexists. split; [done|].
      apply (stop_outcome dicLimit src mode p s rem l (s + ahead) SZ_OK LZMA_STATUS_NEEDS_MORE_INPUT);
        try done; [unfold rem; lia| |lia|cbn; lia].
      right. exists DUMMY_INPUT_EOF, rem. split; [exact Hd|by left].
    + replace (is_eof d) with false by (destruct d; cbn; congruence). specialize (Htb Hde).
      change (tempBufSize p1) with t. destruct (Z.ltb_spec b t); [lia|].
      destruct ((dicLimit <=? dicPos p) && negb (is_match d)) eqn:Hend.
      * apply andb_true_iff in Hend as [Hend%Z.leb_le Hnm]. opt. eexists. split; [done|].
        apply (stop_outcome dicLimit src mode p s b l (s + (b - t)) SZ_ERROR_DATA LZMA_STATUS_NOT_FINISHED);
          try done; [lia|apply (Hwhole b d); (done || lia)|unfold rem in *; lia|cbn; split; [destruct Htp as [_ _ _ _ ?]; lia|by apply Hmode]].
      * opt. destruct (Hsym x c') as (q & Hq & Hqb & Hqt & Hok); try done; [|lia|].
        { apply andb_false_iff in Hend as [Hend%Z.leb_gt|Hend]; [by right|left]. rewrite Hk. by destruct d. }
        rewrite Hq. opt. rewrite Hqb, Hqt. destruct (Z.ltb_spec b 0); [lia|].
        rewrite Z.eqb_refl. cbn [negb].
        destruct (not_ok (real_res q)); (eexists; split; [reflexivity|exact Hok]).
  - apply orb_false_iff in Hmodes as [Hsz%Z.ltb_ge Hlt%Z.leb_gt]. opt.
    destruct Hspec as [(-> & -> & Hlt')|(Hde & Hbr & Hb20 & x & c' & Hrun & Hk & Hsx & Hl' & Hready & Hbuf)]; [lia|].
    specialize (Htb Hde).
    destruct (Hsym x c') as (q & Hq & Hqb & Hqt & Hok); try done; [by right|lia|].
    rewrite Hq. opt. rewrite Hqb, Hqt. cbn [Z.ltb Z.compare].
    destruct (Z.ltb_spec 20 b); [lia|]. destruct (Z.ltb_spec b t); [lia|]. cbn [orb].
    destruct (not_ok (real_res q)); (eexists; split; [reflexivity|exact Hok]).
Qed.

(** ** LzmaDec_DecodeToDic *)

Lemma outcome_ok_grow dicLimit src mode p p1 s s1 o :
  grow p p1 -> s <= s1 -> outcome_ok dicLimit src mode p1 s1 o -> outcome_ok dicLimit src mode p s o.
Proof.
  intros Hg Hs. destruct o as [[[q n] res] st]. intros (H1 & H2 & H3 & H4 & H5).
  split_and!; try done; [by eapply grow_trans|lia..].
Qed.

Definition turn_measure (dicLimit : Z) (p : CLzmaDec) : nat :=
  (Z.to_nat (dicLimit - dicPos p) + if (remainLen p =? 0)%Z then 1 else 0)%nat.

Lemma dic_turn_ok dicLimit src mode p s :
  bytes src -> base p -> running p -> dicPos p <= dicLimit <= dicBufSize p ->
  0 <= s <= Z.of_nat (length src) ->
  exists r, dic_turn dicLimit src mode (p, s) = Some r /\
    match r with
    | inl (p', s') => base p' /\ running p' /\ grow p p' /\ dicPos p' <= dicLimit /\
        s <= s' <= Z.of_nat (length src) /\ (turn_measure dicLimit p' < turn_measure dicLimit p)%nat
    | inr o => outcome_ok dicLimit src mode p s o
    end.
Proof.
  intros Hsrc Hb Hr Hlim Hs. pose proof Hr as [Hp Hrc Hn Hrem Htr Ht]. unfold dic_turn. layout.
  destruct (Z.eqb_spec (remainLen p) 274) as [E|E].
  { pose proof (wf_running _ Hb Hr) as Hw. pose proof (grow_refl p).
    destruct (Z.eqb_spec (code (coder p)) 0) as [Ec|Ec]; cbn [negb];
      (eexists; split; [reflexivity|]); cbn; split_and!; (done || lia). }
  destruct (LzmaDec_WriteRem_ok p dicLimit) as (p1 & Hw1 & Ha & Hp1 & Hwin1 & Hc1 & Hr1 & Hd1);
    [done|apply Hb|apply Hb|lia|done|].
  assert (remainLen p = 0 -> p1 = p) as Hsame.
  { intros E0. unfold LzmaDec_WriteRem in Hw1. rewrite E0 in Hw1. cbn [Z.eqb] in Hw1. congruence. }
  rewrite Hw1. opt. clear Hw1.
  assert (base p1) as Hb1.
  { destruct Hb. destruct Ha. constructor; rewrite ?Hc1, ?adv_prop0, ?adv_temp0, ?adv_tempSize0; done. }
  assert (running p1) as Hrun1.
  { constructor; rewrite ?Hc1, ?(adv_prop _ _ Ha); try done; [lia|..].
    - rewrite (adv_tempSize _ _ Ha). destruct Htr as [|Htr]; [by left|right]. by rewrite (Hsame Htr).
    - destruct Htr as [Htr|Htr]; [left; by rewrite (adv_tempSize _ _ Ha)|by rewrite (Hsame Htr)]. }
  pose proof (advance_grow _ _ Ha) as Hg1. pose proof (wf_running _ Hb1 Hrun1) as Hwf1.
  assert (dicPos p1 <= dicLimit) as Hl1 by lia.
  destruct ((dicLimit <=? dicPos p1) && (remainLen p1 =? 0) && (code (coder p1) =? 0)) eqn:C1.
  { apply andb_true_iff in C1 as [[C1%Z.leb_le C2%Z.eqb_eq]%andb_true_iff C3%Z.eqb_eq].
    eexists. split; [done|]. cbn. split_and!; (done || lia). }
  destruct ((dicLimit <=? dicPos p1) && match mode with LZMA_FINISH_ANY => true | _ => false end) eqn:C2.
  { apply andb_true_iff in C2 as [C2%Z.leb_le C3].
    eexists. split; [done|]. cbn. split_and!; try done; try lia. by destruct mode. }
  assert (dicLimit <= dicPos p1 -> mode = LZMA_FINISH_END) as Hmode.
  { intros Hle%Z.leb_le. rewrite Hle in C2. by destruct mode. }
  destruct ((dicLimit <=? dicPos p1) && negb (remainLen p1 =? 0)) eqn:C3.
  { apply andb_true_iff in C3 as [C3%Z.leb_le C4].
    eexists. split; [done|]. cbn. split_and!; try done; try lia. by apply Hmode. }
  assert (remainLen p1 = 0) as Hrem1.
  { apply andb_false_iff in C3 as [C3%Z.leb_gt|C3%negb_false_iff]; [lia|by apply Z.eqb_eq]. }
  assert (turn_pre dicLimit p1) as Htp.
  { constructor; rewrite ?Hc1, ?(adv_prop _ _ Ha); try done. unfold dicBufSize in *. rewrite (adv_size _ _ Ha). lia. }
  assert (exists r, (if tempBufSize p1 =? 0 then turn_src p1 dicLimit src s (dicLimit <=? dicPos p1)
                     else turn_temp p1 dicLimit src s (dicLimit <=? dicPos p1)) = Some r /\
            turn_ok dicLimit src mode p1 s r) as (r & -> & Hok).
  { destruct (Z.eqb_spec (tempBufSize p1) 0) as [Et|Et].
    - by apply turn_src_ok.
    - apply turn_temp_ok; try done. by apply Hrun1. }
  exists r. split; [done|]. destruct r as [[q s']|o]; cbn in Hok.
  - destruct Hok as [H1 H2 H3 H4 H5 H6]. split_and!; try done; try lia; [by eapply grow_trans|].
    unfold turn_measure. pose proof (gr_pos _ _ H3). rewrite Hrem1 in Hr1.
    destruct (Z.eqb_spec (remainLen p) 0) as [Ep|Ep].
    + destruct (Z.eqb_spec (remainLen q) 0) as [Eq|Eq]; [|lia].
      assert (dicPos q <> dicPos p1) by (intros Hd; by apply H6 in Hd). lia.
    + destruct (Z.eqb_spec (remainLen q) 0) as [Eq|Eq]; [|lia].
      assert (dicPos q <> dicPos p1) by (intros Hd; by apply H6 in Hd). lia.
  - by apply (outcome_ok_grow _ _ _ p p1 s s).
Qed.

(** *** The first bytes of a stream *)

Lemma fill_init_ok src p :
  bytes src -> base p -> tempBufSize p <= 5 ->
  exists l n s, fill_init src p = Some (set_temp n l p, s) /\ length l = 20%nat /\ bytes l /\
    0 <= n <= 5 /\ 0 <= s <= Z.of_nat (length src) /\ (n < 5 -> s = Z.of_nat (length src)).
Proof.
  intros Hsrc Hb Ht. unfold fill_init. change RC_INIT_SIZE with 5.
  while_inv (fun '(q, s) => exists l n, q = set_temp n l p /\ length l = 20%nat /\ bytes l /\
      0 <= n <= 5 /\ 0 <= s <= Z.of_nat (length src))
    (fun '(q, _) => Z.to_nat (5 - tempBufSize q)).
  - exists (tempBuf p), (tempBufSize p). destruct Hb. split_and!; try done; try lia. by destruct p.
  - destruct Hb. lia.
  - intros [q s] (l & n & -> & Hl & Hbl & Hn & Hs) Hc. cbn [tempBufSize tempBuf set_temp] in *.
    apply andb_true_iff in Hc as [Hc1%Z.ltb_lt Hc2%Z.ltb_lt].
    destruct (rd_Some src s) as [b Hr]; [lia|]. rewrite Hr. opt. rewrite wrz_Some by lia. opt.
    pose proof (rd_Forall _ _ _ _ Hsrc Hr).
    eexists. split; [done|]. split; [|cbn; lia].
    eexists _, _. split; [reflexivity|]. split; [by rewrite length_insert|].
    split; [by apply Forall_insert|lia].
  - intros [q s] (l & n & -> & Hl & Hbl & Hn & Hs) Hc. cbn [tempBufSize tempBuf set_temp] in *.
    exists l, n, s. split_and!; try done; try lia; intros Hlt; apply andb_false_iff in Hc as [Hc%Z.ltb_ge|Hc%Z.ltb_ge]; lia.
Qed.

Lemma init_probs_ok p :
  0 <= nprobs p <= Z.of_nat (length (probs (coder p))) ->
  exists l, init_probs p = Some l /\ length l = length (probs (coder p)) /\ probs_ok (nprobs p) l.
Proof.
  intros Hlen. unfold init_probs. set (n := nprobs p) in *.
  while_inv (fun '(i, l) => 0 <= i <= n /\ length l = length (probs (coder p)) /\ probs_ok i l)
    (fun '(i, _) => Z.to_nat (n - i)).
  - split_and!; [lia|lia|done|]. split; [lia|]. intros k x Hk Hx. apply rd_range in Hx. lia.
  - lia.
  - intros [i l] (Hi & Hl & Hk) Hc. apply Z.ltb_lt in Hc. rewrite wrz_Some by lia. opt.
    eexists. split; [done|]. split; [|lia]. split; [lia|]. split; [by rewrite length_insert|].
    split; [rewrite length_insert; lia|]. intros k x Hki Hx. destruct (Z.eq_dec k i) as [->|Hne].
    + rewrite rd_insert_eq in Hx by lia. injection Hx as <-. unfold prob_ok. by vm_compute.
    + rewrite rd_insert_ne in Hx by lia. apply Hk with k; [lia|done].
  - intros [i l] (Hi & Hl & Hk) Hc. apply Z.ltb_ge in Hc. exists l. split; [done|]. split; [done|].
    by replace n with i by lia.
Qed.

Lemma start_stream_ok dicLimit src mode p :
  bytes src -> wf p -> kMatchSpecLenStart < remainLen p -> dicPos p <= dicLimit ->
  exists r, start_stream p src = Some r /\
    match r with
    | inl o => outcome_ok dicLimit src mode p 0 o
    | inr (q, s) => base q /\ running q /\ grow p q /\ dicPos q = dicPos p /\ 0 <= s <= Z.of_nat (length src)
    end.
Proof.
  intros Hsrc Hw Hrem Hlim. unfold start_stream. layout.
  destruct (Z.ltb_spec (274 + 2) (remainLen p)) as [Hgt|Hle].
  { destruct (wf_state _ Hw) as [He|[[_ [He|[He _]]]|Hr]]; layout; try lia; [|pose proof (run_remain _ Hr); lia].
    destruct (Z.eqb_spec (remainLen p) 511); [lia|].
    eexists. split; [done|]. cbn. split_and!; (done || lia || by constructor). }
  destruct (wf_state _ Hw) as [He|[[Ht Hst]|Hr]]; layout; [lia| |pose proof (run_remain _ Hr); lia].
  pose proof (wf_base _ Hw) as Hb.
  destruct (fill_init_ok src p Hsrc Hb Ht) as (l & n & s & -> & Hl & Hbl & Hn & Hs & Hfull). opt.
  set (p1 := set_temp n l p).
  assert (base p1) as Hb1 by (apply base_temp_change; (done || lia)).
  assert (forall k, in_width 32 k -> wf (set_coder (set_range (range (coder p1)) k (coder p1)) p1)) as Hwf1.
  { intros k Hk. destruct Hw. constructor; try done.
    - destruct Hb1. by constructor.
    - right. left. split; [cbn; change RC_INIT_SIZE with 5; lia|done]. }
  assert (wf p1) as Hwp1.
  { pose proof (Hwf1 _ (wf_code _ Hw)) as H. destruct H as [[] ? ? ? ? ? ? H]. constructor; try done.
    - destruct H as [H|[H|[H1 H2 H3 H4 H5 H6]]]; [by left|right; by left|]. cbn in H4. lia. }
  cbn [tempBuf set_temp p1] in *. change (tempBuf p1) with l. change (tempBufSize p1) with n.
  destruct (rd_Some l 0) as [t0 Ht0]; [lia|]. destruct (rd_Some l 1) as [t1 Ht1]; [lia|].
  destruct (rd_Some l 2) as [t2 Ht2]; [lia|]. destruct (rd_Some l 3) as [t3 Ht3]; [lia|].
  destruct (rd_Some l 4) as [t4 Ht4]; [lia|]. rewrite Ht0, Ht1, Ht2, Ht3, Ht4. opt.
  destruct (negb (n =? 0) && negb (t0 =? 0)).
  { eexists. split; [done|]. cbn. split_and!; (done || lia || by constructor). }
  change RC_INIT_SIZE with 5. destruct (Z.ltb_spec n 5) as [Hn5|Hn5].
  { eexists. split; [done|]. cbn. split_and!; (done || lia || by constructor). }
  set (k := (t1 <<< 24) ||| (t2 <<< 16) ||| (t3 <<< 8) ||| t4).
  assert (in_width 32 k) as Hk.
  { assert (forall t i, rd l i = Some t -> 0 <= t < 2 ^ 8) as Hbyte
      by (intros t i Hi; exact (rd_Forall _ _ _ _ Hbl Hi)).
    pose proof (Hbyte _ _ Ht1). pose proof (Hbyte _ _ Ht2). pose proof (Hbyte _ _ Ht3). pose proof (Hbyte _ _ Ht4).
    unfold k. repeat apply lor_in_width; try lia; rewrite ?Z.shiftl_mul_pow2 by lia; unfold in_width; lia. }
  specialize (Hwf1 k Hk). set (p2 := set_coder (set_range (range (coder p1)) k (coder p1)) p1) in *.
  destruct ((checkDicSize p2 =? 0) && (processedPos p2 =? 0) && (kBadRepCode <=? k)).
  { eexists. split; [done|]. cbn. split_and!; (done || lia || by constructor). }
  clearbody k.
  assert (forall q l0 st r0 r1 r2 r3, q = set_remain 0 (set_state st r0 r1 r2 r3
      (set_coder (set_probs l0 (set_range 0xFFFFFFFF k (coder p))) (set_temp 0 l p))) ->
    probs_ok (nprobs p) l0 -> 0 <= st < 12 ->
    rep_ok p r0 -> rep_ok p r1 -> rep_ok p r2 -> rep_ok p r3 ->
    base q /\ running q /\ grow p q /\ dicPos q = dicPos p /\ 0 <= s <= Z.of_nat (length src)) as Hfin.
  { intros q l0 st r0 r1 r2 r3 -> Hpr Hs1 Hr0 Hr1 Hr2 Hr3. split_and!; try done; try lia; try (by constructor).
    - destruct Hb. constructor; try done. apply Hpr.
    - constructor; try done; try (by left).
      + destruct Hw. by constructor.
      + constructor; try done. apply Hb. }
  match goal with |- context [274 + 1 <? remainLen ?x] => change (remainLen x) with (remainLen p) end.
  destruct (Z.ltb_spec (274 + 1) (remainLen p)) as [Hr2|Hr2].
  - match goal with |- context [init_probs ?x] =>
      destruct (init_probs_ok x) as (l0 & -> & Hl0 & Hpr);
        [split; [|apply Hb]; pose proof (num_probs (prop p) (wf_props _ Hw)) as Hnp; cbn; rewrite Hnp;
         pose proof (Z.pow_nonneg 2 (lc (prop p) + lp (prop p))); lia|] end.
    opt. eexists. split; [reflexivity|].
    pose proof (wf_size _ Hw).
    apply (Hfin _ l0 0 1 1 1 1); try done; unfold rep_ok; lia.
  - destruct Hst as [Hst|(Hst & Hpr & H1 & H2 & H3 & H4 & H5)]; [lia|].
    opt. eexists. split; [reflexivity|].
    by apply (Hfin _ (probs (coder p)) (state p) (rep0 p) (rep1 p) (rep2 p) (rep3 p)).
Qed.

(** The whole call, for the clients of the decoder. *)
Lemma DecodeToDic_ok p dicLimit src mode :
  wf p -> dicPos p <= dicLimit <= dicBufSize p -> bytes src ->
  exists o, LzmaDec_DecodeToDic p dicLimit src mode = Some o /\ outcome_ok dicLimit src mode p 0 o.
Proof.
  intros Hw Hlim Hsrc. unfold LzmaDec_DecodeToDic.
  assert (forall q s, base q -> running q -> grow p q -> dicPos q = dicPos p -> 0 <= s <= Z.of_nat (length src) ->
    exists o, loop (S (S (S (Z.to_nat (dicLimit - dicPos q))))) (dic_turn dicLimit src mode) (q, s) = Some o /\
      outcome_ok dicLimit src mode p 0 o) as Hloop.
  { intros q s Hb Hr Hg Hd Hs.
    apply (loop_total (fun '(q, s) => base q /\ running q /\ grow p q /\ dicPos q <= dicLimit /\
             0 <= s <= Z.of_nat (length src)) (fun '(q, _) => turn_measure dicLimit q)).
    - intros [q' s'] (Hb' & Hr' & Hg' & Hd' & Hs').
      destruct (dic_turn_ok dicLimit src mode q' s') as (r & -> & Hok); try done.
      { split; [done|]. unfold dicBufSize in *. rewrite (gr_size _ _ Hg'). lia. }
      destruct r as [[q2 s2]|o].
      + destruct Hok as (H1 & H2 & H3 & H4 & H5 & H6). split_and!; try done; try lia. by eapply grow_trans.
      + apply (outcome_ok_grow _ _ _ p q' 0 s'); (done || lia).
    - split_and!; (done || lia).
    - unfold turn_measure. destruct (remainLen q =? 0); lia. }
  layout. destruct (Z.ltb_spec 274 (remainLen p)) as [Hgt|Hle].
  - destruct (start_stream_ok dicLimit src mode p Hsrc Hw) as (r & -> & Hok); [layout; lia|lia|]. opt.
    destruct r as [o|[q s]]; [by exists o|]. destruct Hok as (H1 & H2 & H3 & H4 & H5). by apply Hloop.
  - opt. destruct (wf_state _ Hw) as [He|[[_ [He|[He _]]]|Hr]]; layout; try lia.
    apply Hloop; try done; [apply Hw|lia].
Qed.

(** A small decoder: a dictionary of 4 KiB, no bytes read yet. *)
Definition example_props : CLzmaProps := {| lc := 0; lp := 0; pb := 0; dicSize := 4096 |}.

Definition example_start : CLzmaDec :=
  {| prop := example_props;
     coder := {| probs := replicate 2752 0; range := 0; code := 0; buf := 0 |};
     dic := replicate 4096 0; dicPos := 0; processedPos := 0; checkDicSize := 0;
     rep0 := 0; rep1 := 0; rep2 := 0; rep3 := 0; state := 0;
     remainLen := 276; tempBufSize := 0; tempBuf := replicate 20 0 |}.

Definition example_running : CLzmaDec :=
  {| prop := example_props;
     coder := {| probs := replicate 2752 1024; range := 0xFFFFFFFF; code := 0; buf := 0 |};
     dic := replicate 4096 0; dicPos := 0; processedPos := 0; checkDicSize := 0;
     rep0 := 1; rep1 := 1; rep2 := 1; rep3 := 1; state := 0;
     remainLen := 0; tempBufSize := 0; tempBuf := replicate 20 0 |}.

Lemma bytes_zeros n : bytes (replicate n 0).
Proof. apply Forall_replicate. unfold in_width. lia. Qed.

Lemma probs_ok_init m k x : m <= Z.of_nat k -> prob_ok x -> probs_ok m (replicate k x).
Proof.
  intros Hm Hx. split; [by rewrite length_replicate|]. intros i y _ Hi.
  assert (Forall prob_ok (replicate k x)) as Hf by (by apply Forall_replicate).
  exact (rd_Forall _ _ _ _ Hf Hi).
Qed.

Ltac example_field :=
  first [apply bytes_zeros | rewrite length_replicate; reflexivity | apply probs_ok_init; [vm_compute; discriminate|unfold prob_ok; lia]
        | rewrite ?length_replicate; unfold props_ok, in_width; cbn; lia].

Lemma example_start_wf : wf example_start.
Proof.
  constructor; unfold dicBufSize, example_start; cbn -[replicate]; try example_field.
  - constructor; unfold window_ok, dicBufSize; cbn -[replicate Z.of_nat]; try example_field.
  - right. left. split; [cbn; unfold RC_INIT_SIZE; lia|by left].
Qed.

Lemma example_running_ok : running example_running.
Proof.
  constructor; try (cbn; lia); [| |unfold normalized; cbn; lia|by left].
  - constructor; unfold rep_ok, dicBufSize, example_running; cbn -[replicate]; example_field.
  - constructor; unfold example_running; cbn -[replicate]; example_field.
Qed.

Lemma example_running_wf : wf example_running.
Proof.
  apply wf_running; [|apply example_running_ok].
  constructor; unfold window_ok, dicBufSize; cbn -[replicate Z.of_nat]; example_field.
Qed.

(** C4: From any well-formed decoder, for any input and any limit inside the dictionary
    buffer, LzmaDec_DecodeToDic returns: no access out of range, no endless loop.  It
    leaves a well-formed decoder, writes only between the old and the new position,
    stays under the limit, consumes no more than the input, never reports the internal
    error SZ_ERROR_FAIL, and its status means what LzmaDec.h says. *)
Theorem LzmaDec_DecodeToDic_safe (p : CLzmaDec) (dicLimit : Z) (src : list Z) (mode : ELzmaFinishMode)
    (Hwf : wf p) (Hlim : dicPos p <= dicLimit <= dicBufSize p) (Hsrc : bytes src) :
  exists p' consumed res status,
    LzmaDec_DecodeToDic p dicLimit src mode = Some (p', consumed, res, status) /\
    wf p' /\ prop p' = prop p /\ dicBufSize p' = dicBufSize p /\
    dicPos p <= dicPos p' <= dicLimit /\
    (forall i, i < dicPos p \/ dicPos p' <= i -> rd (dic p') i = rd (dic p) i) /\
    0 <= consumed <= Z.of_nat (length src) /\
    result_ok dicLimit src mode (p', consumed, res, status).
Proof.
  destruct (DecodeToDic_ok p dicLimit src mode Hwf Hlim Hsrc) as ([[[p' n] res] st] & Ho & H1 & H2 & H3 & H4 & H5).
  destruct H2 as [G1 G2 G3 G4]. exists p', n, res, st. unfold dicBufSize.
  split_and!; (done || lia).
Qed.

Lemma LzmaDec_DecodeToDic_safe_witness :
  exists p' consumed res status,
    LzmaDec_DecodeToDic example_start 4096 [0; 1; 2; 3; 4; 5; 6] LZMA_FINISH_ANY
      = Some (p', consumed, res, status) /\ wf p' /\ 0 <= consumed <= 7.
Proof.
  destruct (LzmaDec_DecodeToDic_safe example_start 4096 [0; 1; 2; 3; 4; 5; 6] LZMA_FINISH_ANY
    example_start_wf ltac:(unfold dicBufSize, example_start; cbn -[replicate]; rewrite length_replicate; lia)
    ltac:(byte_list)) as (p' & n & r & st & H1 & H2 & _ & _ & _ & _ & H3 & _).
  exists p', n, r, st. split; [exact H1|]. split; [exact H2|exact H3].
Defined.

(** C7: LzmaDec_TryDummy is a faithful look-ahead: it never reads outside the given bytes,
    it reports DUMMY_INPUT_EOF only when fewer than LZMA_REQUIRED_INPUT_MAX bytes are
    available, and otherwise the kind of symbol and the number of bytes (at most
    LZMA_REQUIRED_INPUT_MAX) that the reader without checks takes for the next symbol. *)
Theorem LzmaDec_TryDummy_lookahead (p : CLzmaDec) (inp : list Z) (from lim : Z)
    (Hwf : wf p) (Hrun : running p) (Hinp : bytes inp)
    (Hrange : 0 <= from <= lim /\ lim <= Z.of_nat (length inp)) :
  exists d b, LzmaDec_TryDummy p inp from lim = Some (d, b) /\
    ((d = DUMMY_INPUT_EOF /\ b = lim /\ lim < from + LZMA_REQUIRED_INPUT_MAX) \/
     (from <= b <= lim /\ b <= from + LZMA_REQUIRED_INPUT_MAX /\
      exists s c c', run inp (decode_real p) (set_buf from (coder p)) = Some (s, c) /\
        NORMALIZE inp c = Some c' /\ buf c' = b /\ kind s = d /\ sym_ok p s)).
Proof.
  destruct Hrange as [Hr1 Hr2].
  destruct (TryDummy_spec inp p from lim Hinp (run_pre _ Hrun) (run_rc _ Hrun)
    (run_norm _ Hrun) Hr1 Hr2) as (d & b & Hd & Hspec).
  exists d, b. split; [done|].
  destruct Hspec as [Heof|(_ & H1 & H2 & s & c & H3 & H4 & H5 & _ & (c' & H6 & _ & _ & _ & H7) & _)]; [by left|right].
  split_and!; try lia; try done. by exists s, c, c'.
Qed.

Lemma LzmaDec_TryDummy_lookahead_witness :
  exists d b, LzmaDec_TryDummy example_running [1; 2; 3] 0 3 = Some (d, b) /\ b <= 20.
Proof.
  destruct (LzmaDec_TryDummy_lookahead example_running [1; 2; 3] 0 3 example_running_wf example_running_ok
    ltac:(byte_list) ltac:(cbn; lia)) as (d & b & H1 & H2).
  exists d, b. split; [exact H1|]. unfold LZMA_REQUIRED_INPUT_MAX in H2.
  destruct H2 as [(_ & -> & _)|(_ & H & _)]; lia.
Defined.
