(* ===== verification/LzmaDecKeep.v ===== *)
(** * LZMA decoder: the probability array keeps its size

    No function of the decoder changes the size of the array of probabilities: what
    LZMA2 needs, which allocates it once for the largest [lc + lp] and changes the
    properties between chunks. *)

From stdpp Require Import base numbers list list_numbers.
From Stdlib Require Import ZArith Lia.
From S2P Require Import Prelude SzTypes LzmaParse LzmaDec.
Local Open Scope Z_scope.

Abbreviation cap p := (length (probs (coder p))).

(** Walk through the code of a result: binds, branches, pairs. *)
Ltac keep_step :=
  match goal with
  | |- returns None _ => apply returns_None
  | |- returns (Some _) _ => apply returns_Some
  | |- returns (?o ≫= _) _ => apply returns_bind
  | |- returns (option_map _ _) _ => apply returns_map
  | |- returns (if ?b then _ else _) _ => destruct b
  | |- returns (match ?x with _ => _ end) _ => destruct x
  | |- returns (let _ := _ in _) _ => cbv zeta
  end.

Ltac keep := repeat (cbv beta zeta; keep_step).

Lemma returns_any {A} (o : option A) (Q : A -> Prop) : (forall a, Q a) -> returns o Q.
Proof. intros H a _. apply H. Qed.

Lemma wrz_keep {A} (l : list A) i v : returns (wrz l i v) (fun l' => length l' = length l).
Proof. unfold wrz, wr. keep. by rewrite length_insert. Qed.

Lemma NORMALIZE_keep inp c : returns (NORMALIZE inp c) (fun c' => length (probs c') = length (probs c)).
Proof. unfold NORMALIZE. keep; [|done]. apply returns_any. intros b. by apply returns_Some. Qed.

Lemma run_keep {A} inp (t : parse A) : forall c,
  returns (run inp t c) (fun '(_, c') => length (probs c') = length (probs c)).
Proof.
  induction t as [a|p k IH|k IH|]; intros c; cbn [run]; [by apply returns_Some| | |done].
  - apply returns_bind, returns_any. intros x.
    apply returns_bind. eapply returns_mono; [apply NORMALIZE_keep|]. intros c1 H1. cbv beta zeta.
    destruct (_ <? _); unfold UPDATE_0, UPDATE_1.
    all: apply returns_bind, returns_bind; eapply returns_mono; [apply wrz_keep|]; intros l Hl.
    all: apply returns_Some; eapply returns_mono; [apply IH|]; intros [a c'] Hc'; cbn in *; congruence.
  - apply returns_bind. eapply returns_mono; [apply NORMALIZE_keep|]. intros c1 H1. cbv beta.
    destruct (direct_real c1) as [d c2] eqn:Hd. injection Hd as <- <-.
    eapply returns_mono; [apply IH|]. intros [a c'] Hc'. cbn in *. congruence.
Qed.

Lemma copy_match_keep limit len p : returns (copy_match limit len p) (fun '(p', _) => cap p' = cap p).
Proof.
  unfold copy_match. keep; [done|..]; apply returns_any; intros l; by apply returns_Some.
Qed.

Lemma exec_sym_keep limit s p : returns (exec_sym limit s p) (fun '(p', _) => cap p' = cap p).
Proof.
  destruct s; cbn [exec_sym]; try (by apply returns_Some).
  - apply returns_bind, returns_any. intros l. by apply returns_Some.
  - apply returns_bind, returns_any. intros b. apply returns_bind, returns_any. intros l. by apply returns_Some.
  - apply (copy_match_keep limit len (set_state state rep0 rep1 rep2 rep3 p)).
  - cbv zeta. destruct (_ <=? _); [by apply returns_Some|]. apply (copy_match_keep limit len (set_state _ _ _ _ _ p)).
Qed.

Lemma DecodeReal_3_keep inp p limit bufLimit :
  returns (LzmaDec_DecodeReal_3 inp p limit bufLimit) (fun '(p', _) => cap p' = cap p).
Proof.
  unfold LzmaDec_DecodeReal_3. apply returns_bind.
  eapply returns_mono; [apply (returns_loop (fun q => cap q = cap p) (fun q => cap q = cap p)); [|done]|].
  - intros q Hq. unfold real_turn. apply returns_bind, returns_bind. eapply returns_mono; [apply run_keep|].
    intros [s c] Hc. eapply returns_mono; [apply exec_sym_keep|]. intros [q' go] Hq'. cbn in *.
    destruct (_ && _); apply returns_Some; congruence.
  - intros q Hq. cbv beta. apply returns_bind. eapply returns_mono; [apply NORMALIZE_keep|]. intros c Hc.
    apply returns_Some. cbn. congruence.
Qed.

Lemma DecodeReal2_keep inp p limit bufLimit :
  returns (LzmaDec_DecodeReal2 inp p limit bufLimit) (fun '(p', _) => cap p' = cap p).
Proof.
  unfold LzmaDec_DecodeReal2. apply returns_bind. eapply returns_mono; [apply DecodeReal_3_keep|].
  intros [q res] Hq. apply returns_Some. by destruct (_ && _).
Qed.

Lemma WriteRem_keep p limit : returns (LzmaDec_WriteRem p limit) (fun p' => cap p' = cap p).
Proof.
  unfold LzmaDec_WriteRem. keep; try done; apply returns_any; intros [[l pos] len];
    apply returns_Some; cbn; by destruct (_ && _).
Qed.

Lemma fill_init_keep src p : returns (fill_init src p) (fun '(p', _) => cap p' = cap p).
Proof.
  unfold fill_init. apply returns_while; [|done]. intros [q s] Hq. cbn in *.
  apply returns_bind, returns_any. intros b. apply returns_bind, returns_any. intros l. by apply returns_Some.
Qed.

Lemma init_probs_keep p : returns (init_probs p) (fun l => length l = cap p).
Proof.
  unfold init_probs. apply returns_map. eapply returns_mono; [apply (returns_while (fun '(_, l) => length l = cap p)); [|done]|by intros []].
  intros [i l] Hl. apply returns_bind. eapply returns_mono; [apply wrz_keep|]. intros l' Hl'. apply returns_Some. congruence.
Qed.

(** The cap of the decoder an outcome or a turn ends with. *)
Definition keeps (p : CLzmaDec) (r : CLzmaDec * Z + outcome) : Prop :=
  match r with inl (q, _) => cap q = cap p | inr (q, _, _, _) => cap q = cap p end.

Lemma start_stream_keep p src :
  returns (start_stream p src) (fun r => match r with inl (q, _, _, _) => cap q = cap p | inr (q, _) => cap q = cap p end).
Proof.
  unfold start_stream. destruct (_ <? _); [by apply returns_Some|].
  apply returns_bind. eapply returns_mono; [apply fill_init_keep|]. intros [q s] Hq.
  apply returns_bind, returns_any. intros t0. destruct (_ && _); [by apply returns_Some|].
  destruct (_ <? _); [by apply returns_Some|].
  do 4 (apply returns_bind, returns_any; intros ?). cbv zeta. destruct (_ && _); [by apply returns_Some|].
  apply returns_bind. destruct (_ <? _); [|by do 2 apply returns_Some].
  apply returns_bind. eapply returns_mono; [apply init_probs_keep|]. intros l Hl.
  do 2 apply returns_Some. cbn in *. congruence.
Qed.

Lemma turn_src_keep p dicLimit src s e : returns (turn_src p dicLimit src s e) (keeps p).
Proof.
  unfold turn_src. apply returns_bind.
  eapply returns_mono with (Q := fun r => match r with inr (q, _, _, _) => cap q = cap p | inl _ => True end).
  - cbv zeta. destruct (_ || _); [|by apply returns_Some]. apply returns_bind, returns_any. intros [d b].
    destruct (is_eof d); [|cbv zeta]; (destruct (_ <=? _) || destruct (_ <? _)); try by apply returns_Some.
    + apply returns_bind, returns_any. intros l. by apply returns_Some.
    + destruct (_ && _); [|by apply returns_Some]. apply returns_bind, returns_any. intros l. by apply returns_Some.
  - intros [[lim n]|o] Ho; [|by apply returns_Some]. apply returns_bind.
    eapply returns_mono; [apply DecodeReal2_keep|]. intros [q res] Hq. cbv zeta.
    destruct (if _ <? _ then _ else _); [by apply returns_Some|]. destruct (not_ok res); by apply returns_Some.
Qed.

Lemma turn_temp_keep p dicLimit src s e : returns (turn_temp p dicLimit src s e) (keeps p).
Proof.
  unfold turn_temp. apply returns_bind, returns_any. intros [[l rem] ahead]. apply returns_bind.
  eapply returns_mono with (Q := fun r => match r with inr (q, _, _, _) => cap q = cap p | inl _ => True end).
  - cbv zeta. destruct (_ || _); [|by apply returns_Some]. apply returns_bind, returns_any. intros [d b].
    destruct (is_eof d); (destruct (_ <=? _) || destruct (_ <? _)); try by apply returns_Some.
    destruct (_ && _); by apply returns_Some.
  - intros [n|o] Ho; [|by apply returns_Some]. apply returns_bind.
    eapply returns_mono; [apply DecodeReal2_keep|]. intros [q res] Hq. cbv zeta.
    destruct (if _ <? _ then _ else _); [by apply returns_Some|]. destruct (not_ok res); by apply returns_Some.
Qed.

Lemma dic_turn_keep dicLimit src mode p s : returns (dic_turn dicLimit src mode (p, s)) (keeps p).
Proof.
  unfold dic_turn. destruct (_ =? _); [destruct (negb _); by apply returns_Some|].
  apply returns_bind. eapply returns_mono; [apply WriteRem_keep|]. intros q Hq. cbv zeta.
  do 3 (destruct (_ && _); [by apply returns_Some|]).
  destruct (_ =? 0); (eapply returns_mono; [apply turn_src_keep || apply turn_temp_keep|]);
    intros [[q' s']|[[[q' n] res] st]] H; cbn in *; congruence.
Qed.

Lemma DecodeToDic_keep p dicLimit src mode :
  returns (LzmaDec_DecodeToDic p dicLimit src mode) (fun '(p', _, _, _) => cap p' = cap p).
Proof.
  unfold LzmaDec_DecodeToDic. apply returns_bind.
  eapply returns_mono with (Q := fun r => match r with inl (q, _, _, _) => cap q = cap p | inr (q, _) => cap q = cap p end).
  - destruct (_ <? _); [apply start_stream_keep|by apply returns_Some].
  - intros [o|[q s]] Hq; [by apply returns_Some|].
    apply (returns_loop (fun '(q, _) => cap q = cap p)); [|done]. intros [q' s'] Hq'.
    eapply returns_mono; [apply dic_turn_keep|]. intros [[q2 s2]|[[[q2 n] res] st]] H; cbn in *; congruence.
Qed.
