(* ===== verification/DicToBuf.v ===== *)
(** * From a dictionary to an output buffer

    LzmaDec_DecodeToBuf (LzmaDec.c) and Lzma2Dec_DecodeToBuf (Lzma2Dec.c) are the same
    loop around two decoders that write into a circular dictionary: wrap the position,
    decode up to the end of the dictionary or the room left, copy what was produced.
    [DicDecoder] is the interface the loop uses, [DicDecoderLaws] what a decoder
    promises behind it; the loop is verified once, against the interface. *)

From stdpp Require Import base numbers list list_numbers.
From Stdlib Require Import ZArith Lia.
From S2P Require Import Prelude SzTypes LzmaParse LzmaDec.
Local Open Scope Z_scope.

(** [dicPos = 0] *)
Definition wrap_pos (p : CLzmaDec) : CLzmaDec := set_dic (dic p) 0 (processedPos p) p.

Class DicDecoder (D : Type) := {
  dd_dec : D -> CLzmaDec;
  dd_wrap : D -> D;
  dd_decode : D -> Z -> list Z -> ELzmaFinishMode -> option (D * Z * SRes * ELzmaStatus)
}.

(** What decoding up to a limit promises. *)
Definition decode_spec (lim : Z) (src : list Z) (d' : CLzmaDec) (n : Z) (res : SRes) (st : ELzmaStatus) : Prop :=
  dicPos d' <= lim /\ 0 <= n <= Z.of_nat (length src) /\
  (res = SZ_ERROR_DATA \/
   res = SZ_OK /\ (dicPos d' = lim \/ st = LZMA_STATUS_FINISHED_WITH_MARK \/
                   st = LZMA_STATUS_NEEDS_MORE_INPUT /\ n = Z.of_nat (length src))).

Class DicDecoderLaws (D : Type) `{DicDecoder D} := {
  dd_ok : D -> Prop;
  dd_same : D -> D -> Prop;
  law_same :: PreOrder dd_same;
  law_dic p : dd_ok p -> bytes (dic (dd_dec p)) /\ 0 <= dicPos (dd_dec p) <= dicBufSize (dd_dec p) /\
                         1 <= dicBufSize (dd_dec p);
  law_size p q : dd_same p q -> dicBufSize (dd_dec q) = dicBufSize (dd_dec p) /\
                                dicSize (prop (dd_dec q)) = dicSize (prop (dd_dec p));
  law_wrap p : dd_ok p -> dicPos (dd_dec p) = dicBufSize (dd_dec p) ->
               dicSize (prop (dd_dec p)) <= dicBufSize (dd_dec p) ->
               dd_ok (dd_wrap p) /\ dd_same p (dd_wrap p) /\ dicPos (dd_dec (dd_wrap p)) = 0;
  law_decode p lim src m : dd_ok p -> dicPos (dd_dec p) <= lim <= dicBufSize (dd_dec p) -> bytes src ->
               exists p' n res st, dd_decode p lim src m = Some (p', n, res, st) /\
                 dd_ok p' /\ dd_same p p' /\ dicPos (dd_dec p) <= dicPos (dd_dec p') /\
                 decode_spec lim src (dd_dec p') n res st
}.

Section DicToBuf.
Context {D : Type} `{DicDecoder D}.

(** How far to decode: the function's own computation of the limit and the mode. *)
Variable window : CLzmaDec -> Z -> Z * ELzmaFinishMode.

(** One turn: the decoder, [dest] so far, [outSize] left, [*srcLen] so far. *)
Definition buf_turn (src : list Z) '((p, dest, outSize, srcLen) : D * list Z * Z * Z)
  : option (D * list Z * Z * Z + D * list Z * Z * SRes * ELzmaStatus) :=
  let p := if dicPos (dd_dec p) =? dicBufSize (dd_dec p) then dd_wrap p else p in
  let dicPos0 := dicPos (dd_dec p) in
  let '(limit, curFinishMode) := window (dd_dec p) outSize in
  '(p, inSizeCur, res, status) ← dd_decode p limit (drop (Z.to_nat srcLen) src) curFinishMode;
  let srcLen := srcLen + inSizeCur in
  let outSizeCur := dicPos (dd_dec p) - dicPos0 in
  out ← slice (dic (dd_dec p)) (Z.to_nat dicPos0) (Z.to_nat outSizeCur);
  let dest := dest ++ out in
  let outSize := outSize - outSizeCur in
  if not_ok res then Some (inr (p, dest, srcLen, res, status))
  else if (outSizeCur =? 0) || (outSize =? 0) then Some (inr (p, dest, srcLen, SZ_OK, status))
  else Some (inl (p, dest, outSize, srcLen)).

Definition decode_to_buf (p : D) (outSize : Z) (src : list Z) : option (D * list Z * Z * SRes * ELzmaStatus) :=
  loop (S (Z.to_nat outSize)) (buf_turn src) (p, [], outSize, 0).

(** ** The loop, for every decoder that keeps the laws *)

Context `{!DicDecoderLaws D}.
Hypothesis window_ok : forall d outSize, exists lim m,
  window d outSize = (lim, m) /\ lim = Z.min (dicBufSize d) (dicPos d + outSize).
Context (src : list Z) (src_bytes : bytes src) (p0 : D) (outSize0 : Z).
Hypothesis window_fits : dicSize (prop (dd_dec p0)) <= dicBufSize (dd_dec p0).

Record buf_next (p : D) (dest : list Z) (n : Z) : Prop := {
  bn_ok : dd_ok p;
  bn_same : dd_same p0 p;
  bn_dest : Z.of_nat (length dest) <= outSize0;
  bn_bytes : bytes dest;
  bn_src : 0 <= n <= Z.of_nat (length src)
}.

(** What a finished call says of its status. *)
Definition buf_status (dest : list Z) (n : Z) (res : SRes) (status : ELzmaStatus) : Prop :=
  res = SZ_ERROR_DATA \/
  res = SZ_OK /\
    (Z.of_nat (length dest) = outSize0 \/ status = LZMA_STATUS_FINISHED_WITH_MARK \/
     status = LZMA_STATUS_NEEDS_MORE_INPUT /\ n = Z.of_nat (length src)).

Lemma buf_wrap_ok p :
  dd_ok p -> dd_same p0 p ->
  let q := if dicPos (dd_dec p) =? dicBufSize (dd_dec p) then dd_wrap p else p in
  dd_ok q /\ dd_same p0 q /\ 0 <= dicPos (dd_dec q) < dicBufSize (dd_dec q) /\ bytes (dic (dd_dec q)).
Proof.
  intros Hp Hs. pose proof (law_dic p Hp) as (Hb & Hpos & Hsz). pose proof (law_size _ _ Hs) as [Hs1 Hs2].
  destruct (Z.eqb_spec (dicPos (dd_dec p)) (dicBufSize (dd_dec p))) as [E|E]; cbv zeta.
  - destruct (law_wrap p Hp E ltac:(lia)) as (H1 & H2 & H3). pose proof (law_size _ _ H2) as [H4 _].
    split; [done|]. split; [by etransitivity|]. rewrite H3. split; [lia|]. apply (law_dic _ H1).
  - split_and!; (done || lia).
Qed.

Lemma buf_turn_ok p dest outSize n :
  buf_next p dest n -> outSize0 = Z.of_nat (length dest) + outSize ->
  exists r, buf_turn src (p, dest, outSize, n) = Some r /\
    match r with
    | inl (p', dest', outSize', n') =>
        buf_next p' dest' n' /\ outSize0 = Z.of_nat (length dest') + outSize' /\
        (Z.to_nat outSize' < Z.to_nat outSize)%nat
    | inr (p', dest', n', res, status) => buf_next p' dest' n' /\ buf_status dest' n' res status
    end.
Proof.
  intros [Hp Hs Hdest Hdb Hn] Hout. unfold buf_turn.
  pose proof (buf_wrap_ok p Hp Hs) as Hq. cbv zeta in Hq |- *.
  set (q := if dicPos (dd_dec p) =? _ then _ else p) in *. clearbody q. destruct Hq as (Hq & Hsq & Hpos & Hbq).
  destruct (window_ok (dd_dec q) outSize) as (lim & m & -> & Hlim). cbv beta iota.
  destruct (law_decode q lim (drop (Z.to_nat n) src) m Hq ltac:(lia) (bytes_drop _ _ src_bytes))
    as (p' & k & res & st & -> & H1 & H2 & H3 & H4 & H5 & H6). opt. rewrite length_drop in H5, H6.
  pose proof (law_dic p' H1) as (Hb' & Hpos' & _). pose proof (law_size _ _ H2) as [Hs1 _].
  unfold dicBufSize in Hpos'. rewrite slice_Some by lia. opt. set (out := take _ _).
  assert (Z.of_nat (length out) = dicPos (dd_dec p') - dicPos (dd_dec q)) as Hlen.
  { unfold out. rewrite length_take, length_drop. lia. }
  assert (Z.of_nat (length (dest ++ out)) = Z.of_nat (length dest) + (dicPos (dd_dec p') - dicPos (dd_dec q))) as Hlen2
    by (rewrite length_app; lia).
  assert (buf_next p' (dest ++ out) (n + k)) as Hnext.
  { constructor; [done|by etransitivity|lia| |lia]. apply Forall_app. split; [done|]. by apply bytes_take, bytes_drop. }
  destruct H6 as [->|[-> H6]]; cbn [not_ok].
  { eexists. split; [reflexivity|]. split; [done|by left]. }
  destruct (Z.eqb_spec (dicPos (dd_dec p') - dicPos (dd_dec q)) 0) as [E1|E1];
    destruct (Z.eqb_spec (outSize - (dicPos (dd_dec p') - dicPos (dd_dec q))) 0) as [E2|E2]; cbn [orb].
  4: { eexists. split; [reflexivity|]. split; [done|]. split; lia. }
  all: eexists; split; [reflexivity|]; split; [done|]; right; split; [done|].
  1,3: left; lia.
  destruct H6 as [H6|[H6|[-> H6]]]; [lia|by right; left|right; right]. split; [done|lia].
Qed.

Lemma decode_to_buf_ok :
  dd_ok p0 -> 0 <= outSize0 ->
  exists p' dest n res status,
    decode_to_buf p0 outSize0 src = Some (p', dest, n, res, status) /\
    buf_next p' dest n /\ buf_status dest n res status.
Proof.
  intros Hp Hout. unfold decode_to_buf.
  edestruct (loop_total
    (fun '(q, dest, room, n) => buf_next q dest n /\ outSize0 = Z.of_nat (length dest) + room)
    (fun '(_, _, room, _) => Z.to_nat room)
    (fun '(q, dest, n, res, status) => buf_next q dest n /\ buf_status dest n res status))
    as ([[[[q dest] n] res] st] & -> & Hq).
  - intros [[[q dest] room] n] [Hn Hl].
    destruct (buf_turn_ok q dest room n) as (r & -> & Hr); try done.
    destruct r as [[[[q' d'] l'] n']|[[[[q' d'] n'] res] st]]; [|done].
    destruct Hr as (H1 & H2 & H3). by split_and!.
  - split; [|cbn; lia]. constructor; [done|reflexivity|cbn; lia|apply Forall_nil_2|lia].
  - cbn. lia.
  - by exists q, dest, n, res, st.
Qed.
End DicToBuf.
