(* ===== verification/LzmaApi.v ===== *)
(** * LZMA decoder: allocation, output buffers, properties

    The rest of src/native/sevenzip_bridge/7z2604-src/C/LzmaDec.c around
    LzmaDec_DecodeToDic: LzmaDec_DecodeToBuf, LzmaDec_AllocateProbs2,
    LzmaDec_Allocate, LzmaDecode, and LzmaEnc_WriteProperties of LzmaEnc.c, the
    inverse of LzmaProps_Decode.  A NULL pointer is an empty list. *)

From stdpp Require Import base numbers list list_numbers.
From Stdlib Require Import ZArith Lia.
From S2P Require Import Prelude SzTypes LzmaParse LzmaDec LzmaDecSym LzmaDecSafe DicToBuf.
Local Open Scope Z_scope.
Local Open Scope word_scope.

(** ** Memory *)

Definition is_null (l : list Z) : bool := match l with [] => true | _ => false end.

Definition set_prop (q : CLzmaProps) (p : CLzmaDec) : CLzmaDec :=
  {| prop := q; coder := coder p; dic := dic p; dicPos := dicPos p;
     processedPos := processedPos p; checkDicSize := checkDicSize p;
     rep0 := rep0 p; rep1 := rep1 p; rep2 := rep2 p; rep3 := rep3 p;
     state := state p; remainLen := remainLen p;
     tempBufSize := tempBufSize p; tempBuf := tempBuf p |}.

Definition set_dic_buf (l : list Z) (p : CLzmaDec) : CLzmaDec :=
  set_dic l (dicPos p) (processedPos p) p.

(** The memory functions: the content of a new block of [n] cells, or [None]. *)
Record allocator := {
  alloc_probs : Z -> option (list Z);
  ISzAlloc_Alloc : Z -> option (list Z);
  sunpack_memory_alloc : Z -> option (list Z);
  sunpack_memory_current_context : bool
}.

Definition LzmaDec_FreeProbs (p : CLzmaDec) : CLzmaDec := set_coder (set_probs [] (coder p)) p.
Definition LzmaDec_FreeDict (p : CLzmaDec) : CLzmaDec := set_dic_buf [] p.
Definition LzmaDec_Free (p : CLzmaDec) : CLzmaDec := LzmaDec_FreeDict (LzmaDec_FreeProbs p).

Definition LzmaDec_AllocateProbs2 (A : allocator) (propNew : CLzmaProps) (p : CLzmaDec) : CLzmaDec * SRes :=
  let numProbs := LzmaProps_GetNumProbs propNew in
  if is_null (probs (coder p)) || negb (numProbs =? Z.of_nat (length (probs (coder p)))) then
    let p := LzmaDec_FreeProbs p in
    match alloc_probs A numProbs with
    | None => (p, SZ_ERROR_MEM)
    | Some l => (set_coder (set_probs l (coder p)) p, SZ_OK)
    end
  else (p, SZ_OK).

(** The dictionary size rounded up. *)
Definition dic_buf_size (dictSize : Z) : Z :=
  let mask := if (1 <<< 30) <=? dictSize then (1 <<< 22) - 1
              else if (1 <<< 22) <=? dictSize then (1 <<< 20) - 1
              else (1 <<< 12) - 1 in
  let n := u64 (dictSize + mask) &&& Z.lnot mask in
  if n <? dictSize then dictSize else n.

Definition LzmaDec_AllocateProbs (A : allocator) (props : list Z) (p : CLzmaDec) : option (CLzmaDec * SRes) :=
  '(res, propNew) ← LzmaProps_Decode props;
  match propNew with
  | None => Some (p, res)
  | Some propNew =>
      let '(p, res) := LzmaDec_AllocateProbs2 A propNew p in
      Some (if not_ok res then (p, res) else (set_prop propNew p, SZ_OK))
  end.

Definition LzmaDec_Allocate (A : allocator) (props : list Z) (p : CLzmaDec) : option (CLzmaDec * SRes) :=
  '(res, propNew) ← LzmaProps_Decode props;
  match propNew with
  | None => Some (p, res)
  | Some propNew =>
      let '(p, res) := LzmaDec_AllocateProbs2 A propNew p in
      if not_ok res then Some (p, res)
      else
        let n := dic_buf_size (dicSize propNew) in
        if is_null (dic p) || negb (n =? dicBufSize p) then
          let p := LzmaDec_FreeDict p in
          match (if ((2 <<< 20) <=? n) && sunpack_memory_current_context A
                 then sunpack_memory_alloc A n else ISzAlloc_Alloc A n) with
          | None => Some (LzmaDec_FreeProbs p, SZ_ERROR_MEM)
          | Some l => Some (set_prop propNew (set_dic_buf l p), SZ_OK)
          end
        else Some (set_prop propNew p, SZ_OK)
  end.

(** ** LzmaDec_DecodeToBuf *)

#[export] Instance LzmaDec_decoder : DicDecoder CLzmaDec :=
  {| dd_dec p := p; dd_wrap := wrap_pos; dd_decode := LzmaDec_DecodeToDic |}.

(** The limit and the mode of a turn. *)
Definition buf_window (finishMode : ELzmaFinishMode) (p : CLzmaDec) (outSize : Z) : Z * ELzmaFinishMode :=
  if dicBufSize p - dicPos p <? outSize then (dicBufSize p, LZMA_FINISH_ANY)
  else (dicPos p + outSize, finishMode).

Definition LzmaDec_DecodeToBuf (p : CLzmaDec) (outSize : Z) (src : list Z) (finishMode : ELzmaFinishMode)
  : option (CLzmaDec * list Z * Z * SRes * ELzmaStatus) :=
  decode_to_buf (buf_window finishMode) p outSize src.

(** ** LzmaDecode

    The local [CLzmaDec p]: the fields that LzmaDec_CONSTRUCT and the calls below do not
    set are whatever [mem] holds.  Returns [dest], [*destLen], [*srcLen]. *)
Definition LzmaDecode (A : allocator) (mem : CLzmaDec) (dest src propData : list Z)
    (finishMode : ELzmaFinishMode) : option (list Z * Z * Z * SRes * ELzmaStatus) :=
  if Z.of_nat (length src) <? RC_INIT_SIZE
  then Some (dest, 0, 0, SZ_ERROR_INPUT_EOF, LZMA_STATUS_NOT_SPECIFIED)
  else
    '(p, res) ← LzmaDec_AllocateProbs A propData (LzmaDec_Free mem);
    if not_ok res then Some (dest, 0, 0, res, LZMA_STATUS_NOT_SPECIFIED)
    else
      let p := LzmaDec_Init (set_dic_buf dest p) in
      '(p, srcLen, res, status) ← LzmaDec_DecodeToDic p (Z.of_nat (length dest)) src finishMode;
      let res := match res, status with
                 | SZ_OK, LZMA_STATUS_NEEDS_MORE_INPUT => SZ_ERROR_INPUT_EOF
                 | _, _ => res
                 end in
      Some (dic p, dicPos p, srcLen, res, status).

(** ** LzmaEnc_WriteProperties *)

Definition prop_dict_size (dictSize : Z) : option Z :=
  if (1 <<< 21) <=? dictSize then
    let kDictMask := (1 <<< 20) - 1 in
    let v := u32 (dictSize + kDictMask) &&& Z.lnot kDictMask in
    Some (if v <? dictSize then dictSize else v)
  else
    option_map snd
      (do_while 20 (fun '(i, _) => Some (i + 1, u32 ((2 + (i &&& 1)) <<< (i >>> 1))))
         (fun '(_, v) => v <? dictSize) (11 * 2, 0)).

(** [props] has room for [size] bytes; the fields [dictSize], [lc], [lp], [pb] of the encoder. *)
Definition LzmaEnc_WriteProperties (p : CLzmaProps) (size : Z) : option (SRes * list Z) :=
  if size <? LZMA_PROPS_SIZE then Some (SZ_ERROR_PARAM, [])
  else
    v ← prop_dict_size (dicSize p);
    Some (SZ_OK, u8 ((pb p * 5 + lp p) * 9 + lc p) :: le_bytes 4 v).

(** ** Sizes *)

Lemma land_lnot_ones n k : 0 <= k -> n &&& Z.lnot ((1 <<< k) - 1) = n / 2 ^ k * 2 ^ k.
Proof.
  intros Hk. rewrite <-Z.ldiff_land, Z.shiftl_mul_pow2, Z.mul_1_l by lia.
  rewrite <-(Z.ones_equiv k : _ = 2 ^ k - 1) || replace (2 ^ k - 1) with (Z.ones k) by (rewrite Z.ones_equiv; lia).
  by rewrite Z.ldiff_ones_r, Z.shiftl_mul_pow2, Z.shiftr_div_pow2 by lia.
Qed.

(** Rounding up to a multiple of [2^k]. *)
Lemma round_up n k :
  0 <= k -> n <= (n + (2 ^ k - 1)) / 2 ^ k * 2 ^ k < n + 2 ^ k.
Proof.
  intros Hk. pose proof (Z.pow_pos_nonneg 2 k).
  pose proof (Z.div_mod (n + (2 ^ k - 1)) (2 ^ k) ltac:(lia)).
  pose proof (Z.mod_pos_bound (n + (2 ^ k - 1)) (2 ^ k) ltac:(lia)). lia.
Qed.

(** The buffer holds the dictionary, wastes less than 4 MiB, and its size is a whole
    number of pages of 4 KiB. *)
Lemma dic_buf_size_ok d :
  0 <= d < 2 ^ 32 -> d <= dic_buf_size d < d + 2 ^ 22 /\ dic_buf_size d mod 2 ^ 12 = 0.
Proof.
  intros Hd. unfold dic_buf_size.
  assert (forall k, 12 <= k <= 22 ->
    let n := u64 (d + ((1 <<< k) - 1)) &&& Z.lnot ((1 <<< k) - 1) in
    d <= (if n <? d then d else n) < d + 2 ^ 22 /\ (if n <? d then d else n) mod 2 ^ 12 = 0) as Hk.
  { intros k Hk n. subst n. rewrite land_lnot_ones, Z.shiftl_mul_pow2, Z.mul_1_l by lia.
    assert (2 ^ k <= 2 ^ 22) by (apply Z.pow_le_mono_r; lia). pose proof (Z.pow_pos_nonneg 2 k).
    pose proof (round_up d k ltac:(lia)). unfold wrap. rewrite (Z.mod_small (d + _)) by lia.
    destruct (Z.ltb_spec ((d + (2 ^ k - 1)) / 2 ^ k * 2 ^ k) d); [lia|]. split; [lia|].
    replace (2 ^ k) with (2 ^ (k - 12) * 2 ^ 12) at 3 by (rewrite <-Z.pow_add_r by lia; f_equal; lia).
    rewrite Z.mul_assoc. apply Z.mod_mul. lia. }
  destruct ((1 <<< 30) <=? d); [by apply Hk|]. destruct ((1 <<< 22) <=? d); by apply Hk.
Qed.

(** ** Properties *)

Lemma LzmaProps_Decode_ok data :
  bytes data ->
  exists res o, LzmaProps_Decode data = Some (res, o) /\
    match o with
    | Some q => res = SZ_OK /\ 0 <= lc q <= 8 /\ 0 <= lp q <= 4 /\ 0 <= pb q <= 4 /\ 2 ^ 12 <= dicSize q < 2 ^ 32
    | None => res = SZ_ERROR_UNSUPPORTED
    end.
Proof.
  intros Hd. unfold LzmaProps_Decode. change LZMA_PROPS_SIZE with 5.
  destruct (Z.ltb_spec (Z.of_nat (length data)) 5) as [|Hl]; [by eexists _, _|].
  destruct (rd_Some data 0) as [d0 H0]; [lia|]. destruct (rd_Some data 1) as [d1 H1]; [lia|].
  destruct (rd_Some data 2) as [d2 H2]; [lia|]. destruct (rd_Some data 3) as [d3 H3]; [lia|].
  destruct (rd_Some data 4) as [d4 H4]; [lia|]. rewrite H0, H1, H2, H3, H4. opt.
  assert (forall t i, rd data i = Some t -> 0 <= t < 2 ^ 8) as Hb
    by (intros t i Hi; exact (rd_Forall _ _ _ _ Hd Hi)).
  pose proof (Hb _ _ H0) as B0. pose proof (Hb _ _ H1). pose proof (Hb _ _ H2). pose proof (Hb _ _ H3).
  pose proof (Hb _ _ H4).
  set (v := d1 ||| (d2 <<< 8) ||| (d3 <<< 16) ||| (d4 <<< 24)).
  assert (in_width 32 v) as [Hv1 Hv2].
  { unfold v. repeat apply lor_in_width; try lia; rewrite ?Z.shiftl_mul_pow2 by lia; unfold in_width; lia. }
  change LZMA_DIC_MIN with (2 ^ 12). destruct (Z.leb_spec (9 * 5 * 5) d0); [by eexists _, _|].
  eexists _, _. split; [reflexivity|]. cbn [lc lp pb dicSize].
  pose proof (Z.mod_pos_bound d0 9 ltac:(lia)). pose proof (Z.mod_pos_bound (d0 / 9) 5 ltac:(lia)).
  assert (0 <= d0 / 9 < 25) by (split; [apply Z.div_pos; lia|apply Z.div_lt_upper_bound; lia]).
  assert (0 <= d0 / 9 / 5 < 5) by (split; [apply Z.div_pos; lia|apply Z.div_lt_upper_bound; lia]).
  split; [done|]. destruct (Z.ltb_spec v (2 ^ 12)); lia.
Qed.

(** The sizes tried for small dictionaries: 2^12, 3*2^11, 2^13, ... 2^21. *)
Definition prop_step (i : Z) : Z := u32 ((2 + (i &&& 1)) <<< (i >>> 1)).

Lemma prop_step_ok i :
  22 <= i <= 40 ->
  2 ^ 12 <= prop_step i <= 2 ^ 21 /\ (i = 22 -> prop_step i = 2 ^ 12) /\
  (i = 40 -> prop_step i = 2 ^ 21) /\ (22 < i -> 2 * prop_step i <= 3 * prop_step (i - 1)).
Proof.
  intros Hi.
  assert (Forall (fun i => (2 ^ 12 <=? prop_step i) && (prop_step i <=? 2 ^ 21) &&
    (negb (i =? 22) || (prop_step i =? 2 ^ 12)) && (negb (i =? 40) || (prop_step i =? 2 ^ 21)) &&
    (2 * prop_step i <=? 3 * prop_step (i - 1)) = true) (seqZ 22 19)) as Hall
    by (repeat (apply Forall_cons_2; [reflexivity|]); apply Forall_nil_2).
  rewrite Forall_forall in Hall. specialize (Hall i ltac:(apply elem_of_seqZ; lia)).
  rewrite !andb_true_iff, !orb_true_iff, !negb_true_iff, !Z.leb_le, !Z.eqb_eq, !Z.eqb_neq in Hall. lia.
Qed.

(** The size written: not below [d], at most half as much again, and at least the
    smallest dictionary. *)
Lemma prop_dict_size_ok d :
  0 <= d < 2 ^ 32 ->
  exists v, prop_dict_size d = Some v /\ d <= v < 2 ^ 32 /\ 2 ^ 12 <= v /\ (v = 2 ^ 12 \/ 2 * v < 3 * d + 2).
Proof.
  intros Hd. unfold prop_dict_size. change (1 <<< 21) with (2 ^ 21).
  destruct (Z.leb_spec (2 ^ 21) d) as [Hge|Hlt].
  - eexists. split; [done|]. rewrite land_lnot_ones by lia. change ((1 <<< 20) - 1) with (2 ^ 20 - 1).
    pose proof (round_up d 20 ltac:(lia)) as Hr. unfold wrap.
    destruct (Z.lt_ge_cases (d + (2 ^ 20 - 1)) (2 ^ 32)) as [Hw|Hw].
    + rewrite (Z.mod_small (d + _)) by lia.
      destruct (Z.ltb_spec ((d + (2 ^ 20 - 1)) / 2 ^ 20 * 2 ^ 20) d); lia.
    + replace ((d + (2 ^ 20 - 1)) mod 2 ^ 32) with (d + (2 ^ 20 - 1) - 2 ^ 32).
      2:{ apply Z.mod_unique with (q := 1); lia. }
      rewrite (Z.div_small (d + (2 ^ 20 - 1) - 2 ^ 32)) by lia. rewrite Z.mul_0_l.
      destruct (Z.ltb_spec 0 d); lia.
  - do_while_inv
      (fun '(i, v) => i = 22 \/ 22 < i <= 40 /\ v = prop_step (i - 1) /\ v < d)
      (fun '(i, _) => Z.to_nat (41 - i))
      (fun '(i, v) => d <= v < 2 ^ 32 /\ 2 ^ 12 <= v /\ (v = 2 ^ 12 \/ 2 * v < 3 * d + 2)).
    + by left.
    + lia.
    + intros [i v] Hi. eexists. split; [reflexivity|]. fold (prop_step i). cbv beta iota zeta.
      pose proof (prop_step_ok i ltac:(lia)) as (H1 & H2 & H3 & H4).
      destruct (Z.ltb_spec (prop_step i) d) as [Hv|Hv]; [|lia].
      assert (i <> 40) by (intros ->; specialize (H3 eq_refl); lia).
      split; [right; rewrite Z.add_simpl_r; lia|lia].
    + intros [i v] Hv. exists v. done.
Qed.

Lemma le_bytes_4 v : 0 <= v < 2 ^ 32 ->
  (v mod 256) ||| (((v / 256) mod 256) <<< 8) ||| (((v / 256 / 256) mod 256) <<< 16)
    ||| (((v / 256 / 256 / 256) mod 256) <<< 24) = v.
Proof.
  intros Hv.
  pose proof (Z.div_mod v 256 ltac:(lia)). pose proof (Z.mod_pos_bound v 256 ltac:(lia)).
  generalize dependent (v mod 256). generalize dependent (v / 256). intros v1 r0 E0 B0.
  pose proof (Z.div_mod v1 256 ltac:(lia)) as E1. pose proof (Z.mod_pos_bound v1 256 ltac:(lia)) as B1.
  generalize dependent (v1 mod 256). generalize dependent (v1 / 256). intros v2 r1 E1 B1.
  pose proof (Z.div_mod v2 256 ltac:(lia)) as E2. pose proof (Z.mod_pos_bound v2 256 ltac:(lia)) as B2.
  generalize dependent (v2 mod 256). generalize dependent (v2 / 256). intros v3 r2 E2 B2.
  rewrite (Z.mod_small v3) by lia.
  rewrite (lor_shiftl_add 8), (lor_shiftl_add 16), (lor_shiftl_add 24) by lia. lia.
Qed.

Lemma WriteProperties_decodes p size :
  0 <= lc p <= 8 -> 0 <= lp p <= 4 -> 0 <= pb p <= 4 -> 0 <= dicSize p < 2 ^ 32 -> LZMA_PROPS_SIZE <= size ->
  exists data v, LzmaEnc_WriteProperties p size = Some (SZ_OK, data) /\ length data = 5%nat /\ bytes data /\
    LzmaProps_Decode data = Some (SZ_OK, Some {| lc := lc p; lp := lp p; pb := pb p; dicSize := v |}) /\
    dicSize p <= v < 2 ^ 32 /\ (v = 2 ^ 12 \/ 2 * v < 3 * dicSize p + 2).
Proof.
  intros Hlc Hlp Hpb Hdic Hsize.
  unfold LzmaEnc_WriteProperties. change LZMA_PROPS_SIZE with 5 in *.
  destruct (Z.ltb_spec size 5); [lia|].
  destruct (prop_dict_size_ok (dicSize p) Hdic) as (v & -> & Hv & Hmin & Hmax). opt.
  set (b := (pb p * 5 + lp p) * 9 + lc p). assert (0 <= b < 225) as Hb by (unfold b; lia).
  assert (u8 b = b) as -> by (unfold wrap; apply Z.mod_small; lia).
  eexists _, v. split; [reflexivity|]. split; [done|].
  assert (forall x, in_width 8 (x mod 256)) as Hbyte by (intros; apply Z.mod_pos_bound; lia).
  split; [repeat apply Forall_cons_2; try apply Hbyte; [unfold in_width; lia|apply Forall_nil_2]|].
  split; [|done].
  unfold LzmaProps_Decode. cbn [length le_bytes]. change LZMA_PROPS_SIZE with 5.
  change (Z.of_nat 5 <? 5) with false. cbv iota. rewrite !rd_lookup by lia.
  change (Z.to_nat 0) with 0%nat. change (Z.to_nat 1) with 1%nat. change (Z.to_nat 2) with 2%nat.
  change (Z.to_nat 3) with 3%nat. change (Z.to_nat 4) with 4%nat.
  cbn [lookup list_lookup mbind option_bind].
  rewrite le_bytes_4 by lia.
  destruct (Z.leb_spec (9 * 5 * 5) b); [lia|]. change LZMA_DIC_MIN with (2 ^ 12).
  destruct (Z.ltb_spec v (2 ^ 12)); [lia|].
  assert (b mod 9 = lc p /\ b / 9 = pb p * 5 + lp p) as [-> ->].
  { unfold b. rewrite Z.add_comm. rewrite Z.mod_add, Z.div_add by lia.
    rewrite Z.mod_small, Z.div_small by lia. lia. }
  rewrite Z.add_comm, Z.mod_add, Z.div_add, Z.mod_small, Z.div_small by lia. done.
Qed.

(** C26: The properties the encoder writes are read back by the decoder: the same [lc],
    [lp] and [pb], and a dictionary that is large enough and at most half as large
    again (4 KiB at least). *)
Theorem LzmaEnc_WriteProperties_roundtrip (p : CLzmaProps) (size : Z)
    (Hlc : 0 <= lc p <= 8) (Hlp : 0 <= lp p <= 4) (Hpb : 0 <= pb p <= 4)
    (Hdic : 0 <= dicSize p < 2 ^ 32) (Hsize : LZMA_PROPS_SIZE <= size) :
  exists data v, LzmaEnc_WriteProperties p size = Some (SZ_OK, data) /\ length data = 5%nat /\ bytes data /\
    LzmaProps_Decode data = Some (SZ_OK, Some {| lc := lc p; lp := lp p; pb := pb p; dicSize := v |}) /\
    dicSize p <= v < 2 ^ 32 /\ (v = 2 ^ 12 \/ 2 * v < 3 * dicSize p + 2).
Proof. by apply WriteProperties_decodes. Qed.

Lemma LzmaEnc_WriteProperties_roundtrip_witness :
  LzmaEnc_WriteProperties {| lc := 3; lp := 0; pb := 2; dicSize := 100000 |} 5
    = Some (SZ_OK, [93; 0; 0; 2; 0]) /\
  exists v, LzmaProps_Decode [93; 0; 0; 2; 0] = Some (SZ_OK, Some {| lc := 3; lp := 0; pb := 2; dicSize := v |}).
Proof.
  destruct (LzmaEnc_WriteProperties_roundtrip {| lc := 3; lp := 0; pb := 2; dicSize := 100000 |} 5)
    as (data & v & H1 & _ & _ & H2 & _); try (cbn; lia); [unfold LZMA_PROPS_SIZE; lia|].
  assert (data = [93; 0; 0; 2; 0]) as -> by (vm_compute in H1; congruence).
  split; [exact H1|by exists v].
Defined.

(** ** LzmaDec_Allocate and LzmaDec_Init *)

(** Blocks have the size asked for and hold bytes. *)
Record alloc_laws (A : allocator) : Prop := {
  law_probs : forall n l, 0 <= n -> alloc_probs A n = Some l -> Z.of_nat (length l) = n;
  law_alloc : forall n l, 0 <= n -> ISzAlloc_Alloc A n = Some l -> Z.of_nat (length l) = n /\ bytes l;
  law_memory : forall n l, 0 <= n -> sunpack_memory_alloc A n = Some l -> Z.of_nat (length l) = n /\ bytes l
}.

(** What every CLzmaDec holds, used or not: an array of 20 bytes and a 32-bit code. *)
Record raw_ok (p : CLzmaDec) : Prop := {
  raw_temp : length (tempBuf p) = 20%nat;
  raw_bytes : bytes (tempBuf p);
  raw_code : in_width 32 (code (coder p));
  raw_buf : 0 <= buf (coder p)
}.

Lemma wf_raw p : wf p -> raw_ok p.
Proof. intros Hw. pose proof (wf_base _ Hw) as []. constructor; try done. apply Hw. Qed.

Definition props_range (q : CLzmaProps) : Prop :=
  0 <= lc q <= 8 /\ 0 <= lp q <= 4 /\ 0 <= pb q <= 4 /\ 2 ^ 12 <= dicSize q < 2 ^ 32.

(** A decoder with its memory, ready for LzmaDec_Init. *)
Lemma Init_wf p :
  raw_ok p -> props_range (prop p) -> bytes (dic p) -> 1 <= dicBufSize p < 2 ^ 63 ->
  Z.of_nat (length (probs (coder p))) = LzmaProps_GetNumProbs (prop p) ->
  wf (LzmaDec_Init p).
Proof.
  intros [Ht Htb Hc Hb] (Hlc & Hlp & Hpb & Hd) Hdic Hsz Hpr. unfold LzmaDec_Init, LzmaDec_InitDicAndState.
  constructor; unfold dicBufSize in *; cbn; try done; try lia.
  - constructor; unfold window_ok, dicBufSize; cbn; try done; lia.
  - unfold props_ok. cbn. lia.
  - right. left. split; [cbn; unfold RC_INIT_SIZE; lia|by left].
Qed.

Lemma AllocateProbs2_ok A q p :
  alloc_laws A -> props_range q ->
  exists p' res, LzmaDec_AllocateProbs2 A q p = (p', res) /\ dic p' = dic p /\ prop p' = prop p /\
    (raw_ok p -> raw_ok p') /\
    match res with
    | SZ_OK => Z.of_nat (length (probs (coder p'))) = LzmaProps_GetNumProbs q
    | SZ_ERROR_MEM => probs (coder p') = []
    | _ => False
    end.
Proof.
  intros HA (Hlc & Hlp & Hpb & Hd). unfold LzmaDec_AllocateProbs2.
  assert (0 < LzmaProps_GetNumProbs q) as Hn.
  { rewrite num_probs by (unfold props_ok; lia). pose proof (Z.pow_pos_nonneg 2 (lc q + lp q)). lia. }
  destruct (is_null (probs (coder p)) || _) eqn:Hc.
  - destruct (alloc_probs A (LzmaProps_GetNumProbs q)) as [l|] eqn:Hl; eexists _, _; (split; [reflexivity|]).
    + split_and!; try done; [intros []; by constructor|]. cbn. apply (law_probs A HA); [lia|done].
    + split_and!; try done. intros []. by constructor.
  - apply orb_false_iff in Hc as [_ Hc%negb_false_iff%Z.eqb_eq]. by exists p, SZ_OK.
Qed.

(** A decoder whose memory fits its properties. *)
Record allocated (p : CLzmaDec) : Prop := {
  al_raw : raw_ok p;
  al_props : props_range (prop p);
  al_dic : bytes (dic p);
  al_size : 1 <= dicBufSize p < 2 ^ 63;
  al_probs : Z.of_nat (length (probs (coder p))) = LzmaProps_GetNumProbs (prop p)
}.

Lemma LzmaDec_Allocate_ok A props p :
  alloc_laws A -> bytes props -> bytes (dic p) -> raw_ok p ->
  exists p' res, LzmaDec_Allocate A props p = Some (p', res) /\
    match res with
    | SZ_OK =>
        LzmaProps_Decode props = Some (SZ_OK, Some (prop p')) /\ allocated p' /\
        dicSize (prop p') <= dicBufSize p' < dicSize (prop p') + 2 ^ 22 /\ dicBufSize p' mod 2 ^ 12 = 0
    | SZ_ERROR_UNSUPPORTED => p' = p /\ LzmaProps_Decode props = Some (SZ_ERROR_UNSUPPORTED, None)
    | SZ_ERROR_MEM => prop p' = prop p /\ probs (coder p') = []
    | _ => False
    end.
Proof.
  intros HA Hprops Hdic Hraw.
  unfold LzmaDec_Allocate. destruct (LzmaProps_Decode_ok props Hprops) as (res & o & -> & Ho). opt.
  destruct o as [q|]; [destruct Ho as [-> Hq]|subst res; by exists p, SZ_ERROR_UNSUPPORTED].
  destruct (AllocateProbs2_ok A q p HA Hq) as (p1 & res & -> & Hd1 & Hq1 & Hr1 & Hres). specialize (Hr1 Hraw).
  destruct res; try done; cbn [not_ok]; [|by exists p1, SZ_ERROR_MEM].
  pose proof Hq as (Hlc & Hlp & Hpb & Hds).
  destruct (dic_buf_size_ok (dicSize q) ltac:(lia)) as [Hn1 Hn2]. generalize dependent (dic_buf_size (dicSize q)). intros n Hn1 Hn2.
  assert (forall l, Z.of_nat (length l) = n -> bytes l ->
    allocated (set_prop q (set_dic_buf l p1)) /\ dicSize q <= Z.of_nat (length l) < dicSize q + 2 ^ 22 /\
    Z.of_nat (length l) mod 2 ^ 12 = 0) as Hfin.
  { intros l Hl Hbl. rewrite Hl. split; [|done].
    constructor; try done; [destruct Hr1; by constructor|]. unfold dicBufSize. cbn. lia. }
  rewrite Hd1. destruct (is_null (dic p) || _) eqn:Hc.
  - assert (forall l, (if ((2 <<< 20) <=? n) && sunpack_memory_current_context A then sunpack_memory_alloc A n
        else ISzAlloc_Alloc A n) = Some l -> Z.of_nat (length l) = n /\ bytes l) as Hl.
    { intros l. destruct (_ && _); [apply (law_memory A HA)|apply (law_alloc A HA)]; lia. }
    destruct (if _ && _ then sunpack_memory_alloc A n else ISzAlloc_Alloc A n) as [l|].
    + destruct (Hl l eq_refl) as [Hll Hlb]. eexists _, SZ_OK. split; [reflexivity|]. split; [done|].
      by apply (Hfin l).
    + eexists _, SZ_ERROR_MEM. by split; [reflexivity|].
  - apply orb_false_iff in Hc as [_ Hc%negb_false_iff%Z.eqb_eq].
    eexists _, SZ_OK. split; [reflexivity|]. split; [done|].
    change (dicBufSize (set_prop q p1)) with (Z.of_nat (length (dic p1))). rewrite Hd1.
    replace (set_prop q p1) with (set_prop q (set_dic_buf (dic p) p1)) by (destruct p1; cbn in *; by subst).
    apply Hfin; [|done]. rewrite Hc. unfold dicBufSize. by rewrite Hd1.
Qed.

(** C25: LzmaDec_Allocate succeeds with memory for exactly the probabilities and the
    dictionary of the decoded properties, after which LzmaDec_Init gives a well-formed
    decoder; when the properties are not supported or memory runs out it says so and
    keeps the old properties, and when memory runs out no probabilities are left. *)
Theorem LzmaDec_Allocate_ready (A : allocator) (props : list Z) (p : CLzmaDec)
    (HA : alloc_laws A) (Hprops : bytes props) (Hdic : bytes (dic p)) (Hraw : raw_ok p) :
  exists p' res, LzmaDec_Allocate A props p = Some (p', res) /\
    match res with
    | SZ_OK =>
        LzmaProps_Decode props = Some (SZ_OK, Some (prop p')) /\ wf (LzmaDec_Init p') /\
        dicSize (prop p') <= dicBufSize p' < dicSize (prop p') + 2 ^ 22 /\ dicBufSize p' mod 2 ^ 12 = 0
    | SZ_ERROR_UNSUPPORTED => p' = p /\ LzmaProps_Decode props = Some (SZ_ERROR_UNSUPPORTED, None)
    | SZ_ERROR_MEM => prop p' = prop p /\ probs (coder p') = []
    | _ => False
    end.
Proof.
  destruct (LzmaDec_Allocate_ok A props p HA Hprops Hdic Hraw) as (p' & res & H & Hres).
  exists p', res. split; [done|]. destruct res; try done.
  destruct Hres as (H1 & [H2 H3 H4 H5 H6] & H7 & H8). split_and!; try done; [by apply Init_wf|apply H7..].
Qed.

(** An allocator with enough memory of zeros. *)
Definition zero_alloc : allocator :=
  {| alloc_probs n := Some (replicate (Z.to_nat n) 0); ISzAlloc_Alloc n := Some (replicate (Z.to_nat n) 0);
     sunpack_memory_alloc n := Some (replicate (Z.to_nat n) 0); sunpack_memory_current_context := true |}.

Lemma zero_alloc_laws : alloc_laws zero_alloc.
Proof.
  constructor; intros n l Hn [= <-]; rewrite length_replicate; [lia|..]; (split; [lia|apply bytes_zeros]).
Qed.

Lemma LzmaDec_Allocate_ready_witness :
  exists p' res, LzmaDec_Allocate zero_alloc [93; 0; 0; 1; 0] example_start = Some (p', res) /\
    (res = SZ_OK -> wf (LzmaDec_Init p')).
Proof.
  destruct (LzmaDec_Allocate_ready zero_alloc [93; 0; 0; 1; 0] example_start zero_alloc_laws
    ltac:(byte_list) (wf_dic _ example_start_wf) (wf_raw _ example_start_wf)) as (p' & res & H1 & H2).
  exists p', res. split; [exact H1|]. intros ->. apply H2.
Defined.

(** ** LzmaDec_DecodeToBuf *)

(** Wrapping the position does not change what the next symbol is. *)
Lemma wrap_dummy p :
  sym_pre p -> dicPos p = dicBufSize p -> decode_dummy (wrap_pos p) = decode_dummy p.
Proof.
  intros Hp Hd. pose proof (pre_size _ Hp) as Hsz. pose proof (pre_rep0 _ Hp) as Hr. unfold rep_ok in Hr.
  assert (prev_byte (wrap_pos p) = prev_byte p) as Hprev.
  { unfold prev_byte. cbn [wrap_pos set_dic dicPos dic dicBufSize]. rewrite Hd. cbn [Z.eqb].
    destruct (Z.eqb_spec (dicBufSize p) 0); [lia|done]. }
  assert (match_byte (wrap_pos p) = match_byte p) as Hmatch.
  { unfold match_byte, rep_pos. cbn [wrap_pos set_dic dicPos dic rep0].
    change (dicBufSize (wrap_pos p)) with (dicBufSize p). rewrite Hd.
    destruct (Z.ltb_spec 0 (rep0 p)); [|lia]. destruct (Z.ltb_spec (dicBufSize p) (rep0 p)); [lia|].
    do 2 f_equal. lia. }
  unfold decode_dummy, dummy_lit, dummy_literal. rewrite Hprev, Hmatch. reflexivity.
Qed.

Lemma wrap_wf p :
  wf p -> dicPos p = dicBufSize p -> dicSize (prop p) <= dicBufSize p -> wf (wrap_pos p).
Proof.
  intros Hw Hd Hs. pose proof Hw as [Hb H1 H2 H3 H4 H5 H6 H7].
  assert (window_ok p -> window_ok (wrap_pos p)) as Hwin.
  { unfold window_ok. cbn [wrap_pos set_dic checkDicSize processedPos prop dicPos].
    change (dicBufSize (wrap_pos p)) with (dicBufSize p).
    destruct (checkDicSize p =? 0); [|done]. intros [? _]. split; [done|by left]. }
  constructor; try done.
  - destruct Hb. constructor; try done. by apply Hwin.
  - cbn. change (dicBufSize (wrap_pos p)) with (dicBufSize p). lia.
  - destruct H7 as [H7|[H7|[R1 R2 R3 R4 R5 R6]]]; [by left|by right; left|right; right].
    constructor; try done.
    + destruct R1. constructor; try done. cbn. change (dicBufSize (wrap_pos p)) with (dicBufSize p). lia.
    + destruct R6 as [R6|(d & b & R6 & R7)]; [by left|right]. exists d, b. split; [|done].
      unfold LzmaDec_TryDummy in *. rewrite wrap_dummy by done. exact R6.
Qed.

(** The decoder keeps the laws of the interface. *)
#[export] Instance LzmaDec_laws : DicDecoderLaws CLzmaDec.
Proof.
  refine {| dd_ok := wf; dd_same p q := prop q = prop p /\ dicBufSize q = dicBufSize p |}.
  - split; [by intros p|]. intros p q r [] []. split; congruence.
  - intros p Hw. split; [apply Hw|]. split; apply Hw.
  - intros p q [Hp Hs]. cbn. by rewrite Hp.
  - intros p Hw Hd Hs. split; [by apply wrap_wf|]. by split.
  - intros p lim src m Hw Hlim Hsrc.
    destruct (DecodeToDic_ok p lim src m Hw Hlim Hsrc) as ([[[p' n] res] st] & Ho & H1 & H2 & H3 & H4 & H5).
    exists p', n, res, st. split; [done|]. split; [done|]. split; [split; [apply H2|unfold dicBufSize; by rewrite (gr_size _ _ H2)]|].
    split; [apply H2|]. split; [done|]. split; [done|].
    destruct res, st; cbn in H5; try done; try (by left); right; (split; [done|]);
      first [left; apply H5 | right; by left | right; right; by split].
Defined.

Lemma buf_window_ok mode d outSize :
  exists lim m, buf_window mode d outSize = (lim, m) /\ lim = Z.min (dicBufSize d) (dicPos d + outSize).
Proof.
  unfold buf_window. destruct (Z.ltb_spec (dicBufSize d - dicPos d) outSize); eexists _, _; (split; [reflexivity|lia]).
Qed.

(** C21: LzmaDec_DecodeToBuf always returns, with at most [outSize] bytes of output and no
    more input taken than given, and the decoder well-formed for the next call, however
    often the position wraps around the dictionary.  With SZ_OK and less output than
    asked for, either the end mark was found or all the input was used. *)
Theorem LzmaDec_DecodeToBuf_complete (p : CLzmaDec) (outSize : Z) (src : list Z) (mode : ELzmaFinishMode)
    (Hwf : wf p) (Hdic : dicSize (prop p) <= dicBufSize p) (Hout : 0 <= outSize) (Hsrc : bytes src) :
  exists p' dest n res status,
    LzmaDec_DecodeToBuf p outSize src mode = Some (p', dest, n, res, status) /\
    wf p' /\ prop p' = prop p /\ dicBufSize p' = dicBufSize p /\
    Z.of_nat (length dest) <= outSize /\ bytes dest /\ 0 <= n <= Z.of_nat (length src) /\
    (res = SZ_OK \/ res = SZ_ERROR_DATA) /\
    (res = SZ_OK -> Z.of_nat (length dest) = outSize \/
       status = LZMA_STATUS_FINISHED_WITH_MARK \/
       (status = LZMA_STATUS_NEEDS_MORE_INPUT /\ n = Z.of_nat (length src))).
Proof.
  destruct (@decode_to_buf_ok CLzmaDec LzmaDec_decoder (buf_window mode) LzmaDec_laws (buf_window_ok mode) src Hsrc p outSize Hdic Hwf Hout)
    as (p' & dest & n & res & st & Ho & [H1 [H2 H3] H4 H5 H6] & Hst).
  exists p', dest, n, res, st. split; [done|]. split_and!; try done; try apply H6; destruct Hst as [->|[-> Hst]]; first [done | by left | by right].
Qed.

Lemma LzmaDec_DecodeToBuf_complete_witness :
  exists p' dest n res status,
    LzmaDec_DecodeToBuf example_start 5000 [0; 1; 2; 3; 4; 5; 6; 7] LZMA_FINISH_ANY
      = Some (p', dest, n, res, status) /\ wf p' /\ Z.of_nat (length dest) <= 5000.
Proof.
  destruct (LzmaDec_DecodeToBuf_complete example_start 5000 [0; 1; 2; 3; 4; 5; 6; 7] LZMA_FINISH_ANY
    example_start_wf ltac:(unfold dicBufSize, example_start; cbn -[replicate]; rewrite length_replicate; lia)
    ltac:(lia) ltac:(byte_list)) as (p' & dest & n & res & st & H1 & H2 & _ & _ & H3 & _).
  exists p', dest, n, res, st. split; [exact H1|]. split; [exact H2|exact H3].
Defined.

(** ** LzmaDecode *)

(** C24: LzmaDecode of one block always returns; the output buffer is written only up to
    [*destLen], not more input is taken than given, and success means the whole output
    was produced or the stream ended: running out of input is never success. *)
Theorem LzmaDecode_complete (A : allocator) (mem : CLzmaDec) (dest src propData : list Z)
    (mode : ELzmaFinishMode)
    (HA : alloc_laws A) (Hmem : raw_ok mem) (Hdest : bytes dest) (Hsrc : bytes src)
    (Hprops : bytes propData) (Hlen : 1 <= Z.of_nat (length dest) < 2 ^ 63) :
  exists dest' destLen srcLen res status,
    LzmaDecode A mem dest src propData mode = Some (dest', destLen, srcLen, res, status) /\
    length dest' = length dest /\ 0 <= destLen <= Z.of_nat (length dest) /\
    (forall i, destLen <= i -> rd dest' i = rd dest i) /\
    0 <= srcLen <= Z.of_nat (length src) /\ res <> SZ_ERROR_FAIL /\
    (res = SZ_OK ->
       status = LZMA_STATUS_FINISHED_WITH_MARK \/
       destLen = Z.of_nat (length dest) /\
         (status = LZMA_STATUS_MAYBE_FINISHED_WITHOUT_MARK \/
          status = LZMA_STATUS_NOT_FINISHED /\ mode = LZMA_FINISH_ANY)).
Proof.
  unfold LzmaDecode. destruct (Z.ltb_spec (Z.of_nat (length src)) RC_INIT_SIZE) as [|Hs].
  { eexists _, 0, 0, _, _. split; [reflexivity|]. split_and!; (done || lia). }
  unfold LzmaDec_AllocateProbs.
  destruct (LzmaProps_Decode_ok propData Hprops) as (res & o & -> & Ho). opt.
  destruct o as [q|]; [destruct Ho as [-> Hq]|subst res].
  2:{ cbn [not_ok]. eexists _, 0, 0, _, _. split; [reflexivity|]. split_and!; (done || lia). }
  destruct (AllocateProbs2_ok A q (LzmaDec_Free mem) HA Hq) as (p1 & res & -> & Hd1 & Hq1 & Hr1 & Hres).
  assert (raw_ok p1) as Hraw by (apply Hr1; destruct Hmem; by constructor).
  destruct res; try done; cbn [not_ok mbind option_bind].
  2:{ eexists _, 0, 0, _, _. split; [reflexivity|]. split_and!; (done || lia). }
  set (p := set_dic_buf dest (set_prop q p1)).
  assert (wf (LzmaDec_Init p)) as Hwf.
  { apply Init_wf; try done; destruct Hraw; by constructor. }
  destruct (DecodeToDic_ok (LzmaDec_Init p) (Z.of_nat (length dest)) src mode Hwf) as ([[[p' n] res] st] & -> & H1 & H2 & H3 & H4 & H5);
    [unfold dicBufSize; cbn; lia|done|].
  opt. pose proof H2 as [G1 G2 G3 G4]. cbn in G2, G3, G4.
  eexists _, _, _, _, _. split; [reflexivity|]. split; [done|]. split; [lia|].
  split; [intros i Hi; apply G4; lia|]. split; [lia|].
  destruct res, st; cbn in H5 |- *; try done; split; try done; intros _; try (by left); right; (split; [lia|]);
    first [by left|right; split; [done|apply H5]].
Qed.

Lemma LzmaDecode_complete_witness :
  exists dest' destLen srcLen res status,
    LzmaDecode zero_alloc example_start [7; 7; 7] [0; 0; 0; 0; 0; 0; 0] [93; 0; 0; 1; 0] LZMA_FINISH_END
      = Some (dest', destLen, srcLen, res, status) /\ length dest' = 3%nat.
Proof.
  destruct (LzmaDecode_complete zero_alloc example_start [7; 7; 7] [0; 0; 0; 0; 0; 0; 0] [93; 0; 0; 1; 0]
    LZMA_FINISH_END zero_alloc_laws (wf_raw _ example_start_wf)
    ltac:(byte_list) ltac:(byte_list) ltac:(byte_list) ltac:(cbn; lia)) as (d & dl & sl & res & st & H1 & H2 & _).
  exists d, dl, sl, res, st. split; [exact H1|exact H2].
Defined.
