(* ===== verification/Lzma2Dec.v ===== *)
(** * LZMA2 decoder

    src/native/sevenzip_bridge/7z2604-src/C/Lzma2Dec.c and Lzma2Dec.h: the state
    machine over chunk headers (Lzma2Dec_UpdateState), Lzma2Dec_DecodeToDic on top of
    LzmaDec_DecodeToDic, the chunk parser Lzma2Dec_Parse, Lzma2Dec_DecodeToBuf,
    Lzma2Decode and the memory functions.

    [src] is the whole input and [s] is [*srcLen], where the pointer [src] of the code
    stands. *)

From stdpp Require Import base numbers list list_numbers.
From Stdlib Require Import ZArith Lia.
From S2P Require Import Prelude SzTypes LzmaParse LzmaDec LzmaDecSym LzmaDecSafe DicToBuf LzmaApi.
Local Open Scope Z_scope.
Local Open Scope word_scope.

Definition LZMA2_CONTROL_COPY_RESET_DIC : Z := 1.
Definition LZMA2_LCLP_MAX : Z := 4.

Definition LZMA2_DIC_SIZE_FROM_PROP (p : Z) : Z := u32 ((2 ||| (p &&& 1)) <<< (p / 2 + 11)).

Inductive ELzma2State :=
  | LZMA2_STATE_CONTROL | LZMA2_STATE_UNPACK0 | LZMA2_STATE_UNPACK1
  | LZMA2_STATE_PACK0 | LZMA2_STATE_PACK1 | LZMA2_STATE_PROP
  | LZMA2_STATE_DATA | LZMA2_STATE_DATA_CONT | LZMA2_STATE_FINISHED | LZMA2_STATE_ERROR.

#[export] Instance ELzma2State_eq_dec : EqDecision ELzma2State.
Proof. solve_decision. Defined.

(** [state] of the code is [phase]. *)
Record CLzma2Dec := {
  phase : ELzma2State;
  control : Z;
  needInitLevel : Z;
  isExtraMode : bool;
  packSize : Z;
  unpackSize : Z;
  decoder : CLzmaDec
}.

Definition set_phase (st : ELzma2State) (p : CLzma2Dec) : CLzma2Dec :=
  {| phase := st; control := control p; needInitLevel := needInitLevel p;
     isExtraMode := isExtraMode p; packSize := packSize p; unpackSize := unpackSize p;
     decoder := decoder p |}.
Definition set_need (n : Z) (p : CLzma2Dec) : CLzma2Dec :=
  {| phase := phase p; control := control p; needInitLevel := n;
     isExtraMode := isExtraMode p; packSize := packSize p; unpackSize := unpackSize p;
     decoder := decoder p |}.
Definition set_control (b : Z) (p : CLzma2Dec) : CLzma2Dec :=
  {| phase := phase p; control := b; needInitLevel := needInitLevel p;
     isExtraMode := false; packSize := packSize p; unpackSize := unpackSize p;
     decoder := decoder p |}.
Definition set_extra (p : CLzma2Dec) : CLzma2Dec :=
  {| phase := phase p; control := control p; needInitLevel := needInitLevel p;
     isExtraMode := true; packSize := packSize p; unpackSize := unpackSize p;
     decoder := decoder p |}.
Definition set_sizes (pack unpack : Z) (p : CLzma2Dec) : CLzma2Dec :=
  {| phase := phase p; control := control p; needInitLevel := needInitLevel p;
     isExtraMode := isExtraMode p; packSize := pack; unpackSize := unpack;
     decoder := decoder p |}.
Definition set_decoder (d : CLzmaDec) (p : CLzma2Dec) : CLzma2Dec :=
  {| phase := phase p; control := control p; needInitLevel := needInitLevel p;
     isExtraMode := isExtraMode p; packSize := packSize p; unpackSize := unpackSize p;
     decoder := d |}.

Definition is_phase (st : ELzma2State) (p : CLzma2Dec) : bool := bool_decide (phase p = st).

Definition LZMA2_IS_UNCOMPRESSED_STATE (p : CLzma2Dec) : bool := (control p &&& (1 <<< 7)) =? 0.

Definition finish_any (mode : ELzmaFinishMode) : bool :=
  match mode with LZMA_FINISH_ANY => true | LZMA_FINISH_END => false end.

(** ** Memory *)

Definition Lzma2Dec_GetOldProps (prop : Z) : SRes * list Z :=
  if 40 <? prop then (SZ_ERROR_UNSUPPORTED, [])
  else
    let dicSize := if prop =? 40 then 0xFFFFFFFF else LZMA2_DIC_SIZE_FROM_PROP prop in
    (SZ_OK, [u8 LZMA2_LCLP_MAX; u8 dicSize; u8 (dicSize >>> 8); u8 (dicSize >>> 16); u8 (dicSize >>> 24)]).

Definition Lzma2Dec_AllocateProbs (A : allocator) (prop : Z) (p : CLzma2Dec) : option (CLzma2Dec * SRes) :=
  let '(res, props) := Lzma2Dec_GetOldProps prop in
  if not_ok res then Some (p, res)
  else '(d, res) ← LzmaDec_AllocateProbs A props (decoder p); Some (set_decoder d p, res).

Definition Lzma2Dec_Allocate (A : allocator) (prop : Z) (p : CLzma2Dec) : option (CLzma2Dec * SRes) :=
  let '(res, props) := Lzma2Dec_GetOldProps prop in
  if not_ok res then Some (p, res)
  else '(d, res) ← LzmaDec_Allocate A props (decoder p); Some (set_decoder d p, res).

Definition Lzma2Dec_FreeProbs (p : CLzma2Dec) : CLzma2Dec := set_decoder (LzmaDec_FreeProbs (decoder p)) p.
Definition Lzma2Dec_Construct (p : CLzma2Dec) : CLzma2Dec := set_decoder (LzmaDec_Free (decoder p)) p.

Definition Lzma2Dec_Init (p : CLzma2Dec) : CLzma2Dec :=
  {| phase := LZMA2_STATE_CONTROL; control := control p; needInitLevel := 0xE0;
     isExtraMode := false; packSize := packSize p; unpackSize := 0;
     decoder := LzmaDec_Init (decoder p) |}.

(** ** Chunk headers *)

(** The new state is returned, as in the code: the caller stores it. *)
Definition Lzma2Dec_UpdateState (p : CLzma2Dec) (b : Z) : CLzma2Dec * ELzma2State :=
  match phase p with
  | LZMA2_STATE_CONTROL =>
      let p := set_control b p in
      if b =? 0 then (p, LZMA2_STATE_FINISHED)
      else if LZMA2_IS_UNCOMPRESSED_STATE p then
        if b =? LZMA2_CONTROL_COPY_RESET_DIC then (set_need 0xC0 p, LZMA2_STATE_UNPACK0)
        else if (2 <? b) || (needInitLevel p =? 0xE0) then (p, LZMA2_STATE_ERROR)
        else (p, LZMA2_STATE_UNPACK0)
      else
        if b <? needInitLevel p then (p, LZMA2_STATE_ERROR)
        else (set_sizes (packSize p) ((b &&& 0x1F) <<< 16) (set_need 0 p), LZMA2_STATE_UNPACK0)
  | LZMA2_STATE_UNPACK0 =>
      (set_sizes (packSize p) (unpackSize p ||| (b <<< 8)) p, LZMA2_STATE_UNPACK1)
  | LZMA2_STATE_UNPACK1 =>
      let p := set_sizes (packSize p) (u32 ((unpackSize p ||| b) + 1)) p in
      (p, if LZMA2_IS_UNCOMPRESSED_STATE p then LZMA2_STATE_DATA else LZMA2_STATE_PACK0)
  | LZMA2_STATE_PACK0 => (set_sizes (b <<< 8) (unpackSize p) p, LZMA2_STATE_PACK1)
  | LZMA2_STATE_PACK1 =>
      let p := set_sizes (u32 ((packSize p ||| b) + 1)) (unpackSize p) p in
      (p, if (control p &&& 0x40) =? 0 then LZMA2_STATE_DATA else LZMA2_STATE_PROP)
  | LZMA2_STATE_PROP =>
      if 9 * 5 * 5 <=? b then (p, LZMA2_STATE_ERROR)
      else
        let d := decoder p in
        let q := prop d in
        let lc' := b mod 9 in
        let b := b / 9 in
        let pb' := u8 (b / 5) in
        let lp' := b mod 5 in
        if LZMA2_LCLP_MAX <? lc' + lp' then
          (set_decoder (set_prop {| lc := lc q; lp := lp q; pb := pb'; dicSize := dicSize q |} d) p,
           LZMA2_STATE_ERROR)
        else
          (set_decoder (set_prop {| lc := u8 lc'; lp := u8 lp'; pb := pb'; dicSize := dicSize q |} d) p,
           LZMA2_STATE_DATA)
  | LZMA2_STATE_DATA | LZMA2_STATE_DATA_CONT | LZMA2_STATE_FINISHED | LZMA2_STATE_ERROR =>
      (p, LZMA2_STATE_ERROR)
  end.

(** [p->state = Lzma2Dec_UpdateState(p, b)] *)
Definition next_state (p : CLzma2Dec) (b : Z) : CLzma2Dec :=
  let '(p, st) := Lzma2Dec_UpdateState p b in set_phase st p.

(** ** Lzma2Dec_DecodeToDic *)

(** [data] is the [size] bytes at [src]. *)
Definition LzmaDec_UpdateWithUncompressed (p : CLzmaDec) (data : list Z) : option CLzmaDec :=
  let size := Z.of_nat (length data) in
  l ← blit (dic p) (Z.to_nat (dicPos p)) data;
  let check :=
    if (checkDicSize p =? 0) && (u32 (dicSize (prop p) - processedPos p) <=? size)
    then dicSize (prop p) else checkDicSize p in
  Some (set_check check (set_dic l (dicPos p + size) (u32 (processedPos p + size)) p)).

Definition outcome2 : Type := CLzma2Dec * Z * SRes * ELzmaStatus.

(** After the loop. *)
Definition data_error (p : CLzma2Dec) (s : Z) : outcome2 :=
  (set_phase LZMA2_STATE_ERROR p, s, SZ_ERROR_DATA, LZMA_STATUS_NOT_SPECIFIED).

(** The part of a turn for a chunk that is copied. *)
Definition copy_chunk (p : CLzma2Dec) (src : list Z) (s outCur : Z) : option (CLzma2Dec * Z + outcome2) :=
  let inCur := Z.of_nat (length src) - s in
  if inCur =? 0 then Some (inr (p, s, SZ_OK, LZMA_STATUS_NEEDS_MORE_INPUT))
  else
    let p := if is_phase LZMA2_STATE_DATA p then
               let initDic := control p =? LZMA2_CONTROL_COPY_RESET_DIC in
               set_decoder (LzmaDec_InitDicAndState initDic false (decoder p)) p
             else p in
    let inCur := if outCur <? inCur then outCur else inCur in
    if inCur =? 0 then Some (inr (data_error p s))
    else
      data ← slice src (Z.to_nat s) (Z.to_nat inCur);
      d ← LzmaDec_UpdateWithUncompressed (decoder p) data;
      let unpackSize := u32 (unpackSize p - inCur) in
      let p := set_sizes (packSize p) unpackSize (set_decoder d p) in
      Some (inl (set_phase (if unpackSize =? 0 then LZMA2_STATE_CONTROL else LZMA2_STATE_DATA_CONT) p,
                 s + inCur)).

(** The part of a turn for an LZMA chunk. *)
Definition lzma_chunk (p : CLzma2Dec) (src : list Z) (s outCur : Z) (curFinishMode : ELzmaFinishMode)
  : option (CLzma2Dec * Z + outcome2) :=
  let dicPos0 := dicPos (decoder p) in
  let inCur := Z.of_nat (length src) - s in
  let p := if is_phase LZMA2_STATE_DATA p then
             let initDic := 0xE0 <=? control p in
             let initState := 0xA0 <=? control p in
             set_phase LZMA2_STATE_DATA_CONT
               (set_decoder (LzmaDec_InitDicAndState initDic initState (decoder p)) p)
           else p in
  let inCur := if packSize p <? inCur then packSize p else inCur in
  data ← slice src (Z.to_nat s) (Z.to_nat inCur);
  '(d, inCur, res, status) ← LzmaDec_DecodeToDic (decoder p) (dicPos0 + outCur) data curFinishMode;
  let s := s + inCur in
  let outCur := dicPos d - dicPos0 in
  let p := set_sizes (u32 (packSize p - inCur)) (u32 (unpackSize p - outCur)) (set_decoder d p) in
  if not_ok res then Some (inr (data_error p s))
  else if match status with LZMA_STATUS_NEEDS_MORE_INPUT => true | _ => false end then
    if packSize p =? 0 then Some (inr (data_error p s))
    else Some (inr (p, s, SZ_OK, LZMA_STATUS_NEEDS_MORE_INPUT))
  else if (inCur =? 0) && (outCur =? 0) then
    if negb match status with LZMA_STATUS_MAYBE_FINISHED_WITHOUT_MARK => true | _ => false end
       || negb (unpackSize p =? 0) || negb (packSize p =? 0)
    then Some (inr (data_error p s))
    else Some (inl (set_phase LZMA2_STATE_CONTROL p, s))
  else Some (inl (p, s)).

(** One turn of the loop. *)
Definition dic2_turn (dicLimit : Z) (src : list Z) (finishMode : ELzmaFinishMode)
    '((p, s) : CLzma2Dec * Z) : option (CLzma2Dec * Z + outcome2) :=
  if is_phase LZMA2_STATE_ERROR p then Some (inr (data_error p s))
  else if is_phase LZMA2_STATE_FINISHED p
  then Some (inr (p, s, SZ_OK, LZMA_STATUS_FINISHED_WITH_MARK))
  else
    let dicPos0 := dicPos (decoder p) in
    if (dicPos0 =? dicLimit) && finish_any finishMode
    then Some (inr (p, s, SZ_OK, LZMA_STATUS_NOT_FINISHED))
    else if negb (is_phase LZMA2_STATE_DATA p) && negb (is_phase LZMA2_STATE_DATA_CONT p) then
      if s =? Z.of_nat (length src) then Some (inr (p, s, SZ_OK, LZMA_STATUS_NEEDS_MORE_INPUT))
      else
        b ← rd src s;
        let p := next_state p b in
        if (dicPos0 =? dicLimit) && negb (is_phase LZMA2_STATE_FINISHED p)
        then Some (inr (data_error p (s + 1)))
        else Some (inl (p, s + 1))
    else
      let outCur := u64 (dicLimit - dicPos0) in
      let '(outCur, curFinishMode) :=
        if unpackSize p <=? outCur then (unpackSize p, LZMA_FINISH_END) else (outCur, LZMA_FINISH_ANY) in
      if LZMA2_IS_UNCOMPRESSED_STATE p then copy_chunk p src s outCur
      else lzma_chunk p src s outCur curFinishMode.

(** Every turn takes input or produces output, or ends a chunk. *)
Definition dic2_fuel (dicLimit : Z) (src : list Z) (p : CLzma2Dec) : nat :=
  S (S (Z.to_nat (2 * Z.of_nat (length src) + 2 * (dicLimit - dicPos (decoder p))))).

Definition Lzma2Dec_DecodeToDic (p : CLzma2Dec) (dicLimit : Z) (src : list Z) (finishMode : ELzmaFinishMode)
  : option outcome2 :=
  loop (dic2_fuel dicLimit src p) (dic2_turn dicLimit src finishMode) (p, 0).

(** ** Lzma2Dec_Parse *)

Inductive ELzma2ParseStatus :=
  | PARSE_STATUS (st : ELzmaStatus) | LZMA2_PARSE_STATUS_NEW_BLOCK | LZMA2_PARSE_STATUS_NEW_CHUNK.

Definition parse_outcome : Type := CLzma2Dec * Z * ELzma2ParseStatus.

(** [p->decoder.dicPos += n] *)
Definition skip_out (n : Z) (p : CLzma2Dec) : CLzma2Dec :=
  let d := decoder p in set_decoder (set_dic (dic d) (u64 (dicPos d + n)) (processedPos d) d) p.

Definition parse_error (p : CLzma2Dec) (s : Z) : parse_outcome :=
  (set_phase LZMA2_STATE_ERROR p, s, PARSE_STATUS LZMA_STATUS_NOT_SPECIFIED).

(** A header byte of Lzma2Dec_Parse. *)
Definition parse_header (p : CLzma2Dec) (outSize : Z) (src : list Z) (s : Z)
  : option (CLzma2Dec * Z * Z + parse_outcome) :=
  if s =? Z.of_nat (length src) then Some (inr (p, s, PARSE_STATUS LZMA_STATUS_NEEDS_MORE_INPUT))
  else
    b ← rd src s;
    let s := s + 1 in
    let p := next_state p b in
    if is_phase LZMA2_STATE_UNPACK0 p
       && ((control p =? LZMA2_CONTROL_COPY_RESET_DIC) || (0xE0 <=? control p))
    then Some (inr (p, s, LZMA2_PARSE_STATUS_NEW_BLOCK))
    else if (outSize =? 0) && negb (is_phase LZMA2_STATE_FINISHED p)
    then Some (inr (p, s, PARSE_STATUS LZMA_STATUS_NOT_FINISHED))
    else if is_phase LZMA2_STATE_DATA p then Some (inr (p, s, LZMA2_PARSE_STATUS_NEW_CHUNK))
    else Some (inl (p, outSize, s)).

(** The data of a chunk that is copied. *)
Definition parse_copy (p : CLzma2Dec) (outSize : Z) (src : list Z) (s : Z)
  : option (CLzma2Dec * Z * Z + parse_outcome) :=
  let inCur := Z.of_nat (length src) - s in
  if inCur =? 0 then Some (inr (p, s, PARSE_STATUS LZMA_STATUS_NEEDS_MORE_INPUT))
  else
    let inCur := if unpackSize p <? inCur then unpackSize p else inCur in
    let inCur := if outSize <? inCur then outSize else inCur in
    let unpackSize := u32 (unpackSize p - inCur) in
    let p := set_sizes (packSize p) unpackSize (skip_out inCur p) in
    Some (inl (set_phase (if unpackSize =? 0 then LZMA2_STATE_CONTROL else LZMA2_STATE_DATA_CONT) p,
               outSize - inCur, s + inCur)).

(** From [if (inCur > p->packSize)] on, for an LZMA chunk. *)
Definition parse_skip (p : CLzma2Dec) (outSize : Z) (src : list Z) (s : Z) : CLzma2Dec * Z * Z :=
  let inCur := Z.of_nat (length src) - s in
  let inCur := if packSize p <? inCur then packSize p else inCur in
  let s := s + inCur in
  let p := set_sizes (u32 (packSize p - inCur)) (unpackSize p) p in
  if packSize p =? 0 then
    let rem := if unpackSize p <? outSize then unpackSize p else outSize in
    let unpackSize := u32 (unpackSize p - rem) in
    let p := set_sizes (packSize p) unpackSize (skip_out rem p) in
    ((if unpackSize =? 0 then set_phase LZMA2_STATE_CONTROL p else p), outSize - rem, s)
  else (p, outSize, s).

Definition parse_lzma (p : CLzma2Dec) (outSize : Z) (src : list Z) (s : Z)
  : option (CLzma2Dec * Z * Z + parse_outcome) :=
  let p := set_extra p in
  if Z.of_nat (length src) - s =? 0 then
    if negb (packSize p =? 0) then Some (inr (p, s, PARSE_STATUS LZMA_STATUS_NEEDS_MORE_INPUT))
    else Some (inl (parse_skip p outSize src s))
  else if is_phase LZMA2_STATE_DATA p then
    let p := set_phase LZMA2_STATE_DATA_CONT p in
    b ← rd src s;
    if negb (b =? 0)
    then Some (inr (parse_error (set_sizes (u32 (packSize p - 1)) (unpackSize p) p) (s + 1)))
    else Some (inl (parse_skip p outSize src s))
  else Some (inl (parse_skip p outSize src s)).

Definition parse_turn (src : list Z) (checkFinishBlock : bool) '((p, outSize, s) : CLzma2Dec * Z * Z)
  : option (CLzma2Dec * Z * Z + parse_outcome) :=
  if is_phase LZMA2_STATE_ERROR p then Some (inr (parse_error p s))
  else if is_phase LZMA2_STATE_FINISHED p
  then Some (inr (p, s, PARSE_STATUS LZMA_STATUS_FINISHED_WITH_MARK))
  else if (outSize =? 0) && negb checkFinishBlock
  then Some (inr (p, s, PARSE_STATUS LZMA_STATUS_NOT_FINISHED))
  else if negb (is_phase LZMA2_STATE_DATA p) && negb (is_phase LZMA2_STATE_DATA_CONT p)
  then parse_header p outSize src s
  else if outSize =? 0 then Some (inr (p, s, PARSE_STATUS LZMA_STATUS_NOT_FINISHED))
  else if LZMA2_IS_UNCOMPRESSED_STATE p then parse_copy p outSize src s
  else parse_lzma p outSize src s.

Definition Lzma2Dec_Parse (p : CLzma2Dec) (outSize : Z) (src : list Z) (checkFinishBlock : bool)
  : option parse_outcome :=
  loop (S (S (Z.to_nat (2 * Z.of_nat (length src) + 2 * outSize)))) (parse_turn src checkFinishBlock)
    (p, outSize, 0).

(** ** Lzma2Dec_DecodeToBuf, Lzma2Decode *)

(** [p->decoder.dicPos = 0] *)
#[export] Instance Lzma2Dec_decoder : DicDecoder CLzma2Dec :=
  {| dd_dec := decoder; dd_wrap p := set_decoder (wrap_pos (decoder p)) p; dd_decode := Lzma2Dec_DecodeToDic |}.

(** The limit and the mode of a turn. *)
Definition buf2_window (finishMode : ELzmaFinishMode) (d : CLzmaDec) (outSize : Z) : Z * ELzmaFinishMode :=
  let outCur := dicBufSize d - dicPos d in
  if outSize <=? outCur then (dicPos d + outSize, finishMode) else (dicPos d + outCur, LZMA_FINISH_ANY).

Definition Lzma2Dec_DecodeToBuf (p : CLzma2Dec) (outSize : Z) (src : list Z) (finishMode : ELzmaFinishMode)
  : option (CLzma2Dec * list Z * Z * SRes * ELzmaStatus) :=
  decode_to_buf (buf2_window finishMode) p outSize src.

(** The local [CLzma2Dec p]: the fields the calls below do not set are whatever [mem] holds. *)
Definition Lzma2Decode (A : allocator) (mem : CLzma2Dec) (dest src : list Z) (prop : Z)
    (finishMode : ELzmaFinishMode) : option (list Z * Z * Z * SRes * ELzmaStatus) :=
  '(p, res) ← Lzma2Dec_AllocateProbs A prop (Lzma2Dec_Construct mem);
  if not_ok res then Some (dest, 0, 0, res, LZMA_STATUS_NOT_SPECIFIED)
  else
    let p := Lzma2Dec_Init (set_decoder (set_dic_buf dest (decoder p)) p) in
    '(p, srcLen, res, status) ← Lzma2Dec_DecodeToDic p (Z.of_nat (length dest)) src finishMode;
    let res := match res, status with
               | SZ_OK, LZMA_STATUS_NEEDS_MORE_INPUT => SZ_ERROR_INPUT_EOF
               | _, _ => res
               end in
    Some (dic (decoder p), dicPos (decoder p), srcLen, res, status).
