(* ===== verification/Lzma2Safe.v ===== *)
(** * LZMA2 decoder: headers, the invariant, and every call is safe

    The invariant of CLzma2Dec in two parts, [header_ok] (the state machine over the
    chunk headers) and [decoder_ok] (the LZMA decoder below it, whose state is valid
    exactly when the control byte lets the next chunk use it), and the proof that
    Lzma2Dec_DecodeToDic, Lzma2Dec_DecodeToBuf and Lzma2Dec_Parse keep it and always
    return. *)

From stdpp Require Import base numbers list list_numbers.
From Stdlib Require Import ZArith Lia.
From S2P Require Import Prelude SzTypes LzmaParse LzmaDec LzmaDecSym LzmaDecSafe LzmaDecKeep DicToBuf LzmaApi Lzma2Dec.
Local Open Scope Z_scope.
Local Open Scope word_scope.

(** ** The invariant *)

(** The control byte of the chunk under way, and what it left of [needInitLevel]. *)
Definition hdr_ok (p : CLzma2Dec) : Prop :=
  control p = 1 /\ needInitLevel p = 0xC0 \/
  control p = 2 /\ needInitLevel p <> 0xE0 \/
  128 <= control p < 256 /\ needInitLevel p = 0.

Definition unpack_ok (p : CLzma2Dec) : Prop := 1 <= unpackSize p <= 2 ^ 21.
Definition pack_ok (p : CLzma2Dec) : Prop := 1 <= packSize p <= 2 ^ 16.

Definition header_phase (p : CLzma2Dec) : Prop :=
  match phase p with
  | LZMA2_STATE_CONTROL => unpackSize p = 0
  | LZMA2_STATE_UNPACK0 => hdr_ok p /\ in_width 21 (unpackSize p) /\ (control p < 128 -> unpackSize p = 0)
  | LZMA2_STATE_UNPACK1 => hdr_ok p /\ in_width 21 (unpackSize p)
  | LZMA2_STATE_PACK0 => hdr_ok p /\ 128 <= control p /\ unpack_ok p
  | LZMA2_STATE_PACK1 => hdr_ok p /\ 128 <= control p /\ unpack_ok p /\ in_width 16 (packSize p)
  | LZMA2_STATE_PROP => hdr_ok p /\ 0xC0 <= control p /\ unpack_ok p /\ pack_ok p
  | LZMA2_STATE_DATA => hdr_ok p /\ unpack_ok p /\ (128 <= control p -> pack_ok p)
  | LZMA2_STATE_DATA_CONT =>
      hdr_ok p /\ 0 <= unpackSize p <= 2 ^ 21 /\
      if control p <? 128 then 1 <= unpackSize p else 0 <= packSize p <= 2 ^ 16
  | LZMA2_STATE_FINISHED | LZMA2_STATE_ERROR => True
  end.

Record header_ok (p : CLzma2Dec) : Prop := {
  hd_need : needInitLevel p = 0 \/ needInitLevel p = 0xC0 \/ needInitLevel p = 0xE0;
  hd_phase : header_phase p
}.

(** The parts of the LZMA decoder that hold whatever the chunks were. *)
Record shell (d : CLzmaDec) : Prop := {
  sh_lc : 0 <= lc (prop d);
  sh_lp : 0 <= lp (prop d);
  sh_lclp : lc (prop d) + lp (prop d) <= LZMA2_LCLP_MAX;
  sh_pb : 0 <= pb (prop d) <= 4;
  sh_dicSize : 1 <= dicSize (prop d) < 2 ^ 32;
  sh_window : window_ok d;
  sh_cap : 14272 <= Z.of_nat (cap d);
  sh_temp : length (tempBuf d) = 20%nat;
  sh_tempBytes : bytes (tempBuf d);
  sh_tempSize : 0 <= tempBufSize d <= 20;
  sh_buf : 0 <= buf (coder d);
  sh_dic : bytes (dic d);
  sh_size : 1 <= dicBufSize d < 2 ^ 63;
  sh_pos : 0 <= dicPos d <= dicBufSize d;
  sh_processed : in_width 32 (processedPos d);
  sh_code : in_width 32 (code (coder d))
}.

(** The state a chunk without a state reset continues from. *)
Record kept (d : CLzmaDec) : Prop := {
  kp_probs : probs_ok (nprobs d) (probs (coder d));
  kp_state : 0 <= state d < 12;
  kp_rep0 : rep_ok d (rep0 d);
  kp_rep1 : rep_ok d (rep1 d);
  kp_rep2 : rep_ok d (rep2 d);
  kp_rep3 : rep_ok d (rep3 d)
}.

Definition decoder_phase (p : CLzma2Dec) : Prop :=
  match phase p with
  | LZMA2_STATE_CONTROL => needInitLevel p = 0 -> kept (decoder p)
  | LZMA2_STATE_UNPACK0 | LZMA2_STATE_UNPACK1 | LZMA2_STATE_PACK0 | LZMA2_STATE_PACK1
  | LZMA2_STATE_PROP | LZMA2_STATE_DATA =>
      control p < 0xA0 -> needInitLevel p = 0 -> kept (decoder p)
  | LZMA2_STATE_DATA_CONT =>
      if control p <? 128 then needInitLevel p = 0 -> kept (decoder p) else wf (decoder p)
  | LZMA2_STATE_FINISHED | LZMA2_STATE_ERROR => True
  end.

Record decoder_ok (p : CLzma2Dec) : Prop := {
  dc_shell : shell (decoder p);
  dc_phase : decoder_phase p
}.

Definition wf2 (p : CLzma2Dec) : Prop := header_ok p /\ decoder_ok p.

(** ** Header bytes *)

Lemma uncompressed_control b :
  in_width 8 b -> ((b &&& (1 <<< 7)) =? 0) = (b <? 128).
Proof.
  intros Hb.
  apply (forall_bytes (fun b => bool_decide (((b &&& (1 <<< 7)) =? 0) = (b <? 128)))) in Hb; [|reflexivity].
  by apply bool_decide_eq_true in Hb.
Qed.

Lemma prop_control b :
  in_width 8 b -> 128 <= b -> ((b &&& 0x40) =? 0) = (b <? 0xC0).
Proof.
  intros Hb Hge.
  apply (forall_bytes (fun b => (b <? 128) || bool_decide (((b &&& 0x40) =? 0) = (b <? 0xC0)))) in Hb; [|reflexivity].
  apply orb_true_iff in Hb as [Hb%Z.ltb_lt|Hb%bool_decide_eq_true]; [lia|done].
Qed.

Lemma hdr_control p : hdr_ok p -> in_width 8 (control p).
Proof. unfold hdr_ok, in_width. lia. Qed.

Lemma hdr_uncompressed p : hdr_ok p -> LZMA2_IS_UNCOMPRESSED_STATE p = (control p <? 128).
Proof. intros H. by apply uncompressed_control, hdr_control. Qed.

Lemma byte_shift b k n : 0 <= k -> in_width 8 b -> 8 + k <= n -> in_width n (b <<< k).
Proof.
  intros Hk [Hb1 Hb2] Hn. rewrite Z.shiftl_mul_pow2 by done. split; [nia|].
  apply Z.lt_le_trans with (2 ^ 8 * 2 ^ k); [nia|]. rewrite <-Z.pow_add_r by lia. apply Z.pow_le_mono_r; lia.
Qed.

Lemma byte_wide b n : in_width 8 b -> 8 <= n -> in_width n b.
Proof. intros. apply (in_width_mono 8); [lia|done]. Qed.

(** [(x | b) + 1] *)
Lemma size_plus_one x b n : 8 <= n <= 21 -> in_width n x -> in_width 8 b -> 1 <= u32 ((x ||| b) + 1) <= 2 ^ n.
Proof.
  intros Hn Hx Hb. pose proof (lor_in_width n x b ltac:(lia) Hx (byte_wide b n Hb ltac:(lia))) as [H1 H2].
  assert (2 ^ n <= 2 ^ 21) by (apply Z.pow_le_mono_r; lia).
  unfold wrap. rewrite Z.mod_small; lia.
Qed.

Lemma next_state_header p b : header_ok p -> in_width 8 b -> header_ok (next_state p b).
Proof.
  intros [Hn Hp] Hb. unfold next_state, Lzma2Dec_UpdateState, header_phase in *.
  pose proof Hb as [Hb1 Hb2].
  destruct (phase p); cbn -[Z.pow Z.land Z.lor Z.shiftl LZMA2_IS_UNCOMPRESSED_STATE]; try (by constructor).
  - destruct (Z.eqb_spec b 0); [by constructor|].
    change (LZMA2_IS_UNCOMPRESSED_STATE (set_control b p)) with ((b &&& (1 <<< 7)) =? 0).
    rewrite uncompressed_control by done. destruct (Z.ltb_spec b 128).
    + unfold LZMA2_CONTROL_COPY_RESET_DIC. destruct (Z.eqb_spec b 1) as [->|].
      * constructor; cbn; [lia|]. split; [left; cbn; lia|]. rewrite Hp. unfold in_width. lia.
      * destruct (_ || _) eqn:Ho; [by constructor|].
        apply orb_false_iff in Ho as [Ho1%Z.ltb_ge Ho2%Z.eqb_neq].
        constructor; cbn; [done|]. split; [right; left; cbn in *; lia|]. rewrite Hp. unfold in_width. lia.
    + destruct (Z.ltb_spec b (needInitLevel p)); [by constructor|].
      constructor; cbn -[Z.pow Z.land Z.shiftl]; [by left|]. split; [right; right; cbn; lia|]. split; [|lia].
      change 31 with (2 ^ 5 - 1). rewrite land_ones_mod by lia. pose proof (Z.mod_pos_bound b (2 ^ 5) ltac:(lia)).
      rewrite Z.shiftl_mul_pow2 by lia. unfold in_width. lia.
  - destruct Hp as (Hh & Hu & _). constructor; [done|]. split; [done|]. cbn -[Z.pow Z.lor Z.shiftl].
    apply lor_in_width; [lia|done|by apply byte_shift].
  - destruct Hp as (Hh & Hu).
    rewrite (hdr_uncompressed (set_sizes _ _ p)) by done.
    change (control (set_sizes (packSize p) (u32 ((unpackSize p ||| b) + 1)) p)) with (control p).
    pose proof (size_plus_one _ _ 21 ltac:(lia) Hu Hb).
    constructor; [done|]. unfold header_phase. cbn -[Z.pow Z.lor Z.ltb]. destruct (Z.ltb_spec (control p) 128).
    + split; [done|]. split; [done|]. cbn. lia.
    + split; [done|]. by split.
  - destruct Hp as (Hh & Hc & Hu). constructor; [done|]. split_and!; try done. by apply byte_shift.
  - destruct Hp as (Hh & Hc & Hu & Hk). rewrite prop_control by (done || by apply hdr_control).
    pose proof (size_plus_one _ _ 16 ltac:(lia) Hk Hb).
    constructor; [done|]. unfold header_phase. cbn -[Z.pow Z.lor Z.ltb]. destruct (Z.ltb_spec (control p) 0xC0);
      split; try done; split; try done; split; try done.
  - destruct Hp as (Hh & Hc & Hu & Hk). destruct (Z.leb_spec (9 * 5 * 5) b); [by constructor|].
    destruct (Z.ltb_spec LZMA2_LCLP_MAX (b mod 9 + (b / 9) mod 5)); (constructor; [done|]); [done|].
    by split_and!.
Qed.

(** ** The LZMA decoder below *)

Lemma shell_prop d lc' lp' pb' :
  shell d -> 0 <= lc' -> 0 <= lp' -> lc' + lp' <= LZMA2_LCLP_MAX -> 0 <= pb' <= 4 ->
  shell (set_prop {| lc := lc'; lp := lp'; pb := pb'; dicSize := dicSize (prop d) |} d).
Proof. intros [] ? ? ? ?. by constructor. Qed.

Lemma next_state_decoder p b : header_ok p -> decoder_ok p -> in_width 8 b -> decoder_ok (next_state p b).
Proof.
  intros [Hn Hh] [Hs Hp] Hb. unfold next_state, Lzma2Dec_UpdateState, decoder_phase, header_phase in *.
  pose proof Hb as [Hb1 Hb2].
  destruct (phase p); try (by constructor).
  - destruct (Z.eqb_spec b 0); [by constructor|].
    destruct (LZMA2_IS_UNCOMPRESSED_STATE (set_control b p)).
    + destruct (b =? _); [by constructor; [|cbn; lia]|]. destruct (_ || _); [by constructor|].
      constructor; [done|]. cbn. intros _. done.
    + cbn -[Z.land Z.shiftl]. destruct (Z.ltb_spec b (needInitLevel p)); [by constructor|].
      constructor; [done|]. cbn. intros H1 _. apply Hp. destruct (Z.eq_dec (needInitLevel p) 0); [done|lia].
  - destruct (LZMA2_IS_UNCOMPRESSED_STATE _); by constructor.
  - cbn -[Z.land Z.lor]. destruct (_ =? 0); by constructor.
  - destruct Hh as (_ & Hc & _). destruct (Z.leb_spec (9 * 5 * 5) b); [by constructor|]. cbv zeta.
    pose proof Hs as [H1 H2 H3 H4 _ _ _ _ _ _ _ _ _ _ _ _].
    pose proof (Z.mod_pos_bound b 9 ltac:(lia)). pose proof (Z.mod_pos_bound (b / 9) 5 ltac:(lia)).
    assert (0 <= b / 9 < 25) by (split; [apply Z.div_pos; lia|apply Z.div_lt_upper_bound; lia]).
    assert (0 <= b / 9 / 5 < 5) by (split; [apply Z.div_pos; lia|apply Z.div_lt_upper_bound; lia]).
    unfold wrap. rewrite !(Z.mod_small _ (2 ^ 8)) by lia. change LZMA2_LCLP_MAX with 4 in *.
    destruct (Z.ltb_spec 4 (b mod 9 + (b / 9) mod 5)).
    + constructor; [|done]. apply shell_prop; (done || lia).
    + constructor; [apply shell_prop; (done || lia)|]. intros Hc'. cbn in Hc'. lia.
Qed.

Lemma next_state_wf2 p b : wf2 p -> in_width 8 b -> wf2 (next_state p b).
Proof. intros [Hh Hd] Hb. split; [by apply next_state_header|by apply next_state_decoder]. Qed.

Lemma shell_base d : shell d -> base d.
Proof.
  intros [Hlc Hlp Hs Hpb Hds Hw Hcap Ht Htb Hts Hb Hd Hsz Hpos Hpp Hcode]. constructor; try done.
  change LZMA2_LCLP_MAX with 4 in Hs. rewrite num_probs by (unfold props_ok; lia).
  assert (2 ^ (lc (prop d) + lp (prop d)) <= 2 ^ 4) by (apply Z.pow_le_mono_r; lia). lia.
Qed.

Lemma shell_wf d :
  shell d -> kMatchSpecLen_Error_Data <= remainLen d \/ starting d \/ running d -> wf d.
Proof.
  intros Hs Hst. pose proof (shell_base d Hs). destruct Hs. change LZMA2_LCLP_MAX with 4 in *.
  constructor; try done. unfold props_ok. lia.
Qed.

Lemma wf_shell d : wf d -> lc (prop d) + lp (prop d) <= LZMA2_LCLP_MAX -> 14272 <= Z.of_nat (cap d) -> shell d.
Proof. intros [[] (Hlc & Hlp & Hpb & Hds) ? ? ? ? ? ?] Hs Hc. constructor; (done || lia). Qed.

Lemma running_kept d : running d -> kept d.
Proof. intros [[] [] ? ? ? ?]. by constructor. Qed.

(** LzmaDec_InitDicAndState before a chunk. *)
Lemma InitDicAndState_shell d initDic initState : shell d -> shell (LzmaDec_InitDicAndState initDic initState d).
Proof.
  intros []. unfold LzmaDec_InitDicAndState.
  destruct initDic, initState; constructor; try done; try (cbn; lia); unfold window_ok, dicBufSize; cbn; try lia.
Qed.

Lemma InitDicAndState_wf d initDic initState :
  shell d -> (initState = false -> initDic = false /\ kept d) ->
  wf (LzmaDec_InitDicAndState initDic initState d).
Proof.
  intros Hs Hk. apply shell_wf; [by apply InitDicAndState_shell|]. right. left.
  split; [unfold LzmaDec_InitDicAndState; destruct initDic, initState; cbn; unfold RC_INIT_SIZE; lia|].
  destruct initState.
  - left. by unfold LzmaDec_InitDicAndState; destruct initDic.
  - destruct (Hk eq_refl) as [-> []]. by right.
Qed.

Lemma InitDicAndState_kept d initDic : kept d -> kept (LzmaDec_InitDicAndState initDic false d).
Proof. intros []. unfold LzmaDec_InitDicAndState. by destruct initDic; constructor. Qed.

(** ** What a call does to the output buffer *)

Record fills (d d' : CLzmaDec) : Prop := {
  fl_dicSize : dicSize (prop d') = dicSize (prop d);
  fl_size : length (dic d') = length (dic d);
  fl_pos : dicPos d <= dicPos d';
  fl_frame : forall i, i < dicPos d \/ dicPos d' <= i -> rd (dic d') i = rd (dic d) i
}.

Lemma fills_refl d : fills d d.
Proof. by constructor. Qed.

Lemma fills_trans d e f : fills d e -> fills e f -> fills d f.
Proof.
  intros [] []. constructor; try congruence; [lia|]. intros i Hi. rewrite fl_frame1, fl_frame0; [done|lia|lia].
Qed.

Lemma grow_fills d d' : grow d d' -> fills d d'.
Proof. intros [Hp ? ? ?]. constructor; try done. by rewrite Hp. Qed.

Lemma next_state_fills p b : fills (decoder p) (decoder (next_state p b)).
Proof.
  unfold next_state, Lzma2Dec_UpdateState.
  destruct (phase p); repeat case_match; simplify_eq; by constructor.
Qed.

Lemma InitDicAndState_fills d initDic initState : fills d (LzmaDec_InitDicAndState initDic initState d).
Proof. unfold LzmaDec_InitDicAndState. by destruct initDic, initState; constructor. Qed.

Lemma rd_app_eq (l1 l2 : list Z) i :
  rd (l1 ++ l2) i = if i <? Z.of_nat (length l1) then rd l1 i else rd l2 (i - Z.of_nat (length l1)).
Proof.
  unfold rd. destruct (Z.ltb_spec i 0).
  - destruct (Z.ltb_spec i (Z.of_nat (length l1))); [done|lia].
  - destruct (Z.ltb_spec i (Z.of_nat (length l1))).
    + apply lookup_app_l. lia.
    + destruct (Z.ltb_spec (i - Z.of_nat (length l1)) 0); [lia|]. rewrite lookup_app_r by lia. f_equal. lia.
Qed.

(** LzmaDec_UpdateWithUncompressed: the bytes appear at [dicPos], nothing else changes,
    and the window stays inside the buffer. *)
Lemma UpdateWithUncompressed_ok d data :
  shell d -> bytes data -> dicPos d + Z.of_nat (length data) <= dicBufSize d ->
  exists d', LzmaDec_UpdateWithUncompressed d data = Some d' /\ shell d' /\ fills d d' /\
    (kept d -> kept d') /\ dicPos d' = dicPos d + Z.of_nat (length data) /\
    slice (dic d') (Z.to_nat (dicPos d)) (length data) = Some data.
Proof.
  intros Hs Hd Hlen. unfold LzmaDec_UpdateWithUncompressed, blit.
  set (n := Z.of_nat (length data)) in *. pose proof (sh_pos _ Hs). pose proof (sh_size _ Hs).
  unfold dicBufSize in *. rewrite decide_True by lia. opt.
  set (l := take _ _ ++ _).
  assert (length l = length (dic d)) as Hl.
  { unfold l. rewrite !length_app, length_take, length_drop. lia. }
  eexists. split; [reflexivity|].
  assert (window_ok d) as Hw by apply Hs. pose proof (sh_processed _ Hs) as [Hp1 Hp2]. pose proof (sh_dicSize _ Hs).
  split; [|split; [|split; [|split]]]; [| | |done|].
  - destruct Hs. constructor; cbn; try done; unfold dicBufSize in *; cbn; try lia.
    + unfold window_ok, dicBufSize in *. cbn. rewrite Hl.
      destruct (Z.eqb_spec (checkDicSize d) 0) as [E|E]; cbn [andb].
      * rewrite (wrap_small 32 (_ - _)) by (unfold in_width; lia).
        destruct (Z.leb_spec (dicSize (prop d) - processedPos d) n).
        -- destruct (Z.eqb_spec (dicSize (prop d)) 0); lia.
        -- rewrite E. cbn. rewrite wrap_small by (unfold in_width; lia). lia.
      * destruct (Z.eqb_spec (checkDicSize d) 0); [lia|done].
    + unfold l. apply Forall_app. split; [by apply bytes_take|]. apply Forall_app. split; [done|by apply bytes_drop].
    + apply wrap_in_width. lia.
  - constructor; cbn; try done; try lia. intros i Hi. cbn in Hi. unfold l. rewrite rd_app_eq, length_take.
    destruct (Z.ltb_spec i (Z.of_nat (Z.to_nat (dicPos d) `min` length (dic d)))).
    + unfold rd. destruct (Z.ltb_spec i 0); [done|]. apply lookup_take_lt. lia.
    + rewrite rd_app_eq. fold n. destruct (Z.ltb_spec (i - Z.of_nat (Z.to_nat (dicPos d) `min` length (dic d))) n); [lia|].
      rewrite !rd_lookup by lia. rewrite lookup_drop. f_equal. lia.
  - intros []. constructor; try done; unfold rep_ok, dicBufSize in *; cbn; rewrite Hl; done.
  - cbn. unfold l. rewrite slice_Some by (rewrite !length_app, length_take, length_drop; lia).
    rewrite drop_app_length' by (rewrite length_take; lia). rewrite take_app_length'; done.
Qed.

(** ** Lzma2Dec_DecodeToDic *)

Definition result2_ok (dicLimit : Z) (src : list Z) (mode : ELzmaFinishMode) (o : outcome2) : Prop :=
  let '(p, n, res, status) := o in
  match res, status with
  | SZ_OK, LZMA_STATUS_FINISHED_WITH_MARK => phase p = LZMA2_STATE_FINISHED
  | SZ_OK, LZMA_STATUS_NOT_FINISHED => dicPos (decoder p) = dicLimit /\ mode = LZMA_FINISH_ANY
  | SZ_OK, LZMA_STATUS_NEEDS_MORE_INPUT => n = Z.of_nat (length src)
  | SZ_ERROR_DATA, LZMA_STATUS_NOT_SPECIFIED => phase p = LZMA2_STATE_ERROR
  | _, _ => False
  end.

Section Dic2.
Context (dicLimit : Z) (src : list Z) (mode : ELzmaFinishMode) (src_bytes : bytes src).

Definition step2 (p : CLzma2Dec) (s : Z) (p' : CLzma2Dec) (s' : Z) : Prop :=
  wf2 p' /\ fills (decoder p) (decoder p') /\ dicPos (decoder p') <= dicLimit /\
  s <= s' <= Z.of_nat (length src).

Definition in_data (p : CLzma2Dec) : bool := is_phase LZMA2_STATE_DATA p || is_phase LZMA2_STATE_DATA_CONT p.

Definition measure2 (p : CLzma2Dec) (s : Z) : Z :=
  2 * (Z.of_nat (length src) - s) + 2 * (dicLimit - dicPos (decoder p)) + (if in_data p then 1 else 0).

Definition turn2_ok (p : CLzma2Dec) (s : Z) (r : CLzma2Dec * Z + outcome2) : Prop :=
  match r with
  | inl (p', s') => step2 p s p' s' /\ measure2 p' s' < measure2 p s
  | inr (p', s', res, st) => step2 p s p' s' /\ result2_ok dicLimit src mode (p', s', res, st)
  end.

Lemma data_error_ok p q s s' :
  needInitLevel q = 0 \/ needInitLevel q = 0xC0 \/ needInitLevel q = 0xE0 -> shell (decoder q) ->
  fills (decoder p) (decoder q) -> dicPos (decoder q) <= dicLimit -> s <= s' <= Z.of_nat (length src) ->
  turn2_ok p s (inr (data_error q s')).
Proof. intros Hn Hs Hf Hl Hs'. cbn. split; [split_and!; (done || lia || by constructor)|done]. Qed.

Lemma step2_refl p s : wf2 p -> dicPos (decoder p) <= dicLimit -> s <= Z.of_nat (length src) -> step2 p s p s.
Proof. intros. split; [done|]. split; [apply fills_refl|lia]. Qed.

Lemma is_phase_true st p : is_phase st p = true <-> phase p = st.
Proof. unfold is_phase. apply bool_decide_eq_true. Qed.

Lemma is_phase_false st p : is_phase st p = false <-> phase p <> st.
Proof. unfold is_phase. apply bool_decide_eq_false. Qed.

(** A chunk being copied, before and after InitDicAndState. *)
Lemma copy_chunk_ok p s outCur :
  wf2 p -> phase p = LZMA2_STATE_DATA \/ phase p = LZMA2_STATE_DATA_CONT -> control p < 128 ->
  dicPos (decoder p) <= dicLimit <= dicBufSize (decoder p) -> 0 <= s <= Z.of_nat (length src) ->
  outCur = Z.min (unpackSize p) (dicLimit - dicPos (decoder p)) ->
  exists r, copy_chunk p src s outCur = Some r /\ turn2_ok p s r.
Proof.
  intros Hw Hph Hc Hlim Hs Hout. unfold copy_chunk.
  destruct (Z.eqb_spec (Z.of_nat (length src) - s) 0) as [E|E].
  { eexists. split; [reflexivity|]. cbn. split; [apply step2_refl; (done || lia)|lia]. }
  pose proof Hw as [[Hn Hh] [Hsh Hd]].
  assert (hdr_ok p /\ 1 <= unpackSize p <= 2 ^ 21) as [Hhdr Hun].
  { unfold header_phase in Hh. destruct Hph as [Hph|Hph]; rewrite Hph in Hh.
    - by destruct Hh as (? & [? ?] & _).
    - destruct Hh as (? & ? & Hu). destruct (Z.ltb_spec (control p) 128); (split; [done|lia]). }
  assert (needInitLevel p = 0 -> kept (decoder p)) as Hk.
  { unfold decoder_phase in Hd. destruct Hph as [Hph|Hph]; rewrite Hph in Hd.
    - apply Hd. lia.
    - by destruct (Z.ltb_spec (control p) 128); [|lia]. }
  set (q := if is_phase LZMA2_STATE_DATA p then _ else p).
  assert (exists d, q = set_decoder d p /\ shell d /\ fills (decoder p) d /\ (needInitLevel p = 0 -> kept d) /\
    dicPos d = dicPos (decoder p)) as (d & Eq & Hsd & Hf & Hkd & Hpd).
  { unfold q. destruct (is_phase LZMA2_STATE_DATA p).
    - eexists. split; [reflexivity|]. split; [by apply InitDicAndState_shell|]. split; [apply InitDicAndState_fills|].
      split; [intros Hz; by apply InitDicAndState_kept, Hk|].
      unfold LzmaDec_InitDicAndState. cbn. by destruct (_ =? _).
    - exists (decoder p). split; [by destruct p|]. split_and!; try done; apply fills_refl. }
  clearbody q. subst q.
  cbn [set_decoder decoder unpackSize packSize set_sizes needInitLevel control].
  set (n := if outCur <? _ then _ else _).
  assert (n = Z.min (Z.of_nat (length src) - s) outCur) as Hnn.
  { unfold n. destruct (Z.ltb_spec outCur (Z.of_nat (length src) - s)); lia. }
  clearbody n. destruct (Z.eqb_spec n 0) as [En|En].
  { eexists. split; [reflexivity|]. apply data_error_ok; try done; cbn; lia. }
  rewrite slice_Some by lia. opt. set (data := take _ _).
  assert (Z.of_nat (length data) = n) as Hdl by (unfold data; rewrite length_take, length_drop; lia).
  pose proof (fl_size _ _ Hf) as Hfs. unfold dicBufSize in *.
  destruct (UpdateWithUncompressed_ok d data) as (d' & -> & H1 & H2 & H3 & H4 & _);
    [done|unfold data; by apply bytes_take, bytes_drop|unfold dicBufSize; lia|].
  opt. eexists. split; [reflexivity|]. cbv beta iota.
  assert (u32 (unpackSize p - n) = unpackSize p - n) as -> by (apply wrap_small; unfold in_width; lia).
  assert (fills (decoder p) d') as Hf' by (by eapply fills_trans).
  unfold turn2_ok, step2, wf2. cbn [set_decoder decoder set_sizes set_phase].
  assert (measure2 p s = 2 * (Z.of_nat (length src) - s) + 2 * (dicLimit - dicPos (decoder p)) + 1) as Hm.
  { unfold measure2, in_data, is_phase. by destruct Hph as [-> | ->]. }
  rewrite Hm. split_and!; try done; try lia.
  - destruct (Z.eqb_spec (unpackSize p - n) 0) as [Eu|Eu].
    + constructor; [done|]. done.
    + constructor; [done|]. split; [exact Hhdr|]. cbn -[Z.ltb]. split; [lia|].
      destruct (Z.ltb_spec (control p) 128); lia.
  - destruct (Z.eqb_spec (unpackSize p - n) 0) as [Eu|Eu].
    + constructor; [done|]. cbn. intros Hz. by apply H3, Hkd.
    + constructor; [done|]. unfold decoder_phase. cbn -[Z.ltb].
      destruct (Z.ltb_spec (control p) 128); [|lia]. intros Hz. by apply H3, Hkd.
  - unfold measure2 at 1. cbn [set_phase set_decoder set_sizes decoder]. rewrite H4, Hdl, Hpd.
    destruct (in_data _); lia.
Qed.

Lemma lzma_decode d lim data m :
  wf d -> shell d -> dicPos d <= lim <= dicBufSize d -> bytes data ->
  exists d' n res st, LzmaDec_DecodeToDic d lim data m = Some (d', n, res, st) /\
    wf d' /\ shell d' /\ fills d d' /\ dicPos d' <= lim /\ 0 <= n <= Z.of_nat (length data) /\
    result_ok lim data m (d', n, res, st).
Proof.
  intros Hw Hs Hlim Hd.
  destruct (DecodeToDic_ok d lim data m Hw Hlim Hd) as ([[[d' n] res] st] & Ho & H1 & H2 & H3 & H4 & H5).
  exists d', n, res, st. split; [done|]. split; [done|].
  split; [|split; [by apply grow_fills|done]].
  pose proof (DecodeToDic_keep d lim data m _ Ho) as Hc. cbn in Hc.
  apply wf_shell; [done|rewrite (gr_prop _ _ H2); apply Hs|rewrite Hc; apply Hs].
Qed.

Lemma wf_remain_0 d : wf d -> remainLen d = 0 -> running d.
Proof.
  intros Hw Hr. destruct (wf_state _ Hw) as [H|[[_ [H|[H _]]]|H]]; layout; (done || lia).
Qed.

Lemma lzma_chunk_ok p s outCur cm :
  wf2 p -> phase p = LZMA2_STATE_DATA \/ phase p = LZMA2_STATE_DATA_CONT -> 128 <= control p ->
  dicPos (decoder p) <= dicLimit <= dicBufSize (decoder p) -> 0 <= s <= Z.of_nat (length src) ->
  outCur = Z.min (unpackSize p) (dicLimit - dicPos (decoder p)) ->
  exists r, lzma_chunk p src s outCur cm = Some r /\ turn2_ok p s r.
Proof.
  intros Hw Hph Hc Hlim Hs Hout. unfold lzma_chunk. pose proof Hw as [[Hn Hh] [Hsh Hd]].
  assert (hdr_ok p /\ 0 <= unpackSize p <= 2 ^ 21 /\ 0 <= packSize p <= 2 ^ 16) as (Hhdr & Hun & Hpk).
  { unfold header_phase, unpack_ok, pack_ok in Hh. destruct Hph as [Hph|Hph]; rewrite Hph in Hh.
    - destruct Hh as (? & ? & Hp). specialize (Hp Hc). split; [done|lia].
    - destruct Hh as (? & ? & Hp). destruct (Z.ltb_spec (control p) 128); [lia|done]. }
  set (q := if is_phase LZMA2_STATE_DATA p then _ else p).
  assert (exists d, q = set_phase LZMA2_STATE_DATA_CONT (set_decoder d p) /\ wf d /\ shell d /\
    fills (decoder p) d /\ dicPos d = dicPos (decoder p)) as (d & Eq & Hwd & Hsd & Hf & Hpd).
  { unfold q, is_phase. destruct Hph as [Hph|Hph]; rewrite Hph; cbn [bool_decide].
    - eexists. split; [reflexivity|]. split; [|split; [by apply InitDicAndState_shell|split; [apply InitDicAndState_fills|]]].
      + apply InitDicAndState_wf; [done|]. intros Hi%Z.leb_gt. split; [apply Z.leb_gt; lia|].
        unfold decoder_phase in Hd. rewrite Hph in Hd. apply Hd; [done|]. unfold hdr_ok in Hhdr. lia.
      + unfold LzmaDec_InitDicAndState. by destruct (0xE0 <=? _), (0xA0 <=? _).
    - exists (decoder p). unfold decoder_phase in Hd. rewrite Hph in Hd. destruct (Z.ltb_spec (control p) 128); [lia|].
      split; [by destruct p; cbn in *; subst|]. split_and!; try done; apply fills_refl. }
  clearbody q. subst q. cbn [set_decoder set_phase decoder packSize].
  set (n := if packSize p <? _ then _ else _).
  assert (n = Z.min (Z.of_nat (length src) - s) (packSize p)) as Hnn.
  { unfold n. destruct (Z.ltb_spec (packSize p) (Z.of_nat (length src) - s)); lia. }
  clearbody n. rewrite slice_Some by lia. opt. set (data := take _ _).
  assert (Z.of_nat (length data) = n) as Hdl by (unfold data; rewrite length_take, length_drop; lia).
  pose proof (fl_size _ _ Hf) as Hfs. unfold dicBufSize in Hlim.
  destruct (lzma_decode d (dicPos (decoder p) + outCur) data cm) as (d' & k & res & st & -> & H1 & H2 & H3 & H4 & H5 & H6);
    try done; [unfold dicBufSize; lia|by apply bytes_take, bytes_drop|].
  opt. clearbody data.
  assert (fills (decoder p) d') as Hf' by (by eapply fills_trans).
  pose proof (fl_pos _ _ Hf') as Hpos.
  rewrite (wrap_small 32 (packSize p - k)), (wrap_small 32 (unpackSize _ - _)) by (unfold in_width; cbn; lia).
  set (q := set_sizes _ _ _).
  assert (wf2 q) as Hwq.
  { split; (constructor; [done|]).
    - split; [exact Hhdr|]. cbn -[Z.ltb]. destruct (Z.ltb_spec (control p) 128); lia.
    - unfold decoder_phase. cbn -[Z.ltb]. by destruct (Z.ltb_spec (control p) 128); [lia|]. }
  assert (step2 p s q (s + k)) as Hstep by (split; [done|]; split; [done|]; cbn; lia).
  assert (measure2 p s = 2 * (Z.of_nat (length src) - s) + 2 * (dicLimit - dicPos (decoder p)) + 1) as Hm.
  { unfold measure2, in_data, is_phase. by destruct Hph as [-> | ->]. }
  destruct (not_ok res) eqn:Hres.
  { eexists. split; [reflexivity|]. apply data_error_ok; (done || apply Hstep || lia). }
  destruct (match st with LZMA_STATUS_NEEDS_MORE_INPUT => true | _ => false end) eqn:Hst.
  { destruct st; try done. change (packSize q) with (packSize p - k).
    destruct (Z.eqb_spec (packSize p - k) 0).
    - eexists. split; [reflexivity|]. apply data_error_ok; (done || apply Hstep || lia).
    - destruct res; try done. cbn in H6. eexists. split; [reflexivity|]. cbn. split; [done|lia]. }
  destruct (Z.eqb_spec k 0) as [Ek|Ek], (Z.eqb_spec (dicPos d' - dicPos (decoder p)) 0) as [Ed|Ed]; cbn [andb].
  2-4: eexists; (split; [reflexivity|]); cbv beta iota; split; [done|]; rewrite Hm;
    unfold measure2; cbn; destruct (in_data _); lia.
  destruct (negb match st with LZMA_STATUS_MAYBE_FINISHED_WITHOUT_MARK => true | _ => false end || _ || _) eqn:He.
  { eexists. split; [reflexivity|]. apply data_error_ok; (done || apply Hstep || lia). }
  destruct st; try done. apply orb_false_iff in He as [He1%negb_false_iff%Z.eqb_eq He2%negb_false_iff%Z.eqb_eq].
  eexists. split; [reflexivity|]. cbv beta iota. destruct res; try done. cbn in H6.
  split.
  - split; [|split; [done|cbn; lia]]. split; (constructor; [done|]); [exact He1|].
    intros _. apply running_kept, wf_remain_0; [exact H1|apply H6].
  - rewrite Hm. unfold measure2. change (in_data (set_phase LZMA2_STATE_CONTROL q)) with false. cbn. lia.
Qed.

Lemma dic2_turn_ok p s :
  wf2 p -> dicPos (decoder p) <= dicLimit <= dicBufSize (decoder p) -> 0 <= s <= Z.of_nat (length src) ->
  exists r, dic2_turn dicLimit src mode (p, s) = Some r /\ turn2_ok p s r.
Proof.
  intros Hw Hlim Hs. unfold dic2_turn. pose proof Hw as [[Hn Hh] [Hsh Hd]].
  pose proof (sh_size _ Hsh). pose proof (sh_pos _ Hsh). unfold dicBufSize in *.
  destruct (is_phase LZMA2_STATE_ERROR p) eqn:He.
  { eexists. split; [reflexivity|]. apply data_error_ok; try done; try lia; apply fills_refl. }
  destruct (is_phase LZMA2_STATE_FINISHED p) eqn:Hfin.
  { apply is_phase_true in Hfin. eexists. split; [reflexivity|]. split; [by apply step2_refl; (done || lia)|done]. }
  cbv zeta. destruct ((dicPos (decoder p) =? dicLimit) && finish_any mode) eqn:Hstop.
  { apply andb_true_iff in Hstop as [El%Z.eqb_eq Hm]. eexists. split; [reflexivity|].
    split; [apply step2_refl; (done || lia)|]. split; [done|by destruct mode]. }
  destruct (negb _ && negb _) eqn:Hdata.
  - assert (in_data p = false) as Hnd.
    { unfold in_data. by destruct (is_phase LZMA2_STATE_DATA p), (is_phase LZMA2_STATE_DATA_CONT p). }
    destruct (Z.eqb_spec s (Z.of_nat (length src))) as [Es|Es].
    { eexists. split; [reflexivity|]. split; [apply step2_refl; (done || lia)|done]. }
    destruct (rd_Some src s) as [b Hb]; [lia|]. rewrite Hb. opt.
    pose proof (next_state_wf2 p b Hw (rd_Forall _ _ _ _ src_bytes Hb)) as Hw'.
    pose proof (next_state_fills p b) as Hf.
    assert (dicPos (decoder (next_state p b)) = dicPos (decoder p)) as Hpos.
    { unfold next_state, Lzma2Dec_UpdateState. destruct (phase p); repeat case_match; by simplify_eq. }
    destruct (_ && negb (is_phase LZMA2_STATE_FINISHED (next_state p b))).
    + eexists. split; [reflexivity|]. apply data_error_ok; try done; rewrite ?Hpos; try lia; apply Hw'.
    + eexists. split; [reflexivity|]. cbv beta iota. split; [split; [done|]; split; [done|rewrite Hpos; lia]|].
      unfold measure2. rewrite Hnd, Hpos. destruct (in_data (next_state p b)); cbv iota; lia.
  - assert (phase p = LZMA2_STATE_DATA \/ phase p = LZMA2_STATE_DATA_CONT) as Hph.
    { rewrite <-!is_phase_true. destruct (is_phase LZMA2_STATE_DATA p), (is_phase LZMA2_STATE_DATA_CONT p); auto. }
    rewrite (wrap_small 64) by (unfold in_width; lia).
    set (o := if unpackSize p <=? _ then _ else _).
    assert (exists m, o = (Z.min (unpackSize p) (dicLimit - dicPos (decoder p)), m)) as [m ->].
    { unfold o. destruct (Z.leb_spec (unpackSize p) (dicLimit - dicPos (decoder p))); eexists; f_equal; lia. }
    assert (hdr_ok p) as Hhdr by (unfold header_phase in Hh; destruct Hph as [Hph|Hph]; rewrite Hph in Hh; apply Hh).
    rewrite hdr_uncompressed by done. destruct (Z.ltb_spec (control p) 128).
    + by apply copy_chunk_ok.
    + by apply lzma_chunk_ok.
Qed.
End Dic2.

Definition outcome2_ok (dicLimit : Z) (src : list Z) (mode : ELzmaFinishMode) (p : CLzma2Dec) (o : outcome2) : Prop :=
  let '(p', n, _, _) := o in
  wf2 p' /\ fills (decoder p) (decoder p') /\ dicPos (decoder p') <= dicLimit /\ 0 <= n <= Z.of_nat (length src) /\
  result2_ok dicLimit src mode o.

(** The whole call, for the clients. *)
Lemma Lzma2_DecodeToDic_ok p dicLimit src mode :
  wf2 p -> dicPos (decoder p) <= dicLimit <= dicBufSize (decoder p) -> bytes src ->
  exists o, Lzma2Dec_DecodeToDic p dicLimit src mode = Some o /\ outcome2_ok dicLimit src mode p o.
Proof.
  intros Hw Hlim Hsrc. unfold Lzma2Dec_DecodeToDic.
  apply (loop_total
    (fun '(q, s) => wf2 q /\ fills (decoder p) (decoder q) /\ dicPos (decoder q) <= dicLimit /\ 0 <= s <= Z.of_nat (length src))
    (fun '(q, s) => Z.to_nat (measure2 dicLimit src q s))).
  - intros [q s] (Hq & Hf & Hl & Hs).
    destruct (dic2_turn_ok dicLimit src mode Hsrc q s) as (r & -> & Hr); try done.
    { unfold dicBufSize in *. rewrite (fl_size _ _ Hf). lia. }
    destruct r as [[q' s']|[[[q' s'] res] st]]; cbv beta iota in Hr |- *; destruct Hr as [(H1 & H2 & H3 & H4) H5];
      (assert (fills (decoder p) (decoder q')) by (by eapply fills_trans)).
    + split; [split_and!; (done || lia)|].
      assert (0 <= measure2 dicLimit src q' s') by (unfold measure2; destruct (in_data q'); lia). lia.
    + unfold outcome2_ok. split; [done|]. split; [done|]. split; [done|]. split; [lia|done].
  - split; [done|]. split; [apply fills_refl|lia].
  - unfold dic2_fuel, measure2. destruct (in_data p); lia.
Qed.

(** ** Lzma2Dec_Parse *)

(** The parser moves [decoder.dicPos] by what it skips and touches nothing else of the
    LZMA decoder but its properties. *)
Definition skipped (k : Z) (d d' : CLzmaDec) : Prop :=
  dicPos d' = u64 (dicPos d + k) /\ dicSize (prop d') = dicSize (prop d) /\
  dic d' = dic d /\ coder d' = coder d.

Lemma skipped_0 d : in_width 64 (dicPos d) -> skipped 0 d d.
Proof. intros H. split; [rewrite Z.add_0_r; symmetry; by apply wrap_small|done]. Qed.

Lemma skipped_trans j k d e f : skipped j d e -> skipped k e f -> skipped (j + k) d f.
Proof.
  intros (H1 & H2 & H3 & H4) (H5 & H6 & H7 & H8). split; [|split_and!; congruence].
  rewrite H5, H1. unfold wrap. rewrite Zplus_mod_idemp_l. f_equal. lia.
Qed.

Lemma next_state_skipped p b : in_width 64 (dicPos (decoder p)) -> skipped 0 (decoder p) (decoder (next_state p b)).
Proof.
  intros H. pose proof (skipped_0 _ H) as (H1 & _). unfold next_state, Lzma2Dec_UpdateState.
  destruct (phase p); repeat case_match; simplify_eq; by split_and!.
Qed.

Section Parse.
Context (src : list Z) (src_bytes : bytes src) (checkFinishBlock : bool).

Definition status_ok (rest : Z) (o : parse_outcome) : Prop :=
  let '(p, n, st) := o in
  match st with
  | PARSE_STATUS LZMA_STATUS_NOT_SPECIFIED => phase p = LZMA2_STATE_ERROR
  | PARSE_STATUS LZMA_STATUS_FINISHED_WITH_MARK => phase p = LZMA2_STATE_FINISHED
  | PARSE_STATUS LZMA_STATUS_NOT_FINISHED => rest = 0
  | PARSE_STATUS LZMA_STATUS_NEEDS_MORE_INPUT => n = Z.of_nat (length src)
  | PARSE_STATUS LZMA_STATUS_MAYBE_FINISHED_WITHOUT_MARK => False
  | LZMA2_PARSE_STATUS_NEW_BLOCK =>
      phase p = LZMA2_STATE_UNPACK0 /\ (control p = 1 \/ 0xE0 <= control p)
  | LZMA2_PARSE_STATUS_NEW_CHUNK => phase p = LZMA2_STATE_DATA /\ unpack_ok p
  end.

Definition parse_step (p : CLzma2Dec) (room s : Z) (p' : CLzma2Dec) (room' s' : Z) : Prop :=
  header_ok p' /\ 0 <= room' <= room /\ skipped (room - room') (decoder p) (decoder p') /\
  s <= s' <= Z.of_nat (length src).

Definition parse_measure (p : CLzma2Dec) (room s : Z) : Z :=
  2 * (Z.of_nat (length src) - s) + 2 * room + (if in_data p then 1 else 0).

Definition parse_turn_ok (p : CLzma2Dec) (room s : Z) (r : CLzma2Dec * Z * Z + parse_outcome) : Prop :=
  match r with
  | inl (p', room', s') => parse_step p room s p' room' s' /\ parse_measure p' room' s' < parse_measure p room s
  | inr (p', s', st) => exists room', parse_step p room s p' room' s' /\ status_ok room' (p', s', st)
  end.

Lemma parse_step_refl p room s :
  header_ok p -> in_width 64 (dicPos (decoder p)) -> 0 <= room -> s <= Z.of_nat (length src) ->
  parse_step p room s p room s.
Proof. intros. split; [done|]. split; [lia|]. split; [rewrite Z.sub_diag; by apply skipped_0|lia]. Qed.

(** A turn that stops where it is. *)
Lemma parse_stop p room s st :
  header_ok p -> in_width 64 (dicPos (decoder p)) -> 0 <= room -> s <= Z.of_nat (length src) ->
  status_ok room (p, s, st) -> parse_turn_ok p room s (inr (p, s, st)).
Proof. intros. exists room. split; [by apply parse_step_refl|done]. Qed.

Lemma parse_header_ok p room s :
  header_ok p -> in_width 64 (dicPos (decoder p)) -> 0 <= room -> 0 <= s <= Z.of_nat (length src) ->
  in_data p = false ->
  exists r, parse_header p room src s = Some r /\ parse_turn_ok p room s r.
Proof.
  intros Hh Hd Hroom Hs Hnd. unfold parse_header.
  destruct (Z.eqb_spec s (Z.of_nat (length src))) as [Es|Es].
  { eexists. split; [reflexivity|]. apply parse_stop; (done || lia). }
  destruct (rd_Some src s) as [b Hb]; [lia|]. rewrite Hb. opt.
  pose proof (next_state_header p b Hh (rd_Forall _ _ _ _ src_bytes Hb)) as Hh'.
  assert (parse_step p room s (next_state p b) room (s + 1)) as Hstep.
  { split; [done|]. split; [lia|]. split; [rewrite Z.sub_diag; by apply next_state_skipped|lia]. }
  destruct (is_phase LZMA2_STATE_UNPACK0 (next_state p b) && _) eqn:H1.
  { apply andb_true_iff in H1 as [H1%is_phase_true H2]. eexists. split; [reflexivity|].
    exists room. split; [done|]. split; [done|]. unfold LZMA2_CONTROL_COPY_RESET_DIC in H2. lia. }
  destruct ((room =? 0) && _) eqn:H2.
  { apply andb_true_iff in H2 as [H2%Z.eqb_eq _]. eexists. split; [reflexivity|]. by exists room. }
  destruct (is_phase LZMA2_STATE_DATA (next_state p b)) eqn:H3.
  { apply is_phase_true in H3. eexists. split; [reflexivity|]. exists room. split; [done|]. split; [done|].
    destruct Hh' as [_ Hh']. unfold header_phase in Hh'. rewrite H3 in Hh'. apply Hh'. }
  eexists. split; [reflexivity|]. split; [done|]. unfold parse_measure. rewrite Hnd.
  destruct (in_data (next_state p b)); lia.
Qed.

Lemma parse_copy_ok p room s :
  header_ok p -> in_width 64 (dicPos (decoder p)) -> 1 <= room -> 0 <= s <= Z.of_nat (length src) ->
  hdr_ok p -> 1 <= unpackSize p <= 2 ^ 21 -> control p < 128 -> in_data p = true ->
  exists r, parse_copy p room src s = Some r /\ parse_turn_ok p room s r.
Proof.
  intros Hh Hd Hroom Hs Hhdr Hun Hc Hin. unfold parse_copy.
  destruct (Z.eqb_spec (Z.of_nat (length src) - s) 0) as [E|E].
  { eexists. split; [reflexivity|]. apply parse_stop; (done || lia || cbn; lia). }
  set (n := if room <? _ then _ else _).
  assert (n = Z.min (Z.of_nat (length src) - s) (Z.min (unpackSize p) room)) as Hn.
  { unfold n. destruct (Z.ltb_spec (unpackSize p) (Z.of_nat (length src) - s));
      [destruct (Z.ltb_spec room (unpackSize p))|destruct (Z.ltb_spec room (Z.of_nat (length src) - s))]; lia. }
  clearbody n. eexists. split; [reflexivity|]. cbv beta iota.
  rewrite (wrap_small 32) by (unfold in_width; lia).
  assert (parse_measure p room s = 2 * (Z.of_nat (length src) - s) + 2 * room + 1) as Hm
    by (unfold parse_measure; by rewrite Hin).
  split; [split; [|split; [lia|split; [|lia]]]|].
  - constructor; [apply Hh|]. unfold header_phase. cbn -[Z.eqb].
    destruct (Z.eqb_spec (unpackSize p - n) 0); [done|]. split; [done|]. cbn -[Z.ltb].
    destruct (Z.ltb_spec (control p) 128); lia.
  - replace (room - (room - n)) with n by lia. by split_and!.
  - rewrite Hm. unfold parse_measure. destruct (in_data (set_phase _ _)); lia.
Qed.

Lemma parse_skip_ok p room s :
  needInitLevel p = 0 ->
  in_width 64 (dicPos (decoder p)) -> 1 <= room -> 0 <= s <= Z.of_nat (length src) ->
  128 <= control p < 256 -> 0 <= unpackSize p <= 2 ^ 21 -> 0 <= packSize p <= 2 ^ 16 ->
  (packSize p = 0 \/ s < Z.of_nat (length src)) -> phase p = LZMA2_STATE_DATA_CONT ->
  let '(p', room', s') := parse_skip p room src s in
  parse_step p room s p' room' s' /\ parse_measure p' room' s' < parse_measure p room s.
Proof.
  intros Hn Hd Hroom Hs Hc Hun Hpk Hpr Hph. unfold parse_skip.
  set (n := if packSize p <? _ then _ else _).
  assert (n = Z.min (Z.of_nat (length src) - s) (packSize p)) as Hnn.
  { unfold n. destruct (Z.ltb_spec (packSize p) (Z.of_nat (length src) - s)); lia. }
  clearbody n. cbv zeta. cbn [packSize set_sizes unpackSize].
  rewrite (wrap_small 32 (packSize p - n)) by (unfold in_width; lia).
  assert (parse_measure p room s = 2 * (Z.of_nat (length src) - s) + 2 * room + 1) as Hm
    by (unfold parse_measure, in_data, is_phase; by rewrite Hph).
  assert (forall q, phase q = LZMA2_STATE_DATA_CONT -> control q = control p -> needInitLevel q = 0 ->
    0 <= unpackSize q <= 2 ^ 21 -> 0 <= packSize q <= 2 ^ 16 -> header_ok q) as Hq.
  { intros q Q1 Q2 Q3 Q4 Q5. constructor; [by left|]. unfold header_phase. rewrite Q1.
    split; [right; right; lia|]. split; [done|]. destruct (Z.ltb_spec (control q) 128); lia. }
  destruct (Z.eqb_spec (packSize p - n) 0) as [E|E].
  - set (r := if unpackSize p <? room then _ else _).
    assert (r = Z.min (unpackSize p) room) as Hr by (unfold r; destruct (Z.ltb_spec (unpackSize p) room); lia).
    clearbody r. rewrite (wrap_small 32 (unpackSize p - r)) by (unfold in_width; lia).
    assert (skipped (room - (room - r)) (decoder p) (decoder (skip_out r p))) as Hsk
      by (replace (room - (room - r)) with r by lia; by split_and!).
    destruct (Z.eqb_spec (unpackSize p - r) 0) as [Eu|Eu].
    + split; [split; [|split; [lia|split; [exact Hsk|lia]]]|].
      * constructor; [by left|]. done.
      * rewrite Hm. unfold parse_measure.
        match goal with |- context [in_data ?x] => change (in_data x) with false end. cbv iota. lia.
    + split; [split; [|split; [lia|split; [exact Hsk|lia]]]|].
      * apply Hq; try done; cbn; lia.
      * rewrite Hm. unfold parse_measure. destruct (in_data _); lia.
  - split; [split; [|split; [lia|split; [|lia]]]|].
    + apply Hq; try done; cbn; lia.
    + rewrite Z.sub_diag. cbn. by apply skipped_0.
    + rewrite Hm. unfold parse_measure. destruct (in_data _); lia.
Qed.

Lemma parse_lzma_ok p room s :
  header_ok p -> in_width 64 (dicPos (decoder p)) -> 1 <= room -> 0 <= s <= Z.of_nat (length src) ->
  128 <= control p -> in_data p = true ->
  exists r, parse_lzma p room src s = Some r /\ parse_turn_ok p room s r.
Proof.
  intros Hh Hd Hroom Hs Hc Hin.
  assert (phase p = LZMA2_STATE_DATA \/ phase p = LZMA2_STATE_DATA_CONT) as Hph.
  { unfold in_data in Hin. by rewrite orb_true_iff, !is_phase_true in Hin. }
  assert (hdr_ok p /\ 0 <= unpackSize p <= 2 ^ 21 /\ 0 <= packSize p <= 2 ^ 16 /\
    (phase p = LZMA2_STATE_DATA -> 1 <= packSize p)) as (Hhdr & Hun & Hpk & Hp1).
  { pose proof (hd_phase _ Hh) as Hq. unfold header_phase, unpack_ok, pack_ok in Hq.
    destruct Hph as [Hph|Hph]; rewrite Hph in Hq |- *.
    - destruct Hq as (? & ? & Hp). specialize (Hp Hc). split; [done|lia].
    - destruct Hq as (? & ? & Hp). destruct (Z.ltb_spec (control p) 128); [lia|done]. }
  assert (128 <= control p < 256 /\ needInitLevel p = 0) as [Hc2 Hn] by (unfold hdr_ok in Hhdr; lia).
  assert (header_ok (set_extra p)) as Hhe.
  { destruct Hh as [H1 H2]. constructor; [done|]. unfold header_phase in *. exact H2. }
  assert (forall q, q = set_phase LZMA2_STATE_DATA_CONT (set_extra p) -> (packSize p = 0 \/ s < Z.of_nat (length src)) ->
    parse_turn_ok p room s (inl (parse_skip q room src s))) as Hskip.
  { intros q -> Hpr.
    pose proof (parse_skip_ok (set_phase LZMA2_STATE_DATA_CONT (set_extra p)) room s Hn Hd Hroom Hs Hc2 Hun Hpk Hpr eq_refl) as H.
    destruct (parse_skip _ room src s) as [[p' room'] s']. destruct H as [H1 H2]. split; [exact H1|].
    replace (parse_measure p room s) with (parse_measure (set_phase LZMA2_STATE_DATA_CONT (set_extra p)) room s); [done|].
    unfold parse_measure. by rewrite Hin. }
  unfold parse_lzma. cbv zeta. change (packSize (set_extra p)) with (packSize p).
  change (is_phase LZMA2_STATE_DATA (set_extra p)) with (is_phase LZMA2_STATE_DATA p).
  destruct (Z.eqb_spec (Z.of_nat (length src) - s) 0) as [E|E].
  - destruct (Z.eqb_spec (packSize p) 0) as [Ep|Ep]; cbn [negb].
    + eexists. split; [reflexivity|].
      assert (phase p = LZMA2_STATE_DATA_CONT) as Hph' by (destruct Hph as [Hph|Hph]; [specialize (Hp1 Hph); lia|done]).
      apply Hskip; [by destruct p; cbn in *; subst|by left].
    + eexists. split; [reflexivity|]. apply (parse_stop (set_extra p)); (done || lia || cbn; lia).
  - destruct (is_phase LZMA2_STATE_DATA p) eqn:Hdata.
    + apply is_phase_true in Hdata. specialize (Hp1 Hdata).
      destruct (rd_Some src s) as [b Hb]; [lia|]. rewrite Hb. opt. destruct (negb (b =? 0)).
      * eexists. split; [reflexivity|]. exists room. split; [|done]. split; [constructor; [by left|done]|].
        split; [lia|]. split; [rewrite Z.sub_diag; by apply skipped_0|lia].
      * eexists. split; [reflexivity|]. apply Hskip; [done|right; lia].
    + apply is_phase_false in Hdata. destruct Hph as [Hph|Hph]; [done|].
      eexists. split; [reflexivity|]. apply Hskip; [by destruct p; cbn in *; subst|right; lia].
Qed.

Lemma parse_turn_total p room s :
  header_ok p -> in_width 64 (dicPos (decoder p)) -> 0 <= room -> 0 <= s <= Z.of_nat (length src) ->
  exists r, parse_turn src checkFinishBlock (p, room, s) = Some r /\ parse_turn_ok p room s r.
Proof.
  intros Hh Hd Hroom Hs. unfold parse_turn.
  destruct (is_phase LZMA2_STATE_ERROR p) eqn:H1.
  { eexists. split; [reflexivity|]. exists room. split; [|done].
    split; [constructor; [apply Hh|done]|]. split; [lia|]. split; [rewrite Z.sub_diag; by apply skipped_0|lia]. }
  destruct (is_phase LZMA2_STATE_FINISHED p) eqn:H2.
  { apply is_phase_true in H2. eexists. split; [reflexivity|]. apply parse_stop; (done || lia). }
  destruct ((room =? 0) && negb checkFinishBlock) eqn:H3.
  { apply andb_true_iff in H3 as [H3%Z.eqb_eq _]. eexists. split; [reflexivity|]. apply parse_stop; (done || lia). }
  destruct (negb _ && negb _) eqn:H4.
  { apply parse_header_ok; try done. unfold in_data.
    by destruct (is_phase LZMA2_STATE_DATA p), (is_phase LZMA2_STATE_DATA_CONT p). }
  destruct (Z.eqb_spec room 0).
  { eexists. split; [reflexivity|]. apply parse_stop; (done || lia). }
  assert (in_data p = true) as Hin.
  { unfold in_data. by destruct (is_phase LZMA2_STATE_DATA p), (is_phase LZMA2_STATE_DATA_CONT p). }
  assert (hdr_ok p /\ (control p < 128 -> 1 <= unpackSize p <= 2 ^ 21)) as [Hhdr Hun].
  { pose proof (hd_phase _ Hh) as Hq. unfold header_phase, unpack_ok in Hq. unfold in_data in Hin.
    rewrite orb_true_iff, !is_phase_true in Hin. destruct Hin as [Hin|Hin]; rewrite Hin in Hq.
    - by destruct Hq as (? & ? & _).
    - destruct Hq as (? & ? & Hp). split; [done|]. intros Hc. destruct (Z.ltb_spec (control p) 128); lia. }
  rewrite hdr_uncompressed by done. destruct (Z.ltb_spec (control p) 128) as [Hc|Hc].
  - apply parse_copy_ok; (done || lia || by apply Hun).
  - apply parse_lzma_ok; (done || lia).
Qed.
End Parse.

Lemma Parse_ok p outSize src check :
  header_ok p -> in_width 64 (dicPos (decoder p)) -> 0 <= outSize -> bytes src ->
  exists p' n st k, Lzma2Dec_Parse p outSize src check = Some (p', n, st) /\
    header_ok p' /\ 0 <= k <= outSize /\ skipped k (decoder p) (decoder p') /\
    0 <= n <= Z.of_nat (length src) /\ status_ok src (outSize - k) (p', n, st).
Proof.
  intros Hh Hd Hout Hsrc. unfold Lzma2Dec_Parse.
  edestruct (loop_total
    (fun '(q, room, s) => header_ok q /\ in_width 64 (dicPos (decoder q)) /\ 0 <= s <= Z.of_nat (length src) /\
       0 <= room <= outSize /\ skipped (outSize - room) (decoder p) (decoder q))
    (fun '(q, room, s) => Z.to_nat (parse_measure src q room s))
    (fun '(q, n, st) => exists room, header_ok q /\ 0 <= n <= Z.of_nat (length src) /\
       0 <= room <= outSize /\ skipped (outSize - room) (decoder p) (decoder q) /\ status_ok src room (q, n, st))
    (parse_turn src check)) as ([[q n] st] & -> & room & H1 & H2 & H3 & H4 & H5).
  - intros [[q room] s] (Hq & Hdq & Hs & Hr & Hsk).
    destruct (parse_turn_total src Hsrc check q room s) as (r & -> & Hturn); try done; try lia.
    assert (forall q' room' s', parse_step src q room s q' room' s' ->
      header_ok q' /\ in_width 64 (dicPos (decoder q')) /\ 0 <= s' <= Z.of_nat (length src) /\
      0 <= room' <= outSize /\ skipped (outSize - room') (decoder p) (decoder q')) as Hstep.
    { intros q' room' s' (P1 & P2 & P3 & P4).
      split_and!; try done; try lia; [destruct P3 as [-> _]; by apply wrap_in_width| ].
      replace (outSize - room') with ((outSize - room) + (room - room')) by lia. by eapply skipped_trans. }
    destruct r as [[[q' room'] s']|[[q' s'] st]]; cbv beta iota in Hturn |- *.
    + destruct Hturn as [Ht Hm]. apply Hstep in Ht. split; [done|].
      assert (0 <= parse_measure src q' room' s') by (unfold parse_measure; destruct (in_data q'); lia). lia.
    + destruct Hturn as (room' & Ht & Hst). apply Hstep in Ht. exists room'. by split_and!; try apply Ht.
  - split_and!; try done; try lia. rewrite Z.sub_diag. by apply skipped_0.
  - unfold parse_measure. destruct (in_data p); lia.
  - exists q, n, st, (outSize - room). split; [done|]. split; [done|]. split; [lia|].
    split; [done|]. split; [done|]. by replace (outSize - (outSize - room)) with room by lia.
Qed.
