(* ===== verification/Lzma2Api.v ===== *)
(** * LZMA2 decoder: what it promises

    The theorems about Lzma2Dec.c: the chunk headers are exactly the table at the top of
    the file, allocation and initialisation give a decoder every call on which is safe,
    whatever calls came before, and Lzma2Dec_Parse and Lzma2Decode always return. *)

From stdpp Require Import base numbers list list_numbers relations.
From Stdlib Require Import ZArith Lia.
From S2P Require Import Prelude SzTypes LzmaParse LzmaDec LzmaDecSym LzmaDecSafe LzmaDecKeep DicToBuf LzmaApi Lzma2Dec Lzma2Safe.
Local Open Scope Z_scope.
Local Open Scope word_scope.

(** ** The format of the chunk headers *)

(** The table of Lzma2Dec.c: the end mark; a chunk that is copied, with or without a
    dictionary reset; an LZMA chunk with nothing, the state, the state and the
    properties, or all and the dictionary reset (levels 0 to 3). *)
Inductive chunk :=
  | EndMark
  | CopyChunk (resetDic : bool) (unpack : Z)
  | LzmaChunk (level unpack pack : Z) (lc lp pb : Z).

Definition chunk_ok (c : chunk) : Prop :=
  match c with
  | EndMark => True
  | CopyChunk _ n => 1 <= n <= 2 ^ 16
  | LzmaChunk level n k lc lp pb =>
      0 <= level <= 3 /\ 1 <= n <= 2 ^ 21 /\ 1 <= k <= 2 ^ 16 /\
      0 <= lc /\ 0 <= lp /\ lc + lp <= 4 /\ 0 <= pb <= 4
  end.

(** Sizes are stored less one, big-endian. *)
Definition size_bytes (n : Z) : list Z := [(n - 1) / 256 mod 256; (n - 1) mod 256].

Definition chunk_bytes (c : chunk) : list Z :=
  match c with
  | EndMark => [0]
  | CopyChunk resetDic n => (if resetDic then 1 else 2) :: size_bytes n
  | LzmaChunk level n k lc lp pb =>
      (0x80 + 0x20 * level + (n - 1) / 2 ^ 16) :: size_bytes n ++ size_bytes k ++
      (if 2 <=? level then [(pb * 5 + lp) * 9 + lc] else [])
  end.

(** What may follow: a reset of everything first, of the state before the next LZMA chunk
    after a dictionary reset. *)
Definition chunk_allowed (need : Z) (c : chunk) : Prop :=
  match c with
  | EndMark | CopyChunk true _ => True
  | CopyChunk false _ => need <> 0xE0
  | LzmaChunk level _ _ _ _ _ => need <= 0x80 + 0x20 * level
  end.

(** The decoder ready for the data of the chunk. *)
Definition chunk_state (p : CLzma2Dec) (c : chunk) : CLzma2Dec :=
  match c with
  | EndMark => set_phase LZMA2_STATE_FINISHED (set_control 0 p)
  | CopyChunk resetDic n =>
      let p := set_control (if resetDic then 1 else 2) p in
      let p := if resetDic then set_need 0xC0 p else p in
      set_phase LZMA2_STATE_DATA (set_sizes (packSize p) n p)
  | LzmaChunk level n k lc' lp' pb' =>
      let p := set_need 0 (set_control (0x80 + 0x20 * level + (n - 1) / 2 ^ 16) p) in
      let d := decoder p in
      let q := if 2 <=? level then {| lc := lc'; lp := lp'; pb := pb'; dicSize := dicSize (prop d) |} else prop d in
      set_phase LZMA2_STATE_DATA (set_sizes k n (set_decoder (set_prop q d) p))
  end.

(** ** Reading a header *)

Lemma lor_add_low n x y : 0 <= n -> 0 <= x < 2 ^ n -> 0 <= y -> (y * 2 ^ n) ||| x = y * 2 ^ n + x.
Proof.
  intros Hn Hx Hy. rewrite Z.lor_comm, <-Z.shiftl_mul_pow2 by done. rewrite lor_shiftl_add by done.
  rewrite Z.shiftl_mul_pow2 by done. lia.
Qed.

(** The two bytes of a size on top of [hi]. *)
Lemma size_read hi n :
  0 <= hi < 2 ^ 5 -> 1 <= n <= 2 ^ 16 ->
  u32 ((((hi <<< 16) ||| (((n - 1) / 256 mod 256) <<< 8)) ||| ((n - 1) mod 256)) + 1) = hi * 2 ^ 16 + n.
Proof.
  intros Hhi Hn. pose proof (Z.mod_pos_bound (n - 1) 256 ltac:(lia)).
  pose proof (Z.div_mod (n - 1) 256 ltac:(lia)).
  assert (0 <= (n - 1) / 256 < 256) by (split; [apply Z.div_pos; lia|apply Z.div_lt_upper_bound; lia]).
  rewrite (Z.mod_small ((n - 1) / 256)) by lia. rewrite !Z.shiftl_mul_pow2 by lia.
  generalize dependent ((n - 1) / 256). generalize dependent ((n - 1) mod 256). intros b0 Hb0 b1 Hdiv Hb1.
  rewrite lor_add_low by lia.
  replace (hi * 2 ^ 16 + b1 * 2 ^ 8) with ((hi * 2 ^ 8 + b1) * 2 ^ 8) by lia.
  rewrite lor_add_low by lia. unfold wrap. rewrite Z.mod_small; lia.
Qed.

(** A size with its high part in the control byte. *)
Lemma long_size_read n :
  1 <= n <= 2 ^ 21 ->
  u32 (((((n - 1) / 2 ^ 16) <<< 16) ||| (((n - 1) / 256 mod 256) <<< 8) ||| ((n - 1) mod 256)) + 1) = n.
Proof.
  intros Hn. pose proof (Z.div_mod (n - 1) (2 ^ 16) ltac:(lia)). pose proof (Z.mod_pos_bound (n - 1) (2 ^ 16) ltac:(lia)).
  assert (0 <= (n - 1) / 2 ^ 16 < 2 ^ 5) by (split; [apply Z.div_pos; lia|apply Z.div_lt_upper_bound; lia]).
  set (hi := (n - 1) / 2 ^ 16) in *. set (m := (n - 1) mod 2 ^ 16 + 1).
  assert ((n - 1) mod 256 = (m - 1) mod 256) as ->.
  { replace (n - 1) with (m - 1 + (hi * 256) * 256) by lia. apply Z.mod_add. lia. }
  assert ((n - 1) / 256 mod 256 = (m - 1) / 256 mod 256) as ->.
  { replace (n - 1) with (m - 1 + (hi * 256) * 256) by lia. rewrite Z.div_add by lia. apply Z.mod_add. lia. }
  rewrite size_read by lia. lia.
Qed.

Lemma short_size_read n :
  1 <= n <= 2 ^ 16 -> u32 (((((n - 1) / 256 mod 256) <<< 8) ||| ((n - 1) mod 256)) + 1) = n.
Proof. intros Hn. pose proof (size_read 0 n ltac:(lia) Hn) as H. rewrite Z.shiftl_0_l, Z.lor_0_l in H. done. Qed.

Lemma div_size n : 1 <= n <= 2 ^ 21 -> 0 <= (n - 1) / 2 ^ 16 < 2 ^ 5.
Proof. intros. split; [apply Z.div_pos; lia|apply Z.div_lt_upper_bound; lia]. Qed.

(** The control byte of an LZMA chunk. *)
Lemma lzma_control level hi :
  0 <= level <= 3 -> 0 <= hi < 2 ^ 5 ->
  let b := 0x80 + 0x20 * level + hi in
  in_width 8 b /\ b &&& 0x1F = hi /\ ((b &&& 0x40) =? 0) = negb (2 <=? level).
Proof.
  intros Hl Hh b. assert (in_width 8 b) as Hb by (unfold in_width, b; lia). split; [done|].
  split.
  - change 0x1F with (2 ^ 5 - 1). rewrite land_ones_mod by lia. unfold b.
    replace (128 + 32 * level + hi) with (hi + (4 + level) * 2 ^ 5) by lia. rewrite Z.mod_add by lia. by apply Z.mod_small.
  - rewrite prop_control by (done || unfold b; lia). unfold b.
    destruct (Z.leb_spec 2 level), (Z.ltb_spec (128 + 32 * level + hi) 192); (done || lia).
Qed.

(** The steps of the state machine, one state at a time. *)
Section Steps.
Context (p : CLzma2Dec) (b : Z).
Local Ltac step H := intros; unfold next_state, Lzma2Dec_UpdateState; rewrite H.

Lemma next_control_lzma :
  phase p = LZMA2_STATE_CONTROL -> in_width 8 b -> 128 <= b -> needInitLevel p <= b ->
  next_state p b = set_phase LZMA2_STATE_UNPACK0
    (set_sizes (packSize p) ((b &&& 0x1F) <<< 16) (set_need 0 (set_control b p))).
Proof.
  step H. destruct (Z.eqb_spec b 0); [lia|].
  change (LZMA2_IS_UNCOMPRESSED_STATE (set_control b p)) with ((b &&& (1 <<< 7)) =? 0).
  rewrite uncompressed_control by done. destruct (Z.ltb_spec b 128); [lia|].
  cbn [needInitLevel set_control]. by destruct (Z.ltb_spec b (needInitLevel p)); [lia|].
Qed.

Lemma next_control_copy :
  phase p = LZMA2_STATE_CONTROL -> b = 1 \/ b = 2 /\ needInitLevel p <> 0xE0 ->
  next_state p b = set_phase LZMA2_STATE_UNPACK0
    (if b =? 1 then set_need 0xC0 (set_control b p) else set_control b p).
Proof.
  step H. destruct H0 as [->|[-> Hn]]; [done|]. cbn -[Z.eqb].
  by destruct (Z.eqb_spec (needInitLevel p) 0xE0).
Qed.

(** Everything else is refused. *)
Lemma next_control_error :
  phase p = LZMA2_STATE_CONTROL -> in_width 8 b -> b <> 0 -> b <> 1 ->
  (b = 2 -> needInitLevel p = 0xE0) -> (128 <= b -> b < needInitLevel p) ->
  phase (next_state p b) = LZMA2_STATE_ERROR.
Proof.
  step H. destruct (Z.eqb_spec b 0); [done|].
  change (LZMA2_IS_UNCOMPRESSED_STATE (set_control b p)) with ((b &&& (1 <<< 7)) =? 0).
  rewrite uncompressed_control by done. unfold LZMA2_CONTROL_COPY_RESET_DIC. cbn [needInitLevel set_control].
  destruct (Z.ltb_spec b 128).
  - destruct (Z.eqb_spec b 1); [done|]. destruct (Z.ltb_spec 2 b); [done|]. unfold in_width in *. rewrite (H3 ltac:(lia)). done.
  - by destruct (Z.ltb_spec b (needInitLevel p)); [|lia].
Qed.

Lemma next_unpack0 :
  phase p = LZMA2_STATE_UNPACK0 ->
  next_state p b = set_phase LZMA2_STATE_UNPACK1 (set_sizes (packSize p) (unpackSize p ||| (b <<< 8)) p).
Proof. by step H. Qed.

Lemma next_unpack1 :
  phase p = LZMA2_STATE_UNPACK1 -> in_width 8 (control p) ->
  next_state p b = set_phase (if control p <? 128 then LZMA2_STATE_DATA else LZMA2_STATE_PACK0)
    (set_sizes (packSize p) (u32 ((unpackSize p ||| b) + 1)) p).
Proof.
  step H. unfold LZMA2_IS_UNCOMPRESSED_STATE. cbn [control set_sizes]. by rewrite uncompressed_control.
Qed.

Lemma next_pack0 :
  phase p = LZMA2_STATE_PACK0 ->
  next_state p b = set_phase LZMA2_STATE_PACK1 (set_sizes (b <<< 8) (unpackSize p) p).
Proof. by step H. Qed.

Lemma next_pack1 :
  phase p = LZMA2_STATE_PACK1 ->
  next_state p b = set_phase (if (control p &&& 0x40) =? 0 then LZMA2_STATE_DATA else LZMA2_STATE_PROP)
    (set_sizes (u32 ((packSize p ||| b) + 1)) (unpackSize p) p).
Proof. by step H. Qed.

Lemma next_prop lc' lp' pb' :
  phase p = LZMA2_STATE_PROP -> 0 <= lc' -> 0 <= lp' -> lc' + lp' <= 4 -> 0 <= pb' <= 4 ->
  b = (pb' * 5 + lp') * 9 + lc' ->
  next_state p b = set_phase LZMA2_STATE_DATA
    (set_decoder (set_prop {| lc := lc'; lp := lp'; pb := pb'; dicSize := dicSize (prop (decoder p)) |} (decoder p)) p).
Proof.
  step H. subst b.
  assert (((pb' * 5 + lp') * 9 + lc') mod 9 = lc' /\ ((pb' * 5 + lp') * 9 + lc') / 9 = pb' * 5 + lp') as [-> ->].
  { rewrite Z.add_comm, Z.mod_add, Z.div_add by lia. rewrite Z.mod_small, Z.div_small by lia. lia. }
  assert ((pb' * 5 + lp') mod 5 = lp' /\ (pb' * 5 + lp') / 5 = pb') as [-> ->].
  { rewrite Z.add_comm, Z.mod_add, Z.div_add by lia. rewrite Z.mod_small, Z.div_small by lia. lia. }
  change LZMA2_LCLP_MAX with 4. destruct (Z.leb_spec (9 * 5 * 5) ((pb' * 5 + lp') * 9 + lc')); [lia|].
  destruct (Z.ltb_spec 4 (lc' + lp')); [lia|]. unfold wrap. by rewrite !Z.mod_small by lia.
Qed.
End Steps.

(** Feed one byte. *)
Ltac feed :=
  lazymatch goal with
  | |- context [fold_left next_state (?b :: ?l) ?p] =>
      change (fold_left next_state (b :: l) p) with (fold_left next_state l (next_state p b))
  end.

Lemma copy_header p resetDic n :
  let c := CopyChunk resetDic n in
  phase p = LZMA2_STATE_CONTROL -> unpackSize p = 0 -> chunk_ok c -> chunk_allowed (needInitLevel p) c ->
  fold_left next_state (chunk_bytes c) p = chunk_state p c.
Proof.
  intros c Hph Hu Hn Hneed. subst c. unfold chunk_bytes, size_bytes, chunk_state.
  feed. rewrite next_control_copy by (done || (destruct resetDic; [by left|by right])).
  feed. rewrite next_unpack0 by done.
  feed. rewrite next_unpack1 by (try done; destruct resetDic; cbn; unfold in_width; lia).
  destruct p as [st ctl need extra pk un d]. cbn in Hph, Hu. subst st un.
  pose proof (short_size_read n Hn) as Hr. set (b1 := (n - 1) / 256 mod 256) in *. set (b0 := (n - 1) mod 256) in *.
  clearbody b1 b0.
  destruct resetDic; cbn -[wrap Z.lor Z.shiftl]; change (Z.lor 0 (Z.shiftl b1 8)) with (Z.shiftl b1 8); by rewrite Hr.
Qed.

Lemma lzma_header p level n k lc' lp' pb' :
  let c := LzmaChunk level n k lc' lp' pb' in
  phase p = LZMA2_STATE_CONTROL -> chunk_ok c -> chunk_allowed (needInitLevel p) c ->
  needInitLevel p <= 0x80 + 0x20 * level ->
  fold_left next_state (chunk_bytes c) p = chunk_state p c.
Proof.
  intros c Hph (Hl & Hn & Hk & Hlc & Hlp & Hs & Hpb) _ Hneed. subst c.
  pose proof (div_size n Hn) as Hhi.
  destruct (lzma_control level _ Hl Hhi) as (Hb & Hb1 & Hb2).
  pose proof (long_size_read n Hn) as Hrn. pose proof (short_size_read k Hk) as Hrk.
  unfold chunk_bytes, chunk_state, size_bytes. cbn [app].
  set (hi := (n - 1) / 2 ^ 16) in *. clearbody hi.
  set (n1 := (n - 1) / 256 mod 256) in *. set (n0 := (n - 1) mod 256) in *.
  set (k1 := (k - 1) / 256 mod 256) in *. set (k0 := (k - 1) mod 256) in *. clearbody n1 n0 k1 k0.
  set (b := 128 + 32 * level + hi) in *.
  assert (128 <= b) as Hb128 by (unfold b; lia). assert (needInitLevel p <= b) as Hneed' by (unfold b; lia). clearbody b.
  feed. rewrite next_control_lzma by done. rewrite Hb1.
  feed. rewrite next_unpack0 by done. feed. rewrite next_unpack1 by done.
  cbn [control set_phase set_sizes set_need set_control unpackSize]. rewrite Hrn.
  destruct (Z.ltb_spec b 128); [lia|].
  feed. rewrite next_pack0 by done. feed. rewrite next_pack1 by done. cbn [control set_phase set_sizes set_need set_control packSize].
  rewrite Hrk, Hb2. destruct (2 <=? level); cbn [negb fold_left].
  - rewrite (next_prop _ _ lc' lp' pb') by (done || lia). by destruct p.
  - destruct p as [st ctl need extra pk un [ ]]. by cbn.
Qed.

Lemma fold_error l : forall p, phase p = LZMA2_STATE_ERROR -> phase (fold_left next_state l p) = LZMA2_STATE_ERROR.
Proof.
  induction l as [|b l IH]; intros p Hp; [done|]. cbn. apply IH.
  unfold next_state, Lzma2Dec_UpdateState. by rewrite Hp.
Qed.

Lemma header_fold l : forall p, bytes l -> header_ok p -> header_ok (fold_left next_state l p).
Proof.
  induction l as [|b l IH]; intros p Hl Hp; [done|]. apply Forall_cons in Hl as [Hb Hl].
  cbn. apply IH; [done|]. by apply next_state_header.
Qed.

Lemma size_bytes_bytes n : bytes (size_bytes n).
Proof.
  unfold size_bytes, bytes. repeat apply Forall_cons_2; [..|apply Forall_nil_2]; apply Z.mod_pos_bound; lia.
Qed.

Lemma chunk_bytes_bytes c : chunk_ok c -> bytes (chunk_bytes c).
Proof.
  destruct c as [|r n|lev n k lc' lp' pb']; cbn [chunk_ok chunk_bytes]; intros Hc; [byte_list| |].
  - apply Forall_cons_2; [destruct r; unfold in_width; lia|apply size_bytes_bytes].
  - destruct Hc as (Hl & Hn & Hk & Hc). pose proof (div_size n Hn).
    apply Forall_cons_2; [by apply lzma_control|].
    apply Forall_app. split; [apply size_bytes_bytes|]. apply Forall_app. split; [apply size_bytes_bytes|].
    destruct (2 <=? lev); [|apply Forall_nil_2]. apply Forall_cons_2; [unfold in_width; lia|apply Forall_nil_2].
Qed.

(** C15: The state machine reads chunk headers exactly as the table of Lzma2Dec.c says.  From
    the state between two chunks, the bytes of a header (sizes less one, big-endian, the
    properties byte only with a level that sets them) lead to the decoder with that
    control byte, those sizes and those properties, ready for the data, when the resets
    seen so far allow the chunk; a chunk that needs a reset that has not been seen leads
    to the error state, whatever bytes follow. *)
Theorem Lzma2Dec_UpdateState_headers (p : CLzma2Dec) (c : chunk) (more : list Z)
    (Hhdr : header_ok p) (Hph : phase p = LZMA2_STATE_CONTROL) (Hc : chunk_ok c) :
  (chunk_allowed (needInitLevel p) c ->
     fold_left next_state (chunk_bytes c) p = chunk_state p c /\ header_ok (chunk_state p c)) /\
  (~ chunk_allowed (needInitLevel p) c ->
     phase (fold_left next_state (chunk_bytes c ++ more) p) = LZMA2_STATE_ERROR).
Proof.
  pose proof (hd_phase _ Hhdr) as Hu. unfold header_phase in Hu. rewrite Hph in Hu.
  pose proof (hd_need _ Hhdr) as Hneed.
  split.
  - intros Ha. assert (fold_left next_state (chunk_bytes c) p = chunk_state p c) as E.
    { destruct c as [|r n|lev n k lc' lp' pb'].
      - cbn. unfold next_state, Lzma2Dec_UpdateState. by rewrite Hph.
      - by apply copy_header.
      - by apply lzma_header. }
    split; [done|]. rewrite <-E. by apply header_fold; [apply chunk_bytes_bytes|].
  - intros Ha. destruct c as [|[] n|lev n k lc' lp' pb']; cbn [chunk_allowed] in Ha; try (by destruct Ha).
    + cbn [chunk_bytes app fold_left]. apply fold_error, next_control_error; (done || unfold in_width; lia).
    + destruct Hc as (Hl & Hn & _). pose proof (div_size n Hn) as Hhi.
      destruct (lzma_control lev _ Hl Hhi) as (Hb & _ & _).
      cbn [chunk_bytes app fold_left]. apply fold_error, next_control_error; (done || lia).
Qed.

(** ** Allocation *)

Lemma LzmaProps_Decode_5 d1 d2 d3 d4 :
  LzmaProps_Decode [4; d1; d2; d3; d4] =
    let d := d1 ||| (d2 <<< 8) ||| (d3 <<< 16) ||| (d4 <<< 24) in
    Some (SZ_OK, Some {| lc := 4; lp := 0; pb := 0; dicSize := if d <? LZMA_DIC_MIN then LZMA_DIC_MIN else d |}).
Proof. reflexivity. Qed.

Lemma GetOldProps_ok prop :
  in_width 8 prop ->
  if prop <=? 40 then
    exists data, Lzma2Dec_GetOldProps prop = (SZ_OK, data) /\ bytes data /\
      LzmaProps_Decode data = Some (SZ_OK, Some {| lc := 4; lp := 0; pb := 0;
        dicSize := if prop =? 40 then 2 ^ 32 - 1 else (2 + prop mod 2) * 2 ^ (prop / 2 + 11) |})
  else Lzma2Dec_GetOldProps prop = (SZ_ERROR_UNSUPPORTED, []).
Proof.
  intros Hp. unfold Lzma2Dec_GetOldProps. destruct (Z.leb_spec prop 40), (Z.ltb_spec 40 prop); try lia; [|done].
  set (dic := if prop =? 40 then 0xFFFFFFFF else LZMA2_DIC_SIZE_FROM_PROP prop).
  eexists. split; [reflexivity|].
  split; [unfold bytes; repeat apply Forall_cons_2; [..|apply Forall_nil_2]; apply wrap_in_width; lia|].
  assert (2 ^ 12 <= dic < 2 ^ 32 /\ dic = if prop =? 40 then 2 ^ 32 - 1 else (2 + prop mod 2) * 2 ^ (prop / 2 + 11)) as [Hd <-].
  { unfold dic. assert (forall x, 0 <= x < 40 ->
      (2 ^ 12 <=? LZMA2_DIC_SIZE_FROM_PROP x) && (LZMA2_DIC_SIZE_FROM_PROP x <? 2 ^ 32) &&
      (LZMA2_DIC_SIZE_FROM_PROP x =? (2 + x mod 2) * 2 ^ (x / 2 + 11)) = true) as Hall
      by (apply (forall_range _ 40); reflexivity).
    unfold in_width in Hp. destruct (Z.eqb_spec prop 40); [lia|]. specialize (Hall prop ltac:(lia)). lia. }
  change (u8 LZMA2_LCLP_MAX) with 4. rewrite LzmaProps_Decode_5. cbv zeta.
  pose proof (le_bytes_4 dic ltac:(lia)) as Hle.
  unfold wrap. rewrite !Z.shiftr_div_pow2 by lia.
  change (2 ^ 8) with 256. replace (dic / 2 ^ 16) with (dic / 256 / 256) by (rewrite Z.div_div by lia; done).
  replace (dic / 2 ^ 24) with (dic / 256 / 256 / 256) by (rewrite !Z.div_div by lia; done).
  rewrite Hle. destruct (Z.ltb_spec dic LZMA_DIC_MIN) as [Hlt|]; [|done]. change LZMA_DIC_MIN with (2 ^ 12) in Hlt. lia.
Qed.

(** The fields of a CLzma2Dec whose LZMA decoder was allocated for [lc + lp = 4]. *)
Lemma Init_wf2 p :
  raw_ok (decoder p) -> 0 <= lc (prop (decoder p)) -> 0 <= lp (prop (decoder p)) ->
  lc (prop (decoder p)) + lp (prop (decoder p)) <= 4 -> 0 <= pb (prop (decoder p)) <= 4 ->
  1 <= dicSize (prop (decoder p)) < 2 ^ 32 -> 14272 <= Z.of_nat (cap (decoder p)) ->
  bytes (dic (decoder p)) -> 1 <= dicBufSize (decoder p) < 2 ^ 63 ->
  wf2 (Lzma2Dec_Init p).
Proof.
  intros [] ? ? ? ? ? ? ? ?. split; (constructor; [|done]); [by right; right|].
  constructor; cbn; try done; try lia; unfold window_ok, dicBufSize in *; cbn; lia.
Qed.

(** Any decoder in use may be initialised again. *)
Lemma wf2_Init p : wf2 p -> wf2 (Lzma2Dec_Init p).
Proof. intros [_ [[] _]]. by apply Init_wf2. Qed.

Lemma Lzma2_Allocate_ok A prop p :
  alloc_laws A -> in_width 8 prop -> bytes (dic (decoder p)) -> raw_ok (decoder p) ->
  exists p' res, Lzma2Dec_Allocate A prop p = Some (p', res) /\
    match res with
    | SZ_OK =>
        prop <= 40 /\ wf2 (Lzma2Dec_Init p') /\
        dicSize (LzmaDec.prop (decoder p')) = (if prop =? 40 then 2 ^ 32 - 1 else (2 + prop mod 2) * 2 ^ (prop / 2 + 11)) /\
        dicSize (LzmaDec.prop (decoder p')) <= dicBufSize (decoder p')
    | SZ_ERROR_UNSUPPORTED => 40 < prop /\ p' = p
    | SZ_ERROR_MEM => prop <= 40 /\ probs (coder (decoder p')) = []
    | _ => False
    end.
Proof.
  intros HA Hp Hd Hr. unfold Lzma2Dec_Allocate. pose proof (GetOldProps_ok prop Hp) as Hg.
  destruct (Z.leb_spec prop 40).
  - destruct Hg as (data & -> & Hdata & Hdec). cbn [not_ok].
    destruct (LzmaDec_Allocate_ok A data (decoder p) HA Hdata Hd Hr) as (d & res & -> & Hres). opt.
    eexists _, res. split; [reflexivity|]. rewrite Hdec in Hres.
    destruct res; try done.
    + destruct Hres as ([= Hq] & [H1 H2 H3 H4 H5] & H6 & _). cbn [decoder set_decoder]. rewrite <-Hq in *.
      split; [done|]. split; [|split; [done|lia]].
      unfold props_range in H2. cbn [lc lp pb dicSize] in H2.
      change (LzmaProps_GetNumProbs _) with 14272 in H5.
      apply Init_wf2; cbn [decoder set_decoder]; rewrite <-?Hq; cbn [lc lp pb dicSize]; (done || lia).
    + by destruct Hres.
    + by destruct Hres.
  - rewrite Hg. cbn. eexists _, _. by split.
Qed.

(** ** Lzma2Dec_DecodeToBuf *)

#[export] Instance Lzma2Dec_laws : DicDecoderLaws CLzma2Dec.
Proof.
  refine {| dd_ok := wf2; dd_same p q := dicSize (prop (decoder q)) = dicSize (prop (decoder p)) /\
              dicBufSize (decoder q) = dicBufSize (decoder p) |}.
  - split; [by intros p|]. intros p q r [] []. split; congruence.
  - intros p [_ [Hs _]]. split; [apply Hs|]. split; apply Hs.
  - intros p q [Hp Hs]. by split.
  - intros p [Hh [Hs Hp]] Hd Hds. split; [|by split].
    assert (shell (wrap_pos (decoder p))) as Hs'.
    { destruct Hs. constructor; try done.
      - unfold window_ok in *. cbn [wrap_pos set_dic checkDicSize processedPos prop dicPos].
        change (dicBufSize (wrap_pos (decoder p))) with (dicBufSize (decoder p)).
        destruct (checkDicSize (decoder p) =? 0); [|done]. destruct sh_window as [? _]. split; [done|by left].
      - cbn. change (dicBufSize (wrap_pos (decoder p))) with (dicBufSize (decoder p)). lia. }
    assert (kept (decoder p) -> kept (wrap_pos (decoder p))) as Hk by (intros []; by constructor).
    split; [by constructor; apply Hh|]. constructor; [exact Hs'|]. unfold decoder_phase in *. cbn.
    destruct (phase p); try done; try (intros; apply Hk; auto; done).
    destruct (control p <? 128); [intros; apply Hk; auto|]. by apply wrap_wf.
  - intros p lim src m Hw Hlim Hsrc.
    destruct (Lzma2_DecodeToDic_ok p lim src m Hw Hlim Hsrc) as ([[[p' n] res] st] & Ho & H1 & H2 & H3 & H4 & H5).
    exists p', n, res, st. split; [done|]. split; [done|].
    split; [split; [apply H2|unfold dicBufSize; cbn; by rewrite (fl_size _ _ H2)]|].
    split; [apply H2|]. split; [done|]. split; [done|].
    destruct res, st; cbn in H5; try done; try (by left); right; (split; [done|]);
      first [left; apply H5 | right; by left | right; right; by split].
Defined.

Lemma buf2_window_ok mode d outSize :
  exists lim m, buf2_window mode d outSize = (lim, m) /\ lim = Z.min (dicBufSize d) (dicPos d + outSize).
Proof.
  unfold buf2_window. destruct (Z.leb_spec outSize (dicBufSize d - dicPos d)); eexists _, _; (split; [reflexivity|lia]).
Qed.

Lemma Lzma2_DecodeToBuf_ok p outSize src mode :
  wf2 p -> dicSize (prop (decoder p)) <= dicBufSize (decoder p) -> 0 <= outSize -> bytes src ->
  exists p' dest n res st, Lzma2Dec_DecodeToBuf p outSize src mode = Some (p', dest, n, res, st) /\
    wf2 p' /\ dicSize (prop (decoder p')) = dicSize (prop (decoder p)) /\
    dicBufSize (decoder p') = dicBufSize (decoder p) /\
    Z.of_nat (length dest) <= outSize /\ bytes dest /\ 0 <= n <= Z.of_nat (length src) /\
    buf_status src outSize dest n res st.
Proof.
  intros Hw Hd Ho Hs.
  destruct (@decode_to_buf_ok CLzma2Dec Lzma2Dec_decoder (buf2_window mode) Lzma2Dec_laws (buf2_window_ok mode)
    src Hs p outSize Hd Hw Ho) as (p' & dest & n & res & st & He & [H1 [H2 H3] H4 H5 H6] & Hst).
  exists p', dest, n, res, st. by do 7 (split; [done|]).
Qed.

(** ** Theorems *)

(** A small decoder: a dictionary of 4 KiB and room for [lc + lp = 4]. *)
Definition example_mem : CLzma2Dec :=
  {| phase := LZMA2_STATE_CONTROL; control := 0; needInitLevel := 0; isExtraMode := false;
     packSize := 0; unpackSize := 0;
     decoder := set_coder (set_probs (replicate (Z.to_nat 14272) 0) (coder example_start)) example_start |}.

Definition example2 : CLzma2Dec := Lzma2Dec_Init example_mem.

Lemma example_mem_dic : dicBufSize (decoder example_mem) = 4096.
Proof. unfold dicBufSize, example_mem, example_start. cbn [decoder dic set_coder]. rewrite length_replicate. lia. Qed.

Lemma example_mem_raw : raw_ok (decoder example_mem).
Proof. pose proof (wf_raw _ example_start_wf) as []. by constructor. Qed.

Lemma example2_wf : wf2 example2.
Proof.
  apply Init_wf2; try (cbn; lia); [apply example_mem_raw| |apply bytes_zeros|rewrite example_mem_dic; lia].
  unfold example_mem. cbn [decoder coder set_coder set_probs probs]. rewrite length_replicate. lia.
Qed.

Lemma zero_alloc_no_mem props p r :
  LzmaDec_Allocate zero_alloc props p = Some r -> r.2 = SZ_ERROR_MEM -> False.
Proof.
  unfold LzmaDec_Allocate, LzmaDec_AllocateProbs2. destruct (LzmaProps_Decode props) as [[res [q|]]|] eqn:Hd; [| |done]; opt.
  - intros H Hr. repeat (case_match; simplify_eq; try done).
  - intros [= <-]. cbn. intros ->. unfold LzmaProps_Decode in Hd.
    repeat (simplify_option_eq; case_match); simplify_option_eq.
Qed.

Lemma Lzma2Dec_UpdateState_headers_witness :
  phase (fold_left next_state [0x80 + 0x20 * 3; 0x00; 0x09; 0x00; 0x63; 93] example2) = LZMA2_STATE_DATA /\
  phase (fold_left next_state [2; 0; 9; 7] example2) = LZMA2_STATE_ERROR.
Proof.
  destruct (Lzma2Dec_UpdateState_headers example2 (LzmaChunk 3 10 100 3 0 2) [] (proj1 example2_wf) eq_refl
    ltac:(cbn; lia)) as [H1 _].
  destruct (Lzma2Dec_UpdateState_headers example2 (CopyChunk false 10) [7] (proj1 example2_wf) eq_refl
    ltac:(cbn; lia)) as [_ H2].
  split.
  - destruct (H1 ltac:(cbn; lia)) as [E _]. exact (f_equal phase E).
  - apply H2. cbn. intros H. by apply H.
Defined.

(** C12: From any well-formed LZMA2 decoder, for any input and any limit inside the
    dictionary buffer, Lzma2Dec_DecodeToDic returns (it cannot loop on empty chunks and
    never leaves a buffer).  It leaves a well-formed decoder, writes only between the old
    and the new position, stays under the limit, takes no more than the input, and its
    result is one of those Lzma2Dec.h lists, with the status it describes. *)
Theorem Lzma2Dec_DecodeToDic_safe (p : CLzma2Dec) (dicLimit : Z) (src : list Z) (mode : ELzmaFinishMode)
    (Hwf : wf2 p) (Hlim : dicPos (decoder p) <= dicLimit <= dicBufSize (decoder p)) (Hsrc : bytes src) :
  exists p' consumed res status,
    Lzma2Dec_DecodeToDic p dicLimit src mode = Some (p', consumed, res, status) /\
    wf2 p' /\ dicSize (prop (decoder p')) = dicSize (prop (decoder p)) /\
    dicBufSize (decoder p') = dicBufSize (decoder p) /\
    dicPos (decoder p) <= dicPos (decoder p') <= dicLimit /\
    (forall i, i < dicPos (decoder p) \/ dicPos (decoder p') <= i ->
       rd (dic (decoder p')) i = rd (dic (decoder p)) i) /\
    0 <= consumed <= Z.of_nat (length src) /\
    result2_ok dicLimit src mode (p', consumed, res, status).
Proof.
  destruct (Lzma2_DecodeToDic_ok p dicLimit src mode Hwf Hlim Hsrc) as ([[[p' n] res] st] & Ho & H1 & [F1 F2 F3 F4] & H3 & H4 & H5).
  exists p', n, res, st. unfold dicBufSize. rewrite F2. split_and!; (done || lia).
Qed.

Lemma Lzma2Dec_DecodeToDic_safe_witness :
  exists p' consumed res status,
    Lzma2Dec_DecodeToDic example2 4096 [1; 0; 1; 65; 66; 0] LZMA_FINISH_ANY = Some (p', consumed, res, status) /\
    wf2 p' /\ 0 <= consumed <= 6.
Proof.
  destruct (Lzma2Dec_DecodeToDic_safe example2 4096 [1; 0; 1; 65; 66; 0] LZMA_FINISH_ANY example2_wf
    ltac:(change (dicBufSize (decoder example2)) with (dicBufSize (decoder example_mem)); rewrite example_mem_dic; cbn; lia)
    ltac:(byte_list)) as (p' & n & r & st & H1 & H2 & _ & _ & _ & _ & H3 & _).
  exists p', n, r, st. split; [exact H1|]. split; [exact H2|exact H3].
Defined.

(** The calls a client may make of an initialised decoder. *)
Inductive lzma2_call : CLzma2Dec -> CLzma2Dec -> Prop :=
  | call_init p : lzma2_call p (Lzma2Dec_Init p)
  | call_dic p lim src mode p' n res st :
      dicPos (decoder p) <= lim <= dicBufSize (decoder p) -> bytes src ->
      Lzma2Dec_DecodeToDic p lim src mode = Some (p', n, res, st) -> lzma2_call p p'
  | call_buf p outSize src mode p' dest n res st :
      0 <= outSize -> bytes src ->
      Lzma2Dec_DecodeToBuf p outSize src mode = Some (p', dest, n, res, st) -> lzma2_call p p'.

Lemma lzma2_call_ok p q :
  lzma2_call p q -> wf2 p /\ dicSize (prop (decoder p)) <= dicBufSize (decoder p) ->
  wf2 q /\ dicSize (prop (decoder q)) <= dicBufSize (decoder q).
Proof.
  intros Hc [Hw Hs]. destruct Hc as [p|p lim src mode p' n res st Hl Hb Ho|p outSize src mode p' dest n res st Hz Hb Ho].
  - split; [by apply wf2_Init|done].
  - destruct (Lzma2_DecodeToDic_ok p lim src mode Hw Hl Hb) as (o & Ho' & Hok). rewrite Ho in Ho'. injection Ho' as <-.
    destruct Hok as (H1 & [F1 F2 _ _] & _). split; [done|]. unfold dicBufSize in *. rewrite F1, F2. done.
  - destruct (Lzma2_DecodeToBuf_ok p outSize src mode Hw Hs Hz Hb) as (p1 & d1 & n1 & r1 & s1 & Ho' & H1 & H2 & H3 & _).
    rewrite Ho in Ho'. injection Ho' as <- <- <- <- <-. split; [done|]. lia.
Qed.

(** C10: A decoder that Lzma2Dec_Allocate made and Lzma2Dec_Init prepared stays
    well-formed through any sequence of calls with any inputs (decoding into the
    dictionary, into buffers, initialising again, after errors too), and in every state
    so reached the next call returns. *)
Theorem Lzma2Dec_reachable (A : allocator) (dicProp : Z) (mem p0 p : CLzma2Dec)
    (HA : alloc_laws A) (Hprop : in_width 8 dicProp) (Hdic : bytes (dic (decoder mem))) (Hraw : raw_ok (decoder mem))
    (Halloc : Lzma2Dec_Allocate A dicProp mem = Some (p0, SZ_OK))
    (Hcalls : rtc lzma2_call (Lzma2Dec_Init p0) p) :
  wf2 p /\
  (forall lim src mode, dicPos (decoder p) <= lim <= dicBufSize (decoder p) -> bytes src ->
     is_Some (Lzma2Dec_DecodeToDic p lim src mode)) /\
  (forall outSize src mode, 0 <= outSize -> bytes src -> is_Some (Lzma2Dec_DecodeToBuf p outSize src mode)).
Proof.
  destruct (Lzma2_Allocate_ok A dicProp mem HA Hprop Hdic Hraw) as (p' & res & H & Hres).
  rewrite Halloc in H. injection H as <- <-. destruct Hres as (_ & Hw & _ & Hs).
  assert (wf2 p /\ dicSize (prop (decoder p)) <= dicBufSize (decoder p)) as [Hwp Hsp].
  { clear Halloc. remember (Lzma2Dec_Init p0) as q eqn:Eq.
    assert (wf2 q /\ dicSize (prop (decoder q)) <= dicBufSize (decoder q)) as Hq by (subst q; by split).
    clear Eq Hw Hs. induction Hcalls as [|x y z Hxy _ IH]; [done|]. apply IH. by apply (lzma2_call_ok x). }
  split; [done|]. split.
  - intros lim src mode Hl Hb. destruct (Lzma2_DecodeToDic_ok p lim src mode Hwp Hl Hb) as (o & -> & _). done.
  - intros outSize src mode Hz Hb.
    destruct (Lzma2_DecodeToBuf_ok p outSize src mode Hwp Hsp Hz Hb) as (p1 & d1 & n1 & r1 & s1 & -> & _). done.
Qed.

Lemma Lzma2Dec_reachable_witness :
  exists p0, Lzma2Dec_Allocate zero_alloc 0 example_mem = Some (p0, SZ_OK) /\ wf2 (Lzma2Dec_Init (Lzma2Dec_Init p0)).
Proof.
  destruct (Lzma2_Allocate_ok zero_alloc 0 example_mem zero_alloc_laws ltac:(unfold in_width; lia)
    (bytes_zeros _) example_mem_raw) as (p0 & res & H & Hres).
  exists p0. destruct res; try (exfalso; exact Hres).
  - split; [exact H|].
    apply (Lzma2Dec_reachable zero_alloc 0 example_mem p0 _ zero_alloc_laws ltac:(unfold in_width; lia)
      (bytes_zeros _) example_mem_raw H).
    eapply rtc_l; [apply call_init|apply rtc_refl].
  - exfalso. unfold Lzma2Dec_Allocate in H. destruct (Lzma2Dec_GetOldProps 0) as [r props] eqn:Hg.
    pose proof (GetOldProps_ok 0 ltac:(unfold in_width; lia)) as (d & Hd & _). rewrite Hd in Hg. injection Hg as <- <-.
    cbn [not_ok] in H. destruct (LzmaDec_Allocate zero_alloc d (decoder example_mem)) as [[q r]|] eqn:Hal; [|discriminate].
    cbn in H. injection H as _ ->. by apply (zero_alloc_no_mem _ _ _ Hal).
  - exfalso. lia.
Defined.

(** C29: Lzma2Dec_Parse always returns: it takes at most the input and skips at most
    [outSize] bytes of output, moving only [decoder.dicPos] by as much; the state machine
    stays consistent; its status is one of those Lzma2Dec.h lists and means what is said
    there (a new block or chunk stands at a header just read, more input is asked for only
    when all was taken, NOT_FINISHED only when the output is used up). *)
Theorem Lzma2Dec_Parse_total (p : CLzma2Dec) (outSize : Z) (src : list Z) (checkFinishBlock : bool)
    (Hhdr : header_ok p) (Hpos : in_width 64 (dicPos (decoder p))) (Hout : 0 <= outSize) (Hsrc : bytes src) :
  exists p' consumed status k,
    Lzma2Dec_Parse p outSize src checkFinishBlock = Some (p', consumed, status) /\
    header_ok p' /\ 0 <= k <= outSize /\ skipped k (decoder p) (decoder p') /\
    0 <= consumed <= Z.of_nat (length src) /\ status_ok src (outSize - k) (p', consumed, status).
Proof. by apply Parse_ok. Qed.

Lemma Lzma2Dec_Parse_total_witness :
  exists p' consumed status k,
    Lzma2Dec_Parse example2 100 [1; 0; 1; 65; 66; 0] true = Some (p', consumed, status) /\ 0 <= k <= 100.
Proof.
  destruct (Lzma2Dec_Parse_total example2 100 [1; 0; 1; 65; 66; 0] true (proj1 example2_wf)
    ltac:(cbn; unfold in_width; lia) ltac:(lia) ltac:(byte_list)) as (p' & n & st & k & H1 & _ & H2 & _).
  exists p', n, st, k. split; [exact H1|exact H2].
Defined.



(** C34: Lzma2Dec_DecodeToBuf always returns, however often the position wraps around the
    dictionary: at most [outSize] bytes of output, no more input taken than given, the
    decoder well-formed for the next call; with SZ_OK and less output than asked for, the
    end mark was found or all the input was used. *)
Theorem Lzma2Dec_DecodeToBuf_complete (p : CLzma2Dec) (outSize : Z) (src : list Z) (mode : ELzmaFinishMode)
    (Hwf : wf2 p) (Hdic : dicSize (prop (decoder p)) <= dicBufSize (decoder p)) (Hout : 0 <= outSize)
    (Hsrc : bytes src) :
  exists p' dest n res status,
    Lzma2Dec_DecodeToBuf p outSize src mode = Some (p', dest, n, res, status) /\
    wf2 p' /\ Z.of_nat (length dest) <= outSize /\ bytes dest /\ 0 <= n <= Z.of_nat (length src) /\
    (res = SZ_ERROR_DATA \/
     res = SZ_OK /\ (Z.of_nat (length dest) = outSize \/ status = LZMA_STATUS_FINISHED_WITH_MARK \/
                     status = LZMA_STATUS_NEEDS_MORE_INPUT /\ n = Z.of_nat (length src))).
Proof.
  destruct (Lzma2_DecodeToBuf_ok p outSize src mode Hwf Hdic Hout Hsrc)
    as (p' & dest & n & res & st & H1 & H2 & _ & _ & H3 & H4 & H5 & H6).
  exists p', dest, n, res, st. by do 5 (split; [done|]).
Qed.

Lemma Lzma2Dec_DecodeToBuf_complete_witness :
  exists p' dest n res status,
    Lzma2Dec_DecodeToBuf example2 5000 [1; 0; 1; 65; 66; 0] LZMA_FINISH_ANY = Some (p', dest, n, res, status) /\
    Z.of_nat (length dest) <= 5000.
Proof.
  destruct (Lzma2Dec_DecodeToBuf_complete example2 5000 [1; 0; 1; 65; 66; 0] LZMA_FINISH_ANY example2_wf
    ltac:(change (dicBufSize (decoder example2)) with (dicBufSize (decoder example_mem)); rewrite example_mem_dic; cbn; lia)
    ltac:(lia) ltac:(byte_list)) as (p' & dest & n & res & st & H1 & _ & H2 & _).
  exists p', dest, n, res, st. split; [exact H1|exact H2].
Defined.

Lemma AllocateProbs_ok A prop p :
  alloc_laws A -> in_width 8 prop -> raw_ok (decoder p) ->
  exists p' res, Lzma2Dec_AllocateProbs A prop p = Some (p', res) /\
    match res with
    | SZ_OK => raw_ok (decoder p') /\ lc (LzmaDec.prop (decoder p')) = 4 /\ lp (LzmaDec.prop (decoder p')) = 0 /\
        pb (LzmaDec.prop (decoder p')) = 0 /\ 1 <= dicSize (LzmaDec.prop (decoder p')) < 2 ^ 32 /\
        14272 <= Z.of_nat (cap (decoder p'))
    | SZ_ERROR_UNSUPPORTED => 40 < prop
    | SZ_ERROR_MEM => prop <= 40
    | _ => False
    end.
Proof.
  intros HA Hp Hr. unfold Lzma2Dec_AllocateProbs. pose proof (GetOldProps_ok prop Hp) as Hg.
  destruct (Z.leb_spec prop 40).
  - destruct Hg as (data & -> & Hdata & Hdec). cbn [not_ok]. unfold LzmaDec_AllocateProbs.
    destruct (LzmaProps_Decode_ok data Hdata) as (res & o & Hd & Ho). rewrite Hd in Hdec |- *.
    injection Hdec as -> ->. destruct Ho as [_ Hq]. opt. set (q := {| lc := 4; lp := 0; pb := 0; dicSize := _ |}) in *.
    destruct (AllocateProbs2_ok A q (decoder p) HA Hq) as (d & res & -> & Hd1 & Hq1 & Hr1 & Hres). specialize (Hr1 Hr).
    destruct res; try done; cbn [not_ok]; opt; eexists _, _; (split; [reflexivity|]); [|done].
    cbn [decoder set_decoder]. destruct Hr1. destruct Hq as (_ & _ & _ & Hq).
    split; [by constructor|]. do 3 (split; [done|]). cbn [set_prop LzmaDec.prop]. split; [lia|].
    change (LzmaProps_GetNumProbs q) with 14272 in Hres. cbn. lia.
  - rewrite Hg. cbn. eexists _, _. by split.
Qed.

(** C31: Lzma2Decode of one block always returns one of the results Lzma2Dec.h lists; the
    output buffer is written only up to [*destLen], no more input is taken than given, and
    success means the end mark was found, or the whole output was produced and the caller
    did not ask for the end: running out of input is never success. *)
Theorem Lzma2Decode_complete (A : allocator) (mem : CLzma2Dec) (dest src : list Z) (dicProp : Z)
    (mode : ELzmaFinishMode)
    (HA : alloc_laws A) (Hmem : raw_ok (decoder mem)) (Hdest : bytes dest) (Hsrc : bytes src)
    (Hprop : in_width 8 dicProp) (Hlen : 1 <= Z.of_nat (length dest) < 2 ^ 63) :
  exists dest' destLen srcLen res status,
    Lzma2Decode A mem dest src dicProp mode = Some (dest', destLen, srcLen, res, status) /\
    length dest' = length dest /\ 0 <= destLen <= Z.of_nat (length dest) /\
    (forall i, destLen <= i -> rd dest' i = rd dest i) /\
    0 <= srcLen <= Z.of_nat (length src) /\
    match res with
    | SZ_OK => status = LZMA_STATUS_FINISHED_WITH_MARK \/
               status = LZMA_STATUS_NOT_FINISHED /\ destLen = Z.of_nat (length dest) /\ mode = LZMA_FINISH_ANY
    | SZ_ERROR_INPUT_EOF => status = LZMA_STATUS_NEEDS_MORE_INPUT /\ srcLen = Z.of_nat (length src)
    | SZ_ERROR_DATA | SZ_ERROR_MEM => status = LZMA_STATUS_NOT_SPECIFIED
    | SZ_ERROR_UNSUPPORTED => 40 < dicProp
    | _ => False
    end.
Proof.
  unfold Lzma2Decode.
  destruct (AllocateProbs_ok A dicProp (Lzma2Dec_Construct mem) HA Hprop) as (p & res & -> & Hres);
    [destruct Hmem; by constructor|]. opt.
  destruct res; try done; cbn [not_ok].
  2,3: eexists _, 0, 0, _, _; split; [reflexivity|]; split_and!; (done || lia).
  destruct Hres as ([] & H1 & H2 & H3 & H4 & H5).
  set (q := set_decoder (set_dic_buf dest (decoder p)) p).
  assert (wf2 (Lzma2Dec_Init q)) as Hw.
  { apply Init_wf2; unfold q; cbn [decoder set_decoder]; try done; cbn; rewrite ?H1, ?H2, ?H3; try lia; by constructor. }
  destruct (Lzma2_DecodeToDic_ok (Lzma2Dec_Init q) (Z.of_nat (length dest)) src mode Hw) as ([[[p' n] res] st] & -> & H6 & [F1 F2 F3 F4] & H8 & H9 & H10);
    [unfold dicBufSize; cbn; lia|done|].
  opt. cbn in F2, F3, F4. eexists _, _, _, _, _. split; [reflexivity|]. split; [done|]. split; [lia|].
  split; [intros i Hi; apply F4; lia|]. split; [lia|].
  destruct res, st; cbn in H10 |- *; try done; [by left|right].
  split; [done|apply H10].
Qed.

Lemma Lzma2Decode_complete_witness :
  exists dest' destLen srcLen res status,
    Lzma2Decode zero_alloc example_mem [7; 7; 7] [1; 0; 1; 65; 66; 0] 0 LZMA_FINISH_END
      = Some (dest', destLen, srcLen, res, status) /\ length dest' = 3%nat.
Proof.
  destruct (Lzma2Decode_complete zero_alloc example_mem [7; 7; 7] [1; 0; 1; 65; 66; 0] 0 LZMA_FINISH_END
    zero_alloc_laws example_mem_raw ltac:(byte_list) ltac:(byte_list) ltac:(unfold in_width; lia) ltac:(cbn; lia))
    as (d & dl & sl & res & st & H1 & H2 & _).
  exists d, dl, sl, res, st. split; [exact H1|exact H2].
Defined.
