(* ===== verification/Bra.v ===== *)
(** * Branch converters for RISC code

    src/native/sevenzip_bridge/7z2604-src/C/Bra.c: ARM64, ARM, PPC, SPARC (instructions
    of four aligned bytes), ARMT (pairs of halfwords) and IA64 (bundles of 16 bytes);
    RISC-V is in BraRiscv.v.
    [data] is the buffer from the pointer the function was given, [p] an offset in it;
    [BR_PC_GET] is the program counter at that offset. *)

From stdpp Require Import base numbers list list_numbers.
From Stdlib Require Import ZArith Lia.
From S2P Require Import Prelude.
Local Open Scope Z_scope.
Local Open Scope word_scope.

(** ** Memory *)

(** [GetUi32(p)], [SetUi32(p, v)] and the 16-bit ones, little-endian. *)
Definition GetUi32 (l : list Z) (p : Z) : option Z :=
  if p <? 0 then None else b ← slice l (Z.to_nat p) 4; Some (le_load b).
Definition SetUi32 (l : list Z) (p v : Z) : option (list Z) :=
  if p <? 0 then None else blit l (Z.to_nat p) (le_bytes 4 v).
Definition GetUi16 (l : list Z) (p : Z) : option Z :=
  if p <? 0 then None else b ← slice l (Z.to_nat p) 2; Some (le_load b).
Definition SetUi16 (l : list Z) (p v : Z) : option (list Z) :=
  if p <? 0 then None else blit l (Z.to_nat p) (le_bytes 2 v).

Definition Z7_BSWAP32 (v : Z) : Z := le_load (rev (le_bytes 4 v)).
Definition GetBe32 (l : list Z) (p : Z) : option Z := v ← GetUi32 l p; Some (Z7_BSWAP32 v).
Definition SetBe32 (l : list Z) (p v : Z) : option (list Z) := SetUi32 l p (Z7_BSWAP32 v).

Definition rotlFixed (x n : Z) : Z := u32 (x <<< n) ||| (x >>> (32 - n)).
Definition rotrFixed (x n : Z) : Z := (x >>> n) ||| u32 (x <<< (32 - n)).

(** [BR_CONVERT_VAL] *)
Definition BR_CONVERT_VAL (encoding : bool) (v c : Z) : Z := u32 (if encoding then v + c else v - c).

Definition BR_PC_GET (pc p : Z) : Z := u32 (pc + p).

(** ** Instructions of four bytes

    [Some] is the instruction to store, [None] leaves it alone; [c] is [BR_PC_GET] after
    the instruction, which [pc] was adjusted for. *)

Definition ARM64_flag : Z := 1 <<< (24 - 4).
Definition ARM64_mask : Z := (1 <<< 24) - (ARM64_flag <<< 1).

Definition ARM64_instr (encoding : bool) (pc v : Z) : option Z :=
  if (u32 (v - 0x94000000) &&& 0xfc000000) =? 0 then
    let c := pc >>> 2 in
    let v := BR_CONVERT_VAL encoding v c in
    let v := v &&& 0x03ffffff in
    Some (v ||| 0x94000000)
  else
    let v := u32 (v - 0x90000000) in
    if (v &&& 0x9f000000) =? 0 then
      let v := u32 (v + ARM64_flag) in
      if negb ((v &&& ARM64_mask) =? 0) then None
      else
        let z := (v &&& 0xffffffe0) ||| (v >>> 26) in
        let c := (pc >>> (12 - 3)) &&& u32 (Z.lnot 7) in
        let z := BR_CONVERT_VAL encoding z c in
        let v := v &&& 0x1f in
        let v := v ||| 0x90000000 in
        let v := v ||| u32 (z <<< 26) in
        Some (v ||| (0x00ffffe0 &&& u32 ((z &&& ((ARM64_flag <<< 1) - 1)) - ARM64_flag)))
    else None.

(** [p[-1] == 0xeb]: the byte at the top. *)
Definition ARM_instr (encoding : bool) (pc v : Z) : option Z :=
  if (v >>> 24) =? 0xeb then
    let c := pc >>> 2 in
    let v := BR_CONVERT_VAL encoding v c in
    let v := v &&& 0x00ffffff in
    Some (v ||| 0xeb000000)
  else None.

Definition PPC_instr (encoding : bool) (pc v : Z) : option Z :=
  if (u32 (v - Z7_BSWAP32 0x48000001) &&& Z7_BSWAP32 0xfc000003) =? 0 then
    let v := Z7_BSWAP32 v in
    let c := pc in
    let v := BR_CONVERT_VAL encoding v c in
    let v := v &&& 0x03ffffff in
    let v := v ||| 0x48000000 in
    Some (Z7_BSWAP32 v)
  else None.

Definition SPARC_flag : Z := 1 <<< 22.

(** The version with rotations (BR_SPARC_USE_ROTATE), which x86 and ARM build. *)
Definition SPARC_instr (encoding : bool) (pc v : Z) : option Z :=
  let v := Z7_BSWAP32 v in
  let v := rotlFixed v 2 in
  let v := u32 (v + ((SPARC_flag <<< 2) - 1)) in
  if (v &&& u32 (3 - (SPARC_flag <<< 3))) =? 0 then
    let c := pc in
    let v := BR_CONVERT_VAL encoding v c in
    let v := v &&& ((SPARC_flag <<< 3) - 1) in
    let v := u32 (v - ((SPARC_flag <<< 2) - 1)) in
    let v := rotrFixed v 2 in
    Some (Z7_BSWAP32 v)
  else None.

(** The loop of the four converters: one turn per instruction. *)
Definition conv4_turn (instr : Z -> Z -> option Z) (lim pc : Z) '((data, p) : list Z * Z)
  : option (list Z * Z + list Z * Z) :=
  if p =? lim then Some (inr (data, p))
  else
    v ← GetUi32 data p;
    let p := p + 4 in
    match instr (BR_PC_GET pc p) v with
    | Some v => data ← SetUi32 data (p - 4) v; Some (inl (data, p))
    | None => Some (inl (data, p))
    end.

(** The buffer after the call and the offset returned. *)
Definition conv4 (instr : Z -> Z -> option Z) (adjust : Z) (data : list Z) (size pc : Z) : option (list Z * Z) :=
  let size := size - size mod 4 in
  loop (S (Z.to_nat size)) (conv4_turn instr size (pc + adjust)) (data, 0).

Definition BranchConv_ARM64 (encoding : bool) := conv4 (ARM64_instr encoding) (-4).
Definition BranchConv_ARM (encoding : bool) := conv4 (ARM_instr encoding) (8 - 4).
Definition BranchConv_PPC (encoding : bool) := conv4 (PPC_instr encoding) (-4).
Definition BranchConv_SPARC (encoding : bool) := conv4 (SPARC_instr encoding) (-4).

(** ** ARMT *)

(** The search for a pair, from [p] with [b1] (the byte at [p + 1]): [None] of the inner
    option is the end of the data.  The two steps of a turn of the code swap the roles of
    [b1] and [b3]. *)
Definition armt_scan (lim : Z) (data : list Z) (p b1 : Z) : option (Z + Z) :=
  loop (S (Z.to_nat (lim - p)))
    (fun '(p, b1) =>
       if lim <=? p then Some (inr (inr p))
       else
         b3 ← rd data (p + 3);
         let p := p + 2 in
         if 0xf8 <=? (b3 &&& (b1 ^^^ 8)) then Some (inr (inl p))
         else
           if lim <=? p then Some (inr (inr p))
           else
             b1 ← rd data (p + 3);
             let p := p + 2 in
             if 0xf8 <=? (b1 &&& (b3 ^^^ 8)) then Some (inr (inl p))
             else Some (inl (p, b1)))
    (p, b1).

Definition armt_value (encoding : bool) (c h0 h1 : Z) : Z :=
  BR_CONVERT_VAL encoding (u32 (h0 <<< 11) ||| (h1 &&& 0x7FF)) c.

Definition armt_turn (encoding : bool) (lim pc : Z) '((data, p) : list Z * Z)
  : option (list Z * Z + list Z * Z) :=
  b1 ← rd data (p + 1);
  r ← armt_scan lim data p b1;
  match r with
  | inr p => Some (inr (data, p))
  | inl p =>
      h0 ← GetUi16 data (p - 2);
      h1 ← GetUi16 data p;
      let p := p + 2 in
      let v := armt_value encoding (BR_PC_GET pc p >>> 1) h0 h1 in
      data ← SetUi16 data (p - 4) (u16 (((v >>> 11) &&& 0x7ff) ||| 0xf000));
      data ← SetUi16 data (p - 2) (u16 (v ||| 0xf800));
      Some (if p <? lim then inl (data, p) else inr (data, p))
  end.

Definition BranchConv_ARMT (encoding : bool) (data : list Z) (size pc : Z) : option (list Z * Z) :=
  let size := size - size mod 2 in
  if size <=? 2 then Some (data, 0)
  else
    let lim := size - 2 in
    loop (S (Z.to_nat lim)) (armt_turn encoding lim pc) (data, 0).

(** ** IA64 *)

(** A slot that holds a branch: the new value of [z], and [pc] as the code leaves it. *)
Definition ia64_value (encoding : bool) (pc z : Z) : Z * Z :=
  let v := ((0x8fffff <<< 1) ||| 1) &&& z in
  let z := z ^^^ v in
  let m22 := (0x1fffff <<< 1) ||| 1 in
  let pc := if encoding then pc &&& m22 else pc ||| u32 (Z.lnot m22) in
  let v := u32 (if encoding then v + pc else v - pc) in
  let v := v &&& u32 (Z.lnot (0x600000 <<< 1)) in
  let v := u32 (v + (0x700000 <<< 1)) in
  let v := v &&& ((0x8fffff <<< 1) ||| 1) in
  (z ||| v, pc).

(** [do ... while (m &= 3)]: the slots of a bundle from slot [m] on. *)
Definition ia64_slots (encoding : bool) (data : list Z) (p pc m : Z) : option (list Z * Z * Z) :=
  r ← do_while 4
    (fun '(data, p, pc, m) =>
       t ← GetUi32 data p;
       z ← GetUi32 data (p + 1);
       let z := z >>> m in
       let p := p + 5 in
       '(data, pc) ←
         (if ((t >>> m) &&& (0x70 <<< 1) =? 0) && (u32 (z - (0x5000000 <<< 1)) &&& (0xf000000 <<< 1) =? 0) then
            let '(z, pc) := ia64_value encoding pc z in
            data ← SetUi32 data (p + 1 - 5) (u32 (z <<< m)); Some (data, pc)
          else Some (data, pc));
       Some (data, p, pc, (m + 1) &&& 3))
    (fun '(_, _, _, m) => negb (m =? 0)) (data, p, pc, m);
  let '(data, p, pc, _) := r in Some (data, p, pc).

(** One bundle: the search loop and the slots. *)
Definition ia64_turn (encoding : bool) (lim : Z) '((data, p, pc) : list Z * Z * Z)
  : option (list Z * Z * Z + list Z * Z) :=
  if p =? lim then Some (inr (data, p))
  else
    b ← rd data p;
    let m := (0x334b0000 >>> (b &&& 0x1e)) &&& 3 in
    let p := p + 16 in
    let pc := u32 (pc + (1 <<< 1)) in
    if m =? 0 then Some (inl (data, p, pc))
    else
      '(data, p, pc) ← ia64_slots encoding data (p + m * 5 - 20) pc m;
      Some (inl (data, p, pc)).

Definition BranchConv_IA64 (encoding : bool) (data : list Z) (size pc : Z) : option (list Z * Z) :=
  let size := size - size mod 16 in
  let pc := u32 (pc - (1 <<< 4)) >>> (4 - 1) in
  loop (S (Z.to_nat size)) (ia64_turn encoding size) (data, 0, pc).
