(* ===== verification/Bra86.v ===== *)
(** * Branch converter for x86

    src/native/sevenzip_bridge/7z2604-src/C/Bra86.c: the operand of CALL and JMP (the bytes
    E8 and E9).  [mask] remembers which of the three bytes before were such bytes that were
    not converted.  The labels of the C function are definitions here, its loops one turn
    function; [data] is the buffer from the pointer the function was given, [p] an offset. *)

From stdpp Require Import base numbers list list_numbers.
From Stdlib Require Import ZArith Lia.
From S2P Require Import Prelude Bra.
Local Open Scope Z_scope.
Local Open Scope word_scope.

(** The byte is 0x00 or 0xff; bits above it do not matter. *)
Definition BR86_NEED_CONV_FOR_MS_BYTE (b : Z) : bool := ((b + 1) &&& 0xfe) =? 0.

(** [BR86_PREPARE_BCJ_SCAN] *)
Definition BR86_PREPARE_BCJ_SCAN (data : list Z) (p : Z) : option Z := v ← GetUi32 data p; Some (v ^^^ 0xe8e8e8e8).
Definition BR86_IS_BCJ_BYTE (v n : Z) : bool := (v &&& (0xfe <<< (n * 8))) =? 0.

(** Where the function goes on: [start] or [main_loop], with [data], [p], [mask]. *)
Inductive place := start | main_loop.

(** [v &= (1 << 25) - 1; v -= (1 << 24); SetUi32(p, v); p += 4; goto main_loop] *)
Definition x86_store (data : list Z) (p v mask : Z) : option (place * list Z * Z * Z + list Z * Z * Z) :=
  let v := v &&& ((1 <<< 25) - 1) in
  let v := u32 (v - (1 <<< 24)) in
  data ← SetUi32 data p v;
  Some (inl (main_loop, data, p + 4, mask)).

(** The label [a3]. *)
Definition x86_a3 (encoding : bool) (lim pc : Z) (data : list Z) (p mask : Z)
  : option (place * list Z * Z * Z + list Z * Z * Z) :=
  if lim <? p then Some (inr (data, p - 1, mask))
  else
    v ← GetUi32 data p;
    let v := u32 (v + (1 <<< 24)) in
    if negb ((v &&& 0xfe000000) =? 0) then Some (inl (start, data, p, mask ||| 4))
    else
      let c := BR_PC_GET pc p in
      let v := BR_CONVERT_VAL encoding v c in
      x86_store data p v mask.

(** What follows the label [m2]. *)
Definition x86_m2 (encoding : bool) (lim pc : Z) (data : list Z) (p mask : Z)
  : option (place * list Z * Z * Z + list Z * Z * Z) :=
  if mask =? 0 then x86_a3 encoding lim pc data p mask
  else if lim <? p then Some (inr (data, p - 1, mask))
  else if (4 <? mask) || (mask =? 3) then Some (inl (start, data, p, (mask >>> 1) ||| 4))
  else
    let mask := mask >>> 1 in
    b ← rd data (p + mask);
    if BR86_NEED_CONV_FOR_MS_BYTE b then Some (inl (start, data, p, mask ||| 4))
    else
      v ← GetUi32 data p;
      let v := u32 (v + (1 <<< 24)) in
      if negb ((v &&& 0xfe000000) =? 0) then Some (inl (start, data, p, mask ||| 4))
      else
        let c := BR_PC_GET pc p in
        let v := BR_CONVERT_VAL encoding v c in
        let mask := mask <<< 3 in
        let v := if BR86_NEED_CONV_FOR_MS_BYTE (v >>> mask)
                 then BR_CONVERT_VAL encoding (v ^^^ (u32 (0x100 <<< mask) - 1)) c else v in
        x86_store data p v 0.

Definition x86_turn (encoding : bool) (lim pc : Z) (s : place * list Z * Z * Z)
  : option (place * list Z * Z * Z + list Z * Z * Z) :=
  let '(at_, data, p, mask) := s in
  if lim <=? p then Some (inr (data, p, mask))
  else
    v ← BR86_PREPARE_BCJ_SCAN data p;
    match at_ with
    | start =>
        if BR86_IS_BCJ_BYTE v 0 then x86_m2 encoding lim pc data (p + 4 - 3) mask
        else if BR86_IS_BCJ_BYTE v 1 then x86_m2 encoding lim pc data (p + 4 - 2) (mask >>> 1)
        else if BR86_IS_BCJ_BYTE v 2 then x86_m2 encoding lim pc data (p + 4 - 1) ((mask >>> 1) >>> 1)
        else if BR86_IS_BCJ_BYTE v 3 then x86_a3 encoding lim pc data (p + 4) 0
        else Some (inl (main_loop, data, p + 4, 0))
    | main_loop =>
        if BR86_IS_BCJ_BYTE v 0 then x86_a3 encoding lim pc data (p + 4 - 3) mask
        else if BR86_IS_BCJ_BYTE v 1 then x86_a3 encoding lim pc data (p + 4 - 2) mask
        else if BR86_IS_BCJ_BYTE v 2 then x86_a3 encoding lim pc data (p + 4 - 1) mask
        else if BR86_IS_BCJ_BYTE v 3 then x86_a3 encoding lim pc data (p + 4) mask
        else Some (inl (main_loop, data, p + 4, mask))
    end.

(** The buffer, the offset that is returned and [*state]; every turn moves [p] on. *)
Definition z7_BranchConvSt_X86 (encoding : bool) (data : list Z) (size pc state : Z) : option (list Z * Z * Z) :=
  if size <? 5 then Some (data, 0, state)
  else loop (S (Z.to_nat size)) (x86_turn encoding (size - 4) (pc + 4)) (start, data, 0, state).

(** ** Reference: byte by byte, from left to right *)

Definition is_branch (b : Z) : bool := (b &&& 0xfe) =? 0xe8.

(** The operand is converted: its top byte is 0x00 or 0xff, and no branch byte that was left
    alone is near, or one whose own top byte, the byte [mask / 2] here, is another. *)
Definition converts (mask t0 t1 t2 t3 : Z) : bool :=
  BR86_NEED_CONV_FOR_MS_BYTE t3 &&
  match mask with
  | 0 => true
  | 1 => negb (BR86_NEED_CONV_FOR_MS_BYTE t0)
  | 2 => negb (BR86_NEED_CONV_FOR_MS_BYTE t1)
  | 4 => negb (BR86_NEED_CONV_FOR_MS_BYTE t2)
  | _ => false
  end.

(** The operand as a number of 25 bits; with a byte to keep off 0x00 and 0xff, it is converted
    a second time, with its bits up to there inverted, if that byte came out so. *)
Definition operand (encoding : bool) (mask c v : Z) : Z :=
  let v := BR_CONVERT_VAL encoding v c in
  if mask =? 0 then v
  else
    let k := (mask >>> 1) <<< 3 in
    if BR86_NEED_CONV_FOR_MS_BYTE (v >>> k) then BR_CONVERT_VAL encoding (v ^^^ (u32 (0x100 <<< k) - 1)) c else v.

Definition new_operand (encoding : bool) (mask c t0 t1 t2 t3 : Z) : list Z :=
  let v := operand encoding mask c (u32 (le_load [t0; t1; t2; t3] + (1 <<< 24))) in
  le_bytes 4 (u32 ((v &&& ((1 <<< 25) - 1)) - (1 <<< 24))).

Fixpoint x86_map (encoding : bool) (pc p mask : Z) (l : list Z) : list Z :=
  match l with
  | b :: ((t0 :: t1 :: t2 :: t3 :: l') as t) =>
      if is_branch b then
        if converts mask t0 t1 t2 t3
        then b :: new_operand encoding mask (BR_PC_GET pc (p + 1)) t0 t1 t2 t3 ++ x86_map encoding pc (p + 5) 0 l'
        else b :: x86_map encoding pc (p + 1) ((mask >>> 1) ||| 4) t
      else b :: x86_map encoding pc (p + 1) (mask >>> 1) t
  | _ => l
  end.
