(* ===== verification/BraRiscv.v ===== *)
(** * Branch converter for RISC-V

    src/native/sevenzip_bridge/7z2604-src/C/Bra.c: BranchConv_RISCV, its encoder and its
    decoder, which are two functions: JAL to an address that is stored big-endian, AUIPC with
    the instruction after it to a pair that a decoder knows by the register x2, and pairs
    that look like one of those to a pair that does not.  [data] is the buffer from the
    pointer the function was given, [p] an offset in it.  The branches are those of 64-bit
    little-endian builds (unaligned loads, byte swaps). *)

From stdpp Require Import base numbers list list_numbers.
From Stdlib Require Import ZArith Lia.
From S2P Require Import Prelude Bra.
Local Open Scope Z_scope.
Local Open Scope word_scope.

Definition RISCV_INSTR_SIZE : Z := 2.
Definition RISCV_STEP_1 : Z := 4 + RISCV_INSTR_SIZE.
Definition RISCV_STEP_2 : Z := 4.
Definition RISCV_REG_VAL : Z := 2 <<< 7.
Definition RISCV_CMD_VAL : Z := 3.
Definition RISCV_DELTA_7F : Z := 0x7f.

Definition RISCV_CHECK_1 (v b : Z) : bool :=
  ((u32 (b - RISCV_CMD_VAL) ^^^ u32 (v <<< 8)) &&& (0xf8000 + RISCV_CMD_VAL)) =? 0.

Definition RISCV_CHECK_2 (v r : Z) : bool :=
  u32 (u32 (v - ((RISCV_CMD_VAL <<< 12) ||| RISCV_REG_VAL ||| 8)) <<< 18) <? (r &&& 0x1d).

Definition BR_CONVERT_VAL_ENC (v c : Z) : Z := u32 (v + c).
Definition BR_CONVERT_VAL_DEC (v c : Z) : Z := u32 (v - c).

(** [a = (RISCV_LOAD_VAL(p) ^ 0x10u) + 1] *)
Definition riscv_load (data : list Z) (p : Z) : option Z := h ← GetUi16 data p; Some (u32 ((h ^^^ 0x10) + 1)).

(** The search of [RISCV_SCAN_LOOP]: the place and [a] there, or where the data ends. *)
Definition riscv_scan_turn (lim : Z) (data : list Z) (p : Z) : option (Z + (Z * Z + Z)) :=
  if lim <=? p then Some (inr (inr p))
  else
    a ← riscv_load data p;
    if (a &&& 0x77) =? 0 then Some (inr (inl (p, a)))
    else
      a ← riscv_load data (p + RISCV_INSTR_SIZE);
      let p := p + RISCV_INSTR_SIZE * 2 in
      if (a &&& 0x77) =? 0 then
        let p := p - RISCV_INSTR_SIZE in
        if lim <=? p then Some (inr (inr p)) else Some (inr (inl (p, a)))
      else Some (inl p).

Definition riscv_scan (lim : Z) (data : list Z) (p : Z) : option (Z * Z + Z) :=
  loop (S (Z.to_nat (lim - p))) (riscv_scan_turn lim data) p.

(** JAL: the bytes of the new address. *)
Definition riscv_enc_jal (pc : Z) (data : list Z) (p a : Z) : option (list Z * Z) :=
  let v := ((a &&& (1 <<< 31)) >>> 11) ||| ((a &&& (0x3ff <<< 21)) >>> 20) ||| ((a &&& (1 <<< 20)) >>> 9) ||| (a &&& (0xff <<< 12)) in
  let v := BR_CONVERT_VAL_ENC v (BR_PC_GET pc p) in
  data ← wrz data (p + 1) (u8 (((v >>> 13) &&& 0xf0) ||| ((a >>> 8) &&& 0xf)));
  let v := u32 (v <<< 15) in
  let v := Z7_BSWAP32 v in
  data ← SetUi16 data (p + 2) (u16 v);
  Some (data, p + 4).

(** [(Int32)b] *)
Definition int32 (b : Z) : Z := if b <? 1 <<< 31 then b else b - (1 <<< 32).

(** AUIPC [a] with the halfword [v] of it. *)
Definition riscv_enc_auipc (pc : Z) (data : list Z) (p v a : Z) : option (list Z * Z) :=
  if negb ((v &&& 0xe80) =? 0) then
    b ← GetUi32 data (p + 4);
    if RISCV_CHECK_1 v b then
      let temp := u32 (b <<< 12) ||| (0x17 + RISCV_REG_VAL) in
      data ← SetUi32 data p temp;
      let a := a &&& 0xfffff000 in
      let a := u32 (a + (int32 b >>> 20)) in
      let a := BR_CONVERT_VAL_ENC a (BR_PC_GET pc p) in
      let a := Z7_BSWAP32 a in
      data ← SetUi32 data (p + 4) a;
      Some (data, p + 8)
    else Some (data, p + RISCV_STEP_1)
  else
    let r := a >>> 27 in
    if RISCV_CHECK_2 v r then
      v ← GetUi32 data (p + 4);
      let r := u32 ((r <<< 7) + 0x17 + (v &&& 0xfffff000)) in
      let a := (a >>> 12) ||| u32 (v <<< 20) in
      data ← SetUi32 data p r;
      data ← SetUi32 data (p + 4) a;
      Some (data, p + 8)
    else Some (data, p + RISCV_STEP_2).

Definition riscv_enc_instr (pc : Z) (data : list Z) (p v : Z) : option (list Z * Z) :=
  a ← GetUi32 data p;
  if (v &&& 8) =? 0 then
    if negb ((u32 (v - 0x100) &&& 0xd80) =? 0) then Some (data, p + RISCV_INSTR_SIZE)
    else riscv_enc_jal pc data p a
  else riscv_enc_auipc pc data p v a.

Definition riscv_dec_jal (pc : Z) (data : list Z) (p a : Z) : option (list Z * Z) :=
  let a_old := u32 (a + (0xef - RISCV_DELTA_7F)) &&& 0xfff in
  v ← GetUi16 data (p + 2);
  let v := (Z7_BSWAP32 v >>> 15) ||| ((a &&& 0xf000) <<< 5) in
  let v := BR_CONVERT_VAL_DEC v (BR_PC_GET pc p) in
  let a := a_old ||| (u32 (v <<< 11) &&& (1 <<< 31)) ||| (u32 (v <<< 20) &&& (0x3ff <<< 21))
             ||| (u32 (v <<< 9) &&& (1 <<< 20)) ||| (v &&& (0xff <<< 12)) in
  data ← SetUi32 data p a;
  Some (data, p + 4).

Definition riscv_dec_auipc (pc : Z) (data : list Z) (p v : Z) : option (list Z * Z) :=
  a ← GetUi32 data p;
  if (v &&& 0xe80) =? 0 then
    let r := a >>> 27 in
    if RISCV_CHECK_2 v r then
      b ← GetUi32 data (p + 4);
      let b := Z7_BSWAP32 b in
      let v := a >>> 12 in
      let b := BR_CONVERT_VAL_DEC b (BR_PC_GET pc p) in
      let a := (r <<< 7) + 0x17 in
      let a := u32 (a + (u32 (b + 0x800) &&& 0xfffff000)) in
      let v := v ||| u32 (b <<< 20) in
      data ← SetUi32 data p a;
      data ← SetUi32 data (p + 4) v;
      Some (data, p + 8)
    else Some (data, p + RISCV_STEP_2)
  else
    b ← GetUi32 data (p + 4);
    if negb (RISCV_CHECK_1 v b) then Some (data, p + RISCV_STEP_1)
    else
      let v := (a &&& 0xfffff000) ||| (b >>> 20) in
      let a := u32 (b <<< 12) ||| (0x17 + RISCV_REG_VAL) in
      data ← SetUi32 data p a;
      data ← SetUi32 data (p + 4) v;
      Some (data, p + 8).

Definition riscv_dec_instr (pc : Z) (data : list Z) (p a : Z) : option (list Z * Z) :=
  if (a &&& 8) =? 0 then
    let a := u32 (a - (0x100 - RISCV_DELTA_7F)) in
    if negb ((a &&& 0xd80) =? 0) then Some (data, p + RISCV_INSTR_SIZE)
    else riscv_dec_jal pc data p a
  else riscv_dec_auipc pc data p a.

Definition riscv_turn (instr : Z -> list Z -> Z -> Z -> option (list Z * Z)) (lim pc : Z) (s : list Z * Z)
  : option (list Z * Z + list Z * Z) :=
  let '(data, p) := s in
  r ← riscv_scan lim data p;
  match r with
  | inr p => Some (inr (data, p))
  | inl (p, a) => s ← instr pc data p a; Some (inl s)
  end.

Definition riscv_conv (instr : Z -> list Z -> Z -> Z -> option (list Z * Z)) (data : list Z) (size pc : Z) : option (list Z * Z) :=
  let size := size - size mod RISCV_INSTR_SIZE in
  if size <=? 6 then Some (data, 0)
  else loop (S (Z.to_nat size)) (riscv_turn instr (size - 6) pc) (data, 0).

Definition BranchConv_RISCV_Enc (data : list Z) (size pc : Z) : option (list Z * Z) := riscv_conv riscv_enc_instr data size pc.
Definition BranchConv_RISCV_Dec (data : list Z) (size pc : Z) : option (list Z * Z) := riscv_conv riscv_dec_instr data size pc.
