(* ===== verification/BraWords.v ===== *)
(** * Branch converters: instructions of four bytes

    The loops of ARM64, ARM, PPC and SPARC (Bra.c) as a map over instructions, and the
    proof that decoding undoes encoding and encoding undoes decoding. *)

From stdpp Require Import base numbers list list_numbers.
From Stdlib Require Import ZArith Lia.
From S2P Require Import Prelude Bra.
Local Open Scope Z_scope.
Local Open Scope word_scope.

(** ** The loop is a map *)

(** Reference: every group of four bytes by itself, the rest unchanged. *)
Fixpoint map_instr (instr : Z -> Z -> option Z) (pc p : Z) (l : list Z) : list Z :=
  match l with
  | b0 :: b1 :: b2 :: b3 :: l =>
      match instr (BR_PC_GET pc (p + 4)) (le_load [b0; b1; b2; b3]) with
      | Some v => le_bytes 4 v
      | None => [b0; b1; b2; b3]
      end ++ map_instr instr pc (p + 4) l
  | _ => l
  end.

(** An instruction at the end of [pre]. *)
Lemma GetUi32_at pre b0 b1 b2 b3 l :
  GetUi32 (pre ++ b0 :: b1 :: b2 :: b3 :: l) (Z.of_nat (length pre)) = Some (le_load [b0; b1; b2; b3]).
Proof.
  unfold GetUi32. destruct (Z.ltb_spec (Z.of_nat (length pre)) 0); [lia|].
  rewrite Nat2Z.id, slice_Some by (rewrite length_app; cbn; lia). opt. by rewrite drop_app_length.
Qed.

Lemma SetUi32_at pre b0 b1 b2 b3 l v :
  SetUi32 (pre ++ b0 :: b1 :: b2 :: b3 :: l) (Z.of_nat (length pre)) v = Some (pre ++ le_bytes 4 v ++ l).
Proof.
  unfold SetUi32. destruct (Z.ltb_spec (Z.of_nat (length pre)) 0); [lia|].
  unfold blit. rewrite Nat2Z.id, decide_True by (rewrite length_app, length_le_bytes; cbn; lia).
  rewrite length_le_bytes, take_app_length. do 2 f_equal.
  rewrite Nat.add_comm, <-drop_drop, drop_drop, Nat.add_comm.
  rewrite <-drop_drop, drop_app_length. done.
Qed.

Lemma conv4_loop instr pc n : forall pre l post fuel,
  length l = (4 * n)%nat -> (n < fuel)%nat ->
  loop fuel (conv4_turn instr (Z.of_nat (length pre + length l)) pc) (pre ++ l ++ post, Z.of_nat (length pre)) =
    Some (pre ++ map_instr instr pc (Z.of_nat (length pre)) l ++ post, Z.of_nat (length pre + length l)).
Proof.
  induction n as [|n IH]; intros pre l post fuel Hl Hf; (destruct fuel as [|fuel]; [lia|]); cbn [loop]; unfold conv4_turn at 1.
  - destruct l; [|done]. cbn [length app]. rewrite Nat.add_0_r, Z.eqb_refl. done.
  - destruct l as [|b0 [|b1 [|b2 [|b3 l]]]]; cbn [length] in Hl; try lia.
    destruct (Z.eqb_spec (Z.of_nat (length pre)) (Z.of_nat (length pre + length (b0 :: b1 :: b2 :: b3 :: l))));
      [cbn in *; lia|].
    cbn [app]. rewrite GetUi32_at. opt. rewrite Z.add_simpl_r. cbn [map_instr].
    set (p4 := Z.of_nat (length pre) + 4).
    assert (forall w, length w = 4%nat ->
      loop fuel (conv4_turn instr (Z.of_nat (length pre + length (b0 :: b1 :: b2 :: b3 :: l))) pc)
        (pre ++ w ++ l ++ post, p4) =
      Some (pre ++ (w ++ map_instr instr pc p4 l) ++ post,
            Z.of_nat (length pre + length (b0 :: b1 :: b2 :: b3 :: l)))) as Hgo.
    { intros w Hw. replace p4 with (Z.of_nat (length (pre ++ w))) by (unfold p4; rewrite length_app; lia).
      replace (length pre + length (b0 :: b1 :: b2 :: b3 :: l))%nat with (length (pre ++ w) + length l)%nat
        by (rewrite length_app; cbn; lia).
      replace (pre ++ w ++ l ++ post) with ((pre ++ w) ++ l ++ post) by by rewrite <-app_assoc.
      rewrite IH by lia. by rewrite <-!app_assoc. }
    destruct (instr (BR_PC_GET pc p4) (le_load [b0; b1; b2; b3])) as [v|].
    + rewrite SetUi32_at. opt. apply Hgo, length_le_bytes.
    + apply (Hgo [b0; b1; b2; b3]). done.
Qed.

(** The whole call. *)
Lemma conv4_map instr adjust data size pc :
  0 <= size <= Z.of_nat (length data) ->
  conv4 instr adjust data size pc =
    Some (map_instr instr (pc + adjust) 0 (take (Z.to_nat (size - size mod 4)) data) ++
          drop (Z.to_nat (size - size mod 4)) data, size - size mod 4).
Proof.
  intros Hs. unfold conv4. pose proof (Z.mod_pos_bound size 4 ltac:(lia)). pose proof (Z.div_mod size 4 ltac:(lia)).
  set (k := size - size mod 4) in *.
  pose proof (conv4_loop instr (pc + adjust) (Z.to_nat (size / 4)) [] (take (Z.to_nat k) data) (drop (Z.to_nat k) data)
    (S (Z.to_nat k))) as H1.
  assert (0 <= size / 4) by (apply Z.div_pos; lia).
  rewrite length_take in H1. cbn [length app Nat.add] in H1. rewrite take_drop in H1.
  replace (Z.of_nat (Z.to_nat k `min` length data)) with k in H1 by lia. apply H1; lia.
Qed.

Lemma map_instr_length instr pc p l : length (map_instr instr pc p l) = length l.
Proof.
  revert p. induction l as [l IH] using (induction_ltof1 _ (@length Z)); intros p. unfold ltof in IH.
  destruct l as [|b0 [|b1 [|b2 [|b3 l]]]]; try done. cbn [map_instr]. rewrite length_app, IH by (cbn; lia).
  destruct (instr _ _); [rewrite length_le_bytes|]; cbn; lia.
Qed.

(** Two converters that undo each other on every instruction. *)
Definition undoes (enc dec : Z -> Z -> option Z) (pc_ok : Z -> Prop) : Prop :=
  forall pc v, pc_ok pc -> in_width 32 v ->
    match enc pc v with
    | Some w => in_width 32 w /\ dec pc w = Some v
    | None => dec pc v = None
    end.

Lemma map_instr_undo enc dec pc_ok pc l : forall p,
  undoes enc dec pc_ok -> bytes l -> (forall k, pc_ok (BR_PC_GET pc (p + 4 * k))) ->
  map_instr dec pc p (map_instr enc pc p l) = l /\ bytes (map_instr enc pc p l).
Proof.
  induction l as [l IH] using (induction_ltof1 _ (@length Z)); intros p Hu Hl Hpc. unfold ltof in IH.
  destruct l as [|b0 [|b1 [|b2 [|b3 l]]]]; try done. cbn [map_instr].
  apply (Forall_app _ [b0; b1; b2; b3] l) in Hl as [Hb Hl].
  destruct (IH l ltac:(cbn; lia) (p + 4) Hu Hl) as [IH1 IH2].
  { intros k. replace (p + 4 + 4 * k) with (p + 4 * (k + 1)) by lia. apply Hpc. }
  assert (in_width 32 (le_load [b0; b1; b2; b3])) as Hv by (apply le_load_in_width; [done|cbn; lia]).
  specialize (Hu (BR_PC_GET pc (p + 4)) _ (Hpc 1) Hv).
  assert (forall w, in_width 32 w -> exists c0 c1 c2 c3, le_bytes 4 w = [c0; c1; c2; c3] /\ le_load [c0; c1; c2; c3] = w) as Hw.
  { intros w Hw. eexists _, _, _, _. split; [reflexivity|]. apply (le_load_bytes 4 w). exact Hw. }
  destruct (enc (BR_PC_GET pc (p + 4)) (le_load [b0; b1; b2; b3])) as [w|] eqn:He.
  - destruct Hu as [Hw1 Hw2]. split; [|by apply Forall_app; split; [apply bytes_le_bytes|]].
    destruct (Hw w Hw1) as (c0 & c1 & c2 & c3 & E1 & E2). rewrite E1. cbn [app map_instr]. rewrite E2, Hw2, IH1.
    pose proof (le_bytes_load _ Hb) as E. cbn [length] in E. by rewrite E.
  - split; [|by apply Forall_app]. cbn [app map_instr]. by rewrite Hu, IH1.
Qed.

(** ** Arithmetic of the conversions *)

Local Ltac euclid := Z.to_euclidean_division_equations; lia.

Lemma convert_undo e M a v c :
  0 < M -> (if negb e then a * M + (if e then v + c else v - c) mod M + c
            else a * M + (if e then v + c else v - c) mod M - c) mod M = v mod M.
Proof.
  intros HM. destruct e; cbn [negb].
  - rewrite <-Z.add_sub_assoc, Z.add_comm, Z.mod_add by lia. rewrite Zminus_mod_idemp_l. f_equal. lia.
  - rewrite <-Z.add_assoc, Z.add_comm, Z.mod_add by lia. rewrite Zplus_mod_idemp_l. f_equal. lia.
Qed.

(** The low [n] bits of a converted value. *)
Lemma convert_mod e v c n :
  0 <= n <= 32 -> BR_CONVERT_VAL e v c mod 2 ^ n = (if e then v + c else v - c) mod 2 ^ n.
Proof.
  intros Hn. unfold BR_CONVERT_VAL, wrap. replace (2 ^ 32) with (2 ^ (32 - n) * 2 ^ n) by (rewrite <-Z.pow_add_r by lia; f_equal; lia).
  rewrite Z.mul_comm, Z.rem_mul_r by (apply Z.pow_nonzero || apply Z.pow_pos_nonneg; lia).
  rewrite Z.mul_comm, Z.mod_add by (apply Z.pow_nonzero; lia). apply Zmod_mod.
Qed.

(** A field of [n] low bits below fixed high bits [k]. *)
Lemma convert_field_undo e v c n k :
  0 <= n <= 32 -> 0 <= k -> v / 2 ^ n = k ->
  let w := k * 2 ^ n + BR_CONVERT_VAL e v c mod 2 ^ n in
  w / 2 ^ n = k /\ k * 2 ^ n + BR_CONVERT_VAL (negb e) w c mod 2 ^ n = v.
Proof.
  intros Hn Hk Hv w. pose proof (Z.pow_pos_nonneg 2 n). subst w.
  pose proof (Z.mod_pos_bound (BR_CONVERT_VAL e v c) (2 ^ n) ltac:(lia)).
  split; [rewrite Z.add_comm, Z.div_add, Z.div_small by lia; lia|].
  rewrite !convert_mod by done. rewrite convert_undo by lia. rewrite <-Hv. pose proof (Z.div_mod v (2 ^ n)). lia.
Qed.

(** Replacing the high bits: [(x & (2^n - 1)) | k << n]. *)
Lemma set_high x n k : 0 <= n -> 0 <= k -> (x &&& (2 ^ n - 1)) ||| (k * 2 ^ n) = k * 2 ^ n + x mod 2 ^ n.
Proof.
  intros Hn Hk. rewrite land_ones_mod by done. rewrite <-Z.shiftl_mul_pow2 by done.
  rewrite lor_shiftl_add by (try done; apply Z.mod_pos_bound; lia). rewrite Z.shiftl_mul_pow2 by done. lia.
Qed.

Lemma in_width_field n k x : 0 <= n <= 32 -> 0 <= k < 2 ^ (32 - n) -> in_width 32 (k * 2 ^ n + x mod 2 ^ n).
Proof.
  intros Hn Hk. pose proof (Z.mod_pos_bound x (2 ^ n) ltac:(lia)).
  assert (2 ^ 32 = 2 ^ (32 - n) * 2 ^ n) as E by (rewrite <-Z.pow_add_r by lia; f_equal; lia).
  unfold in_width. rewrite E. nia.
Qed.

Lemma ARM_undo e : undoes (ARM_instr e) (ARM_instr (negb e)) (fun _ => True).
Proof.
  intros pc v _ Hv. unfold ARM_instr. rewrite Z.shiftr_div_pow2 by lia.
  destruct (Z.eqb_spec (v / 2 ^ 24) 0xeb) as [E|E]; [|done]. cbv zeta.
  change 0x00ffffff with (2 ^ 24 - 1). change 0xeb000000 with (0xeb * 2 ^ 24). rewrite !set_high by lia.
  split; [apply in_width_field; lia|].
  destruct (convert_field_undo e v (pc >>> 2) 24 0xeb ltac:(lia) ltac:(lia) E) as [H1 H2].
  rewrite Z.shiftr_div_pow2, H1 by lia. cbn [Z.eqb Pos.eqb]. by rewrite H2.
Qed.

(** ** Byte order *)

Lemma bswap_bytes v :
  in_width 32 v -> exists b0 b1 b2 b3, 0 <= b0 < 256 /\ 0 <= b1 < 256 /\ 0 <= b2 < 256 /\ 0 <= b3 < 256 /\
    v = b0 + 256 * b1 + 65536 * b2 + 16777216 * b3 /\
    Z7_BSWAP32 v = b3 + 256 * b2 + 65536 * b1 + 16777216 * b0.
Proof.
  intros Hv. unfold in_width in Hv.
  exists (v mod 256), (v / 256 mod 256), (v / 256 / 256 mod 256), (v / 256 / 256 / 256 mod 256).
  split_and!; try apply Z.mod_pos_bound; try lia; try (by apply Z.mod_pos_bound).
  - euclid.
  - unfold Z7_BSWAP32. cbn [le_bytes rev app le_load]. lia.
Qed.

Lemma bswap_width v : in_width 32 v -> in_width 32 (Z7_BSWAP32 v).
Proof. intros Hv. destruct (bswap_bytes v Hv) as (b0 & b1 & b2 & b3 & ? & ? & ? & ? & _ & ->). unfold in_width. lia. Qed.

Lemma bswap_bswap v : in_width 32 v -> Z7_BSWAP32 (Z7_BSWAP32 v) = v.
Proof.
  intros Hv. unfold Z7_BSWAP32.
  assert (le_bytes 4 (le_load (rev (le_bytes 4 v))) = rev (le_bytes 4 v)) as ->.
  { apply (le_bytes_load (rev (le_bytes 4 v))). apply Forall_rev, bytes_le_bytes. }
  rewrite rev_involutive. by apply le_load_bytes.
Qed.

(** The test of the code on the bytes in memory order: the opcode at the top and the two
    low bits of the instruction. *)
Lemma ppc_test v :
  in_width 32 v ->
  ((u32 (v - Z7_BSWAP32 0x48000001) &&& Z7_BSWAP32 0xfc000003) =? 0) =
    ((Z7_BSWAP32 v / 2 ^ 26 =? 18) && (Z7_BSWAP32 v mod 4 =? 1)).
Proof.
  intros Hv. destruct (bswap_bytes v Hv) as (b0 & b1 & b2 & b3 & H0 & H1 & H2 & H3 & -> & ->).
  change (Z7_BSWAP32 0x48000001) with 0x01000048.
  change (Z7_BSWAP32 0xfc000003) with ((2 ^ 26 - 2 ^ 24) ||| (2 ^ 8 - 2 ^ 2)).
  rewrite Z.land_lor_distr_r, !land_mask by lia. apply eq_iff_eq_true.
  rewrite andb_true_iff, !Z.eqb_eq, Z.lor_eq_0_iff.
  set (x := u32 _). assert (x = (b0 - 72 + 256 * (b1 + 256 * b2 + 65536 * (b3 - 1))) mod 2 ^ 32) as Hx
    by (unfold x, wrap; f_equal; lia). clearbody x.
  assert (x mod 2 ^ 8 = (b0 - 72) mod 256) as Hlow.
  { rewrite Hx, Z.mod_mod_divide by (by exists (2 ^ 24)). rewrite (Z.mul_comm 256), Z.mod_add by lia. done. }
  assert ((b3 + 256 * b2 + 65536 * b1 + 16777216 * b0) / 2 ^ 26 = b0 / 4) as ->.
  { change (2 ^ 26) with (16777216 * 4). rewrite <-Z.div_div by lia. f_equal.
    rewrite (Z.mul_comm 16777216), Z.div_add by lia. rewrite Z.div_small by lia. lia. }
  assert ((b3 + 256 * b2 + 65536 * b1 + 16777216 * b0) mod 4 = b3 mod 4) as ->.
  { replace (b3 + 256 * b2 + 65536 * b1 + 16777216 * b0) with (b3 + (64 * b2 + 16384 * b1 + 4194304 * b0) * 4) by lia.
    apply Z.mod_add. lia. }
  rewrite Hlow. destruct (Z.lt_ge_cases b0 72) as [Hb|Hb].
  { assert ((b0 - 72) mod 256 = b0 + 184) as ->
      by (replace (b0 - 72) with (b0 + 184 + (-1) * 256) by lia; rewrite Z.mod_add by lia; apply Z.mod_small; lia).
    euclid. }
  rewrite (Z.mod_small (b0 - 72)) by lia. destruct (Z.lt_ge_cases 75 b0) as [Hb2|Hb2]; [euclid|].
  assert ((x mod 2 ^ 26) / 2 ^ 24 = (b3 - 1) mod 4) as ->; [|euclid].
  rewrite Hx, Z.mod_mod_divide by (by exists (2 ^ 6)).
  replace (b0 - 72 + 256 * (b1 + 256 * b2 + 65536 * (b3 - 1)))
    with (b0 - 72 + 256 * b1 + 65536 * b2 + (b3 - 1) * 2 ^ 24) by lia.
  change (2 ^ 26) with (2 ^ 24 * 4). rewrite Z.rem_mul_r by lia.
  rewrite Z.mod_add, Z.div_add by lia. rewrite (Z.mod_small (b0 - 72 + _ + _)), (Z.div_small (b0 - 72 + _ + _)) by lia.
  rewrite (Z.mul_comm (2 ^ 24)), Z.div_add by lia. rewrite Z.div_small by lia. done.
Qed.

Lemma PPC_undo e : undoes (PPC_instr e) (PPC_instr (negb e)) (fun pc => pc mod 4 = 0).
Proof.
  intros pc v Hpc Hv. unfold PPC_instr. rewrite ppc_test by done.
  destruct (Z.eqb_spec (Z7_BSWAP32 v / 2 ^ 26) 18) as [E1|]; [|done].
  destruct (Z.eqb_spec (Z7_BSWAP32 v mod 4) 1) as [E2|]; [|done]. cbn [andb]. cbv zeta.
  change 0x03ffffff with (2 ^ 26 - 1). change 0x48000000 with (18 * 2 ^ 26). rewrite !set_high by lia.
  set (W := Z7_BSWAP32 v) in *.
  destruct (convert_field_undo e W pc 26 18 ltac:(lia) ltac:(lia) E1) as [H1 H2].
  set (w := 18 * 2 ^ 26 + BR_CONVERT_VAL e W pc mod 2 ^ 26) in *.
  assert (in_width 32 w) as Hw by (apply in_width_field; lia).
  assert (w mod 4 = 1) as Hw4.
  { unfold w. rewrite Z.add_comm. change (18 * 2 ^ 26) with (18 * 2 ^ 24 * 4). rewrite Z.mod_add by lia.
    rewrite Z.mod_mod_divide by (by exists (2 ^ 24)). pose proof (convert_mod e W pc 2 ltac:(lia)) as H.
    change (2 ^ 2) with 4 in H. rewrite H. clearbody W. clear w H1 H2 Hw. destruct e; euclid. }
  clearbody w. split; [by apply bswap_width|].
  rewrite ppc_test by by apply bswap_width. rewrite bswap_bswap by done. rewrite H1, Hw4. cbn [Z.eqb Pos.eqb andb].
  rewrite H2. unfold W. by rewrite bswap_bswap.
Qed.

(** ** SPARC *)

Definition sparc_value (W : Z) : Z := (4 * (W mod 2 ^ 30) + 2 ^ 24) mod 2 ^ 32.
Definition sparc_store (z : Z) : Z := 2 ^ 30 + (z - 2 ^ 24) / 4 mod 2 ^ 30.

Lemma sparc_rotl W : in_width 32 W -> rotlFixed W 2 = 4 * (W mod 2 ^ 30) + W / 2 ^ 30.
Proof.
  intros HW. unfold rotlFixed. rewrite Z.shiftr_div_pow2, Z.shiftl_mul_pow2 by lia.
  change (32 - 2) with 30. unfold wrap. change (2 ^ 32) with (2 ^ 30 * 2 ^ 2). rewrite Z.mul_mod_distr_r by lia.
  rewrite <-Z.shiftl_mul_pow2, Z.lor_comm, lor_shiftl_add by (unfold in_width in HW; euclid). lia.
Qed.

Lemma sparc_test W :
  in_width 32 W ->
  let x := u32 (rotlFixed W 2 + ((SPARC_flag <<< 2) - 1)) in
  if (x &&& u32 (3 - (SPARC_flag <<< 3))) =? 0
  then W / 2 ^ 30 = 1 /\ x = sparc_value W /\ x < 2 ^ 25
  else ~ (W / 2 ^ 30 = 1 /\ sparc_value W < 2 ^ 25).
Proof.
  intros HW x. change (u32 (3 - (SPARC_flag <<< 3))) with ((2 ^ 32 - 2 ^ 25) ||| (2 ^ 2 - 2 ^ 0)).
  assert (x = (4 * (W mod 2 ^ 30) + W / 2 ^ 30 + (2 ^ 24 - 1)) mod 2 ^ 32) as Hx.
  { unfold x. by rewrite sparc_rotl. }
  assert (0 <= W / 2 ^ 30 < 4) as Ht by (unfold in_width in HW; split; [apply Z.div_pos|apply Z.div_lt_upper_bound]; lia).
  pose proof (Z.mod_pos_bound W (2 ^ 30) ltac:(lia)) as Hd. unfold sparc_value.
  generalize dependent (W / 2 ^ 30). generalize dependent (W mod 2 ^ 30). intros d Hd t Hx Ht.
  rewrite Z.land_lor_distr_r, !land_mask by lia. clearbody x. clear HW W.
  assert (x mod 2 ^ 32 = x) as -> by (rewrite Hx; apply Zmod_mod).
  assert (x mod 2 ^ 2 = (t - 1) mod 4) as Hlow.
  { rewrite Hx, Z.mod_mod_divide by (by exists (2 ^ 30)). change (2 ^ 2) with 4.
    replace (4 * d + t + (2 ^ 24 - 1)) with (t - 1 + (d + 2 ^ 22) * 4) by lia. apply Z.mod_add. lia. }
  rewrite Hlow. change (2 ^ 0) with 1. rewrite Z.div_1_r, Z.mul_1_r.
  assert (0 <= x < 2 ^ 32) as Hx2 by (rewrite Hx; apply Z.mod_pos_bound; lia).
  assert (t = 1 -> x = (4 * d + 2 ^ 24) mod 2 ^ 32) as Hv by (intros ->; rewrite Hx; f_equal; lia).
  destruct (Z.eqb_spec (x / 2 ^ 25 * 2 ^ 25 ||| (t - 1) mod 4) 0) as [E|E].
  - apply Z.lor_eq_0_iff in E as [E1 E2]. assert (t = 1) as Ht1 by euclid. split; [done|]. split; [by apply Hv|euclid].
  - intros [E1 E2]. apply E. rewrite <-(Hv E1) in E2. subst t. cbn. rewrite Z.lor_0_r. euclid.
Qed.

Lemma sparc_rotr z :
  0 <= z < 2 ^ 25 -> z mod 4 = 0 -> rotrFixed (u32 (z - ((SPARC_flag <<< 2) - 1))) 2 = sparc_store z.
Proof.
  intros Hz H4. unfold sparc_store. change ((SPARC_flag <<< 2) - 1) with (2 ^ 24 - 1).
  set (q := (z - 2 ^ 24) / 4 mod 2 ^ 30).
  assert (u32 (z - (2 ^ 24 - 1)) = 1 + q * 4) as ->.
  { unfold q, wrap. clear q. destruct (Z.lt_ge_cases z (2 ^ 24)).
    - assert (z <= 2 ^ 24 - 4) by euclid. replace (z - (2 ^ 24 - 1)) with (z - (2 ^ 24 - 1) + 2 ^ 32 + (-1) * 2 ^ 32) by lia. rewrite Z.mod_add by lia.
      rewrite Z.mod_small by lia. euclid.
    - rewrite Z.mod_small by lia. rewrite (Z.mod_small (_ / 4)) by euclid. euclid. }
  assert (0 <= q < 2 ^ 30) as Hq by (apply Z.mod_pos_bound; lia). clearbody q.
  unfold rotrFixed. rewrite Z.shiftr_div_pow2, Z.shiftl_mul_pow2 by lia.
  replace ((1 + q * 4) / 2 ^ 2) with q by euclid.
  assert (u32 ((1 + q * 4) * 2 ^ (32 - 2)) = 1 <<< 30) as ->.
  { unfold wrap. change (2 ^ (32 - 2)) with (2 ^ 30).
    replace ((1 + q * 4) * 2 ^ 30) with (2 ^ 30 + q * 2 ^ 32) by lia. rewrite Z.mod_add by lia. done. }
  rewrite lor_shiftl_add by lia. lia.
Qed.

Lemma sparc_store_value z :
  0 <= z < 2 ^ 25 -> z mod 4 = 0 ->
  in_width 32 (sparc_store z) /\ sparc_store z / 2 ^ 30 = 1 /\ sparc_value (sparc_store z) = z.
Proof.
  intros Hz H4. unfold sparc_value, sparc_store.
  assert ((z - 2 ^ 24) / 4 = z / 4 - 2 ^ 22) as ->.
  { replace (z - 2 ^ 24) with (z + (- 2 ^ 22) * 4) by lia. rewrite Z.div_add by lia. lia. }
  pose proof (Z.mod_pos_bound (z / 4 - 2 ^ 22) (2 ^ 30) ltac:(lia)) as Hq.
  set (q := (z / 4 - 2 ^ 22) mod 2 ^ 30) in *.
  assert ((2 ^ 30 + q) mod 2 ^ 30 = q) as ->.
  { replace (2 ^ 30 + q) with (q + 1 * 2 ^ 30) by lia. rewrite Z.mod_add by lia. by apply Z.mod_small. }
  split; [unfold in_width; lia|].
  split; [replace (2 ^ 30 + q) with (q + 1 * 2 ^ 30) by lia; rewrite Z.div_add, Z.div_small by lia; done|].
  unfold q. clear q Hq. replace (2 ^ 32) with (4 * 2 ^ 30) by lia.
  rewrite <-Z.mul_mod_distr_l by lia. rewrite Zplus_mod_idemp_l.
  replace (4 * (z / 4 - 2 ^ 22) + 2 ^ 24) with z by euclid. apply Z.mod_small. lia.
Qed.

Lemma sparc_value_store W : in_width 32 W -> W / 2 ^ 30 = 1 -> sparc_store (sparc_value W) = W.
Proof.
  intros HW Ht. unfold sparc_value, sparc_store. pose proof (Z.mod_pos_bound W (2 ^ 30) ltac:(lia)) as Hd.
  pose proof (Z.div_mod W (2 ^ 30) ltac:(lia)) as E. rewrite Ht in E.
  set (d := W mod 2 ^ 30) in *. clearbody d.
  assert (W = 2 ^ 30 + (d + 2 ^ 22 - 2 ^ 22) mod 2 ^ 30) as -> by (rewrite Z.mod_small by lia; lia).
  f_equal.
  assert ((4 * d + 2 ^ 24) mod 2 ^ 32 = 4 * ((d + 2 ^ 22) mod 2 ^ 30)) as ->.
  { rewrite <-Z.mul_mod_distr_l by lia. f_equal; lia. }
  replace (4 * ((d + 2 ^ 22) mod 2 ^ 30) - 2 ^ 24) with (((d + 2 ^ 22) mod 2 ^ 30 - 2 ^ 22) * 4) by lia.
  rewrite Z.div_mul by lia. by rewrite Zminus_mod_idemp_l.
Qed.

Lemma SPARC_undo e : undoes (SPARC_instr e) (SPARC_instr (negb e)) (fun pc => pc mod 4 = 0).
Proof.
  intros pc v Hpc Hv. unfold SPARC_instr.
  pose proof (bswap_width v Hv) as HW. set (W := Z7_BSWAP32 v) in *.
  pose proof (sparc_test W HW) as Ht. cbv zeta in Ht |- *.
  set (x := u32 (rotlFixed W 2 + _)) in *. destruct (_ =? 0); [|done].
  destruct Ht as (Ht & Hx & Hx25). assert (0 <= x) as Hx0 by (rewrite Hx; apply Z.mod_pos_bound; lia).
  assert (x mod 4 = 0) as Hx4.
  { rewrite Hx. unfold sparc_value. rewrite Z.mod_mod_divide by (by exists (2 ^ 30)).
    replace (4 * (W mod 2 ^ 30) + 2 ^ 24) with (0 + (W mod 2 ^ 30 + 2 ^ 22) * 4) by lia. by rewrite Z.mod_add by lia. }
  change ((SPARC_flag <<< 3) - 1) with (2 ^ 25 - 1). rewrite !land_ones_mod by lia.
  set (z := BR_CONVERT_VAL e x pc mod 2 ^ 25).
  assert (0 <= z < 2 ^ 25) as Hz by (apply Z.mod_pos_bound; lia).
  assert (forall e x, x mod 4 = 0 -> BR_CONVERT_VAL e x pc mod 2 ^ 25 mod 4 = 0) as H4.
  { intros e' x' H. rewrite Z.mod_mod_divide by (by exists (2 ^ 23)). pose proof (convert_mod e' x' pc 2 ltac:(lia)) as H'.
    change (2 ^ 2) with 4 in H'. rewrite H'. destruct e'; euclid. }
  assert (z mod 4 = 0) as Hz4 by (by apply H4).
  rewrite sparc_rotr by done. destruct (sparc_store_value z Hz Hz4) as (S1 & S2 & S3).
  split; [by apply bswap_width|]. rewrite bswap_bswap by done.
  pose proof (sparc_test _ S1) as Hs. cbv zeta in Hs. set (x' := u32 (rotlFixed (sparc_store z) 2 + _)) in *.
  destruct (_ =? 0); [|destruct Hs; split; [done|rewrite S3; lia]]. destruct Hs as (_ & -> & _). rewrite S3.
  rewrite sparc_rotr; [|apply Z.mod_pos_bound; lia|by apply H4].
  assert (BR_CONVERT_VAL (negb e) z pc mod 2 ^ 25 = x) as ->.
  { unfold z. rewrite !convert_mod by lia. pose proof (convert_undo e (2 ^ 25) 0 x pc ltac:(lia)) as H.
    rewrite Z.mul_0_l, Z.add_0_l in H. rewrite H. apply Z.mod_small. lia. }
  rewrite Hx, sparc_value_store by done. f_equal. unfold W. by apply bswap_bswap.
Qed.

(** ** ARM64 *)

(** The page address ADRP holds, less the flag, with its low bits under the register. *)
Definition adrp_value (hi lo : Z) : Z := (lo + 2 ^ 20) mod 2 ^ 24 / 32 * 32 + 8 * hi.
Definition adrp_store (T rd : Z) : Z := 0x90000000 + T mod 32 / 8 * 2 ^ 29 + ((T / 32 * 32 - 2 ^ 20) mod 2 ^ 24 + rd).

Lemma arm64_bl_test v : in_width 32 v -> ((u32 (v - 0x94000000) &&& 0xfc000000) =? 0) = (v / 2 ^ 26 =? 37).
Proof.
  intros Hv. change 0xfc000000 with (2 ^ 32 - 2 ^ 26). rewrite land_mask by lia. unfold wrap. rewrite Zmod_mod.
  change 0x94000000 with (37 * 2 ^ 26). apply eq_iff_eq_true. rewrite !Z.eqb_eq. unfold in_width in Hv. euclid.
Qed.

Lemma arm64_adr_test x :
  in_width 32 x -> ((x &&& 0x9f000000) =? 0) = ((x / 2 ^ 31 =? 0) && (x mod 2 ^ 29 / 2 ^ 24 =? 0)).
Proof.
  intros Hx. change 0x9f000000 with ((2 ^ 32 - 2 ^ 31) ||| (2 ^ 29 - 2 ^ 24)).
  rewrite Z.land_lor_distr_r, !land_mask by lia. rewrite (Z.mod_small x (2 ^ 32)) by done.
  apply eq_iff_eq_true. rewrite andb_true_iff, !Z.eqb_eq, Z.lor_eq_0_iff.
  pose proof (Z.div_pos x (2 ^ 31)). unfold in_width in Hx. lia.
Qed.

Lemma convert_mult8 e z c : z mod 8 = 0 -> c mod 8 = 0 -> BR_CONVERT_VAL e z c mod 8 = 0.
Proof.
  intros Hz Hc. pose proof (convert_mod e z c 3 ltac:(lia)) as H. change (2 ^ 3) with 8 in H. rewrite H.
  destruct e; euclid.
Qed.

Lemma arm64_field T : (0x00ffffe0 &&& u32 (T - 2 ^ 20)) = (T / 32 * 32 - 2 ^ 20) mod 2 ^ 24.
Proof.
  rewrite Z.land_comm. change 0x00ffffe0 with (2 ^ 24 - 2 ^ 5). rewrite land_mask by lia.
  unfold wrap. rewrite Z.mod_mod_divide by (by exists (2 ^ 8)).
  change (2 ^ 5) with 32.
  replace (T - 2 ^ 20) with (T mod 32 + (T / 32 - 2 ^ 15) * 32) by euclid.
  replace (T / 32 * 32 - 2 ^ 20) with ((T / 32 - 2 ^ 15) * 32) by lia.
  change (2 ^ 24) with (32 * 2 ^ 19). rewrite Z.rem_mul_r, Z.mod_add, Zmod_mod, Z.div_add by lia.
  rewrite (Z.div_small (T mod 32)), Z.add_0_l by (apply Z.mod_pos_bound; lia).
  rewrite (Z.mul_comm 32 (_ mod _)), Z.div_add by lia.
  rewrite Z.div_small, Z.add_0_l by (apply Z.mod_pos_bound; lia).
  rewrite (Z.mul_comm 32 (2 ^ 19)), Z.mul_mod_distr_r by lia. done.
Qed.

(** The four parts of the new instruction. *)
Lemma arm64_assemble rd Zc T :
  0 <= rd < 32 -> Zc mod 8 = 0 -> T = Zc mod 2 ^ 21 ->
  ((rd ||| 0x90000000) ||| u32 (Zc <<< 26)) ||| (0x00ffffe0 &&& u32 ((Zc &&& (2 ^ 21 - 1)) - 2 ^ 20)) =
    adrp_store T rd.
Proof.
  intros Hrd H8 HT. rewrite land_ones_mod by lia. rewrite <-HT, arm64_field.
  assert (T mod 32 = Zc mod 32) as HT32 by (rewrite HT; apply Z.mod_mod_divide; by exists (2 ^ 16)).
  unfold adrp_store. rewrite HT32.
  assert (0 <= (T / 32 * 32 - 2 ^ 20) mod 2 ^ 24 < 2 ^ 24) as HF by (apply Z.mod_pos_bound; lia).
  assert ((T / 32 * 32 - 2 ^ 20) mod 2 ^ 24 mod 32 = 0) as HF32.
  { rewrite Z.mod_mod_divide by (by exists (2 ^ 19)).
    replace (T / 32 * 32 - 2 ^ 20) with ((T / 32 - 2 ^ 15) * 32) by lia. apply Z.mod_mul. lia. }
  set (F := (T / 32 * 32 - 2 ^ 20) mod 2 ^ 24) in *. clearbody F. clear HT HT32 T.
  assert (u32 (Zc <<< 26) = (Zc mod 64 / 8) * 2 ^ 29) as ->.
  { unfold wrap. rewrite Z.shiftl_mul_pow2 by lia. change (2 ^ 32) with (2 ^ 6 * 2 ^ 26).
    rewrite Z.mul_mod_distr_r by lia. change (2 ^ 6) with 64.
    assert (Zc mod 64 mod 8 = 0) by (rewrite Z.mod_mod_divide by (by exists 8); done). euclid. }
  assert (0 <= Zc mod 64 / 8 < 8) as Hh
    by (pose proof (Z.mod_pos_bound Zc 64 ltac:(lia)); split; [apply Z.div_pos|apply Z.div_lt_upper_bound]; lia).
  assert (Zc mod 32 / 8 = (Zc mod 64 / 8) mod 4) as ->.
  { clear. euclid. }
  generalize dependent (Zc mod 64 / 8). intros h Hh. clear H8 Zc.
  rewrite <-Z.lor_assoc, <-Z.lor_assoc. rewrite Z.lor_assoc.
  assert (0x90000000 ||| (h * 2 ^ 29) = (9 + 2 * (h mod 4)) <<< 28) as E.
  { apply (forall_range (fun h => (0x90000000 ||| (h * 2 ^ 29)) =? ((9 + 2 * (h mod 4)) <<< 28)) 8) in Hh; [|reflexivity].
    by apply Z.eqb_eq in Hh. }
  rewrite <-Z.lor_assoc. rewrite (Z.lor_assoc 0x90000000), E, (Z.lor_comm (_ <<< 28) F).
  rewrite lor_shiftl_add by lia.
  replace (F + (9 + 2 * (h mod 4)) * 2 ^ 28) with ((F / 32 + (9 + 2 * (h mod 4)) * 2 ^ 23) <<< 5)
    by (rewrite Z.shiftl_mul_pow2 by lia; euclid).
  rewrite lor_shiftl_add by lia. clear E Hh. euclid.
Qed.

(** An ADRP whose page is near. *)
Lemma arm64_adr e pc hi lo :
  in_width 32 pc -> 0 <= hi < 4 -> 0 <= lo < 2 ^ 24 -> (lo + 2 ^ 20) mod 2 ^ 24 < 2 ^ 21 ->
  ARM64_instr e pc (0x90000000 + hi * 2 ^ 29 + lo) =
    Some (adrp_store (BR_CONVERT_VAL e (adrp_value hi lo) (pc / 2 ^ 12 * 8) mod 2 ^ 21) (lo mod 32)).
Proof.
  intros Hpc Hhi Hlo Hnear. set (v := 0x90000000 + hi * 2 ^ 29 + lo).
  assert (in_width 32 v) as Hv by (unfold v, in_width; lia).
  unfold ARM64_instr. rewrite arm64_bl_test by done.
  destruct (Z.eqb_spec (v / 2 ^ 26) 37) as [E|_]; [exfalso; unfold v in E; euclid|]. cbv zeta.
  assert (u32 (v - 0x90000000) = hi * 2 ^ 29 + lo) as -> by (unfold v, wrap; rewrite Z.mod_small; lia).
  rewrite arm64_adr_test by (unfold in_width; lia).
  assert ((hi * 2 ^ 29 + lo) / 2 ^ 31 = 0) as -> by (apply Z.div_small; lia).
  assert ((hi * 2 ^ 29 + lo) mod 2 ^ 29 / 2 ^ 24 = 0) as ->.
  { rewrite Z.add_comm, Z.mod_add, Z.mod_small by lia. apply Z.div_small. lia. }
  cbn [Z.eqb andb]. change ARM64_flag with (2 ^ 20). change ARM64_mask with (2 ^ 24 - 2 ^ 21).
  assert (u32 (hi * 2 ^ 29 + lo + 2 ^ 20) = hi * 2 ^ 29 + (lo + 2 ^ 20)) as -> by (unfold wrap; rewrite Z.mod_small; lia).
  set (m := lo + 2 ^ 20) in *. set (v2 := hi * 2 ^ 29 + m).
  assert (v2 mod 2 ^ 24 = m mod 2 ^ 24) as Hs.
  { unfold v2. replace (hi * 2 ^ 29 + m) with (m + hi * 2 ^ 5 * 2 ^ 24) by lia. apply Z.mod_add. lia. }
  rewrite (land_mask 21 24) by lia. rewrite Hs, (Z.div_small (m mod 2 ^ 24)) by (split; [apply Z.mod_pos_bound; lia|done]).
  cbn [Z.mul Z.eqb negb].
  change ((2 ^ 20 <<< 1) - 1) with (2 ^ 21 - 1). change 0x1f with (2 ^ 5 - 1). rewrite (land_ones_mod 5) by lia.
  assert (v2 mod 2 ^ 5 = lo mod 32) as ->.
  { unfold v2, m. replace (hi * 2 ^ 29 + (lo + 2 ^ 20)) with (lo + (hi * 2 ^ 24 + 2 ^ 15) * 2 ^ 5) by lia. apply Z.mod_add. lia. }
  assert ((pc >>> (12 - 3)) &&& u32 (Z.lnot 7) = pc / 2 ^ 12 * 8) as ->.
  { change (u32 (Z.lnot 7)) with (2 ^ 32 - 2 ^ 3). rewrite land_mask, Z.shiftr_div_pow2 by lia.
    unfold in_width in Hpc. rewrite (Z.mod_small (pc / _)) by euclid. rewrite Z.div_div by lia. done. }
  assert ((v2 &&& 0xffffffe0) ||| (v2 >>> 26) = v2 / 32 * 32 + 8 * hi) as ->.
  { change 0xffffffe0 with (2 ^ 32 - 2 ^ 5). rewrite land_mask, Z.shiftr_div_pow2 by lia.
    assert (v2 / 2 ^ 26 = 8 * hi) as -> by (unfold v2, m; euclid).
    rewrite (Z.mod_small v2) by (unfold v2, m; lia).
    rewrite Z.lor_comm. change (2 ^ 5) with 32. replace (v2 / 32 * 32) with ((v2 / 32) <<< 5) by (rewrite Z.shiftl_mul_pow2 by lia; lia).
    rewrite lor_shiftl_add, Z.shiftl_mul_pow2 by lia. lia. }
  set (z := v2 / 32 * 32 + 8 * hi). set (c := pc / 2 ^ 12 * 8).
  assert (z mod 2 ^ 21 = adrp_value hi lo mod 2 ^ 21) as Hz.
  { unfold z, adrp_value. fold m. rewrite <-Hs.
    replace (v2 / 32 * 32 + 8 * hi) with (v2 mod 2 ^ 24 / 32 * 32 + 8 * hi + v2 / 2 ^ 24 * 2 ^ 3 * 2 ^ 21) by (clear; euclid).
    apply Z.mod_add. lia. }
  assert (z mod 8 = 0) as Hz8 by (unfold z; clear; euclid). assert (c mod 8 = 0) as Hc8 by (unfold c; clear; euclid).
  f_equal. apply arm64_assemble; [apply Z.mod_pos_bound; lia|by apply convert_mult8|].
  rewrite !convert_mod by lia. destruct e.
  - rewrite <-Zplus_mod_idemp_l, <-Hz, Zplus_mod_idemp_l. done.
  - rewrite <-Zminus_mod_idemp_l, <-Hz, Zminus_mod_idemp_l. done.
Qed.

Lemma arm64_cases v :
  in_width 32 v ->
  v / 2 ^ 26 = 37 \/
  (exists hi lo, v = 0x90000000 + hi * 2 ^ 29 + lo /\ 0 <= hi < 4 /\ 0 <= lo < 2 ^ 24 /\ (lo + 2 ^ 20) mod 2 ^ 24 < 2 ^ 21) \/
  (forall e pc, ARM64_instr e pc v = None).
Proof.
  intros Hv. destruct (Z.eq_dec (v / 2 ^ 26) 37) as [E|E]; [by left|right].
  set (x := u32 (v - 0x90000000)). assert (in_width 32 x) as Hx by (apply wrap_in_width; lia).
  destruct (decide (x / 2 ^ 31 = 0 /\ x mod 2 ^ 29 / 2 ^ 24 = 0)) as [[H1 H2]|Hn].
  - assert (x < 2 ^ 31) as Hx31 by (unfold in_width in Hx; clear - H1 Hx; euclid).
    set (hi := x / 2 ^ 29) in *. set (lo := x mod 2 ^ 29) in *.
    assert (x = hi * 2 ^ 29 + lo) as Ex by (unfold hi, lo; pose proof (Z.div_mod x (2 ^ 29)); lia).
    assert (0 <= hi < 4) as Hhi by (unfold hi; split; [apply Z.div_pos|apply Z.div_lt_upper_bound]; unfold in_width in Hx; lia).
    assert (0 <= lo < 2 ^ 24) as Hlo.
    { pose proof (Z.mod_pos_bound x (2 ^ 29) ltac:(lia)). fold lo in H. clear - H2 H. euclid. }
    assert (v = 0x90000000 + hi * 2 ^ 29 + lo) as Ev.
    { clearbody hi lo. unfold x, wrap in Ex. unfold in_width in Hv. clear - Ex Hhi Hlo Hv. euclid. }
    destruct (Z.lt_ge_cases ((lo + 2 ^ 20) mod 2 ^ 24) (2 ^ 21)) as [Hs|Hs]; [left; by exists hi, lo|right].
    intros e pc. unfold ARM64_instr. rewrite arm64_bl_test by done. destruct (Z.eqb_spec (v / 2 ^ 26) 37); [done|].
    cbv zeta. destruct (_ =? 0); [|done].
    fold x. change ARM64_flag with (2 ^ 20). change ARM64_mask with (2 ^ 24 - 2 ^ 21). rewrite land_mask by lia.
    assert (u32 (x + 2 ^ 20) mod 2 ^ 24 = (lo + 2 ^ 20) mod 2 ^ 24) as ->.
    { unfold wrap. rewrite Z.mod_mod_divide by (by exists (2 ^ 8)). rewrite Ex.
      replace (hi * 2 ^ 29 + lo + 2 ^ 20) with (lo + 2 ^ 20 + hi * 2 ^ 5 * 2 ^ 24) by lia. apply Z.mod_add. lia. }
    destruct (Z.eqb_spec ((lo + 2 ^ 20) mod 2 ^ 24 / 2 ^ 21 * 2 ^ 21) 0) as [E0|]; [|done].
    exfalso. clear - E0 Hs. euclid.
  - right. intros e pc. unfold ARM64_instr. rewrite arm64_bl_test by done. destruct (Z.eqb_spec (v / 2 ^ 26) 37); [done|].
    cbv zeta. fold x. rewrite arm64_adr_test by done.
    destruct (Z.eqb_spec (x / 2 ^ 31) 0), (Z.eqb_spec (x mod 2 ^ 29 / 2 ^ 24) 0); try done. by destruct Hn.
Qed.

(** What ADRP stores reads back. *)
Lemma adrp_store_value T rd :
  0 <= T < 2 ^ 21 -> T mod 8 = 0 -> 0 <= rd < 32 ->
  exists hi lo, adrp_store T rd = 0x90000000 + hi * 2 ^ 29 + lo /\ 0 <= hi < 4 /\ 0 <= lo < 2 ^ 24 /\
    (lo + 2 ^ 20) mod 2 ^ 24 < 2 ^ 21 /\ adrp_value hi lo = T /\ lo mod 32 = rd.
Proof.
  intros HT H8 Hrd. exists (T mod 32 / 8), ((T / 32 * 32 - 2 ^ 20) mod 2 ^ 24 + rd).
  assert (0 <= T mod 32 / 8 < 4) as Hhi by (pose proof (Z.mod_pos_bound T 32); split; [apply Z.div_pos|apply Z.div_lt_upper_bound]; lia).
  set (t := T / 32). assert (0 <= t < 2 ^ 16) as Ht by (unfold t; split; [apply Z.div_pos|apply Z.div_lt_upper_bound]; lia).
  assert ((t * 32 - 2 ^ 20) mod 2 ^ 24 = (t - 2 ^ 15) mod 2 ^ 19 * 32) as EF.
  { replace (t * 32 - 2 ^ 20) with ((t - 2 ^ 15) * 32) by lia. change (2 ^ 24) with (2 ^ 19 * 32). by rewrite Z.mul_mod_distr_r by lia. }
  pose proof (Z.mod_pos_bound (t - 2 ^ 15) (2 ^ 19) ltac:(lia)) as Hf.
  assert (((t * 32 - 2 ^ 20) mod 2 ^ 24 + rd + 2 ^ 20) mod 2 ^ 24 = t * 32 + rd) as Es.
  { replace ((t * 32 - 2 ^ 20) mod 2 ^ 24 + rd + 2 ^ 20) with ((t * 32 - 2 ^ 20) mod 2 ^ 24 + (rd + 2 ^ 20)) by lia.
    rewrite Zplus_mod_idemp_l. replace (t * 32 - 2 ^ 20 + (rd + 2 ^ 20)) with (t * 32 + rd) by lia. apply Z.mod_small. lia. }
  split; [unfold adrp_store; fold t; lia|]. split; [done|]. rewrite EF in *. split; [lia|].
  split; [rewrite Es; lia|]. split.
  - unfold adrp_value. rewrite Es. clear EF Es Hf. unfold t. clear - H8 Hrd HT. euclid.
  - rewrite Z.add_comm, Z.mod_add by lia. apply Z.mod_small. lia.
Qed.

Lemma adrp_value_store hi lo :
  0 <= hi < 4 -> 0 <= lo < 2 ^ 24 -> (lo + 2 ^ 20) mod 2 ^ 24 < 2 ^ 21 ->
  0 <= adrp_value hi lo < 2 ^ 21 /\ adrp_value hi lo mod 8 = 0 /\
  adrp_store (adrp_value hi lo) (lo mod 32) = 0x90000000 + hi * 2 ^ 29 + lo.
Proof.
  intros Hhi Hlo Hs. unfold adrp_value, adrp_store.
  assert ((lo + 2 ^ 20) mod 2 ^ 24 mod 32 = lo mod 32) as Hrd.
  { rewrite Z.mod_mod_divide by (by exists (2 ^ 19)). replace (lo + 2 ^ 20) with (lo + 2 ^ 15 * 32) by lia. apply Z.mod_add. lia. }
  pose proof (Z.mod_pos_bound (lo + 2 ^ 20) (2 ^ 24) ltac:(lia)) as Hs0.
  assert (((lo + 2 ^ 20) mod 2 ^ 24 - lo mod 32 - 2 ^ 20) mod 2 ^ 24 = lo - lo mod 32) as Hback.
  { replace ((lo + 2 ^ 20) mod 2 ^ 24 - lo mod 32 - 2 ^ 20) with ((lo + 2 ^ 20) mod 2 ^ 24 - (lo mod 32 + 2 ^ 20)) by lia.
    rewrite Zminus_mod_idemp_l. replace (lo + 2 ^ 20 - (lo mod 32 + 2 ^ 20)) with (lo - lo mod 32) by lia.
    apply Z.mod_small. clear - Hlo. euclid. }
  set (s := (lo + 2 ^ 20) mod 2 ^ 24) in *. clearbody s.
  split; [clear - Hs Hs0 Hhi; euclid|]. split; [clear - Hs; euclid|].
  assert ((s / 32 * 32 + 8 * hi) mod 32 / 8 = hi) as -> by (clear - Hhi; euclid).
  assert ((s / 32 * 32 + 8 * hi) / 32 * 32 = s - lo mod 32) as -> by (rewrite <-Hrd; clear - Hhi; euclid).
  rewrite Hback. lia.
Qed.

Lemma ARM64_undo e : undoes (ARM64_instr e) (ARM64_instr (negb e)) (in_width 32).
Proof.
  intros pc v Hpc Hv. destruct (arm64_cases v Hv) as [E|[(hi & lo & -> & Hhi & Hlo & Hs)|Hn]]; [| |by rewrite !Hn].
  - unfold ARM64_instr. rewrite arm64_bl_test by done. rewrite E. cbn [Z.eqb Pos.eqb]. cbv zeta.
    assert (forall x, (x &&& 0x03ffffff) ||| 0x94000000 = 37 * 2 ^ 26 + x mod 2 ^ 26) as Hset
      by (intros x; apply (set_high x 26 37); lia). rewrite !Hset.
    assert (in_width 32 (37 * 2 ^ 26 + BR_CONVERT_VAL e v (pc >>> 2) mod 2 ^ 26)) as Hw by (apply in_width_field; lia).
    destruct (convert_field_undo e v (pc >>> 2) 26 37 ltac:(lia) ltac:(lia) E) as [H1 H2].
    split; [done|]. rewrite arm64_bl_test by done. rewrite H1. cbn [Z.eqb Pos.eqb]. by rewrite H2.
  - rewrite arm64_adr by done. set (c := pc / 2 ^ 12 * 8).
    destruct (adrp_value_store hi lo Hhi Hlo Hs) as (Hv1 & Hv8 & Hvs).
    set (T := BR_CONVERT_VAL e (adrp_value hi lo) c mod 2 ^ 21).
    assert (0 <= T < 2 ^ 21) as HT by (apply Z.mod_pos_bound; lia).
    assert (T mod 8 = 0) as HT8.
    { unfold T. rewrite Z.mod_mod_divide by (by exists (2 ^ 18)). apply convert_mult8; [done|unfold c; clear; euclid]. }
    destruct (adrp_store_value T (lo mod 32) HT HT8 ltac:(apply Z.mod_pos_bound; lia)) as (hi' & lo' & Es & Hhi' & Hlo' & Hs' & Ev & Er).
    rewrite Es. split; [unfold in_width; lia|]. rewrite arm64_adr by done. rewrite Ev, Er. fold c. f_equal.
    assert (BR_CONVERT_VAL (negb e) T c mod 2 ^ 21 = adrp_value hi lo) as ->; [|done].
    unfold T. rewrite !convert_mod by lia. pose proof (convert_undo e (2 ^ 21) 0 (adrp_value hi lo) c ltac:(lia)) as H.
    rewrite Z.mul_0_l, Z.add_0_l in H. rewrite H. by apply Z.mod_small.
Qed.

(** ** Theorems *)

Inductive isa := ARM64 | ARM | PPC | SPARC.

Definition instr_of (i : isa) : bool -> Z -> Z -> option Z :=
  match i with ARM64 => ARM64_instr | ARM => ARM_instr | PPC => PPC_instr | SPARC => SPARC_instr end.

Definition adjust_of (i : isa) : Z := match i with ARM => 4 | _ => -4 end.

Definition converter (i : isa) : bool -> list Z -> Z -> Z -> option (list Z * Z) :=
  match i with
  | ARM64 => BranchConv_ARM64 | ARM => BranchConv_ARM | PPC => BranchConv_PPC | SPARC => BranchConv_SPARC
  end.

(** Addresses that the two big-endian sets can express: multiples of four. *)
Definition pc_fits (i : isa) (pc : Z) : Prop := match i with ARM64 | ARM => True | PPC | SPARC => pc mod 4 = 0 end.

Lemma converter_map i e data size pc :
  0 <= size <= Z.of_nat (length data) ->
  converter i e data size pc =
    Some (map_instr (instr_of i e) (pc + adjust_of i) 0 (take (Z.to_nat (size - size mod 4)) data) ++
          drop (Z.to_nat (size - size mod 4)) data, size - size mod 4).
Proof. intros. destruct i; by apply conv4_map. Qed.

Lemma converter_undoes i e :
  undoes (instr_of i e) (instr_of i (negb e)) (fun pc => in_width 32 pc /\ pc_fits i pc).
Proof.
  intros pc v [Hpc Hfit] Hv.
  destruct i; [by apply ARM64_undo|by apply ARM_undo|by apply PPC_undo|by apply SPARC_undo].
Qed.

Lemma pc_at i pc k : pc_fits i pc -> in_width 32 (BR_PC_GET (pc + adjust_of i) (0 + 4 * k)) /\
  pc_fits i (BR_PC_GET (pc + adjust_of i) (0 + 4 * k)).
Proof.
  intros Hp. split; [apply wrap_in_width; lia|]. unfold BR_PC_GET, wrap.
  destruct i; try done; cbn in *; rewrite Z.mod_mod_divide by (by exists (2 ^ 30)); euclid.
Qed.

(** C37: The ARM64, ARM, PPC and SPARC converters are inverse to each other: for any data, size
    and program counter (a multiple of four for PPC and SPARC) decoding what was encoded
    gives the data back, and encoding what was decoded too. *)
Theorem BranchConv_roundtrip (i : isa) (encoding : bool) (data : list Z) (size pc : Z)
    (Hdata : bytes data) (Hsize : 0 <= size <= Z.of_nat (length data)) (Hpc : pc_fits i pc) :
  exists data' processed,
    converter i encoding data size pc = Some (data', processed) /\ bytes data' /\
    converter i (negb encoding) data' size pc = Some (data, processed).
Proof.
  set (n := size - size mod 4). pose proof (Z.mod_pos_bound size 4 ltac:(lia)).
  assert (0 <= n <= size) as Hn by (unfold n; euclid).
  destruct (map_instr_undo _ _ _ (pc + adjust_of i) (take (Z.to_nat n) data) 0 (converter_undoes i encoding)
    (bytes_take _ _ Hdata) (fun k => pc_at i pc k Hpc)) as [H1 H2].
  rewrite converter_map by done. fold n. eexists _, _. split; [reflexivity|].
  split; [apply Forall_app; split; [done|by apply bytes_drop]|].
  set (m := map_instr (instr_of i encoding) (pc + adjust_of i) 0 (take (Z.to_nat n) data)) in *. assert (length m = Z.to_nat n) as Hm.
  { unfold m. rewrite map_instr_length, length_take. lia. }
  rewrite converter_map by (rewrite length_app, length_drop; lia). fold n.
  rewrite take_app_length', drop_app_length' by done. by rewrite H1, take_drop.
Qed.

Lemma BranchConv_roundtrip_witness :
  exists data' processed,
    converter ARM64 true [0; 0; 0; 0x94; 1; 2; 3; 4; 5; 0; 0; 0x90; 6] 13 0x1000 = Some (data', processed) /\
    converter ARM64 false data' 13 0x1000 = Some ([0; 0; 0; 0x94; 1; 2; 3; 4; 5; 0; 0; 0x90; 6], processed).
Proof.
  destruct (BranchConv_roundtrip ARM64 true [0; 0; 0; 0x94; 1; 2; 3; 4; 5; 0; 0; 0x90; 6] 13 0x1000
    ltac:(byte_list) ltac:(cbn; lia) I) as (d & n & H1 & _ & H2).
  exists d, n. split; [exact H1|exact H2].
Defined.

(** C39: The converters' loops treat every instruction by itself, at its own address: the
    result is the map of the instruction conversion over the groups of four bytes.  They
    return the number of whole instructions' bytes, keep the size of the buffer, and leave
    every byte from there on alone, for any size inside the buffer. *)
Theorem BranchConv_instructions (i : isa) (encoding : bool) (data : list Z) (size pc : Z)
    (Hsize : 0 <= size <= Z.of_nat (length data)) :
  exists data',
    converter i encoding data size pc = Some (data', size - size mod 4) /\
    length data' = length data /\
    take (Z.to_nat (size - size mod 4)) data' =
      map_instr (instr_of i encoding) (pc + adjust_of i) 0 (take (Z.to_nat (size - size mod 4)) data) /\
    drop (Z.to_nat (size - size mod 4)) data' = drop (Z.to_nat (size - size mod 4)) data.
Proof.
  pose proof (Z.mod_pos_bound size 4 ltac:(lia)). rewrite converter_map by done.
  assert (0 <= size - size mod 4 <= size) as Hn by euclid. set (n := size - size mod 4) in *.
  set (m := map_instr _ _ _ _). assert (length m = Z.to_nat n) as Hm by (unfold m; rewrite map_instr_length, length_take; lia).
  eexists. split; [reflexivity|]. rewrite take_app_length', drop_app_length' by done.
  rewrite length_app, Hm, length_drop. split; [lia|done].
Qed.

Lemma BranchConv_instructions_witness :
  exists data', converter ARM true [0; 0; 0; 0xeb; 1; 2; 3; 4; 5] 9 0x1000 = Some (data', 8) /\ length data' = 9%nat.
Proof.
  destruct (BranchConv_instructions ARM true [0; 0; 0; 0xeb; 1; 2; 3; 4; 5] 9 0x1000 ltac:(cbn; lia)) as (d & H1 & H2 & _).
  exists d. split; [exact H1|exact H2].
Defined.
