(* ===== verification/Bra86Ok.v ===== *)
(** * Branch converter for x86: decoding undoes encoding

    z7_BranchConvSt_X86 (Bra86.v) is the walk of the reference over the data, for any state
    it is given, and both directions take the same decisions at the same places: an operand
    that is converted keeps what the decisions before it looked at. *)

From stdpp Require Import base numbers list list_numbers.
From Stdlib Require Import ZArith Lia.
From S2P Require Import Prelude Bra Bra86 BraWords.
Local Open Scope Z_scope.
Local Open Scope word_scope.

(** ** Bytes *)

Lemma mod_byte x n : 0 <= n -> (x >>> (n * 8)) &&& 0xfe = ((x / 2 ^ (n * 8)) mod 256) &&& 0xfe.
Proof.
  intros Hn. rewrite Z.shiftr_div_pow2 by lia. set (y := x / 2 ^ (n * 8)).
  rewrite <-land_255, <-Z.land_assoc. done.
Qed.

(** A byte of the word that the scan loads. *)
Lemma scan_byte v n b :
  0 <= n <= 3 -> (v / 2 ^ (n * 8)) mod 256 = b -> BR86_IS_BCJ_BYTE (v ^^^ 0xe8e8e8e8) n = is_branch b.
Proof.
  intros Hn <-. unfold BR86_IS_BCJ_BYTE, is_branch. rewrite <-mod_byte by lia.
  assert ((v ^^^ 0xe8e8e8e8) &&& (0xfe <<< (n * 8)) = ((((v >>> (n * 8)) &&& 0xfe) ^^^ 0xe8) <<< (n * 8))) as ->.
  { assert (0xe8 = (0xe8e8e8e8 >>> (n * 8)) &&& 0xfe) as E by (assert (n = 0 \/ n = 1 \/ n = 2 \/ n = 3) as [->|[->|[->| ->]]] by lia; done).
    rewrite E at 1. apply Z.bits_inj'. intros i Hi. rewrite Z.land_spec, !Z.shiftl_spec by lia.
    destruct (Z.lt_ge_cases i (n * 8)) as [Hlt|Hge]; [rewrite !(Z.testbit_neg_r _ (i - n * 8)) by lia; by rewrite andb_false_r|].
    rewrite !Z.lxor_spec, !Z.land_spec, !Z.shiftr_spec, Z.sub_add by lia. by destruct (Z.testbit v i), (Z.testbit 0xe8e8e8e8 i), (Z.testbit 0xfe (i - n * 8)). }
  apply eq_iff_eq_true. rewrite !Z.eqb_eq. rewrite Z.shiftl_eq_0_iff by lia. apply Z.lxor_eq_0_iff.
Qed.

Lemma x86_need_spec b : BR86_NEED_CONV_FOR_MS_BYTE b = ((b mod 256 =? 0) || (b mod 256 =? 255)).
Proof.
  unfold BR86_NEED_CONV_FOR_MS_BYTE. change 0xfe with (2 ^ 8 - 2 ^ 1). rewrite land_mask by lia. change (2 ^ 8) with 256. change (2 ^ 1) with 2.
  pose proof (Z.mod_pos_bound b 256 ltac:(lia)) as Hb.
  assert ((b + 1) mod 256 = if b mod 256 =? 255 then 0 else b mod 256 + 1) as ->.
  { destruct (Z.eqb_spec (b mod 256) 255) as [E|E].
    - rewrite <-Zplus_mod_idemp_l, E. done.
    - rewrite <-Zplus_mod_idemp_l. apply Z.mod_small. lia. }
  apply eq_iff_eq_true. rewrite orb_true_iff, !Z.eqb_eq. destruct (Z.eqb_spec (b mod 256) 255); [by split; [right|]|].
  split; [intros H; left|by intros [->|E]]. Z.to_euclidean_division_equations; lia.
Qed.

Lemma need_mod b b' : b mod 256 = b' mod 256 -> BR86_NEED_CONV_FOR_MS_BYTE b = BR86_NEED_CONV_FOR_MS_BYTE b'.
Proof. intros E. by rewrite !x86_need_spec, E. Qed.

(** ** The operand *)

Lemma flip_spec x n : 0 <= n -> x ^^^ (2 ^ n - 1) = x + (2 ^ n - 1) - 2 * (x mod 2 ^ n).
Proof.
  intros Hn. assert (2 ^ n - 1 = Z.ones n) as E by (rewrite Z.ones_equiv; lia). pose proof (Z.pow_pos_nonneg 2 n ltac:(lia) Hn) as Hp.
  pose proof (Z.mod_pos_bound x (2 ^ n) Hp). rewrite <-(lxor_split n x) at 1 by done. rewrite E, Z.lxor_assoc, (Z.lxor_comm _ (Z.ones n)), <-Z.lxor_assoc.
  assert ((x mod 2 ^ n) ^^^ Z.ones n = Z.ones n - x mod 2 ^ n) as ->.
  { rewrite Z.sub_nocarry_ldiff; [|rewrite Z.ldiff_ones_r by lia; by rewrite Z.shiftr_div_pow2, Z.div_small, Z.shiftl_0_l by lia].
    apply Z.bits_inj'. intros i Hi. rewrite Z.lxor_spec, Z.ldiff_spec, Z.testbit_ones_nonneg by lia.
    destruct (Z.ltb_spec i n); [by destruct (Z.testbit _ i)|]. rewrite Z.mod_pow2_bits_high by lia. done. }
  rewrite lxor_shiftl_add by (lia || (rewrite Z.ones_equiv; lia)). rewrite Z.shiftr_div_pow2, Z.ones_equiv by done. pose proof (Z.div_mod x (2 ^ n)). lia.
Qed.

(** [v] of 25 bits and the operand of four bytes stand for each other. *)
Lemma operand_bytes t0 t1 t2 t3 :
  bytes [t0; t1; t2; t3] ->
  let v := u32 (le_load [t0; t1; t2; t3] + (1 <<< 24)) in
  in_width 32 v /\ ((v &&& 0xfe000000) =? 0) = BR86_NEED_CONV_FOR_MS_BYTE t3 /\
  v mod 256 = t0 /\ (v / 256) mod 256 = t1 /\ (v / 65536) mod 256 = t2 /\
  (BR86_NEED_CONV_FOR_MS_BYTE t3 = true -> v < 2 ^ 25 /\ le_bytes 4 (u32 ((v &&& ((1 <<< 25) - 1)) - (1 <<< 24))) = [t0; t1; t2; t3]).
Proof.
  intros Hb v. assert (in_width 32 v) as Hv by (apply wrap_in_width; lia). split; [done|].
  pose proof (le_bytes_load _ Hb) as Eb. cbn [length] in Eb.
  unfold bytes in Hb. rewrite !Forall_cons in Hb. destruct Hb as (H0 & H1 & H2 & H3 & _). unfold in_width in H0, H1, H2, H3.
  change (1 <<< 24) with (2 ^ 24) in *. change ((1 <<< 25) - 1) with (2 ^ 25 - 1). change 0xfe000000 with (2 ^ 32 - 2 ^ 25). rewrite land_mask, land_ones_mod by lia.
  assert (v = t0 + 256 * t1 + 65536 * t2 + 2 ^ 24 * ((t3 + 1) mod 256)) as Ev.
  { unfold v, wrap. cbn [le_load]. change (2 ^ 32) with (2 ^ 24 * 256). replace (t0 + 256 * (t1 + 256 * (t2 + 256 * (t3 + 256 * 0))) + 2 ^ 24) with (t0 + 256 * t1 + 65536 * t2 + (t3 + 1) * 2 ^ 24) by lia.
    rewrite Z.rem_mul_r by lia. rewrite Z.mod_add, Z.div_add by lia. rewrite (Z.mod_small (t0 + _ + _)), (Z.div_small (t0 + _ + _)), Z.add_0_l by lia. done. }
  assert (BR86_NEED_CONV_FOR_MS_BYTE t3 = true <-> (t3 + 1) mod 256 < 2) as Hneed.
  { rewrite x86_need_spec, orb_true_iff, !Z.eqb_eq. rewrite (Z.mod_small t3) by lia. destruct (Z.eq_dec t3 255) as [->|]; [split; [done|by right]|].
    rewrite (Z.mod_small (t3 + 1)) by lia. lia. }
  set (h := (t3 + 1) mod 256) in *. assert (0 <= h < 256) by (apply Z.mod_pos_bound; lia).
  split_and!.
  - apply eq_iff_eq_true. rewrite Hneed, Z.eqb_eq. rewrite (Z.mod_small v) by done. rewrite Ev. clear - H0 H1 H2 H. Z.to_euclidean_division_equations; lia.
  - rewrite Ev. clear - H0 H1 H2 H. Z.to_euclidean_division_equations; lia.
  - rewrite Ev. clear - H0 H1 H2 H. Z.to_euclidean_division_equations; lia.
  - rewrite Ev. clear - H0 H1 H2 H. Z.to_euclidean_division_equations; lia.
  - intros Hn%Hneed. assert (v < 2 ^ 25) by lia. split; [done|]. rewrite (Z.mod_small v) by (unfold in_width in Hv; lia).
    rewrite <-Eb. f_equal. unfold v, wrap. rewrite Zminus_mod_idemp_l, Z.add_simpl_r. apply Z.mod_small, (le_load_nonneg [t0; t1; t2; t3]). byte_list.
Qed.

Lemma need_at k x x' :
  0 <= k -> x mod 2 ^ (k + 8) = x' mod 2 ^ (k + 8) -> BR86_NEED_CONV_FOR_MS_BYTE (x >>> k) = BR86_NEED_CONV_FOR_MS_BYTE (x' >>> k).
Proof.
  intros Hk E. apply need_mod. rewrite !Z.shiftr_div_pow2 by done.
  assert (forall y, (y / 2 ^ k) mod 256 = y mod 2 ^ (k + 8) / 2 ^ k) as Hy; [|by rewrite !Hy, E].
  intros y. pose proof (Z.pow_pos_nonneg 2 k ltac:(lia) Hk). rewrite Z.pow_add_r, Z.rem_mul_r by lia. change (2 ^ 8) with 256.
  rewrite (Z.mul_comm (2 ^ k)), Z.div_add, (Z.div_small (y mod 2 ^ k)) by (lia || (apply Z.mod_pos_bound; lia)). done.
Qed.

(** Inverted bits: the same test. *)
Lemma need_flip k x : 0 <= k -> BR86_NEED_CONV_FOR_MS_BYTE ((- 1 - x) >>> k) = BR86_NEED_CONV_FOR_MS_BYTE (x >>> k).
Proof.
  intros Hk. rewrite !x86_need_spec, !Z.shiftr_div_pow2 by done.
  assert ((-1 - x) / 2 ^ k = -1 - x / 2 ^ k) as ->.
  { pose proof (Z.pow_pos_nonneg 2 k ltac:(lia) Hk). pose proof (Z.div_mod x (2 ^ k) ltac:(lia)). pose proof (Z.mod_pos_bound x (2 ^ k) ltac:(lia)).
    symmetry. apply (Z.div_unique _ _ _ (2 ^ k - 1 - x mod 2 ^ k)); [left; lia|lia]. }
  set (y := x / 2 ^ k). assert ((-1 - y) mod 256 = 255 - y mod 256) as ->.
  { pose proof (Z.mod_pos_bound y 256). pose proof (Z.div_mod y 256). replace (-1 - y) with (255 - y mod 256 + (-1 - y / 256) * 256) by lia.
    rewrite Z.mod_add by lia. apply Z.mod_small. lia. }
  apply eq_iff_eq_true. rewrite !orb_true_iff, !Z.eqb_eq. lia.
Qed.

Lemma u32_low x : exists j, u32 x = x + j * 2 ^ 25.
Proof. exists (- (x / 2 ^ 32) * 2 ^ 7). unfold wrap. pose proof (Z.div_mod x (2 ^ 32)). lia. Qed.

Lemma mod_low n x j : 0 <= n <= 25 -> (x + j * 2 ^ 25) mod 2 ^ n = x mod 2 ^ n.
Proof. intros Hn. replace (2 ^ 25) with (2 ^ (25 - n) * 2 ^ n) by (rewrite <-Z.pow_add_r by lia; f_equal; lia). rewrite Z.mul_assoc. apply Z.mod_add, Z.pow_nonzero; lia. Qed.

Lemma flip_low n x j : 0 <= n <= 25 -> (x + j * 2 ^ 25) ^^^ (2 ^ n - 1) = (x ^^^ (2 ^ n - 1)) + j * 2 ^ 25.
Proof. intros Hn. rewrite !flip_spec, mod_low by lia. lia. Qed.

Lemma flip_flip n x : (x ^^^ (2 ^ n - 1)) ^^^ (2 ^ n - 1) = x.
Proof. by rewrite Z.lxor_assoc, Z.lxor_nilpotent, Z.lxor_0_r. Qed.

Lemma flip_mod n x : 0 <= n -> (x ^^^ (2 ^ n - 1)) mod 2 ^ n = (-1 - x) mod 2 ^ n.
Proof.
  intros Hn. rewrite flip_spec by done. pose proof (Z.pow_pos_nonneg 2 n ltac:(lia) Hn). pose proof (Z.div_mod x (2 ^ n) ltac:(lia)).
  replace (x + (2 ^ n - 1) - 2 * (x mod 2 ^ n)) with (-1 - x + (1 + 2 * (x / 2 ^ n)) * 2 ^ n) by lia. apply Z.mod_add. lia.
Qed.

(** One conversion that keeps the byte at bit [k] off 0x00 and 0xff, with [s] added. *)
Definition convert_off (k s v : Z) : Z :=
  let x := v + s in if BR86_NEED_CONV_FOR_MS_BYTE (x >>> k) then (x ^^^ (2 ^ (k + 8) - 1)) + s else x.

Lemma convert_off_low k s v j : 0 <= k <= 17 -> convert_off k s (v + j * 2 ^ 25) = convert_off k s v + j * 2 ^ 25.
Proof.
  intros Hk. unfold convert_off. replace (v + j * 2 ^ 25 + s) with (v + s + j * 2 ^ 25) by lia. rewrite flip_low by lia.
  rewrite (need_at k (v + s + j * 2 ^ 25) (v + s)) by (lia || (apply mod_low; lia)). destruct (BR86_NEED_CONV_FOR_MS_BYTE _); lia.
Qed.

Lemma convert_off_undo k s v :
  0 <= k -> BR86_NEED_CONV_FOR_MS_BYTE (v >>> k) = false ->
  BR86_NEED_CONV_FOR_MS_BYTE (convert_off k s v >>> k) = false /\ convert_off k (- s) (convert_off k s v) = v.
Proof.
  intros Hk Hv. unfold convert_off. destruct (BR86_NEED_CONV_FOR_MS_BYTE ((v + s) >>> k)) eqn:E.
  - set (y := (v + s) ^^^ (2 ^ (k + 8) - 1)). assert (y mod 2 ^ (k + 8) = (-1 - (v + s)) mod 2 ^ (k + 8)) as Ey by (apply flip_mod; lia). split.
    + rewrite <-Hv, <-(need_flip k v) by done. apply need_at; [done|]. rewrite <-Zplus_mod_idemp_l, Ey, Zplus_mod_idemp_l. f_equal. lia.
    + replace (y + s + - s) with y by lia. rewrite (need_at k y (-1 - (v + s))), need_flip, E by done. unfold y. rewrite flip_flip. lia.
  - split; [done|]. replace (v + s + - s) with v by lia. by rewrite Hv.
Qed.

Definition signed (encoding : bool) (c : Z) : Z := if encoding then c else - c.

Lemma convert_signed e v c : exists j, BR_CONVERT_VAL e v c = v + signed e c + j * 2 ^ 25.
Proof. unfold BR_CONVERT_VAL, signed. destruct e; apply u32_low. Qed.

Definition x86_keeps (mask k : Z) : Prop := mask = 1 /\ k = 0 \/ mask = 2 /\ k = 8 \/ mask = 4 /\ k = 16.

Lemma operand_off e mask k c v : x86_keeps mask k -> exists j, operand e mask c v = convert_off k (signed e c) v + j * 2 ^ 25.
Proof.
  intros Hk. unfold operand. assert ((mask =? 0) = false /\ (mask >>> 1) <<< 3 = k /\ u32 (0x100 <<< k) = 2 ^ (k + 8) /\ 0 <= k <= 16) as (-> & -> & -> & Hk')
    by (destruct Hk as [[-> ->]|[[-> ->]|[-> ->]]]; done).
  destruct (convert_signed e v c) as [j ->]. rewrite (need_at k (v + signed e c + j * 2 ^ 25) (v + signed e c)) by (lia || (apply mod_low; lia)). unfold convert_off.
  destruct (BR86_NEED_CONV_FOR_MS_BYTE _); [|by exists j]. rewrite flip_low by lia. destruct (convert_signed e ((v + signed e c) ^^^ (2 ^ (k + 8) - 1) + j * 2 ^ 25) c) as [i ->].
  exists (i + j). lia.
Qed.

Lemma operand_undo e mask c v :
  0 <= v < 2 ^ 25 -> mask = 0 \/ (exists k, x86_keeps mask k /\ BR86_NEED_CONV_FOR_MS_BYTE (v >>> k) = false) ->
  let w := operand e mask c v mod 2 ^ 25 in
  operand (negb e) mask c w mod 2 ^ 25 = v /\ forall k, x86_keeps mask k -> BR86_NEED_CONV_FOR_MS_BYTE (w >>> k) = false.
Proof.
  intros Hv [->|(k & Hk & Hneed)] w.
  - split; [|intros k [[? ?]|[[? ?]|[? ?]]]; done]. subst w. unfold operand. rewrite !Z.eqb_refl.
    pose proof (convert_undo e (2 ^ 25) 0 v c ltac:(lia)) as H. rewrite Z.mul_0_l, !Z.add_0_l in H. rewrite !convert_mod by lia. rewrite H. by apply Z.mod_small.
  - assert (0 <= k <= 16) as Hk' by (destruct Hk as [[-> ->]|[[-> ->]|[-> ->]]]; lia).
    destruct (operand_off e mask k c v Hk) as [j Ej]. destruct (convert_off_undo k (signed e c) v) as [H1 H2]; [lia|done|].
    assert (exists i, w = convert_off k (signed e c) v + i * 2 ^ 25) as [i Ei].
    { exists (j - operand e mask c v / 2 ^ 25). unfold w. pose proof (Z.div_mod (operand e mask c v) (2 ^ 25)). lia. }
    clearbody w. subst w. split.
    + destruct (operand_off (negb e) mask k c (convert_off k (signed e c) v + i * 2 ^ 25) Hk) as [i' ->]. rewrite convert_off_low by lia.
      assert (signed (negb e) c = - signed e c) as -> by (destruct e; cbn; lia). rewrite H2.
      replace (v + i * 2 ^ 25 + i' * 2 ^ 25) with (v + (i + i') * 2 ^ 25) by lia. rewrite Z.mod_add by lia. by apply Z.mod_small.
    + intros k' Hk''. assert (k' = k) as -> by (destruct Hk as [[-> ->]|[[-> ->]|[-> ->]]], Hk'' as [[E ->]|[[E ->]|[E ->]]]; done).
      rewrite <-H1. apply need_at; [lia|]. apply mod_low. lia.
Qed.

(** ** Operands in the data *)

Lemma converts_keeps mask t0 t1 t2 t3 :
  bytes [t0; t1; t2; t3] -> converts mask t0 t1 t2 t3 = true ->
  BR86_NEED_CONV_FOR_MS_BYTE t3 = true /\
  let v := u32 (le_load [t0; t1; t2; t3] + (1 <<< 24)) in
  (mask = 0 \/ exists k, x86_keeps mask k /\ BR86_NEED_CONV_FOR_MS_BYTE (v >>> k) = false).
Proof.
  intros Hb [Hn Hm]%andb_true_iff. split; [done|]. intros v. destruct (operand_bytes _ _ _ _ Hb) as (_ & _ & E0 & E1 & E2 & _). fold v in E0, E1, E2. clearbody v. clear Hb.
  assert (mask = 0 \/ mask = 1 \/ mask = 2 \/ mask = 4) as [->|[->|[->| ->]]] by (destruct mask as [|[[]|[[]|[]|]|]|]; auto; done); [by left|right..].
  - exists 0. split; [by left|]. apply negb_true_iff in Hm. rewrite <-Hm. apply need_mod. rewrite Z.shiftr_0_r, E0. subst t0. by rewrite Zmod_mod.
  - exists 8. split; [right; by left|]. apply negb_true_iff in Hm. rewrite <-Hm. apply need_mod. rewrite Z.shiftr_div_pow2 by done. change (2 ^ 8) with 256. rewrite E1. subst t1. by rewrite Zmod_mod.
  - exists 16. split; [right; by right|]. apply negb_true_iff in Hm. rewrite <-Hm. apply need_mod. rewrite Z.shiftr_div_pow2 by done. change (2 ^ 16) with 65536. rewrite E2. subst t2. by rewrite Zmod_mod.
Qed.

Lemma converts_of_keeps mask s0 s1 s2 s3 :
  bytes [s0; s1; s2; s3] -> BR86_NEED_CONV_FOR_MS_BYTE s3 = true ->
  mask = 0 \/ (exists k, x86_keeps mask k /\ BR86_NEED_CONV_FOR_MS_BYTE (u32 (le_load [s0; s1; s2; s3] + (1 <<< 24)) >>> k) = false) ->
  converts mask s0 s1 s2 s3 = true.
Proof.
  intros Hb Hn Hm. unfold converts. rewrite Hn. cbn [andb]. destruct (operand_bytes _ _ _ _ Hb) as (_ & _ & E0 & E1 & E2 & _).
  set (v := u32 _) in *. clearbody v.
  destruct Hm as [->|(k & [[-> ->]|[[-> ->]|[-> ->]]] & Hk)]; [done|..]; apply negb_true_iff; rewrite <-Hk; apply need_mod; rewrite Z.shiftr_div_pow2 by done;
    change (2 ^ 0) with 1; change (2 ^ 8) with 256; change (2 ^ 16) with 65536; rewrite ?Z.div_1_r, ?E0, ?E1, ?E2; subst s0 s1 s2; by rewrite Zmod_mod.
Qed.

(** What is written for an operand is an operand that the other direction converts back. *)
Lemma new_operand_undo e mask c t0 t1 t2 t3 :
  bytes [t0; t1; t2; t3] -> converts mask t0 t1 t2 t3 = true ->
  exists s0 s1 s2 s3, new_operand e mask c t0 t1 t2 t3 = [s0; s1; s2; s3] /\ bytes [s0; s1; s2; s3] /\
    converts mask s0 s1 s2 s3 = true /\ new_operand (negb e) mask c s0 s1 s2 s3 = [t0; t1; t2; t3].
Proof.
  intros Hb Hc. destruct (converts_keeps _ _ _ _ _ Hb Hc) as [Hn Hk]. destruct (operand_bytes _ _ _ _ Hb) as (Hv & _ & _ & _ & _ & Hback).
  destruct (Hback Hn) as [Hv25 Eback]. clear Hback. unfold new_operand. set (v := u32 (le_load [t0; t1; t2; t3] + (1 <<< 24))) in *. clearbody v.
  destruct (operand_undo e mask c v ltac:(unfold in_width in Hv; lia) Hk) as [Hundo Hkeep]. set (w := operand e mask c v mod 2 ^ 25) in *.
  assert (0 <= w < 2 ^ 25) as Hw by (apply Z.mod_pos_bound; lia). change ((1 <<< 25) - 1) with (2 ^ 25 - 1) in *. change (1 <<< 24) with (2 ^ 24) in *. rewrite !land_ones_mod in * by lia. fold w.
  set (W := u32 (w - 2 ^ 24)). assert (in_width 32 W) as HW by (apply wrap_in_width; lia).
  assert (exists s0 s1 s2 s3, le_bytes 4 W = [s0; s1; s2; s3] /\ bytes [s0; s1; s2; s3] /\ le_load [s0; s1; s2; s3] = W) as (s0 & s1 & s2 & s3 & Es & Hs & El).
  { eexists _, _, _, _. split; [reflexivity|]. split; [apply (bytes_le_bytes 4)|apply (le_load_bytes 4 W HW)]. }
  exists s0, s1, s2, s3. split; [done|]. split; [done|].
  assert (u32 (W + 2 ^ 24) = w) as Ew. { unfold W, wrap. rewrite Zplus_mod_idemp_l, Z.sub_add. apply Z.mod_small. lia. }
  destruct (operand_bytes _ _ _ _ Hs) as (_ & Hn3 & _). rewrite El in *. change (1 <<< 24) with (2 ^ 24) in Hn3. rewrite Ew in Hn3 |- *. split.
  - apply converts_of_keeps; [done| |].
    + rewrite <-Hn3. apply Z.eqb_eq. change 0xfe000000 with (2 ^ 32 - 2 ^ 25). rewrite land_mask, (Z.mod_small w), Z.div_small by lia. done.
    + rewrite El. change (1 <<< 24) with (2 ^ 24). rewrite Ew. destruct Hk as [?|(k & Hk & _)]; [by left|right]. exists k. auto.
  - rewrite land_ones_mod, Hundo by lia. rewrite (Z.mod_small v) in Eback by (unfold in_width in Hv; lia). done.
Qed.

(** ** The walk *)

Lemma map_other e pc p mask b t : is_branch b = false -> x86_map e pc p mask (b :: t) = b :: x86_map e pc (p + 1) (mask >>> 1) t.
Proof. intros Hb. destruct t as [|t0 [|t1 [|t2 [|t3 l]]]]; try done. cbn [x86_map]. by rewrite Hb. Qed.

Lemma map_branch e pc p mask b t0 t1 t2 t3 l : is_branch b = true ->
  x86_map e pc p mask (b :: t0 :: t1 :: t2 :: t3 :: l) =
    if converts mask t0 t1 t2 t3 then b :: new_operand e mask (BR_PC_GET pc (p + 1)) t0 t1 t2 t3 ++ x86_map e pc (p + 5) 0 l
    else b :: x86_map e pc (p + 1) ((mask >>> 1) ||| 4) (t0 :: t1 :: t2 :: t3 :: l).
Proof. intros Hb. cbn [x86_map]. by rewrite Hb. Qed.

Lemma map_short e pc p mask l : (length l < 5)%nat -> x86_map e pc p mask l = l.
Proof. intros Hl. destruct l as [|? [|? [|? [|? [|? ?]]]]]; try done. cbn in Hl. lia. Qed.

(** The masks there can be: three bits. *)
Lemma mask_cases (P : Z -> Prop) : P 0 -> P 1 -> P 2 -> P 3 -> P 4 -> P 5 -> P 6 -> P 7 -> forall mask, 0 <= mask < 8 -> P mask.
Proof.
  intros H0 H1 H2 H3 H4 H5 H6 H7 mask Hm.
  assert (mask = 0 \/ mask = 1 \/ mask = 2 \/ mask = 3 \/ mask = 4 \/ mask = 5 \/ mask = 6 \/ mask = 7) as Hc by lia.
  repeat (destruct Hc as [->|Hc]; [done|]). by subst.
Qed.

Lemma next_mask mask : 0 <= mask < 8 -> 0 <= mask >>> 1 < 8 /\ 0 <= (mask >>> 1) ||| 4 < 8.
Proof. revert mask. by apply mask_cases. Qed.

Lemma map_head e pc p mask b t : exists t', x86_map e pc p mask (b :: t) = b :: t' /\ length t' = length t.
Proof.
  assert (forall n l p mask, (length l < n)%nat -> length (x86_map e pc p mask l) = length l /\ head (x86_map e pc p mask l) = head l) as H.
  { induction n as [|n IH]; intros l p' m Hl; [lia|]. destruct l as [|c t']; [done|]. destruct (is_branch c) eqn:Ec.
    - destruct (decide (length (c :: t') < 5)%nat); [by rewrite map_short|]. destruct t' as [|t0 [|t1 [|t2 [|t3 l]]]]; try (cbn in *; lia).
      rewrite map_branch by done. destruct (converts m t0 t1 t2 t3).
      + cbn [length head]. rewrite length_app. destruct (IH l (p' + 5) 0) as [-> _]; [cbn in Hl; lia|done].
      + cbn [length head]. by destruct (IH (t0 :: t1 :: t2 :: t3 :: l) (p' + 1) ((m >>> 1) ||| 4)) as [-> _]; [cbn in *; lia|].
    - rewrite map_other by done. cbn [length head]. by destruct (IH t' (p' + 1) (m >>> 1)) as [-> _]; [cbn in Hl; lia|]. }
  destruct (H (S (length (b :: t))) (b :: t) p mask) as [H1 H2]; [lia|]. destruct (x86_map e pc p mask (b :: t)) as [|b' t']; [done|].
  injection H2 as ->. injection H1 as H1. by exists t'.
Qed.

(** One byte of the walk: an operand that is converted, or a byte that is passed. *)
Inductive walked (e : bool) (pc p mask b : Z) (t : list Z) : Prop :=
  | walked_short : (length t < 4)%nat -> walked e pc p mask b t
  | walked_operand t0 t1 t2 t3 l s0 s1 s2 s3 : t = t0 :: t1 :: t2 :: t3 :: l -> is_branch b = true ->
      converts mask t0 t1 t2 t3 = true -> converts mask s0 s1 s2 s3 = true -> bytes [s0; s1; s2; s3] ->
      new_operand e mask (BR_PC_GET pc (p + 1)) t0 t1 t2 t3 = [s0; s1; s2; s3] ->
      new_operand (negb e) mask (BR_PC_GET pc (p + 1)) s0 s1 s2 s3 = [t0; t1; t2; t3] ->
      x86_map e pc p mask (b :: t) = b :: s0 :: s1 :: s2 :: s3 :: x86_map e pc (p + 5) 0 l -> walked e pc p mask b t
  | walked_on m : (if is_branch b then exists t0 t1 t2 t3 l, t = t0 :: t1 :: t2 :: t3 :: l /\ converts mask t0 t1 t2 t3 = false /\ m = (mask >>> 1) ||| 4
                   else m = mask >>> 1) ->
      0 <= m < 8 -> (forall i, 0 <= i -> Z.testbit mask (i + 1) = true -> Z.testbit m i = true) ->
      x86_map e pc p mask (b :: t) = b :: x86_map e pc (p + 1) m t -> walked e pc p mask b t.

Lemma x86_walk e pc p mask b t : 0 <= mask < 8 -> bytes t -> walked e pc p mask b t.
Proof.
  intros Hm Ht. destruct (next_mask mask Hm) as [H1 H2]. destruct (is_branch b) eqn:Eb.
  - destruct t as [|t0 [|t1 [|t2 [|t3 l]]]]; try (apply walked_short; cbn; lia).
    pose proof (map_branch e pc p mask b t0 t1 t2 t3 l Eb) as E. destruct (converts mask t0 t1 t2 t3) eqn:Ec.
    + apply (Forall_app _ [t0; t1; t2; t3] l) in Ht as [Hb _].
      destruct (new_operand_undo e mask (BR_PC_GET pc (p + 1)) t0 t1 t2 t3 Hb Ec) as (s0 & s1 & s2 & s3 & Es & Hs & Hc & Eu).
      rewrite Es in E. by eapply walked_operand.
    + apply (walked_on _ _ _ _ _ _ ((mask >>> 1) ||| 4)); [rewrite Eb; by eexists _, _, _, _, _|done| |done].
      intros i Hi Hbit. by rewrite Z.lor_spec, Z.shiftr_spec, Hbit by done.
  - apply (walked_on _ _ _ _ _ _ (mask >>> 1)); [by rewrite Eb|done| |by apply map_other]. intros i Hi Hbit. by rewrite Z.shiftr_spec.
Qed.

Lemma mask_bit mask j : 0 <= mask < 8 -> Z.testbit mask (Z.of_nat j) = true -> (j < 3)%nat.
Proof.
  intros Hm Hj. destruct (decide (j < 3)%nat) as [|Hge]; [done|]. rewrite <-(Z.mod_small mask (2 ^ 3)), Z.mod_pow2_bits_high in Hj by lia. done.
Qed.

(** The byte [j + 1], the top byte of the branch byte of bit [j], keeps off 0x00 and 0xff. *)
Lemma map_top e pc (j : nat) : forall p mask l x,
  0 <= mask < 8 -> bytes l -> Z.testbit mask (Z.of_nat j) = true -> l !! S j = Some x -> BR86_NEED_CONV_FOR_MS_BYTE x = false ->
  exists y, x86_map e pc p mask l !! S j = Some y /\ BR86_NEED_CONV_FOR_MS_BYTE y = false.
Proof.
  induction j as [|j IH]; intros p mask l x Hm Hl Hj Hx Hn; (destruct l as [|b t]; [done|]); cbn [lookup list_lookup] in Hx;
    apply (Forall_cons _ b) in Hl as [_ Hl]; destruct (x86_walk e pc p mask b t Hm Hl) as [Hs|t0 t1 t2 t3 l s0 s1 s2 s3 -> Eb _ Hc _ _ _ E|m _ Hm' Hbits E].
  1,4: rewrite map_short by (cbn; lia); by exists x.
  1,3: rewrite E; cbn [lookup list_lookup]; clear - Hc Hj Hm; apply mask_bit in Hj as Hj3; [|done]; unfold converts in Hc.
  - destruct (BR86_NEED_CONV_FOR_MS_BYTE s3); [|done]. cbn in Hj. revert Hm Hj Hc. revert mask. apply (mask_cases (fun mask => _ -> _ -> _)); try done.
    intros _ Hc. exists s0. split; [done|]. by apply negb_true_iff.
  - destruct (BR86_NEED_CONV_FOR_MS_BYTE s3); [|done]. assert (j = 0 \/ j = 1)%nat as [->| ->] by lia; revert Hm Hj Hc; revert mask; apply (mask_cases (fun mask => _ -> _ -> _)); try done.
    + intros _ Hc. exists s1. split; [done|]. by apply negb_true_iff.
    + intros _ Hc. exists s2. split; [done|]. by apply negb_true_iff.
  - rewrite E. destruct t as [|c t']; [done|]. injection Hx as ->. destruct (map_head e pc (p + 1) m x t') as (r & -> & _). by exists x.
  - rewrite E. cbn [lookup list_lookup]. apply (IH (p + 1) m t x Hm' Hl); [|done..]. apply Hbits; [lia|]. by replace (Z.of_nat j + 1) with (Z.of_nat (S j)) by lia.
Qed.

(** It does not change at all when there is another branch byte after that one. *)
Lemma map_fixed e pc (j : nat) : forall p mask l i,
  0 <= mask < 8 -> bytes l -> Z.testbit mask (Z.of_nat j) = true -> Z.of_nat j < i -> Z.testbit mask i = true ->
  x86_map e pc p mask l !! S j = l !! S j.
Proof.
  induction j as [|j IH]; intros p mask l i Hm Hl Hj Hi Hbit; (destruct l as [|b t]; [done|]);
    apply (Forall_cons _ b) in Hl as [_ Hl]; destruct (x86_walk e pc p mask b t Hm Hl) as [Hs|t0 t1 t2 t3 l s0 s1 s2 s3 -> Eb Hc _ _ _ _ E|m _ Hm' Hbits E].
  1,4: by rewrite map_short by (cbn; lia).
  1,3: exfalso; assert (i < 3) by (pose proof (mask_bit mask (Z.to_nat i) Hm) as H3; rewrite Z2Nat.id in H3 by lia; specialize (H3 Hbit); lia);
    unfold converts in Hc; (destruct (BR86_NEED_CONV_FOR_MS_BYTE t3); [|done]); clear E.
  - assert (i = 1 \/ i = 2) as [->| ->] by lia; revert Hm Hj Hbit Hc; revert mask; by apply (mask_cases (fun mask => _ -> _ -> _ -> _)).
  - assert (j = 0%nat /\ i = 2) as [-> ->] by lia; revert Hm Hj Hbit Hc; revert mask; by apply (mask_cases (fun mask => _ -> _ -> _ -> _)).
  - rewrite E. cbn [lookup list_lookup]. destruct t as [|c t']; [done|]. by destruct (map_head e pc (p + 1) m c t') as (r & -> & _).
  - rewrite E. cbn [lookup list_lookup]. apply (IH (p + 1) m t (i - 1) Hm' Hl); [apply Hbits; [lia|]| |apply Hbits; [lia|]].
    + by replace (Z.of_nat j + 1) with (Z.of_nat (S j)) by lia.
    + lia.
    + by rewrite Z.sub_add.
Qed.

(** A branch byte that is left alone is left alone by the other direction too. *)
Lemma map_decision e pc p mask t0 t1 t2 t3 l :
  0 <= mask < 8 -> bytes (t0 :: t1 :: t2 :: t3 :: l) -> converts mask t0 t1 t2 t3 = false ->
  exists s0 s1 s2 s3 r, x86_map e pc p ((mask >>> 1) ||| 4) (t0 :: t1 :: t2 :: t3 :: l) = s0 :: s1 :: s2 :: s3 :: r /\ converts mask s0 s1 s2 s3 = false.
Proof.
  intros Hm Hl Hc. destruct (next_mask mask Hm) as [_ HM]. destruct (map_head e pc p ((mask >>> 1) ||| 4) t0 (t1 :: t2 :: t3 :: l)) as (r & E & Hr).
  destruct r as [|s1 [|s2 [|s3 r]]]; try (cbn in Hr; lia). exists t0, s1, s2, s3, r. split; [done|].
  destruct (BR86_NEED_CONV_FOR_MS_BYTE t3) eqn:E3.
  - assert (forall j, Z.testbit ((mask >>> 1) ||| 4) (Z.of_nat j) = true -> Z.of_nat j < 2 -> Z.testbit ((mask >>> 1) ||| 4) 2 = true ->
      (t0 :: s1 :: s2 :: s3 :: r) !! S j = (t0 :: t1 :: t2 :: t3 :: l) !! S j) as Hfix.
    { intros j Hj Hj2 H2. rewrite <-E. by apply (map_fixed e pc j p _ _ 2). }
    clear E Hr HM Hl. unfold converts in *. rewrite E3 in Hc. cbn [andb] in Hc.
    revert Hm Hc Hfix. revert mask. apply (mask_cases (fun mask => _ -> _ -> _)); try (intros; by destruct (BR86_NEED_CONV_FOR_MS_BYTE s3)); try done.
    + intros Hc Hfix. injection (Hfix 0%nat eq_refl ltac:(lia) eq_refl) as ->. rewrite Hc. by rewrite andb_false_r.
    + intros Hc Hfix. injection (Hfix 1%nat eq_refl ltac:(lia) eq_refl) as ->. rewrite Hc. by rewrite andb_false_r.
  - destruct (map_top e pc 2 p ((mask >>> 1) ||| 4) (t0 :: t1 :: t2 :: t3 :: l) t3 HM Hl) as (y & Hy & Hn); [by rewrite Z.lor_spec, orb_comm|done|done|].
    rewrite E in Hy. injection Hy as ->. unfold converts. by rewrite Hn.
Qed.

(** ** The turns of the code, against the walk *)

(** The search of one turn: where it goes on, what it leaves behind, the mask, the rest; or the
    bytes it passed and the mask when the data is at an end. *)
Inductive x86_found := Found (at_ : place) (done : list Z) (mask : Z) (rest : list Z) | Ended (n : nat) (mask : Z).

Definition pass (b : Z) (f : x86_found) : x86_found :=
  match f with Found at_ done mask rest => Found at_ (b :: done) mask rest | Ended n mask => Ended (S n) mask end.

Fixpoint x86_search (e : bool) (pc : Z) (n : nat) (p mask : Z) (l : list Z) : x86_found :=
  match n, l with
  | S n, b :: t =>
      if is_branch b then
        match t with
        | t0 :: t1 :: t2 :: t3 :: l' =>
            if converts mask t0 t1 t2 t3 then Found main_loop (b :: new_operand e mask (BR_PC_GET pc (p + 1)) t0 t1 t2 t3) 0 l'
            else Found start [b] ((mask >>> 1) ||| 4) t
        | _ => Ended 0 mask
        end
      else pass b (x86_search e pc n (p + 1) (mask >>> 1) t)
  | _, _ => Found main_loop [] mask l
  end.

(** Both directions find the same. *)
Lemma search_undo e pc n : forall p mask l, 0 <= mask < 8 -> bytes l ->
  match x86_search e pc n p mask l with
  | Found at_ done m rest =>
      exists done', length done' = length done /\ l = done' ++ rest /\ 0 <= m < 8 /\ bytes done /\
        x86_map e pc p mask l = done ++ x86_map e pc (p + Z.of_nat (length done)) m rest /\
        x86_search (negb e) pc n p mask (x86_map e pc p mask l) = Found at_ done' m (x86_map e pc (p + Z.of_nat (length done)) m rest)
  | Ended k m => x86_map e pc p mask l = l /\ (k < length l <= k + 4)%nat /\ 0 <= m < 8 /\ x86_search (negb e) pc n p mask (x86_map e pc p mask l) = Ended k m
  end.
Proof.
  induction n as [|n IH]; intros p mask l Hm Hl; [|destruct l as [|b t]].
  1,2: exists []; cbn [length app x86_search]; rewrite Z.add_0_r; split_and!; (done || lia || by constructor).
  cbn [x86_search].
  apply (Forall_cons _ b) in Hl as [Hb Hl]. destruct (x86_walk e pc p mask b t Hm Hl) as [Hs|t0 t1 t2 t3 l s0 s1 s2 s3 -> Eb Hc Hc' Hs Es Eu E|m Hb' Hm' _ E].
  - rewrite map_short by (cbn; lia). cbn [x86_search]. destruct (is_branch b) eqn:Eb.
    + destruct t as [|? [|? [|? [|? ?]]]]; cbn in Hs |- *; try lia; (split; [done|]; split; [lia|split; [lia|done]]).
    + specialize (IH (p + 1) (mask >>> 1) t (proj1 (next_mask mask Hm)) Hl). rewrite (map_short _ _ _ _ t) in IH by lia.
      destruct (x86_search e pc n (p + 1) (mask >>> 1) t) as [at_ done m rest|k m]; cbn [pass].
      * destruct IH as (done' & H1 & H2 & H3 & H4 & H5 & H6). exists (b :: done'). cbn [length app]. rewrite H1, H6, <-H2.
        replace (p + Z.of_nat (S (length done))) with (p + 1 + Z.of_nat (length done)) by lia. rewrite <-H5. split_and!; (done || lia || by constructor).
      * destruct IH as (H1 & H2 & Hm' & H3). rewrite H3. cbn [length pass]. split_and!; (done || lia).
  - rewrite Eb, Hc, Es, E. exists [b; t0; t1; t2; t3]. cbn [length app x86_search]. rewrite Eb, Hc', Eu. change (p + Z.of_nat 5) with (p + 5).
    split_and!; (done || lia || by constructor).
  - rewrite E. cbn [x86_search]. destruct (is_branch b) eqn:Eb.
    + destruct Hb' as (t0 & t1 & t2 & t3 & l & -> & Hc & ->). rewrite Hc. destruct (map_decision e pc (p + 1) mask t0 t1 t2 t3 l Hm Hl Hc) as (s0 & s1 & s2 & s3 & r & E' & Hc').
      exists [b]. cbn [length app]. change (p + Z.of_nat 1) with (p + 1). rewrite E', Hc'. split_and!; (done || lia || by apply Forall_singleton).
    + subst m. specialize (IH (p + 1) (mask >>> 1) t Hm' Hl). destruct (x86_search e pc n (p + 1) (mask >>> 1) t) as [at_ done m rest|k m]; cbn [pass].
      * destruct IH as (done' & H1 & H2 & H3 & H4 & H5 & H6). exists (b :: done'). cbn [length app]. rewrite H1, H6, <-H2.
        replace (p + Z.of_nat (S (length done))) with (p + 1 + Z.of_nat (length done)) by lia. rewrite <-H5. split_and!; (done || lia || by constructor).
      * destruct IH as (H1 & H2 & Hk & H3). rewrite H1 in H3 |- *. rewrite H3. cbn [length pass]. split_and!; (done || lia).
Qed.

(** The labels [a3] and [m2], at the operand [t] after [pre]. *)
Definition at_operand (e : bool) (pc : Z) (pre t post : list Z) (mask : Z) : place * list Z * Z * Z + list Z * Z * Z :=
  match t with
  | t0 :: t1 :: t2 :: t3 :: l =>
      let p := Z.of_nat (length pre) in
      if converts mask t0 t1 t2 t3
      then inl (main_loop, pre ++ new_operand e mask (BR_PC_GET pc p) t0 t1 t2 t3 ++ l ++ post, p + 4, 0)
      else inl (start, pre ++ t ++ post, p, (mask >>> 1) ||| 4)
  | _ => inr (pre ++ t ++ post, Z.of_nat (length pre) - 1, mask)
  end.

Lemma x86_fits (pre t : list Z) : (Z.of_nat (length pre + length t) - 4 <? Z.of_nat (length pre)) = (length t <? 4)%nat.
Proof. apply eq_iff_eq_true. rewrite Z.ltb_lt, Nat.ltb_lt. lia. Qed.

Lemma a3_operand e pc pre t post :
  bytes t -> x86_a3 e (Z.of_nat (length pre + length t) - 4) pc (pre ++ t ++ post) (Z.of_nat (length pre)) 0 = Some (at_operand e pc pre t post 0).
Proof.
  intros Ht. unfold x86_a3. rewrite x86_fits. destruct t as [|t0 [|t1 [|t2 [|t3 l]]]]; try done. cbn [length Nat.ltb Nat.leb app at_operand].
  apply (Forall_app _ [t0; t1; t2; t3] l) in Ht as [Hb _]. destruct (operand_bytes _ _ _ _ Hb) as (_ & Htop & _).
  rewrite GetUi32_at. opt. rewrite Htop. unfold converts. rewrite andb_true_r. destruct (BR86_NEED_CONV_FOR_MS_BYTE t3); [|done]. cbn [negb].
  unfold x86_store. rewrite SetUi32_at. done.
Qed.

Lemma m2_operand e pc pre t post mask :
  0 <= mask < 8 -> bytes t ->
  x86_m2 e (Z.of_nat (length pre + length t) - 4) pc (pre ++ t ++ post) (Z.of_nat (length pre)) mask = Some (at_operand e pc pre t post mask).
Proof.
  intros Hm Ht. unfold x86_m2. destruct (Z.eqb_spec mask 0) as [->|Hm0]; [by apply a3_operand|]. rewrite x86_fits.
  destruct t as [|t0 [|t1 [|t2 [|t3 l]]]]; try done. cbn [length Nat.ltb Nat.leb app at_operand].
  apply (Forall_app _ [t0; t1; t2; t3] l) in Ht as [Hb _]. destruct (operand_bytes _ _ _ _ Hb) as (_ & Htop & _). rewrite GetUi32_at. opt. rewrite Htop.
  assert (forall k x, 0 <= k -> (t0 :: t1 :: t2 :: t3 :: l ++ post) !! Z.to_nat k = Some x -> rd (pre ++ t0 :: t1 :: t2 :: t3 :: l ++ post) (Z.of_nat (length pre) + k) = Some x) as Hrd.
  { intros k x Hk Hx. rewrite rd_lookup, lookup_app_r by lia. replace (Z.to_nat (Z.of_nat (length pre) + k) - length pre)%nat with (Z.to_nat k) by lia. done. }
  unfold new_operand, operand, x86_store, converts. revert Hm0. revert mask Hm. apply (mask_cases (fun mask => _ -> _)); try done; intros _;
    cbn [Z.ltb Z.compare Pos.compare Pos.compare_cont Z.eqb Pos.eqb orb andb]; try (by rewrite andb_false_r);
    change (1 >>> 1) with 0; change (2 >>> 1) with 1; change (4 >>> 1) with 2; first [rewrite (Hrd 0 t0 ltac:(lia) eq_refl)|rewrite (Hrd 1 t1 ltac:(lia) eq_refl)|rewrite (Hrd 2 t2 ltac:(lia) eq_refl)]; opt;
    (destruct (BR86_NEED_CONV_FOR_MS_BYTE t3); cbn [negb andb];
     [|by destruct (BR86_NEED_CONV_FOR_MS_BYTE _)]); (destruct (BR86_NEED_CONV_FOR_MS_BYTE _); [done|]); cbn [negb]; by rewrite SetUi32_at.
Qed.

Lemma pass_all cs f :
  foldr pass f cs = match f with Found at_ done m rest => Found at_ (cs ++ done) m rest | Ended n m => Ended (length cs + n) m end.
Proof. induction cs as [|c cs IH]; [by destruct f|]. cbn [foldr]. rewrite IH. by destruct f. Qed.

(** What a turn of the code makes of it. *)
Definition x86_outcome (pre l post : list Z) (f : x86_found) : place * list Z * Z * Z + list Z * Z * Z :=
  match f with
  | Found at_ done m rest => inl (at_, pre ++ done ++ rest ++ post, Z.of_nat (length pre + length done), m)
  | Ended n m => inr (pre ++ l ++ post, Z.of_nat (length pre + n), m)
  end.

Lemma at_found e pc n pre cs b t post m :
  is_branch b = true ->
  at_operand e pc (pre ++ cs ++ [b]) t post m =
    x86_outcome pre (cs ++ b :: t) post (foldr pass (x86_search e pc (S n) (Z.of_nat (length pre + length cs)) m (b :: t)) cs).
Proof.
  intros Hb. rewrite pass_all. cbn [x86_search]. rewrite Hb. unfold at_operand.
  assert (forall w, (pre ++ cs ++ [b]) ++ w = pre ++ cs ++ b :: w) as Happ by (intros; by rewrite <-!app_assoc).
  assert (length (pre ++ cs ++ [b]) = length pre + length cs + 1)%nat as Hlen by (rewrite !length_app; cbn; lia).
  assert (forall t, pre ++ (cs ++ b :: t) ++ post = pre ++ cs ++ b :: t ++ post) as Happ' by (intros; by rewrite <-app_assoc).
  destruct t as [|t0 [|t1 [|t2 [|t3 l]]]].
  1,2,3,4: unfold x86_outcome; rewrite Happ, Happ', Hlen, Nat.add_0_r; do 3 f_equal; lia.
  destruct (converts m t0 t1 t2 t3).
  - replace (Z.of_nat (length pre + length cs) + 1) with (Z.of_nat (length (pre ++ cs ++ [b]))) by lia. unfold x86_outcome. rewrite Happ, <-app_assoc. cbn [app].
    do 3 f_equal. rewrite Hlen, length_app. cbn [length]. unfold new_operand. rewrite length_le_bytes. lia.
  - unfold x86_outcome. rewrite Happ, <-app_assoc. do 3 f_equal. rewrite Hlen, length_app. cbn [length]. lia.
Qed.

Lemma turn_search e pc at_ pre l post mask :
  (5 <= length l)%nat -> bytes l -> 0 <= mask < 8 -> (at_ = main_loop -> mask = 0) ->
  x86_turn e (Z.of_nat (length pre + length l) - 4) pc (at_, pre ++ l ++ post, Z.of_nat (length pre), mask) =
    Some (x86_outcome pre l post (x86_search e pc 4 (Z.of_nat (length pre)) mask l)).
Proof.
  intros Hl Hb Hm Hat. unfold x86_turn. destruct (Z.leb_spec (Z.of_nat (length pre + length l) - 4) (Z.of_nat (length pre))); [lia|].
  set (P := Z.of_nat (length pre)). set (lim := Z.of_nat (length pre + length l) - 4).
  assert (forall n cs b t m p q, l = cs ++ b :: t -> is_branch b = true -> 0 <= m < 8 -> q = P + Z.of_nat (length cs) -> p = q + 1 ->
    let r := Some (x86_outcome pre l post (foldr pass (x86_search e pc (S n) q m (b :: t)) cs)) in
    x86_m2 e lim pc (pre ++ l ++ post) p m = r /\ (m = 0 -> x86_a3 e lim pc (pre ++ l ++ post) p m = r)) as Hgo.
  { intros n cs b t m p q E Hbr Hm' Eq Ep r. apply (f_equal (fun x => pre ++ x ++ post)) in E as Edata. unfold r. rewrite Edata.
    assert (lim = Z.of_nat (length (pre ++ cs ++ [b]) + length t) - 4) as -> by (unfold lim; rewrite E, !length_app; cbn; lia).
    assert (p = Z.of_nat (length (pre ++ cs ++ [b]))) as -> by (rewrite !length_app; cbn; lia).
    assert (q = Z.of_nat (length pre + length cs)) as -> by lia. rewrite E in Hb |- *. rewrite <-at_found by done.
    apply Forall_app in Hb as [_ Hb]. apply (Forall_cons _ b) in Hb as [_ Hb].
    replace (pre ++ (cs ++ b :: t) ++ post) with ((pre ++ cs ++ [b]) ++ t ++ post) by (by rewrite <-!app_assoc).
    split; [by apply m2_operand|]. intros ->. by apply a3_operand. }
  assert (0 <= mask >>> 1 < 8 /\ 0 <= (mask >>> 1) >>> 1 < 8 /\ ((mask >>> 1) >>> 1) >>> 1 = 0) as (Hm1 & Hm2 & Hm3) by (clear - Hm; revert mask Hm; by apply mask_cases).
  destruct l as [|c0 [|c1 [|c2 [|c3 l]]]]; try (cbn in Hl; lia).
  unfold BR86_PREPARE_BCJ_SCAN. cbn [app]. unfold P at 1. rewrite GetUi32_at. opt. set (v := le_load [c0; c1; c2; c3]).
  assert (v mod 256 = c0 /\ (v / 256) mod 256 = c1 /\ (v / 65536) mod 256 = c2 /\ (v / 16777216) mod 256 = c3) as (E0 & E1 & E2 & E3).
  { unfold bytes in Hb. rewrite !Forall_cons in Hb. destruct Hb as (H0 & H1 & H2 & H3 & _). unfold in_width in *.
    unfold v. cbn [le_load]. clear - H0 H1 H2 H3. Z.to_euclidean_division_equations; lia. }
  rewrite (scan_byte v 0 c0), (scan_byte v 1 c1), (scan_byte v 2 c2), (scan_byte v 3 c3) by (done || by rewrite Z.div_1_r). clear v E0 E1 E2 E3.
  pose proof (fun q p Hq => Hgo 3%nat [] c0 (c1 :: c2 :: c3 :: l) mask p q eq_refl Hq Hm) as G0.
  pose proof (fun q p Hq => Hgo 2%nat [c0] c1 (c2 :: c3 :: l) (mask >>> 1) p q eq_refl Hq Hm1) as G1.
  pose proof (fun q p Hq => Hgo 1%nat [c0; c1] c2 (c3 :: l) ((mask >>> 1) >>> 1) p q eq_refl Hq Hm2) as G2.
  pose proof (fun q p Hq => Hgo 0%nat [c0; c1; c2] c3 l (((mask >>> 1) >>> 1) >>> 1) p q eq_refl Hq ltac:(lia)) as G3.
  clear Hgo. cbn [x86_search foldr length] in *.
  destruct (is_branch c0); [|destruct (is_branch c1); [|destruct (is_branch c2); [|destruct (is_branch c3)]]].
  - destruct (G0 P (P + 4 - 3) eq_refl ltac:(lia) ltac:(lia)) as [H1 H2]. destruct at_; [exact H1|exact (H2 (Hat eq_refl))].
  - destruct (G1 (P + 1) (P + 4 - 2) eq_refl ltac:(lia) ltac:(lia)) as [H1 H2]. destruct at_; [exact H1|]. rewrite (Hat eq_refl) in *. exact (H2 eq_refl).
  - destruct (G2 (P + 1 + 1) (P + 4 - 1) eq_refl ltac:(lia) ltac:(lia)) as [H1 H2]. destruct at_; [exact H1|]. rewrite (Hat eq_refl) in *. exact (H2 eq_refl).
  - destruct (G3 (P + 1 + 1 + 1) (P + 4) eq_refl ltac:(lia) ltac:(lia)) as [_ H2]. specialize (H2 Hm3). rewrite Hm3 in H2 |- *. destruct at_; [exact H2|]. rewrite (Hat eq_refl). exact H2.
  - rewrite Hm3. cbn [pass x86_outcome app length]. replace (Z.of_nat (length pre + 4)) with (P + 4) by lia. destruct at_; [done|]. by rewrite (Hat eq_refl).
Qed.

(** ** The loop *)

Lemma x86_map_length e pc p mask l : length (x86_map e pc p mask l) = length l.
Proof. destruct l as [|b t]; [done|]. destruct (map_head e pc p mask b t) as (t' & -> & Ht). cbn. by rewrite Ht. Qed.

Lemma x86_map_bytes e pc n : forall p mask l, (length l < n)%nat -> 0 <= mask < 8 -> bytes l -> bytes (x86_map e pc p mask l).
Proof.
  induction n as [|n IH]; intros p mask l Hn Hm Hl; [lia|]. destruct l as [|b t]; [done|]. apply (Forall_cons _ b) in Hl as [Hb Hl].
  destruct (x86_walk e pc p mask b t Hm Hl) as [Hs|t0 t1 t2 t3 l s0 s1 s2 s3 -> _ _ _ Hs _ _ ->|m _ Hm' _ ->].
  - rewrite map_short by (cbn; lia). by constructor.
  - constructor; [done|]. apply (Forall_app_2 _ [s0; s1; s2; s3]); [done|]. apply IH; [cbn in Hn; lia|lia|]. by apply (Forall_app _ [t0; t1; t2; t3]) in Hl as [_ Hl].
  - constructor; [done|]. apply IH; [cbn in Hn; lia|done..].
Qed.

(** A search moves on, and the mask is 0 where it goes on with the main loop. *)
Lemma search_progress e pc n : forall p mask l, (n <= length l)%nat -> 0 <= mask ->
  match x86_search e pc n p mask l with
  | Found at_ done m _ => (n <> O -> done <> []) /\ (at_ = main_loop -> m = 0 \/ m = mask >>> Z.of_nat n)
  | Ended _ _ => True
  end.
Proof.
  induction n as [|n IH]; intros p mask l Hl Hm; [by destruct l; (split; [done|right])|]. destruct l as [|b t]; [cbn in Hl; lia|]. cbn [x86_search].
  destruct (is_branch b).
  - destruct t as [|t0 [|t1 [|t2 [|t3 l]]]]; try done. destruct (converts mask t0 t1 t2 t3); (split; [done|]); [by left|done].
  - specialize (IH (p + 1) (mask >>> 1) t ltac:(cbn in Hl; lia) ltac:(by apply Z.shiftr_nonneg)). destruct (x86_search e pc n) as [at_ d m rest|]; [|done]. cbn [pass].
    split; [done|]. intros Hat. destruct IH as [_ IH]. rewrite Z.shiftr_shiftr in IH by lia. replace (Z.of_nat (S n)) with (1 + Z.of_nat n) by lia. auto.
Qed.

(** Bytes after the data change nothing of what was decided. *)
Lemma search_more e pc n w : forall p mask l,
  match x86_search e pc n p mask l with
  | Found _ done m rest => x86_map e pc p mask (l ++ w) = done ++ x86_map e pc (p + Z.of_nat (length done)) m (rest ++ w)
  | Ended k m => x86_map e pc p mask (l ++ w) = take k l ++ x86_map e pc (p + Z.of_nat k) m (drop k l ++ w)
  end.
Proof.
  induction n as [|n IH]; intros p mask l; [|destruct l as [|b t]].
  1,2: cbn [x86_search length app]; by rewrite Z.add_0_r.
  cbn [x86_search]. destruct (is_branch b) eqn:Eb.
  - destruct t as [|t0 [|t1 [|t2 [|t3 l]]]]; try (cbn [take drop app]; by rewrite Z.add_0_r).
    change ((b :: t0 :: t1 :: t2 :: t3 :: l) ++ w) with (b :: t0 :: t1 :: t2 :: t3 :: l ++ w). rewrite map_branch by done. destruct (converts mask t0 t1 t2 t3).
    + cbn [app length]. unfold new_operand. by rewrite length_le_bytes.
    + done.
  - cbn [app]. rewrite map_other by done. specialize (IH (p + 1) (mask >>> 1) t). destruct (x86_search e pc n (p + 1) (mask >>> 1) t) as [at_ done m rest|k m]; cbn [pass app length take drop]; rewrite IH.
    + by replace (p + 1 + Z.of_nat (length done)) with (p + Z.of_nat (S (length done))) by lia.
    + by replace (p + 1 + Z.of_nat k) with (p + Z.of_nat (S k)) by lia.
Qed.

(** The loop in both directions: the buffers are each other's, the offset and the mask the same. *)
Lemma loop_walk e pc fuel : forall at_ pre pre' l post mask,
  (length l < fuel)%nat -> bytes l -> 0 <= mask < 8 -> (at_ = main_loop -> mask = 0) -> length pre' = length pre ->
  let P := Z.of_nat (length pre) in
  let lim := Z.of_nat (length pre + length l) - 4 in
  exists n m,
    loop fuel (x86_turn e lim pc) (at_, pre ++ l ++ post, P, mask) = Some (pre ++ x86_map e pc P mask l ++ post, P + Z.of_nat n, m) /\
    loop fuel (x86_turn (negb e) lim pc) (at_, pre' ++ x86_map e pc P mask l ++ post, P, mask) = Some (pre' ++ l ++ post, P + Z.of_nat n, m) /\
    (n <= length l <= n + 4)%nat /\ 0 <= m < 8 /\
    forall w, x86_map e pc P mask (l ++ w) = take n (x86_map e pc P mask l) ++ x86_map e pc (P + Z.of_nat n) m (drop n l ++ w).
Proof.
  induction fuel as [|fuel IH]; intros at_ pre pre' l post mask Hf Hl Hm Hat Hpre P lim; [lia|]. cbn [loop].
  destruct (decide (length l < 5)%nat) as [Hs|Hs].
  - exists 0%nat, mask. rewrite map_short by done. unfold x86_turn. rewrite (proj2 (Z.leb_le lim P)) by lia. rewrite Z.add_0_r. split_and!; try done; lia.
  - pose proof (x86_map_bytes e pc (S (length l)) P mask l ltac:(lia) Hm Hl) as Hb'. pose proof (x86_map_length e pc P mask l) as Hlen.
    pose proof (turn_search e pc at_ pre l post mask ltac:(lia) Hl Hm Hat) as E1. fold lim P in E1.
    pose proof (turn_search (negb e) pc at_ pre' (x86_map e pc P mask l) post mask ltac:(lia) Hb' Hm Hat) as E2. rewrite Hpre, Hlen in E2. fold lim P in E2.
    rewrite E1, E2. pose proof (search_undo e pc 4 P mask l Hm Hl) as Hu. clear E1 E2.
    pose proof (search_progress e pc 4 P mask l ltac:(lia) ltac:(lia)) as Hp. pose proof (fun w => search_more e pc 4 w P mask l) as Hmore.
    destruct (x86_search e pc 4 P mask l) as [at2 d m rest|k m].
    + destruct Hu as (d' & H1 & H2 & Hm' & Hdone & H4 & H5). rewrite H5. cbn [x86_outcome]. destruct Hp as [Hne Hmain]. specialize (Hne ltac:(done)).
      assert (at2 = main_loop -> m = 0) as Hmain'. { intros H. destruct (Hmain H) as [|E]; [done|]. rewrite E. clear - Hm. revert mask Hm. by apply mask_cases. }
      assert (length l = length d + length rest)%nat as Hlen' by (rewrite H2, length_app; lia).
      assert (0 < length d)%nat by (destruct d; [done|cbn; lia]).
      assert (bytes rest) as Hrest by (rewrite H2 in Hl; by apply Forall_app in Hl as [_ Hl]).
      destruct (IH at2 (pre ++ d) (pre' ++ d') rest post m ltac:(lia) Hrest Hm' Hmain' ltac:(rewrite !length_app; lia)) as (n & m' & A1 & A2 & A3 & A4 & A5).
      exists (length d + n)%nat, m'. unfold lim, P. rewrite length_app in A1, A2, A5. rewrite Hlen'.
      rewrite <-Nat.add_assoc in A1, A2. rewrite <-!app_assoc in A1, A2. fold P in H4, Hmore |- *. replace (Z.of_nat (length pre + length d)) with (P + Z.of_nat (length d)) in * by lia.
      rewrite A1, Hpre, H1. replace (Z.of_nat (length pre + length d)) with (P + Z.of_nat (length d)) by lia. rewrite A2, H4, H2. rewrite <-!app_assoc. replace (P + Z.of_nat (length d + n)) with (P + Z.of_nat (length d) + Z.of_nat n) by lia.
      split_and!; try done; try lia. intros w. rewrite take_app_add. assert (drop (length d + n) (d' ++ rest) = drop n rest) as -> by (rewrite <-H1; apply drop_app_add).
      specialize (Hmore w). rewrite H2 in Hmore. rewrite Hmore, A5. by rewrite app_assoc.
    + destruct Hu as (H1 & H2 & Hm' & H3). rewrite H1 in *. rewrite H3. cbn [x86_outcome]. exists k, m. replace (Z.of_nat (length pre + k)) with (P + Z.of_nat k) by lia.
      rewrite Hpre. replace (Z.of_nat (length pre + k)) with (P + Z.of_nat k) by lia. split_and!; (done || lia).
Qed.

(** Only the address of a byte matters. *)
Lemma map_shift e pc k n : forall p mask l, (length l < n)%nat -> x86_map e (pc + k) p mask l = x86_map e pc (k + p) mask l.
Proof.
  induction n as [|n IH]; intros p mask l Hn; [lia|]. destruct l as [|b t]; [done|]. destruct (is_branch b) eqn:Eb.
  - destruct t as [|t0 [|t1 [|t2 [|t3 l]]]]; try done. rewrite !map_branch by done. assert (BR_PC_GET (pc + k) (p + 1) = BR_PC_GET pc (k + p + 1)) as -> by (unfold BR_PC_GET; f_equal; lia).
    destruct (converts mask t0 t1 t2 t3); rewrite IH by (cbn in *; lia); by rewrite Z.add_assoc.
  - rewrite !map_other, IH by (done || (cbn in Hn; lia)). by rewrite Z.add_assoc.
Qed.

(** One call. *)
Lemma x86_run e data size pc state :
  bytes data -> 0 <= size <= Z.of_nat (length data) -> 0 <= state < 8 ->
  let l := take (Z.to_nat size) data in
  let l' := x86_map e (pc + 4) 0 state l in
  exists n m,
    z7_BranchConvSt_X86 e data size pc state = Some (l' ++ drop (Z.to_nat size) data, Z.of_nat n, m) /\
    z7_BranchConvSt_X86 (negb e) (l' ++ drop (Z.to_nat size) data) size pc state = Some (data, Z.of_nat n, m) /\
    (n <= length l <= n + 4)%nat /\ 0 <= m < 8 /\ drop n l' = drop n l /\
    forall w, x86_map e (pc + 4) 0 state (l ++ w) = take n l' ++ x86_map e (pc + 4) (Z.of_nat n) m (drop n l ++ w).
Proof.
  intros Hd Hs Hst l l'. assert (length l = Z.to_nat size) as Hl by (unfold l; rewrite length_take; lia).
  assert (data = l ++ drop (Z.to_nat size) data) as Hdata by (symmetry; apply take_drop).
  assert (exists n m,
    z7_BranchConvSt_X86 e data size pc state = Some (l' ++ drop (Z.to_nat size) data, Z.of_nat n, m) /\
    z7_BranchConvSt_X86 (negb e) (l' ++ drop (Z.to_nat size) data) size pc state = Some (data, Z.of_nat n, m) /\
    (n <= length l <= n + 4)%nat /\ 0 <= m < 8 /\ forall w, x86_map e (pc + 4) 0 state (l ++ w) = take n l' ++ x86_map e (pc + 4) (Z.of_nat n) m (drop n l ++ w))
    as (n & m & H1 & H2 & H3 & H4 & H5).
  { unfold z7_BranchConvSt_X86. destruct (Z.ltb_spec size 5) as [Hsmall|Hbig].
    - exists 0%nat, state. unfold l' at 1 2. rewrite map_short by lia. rewrite <-Hdata. split_and!; try done; lia.
    - destruct (loop_walk e (pc + 4) (S (Z.to_nat size)) start [] [] l (drop (Z.to_nat size) data) state) as (n & m & A1 & A2 & A3 & A4 & A5); try done; [lia|by apply bytes_take|].
      cbn [app length Nat.add] in A1, A2, A5. change (Z.of_nat 0) with 0 in A1, A2, A5. rewrite Z.add_0_l in A1, A2, A5. fold l' in A1, A2, A5. rewrite <-Hdata, Hl, Z2Nat.id in A1, A2 by lia. exists n, m. split_and!; (done || lia). }
  exists n, m. do 4 (split; [done|]). split; [|done]. pose proof (H5 []) as E. rewrite !app_nil_r, (map_short _ _ _ _ (drop n l)) in E by (rewrite length_drop; lia). fold l' in E.
  apply (f_equal (drop n)) in E. rewrite E at 1. rewrite drop_app_length' by (unfold l'; rewrite length_take, x86_map_length; lia). done.
Qed.

(** ** Theorems *)

(** C16: The x86 converters are inverse to each other.  For any data, size, program counter and
    state of three bits, a call returns; the other direction, called with what it left, gives
    the data back, returns the same offset, which leaves at most four bytes to the next call,
    and the same state. *)
Theorem z7_BranchConvSt_X86_roundtrip (encoding : bool) (data : list Z) (size pc state : Z)
    (Hdata : bytes data) (Hsize : 0 <= size <= Z.of_nat (length data)) (Hstate : 0 <= state < 8) :
  exists data' processed state',
    z7_BranchConvSt_X86 encoding data size pc state = Some (data', processed, state') /\
    z7_BranchConvSt_X86 (negb encoding) data' size pc state = Some (data, processed, state') /\
    bytes data' /\ length data' = length data /\ drop (Z.to_nat processed) data' = drop (Z.to_nat processed) data /\
    0 <= processed <= size /\ size <= processed + 4 /\ 0 <= state' < 8.
Proof.
  destruct (x86_run encoding data size pc state Hdata Hsize Hstate) as (n & m & H1 & H2 & H3 & H4 & H5 & _).
  set (l := take (Z.to_nat size) data) in *. assert (length l = Z.to_nat size) as Hl by (unfold l; rewrite length_take; lia).
  set (l' := x86_map encoding (pc + 4) 0 state l) in *. assert (length l' = length l) as Hl' by apply x86_map_length.
  eexists _, _, _. split; [exact H1|]. split; [exact H2|]. split; [|split; [|split; [|split; [lia|split; [lia|done]]]]].
  - apply Forall_app_2; [|by apply bytes_drop]. apply (x86_map_bytes _ _ (S (length l))); [lia|done|]. by apply bytes_take.
  - rewrite length_app, length_drop, Hl'. lia.
  - rewrite Nat2Z.id, drop_app_le, H5 by lia. rewrite <-drop_app_le by lia. unfold l. by rewrite take_drop.
Qed.

Lemma z7_BranchConvSt_X86_roundtrip_witness :
  exists data' processed state',
    z7_BranchConvSt_X86 true [232; 0; 1; 2; 0; 144; 233; 5; 0; 0; 255; 144] 12 4096 0 = Some (data', processed, state') /\
    z7_BranchConvSt_X86 (negb true) data' 12 4096 0 = Some ([232; 0; 1; 2; 0; 144; 233; 5; 0; 0; 255; 144], processed, state') /\
    bytes data' /\ length data' = 12%nat /\ drop (Z.to_nat processed) data' = drop (Z.to_nat processed) [232; 0; 1; 2; 0; 144; 233; 5; 0; 0; 255; 144] /\
    0 <= processed <= 12 /\ 12 <= processed + 4 /\ 0 <= state' < 8.
Proof.
  apply (z7_BranchConvSt_X86_roundtrip true [232; 0; 1; 2; 0; 144; 233; 5; 0; 0; 255; 144] 12 4096 0); [byte_list|cbn; lia|lia].
Defined.

(** C35: The x86 converter may be called on the data piece by piece.  A call on the first [size1]
    bytes, followed by a call on the rest from where the first one stopped, with its state and
    the program counter moved on, makes of the buffer what one call on all of it does. *)
Theorem z7_BranchConvSt_X86_resume (encoding : bool) (data : list Z) (size1 size pc state : Z)
    (Hdata : bytes data) (Hsize : 0 <= size1 <= size) (Hlen : size <= Z.of_nat (length data)) (Hstate : 0 <= state < 8) :
  exists data1 processed1 state1 data2 processed2 state2 processed state',
    z7_BranchConvSt_X86 encoding data size1 pc state = Some (data1, processed1, state1) /\
    z7_BranchConvSt_X86 encoding (drop (Z.to_nat processed1) data1) (size - processed1) (pc + processed1) state1 = Some (data2, processed2, state2) /\
    z7_BranchConvSt_X86 encoding data size pc state = Some (take (Z.to_nat processed1) data1 ++ data2, processed, state').
Proof.
  destruct (x86_run encoding data size1 pc state Hdata ltac:(lia) Hstate) as (n1 & m1 & A1 & _ & A3 & A4 & A5 & A6).
  destruct (x86_run encoding data size pc state Hdata ltac:(lia) Hstate) as (n & m & B1 & _).
  set (l1 := take (Z.to_nat size1) data) in *. assert (length l1 = Z.to_nat size1) as Hl1 by (unfold l1; rewrite length_take; lia).
  set (l1' := x86_map encoding (pc + 4) 0 state l1) in *. assert (length l1' = length l1) as Hl1' by apply x86_map_length.
  set (rest := drop n1 (l1' ++ drop (Z.to_nat size1) data)).
  assert (rest = drop n1 data) as Erest.
  { unfold rest. rewrite drop_app_le, A5, <-drop_app_le by lia. unfold l1. by rewrite take_drop. }
  destruct (x86_run encoding rest (size - Z.of_nat n1) (pc + Z.of_nat n1) m1) as (n2 & m2 & C1 & _); [rewrite Erest; by apply bytes_drop|rewrite Erest, length_drop; lia|done|].
  exists (l1' ++ drop (Z.to_nat size1) data), (Z.of_nat n1), m1. rewrite Nat2Z.id. fold rest. eexists _, _, _, _, _. split; [exact A1|]. split; [exact C1|].
  rewrite B1. do 3 f_equal. rewrite Erest, drop_drop. replace (n1 + Z.to_nat (size - Z.of_nat n1))%nat with (Z.to_nat size) by lia. rewrite app_assoc. f_equal.
  rewrite take_app_le by lia. replace (pc + Z.of_nat n1 + 4) with (pc + 4 + Z.of_nat n1) by lia. rewrite (map_shift encoding (pc + 4) (Z.of_nat n1) (S (length (take (Z.to_nat (size - Z.of_nat n1)) (drop n1 data))))), Z.add_0_r by lia.
  assert (take (Z.to_nat size) data = l1 ++ take (Z.to_nat size - Z.to_nat size1) (drop (Z.to_nat size1) data)) as ->.
  { unfold l1. rewrite <-take_take_drop. f_equal. lia. }
  rewrite A6. do 2 f_equal. rewrite <-(take_drop (Z.to_nat size1) data) at 2. fold l1. rewrite drop_app_le, take_app_ge by (rewrite ?length_drop; lia).
  f_equal. f_equal. rewrite length_drop. lia.
Qed.

Lemma z7_BranchConvSt_X86_resume_witness :
  exists data1 processed1 state1 data2 processed2 state2 processed state',
    z7_BranchConvSt_X86 true [232; 0; 1; 2; 0; 144; 233; 5; 0; 0; 255; 144] 9 4096 0 = Some (data1, processed1, state1) /\
    z7_BranchConvSt_X86 true (drop (Z.to_nat processed1) data1) (12 - processed1) (4096 + processed1) state1 = Some (data2, processed2, state2) /\
    z7_BranchConvSt_X86 true [232; 0; 1; 2; 0; 144; 233; 5; 0; 0; 255; 144] 12 4096 0 =
      Some (take (Z.to_nat processed1) data1 ++ data2, processed, state').
Proof.
  apply (z7_BranchConvSt_X86_resume true [232; 0; 1; 2; 0; 144; 233; 5; 0; 0; 255; 144] 9 12 4096 0); [byte_list|lia|cbn; lia|lia].
Defined.
