(* ===== verification/BraArmt.v ===== *)
(** * Branch converter for ARM Thumb

    BranchConv_ARMT (Bra.c): the search for pairs of halfwords is the greedy walk over the
    data, and decoding undoes encoding. *)

From stdpp Require Import base numbers list list_numbers.
From Stdlib Require Import ZArith Lia.
From S2P Require Import Prelude Bra BraWords.
Local Open Scope Z_scope.
Local Open Scope word_scope.

(** The test of the code on the high bytes of two halfwords in a row. *)
Definition armt_pair (b1 b3 : Z) : bool := 0xf8 <=? (b3 &&& (b1 ^^^ 8)).

(** Reference: from left to right, a pair is converted as a whole and skipped. *)
Definition armt_conv (encoding : bool) (c : Z) (b0 b1 b2 b3 : Z) : list Z :=
  let v := armt_value encoding c (le_load [b0; b1]) (le_load [b2; b3]) in
  le_bytes 2 (u16 (((v >>> 11) &&& 0x7ff) ||| 0xf000)) ++ le_bytes 2 (u16 (v ||| 0xf800)).

Fixpoint armt_map (encoding : bool) (pc p : Z) (l : list Z) : list Z :=
  match l with
  | b0 :: b1 :: ((b2 :: b3 :: l') as rest) =>
      if armt_pair b1 b3
      then armt_conv encoding (BR_PC_GET pc (p + 4) >>> 1) b0 b1 b2 b3 ++ armt_map encoding pc (p + 4) l'
      else b0 :: b1 :: armt_map encoding pc (p + 2) rest
  | _ => l
  end.

(** The bytes the walk disposes of: all, or all but the last halfword, which may be the
    first of a pair. *)
Fixpoint armt_done (l : list Z) : Z :=
  match l with
  | b0 :: b1 :: ((b2 :: b3 :: l') as rest) => if armt_pair b1 b3 then 4 + armt_done l' else 2 + armt_done rest
  | _ => 0
  end.

(** How many halfwords come before the first pair. *)
Fixpoint find_pair (l : list Z) : option nat :=
  match l with
  | b0 :: b1 :: ((b2 :: b3 :: l') as rest) => if armt_pair b1 b3 then Some O else option_map S (find_pair rest)
  | _ => None
  end.

(** Their equations. *)
Lemma armt_eqs encoding pc p b0 b1 b2 b3 l :
  find_pair (b0 :: b1 :: b2 :: b3 :: l) = (if armt_pair b1 b3 then Some O else option_map S (find_pair (b2 :: b3 :: l))) /\
  armt_map encoding pc p (b0 :: b1 :: b2 :: b3 :: l) =
    (if armt_pair b1 b3
     then armt_conv encoding (BR_PC_GET pc (p + 4) >>> 1) b0 b1 b2 b3 ++ armt_map encoding pc (p + 4) l
     else b0 :: b1 :: armt_map encoding pc (p + 2) (b2 :: b3 :: l)) /\
  armt_done (b0 :: b1 :: b2 :: b3 :: l) = (if armt_pair b1 b3 then 4 + armt_done l else 2 + armt_done (b2 :: b3 :: l)).
Proof. done. Qed.

Lemma even_SS n : Z.even (Z.of_nat (S (S n))) = Z.even (Z.of_nat n).
Proof. by rewrite !Nat2Z.inj_succ, Z.even_succ, Z.odd_succ. Qed.

Lemma even_pairs k n : Z.even (Z.of_nat (2 * k + S (S (S (S n))))) = Z.even (Z.of_nat n).
Proof.
  replace (Z.of_nat (2 * k + S (S (S (S n))))) with (Z.of_nat n + 2 * (Z.of_nat k + 2)) by lia.
  apply Z.even_add_mul_2.
Qed.

Lemma find_pair_None encoding pc l : forall p,
  find_pair l = None -> armt_map encoding pc p l = l /\ (Z.even (Z.of_nat (length l)) = true -> (2 <= length l)%nat -> armt_done l = Z.of_nat (length l) - 2).
Proof.
  induction l as [l IH] using (induction_ltof1 _ (@length Z)); intros p Hf. unfold ltof in IH.
  destruct l as [|b0 [|b1 [|b2 [|b3 l']]]]; 
    [split; [reflexivity|intros; cbn in *; first [discriminate|lia]]..|].
  destruct (armt_eqs encoding pc p b0 b1 b2 b3 l') as (E1 & -> & ->). rewrite E1 in Hf.
  destruct (armt_pair b1 b3); [done|].
  destruct (IH (b2 :: b3 :: l') ltac:(cbn; lia) (p + 2)) as [H1 H2]; [destruct (find_pair (b2 :: b3 :: l')); [discriminate Hf|reflexivity]|].
  split; [by rewrite H1|]. intros He Hl. rewrite H2; [cbn [length]; lia| |cbn; lia].
  cbn [length] in *. by rewrite even_SS in He.
Qed.

Lemma find_pair_Some encoding pc k : forall l p,
  find_pair l = Some k ->
  exists m b0 b1 b2 b3 l', l = m ++ b0 :: b1 :: b2 :: b3 :: l' /\ length m = (2 * k)%nat /\ armt_pair b1 b3 = true /\
    armt_map encoding pc p l =
      m ++ armt_conv encoding (BR_PC_GET pc (p + 2 * Z.of_nat k + 4) >>> 1) b0 b1 b2 b3 ++
      armt_map encoding pc (p + 2 * Z.of_nat k + 4) l' /\
    armt_done l = 2 * Z.of_nat k + 4 + armt_done l'.
Proof.
  induction k as [|k IH]; intros l p Hf; destruct l as [|b0 [|b1 [|b2 [|b3 l']]]]; try done;
    destruct (armt_eqs encoding pc p b0 b1 b2 b3 l') as (E1 & -> & ->); rewrite E1 in Hf; clear E1;
    destruct (armt_pair b1 b3) eqn:Hp; try done.
  - exists [], b0, b1, b2, b3, l'. rewrite !Z.add_0_r. by split_and!.
  - destruct (find_pair (b2 :: b3 :: l')); discriminate Hf.
  - destruct (find_pair (b2 :: b3 :: l')) as [n|] eqn:Hn; [|done]. injection Hf as ->.
    destruct (IH _ (p + 2) Hn) as (m & c0 & c1 & c2 & c3 & r & E & Hm & Hp' & Hmap & Hdone).
    exists (b0 :: b1 :: m), c0, c1, c2, c3, r.
    split; [cbn; by rewrite <-E|]. split; [cbn; lia|]. split; [done|].
    rewrite Hmap, Hdone. replace (p + 2 + 2 * Z.of_nat k) with (p + 2 * Z.of_nat (S k)) by lia.
    split; [done|lia].
Qed.

(** ** The search of the code *)

Lemma rd_at {A} (pre l : list A) k x : l !! Z.to_nat k = Some x -> 0 <= k -> rd (pre ++ l) (Z.of_nat (length pre) + k) = Some x.
Proof.
  intros Hx Hk. rewrite rd_lookup by lia. rewrite lookup_app_r by lia.
  replace (Z.to_nat (Z.of_nat (length pre) + k) - length pre)%nat with (Z.to_nat k) by lia. done.
Qed.

Lemma armt_scan_find lim post l : forall pre b1 fuel,
  lim = Z.of_nat (length pre + length l) - 2 -> Z.even (Z.of_nat (length l)) = true -> (2 <= length l)%nat ->
  l !! 1%nat = Some b1 -> (length l <= S fuel)%nat ->
  loop fuel
    (fun '(p, b1) =>
       if lim <=? p then Some (inr (inr p))
       else
         b3 ← rd (pre ++ l ++ post) (p + 3);
         let p := p + 2 in
         if 0xf8 <=? (b3 &&& (b1 ^^^ 8)) then Some (inr (inl p))
         else
           if lim <=? p then Some (inr (inr p))
           else
             b1 ← rd (pre ++ l ++ post) (p + 3);
             let p := p + 2 in
             if 0xf8 <=? (b1 &&& (b3 ^^^ 8)) then Some (inr (inl p))
             else Some (inl (p, b1))) (Z.of_nat (length pre), b1) =
  Some (match find_pair l with Some k => inl (Z.of_nat (length pre) + 2 * Z.of_nat k + 2) | None => inr lim end).
Proof.
  induction l as [l IH] using (induction_ltof1 _ (@length Z)); intros pre b1 fuel Hlim He Hl Hb1 Hf. unfold ltof in IH.
  destruct l as [|a0 [|a1 l]]; try (cbn in *; lia). injection Hb1 as ->.
  destruct fuel as [|fuel]; [cbn in *; lia|]. cbn [loop].
  destruct l as [|c0 [|c1 l]].
  { cbn [length] in Hlim. destruct (Z.leb_spec lim (Z.of_nat (length pre))); [|lia]. cbn [find_pair].
    replace lim with (Z.of_nat (length pre)) by lia. done. }
  { done. }
  destruct (Z.leb_spec lim (Z.of_nat (length pre))); [cbn in *; lia|].
  rewrite (rd_at pre _ 3 c1) by (done || lia). opt. rewrite (proj1 (armt_eqs false 0 0 a0 b1 c0 c1 l)). fold (armt_pair b1 c1).
  destruct (armt_pair b1 c1); [do 2 f_equal; lia|].
  destruct l as [|d0 [|d1 l]].
  { destruct (Z.leb_spec lim (Z.of_nat (length pre) + 2)); [|cbn in *; lia]. cbn [find_pair option_map].
    replace lim with (Z.of_nat (length pre) + 2) by (cbn in *; lia). done. }
  { done. }
  destruct (Z.leb_spec lim (Z.of_nat (length pre) + 2)); [cbn in *; lia|].
  replace (Z.of_nat (length pre) + 2 + 3) with (Z.of_nat (length pre) + 5) by lia.
  rewrite (rd_at pre _ 5 d1) by (done || lia). opt.
  rewrite (proj1 (armt_eqs false 0 0 c0 c1 d0 d1 l)). fold (armt_pair c1 d1).
  destruct (armt_pair c1 d1); [cbn [option_map]; do 2 f_equal; lia|].
  specialize (IH (d0 :: d1 :: l) ltac:(cbn; lia) (pre ++ [a0; b1; c0; c1]) d1 fuel).
  replace (Z.of_nat (length pre) + 2 + 2) with (Z.of_nat (length (pre ++ [a0; b1; c0; c1]))) by (rewrite length_app; cbn; lia).
  replace (pre ++ (a0 :: b1 :: c0 :: c1 :: d0 :: d1 :: l) ++ post) with ((pre ++ [a0; b1; c0; c1]) ++ (d0 :: d1 :: l) ++ post)
    by (by rewrite <-app_assoc).
  rewrite IH; [| | |cbn; lia|done|cbn in *; lia].
  - destruct (find_pair (d0 :: d1 :: l)); cbn [option_map]; [|done]. do 2 f_equal. rewrite length_app. cbn. lia.
  - rewrite length_app. cbn in *. lia.
  - cbn [length] in He |- *. rewrite !even_SS in He. by rewrite even_SS.
Qed.

Lemma GetUi16_at pre b0 b1 l p :
  p = Z.of_nat (length pre) -> GetUi16 (pre ++ b0 :: b1 :: l) p = Some (le_load [b0; b1]).
Proof.
  intros ->. unfold GetUi16. destruct (Z.ltb_spec (Z.of_nat (length pre)) 0); [lia|].
  rewrite Nat2Z.id, slice_Some by (rewrite length_app; cbn; lia). opt. by rewrite drop_app_length.
Qed.

Lemma SetUi16_at pre b0 b1 l p v :
  p = Z.of_nat (length pre) -> SetUi16 (pre ++ b0 :: b1 :: l) p v = Some (pre ++ le_bytes 2 v ++ l).
Proof.
  intros ->. unfold SetUi16. destruct (Z.ltb_spec (Z.of_nat (length pre)) 0); [lia|].
  unfold blit. rewrite Nat2Z.id, decide_True by (rewrite length_app, length_le_bytes; cbn; lia).
  rewrite length_le_bytes, take_app_length, Nat.add_comm, <-drop_drop, drop_drop, Nat.add_comm.
  by rewrite <-drop_drop, drop_app_length.
Qed.

(** What a converted pair leaves at its place. *)
Lemma armt_store pre b0 b1 b2 b3 l p h0 h1 :
  p = Z.of_nat (length pre) ->
  (data ← SetUi16 (pre ++ b0 :: b1 :: b2 :: b3 :: l) p h0; SetUi16 data (p + 2) h1) =
  Some (pre ++ (le_bytes 2 h0 ++ le_bytes 2 h1) ++ l).
Proof.
  intros ->. rewrite SetUi16_at by done. opt. rewrite app_assoc.
  rewrite SetUi16_at by (rewrite length_app, length_le_bytes; lia). by rewrite <-!app_assoc.
Qed.

Lemma armt_loop encoding lim pc post l : forall pre fuel,
  lim = Z.of_nat (length pre + length l) - 2 -> Z.even (Z.of_nat (length l)) = true -> (2 <= length l)%nat ->
  (length l <= S fuel)%nat ->
  loop fuel (armt_turn encoding lim pc) (pre ++ l ++ post, Z.of_nat (length pre)) =
  Some (pre ++ armt_map encoding pc (Z.of_nat (length pre)) l ++ post, Z.of_nat (length pre) + armt_done l).
Proof.
  induction l as [l IH] using (induction_ltof1 _ (@length Z)); intros pre fuel Hlim He Hl Hf. unfold ltof in IH.
  destruct fuel as [|fuel]; [lia|]. cbn [loop]. unfold armt_turn at 1.
  destruct (lookup_lt_is_Some_2 l 1%nat) as [b1 Hb1]; [lia|].
  rewrite (rd_at pre (l ++ post) 1 b1) by (by rewrite ?lookup_app_l by lia). opt.
  unfold armt_scan. rewrite armt_scan_find by (done || lia).
  opt.
  destruct (find_pair l) as [k|] eqn:Hk.
  2:{ destruct (find_pair_None encoding pc l (Z.of_nat (length pre)) Hk) as [-> Hd]. rewrite (Hd He Hl), Hlim. do 2 f_equal. lia. }
  destruct (find_pair_Some encoding pc k l (Z.of_nat (length pre)) Hk)
    as (m & b0 & b1' & b2 & b3 & l' & -> & Hm & _ & -> & ->). clear Hb1 b1 Hk.
  set (p4 := Z.of_nat (length pre) + 2 * Z.of_nat k + 4).
  replace (pre ++ (m ++ b0 :: b1' :: b2 :: b3 :: l') ++ post) with ((pre ++ m) ++ b0 :: b1' :: b2 :: b3 :: l' ++ post)
    by (by rewrite <-!app_assoc).
  rewrite (GetUi16_at (pre ++ m) b0 b1' _ (Z.of_nat (length pre) + 2 * Z.of_nat k + 2 - 2)) by (rewrite length_app; lia). opt.
  replace ((pre ++ m) ++ b0 :: b1' :: b2 :: b3 :: l' ++ post) with (((pre ++ m) ++ [b0; b1']) ++ b2 :: b3 :: l' ++ post)
    at 1 by (by rewrite <-!app_assoc).
  rewrite (GetUi16_at ((pre ++ m) ++ [b0; b1'])) by (rewrite !length_app; cbn; lia). opt.
  replace (Z.of_nat (length pre) + 2 * Z.of_nat k + 2 + 2) with p4 by (unfold p4; lia).
  set (v := armt_value _ _ _ _).
  pose proof (armt_store (pre ++ m) b0 b1' b2 b3 (l' ++ post) (p4 - 4)
    (u16 (((v >>> 11) &&& 0x7ff) ||| 0xf000)) (u16 (v ||| 0xf800)) ltac:(unfold p4; rewrite length_app; lia)) as Hst.
  replace (p4 - 4 + 2) with (p4 - 2) in Hst by lia.
  destruct (SetUi16 _ (p4 - 4) _) as [d|]; [|done]. cbn [mbind option_bind] in Hst |- *. rewrite Hst. opt.
  fold (armt_conv encoding (BR_PC_GET pc p4 >>> 1) b0 b1' b2 b3). clear Hst d.
  change (le_bytes 2 (u16 (((v >>> 11) &&& 0x7ff) ||| 0xf000)) ++ le_bytes 2 (u16 (v ||| 0xf800)))
    with (armt_conv encoding (BR_PC_GET pc p4 >>> 1) b0 b1' b2 b3).
  set (w := armt_conv _ _ _ _ _ _). assert (length w = 4%nat) as Hw by done.
  rewrite length_app in Hlim, He, Hl, Hf. cbn [length] in *.
  assert (p4 = Z.of_nat (length ((pre ++ m) ++ w))) as Hp by (unfold p4; rewrite !length_app, Hw; lia).
  destruct (Z.ltb_spec p4 lim).
  - rewrite app_assoc, Hp, IH;
      [|rewrite length_app; cbn; lia|rewrite !length_app, Hw; lia| |lia|lia].
    + rewrite <-!app_assoc. do 2 f_equal. rewrite !length_app, Hw. lia.
    + by rewrite Hm, even_pairs in He.
  - assert (length l' = 0%nat \/ length l' = 1%nat \/ length l' = 2%nat) as Hl' by (unfold p4 in *; lia).
    assert (armt_map encoding pc p4 l' = l' /\ armt_done l' = 0) as [-> ->].
    { destruct l' as [|x0 [|x1 [|x2 r]]]; try done. cbn in Hl'. lia. }
    rewrite <-!app_assoc. do 2 f_equal. unfold p4. lia.
Qed.

(** The call is the walk. *)
Lemma BranchConv_ARMT_map encoding data size pc :
  0 <= size <= Z.of_nat (length data) ->
  let k := Z.to_nat (size - size mod 2) in
  BranchConv_ARMT encoding data size pc =
    Some (armt_map encoding pc 0 (take k data) ++ drop k data, armt_done (take k data)).
Proof.
  intros Hs k. unfold BranchConv_ARMT. pose proof (Z.mod_pos_bound size 2 ltac:(lia)).
  pose proof (Z.div_mod size 2 ltac:(lia)).
  assert (length (take k data) = k) as Hk by (rewrite length_take; lia).
  destruct (Z.leb_spec (size - size mod 2) 2).
  - assert (armt_map encoding pc 0 (take k data) = take k data /\ armt_done (take k data) = 0) as [-> ->].
    { destruct (take k data) as [|x0 [|x1 [|x2 r]]]; try done. cbn in Hk. lia. }
    by rewrite take_drop.
  - pose proof (armt_loop encoding (size - size mod 2 - 2) pc (drop k data) (take k data) []
      (S (Z.to_nat (size - size mod 2 - 2)))) as E.
    cbn [app length] in E. change (Z.of_nat 0) with 0 in E. rewrite take_drop in E. rewrite E; rewrite ?Hk; try lia; [done|].
    replace (Z.of_nat k) with (2 * (size / 2)) by lia. by rewrite Z.even_mul.
Qed.

(** ** The conversion of a pair *)

(** A list of bytes, each a hypothesis. *)
Local Ltac all_bytes := repeat (apply Forall_cons_2; [assumption|]); apply Forall_nil_2.
Local Ltac euclid := Z.to_euclidean_division_equations; lia.

(** The test, on the five high bits of each. *)
Lemma armt_pair_spec b1 b3 :
  in_width 8 b1 -> in_width 8 b3 -> armt_pair b1 b3 = (b1 / 8 =? 30) && (b3 / 8 =? 31).
Proof.
  unfold in_width. intros H1 H3. change (2 ^ 8) with 256 in *. unfold armt_pair.
  assert (in_width 8 (b3 &&& (b1 ^^^ 8))) as Hx.
  { apply land_in_width; [lia|]. unfold in_width. lia. }
  unfold in_width in Hx. change (2 ^ 8) with 256 in Hx.
  transitivity ((b3 &&& (b1 ^^^ 8)) / 8 =? 31).
  { destruct (Z.leb_spec 0xf8 (b3 &&& (b1 ^^^ 8))), (Z.eqb_spec ((b3 &&& (b1 ^^^ 8)) / 8) 31); (done || euclid). }
  change 8 with (2 ^ 3) at 2. rewrite <-Z.shiftr_div_pow2 by lia. rewrite Z.shiftr_land, Z.shiftr_lxor.
  rewrite !Z.shiftr_div_pow2 by lia. change (2 ^ 3) with 8. change (8 / 8) with 1.
  assert (forall x, 0 <= x < 32 -> forall y, 0 <= y < 32 -> (y &&& (x ^^^ 1) =? 31) = (x =? 30) && (y =? 31)) as F.
  { intros x Hx' y Hy.
    pose proof (forall_range (fun y => eqb (y &&& (x ^^^ 1) =? 31) ((x =? 30) && (y =? 31))) 32) as F.
    apply eqb_prop, F; [|lia].
    apply (forall_range (fun x => forallb (fun y => eqb (y &&& (x ^^^ 1) =? 31) ((x =? 30) && (y =? 31)))
      (seqZ 0 (Z.of_nat 32))) 32); [reflexivity|lia]. }
  apply F; euclid.
Qed.

Definition armt_word (h0 h1 : Z) : Z := h0 * 2 ^ 11 + h1 mod 2 ^ 11.

Lemma armt_word_eq h0 h1 : in_width 16 h0 -> (u32 (h0 <<< 11) ||| (h1 &&& 0x7FF)) = armt_word h0 h1.
Proof.
  intros H0. unfold in_width in H0. rewrite Z.shiftl_mul_pow2 by lia. rewrite wrap_small by (unfold in_width; lia).
  rewrite Z.lor_comm. change 0x7FF with (2 ^ 11 - 1). rewrite set_high by lia. done.
Qed.

Lemma armt_low V : u16 (((V >>> 11) &&& 0x7ff) ||| 0xf000) = 30 * 2 ^ 11 + V / 2 ^ 11 mod 2 ^ 11.
Proof.
  change 0xf000 with (30 * 2 ^ 11). change 0x7ff with (2 ^ 11 - 1). rewrite set_high, Z.shiftr_div_pow2 by lia.
  apply wrap_small. unfold in_width. pose proof (Z.mod_pos_bound (V / 2 ^ 11) (2 ^ 11)). lia.
Qed.

Lemma armt_high V : u16 (V ||| 0xf800) = 31 * 2 ^ 11 + V mod 2 ^ 11.
Proof.
  unfold wrap. rewrite <-land_ones_mod, Z.land_lor_distr_l by lia. change (0xf800 &&& (2 ^ 16 - 1)) with (31 <<< 11).
  rewrite land_ones_mod by lia.
  replace (V mod 2 ^ 16) with (V mod 2 ^ 11 + V / 2 ^ 11 mod 32 * 2 ^ 11) by euclid.
  pose proof (Z.mod_pos_bound V (2 ^ 11) ltac:(lia)) as Hm.
  rewrite <-lor_shiftl_add, <-Z.lor_assoc, <-Z.shiftl_lor by lia.
  replace (V / 2 ^ 11 mod 32 ||| 31) with 31; [rewrite lor_shiftl_add by lia; lia|].
  pose proof (Z.mod_pos_bound (V / 2 ^ 11) 32 ltac:(lia)).
  symmetry. apply Z.eqb_eq, (forall_range (fun x => (x ||| 31) =? 31) 32); [reflexivity|lia].
Qed.

(** Decoding the halfwords that encoding stored. *)
Lemma armt_value_undo e c h0 h1 :
  in_width 16 h0 -> in_width 16 h1 -> h0 / 2 ^ 11 = 30 -> h1 / 2 ^ 11 = 31 ->
  let V := armt_value e c h0 h1 in
  let h0' := 30 * 2 ^ 11 + V / 2 ^ 11 mod 2 ^ 11 in
  let h1' := 31 * 2 ^ 11 + V mod 2 ^ 11 in
  let V' := armt_value (negb e) c h0' h1' in
  30 * 2 ^ 11 + V' / 2 ^ 11 mod 2 ^ 11 = h0 /\ 31 * 2 ^ 11 + V' mod 2 ^ 11 = h1.
Proof.
  intros H0 H1 E0 E1 V h0' h1'.
  assert (in_width 16 h0') as H0'.
  { unfold h0', in_width. pose proof (Z.mod_pos_bound (V / 2 ^ 11) (2 ^ 11)). lia. }
  unfold armt_value. rewrite (armt_word_eq h0' h1') by done.
  assert (armt_word h0' h1' = 30 * 2 ^ 22 + V mod 2 ^ 22) as ->.
  { unfold armt_word, h0', h1'. clear. generalize V. intros v. euclid. }
  subst h0' h1' V. unfold armt_value. rewrite (armt_word_eq h0 h1) by done.
  assert (armt_word h0 h1 / 2 ^ 22 = 30) as Ev by (unfold armt_word; clear -E0; euclid).
  destruct (convert_field_undo e (armt_word h0 h1) c 22 30 ltac:(lia) ltac:(lia) Ev) as [_ E].
  revert E. generalize (BR_CONVERT_VAL (negb e) (30 * 2 ^ 22 + BR_CONVERT_VAL e (armt_word h0 h1) c mod 2 ^ 22) c).
  intros v. unfold armt_word. clear -E0 E1. intros E. split; euclid.
Qed.

Lemma le_load_2 b0 b1 : in_width 8 b0 -> in_width 8 b1 ->
  in_width 16 (le_load [b0; b1]) /\ le_load [b0; b1] / 2 ^ 11 = b1 / 8 /\ le_bytes 2 (le_load [b0; b1]) = [b0; b1].
Proof.
  intros H0 H1. split; [apply le_load_in_width; [all_bytes|cbn; lia]|]. split.
  - unfold in_width in *. cbn [le_load]. clear -H0 H1. change (2 ^ 8) with 256 in *. euclid.
  - apply (le_bytes_load [b0; b1]). all_bytes.
Qed.

Lemma armt_conv_eq e c b0 b1 b2 b3 :
  let V := armt_value e c (le_load [b0; b1]) (le_load [b2; b3]) in
  armt_conv e c b0 b1 b2 b3 =
    le_bytes 2 (30 * 2 ^ 11 + V / 2 ^ 11 mod 2 ^ 11) ++ le_bytes 2 (31 * 2 ^ 11 + V mod 2 ^ 11).
Proof. intros V. unfold armt_conv. by rewrite armt_low, armt_high. Qed.

(** A halfword with fixed high bits, as its two bytes. *)
Lemma halfword_bytes k x : 0 <= k < 32 -> 0 <= x < 2 ^ 11 ->
  exists c0 c1, le_bytes 2 (k * 2 ^ 11 + x) = [c0; c1] /\ in_width 8 c0 /\ in_width 8 c1 /\ c1 / 8 = k /\
    le_load [c0; c1] = k * 2 ^ 11 + x.
Proof.
  intros Hk Hx. pose proof (bytes_le_bytes 2 (k * 2 ^ 11 + x)) as Hb.
  pose proof (le_load_bytes 2 (k * 2 ^ 11 + x) ltac:(cbn; lia)) as Hl.
  destruct (le_bytes 2 (k * 2 ^ 11 + x)) as [|c0 [|c1 [|c2 r]]] eqn:E; try done.
  apply Forall_cons_1 in Hb as [H0 Hb]. apply Forall_cons_1 in Hb as [H1 _].
  exists c0, c1. split_and!; try done. destruct (le_load_2 c0 c1 H0 H1) as (_ & <- & _). rewrite Hl.
  rewrite Z.add_comm, Z.div_add, Z.div_small by lia. lia.
Qed.

Lemma armt_conv_undo e c b0 b1 b2 b3 :
  bytes [b0; b1; b2; b3] -> armt_pair b1 b3 = true ->
  exists c0 c1 c2 c3, armt_conv e c b0 b1 b2 b3 = [c0; c1; c2; c3] /\ bytes [c0; c1; c2; c3] /\
    armt_pair c1 c3 = true /\ c1 / 8 = b1 / 8 /\ armt_conv (negb e) c c0 c1 c2 c3 = [b0; b1; b2; b3].
Proof.
  intros Hb Hp. apply Forall_cons_1 in Hb as [H0 Hb]. apply Forall_cons_1 in Hb as [H1 Hb].
  apply Forall_cons_1 in Hb as [H2 Hb]. apply Forall_cons_1 in Hb as [H3 _].
  rewrite armt_pair_spec in Hp by done. apply andb_true_iff in Hp as [Hp1 Hp3].
  apply Z.eqb_eq in Hp1. apply Z.eqb_eq in Hp3.
  destruct (le_load_2 b0 b1 H0 H1) as (W0 & D0 & B0). destruct (le_load_2 b2 b3 H2 H3) as (W1 & D1 & B1).
  destruct (armt_value_undo e c _ _ W0 W1 ltac:(congruence) ltac:(congruence)) as [U0 U1].
  rewrite armt_conv_eq. revert U0 U1. set (V := armt_value e c _ _). intros U0 U1.
  destruct (halfword_bytes 30 (V / 2 ^ 11 mod 2 ^ 11) ltac:(lia) ltac:(apply Z.mod_pos_bound; lia))
    as (c0 & c1 & E0 & C0 & C1 & Q1 & L0).
  destruct (halfword_bytes 31 (V mod 2 ^ 11) ltac:(lia) ltac:(apply Z.mod_pos_bound; lia))
    as (c2 & c3 & E1 & C2 & C3 & Q3 & L1).
  exists c0, c1, c2, c3. rewrite E0, E1. split; [done|]. split; [all_bytes|].
  split; [rewrite armt_pair_spec, Q1, Q3 by done; done|]. split; [congruence|].
  rewrite armt_conv_eq. rewrite L0, L1, U0, U1, B0, B1. done.
Qed.

(** ** Round trip of the walk *)

(** What a halfword contributes to a pair is left alone. *)
Lemma armt_map_head e pc p b0 b1 l :
  bytes (b0 :: b1 :: l) ->
  exists c0 c1 r, armt_map e pc p (b0 :: b1 :: l) = c0 :: c1 :: r /\ in_width 8 c1 /\ c1 / 8 = b1 / 8.
Proof.
  intros Hb. assert (in_width 8 b1) as H1 by (by apply Forall_cons_1 in Hb as [_ Hb]; apply Forall_cons_1 in Hb as [Hb _]).
  destruct l as [|b2 [|b3 l]]; [by eexists _, _, _|by eexists _, _, _|].
  destruct (armt_eqs e pc p b0 b1 b2 b3 l) as (_ & -> & _).
  destruct (armt_pair b1 b3) eqn:Hp; [|by eexists _, _, _].
  apply (Forall_app _ [b0; b1; b2; b3] l) in Hb as [Hb _].
  destruct (armt_conv_undo e (BR_PC_GET pc (p + 4) >>> 1) b0 b1 b2 b3 Hb Hp) as (c0 & c1 & c2 & c3 & -> & Hc & _ & Q & _).
  cbn [app]. eexists _, _, _. split; [reflexivity|]. split; [|done].
  apply Forall_cons_1 in Hc as [_ Hc]. by apply Forall_cons_1 in Hc as [Hc _].
Qed.

Lemma armt_map_undo e pc l : forall p,
  bytes l ->
  bytes (armt_map e pc p l) /\ length (armt_map e pc p l) = length l /\
  armt_done (armt_map e pc p l) = armt_done l /\
  armt_map (negb e) pc p (armt_map e pc p l) = l.
Proof.
  induction l as [l IH] using (induction_ltof1 _ (@length Z)); intros p Hb. unfold ltof in IH.
  destruct l as [|b0 [|b1 [|b2 [|b3 l]]]]; try done.
  destruct (armt_eqs e pc p b0 b1 b2 b3 l) as (_ & -> & ->).
  pose proof Hb as Hb'. apply (Forall_app _ [b0; b1; b2; b3] l) in Hb' as [Hb4 Hbl].
  destruct (armt_pair b1 b3) eqn:Hp.
  - destruct (armt_conv_undo e (BR_PC_GET pc (p + 4) >>> 1) b0 b1 b2 b3 Hb4 Hp) as (c0 & c1 & c2 & c3 & -> & Hc & Hp' & _ & Hu).
    destruct (IH l ltac:(cbn; lia) (p + 4) Hbl) as (I1 & I2 & I3 & I4). cbn [app].
    destruct (armt_eqs (negb e) pc p c0 c1 c2 c3 (armt_map e pc (p + 4) l)) as (_ & -> & ->).
    rewrite Hp', Hu, I3, I4. cbn [app length]. rewrite I2. split; [by apply (Forall_app _ [c0; c1; c2; c3])|done].
  - apply (Forall_app _ [b0; b1] (b2 :: b3 :: l)) in Hb as [Hb2 Hbr].
    destruct (armt_map_head e pc (p + 2) b2 b3 l Hbr) as (c2 & c3 & r & E & Hc3 & Q).
    destruct (IH (b2 :: b3 :: l) ltac:(cbn; lia) (p + 2) Hbr) as (I1 & I2 & I3 & I4). rewrite E in *.
    destruct (armt_eqs (negb e) pc p b0 b1 c2 c3 r) as (_ & -> & ->).
    assert (armt_pair b1 c3 = false) as ->.
    { apply Forall_cons_1 in Hb2 as [_ Hb1]. apply Forall_cons_1 in Hb1 as [Hb1 _].
      apply Forall_cons_1 in Hbr as [_ Hbr]. apply Forall_cons_1 in Hbr as [Hb3 _].
      rewrite armt_pair_spec in Hp |- * by done. by rewrite Q. }
    split; [by apply (Forall_app _ [b0; b1])|]. split; [cbn [length] in *; lia|]. by rewrite I3, I4.
Qed.

(** ** Theorem *)

(** C38: The ARM Thumb converter turns every pair of a BL instruction met from left to right,
    returns how far it decided (everything, or everything but a last halfword that may
    start a pair), and decoding at the same program counter undoes encoding, and the
    reverse, for any data, size and program counter. *)
Theorem BranchConv_ARMT_roundtrip (encoding : bool) (data : list Z) (size pc : Z)
    (Hdata : bytes data) (Hsize : 0 <= size <= Z.of_nat (length data)) :
  let code := take (Z.to_nat (size - size mod 2)) data in
  let rest := drop (Z.to_nat (size - size mod 2)) data in
  exists data',
    BranchConv_ARMT encoding data size pc = Some (data', armt_done code) /\
    data' = armt_map encoding pc 0 code ++ rest /\ bytes data' /\ length data' = length data /\
    BranchConv_ARMT (negb encoding) data' size pc = Some (data, armt_done code).
Proof.
  intros code rest. pose proof (Z.mod_pos_bound size 2 ltac:(lia)).
  assert (0 <= size - size mod 2 <= size) as Hk by euclid.
  destruct (armt_map_undo encoding pc code 0 (bytes_take _ _ Hdata)) as (H1 & H2 & H3 & H4).
  assert (length code = Z.to_nat (size - size mod 2)) as Hc by (unfold code; rewrite length_take; lia).
  assert (length (armt_map encoding pc 0 code ++ rest) = length data) as Hl.
  { rewrite length_app, H2, Hc. unfold rest. rewrite length_drop. lia. }
  eexists. split; [by apply BranchConv_ARMT_map|]. split; [done|].
  split; [apply Forall_app; split; [done|by apply bytes_drop]|]. split; [done|].
  fold code rest. rewrite BranchConv_ARMT_map by lia. cbv zeta.
  rewrite take_app_length', drop_app_length' by lia. rewrite H3, H4. unfold code, rest. by rewrite take_drop.
Qed.

Lemma BranchConv_ARMT_roundtrip_witness :
  exists data',
    BranchConv_ARMT true [1; 0; 2; 0xf0; 3; 0xf8; 4; 0xf0; 9] 9 0x1000 = Some (data', 6) /\
    BranchConv_ARMT false data' 9 0x1000 = Some ([1; 0; 2; 0xf0; 3; 0xf8; 4; 0xf0; 9], 6).
Proof.
  destruct (BranchConv_ARMT_roundtrip true [1; 0; 2; 0xf0; 3; 0xf8; 4; 0xf0; 9] 9 0x1000
    ltac:(byte_list) ltac:(cbn; lia)) as (d & H1 & _ & _ & _ & H2).
  exists d. split; [exact H1|exact H2].
Defined.
