(* ===== verification/BraRiscvOk.v ===== *)
(** * Branch converter for RISC-V: decoding undoes encoding

    The functions of BraRiscv.v as a walk over the data whose decisions are arithmetic on the
    fields of the instructions: both directions decide the same at the same places, and what
    one of them writes the other takes back. *)

From stdpp Require Import base numbers list list_numbers.
From Stdlib Require Import ZArith Lia.
From S2P Require Import Prelude Bra BraWords BraArmt BraRiscv.
Local Open Scope Z_scope.
Local Open Scope word_scope.

Local Ltac euclid := Z.to_euclidean_division_equations; lia.

(** ** Reference *)

(** What there is at a place: so many bytes to pass, a JAL, an AUIPC with the instruction that
    uses its register, or an AUIPC of x2 that stands for such a pair. *)
Inductive riscv_kind := Pass (n : nat) | Jal | Pair | Mark.

Definition x0_or_x2 (r : Z) : bool := (r =? 0) || (r =? 2).

Definition kind_of (w0 w1 : Z) : riscv_kind :=
  let op := w0 mod 128 in
  let rd := w0 / 128 mod 32 in
  if op =? 0x6f then (if (rd =? 1) || (rd =? 5) then Jal else Pass 2)
  else if op =? 0x17 then
    if x0_or_x2 rd then
      if (rd =? 2) && (w0 / 2 ^ 12 mod 4 =? 3) && negb (x0_or_x2 (w0 / 2 ^ 27)) then Mark else Pass 4
    else if (w1 mod 4 =? 3) && (w1 / 2 ^ 15 mod 32 =? rd) then Pair else Pass 6
  else Pass 2.

(** The offset of a JAL in halfwords from the upper 20 bits of the instruction, and back; an
    address in halfwords as the encoder stores it there. *)
Definition jal_offset (u : Z) : Z := u / 2 ^ 19 * 2 ^ 19 + u mod 256 * 2 ^ 11 + u / 256 mod 2 * 2 ^ 10 + u / 512 mod 1024.
Definition jal_bits (j : Z) : Z := j / 2 ^ 19 * 2 ^ 19 + j mod 1024 * 2 ^ 9 + j / 1024 mod 2 * 2 ^ 8 + j / 2 ^ 11 mod 256.
Definition address_bits (k : Z) : Z := k / 2 ^ 16 + k / 256 mod 256 * 16 + k mod 256 * 2 ^ 12.
Definition address_of (u : Z) : Z := u mod 16 * 2 ^ 16 + u / 16 mod 256 * 256 + u / 2 ^ 12.

Definition jal (encoding : bool) (c w : Z) : Z :=
  let u := w / 2 ^ 12 in
  w mod 2 ^ 12 + 2 ^ 12 * (if encoding then address_bits ((jal_offset u + c / 2) mod 2 ^ 20)
                           else jal_bits ((address_of u - c / 2) mod 2 ^ 20)).

(** The pair becomes a mark: the upper 20 bits of the first word are the lower 20 of the second.
    The encoder puts the address, the decoder (of a pair that the encoder left) the rest. *)
Definition mark_of (encoding : bool) (c w0 w1 : Z) : Z * Z :=
  (w1 mod 2 ^ 20 * 2 ^ 12 + 0x117,
   if encoding then Z7_BSWAP32 (u32 (w0 / 2 ^ 12 * 2 ^ 12 + (int32 w1 >>> 20) + c)) else w0 / 2 ^ 12 * 2 ^ 12 + w1 / 2 ^ 20).

(** And back. *)
Definition pair_of (encoding : bool) (c w0 w1 : Z) : Z * Z :=
  let u := w0 / 2 ^ 12 in
  let b := u32 (Z7_BSWAP32 w1 - c) in
  if encoding then (w0 / 2 ^ 27 * 128 + 0x17 + w1 / 2 ^ 12 * 2 ^ 12, u + 2 ^ 20 * (w1 mod 2 ^ 12))
  else (w0 / 2 ^ 27 * 128 + 0x17 + u32 (b + 0x800) / 2 ^ 12 * 2 ^ 12, u + 2 ^ 20 * (b mod 2 ^ 12)).

(** The words at a place after the call. *)
Definition rewrite_words (encoding : bool) (c w0 w1 : Z) : list Z :=
  match kind_of w0 w1 with
  | Jal => le_bytes 4 (jal encoding c w0)
  | Pair => let '(x0, x1) := mark_of encoding c w0 w1 in le_bytes 4 x0 ++ le_bytes 4 x1
  | Mark => let '(x0, x1) := pair_of encoding c w0 w1 in le_bytes 4 x0 ++ le_bytes 4 x1
  | Pass _ => []
  end.

Fixpoint riscv_map (encoding : bool) (pc p : Z) (l : list Z) : list Z :=
  match l with
  | b0 :: b1 :: ((b2 :: b3 :: ((b4 :: b5 :: ((b6 :: b7 :: t8) as t6)) as t4)) as t2) =>
      let w0 := le_load [b0; b1; b2; b3] in
      let w1 := le_load [b4; b5; b6; b7] in
      let new := rewrite_words encoding (BR_PC_GET pc p) w0 w1 in
      match kind_of w0 w1 with
      | Pass 4 => b0 :: b1 :: b2 :: b3 :: riscv_map encoding pc (p + 4) t4
      | Pass 6 => b0 :: b1 :: b2 :: b3 :: b4 :: b5 :: riscv_map encoding pc (p + 6) t6
      | Pass _ => b0 :: b1 :: riscv_map encoding pc (p + 2) t2
      | Jal => new ++ riscv_map encoding pc (p + 4) t4
      | Pair | Mark => new ++ riscv_map encoding pc (p + 8) t8
      end
  | _ => l
  end.

(** ** The fields *)

Lemma jal_offset_range u : 0 <= u < 2 ^ 20 -> 0 <= jal_offset u < 2 ^ 20 /\ jal_bits (jal_offset u) = u.
Proof. intros Hu. unfold jal_offset, jal_bits. split; euclid. Qed.

Lemma jal_bits_range j : 0 <= j < 2 ^ 20 -> 0 <= jal_bits j < 2 ^ 20 /\ jal_offset (jal_bits j) = j.
Proof. intros Hj. unfold jal_offset, jal_bits. split; euclid. Qed.

Lemma address_range k : 0 <= k < 2 ^ 20 -> 0 <= address_bits k < 2 ^ 20 /\ address_of (address_bits k) = k.
Proof. intros Hk. unfold address_bits, address_of. split; euclid. Qed.

Lemma address_of_range u : 0 <= u < 2 ^ 20 -> 0 <= address_of u < 2 ^ 20 /\ address_bits (address_of u) = u.
Proof. intros Hu. unfold address_bits, address_of. split; euclid. Qed.

(** A word by its fields. *)
Lemma word_fields w : in_width 32 w ->
  exists op rd u, w = op + 128 * rd + 2 ^ 12 * u /\ 0 <= op < 128 /\ 0 <= rd < 32 /\ 0 <= u < 2 ^ 20 /\
    w mod 128 = op /\ w / 128 mod 32 = rd /\ w / 2 ^ 12 = u /\ w mod 2 ^ 12 = op + 128 * rd /\ w / 2 ^ 27 = u / 2 ^ 15.
Proof.
  intros [H1 H2]. exists (w mod 128), (w / 128 mod 32), (w / 2 ^ 12). split; [euclid|]. split; [apply Z.mod_pos_bound; lia|]. split; [apply Z.mod_pos_bound; lia|].
  split; [euclid|]. do 3 (split; [done|]). split; euclid.
Qed.

Lemma fields_word op rd u : 0 <= op < 128 -> 0 <= rd < 32 -> 0 <= u < 2 ^ 20 ->
  let w := op + 128 * rd + 2 ^ 12 * u in
  in_width 32 w /\ w mod 128 = op /\ w / 128 mod 32 = rd /\ w / 2 ^ 12 = u /\ w mod 2 ^ 12 = op + 128 * rd /\ w / 2 ^ 27 = u / 2 ^ 15.
Proof. intros Ho Hr Hu w. unfold w, in_width. split; [lia|]. split; [euclid|]. split; [euclid|]. split; [euclid|]. split; euclid. Qed.

Lemma kind_Jal w0 w1 : kind_of w0 w1 = Jal <-> w0 mod 128 = 0x6f /\ (w0 / 128 mod 32 = 1 \/ w0 / 128 mod 32 = 5).
Proof.
  unfold kind_of. destruct (Z.eqb_spec (w0 mod 128) 0x6f) as [E|E].
  - destruct (Z.eqb_spec (w0 / 128 mod 32) 1), (Z.eqb_spec (w0 / 128 mod 32) 5); cbn [orb]; split; intros; try done; try lia; auto.
  - split; [|by intros [? _]]. destruct (_ =? 0x17); [|done]. destruct (x0_or_x2 _); destruct (_ && _); done.
Qed.

Lemma kind_Pair w0 w1 : kind_of w0 w1 = Pair <->
  w0 mod 128 = 0x17 /\ x0_or_x2 (w0 / 128 mod 32) = false /\ w1 mod 4 = 3 /\ w1 / 2 ^ 15 mod 32 = w0 / 128 mod 32.
Proof.
  unfold kind_of. destruct (Z.eqb_spec (w0 mod 128) 0x6f) as [E|E]; [rewrite E; split; [by destruct (_ || _)|by intros [? _]]|].
  destruct (Z.eqb_spec (w0 mod 128) 0x17) as [E'|E']; [|split; [done|by intros [? _]]].
  destruct (x0_or_x2 (w0 / 128 mod 32)); [split; [by destruct (_ && _)|by intros (_ & ? & _)]|].
  destruct (Z.eqb_spec (w1 mod 4) 3), (Z.eqb_spec (w1 / 2 ^ 15 mod 32) (w0 / 128 mod 32)); cbn [andb]; split; try done; intros (_ & _ & ? & ?); done.
Qed.

Lemma kind_Mark w0 w1 : kind_of w0 w1 = Mark <->
  w0 mod 128 = 0x17 /\ w0 / 128 mod 32 = 2 /\ w0 / 2 ^ 12 mod 4 = 3 /\ x0_or_x2 (w0 / 2 ^ 27) = false.
Proof.
  unfold kind_of. destruct (Z.eqb_spec (w0 mod 128) 0x6f) as [E|E]; [rewrite E; split; [by destruct (_ || _)|by intros [? _]]|].
  destruct (Z.eqb_spec (w0 mod 128) 0x17) as [E'|E']; [|split; [done|by intros [? _]]].
  unfold x0_or_x2 at 1. destruct (Z.eqb_spec (w0 / 128 mod 32) 2) as [E2|E2].
  - rewrite orb_true_r. destruct (Z.eqb_spec (w0 / 2 ^ 12 mod 4) 3), (x0_or_x2 (w0 / 2 ^ 27)); cbn [andb negb]; split; try done; by intros (_ & _ & ? & ?).
  - split; [|by intros (_ & ? & _)]. rewrite orb_false_r. destruct (_ =? 0); cbn [andb]; [done|]. by destruct (_ && _).
Qed.

Lemma jal_undo e c w :
  in_width 32 w ->
  in_width 32 (jal e c w) /\ jal e c w mod 2 ^ 12 = w mod 2 ^ 12 /\ jal e c w mod 128 = w mod 128 /\ jal e c w / 128 mod 32 = w / 128 mod 32 /\ jal (negb e) c (jal e c w) = w.
Proof.
  intros Hw. destruct (word_fields w Hw) as (op & rd & u & E & Ho & Hr & Hu & E1 & E2 & E3 & E4 & _).
  unfold jal at 1 2 3 4 6. rewrite E3, E4.
  set (s := if e then address_bits ((jal_offset u + c / 2) mod 2 ^ 20) else jal_bits ((address_of u - c / 2) mod 2 ^ 20)).
  destruct (jal_offset_range u Hu) as [Hj Ej]. destruct (address_of_range u Hu) as [Ha Ea].
  assert (0 <= s < 2 ^ 20 /\ (if negb e then address_bits ((jal_offset s + c / 2) mod 2 ^ 20) else jal_bits ((address_of s - c / 2) mod 2 ^ 20)) = u) as [Hs Es].
  { unfold s. destruct e; cbn [negb].
    - destruct (address_range ((jal_offset u + c / 2) mod 2 ^ 20)) as [H1 H2]; [apply Z.mod_pos_bound; lia|]. split; [done|]. rewrite H2, Zminus_mod_idemp_l, Z.add_simpl_r, Z.mod_small by done. done.
    - destruct (jal_bits_range ((address_of u - c / 2) mod 2 ^ 20)) as [H1 H2]; [apply Z.mod_pos_bound; lia|]. split; [done|]. rewrite H2, Zplus_mod_idemp_l, Z.sub_add, Z.mod_small by done. done. }
  destruct (fields_word op rd s Ho Hr Hs) as (F1 & F2 & F3 & F4 & F5 & _). split; [done|]. split; [done|]. split; [by rewrite E1|]. split; [by rewrite E2|].
  unfold jal. rewrite F4, F5, Es. lia.
Qed.

(** The upper 12 bits of a word as a signed number. *)
Lemma int32_high b : in_width 32 b -> exists s, int32 b >>> 20 = s /\ - 2 ^ 11 <= s < 2 ^ 11 /\ s mod 2 ^ 12 = b / 2 ^ 20.
Proof.
  intros [H1 H2]. exists (int32 b >>> 20). split; [done|]. unfold int32. change (1 <<< 31) with (2 ^ 31). change (1 <<< 32) with (2 ^ 32).
  rewrite Z.shiftr_div_pow2 by lia. destruct (Z.ltb_spec b (2 ^ 31)); split; euclid.
Qed.

(** A multiple of 2^12 with a signed number of 12 bits added, taken apart. *)
Lemma high_low a s :
  0 <= a < 2 ^ 20 -> - 2 ^ 11 <= s < 2 ^ 11 ->
  let b := u32 (a * 2 ^ 12 + s) in u32 (b + 0x800) / 2 ^ 12 = a /\ b mod 2 ^ 12 = s mod 2 ^ 12.
Proof.
  intros Ha Hs b. unfold b, wrap. rewrite Zplus_mod_idemp_l. split.
  - rewrite (Z.mod_small _ (2 ^ 32)) by lia. euclid.
  - rewrite Z.mod_mod_divide by (by exists (2 ^ 20)). rewrite Z.add_comm. apply Z.mod_add. lia.
Qed.

Lemma low_high b :
  in_width 32 b -> exists s, - 2 ^ 11 <= s < 2 ^ 11 /\ s mod 2 ^ 12 = b mod 2 ^ 12 /\ u32 (u32 (b + 0x800) / 2 ^ 12 * 2 ^ 12 + s) = b /\ 0 <= u32 (b + 0x800) / 2 ^ 12 < 2 ^ 20.
Proof.
  intros [H1 H2]. exists ((b + 0x800) mod 2 ^ 12 - 0x800). pose proof (Z.mod_pos_bound (b + 0x800) (2 ^ 12) ltac:(lia)) as Hm.
  split; [lia|]. split; [rewrite Zminus_mod_idemp_l; f_equal; lia|].
  pose proof (wrap_in_width 32 (b + 0x800) ltac:(lia)) as [W1 W2]. split; [|split; [apply Z.div_pos|apply Z.div_lt_upper_bound]; lia].
  unfold wrap in *. assert ((b + 0x800) mod 2 ^ 32 mod 2 ^ 12 = (b + 0x800) mod 2 ^ 12) as E by (apply Z.mod_mod_divide; by exists (2 ^ 20)).
  set (x := (b + 0x800) mod 2 ^ 32) in *. replace (x / 2 ^ 12 * 2 ^ 12 + ((b + 0x800) mod 2 ^ 12 - 0x800)) with (x - 0x800) by (pose proof (Z.div_mod x (2 ^ 12)); lia).
  unfold x. rewrite Zminus_mod_idemp_l, Z.add_simpl_r. by apply Z.mod_small.
Qed.

Lemma low_fields b : in_width 32 b -> b mod 2 ^ 20 mod 4 = b mod 4 /\ b mod 2 ^ 20 / 2 ^ 15 = b / 2 ^ 15 mod 32 /\ 0 <= b mod 2 ^ 20 < 2 ^ 20 /\ b mod 2 ^ 20 + 2 ^ 20 * (b / 2 ^ 20) = b.
Proof. intros [H1 H2]. split_and!; euclid. Qed.

Lemma joined u h : 0 <= u < 2 ^ 20 -> 0 <= h < 2 ^ 12 ->
  let b := u + 2 ^ 20 * h in in_width 32 b /\ b mod 2 ^ 20 = u /\ b / 2 ^ 20 = h /\ b mod 4 = u mod 4 /\ b / 2 ^ 15 mod 32 = u / 2 ^ 15.
Proof. intros Hu Hh b. unfold b, in_width. split_and!; euclid. Qed.

Lemma bswap_u32 x : Z7_BSWAP32 (Z7_BSWAP32 (u32 x)) = u32 x.
Proof. apply bswap_bswap, wrap_in_width. lia. Qed.

Lemma pair_undo e c w0 w1 x0 x1 :
  in_width 32 w0 -> in_width 32 w1 -> kind_of w0 w1 = Pair -> mark_of e c w0 w1 = (x0, x1) ->
  in_width 32 x0 /\ in_width 32 x1 /\ kind_of x0 x1 = Mark /\ pair_of (negb e) c x0 x1 = (w0, w1).
Proof.
  intros H0 H1 (K1 & K2 & K3 & K4)%kind_Pair [= <- <-]. destruct (word_fields w0 H0) as (op & rd & a & E & Ho & Hr & Ha & E1 & E2 & E3 & E4 & _).
  rewrite E1, E2 in *. rewrite E3. subst op. destruct (low_fields w1 H1) as (L1 & L2 & L3 & L4). set (u := w1 mod 2 ^ 20) in *.
  replace (u * 2 ^ 12 + 0x117) with (0x17 + 128 * 2 + 2 ^ 12 * u) by lia. destruct (fields_word 0x17 2 u ltac:(lia) ltac:(lia) L3) as (F1 & F2 & F3 & F4 & F5 & F6).
  set (x0 := 0x17 + 128 * 2 + 2 ^ 12 * u) in *. split; [done|].
  assert (forall x1, kind_of x0 x1 = Mark) as Hmark. { intros x1. apply kind_Mark. rewrite F2, F3, F4, F6. split; [done|]. split; [done|]. rewrite L1, L2, K3, K4. done. }
  assert (x0 / 2 ^ 27 * 128 + 0x17 + a * 2 ^ 12 = w0) as Ew0 by (rewrite F6, L2, K4; lia).
  unfold pair_of. rewrite F4. destruct e; cbn [negb].
  - split; [apply bswap_width, wrap_in_width; lia|]. split; [done|]. rewrite bswap_u32. destruct (int32_high w1 H1) as (s & -> & Hs & Es).
    assert (u32 (u32 (a * 2 ^ 12 + s + c) - c) = u32 (a * 2 ^ 12 + s)) as -> by (unfold wrap; rewrite Zminus_mod_idemp_l; f_equal; lia).
    destruct (high_low a s Ha Hs) as [-> ->]. rewrite Es, Ew0. by rewrite L4.
  - assert (in_width 32 (a * 2 ^ 12 + w1 / 2 ^ 20) /\ (a * 2 ^ 12 + w1 / 2 ^ 20) / 2 ^ 12 = a /\ (a * 2 ^ 12 + w1 / 2 ^ 20) mod 2 ^ 12 = w1 / 2 ^ 20) as (G1 & -> & ->).
    { unfold in_width in *. assert (0 <= w1 / 2 ^ 20 < 2 ^ 12) by (split; [apply Z.div_pos|apply Z.div_lt_upper_bound]; lia). set (h := w1 / 2 ^ 20) in *. split_and!; try lia; euclid. }
    split; [done|]. split; [done|]. rewrite Ew0. by rewrite L4.
Qed.

Lemma mark_undo e c w0 w1 x0 x1 :
  in_width 32 w0 -> in_width 32 w1 -> kind_of w0 w1 = Mark -> pair_of e c w0 w1 = (x0, x1) ->
  in_width 32 x0 /\ in_width 32 x1 /\ kind_of x0 x1 = Pair /\ mark_of (negb e) c x0 x1 = (w0, w1).
Proof.
  intros H0 H1 (K1 & K2 & K3 & K4)%kind_Mark Hx. destruct (word_fields w0 H0) as (op & rd & u & E & Ho & Hr & Hu & E1 & E2 & E3 & E4 & E5).
  rewrite E1, E2, E3, E5 in *. subst op rd. unfold pair_of in Hx. rewrite E3, E5 in Hx.
  assert (0 <= u / 2 ^ 15 < 32) as Hr' by (split; [apply Z.div_pos|apply Z.div_lt_upper_bound]; lia).
  assert (exists a h, 0 <= a < 2 ^ 20 /\ 0 <= h < 2 ^ 12 /\ x0 = 0x17 + 128 * (u / 2 ^ 15) + 2 ^ 12 * a /\ x1 = u + 2 ^ 20 * h /\
    (if negb e then Z7_BSWAP32 (u32 (a * 2 ^ 12 + (int32 x1 >>> 20) + c)) else a * 2 ^ 12 + h) = w1) as (a & h & Ha & Hh & -> & -> & Ew).
  { destruct e; injection Hx as <- <-; cbn [negb].
    - exists (w1 / 2 ^ 12), (w1 mod 2 ^ 12). unfold in_width in H1. split; [split; [apply Z.div_pos|apply Z.div_lt_upper_bound]; lia|]. split; [apply Z.mod_pos_bound; lia|].
      split; [lia|]. split; [lia|]. pose proof (Z.div_mod w1 (2 ^ 12)). lia.
    - set (b := u32 (Z7_BSWAP32 w1 - c)). assert (in_width 32 b) as Hb by (apply wrap_in_width; lia). destruct (low_high b Hb) as (s & Hs & Es & Eb & Ha).
      exists (u32 (b + 0x800) / 2 ^ 12), (b mod 2 ^ 12). split; [done|]. split; [apply Z.mod_pos_bound; lia|]. split; [lia|]. split; [lia|].
      destruct (joined u (b mod 2 ^ 12) Hu ltac:(apply Z.mod_pos_bound; lia)) as (J1 & _ & J3 & _). destruct (int32_high _ J1) as (s' & -> & Hs' & Es').
      assert (s' = s) as ->. { rewrite J3, <-Es in Es'. clear - Hs Hs' Es'. euclid. }
      assert (u32 (u32 (b + 0x800) / 2 ^ 12 * 2 ^ 12 + s + c) = u32 (Z7_BSWAP32 w1)) as ->.
      { unfold wrap at 1. rewrite <-Zplus_mod_idemp_l. change ((u32 (b + 0x800) / 2 ^ 12 * 2 ^ 12 + s) mod 2 ^ 32) with (u32 (u32 (b + 0x800) / 2 ^ 12 * 2 ^ 12 + s)). rewrite Eb.
        unfold b, wrap. rewrite Zplus_mod_idemp_l. f_equal. lia. }
      rewrite wrap_small by by apply bswap_width. by apply bswap_bswap. }
  destruct (fields_word 0x17 (u / 2 ^ 15) a ltac:(lia) Hr' Ha) as (F1 & F2 & F3 & F4 & F5 & F6). destruct (joined u h Hu Hh) as (J1 & J2 & J3 & J4 & J5).
  split; [done|]. split; [done|]. split; [apply kind_Pair; rewrite F2, F3, J4, J5; done|]. unfold mark_of. rewrite F4, J2, J3. f_equal; [lia|done].
Qed.

(** ** The walk, step by step *)

(** What a step leaves behind it, and the rest. *)
Definition riscv_step (encoding : bool) (pc p : Z) (l : list Z) : list Z * list Z :=
  match l with
  | b0 :: b1 :: ((b2 :: b3 :: ((b4 :: b5 :: ((b6 :: b7 :: t8) as t6)) as t4)) as t2) =>
      let w0 := le_load [b0; b1; b2; b3] in
      let w1 := le_load [b4; b5; b6; b7] in
      let new := rewrite_words encoding (BR_PC_GET pc p) w0 w1 in
      match kind_of w0 w1 with
      | Pass 4 => ([b0; b1; b2; b3], t4)
      | Pass 6 => ([b0; b1; b2; b3; b4; b5], t6)
      | Pass _ => ([b0; b1], t2)
      | Jal => (new, t4)
      | Pair | Mark => (new, t8)
      end
  | _ => ([], l)
  end.

Lemma rewrite_length e c w0 w1 :
  length (rewrite_words e c w0 w1) = match kind_of w0 w1 with Pass _ => 0%nat | Jal => 4%nat | Pair | Mark => 8%nat end.
Proof.
  unfold rewrite_words. destruct (kind_of w0 w1); [done|apply length_le_bytes|..].
  - destruct (mark_of e c w0 w1). by rewrite length_app, !length_le_bytes.
  - destruct (pair_of e c w0 w1). by rewrite length_app, !length_le_bytes.
Qed.

Lemma kind_pass w0 w1 n : kind_of w0 w1 = Pass n -> n = 2%nat \/ n = 4%nat \/ n = 6%nat.
Proof.
  unfold kind_of. destruct (_ =? 0x6f); [destruct (_ || _); [done|]|destruct (_ =? 0x17); [|]].
  - intros [= <-]. auto.
  - destruct (x0_or_x2 _); destruct (_ && _); try done; intros [= <-]; auto.
  - intros [= <-]. auto.
Qed.

Lemma map_step e pc p l : (8 <= length l)%nat ->
  riscv_map e pc p l = (riscv_step e pc p l).1 ++ riscv_map e pc (p + Z.of_nat (length (riscv_step e pc p l).1)) (riscv_step e pc p l).2.
Proof.
  intros Hl. destruct l as [|b0 [|b1 [|b2 [|b3 [|b4 [|b5 [|b6 [|b7 t8]]]]]]]]; try (cbn in Hl; lia). cbn [riscv_map riscv_step].
  set (w0 := le_load [b0; b1; b2; b3]). set (w1 := le_load [b4; b5; b6; b7]). pose proof (rewrite_length e (BR_PC_GET pc p) w0 w1) as Hlen. 
  destruct (kind_of w0 w1) as [n| | |] eqn:Ek.
  - destruct (kind_pass _ _ _ Ek) as [->|[->| ->]]; done.
  - cbn [fst snd]. by rewrite Hlen.
  - cbn [fst snd]. by rewrite Hlen.
  - cbn [fst snd]. by rewrite Hlen.
Qed.

Lemma map_end e pc p l : (length l < 8)%nat -> riscv_map e pc p l = l.
Proof. intros Hl. destruct l as [|? [|? [|? [|? [|? [|? [|? [|? ?]]]]]]]]; try done. cbn in Hl. lia. Qed.

(** Bytes and the fields of the words they make up. *)
Lemma load_fields b0 b1 b2 b3 : bytes [b0; b1; b2; b3] ->
  let w := le_load [b0; b1; b2; b3] in
  in_width 32 w /\ le_bytes 4 w = [b0; b1; b2; b3] /\ w mod 128 = b0 mod 128 /\ w / 128 mod 32 = (b0 / 128 + 2 * b1) mod 32 /\
  w mod 4 = b0 mod 4 /\ w / 2 ^ 15 mod 32 = b1 / 128 + 2 * (b2 mod 16).
Proof.
  intros Hb w. split; [by apply le_load_in_width|]. split; [apply (le_bytes_load _ Hb)|].
  unfold bytes in Hb. rewrite !Forall_cons in Hb. destruct Hb as (H0 & H1 & H2 & H3 & _). unfold in_width in *. unfold w. cbn [le_load].
  split_and!; euclid.
Qed.

Lemma riscv_stored x : in_width 32 x -> exists c0 c1 c2 c3, le_bytes 4 x = [c0; c1; c2; c3] /\ bytes [c0; c1; c2; c3] /\ le_load [c0; c1; c2; c3] = x.
Proof. intros Hx. eexists _, _, _, _. split; [reflexivity|]. split; [apply (bytes_le_bytes 4)|apply (le_load_bytes 4 x Hx)]. Qed.

Definition is_head (l : list Z) : bool := match l with b :: _ => (b mod 128 =? 0x6f) || (b mod 128 =? 0x17) | [] => false end.

(** The first byte of what a step leaves keeps its low bits. *)
Lemma step_first e pc p b0 l :
  (7 <= length l)%nat -> bytes (b0 :: l) ->
  exists b t, (riscv_step e pc p (b0 :: l)).1 = b :: t /\ bytes (b :: t) /\ b mod 128 = b0 mod 128 /\ Nat.Even (length (b :: t)) /\ (length (b :: t) <= 8)%nat.
Proof.
  intros Hl Hb. destruct l as [|b1 [|b2 [|b3 [|b4 [|b5 [|b6 [|b7 t8]]]]]]]; try (cbn in Hl; lia). cbn [riscv_step].
  apply (Forall_app _ [b0; b1; b2; b3]) in Hb as [H0 H1]. apply (Forall_app _ [b4; b5; b6; b7]) in H1 as [H1 _].
  destruct (load_fields _ _ _ _ H0) as (W0 & _ & Elow & _). destruct (load_fields _ _ _ _ H1) as (W1 & _).
  set (w0 := le_load [b0; b1; b2; b3]) in *. set (w1 := le_load [b4; b5; b6; b7]) in *. pose proof (rewrite_length e (BR_PC_GET pc p) w0 w1) as Hlen.
  assert (bytes [b0; b1]) as H01 by (by apply (Forall_app _ [b0; b1] [b2; b3]) in H0 as [? _]).
  assert (bytes [b0; b1; b2; b3; b4; b5]) as H05 by (apply (Forall_app_2 _ [b0; b1; b2; b3]); [done|by apply (Forall_app _ [b4; b5] [b6; b7]) in H1 as [? _]]).
  destruct (kind_of w0 w1) as [n| | |] eqn:Ek.
  - destruct (kind_pass _ _ _ Ek) as [->|[->| ->]]; eexists _, _; (split; [reflexivity|]); (split; [done|]); (split; [done|]); cbn; (split; [|lia]); [by exists 1%nat|by exists 2%nat|by exists 3%nat].
  - destruct (jal_undo e (BR_PC_GET pc p) w0 W0) as (J1 & _ & J3 & _). destruct (riscv_stored _ J1) as (c0 & c1 & c2 & c3 & Ec & Hc & El).
    unfold rewrite_words in *. rewrite Ek in *. rewrite Ec in *. exists c0, [c1; c2; c3]. split; [done|]. split; [done|]. split; [|cbn; split; [by exists 2%nat|lia]].
    destruct (load_fields _ _ _ _ Hc) as (_ & _ & E & _). rewrite <-E, El, J3. done.
  - destruct (mark_of e (BR_PC_GET pc p) w0 w1) as [x0 x1] eqn:Ex. destruct (pair_undo e _ w0 w1 x0 x1 W0 W1 Ek Ex) as (J1 & J2 & J3%kind_Mark & _). destruct (riscv_stored _ J1) as (c0 & c1 & c2 & c3 & Ec & Hc & El).
    unfold rewrite_words in *. rewrite Ek, Ex in *. rewrite Ec in *. exists c0, ([c1; c2; c3] ++ le_bytes 4 x1). split; [done|]. split; [apply (Forall_app_2 _ [c0; c1; c2; c3]); [done|apply bytes_le_bytes]|]. split; [|cbn; split; [by exists 4%nat|lia]].
    destruct (load_fields _ _ _ _ Hc) as (_ & _ & E & _). rewrite <-E, El. apply kind_Pair in Ek. rewrite <-Elow. by destruct J3 as [-> _], Ek as [-> _].
  - destruct (pair_of e (BR_PC_GET pc p) w0 w1) as [x0 x1] eqn:Ex. destruct (mark_undo e _ w0 w1 x0 x1 W0 W1 Ek Ex) as (J1 & J2 & J3%kind_Pair & _). destruct (riscv_stored _ J1) as (c0 & c1 & c2 & c3 & Ec & Hc & El).
    unfold rewrite_words in *. rewrite Ek, Ex in *. rewrite Ec in *. exists c0, ([c1; c2; c3] ++ le_bytes 4 x1). split; [done|]. split; [apply (Forall_app_2 _ [c0; c1; c2; c3]); [done|apply bytes_le_bytes]|]. split; [|cbn; split; [by exists 4%nat|lia]].
    destruct (load_fields _ _ _ _ Hc) as (_ & _ & E & _). rewrite <-E, El. apply kind_Mark in Ek. rewrite <-Elow. by destruct J3 as [-> _], Ek as [-> _].
Qed.

Lemma step_rest e pc p l : bytes l -> (8 <= length l)%nat ->
  exists u, l = u ++ (riscv_step e pc p l).2 /\ length u = length (riscv_step e pc p l).1.
Proof.
  intros Hb Hl. destruct l as [|b0 [|b1 [|b2 [|b3 [|b4 [|b5 [|b6 [|b7 t8]]]]]]]]; try (cbn in Hl; lia). cbn [riscv_step].
  pose proof (rewrite_length e (BR_PC_GET pc p) (le_load [b0; b1; b2; b3]) (le_load [b4; b5; b6; b7])) as Hlen.
  destruct (kind_of _ _) as [n| | |] eqn:Ek; cbn [fst snd].
  - destruct (kind_pass _ _ _ Ek) as [->|[->| ->]]; [by exists [b0; b1]|by exists [b0; b1; b2; b3]|by exists [b0; b1; b2; b3; b4; b5]].
  - exists [b0; b1; b2; b3]. by rewrite Hlen.
  - exists [b0; b1; b2; b3; b4; b5; b6; b7]. by rewrite Hlen.
  - exists [b0; b1; b2; b3; b4; b5; b6; b7]. by rewrite Hlen.
Qed.

(** The walk keeps the length, and of the first byte the low bits. *)
Lemma map_keeps e pc n : forall p l, (length l < n)%nat -> bytes l ->
  length (riscv_map e pc p l) = length l /\ bytes (riscv_map e pc p l) /\
  forall b t, l = b :: t -> exists b' t', riscv_map e pc p l = b' :: t' /\ b' mod 128 = b mod 128.
Proof.
  induction n as [|n IH]; intros p l Hn Hb; [lia|]. destruct (decide (length l < 8)%nat) as [Hs|Hs].
  - rewrite map_end by done. split; [done|]. split; [done|]. intros b t ->. by exists b, t.
  - rewrite map_step by lia. destruct (step_rest e pc p l Hb ltac:(lia)) as (u & El & Hu).
    destruct l as [|b0 l]; [cbn in Hs; lia|]. destruct (step_first e pc p b0 l ltac:(cbn in Hs; lia) Hb) as (b' & t' & Ed & Hd & Elow & _).
    rewrite Ed in *. cbn [length] in Hu. set (r := (riscv_step e pc p (b0 :: l)).2) in *.
    assert (length (b0 :: l) = length u + length r)%nat as Elen by (rewrite El, length_app; lia).
    assert (bytes r) as Hr by (rewrite El in Hb; by apply Forall_app in Hb as [_ ?]).
    destruct (IH (p + Z.of_nat (length (b' :: t'))) r ltac:(cbn in *; lia) Hr) as (I1 & I2 & _).
    split; [rewrite length_app, I1; cbn [length] in *; lia|]. split; [by apply Forall_app|]. intros b t [= <- <-]. by eexists _, _.
Qed.

Lemma riscv_map_length e pc p l : bytes l -> length (riscv_map e pc p l) = length l.
Proof. intros Hb. by destruct (map_keeps e pc (S (length l)) p l ltac:(lia) Hb). Qed.

Lemma riscv_map_bytes e pc p l : bytes l -> bytes (riscv_map e pc p l).
Proof. intros Hb. by destruct (map_keeps e pc (S (length l)) p l ltac:(lia) Hb) as (_ & ? & _). Qed.

Lemma map_first e pc p b t : bytes (b :: t) -> exists b' t', riscv_map e pc p (b :: t) = b' :: t' /\ b' mod 128 = b mod 128 /\ length t' = length t /\ bytes (b' :: t').
Proof.
  intros Hb. destruct (map_keeps e pc (S (length (b :: t))) p (b :: t) ltac:(lia) Hb) as (H1 & H2 & H3). destruct (H3 b t eq_refl) as (b' & t' & E & Em).
  exists b', t'. rewrite E in H1, H2. injection H1 as H1. done.
Qed.

(** A place that is passed, seen by the other direction. *)
Lemma kind_pass_2 b0 b1 b2 b3 c2 c3 w1 x1 :
  bytes [b0; b1; b2; b3] -> bytes [b0; b1; c2; c3] -> kind_of (le_load [b0; b1; b2; b3]) w1 = Pass 2 -> kind_of (le_load [b0; b1; c2; c3]) x1 = Pass 2.
Proof.
  intros H1 H2. destruct (load_fields _ _ _ _ H1) as (_ & _ & A1 & A2 & _). destruct (load_fields _ _ _ _ H2) as (_ & _ & B1 & B2 & _).
  unfold kind_of. rewrite A1, A2, B1, B2. destruct (_ =? 0x6f); [done|]. destruct (_ =? 0x17); [|done]. destruct (x0_or_x2 _); destruct (_ && _); done.
Qed.

Lemma kind_pass_4 w0 w1 x1 : kind_of w0 w1 = Pass 4 -> kind_of w0 x1 = Pass 4.
Proof. unfold kind_of. destruct (_ =? 0x6f); [destruct (_ || _); done|]. destruct (_ =? 0x17); [|done]. destruct (x0_or_x2 _); [done|]. by destruct (_ && _). Qed.

Lemma kind_pass_6 w0 b4 b5 b6 b7 c6 c7 :
  bytes [b4; b5; b6; b7] -> bytes [b4; b5; c6; c7] -> c6 mod 16 = b6 mod 16 ->
  kind_of w0 (le_load [b4; b5; b6; b7]) = Pass 6 -> kind_of w0 (le_load [b4; b5; c6; c7]) = Pass 6.
Proof.
  intros H1 H2 E. destruct (load_fields _ _ _ _ H1) as (_ & _ & _ & _ & A1 & A2). destruct (load_fields _ _ _ _ H2) as (_ & _ & _ & _ & B1 & B2).
  unfold kind_of. rewrite A1, A2, B1, B2, E. done.
Qed.

Lemma riscv_low_nibble a b : a mod 128 = b mod 128 -> a mod 16 = b mod 16.
Proof. intros E. rewrite <-(Z.mod_mod_divide a 128 16), <-(Z.mod_mod_divide b 128 16), E by (by exists 8). done. Qed.

(** What a step did is undone by the step of the other direction, whatever follows it. *)
Lemma step_undo e pc p l :
  bytes l -> (8 <= length l)%nat ->
  let '(d, r) := riscv_step e pc p l in
  let r' := riscv_map e pc (p + Z.of_nat (length d)) r in
  exists u, l = u ++ r /\ length u = length d /\ riscv_step (negb e) pc p (d ++ r') = (u, r').
Proof.
  intros Hb Hl. destruct l as [|b0 [|b1 [|b2 [|b3 [|b4 [|b5 [|b6 [|b7 t8]]]]]]]]; try (cbn in Hl; lia). cbn [riscv_step].
  pose proof Hb as Hb0. apply (Forall_app _ [b0; b1; b2; b3]) in Hb as [H0 Hb4]. pose proof Hb4 as H1. apply (Forall_app _ [b4; b5; b6; b7]) in H1 as [H1 H8].
  destruct (load_fields _ _ _ _ H0) as (W0 & L0 & _). destruct (load_fields _ _ _ _ H1) as (W1 & L1 & _).
  set (w0 := le_load [b0; b1; b2; b3]) in *. set (w1 := le_load [b4; b5; b6; b7]) in *. set (c := BR_PC_GET pc p). pose proof (rewrite_length e c w0 w1) as Hlen.
  destruct (kind_of w0 w1) as [n| | |] eqn:Ek.
  - destruct (kind_pass _ _ _ Ek) as [->|[->| ->]].
    + exists [b0; b1]. split; [done|]. split; [done|]. cbn [length app].
      assert (bytes (b2 :: b3 :: b4 :: b5 :: b6 :: b7 :: t8)) as Hr by (by apply (Forall_app _ [b0; b1]) in Hb0 as [_ ?]).
      set (r' := riscv_map e pc (p + Z.of_nat 2) _). assert (length r' = 6 + length t8)%nat as Hr' by (by apply riscv_map_length). assert (bytes r') as Hbr by (by apply riscv_map_bytes).
      destruct r' as [|c2 [|c3 [|c4 [|c5 [|c6 [|c7 t]]]]]]; try (cbn in Hr'; lia). cbn [riscv_step].
      rewrite (kind_pass_2 b0 b1 b2 b3 c2 c3 w1); [done|done| |done]. apply (Forall_app_2 _ [b0; b1]); [by apply (Forall_app _ [b0; b1]) in H0 as [? _]|].
      by apply (Forall_app _ [c2; c3]) in Hbr as [? _].
    + exists [b0; b1; b2; b3]. split; [done|]. split; [done|]. cbn [length app].
      set (r' := riscv_map e pc (p + Z.of_nat 4) _). assert (length r' = 4 + length t8)%nat as Hr' by (by apply riscv_map_length).
      destruct r' as [|c4 [|c5 [|c6 [|c7 t]]]]; try (cbn in Hr'; lia). cbn [riscv_step]. by rewrite (kind_pass_4 _ _ _ Ek).
    + exists [b0; b1; b2; b3; b4; b5]. split; [done|]. split; [done|]. cbn [length app].
      assert (bytes (b6 :: b7 :: t8)) as Hr by (by apply (Forall_app _ [b4; b5]) in Hb4 as [_ ?]).
      destruct (map_first e pc (p + Z.of_nat 6) b6 (b7 :: t8) Hr) as (c6 & t & E & Elow & Ht & Hbt). rewrite E. destruct t as [|c7 t]; [done|]. cbn [riscv_step].
      fold w0. rewrite (kind_pass_6 w0 b4 b5 b6 b7 c6 c7); [done|done| |by apply riscv_low_nibble|done]. apply (Forall_app_2 _ [b4; b5]); [by apply (Forall_app _ [b4; b5]) in H1 as [? _]|].
      by apply (Forall_app _ [c6; c7]) in Hbt as [? _].
  - exists [b0; b1; b2; b3]. split; [done|]. split; [done|]. destruct (jal_undo e c w0 W0) as (J1 & _ & J3 & J4 & J5). destruct (riscv_stored _ J1) as (c0 & c1 & c2 & c3 & Ec & Hc & El).
    unfold rewrite_words in *. rewrite Ek in *. rewrite Ec. cbn [length app]. set (r' := riscv_map e pc (p + Z.of_nat 4) _). assert (length r' = 4 + length t8)%nat as Hr' by (by apply riscv_map_length).
    destruct r' as [|c4 [|c5 [|c6 [|c7 t]]]]; try (cbn in Hr'; lia). cbn [riscv_step]. rewrite El.
    assert (kind_of (jal e c w0) (le_load [c4; c5; c6; c7]) = Jal) as Ek' by (apply kind_Jal; rewrite J3, J4; by apply kind_Jal in Ek).
    unfold rewrite_words. fold c. rewrite !Ek', J5. by rewrite L0.
  - exists [b0; b1; b2; b3; b4; b5; b6; b7]. split; [done|]. split; [done|]. destruct (mark_of e c w0 w1) as [x0 x1] eqn:Ex.
    destruct (pair_undo e c w0 w1 x0 x1 W0 W1 Ek Ex) as (J1 & J2 & J3 & J4). destruct (riscv_stored _ J1) as (c0 & c1 & c2 & c3 & Ec & _ & El). destruct (riscv_stored _ J2) as (c4 & c5 & c6 & c7 & Ec' & _ & El').
    unfold rewrite_words. rewrite Ek, Ex, Ec, Ec'. cbn [length app riscv_step]. rewrite El, El'. unfold rewrite_words. fold c. rewrite !J3, J4. by rewrite L0, L1.
  - exists [b0; b1; b2; b3; b4; b5; b6; b7]. split; [done|]. split; [done|]. destruct (pair_of e c w0 w1) as [x0 x1] eqn:Ex.
    destruct (mark_undo e c w0 w1 x0 x1 W0 W1 Ek Ex) as (J1 & J2 & J3 & J4). destruct (riscv_stored _ J1) as (c0 & c1 & c2 & c3 & Ec & _ & El). destruct (riscv_stored _ J2) as (c4 & c5 & c6 & c7 & Ec' & _ & El').
    unfold rewrite_words. rewrite Ek, Ex, Ec, Ec'. cbn [length app riscv_step]. rewrite El, El'. unfold rewrite_words. fold c. rewrite !J3, J4. by rewrite L0, L1.
Qed.
