(* ===== verification/BraRiscvRun.v ===== *)
(** * Branch converter for RISC-V: the code is the walk

    What the functions of BraRiscv.v do to one instruction is a step of the walk of
    BraRiscvOk.v, and their loop is the walk. *)

From stdpp Require Import base numbers list list_numbers.
From Stdlib Require Import ZArith Lia.
From S2P Require Import Prelude Bra BraWords BraArmt BraRiscv BraRiscvOk.
Local Open Scope Z_scope.
Local Open Scope word_scope.

Local Ltac euclid := Z.to_euclidean_division_equations; lia.

(** ** The code on one instruction *)

Definition load_value (h : Z) : Z := u32 ((h ^^^ 0x10) + 1).

Lemma load_value_parts h : 0 <= h < 2 ^ 16 -> load_value h = 128 * (h / 128) + (((h mod 128) ^^^ 0x10) + 1).
Proof.
  intros Hh. unfold load_value. rewrite <-(lxor_split 7 h) at 1 by lia. change (2 ^ 7) with 128.
  rewrite (Z.lxor_comm (h mod 128)), Z.lxor_assoc, (Z.lxor_comm _ (_ ^^^ _)).
  assert (in_width 7 ((h mod 128) ^^^ 0x10)) as Hw by (apply lxor_in_width; [lia|apply Z.mod_pos_bound; lia|done]).
  rewrite lxor_shiftl_add by (lia || exact Hw). rewrite Z.shiftr_div_pow2 by lia. change (2 ^ 7) with 128 in *. unfold in_width in Hw.
  rewrite wrap_small; [lia|]. unfold in_width. assert (0 <= h / 128 < 2 ^ 9) by (split; [apply Z.div_pos|apply Z.div_lt_upper_bound]; lia). lia.
Qed.

(** The test of the search, and what [a] is where it stops. *)
Lemma load_value_head h : 0 <= h < 2 ^ 16 ->
  ((load_value h &&& 0x77) =? 0) = ((h mod 128 =? 0x6f) || (h mod 128 =? 0x17)) /\
  (h mod 128 = 0x6f -> load_value h = 128 * (h / 128) + 128) /\ (h mod 128 = 0x17 -> load_value h = 128 * (h / 128) + 8).
Proof.
  intros Hh. rewrite load_value_parts by done. pose proof (Z.mod_pos_bound h 128 ltac:(lia)) as Hm. set (op := h mod 128) in *. clearbody op. set (H := h / 128). split; [|split; by intros ->].
  assert ((128 * H + ((op ^^^ 0x10) + 1)) &&& 0x77 = ((op ^^^ 0x10) + 1) &&& 0x77) as ->.
  { change 0x77 with ((2 ^ 7 - 1) &&& 0x77). rewrite !Z.land_assoc, !land_ones_mod by lia. f_equal. rewrite Z.add_comm, (Z.mul_comm 128). change (2 ^ 7) with 128. apply Z.mod_add. lia. }
  apply eqb_prop. exact (forall_range (fun op => Bool.eqb (((op ^^^ 0x10) + 1) &&& 0x77 =? 0) ((op =? 0x6f) || (op =? 0x17))) 128 eq_refl op Hm).
Qed.

(** The tests on [v] for a JAL and for an AUIPC whose higher bits are [H]. *)
Lemma jal_tests H : 0 <= H < 512 ->
  ((u32 (128 * H + 128 - 0x100) &&& 0xd80) =? 0) = ((H mod 32 =? 1) || (H mod 32 =? 5)) /\
  ((u32 (128 * H + 128 - (0x100 - RISCV_DELTA_7F)) &&& 0xd80) =? 0) = ((H mod 32 =? 1) || (H mod 32 =? 5)) /\
  ((128 * H + 128) &&& 8) = 0 /\
  ((H mod 32 =? 1) || (H mod 32 =? 5) = true ->
     u32 (u32 (128 * H + 128 - (0x100 - RISCV_DELTA_7F)) + (0xef - RISCV_DELTA_7F)) &&& 0xfff = 0x6f + 128 * (H mod 32) /\
     (u32 (128 * H + 128 - (0x100 - RISCV_DELTA_7F)) &&& 0xf000) <<< 5 = H / 32 * 2 ^ 17).
Proof.
  intros HH.
  pose proof (forall_range (fun H =>
    Bool.eqb ((u32 (128 * H + 128 - 0x100) &&& 0xd80) =? 0) ((H mod 32 =? 1) || (H mod 32 =? 5)) &&
    Bool.eqb ((u32 (128 * H + 128 - (0x100 - RISCV_DELTA_7F)) &&& 0xd80) =? 0) ((H mod 32 =? 1) || (H mod 32 =? 5)) &&
    (((128 * H + 128) &&& 8) =? 0) &&
    (negb ((H mod 32 =? 1) || (H mod 32 =? 5)) ||
     ((u32 (u32 (128 * H + 128 - (0x100 - RISCV_DELTA_7F)) + (0xef - RISCV_DELTA_7F)) &&& 0xfff =? 0x6f + 128 * (H mod 32)) &&
      ((u32 (128 * H + 128 - (0x100 - RISCV_DELTA_7F)) &&& 0xf000) <<< 5 =? H / 32 * 2 ^ 17)))) 512 eq_refl H HH) as E.
  cbv beta in E. rewrite !andb_true_iff, orb_true_iff, andb_true_iff, !Z.eqb_eq, !eqb_true_iff in E. destruct E as (((E1 & E2) & E3) & E4).
  split; [done|]. split; [done|]. split; [done|]. intros Hc. rewrite Hc in E4. by destruct E4 as [E4|E4].
Qed.

Lemma auipc_tests H r : 0 <= H < 512 -> 0 <= r < 32 ->
  ((128 * H + 8) &&& 8) = 8 /\ (((128 * H + 8) &&& 0xe80) =? 0) = x0_or_x2 (H mod 32) /\
  (x0_or_x2 (H mod 32) = true -> RISCV_CHECK_2 (128 * H + 8) r = ((H mod 32 =? 2) && (H / 32 mod 4 =? 3) && negb (x0_or_x2 r))).
Proof.
  intros HH Hr.
  pose proof (forall_range (fun H =>
    (((128 * H + 8) &&& 8) =? 8) && Bool.eqb (((128 * H + 8) &&& 0xe80) =? 0) (x0_or_x2 (H mod 32)) &&
    (let x := u32 (u32 (128 * H + 8 - ((RISCV_CMD_VAL <<< 12) ||| RISCV_REG_VAL ||| 8)) <<< 18) in
     if (H mod 32 =? 2) && (H / 32 mod 4 =? 3) then x =? 0 else 32 <=? x)) 512 eq_refl H HH) as E.
  cbv beta zeta in E. rewrite !andb_true_iff, Z.eqb_eq, eqb_true_iff in E. destruct E as ((E1 & E2) & E3). split; [done|]. split; [done|]. intros _.
  pose proof (forall_range (fun r => ((r &&& 0x1d) <? 32) && Bool.eqb (0 <? (r &&& 0x1d)) (negb (x0_or_x2 r))) 32 eq_refl r Hr) as E4.
  cbv beta in E4. rewrite andb_true_iff, eqb_true_iff, Z.ltb_lt in E4. destruct E4 as [E4 E5].
  unfold RISCV_CHECK_2. destruct ((H mod 32 =? 2) && (H / 32 mod 4 =? 3)); cbn [andb]; [apply Z.eqb_eq in E3 as ->; done|]. apply Z.leb_le in E3. apply Z.ltb_ge. lia.
Qed.

Lemma check_1 H b : 0 <= H < 512 -> in_width 32 b -> RISCV_CHECK_1 (128 * H + 8) b = ((b mod 4 =? 3) && (b / 2 ^ 15 mod 32 =? H mod 32)).
Proof.
  intros HH [Hb1 Hb2]. unfold RISCV_CHECK_1, RISCV_CMD_VAL. change (0xf8000 + 3) with ((2 ^ 20 - 2 ^ 15) ||| (2 ^ 2 - 2 ^ 0)).
  assert (u32 ((128 * H + 8) <<< 8) = 2 ^ 15 * H + 2 ^ 11) as ->. { rewrite Z.shiftl_mul_pow2 by lia. rewrite wrap_small; [lia|unfold in_width; lia]. }
  set (x := u32 (b - 3)). set (y := 2 ^ 15 * H + 2 ^ 11). rewrite Z.land_lor_distr_r.
  assert (forall m, (x ^^^ y) &&& m = (x &&& m) ^^^ (y &&& m)) as Hdist by (intros m; apply Z.bits_inj'; intros i _; rewrite !Z.land_spec, !Z.lxor_spec, !Z.land_spec; by destruct (Z.testbit x i), (Z.testbit y i), (Z.testbit m i)).
  rewrite !Hdist, !land_mask by lia. apply eq_iff_eq_true. rewrite andb_true_iff, !Z.eqb_eq, Z.lor_eq_0_iff, !Z.lxor_eq_0_iff. change (2 ^ 0) with 1. change (2 ^ 2) with 4. rewrite !Z.div_1_r, !Z.mul_1_r.
  assert (y mod 2 ^ 20 / 2 ^ 15 = H mod 32) as -> by (unfold y; clear - HH; euclid). assert (y mod 4 = 0) as -> by (unfold y; clear - HH; euclid).
  assert (x mod 4 = (b - 3) mod 4) as -> by (unfold x, wrap; apply Z.mod_mod_divide; by exists (2 ^ 30)).
  assert (b mod 4 = 3 -> x mod 2 ^ 20 / 2 ^ 15 = b / 2 ^ 15 mod 32) as Hx.
  { intros E. assert (3 <= b) by euclid. unfold x, wrap. rewrite (Z.mod_small (b - 3) (2 ^ 32)) by lia. clear - E Hb1. euclid. }
  split; intros [E1 E2].
  - assert (b mod 4 = 3) as E3 by (clear - E2 Hb1; euclid). rewrite Hx in E1 by done. split; [done|]. lia.
  - split; [rewrite Hx by done; lia|]. clear - E1 Hb1. euclid.
Qed.

(** ** Bit fields *)

Lemma mod_div x a b : 0 <= a <= b -> (x mod 2 ^ b) / 2 ^ a = (x / 2 ^ a) mod 2 ^ (b - a).
Proof.
  intros Hab. pose proof (Z.pow_pos_nonneg 2 a ltac:(lia) ltac:(lia)). pose proof (Z.pow_pos_nonneg 2 (b - a) ltac:(lia) ltac:(lia)).
  replace (2 ^ b) with (2 ^ a * 2 ^ (b - a)) by (rewrite <-Z.pow_add_r by lia; f_equal; lia). rewrite Z.rem_mul_r by lia.
  rewrite (Z.mul_comm (2 ^ a)), Z.div_add, (Z.div_small (x mod 2 ^ a)) by (lia || (apply Z.mod_pos_bound; lia)). done.
Qed.

(** A field that is moved down, or up and cut to 32 bits. *)
Lemma field_down x a b s : 0 <= s <= a -> a <= b -> (x &&& (2 ^ b - 2 ^ a)) >>> s = (x / 2 ^ a) mod 2 ^ (b - a) * 2 ^ (a - s).
Proof.
  intros Hs Hab. rewrite land_mask, mod_div, Z.shiftr_div_pow2 by lia. replace (2 ^ a) with (2 ^ (a - s) * 2 ^ s) at 2 by (rewrite <-Z.pow_add_r by lia; f_equal; lia).
  rewrite Z.mul_assoc, Z.div_mul; [done|]. pose proof (Z.pow_pos_nonneg 2 s). lia.
Qed.

Lemma field_up x a b s : 0 <= s <= a -> a <= b <= 32 -> u32 (x <<< s) &&& (2 ^ b - 2 ^ a) = (x / 2 ^ (a - s)) mod 2 ^ (b - a) * 2 ^ a.
Proof.
  intros Hs Hab. pose proof (Z.pow_pos_nonneg 2 s ltac:(lia) ltac:(lia)). rewrite land_mask, mod_div, Z.shiftl_mul_pow2 by lia. f_equal. unfold wrap.
  rewrite <-(mod_div _ a b), Z.mod_mod_divide by (lia || (exists (2 ^ (32 - b)); rewrite <-Z.pow_add_r by lia; f_equal; lia)). rewrite mod_div by lia. f_equal.
  replace (2 ^ a) with (2 ^ (a - s) * 2 ^ s) by (rewrite <-Z.pow_add_r by lia; f_equal; lia). rewrite Z.div_mul_cancel_r; [done|apply Z.pow_nonzero; lia|lia].
Qed.

Lemma lor_fields a b c d : ((a ||| b) ||| c) ||| d = ((b ||| c) ||| d) ||| a.
Proof. rewrite <-!Z.lor_assoc, Z.lor_comm, <-!Z.lor_assoc. done. Qed.

Lemma lor_fields_5 a b c d e : (((a ||| b) ||| c) ||| d) ||| e = (((a ||| e) ||| d) ||| c) ||| b.
Proof. apply Z.bits_inj'. intros i _. rewrite !Z.lor_spec. by destruct (Z.testbit a i), (Z.testbit b i), (Z.testbit c i), (Z.testbit d i), (Z.testbit e i). Qed.

Lemma lor_add n x y : 0 <= n -> 0 <= x < 2 ^ n -> x ||| (y * 2 ^ n) = x + y * 2 ^ n.
Proof. intros Hn Hx. pose proof (lor_shiftl_add n x y Hn Hx) as E. by rewrite Z.shiftl_mul_pow2 in E. Qed.

(** The offset of a JAL, in bytes, as the encoder takes it out of the instruction. *)
Lemma jal_value w : in_width 32 w ->
  ((w &&& (1 <<< 31)) >>> 11) ||| ((w &&& (0x3ff <<< 21)) >>> 20) ||| ((w &&& (1 <<< 20)) >>> 9) ||| (w &&& (0xff <<< 12)) = 2 * jal_offset (w / 2 ^ 12).
Proof.
  intros Hw. change (1 <<< 31) with (2 ^ 32 - 2 ^ 31). change (0x3ff <<< 21) with (2 ^ 31 - 2 ^ 21). change (1 <<< 20) with (2 ^ 21 - 2 ^ 20).
  change (0xff <<< 12) with (2 ^ 20 - 2 ^ 12). rewrite <-(Z.shiftr_0_r (w &&& (2 ^ 20 - 2 ^ 12))). rewrite !field_down by lia. cbn [Z.sub Z.add Z.opp Z.pos_sub Pos.pred_double].
  rewrite lor_fields. destruct (word_fields w Hw) as (op & rd & u & E & Ho & Hr & Hu & _ & _ & E3 & _). rewrite E3.
  assert (w / 2 ^ 31 = u / 2 ^ 19 /\ w / 2 ^ 21 = u / 2 ^ 9 /\ w / 2 ^ 20 = u / 2 ^ 8) as (-> & -> & ->) by (rewrite <-E3, !Z.div_div by lia; done).
  assert (0 <= u / 2 ^ 9 mod 2 ^ 10 < 2 ^ 10 /\ 0 <= u / 2 ^ 8 mod 2 ^ 1 < 2 /\ 0 <= u mod 2 ^ 8 < 2 ^ 8) as (R1 & R2 & R3) by (split; [|split]; apply Z.mod_pos_bound; lia).
  change (2 ^ (31 - 21)) with (2 ^ 10). change (2 ^ (21 - 20)) with (2 ^ 1) at 2. change (2 ^ (21 - 20)) with 2. change (2 ^ (20 - 9)) with (2 ^ 11).
  change (2 ^ (20 - 12)) with (2 ^ 8). change (2 ^ (12 - 0)) with (2 ^ 12). change (2 ^ (31 - 11)) with (2 ^ 20). change (2 ^ (32 - 31)) with (2 ^ 1). change (2 ^ 1) with 2 in *.
  rewrite (lor_add 11), (lor_add 12), (lor_add 20) by lia. unfold jal_offset. change (u / 512) with (u / 2 ^ 9). change (u / 256) with (u / 2 ^ 8). change 1024 with (2 ^ 10). change 256 with (2 ^ 8).
  rewrite (Z.mod_small (u / 2 ^ 19)) by (split; [apply Z.div_pos|apply Z.div_lt_upper_bound]; lia). lia.
Qed.

(** The instruction that the decoder puts together. *)
Lemma jal_word low v :
  0 <= low < 2 ^ 12 -> 0 <= v ->
  low ||| (u32 (v <<< 11) &&& (1 <<< 31)) ||| (u32 (v <<< 20) &&& (0x3ff <<< 21)) ||| (u32 (v <<< 9) &&& (1 <<< 20)) ||| (v &&& (0xff <<< 12)) =
    low + 2 ^ 12 * jal_bits (v / 2 mod 2 ^ 20).
Proof.
  intros Hl Hv. change (1 <<< 31) with (2 ^ 32 - 2 ^ 31). change (0x3ff <<< 21) with (2 ^ 31 - 2 ^ 21). change (1 <<< 20) with (2 ^ 21 - 2 ^ 20).
  change (0xff <<< 12) with (2 ^ 20 - 2 ^ 12). rewrite !field_up by lia. rewrite land_mask, mod_div by lia. rewrite lor_fields_5.
  change (2 ^ (32 - 31)) with 2. change (2 ^ (31 - 21)) with (2 ^ 10). change (2 ^ (21 - 20)) with 2. change (2 ^ (20 - 12)) with (2 ^ 8).
  change (2 ^ (31 - 11)) with (2 ^ 20). change (2 ^ (20 - 9)) with (2 ^ 11). change (2 ^ (21 - 20)) with 2. change (2 ^ (31 - 20)) with (2 ^ 11).
  change (31 - 11) with 20. change (21 - 20) with 1. change (20 - 9) with 11. change (2 ^ 1) with 2.
  set (j := (v / 2) mod 2 ^ 20).
  assert ((v / 2 ^ 20) mod 2 = j / 2 ^ 19 /\ (v / 2) mod 2 ^ 10 = j mod 1024 /\ (v / 2 ^ 11) mod 2 = j / 1024 mod 2 /\ (v / 2 ^ 12) mod 2 ^ 8 = j / 2 ^ 11 mod 256) as (-> & -> & -> & ->).
  { assert (v / 2 ^ 20 = v / 2 / 2 ^ 19 /\ v / 2 ^ 11 = v / 2 / 2 ^ 10 /\ v / 2 ^ 12 = v / 2 / 2 ^ 11) as (-> & -> & ->) by (rewrite !Z.div_div by lia; done).
    unfold j. set (x := v / 2). change 1024 with (2 ^ 10). change 256 with (2 ^ 8).
    split; [by rewrite (mod_div x 19 20) by lia|]. split; [symmetry; apply Z.mod_mod_divide; by exists (2 ^ 10)|].
    rewrite (mod_div x 10 20), (mod_div x 11 20) by lia. split; symmetry; apply Z.mod_mod_divide; [by exists (2 ^ 9)|by exists 2]. }
  assert (0 <= j < 2 ^ 20) as Hj by (apply Z.mod_pos_bound; lia). clearbody j. unfold jal_bits.
  assert (0 <= j / 2 ^ 19 < 2 /\ 0 <= j mod 1024 < 1024 /\ 0 <= j / 1024 mod 2 < 2 /\ 0 <= j / 2 ^ 11 mod 256 < 256) as (R1 & R2 & R3 & R4)
    by (split; [split; [apply Z.div_pos|apply Z.div_lt_upper_bound]; lia|]; split; [|split]; apply Z.mod_pos_bound; lia).
  rewrite (lor_add 12), (lor_add 20), (lor_add 21), (lor_add 31) by lia. lia.
Qed.

(** An address in bytes, and its bits as the encoder stores them. *)
Lemma even_address (e : bool) J c : in_width 32 c -> c mod 2 = 0 ->
  let V := u32 (if e then 2 * J + c else 2 * J - c) in
  in_width 32 V /\ V mod 2 = 0 /\ V / 2 mod 2 ^ 20 = (if e then J + c / 2 else J - c / 2) mod 2 ^ 20.
Proof.
  intros Hc Ec V. assert (V = 2 * ((if e then J + c / 2 else J - c / 2) mod 2 ^ 31)) as ->.
  { unfold V, wrap. change (2 ^ 32) with (2 * 2 ^ 31). rewrite <-Z.mul_mod_distr_l by lia. f_equal. destruct e; euclid. }
  set (x := if e then _ else _). pose proof (Z.mod_pos_bound x (2 ^ 31) ltac:(lia)). split; [unfold in_width; lia|].
  rewrite (Z.mul_comm 2), Z.mod_mul, Z.div_mul by lia. split; [done|]. apply Z.mod_mod_divide. by exists (2 ^ 11).
Qed.

Lemma enc_jal_bytes w b0 b1 b2 b3 V :
  bytes [b0; b1; b2; b3] -> w = le_load [b0; b1; b2; b3] -> in_width 32 V -> V mod 2 = 0 ->
  [b0; u8 (((V >>> 13) &&& 0xf0) ||| ((w >>> 8) &&& 0xf))] ++ le_bytes 2 (u16 (Z7_BSWAP32 (u32 (V <<< 15)))) =
  le_bytes 4 (w mod 2 ^ 12 + 2 ^ 12 * address_bits (V / 2 mod 2 ^ 20)).
Proof.
  intros Hb -> HV EV. unfold bytes in Hb. rewrite !Forall_cons in Hb. destruct Hb as (H0 & H1 & H2 & H3 & _). unfold in_width in *.
  change 0xf0 with (2 ^ 8 - 2 ^ 4). change 0xf with (2 ^ 4 - 1) at 1. rewrite land_mask, mod_div, land_ones_mod by lia. rewrite (Z.shiftr_div_pow2 V), (Z.shiftr_div_pow2 (le_load _)) by lia.
  set (k := V / 2 mod 2 ^ 20). assert (0 <= k < 2 ^ 20) as Hk by (apply Z.mod_pos_bound; lia).
  assert (V / 2 ^ 13 / 2 ^ 4 mod 2 ^ (8 - 4) = k / 2 ^ 16) as -> by (unfold k; clear - HV; euclid).
  assert (u32 (V <<< 15) = k mod 2 ^ 16 * 2 ^ 16) as -> by (rewrite Z.shiftl_mul_pow2 by lia; unfold k, wrap; clear - HV EV; euclid).
  set (w := le_load [b0; b1; b2; b3]). assert (w / 2 ^ 8 mod 2 ^ 4 = b1 mod 16 /\ w mod 2 ^ 12 = b0 + 256 * (b1 mod 16)) as [-> ->] by (unfold w; cbn [le_load]; clear - H0 H1 H2 H3; split; euclid).
  rewrite Z.lor_comm, (lor_add 4) by (lia || (apply Z.mod_pos_bound; lia)).
  assert (in_width 32 (k mod 2 ^ 16 * 2 ^ 16)) as Hv by (unfold in_width; pose proof (Z.mod_pos_bound k (2 ^ 16)); lia).
  destruct (bswap_bytes _ Hv) as (c0 & c1 & c2 & c3 & C0 & C1 & C2 & C3 & E & ->).
  assert (c0 = 0 /\ c1 = 0 /\ c2 = k mod 256 /\ c3 = k / 256 mod 256) as (-> & -> & E2 & E3) by (clear - C0 C1 C2 C3 E Hk; split_and!; euclid).
  unfold address_bits. rewrite <-E2, <-E3. assert (0 <= k / 2 ^ 16 < 16) as Hq by (clear - Hk; split; euclid). set (q := k / 2 ^ 16) in *.
  assert (0 <= b1 mod 16 < 16) as Hm by (apply Z.mod_pos_bound; lia). set (m := b1 mod 16) in *. clearbody q m. cbn [le_bytes app]. unfold wrap.
  change (2 ^ 8) with 256. clear - H0 C2 C3 Hq Hm.
  assert (forall x0 x1 x2 x3 y0 y1 y2 y3 : Z, x0 = y0 -> x1 = y1 -> x2 = y2 -> x3 = y3 -> [x0; x1; x2; x3] = [y0; y1; y2; y3]) as cons4 by (by intros; subst).
  apply cons4; clear cons4; euclid.
Qed.

(** The address that the decoder takes out of the instruction. *)
Lemma dec_jal_value w b0 b1 b2 b3 :
  bytes [b0; b1; b2; b3] -> w = le_load [b0; b1; b2; b3] ->
  (Z7_BSWAP32 (le_load [b2; b3]) >>> 15) ||| (le_load [b0; b1] / 128 / 32 * 2 ^ 17) = 2 * address_of (w / 2 ^ 12).
Proof.
  intros Hb ->. unfold bytes in Hb. rewrite !Forall_cons in Hb. destruct Hb as (H0 & H1 & H2 & H3 & _). unfold in_width in *.
  assert (in_width 32 (le_load [b2; b3])) as Hv by (unfold in_width; cbn [le_load]; lia).
  destruct (bswap_bytes _ Hv) as (c0 & c1 & c2 & c3 & C0 & C1 & C2 & C3 & E & ->). cbn [le_load] in E.
  assert (c0 = b2 /\ c1 = b3 /\ c2 = 0 /\ c3 = 0) as (-> & -> & -> & ->) by (clear - H2 H3 C0 C1 C2 C3 E; split_and!; euclid).
  rewrite Z.shiftr_div_pow2 by lia. set (x := _ / 2 ^ 15). assert (x = 2 * (b3 + 256 * b2)) as -> by (unfold x; clear - H2 H3; euclid).
  rewrite (lor_add 17) by lia. unfold address_of. cbn [le_load]. clear - H0 H1 H2 H3. euclid.
Qed.

(** ** An instruction *)

Lemma wrz_second (pre : list Z) b0 b1 l x : wrz (pre ++ b0 :: b1 :: l) (Z.of_nat (length pre) + 1) x = Some (pre ++ b0 :: x :: l).
Proof.
  rewrite wrz_Some by (rewrite length_app; cbn [length]; lia). f_equal. replace (Z.to_nat (Z.of_nat (length pre) + 1)) with (length pre + 1)%nat by lia.
  by rewrite insert_app_r.
Qed.

Lemma halfword_fields b0 b1 b2 b3 :
  bytes [b0; b1; b2; b3] -> let h := le_load [b0; b1] in let w := le_load [b0; b1; b2; b3] in
  0 <= h < 2 ^ 16 /\ 0 <= h / 128 < 512 /\ h mod 128 = w mod 128 /\ h / 128 mod 32 = w / 128 mod 32 /\ h / 128 / 32 = w / 2 ^ 12 mod 16.
Proof.
  intros Hb. unfold bytes in Hb. rewrite !Forall_cons in Hb. destruct Hb as (H0 & H1 & H2 & H3 & _). unfold in_width in *. cbn [le_load].
  clear - H0 H1 H2 H3. split_and!; euclid.
Qed.

Section Instr.
Context (pc : Z) (pre : list Z) (b0 b1 b2 b3 : Z) (rest : list Z).
Let p := Z.of_nat (length pre).
Let w0 := le_load [b0; b1; b2; b3].
Let c := BR_PC_GET pc p.
Context (Hb : bytes [b0; b1; b2; b3]) (Hc : c mod 2 = 0).

Lemma c_width : in_width 32 c.
Proof. apply wrap_in_width. lia. Qed.

Lemma enc_jal : riscv_enc_jal pc (pre ++ b0 :: b1 :: b2 :: b3 :: rest) p w0 = Some (pre ++ le_bytes 4 (jal true c w0) ++ rest, p + 4).
Proof using Hb Hc.
  destruct (load_fields _ _ _ _ Hb) as (Hw & _). fold w0 in Hw. unfold riscv_enc_jal, BR_CONVERT_VAL_ENC. fold c. cbv zeta. rewrite jal_value by done.
  destruct (even_address true (jal_offset (w0 / 2 ^ 12)) c c_width Hc) as (HV & EV & Ek). cbv iota zeta in HV, EV, Ek. set (V := u32 _) in *.
  unfold p. rewrite wrz_second. opt. set (x1 := u8 _).
  pose proof (enc_jal_bytes w0 b0 b1 b2 b3 V Hb eq_refl HV EV) as E. rewrite Ek in E. fold x1 in E. unfold jal. rewrite <-E.
  change (pre ++ b0 :: x1 :: b2 :: b3 :: rest) with (pre ++ [b0; x1] ++ b2 :: b3 :: rest). rewrite app_assoc, SetUi16_at by (rewrite length_app; cbn [length]; lia).
  opt. rewrite <-!app_assoc. done.
Qed.

Lemma dec_jal : w0 mod 128 = 0x6f -> (w0 / 128 mod 32 = 1 \/ w0 / 128 mod 32 = 5) ->
  riscv_dec_jal pc (pre ++ b0 :: b1 :: b2 :: b3 :: rest) p (u32 (load_value (le_load [b0; b1]) - (0x100 - RISCV_DELTA_7F))) =
  Some (pre ++ le_bytes 4 (jal false c w0) ++ rest, p + 4).
Proof using Hb Hc.
  intros E1 E2. destruct (load_fields _ _ _ _ Hb) as (Hw & _). destruct (halfword_fields _ _ _ _ Hb) as (Hh & HH & F1 & F2 & F3). fold w0 in Hw, F1, F2, F3.
  set (h := le_load [b0; b1]) in *. destruct (load_value_head h Hh) as (_ & -> & _); [|by rewrite F1].
  destruct (jal_tests (h / 128) HH) as (_ & _ & _ & T). rewrite F2 in T. destruct T as [T1 T2]; [by destruct E2 as [-> | ->]|].
  unfold riscv_dec_jal. assert (GetUi16 (pre ++ b0 :: b1 :: b2 :: b3 :: rest) (p + 2) = Some (le_load [b2; b3])) as ->.
  { pose proof (GetUi16_at (pre ++ [b0; b1]) b2 b3 rest (p + 2)) as E. rewrite <-app_assoc in E. apply E. rewrite length_app. cbn [length]. lia. }
  opt. rewrite T1, T2. unfold h. rewrite (dec_jal_value w0) by done.
  destruct (even_address false (address_of (w0 / 2 ^ 12)) c c_width Hc) as (HV & EV & Ek). cbv iota zeta in HV, EV, Ek. unfold BR_CONVERT_VAL_DEC. fold c. set (V := u32 (_ - c)) in *.
  destruct (word_fields w0 Hw) as (op & rd & u & E & Ho & Hr & Hu & W1 & W2 & W3 & W4 & _).
  rewrite jal_word by (unfold in_width in HV; rewrite ?W2; lia). unfold p. rewrite SetUi32_at. opt. rewrite Ek. unfold jal. rewrite W4, <-W1, E1, W2. done.
Qed.
End Instr.
(** ** AUIPC *)

(** The parts of the words that the functions put together. *)
Lemma enc_pair_words w0 w1 : in_width 32 w0 -> in_width 32 w1 ->
  u32 (((w0 >>> 27) <<< 7) + 0x17 + (w1 &&& 0xfffff000)) = w0 / 2 ^ 27 * 128 + 0x17 + w1 / 2 ^ 12 * 2 ^ 12 /\
  (w0 >>> 12) ||| u32 (w1 <<< 20) = w0 / 2 ^ 12 + 2 ^ 20 * (w1 mod 2 ^ 12).
Proof.
  intros [H1 H2] [H3 H4]. rewrite !Z.shiftr_div_pow2, !Z.shiftl_mul_pow2 by lia. change 0xfffff000 with (2 ^ 32 - 2 ^ 12). rewrite land_mask, (Z.mod_small w1) by lia.
  change (2 ^ 7) with 128. split.
  - apply Z.mod_small. clear - H1 H2 H3 H4. euclid.
  - assert (u32 (w1 * 2 ^ 20) = (w1 mod 2 ^ 12) * 2 ^ 20) as -> by (unfold wrap; change (2 ^ 32) with (2 ^ 12 * 2 ^ 20); apply Z.mul_mod_distr_r; lia).
    rewrite lor_add; [lia|lia|]. split; [apply Z.div_pos|apply Z.div_lt_upper_bound]; lia.
Qed.

Lemma dec_pair_words w0 b : in_width 32 w0 -> in_width 32 b ->
  u32 (((w0 >>> 27) <<< 7) + 0x17 + (u32 (b + 0x800) &&& 0xfffff000)) = w0 / 2 ^ 27 * 128 + 0x17 + u32 (b + 0x800) / 2 ^ 12 * 2 ^ 12 /\
  (w0 >>> 12) ||| u32 (b <<< 20) = w0 / 2 ^ 12 + 2 ^ 20 * (b mod 2 ^ 12).
Proof.
  intros H0 Hb. split; [|apply (enc_pair_words w0 b H0 Hb)]. apply enc_pair_words; [done|]. apply wrap_in_width. lia.
Qed.

Lemma mark_word w1 : in_width 32 w1 -> u32 (w1 <<< 12) ||| (0x17 + RISCV_REG_VAL) = w1 mod 2 ^ 20 * 2 ^ 12 + 0x117.
Proof.
  intros [H1 H2]. rewrite Z.shiftl_mul_pow2 by lia. assert (u32 (w1 * 2 ^ 12) = (w1 mod 2 ^ 20) * 2 ^ 12) as -> by (unfold wrap; change (2 ^ 32) with (2 ^ 20 * 2 ^ 12); apply Z.mul_mod_distr_r; lia).
  change (0x17 + RISCV_REG_VAL) with 0x117. rewrite Z.lor_comm, lor_add by lia. lia.
Qed.

Lemma enc_address w0 s c : in_width 32 w0 -> u32 (u32 ((w0 &&& 0xfffff000) + s) + c) = u32 (w0 / 2 ^ 12 * 2 ^ 12 + s + c).
Proof.
  intros [H1 H2]. change 0xfffff000 with (2 ^ 32 - 2 ^ 12). rewrite land_mask, (Z.mod_small w0) by lia. unfold wrap. by rewrite Zplus_mod_idemp_l.
Qed.

Lemma dec_address w0 w1 : in_width 32 w0 -> in_width 32 w1 -> (w0 &&& 0xfffff000) ||| (w1 >>> 20) = w0 / 2 ^ 12 * 2 ^ 12 + w1 / 2 ^ 20.
Proof.
  intros [H1 H2] [H3 H4]. change 0xfffff000 with (2 ^ 32 - 2 ^ 12). rewrite land_mask, (Z.mod_small w0), Z.shiftr_div_pow2, Z.lor_comm, lor_add by (lia || (split; [apply Z.div_pos|apply Z.div_lt_upper_bound]; lia)). lia.
Qed.

Section Words.
Context (pc : Z) (pre : list Z) (b0 b1 b2 b3 b4 b5 b6 b7 : Z) (t8 post : list Z).
Let p := Z.of_nat (length pre).
Let w0 := le_load [b0; b1; b2; b3].
Let w1 := le_load [b4; b5; b6; b7].
Let c := BR_PC_GET pc p.
Let h := le_load [b0; b1].
Let l := b0 :: b1 :: b2 :: b3 :: b4 :: b5 :: b6 :: b7 :: t8.
Context (Hb : bytes l) (Hc : c mod 2 = 0).

Lemma words_widths : bytes [b0; b1; b2; b3] /\ in_width 32 w0 /\ in_width 32 w1.
Proof using Hb.
  pose proof Hb as H. apply (Forall_app _ [b0; b1; b2; b3]) in H as [H0 H1]. apply (Forall_app _ [b4; b5; b6; b7]) in H1 as [H1 _].
  destruct (load_fields _ _ _ _ H0) as (W0 & _). destruct (load_fields _ _ _ _ H1) as (W1 & _). done.
Qed.

Lemma get_word0 : GetUi32 (pre ++ l ++ post) p = Some w0.
Proof. apply GetUi32_at. Qed.

Lemma get_word1 : GetUi32 (pre ++ l ++ post) (p + 4) = Some w1.
Proof. pose proof (GetUi32_at (pre ++ [b0; b1; b2; b3]) b4 b5 b6 b7 (t8 ++ post)) as E. rewrite length_app, Nat2Z.inj_add, <-app_assoc in E. exact E. Qed.

Lemma set_words x y : (data ← SetUi32 (pre ++ l ++ post) p x; data ← SetUi32 data (p + 4) y; Some (data, p + 8)) = Some (pre ++ (le_bytes 4 x ++ le_bytes 4 y) ++ t8 ++ post, p + 8).
Proof.
  unfold p. change (l ++ post) with (b0 :: b1 :: b2 :: b3 :: b4 :: b5 :: b6 :: b7 :: t8 ++ post). rewrite SetUi32_at. opt.
  pose proof (SetUi32_at (pre ++ le_bytes 4 x) b4 b5 b6 b7 (t8 ++ post) y) as E. rewrite length_app, length_le_bytes, Nat2Z.inj_add, <-!app_assoc in E.
  change (Z.of_nat 4) with 4 in E. rewrite E. opt. by rewrite <-!app_assoc.
Qed.

(** What a step leaves, in the buffer, is what the instruction functions are to answer. *)
Definition stepped (e : bool) : option (list Z * Z) :=
  let '(d, r) := riscv_step e pc p l in Some (pre ++ d ++ r ++ post, p + Z.of_nat (length d)).

Lemma stepped_kind e : stepped e =
  match kind_of w0 w1 with
  | Pass n => Some (pre ++ l ++ post, p + Z.of_nat n)
  | Jal => Some (pre ++ le_bytes 4 (jal e c w0) ++ b4 :: b5 :: b6 :: b7 :: t8 ++ post, p + 4)
  | Pair => let '(x, y) := mark_of e c w0 w1 in Some (pre ++ (le_bytes 4 x ++ le_bytes 4 y) ++ t8 ++ post, p + 8)
  | Mark => let '(x, y) := pair_of e c w0 w1 in Some (pre ++ (le_bytes 4 x ++ le_bytes 4 y) ++ t8 ++ post, p + 8)
  end.
Proof.
  unfold stepped, l. cbn [riscv_step]. fold w0 w1 c. pose proof (rewrite_length e c w0 w1) as Hlen. destruct (kind_of w0 w1) as [n| | |] eqn:Ek.
  - destruct (kind_pass _ _ _ Ek) as [->|[->| ->]]; done.
  - rewrite Hlen. unfold rewrite_words. by rewrite Ek.
  - rewrite Hlen. unfold rewrite_words. rewrite Ek. by destruct (mark_of e c w0 w1).
  - rewrite Hlen. unfold rewrite_words. rewrite Ek. by destruct (pair_of e c w0 w1).
Qed.

Lemma kind_jal : w0 mod 128 = 0x6f -> kind_of w0 w1 = if (w0 / 128 mod 32 =? 1) || (w0 / 128 mod 32 =? 5) then Jal else Pass 2.
Proof. intros E. unfold kind_of. by rewrite E. Qed.

Lemma kind_auipc : w0 mod 128 = 0x17 -> kind_of w0 w1 =
  if x0_or_x2 (w0 / 128 mod 32) then
    if (w0 / 128 mod 32 =? 2) && (w0 / 2 ^ 12 mod 4 =? 3) && negb (x0_or_x2 (w0 / 2 ^ 27)) then Mark else Pass 4
  else if (w1 mod 4 =? 3) && (w1 / 2 ^ 15 mod 32 =? w0 / 128 mod 32) then Pair else Pass 6.
Proof. intros E. unfold kind_of. by rewrite E. Qed.

(** The tests of the code at an AUIPC. *)
Lemma auipc_at : w0 mod 128 = 0x17 ->
  (load_value h &&& 8) = 8 /\ ((load_value h &&& 0xe80) =? 0) = x0_or_x2 (w0 / 128 mod 32) /\
  RISCV_CHECK_1 (load_value h) w1 = (w1 mod 4 =? 3) && (w1 / 2 ^ 15 mod 32 =? w0 / 128 mod 32) /\
  (x0_or_x2 (w0 / 128 mod 32) = true ->
   RISCV_CHECK_2 (load_value h) (w0 >>> 27) = (w0 / 128 mod 32 =? 2) && (w0 / 2 ^ 12 mod 4 =? 3) && negb (x0_or_x2 (w0 / 2 ^ 27))).
Proof using Hb Hc.
  intros E. destruct words_widths as (Hb0 & W0 & W1). destruct (halfword_fields _ _ _ _ Hb0) as (Hh & HH & F1 & F2 & F3). fold w0 h in F1, F2, F3, Hh, HH.
  destruct (load_value_head h Hh) as (_ & _ & ->); [|by rewrite F1].
  assert (0 <= w0 / 2 ^ 27 < 32) as Hr by (unfold in_width in W0; split; [apply Z.div_pos|apply Z.div_lt_upper_bound]; lia).
  destruct (auipc_tests (h / 128) (w0 / 2 ^ 27) HH Hr) as (T1 & T2 & T3). rewrite check_1, F2 by done. rewrite F2 in T2, T3. split; [done|]. split; [done|]. split; [done|].
  rewrite Z.shiftr_div_pow2 by lia. intros Hx. rewrite T3, F3 by done. by rewrite (Z.mod_mod_divide _ 16 4) by (by exists 4).
Qed.

Lemma enc_auipc : w0 mod 128 = 0x17 -> riscv_enc_auipc pc (pre ++ l ++ post) p (load_value h) w0 = stepped true.
Proof using Hb Hc.
  intros E. destruct words_widths as (_ & W0 & W1). destruct (auipc_at E) as (_ & T2 & T3 & T4). rewrite stepped_kind, kind_auipc by done. unfold riscv_enc_auipc.
  rewrite T2. cbv zeta. destruct (x0_or_x2 (w0 / 128 mod 32)); cbn [negb].
  - rewrite T4 by done. destruct ((w0 / 128 mod 32 =? 2) && (w0 / 2 ^ 12 mod 4 =? 3) && negb (x0_or_x2 (w0 / 2 ^ 27))); [|done]. rewrite get_word1. opt. rewrite set_words.
    unfold pair_of. by destruct (enc_pair_words w0 w1 W0 W1) as [-> ->].
  - rewrite get_word1. opt. rewrite T3. destruct (_ && _); [|done]. rewrite set_words. unfold BR_CONVERT_VAL_ENC. rewrite enc_address, mark_word by done. done.
Qed.

Lemma dec_auipc : w0 mod 128 = 0x17 -> riscv_dec_auipc pc (pre ++ l ++ post) p (load_value h) = stepped false.
Proof using Hb Hc.
  intros E. destruct words_widths as (_ & W0 & W1). destruct (auipc_at E) as (_ & T2 & T3 & T4). rewrite stepped_kind, kind_auipc by done. unfold riscv_dec_auipc.
  rewrite get_word0. opt. rewrite T2. destruct (x0_or_x2 (w0 / 128 mod 32)).
  - rewrite T4 by done. destruct ((w0 / 128 mod 32 =? 2) && (w0 / 2 ^ 12 mod 4 =? 3) && negb (x0_or_x2 (w0 / 2 ^ 27))); [|done]. rewrite get_word1. opt. rewrite set_words. unfold BR_CONVERT_VAL_DEC. fold c.
    destruct (dec_pair_words w0 (u32 (Z7_BSWAP32 w1 - c)) W0) as [-> ->]; [apply wrap_in_width; lia|done].
  - rewrite get_word1. opt. rewrite T3. destruct (_ && _); cbn [negb]; [|done]. rewrite set_words. by rewrite dec_address, mark_word.
Qed.

Lemma jal_at : w0 mod 128 = 0x6f ->
  (load_value h &&& 8) = 0 /\ ((u32 (load_value h - 0x100) &&& 0xd80) =? 0) = ((w0 / 128 mod 32 =? 1) || (w0 / 128 mod 32 =? 5)) /\
  ((u32 (load_value h - (0x100 - RISCV_DELTA_7F)) &&& 0xd80) =? 0) = ((w0 / 128 mod 32 =? 1) || (w0 / 128 mod 32 =? 5)).
Proof using Hb Hc.
  intros E. destruct words_widths as (Hb0 & _). destruct (halfword_fields _ _ _ _ Hb0) as (Hh & HH & F1 & F2 & _). fold w0 h in F1, F2, Hh, HH.
  destruct (load_value_head h Hh) as (_ & -> & _); [|by rewrite F1]. destruct (jal_tests (h / 128) HH) as (T1 & T2 & T3 & _). by rewrite <-F2.
Qed.

Lemma enc_instr : is_head l = true -> riscv_enc_instr pc (pre ++ l ++ post) p (load_value h) = stepped true.
Proof using Hb Hc.
  intros Hd. destruct words_widths as (Hb0 & _). destruct (load_fields _ _ _ _ Hb0) as (_ & _ & Elow & _). fold w0 in Elow. unfold is_head, l in Hd. rewrite <-Elow in Hd.
  unfold riscv_enc_instr. rewrite get_word0. opt. apply orb_prop in Hd as [E%Z.eqb_eq|E%Z.eqb_eq].
  - destruct (jal_at E) as (-> & -> & _). cbn [Z.eqb]. rewrite stepped_kind, kind_jal by done. destruct (_ || _); cbn [negb]; [|done].
    exact (enc_jal pc pre b0 b1 b2 b3 (b4 :: b5 :: b6 :: b7 :: t8 ++ post) Hb0 Hc).
  - destruct (auipc_at E) as (-> & _). cbn [Z.eqb]. by apply enc_auipc.
Qed.

Lemma dec_instr : is_head l = true -> riscv_dec_instr pc (pre ++ l ++ post) p (load_value h) = stepped false.
Proof using Hb Hc.
  intros Hd. destruct words_widths as (Hb0 & _). destruct (load_fields _ _ _ _ Hb0) as (_ & _ & Elow & _). fold w0 in Elow. unfold is_head, l in Hd. rewrite <-Elow in Hd.
  unfold riscv_dec_instr. apply orb_prop in Hd as [E%Z.eqb_eq|E%Z.eqb_eq].
  - destruct (jal_at E) as (-> & _ & T). cbn [Z.eqb]. cbv zeta. rewrite T. rewrite stepped_kind, kind_jal by done. destruct (_ || _) eqn:Et; cbn [negb]; [|done].
    apply orb_prop in Et as Et. rewrite !Z.eqb_eq in Et. exact (dec_jal pc pre b0 b1 b2 b3 (b4 :: b5 :: b6 :: b7 :: t8 ++ post) Hb0 Hc E Et).
  - destruct (auipc_at E) as (-> & _). cbn [Z.eqb]. by apply dec_auipc.
Qed.
End Words.

(** ** The search *)

Fixpoint no_heads (l : list Z) : bool :=
  match l with b0 :: _ :: t => negb (is_head [b0]) && no_heads t | _ => true end.

Lemma load_at pre b0 b1 l : bytes [b0; b1] ->
  riscv_load (pre ++ b0 :: b1 :: l) (Z.of_nat (length pre)) = Some (load_value (le_load [b0; b1])) /\
  ((load_value (le_load [b0; b1]) &&& 0x77) =? 0) = is_head (b0 :: b1 :: l).
Proof.
  intros Hb. unfold riscv_load. rewrite GetUi16_at by done. opt. split; [done|]. unfold bytes in Hb. rewrite !Forall_cons in Hb. destruct Hb as (H0 & H1 & _). unfold in_width in *.
  destruct (load_value_head (le_load [b0; b1])) as (-> & _); [cbn [le_load]; lia|]. unfold is_head. assert (le_load [b0; b1] mod 128 = b0 mod 128) as -> by (cbn [le_load]; clear - H0 H1; euclid). done.
Qed.

(** What comes next: halfwords that start nothing, then a place where the code stops or the end. *)
Lemma find_head e pc n : forall p l, (length l < n)%nat -> Nat.Even (length l) ->
  exists cs x, l = cs ++ x /\ no_heads cs = true /\ Nat.Even (length cs) /\ ((length x < 8)%nat \/ ((8 <= length x)%nat /\ is_head x = true)) /\
    (cs = [] \/ (6 <= length x)%nat) /\
    riscv_map e pc p l = cs ++ riscv_map e pc (p + Z.of_nat (length cs)) x.
Proof.
  induction n as [|n IH]; intros p l Hn He; [lia|]. destruct (decide (length l < 8)%nat) as [Hs|Hs].
  { exists [], l. do 3 (split; [done || by exists 0%nat|]). split; [by left|]. split; [by left|]. cbn. by rewrite Z.add_0_r. }
  destruct (is_head l) eqn:Eh.
  { exists [], l. do 3 (split; [done || by exists 0%nat|]). split; [right; split; [lia|done]|]. split; [by left|]. cbn. by rewrite Z.add_0_r. }
  rewrite map_step by lia. destruct l as [|b0 [|b1 [|b2 [|b3 [|b4 [|b5 [|b6 [|b7 t8]]]]]]]]; try (cbn in Hs; lia).
  assert (kind_of (le_load [b0; b1; b2; b3]) (le_load [b4; b5; b6; b7]) = Pass 2) as Ek.
  { unfold kind_of. assert (le_load [b0; b1; b2; b3] mod 128 = b0 mod 128) as -> by (cbn [le_load]; clear; euclid). unfold is_head in Eh. apply orb_false_iff in Eh as [-> ->]. done. }
  cbn [riscv_step]. rewrite Ek. cbn [fst snd]. set (t := b2 :: b3 :: b4 :: b5 :: b6 :: b7 :: t8) in *.
  destruct (IH (p + Z.of_nat (length [b0; b1])) t) as (cs & x & Et & H1 & H2 & H3 & H4 & E); [cbn in Hn |- *; lia|destruct He as [k Hk]; exists (k - 1)%nat; cbn in Hk |- *; lia|].
  exists (b0 :: b1 :: cs), x. split; [by rewrite Et|]. split; [cbn [is_head] in Eh; cbn [no_heads is_head]; by rewrite Eh, H1|]. split; [destruct H2 as [k Hk]; exists (S k); cbn; lia|]. split; [done|].
  split; [right; destruct H4 as [->|?]; [cbn [app] in Et; rewrite <-Et; unfold t; cbn; lia|done]|]. rewrite E. cbn [app length]. do 4 f_equal. lia.
Qed.

(** The search goes over them, and over the rest the same way whatever comes before the place. *)
Lemma scan_found lim post b0 b1 x n : forall pre cs fuel,
  (length cs < n)%nat -> bytes cs -> bytes [b0; b1] -> no_heads cs = true -> Nat.Even (length cs) -> is_head (b0 :: b1 :: x) = true ->
  lim = Z.of_nat (length pre + length cs + length (b0 :: b1 :: x)) - 6 -> (6 <= length x)%nat -> (length cs < fuel)%nat ->
  loop fuel (riscv_scan_turn lim (pre ++ cs ++ (b0 :: b1 :: x) ++ post)) (Z.of_nat (length pre)) = Some (inl (Z.of_nat (length pre + length cs), load_value (le_load [b0; b1]))).
Proof.
  induction n as [|n IH]; intros pre cs fuel Hn Hb Hb0 Hno He Hd Hlim Hx Hf; [lia|]. destruct fuel as [|fuel]; [lia|]. cbn [loop]. unfold riscv_scan_turn at 1.
  cbn [length] in Hlim. destruct (Z.leb_spec lim (Z.of_nat (length pre))); [lia|].
  destruct cs as [|c0 [|c1 cs]]; [|by destruct He as [[|k] Hk]; cbn in Hk; lia|].
  { cbn [app length]. destruct (load_at pre b0 b1 (x ++ post) Hb0) as [-> Eh]. opt. change (is_head (b0 :: b1 :: x ++ post)) with (is_head (b0 :: b1 :: x)) in Eh. rewrite Eh, Hd. by rewrite Nat.add_0_r. }
  apply (Forall_app _ [c0; c1]) in Hb as [Hc0 Hb]. cbn [no_heads] in Hno. apply andb_true_iff in Hno as [Hh Hno]. apply negb_true_iff in Hh.
  assert (Nat.Even (length cs)) as He' by (destruct He as [k Hk]; exists (k - 1)%nat; cbn in Hk; lia). cbn [length] in Hn, Hlim, Hf.
  change (pre ++ (c0 :: c1 :: cs) ++ (b0 :: b1 :: x) ++ post) with (pre ++ c0 :: c1 :: cs ++ (b0 :: b1 :: x) ++ post).
  destruct (load_at pre c0 c1 (cs ++ (b0 :: b1 :: x) ++ post) Hc0) as [-> Eh]. opt. rewrite Eh. change (is_head (c0 :: _)) with (is_head [c0]). rewrite Hh.
  assert (pre ++ c0 :: c1 :: cs ++ (b0 :: b1 :: x) ++ post = (pre ++ [c0; c1]) ++ cs ++ (b0 :: b1 :: x) ++ post) as -> by (by rewrite <-app_assoc).
  assert (Z.of_nat (length pre) + RISCV_INSTR_SIZE = Z.of_nat (length (pre ++ [c0; c1]))) as -> by (rewrite length_app; cbn [length]; unfold RISCV_INSTR_SIZE; lia).
  destruct cs as [|c2 [|c3 cs]]; [|by destruct He' as [[|k] Hk]; cbn in Hk; lia|].
  - cbn [app]. destruct (load_at (pre ++ [c0; c1]) b0 b1 (x ++ post) Hb0) as [-> Eh']. opt. change (is_head (b0 :: b1 :: x ++ post)) with (is_head (b0 :: b1 :: x)) in Eh'. rewrite Eh', Hd.
    unfold RISCV_INSTR_SIZE. cbv zeta. destruct (Z.leb_spec lim (Z.of_nat (length pre) + 2 * 2 - 2)); [cbn [length] in *; lia|]. do 4 f_equal. cbn [length]. lia.
  - apply (Forall_app _ [c2; c3]) in Hb as [Hc2 Hb]. cbn [no_heads] in Hno. apply andb_true_iff in Hno as [Hh' Hno]. apply negb_true_iff in Hh'.
    change ((pre ++ [c0; c1]) ++ (c2 :: c3 :: cs) ++ (b0 :: b1 :: x) ++ post) with ((pre ++ [c0; c1]) ++ c2 :: c3 :: cs ++ (b0 :: b1 :: x) ++ post).
    destruct (load_at (pre ++ [c0; c1]) c2 c3 (cs ++ (b0 :: b1 :: x) ++ post) Hc2) as [-> Eh']. opt. rewrite Eh'. change (is_head (c2 :: _)) with (is_head [c2]). rewrite Hh'. cbv zeta.
    assert ((pre ++ [c0; c1]) ++ c2 :: c3 :: cs ++ (b0 :: b1 :: x) ++ post = (pre ++ [c0; c1; c2; c3]) ++ cs ++ (b0 :: b1 :: x) ++ post) as -> by (by rewrite <-!app_assoc).
    assert (Z.of_nat (length pre) + RISCV_INSTR_SIZE * 2 = Z.of_nat (length (pre ++ [c0; c1; c2; c3]))) as -> by (rewrite length_app; cbn [length]; unfold RISCV_INSTR_SIZE; lia).
    cbn [length] in Hn, Hlim, Hf, He'. rewrite IH; try done; try (rewrite ?length_app; cbn [length]; lia).
    + do 4 f_equal. rewrite length_app. cbn [length]. lia.
    + destruct He' as [k Hk]. exists (k - 1)%nat. lia.
Qed.

(** Where nothing starts up to the end, the search ends there, and where depends on the rest only. *)
Lemma scan_end lim post x n : forall cs m,
  (length cs < n)%nat -> bytes (cs ++ x) -> no_heads cs = true -> Nat.Even (length cs) -> (length x < 8)%nat -> Nat.Even (length x) ->
  lim = Z.of_nat (m + length cs + length x) - 6 ->
  exists q, (forall pre fuel, length pre = m -> (length cs < fuel)%nat -> loop fuel (riscv_scan_turn lim (pre ++ cs ++ x ++ post)) (Z.of_nat m) = Some (inr q)) /\
    Z.max lim (Z.of_nat m) <= q <= Z.of_nat (m + length cs + length x).
Proof.
  induction n as [|n IH]; intros cs m Hn Hb Hno He Hx Hex Hlim; [lia|]. destruct (Z.leb_spec lim (Z.of_nat m)) as [Hle|Hgt].
  { exists (Z.of_nat m). split; [|lia]. intros pre [|fuel] Hm Hf; [lia|]. cbn [loop]. unfold riscv_scan_turn at 1. by rewrite (proj2 (Z.leb_le _ _)). }
  destruct Hex as [k Hk]. destruct cs as [|c0 [|c1 cs]]; [cbn in Hlim; lia|by destruct He as [[|i] Hi]; cbn in Hi; lia|].
  apply (Forall_app _ [c0; c1]) in Hb as [Hc0 Hb]. cbn [no_heads] in Hno. apply andb_true_iff in Hno as [Hh Hno]. apply negb_true_iff in Hh.
  assert (Nat.Even (length cs)) as He' by (destruct He as [i Hi]; exists (i - 1)%nat; cbn in Hi; lia). cbn [length] in Hn, Hlim.
  (* the first halfword of the two *)
  assert (forall pre fuel, length pre = m -> loop (S fuel) (riscv_scan_turn lim (pre ++ (c0 :: c1 :: cs) ++ x ++ post)) (Z.of_nat m) =
    (a ← riscv_load ((pre ++ [c0; c1]) ++ cs ++ x ++ post) (Z.of_nat (length (pre ++ [c0; c1])));
     if (a &&& 0x77) =? 0 then (if lim <=? Z.of_nat m + 2 then Some (inr (Z.of_nat m + 2)) else Some (inl (Z.of_nat m + 2, a)))
     else loop fuel (riscv_scan_turn lim ((pre ++ [c0; c1]) ++ cs ++ x ++ post)) (Z.of_nat m + 4))) as Hturn.
  { intros pre fuel Hm. cbn [loop]. unfold riscv_scan_turn at 1. rewrite (proj2 (Z.leb_gt _ _)) by done. cbn [app]. rewrite <-Hm.
    destruct (load_at pre c0 c1 (cs ++ x ++ post) Hc0) as [-> Eh]. opt. rewrite Eh. change (is_head (c0 :: _)) with (is_head [c0]). rewrite Hh.
    assert (pre ++ c0 :: c1 :: cs ++ x ++ post = (pre ++ [c0; c1]) ++ cs ++ x ++ post) as -> by (by rewrite <-app_assoc).
    assert (Z.of_nat (length pre) + RISCV_INSTR_SIZE = Z.of_nat (length (pre ++ [c0; c1]))) as -> by (rewrite length_app; cbn [length]; unfold RISCV_INSTR_SIZE; lia).
    destruct (riscv_load _ _) as [a|]; [|done]. opt. unfold RISCV_INSTR_SIZE. cbv zeta. replace (Z.of_nat (length pre) + 2 * 2 - 2) with (Z.of_nat (length pre) + 2) by lia.
    destruct ((a &&& 0x77) =? 0); [by destruct (lim <=? Z.of_nat (length pre) + 2)|done]. }
  destruct cs as [|c2 [|c3 cs]]; [|by destruct He' as [[|i] Hi]; cbn in Hi; lia|].
  - cbn [length] in *. destruct x as [|y0 [|y1 x]]; try (cbn in Hlim; lia). exists (if is_head (y0 :: y1 :: x) then Z.of_nat m + 2 else Z.of_nat m + 4).
    split; [|cbn [length] in *; destruct (is_head (y0 :: y1 :: x)); lia]. intros pre [|[|fuel]] Hm Hf; [lia|lia|]. rewrite Hturn by done. cbn [app].
    apply (Forall_app _ [y0; y1]) in Hb as [Hy _]. destruct (load_at (pre ++ [c0; c1]) y0 y1 (x ++ post) Hy) as [-> Eh]. opt. rewrite Eh. change (is_head (y0 :: _)) with (is_head [y0]). change (is_head (y0 :: y1 :: x)) with (is_head [y0]).
    cbn [length] in *. destruct (is_head [y0]); [by rewrite (proj2 (Z.leb_le _ _)) by lia|]. cbn [loop]. unfold riscv_scan_turn at 1. by rewrite (proj2 (Z.leb_le _ _)) by lia.
  - apply (Forall_app _ [c2; c3]) in Hb as [Hc2 Hb]. cbn [no_heads] in Hno. apply andb_true_iff in Hno as [Hh' Hno]. apply negb_true_iff in Hh'. cbn [length] in Hn, Hlim.
    destruct (IH cs (m + 4)%nat) as (q & Hq & Hb1); [lia|done|done|destruct He' as [i Hi]; exists (i - 1)%nat; cbn in Hi; lia|done|by exists k|lia|].
    exists q. split; [|cbn [length]; lia]. intros pre [|fuel] Hm Hf; [cbn in Hf; lia|]. rewrite Hturn by done. cbn [app].
    destruct (load_at (pre ++ [c0; c1]) c2 c3 (cs ++ x ++ post) Hc2) as [-> Eh]. opt. rewrite Eh. change (is_head (c2 :: _)) with (is_head [c2]). rewrite Hh'.
    assert ((pre ++ [c0; c1]) ++ c2 :: c3 :: cs ++ x ++ post = (pre ++ [c0; c1; c2; c3]) ++ cs ++ x ++ post) as -> by (by rewrite <-!app_assoc).
    replace (Z.of_nat m + 4) with (Z.of_nat (m + 4)) by lia. apply Hq; [rewrite length_app; cbn; lia|cbn [length] in Hf; lia].
Qed.

(** ** The loop *)

Definition riscv_instr (e : bool) : Z -> list Z -> Z -> Z -> option (list Z * Z) := if e then riscv_enc_instr else riscv_dec_instr.

Lemma riscv_instr_step e pc pre b0 b1 b2 b3 b4 b5 b6 b7 t8 post :
  let l := b0 :: b1 :: b2 :: b3 :: b4 :: b5 :: b6 :: b7 :: t8 in
  let p := Z.of_nat (length pre) in
  bytes l -> BR_PC_GET pc p mod 2 = 0 -> is_head l = true ->
  riscv_instr e pc (pre ++ l ++ post) p (load_value (le_load [b0; b1])) =
  let '(d, r) := riscv_step e pc p l in Some (pre ++ d ++ r ++ post, p + Z.of_nat (length d)).
Proof. intros l p Hb Hc Hd. destruct e; [by apply enc_instr|by apply dec_instr]. Qed.

(** A turn that finds something. *)
Lemma riscv_turn_found e pc lim pre cs x post :
  bytes (cs ++ x) -> no_heads cs = true -> Nat.Even (length cs) -> is_head x = true -> (8 <= length x)%nat ->
  BR_PC_GET pc (Z.of_nat (length (pre ++ cs))) mod 2 = 0 -> lim = Z.of_nat (length pre + length cs + length x) - 6 ->
  riscv_turn (riscv_instr e) lim pc (pre ++ cs ++ x ++ post, Z.of_nat (length pre)) =
  let '(d, r) := riscv_step e pc (Z.of_nat (length (pre ++ cs))) x in Some (inl (pre ++ cs ++ d ++ r ++ post, Z.of_nat (length (pre ++ cs ++ d)))).
Proof.
  intros Hb Hno He Hd Hx Hc Hlim. apply Forall_app in Hb as [Hb Hbx]. destruct x as [|b0 [|b1 [|b2 [|b3 [|b4 [|b5 [|b6 [|b7 t8]]]]]]]]; try (cbn in Hx; lia).
  unfold riscv_turn, riscv_scan. pose proof Hbx as Hb01. apply (Forall_app _ [b0; b1]) in Hb01 as [Hb01 _].
  rewrite (scan_found lim post b0 b1 _ (S (length cs))); try done; try (cbn [length] in *; lia). opt.
  pose proof (riscv_instr_step e pc (pre ++ cs) b0 b1 b2 b3 b4 b5 b6 b7 t8 post Hbx Hc Hd) as E. rewrite <-app_assoc, length_app in E. rewrite E.
  rewrite length_app. destruct (riscv_step _ _ _ _) as [d r]. opt. rewrite <-!app_assoc. do 3 f_equal. rewrite !length_app. lia.
Qed.

Lemma riscv_turn_end lim cs x post m :
  bytes (cs ++ x) -> no_heads cs = true -> Nat.Even (length cs) -> (length x < 8)%nat -> Nat.Even (length x) -> cs = [] \/ (6 <= length x)%nat ->
  lim = Z.of_nat (m + length cs + length x) - 6 ->
  exists q, (forall e pc pre, length pre = m -> riscv_turn (riscv_instr e) lim pc (pre ++ (cs ++ x) ++ post, Z.of_nat m) = Some (inr (pre ++ (cs ++ x) ++ post, q))) /\
    Z.max lim (Z.of_nat m) <= q <= Z.of_nat (m + length cs + length x).
Proof.
  intros Hb Hno He Hx Hex H6 Hlim. destruct (scan_end lim post x (S (length cs)) cs m ltac:(lia) Hb Hno He Hx Hex Hlim) as (q & Hq & Hbq). exists q. split; [|done].
  intros e pc pre Hm. unfold riscv_turn, riscv_scan. rewrite <-app_assoc, Hq; [done|done|]. destruct H6 as [->|H6]; cbn [length]; lia.
Qed.

Lemma even_pc pc m : pc mod 2 = 0 -> Nat.Even m -> BR_PC_GET pc (Z.of_nat m) mod 2 = 0.
Proof. intros Hp [k ->]. unfold BR_PC_GET, wrap. rewrite Z.mod_mod_divide by (by exists (2 ^ 31)). rewrite Zplus_mod, Hp. rewrite Nat2Z.inj_mul, (Z.mul_comm (Z.of_nat 2)), Z.mod_mul by lia. done. Qed.

(** Both directions stop at the same places, and each leaves what the other one had. *)
Lemma riscv_run e pc lim post n : forall l m,
  (length l < n)%nat -> bytes l -> Nat.Even (length l) -> Nat.Even m -> pc mod 2 = 0 -> lim = Z.of_nat (m + length l) - 6 ->
  exists q, Z.max lim (Z.of_nat m) <= q <= Z.of_nat (m + length l) /\
    drop (Z.to_nat q - m) (riscv_map e pc (Z.of_nat m) l) = drop (Z.to_nat q - m) l /\ forall pre pre' fuel, length pre = m -> length pre' = m -> (length l < fuel)%nat ->
    loop fuel (riscv_turn (riscv_instr e) lim pc) (pre ++ l ++ post, Z.of_nat m) = Some (pre ++ riscv_map e pc (Z.of_nat m) l ++ post, q) /\
    loop fuel (riscv_turn (riscv_instr (negb e)) lim pc) (pre' ++ riscv_map e pc (Z.of_nat m) l ++ post, Z.of_nat m) = Some (pre' ++ l ++ post, q).
Proof.
  induction n as [|n IH]; intros l m Hn Hb He Hm Hpc Hlim; [lia|].
  destruct (find_head e pc (S (length l)) (Z.of_nat m) l ltac:(lia) He) as (cs & x & -> & Hno & Hcs & Hx & H6 & ->). rewrite length_app in Hn, He, Hlim.
  assert (Nat.Even (length x)) as Hex by (destruct He as [i Hi], Hcs as [j Hj]; exists (i - j)%nat; lia).
  assert (forall (b : list Z * Z -> option (list Z * Z + list Z * Z)) fuel s, (0 < fuel)%nat -> loop fuel b s = match b s with Some (inl s') => loop (pred fuel) b s' | Some (inr r) => Some r | None => None end) as Hloop by (intros b [|?] s ?; [lia|done]).
  destruct Hx as [Hx|[Hx Hd]].
  - rewrite map_end by done. destruct (riscv_turn_end lim cs x post m Hb Hno Hcs Hx Hex H6 ltac:(lia)) as (q & Hq & Hbq). exists q. split; [rewrite length_app; lia|]. split; [done|].
    intros pre pre' fuel Hp Hp' Hf. rewrite !Hloop, !Hq by (done || lia). done.
  - set (p := Z.of_nat m + Z.of_nat (length cs)). pose proof Hb as Hbx. apply Forall_app in Hbx as [Hbc Hbx].
    pose proof (step_undo e pc p x Hbx Hx) as Hundo. rewrite (map_step e pc p x) by done. pose proof (map_step e pc p x Hx) as Hstep.
    destruct x as [|b0 x]; [cbn in Hx; lia|]. destruct (step_first e pc p b0 x ltac:(cbn in Hx; lia) Hbx) as (b & t & Ed & Hbt & Elow & Hed & Hl8).
    destruct (riscv_step e pc p (b0 :: x)) as [d r] eqn:Es. cbn [fst snd] in *. destruct Hundo as (u & Eu & Hu & Hback). set (r' := riscv_map e pc (p + Z.of_nat (length d)) r) in *.
    assert (length (b0 :: x) = length d + length r)%nat as Elen by (rewrite Eu, length_app; lia).
    assert (0 < length d)%nat as Hd0 by (rewrite Ed; cbn; lia). rewrite <-Ed in Hed, Hbt.
    assert (bytes r) as Hbr by (rewrite Eu in Hbx; by apply Forall_app in Hbx as [_ ?]).
    destruct (IH r (m + length cs + length d)%nat) as (q & Hbq & Hdrop & Hq); [lia|done|destruct Hex as [i Hi], Hed as [j Hj]; exists (i - j)%nat; lia| |done|lia|].
    { destruct Hm as [i Hi], Hcs as [j Hj], Hed as [k Hk]. exists (i + j + k)%nat. lia. }
    replace (Z.of_nat (m + length cs + length d)) with (p + Z.of_nat (length d)) in Hq, Hdrop by (unfold p; lia). fold r' in Hq, Hdrop.
    exists q. split; [rewrite length_app; lia|]. split.
    { rewrite Eu, !app_assoc, !drop_app_ge by (rewrite length_app; lia). rewrite !length_app, Hu.
      replace (Z.to_nat q - m - (length cs + length d))%nat with (Z.to_nat q - (m + length cs + length d))%nat by lia. done. }
    intros pre pre' fuel Hp Hp' Hf. rewrite length_app in Hf.
    assert (forall pre0 : list Z, length pre0 = m -> Z.of_nat (length (pre0 ++ cs)) = p) as Ep by (intros pre0 H0; rewrite length_app; unfold p; lia).
    assert (BR_PC_GET pc p mod 2 = 0) as Hcp by (unfold p; rewrite <-Nat2Z.inj_add; apply even_pc; [done|]; destruct Hm as [i Hi], Hcs as [j Hj]; exists (i + j)%nat; lia).
    destruct (Hq (pre ++ cs ++ d) (pre' ++ cs ++ u) (pred fuel)) as [A B]; [rewrite !length_app; lia|rewrite !length_app; lia|lia|]. split.
    + rewrite Hloop by lia. rewrite <-Hp at 1. rewrite <-app_assoc, riscv_turn_found; [|done..| |lia]; rewrite Ep by done; [|done].
      rewrite Es, !length_app, Hp, <-!app_assoc. replace (Z.of_nat (m + (length cs + length d))) with (p + Z.of_nat (length d)) by (unfold p; lia). rewrite <-!app_assoc in A. exact A.
    + assert (length (d ++ r') = length (b0 :: x)) as El by (rewrite length_app; unfold r'; rewrite riscv_map_length by done; lia).
      assert (bytes (d ++ r')) as Hbd by (apply Forall_app_2; [done|by apply riscv_map_bytes]).
      rewrite Hloop by lia. rewrite <-Hp' at 1. rewrite <-(app_assoc cs), riscv_turn_found; try (rewrite Ep by done); [|by apply Forall_app_2|done|done| |lia|done|lia].
      * rewrite Hback, !length_app, Hp', <-!app_assoc. replace (Z.of_nat (m + (length cs + length u))) with (p + Z.of_nat (length d)) by (unfold p; lia). rewrite Eu, <-!app_assoc. rewrite <-!app_assoc in B. exact B.
      * rewrite Ed. unfold is_head in *. cbn [app]. by rewrite Elow.
Qed.

(** ** Theorems *)

Definition BranchConv_RISCV (encoding : bool) : list Z -> Z -> Z -> option (list Z * Z) :=
  if encoding then BranchConv_RISCV_Enc else BranchConv_RISCV_Dec.

Lemma RISCV_conv e : BranchConv_RISCV e = riscv_conv (riscv_instr e).
Proof. by destruct e. Qed.

(** C17: The RISC-V encoder and decoder are inverse to each other.  For any data, size and even
    program counter a call of either returns; the other one, called with what it left, gives
    the data back and returns the same offset.  That leaves at most seven bytes to the next
    call, from there on the data are what they were, and what is before it is the data with
    each instruction rewritten as the reference says. *)
Theorem BranchConv_RISCV_roundtrip (encoding : bool) (data : list Z) (size pc : Z)
    (Hdata : bytes data) (Hsize : 0 <= size <= Z.of_nat (length data)) (Hpc : pc mod 2 = 0) :
  let k := Z.to_nat (size - size mod 2) in
  let data' := riscv_map encoding pc 0 (take k data) ++ drop k data in
  exists processed,
    BranchConv_RISCV encoding data size pc = Some (data', processed) /\
    BranchConv_RISCV (negb encoding) data' size pc = Some (data, processed) /\
    bytes data' /\ length data' = length data /\ drop (Z.to_nat processed) data' = drop (Z.to_nat processed) data /\
    0 <= processed <= size /\ size <= processed + 7.
Proof.
  intros k data'. assert (size mod 2 = 0 \/ size mod 2 = 1) as Hm2 by (pose proof (Z.mod_pos_bound size 2); lia). set (l := take k data) in *. assert (length l = k) as Hl by (unfold l; rewrite length_take; lia).
  assert (bytes l) as Hbl by (by apply bytes_take). assert (length (riscv_map encoding pc 0 l) = k) as Hml by (by rewrite riscv_map_length).
  assert (bytes data' /\ length data' = length data) as [Hb' Hl'].
  { unfold data'. split; [apply Forall_app_2; [by apply riscv_map_bytes|by apply bytes_drop]|]. rewrite length_app, length_drop, Hml. lia. }
  rewrite !RISCV_conv. unfold riscv_conv. unfold RISCV_INSTR_SIZE. destruct (Z.leb_spec (size - size mod 2) 6) as [Hle|Hgt].
  { assert (data' = data) as -> by (unfold data'; rewrite map_end by lia; unfold l; by rewrite take_drop). exists 0. split_and!; try done; lia. }
  assert (Nat.Even (length l)) as He by (exists (Z.to_nat (size / 2)); rewrite Hl; unfold k; pose proof (Z.div_mod size 2); lia).
  destruct (riscv_run encoding pc (size - size mod 2 - 6) (drop k data) (S k) l 0 ltac:(lia) Hbl He ltac:(by exists 0%nat) Hpc ltac:(lia)) as (q & Hq & Hdrop & Hrun).
  destruct (Hrun [] [] (S (Z.to_nat (size - size mod 2)))) as [A B]; [done|done|lia|]. cbn [app] in A, B. change (Z.of_nat 0) with 0 in *. fold data' in A, B.
  assert (l ++ drop k data = data) as El by (unfold l; by rewrite take_drop). rewrite El in A, B.
  exists q. rewrite A, B. split; [done|]. split; [done|]. split; [done|]. split; [done|]. rewrite Nat.sub_0_r in Hdrop. split; [|lia].
  unfold data'. rewrite drop_app_le, Hdrop, <-drop_app_le by lia. unfold l. by rewrite take_drop.
Qed.

Lemma BranchConv_RISCV_roundtrip_witness :
  exists processed,
    BranchConv_RISCV true [0xef; 0x10; 0x80; 0x1d; 0x97; 0x80; 0xfe; 0x00; 0x83; 0xa3; 0xb6; 0x01] 12 0x1000 =
      Some (riscv_map true 0x1000 0 [0xef; 0x10; 0x80; 0x1d; 0x97; 0x80; 0xfe; 0x00; 0x83; 0xa3; 0xb6; 0x01] ++ [], processed) /\
    BranchConv_RISCV (negb true) (riscv_map true 0x1000 0 [0xef; 0x10; 0x80; 0x1d; 0x97; 0x80; 0xfe; 0x00; 0x83; 0xa3; 0xb6; 0x01] ++ []) 12 0x1000 =
      Some ([0xef; 0x10; 0x80; 0x1d; 0x97; 0x80; 0xfe; 0x00; 0x83; 0xa3; 0xb6; 0x01], processed).
Proof.
  destruct (BranchConv_RISCV_roundtrip true [0xef; 0x10; 0x80; 0x1d; 0x97; 0x80; 0xfe; 0x00; 0x83; 0xa3; 0xb6; 0x01] 12 0x1000
    ltac:(byte_list) ltac:(cbn; lia) eq_refl) as (q & H1 & H2 & _).
  exists q. split; [exact H1|exact H2].
Defined.
