(* ===== verification/Sort.v ===== *)
(** * Heap sort

    HeapSort (src/native/sevenzip_bridge/7z2604-src/C/Sort.c): a binary heap at the indices
    1 .. size, the largest item in p[0], and a sift that moves a hole down.  [size_t] indices
    are [nat]: an array of [size] words bounds [2 * size] far below the width.  The prefetch
    macros have no effect on the values. *)

From stdpp Require Import base numbers list.
From Stdlib Require Import ZArith Lia Sorting.Sorted.
From S2P Require Import Prelude.
Local Open Scope nat_scope.

(** ** The code *)

(** One turn of the loop of HeapSortDown: the hole [k] moves to its larger child. *)
Definition HeapSortDown_turn (size : nat) (temp : Z) '((p, k) : list Z * nat)
  : option (list Z * nat + list Z * nat) :=
  let s := k * 2 in
  if size <=? s then
    if s =? size then
      n0 ← p !! s;
      p ← wr p k n0;
      Some (inr (p, if (temp <? n0)%Z then s else k))
    else Some (inr (p, k))
  else
    n0 ← p !! (k * 2);
    n1 ← p !! (k * 2 + 1);
    let s := s + (if (n0 <? n1)%Z then 1 else 0) in
    n0 ← p !! s;
    if (n0 <=? temp)%Z then Some (inr (p, k))
    else p ← wr p k n0; Some (inl (p, s)).

Definition HeapSortDown (p : list Z) (k size : nat) (temp : Z) : option (list Z) :=
  '(p, k) ← loop (S size) (HeapSortDown_turn size temp) (p, k);
  wr p k temp.

(** Stage 1: the heap, then [p[0]]. *)
Definition sort_heapify (p : list Z) (size : nat) : option (list Z) :=
  '(p, _) ← do_while (S (size / 2))
    (fun '(p, i) => temp ← p !! i; p ← HeapSortDown p i size temp; Some (p, i - 1))
    (fun '(p, i) => negb (i =? 0)) (p, size / 2);
  temp ← p !! 0;
  a1 ← p !! 1;
  if (temp <? a1)%Z then p ← wr p 0 a1; HeapSortDown p 1 size temp
  else Some p.

(** Stage 2: the largest item to the end, the item there into the heap. *)
Definition sort_extract '((p, size) : list Z * nat) : option (list Z * nat) :=
  temp ← p !! size;
  a2 ← p !! 2;
  a3 ← p !! 3;
  let k := if (a2 <? a3)%Z then 3 else 2 in
  a0 ← p !! 0;
  p ← wr p size a0;
  let size := size - 1 in
  a1 ← p !! 1;
  p ← wr p 0 a1;
  ak ← p !! k;
  p ← wr p 1 ak;
  p ← HeapSortDown p k size temp;
  Some (p, size).

(** The last four items. *)
Definition sort_last (p : list Z) : option (list Z) :=
  a2 ← p !! 2;
  a3 ← p !! 3;
  let k := if (a2 <? a3)%Z then 1 else 0 in
  a1 ← p !! 1;
  p ← wr p 2 a1;
  a0 ← p !! 0;
  p ← wr p 3 a0;
  p ← wr p k a3;
  wr p (1 - k) a2.

Definition HeapSort (p : list Z) (size : nat) : option (list Z) :=
  if size <? 2 then Some p
  else if size =? 2 then
    a0 ← p !! 0;
    a1 ← p !! 1;
    let k := if (a1 <? a0)%Z then 1 else 0 in
    p ← wr p k a0;
    wr p (1 - k) a1
  else
    let size := size - 1 in
    p ← sort_heapify p size;
    if size <? 3 then
      a0 ← p !! 0;
      a2 ← p !! 2;
      p ← wr p 0 a2;
      wr p 2 a0
    else
      '(p, _) ←
        (if negb (size =? 3) then
           do_while (S size) sort_extract (fun '(_, size) => negb (size =? 3)) (p, size)
         else Some (p, size));
      sort_last p.

(** ** The hole *)

Implicit Types p q : list Z.

Lemma lookup_at p i : i < length p -> p !! i = Some (p !!! i).
Proof. apply list_lookup_lookup_total_lt. Qed.

(** The array with the item in hand at its hole is what the sift preserves. *)
Lemma hole_permutation p k t : k < length p -> <[k := t]> p ≡ₚ t :: delete k p.
Proof.
  intros Hk. rewrite (delete_Permutation (<[k := t]> p) k t) by (by apply list_lookup_insert_eq).
  constructor.
  assert (delete k (<[k := t]> p) = delete k p) as ->; [|done].
  apply list_eq. intros i. destruct (decide (i < k)).
  - rewrite !list_lookup_delete_lt by lia. by rewrite list_lookup_insert_ne by lia.
  - rewrite !list_lookup_delete_ge by lia. by rewrite list_lookup_insert_ne by lia.
Qed.

Lemma hole_move p k s t : k <> s -> k < length p -> s < length p ->
  <[s := t]> (<[k := p !!! s]> p) ≡ₚ <[k := t]> p.
Proof.
  intros Hks Hk Hs. set (q := <[k := p !!! s]> p).
  assert (length q = length p) as Hq by apply length_insert.
  rewrite !hole_permutation by lia. constructor.
  apply (Permutation_cons_inv (a := p !!! s)). transitivity q.
  - symmetry. apply delete_Permutation. unfold q. rewrite list_lookup_insert_ne by done. by apply lookup_at.
  - unfold q. by rewrite hole_permutation.
Qed.

(** Lookups of an update, indices decided. *)
Ltac upd :=
  repeat match goal with
  | |- context [<[?i := ?x]> ?l !!! ?j] =>
      first
        [ rewrite (list_lookup_total_insert_ne l i j x) by lia
        | replace (<[i := x]> l !!! j) with x
            by (replace j with i by lia; symmetry; apply list_lookup_total_insert_eq; rewrite ?length_insert; lia) ]
  end.

(** ** The sift *)

Definition child (i j : nat) : Prop := j = 2 * i \/ j = 2 * i + 1.

(** The heap at the nodes [lo .. size]. *)
Definition heap (lo size : nat) (p : list Z) : Prop :=
  forall i j, lo <= i -> child i j -> j <= size -> (p !!! j <= p !!! i)%Z.

(** A heap but for the item at [k], which may be smaller than its children. *)
Definition heap_but (lo size k : nat) (p : list Z) : Prop :=
  (forall i j, lo <= i -> child i j -> j <= size -> i <> k -> (p !!! j <= p !!! i)%Z) /\
  (forall i j, lo <= i -> child i k -> child k j -> j <= size -> (p !!! j <= p !!! i)%Z).

(** [q] has the items of [p], those outside the nodes [1 .. size] at their places. *)
Definition rearranges (size : nat) (p q : list Z) : Prop :=
  q ≡ₚ p /\ (forall j, j = 0 \/ size < j -> q !!! j = p !!! j) /\
  (forall P : Z -> Prop, (forall j, 1 <= j <= size -> P (p !!! j)) -> forall j, 1 <= j <= size -> P (q !!! j)).

Lemma rearranges_refl size p : rearranges size p p.
Proof. by split_and!. Qed.

Lemma rearranges_trans size p q r : rearranges size p q -> rearranges size q r -> rearranges size p r.
Proof.
  intros (H1 & H2 & H3) (K1 & K2 & K3). split; [by rewrite K1|]. split; [intros j Hj; by rewrite K2, H2|].
  intros P HP. apply K3, H3, HP.
Qed.

Lemma rearranges_length size p q : rearranges size p q -> length q = length p.
Proof. intros (H & _). by rewrite H. Qed.

(** The item in hand changes places with a child of its hole. *)
Lemma hole_swap lo size k s t p n :
  1 <= k -> child k s -> s <= size -> size < length p ->
  (forall j, child k j -> j <= size -> (p !!! j <= p !!! s)%Z) -> n = p !!! s -> (t <= n)%Z ->
  heap_but lo size k (<[k := t]> p) ->
  heap_but lo size s (<[s := t]> (<[k := n]> p)) /\
  rearranges size (<[k := t]> p) (<[s := t]> (<[k := n]> p)).
Proof.
  intros Hk Hks Hs Hp Hmax -> Ht [H1 H2]. unfold child in *.
  split; [split|split; [|split]].
  - intros i j Hi Hij Hj Hne. unfold child in Hij. destruct (decide (i = k)) as [->|Hik].
    + upd. destruct (decide (j = s)) as [->|Hjs]; upd; [done|]. by apply Hmax.
    + destruct (decide (j = k)) as [->|Hjk].
      * upd. specialize (H2 i s Hi Hij Hks Hs). revert H2. by upd.
      * upd. specialize (H1 i j Hi Hij Hj Hik). revert H1. by upd.
  - intros i j Hi His Hsj Hj. unfold child in His, Hsj. assert (i = k) as -> by lia. upd.
    specialize (H1 s j ltac:(lia) Hsj Hj ltac:(lia)). revert H1. by upd.
  - apply hole_move; lia.
  - intros j Hj. by upd.
  - intros P HP j Hj. destruct (decide (j = s)) as [->|Hjs]; upd.
    + specialize (HP k ltac:(lia)). revert HP. by upd.
    + destruct (decide (j = k)) as [->|Hjk]; upd.
      * specialize (HP s ltac:(lia)). revert HP. by upd.
      * specialize (HP j ltac:(lia)). revert HP. by upd.
Qed.

(** The hole is where the item in hand belongs. *)
Lemma hole_done lo size k t p :
  k < length p -> (forall j, child k j -> j <= size -> (p !!! j <= t)%Z) ->
  heap_but lo size k (<[k := t]> p) -> 1 <= k -> heap lo size (<[k := t]> p).
Proof.
  intros Hk Hmax [H1 _] Hk1 i j Hi Hij Hj. destruct (decide (i = k)) as [->|Hik]; [|by apply H1].
  unfold child in *. upd. by apply Hmax.
Qed.

Lemma HeapSortDown_turn_ok lo size t q0 p k :
  1 <= k <= size -> size < length p -> heap_but lo size k (<[k := t]> p) ->
  rearranges size q0 (<[k := t]> p) ->
  match HeapSortDown_turn size t (p, k) with
  | Some (inl (p', k')) =>
      k < k' <= size /\ length p' = length p /\ heap_but lo size k' (<[k' := t]> p') /\
      rearranges size q0 (<[k' := t]> p')
  | Some (inr (p', k')) =>
      1 <= k' <= size /\ length p' = length p /\ heap lo size (<[k' := t]> p') /\ rearranges size q0 (<[k' := t]> p')
  | None => False
  end.
Proof.
  intros Hk Hp Hb Hr. unfold HeapSortDown_turn. cbv zeta.
  destruct (Nat.leb_spec size (k * 2)) as [Hs|Hs].
  - destruct (Nat.eqb_spec (k * 2) size) as [E|E].
    + rewrite lookup_at by lia. opt. rewrite wr_Some by lia. opt.
      assert (forall j, child k j -> j <= size -> j = k * 2) as Honly by (unfold child; lia).
      destruct (Z.ltb_spec t (p !!! (k * 2))) as [Ht|Ht].
      * destruct (hole_swap lo size k (k * 2) t p _ ltac:(lia) ltac:(unfold child; lia) ltac:(lia) Hp
          ltac:(intros j Hc Hj; by rewrite (Honly j Hc Hj)) eq_refl ltac:(lia) Hb) as [[H1 _] H2].
        split; [lia|]. split; [apply length_insert|]. split; [|by apply (rearranges_trans _ _ _ _ Hr)].
        intros i j Hi Hij Hj. apply H1; try done. unfold child in Hij. lia.
      * rewrite list_insert_insert_eq || rewrite list_insert_insert. split; [lia|]. split; [apply length_insert|]. split; [|done].
        apply hole_done; try done; try lia. intros j Hc Hj. by rewrite (Honly j Hc Hj).
    + split; [lia|]. split; [done|]. split; [|done].
      apply hole_done; try done; try lia. unfold child. lia.
  - rewrite !lookup_at by lia. opt.
    set (s := k * 2 + (if (p !!! (k * 2)%nat <? p !!! (k * 2 + 1)%nat)%Z then 1 else 0)).
    assert (child k s /\ s <= size) as [Hc Hsz] by (unfold s, child; destruct (_ <? _)%Z; lia).
    assert (forall j, child k j -> j <= size -> (p !!! j <= p !!! s)%Z) as Hmax.
    { intros j Hj _. unfold s. destruct (Z.ltb_spec (p !!! (k * 2)) (p !!! (k * 2 + 1))).
      - destruct Hj as [->| ->]; [rewrite Nat.mul_comm; lia|]. by rewrite (Nat.mul_comm 2).
      - rewrite Nat.add_0_r. destruct Hj as [->| ->]; [by rewrite Nat.mul_comm|]. by rewrite (Nat.mul_comm 2). }
    rewrite (lookup_at p s) by lia. opt.
    destruct (Z.leb_spec (p !!! s) t) as [Ht|Ht].
    + split; [lia|]. split; [done|]. split; [|done].
      apply hole_done; try done; try lia. intros j Hj Hjs. specialize (Hmax j Hj Hjs). lia.
    + rewrite wr_Some by lia. opt.
      destruct (hole_swap lo size k s t p _ ltac:(lia) Hc Hsz Hp Hmax eq_refl ltac:(lia) Hb) as [H1 H2].
      split; [unfold child in Hc; lia|]. split; [apply length_insert|]. split; [done|].
      by apply (rearranges_trans _ _ _ _ Hr).
Qed.

(** The sift makes the heap whole. *)
Lemma HeapSortDown_ok lo size k t p :
  1 <= k <= size -> size < length p -> heap_but lo size k (<[k := t]> p) ->
  exists q, HeapSortDown p k size t = Some q /\ heap lo size q /\ rearranges size (<[k := t]> p) q.
Proof.
  intros Hk Hp Hb. unfold HeapSortDown.
  destruct (loop_total
    (fun '(p', k') => 1 <= k' <= size /\ length p' = length p /\ heap_but lo size k' (<[k' := t]> p') /\
       rearranges size (<[k := t]> p) (<[k' := t]> p'))
    (fun '(_, k') => size - k')
    (fun '(p', k') => 1 <= k' <= size /\ length p' = length p /\ heap lo size (<[k' := t]> p') /\
       rearranges size (<[k := t]> p) (<[k' := t]> p'))
    (HeapSortDown_turn size t)) with (fuel := S size) (s := (p, k)) as ([p' k'] & -> & Hk' & Hl & Hh & Hr); opt.
  - intros [p' k'] (H1 & H2 & H3 & H4).
    pose proof (HeapSortDown_turn_ok lo size t (<[k := t]> p) p' k' H1 ltac:(lia) H3 H4) as Ht.
    destruct (HeapSortDown_turn size t (p', k')) as [[[p2 k2]|[p2 k2]]|]; [|by rewrite H2 in Ht|done].
    rewrite H2 in Ht. destruct Ht as (? & ? & ? & ?). split; [|lia]. split; [lia|done].
  - split; [done|]. split; [done|]. split; [done|]. apply rearranges_refl.
  - lia.
  - exists (<[k' := t]> p'). split; [|done]. apply wr_Some. lia.
Qed.

(** ** Stage 1 *)

(** In a heap the root is the largest item, and below it one of its children. *)
Lemma heap_root size p j : heap 1 size p -> 1 <= j <= size -> (p !!! j <= p !!! 1%nat)%Z.
Proof.
  intros Hh. induction j as [j IH] using lt_wf_ind. intros Hj.
  destruct (decide (j = 1)) as [->|]; [done|].
  pose proof (Nat.div_mod_eq j 2). pose proof (Nat.mod_upper_bound j 2 ltac:(lia)).
  transitivity (p !!! (j / 2)); [apply Hh; unfold child; lia|apply IH; lia].
Qed.

Lemma heap_children size p j : heap 1 size p -> 2 <= j <= size -> (p !!! j <= Z.max (p !!! 2%nat) (p !!! 3%nat))%Z.
Proof.
  intros Hh. induction j as [j IH] using lt_wf_ind. intros Hj.
  destruct (decide (j = 2)) as [->|]; [lia|]. destruct (decide (j = 3)) as [->|]; [lia|].
  pose proof (Nat.div_mod_eq j 2). pose proof (Nat.mod_upper_bound j 2 ltac:(lia)).
  transitivity (p !!! (j / 2)); [apply Hh; unfold child; lia|apply IH; lia].
Qed.

Lemma insert_at p i : <[i := p !!! i]> p = p.
Proof.
  destruct (decide (i < length p)); [apply list_insert_id; by apply lookup_at|].
  apply list_insert_ge. lia.
Qed.

Lemma heapify_loop size p :
  2 <= size < length p ->
  exists q i, do_while (S (size / 2))
    (fun '(p, i) => temp ← p !! i; p ← HeapSortDown p i size temp; Some (p, i - 1))
    (fun '(p, i) => negb (i =? 0)) (p, size / 2) = Some (q, i) /\ heap 1 size q /\ rearranges size p q.
Proof.
  intros Hs. pose proof (Nat.div_mod_eq size 2). pose proof (Nat.mod_upper_bound size 2 ltac:(lia)).
  destruct (do_while_total
    (fun '(p', i) => 1 <= i <= size /\ heap (S i) size p' /\ rearranges size p p') (fun '(_, i) => i)
    (fun '(p', i) => heap 1 size p' /\ rearranges size p p')
    (fun '(p, i) => temp ← p !! i; p ← HeapSortDown p i size temp; Some (p, i - 1))
    (fun '(p, i) => negb (i =? 0))) with (fuel := S (size / 2)) (s := (p, size / 2)) as ([q i] & E & H1 & H2).
  - intros [p' i] (Hi & Hh & Hr). pose proof (rearranges_length _ _ _ Hr) as Hl.
    rewrite lookup_at by lia. opt.
    destruct (HeapSortDown_ok i size i (p' !!! i) p' ltac:(lia) ltac:(lia)) as (q & -> & Hq & Hr').
    { rewrite insert_at. unfold heap_but, child. split; [|lia]. intros i0 j Hi0 Hc Hj Hne. by apply Hh; [lia|..]. }
    opt. rewrite insert_at in Hr'. eexists. split; [reflexivity|].
    pose proof (rearranges_trans _ _ _ _ Hr Hr') as Hrr. cbv beta iota. destruct (Nat.eqb_spec (i - 1) 0) as [E|E]; cbn [negb].
    + replace i with 1 in Hq by lia. done.
    + split; [|lia]. split; [lia|]. by replace (S (i - 1)) with i by lia.
  - split; [lia|]. split; [|apply rearranges_refl]. intros i j Hi Hc Hj. unfold child in Hc. lia.
  - lia.
  - by exists q, i.
Qed.

(** The heap, its items not above [p[0]], and the items behind it in their places. *)
Definition sorting (n size : nat) (p : list Z) : Prop :=
  heap 1 size p /\ (forall j, 1 <= j <= size -> (p !!! j <= p !!! 0%nat)%Z) /\
  (forall i j, size < j < n -> i < j -> (p !!! i <= p !!! j)%Z).

(** The items from [n] on are not touched. *)
Definition shuffles (n : nat) (p q : list Z) : Prop := q ≡ₚ p /\ forall j, n <= j -> q !!! j = p !!! j.

Lemma shuffles_length n p q : shuffles n p q -> length q = length p.
Proof. intros [H _]. by rewrite H. Qed.

Lemma shuffles_trans n p q r : shuffles n p q -> shuffles n q r -> shuffles n p r.
Proof. intros [H1 H2] [K1 K2]. split; [by rewrite K1|]. intros j Hj. by rewrite K2, H2. Qed.

Lemma rearranges_shuffles size n p q : size < n -> rearranges size p q -> shuffles n p q.
Proof. intros Hs (H1 & H2 & _). split; [done|]. intros j Hj. apply H2. lia. Qed.

Lemma sort_heapify_ok size p :
  2 <= size < length p ->
  exists q, sort_heapify p size = Some q /\ sorting (S size) size q /\ shuffles (S size) p q.
Proof.
  intros Hs. unfold sort_heapify. destruct (heapify_loop size p Hs) as (q & i & -> & Hh & Hr). opt.
  pose proof (rearranges_length _ _ _ Hr) as Hl. apply (rearranges_shuffles size (S size)) in Hr; [|lia].
  rewrite !lookup_at by lia. opt. destruct (Z.ltb_spec (q !!! 0%nat) (q !!! 1%nat)) as [Hlt|Hge].
  - rewrite wr_Some by lia. opt.
    destruct (HeapSortDown_ok 1 size 1 (q !!! 0) (<[0 := q !!! 1]> q)) as (r & -> & Hr1 & Hr2); [lia|by rewrite length_insert; lia| |].
    { unfold heap_but, child. split; [|lia]. intros i0 j Hi Hc Hj Hne. upd. by apply Hh. }
    exists r. split; [done|].
    assert (r !!! 0 = q !!! 1) as H0 by (rewrite (proj1 (proj2 Hr2)) by lia; by upd).
    split; [split; [done|]; split|].
    + rewrite H0. apply (proj2 (proj2 Hr2) (fun x => (x <= q !!! 1%nat)%Z)). intros j Hj.
      destruct (decide (j = 1)) as [->|]; upd; [lia|]. by apply (heap_root size).
    + lia.
    + apply (shuffles_trans _ _ _ _ Hr). apply (rearranges_shuffles _ (S size)) in Hr2 as [H1 H2]; [|lia].
      split; [|intros j Hj; rewrite H2 by done; by upd].
      rewrite H1, hole_move by lia. by rewrite insert_at.
  - exists q. split; [done|]. split; [|done]. split; [done|]. split; [|lia].
    intros j Hj. transitivity (q !!! 1); [by apply (heap_root size)|done].
Qed.

(** ** Stage 2 *)

(** The moves before the sift leave a heap but for the hole, in a permutation of the items. *)
Lemma extract_hole n size k p :
  4 <= size < n -> n <= length p -> sorting n size p -> k = (if (p !!! 2%nat <? p !!! 3%nat)%Z then 3 else 2) ->
  let q := <[k := p !!! size]> (<[1 := p !!! k]> (<[0 := p !!! 1]> (<[size := p !!! 0]> p))) in
  heap_but 1 (size - 1) k q /\ shuffles n p q /\
  (forall j, 1 <= j <= size - 1 -> (q !!! j <= p !!! 1%nat)%Z) /\ q !!! 0 = p !!! 1 /\ q !!! size = p !!! 0 /\
  (forall j, size < j -> q !!! j = p !!! j).
Proof.
  intros Hs Hn (Hh & H0 & Ht) Hk q.
  assert ((k = 2 \/ k = 3) /\ (p !!! 2%nat <= p !!! k)%Z /\ (p !!! 3%nat <= p !!! k)%Z) as (Hk23 & Hk2 & Hk3).
  { rewrite Hk. destruct (Z.ltb_spec (p !!! 2%nat) (p !!! 3%nat)); split_and!; lia. }
  clear Hk. subst q. split; [split|split; [split|]].
  - intros i j Hi Hc Hj Hne. unfold child in Hc. destruct (decide (i = 1)) as [->|Hi1].
    + upd. destruct (decide (j = k)) as [->|Hjk]; upd.
      * pose proof (heap_children size p size Hh ltac:(lia)). lia.
      * assert (j = 2 \/ j = 3) as [->| ->] by lia; done.
    + upd. by apply Hh; [| |lia].
  - intros i j Hi Hc Hc' Hj. unfold child in Hc, Hc'. assert (i = 1) as -> by lia. upd. apply Hh; unfold child; lia.
  - set (p2 := <[0 := p !!! 1]> (<[size := p !!! 0]> p)).
    assert (length p2 = length p) as Hl by (unfold p2; by rewrite !length_insert).
    assert (p2 !!! k = p !!! k) as Ek by (unfold p2; by upd).
    rewrite <-Ek, hole_move by lia.
    set (p1 := <[size := p !!! 0]> p) in *. assert (p1 !!! 1 = p !!! 1) as E1 by (unfold p1; by upd).
    assert (length p1 = length p) as Hl1 by (unfold p1; by rewrite length_insert).
    unfold p2. rewrite <-E1, hole_move by lia. unfold p1. rewrite hole_move by lia. by rewrite insert_at.
  - intros j Hj. by upd.
  - split; [|split; [by upd|split; [by upd|intros j Hj; by upd]]].
    intros j Hj. destruct (decide (j = k)) as [->|Hjk]; upd; [by apply (heap_root size); [|lia]|].
    destruct (decide (j = 1)) as [->|]; upd; apply (heap_root size); (done || lia).
Qed.

Lemma sort_extract_ok n size p :
  4 <= size < n -> n <= length p -> sorting n size p ->
  exists q, sort_extract (p, size) = Some (q, size - 1) /\ sorting n (size - 1) q /\ shuffles n p q.
Proof.
  intros Hs Hn Hp. unfold sort_extract. rewrite !(lookup_at p) by lia. opt.
  set (k := if (p !!! 2%nat <? p !!! 3%nat)%Z then 3 else 2).
  assert (k = 2 \/ k = 3) as Hk by (unfold k; destruct (_ <? _)%Z; lia).
  destruct (extract_hole n size k p Hs Hn Hp eq_refl) as (Hb & Hsh & Hle & E0 & Es & Ej).
  rewrite wr_Some by lia. opt. rewrite lookup_at by (rewrite length_insert; lia). opt.
  rewrite wr_Some by (rewrite length_insert; lia). opt.
  rewrite lookup_at by (rewrite !length_insert; lia). opt.
  rewrite wr_Some by (rewrite !length_insert; lia). opt.
  replace (<[0:=<[size:=p !!! 0]> p !!! 1]> (<[size:=p !!! 0]> p) !!! k) with (p !!! k) by (by upd).
  replace (<[size:=p !!! 0]> p !!! 1) with (p !!! 1) by (by upd).
  destruct (HeapSortDown_ok 1 (size - 1) k (p !!! size) (<[1 := p !!! k]> (<[0 := p !!! 1]> (<[size := p !!! 0]> p))))
    as (q & -> & Hq & Hr); [lia|rewrite !length_insert; lia|done|].
  opt. exists q. split; [done|].
  pose proof Hp as (Hh & H0 & Ht). destruct Hr as (Hr1 & Hr2 & Hr3).
  assert (q !!! 0 = p !!! 1) as Q0 by (rewrite Hr2 by lia; done).
  assert (q !!! size = p !!! 0) as Qs by (rewrite Hr2 by lia; done).
  assert (forall j, size < j -> q !!! j = p !!! j) as Qj by (intros j Hj; rewrite Hr2 by lia; by apply Ej).
  pose proof (Hr3 (fun x => (x <= p !!! 1%nat)%Z) Hle) as Q1. cbv beta in Q1.
  assert (forall i, i < size -> (q !!! i <= p !!! 1%nat)%Z) as Qlt.
  { intros i Hi. destruct (decide (i = 0)) as [->|]; [by rewrite Q0|]. apply Q1. lia. }
  specialize (H0 1 ltac:(lia)).
  split; [split; [done|]; split|].
  - intros j Hj. rewrite Q0. by apply Q1.
  - intros i j Hj Hij. destruct (decide (j = size)) as [->|Hjs].
    + rewrite Qs. specialize (Qlt i ltac:(lia)). lia.
    + rewrite (Qj j) by lia. destruct (decide (i < size)) as [Hi|Hi].
      * specialize (Qlt i Hi). specialize (Ht 1 j ltac:(lia) ltac:(lia)). lia.
      * destruct (decide (i = size)) as [->|]; [rewrite Qs; apply Ht; lia|]. rewrite (Qj i) by lia. apply Ht; lia.
  - apply (shuffles_trans _ _ _ _ Hsh). split; [done|]. intros j Hj. apply Hr2. lia.
Qed.

(** What is left to do when the heap is [p[1 .. 3]]. *)
Definition ascending (n : nat) (p : list Z) : Prop := forall i j, i < j < n -> (p !!! i <= p !!! j)%Z.

Lemma sort_last_ok n p :
  4 <= n <= length p -> sorting n 3 p ->
  exists q, sort_last p = Some q /\ ascending n q /\ shuffles n p q.
Proof.
  intros Hn (Hh & H0 & Ht). unfold sort_last. rewrite !(lookup_at p) by lia. opt.
  pose proof (Hh 1 2 ltac:(lia) ltac:(unfold child; lia) ltac:(lia)) as H2.
  pose proof (Hh 1 3 ltac:(lia) ltac:(unfold child; lia) ltac:(lia)) as H3. specialize (H0 1 ltac:(lia)).
  rewrite wr_Some by lia. opt. rewrite lookup_at by (rewrite length_insert; lia). opt.
  replace (<[2:=p !!! 1]> p !!! 0) with (p !!! 0) by (by upd).
  rewrite wr_Some by (rewrite length_insert; lia). opt.
  set (B := <[2 := p !!! 1]> p). assert (length B = length p) as HB by apply length_insert.
  assert (B !!! 0 = p !!! 0) as B0 by (unfold B; by upd). assert (B !!! 3 = p !!! 3) as B3 by (unfold B; by upd).
  assert (forall q, length q = length p -> (forall i, 4 <= i -> q !!! i = p !!! i) ->
    (q !!! 0%nat <= q !!! 1%nat <= p !!! 1%nat)%Z -> q !!! 2 = p !!! 1 -> q !!! 3 = p !!! 0 -> ascending n q) as Hasc.
  { intros q Hl Hq H01 E2 E3 i j Hij.
    destruct (decide (4 <= j)) as [Hj|Hj].
    - rewrite (Hq j) by done. destruct (decide (4 <= i)); [rewrite Hq by done; apply Ht; lia|].
      pose proof (Ht 0 j ltac:(lia) ltac:(lia)).
      assert (i = 0 \/ i = 1 \/ i = 2 \/ i = 3) as [->|[->|[->| ->]]] by lia; lia.
    - assert (j = 1 /\ i = 0 \/ j = 2 /\ (i = 0 \/ i = 1) \/ j = 3 /\ (i = 0 \/ i = 1 \/ i = 2)) as Hc by lia.
      destruct Hc as [[-> ->]|[[-> [->| ->]]|[-> [->|[->| ->]]]]]; lia. }
  destruct (Z.ltb_spec (p !!! 2%nat) (p !!! 3%nat)) as [Hlt|Hge]; cbn [Nat.sub].
  - rewrite wr_Some by (rewrite !length_insert; lia). opt. rewrite wr_Some by (rewrite !length_insert; lia).
    eexists. split; [reflexivity|]. split; [|split; [|intros j Hj; unfold B; by upd]].
    + apply Hasc; [by rewrite !length_insert|intros i Hi; unfold B; by upd| | |]; unfold B; upd; (done || lia).
    + rewrite (list_insert_insert_ne B 1 3) by lia. rewrite <-B3.
      set (A := <[1 := B !!! 3]> B).
      assert (A !!! 0 = p !!! 0) as A0 by (unfold A; by upd). rewrite <-A0.
      rewrite hole_move by (unfold A; rewrite ?length_insert; lia). unfold A. rewrite hole_move by lia.
      unfold B. rewrite hole_move by lia. by rewrite insert_at.
  - rewrite wr_Some by (rewrite !length_insert; lia). opt. rewrite wr_Some by (rewrite !length_insert; lia).
    eexists. split; [reflexivity|]. split; [|split; [|intros j Hj; unfold B; by upd]].
    + apply Hasc; [by rewrite !length_insert|intros i Hi; unfold B; by upd| | |]; unfold B; upd; (done || lia).
    + rewrite (list_insert_insert_ne _ 1 0), (list_insert_insert_ne _ 1 3) by lia.
      set (A := <[1 := p !!! 2]> B).
      assert (A !!! 0 = p !!! 0) as A0 by (unfold A; by upd). rewrite <-A0.
      rewrite hole_move by (unfold A; rewrite ?length_insert; lia).
      replace (p !!! 3) with (A !!! 3) by (unfold A; by upd). rewrite insert_at.
      unfold A, B. rewrite hole_move by lia. by rewrite insert_at.
Qed.

(** ** The call *)

Lemma extract_loop n size p :
  3 <= size < n -> n <= length p -> sorting n size p ->
  exists q i,
    (if negb (size =? 3) then do_while (S size) sort_extract (fun '(_, size) => negb (size =? 3)) (p, size)
     else Some (p, size)) = Some (q, i) /\ sorting n 3 q /\ shuffles n p q.
Proof.
  intros Hs Hn Hp. destruct (Nat.eqb_spec size 3) as [->|H3]; cbn [negb]; [by exists p, 3|].
  destruct (do_while_total (fun '(p', i) => 4 <= i < n /\ sorting n i p' /\ shuffles n p p') (fun '(_, i) => i)
    (fun '(p', i) => sorting n 3 p' /\ shuffles n p p') sort_extract (fun '(_, size) => negb (size =? 3)))
    with (fuel := S size) (s := (p, size)) as ([q i] & E & H1 & H2); [| |lia|by exists q, i].
  - intros [p' i] (Hi & Hp' & Hsh). pose proof (shuffles_length _ _ _ Hsh).
    destruct (sort_extract_ok n i p' ltac:(lia) ltac:(lia) Hp') as (q & E & Hq & Hsh').
    exists (q, i - 1). split; [exact E|]. pose proof (shuffles_trans _ _ _ _ Hsh Hsh') as Hq'. cbv beta iota.
    destruct (Nat.eqb_spec (i - 1) 3) as [E3|E3]; cbn [negb]; [by rewrite E3 in Hq|]. split; [split; [lia|done]|lia].
  - by split; [lia|].
Qed.

Lemma HeapSort_ok n p :
  n <= length p -> exists q, HeapSort p n = Some q /\ ascending n q /\ shuffles n p q.
Proof.
  intros Hn. unfold HeapSort.
  destruct (Nat.ltb_spec n 2) as [H2|H2]; [exists p; split_and!; try done; unfold ascending; lia|].
  destruct (Nat.eqb_spec n 2) as [->|Hn2].
  { rewrite !lookup_at by lia. opt.
    destruct (Z.ltb_spec (p !!! 1%nat) (p !!! 0%nat)); cbn [Nat.sub];
      (rewrite wr_Some by lia; opt; rewrite wr_Some by (rewrite length_insert; lia);
       eexists; split; [reflexivity|]; split; [|split; [|intros j Hj; by upd]]).
    1, 3: (intros i j Hij; assert (i = 0 /\ j = 1) as [-> ->] by lia; upd; lia).
    - rewrite hole_move by lia. by rewrite insert_at.
    - by rewrite insert_at, insert_at. }
  destruct (sort_heapify_ok (n - 1) p ltac:(lia)) as (q & -> & Hq & Hsh). opt.
  replace (S (n - 1)) with n in Hq, Hsh by lia. pose proof (shuffles_length _ _ _ Hsh) as Hl.
  destruct (Nat.ltb_spec (n - 1) 3).
  - assert (n = 3) as -> by lia. rewrite !lookup_at by lia. opt. rewrite wr_Some by lia. opt.
    rewrite wr_Some by (rewrite length_insert; lia). eexists. split; [reflexivity|].
    destruct Hq as (Hh & H0 & _). pose proof (Hh 1 2 ltac:(lia) ltac:(unfold child; lia) ltac:(lia)) as H12.
    specialize (H0 1 ltac:(lia)). split.
    + intros i j Hij. assert (j = 1 /\ i = 0 \/ j = 2 /\ (i = 0 \/ i = 1)) as Hc by lia.
      destruct Hc as [[-> ->]|[-> [->| ->]]]; upd; lia.
    + apply (shuffles_trans _ _ _ _ Hsh). split; [rewrite hole_move by lia; by rewrite insert_at|].
      intros j Hj. by upd.
  - destruct (extract_loop n (n - 1) q ltac:(lia) ltac:(lia) Hq) as (r & i & -> & Hr & Hsh'). opt.
    pose proof (shuffles_length _ _ _ Hsh').
    destruct (sort_last_ok n r ltac:(lia) Hr) as (s & E & Ha & Hsh2).
    exists s. split; [exact E|]. split; [done|].
    apply (shuffles_trans _ _ _ _ Hsh). by apply (shuffles_trans _ _ _ _ Hsh').
Qed.

Lemma ascending_Sorted n p : n <= length p -> ascending n p -> StronglySorted Z.le (take n p).
Proof.
  revert n. induction p as [|x p IH]; intros n Hn Ha; (destruct n as [|n]; [constructor|]); [cbn in Hn; lia|].
  cbn [length take] in *. constructor.
  - apply IH; [lia|]. intros i j Hij. exact (Ha (S i) (S j) ltac:(lia)).
  - apply Forall_forall. intros y Hy. apply list_elem_of_lookup in Hy as [i Hi].
    apply lookup_take_Some in Hi as [Hi Hin]. pose proof (Ha 0 (S i) ltac:(lia)) as H.
    replace y with ((x :: p) !!! S i); [exact H|]. exact (list_lookup_total_correct _ _ _ Hi).
Qed.

Lemma shuffles_drop n p q : n <= length p -> shuffles n p q ->
  take n q ≡ₚ take n p /\ drop n q = drop n p.
Proof.
  intros Hn Hsh. pose proof (shuffles_length _ _ _ Hsh) as Hl. destruct Hsh as [Hperm Hsame].
  assert (drop n q = drop n p) as E.
  { apply list_eq. intros i. rewrite !lookup_drop. destruct (decide (n + i < length p)).
    - rewrite !lookup_at by lia. by rewrite Hsame by lia.
    - by rewrite !lookup_ge_None_2 by lia. }
  split; [|done]. apply (Permutation_app_inv_r (drop n p)).
  rewrite take_drop. rewrite <-E at 1. by rewrite take_drop.
Qed.

(** C40: HeapSort returns with the first [size] items in ascending order, a permutation of
    what they were, and every item behind them untouched, for every array and every size
    within it (the special cases of fewer than four items included). *)
Theorem HeapSort_sorts (p : list Z) (size : nat) (Hsize : size <= length p) :
  exists q,
    HeapSort p size = Some q /\
    StronglySorted Z.le (take size q) /\
    take size q ≡ₚ take size p /\ drop size q = drop size p.
Proof.
  destruct (HeapSort_ok size p Hsize) as (q & E & Ha & Hsh). exists q. split; [done|].
  split; [|by apply shuffles_drop].
  apply ascending_Sorted; [|done]. by rewrite (shuffles_length _ _ _ Hsh).
Qed.

Lemma HeapSort_sorts_witness :
  exists q, HeapSort [5; 3; 9; 1; 9; 2; 7; 0]%Z 7 = Some q /\ StronglySorted Z.le (take 7 q) /\ drop 7 q = [0%Z].
Proof.
  destruct (HeapSort_sorts [5; 3; 9; 1; 9; 2; 7; 0]%Z 7 ltac:(cbn; lia)) as (q & H1 & H2 & _ & H3).
  exists q. split; [exact H1|]. split; [exact H2|exact H3].
Defined.
