(* ===== verification/RangeEnc.v ===== *)
(** * LZMA range encoder

    src/native/sevenzip_bridge/7z2604-src/C/LzmaEnc.c: CRangeEnc and the macros and
    functions that code bits, literals, lengths and reverse trees with it.

    [buf] holds the bytes between [p->bufBase] and [p->buf]; the output stream is an object
    with a [Write] method that says how many bytes of a block it accepts.  The probability
    arrays of CLzmaEnc are a store, a [CLzmaProb *] is an array and an index. *)

From stdpp Require Import base numbers list.
From Stdlib Require Import ZArith Lia.
From S2P Require Import Prelude SzTypes.
Local Open Scope Z_scope.
Local Open Scope word_scope.

Definition kTopValue : Z := 1 <<< 24.
Definition kNumBitModelTotalBits : Z := 11.
Definition kBitModelTotal : Z := 1 <<< kNumBitModelTotalBits.
Definition kNumMoveBits : Z := 5.
Definition kProbInitValue : Z := kBitModelTotal >>> 1.
Definition kLenNumLowBits : Z := 3.
Definition kLenNumLowSymbols : Z := 1 <<< kLenNumLowBits.
Definition kLenNumHighBits : Z := 8.
Definition kLenNumHighSymbols : Z := 1 <<< kLenNumHighBits.
Definition LZMA_NUM_PB_STATES_MAX : Z := 1 <<< 4.

(** ** The byte output *)

(** [Write taken block]: how much of [block] the stream accepts after the bytes [taken].
    [overflow]: a block was not accepted as a whole. *)
Record ISeqOutStream := { Write : list Z -> list Z -> Z; written : list Z; overflow : bool }.

Definition ISeqOutStream_Write (s : ISeqOutStream) (block : list Z) : Z * ISeqOutStream :=
  let n := Write s (written s) block in
  (n, {| Write := Write s; written := written s ++ take (Z.to_nat n) block;
         overflow := overflow s || negb (n =? Z.of_nat (length block)) |}).

Record CRangeEnc := {
  range : Z; cache : Z; low : Z; cacheSize : Z;
  buf : list Z; bufSize : Z; outStream : ISeqOutStream; processed : Z; res : SRes
}.

Definition set_low (l : Z) (p : CRangeEnc) : CRangeEnc :=
  {| range := range p; cache := cache p; low := l; cacheSize := cacheSize p; buf := buf p;
     bufSize := bufSize p; outStream := outStream p; processed := processed p; res := res p |}.
Definition set_range (r : Z) (p : CRangeEnc) : CRangeEnc :=
  {| range := r; cache := cache p; low := low p; cacheSize := cacheSize p; buf := buf p;
     bufSize := bufSize p; outStream := outStream p; processed := processed p; res := res p |}.
Definition set_cache (c n : Z) (p : CRangeEnc) : CRangeEnc :=
  {| range := range p; cache := c; low := low p; cacheSize := n; buf := buf p;
     bufSize := bufSize p; outStream := outStream p; processed := processed p; res := res p |}.
Definition set_buf (b : list Z) (p : CRangeEnc) : CRangeEnc :=
  {| range := range p; cache := cache p; low := low p; cacheSize := cacheSize p; buf := b;
     bufSize := bufSize p; outStream := outStream p; processed := processed p; res := res p |}.
Definition set_out (b : list Z) (s : ISeqOutStream) (n : Z) (r : SRes) (p : CRangeEnc) : CRangeEnc :=
  {| range := range p; cache := cache p; low := low p; cacheSize := cacheSize p; buf := b;
     bufSize := bufSize p; outStream := s; processed := n; res := r |}.

Definition RC_BUF_SIZE : Z := 1 <<< 16.

Definition RangeEnc_Init (p : CRangeEnc) : CRangeEnc :=
  {| range := 0xFFFFFFFF; cache := 0; low := 0; cacheSize := 0; buf := [];
     bufSize := bufSize p; outStream := outStream p; processed := 0; res := SZ_OK |}.

Definition RangeEnc_FlushStream (p : CRangeEnc) : CRangeEnc :=
  let num := Z.of_nat (length (buf p)) in
  let '(s, r) :=
    if not_ok (res p) then (outStream p, res p)
    else let '(n, s) := ISeqOutStream_Write (outStream p) (buf p) in
         (s, if negb (num =? n) then SZ_ERROR_WRITE else res p) in
  set_out [] s (u64 (processed p + num)) r p.

(** [*buf++ = b; p->buf = buf; if (buf == p->bufLim) RangeEnc_FlushStream(p);] *)
Definition put_byte (b : Z) (p : CRangeEnc) : CRangeEnc :=
  let p := set_buf (buf p ++ [b]) p in
  if Z.of_nat (length (buf p)) =? bufSize p then RangeEnc_FlushStream p else p.

Definition RangeEnc_ShiftLow (p : CRangeEnc) : option CRangeEnc :=
  let lo := u32 (low p) in
  let high := low p >>> 32 in
  let p := set_low (u32 (lo <<< 8)) p in
  if (lo <? 0xFF000000) || negb (high =? 0) then
    let b := u8 (cache p + high) in
    let p := put_byte b (set_cache (lo >>> 24) (cacheSize p) p) in
    if cacheSize p =? 0 then Some p
    else
      let high := u32 (high + 0xFF) in
      loop (S (Z.to_nat (cacheSize p)))
        (fun p =>
           let p := put_byte (u8 high) p in
           let p := set_cache (cache p) (u64 (cacheSize p - 1)) p in
           Some (if cacheSize p =? 0 then inr p else inl p)) p
  else Some (set_cache (cache p) (u64 (cacheSize p + 1)) p).

Definition RangeEnc_FlushData (p : CRangeEnc) : option CRangeEnc :=
  p ← RangeEnc_ShiftLow p;
  p ← RangeEnc_ShiftLow p;
  p ← RangeEnc_ShiftLow p;
  p ← RangeEnc_ShiftLow p;
  RangeEnc_ShiftLow p.

(** ** The probabilities *)

Inductive arr :=
  | litProbs | posAlignEncoder | isRep | isRepG0 | isRepG1 | isRepG2 | isMatch | isRep0Long
  | posSlotEncoder | posEncoders | lenProbs_low | lenProbs_high | repLenProbs_low | repLenProbs_high.

#[export] Instance arr_eq_dec : EqDecision arr.
Proof. solve_decision. Defined.

Definition store : Type := arr -> list Z.
Definition ptr : Type := arr * Z.
Definition padd (p : ptr) (k : Z) : ptr := (p.1, p.2 + k).

Definition load (m : store) (p : ptr) : option Z := rd (m p.1) p.2.
Definition store_at (m : store) (p : ptr) (v : Z) : option store :=
  l ← wrz (m p.1) p.2 v; Some (fun a => if decide (a = p.1) then l else m a).

(** The range encoder with the probabilities it codes with. *)
Record coder := { rc : CRangeEnc; mem : store }.

Definition set_rc (p : CRangeEnc) (c : coder) : coder := {| rc := p; mem := mem c |}.

Definition RC_NORM (c : coder) : option coder :=
  if range (rc c) <? kTopValue then
    p ← RangeEnc_ShiftLow (set_range (u32 (range (rc c) <<< 8)) (rc c));
    Some (set_rc p c)
  else Some c.

(** [ttt] and [newBound]. *)
Definition RC_BIT_PRE (c : coder) (prob : ptr) : option (Z * Z) :=
  ttt ← load (mem c) prob;
  Some (ttt, u32 ((range (rc c) >>> kNumBitModelTotalBits) * ttt)).

(** [(Int32)x] *)
Definition s32 (x : Z) : Z := if x <? 2 ^ 31 then x else x - 2 ^ 32.

(** [*(prob) = (CLzmaProb)ttt] with the coder's new [range] and [low]. *)
Definition rc_store (c : coder) (prob : ptr) (r l ttt : Z) : option coder :=
  m ← store_at (mem c) prob (u16 ttt);
  Some {| rc := set_range r (set_low l (rc c)); mem := m |}.

(** The version without a branch. *)
Definition RC_BIT (prob : ptr) (bit : Z) (c : coder) : option coder :=
  '(ttt, newBound) ← RC_BIT_PRE c prob;
  let mask := u32 (0 - bit) in
  let range := range (rc c) &&& mask in
  let mask := mask &&& newBound in
  let range := u32 (range - mask) in
  let low := u64 (low (rc c) + mask) in
  let mask := u32 (bit - 1) in
  let range := u32 (range + (newBound &&& mask)) in
  let mask := mask &&& (kBitModelTotal - ((1 <<< kNumMoveBits) - 1)) in
  let mask := u32 (mask + ((1 <<< kNumMoveBits) - 1)) in
  let ttt := u32 (ttt + u32 (s32 (u32 (mask - ttt)) >>> kNumMoveBits)) in
  c ← rc_store c prob range low ttt;
  RC_NORM c.

(** The version under [Z7_LZMA_ENC_USE_BRANCH]. *)
Definition RC_BIT_USE_BRANCH (prob : ptr) (bit : Z) (c : coder) : option coder :=
  '(ttt, newBound) ← RC_BIT_PRE c prob;
  c ← (if bit =? 0
       then rc_store c prob newBound (low (rc c)) (u32 (ttt + (u32 (kBitModelTotal - ttt) >>> kNumMoveBits)))
       else rc_store c prob (u32 (range (rc c) - newBound)) (u64 (low (rc c) + newBound)) (u32 (ttt - (ttt >>> kNumMoveBits))));
  RC_NORM c.

Definition RC_BIT_0_BASE (prob : ptr) '((ttt, newBound) : Z * Z) (c : coder) : option coder :=
  rc_store c prob newBound (low (rc c)) (u32 (ttt + (u32 (kBitModelTotal - ttt) >>> kNumMoveBits))).

Definition RC_BIT_1_BASE (prob : ptr) '((ttt, newBound) : Z * Z) (c : coder) : option coder :=
  rc_store c prob (u32 (range (rc c) - newBound)) (u64 (low (rc c) + newBound)) (u32 (ttt - (ttt >>> kNumMoveBits))).

Definition RC_BIT_0 (prob : ptr) (pre : Z * Z) (c : coder) : option coder :=
  c ← RC_BIT_0_BASE prob pre c; RC_NORM c.
Definition RC_BIT_1 (prob : ptr) (pre : Z * Z) (c : coder) : option coder :=
  c ← RC_BIT_1_BASE prob pre c; RC_NORM c.

Definition RangeEnc_EncodeBit_0 (prob : ptr) (c : coder) : option coder :=
  pre ← RC_BIT_PRE c prob; RC_BIT_0 prob pre c.

(** [range >>= 1; p->low += range & (0 - top); RC_NORM(p)] *)
Definition rc_direct (top : Z) (c : coder) : option coder :=
  let r := range (rc c) >>> 1 in
  RC_NORM (set_rc (set_range r (set_low (u64 (low (rc c) + (r &&& u32 (0 - top)))) (rc c))) c).

(** ** Symbols *)

Definition LitEnc_Encode (probs : ptr) (sym : Z) (c : coder) : option coder :=
  '(_, c) ← do_while 17
    (fun '(sym, c) =>
       let prob := padd probs (sym >>> 8) in
       let bit := (sym >>> 7) &&& 1 in
       let sym := u32 (sym <<< 1) in
       c ← RC_BIT prob bit c; Some (sym, c))
    (fun '(sym, _) => sym <? 0x10000) (sym ||| 0x100, c);
  Some c.

Definition LitEnc_EncodeMatched (probs : ptr) (sym matchByte : Z) (c : coder) : option coder :=
  '(_, _, _, c) ← do_while 17
    (fun '(sym, matchByte, offs, c) =>
       let matchByte := u32 (matchByte <<< 1) in
       let prob := padd probs (offs + (matchByte &&& offs) + (sym >>> 8)) in
       let bit := (sym >>> 7) &&& 1 in
       let sym := u32 (sym <<< 1) in
       let offs := offs &&& u32 (Z.lnot (matchByte ^^^ sym)) in
       c ← RC_BIT prob bit c; Some (sym, matchByte, offs, c))
    (fun '(sym, _, _, _) => sym <? 0x10000) (sym ||| 0x100, matchByte, 0x100, c);
  Some c.

Definition RcTree_ReverseEncode (probs : ptr) (numBits sym : Z) (c : coder) : option coder :=
  '(_, _, _, c) ← do_while (S (Z.to_nat numBits))
    (fun '(m, sym, numBits, c) =>
       let bit := sym &&& 1 in
       let sym := sym >>> 1 in
       c ← RC_BIT (padd probs m) bit c;
       Some ((m <<< 1) ||| bit, sym, u32 (numBits - 1), c))
    (fun '(_, _, numBits, _) => negb (numBits =? 0)) (1, sym, numBits, c);
  Some c.

(** [CLenEnc]: its two arrays. *)
Definition LenEnc_Init (lowA highA : arr) (m : store) : store :=
  fun a => if decide (a = lowA) then replicate (Z.to_nat (LZMA_NUM_PB_STATES_MAX <<< (kLenNumLowBits + 1))) kProbInitValue
           else if decide (a = highA) then replicate (Z.to_nat kLenNumHighSymbols) kProbInitValue
           else m a.

(** The last part of LenEnc_Encode: [RC_BIT_0] with [pre] and the low tree. *)
Definition len_low (probs : ptr) (pre : Z * Z) (sym posState : Z) (c : coder) : option coder :=
  c ← RC_BIT_0 probs pre c;
  let posState := u32 (posState <<< (1 + kLenNumLowBits)) in
  let probs := padd probs posState in
  let bit := sym >>> 2 in
  c ← RC_BIT (padd probs 1) bit c;
  let m := (1 <<< 1) + bit in
  let bit := (sym >>> 1) &&& 1 in
  c ← RC_BIT (padd probs m) bit c;
  let m := (m <<< 1) + bit in
  let bit := sym &&& 1 in
  RC_BIT (padd probs m) bit c.

Definition LenEnc_Encode (lowA highA : arr) (sym posState : Z) (c : coder) : option coder :=
  let probs := (lowA, 0) in
  pre ← RC_BIT_PRE c probs;
  if kLenNumLowSymbols <=? sym then
    c ← RC_BIT_1 probs pre c;
    let probs := padd probs kLenNumLowSymbols in
    pre ← RC_BIT_PRE c probs;
    if kLenNumLowSymbols * 2 <=? sym then
      c ← RC_BIT_1 probs pre c;
      LitEnc_Encode (highA, 0) (sym - kLenNumLowSymbols * 2) c
    else len_low probs pre (sym - kLenNumLowSymbols) posState c
  else len_low probs pre sym posState c.
