(* ===== verification/LzmaEnc.v ===== *)
(** * LZMA encoder: symbols

    src/native/sevenzip_bridge/7z2604-src/C/LzmaEnc.c: the slot table of distances,
    LzmaEnc_Init, the part of LzmaEnc_CodeOneBlock that codes one symbol, WriteEndMarker,
    Flush.  The search for matches is not here: its result, the length and [backRes], is an
    argument of [code_symbol].  The window is a list; [pos] is the index [data] points to. *)

From stdpp Require Import base numbers list.
From Stdlib Require Import ZArith Lia.
From S2P Require Import Prelude SzTypes RangeEnc.
Local Open Scope Z_scope.
Local Open Scope word_scope.

Definition kNumAlignBits : Z := 4.
Definition kAlignTableSize : Z := 1 <<< kNumAlignBits.
Definition kStartPosModelIndex : Z := 4.
Definition kEndPosModelIndex : Z := 14.
Definition kNumFullDistances : Z := 1 <<< (kEndPosModelIndex >>> 1).
Definition kNumPosSlotBits : Z := 6.
Definition kNumLenToPosStates : Z := 4.
Definition kNumStates : Z := 12.
Definition LZMA_NUM_REPS : Z := 4.
Definition LZMA_MATCH_LEN_MIN : Z := 2.
Definition MARK_LIT : Z := 2 ^ 32 - 1.

Definition kLiteralNextStates : list Z := [0; 0; 0; 0; 1; 2; 3; 4; 5; 6; 4; 5].
Definition kMatchNextStates : list Z := [7; 7; 7; 7; 7; 7; 7; 10; 10; 10; 10; 10].
Definition kRepNextStates : list Z := [8; 8; 8; 8; 8; 8; 8; 11; 11; 11; 11; 11].
Definition kShortRepNextStates : list Z := [9; 9; 9; 9; 9; 9; 9; 11; 11; 11; 11; 11].
Definition IsLitState (s : Z) : bool := s <? 7.
Definition GetLenToPosState (len : Z) : Z := if len <? kNumLenToPosStates + 1 then len - 2 else kNumLenToPosStates - 1.

(** ** The slot of a distance (x86-64: a table) *)

Definition kNumLogBits : Z := 11 + 8 / 8 * 3.

(** The loop over the slots, [g] the table from [g_FastPos + 2] on as far as it is filled. *)
Fixpoint fastpos_slots (n : nat) (slot : Z) : list Z :=
  match n with
  | O => []
  | S n => replicate (Z.to_nat (1 <<< ((slot >>> 1) - 1))) (u8 slot) ++ fastpos_slots n (slot + 1)
  end.

Definition LzmaEnc_FastPosInit : list Z := [0; 1] ++ fastpos_slots (Z.to_nat (kNumLogBits * 2 - 2)) 2.

Definition BSR2_RET (g_FastPos : list Z) (pos : Z) : option Z :=
  let zz := if pos <? 1 <<< (kNumLogBits + 6) then 6 else 6 + kNumLogBits - 1 in
  v ← rd g_FastPos (pos >>> zz); Some (v + zz * 2).

Definition GetPosSlot (g_FastPos : list Z) (pos : Z) : option Z :=
  if pos <? kNumFullDistances then rd g_FastPos (pos &&& (kNumFullDistances - 1)) else BSR2_RET g_FastPos pos.

(** ** The encoder *)

Record CLzmaEnc := {
  state : Z; reps0 : Z; reps1 : Z; reps2 : Z; reps3 : Z;
  lpMask : Z; pbMask : Z; cod : coder; lc : Z; lp : Z; pb : Z;
  writeEndMark : bool; finished : bool;
  matchPriceCount : Z; repLenEncCounter : Z;
  g_FastPos : list Z; result : SRes; nowPos64 : Z
}.

Definition set_cod (c : coder) (p : CLzmaEnc) : CLzmaEnc :=
  {| state := state p; reps0 := reps0 p; reps1 := reps1 p; reps2 := reps2 p; reps3 := reps3 p;
     lpMask := lpMask p; pbMask := pbMask p; cod := c; lc := lc p; lp := lp p; pb := pb p;
     writeEndMark := writeEndMark p; finished := finished p; matchPriceCount := matchPriceCount p;
     repLenEncCounter := repLenEncCounter p; g_FastPos := g_FastPos p; result := result p;
     nowPos64 := nowPos64 p |}.
Definition set_state (s : Z) (p : CLzmaEnc) : CLzmaEnc :=
  {| state := s; reps0 := reps0 p; reps1 := reps1 p; reps2 := reps2 p; reps3 := reps3 p;
     lpMask := lpMask p; pbMask := pbMask p; cod := cod p; lc := lc p; lp := lp p; pb := pb p;
     writeEndMark := writeEndMark p; finished := finished p; matchPriceCount := matchPriceCount p;
     repLenEncCounter := repLenEncCounter p; g_FastPos := g_FastPos p; result := result p;
     nowPos64 := nowPos64 p |}.
Definition set_reps (r0 r1 r2 r3 : Z) (p : CLzmaEnc) : CLzmaEnc :=
  {| state := state p; reps0 := r0; reps1 := r1; reps2 := r2; reps3 := r3;
     lpMask := lpMask p; pbMask := pbMask p; cod := cod p; lc := lc p; lp := lp p; pb := pb p;
     writeEndMark := writeEndMark p; finished := finished p; matchPriceCount := matchPriceCount p;
     repLenEncCounter := repLenEncCounter p; g_FastPos := g_FastPos p; result := result p;
     nowPos64 := nowPos64 p |}.
Definition set_counts (m r : Z) (p : CLzmaEnc) : CLzmaEnc :=
  {| state := state p; reps0 := reps0 p; reps1 := reps1 p; reps2 := reps2 p; reps3 := reps3 p;
     lpMask := lpMask p; pbMask := pbMask p; cod := cod p; lc := lc p; lp := lp p; pb := pb p;
     writeEndMark := writeEndMark p; finished := finished p; matchPriceCount := m;
     repLenEncCounter := r; g_FastPos := g_FastPos p; result := result p;
     nowPos64 := nowPos64 p |}.
Definition set_result (f : bool) (r : SRes) (p : CLzmaEnc) : CLzmaEnc :=
  {| state := state p; reps0 := reps0 p; reps1 := reps1 p; reps2 := reps2 p; reps3 := reps3 p;
     lpMask := lpMask p; pbMask := pbMask p; cod := cod p; lc := lc p; lp := lp p; pb := pb p;
     writeEndMark := writeEndMark p; finished := f; matchPriceCount := matchPriceCount p;
     repLenEncCounter := repLenEncCounter p; g_FastPos := g_FastPos p; result := r;
     nowPos64 := nowPos64 p |}.
Definition set_pos (n : Z) (p : CLzmaEnc) : CLzmaEnc :=
  {| state := state p; reps0 := reps0 p; reps1 := reps1 p; reps2 := reps2 p; reps3 := reps3 p;
     lpMask := lpMask p; pbMask := pbMask p; cod := cod p; lc := lc p; lp := lp p; pb := pb p;
     writeEndMark := writeEndMark p; finished := finished p; matchPriceCount := matchPriceCount p;
     repLenEncCounter := repLenEncCounter p; g_FastPos := g_FastPos p; result := result p;
     nowPos64 := n |}.

(** Sizes of the arrays ([litProbs] depends on [lc] and [lp]). *)
Definition arr_size (lclp : Z) (a : arr) : Z :=
  match a with
  | litProbs => 0x300 <<< lclp
  | posAlignEncoder => 1 <<< kNumAlignBits
  | isRep | isRepG0 | isRepG1 | isRepG2 => kNumStates
  | isMatch | isRep0Long => kNumStates * LZMA_NUM_PB_STATES_MAX
  | posSlotEncoder => kNumLenToPosStates * (1 <<< kNumPosSlotBits)
  | posEncoders => kNumFullDistances
  | lenProbs_low | repLenProbs_low => LZMA_NUM_PB_STATES_MAX <<< (kLenNumLowBits + 1)
  | lenProbs_high | repLenProbs_high => kLenNumHighSymbols
  end.

(** Every probability becomes [kProbInitValue] (LenEnc_Init among them). *)
Definition init_probs (lclp : Z) (m : store) : store :=
  LenEnc_Init repLenProbs_low repLenProbs_high (LenEnc_Init lenProbs_low lenProbs_high
    (fun a => match a with
              | lenProbs_low | lenProbs_high | repLenProbs_low | repLenProbs_high => m a
              | _ => replicate (Z.to_nat (arr_size lclp a)) kProbInitValue
              end)).

Definition LzmaEnc_Init (p : CLzmaEnc) : CLzmaEnc :=
  {| state := 0; reps0 := 1; reps1 := 1; reps2 := 1; reps3 := 1;
     lpMask := u32 ((0x100 <<< lp p) - (0x100 >>> lc p)); pbMask := (1 <<< pb p) - 1;
     cod := {| rc := RangeEnc_Init (rc (cod p)); mem := init_probs (lp p + lc p) (mem (cod p)) |};
     lc := lc p; lp := lp p; pb := pb p; writeEndMark := writeEndMark p; finished := finished p;
     matchPriceCount := matchPriceCount p; repLenEncCounter := repLenEncCounter p;
     g_FastPos := g_FastPos p; result := result p;
     nowPos64 := nowPos64 p |}.

(** ** One symbol *)

Definition LIT_PROBS (p : CLzmaEnc) (pos prevByte : Z) : ptr :=
  (litProbs, u32 (3 * u32 ((u32 (u32 (pos <<< 8) + prevByte) &&& lpMask p) <<< lc p))).

(** [&p->isMatch[state][posState]] and the like. *)
Definition row16 (a : arr) (state posState : Z) : ptr := (a, state * LZMA_NUM_PB_STATES_MAX + posState).

Definition code_literal (p : CLzmaEnc) (win : list Z) (pos nowPos32 : Z) (probs : ptr) (pre : Z * Z)
  : option CLzmaEnc :=
  c ← RC_BIT_0 probs pre (cod p);
  prev ← rd win (pos - 1);
  let probs := LIT_PROBS p nowPos32 prev in
  curByte ← rd win pos;
  let st := state p in
  next ← rd kLiteralNextStates st;
  c ← (if IsLitState st then LitEnc_Encode probs curByte c
       else matchByte ← rd win (pos - reps0 p); LitEnc_EncodeMatched probs curByte matchByte c);
  Some (set_state next (set_cod c p)).

(** [dist < LZMA_NUM_REPS], from [probs = &p->isRepG0[p->state]] on: the choice of the
    distance.  [range] is normalised once at the end. *)
Definition code_which_rep (p : CLzmaEnc) (c : coder) (posState dist len : Z) : option (CLzmaEnc * coder) :=
  let probs := (isRepG0, state p) in
  pre ← RC_BIT_PRE c probs;
  if dist =? 0 then
    c ← RC_BIT_0 probs pre c;
    let probs := row16 isRep0Long (state p) posState in
    pre ← RC_BIT_PRE c probs;
    if negb (len =? 1) then c ← RC_BIT_1_BASE probs pre c; Some (p, c)
    else
      c ← RC_BIT_0_BASE probs pre c;
      next ← rd kShortRepNextStates (state p);
      Some (set_state next p, c)
  else
    c ← RC_BIT_1 probs pre c;
    let probs := (isRepG1, state p) in
    pre ← RC_BIT_PRE c probs;
    if dist =? 1 then
      c ← RC_BIT_0_BASE probs pre c;
      Some (set_reps (reps1 p) (reps0 p) (reps2 p) (reps3 p) p, c)
    else
      c ← RC_BIT_1 probs pre c;
      let probs := (isRepG2, state p) in
      pre ← RC_BIT_PRE c probs;
      if dist =? 2 then
        c ← RC_BIT_0_BASE probs pre c;
        Some (set_reps (reps2 p) (reps0 p) (reps1 p) (reps3 p) p, c)
      else
        c ← RC_BIT_1_BASE probs pre c;
        Some (set_reps (reps3 p) (reps0 p) (reps1 p) (reps2 p) p, c).

Definition code_rep (p : CLzmaEnc) (posState dist len : Z) (probs : ptr) (pre : Z * Z) (c : coder)
  : option CLzmaEnc :=
  c ← RC_BIT_1 probs pre c;
  '(p, c) ← code_which_rep p c posState dist len;
  c ← RC_NORM c;
  if negb (len =? 1) then
    c ← LenEnc_Encode repLenProbs_low repLenProbs_high (len - LZMA_MATCH_LEN_MIN) posState c;
    next ← rd kRepNextStates (state p);
    Some (set_state next (set_counts (matchPriceCount p) (repLenEncCounter p - 1) (set_cod c p)))
  else Some (set_cod c p).

(** [do ... while (sym < (1 << kNumPosSlotBits * 2))] *)
Definition code_pos_slot (probs : ptr) (posSlot : Z) (c : coder) : option coder :=
  '(_, c) ← do_while 7
    (fun '(sym, c) =>
       let prob := padd probs (sym >>> kNumPosSlotBits) in
       let bit := (sym >>> (kNumPosSlotBits - 1)) &&& 1 in
       let sym := u32 (sym <<< 1) in
       c ← RC_BIT prob bit c; Some (sym, c))
    (fun '(sym, _) => sym <? 1 <<< (kNumPosSlotBits * 2)) (posSlot + (1 <<< kNumPosSlotBits), c);
  Some c.

(** The direct bits, from the top of [pos2], until the marker is all that is left. *)
Definition code_direct (pos2 : Z) (c : coder) : option coder :=
  '(_, c) ← do_while 32
    (fun '(pos2, c) =>
       c ← rc_direct (pos2 >>> 31) c;
       Some (u32 (pos2 + pos2), c))
    (fun '(pos2, _) => negb (pos2 =? 0xF0000000)) (pos2, c);
  Some c.

Definition code_align (dist : Z) (c : coder) : option coder :=
  let a := (posAlignEncoder, 0) in
  let m := 1 in
  let bit := dist &&& 1 in let dist := dist >>> 1 in
  c ← RC_BIT (padd a m) bit c; let m := (m <<< 1) + bit in
  let bit := dist &&& 1 in let dist := dist >>> 1 in
  c ← RC_BIT (padd a m) bit c; let m := (m <<< 1) + bit in
  let bit := dist &&& 1 in let dist := dist >>> 1 in
  c ← RC_BIT (padd a m) bit c; let m := (m <<< 1) + bit in
  let bit := dist &&& 1 in
  RC_BIT (padd a m) bit c.

Definition code_distance (g_FastPos : list Z) (dist len : Z) (c : coder) : option coder :=
  posSlot ← GetPosSlot g_FastPos dist;
  c ← code_pos_slot (posSlotEncoder, GetLenToPosState len * (1 <<< kNumPosSlotBits)) posSlot c;
  if kStartPosModelIndex <=? dist then
    let footerBits := (posSlot >>> 1) - 1 in
    if dist <? kNumFullDistances then
      let base := (2 ||| (posSlot &&& 1)) <<< footerBits in
      RcTree_ReverseEncode (posEncoders, base) footerBits dist c
    else
      c ← code_direct (u32 ((dist ||| 0xF) <<< (32 - footerBits))) c;
      code_align dist c
  else Some c.

Definition code_match (p : CLzmaEnc) (posState dist len : Z) (probs : ptr) (pre : Z * Z) (c : coder)
  : option CLzmaEnc :=
  c ← RC_BIT_0 probs pre c;
  next ← rd kMatchNextStates (state p);
  c ← LenEnc_Encode lenProbs_low lenProbs_high (len - LZMA_MATCH_LEN_MIN) posState c;
  let dist := dist - LZMA_NUM_REPS in
  let p := set_reps (u32 (dist + 1)) (reps0 p) (reps1 p) (reps2 p) p in
  let p := set_counts (u32 (matchPriceCount p + 1)) (repLenEncCounter p) p in
  c ← code_distance (g_FastPos p) dist len c;
  Some (set_state next (set_cod c p)).

(** The body of the loop of LzmaEnc_CodeOneBlock: [len] and [dist] (= [p->backRes]) were
    chosen for the data at [pos]. *)
Definition code_symbol (p : CLzmaEnc) (win : list Z) (pos nowPos32 len dist : Z) : option CLzmaEnc :=
  let posState := nowPos32 &&& pbMask p in
  let probs := row16 isMatch (state p) posState in
  pre ← RC_BIT_PRE (cod p) probs;
  if dist =? MARK_LIT then code_literal p win pos nowPos32 probs pre
  else
    c ← RC_BIT_1 probs pre (cod p);
    let probs := (isRep, state p) in
    pre ← RC_BIT_PRE c probs;
    if dist <? LZMA_NUM_REPS then code_rep p posState dist len probs pre c
    else code_match p posState dist len probs pre c.

(** The first byte of the stream is coded as a literal without a context. *)
Definition code_first (p : CLzmaEnc) (curByte : Z) : option CLzmaEnc :=
  c ← RangeEnc_EncodeBit_0 (row16 isMatch 0 0) (cod p);
  c ← LitEnc_Encode (litProbs, 0) curByte c;
  Some (set_cod c p).

(** ** The end *)

Definition WriteEndMarker (p : CLzmaEnc) (posState : Z) : option CLzmaEnc :=
  let prob := row16 isMatch (state p) posState in
  pre ← RC_BIT_PRE (cod p) prob;
  c ← RC_BIT_1 prob pre (cod p);
  let prob := (isRep, state p) in
  pre ← RC_BIT_PRE c prob;
  c ← RC_BIT_0 prob pre c;
  next ← rd kMatchNextStates (state p);
  c ← LenEnc_Encode lenProbs_low lenProbs_high 0 posState c;
  '(_, c) ← do_while 7
    (fun '(m, c) =>
       let prob := (posSlotEncoder, m) in
       pre ← RC_BIT_PRE c prob; c ← RC_BIT_1 prob pre c; Some ((m <<< 1) + 1, c))
    (fun '(m, _) => m <? 1 <<< kNumPosSlotBits) (1, c);
  '(_, c) ← do_while 31
    (fun '(numBits, c) =>
       let r := range (rc c) >>> 1 in
       c ← RC_NORM (set_rc (set_range r (set_low (u64 (low (rc c) + r)) (rc c))) c);
       Some (numBits - 1, c))
    (fun '(numBits, _) => negb (numBits =? 0)) (30 - kNumAlignBits, c);
  '(_, c) ← do_while 5
    (fun '(m, c) =>
       let prob := (posAlignEncoder, m) in
       pre ← RC_BIT_PRE c prob; c ← RC_BIT_1 prob pre c; Some ((m <<< 1) + 1, c))
    (fun '(m, _) => m <? kAlignTableSize) (1, c);
  Some (set_state next (set_cod c p)).

(** [mf_error]: [MFB.result != SZ_OK] (the match finder's, not modelled); one thread. *)
Definition CheckErrors (p : CLzmaEnc) (mf_error : bool) : SRes * CLzmaEnc :=
  if not_ok (result p) then (result p, p)
  else
    let r := if not_ok (res (rc (cod p))) then SZ_ERROR_WRITE else result p in
    let r := if mf_error then SZ_ERROR_READ else r in
    (r, set_result (if not_ok r then true else finished p) r p).

Definition Flush (p : CLzmaEnc) (nowPos : Z) (mf_error : bool) : option (SRes * CLzmaEnc) :=
  let p := set_result true (result p) p in
  p ← (if writeEndMark p then WriteEndMarker p (nowPos &&& pbMask p) else Some p);
  r ← RangeEnc_FlushData (rc (cod p));
  let p := set_cod (set_rc (RangeEnc_FlushStream r) (cod p)) p in
  Some (CheckErrors p mf_error).

(** ** Blocks *)

(** A choice of the optimiser: the length, [backRes], and whether it uses up the bytes read
    ahead ([additionalOffset] becomes 0). *)
Record choice := { ch_len : Z; ch_dist : Z; ch_last : bool }.

(** How a block ends. *)
Inductive block_end := AtEnd (p : CLzmaEnc) (nowPos32 : Z) | Full (p : CLzmaEnc) (nowPos32 : Z) (cs : list choice).

(** The loop of LzmaEnc_CodeOneBlock; [pos] counts all bytes, [nowPos32] is [pos] in 32 bits.
    [None] if the optimiser has no choice. *)
Fixpoint code_loop (p : CLzmaEnc) (win : list Z) (pos startPos32 : Z) (cs : list choice) : option block_end :=
  match cs with
  | [] => None
  | c :: cs =>
      p ← code_symbol p win pos (u32 pos) (ch_len c) (ch_dist c);
      let pos := pos + ch_len c in
      if ch_last c then
        if pos =? Z.of_nat (length win) then Some (AtEnd p (u32 pos))
        else if 1 <<< 17 <=? u32 (u32 pos - startPos32) then Some (Full p (u32 pos) cs)
        else code_loop p win pos startPos32 cs
      else code_loop p win pos startPos32 cs
  end.

(** [maxPackSize] is 0; the match finder is initialised. *)
Definition LzmaEnc_CodeOneBlock (p : CLzmaEnc) (win : list Z) (cs : list choice) (mf_error : bool)
  : option (SRes * CLzmaEnc * list choice) :=
  if finished p then Some (result p, p, cs)
  else
    let '(r, p) := CheckErrors p mf_error in
    if not_ok r then Some (r, p, cs)
    else
      let startPos32 := u32 (nowPos64 p) in
      let flush p nowPos32 :=
        '(r, p) ← Flush p nowPos32 mf_error; Some (r, p, []) in
      if (nowPos64 p =? 0) && (Z.of_nat (length win) =? 0) then flush p startPos32
      else
        '(p, pos) ← (if nowPos64 p =? 0 then
                       cur ← rd win 0; p ← code_first p cur; Some (p, 1)
                     else Some (p, nowPos64 p));
        e ← (if pos =? Z.of_nat (length win) then Some (AtEnd p (u32 pos))
             else code_loop p win pos startPos32 cs);
        match e with
        | AtEnd p nowPos32 =>
            flush (set_pos (u64 (nowPos64 p + u32 (nowPos32 - startPos32))) p) nowPos32
        | Full p nowPos32 cs =>
            let p := set_pos (u64 (nowPos64 p + u32 (nowPos32 - startPos32))) p in
            let '(r, p) := CheckErrors p mf_error in Some (r, p, cs)
        end.

(** Without a progress callback. *)
Definition LzmaEnc_Encode2 (p : CLzmaEnc) (win : list Z) (cs : list choice) (mf_error : bool)
  : option (SRes * CLzmaEnc) :=
  '(r, p, _) ← loop (S (length cs))
    (fun '(_, p, cs) =>
       '(r, p, cs) ← LzmaEnc_CodeOneBlock p win cs mf_error;
       Some (if not_ok r || finished p then inr (r, p, cs) else inl (r, p, cs)))
    (SZ_OK, p, cs);
  Some (r, p).

(** The parts of LzmaEnc_AllocAndInit the coding depends on. *)
Definition LzmaEnc_AllocAndInit (p : CLzmaEnc) : CLzmaEnc :=
  LzmaEnc_Init (set_pos 0 (set_result false SZ_OK p)).

(** ** Encoding to memory *)

(** CLzmaEnc_SeqOutStreamBuf over [size] bytes: [rem] is what the bytes written left. *)
Definition SeqOutStreamBuf_Write (size : Z) (taken block : list Z) : Z :=
  let rem := size - Z.of_nat (length taken) in
  if rem <? Z.of_nat (length block) then rem else Z.of_nat (length block).

Definition outStreamBuf (size : Z) : ISeqOutStream :=
  {| Write := SeqOutStreamBuf_Write size; written := []; overflow := false |}.

Definition set_outStream (s : ISeqOutStream) (p : CRangeEnc) : CRangeEnc :=
  set_out (buf p) s (processed p) (res p) p.

Definition set_endMark (b : bool) (p : CLzmaEnc) : CLzmaEnc :=
  {| state := state p; reps0 := reps0 p; reps1 := reps1 p; reps2 := reps2 p; reps3 := reps3 p;
     lpMask := lpMask p; pbMask := pbMask p; cod := cod p; lc := lc p; lp := lp p; pb := pb p;
     writeEndMark := b; finished := finished p; matchPriceCount := matchPriceCount p;
     repLenEncCounter := repLenEncCounter p; g_FastPos := g_FastPos p; result := result p;
     nowPos64 := nowPos64 p |}.

(** What is written to [dest], and the result. *)
Definition LzmaEnc_MemEncode (p : CLzmaEnc) (destLen : Z) (src : list Z) (endMark : bool) (cs : list choice)
  : option (SRes * list Z) :=
  let p := set_endMark endMark p in
  let p := set_cod (set_rc (set_outStream (outStreamBuf destLen) (rc (cod p))) (cod p)) p in
  '(r, p) ← LzmaEnc_Encode2 (LzmaEnc_AllocAndInit p) src cs false;
  let r := if negb (not_ok r) && negb (nowPos64 p =? Z.of_nat (length src)) then SZ_ERROR_FAIL else r in
  let s := outStream (rc (cod p)) in
  Some (if overflow s then SZ_ERROR_OUTPUT_EOF else r, written s).
