(* ===== verification/LzmaEncMem.v ===== *)
(** * LZMA encoder: the output

    What the coding does to the output stream and to the error code of the range encoder:
    nothing but RangeEnc_FlushStream.  Any predicate on them that RangeEnc_FlushStream keeps
    is kept by LzmaEnc_Encode2; for the stream over a buffer of LzmaEnc_MemEncode: it never
    writes past the buffer, and the error code is set if and only if the buffer was full. *)

From stdpp Require Import base numbers list list_numbers.
From Stdlib Require Import ZArith Lia.
From S2P Require Import Prelude.
From S2P Require Import SzTypes.
From S2P Require Import RangeEnc.
From S2P Require Import LzmaEnc.
Local Open Scope Z_scope.
Local Open Scope word_scope.

Create HintDb enc_keep.

(** Walk through the code of a result, with the lemmas of the calls in [enc_keep]. *)
Ltac enc_step :=
  match goal with
  | |- returns None _ => apply returns_None
  | |- returns (Some _) _ => apply returns_Some
  | |- returns (?o ≫= _) _ => apply returns_bind
  | |- returns (if ?b then _ else _) _ => destruct b
  | |- returns _ _ => eapply returns_mono; [solve [eauto with enc_keep nocore]|]
  | |- returns (match ?x with _ => _ end) _ => destruct x
  | |- returns _ _ => intros ? _
  | |- forall x : _ * _, _ => let a := fresh "x" in let b := fresh "x" in intros [a b]
  | |- forall _, _ => intros ?
  end.

Ltac enc_walk := repeat (cbv beta zeta; enc_step); try done.

Section Keep.
Context (K : ISeqOutStream -> SRes -> Prop).
Abbreviation kept p := (K (outStream p) (res p)).
Hypothesis K_flush : forall p, kept p -> kept (RangeEnc_FlushStream p).

Lemma put_byte_kept b p : kept p -> kept (put_byte b p).
Proof using K_flush. intros Hp. unfold put_byte. destruct (_ =? _); [by apply (K_flush (RangeEnc.set_buf (buf p ++ [b]) p))|done]. Qed.

Lemma ShiftLow_kept p : kept p -> returns (RangeEnc_ShiftLow p) (fun q => kept q).
Proof using K_flush.
  intros Hp. unfold RangeEnc_ShiftLow. destruct (_ || _); [|by apply returns_Some].
  set (p1 := put_byte _ _). assert (kept p1) as H1 by by apply put_byte_kept.
  destruct (_ =? 0); [by apply returns_Some|]. cbv zeta. apply (returns_loop (fun q => kept q)); [|done].
  intros q Hq. apply returns_Some. cbv beta zeta. destruct (_ =? 0); apply put_byte_kept, Hq.
Qed.
Hint Resolve ShiftLow_kept : enc_keep.

Lemma FlushData_kept p : kept p -> returns (RangeEnc_FlushData p) (fun q => kept q).
Proof using K_flush. intros Hp. unfold RangeEnc_FlushData. enc_walk. Qed.

Abbreviation ckept c := (kept (rc c)).

Lemma RC_NORM_kept c : ckept c -> returns (RC_NORM c) (fun c => ckept c).
Proof using K_flush.
  intros Hc. unfold RC_NORM. destruct (_ <? _); [|by apply returns_Some]. apply returns_bind.
  eapply returns_mono; [by apply ShiftLow_kept|]. intros q Hq. by apply returns_Some.
Qed.
Hint Resolve RC_NORM_kept : enc_keep.

Lemma rc_store_kept c q r l t : ckept c -> returns (rc_store c q r l t) (fun c => ckept c).
Proof using Type. intros Hc. unfold rc_store. enc_walk. Qed.
Hint Resolve rc_store_kept : enc_keep.

Lemma RC_BIT_kept q b c : ckept c -> returns (RC_BIT q b c) (fun c => ckept c).
Proof using K_flush. intros Hc. unfold RC_BIT. enc_walk. Qed.
Lemma RC_BIT_0_BASE_kept q pre c : ckept c -> returns (RC_BIT_0_BASE q pre c) (fun c => ckept c).
Proof using K_flush. intros Hc. destruct pre. unfold RC_BIT_0_BASE. enc_walk. Qed.
Lemma RC_BIT_1_BASE_kept q pre c : ckept c -> returns (RC_BIT_1_BASE q pre c) (fun c => ckept c).
Proof using K_flush. intros Hc. destruct pre. unfold RC_BIT_1_BASE. enc_walk. Qed.
Hint Resolve RC_BIT_kept RC_BIT_0_BASE_kept RC_BIT_1_BASE_kept : enc_keep.

Lemma RC_BIT_0_kept q pre c : ckept c -> returns (RC_BIT_0 q pre c) (fun c => ckept c).
Proof using K_flush. intros Hc. unfold RC_BIT_0. enc_walk. Qed.
Lemma RC_BIT_1_kept q pre c : ckept c -> returns (RC_BIT_1 q pre c) (fun c => ckept c).
Proof using K_flush. intros Hc. unfold RC_BIT_1. enc_walk. Qed.
Hint Resolve RC_BIT_0_kept RC_BIT_1_kept : enc_keep.

Lemma EncodeBit_0_kept q c : ckept c -> returns (RangeEnc_EncodeBit_0 q c) (fun c => ckept c).
Proof using K_flush. intros Hc. unfold RangeEnc_EncodeBit_0. enc_walk. Qed.
Lemma rc_direct_kept t c : ckept c -> returns (rc_direct t c) (fun c => ckept c).
Proof using K_flush. intros Hc. unfold rc_direct. enc_walk. Qed.
Hint Resolve EncodeBit_0_kept rc_direct_kept : enc_keep.

(** A loop whose state ends in the coder. *)
Lemma loop_kept {S : Type} fuel (body : S * coder -> option (S * coder)) (cond : S * coder -> bool) s :
  (forall s, ckept s.2 -> returns (body s) (fun s => ckept s.2)) -> ckept s.2 ->
  returns (do_while fuel body cond s) (fun s => ckept s.2).
Proof using Type. intros Hb Hs. by apply (returns_do_while (fun s => ckept s.2)). Qed.

Ltac coder_loop := apply returns_bind; eapply returns_mono; [apply loop_kept; [|assumption]|].

Lemma LitEnc_Encode_kept q sym c : ckept c -> returns (LitEnc_Encode q sym c) (fun c => ckept c).
Proof using K_flush.
  intros Hc. unfold LitEnc_Encode. coder_loop; [intros [s c1] H1; cbn in *; enc_walk|intros [s c1] H1; enc_walk].
Qed.
Lemma LitEnc_EncodeMatched_kept q sym m c : ckept c -> returns (LitEnc_EncodeMatched q sym m c) (fun c => ckept c).
Proof using K_flush.
  intros Hc. unfold LitEnc_EncodeMatched. coder_loop; [intros [[[s m1] o] c1] H1; cbn in *; enc_walk|intros [[[s m1] o] c1] H1; enc_walk].
Qed.
Lemma RcTree_ReverseEncode_kept q n sym c : ckept c -> returns (RcTree_ReverseEncode q n sym c) (fun c => ckept c).
Proof using K_flush.
  intros Hc. unfold RcTree_ReverseEncode. coder_loop; [intros [[[s m1] o] c1] H1; cbn in *; enc_walk|intros [[[s m1] o] c1] H1; enc_walk].
Qed.
Lemma code_pos_slot_kept q n c : ckept c -> returns (code_pos_slot q n c) (fun c => ckept c).
Proof using K_flush.
  intros Hc. unfold code_pos_slot. coder_loop; [intros [s c1] H1; cbn in *; enc_walk|intros [s c1] H1; enc_walk].
Qed.
Lemma code_direct_kept n c : ckept c -> returns (code_direct n c) (fun c => ckept c).
Proof using K_flush.
  intros Hc. unfold code_direct. coder_loop; [intros [s c1] H1; cbn in *; enc_walk|intros [s c1] H1; enc_walk].
Qed.
Hint Resolve LitEnc_Encode_kept LitEnc_EncodeMatched_kept RcTree_ReverseEncode_kept code_pos_slot_kept code_direct_kept : enc_keep.

Lemma len_low_kept q pre sym ps c : ckept c -> returns (len_low q pre sym ps c) (fun c => ckept c).
Proof using K_flush. intros Hc. unfold len_low. enc_walk. Qed.
Hint Resolve len_low_kept : enc_keep.
Lemma LenEnc_Encode_kept a b sym ps c : ckept c -> returns (LenEnc_Encode a b sym ps c) (fun c => ckept c).
Proof using K_flush. intros Hc. unfold LenEnc_Encode. enc_walk. Qed.
Lemma code_align_kept n c : ckept c -> returns (code_align n c) (fun c => ckept c).
Proof using K_flush. intros Hc. unfold code_align. enc_walk. Qed.
Hint Resolve LenEnc_Encode_kept code_align_kept : enc_keep.
Lemma code_distance_kept t n len c : ckept c -> returns (code_distance t n len c) (fun c => ckept c).
Proof using K_flush. intros Hc. unfold code_distance. enc_walk. Qed.
Hint Resolve code_distance_kept : enc_keep.

Abbreviation pkept p := (kept (rc (cod p))).

Lemma code_literal_kept p win pos n q pre : pkept p -> returns (code_literal p win pos n q pre) (fun p => pkept p).
Proof using K_flush. intros Hp. unfold code_literal. enc_walk. Qed.

Lemma code_which_rep_kept p c ps dist len : ckept c -> returns (code_which_rep p c ps dist len) (fun x => ckept x.2).
Proof using K_flush. intros Hc. unfold code_which_rep. enc_walk. Qed.
Hint Resolve code_literal_kept code_which_rep_kept : enc_keep.

Lemma code_rep_kept p ps dist len q pre c : ckept c -> returns (code_rep p ps dist len q pre c) (fun p => pkept p).
Proof using K_flush. intros Hc. unfold code_rep. enc_walk. Qed.
Lemma code_match_kept p ps dist len q pre c : ckept c -> returns (code_match p ps dist len q pre c) (fun p => pkept p).
Proof using K_flush. intros Hc. unfold code_match. enc_walk. Qed.
Hint Resolve code_rep_kept code_match_kept : enc_keep.

Lemma code_symbol_kept p win pos n len dist : pkept p -> returns (code_symbol p win pos n len dist) (fun p => pkept p).
Proof using K_flush. intros Hp. unfold code_symbol. enc_walk. Qed.
Lemma code_first_kept p cur : pkept p -> returns (code_first p cur) (fun p => pkept p).
Proof using K_flush. intros Hp. unfold code_first. enc_walk. Qed.
Hint Resolve code_symbol_kept code_first_kept : enc_keep.

Lemma WriteEndMarker_kept p ps : pkept p -> returns (WriteEndMarker p ps) (fun p => pkept p).
Proof using K_flush.
  intros Hp. unfold WriteEndMarker. do 5 (cbv beta zeta; apply returns_bind; first [eapply returns_mono; [solve [eauto with enc_keep nocore]|intros ? ?]|intros ? _]).
  cbv beta zeta. apply returns_bind. eapply returns_mono; [solve [eauto with enc_keep nocore]|intros ? ?].
  do 3 (coder_loop; [intros [? ?] ?; cbn in *; enc_walk|intros [? ?] ?; cbn [snd] in *; cbv beta iota]). by apply returns_Some.
Qed.
Hint Resolve WriteEndMarker_kept : enc_keep.

Lemma Flush_kept p n b : pkept p -> returns (Flush p n b) (fun x => pkept x.2).
Proof using K_flush.
  intros Hp. unfold Flush. cbv zeta. apply returns_bind.
  apply (returns_mono _ (fun p => pkept p)); [destruct (writeEndMark _); [by apply WriteEndMarker_kept|by apply returns_Some]|].
  intros p1 H1. apply returns_bind. eapply returns_mono; [by apply FlushData_kept|]. intros r Hr. apply returns_Some.
  unfold CheckErrors. by destruct (not_ok _); apply K_flush.
Qed.

Definition bkept (e : block_end) : Prop := match e with AtEnd p _ => pkept p | Full p _ _ => pkept p end.

Lemma code_loop_kept win start cs : forall p pos, pkept p -> returns (code_loop p win pos start cs) bkept.
Proof using K_flush.
  induction cs as [|c cs IH]; intros p pos Hp; cbn [code_loop]; [done|]. apply returns_bind.
  eapply returns_mono; [by apply code_symbol_kept|]. intros p1 H1. cbv zeta.
  destruct (ch_last c); [|by apply IH]. destruct (_ =? _); [by apply returns_Some|]. destruct (_ <=? _); [by apply returns_Some|by apply IH].
Qed.

Lemma CheckErrors_kept p b : pkept p -> pkept (CheckErrors p b).2.
Proof using Type. intros Hp. unfold CheckErrors. by destruct (not_ok _). Qed.

Lemma CodeOneBlock_kept p win cs b : pkept p -> returns (LzmaEnc_CodeOneBlock p win cs b) (fun x => pkept x.1.2).
Proof using K_flush.
  intros Hp. unfold LzmaEnc_CodeOneBlock. destruct (finished p); [by apply returns_Some|].
  pose proof (CheckErrors_kept p b Hp) as H1. destruct (CheckErrors p b) as [r p1]. cbn [snd] in H1.
  destruct (not_ok r); [by apply returns_Some|]. cbv zeta.
  assert (forall p n, pkept p -> returns ('(r, p) ← Flush p n b; Some (r, p, [] : list choice)) (fun x => pkept x.1.2)) as Hflush.
  { intros p2 n H2. apply returns_bind. eapply returns_mono; [by apply Flush_kept|]. intros [r2 p3] H3. by apply returns_Some. }
  destruct (_ && _); [by apply Hflush|]. apply returns_bind. apply (returns_mono _ (fun x => pkept x.1)).
  { destruct (_ =? _); [|by apply returns_Some]. apply returns_bind. intros cur _. apply returns_bind.
    eapply returns_mono; [by apply code_first_kept|]. intros p2 H2. by apply returns_Some. }
  intros [p2 pos] H2. apply returns_bind. eapply (returns_mono _ bkept).
  { destruct (_ =? _); [by apply returns_Some|by apply code_loop_kept]. }
  intros [p3 n|p3 n cs3] H3; [by apply Hflush|].
  pose proof (CheckErrors_kept (set_pos (u64 (nowPos64 p3 + u32 (n - u32 (nowPos64 p1)))) p3) b H3) as H4.
  destruct (CheckErrors _ b) as [r4 p4]. by apply returns_Some.
Qed.

Lemma Encode2_kept p win cs b : pkept p -> returns (LzmaEnc_Encode2 p win cs b) (fun x => pkept x.2).
Proof using K_flush.
  intros Hp. unfold LzmaEnc_Encode2. apply returns_bind.
  eapply returns_mono; [apply (returns_loop (fun x => pkept x.1.2) (fun x => pkept x.1.2)); [|exact Hp]|].
  - intros [[r p1] cs1] H1. apply returns_bind. eapply returns_mono; [by apply CodeOneBlock_kept|].
    intros [[r2 p2] cs2] H2. apply returns_Some. by destruct (_ || _).
  - intros [[r p1] cs1] H1. by apply returns_Some.
Qed.
End Keep.

(** ** The buffer of LzmaEnc_MemEncode *)

(** At most [size] bytes were written, and [res] tells whether all blocks fitted. *)
Definition in_buffer (size : Z) (s : ISeqOutStream) (r : SRes) : Prop :=
  Write s = SeqOutStreamBuf_Write size /\ Z.of_nat (length (written s)) <= size /\ overflow s = not_ok r.

Lemma FlushStream_in_buffer size p :
  in_buffer size (outStream p) (res p) -> in_buffer size (outStream (RangeEnc_FlushStream p)) (res (RangeEnc_FlushStream p)).
Proof.
  intros (Hw & Hl & Ho). unfold RangeEnc_FlushStream, ISeqOutStream_Write. destruct (not_ok (res p)) eqn:Hr; [by unfold in_buffer; cbn; rewrite Hr|].
  unfold in_buffer. cbn. rewrite Hw, Ho. split; [done|]. unfold SeqOutStreamBuf_Write. cbv zeta. rewrite length_app, length_take.
  destruct (Z.ltb_spec (size - Z.of_nat (length (written (outStream p)))) (Z.of_nat (length (buf p)))) as [Hlt|Hge]; (split; [lia|]).
  - destruct (Z.eqb_spec (size - Z.of_nat (length (written (outStream p)))) (Z.of_nat (length (buf p)))); [lia|].
    destruct (Z.eqb_spec (Z.of_nat (length (buf p))) (size - Z.of_nat (length (written (outStream p))))); [lia|done].
  - by rewrite !Z.eqb_refl.
Qed.

Lemma MemEncode_in_buffer size p win cs b :
  in_buffer size (outStream (rc (cod p))) (res (rc (cod p))) ->
  returns (LzmaEnc_Encode2 p win cs b) (fun x => in_buffer size (outStream (rc (cod x.2))) (res (rc (cod x.2)))).
Proof. apply Encode2_kept. apply FlushStream_in_buffer. Qed.
