(* ===== verification/RangeCoder.v ===== *)
(** * Range coder: what the encoder writes, the decoder reads

    The state of the range encoder (RangeEnc.v) stands for the number [total], of which the
    bytes written, the cache, the pending 0xFF and [low] are the digits; [range] is the
    width of the interval above it.  Coding a bit narrows the interval, shifting scales it,
    and the finished stream is a number in it.  The range decoder of LzmaDec.c
    (LzmaParse.v) holds the difference of the two in [code].

    Proved here: carries never overflow the cache; the version of RC_BIT without branches
    is the one with branches; and a decoder started where the encoder was gives back the
    bits the encoder was given, for any tree of requests. *)

From stdpp Require Import base numbers list.
From Stdlib Require Import ZArith Lia.
From S2P Require Import Prelude.
From S2P Require Import SzTypes.
From S2P Require Import LzmaParse.
From S2P Require Import RangeEnc.
Local Open Scope Z_scope.
Local Open Scope word_scope.

(** ** Numbers as lists of digits, the highest first *)

Definition be_val (l : list Z) : Z := foldl (fun a b => a * 256 + b) 0 l.

Lemma be_val_snoc l b : be_val (l ++ [b]) = be_val l * 256 + b.
Proof. unfold be_val. by rewrite foldl_app. Qed.

Lemma be_val_replicate l x k :
  x = 0 \/ x = 255 ->
  be_val (l ++ replicate k x) =
    be_val l * 256 ^ Z.of_nat k + (if x =? 0 then 0 else 256 ^ Z.of_nat k - 1).
Proof.
  intros Hx. induction k as [|k IH].
  - rewrite app_nil_r. change (256 ^ Z.of_nat 0) with 1. destruct (x =? 0); lia.
  - rewrite replicate_S_end, app_assoc, be_val_snoc, IH, Nat2Z.inj_succ, Z.pow_succ_r by lia.
    destruct Hx as [->| ->]; cbn [Z.eqb]; lia.
Qed.

(** ** What the state of the encoder stands for *)

Definition out (p : CRangeEnc) : list Z := written (outStream p) ++ buf p.

Definition digits (p : CRangeEnc) : Z :=
  (be_val (out p) * 256 + cache p) * 256 ^ cacheSize p + (256 ^ cacheSize p - 1).

Definition total (p : CRangeEnc) : Z := digits p * 2 ^ 32 + low p.

(** Digits produced so far. *)
Definition shifts (p : CRangeEnc) : Z := Z.of_nat (length (out p)) + cacheSize p.

(** The interval of width [w] above [total] causes at most one carry, and none into a cache
    of 0xFF; [n] more digits can be counted. *)
Record rc_inv (n w : Z) (p : CRangeEnc) : Prop := {
  inv_cache : 0 <= cache p < 256;
  inv_low : 0 <= low p;
  inv_width : 0 < w;
  inv_top : low p + w <= (if cache p =? 255 then 2 ^ 32 else 2 ^ 33);
  inv_size : 0 <= cacheSize p /\ cacheSize p + n < 2 ^ 64
}.

Lemma rc_inv_sub n w p d w' :
  rc_inv n w p -> 0 <= d -> 0 < w' -> d + w' <= w -> rc_inv n w' (set_low (low p + d) p).
Proof. intros [Hc Hl Hw Ht Hs] Hd Hw' Hle. constructor; cbn; try done; [lia|]. destruct (cache p =? 255); lia. Qed.

Lemma rc_inv_n n n' w p : rc_inv n w p -> n' <= n -> rc_inv n' w p.
Proof. intros [? ? ? ? ?] Hn. constructor; try done. lia. Qed.

(** [p'] differs from [p] in what it wrote: [bs] more bytes if nothing failed. *)
Definition wrote (bs : list Z) (p p' : CRangeEnc) : Prop :=
  range p' = range p /\ cache p' = cache p /\ low p' = low p /\ cacheSize p' = cacheSize p /\ bufSize p' = bufSize p /\
  (res p' = SZ_OK -> res p = SZ_OK /\ out p' = out p ++ bs).

Lemma FlushStream_wrote p : wrote [] p (RangeEnc_FlushStream p) /\ buf (RangeEnc_FlushStream p) = [].
Proof.
  unfold RangeEnc_FlushStream, ISeqOutStream_Write, wrote, out.
  destruct (not_ok (res p)) eqn:Hr; cbn; [split; [|done]; split_and!; try done; intros E; by rewrite E in Hr|].
  split; [|done]. split_and!; try done.
  destruct (Z.eqb_spec (Z.of_nat (length (buf p))) (Write (outStream p) (written (outStream p)) (buf p))) as [E|E];
    cbn; [|done]. intros Hok. split; [done|]. rewrite <-E, Nat2Z.id, take_ge by lia. by rewrite !app_nil_r.
Qed.

Lemma put_byte_wrote b p : wrote [b] p (put_byte b p).
Proof.
  unfold put_byte. set (q := set_buf (buf p ++ [b]) p).
  assert (wrote [b] p q) as Hq by (unfold wrote, out, q; cbn; split_and!; try done; intros; by rewrite app_assoc).
  destruct (_ =? _); [|done]. destruct (FlushStream_wrote q) as [(F1 & F2 & F3 & F4 & F5 & F6) _].
  destruct Hq as (Q1 & Q2 & Q3 & Q4 & Q5 & Q6). unfold wrote. split_and!; try congruence.
  intros Hok. destruct (F6 Hok) as [Hok' ->]. destruct (Q6 Hok') as [? ->]. by rewrite app_nil_r.
Qed.

(** The pending bytes. *)
Lemma put_loop x k : forall p fuel,
  cacheSize p = Z.of_nat (S k) -> cacheSize p < 2 ^ 64 -> (k < fuel)%nat ->
  exists p', loop fuel
    (fun p =>
       let p := put_byte x p in
       let p := set_cache (cache p) (u64 (cacheSize p - 1)) p in
       Some (if cacheSize p =? 0 then inr p else inl p)) p = Some p' /\
    cacheSize p' = 0 /\ wrote (replicate (S k) x) p (set_cache (cache p') (cacheSize p) p').
Proof.
  induction k as [|k IH]; intros p fuel Hk Hs Hf; (destruct fuel as [|fuel]; [lia|]); cbn [loop]; cbv zeta;
    destruct (put_byte_wrote x p) as (W1 & W2 & W3 & W4 & W5 & W6);
    set (q := set_cache (cache (put_byte x p)) (u64 (cacheSize (put_byte x p) - 1)) (put_byte x p));
    assert (cacheSize q = cacheSize p - 1) as Hq by (cbn; rewrite W4; apply wrap_small; unfold in_width; lia).
  - destruct (Z.eqb_spec (cacheSize q) 0); [|lia]. exists q. split; [done|]. split; [done|].
    unfold wrote. cbn. split_and!; try done.
  - destruct (Z.eqb_spec (cacheSize q) 0); [lia|].
    destruct (IH q fuel ltac:(lia) ltac:(lia) ltac:(lia)) as (p' & E & H0 & V1 & V2 & V3 & V4 & V5 & V6).
    exists p'. split; [exact E|]. split; [done|]. unfold wrote. cbn in *. split_and!; try congruence.
    intros Hok. destruct (V6 Hok) as [Hok' Ho]. destruct (W6 Hok') as [Hok2 Ho2]. split; [done|].
    unfold out in *. cbn in *. rewrite Ho, Ho2. by rewrite <-app_assoc.
Qed.

(** ** Shifting out a digit *)

Lemma low_parts l : 0 <= l < 2 ^ 33 ->
  exists h a b, (h = 0 \/ h = 1) /\ 0 <= a < 256 /\ 0 <= b < 2 ^ 24 /\ l = h * 2 ^ 32 + a * 2 ^ 24 + b /\
    l >>> 32 = h /\ u32 l = a * 2 ^ 24 + b /\ u32 l >>> 24 = a /\ u32 (u32 l <<< 8) = b * 256.
Proof.
  intros Hl. pose proof (Z.div_mod l (2 ^ 32) ltac:(lia)) as E1. pose proof (Z.mod_pos_bound l (2 ^ 32) ltac:(lia)) as B1.
  set (l32 := l mod 2 ^ 32) in *. pose proof (Z.div_mod l32 (2 ^ 24) ltac:(lia)) as E2.
  pose proof (Z.mod_pos_bound l32 (2 ^ 24) ltac:(lia)) as B2.
  exists (l / 2 ^ 32), (l32 / 2 ^ 24), (l32 mod 2 ^ 24). rewrite !Z.shiftr_div_pow2, Z.shiftl_mul_pow2 by lia.
  fold (wrap 32 l). unfold wrap at 1 2. fold l32.
  assert (wrap 32 (wrap 32 l * 2 ^ 8) = l32 mod 2 ^ 24 * 256) as ->.
  { unfold wrap. fold l32. change (2 ^ 32) with (2 ^ 24 * 2 ^ 8). by rewrite Z.mul_mod_distr_r by lia. }
  unfold wrap. fold l32. split_and!; lia.
Qed.

Lemma pow256_pos k : 0 <= k -> 0 < 256 ^ k.
Proof. intros. apply Z.pow_pos_nonneg; lia. Qed.

(** What the encoder promises for one digit. *)
Definition shifted (p p' : CRangeEnc) : Prop :=
  res p' = SZ_OK -> res p = SZ_OK /\ total p' = 256 * total p /\ shifts p' = shifts p + 1 /\
    (bytes (out p) -> bytes (out p')).

Lemma in_width_u8 x : in_width 8 (u8 x).
Proof. apply wrap_in_width. lia. Qed.

(** The bytes the cache and the pending 0xFF become when the carry [h] is known. *)
Definition settled (h : Z) (p : CRangeEnc) : list Z :=
  (cache p + h) :: replicate (Z.to_nat (cacheSize p)) (if h =? 0 then 255 else 0).

(** What remains of the encoder after the digit [a] went to the cache. *)
Definition refilled (a b : Z) (bs : list Z) (p p' : CRangeEnc) : Prop :=
  range p' = range p /\ cache p' = a /\ low p' = b /\ cacheSize p' = 0 /\ bufSize p' = bufSize p /\
  (res p' = SZ_OK -> res p = SZ_OK /\ out p' = out p ++ bs).

Lemma ShiftLow_write h a b p :
  (h = 0 \/ h = 1) -> 0 <= cache p -> cache p + h < 256 -> 0 <= cacheSize p < 2 ^ 64 ->
  exists p',
    (let p := put_byte (u8 (cache p + h)) (set_cache a (cacheSize p) (set_low b p)) in
     if cacheSize p =? 0 then Some p
     else
       let high := u32 (h + 0xFF) in
       loop (S (Z.to_nat (cacheSize p)))
         (fun p =>
            let p := put_byte (u8 high) p in
            let p := set_cache (cache p) (u64 (cacheSize p - 1)) p in
            Some (if cacheSize p =? 0 then inr p else inl p)) p) = Some p' /\
    refilled a b (settled h p) p p'.
Proof.
  intros Hh Hc0 Hc Hs. rewrite (wrap_small 8 (cache p + h)) by (unfold in_width; lia).
  destruct (put_byte_wrote (cache p + h) (set_cache a (cacheSize p) (set_low b p))) as (W1 & W2 & W3 & W4 & W5 & W6).
  set (r := put_byte (cache p + h) (set_cache a (cacheSize p) (set_low b p))) in *. cbn in W1, W2, W3, W4, W5.
  change (out (set_cache a (cacheSize p) (set_low b p))) with (out p) in W6. cbv zeta.
  assert (u8 (u32 (h + 0xFF)) = (if h =? 0 then 255 else 0)) as Ex by (destruct Hh as [->| ->]; reflexivity).
  destruct (Z.eqb_spec (cacheSize r) 0) as [Hz|Hz].
  - exists r. split; [done|]. unfold refilled, settled. rewrite <-W4, Hz. by split_and!.
  - destruct (put_loop (u8 (u32 (h + 0xFF))) (Z.to_nat (cacheSize p) - 1) r (S (Z.to_nat (cacheSize r))))
      as (p' & E & H0 & V1 & V2 & V3 & V4 & V5 & V6); [lia|lia|lia|].
    cbv zeta in E. exists p'. split; [exact E|]. cbn in V1, V2, V3, V5.
    change (out (set_cache (cache p') (cacheSize r) p')) with (out p') in V6.
    unfold refilled, settled. split_and!; try congruence.
    intros Hok. destruct (V6 Hok) as [Hok2 ->]. destruct (W6 Hok2) as [Hok3 ->]. split; [done|].
    rewrite <-app_assoc, Ex. by replace (S (Z.to_nat (cacheSize p) - 1)) with (Z.to_nat (cacheSize p)) by lia.
Qed.

(** In numbers. *)
Lemma refilled_shifted h a b p p' :
  (h = 0 \/ h = 1) -> 0 <= cache p -> cache p + h < 256 -> 0 <= cacheSize p -> low p = h * 2 ^ 32 + a * 2 ^ 24 + b ->
  refilled a (b * 256) (settled h p) p p' -> shifted p p'.
Proof.
  intros Hh Hc0 Hc Hs E (_ & Ec & El & Es & _ & Ho) Hok. destruct (Ho Hok) as [Hok' Eo]. clear Ho. split; [done|].
  unfold total, digits, shifts. rewrite Eo, Ec, El, Es, E. unfold settled.
  replace (out p ++ (cache p + h) :: replicate (Z.to_nat (cacheSize p)) (if h =? 0 then 255 else 0))
    with ((out p ++ [cache p + h]) ++ replicate (Z.to_nat (cacheSize p)) (if h =? 0 then 255 else 0)) by by rewrite <-app_assoc.
  rewrite be_val_replicate, be_val_snoc, !length_app, length_replicate, Z2Nat.id by (done || by destruct Hh as [->| ->]; [right|left]).
  change (256 ^ 0) with 1. pose proof (pow256_pos (cacheSize p) Hs). split; [|split; [cbn; lia|]].
  - destruct Hh as [->| ->]; cbn [Z.eqb]; lia.
  - intros Hb. apply Forall_app. split; [apply Forall_app; split; [done|]|].
    + apply Forall_cons_2; [unfold in_width; lia|apply Forall_nil_2].
    + apply Forall_replicate. unfold in_width. by destruct (h =? 0).
Qed.

Lemma ShiftLow_ok n w p :
  rc_inv (n + 1) w p -> w <= 2 ^ 24 -> 0 <= n ->
  exists p', RangeEnc_ShiftLow p = Some p' /\ range p' = range p /\ bufSize p' = bufSize p /\
    rc_inv n (256 * w) p' /\ low p' = (low p mod 2 ^ 24) * 256 /\ shifted p p' /\
    (low p < 0xFF000000 -> cacheSize p' = 0 /\ cache p' = low p / 2 ^ 24).
Proof.
  intros [Hc Hl Hw Ht [Hs Hn]] Hw24 Hn0.
  destruct (low_parts (low p)) as (h & a & b & Hh & Ha & Hb & E & Eh & E32 & Ea & Eb); [destruct (cache p =? 255); lia|].
  assert (low p mod 2 ^ 24 = b) as Em.
  { rewrite E. replace (h * 2 ^ 32 + a * 2 ^ 24 + b) with (b + (h * 2 ^ 8 + a) * 2 ^ 24) by lia.
    rewrite Z.mod_add by lia. apply Z.mod_small. lia. }
  assert (cache p + h < 256) as Hch by (destruct (Z.eqb_spec (cache p) 255); lia).
  unfold RangeEnc_ShiftLow. rewrite Eh, Ea, Eb, Em.
  destruct ((u32 (low p) <? 0xFF000000) || negb (h =? 0)) eqn:Hwr.
  - destruct (ShiftLow_write h a (b * 256) p Hh ltac:(lia) Hch ltac:(lia)) as (p' & E' & Hr).
    exists p'. split; [exact E'|]. pose proof (refilled_shifted h a b p p' Hh ltac:(lia) Hch Hs E Hr) as Hsh.
    destruct Hr as (R1 & R2 & R3 & R4 & R5 & _). split; [done|]. split; [done|]. split; [|split; [done|split; [done|]]].
    + constructor; rewrite ?R2, ?R3, ?R4; try lia.
      rewrite E32 in Hwr. apply orb_true_iff in Hwr. rewrite Z.ltb_lt, negb_true_iff, Z.eqb_neq in Hwr.
      destruct (Z.eqb_spec a 255), (Z.eqb_spec (cache p) 255); lia.
    + intros Hlow. split; [done|]. rewrite R2. apply (Z.div_unique _ _ _ b); [left; lia|lia].
  - apply orb_false_iff in Hwr as [Hge Hh0]. rewrite Z.ltb_ge, E32 in Hge. rewrite negb_false_iff, Z.eqb_eq in Hh0.
    assert (a = 255) as -> by lia. subst h.
    assert (u64 (cacheSize (set_low (b * 256) p) + 1) = cacheSize p + 1) as Ecs by (cbn; apply wrap_small; unfold in_width; lia).
    eexists. split; [reflexivity|]. split; [done|]. split; [done|]. rewrite Ecs.
    split; [constructor; cbn; try lia; destruct (Z.eqb_spec (cache p) 255); lia|].
    split; [done|]. split; [|intros; lia]. intros Hok. split; [done|].
    unfold total, digits, shifts, out. cbn. rewrite Z.pow_add_r by lia. change (256 ^ 1) with 256.
    split; [rewrite E; lia|]. split; [lia|done].
Qed.

(** ** The end of the stream *)

(** [p'] is [p] with [k] more digits. *)
Definition scaled (k : Z) (p p' : CRangeEnc) : Prop :=
  range p' = range p /\
  (res p' = SZ_OK -> res p = SZ_OK /\ total p' = 256 ^ k * total p /\ shifts p' = shifts p + k /\
     (bytes (out p) -> bytes (out p'))).

Lemma scaled_shift k p q r : 0 <= k -> scaled k p q -> range r = range q -> shifted q r -> scaled (k + 1) p r.
Proof.
  intros Hk [H1 H2] Hr H3. split; [congruence|]. intros Hok. destruct (H3 Hok) as (Hok' & T & S & B).
  destruct (H2 Hok') as (Hok2 & T2 & S2 & B2). split; [done|]. rewrite T, T2, Z.pow_add_r, S, S2 by lia.
  split; [lia|]. split; [lia|]. auto.
Qed.

Lemma FlushData_ok n w p :
  rc_inv (n + 5) w p -> 0 <= n ->
  exists p', RangeEnc_FlushData p = Some p' /\ scaled 5 p p' /\ low p' = 0 /\ cacheSize p' = 0 /\ cache p' = 0.
Proof.
  intros Hp Hn. set (l := low p).
  assert (rc_inv (n + 5) 1 p) as H0 by (destruct Hp; constructor; try done; lia).
  assert (forall m w q, rc_inv m w q -> rc_inv m 1 q) as Hone by (intros m w' q []; constructor; try done; lia).
  unfold RangeEnc_FlushData.
  destruct (ShiftLow_ok (n + 4) 1 p) as (p1 & -> & R1 & _ & I1 & L1 & S1 & _); [by replace (n + 4 + 1) with (n + 5) by lia|lia|lia|]. opt.
  destruct (ShiftLow_ok (n + 3) 1 p1) as (p2 & -> & R2 & _ & I2 & L2 & S2 & _); [replace (n + 3 + 1) with (n + 4) by lia; by apply Hone in I1|lia|lia|]. opt.
  destruct (ShiftLow_ok (n + 2) 1 p2) as (p3 & -> & R3 & _ & I3 & L3 & S3 & _); [replace (n + 2 + 1) with (n + 3) by lia; by apply Hone in I2|lia|lia|]. opt.
  destruct (ShiftLow_ok (n + 1) 1 p3) as (p4 & -> & R4 & _ & I4 & L4 & S4 & _); [replace (n + 1 + 1) with (n + 2) by lia; by apply Hone in I3|lia|lia|]. opt.
  destruct (ShiftLow_ok n 1 p4) as (p5 & -> & R5 & _ & I5 & L5 & S5 & F5); [by apply Hone in I4|lia|lia|].
  assert (low p4 = 0) as Z4.
  { rewrite L4, L3, L2, L1. clear. generalize (low p). intros x.
    rewrite (Z.div_mod x (2 ^ 24)) at 1 by lia. Z.to_euclidean_division_equations. lia. }
  destruct F5 as [Cs Cc]; [lia|].
  exists p5. split; [done|]. split; [|split; [by rewrite L5, Z4|split; [done|by rewrite Cc, Z4]]].
  assert (scaled 0 p p) as Hs by (split; [done|]; intros; split_and!; try done; lia).
  apply (scaled_shift 0 _ _ p1) in Hs; [|lia|done|done]. apply (scaled_shift 1 _ _ p2) in Hs; [|lia|done|done].
  apply (scaled_shift 2 _ _ p3) in Hs; [|lia|done|done]. apply (scaled_shift 3 _ _ p4) in Hs; [|lia|done|done].
  by apply (scaled_shift 4 _ _ p5) in Hs; [|lia|done|done].
Qed.

(** The finished stream is [total] with its digits written out. *)
Lemma flush_stream n w p :
  rc_inv (n + 5) w p -> 0 <= n ->
  exists p', RangeEnc_FlushData p = Some p' /\
    let s := RangeEnc_FlushStream p' in
    res s = SZ_OK ->
    res p = SZ_OK /\ written (outStream s) = out s /\ be_val (out s) = total p /\
    Z.of_nat (length (out s)) = shifts p + 5 /\ (bytes (out p) -> bytes (out s)).
Proof.
  intros Hp Hn. destruct (FlushData_ok n w p Hp Hn) as (p' & -> & [_ Hs] & L & Cs & C). exists p'. split; [done|].
  cbv zeta. intros Hok. destruct (FlushStream_wrote p') as [(_ & _ & _ & _ & _ & Ho) Hb].
  destruct (Ho Hok) as [Hok' Eo]. rewrite app_nil_r in Eo. destruct (Hs Hok') as (Hok2 & T & S & B). split; [done|].
  split; [unfold out; by rewrite Hb, app_nil_r|]. rewrite Eo.
  unfold total at 1, digits in T. unfold shifts at 1 in S. rewrite L, Cs, C in T. rewrite Cs in S.
  change (256 ^ 0) with 1 in T. change (256 ^ 5) with (256 * 2 ^ 32) in T. split; [lia|]. split; [lia|done].
Qed.

(** ** One bit *)

(** The new interval and probability after a bit. *)
Definition bit_split (b : bool) (x bound : Z) (c : coder) : Z * Z * Z :=
  if b then (range (rc c) - bound, low (rc c) + bound, x - (x >>> kNumMoveBits))
  else (bound, low (rc c), x + ((kBitModelTotal - x) >>> kNumMoveBits)).

Definition new_bound (c : coder) (x : Z) : Z := (range (rc c) >>> kNumBitModelTotalBits) * x.

Lemma new_bound_ok c x :
  2 ^ 24 <= range (rc c) < 2 ^ 32 -> prob_ok x ->
  2 ^ 17 <= new_bound c x /\ 2 ^ 17 <= range (rc c) - new_bound c x.
Proof.
  intros Hr Hx. unfold new_bound, prob_ok in *. rewrite Z.shiftr_div_pow2 by done. change (2 ^ kNumBitModelTotalBits) with 2048.
  pose proof (Z.div_mod (range (rc c)) 2048 ltac:(lia)). pose proof (Z.mod_pos_bound (range (rc c)) 2048 ltac:(lia)). nia.
Qed.

Lemma RC_BIT_PRE_ok c prob x :
  load (mem c) prob = Some x -> 2 ^ 24 <= range (rc c) < 2 ^ 32 -> prob_ok x ->
  RC_BIT_PRE c prob = Some (x, new_bound c x).
Proof.
  intros Hl Hr Hx. unfold RC_BIT_PRE. rewrite Hl. opt. fold (new_bound c x). pose proof (new_bound_ok c x Hr Hx).
  by rewrite wrap_small by (unfold in_width; lia).
Qed.

(** What the three versions of the code do. *)
Definition code_bit (prob : ptr) (b : bool) (x : Z) (c : coder) : option coder :=
  let '(r, l, v) := bit_split b x (new_bound c x) c in
  c ← rc_store c prob r l v; RC_NORM c.

Lemma prob_shift x : prob_ok x ->
  0 <= x - (x >>> kNumMoveBits) < 2 ^ 16 /\ 0 <= x + ((kBitModelTotal - x) >>> kNumMoveBits) < 2 ^ 16 /\
  0 <= x >>> kNumMoveBits /\ 0 <= (kBitModelTotal - x) >>> kNumMoveBits < 2 ^ 11 /\
  (31 - x) >>> kNumMoveBits = - (x >>> kNumMoveBits).
Proof.
  unfold prob_ok, kBitModelTotal, kNumMoveBits. intros Hx. change (1 <<< kNumBitModelTotalBits) with 2048.
  rewrite !Z.shiftr_div_pow2 by lia. change (2 ^ 5) with 32. Z.to_euclidean_division_equations. lia.
Qed.

Lemma land_all_ones x : in_width 32 x -> (x &&& (2 ^ 32 - 1)) = x.
Proof. intros Hx. rewrite land_ones_mod by lia. by apply wrap_small. Qed.

Section OneBit.
Context (c : coder) (prob : ptr) (x : Z).
Hypothesis Hload : load (mem c) prob = Some x.
Hypothesis Hrange : 2 ^ 24 <= range (rc c) < 2 ^ 32.
Hypothesis Hlow : 0 <= low (rc c) < 2 ^ 33.
Hypothesis Hx : prob_ok x.

Lemma RC_BIT_branch b : RC_BIT prob (Z.b2z b) c = code_bit prob b x c.
Proof using Hload Hrange Hlow Hx.
  unfold RC_BIT, code_bit. rewrite (RC_BIT_PRE_ok c prob x) by done. opt.
  pose proof (new_bound_ok c x Hrange Hx). pose proof (prob_shift x Hx) as (P1 & P2 & P3 & P4 & P5).
  assert (in_width 32 (new_bound c x)) as Hb by (unfold in_width; lia). pose proof Hx as Hx'. unfold prob_ok in Hx'.
  change (kBitModelTotal - ((1 <<< kNumMoveBits) - 1)) with 2017. change ((1 <<< kNumMoveBits) - 1) with 31.
  cbv zeta. unfold bit_split. destruct b; cbn [Z.b2z].
  - change (u32 (0 - 1)) with (2 ^ 32 - 1). change (u32 (1 - 1)) with 0. rewrite (Z.land_comm (2 ^ 32 - 1)).
    rewrite !land_all_ones by (done || unfold in_width; lia).
    rewrite Z.land_0_r, Z.land_0_l, Z.add_0_r. change (u32 (0 + 31)) with 31.
    replace (u32 (u32 (range (rc c) - new_bound c x))) with (range (rc c) - new_bound c x)
      by (symmetry; rewrite wrap_wrap by lia; apply wrap_small; unfold in_width; lia).
    rewrite (wrap_small 64) by (unfold in_width; lia).
    assert (s32 (u32 (31 - x)) = 31 - x) as ->.
    { unfold s32, wrap. destruct (Z.eq_dec x 31) as [->|]; [done|].
      rewrite <-(Z.mod_add (31 - x) 1), Z.mod_small by lia. destruct (Z.ltb_spec (31 - x + 1 * 2 ^ 32) (2 ^ 31)); lia. }
    rewrite P5. unfold wrap at 1 2. rewrite Zplus_mod_idemp_r.
    rewrite (Z.mod_small _ (2 ^ 32)) by lia. by replace (x + - (x >>> kNumMoveBits)) with (x - (x >>> kNumMoveBits)) by lia.
  - change (u32 (0 - 0)) with 0. change (u32 (0 - 1)) with (2 ^ 32 - 1).
    rewrite !Z.land_0_r, Z.land_0_l. change (u32 (0 - 0)) with 0. rewrite Z.add_0_l, Z.add_0_r, land_all_ones by done.
    change (u32 (((2 ^ 32 - 1) &&& 2017) + 31)) with 2048.
    rewrite !(wrap_small 32 (new_bound c x)), (wrap_small 64) by (done || unfold in_width; lia).
    rewrite (wrap_small 32 (2048 - x)) by (unfold in_width; lia).
    assert (s32 (2048 - x) = kBitModelTotal - x) as -> by (unfold s32; destruct (Z.ltb_spec (2048 - x) (2 ^ 31)); (done || lia)).
    by rewrite (wrap_small 32 ((kBitModelTotal - x) >>> kNumMoveBits)), (wrap_small 32) by (unfold in_width; lia).
Qed.

Lemma RC_BIT_0_branch : RC_BIT_0 prob (x, new_bound c x) c = code_bit prob false x c.
Proof using Hload Hrange Hlow Hx.
  unfold RC_BIT_0, RC_BIT_0_BASE, code_bit, bit_split. pose proof (prob_shift x Hx) as (P1 & P2 & P3 & P4 & P5).
  pose proof Hx as Hx'. unfold prob_ok in Hx'.
  rewrite (wrap_small 32 (kBitModelTotal - x)) by (unfold in_width; change kBitModelTotal with 2048; lia).
  by rewrite (wrap_small 32) by (unfold in_width; lia).
Qed.

Lemma RC_BIT_1_branch : RC_BIT_1 prob (x, new_bound c x) c = code_bit prob true x c.
Proof using Hload Hrange Hlow Hx.
  unfold RC_BIT_1, RC_BIT_1_BASE, code_bit, bit_split. pose proof (prob_shift x Hx) as (P1 & P2 & P3 & P4 & P5).
  pose proof (new_bound_ok c x Hrange Hx).
  by rewrite !(wrap_small 32), (wrap_small 64) by (unfold in_width; lia).
Qed.
End OneBit.

(** ** Requests *)

(** What the encoder is asked to code: a bit with a probability, or a direct bit. *)
Inductive req := RBit (p : ptr) (b : bool) | RDirect (b : bool).

Definition encode1 (r : req) (c : coder) : option coder :=
  match r with RBit p b => RC_BIT p (Z.b2z b) c | RDirect b => rc_direct (Z.b2z b) c end.

Fixpoint encode (rs : list req) (c : coder) : option coder :=
  match rs with [] => Some c | r :: rs => c ← encode1 r c; encode rs c end.

Lemma encode_app rs1 rs2 c : encode (rs1 ++ rs2) c = c ← encode rs1 c; encode rs2 c.
Proof. revert c. induction rs1 as [|r rs IH]; intros c; cbn; [done|]. destruct (encode1 r c); [apply IH|done]. Qed.

(** The number the first digits of the stream stand for. *)
Definition val (inp : list Z) (n : Z) : Z := be_val (take (Z.to_nat n + 5) inp).

(** The stream is in the interval of the encoder. *)
Definition compat (inp : list Z) (p : CRangeEnc) : Prop :=
  0 <= shifts p /\ shifts p + 5 <= Z.of_nat (length inp) /\ total p <= val inp (shifts p) < total p + range p.

Lemma val_step inp n : 0 <= n -> n + 6 <= Z.of_nat (length inp) ->
  exists b, rd inp (n + 5) = Some b /\ val inp (n + 1) = 256 * val inp n + b.
Proof.
  intros Hn Hl. destruct (rd_Some inp (n + 5)) as [b Hb]; [lia|]. exists b. split; [done|].
  rewrite rd_lookup in Hb by lia. replace (Z.to_nat (n + 5)) with (Z.to_nat n + 5)%nat in Hb by lia.
  unfold val. replace (Z.to_nat (n + 1) + 5)%nat with (S (Z.to_nat n + 5)) by lia.
  rewrite (take_S_r _ _ _ Hb), be_val_snoc. lia.
Qed.

(** What RC_NORM does to the state [p]. *)
Definition normed (p p' : CRangeEnc) : Prop :=
  res p' = SZ_OK -> res p = SZ_OK /\
    (2 ^ 24 <= range p /\ p' = p \/
     range p < 2 ^ 24 /\ range p' = 256 * range p /\ total p' = 256 * total p /\ shifts p' = shifts p + 1) /\
    (bytes (out p) -> bytes (out p')).

Lemma RC_NORM_ok n c :
  rc_inv (n + 1) (range (rc c)) (rc c) -> 2 ^ 16 <= range (rc c) < 2 ^ 32 -> 0 <= n ->
  exists c', RC_NORM c = Some c' /\ mem c' = mem c /\ rc_inv n (range (rc c')) (rc c') /\
    2 ^ 24 <= range (rc c') < 2 ^ 32 /\ normed (rc c) (rc c').
Proof.
  intros Hi Hr Hn. unfold RC_NORM. change kTopValue with (2 ^ 24).
  destruct (Z.ltb_spec (range (rc c)) (2 ^ 24)) as [Hlt|Hge].
  - assert (u32 (range (rc c) <<< 8) = 256 * range (rc c)) as ->.
    { rewrite Z.shiftl_mul_pow2 by lia. rewrite wrap_small by (unfold in_width; lia). lia. }
    set (q := set_range (256 * range (rc c)) (rc c)).
    assert (rc_inv (n + 1) (range (rc c)) q) as Hq by (destruct Hi; by constructor).
    destruct (ShiftLow_ok n _ q Hq) as (p' & -> & E1 & _ & I & _ & Sh & _); [lia|done|]. opt.
    eexists. split; [reflexivity|]. cbn. rewrite E1. cbn. split; [done|]. split; [done|]. split; [lia|].
    intros Hok. destruct (Sh Hok) as (Hok' & T & S & B). split; [done|]. split; [right|done].
    rewrite E1. done.
  - exists c. split; [done|]. split; [done|]. split; [by apply (rc_inv_n (n + 1)); [|lia]|]. split; [lia|].
    intros Hok. split; [done|]. split; [by left|done].
Qed.

Lemma compat_normed inp p p' :
  normed p p' -> res p' = SZ_OK -> 0 <= shifts p -> bytes inp -> compat inp p' -> compat inp p.
Proof.
  intros Hn Hok Hs Hb (H0 & Hl & Hc). destruct (Hn Hok) as (_ & [[Hr ->]|(Hr & Er & Et & Es)] & _); [done|].
  rewrite Er, Et, Es in *. destruct (val_step inp (shifts p)) as (b & Hrd & Ev); [done|lia|].
  rewrite Ev in Hc. pose proof (rd_Forall _ _ _ _ Hb Hrd) as Hw. unfold in_width in Hw. change (2 ^ 8) with 256 in Hw.
  split; [done|]. split; lia.
Qed.

(** ** The decoder that follows *)

Definition dmatch (inp : list Z) (p : CRangeEnc) (d : LzmaParse.rc) : Prop :=
  LzmaParse.range d = range p /\ code d = val inp (shifts p) - total p /\ LzmaParse.buf d = shifts p + 5.

Lemma normalize_dmatch inp p p' d :
  normed p p' -> res p' = SZ_OK -> compat inp p -> compat inp p' -> bytes inp -> dmatch inp p d ->
  exists d', NORMALIZE inp d = Some d' /\ dmatch inp p' d' /\ probs d' = probs d.
Proof.
  intros Hn Hok (H0 & Hl & Hc) (H0' & Hl' & Hc') Hb (E1 & E2 & E3). unfold NORMALIZE. change LzmaParse.kTopValue with (2 ^ 24).
  destruct (Hn Hok) as (_ & [[Hr ->]|(Hr & Er & Et & Es)] & _).
  - destruct (Z.ltb_spec (LzmaParse.range d) (2 ^ 24)); [lia|]. by exists d.
  - destruct (Z.ltb_spec (LzmaParse.range d) (2 ^ 24)); [|lia]. rewrite Es in Hl'.
    destruct (val_step inp (shifts p)) as (b & Hrd & Ev); [done|lia|]. rewrite E3, Hrd. opt.
    eexists. split; [reflexivity|]. pose proof (rd_Forall _ _ _ _ Hb Hrd) as Hw. unfold in_width in Hw. change (2 ^ 8) with 256 in Hw.
    unfold dmatch, shift_in. cbn. rewrite E1, E2, E3, Er, Es, Et, Ev. split; [|done]. split; [|split; [|lia]].
    + rewrite Z.shiftl_mul_pow2 by lia. pose proof (ok_range_pos := Hc). rewrite wrap_small by (unfold in_width; lia). lia.
    + rewrite Z.shiftl_mul_pow2 by lia. rewrite wrap_small by (unfold in_width; lia).
      rewrite Z.lor_comm, <-Z.shiftl_mul_pow2, lor_shiftl_add by lia. lia.
Qed.

Section Follow.
Context (sz : arr -> Z) (idx : ptr -> Z).

Definition valid (p : ptr) : Prop := 0 <= p.2 < sz p.1.

Hypothesis idx_inj : forall p q, valid p -> valid q -> idx p = idx q -> p = q.
Hypothesis idx_pos : forall p, valid p -> 0 <= idx p.

Record enc_ok (n : Z) (c : coder) : Prop := {
  eo_inv : rc_inv n (range (rc c)) (rc c);
  eo_range : 2 ^ 24 <= range (rc c) < 2 ^ 32;
  eo_size : forall a, Z.of_nat (length (mem c a)) = sz a;
  eo_prob : forall p x, load (mem c) p = Some x -> prob_ok x
}.

Lemma enc_ok_le n n' c : enc_ok n c -> n' <= n -> enc_ok n' c.
Proof. intros [H1 H2 H3 H4] Hn. constructor; try done. by apply (rc_inv_n n). Qed.

Lemma eo_low n c : enc_ok n c -> 0 <= low (rc c) < 2 ^ 33.
Proof. intros [[_ Hl Hw Ht _] _ _ _]. destruct (cache (rc c) =? 255); lia. Qed.

Lemma load_valid n c p x : enc_ok n c -> load (mem c) p = Some x -> valid p.
Proof. intros Hc Hx. pose proof (rd_range _ _ _ Hx) as Hr. rewrite (eo_size _ _ Hc) in Hr. exact Hr. Qed.

Lemma load_Some n c p : enc_ok n c -> valid p -> exists x, load (mem c) p = Some x /\ prob_ok x.
Proof.
  intros Hc Hv. destruct (rd_Some (mem c p.1) p.2) as [x Hx]; [by rewrite (eo_size _ _ Hc)|].
  exists x. split; [done|]. by apply (eo_prob _ _ Hc p).
Qed.

(** A probability is stored. *)
Lemma store_ok n c p x v :
  enc_ok n c -> load (mem c) p = Some x -> prob_ok v ->
  exists m, store_at (mem c) p v = Some m /\ (forall a, Z.of_nat (length (m a)) = sz a) /\
    (forall q y, load m q = Some y -> q = p /\ y = v \/ q <> p /\ load (mem c) q = Some y) /\
    (forall q y, load m q = Some y -> prob_ok y).
Proof.
  destruct p as [pa pi]. intros Hc Hx Hv. pose proof (rd_range _ _ _ Hx) as Hr. cbn in Hr.
  unfold store_at. cbn [fst snd]. rewrite wrz_Some by done. opt. eexists. split; [reflexivity|].
  assert (forall q y, load (fun a => if decide (a = pa) then <[Z.to_nat pi := v]> (mem c pa) else mem c a) q = Some y ->
    q = (pa, pi) /\ y = v \/ q <> (pa, pi) /\ load (mem c) q = Some y) as Hq.
  { intros [a i] y. unfold load. cbn. destruct (decide (a = pa)) as [->|Ha].
    - intros Hy. destruct (decide (i = pi)) as [->|Hi].
      + left. rewrite rd_lookup, list_lookup_insert_eq in Hy by lia. split; [done|congruence].
      + right. split; [by intros [= <-]|]. rewrite rd_insert_ne in Hy by lia. done.
    - intros Hy. right. split; [by intros [= <-]|done]. }
  split; [|split; [done|]].
  - intros a. destruct (decide (a = pa)) as [->|]; [rewrite length_insert|]; apply (eo_size _ _ Hc).
  - intros q y Hy. destruct (Hq q y Hy) as [[_ ->]|[_ H']]; [done|]. by apply (eo_prob _ _ Hc q).
Qed.

Definition agree (m : store) (l : list Z) : Prop := forall q x, load m q = Some x -> rd l (idx q) = Some x.

Definition sync (inp : list Z) (c : coder) (d : LzmaParse.rc) : Prop :=
  agree (mem c) (probs d) /\ exists d', NORMALIZE inp d = Some d' /\ dmatch inp (rc c) d' /\ probs d' = probs d.

Lemma code_bit_ok n c p b x :
  enc_ok (n + 1) c -> 0 <= n -> load (mem c) p = Some x ->
  let '(r, l, v) := bit_split b x (new_bound c x) c in
  exists c' m, code_bit p b x c = Some c' /\ enc_ok n c' /\ mem c' = m /\ store_at (mem c) p v = Some m /\
    normed (set_range r (set_low l (rc c))) (rc c').
Proof using Type.
  intros Hc Hn Hx. pose proof (eo_prob _ _ Hc _ _ Hx) as Hp. pose proof (eo_range _ _ Hc) as Hr.
  pose proof (new_bound_ok c x Hr Hp) as [B1 B2]. pose proof (prob_shift x Hp) as (P1 & P2 & P3 & P4 & _).
  assert (let '(r, l, v) := bit_split b x (new_bound c x) c in
    2 ^ 16 <= r < 2 ^ 32 /\ prob_ok v /\ in_width 16 v /\ exists d, l = low (rc c) + d /\ 0 <= d /\ d + r <= range (rc c)) as Hs.
  { unfold bit_split. destruct b.
    - split; [lia|]. split; [exact (prob_down x Hp)|]. split; [exact P1|]. exists (new_bound c x). lia.
    - split; [lia|]. split; [exact (prob_up x Hp)|]. split; [exact P2|]. exists 0. lia. }
  unfold code_bit. destruct (bit_split b x (new_bound c x) c) as [[r l] v]. destruct Hs as (Hr' & Hv & Hw & d & -> & Hd & Hle).
  destruct (store_ok _ c p x v Hc Hx Hv) as (m & Em & Msz & _ & Mok).
  unfold rc_store. rewrite (wrap_small 16 v Hw), Em. opt.
  set (c1 := {| rc := set_range r (set_low (low (rc c) + d) (rc c)); mem := m |}).
  assert (rc_inv (n + 1) r (rc c1)) as Hi.
  { destruct (rc_inv_sub _ _ _ d r (eo_inv _ _ Hc)) as [I1 I2 I3 I4 I5]; [lia|lia|lia|]. by constructor. }
  destruct (RC_NORM_ok n c1 Hi Hr' Hn) as (c' & En & Ec & Ei & Er & Hnorm).
  exists c', m. split; [exact En|]. split; [|done].
  constructor; try done; rewrite Ec; [exact Msz|exact Mok].
Qed.

Lemma agree_store n c p x v m l :
  enc_ok n c -> load (mem c) p = Some x -> prob_ok v -> store_at (mem c) p v = Some m -> agree (mem c) l ->
  exists l', wrz l (idx p) v = Some l' /\ agree m l'.
Proof using idx_inj idx_pos.
  intros Hc Hx Hv Em Ha. pose proof (load_valid _ _ _ _ Hc Hx) as Hp. pose proof (rd_range _ _ _ (Ha _ _ Hx)) as Hl.
  destruct (store_ok _ c p x v Hc Hx Hv) as (m' & Em' & _ & Mq & _). assert (m' = m) as -> by congruence.
  rewrite wrz_Some by done. eexists. split; [reflexivity|]. intros q y Hy.
  destruct (Mq q y Hy) as [[-> ->]|[Hne Hy']].
  - rewrite rd_lookup, list_lookup_insert_eq by lia. done.
  - pose proof (load_valid _ _ _ _ Hc Hy') as Hq. rewrite rd_insert_ne; [by apply Ha|by apply idx_pos|].
    intros E. apply Hne. symmetry. by apply idx_inj.
Qed.

(** The decoder takes the branch of the bit that was coded. *)
Lemma bit_follow n inp c p b x c' d :
  enc_ok (n + 1) c -> 0 <= n -> load (mem c) p = Some x -> code_bit p b x c = Some c' -> res (rc c') = SZ_OK ->
  bytes inp -> compat inp (rc c') -> compat inp (rc c) -> agree (mem c) (probs d) -> dmatch inp (rc c) d ->
  (code d <? bound_of d x) = negb b /\
  exists d', (if b then UPDATE_1 (idx p) x (bound_of d x) d else UPDATE_0 (idx p) x (bound_of d x) d) = Some d' /\
    sync inp c' d'.
Proof using idx_inj idx_pos.
  intros Hc Hn Hx Ec Hok Hb Hcp' Hcp Ha (D1 & D2 & D3).
  pose proof (eo_prob _ _ Hc _ _ Hx) as Hp. pose proof (eo_range _ _ Hc) as Hr. pose proof (new_bound_ok c x Hr Hp) as [B1 B2].
  pose proof (code_bit_ok n c p b x Hc Hn Hx) as Hstep. destruct (bit_split b x (new_bound c x) c) as [[r l] v] eqn:Eb.
  destruct Hstep as (c2 & m & Ec2 & _ & Em & Est & Hnorm). assert (c2 = c') as -> by congruence. clear Ec2.
  set (p1 := set_range r (set_low l (rc c))) in *.
  assert (compat inp p1) as Hc1 by (apply (compat_normed inp p1 (rc c')); try done; apply Hcp).
  assert (bound_of d x = new_bound c x) as Ebd.
  { unfold bound_of. rewrite D1. fold (new_bound c x). apply wrap_small. unfold in_width. lia. }
  assert (prob_ok v /\ total p1 = total (rc c) + (if b then new_bound c x else 0) /\
    r = (if b then range (rc c) - new_bound c x else new_bound c x)) as (Hv & T1 & Er).
  { unfold total, p1, digits, out. cbn. unfold bit_split in Eb. destruct b; injection Eb as <- <- <-.
    - split; [exact (prob_down x Hp)|]. lia.
    - split; [exact (prob_up x Hp)|]. lia. }
  destruct (agree_store _ c p x v m (probs d) Hc Hx Hv Est Ha) as (l' & El & Ha').
  assert (shifts p1 = shifts (rc c)) as S1 by done. destruct Hc1 as (C0 & C1 & C2). rewrite S1 in C2. change (range p1) with r in C2.
  destruct Hcp as (K0 & K1 & K2).
  assert (forall cd, dmatch inp p1 (LzmaParse.set_range r cd (set_probs l' d)) -> sync inp c' (LzmaParse.set_range r cd (set_probs l' d))) as Hgo.
  { intros cd Hm. split; [by rewrite Em|]. apply (normalize_dmatch inp p1); done. }
  rewrite Ebd. unfold bit_split in Eb. destruct b; injection Eb as Hr1 Hl1 Hv1.
  - split; [destruct (Z.ltb_spec (code d) (new_bound c x)); [lia|done]|].
    unfold UPDATE_1. replace (x - (x >>> LzmaParse.kNumMoveBits)) with v by (rewrite <-Hv1; done). rewrite El. opt.
    rewrite (wrap_small 32 (LzmaParse.range d - _)), (wrap_small 32 (code d - _)) by (unfold in_width; lia).
    eexists. split; [reflexivity|]. replace (LzmaParse.range d - new_bound c x) with r by lia. apply Hgo.
    split; [done|]. cbn. rewrite T1, S1. split; [lia|done].
  - split; [destruct (Z.ltb_spec (code d) (new_bound c x)); [done|lia]|].
    unfold UPDATE_0. replace (x + ((LzmaParse.kBitModelTotal - x) >>> LzmaParse.kNumMoveBits)) with v by (rewrite <-Hv1; done). rewrite El. opt.
    eexists. split; [reflexivity|]. replace (new_bound c x) with r by lia. apply Hgo.
    split; [done|]. cbn. rewrite T1, S1. split; [lia|done].
Qed.

(** ** Direct bits *)

Lemma direct_ok n c b :
  enc_ok (n + 1) c -> 0 <= n ->
  let r := range (rc c) / 2 in
  exists c', rc_direct (Z.b2z b) c = Some c' /\ enc_ok n c' /\ mem c' = mem c /\
    normed (set_range r (set_low (low (rc c) + (if b then r else 0)) (rc c))) (rc c').
Proof using Type.
  intros Hc Hn r. pose proof (eo_range _ _ Hc) as Hr. pose proof (eo_low _ _ Hc) as Hlow.
  assert (2 ^ 23 <= r < 2 ^ 31 /\ 2 * r <= range (rc c)) as [Hr1 Hr2] by (unfold r; Z.to_euclidean_division_equations; lia).
  unfold rc_direct. rewrite Z.shiftr_div_pow2 by lia. change (2 ^ 1) with 2. fold r.
  assert ((r &&& u32 (0 - Z.b2z b)) = (if b then r else 0)) as ->.
  { destruct b; cbn [Z.b2z]; [change (u32 (0 - 1)) with (2 ^ 32 - 1); apply land_all_ones; unfold in_width; lia|apply Z.land_0_r]. }
  rewrite (wrap_small 64) by (unfold in_width; destruct b; lia).
  set (p1 := set_range r (set_low (low (rc c) + (if b then r else 0)) (rc c))).
  assert (rc_inv (n + 1) r p1) as Hi.
  { destruct (rc_inv_sub _ _ _ (if b then r else 0) r (eo_inv _ _ Hc)) as [I1 I2 I3 I4 I5]; [destruct b; lia..|]. by constructor. }
  destruct (RC_NORM_ok n (set_rc p1 c) Hi) as (c' & En & Ec & Ei & Er & Hnorm); [cbn; lia|done|].
  exists c'. split; [exact En|]. split; [|done]. destruct Hc. constructor; try done; by rewrite Ec.
Qed.

Lemma direct_follow n inp c b c' d :
  enc_ok (n + 1) c -> 0 <= n -> rc_direct (Z.b2z b) c = Some c' -> res (rc c') = SZ_OK ->
  bytes inp -> compat inp (rc c') -> compat inp (rc c) -> agree (mem c) (probs d) -> dmatch inp (rc c) d ->
  exists d', direct_real d = ((if b then 0 else 2 ^ 32 - 1), d') /\ sync inp c' d'.
Proof using Type.
  intros Hc Hn Ec Hok Hb Hcp' Hcp Ha (D1 & D2 & D3). pose proof (eo_range _ _ Hc) as Hr.
  destruct (direct_ok n c b Hc Hn) as (c2 & Ec2 & _ & Em & Hnorm). assert (c2 = c') as -> by congruence. clear Ec2.
  set (r := range (rc c) / 2) in *. set (p1 := set_range r (set_low (low (rc c) + (if b then r else 0)) (rc c))) in *.
  assert (2 ^ 23 <= r < 2 ^ 31 /\ 2 * r <= range (rc c)) as [Hr1 Hr2] by (unfold r; Z.to_euclidean_division_equations; lia).
  assert (compat inp p1) as Hc1 by (apply (compat_normed inp p1 (rc c')); try done; apply Hcp).
  pose proof Hc1 as (C0 & C1 & C2). assert (shifts p1 = shifts (rc c)) as S1 by done. rewrite S1 in C2.
  assert (total p1 = total (rc c) + (if b then r else 0)) as T1 by (unfold total, p1, digits, out; cbn; lia).
  rewrite T1 in C2. change (range p1) with r in C2. destruct Hcp as (K0 & K1 & K2).
  assert (forall cd, cd = code d - (if b then r else 0) -> sync inp c' (LzmaParse.set_range r cd d)) as Hgo.
  { intros cd ->. split; [by rewrite Em|]. apply (normalize_dmatch inp p1); try done.
    split; [done|]. cbn. rewrite T1, S1, D2. split; [lia|done]. }
  unfold direct_real. rewrite D1, !Z.shiftr_div_pow2 by lia. change (2 ^ 1) with 2. fold r.
  destruct b.
  - rewrite (wrap_small 32 (code d - r)) by (unfold in_width; lia). rewrite (Z.div_small (code d - r)) by lia.
    change (u32 (0 - 0)) with 0. rewrite Z.land_0_r, Z.add_0_r, wrap_small by (unfold in_width; lia).
    eexists. split; [reflexivity|]. by apply Hgo.
  - assert (u32 (code d - r) = code d - r + 2 ^ 32) as E.
    { unfold wrap. rewrite <-(Z.mod_add _ 1) by lia. rewrite Z.mod_small by lia. lia. }
    rewrite E. assert ((code d - r + 2 ^ 32) / 2 ^ 31 = 1) as -> by (Z.to_euclidean_division_equations; lia).
    change (u32 (0 - 1)) with (2 ^ 32 - 1). rewrite land_all_ones by (unfold in_width; lia).
    assert (u32 (code d - r + 2 ^ 32 + r) = code d - 0) as ->.
    { unfold wrap. replace (code d - r + 2 ^ 32 + r) with (code d + 1 * 2 ^ 32) by lia.
      rewrite Z.mod_add, Z.mod_small by lia. lia. }
    eexists. split; [reflexivity|]. by apply Hgo.
Qed.

(** ** Any sequence of requests *)

Definition valid_req (r : req) : Prop := match r with RBit p _ => valid p | RDirect _ => True end.

(** The answers a reader of the tree [t] gets. *)
Fixpoint follow {A} (t : parse A) (rs : list req) : option A :=
  match t, rs with
  | Ret a, [] => Some a
  | Bit p k, RBit q b :: rs => if p =? idx q then follow (k b) rs else None
  | Direct k, RDirect b :: rs => follow (k (if b then 0 else 2 ^ 32 - 1)) rs
  | _, _ => None
  end.

Lemma follow_bind {A B} (t : parse A) (f : A -> parse B) rs1 rs2 a b :
  follow t rs1 = Some a -> follow (f a) rs2 = Some b -> follow (t ≫= f) (rs1 ++ rs2) = Some b.
Proof using Type.
  revert rs1. induction t as [a'|p k IH|k IH|]; intros rs1 H1 H2; cbn in H1.
  - destruct rs1; [|done]. by injection H1 as <-.
  - destruct rs1 as [|[q c|c] rs1]; try done. cbn. destruct (p =? idx q); [|done]. by apply IH.
  - destruct rs1 as [|[q c|c] rs1]; try done. cbn. by apply IH.
  - done.
Qed.

Lemma encode1_ok n c r :
  enc_ok (n + 1) c -> 0 <= n -> valid_req r ->
  exists c', encode1 r c = Some c' /\ enc_ok n c' /\
    (res (rc c') = SZ_OK -> res (rc c) = SZ_OK /\ (bytes (out (rc c)) -> bytes (out (rc c'))) /\
       0 <= shifts (rc c) /\ forall inp, bytes inp -> compat inp (rc c') -> compat inp (rc c)).
Proof using Type.
  intros Hc Hn Hv. assert (0 <= shifts (rc c)) as Hs.
  { unfold shifts. destruct (inv_size _ _ _ (eo_inv _ _ Hc)). lia. }
  assert (forall c' d r0, normed (set_range r0 (set_low (low (rc c) + d) (rc c))) (rc c') -> 0 <= d -> d + r0 <= range (rc c) ->
    res (rc c') = SZ_OK -> res (rc c) = SZ_OK /\ (bytes (out (rc c)) -> bytes (out (rc c'))) /\
       0 <= shifts (rc c) /\ forall inp, bytes inp -> compat inp (rc c') -> compat inp (rc c)) as Hgo.
  { intros c' d r0 Hnorm Hd Hle Hok. destruct (Hnorm Hok) as (Hok' & _ & Hby). split; [done|]. split; [done|]. split; [done|].
    intros inp Hb Hcp. pose proof (compat_normed inp _ _ Hnorm Hok Hs Hb Hcp) as (H0 & H1 & H2).
    split; [done|]. split; [done|].
    change (shifts (set_range r0 (set_low (low (rc c) + d) (rc c)))) with (shifts (rc c)) in H2. revert H2.
    unfold total, digits, out. cbn. lia. }
  destruct r as [p b|b]; cbn [encode1].
  - destruct (load_Some _ _ _ Hc Hv) as (x & Hx & Hp). rewrite (RC_BIT_branch c p x Hx (eo_range _ _ Hc) (eo_low _ _ Hc) Hp).
    pose proof (code_bit_ok n c p b x Hc Hn Hx) as Hstep. pose proof (new_bound_ok c x (eo_range _ _ Hc) Hp).
    unfold bit_split in Hstep. destruct b; destruct Hstep as (c' & m & E & Hc' & _ & _ & Hnorm); exists c'; split; try done; split; try done.
    + intros Hok. refine (Hgo c' (new_bound c x) _ Hnorm _ _ Hok); lia.
    + intros Hok. refine (Hgo c' 0 (new_bound c x) _ _ _ Hok); [by rewrite Z.add_0_r|lia|lia].
  - destruct (direct_ok n c b Hc Hn) as (c' & E & Hc' & _ & Hnorm). exists c'. split; [done|]. split; [done|].
    pose proof (eo_range _ _ Hc). intros Hok. refine (Hgo c' _ _ Hnorm _ _ Hok); destruct b; Z.to_euclidean_division_equations; lia.
Qed.

Lemma encode_ok rs : forall n c,
  enc_ok (n + Z.of_nat (length rs)) c -> 0 <= n -> Forall valid_req rs ->
  exists c', encode rs c = Some c' /\ enc_ok n c' /\
    (res (rc c') = SZ_OK -> res (rc c) = SZ_OK /\ (bytes (out (rc c)) -> bytes (out (rc c'))) /\
       forall inp, bytes inp -> compat inp (rc c') -> compat inp (rc c)).
Proof using Type.
  induction rs as [|r rs IH]; intros n c Hc Hn Hv; cbn [encode length] in *.
  - exists c. rewrite Z.add_0_r in Hc. by split_and!.
  - apply Forall_cons_1 in Hv as [Hv Hvs].
    destruct (encode1_ok (n + Z.of_nat (length rs)) c r) as (c1 & -> & Hc1 & H1);
      [by replace (n + Z.of_nat (length rs) + 1) with (n + Z.of_nat (S (length rs))) by lia|lia|done|]. opt.
    destruct (IH n c1 Hc1 Hn Hvs) as (c' & -> & Hc' & H'). exists c'. split; [done|]. split; [done|].
    intros Hok. destruct (H' Hok) as (Hok1 & B1 & C1). destruct (H1 Hok1) as (Hok0 & B0 & _ & C0).
    split; [done|]. split; [by auto|]. by auto.
Qed.

(** The reader of a tree gets back the bits that were coded, and is in step with the
    encoder afterwards. *)
Lemma run_follow {A} (inp : list Z) (rs : list req) : forall (t : parse A) n c c' d a,
  enc_ok (n + Z.of_nat (length rs)) c -> 0 <= n -> Forall valid_req rs -> encode rs c = Some c' -> res (rc c') = SZ_OK ->
  bytes inp -> compat inp (rc c') -> sync inp c d -> follow t rs = Some a ->
  exists d', run inp t d = Some (a, d') /\ sync inp c' d'.
Proof using idx_inj idx_pos.
  induction rs as [|r rs IH]; intros t n c c' d a Hc Hn Hv Ee Hok Hb Hcp Hs Hf.
  { destruct t; try done. cbn in *. injection Ee as <-. injection Hf as <-. by exists d. }
  apply Forall_cons_1 in Hv as [Hv Hvs]. cbn [encode length] in *.
  set (m := n + Z.of_nat (length rs)). assert (enc_ok (m + 1) c) as Hc' by (by replace (m + 1) with (n + Z.of_nat (S (length rs))) by lia).
  destruct (encode1_ok m c r Hc' ltac:(lia) Hv) as (c1 & E1 & Hc1 & H1). rewrite E1 in Ee. cbn in Ee.
  destruct (encode_ok rs n c1 Hc1 Hn Hvs) as (c2 & E2 & _ & H2). assert (c2 = c') as -> by congruence.
  destruct (H2 Hok) as (Hok1 & _ & Hcp1). destruct (H1 Hok1) as (Hok0 & _ & _ & Hcp0).
  specialize (Hcp1 inp Hb Hcp). specialize (Hcp0 inp Hb Hcp1). destruct Hs as [Ha (d1 & En & Hm & Ep)].
  destruct t as [a'|p k|k|]; try done; destruct r as [q b|b]; try done; cbn [follow run encode1] in *.
  - destruct (Z.eqb_spec p (idx q)) as [->|]; [|done].
    destruct (load_Some _ _ _ Hc' Hv) as (x & Hx & Hp). rewrite (RC_BIT_branch c q x Hx (eo_range _ _ Hc') (eo_low _ _ Hc') Hp) in E1.
    rewrite (Ha _ _ Hx). opt. rewrite En. opt. rewrite <-Ep in Ha.
    destruct (bit_follow m inp c q b x c1 d1 Hc' ltac:(lia) Hx E1 Hok1 Hb Hcp1 Hcp0 Ha Hm) as (-> & d2 & Eu & Hs2).
    destruct b; cbn [negb]; rewrite Eu; opt; by apply (IH _ n c1).
  - rewrite En. opt. rewrite <-Ep in Ha.
    destruct (direct_follow m inp c b c1 d1 Hc' ltac:(lia) E1 Hok1 Hb Hcp1 Hcp0 Ha Hm) as (d2 & -> & Hs2).
    by apply (IH _ n c1).
Qed.

End Follow.

(** ** One bit of the encoder *)

Lemma RC_BIT_USE_BRANCH_eq prob b c :
  RC_BIT_USE_BRANCH prob (Z.b2z b) c = pre ← RC_BIT_PRE c prob; (if b then RC_BIT_1 else RC_BIT_0) prob pre c.
Proof. unfold RC_BIT_USE_BRANCH. destruct (RC_BIT_PRE c prob) as [[ttt bound]|]; [|done]. by destruct b. Qed.

(** C27: The two versions of RC_BIT are the same function: the masks of the version without
    branches give the interval and the probability of the version that tests the bit. *)
Theorem RC_BIT_branchless (c : coder) (prob : ptr) (x : Z) (b : bool)
    (Hload : load (mem c) prob = Some x) (Hrange : 2 ^ 24 <= range (rc c) < 2 ^ 32)
    (Hlow : 0 <= low (rc c) < 2 ^ 33) (Hx : prob_ok x) :
  RC_BIT prob (Z.b2z b) c = RC_BIT_USE_BRANCH prob (Z.b2z b) c.
Proof.
  rewrite (RC_BIT_branch c prob x) by done. rewrite RC_BIT_USE_BRANCH_eq, (RC_BIT_PRE_ok c prob x) by done. opt.
  destruct b; [by rewrite (RC_BIT_1_branch c prob x)|by rewrite (RC_BIT_0_branch c prob x)].
Qed.

(** A coder with one probability in every array. *)
Definition example_coder : coder :=
  {| rc := {| range := 2 ^ 32 - 1; cache := 0; low := 2 ^ 33 - 2 ^ 32; cacheSize := 0; buf := []; bufSize := RC_BUF_SIZE;
              outStream := {| Write _ b := Z.of_nat (length b); written := []; overflow := false |}; processed := 0; res := SZ_OK |};
     mem := fun _ => [2000] |}.

Lemma RC_BIT_branchless_witness :
  RC_BIT (isRep, 0) (Z.b2z true) example_coder = RC_BIT_USE_BRANCH (isRep, 0) (Z.b2z true) example_coder.
Proof. apply (RC_BIT_branchless example_coder (isRep, 0) 2000 true); [reflexivity|cbn; lia|cbn; lia|unfold prob_ok; lia]. Defined.

(** C18: Coding a bit keeps the coder well-formed: the range is normalised, every
    probability stays between 31 and 2017, the pending carry fits the cache and the bytes
    counted in [cacheSize], and an access to the probabilities is in its array.  [n] is
    the number of bits that can be coded before [cacheSize] could overflow. *)
Theorem RC_BIT_well_formed (sz : arr -> Z) (n : Z) (c : coder) (prob : ptr) (b : bool)
    (Hc : enc_ok sz (n + 1) c) (Hn : 0 <= n) (Hprob : valid sz prob) :
  exists c', RC_BIT prob (Z.b2z b) c = Some c' /\ enc_ok sz n c'.
Proof. destruct (encode1_ok sz n c (RBit prob b) Hc Hn Hprob) as (c' & E & Hc' & _). by exists c'. Qed.

Lemma example_coder_ok : enc_ok (fun _ => 1) 10 example_coder.
Proof.
  constructor; [constructor; cbn; lia|cbn; lia|done|]. intros [a i] x Hx. pose proof (rd_range _ _ _ Hx) as Hr. cbn in Hr.
  assert (i = 0) as -> by lia. injection Hx as <-. unfold prob_ok. lia.
Qed.

Lemma RC_BIT_well_formed_witness :
  exists c', RC_BIT (isMatch, 0) (Z.b2z true) example_coder = Some c' /\ enc_ok (fun _ => 1) 9 c'.
Proof. apply (RC_BIT_well_formed (fun _ => 1) 9 example_coder (isMatch, 0) true example_coder_ok); [lia|unfold valid; cbn; lia]. Defined.
