(* ===== verification/LzmaCodec.v ===== *)
(** * LZMA: what one symbol asks of the range coder

    Every function of the encoder (LzmaEnc.v) is the coding of a list of requests, and the
    reader of the decoder (LzmaDec.v) that answers them reads the symbol back.  [idx] maps
    a probability of the encoder's arrays to the place of the decoder's one array. *)

From stdpp Require Import base numbers list list_numbers.
From Stdlib Require Import ZArith Lia.
From S2P Require Import Prelude.
From S2P Require Import SzTypes.
From S2P Require Import LzmaParse.
From S2P Require Import LzmaDec.
From S2P Require Import RangeEnc.
From S2P Require Import LzmaEnc.
From S2P Require Import RangeCoder.
Local Open Scope Z_scope.
Local Open Scope word_scope.

(** ** Where a probability of the encoder is in the decoder *)

(** [n] bits in reverse order. *)
Fixpoint bit_rev (n : nat) (x : Z) : Z :=
  match n with O => 0 | S n => x mod 2 * 2 ^ Z.of_nat n + bit_rev n (x / 2) end.

(** A node of a reverse tree: the encoder numbers the nodes of a level by the bits in the
    order coded, the decoder by the value they form. *)
Definition rev_node (m : Z) : Z :=
  if m <? 1 then m else let j := Z.log2 m in 2 ^ j + bit_rev (Z.to_nat j) (m - 2 ^ j).

(** The trees of the distances below kNumFullDistances, one after the other. *)
Definition spec_node (i : Z) : Z :=
  if i <? 4 then i else let k := 2 ^ (Z.log2 i - 1) in i - i mod k + rev_node (i mod k).

(** [state * 16 + posState] against [posState * 16 + state] *)
Definition transposed (i : Z) : Z := i mod 16 * 16 + i / 16.

Definition start (a : arr) : Z :=
  kStartOffset +
  match a with
  | litProbs => Literal | posAlignEncoder => Align
  | isRep => IsRep | isRepG0 => IsRepG0 | isRepG1 => IsRepG1 | isRepG2 => IsRepG2
  | isMatch => IsMatch | isRep0Long => IsRep0Long
  | posSlotEncoder => PosSlot | posEncoders => SpecPos
  | lenProbs_low => LenCoder + LenLow | lenProbs_high => LenCoder + LenHigh
  | repLenProbs_low => RepLenCoder + LenLow | repLenProbs_high => RepLenCoder + LenHigh
  end.

Definition node (a : arr) (i : Z) : Z :=
  match a with
  | isMatch | isRep0Long => transposed i
  | posAlignEncoder => rev_node i
  | posEncoders => spec_node i
  | _ => i
  end.

Definition idx (p : ptr) : Z := start p.1 + node p.1 p.2.

(** Sizes in the decoder. *)
Definition span (a : arr) : Z :=
  match a with isMatch | isRep0Long => 256 | litProbs => 0 | _ => arr_size 0 a end.

Lemma rev_node_small : forallb (fun i => (0 <=? rev_node i) && (rev_node i <? 16)) (seqZ 0 16) = true /\
  forallb (fun i => forallb (fun j => (i =? j) || negb (rev_node i =? rev_node j)) (seqZ 0 16)) (seqZ 0 16) = true.
Proof. split; vm_compute; reflexivity. Qed.

Lemma spec_node_small : forallb (fun i => (0 <=? spec_node i) && (spec_node i <? 128)) (seqZ 0 128) = true /\
  forallb (fun i => forallb (fun j => (i =? j) || negb (spec_node i =? spec_node j)) (seqZ 0 128)) (seqZ 0 128) = true.
Proof. split; vm_compute; reflexivity. Qed.

Lemma small_map (f : Z -> Z) n :
  forallb (fun i => (0 <=? f i) && (f i <? Z.of_nat n)) (seqZ 0 (Z.of_nat n)) = true ->
  forallb (fun i => forallb (fun j => (i =? j) || negb (f i =? f j)) (seqZ 0 (Z.of_nat n))) (seqZ 0 (Z.of_nat n)) = true ->
  (forall i, 0 <= i < Z.of_nat n -> 0 <= f i < Z.of_nat n) /\
  (forall i j, 0 <= i < Z.of_nat n -> 0 <= j < Z.of_nat n -> f i = f j -> i = j).
Proof.
  intros H1 H2. split.
  - intros i Hi. pose proof (forall_range _ n H1 i Hi) as H. cbv beta in H. lia.
  - intros i j Hi Hj E. pose proof (forall_range _ n (forall_range _ n H2 i Hi) j Hj) as H. cbv beta in H.
    rewrite E, Z.eqb_refl in H. cbn in H. rewrite orb_false_r in H. by apply Z.eqb_eq in H.
Qed.

Lemma node_ok lclp a i j :
  0 <= lclp -> 0 <= i < arr_size lclp a ->
  (0 <= node a i /\ (a <> litProbs -> node a i < span a)) /\ (0 <= j < arr_size lclp a -> node a i = node a j -> i = j).
Proof.
  intros Hl Hi. pose proof (small_map rev_node 16 (proj1 rev_node_small) (proj2 rev_node_small)) as [R1 R2].
  pose proof (small_map spec_node 128 (proj1 spec_node_small) (proj2 spec_node_small)) as [S1 S2].
  destruct a; cbn [node span] in *;
    change (arr_size lclp posAlignEncoder) with 16 in *; change (arr_size lclp posEncoders) with 128 in *;
    change (arr_size 0 posAlignEncoder) with 16 in *; change (arr_size 0 posEncoders) with 128 in *.
  all: try (cbn [arr_size] in *; split; [split; [lia|intros; first [done|lia]]|done]).
  - split; [split; [by apply R1|intros _; by apply R1]|]. intros Hj. by apply R2.
  - unfold transposed. change (arr_size lclp isMatch) with 192 in *. split; [|intros Hj]; Z.to_euclidean_division_equations; lia.
  - unfold transposed. change (arr_size lclp isRep0Long) with 192 in *. split; [|intros Hj]; Z.to_euclidean_division_equations; lia.
  - split; [split; [by apply S1|intros _; by apply S1]|]. intros Hj. by apply S2.
Qed.

Lemma regions a b : a <> b ->
  (b <> litProbs -> start b + span b <= start a) \/ (a <> litProbs -> start a + span a <= start b).
Proof.
  intros Hne. destruct a, b; try done;
    (left; intros _; vm_compute; discriminate) || (right; intros _; vm_compute; discriminate) || (left; done) || (right; done).
Qed.

Lemma idx_inj lclp p q :
  0 <= lclp -> valid (arr_size lclp) p -> valid (arr_size lclp) q -> idx p = idx q -> p = q.
Proof.
  destruct p as [a i], q as [b j]. unfold valid, idx. cbn. intros Hl Hi Hj E.
  destruct (node_ok lclp a i j Hl Hi) as [[I1 I2] I3]. destruct (node_ok lclp b j i Hl Hj) as [[J1 J2] _].
  destruct (decide (a = b)) as [->|Hne]; [by rewrite (I3 Hj) by lia|].
  destruct (decide (a = litProbs)) as [->|Ha], (decide (b = litProbs)) as [->|Hb]; try done;
    destruct (regions _ _ Hne) as [H|H]; try (specialize (H Hb)); try (specialize (H Ha)); try done;
    try (specialize (I2 Ha)); try (specialize (J2 Hb)); try lia.
  - assert (start b + span b <= start litProbs) by (destruct b; vm_compute; done || discriminate). lia.
  - assert (start a + span a <= start litProbs) by (destruct a; vm_compute; done || discriminate). lia.
Qed.

Lemma idx_pos lclp p : 0 <= lclp -> valid (arr_size lclp) p -> 0 <= idx p.
Proof.
  destruct p as [a i]. unfold valid, idx. cbn. intros Hl Hi. destruct (node_ok lclp a i i Hl Hi) as [[I1 _] _].
  assert (0 <= start a) by (destruct a; vm_compute; discriminate). lia.
Qed.

(** ** Requests relative to an array *)

(** Offsets from a pointer, with the bits coded there. *)
Definition offs : Type := list (Z * bool).
Definition reqs_of (probs : ptr) (l : offs) : list req := map (fun '(o, b) => RBit (padd probs o) b) l.

Lemma reqs_of_valid lclp a k l :
  Forall (fun o => 0 <= k + o.1 < arr_size lclp a) l -> Forall (valid_req (arr_size lclp)) (reqs_of (a, k) l).
Proof. induction 1 as [|[o b] l H _ IH]; cbn; constructor; done. Qed.

(** The requests of a loop that codes one bit per turn. *)
Section Loops.
Context {S : Type} (issue : S -> Z * Z) (next : S -> S) (cond : S -> bool).

Fixpoint loop_offs (fuel : nat) (s : S) : option offs :=
  match fuel with
  | O => None
  | Datatypes.S fuel =>
      let '(o, b) := issue s in
      if (b =? 0) || (b =? 1) then
        if cond (next s) then l ← loop_offs fuel (next s); Some ((o, b =? 1) :: l)
        else Some [(o, b =? 1)]
      else None
  end.

Lemma do_while_offs probs (body : S * coder -> option (S * coder)) (test : S * coder -> bool) :
  (forall s c, body (s, c) = c ← RC_BIT (padd probs (issue s).1) (issue s).2 c; Some (next s, c)) ->
  (forall s c, test (s, c) = cond s) ->
  forall fuel s c l, loop_offs fuel s = Some l ->
    (r ← do_while fuel body test (s, c); Some r.2) = encode (reqs_of probs l) c.
Proof.
  intros Hb Ht. unfold do_while. induction fuel as [|fuel IH]; intros s c l Hl; [done|]. cbn [loop loop_offs] in *.
  rewrite Hb. destruct (issue s) as [o b]. cbn [fst snd].
  destruct ((b =? 0) || (b =? 1)) eqn:Hbit; [|done].
  assert (Z.b2z (b =? 1) = b) as Eb by (destruct (Z.eqb_spec b 0), (Z.eqb_spec b 1); done || (subst; done)).
  destruct (cond (next s)) eqn:Hc.
  - destruct (loop_offs fuel (next s)) as [l'|] eqn:El; [|done]. injection Hl as <-.
    cbn [reqs_of map encode encode1]. rewrite Eb.
    destruct (RC_BIT (padd probs o) b c) as [c1|]; [|done]. opt. rewrite Ht, Hc. by apply IH.
  - injection Hl as <-. cbn [reqs_of map encode encode1]. rewrite Eb.
    destruct (RC_BIT (padd probs o) b c) as [c1|]; [|done]. opt. by rewrite Ht, Hc.
Qed.
End Loops.

#[export] Instance offs_eq_dec : EqDecision offs := _.

(** A loop whose requests are checked by evaluation, for every start below [n]. *)
Lemma checked_offs {S : Type} issue next cond fuel (init : Z -> S) (l : Z -> offs) n :
  forallb (fun i => bool_decide (loop_offs issue next cond fuel (init i) = Some (l i))) (seqZ 0 (Z.of_nat n)) = true ->
  forall i, 0 <= i < Z.of_nat n -> loop_offs issue next cond fuel (init i) = Some (l i).
Proof. intros H i Hi. pose proof (forall_range _ n H i Hi) as E. by apply bool_decide_eq_true in E. Qed.

(** ** Trees read from the highest bit on *)

(** [n] bits of [r] below [node]. *)
Fixpoint tree_offs (n : nat) (node r : Z) : offs :=
  match n with
  | O => []
  | S n => let b := Z.testbit r (Z.of_nat n) in (node, b) :: tree_offs n (2 * node + Z.b2z b) r
  end.

Lemma LitEnc_offs : forallb (fun sym => bool_decide (loop_offs
    (fun sym => (sym >>> 8, (sym >>> 7) &&& 1)) (fun sym => u32 (sym <<< 1)) (fun sym => sym <? 0x10000)
    17 (sym ||| 0x100) = Some (tree_offs 8 1 sym))) (seqZ 0 256) = true.
Proof. vm_compute. reflexivity. Qed.

Lemma LitEnc_encode probs sym c :
  0 <= sym < 256 -> LitEnc_Encode probs sym c = encode (reqs_of probs (tree_offs 8 1 sym)) c.
Proof.
  intros Hs. unfold LitEnc_Encode.
  rewrite <-(do_while_offs (fun sym => (sym >>> 8, (sym >>> 7) &&& 1)) (fun sym => u32 (sym <<< 1))
    (fun sym => sym <? 0x10000) probs
    (fun '(sym, c) => c ← RC_BIT (padd probs (sym >>> 8)) ((sym >>> 7) &&& 1) c; Some (u32 (sym <<< 1), c))
    (fun '(sym, _) => sym <? 0x10000) ltac:(done) ltac:(done) 17 (sym ||| 0x100) c _
    (checked_offs _ _ _ _ (fun sym => sym ||| 0x100) (tree_offs 8 1) 256 LitEnc_offs sym Hs)).
  cbv zeta. by destruct (do_while _ _ _ _) as [[]|].
Qed.

Lemma slot_offs : forallb (fun sym => bool_decide (loop_offs
    (fun sym => (sym >>> kNumPosSlotBits, (sym >>> (kNumPosSlotBits - 1)) &&& 1)) (fun sym => u32 (sym <<< 1))
    (fun sym => sym <? 1 <<< (kNumPosSlotBits * 2))
    7 (sym + (1 <<< kNumPosSlotBits)) = Some (tree_offs 6 1 sym))) (seqZ 0 64) = true.
Proof. vm_compute. reflexivity. Qed.

Lemma slot_encode probs posSlot c :
  0 <= posSlot < 64 -> code_pos_slot probs posSlot c = encode (reqs_of probs (tree_offs 6 1 posSlot)) c.
Proof.
  intros Hs. unfold code_pos_slot.
  rewrite <-(do_while_offs (fun sym => (sym >>> kNumPosSlotBits, (sym >>> (kNumPosSlotBits - 1)) &&& 1))
    (fun sym => u32 (sym <<< 1)) (fun sym => sym <? 1 <<< (kNumPosSlotBits * 2)) probs
    (fun '(sym, c) => c ← RC_BIT (padd probs (sym >>> kNumPosSlotBits)) ((sym >>> (kNumPosSlotBits - 1)) &&& 1) c; Some (u32 (sym <<< 1), c))
    (fun '(sym, _) => sym <? 1 <<< (kNumPosSlotBits * 2)) ltac:(done) ltac:(done) 7 (posSlot + (1 <<< kNumPosSlotBits)) c _
    (checked_offs _ _ _ _ (fun sym => sym + (1 <<< kNumPosSlotBits)) (tree_offs 6 1) 64 slot_offs posSlot Hs)).
  cbv zeta. by destruct (do_while _ _ _ _) as [[]|].
Qed.

Lemma tree_offs_range n node r : 1 <= node ->
  Forall (fun o => node <= o.1 < (node + 1) * 2 ^ Z.of_nat n) (tree_offs n node r).
Proof.
  revert node. induction n as [|n IH]; intros node Hn; cbn [tree_offs]; [constructor|].
  rewrite Nat2Z.inj_succ, Z.pow_succ_r by lia. pose proof (Z.pow_pos_nonneg 2 (Z.of_nat n) ltac:(lia) ltac:(lia)).
  constructor; [cbn; nia|]. set (b := Z.b2z _). assert (0 <= b <= 1) by (unfold b; destruct (Z.testbit _ _); cbn; lia).
  eapply Forall_impl; [apply IH; lia|]. cbn. intros o Ho. nia.
Qed.

(** The decoder's tree of the same bits. *)
Lemma follow_tree lclp probs base n : forall node r,
  0 <= lclp -> (forall o, 1 <= o < (node + 1) * 2 ^ Z.of_nat n -> idx (padd probs o) = kStartOffset + (base + o)) ->
  1 <= node -> 0 <= r < 2 ^ Z.of_nat n ->
  follow idx (tree_bits n base node) (reqs_of probs (tree_offs n node r)) = Some (node * 2 ^ Z.of_nat n + r).
Proof.
  induction n as [|n IH]; intros node r Hl Hidx Hn Hr.
  - cbn in *. f_equal. lia.
  - rewrite Nat2Z.inj_succ, Z.pow_succ_r in * by lia. set (N := 2 ^ Z.of_nat n) in *.
    assert (0 < N) by (apply Z.pow_pos_nonneg; lia).
    cbn [tree_bits tree_offs reqs_of map]. unfold TREE_GET_BIT, P, IF_BIT. cbn [mbind parse_bind mret parse_ret follow].
    rewrite Hidx by nia. rewrite Z.eqb_refl.
    assert (Z.b2z (Z.testbit r (Z.of_nat n)) = r / N) as Eb.
    { rewrite Z.testbit_spec' by lia. fold N. apply Z.mod_small. split; [apply Z.div_pos; lia|apply Z.div_lt_upper_bound; lia]. }
    pose proof (Z.div_mod r N ltac:(lia)) as Er. pose proof (Z.mod_pos_bound r N ltac:(lia)).
    assert (forall m node', (m <= n)%nat -> tree_offs m node' r = tree_offs m node' (r mod N)) as Emod.
    { induction m as [|m IHm]; intros node' Hm; [done|]. cbn [tree_offs]. unfold N. rewrite Z.mod_pow2_bits_low by lia.
      by rewrite IHm by lia. }
    rewrite Emod by lia. destruct (Z.testbit r (Z.of_nat n)); cbn [Z.b2z] in *.
    + change (map _ _) with (reqs_of probs (tree_offs n (2 * node + 1) (r mod N))).
      replace (node + node + 1) with (2 * node + 1) by lia.
      rewrite IH; [f_equal; nia|done| |lia|done]. intros o Ho. apply Hidx. fold N in Ho. nia.
    + change (map _ _) with (reqs_of probs (tree_offs n (2 * node + 0) (r mod N))).
      replace (node + node) with (2 * node + 0) by lia.
      rewrite IH; [f_equal; nia|done| |lia|done]. intros o Ho. apply Hidx. fold N in Ho. nia.
Qed.

(** ** Literals after a match *)

(** The bits of [s] with those of [m] beside them as long as they agree. *)
Fixpoint matched_offs (n : nat) (same : bool) (node s m : Z) : offs :=
  match n with
  | O => []
  | S n =>
      let b := Z.testbit s (Z.of_nat n) in
      let mb := Z.testbit m (Z.of_nat n) in
      ((if same then 256 + (if mb then 256 else 0) else 0) + node, b) ::
      matched_offs n (same && eqb mb b) (2 * node + Z.b2z b) s m
  end.

Definition offs_of (same : bool) : Z := if same then 256 else 0.

(** [m << k] at bit 8. *)
Lemma land_256 x : (x &&& 256) = (if Z.testbit x 8 then 256 else 0).
Proof.
  apply Z.bits_inj'. intros i Hi. rewrite Z.land_spec. change 256 with (2 ^ 8) at 1.
  destruct (Z.eq_dec i 8) as [->|Hne].
  - rewrite Z.pow2_bits_true by lia. rewrite andb_true_r. by destruct (Z.testbit x 8).
  - rewrite Z.pow2_bits_false by lia. rewrite andb_false_r. destruct (Z.testbit x 8); [|by rewrite Z.bits_0].
    change 256 with (2 ^ 8). by rewrite Z.pow2_bits_false by lia.
Qed.

Lemma testbit_u32 x i : 0 <= i < 32 -> Z.testbit (u32 x) i = Z.testbit x i.
Proof. intros Hi. unfold wrap. apply Z.mod_pow2_bits_low. lia. Qed.

Lemma land_offs same x : (x &&& offs_of same) = (if same then if Z.testbit x 8 then 256 else 0 else 0).
Proof. destruct same; [apply land_256|apply Z.land_0_r]. Qed.

(** The flags after a bit, as the encoder computes them. *)
Lemma offs_next same x y :
  (offs_of same &&& u32 (Z.lnot (x ^^^ y))) = offs_of (same && eqb (Z.testbit x 8) (Z.testbit y 8)).
Proof.
  rewrite Z.land_comm, land_offs. destruct same; [|done]. cbn [andb].
  rewrite testbit_u32, Z.lnot_spec, Z.lxor_spec by lia. by destruct (Z.testbit x 8), (Z.testbit y 8).
Qed.

Lemma matched_offs_eq s m n : forall same,
  0 <= s < 256 -> 0 <= m < 256 -> (1 <= n <= 8)%nat -> forall fuel, (n <= fuel)%nat ->
  loop_offs
    (fun '(sym, matchByte, offs) =>
       let matchByte := u32 (matchByte <<< 1) in (offs + (matchByte &&& offs) + (sym >>> 8), (sym >>> 7) &&& 1))
    (fun '(sym, matchByte, offs) =>
       let matchByte := u32 (matchByte <<< 1) in
       let sym := u32 (sym <<< 1) in
       (sym, matchByte, offs &&& u32 (Z.lnot (matchByte ^^^ sym))))
    (fun '(sym, _, _) => sym <? 0x10000) fuel
    ((256 + s) <<< (8 - Z.of_nat n), m <<< (8 - Z.of_nat n), offs_of same) =
  Some (matched_offs n same ((256 + s) >>> Z.of_nat n) s m).
Proof.
  induction n as [|n IH]; intros same Hs Hm Hn fuel Hf; [lia|]. destruct fuel as [|fuel]; [lia|]. cbn [loop_offs matched_offs].
  rewrite Nat2Z.inj_succ in *. set (N := Z.of_nat n) in *. assert (0 <= N <= 7) as HN by lia.
  assert (forall x, 0 <= x < 512 -> u32 ((x <<< (8 - Z.succ N)) <<< 1) = x <<< (8 - N)) as Eshl.
  { intros x Hx. rewrite Z.shiftl_shiftl by lia. replace (8 - Z.succ N + 1) with (8 - N) by lia.
    apply wrap_small. rewrite Z.shiftl_mul_pow2 by lia. assert (2 ^ (8 - N) <= 2 ^ 8) by (apply Z.pow_le_mono_r; lia).
    pose proof (Z.pow_pos_nonneg 2 (8 - N)). unfold in_width. nia. }
  rewrite !Eshl by lia. cbv zeta.
  assert (Z.testbit s N = Z.testbit (256 + s) N) as Es.
  { replace (256 + s) with (s + 1 * 2 ^ 8) by lia. rewrite <-(Z.mod_pow2_bits_low (s + 1 * 2 ^ 8) 8) by lia.
    by rewrite Z.mod_add, Z.mod_small by lia. }
  assert (((((256 + s) <<< (8 - Z.succ N)) >>> 7) &&& 1) = Z.b2z (Z.testbit s N)) as ->.
  { change 1 with (2 ^ 1 - 1). rewrite land_ones_mod, Es by lia. rewrite Z.testbit_spec' by lia.
    rewrite <-Z.shiftr_div_pow2 by lia. f_equal. rewrite Z.shiftr_shiftl_r by lia. f_equal. lia. }
  assert (((256 + s) <<< (8 - Z.succ N)) >>> 8 = (256 + s) >>> Z.succ N) as -> by (rewrite Z.shiftr_shiftl_r by lia; f_equal; lia).
  assert (Z.testbit (m <<< (8 - N)) 8 = Z.testbit m N) as Em by (rewrite Z.shiftl_spec by lia; f_equal; lia).
  assert (Z.testbit ((256 + s) <<< (8 - N)) 8 = Z.testbit s N) as Es8 by (rewrite Z.shiftl_spec, Es by lia; f_equal; lia).
  rewrite land_offs, Em, offs_next, Em, Es8.
  assert (2 * ((256 + s) >>> Z.succ N) + Z.b2z (Z.testbit s N) = (256 + s) >>> N) as Enode.
  { rewrite Es, Z.testbit_spec', !Z.shiftr_div_pow2 by lia. rewrite Z.pow_succ_r, (Z.mul_comm 2 (2 ^ N)), <-Z.div_div by lia.
    pose proof (Z.div_mod ((256 + s) / 2 ^ N) 2 ltac:(lia)). lia. }
  rewrite Enode.
  replace ((if same then 256 + (if Z.testbit m N then 256 else 0) else 0) + ((256 + s) >>> Z.succ N))
    with (offs_of same + (if same then if Z.testbit m N then 256 else 0 else 0) + ((256 + s) >>> Z.succ N))
    by (destruct same; unfold offs_of; lia).
  assert ((Z.b2z (Z.testbit s N) =? 1) = Z.testbit s N) as -> by (by destruct (Z.testbit s N)).
  replace ((Z.b2z (Z.testbit s N) =? 0) || (Z.testbit s N)) with true by (by destruct (Z.testbit s N)).
  destruct n as [|n].
  - change N with 0. destruct (Z.ltb_spec ((256 + s) <<< (8 - 0)) 0x10000) as [H|H]; [|done].
    rewrite Z.shiftl_mul_pow2 in H by lia. lia.
  - destruct (Z.ltb_spec ((256 + s) <<< (8 - N)) 0x10000) as [H|H].
    + by rewrite IH by lia.
    + rewrite Z.shiftl_mul_pow2 in H by lia. assert (2 ^ (8 - N) <= 2 ^ 7) by (apply Z.pow_le_mono_r; lia). nia.
Qed.

Lemma LitEncMatched_encode probs sym m c :
  0 <= sym < 256 -> 0 <= m < 256 -> LitEnc_EncodeMatched probs sym m c = encode (reqs_of probs (matched_offs 8 true 1 sym m)) c.
Proof.
  intros Hs Hm. unfold LitEnc_EncodeMatched.
  pose proof (matched_offs_eq sym m 8 true Hs Hm ltac:(lia) 17 ltac:(lia)) as E.
  assert ((256 + sym) >>> Z.of_nat 8 = 1) as E1 by (rewrite Z.shiftr_div_pow2 by lia; Z.to_euclidean_division_equations; lia).
  rewrite E1 in E. change (Z.of_nat 8) with 8 in E. rewrite !Z.shiftl_0_r in E.
  assert (sym ||| 256 = 256 + sym) as -> by (change 256 with (1 <<< 8) at 1; rewrite lor_shiftl_add by lia; lia).
  rewrite <-(do_while_offs
    (fun '(sym, matchByte, offs) =>
       let matchByte := u32 (matchByte <<< 1) in (offs + (matchByte &&& offs) + (sym >>> 8), (sym >>> 7) &&& 1))
    (fun '(sym, matchByte, offs) =>
       let matchByte := u32 (matchByte <<< 1) in
       let sym := u32 (sym <<< 1) in
       (sym, matchByte, offs &&& u32 (Z.lnot (matchByte ^^^ sym))))
    (fun '(sym, _, _) => sym <? 0x10000) probs
    (fun '(sym, matchByte, offs, c) =>
       let matchByte := u32 (matchByte <<< 1) in
       let prob := padd probs (offs + (matchByte &&& offs) + (sym >>> 8)) in
       let bit := (sym >>> 7) &&& 1 in
       let sym := u32 (sym <<< 1) in
       let offs := offs &&& u32 (Z.lnot (matchByte ^^^ sym)) in
       c ← RC_BIT prob bit c; Some (sym, matchByte, offs, c))
    (fun '(sym, _, _, _) => sym <? 0x10000) ltac:(by intros [[] ]) ltac:(by intros [[] ]) 17 _ c _ E).
  cbv zeta. by destruct (do_while _ _ _ _) as [[[[]]]|].
Qed.

Lemma testbit_step node s n : 0 <= n -> (2 * node + Z.b2z (Z.testbit s n)) * 2 ^ n + s mod 2 ^ n = node * 2 ^ (n + 1) + s mod 2 ^ (n + 1).
Proof.
  intros Hn. rewrite Z.testbit_spec', Z.pow_add_r by lia. change (2 ^ 1) with 2. pose proof (Z.pow_pos_nonneg 2 n ltac:(lia) Hn).
  rewrite Z.rem_mul_r by lia. lia.
Qed.

Lemma follow_matched probs base s m n : forall same node,
  (forall o, 1 <= o < 768 -> idx (padd probs o) = kStartOffset + (base + o)) ->
  (n <= 8)%nat -> 1 <= node -> (node + 1) * 2 ^ Z.of_nat n <= 512 ->
  follow idx (matched_bits n base (m <<< (8 - Z.of_nat n)) (offs_of same) node) (reqs_of probs (matched_offs n same node s m)) =
  Some (node * 2 ^ Z.of_nat n + s mod 2 ^ Z.of_nat n).
Proof.
  induction n as [|n IH]; intros same node Hidx Hn Hnode Htop.
  - cbn. f_equal. rewrite Z.mod_1_r. lia.
  - rewrite Nat2Z.inj_succ in *. set (N := Z.of_nat n) in *. replace (Z.succ N) with (N + 1) in * by lia.
    cbn [matched_bits matched_offs reqs_of map]. fold N. cbv zeta.
    replace (m <<< (8 - (N + 1)) + m <<< (8 - (N + 1))) with (m <<< (8 - N)).
    2:{ replace (8 - N) with ((8 - (N + 1)) + 1) by lia. rewrite <-Z.shiftl_shiftl by lia. rewrite (Z.shiftl_mul_pow2 _ 1) by lia. lia. }
    assert (Z.testbit (m <<< (8 - N)) 8 = Z.testbit m N) as Em by (rewrite Z.shiftl_spec by lia; f_equal; lia).
    rewrite (Z.land_comm (offs_of same)), land_offs, Em.
    assert (2 ^ (N + 1) = 2 * 2 ^ N) as EN by (rewrite Z.pow_add_r by lia; lia).
    pose proof (Z.pow_pos_nonneg 2 N ltac:(lia) ltac:(lia)) as HN.
    unfold P, IF_BIT. cbn [mbind parse_bind follow].
    set (mb := Z.testbit m N). set (o := if same then if mb then 256 else 0 else 0).
    assert (0 <= o <= 256 /\ o + offs_of same = (if same then 256 + (if mb then 256 else 0) else 0)) as [Ho Eo]
      by (unfold o, offs_of; destruct same, mb; lia).
    rewrite <-Eo, (Hidx (o + offs_of same + node)), Z.eqb_refl by (destruct same; unfold offs_of; nia).
    rewrite <-testbit_step by lia. destruct (Z.testbit s N) eqn:Hb; cbn [Z.b2z] in *.
    + replace o with (offs_of (same && eqb mb true)) by (unfold o; by destruct same, mb).
      replace (node + node + 1) with (2 * node + 1) by lia. apply IH; [done|lia|lia|nia].
    + replace (o ^^^ offs_of same) with (offs_of (same && eqb mb false)) by (unfold o; by destruct same, mb).
      replace (node + node) with (2 * node + 0) by lia. apply IH; [done|lia|lia|nia].
Qed.

(** ** Bits coded one after the other *)

Section Coded.
Context (lclp : Z) (Hlclp : 0 <= lclp).
Abbreviation sz := (arr_size lclp).

Lemma enc_step n c r : enc_ok sz (n + 1) c -> 0 <= n -> valid_req sz r -> exists c', encode1 r c = Some c' /\ enc_ok sz n c'.
Proof using Type. intros Hc Hn Hr. destruct (encode1_ok sz n c r Hc Hn Hr) as (c' & E & H & _). by exists c'. Qed.

(** RC_BIT_PRE and the branch taken later are one request. *)
Lemma pre_ok n c p : enc_ok sz n c -> valid sz p ->
  exists pre, RC_BIT_PRE c p = Some pre /\ RC_BIT_0 p pre c = encode1 (RBit p false) c /\
    RC_BIT_1 p pre c = encode1 (RBit p true) c.
Proof using Type.
  intros Hc Hp. destruct (load_Some sz n c p Hc Hp) as (x & Hx & Hok).
  pose proof (eo_range _ _ _ Hc). pose proof (eo_low _ _ _ Hc).
  exists (x, new_bound c x). split; [by apply RC_BIT_PRE_ok|]. unfold encode1.
  change 0 with (Z.b2z false). rewrite !(RC_BIT_branch c p x) by done.
  by rewrite RC_BIT_0_branch, RC_BIT_1_branch by done.
Qed.

Lemma encode_3 r1 r2 r3 c : encode [r1; r2; r3] c = c ← encode1 r1 c; c ← encode1 r2 c; encode1 r3 c.
Proof using Type.
  cbn [encode]. destruct (encode1 r1 c) as [c1|]; opt; [|done]. destruct (encode1 r2 c1) as [c2|]; opt; [|done].
  by destruct (encode1 r3 c2).
Qed.

Definition len_low_reqs (a : arr) (k sym posState : Z) : list req :=
  RBit (a, k) false :: reqs_of (a, k + posState * 16) (tree_offs 3 1 sym).

Definition len_reqs (lowA highA : arr) (sym posState : Z) : list req :=
  if sym <? 8 then len_low_reqs lowA 0 sym posState
  else RBit (lowA, 0) true ::
    if sym <? 16 then len_low_reqs lowA 8 (sym - 8) posState
    else RBit (lowA, 8) true :: reqs_of (highA, 0) (tree_offs 8 1 (sym - 16)).

Lemma len_low_encode n c a k sym posState pre :
  enc_ok sz n c -> valid sz (a, k) -> RC_BIT_PRE c (a, k) = Some pre -> 0 <= sym < 8 -> 0 <= posState < 16 ->
  len_low (a, k) pre sym posState c = encode (len_low_reqs a k sym posState) c.
Proof using Type.
  intros Hc Hv Hpre Hs Hp. destruct (pre_ok n c _ Hc Hv) as (pre' & E & E0 & _). assert (pre' = pre) as -> by congruence.
  unfold len_low, len_low_reqs. rewrite E0. cbn [encode]. destruct (encode1 (RBit (a, k) false) c) as [c1|]; [|done]. opt.
  assert (u32 (posState <<< (1 + kLenNumLowBits)) = posState * 16) as ->.
  { change (1 + kLenNumLowBits) with 4. rewrite Z.shiftl_mul_pow2, wrap_small by (lia || unfold in_width; lia). lia. }
  assert (sym = 0 \/ sym = 1 \/ sym = 2 \/ sym = 3 \/ sym = 4 \/ sym = 5 \/ sym = 6 \/ sym = 7) as Hc8 by lia.
  destruct Hc8 as [->|[->|[->|[->|[->|[->|[->| ->]]]]]]]; cbn [tree_offs reqs_of map];
    rewrite encode_3; reflexivity.
Qed.

Lemma LenEnc_encode n c lowA highA sym posState :
  enc_ok sz (n + 2) c -> 0 <= n -> sz lowA = 256 -> 0 <= sym < 272 -> 0 <= posState < 16 ->
  LenEnc_Encode lowA highA sym posState c = encode (len_reqs lowA highA sym posState) c.
Proof using Type.
  intros Hc Hn Hlow Hs Hp. unfold LenEnc_Encode, len_reqs. change kLenNumLowSymbols with 8. change (8 * 2) with 16.
  assert (valid sz (lowA, 0) /\ valid sz (lowA, 8)) as [V0 V8] by (unfold valid; cbn; lia).
  destruct (pre_ok _ c _ Hc V0) as (pre & E & E0 & E1). rewrite E. opt.
  destruct (Z.leb_spec 8 sym), (Z.ltb_spec sym 8); try lia; [|apply (len_low_encode (n + 2)); (done || lia)].
  destruct (enc_step (n + 1) c (RBit (lowA, 0) true)) as (c1 & Ec1 & Hc1); [by replace (n + 1 + 1) with (n + 2) by lia|lia|done|].
  rewrite E1. cbn [encode]. rewrite Ec1. opt. change (padd (lowA, 0) 8) with (lowA, 8).
  destruct (pre_ok _ c1 _ Hc1 V8) as (pre1 & F & F0 & F1). rewrite F. opt.
  destruct (Z.leb_spec 16 sym), (Z.ltb_spec sym 16); try lia; [|by apply (len_low_encode (n + 1)); try done; lia].
  rewrite F1. cbn [encode]. destruct (encode1 (RBit (lowA, 8) true) c1); [|done]. opt. by apply LitEnc_encode; lia.
Qed.
End Coded.

(** ** Lengths, as the decoder reads them *)

Lemma TREE_LOOP_follow base k : forall node, 2 ^ (8 - Z.of_nat (S k)) <= node < 2 ^ (8 - Z.of_nat (S k) + 1) -> (k <= 7)%nat ->
  forall rs a, follow idx (tree_bits (S k) base node) rs = Some a -> follow idx (TREE_LOOP k base 256 node) rs = Some a.
Proof.
  induction k as [|k IH]; intros node Hnode Hk rs a Hf; [exact Hf|].
  cbn [TREE_LOOP tree_bits] in *. unfold TREE_GET_BIT, P, IF_BIT in *. cbn [mbind parse_bind mret parse_ret follow] in *.
  destruct rs as [|[q b|b] rs]; try done. destruct (_ =? idx q); [|done].
  assert (2 ^ (8 - Z.of_nat (S k)) = 2 * 2 ^ (8 - Z.of_nat (S (S k)))) as E1 by (rewrite <-Z.pow_succ_r by lia; f_equal; lia).
  assert (2 ^ (8 - Z.of_nat (S k) + 1) = 2 * 2 ^ (8 - Z.of_nat (S (S k)) + 1)) as E2 by (rewrite <-Z.pow_succ_r by lia; f_equal; lia).
  assert (2 ^ (8 - Z.of_nat (S k) + 1) <= 256) by (change 256 with (2 ^ 8); apply Z.pow_le_mono_r; lia).
  destruct (Z.ltb_spec (if b then node + node + 1 else node + node) 256); [|destruct b; lia].
  apply IH; [destruct b; lia|lia|done].
Qed.

(** Offsets into arrays that have the same layout on both sides. *)
Lemma idx_plain a k o : node a (k + o) = k + o -> idx (padd (a, k) o) = start a + (k + o).
Proof. intros E. unfold idx, padd. cbn [fst snd]. by rewrite E. Qed.

Lemma follow_low prob a k sym ps :
  start a = kStartOffset + (prob + LenLow) -> (forall i, node a i = i) -> 0 <= sym < 8 ->
  follow idx (tree_bits 3 (prob + LenLow + (ps * 16 + k)) 1) (reqs_of (a, k + ps * 16) (tree_offs 3 1 sym)) = Some (8 + sym).
Proof.
  intros Ha Hn Hs. apply (follow_tree 0); [lia| |lia|exact Hs].
  intros o _. rewrite idx_plain by apply Hn. rewrite Ha. lia.
Qed.

Lemma follow_len prob lowA highA sym ps :
  start lowA = kStartOffset + (prob + LenLow) -> start highA = kStartOffset + (prob + LenHigh) ->
  (forall i, node lowA i = i) -> (forall i, node highA i = i) -> 0 <= sym < 272 ->
  follow idx (real_len prob (ps * 16)) (len_reqs lowA highA sym ps) = Some sym.
Proof.
  intros Hl Hh Nl Nh Hs. unfold real_len, P, IF_BIT. cbn [mbind parse_bind].
  assert (forall k, idx (lowA, k) = kStartOffset + (prob + k)) as Ei by (intros k; unfold idx; cbn [fst snd]; rewrite Nl, Hl; unfold LenLow; lia).
  unfold len_reqs, len_low_reqs.
  destruct (Z.ltb_spec sym 8) as [H8|H8]; [|destruct (Z.ltb_spec sym 16) as [H16|H16]]; cbn [follow].
  - rewrite Ei. change (prob + LenChoice) with (prob + 0). rewrite Z.eqb_refl. cbn [negb].
    pose proof (follow_low prob lowA 0 sym ps Hl Nl ltac:(lia)) as F. replace (ps * 16 + 0) with (ps * 16) in F by lia.
    pose proof (follow_bind idx _ (fun len => mret (len - 8) : parse Z) _ [] _ sym F) as G. rewrite app_nil_r in G.
    apply G. cbn. f_equal. lia.
  - rewrite Ei. change (prob + LenChoice) with (prob + 0). rewrite Z.eqb_refl. cbn [negb follow].
    rewrite Ei. change (prob + LenChoice2) with (prob + 8). rewrite Z.eqb_refl. cbn [negb].
    pose proof (follow_low prob lowA 8 (sym - 8) ps Hl Nl ltac:(lia)) as F.
    replace (8 + (sym - 8)) with sym in F by lia. change (1 <<< LzmaDec.kLenNumLowBits) with 8.
    replace (prob + LenLow + ps * 16 + 8) with (prob + LenLow + (ps * 16 + 8)) by lia. exact F.
  - rewrite Ei. change (prob + LenChoice) with (prob + 0). rewrite Z.eqb_refl. cbn [negb follow].
    rewrite Ei. change (prob + LenChoice2) with (prob + 8). rewrite Z.eqb_refl. cbn [negb].
    unfold TREE_DECODE. change (1 <<< LzmaDec.kLenNumHighBits) with 256.
    assert (follow idx (TREE_LOOP 7 (prob + LenHigh) 256 1) (reqs_of (highA, 0) (tree_offs 8 1 (sym - 16))) = Some (256 + (sym - 16))) as F.
    { apply TREE_LOOP_follow; [cbn; lia|lia|]. apply (follow_tree 0); [lia| |lia|change (2 ^ Z.of_nat 8) with 256; lia].
      intros o _. rewrite idx_plain by apply Nh. rewrite Hh. lia. }
    pose proof (follow_bind idx _ (fun i => mret (i - 256) : parse Z) _ [] _ (sym - 16) F) as G. rewrite app_nil_r in G.
    specialize (G ltac:(cbn; f_equal; lia)).
    pose proof (follow_bind idx _ (fun len => mret (len + kLenNumLowSymbols * 2) : parse Z) _ [] _ sym G) as H. rewrite app_nil_r in H.
    apply H. cbn. f_equal. change (LzmaDec.kLenNumLowSymbols * 2) with 16. change (kLenNumLowSymbols * 2) with 16. lia.
Qed.
