(* ===== verification/LzmaDist.v ===== *)
(** * LZMA: distances

    The slot table of the encoder gives the slot of every distance (GetPosSlot), and the
    decoder reads back the distance that code_distance coded, or the end marker. *)

From stdpp Require Import base numbers list list_numbers.
From Stdlib Require Import ZArith Lia.
From S2P Require Import Prelude.
From S2P Require Import SzTypes.
From S2P Require Import LzmaParse.
From S2P Require Import LzmaDec.
From S2P Require Import RangeEnc.
From S2P Require Import LzmaEnc.
From S2P Require Import RangeCoder.
From S2P Require Import LzmaCodec.
Local Open Scope Z_scope.
Local Open Scope word_scope.

(** ** Slots *)

(** The slots above 1 split every power of two in halves. *)
Definition slot_width (s : Z) : Z := 2 ^ (s / 2 - 1).
Definition slot_start (s : Z) : Z := (2 + s mod 2) * slot_width s.
Definition is_slot (s pos : Z) : Prop :=
  (0 <= s < 2 /\ pos = s) \/ (2 <= s /\ slot_start s <= pos < slot_start s + slot_width s).

Lemma slot_parts s : exists k b, s = 2 * k + b /\ (b = 0 \/ b = 1) /\ s / 2 = k /\ s mod 2 = b.
Proof.
  exists (s / 2), (s mod 2). pose proof (Z.div_mod s 2 ltac:(lia)). pose proof (Z.mod_pos_bound s 2 ltac:(lia)). lia.
Qed.

Lemma slot_next s : 2 <= s -> slot_start (s + 1) = slot_start s + slot_width s.
Proof.
  intros Hs. unfold slot_start, slot_width. destruct (slot_parts s) as (k & b & E & [->| ->] & -> & ->).
  - assert ((s + 1) / 2 = k /\ (s + 1) mod 2 = 1) as [-> ->] by (Z.to_euclidean_division_equations; lia). lia.
  - assert ((s + 1) / 2 = k + 1 /\ (s + 1) mod 2 = 0) as [-> ->] by (Z.to_euclidean_division_equations; lia).
    replace (k + 1 - 1) with (Z.succ (k - 1)) by lia. rewrite Z.pow_succ_r by lia. lia.
Qed.

Lemma slot_shift s z pos : 2 <= s -> 0 <= z -> is_slot s (pos / 2 ^ z) -> is_slot (s + 2 * z) pos.
Proof.
  intros Hs Hz [[? _]|[_ H]]; [lia|]. right. split; [lia|]. revert H. unfold slot_start, slot_width.
  replace ((s + 2 * z) / 2) with (s / 2 + z) by (Z.to_euclidean_division_equations; lia).
  replace ((s + 2 * z) mod 2) with (s mod 2) by (Z.to_euclidean_division_equations; lia).
  assert (0 <= s / 2 - 1) by (Z.to_euclidean_division_equations; lia).
  replace (s / 2 + z - 1) with ((s / 2 - 1) + z) by lia. rewrite Z.pow_add_r by lia.
  pose proof (Z.pow_pos_nonneg 2 z ltac:(lia) Hz). pose proof (Z.div_mod pos (2 ^ z) ltac:(lia)).
  pose proof (Z.mod_pos_bound pos (2 ^ z) ltac:(lia)).
  set (w := 2 ^ (s / 2 - 1)). set (a := 2 + s mod 2). set (q := pos / 2 ^ z) in *. nia.
Qed.

Lemma slot_width_pos s : 2 <= s -> 1 <= slot_width s.
Proof.
  intros. unfold slot_width. assert (0 <= s / 2 - 1) by (Z.to_euclidean_division_equations; lia).
  pose proof (Z.pow_pos_nonneg 2 (s / 2 - 1)). lia.
Qed.

Lemma fastpos_slots_ok n : forall s pos,
  2 <= s -> s + Z.of_nat n <= 256 -> slot_start s <= pos < slot_start (s + Z.of_nat n) ->
  exists s', fastpos_slots n s !! Z.to_nat (pos - slot_start s) = Some s' /\ 2 <= s' < s + Z.of_nat n /\ is_slot s' pos.
Proof.
  induction n as [|n IH]; intros s pos Hs Hn Hp; [rewrite Z.add_0_r in Hp; lia|].
  cbn [fastpos_slots]. rewrite Z.shiftr_div_pow2, Z.shiftl_mul_pow2, Z.mul_1_l by (Z.to_euclidean_division_equations; lia).
  change (2 ^ 1) with 2. fold (slot_width s). rewrite wrap_small by (unfold in_width; lia). pose proof (slot_width_pos s Hs).
  pose proof (slot_next s Hs) as Enext. destruct (Z.lt_ge_cases pos (slot_start s + slot_width s)) as [Hlt|Hge].
  - exists s. rewrite lookup_app_l by (rewrite length_replicate; lia). rewrite lookup_replicate_2 by lia.
    split; [done|]. split; [lia|]. right. lia.
  - destruct (IH (s + 1) pos ltac:(lia) ltac:(lia)) as (s' & E & Hs' & Hslot); [rewrite Enext; replace (s + 1 + Z.of_nat n) with (s + Z.of_nat (S n)) by lia; lia|].
    exists s'. rewrite lookup_app_r by (rewrite length_replicate; lia). rewrite length_replicate.
    replace (Z.to_nat (pos - slot_start s) - Z.to_nat (slot_width s))%nat with (Z.to_nat (pos - slot_start (s + 1))) by lia.
    split; [done|]. split; [lia|done].
Qed.

Lemma FastPos_ok pos : 0 <= pos < 2 ^ 14 -> exists s, rd LzmaEnc_FastPosInit pos = Some s /\ is_slot s pos /\ 0 <= s.
Proof.
  intros Hp. rewrite rd_lookup by lia. unfold LzmaEnc_FastPosInit. change (Z.to_nat (kNumLogBits * 2 - 2)) with 26%nat.
  destruct (Z.eq_dec pos 0) as [->|H0]; [exists 0; split; [done|]; split; [left|]; lia|].
  destruct (Z.eq_dec pos 1) as [->|H1]; [exists 1; split; [done|]; split; [left|]; lia|].
  destruct (fastpos_slots_ok 26 2 pos) as (s & E & Hs & Hslot); [lia|lia|change (slot_start 2) with 2; change (slot_start (2 + Z.of_nat 26)) with 16384; lia|].
  exists s. rewrite lookup_app_r by (cbn; lia). change (slot_start 2) with 2 in E.
  replace (Z.to_nat pos - length [0%Z; 1%Z])%nat with (Z.to_nat (pos - 2)) by (cbn; lia). split; [exact E|]. split; [done|lia].
Qed.

Lemma GetPosSlot_ok pos :
  0 <= pos < 2 ^ 32 -> exists s, GetPosSlot LzmaEnc_FastPosInit pos = Some s /\ is_slot s pos /\ 0 <= s < 64.
Proof.
  intros Hp.
  assert (forall s, is_slot s pos -> 0 <= s -> s < 64) as H64.
  { intros s [[? _]|[Hs [Hst _]]] _; [lia|]. destruct (Z.lt_ge_cases s 64); [done|exfalso].
    assert (2 ^ 31 <= slot_width s) by (apply Z.pow_le_mono_r; [lia|Z.to_euclidean_division_equations; lia]).
    unfold slot_start in Hst. pose proof (Z.mod_pos_bound s 2 ltac:(lia)). nia. }
  unfold GetPosSlot. change kNumFullDistances with 128. change (128 - 1) with (2 ^ 7 - 1).
  destruct (Z.ltb_spec pos 128) as [Hlt|Hge].
  - rewrite land_ones_mod, Z.mod_small by lia. destruct (FastPos_ok pos ltac:(lia)) as (s & E & Hs & H0). exists s. auto.
  - unfold BSR2_RET. change (kNumLogBits + 6) with 20. change (6 + kNumLogBits - 1) with 19.
    set (zz := if pos <? 1 <<< 20 then 6 else 19).
    assert ((zz = 6 \/ zz = 19) /\ 2 <= pos / 2 ^ zz < 2 ^ 14) as [Hz Hq].
    { unfold zz. change (1 <<< 20) with (2 ^ 20). destruct (Z.ltb_spec pos (2 ^ 20)); (split; [lia|]); Z.to_euclidean_division_equations; lia. }
    rewrite Z.shiftr_div_pow2 by lia. destruct (FastPos_ok (pos / 2 ^ zz)) as (s & -> & Hs & H0); [lia|]. opt.
    assert (2 <= s) by (destruct Hs as [[? ?]|[? ?]]; lia).
    exists (s + zz * 2). split; [done|]. assert (is_slot (s + zz * 2) pos) as Hslot by (rewrite (Z.mul_comm zz); apply slot_shift; (done || lia)).
    split; [done|]. split; [lia|apply H64; (done || lia)].
Qed.

(** C28: The slot tables give the slot of every 32-bit distance: a distance below 2 is its
    own slot, slot [s] above that holds the distances whose two highest bits are
    [2 + s mod 2] and which have [s / 2 - 1] bits below; there are 64 slots, and no access
    to the table is out of range. *)
Theorem GetPosSlot_slot (pos : Z) (Hpos : 0 <= pos < 2 ^ 32) :
  exists s, GetPosSlot LzmaEnc_FastPosInit pos = Some s /\ 0 <= s < 64 /\ (s < 2 -> pos = s) /\
    (2 <= s -> (2 + s mod 2) * 2 ^ (s / 2 - 1) <= pos < (3 + s mod 2) * 2 ^ (s / 2 - 1)).
Proof.
  destruct (GetPosSlot_ok pos Hpos) as (s & E & Hs & H64). exists s. do 2 (split; [done|]).
  destruct Hs as [[? ?]|[? Hs]]; (split; [lia|]); intros ?; [lia|]. unfold slot_start, slot_width in Hs. lia.
Qed.

Lemma GetPosSlot_slot_witness : exists s, GetPosSlot LzmaEnc_FastPosInit 100000 = Some s /\ 0 <= s < 64.
Proof. destruct (GetPosSlot_slot 100000 ltac:(lia)) as (s & H1 & H2 & _). exists s. split; [exact H1|exact H2]. Defined.

(** ** Direct bits *)

Fixpoint direct_reqs (n : nat) (r : Z) : list req :=
  match n with O => [] | S n => RDirect (Z.testbit r (Z.of_nat n)) :: direct_reqs n r end.

Lemma direct_reqs_mod n r : forall m, (m <= n)%nat -> direct_reqs m (r mod 2 ^ Z.of_nat n) = direct_reqs m r.
Proof.
  induction m as [|m IH]; intros Hm; cbn [direct_reqs]; [done|].
  by rewrite Z.mod_pow2_bits_low, IH by lia.
Qed.

(** What is left of [pos2]: [r] and the marker. *)
Lemma code_direct_loop n : forall r c fuel,
  (1 <= n <= 26)%nat -> (n <= fuel)%nat -> 0 <= r < 2 ^ Z.of_nat n ->
  (r0 ← do_while fuel
    (fun '(pos2, c) => c ← rc_direct (pos2 >>> 31) c; Some (u32 (pos2 + pos2), c))
    (fun '(pos2, _) => negb (pos2 =? 0xF0000000)) ((r * 16 + 15) * 2 ^ (28 - Z.of_nat n), c); Some r0.2) =
  encode (direct_reqs n r) c.
Proof.
  unfold do_while. induction n as [|n IH]; intros r c fuel Hn Hf Hr; [lia|]. destruct fuel as [|fuel]; [lia|].
  cbn [loop direct_reqs encode encode1]. rewrite Nat2Z.inj_succ in *. set (N := Z.of_nat n) in *.
  assert (2 ^ Z.succ N = 2 * 2 ^ N) as EN by (apply Z.pow_succ_r; lia).
  assert (2 ^ (28 - N) = 2 * 2 ^ (28 - Z.succ N)) as EQ by (rewrite <-Z.pow_succ_r by lia; f_equal; lia).
  assert (2 ^ N * 2 ^ (28 - N) = 2 ^ 28) as E28 by (rewrite <-Z.pow_add_r by lia; f_equal; lia).
  pose proof (Z.pow_pos_nonneg 2 N ltac:(lia) ltac:(lia)) as P1. pose proof (Z.pow_pos_nonneg 2 (28 - Z.succ N) ltac:(lia) ltac:(lia)) as P2.
  set (q := 2 ^ (28 - Z.succ N)) in *. set (w := 2 ^ N) in *. change (2 ^ 28) with 268435456 in E28.
  pose proof (Z.div_mod r w ltac:(lia)) as Er. pose proof (Z.mod_pos_bound r w ltac:(lia)) as Hm.
  assert (0 <= r / w <= 1) as Hd by (split; [apply Z.div_pos; lia|]; pose proof (Z.div_lt_upper_bound r w 2); lia).
  set (t := r / w) in *. set (r' := r mod w) in *.
  assert ((r * 16 + 15) * q = t * 2147483648 + (r' * 16 + 15) * q) as Ev by nia.
  assert (0 <= (r' * 16 + 15) * q < 2147483648) as Hlow by nia.
  assert (Z.b2z (Z.testbit r N) = t) as Et by (rewrite Z.testbit_spec' by lia; fold w; apply Z.mod_small; unfold t in Hd; lia).
  assert (((r * 16 + 15) * q) >>> 31 = Z.b2z (Z.testbit r N)) as ->.
  { rewrite Ev, Et, Z.shiftr_div_pow2 by lia. change (2 ^ 31) with 2147483648. rewrite Z.add_comm, Z.div_add, Z.div_small by lia. lia. }
  destruct (rc_direct (Z.b2z (Z.testbit r N)) c) as [c1|]; [|done]. opt.
  assert (u32 ((r * 16 + 15) * q + (r * 16 + 15) * q) = (r' * 16 + 15) * 2 ^ (28 - N)) as ->.
  { rewrite Ev, EQ. unfold wrap. change (2 ^ 32) with 4294967296.
    replace (t * 2147483648 + (r' * 16 + 15) * q + (t * 2147483648 + (r' * 16 + 15) * q)) with ((r' * 16 + 15) * (2 * q) + t * 4294967296) by lia.
    rewrite Z.mod_add, Z.mod_small by lia. done. }
  rewrite <-(direct_reqs_mod n r n) by lia. fold N w r'. destruct n as [|n].
  - assert (r' = 0) as -> by (unfold r', w; change N with 0; apply Z.mod_1_r). change N with 0. done.
  - destruct (Z.eqb_spec ((r' * 16 + 15) * 2 ^ (28 - N)) 0xF0000000) as [E|E]; cbn [negb]; [exfalso|apply IH; [lia|lia|done]].
    assert (w = 2 * 2 ^ (N - 1)) as Ew by (unfold w; rewrite <-Z.pow_succ_r by lia; f_equal; lia).
    rewrite EQ in *. set (v := 2 ^ (N - 1)) in *. assert ((r' * 16 + 15) * (2 * q) = 15 * w * (2 * q)) by lia.
    assert (r' * 16 + 15 = 15 * w) by nia. lia.
Qed.

(** The decoder doubles the distance and adds a bit at a time. *)
Lemma follow_direct n r : forall d, 0 <= d -> (d + 1) * 2 ^ Z.of_nat n <= 2 ^ 32 ->
  follow idx (direct_bits n d) (direct_reqs n r) = Some (d * 2 ^ Z.of_nat n + r mod 2 ^ Z.of_nat n).
Proof.
  induction n as [|n IH]; intros d Hd Hle.
  - cbn. f_equal. rewrite Z.mod_1_r. lia.
  - rewrite Nat2Z.inj_succ in *. set (N := Z.of_nat n) in *. replace (Z.succ N) with (N + 1) in * by lia.
    assert (2 ^ (N + 1) = 2 * 2 ^ N) as EN by (rewrite Z.pow_add_r by lia; lia).
    pose proof (Z.pow_pos_nonneg 2 N ltac:(lia) ltac:(lia)) as HN.
    cbn [direct_bits direct_reqs]. unfold direct_bit. cbn [mbind parse_bind follow]. fold N.
    rewrite <-testbit_step by lia.
    assert (u32 (u32 (d <<< 1) + u32 ((if Z.testbit r N then 0 else 2 ^ 32 - 1) + 1)) = 2 * d + Z.b2z (Z.testbit r N)) as ->.
    { rewrite Z.shiftl_mul_pow2 by lia. rewrite (wrap_small 32 (d * 2 ^ 1)) by (unfold in_width; nia).
      destruct (Z.testbit r N); [change (u32 (0 + 1)) with 1|change (u32 (2 ^ 32 - 1 + 1)) with 0]; cbn [Z.b2z];
        rewrite wrap_small by (unfold in_width; nia); lia. }
    apply IH; destruct (Z.testbit r N); cbn [Z.b2z]; nia.
Qed.

(** ** The low four bits *)

Lemma encode_4 r1 r2 r3 r4 c :
  encode [r1; r2; r3; r4] c = c ← encode1 r1 c; c ← encode1 r2 c; c ← encode1 r3 c; encode1 r4 c.
Proof.
  change (encode [r1; r2; r3; r4] c) with (c ← encode1 r1 c; encode [r2; r3; r4] c).
  destruct (encode1 r1 c) as [c1|]; opt; [|done]. apply encode_3.
Qed.

Definition align_reqs (b0 b1 b2 b3 : bool) : list req :=
  let a := (posAlignEncoder, 0) in
  let m1 := 2 + Z.b2z b0 in
  let m2 := 2 * m1 + Z.b2z b1 in
  [RBit (padd a 1) b0; RBit (padd a m1) b1; RBit (padd a m2) b2; RBit (padd a (2 * m2 + Z.b2z b2)) b3].

Lemma land_1 x : (x &&& 1) = Z.b2z (Z.testbit x 0).
Proof. change 1 with (2 ^ 1 - 1). rewrite land_ones_mod, Z.testbit_spec' by lia. by rewrite Z.div_1_r. Qed.

Lemma align_encode dist c :
  code_align dist c =
  encode (align_reqs (Z.testbit dist 0) (Z.testbit dist 1) (Z.testbit dist 2) (Z.testbit dist 3)) c.
Proof.
  unfold code_align, align_reqs. cbv zeta. rewrite !Z.shiftr_shiftr by lia. rewrite !land_1, !Z.shiftr_spec by lia.
  change (0 + 1) with 1. change (0 + (1 + 1)) with 2. change (0 + (1 + 1 + 1)) with 3. rewrite encode_4.
  destruct (Z.testbit dist 0), (Z.testbit dist 1), (Z.testbit dist 2), (Z.testbit dist 3); reflexivity.
Qed.

Definition align_tree : parse Z :=
  i ← REV_BIT_CONST Align 1 1; i ← REV_BIT_CONST Align i 2; i ← REV_BIT_CONST Align i 4; REV_BIT_LAST Align i 8.

Lemma follow_align b0 b1 b2 b3 :
  follow idx align_tree (align_reqs b0 b1 b2 b3) = Some (Z.b2z b0 + 2 * Z.b2z b1 + 4 * Z.b2z b2 + 8 * Z.b2z b3).
Proof. destruct b0, b1, b2, b3; vm_compute; reflexivity. Qed.

Lemma low_nibble x : x mod 16 = Z.b2z (Z.testbit x 0) + 2 * Z.b2z (Z.testbit x 1) + 4 * Z.b2z (Z.testbit x 2) + 8 * Z.b2z (Z.testbit x 3).
Proof.
  rewrite !Z.testbit_spec' by lia. change (2 ^ 0) with 1. change (2 ^ 1) with 2. change (2 ^ 2) with 4. change (2 ^ 3) with 8.
  rewrite Z.div_1_r. Z.to_euclidean_division_equations. lia.
Qed.

(** ** Distances below kNumFullDistances: reverse trees *)

Definition rev_issue '((m, sym, numBits) : Z * Z * Z) : Z * Z := (m, sym &&& 1).
Definition rev_next '((m, sym, numBits) : Z * Z * Z) : Z * Z * Z := ((m <<< 1) ||| (sym &&& 1), sym >>> 1, u32 (numBits - 1)).
Definition rev_cond '((_, _, numBits) : Z * Z * Z) : bool := negb (numBits =? 0).

Definition footer (s : Z) : Z := s / 2 - 1.

Definition spec_offs (s dist : Z) : offs :=
  default [] (loop_offs rev_issue rev_next rev_cond (S (Z.to_nat (footer s))) (1, dist, footer s)).

Definition spec_tree (s : Z) : parse (option Z) :=
  let distance := (2 + s mod 2) <<< footer s in
  '(distance, m) ← rev_bits (Z.to_nat (footer s)) SpecPos (distance + 1) 1;
  mret (Some (distance - m)).

(** Checked for every slot and distance by evaluation. *)
Definition spec_check (s r : Z) : bool :=
  let dist := slot_start s + r in
  let l := spec_offs s dist in
  bool_decide (loop_offs rev_issue rev_next rev_cond (S (Z.to_nat (footer s))) (1, dist, footer s) = Some l) &&
  bool_decide (follow idx (spec_tree s) (reqs_of (posEncoders, slot_start s) l) = Some (Some dist)) &&
  forallb (fun o => (0 <=? slot_start s + o.1) && (slot_start s + o.1 <? 128)) l &&
  (Z.of_nat (length l) =? footer s).

Lemma spec_checked : forallb (fun s => forallb (spec_check s) (seqZ 0 (slot_width s))) (seqZ 4 10) = true.
Proof. vm_compute. reflexivity. Qed.

Lemma spec_ok s r : 4 <= s < 14 -> 0 <= r < slot_width s -> spec_check s r = true.
Proof.
  intros Hs Hr. pose proof spec_checked as H. rewrite forallb_forall in H.
  specialize (H s ltac:(apply list_elem_of_In, elem_of_seqZ; lia)). rewrite forallb_forall in H.
  apply H, list_elem_of_In, elem_of_seqZ. lia.
Qed.

Lemma rev_encode probs numBits sym c l :
  loop_offs rev_issue rev_next rev_cond (S (Z.to_nat numBits)) (1, sym, numBits) = Some l ->
  RcTree_ReverseEncode probs numBits sym c = encode (reqs_of probs l) c.
Proof.
  intros E. unfold RcTree_ReverseEncode.
  rewrite <-(do_while_offs rev_issue rev_next rev_cond probs
    (fun '(m, sym, numBits, c) =>
       let bit := sym &&& 1 in
       let sym := sym >>> 1 in
       c ← RC_BIT (padd probs m) bit c;
       Some ((m <<< 1) ||| bit, sym, u32 (numBits - 1), c))
    (fun '(_, _, numBits, _) => negb (numBits =? 0)) ltac:(by intros [[] ]) ltac:(by intros [[] ])
    (S (Z.to_nat numBits)) (1, sym, numBits) c l E).
  by destruct (do_while _ _ _ _) as [[[[]]]|].
Qed.

(** ** The whole distance *)

(** [k] is the state of the length. *)
Definition dist_reqs (k s dist : Z) : list req :=
  reqs_of (posSlotEncoder, k * 64) (tree_offs 6 1 s) ++
  if s <? 4 then []
  else if s <? 14 then reqs_of (posEncoders, slot_start s) (spec_offs s dist)
  else direct_reqs (Z.to_nat (footer s - 4)) (dist / 16 mod 2 ^ (footer s - 4)) ++
       align_reqs (Z.testbit dist 0) (Z.testbit dist 1) (Z.testbit dist 2) (Z.testbit dist 3).

(** A slot in its range, with the offset in it. *)
Lemma slot_range s dist : is_slot s dist -> 0 <= s ->
  (s < 4 -> 0 <= dist < 4 /\ dist = s) /\ (4 <= s -> 4 <= dist) /\ (s < 14 -> dist < 128) /\ (14 <= s -> 128 <= dist) /\
  (4 <= s -> exists r, dist = slot_start s + r /\ 0 <= r < slot_width s).
Proof.
  intros [[Hs ->]|[Hs Hd]] _; [split_and!; intros; lia|].
  assert (s < 14 -> slot_width s <= 2 ^ 5) by (intros; apply Z.pow_le_mono_r; [lia|Z.to_euclidean_division_equations; lia]).
  assert (14 <= s -> 2 ^ 6 <= slot_width s) by (intros; apply Z.pow_le_mono_r; [lia|Z.to_euclidean_division_equations; lia]).
  assert (4 <= s -> 2 ^ 1 <= slot_width s) by (intros; apply Z.pow_le_mono_r; [lia|Z.to_euclidean_division_equations; lia]).
  assert (s < 4 -> slot_width s = 1 /\ slot_start s = s).
  { intros. assert (s = 2 \/ s = 3) as [->| ->] by lia; done. }
  pose proof (Z.mod_pos_bound s 2 ltac:(lia)). unfold slot_start in *.
  split; [lia|]. split; [nia|]. split; [nia|]. split; [nia|]. intros. exists (dist - (2 + s mod 2) * slot_width s). lia.
Qed.

(** The parts of a distance with direct bits. *)
Lemma long_parts s dist : is_slot s dist -> 14 <= s < 64 ->
  let n := footer s - 4 in
  2 <= n <= 26 /\ dist / 16 = (2 + s mod 2) * 2 ^ n + dist / 16 mod 2 ^ n /\ 0 <= dist.
Proof.
  intros Hslot Hs n. destruct Hslot as [[? _]|[_ Hd]]; [lia|].
  assert (2 <= n <= 26) as Hn by (unfold n, footer; Z.to_euclidean_division_equations; lia).
  assert (slot_width s = 16 * 2 ^ n) as Ew.
  { unfold slot_width. fold (footer s). replace (footer s) with (n + 4) by (unfold n; lia). rewrite Z.pow_add_r by lia. lia. }
  unfold slot_start in Hd. rewrite Ew in Hd. pose proof (Z.pow_pos_nonneg 2 n ltac:(lia) ltac:(lia)) as P.
  pose proof (Z.mod_pos_bound s 2 ltac:(lia)). split; [done|]. split; [|nia].
  assert (dist / 16 / 2 ^ n = 2 + s mod 2) as <-; [|pose proof (Z.div_mod (dist / 16) (2 ^ n)); lia].
  rewrite Z.div_div by lia. symmetry. apply (Z.div_unique _ _ _ (dist - (2 + s mod 2) * (16 * 2 ^ n))); lia.
Qed.

Lemma slot_base s : (2 ||| (s &&& 1)) = 2 + s mod 2 /\ (s >>> 1) - 1 = footer s.
Proof.
  split; [|by rewrite Z.shiftr_div_pow2 by lia]. rewrite land_1, Z.testbit_spec' by lia. rewrite Z.div_1_r.
  pose proof (Z.mod_pos_bound s 2 ltac:(lia)). assert (s mod 2 = 0 \/ s mod 2 = 1) as [->| ->] by lia; done.
Qed.

Lemma slot_start_shift s : 2 <= s -> (2 + s mod 2) <<< footer s = slot_start s.
Proof. intros Hs. rewrite Z.shiftl_mul_pow2 by (unfold footer; Z.to_euclidean_division_equations; lia). done. Qed.

Lemma marker_bits s dist : is_slot s dist -> 14 <= s < 64 ->
  u32 ((dist ||| 0xF) <<< (32 - footer s)) = (dist / 16 mod 2 ^ (footer s - 4) * 16 + 15) * 2 ^ (28 - (footer s - 4)).
Proof.
  intros Hslot Hs. destruct (long_parts s dist Hslot Hs) as (Hn & Hq & Hd). set (n := footer s - 4) in *.
  set (R := dist / 16 mod 2 ^ n) in *. pose proof (Z.mod_pos_bound (dist / 16) (2 ^ n) ltac:(lia)) as HR. fold R in HR.
  replace (32 - footer s) with (28 - n) by (unfold n; lia).
  assert ((dist ||| 0xF) = dist / 16 * 16 + 15) as ->.
  { pose proof (Z.div_mod dist 16 ltac:(lia)) as E. pose proof (Z.mod_pos_bound dist 16 ltac:(lia)).
    assert ((dist mod 16 ||| 15) = 15) as E15.
    { apply Z.eqb_eq, (forall_range (fun x => (x ||| 15) =? 15) 16); [reflexivity|lia]. }
    replace dist with (dist mod 16 + dist / 16 * 2 ^ 4) at 1 by lia.
    rewrite <-lor_shiftl_add by lia. rewrite Z.lor_comm, Z.lor_assoc, (Z.lor_comm 15), E15.
    rewrite lor_shiftl_add by lia. lia. }
  rewrite Z.shiftl_mul_pow2 by lia. rewrite Hq.
  assert (2 ^ n * 2 ^ (28 - n) = 268435456) as E28 by (rewrite <-Z.pow_add_r by lia; replace (n + (28 - n)) with 28 by lia; done).
  pose proof (Z.pow_pos_nonneg 2 (28 - n) ltac:(lia) ltac:(lia)) as P.
  unfold wrap. change (2 ^ 32) with 4294967296.
  replace ((((2 + s mod 2) * 2 ^ n + R) * 16 + 15) * 2 ^ (28 - n))
    with ((R * 16 + 15) * 2 ^ (28 - n) + (2 + s mod 2) * 16 * (2 ^ n * 2 ^ (28 - n))) by ring.
  rewrite E28. replace ((2 + s mod 2) * 16 * 268435456) with ((2 + s mod 2) * 4294967296) by lia.
  rewrite Z.mod_add by lia. apply Z.mod_small. nia.
Qed.

Lemma distance_encode g_FastPos dist len s c :
  GetPosSlot g_FastPos dist = Some s -> is_slot s dist -> 0 <= s < 64 ->
  code_distance g_FastPos dist len c = encode (dist_reqs (GetLenToPosState len) s dist) c.
Proof.
  intros Eg Hslot Hs. destruct (slot_range s dist Hslot ltac:(lia)) as (R1 & R2 & R3 & R4 & R5).
  unfold code_distance, dist_reqs. rewrite Eg. opt. rewrite slot_encode by done. rewrite encode_app.
  change (1 <<< kNumPosSlotBits) with 64. destruct (encode (reqs_of _ (tree_offs 6 1 s)) c) as [c1|]; [|done]. opt.
  change kStartPosModelIndex with 4. change kNumFullDistances with 128.
  destruct (Z.ltb_spec s 4) as [H4|H4]; [destruct (Z.leb_spec 4 dist); [lia|done]|].
  destruct (Z.leb_spec 4 dist); [|lia]. destruct (slot_base s) as [-> ->]. rewrite slot_start_shift by lia.
  destruct (Z.ltb_spec s 14) as [H14|H14], (Z.ltb_spec dist 128) as [Hd|Hd]; try lia.
  - apply rev_encode. destruct R5 as (r & Er & Hr); [lia|]. pose proof (spec_ok s r ltac:(lia) Hr) as Hck.
    unfold spec_check in Hck. rewrite <-Er in Hck. rewrite !andb_true_iff in Hck. destruct Hck as [[[Hck _] _] _].
    by apply bool_decide_eq_true in Hck.
  - destruct (long_parts s dist Hslot ltac:(lia)) as (Hn & _ & _). set (n := footer s - 4) in *.
    rewrite marker_bits by (done || lia). fold n. rewrite encode_app.
    pose proof (code_direct_loop (Z.to_nat n) (dist / 16 mod 2 ^ n) c1 32 ltac:(lia) ltac:(lia)) as Hloop.
    rewrite Z2Nat.id in Hloop by lia. rewrite <-Hloop by (apply Z.mod_pos_bound; lia). unfold code_direct.
    destruct (do_while _ _ _ _) as [[? c2]|]; [|done]. cbn [mbind option_bind snd]. apply align_encode.
Qed.

Lemma follow_distance len s dist :
  is_slot s dist -> 0 <= s < 64 -> 0 <= len -> dist < 2 ^ 32 - 1 ->
  follow idx (real_distance len) (dist_reqs (GetLenToPosState (len + 2)) s dist) = Some (Some dist).
Proof.
  intros Hslot Hs Hlen Hmax. destruct (slot_range s dist Hslot ltac:(lia)) as (R1 & R2 & R3 & R4 & R5).
  unfold real_distance, dist_reqs.
  set (k := GetLenToPosState (len + 2)).
  assert (((if len <? LzmaDec.kNumLenToPosStates then len else LzmaDec.kNumLenToPosStates - 1) <<< LzmaDec.kNumPosSlotBits) = k * 64) as ->.
  { unfold k, GetLenToPosState. change LzmaDec.kNumLenToPosStates with 4. change kNumLenToPosStates with 4.
    rewrite Z.shiftl_mul_pow2 by done. change (2 ^ LzmaDec.kNumPosSlotBits) with 64.
    destruct (Z.ltb_spec len 4), (Z.ltb_spec (len + 2) (4 + 1)); lia. }
  apply (follow_bind idx (TREE_6_DECODE (PosSlot + k * 64)) _ _ _ s).
  { unfold TREE_6_DECODE. rewrite <-(app_nil_r (reqs_of _ _)).
    apply (follow_bind idx _ (fun i => mret (i - 0x40) : parse Z) _ [] (64 + s)); [|cbn; f_equal; lia].
    apply (follow_tree 0); [lia| |lia|change (2 ^ Z.of_nat 6) with 64; lia].
    intros o _. rewrite idx_plain by done. change (start posSlotEncoder) with (kStartOffset + PosSlot). lia. }
  change LzmaDec.kStartPosModelIndex with 4. change LzmaDec.kEndPosModelIndex with 14. change LzmaDec.kNumAlignBits with 4.
  destruct (Z.ltb_spec s 4) as [H4|H4]; [destruct (Z.leb_spec 4 s); [lia|]; cbn; do 2 f_equal; lia|].
  destruct (Z.leb_spec 4 s); [|lia]. cbv zeta. destruct (slot_base s) as [-> ->].
  destruct (Z.ltb_spec s 14) as [H14|H14].
  - destruct R5 as (r & Er & Hr); [lia|]. pose proof (spec_ok s r ltac:(lia) Hr) as Hck.
    unfold spec_check in Hck. rewrite <-Er in Hck. rewrite !andb_true_iff in Hck. destruct Hck as [[[_ Hck] _] _].
    by apply bool_decide_eq_true in Hck.
  - destruct (long_parts s dist Hslot ltac:(lia)) as (Hn & Hq & Hd). set (n := footer s - 4) in *.
    set (R := dist / 16 mod 2 ^ n) in *. pose proof (Z.mod_pos_bound (dist / 16) (2 ^ n) ltac:(lia)) as HR. fold R in HR.
    pose proof (Z.mod_pos_bound s 2 ltac:(lia)). assert (dist / 16 < 2 ^ 28) as Hd16 by (apply Z.div_lt_upper_bound; lia).
    apply (follow_bind idx (direct_bits (Z.to_nat n) (2 + s mod 2)) _ _ _ (dist / 16)).
    { rewrite follow_direct; [|lia|].
      - rewrite Z2Nat.id by lia. f_equal. rewrite (Z.mod_small R) by lia. lia.
      - rewrite Z2Nat.id by lia. assert (2 ^ n <= 2 ^ 26) by (apply Z.pow_le_mono_r; lia). nia. }
    change (_ ← REV_BIT_CONST Align 1 1; _) with (x ← REV_BIT_CONST Align 1 1; x ← REV_BIT_CONST Align x 2;
      x ← REV_BIT_CONST Align x 4; x ← REV_BIT_LAST Align x 8;
      mret (if (u32 ((dist / 16) <<< 4) ||| x) =? 0xFFFFFFFF then None else Some (u32 ((dist / 16) <<< 4) ||| x)) : parse (option Z)).
    pose proof (follow_align (Z.testbit dist 0) (Z.testbit dist 1) (Z.testbit dist 2) (Z.testbit dist 3)) as Hal.
    rewrite <-low_nibble in Hal.
    assert (u32 ((dist / 16) <<< 4) ||| dist mod 16 = dist) as Edist.
    { rewrite wrap_small by (unfold in_width; rewrite Z.shiftl_mul_pow2 by lia; lia).
      rewrite Z.lor_comm, lor_shiftl_add by (try apply Z.mod_pos_bound; lia). pose proof (Z.div_mod dist 16). lia. }
    pose proof (follow_bind idx align_tree
      (fun x => mret (if (u32 ((dist / 16) <<< 4) ||| x) =? 0xFFFFFFFF then None else Some (u32 ((dist / 16) <<< 4) ||| x)) : parse (option Z))
      _ [] _ (Some dist) Hal) as G.
    rewrite app_nil_r in G. cbv beta in G. rewrite Edist in G.
    destruct (Z.eqb_spec dist 0xFFFFFFFF); [lia|]. specialize (G eq_refl).
    rewrite <-G. reflexivity.
Qed.

(** ** Requests stay inside the arrays *)

Lemma tree_offs_bound n node r : 1 <= node ->
  Forall (fun o => 1 <= o.1 < (node + 1) * 2 ^ (Z.of_nat n - 1)) (tree_offs n node r).
Proof.
  revert node. induction n as [|n IH]; intros node Hn; cbn [tree_offs]; [constructor|].
  replace (Z.of_nat (S n) - 1) with (Z.of_nat n) by lia. pose proof (Z.pow_pos_nonneg 2 (Z.of_nat n) ltac:(lia) ltac:(lia)).
  constructor; [cbn; nia|]. destruct n as [|n]; [constructor|].
  set (b := Z.b2z _). assert (0 <= b <= 1) by (unfold b; destruct (Z.testbit _ _); cbn; lia).
  eapply Forall_impl; [apply IH; lia|]. intros o Ho. cbv beta in *.
  rewrite Nat2Z.inj_succ in *. replace (Z.succ (Z.of_nat n) - 1) with (Z.of_nat n) in Ho by lia. rewrite Z.pow_succ_r in * by lia. nia.
Qed.

Lemma tree_valid lclp a k n r :
  0 <= k -> k + 2 ^ Z.of_nat n <= arr_size lclp a -> Forall (valid_req (arr_size lclp)) (reqs_of (a, k) (tree_offs n 1 r)).
Proof.
  intros Hk Hn. apply reqs_of_valid. eapply Forall_impl; [apply (tree_offs_bound n 1 r); lia|]. intros o Ho. cbv beta in *.
  destruct n as [|n]; [cbn in Ho; lia|]. replace (Z.of_nat (S n) - 1) with (Z.of_nat n) in Ho by lia.
  rewrite Nat2Z.inj_succ, Z.pow_succ_r in Hn by lia. lia.
Qed.

Lemma matched_offs_bound n : forall same node s m, (n <= 8)%nat -> 1 <= node -> (node + 1) * 2 ^ Z.of_nat n <= 512 ->
  Forall (fun o => 0 <= 0 + o.1 < 768) (matched_offs n same node s m).
Proof.
  induction n as [|n IH]; intros same node s m Hn Hnode Htop; cbn [matched_offs]; [constructor|].
  rewrite Nat2Z.inj_succ, Z.pow_succ_r in Htop by lia. pose proof (Z.pow_pos_nonneg 2 (Z.of_nat n) ltac:(lia) ltac:(lia)).
  set (b := Z.testbit s (Z.of_nat n)). constructor; [cbn; destruct same, (Z.testbit m (Z.of_nat n)); nia|].
  apply IH; [lia|destruct b; cbn; lia|destruct b; cbn; nia].
Qed.

Lemma matched_valid lclp k s m :
  0 <= k -> k + 768 <= arr_size lclp litProbs ->
  Forall (valid_req (arr_size lclp)) (reqs_of (litProbs, k) (matched_offs 8 true 1 s m)).
Proof.
  intros Hk Hs. apply reqs_of_valid. eapply Forall_impl; [apply (matched_offs_bound 8 true 1 s m); cbn; lia|]. cbv beta. lia.
Qed.

Lemma len_reqs_valid lclp lowA highA sym ps :
  arr_size lclp lowA = 256 -> arr_size lclp highA = 256 -> 0 <= ps < 16 ->
  Forall (valid_req (arr_size lclp)) (len_reqs lowA highA sym ps).
Proof.
  intros Hl Hh Hp. unfold len_reqs, len_low_reqs.
  destruct (sym <? 8); [|constructor; [unfold valid_req, valid; cbn; lia|]; destruct (sym <? 16)];
    (constructor; [unfold valid_req, valid; cbn; lia|]); (apply tree_valid; [lia|cbn; lia]).
Qed.

Lemma direct_valid sz n r : Forall (valid_req sz) (direct_reqs n r).
Proof. induction n as [|n IH]; constructor; [done|exact IH]. Qed.

Lemma align_valid lclp b0 b1 b2 b3 : Forall (valid_req (arr_size lclp)) (align_reqs b0 b1 b2 b3).
Proof. destruct b0, b1, b2, b3; repeat constructor; cbn; lia. Qed.

Lemma dist_reqs_valid lclp k s dist :
  0 <= k < 4 -> is_slot s dist -> 0 <= s < 64 -> Forall (valid_req (arr_size lclp)) (dist_reqs k s dist).
Proof.
  intros Hk Hslot Hs. destruct (slot_range s dist Hslot ltac:(lia)) as (_ & _ & _ & _ & R5). unfold dist_reqs.
  apply Forall_app. split; [apply tree_valid; [lia|change (arr_size lclp posSlotEncoder) with 256; cbn; lia]|].
  destruct (Z.ltb_spec s 4); [constructor|]. destruct (Z.ltb_spec s 14).
  - apply reqs_of_valid. destruct R5 as (r & Er & Hr); [lia|]. pose proof (spec_ok s r ltac:(lia) Hr) as Hck.
    unfold spec_check in Hck. rewrite <-Er in Hck. rewrite !andb_true_iff in Hck. destruct Hck as [[_ Hck] _].
    apply Forall_forall. intros o Ho. rewrite forallb_forall in Hck. apply list_elem_of_In, Hck in Ho.
    change (arr_size lclp posEncoders) with 128. lia.
  - apply Forall_app. split; [apply direct_valid|apply align_valid].
Qed.

(** ** How many there are *)

Lemma tree_offs_length n node r : length (tree_offs n node r) = n.
Proof. revert node. induction n as [|n IH]; intros node; cbn; [done|]. by rewrite IH. Qed.

Lemma matched_offs_length n same node s m : length (matched_offs n same node s m) = n.
Proof. revert same node. induction n as [|n IH]; intros same node; cbn; [done|]. by rewrite IH. Qed.

Lemma reqs_of_length probs l : length (reqs_of probs l) = length l.
Proof. apply length_map. Qed.

Lemma direct_reqs_length n r : length (direct_reqs n r) = n.
Proof. induction n as [|n IH]; cbn; [done|]. by rewrite IH. Qed.

Lemma len_reqs_length lowA highA sym ps : (length (len_reqs lowA highA sym ps) <= 10)%nat.
Proof.
  unfold len_reqs, len_low_reqs. destruct (sym <? 8); [|cbn [length]; destruct (sym <? 16)];
    cbn [length]; rewrite reqs_of_length, tree_offs_length; lia.
Qed.

Lemma dist_reqs_length k s dist :
  is_slot s dist -> 0 <= s < 64 -> (length (dist_reqs k s dist) <= 36)%nat.
Proof.
  intros Hslot Hs. destruct (slot_range s dist Hslot ltac:(lia)) as (_ & _ & _ & _ & R5). unfold dist_reqs.
  rewrite length_app, reqs_of_length, tree_offs_length. destruct (Z.ltb_spec s 4); [cbn; lia|]. destruct (Z.ltb_spec s 14).
  - destruct R5 as (r & Er & Hr); [lia|]. pose proof (spec_ok s r ltac:(lia) Hr) as Hck.
    unfold spec_check in Hck. rewrite <-Er in Hck. rewrite !andb_true_iff in Hck. destruct Hck as [_ Hck].
    rewrite reqs_of_length. apply Z.eqb_eq in Hck. unfold footer in Hck. Z.to_euclidean_division_equations. lia.
  - destruct (long_parts s dist Hslot ltac:(lia)) as (Hn & _ & _). rewrite length_app, direct_reqs_length. cbn. lia.
Qed.

(** ** The end marker *)

Definition end_slot : offs := tree_offs 6 1 63.
Definition end_align : offs := [(1, true); (3, true); (7, true); (15, true)].
Definition end_reqs : list req :=
  reqs_of (posSlotEncoder, 0) end_slot ++ replicate 26 (RDirect true) ++ reqs_of (posAlignEncoder, 0) end_align.

Lemma follow_end : follow idx (real_distance 0) end_reqs = Some None.
Proof. vm_compute. reflexivity. Qed.

Lemma end_reqs_valid lclp : Forall (valid_req (arr_size lclp)) end_reqs.
Proof.
  apply Forall_app. split; [apply tree_valid; [lia|change (arr_size lclp posSlotEncoder) with 256; cbn; lia]|].
  apply Forall_app. split; [apply Forall_replicate; done|]. repeat constructor; cbn; lia.
Qed.

Section EndMarker.
Context (lclp : Z).
Abbreviation sz := (arr_size lclp).

(** A loop of RC_BIT_PRE and RC_BIT_1 along the rightmost path. *)
Lemma ones_loop a lim fuel : forall m n c l,
  loop_offs (fun m => (m, 1)) (fun m => (m <<< 1) + 1) (fun m => m <? lim) fuel m = Some l ->
  enc_ok sz (n + Z.of_nat (length l)) c -> 0 <= n -> Forall (valid_req sz) (reqs_of (a, 0) l) ->
  (r ← do_while fuel
    (fun '(m, c) =>
       let prob := (a, m) in
       pre ← RC_BIT_PRE c prob; c ← RC_BIT_1 prob pre c; Some ((m <<< 1) + 1, c))
    (fun '(m, _) => m <? lim) (m, c); Some r.2) = encode (reqs_of (a, 0) l) c.
Proof using Type.
  unfold do_while. induction fuel as [|fuel IH]; intros m n c l Hl Hc Hn Hv; [done|].
  cbn [loop loop_offs Z.eqb Pos.eqb orb] in *. cbv zeta.
  set (m' := (m <<< 1) + 1) in *.
  assert (exists l', l = (m, true) :: l' /\ (if m' <? lim then
      loop_offs (fun m => (m, 1)) (fun m => (m <<< 1) + 1) (fun m => m <? lim) fuel m' = Some l' else l' = [])) as (l' & -> & Hl').
  { destruct (m' <? lim); [destruct (loop_offs _ _ _ fuel m') as [l'|]; [|done]; injection Hl as <-; by exists l'|injection Hl as <-; by exists []]. }
  apply Forall_cons_1 in Hv as [Hv Hvs]. cbn [length reqs_of map encode] in *.
  set (k := n + Z.of_nat (length l')). assert (enc_ok sz (k + 1) c) as Hc' by (by replace (k + 1) with (n + Z.of_nat (S (length l'))) by lia).
  destruct (pre_ok lclp (k + 1) c (a, m) Hc' Hv) as (pre & -> & _ & E1). opt. rewrite E1. change (padd (a, 0) m) with (a, m).
  destruct (enc_step lclp k c (RBit (a, m) true) Hc' ltac:(lia) Hv) as (c1 & -> & Hc1). opt.
  destruct (m' <? lim); [by apply (IH m' n)|]. by rewrite Hl'.
Qed.

Lemma direct_ones k : forall n c fuel, (k < fuel)%nat -> enc_ok sz (n + Z.of_nat (S k)) c -> 0 <= n ->
  (r ← do_while fuel
    (fun '(numBits, c) =>
       let r := range (rc c) >>> 1 in
       c ← RC_NORM (set_rc (set_range r (set_low (u64 (low (rc c) + r)) (rc c))) c);
       Some (numBits - 1, c))
    (fun '(numBits, _) => negb (numBits =? 0)) (Z.of_nat (S k), c); Some r.2) = encode (replicate (S k) (RDirect true)) c.
Proof using Type.
  unfold do_while. induction k as [|k IH]; intros n c fuel Hf Hc Hn; (destruct fuel as [|fuel]; [lia|]); cbn [loop replicate encode]; cbv zeta;
    (assert ((c0 ← RC_NORM (set_rc (set_range (range (rc c) >>> 1) (set_low (u64 (low (rc c) + (range (rc c) >>> 1))) (rc c))) c); Some c0) = encode1 (RDirect true) c) as E;
     [ cbn [encode1]; unfold rc_direct; change (u32 (0 - Z.b2z true)) with (2 ^ 32 - 1);
       pose proof (eo_range _ _ _ Hc); rewrite land_all_ones
         by (rewrite Z.shiftr_div_pow2 by lia; unfold in_width; Z.to_euclidean_division_equations; lia);
       by destruct (RC_NORM _)|]).
  - rewrite <-E. by destruct (RC_NORM _).
  - set (j := n + Z.of_nat (S k)). assert (enc_ok sz (j + 1) c) as Hc' by (by replace (j + 1) with (n + Z.of_nat (S (S k))) by lia).
    destruct (enc_step lclp j c (RDirect true) Hc' ltac:(lia) I) as (c1 & E1 & Hc1). rewrite E1 in E |- *.
    destruct (RC_NORM _) as [c2|]; [|done]. injection E as ->. opt.
    replace (Z.of_nat (S (S k)) - 1) with (Z.of_nat (S k)) by lia.
    destruct (Z.eqb_spec (Z.of_nat (S k)) 0); [lia|]. cbn [negb]. apply (IH n); (done || lia).
Qed.
End EndMarker.
