(* ===== verification/LzmaSymbols.v ===== *)
(** * LZMA: one symbol, coded and decoded

    code_symbol and WriteEndMarker (LzmaEnc.v) code a list of requests; decode_real
    (LzmaDec.v), asked the same, answers with the symbol. *)

From stdpp Require Import base numbers list list_numbers.
From Stdlib Require Import ZArith Lia.
From S2P Require Import Prelude.
From S2P Require Import SzTypes.
From S2P Require Import LzmaParse.
From S2P Require Import LzmaDec.
From S2P Require Import LzmaDecSym.
From S2P Require Import RangeEnc.
From S2P Require Import LzmaEnc.
From S2P Require Import RangeCoder.
From S2P Require Import LzmaCodec.
From S2P Require Import LzmaDist.
Local Open Scope Z_scope.
Local Open Scope word_scope.

(** ** The encoder's fields *)

Record enc_wf (p : CLzmaEnc) : Prop := {
  ew_state : 0 <= state p < 12;
  ew_props : 0 <= lc p <= 8 /\ 0 <= lp p <= 4 /\ 0 <= pb p <= 4;
  ew_pbMask : pbMask p = 2 ^ pb p - 1;
  ew_lpMask : lpMask p = (0x100 <<< lp p) - (0x100 >>> lc p);
  ew_slots : g_FastPos p = LzmaEnc_FastPosInit
}.

Definition dec_props (p : CLzmaEnc) : CLzmaProps := {| LzmaDec.lc := lc p; LzmaDec.lp := lp p; LzmaDec.pb := pb p; dicSize := 2 ^ 12 |}.

Definition lclp (p : CLzmaEnc) : Z := lp p + lc p.

(** Next states. *)
Definition lit_next (s : Z) : Z := s - (if s <? 4 then s else if s <? 10 then 3 else 6).
Definition next_of (lit other s : Z) : Z := if s <? 7 then lit else other.

Lemma next_states s : 0 <= s < 12 ->
  rd kLiteralNextStates s = Some (lit_next s) /\ rd kMatchNextStates s = Some (next_of 7 10 s) /\
  rd kRepNextStates s = Some (next_of 8 11 s) /\ rd kShortRepNextStates s = Some (next_of 9 11 s).
Proof.
  intros Hs. assert (s = 0 \/ s = 1 \/ s = 2 \/ s = 3 \/ s = 4 \/ s = 5 \/ s = 6 \/ s = 7 \/ s = 8 \/ s = 9 \/ s = 10 \/ s = 11) as H by lia.
  destruct H as [->|[->|[->|[->|[->|[->|[->|[->|[->|[->|[->| ->]]]]]]]]]]]; done.
Qed.

(** ** Requests of a symbol *)

Definition pos_state (p : CLzmaEnc) (nowPos32 : Z) : Z := nowPos32 &&& pbMask p.

Definition lit_offs (p : CLzmaEnc) (cur mb : Z) : offs :=
  if IsLitState (state p) then tree_offs 8 1 cur else matched_offs 8 true 1 cur mb.

Definition which_rep_reqs (st ps dist len : Z) : list req :=
  if dist =? 0 then [RBit (isRepG0, st) false; RBit (row16 isRep0Long st ps) (negb (len =? 1))]
  else if dist =? 1 then [RBit (isRepG0, st) true; RBit (isRepG1, st) false]
  else [RBit (isRepG0, st) true; RBit (isRepG1, st) true; RBit (isRepG2, st) (negb (dist =? 2))].

Definition slot_of (dist : Z) : Z := default 0 (GetPosSlot LzmaEnc_FastPosInit dist).

Definition match_reqs (ps dist len : Z) : list req :=
  len_reqs lenProbs_low lenProbs_high (len - 2) ps ++ dist_reqs (GetLenToPosState len) (slot_of dist) dist.

(** [prev], [cur] and [mb] are the bytes before, at, and [reps[0]] before the position. *)
Definition sym_reqs (p : CLzmaEnc) (nowPos32 len dist prev cur mb : Z) : list req :=
  let st := state p in
  let ps := pos_state p nowPos32 in
  if dist =? MARK_LIT then
    RBit (row16 isMatch st ps) false :: reqs_of (LIT_PROBS p nowPos32 prev) (lit_offs p cur mb)
  else
    RBit (row16 isMatch st ps) true ::
    if dist <? 4 then
      RBit (isRep, st) true :: which_rep_reqs st ps dist len ++
      (if len =? 1 then [] else len_reqs repLenProbs_low repLenProbs_high (len - 2) ps)
    else RBit (isRep, st) false :: match_reqs ps (dist - 4) len.

(** The repeated distances after [dist]. *)
Definition rotate (p : CLzmaEnc) (dist : Z) : CLzmaEnc :=
  if dist =? 0 then p
  else if dist =? 1 then set_reps (reps1 p) (reps0 p) (reps2 p) (reps3 p) p
  else if dist =? 2 then set_reps (reps2 p) (reps0 p) (reps1 p) (reps3 p) p
  else set_reps (reps3 p) (reps0 p) (reps1 p) (reps2 p) p.

(** The encoder after the symbol, its coder apart. *)
Definition enc_after (p : CLzmaEnc) (len dist : Z) : CLzmaEnc :=
  let s := state p in
  if dist =? MARK_LIT then set_state (lit_next s) p
  else if dist <? 4 then
    if len =? 1 then set_state (next_of 9 11 s) p
    else set_state (next_of 8 11 s) (set_counts (matchPriceCount p) (repLenEncCounter p - 1) (rotate p dist))
  else
    set_state (next_of 7 10 s)
      (set_counts (u32 (matchPriceCount p + 1)) (repLenEncCounter p)
        (set_reps (u32 (dist - 4 + 1)) (reps0 p) (reps1 p) (reps2 p) p)).

(** What the choices of the optimiser respect. *)
Definition choice_ok (len dist : Z) : Prop :=
  (dist = MARK_LIT /\ len = 1) \/ (dist = 0 /\ len = 1) \/
  (0 <= dist < 2 ^ 32 - 1 /\ 2 <= len <= 273).

(** ** Where the probabilities are *)

Lemma pos_state_ok p n : enc_wf p -> 0 <= pos_state p n < 16.
Proof.
  intros Hp. destruct (ew_props _ Hp) as (_ & _ & Hpb). unfold pos_state. rewrite (ew_pbMask _ Hp), land_ones_mod by lia.
  pose proof (Z.mod_pos_bound n (2 ^ pb p) ltac:(apply Z.pow_pos_nonneg; lia)).
  assert (2 ^ pb p <= 2 ^ 4) by (apply Z.pow_le_mono_r; lia). lia.
Qed.

Lemma row16_valid l a p n : enc_wf p -> arr_size l a = 192 -> valid (arr_size l) (row16 a (state p) (pos_state p n)).
Proof.
  intros Hp Ha. pose proof (pos_state_ok p n Hp). pose proof (ew_state _ Hp). unfold valid, row16. cbn [fst snd]. rewrite Ha.
  change LZMA_NUM_PB_STATES_MAX with 16. lia.
Qed.

Lemma state_valid l a p : enc_wf p -> arr_size l a = 12 -> valid (arr_size l) (a, state p).
Proof. intros Hp Ha. pose proof (ew_state _ Hp). unfold valid. cbn [fst snd]. lia. Qed.

(** The literal coder starts where the decoder's does. *)
Lemma LIT_PROBS_ok p n prev :
  enc_wf p -> 0 <= n -> in_width 8 prev ->
  exists k, LIT_PROBS p n prev = (litProbs, k) /\ 0 <= k /\ k + 768 <= arr_size (lclp p) litProbs /\
    k = 3 * ((u32 (u32 (n <<< 8) + prev) &&& ((0x100 <<< lp p) - (0x100 >>> lc p))) <<< lc p).
Proof.
  intros Hp Hn Hprev. destruct (ew_props _ Hp) as (Hlc & Hlp & Hpb).
  assert (props_ok (dec_props p)) as Hok by (unfold props_ok; cbn; lia).
  pose proof (real_literal_offset (dec_props p) n prev Hok Hn Hprev) as E. cbn in E.
  pose proof (literal_index_bound (dec_props p) n prev Hok Hn Hprev) as B. cbn in B.
  set (i := literal_index (dec_props p) n prev) in *. unfold LIT_PROBS. rewrite (ew_lpMask _ Hp).
  set (x := _ <<< lc p) in *. assert (x = 256 * i) as Ex by lia.
  assert (2 ^ (lc p + lp p) <= 2 ^ 12) by (apply Z.pow_le_mono_r; lia).
  rewrite !wrap_small by (rewrite ?wrap_small; unfold in_width; lia).
  exists (3 * x). split; [done|]. split; [lia|]. split; [|done]. unfold arr_size, lclp.
  rewrite Z.shiftl_mul_pow2, (Z.add_comm (lp p)) by lia. lia.
Qed.

(** ** The encoder codes these requests *)

Section Encode.
Context (p : CLzmaEnc) (Hp : enc_wf p).
Abbreviation sz := (arr_size (lclp p)).

Lemma encode_cons r rs c : encode (r :: rs) c = c ← encode1 r c; encode rs c.
Proof using Type. done. Qed.

Lemma literal_encode n win pos nowPos32 pre prev cur mb :
  let probs := row16 isMatch (state p) (pos_state p nowPos32) in
  enc_ok sz (n + 1) (cod p) -> 0 <= n -> RC_BIT_PRE (cod p) probs = Some pre ->
  rd win (pos - 1) = Some prev -> rd win pos = Some cur -> (7 <= state p -> rd win (pos - reps0 p) = Some mb) ->
  in_width 8 cur -> (7 <= state p -> in_width 8 mb) ->
  code_literal p win pos nowPos32 probs pre =
  c ← encode (RBit probs false :: reqs_of (LIT_PROBS p nowPos32 prev) (lit_offs p cur mb)) (cod p);
  Some (set_cod c (set_state (lit_next (state p)) p)).
Proof using Hp.
  intros probs Hc Hn Hpre Hprev Hcur Hmb Wc Wm.
  destruct (pre_ok (lclp p) _ _ probs Hc (row16_valid (lclp p) isMatch p nowPos32 Hp eq_refl)) as (pre' & E & E0 & _).
  assert (pre' = pre) as -> by congruence. unfold code_literal. rewrite E0, encode_cons.
  destruct (encode1 (RBit probs false) (cod p)) as [c1|]; [|done]. opt. rewrite Hprev. opt. rewrite Hcur. opt.
  destruct (next_states _ (ew_state _ Hp)) as (-> & _). opt. unfold lit_offs, IsLitState.
  destruct (Z.ltb_spec (state p) 7).
  - rewrite LitEnc_encode by exact Wc. by destruct (encode _ c1).
  - rewrite Hmb by done. opt. rewrite LitEncMatched_encode by (exact Wc || by apply Wm). by destruct (encode _ c1).
Qed.

(** The choice of a repeated distance, normalised at its end. *)
Lemma which_rep_encode n c ps dist len :
  enc_ok sz (n + 3) c -> 0 <= n -> valid sz (row16 isRep0Long (state p) ps) -> 0 <= dist < 4 ->
  (r ← code_which_rep p c ps dist len; c ← RC_NORM r.2; Some (r.1, c)) =
  c ← encode (which_rep_reqs (state p) ps dist len) c;
  Some (if dist =? 0 then if len =? 1 then set_state (next_of 9 11 (state p)) p else p else rotate p dist, c).
Proof using Hp.
  intros Hc Hn Hlong Hd. unfold code_which_rep, which_rep_reqs, rotate.
  pose proof (state_valid (lclp p) isRepG0 p Hp eq_refl) as V0. pose proof (state_valid (lclp p) isRepG1 p Hp eq_refl) as V1.
  pose proof (state_valid (lclp p) isRepG2 p Hp eq_refl) as V2.
  destruct (pre_ok (lclp p) _ c (isRepG0, state p) Hc V0) as (pre & -> & E0 & E1). opt.
  destruct (Z.eqb_spec dist 0) as [->|Hd0].
  { rewrite E0. cbn [encode].
    destruct (enc_step (lclp p) (n + 2) c (RBit (isRepG0, state p) false)) as (c1 & -> & Hc1); [by replace (n + 2 + 1) with (n + 3) by lia|lia|done|]. opt.
    destruct (pre_ok (lclp p) _ c1 _ Hc1 Hlong) as (pre1 & -> & F0 & F1). opt.
    unfold RC_BIT_0 in F0. unfold RC_BIT_1 in F1. destruct (next_states _ (ew_state _ Hp)) as (_ & _ & _ & Hnext).
    destruct (Z.eqb_spec len 1); cbn [negb]; [rewrite <-F0|rewrite <-F1].
    - destruct (RC_BIT_0_BASE _ _ c1); [|done]. opt. rewrite Hnext. opt. by destruct (RC_NORM _).
    - destruct (RC_BIT_1_BASE _ _ c1); [|done]. opt. by destruct (RC_NORM _). }
  rewrite E1. 
  destruct (enc_step (lclp p) (n + 2) c (RBit (isRepG0, state p) true)) as (c1 & Ec1 & Hc1); [by replace (n + 2 + 1) with (n + 3) by lia|lia|done|].
  destruct (pre_ok (lclp p) _ c1 _ Hc1 V1) as (pre1 & EP & F0 & F1). unfold RC_BIT_0 in F0.
  destruct (Z.eqb_spec dist 1) as [->|Hd1].
  { cbn [encode]. rewrite Ec1. opt. rewrite EP. opt. rewrite <-F0. destruct (RC_BIT_0_BASE _ _ c1); [|done]. opt. by destruct (RC_NORM _). }
  cbn [encode]. rewrite Ec1. opt. rewrite EP. opt. rewrite F1.
  destruct (enc_step (lclp p) (n + 1) c1 (RBit (isRepG1, state p) true)) as (c2 & -> & Hc2); [by replace (n + 1 + 1) with (n + 2) by lia|lia|done|]. opt.
  destruct (pre_ok (lclp p) _ c2 _ Hc2 V2) as (pre2 & -> & G0 & G1). opt. unfold RC_BIT_0 in G0. unfold RC_BIT_1 in G1.
  destruct (Z.eqb_spec dist 2); cbn [negb]; [rewrite <-G0|rewrite <-G1].
  - destruct (RC_BIT_0_BASE _ _ c2); [|done]. opt. by destruct (RC_NORM _).
  - destruct (RC_BIT_1_BASE _ _ c2); [|done]. opt. by destruct (RC_NORM _).
Qed.

Lemma which_rep_valid ps dist len :
  0 <= ps < 16 -> Forall (valid_req sz) (which_rep_reqs (state p) ps dist len) /\
  (length (which_rep_reqs (state p) ps dist len) <= 3)%nat.
Proof using Hp.
  intros Hps. pose proof (ew_state _ Hp). unfold which_rep_reqs.
  destruct (dist =? 0); [|destruct (dist =? 1)]; (split; [|cbn; lia]);
    repeat constructor; cbn; change LZMA_NUM_PB_STATES_MAX with 16; change kNumStates with 12; lia.
Qed.

Lemma rep_encode n c nowPos32 dist len pre :
  let ps := pos_state p nowPos32 in
  enc_ok sz (n + 6) c -> 0 <= n -> RC_BIT_PRE c (isRep, state p) = Some pre -> 0 <= dist < 4 ->
  (dist = 0 /\ len = 1 \/ 2 <= len <= 273) ->
  code_rep p ps dist len (isRep, state p) pre c =
  c ← encode (RBit (isRep, state p) true :: which_rep_reqs (state p) ps dist len ++
        (if len =? 1 then [] else len_reqs repLenProbs_low repLenProbs_high (len - 2) ps)) c;
  Some (set_cod c (if len =? 1 then set_state (next_of 9 11 (state p)) p
                   else set_state (next_of 8 11 (state p)) (set_counts (matchPriceCount p) (repLenEncCounter p - 1) (rotate p dist)))).
Proof using Hp.
  intros ps Hc Hn Hpre Hd Hlen. pose proof (pos_state_ok p nowPos32 Hp) as Hps. fold ps in Hps.
  pose proof (state_valid (lclp p) isRep p Hp eq_refl) as V.
  destruct (pre_ok (lclp p) _ c _ Hc V) as (pre' & E & _ & E1). assert (pre' = pre) as -> by congruence.
  unfold code_rep. rewrite E1, encode_cons.
  destruct (enc_step (lclp p) (n + 5) c (RBit (isRep, state p) true)) as (c1 & -> & Hc1); [by replace (n + 5 + 1) with (n + 6) by lia|lia|done|]. opt.
  rewrite encode_app.
  assert (enc_ok sz (n + 2 + 3) c1) as Hc1' by (by replace (n + 2 + 3) with (n + 5) by lia).
  pose proof (which_rep_encode (n + 2) c1 ps dist len Hc1' ltac:(lia) (row16_valid (lclp p) isRep0Long p nowPos32 Hp eq_refl) Hd) as W.
  destruct (which_rep_valid ps dist len Hps) as [Wv Wl].
  destruct (encode_ok sz (which_rep_reqs (state p) ps dist len) (n + 2) c1) as (c2 & E2 & Hc2 & _);
    [apply (enc_ok_le sz (n + 5)); [done|lia]|lia|done|].
  rewrite E2 in W |- *. cbn [mbind option_bind] in W |- *.
  destruct (code_which_rep p c1 ps dist len) as [[p1 c1']|]; [|done]. cbn [mbind option_bind fst snd] in W |- *.
  destruct (RC_NORM c1') as [c2'|]; [|done]. injection W as -> ->. opt.
  destruct (next_states _ (ew_state _ Hp)) as (_ & _ & Hnext & _).
  destruct (Z.eqb_spec len 1) as [->|Hl1]; cbn [negb].
  - destruct Hlen as [[-> _]|]; [|lia]. done.
  - assert ((if dist =? 0 then p else rotate p dist) = rotate p dist) as -> by (unfold rotate; by destruct (dist =? 0)).
    rewrite (LenEnc_encode (lclp p) n) by (done || (change LZMA_MATCH_LEN_MIN with 2; lia)).
    change LZMA_MATCH_LEN_MIN with 2. destruct (encode _ c2); [|done]. opt.
    assert (state (rotate p dist) = state p /\ matchPriceCount (rotate p dist) = matchPriceCount p /\
      repLenEncCounter (rotate p dist) = repLenEncCounter p) as (-> & -> & ->).
    { unfold rotate. by destruct (dist =? 0), (dist =? 1), (dist =? 2). }
    rewrite Hnext. done.
Qed.

Lemma match_encode n c nowPos32 dist len pre :
  let ps := pos_state p nowPos32 in
  enc_ok sz (n + 3) c -> 0 <= n -> RC_BIT_PRE c (isRep, state p) = Some pre -> 4 <= dist < 2 ^ 32 -> 2 <= len <= 273 ->
  code_match p ps dist len (isRep, state p) pre c =
  c ← encode (RBit (isRep, state p) false :: match_reqs ps (dist - 4) len) c;
  Some (set_cod c (set_state (next_of 7 10 (state p))
      (set_counts (u32 (matchPriceCount p + 1)) (repLenEncCounter p)
        (set_reps (u32 (dist - 4 + 1)) (reps0 p) (reps1 p) (reps2 p) p)))).
Proof using Hp.
  intros ps Hc Hn Hpre Hd Hlen. pose proof (pos_state_ok p nowPos32 Hp) as Hps. fold ps in Hps.
  pose proof (state_valid (lclp p) isRep p Hp eq_refl) as V.
  destruct (pre_ok (lclp p) _ c _ Hc V) as (pre' & E & E0 & _). assert (pre' = pre) as -> by congruence.
  unfold code_match. rewrite E0, encode_cons.
  destruct (enc_step (lclp p) (n + 2) c (RBit (isRep, state p) false)) as (c1 & -> & Hc1); [by replace (n + 2 + 1) with (n + 3) by lia|lia|done|]. opt.
  destruct (next_states _ (ew_state _ Hp)) as (_ & -> & _). opt. unfold match_reqs. rewrite encode_app.
  change LZMA_MATCH_LEN_MIN with 2. change LZMA_NUM_REPS with 4.
  rewrite (LenEnc_encode (lclp p) n) by (done || lia). destruct (encode (len_reqs _ _ _ _) c1) as [c2|]; [|done]. opt.
  cbv zeta. change (LzmaEnc.g_FastPos (set_counts _ _ _)) with (g_FastPos p). rewrite (ew_slots _ Hp).
  destruct (GetPosSlot_ok (dist - 4)) as (s & Es & Hslot & Hs); [lia|].
  rewrite (distance_encode _ _ _ s) by done. unfold slot_of. rewrite Es. cbn [default from_option id]. by destruct (encode _ c2).
Qed.

Lemma symbol_encode n win pos nowPos32 len dist prev cur mb :
  enc_ok sz (n + 8) (cod p) -> 0 <= n -> choice_ok len dist ->
  (dist = MARK_LIT -> rd win (pos - 1) = Some prev /\ rd win pos = Some cur /\ in_width 8 cur) ->
  (dist = MARK_LIT -> 7 <= state p -> rd win (pos - reps0 p) = Some mb /\ in_width 8 mb) ->
  code_symbol p win pos nowPos32 len dist =
  c ← encode (sym_reqs p nowPos32 len dist prev cur mb) (cod p); Some (set_cod c (enc_after p len dist)).
Proof using Hp.
  intros Hc Hn Hch Hlit Hmb. unfold code_symbol, sym_reqs, enc_after. fold (pos_state p nowPos32).
  set (ps := pos_state p nowPos32). change LZMA_NUM_REPS with 4.
  destruct (pre_ok (lclp p) _ (cod p) _ Hc (row16_valid (lclp p) isMatch p nowPos32 Hp eq_refl)) as (pre & Epre & _ & E1).
  fold ps in Epre, E1. rewrite Epre. opt. destruct (Z.eqb_spec dist MARK_LIT) as [Hd|Hd].
  - destruct (Hlit Hd) as (L1 & L2 & L3). apply (literal_encode (n + 7)); try done; try lia.
    + by replace (n + 7 + 1) with (n + 8) by lia.
    + intros H7. by apply Hmb.
    + intros H7. by apply Hmb.
  - rewrite E1. rewrite (encode_cons (RBit (row16 isMatch (state p) ps) true)).
    destruct (enc_step (lclp p) (n + 7) (cod p) (RBit (row16 isMatch (state p) ps) true)) as (c1 & -> & Hc1);
      [by replace (n + 7 + 1) with (n + 8) by lia|lia|by apply row16_valid|]. opt.
    destruct (pre_ok (lclp p) _ c1 _ Hc1 (state_valid (lclp p) isRep p Hp eq_refl)) as (pre1 & Epre1 & _ & _). rewrite Epre1. opt.
    destruct Hch as [[? _]|Hch]; [done|].
    destruct (Z.ltb_spec dist 4).
    + pose proof (rep_encode (n + 1) c1 nowPos32 dist len pre1) as R. cbv zeta in R. fold ps in R.
      rewrite R; [|by replace (n + 1 + 6) with (n + 7) by lia|lia|done|lia|lia].
      destruct (len =? 1); done.
    + apply (match_encode (n + 4)); [by replace (n + 4 + 3) with (n + 7) by lia|lia|done|lia|lia].
Qed.

Lemma sym_reqs_ok nowPos32 len dist prev cur mb :
  choice_ok len dist -> 0 <= nowPos32 -> in_width 8 prev ->
  Forall (valid_req sz) (sym_reqs p nowPos32 len dist prev cur mb) /\
  (length (sym_reqs p nowPos32 len dist prev cur mb) <= 64)%nat.
Proof using Hp.
  intros Hch Hpos Hprev. unfold sym_reqs, lit_offs. pose proof (pos_state_ok p nowPos32 Hp) as Hps.
  destruct (Z.eqb_spec dist MARK_LIT) as [Hd|Hd].
  - destruct (LIT_PROBS_ok p nowPos32 prev Hp Hpos Hprev) as (k & -> & Hk & Hks & _).
    split; [constructor; [by apply row16_valid|]|cbn [length]; rewrite reqs_of_length].
    + destruct (IsLitState (state p)); [apply tree_valid; [lia|cbn in *; lia]|by apply matched_valid].
    + destruct (IsLitState (state p)); [rewrite tree_offs_length|rewrite matched_offs_length]; lia.
  - destruct Hch as [[? _]|Hch]; [done|]. destruct (Z.ltb_spec dist 4).
    + destruct (which_rep_valid (pos_state p nowPos32) dist len Hps) as [Wv Wl].
      pose proof (len_reqs_length repLenProbs_low repLenProbs_high (len - 2) (pos_state p nowPos32)).
      split; [constructor; [by apply row16_valid|]; constructor; [by apply state_valid|]|].
      * apply Forall_app. split; [done|]. destruct (len =? 1); [constructor|by apply len_reqs_valid].
      * cbn [length]. rewrite length_app. destruct (len =? 1); cbn [length]; lia.
    + destruct (GetPosSlot_ok (dist - 4)) as (s & Es & Hslot & Hs); [lia|]. unfold match_reqs, slot_of. rewrite Es. cbn [default from_option id].
      pose proof (len_reqs_length lenProbs_low lenProbs_high (len - 2) (pos_state p nowPos32)).
      pose proof (dist_reqs_length (GetLenToPosState len) s (dist - 4) Hslot Hs).
      split; [constructor; [by apply row16_valid|]; constructor; [by apply state_valid|]|].
      * apply Forall_app. split; [by apply len_reqs_valid|]. apply dist_reqs_valid; try done.
        unfold GetLenToPosState. change kNumLenToPosStates with 4. destruct (Z.ltb_spec len (4 + 1)); lia.
      * cbn [length]. rewrite length_app. lia.
Qed.

(** ** The end marker *)

Definition end_mark_reqs (ps : Z) : list req :=
  RBit (row16 isMatch (state p) ps) true :: RBit (isRep, state p) false ::
  len_reqs lenProbs_low lenProbs_high 0 ps ++ end_reqs.

Lemma end_mark_reqs_ok ps : 0 <= ps < 16 ->
  Forall (valid_req sz) (end_mark_reqs ps) /\ (length (end_mark_reqs ps) <= 64)%nat.
Proof using Hp.
  intros Hps. pose proof (ew_state _ Hp). unfold end_mark_reqs. split.
  - constructor; [unfold valid_req, valid, row16; cbn [fst snd]; change (sz isMatch) with 192; change LZMA_NUM_PB_STATES_MAX with 16; lia|].
    constructor; [by apply state_valid|]. apply Forall_app. split; [by apply len_reqs_valid|apply end_reqs_valid].
  - cbn [length]. rewrite length_app. pose proof (len_reqs_length lenProbs_low lenProbs_high 0 ps).
    change (length end_reqs) with 36%nat. lia.
Qed.

Lemma WriteEndMarker_encode n nowPos :
  let ps := pos_state p nowPos in
  enc_ok sz (n + 64) (cod p) -> 0 <= n ->
  WriteEndMarker p ps = c ← encode (end_mark_reqs ps) (cod p); Some (set_cod c (set_state (next_of 7 10 (state p)) p)).
Proof using Hp.
  intros ps Hc Hn. pose proof (pos_state_ok p nowPos Hp) as Hps. fold ps in Hps.
  destruct (end_mark_reqs_ok ps Hps) as [Hv Hlen]. unfold end_mark_reqs, end_reqs in *. cbn [length] in Hlen.
  apply Forall_cons_1 in Hv as [V0 Hv]. apply Forall_cons_1 in Hv as [V1 Hv].
  apply Forall_app in Hv as [VL Hv]. apply Forall_app in Hv as [VS Hv]. apply Forall_app in Hv as [VD VA].
  destruct (pre_ok (lclp p) _ (cod p) _ Hc V0) as (pre & Epre & _ & E1). unfold WriteEndMarker. rewrite Epre. opt. rewrite E1, encode_cons.
  destruct (enc_step (lclp p) (n + 63) (cod p) _ ltac:(by replace (n + 63 + 1) with (n + 64) by lia) ltac:(lia) V0) as (c1 & -> & Hc1). opt.
  destruct (pre_ok (lclp p) _ c1 _ Hc1 V1) as (pre1 & -> & E0 & _). opt. rewrite E0, encode_cons.
  destruct (enc_step (lclp p) (n + 62) c1 _ ltac:(by replace (n + 62 + 1) with (n + 63) by lia) ltac:(lia) V1) as (c2 & -> & Hc2). opt.
  destruct (next_states _ (ew_state _ Hp)) as (_ & -> & _). opt.
  rewrite (LenEnc_encode (lclp p) (n + 60)) by (done || lia || by replace (n + 60 + 2) with (n + 62) by lia).
  rewrite encode_app. pose proof (len_reqs_length lenProbs_low lenProbs_high 0 ps) as LL.
  destruct (encode_ok sz (len_reqs lenProbs_low lenProbs_high 0 ps) (n + 40) c2) as (c3 & -> & Hc3 & _); [apply (enc_ok_le sz (n + 62)); [done|lia]|lia|done|]. opt.
  assert (loop_offs (fun m => (m, 1)) (fun m => (m <<< 1) + 1) (fun m => m <? 1 <<< kNumPosSlotBits) 7 1 = Some end_slot) as L1 by done.
  pose proof (ones_loop (lclp p) posSlotEncoder _ 7 1 (n + 34) c3 end_slot L1 ltac:(change (Z.of_nat (length end_slot)) with 6; by replace (n + 34 + 6) with (n + 40) by lia) ltac:(lia) VS) as S1.
  rewrite encode_app.
  destruct (encode_ok sz (reqs_of (posSlotEncoder, 0) end_slot) (n + 34) c3) as (c4 & E4 & Hc4 & _);
    [change (Z.of_nat (length (reqs_of (posSlotEncoder, 0) end_slot))) with 6; by replace (n + 34 + 6) with (n + 40) by lia|lia|done|].
  rewrite E4 in S1 |- *. destruct (do_while 7 _ _ _) as [[m4 c4']|]; [|done]. injection S1 as ->. opt.
  pose proof (direct_ones (lclp p) 25 (n + 8) c4 31 ltac:(lia) ltac:(change (Z.of_nat 26) with 26; by replace (n + 8 + 26) with (n + 34) by lia) ltac:(lia)) as S2.
  rewrite encode_app.
  destruct (encode_ok sz (replicate 26 (RDirect true)) (n + 8) c4) as (c5 & E5 & Hc5 & _);
    [change (Z.of_nat (length (replicate 26 (RDirect true)))) with 26; by replace (n + 8 + 26) with (n + 34) by lia|lia|done|].
  rewrite E5 in S2 |- *. change (30 - kNumAlignBits) with (Z.of_nat 26).
  destruct (do_while 31 _ _ _) as [[m5 c5']|]; [|done]. injection S2 as ->. opt.
  assert (loop_offs (fun m => (m, 1)) (fun m => (m <<< 1) + 1) (fun m => m <? kAlignTableSize) 5 1 = Some end_align) as L3 by done.
  pose proof (ones_loop (lclp p) posAlignEncoder _ 5 1 (n + 4) c5 end_align L3 ltac:(change (Z.of_nat (length end_align)) with 4; by replace (n + 4 + 4) with (n + 8) by lia) ltac:(lia) VA) as S3.
  destruct (encode (reqs_of (posAlignEncoder, 0) end_align) c5) as [c6|]; destruct (do_while 5 _ _ _) as [[m6 c6']|]; try done.
  injection S3 as ->. done.
Qed.
End Encode.
