(* ===== verification/LzmaFollow.v ===== *)
(** * LZMA: one symbol, decoded

    The reader of the decoder (decode_real, LzmaDec.v) asks for exactly the bits that
    code_symbol (LzmaEnc.v) codes, and answers with the choice of the encoder. *)

From stdpp Require Import base numbers list list_numbers.
From Stdlib Require Import ZArith Lia.
From S2P Require Import Prelude.
From S2P Require Import SzTypes.
From S2P Require Import LzmaParse.
From S2P Require Import LzmaDec.
From S2P Require Import LzmaDecSym.
From S2P Require Import RangeEnc.
From S2P Require Import LzmaEnc.
From S2P Require Import RangeCoder.
From S2P Require Import LzmaCodec.
From S2P Require Import LzmaDist.
From S2P Require Import LzmaSymbols.
Local Open Scope Z_scope.
Local Open Scope word_scope.

(** The decoder [q] is where the encoder [p] is, [nowPos32] bytes after the start. *)
Record linked (p : CLzmaEnc) (nowPos32 : Z) (q : CLzmaDec) : Prop := {
  lk_lc : LzmaDec.lc (prop q) = lc p;
  lk_lp : LzmaDec.lp (prop q) = lp p;
  lk_pb : LzmaDec.pb (prop q) = pb p;
  lk_state : LzmaDec.state q = state p;
  lk_rep0 : rep0 q = reps0 p;
  lk_rep1 : rep1 q = reps1 p;
  lk_rep2 : rep2 q = reps2 p;
  lk_rep3 : rep3 q = reps3 p;
  lk_pos : processedPos q = nowPos32
}.

(** The symbol of a choice; [cur] is the byte at the position. *)
Definition sym_of (p : CLzmaEnc) (len dist cur : Z) : sym :=
  let s := state p in
  if dist =? MARK_LIT then SymLit (lit_next s) (256 + cur)
  else if dist <? 4 then
    if len =? 1 then SymShortRep (next_of 9 11 s)
    else let r := rotate p dist in SymRep (next_of 8 11 s) (reps0 r) (reps1 r) (reps2 r) (reps3 r) (len - 2)
  else SymMatch (next_of 7 10 s) (dist - 4) (len - 2).

Lemma follow_P {A} off p b (k : bool -> parse A) rs :
  idx p = kStartOffset + off -> follow idx (P off ≫= k) (RBit p b :: rs) = follow idx (k b) rs.
Proof. intros E. cbn. by rewrite E, Z.eqb_refl. Qed.

Lemma follow_map {A B} (t : parse A) (f : A -> B) rs a :
  follow idx t rs = Some a -> follow idx (x ← t; mret (f x)) rs = Some (f a).
Proof. intros H. rewrite <-(app_nil_r rs). by apply (follow_bind idx t (fun x => mret (f x)) rs [] a). Qed.

(** [isMatch] and [isRep0Long] are transposed in the decoder. *)
Lemma idx_row16 a s ps :
  (a = isMatch \/ a = isRep0Long) -> 0 <= ps < 16 -> idx (row16 a s ps) = start a + (ps * 16 + s).
Proof.
  intros Ha Hps. unfold idx, row16. cbn [fst snd]. change LZMA_NUM_PB_STATES_MAX with 16.
  assert (transposed (s * 16 + ps) = ps * 16 + s) as E.
  { unfold transposed. rewrite (Z.add_comm (s * 16)), Z.mod_add, Z.mod_small, Z.div_add, Z.div_small by lia. lia. }
  destruct Ha as [->| ->]; cbn [node]; by rewrite E.
Qed.

Section Linked.
Context (p : CLzmaEnc) (nowPos32 : Z) (q : CLzmaDec).
Hypothesis Hp : enc_wf p.
Hypothesis Hq : linked p nowPos32 q.
Hypothesis Hpos : in_width 32 nowPos32.
Abbreviation ps := (pos_state p nowPos32).

Lemma posState_eq : posState q = ps * 16.
Proof using All.
  unfold posState, CALC_POS_STATE, pos_state, LzmaDec.pbMask.
  rewrite (lk_pos _ _ _ Hq), (lk_pb _ _ _ Hq), (ew_pbMask _ Hp). destruct (ew_props _ Hp) as (_ & _ & Hpb).
  rewrite Z.shiftl_mul_pow2, (Z.shiftl_mul_pow2 1), Z.mul_1_l by lia. change (2 ^ 4) with 16. lia.
Qed.

Lemma state_cases : state p = 0 \/ state p = 1 \/ state p = 2 \/ state p = 3 \/ state p = 4 \/ state p = 5 \/
  state p = 6 \/ state p = 7 \/ state p = 8 \/ state p = 9 \/ state p = 10 \/ state p = 11.
Proof using Hp. pose proof (ew_state _ Hp). lia. Qed.

(** The base of a literal coder, as the decoder computes it. *)
Lemma literal_base_eq prev k :
  (nowPos32 <> 0 \/ checkDicSize q <> 0) -> prev_byte q = Some prev -> in_width 8 prev ->
  LIT_PROBS p nowPos32 prev = (litProbs, k) -> real_literal q = mret (Literal + k).
Proof using All.
  intros Hnz Hprev Hw Hk. unfold real_literal. rewrite (lk_pos _ _ _ Hq).
  assert (negb (nowPos32 =? 0) || negb (checkDicSize q =? 0) = true) as ->.
  { destruct Hnz; apply orb_true_iff; rewrite !negb_true_iff, !Z.eqb_neq; auto. }
  rewrite Hprev. cbn [access mbind parse_bind]. unfold LzmaDec.lpMask.
  destruct (LIT_PROBS_ok p nowPos32 prev Hp) as (k' & E & _ & _ & Ek); [unfold in_width in Hpos; lia|done|].
  assert (k' = k) as -> by congruence. by rewrite (lk_lc _ _ _ Hq), (lk_lp _ _ _ Hq), Ek.
Qed.

Lemma literal_follow k cur mb :
  real_literal q = mret (Literal + k) -> in_width 8 cur -> (7 <= state p -> match_byte q = Some mb) ->
  follow idx (real_lit q) (reqs_of (litProbs, k) (lit_offs p cur mb)) = Some (SymLit (lit_next (state p)) (256 + cur)).
Proof using All.
  intros Hbase Hcur Hmb. unfold real_lit. rewrite Hbase. cbn [mbind parse_bind mret parse_ret].
  assert (forall o, idx (padd (litProbs, k) o) = kStartOffset + (Literal + k + o)) as Hidx.
  { intros o. rewrite idx_plain by done. change (start litProbs) with (kStartOffset + Literal). lia. }
  rewrite (lk_state _ _ _ Hq). change kNumLitStates with 7. unfold lit_offs, IsLitState, lit_next. unfold in_width in Hcur.
  destruct (Z.ltb_spec (state p) 7) as [H7|H7].
  - etransitivity; [apply (follow_map (tree_bits 8 (Literal + k) 1) (fun x => SymLit (state p - (if state p <? 4 then state p else 3)) x) _ (256 + cur))|].
    + rewrite <-(Z.mul_1_l 256) at 1. apply (follow_tree 0); [lia|by intros; apply Hidx|lia|exact Hcur].
    + do 2 f_equal. destruct (Z.ltb_spec (state p) 4), (Z.ltb_spec (state p) 10); lia.
  - rewrite Hmb by done. cbn [access mbind parse_bind].
    etransitivity; [apply (follow_map (matched_bits 8 (Literal + k) mb 0x100 1) (fun x => SymLit (state p - (if state p <? 10 then 3 else 6)) x) _ (256 + cur))|].
    + cbv beta. pose proof (follow_matched (litProbs, k) (Literal + k) cur mb 8 true 1 ltac:(by intros; apply Hidx) ltac:(lia) ltac:(lia) ltac:(cbn; lia)) as F.
      change (8 - Z.of_nat 8) with 0 in F. rewrite Z.shiftl_0_r in F. change (offs_of true) with 0x100 in F. rewrite F. f_equal.
      change (2 ^ Z.of_nat 8) with 256. rewrite Z.mod_small by (exact Hcur). lia.
    + do 2 f_equal. destruct (Z.ltb_spec (state p) 4), (Z.ltb_spec (state p) 10); lia.
Qed.

Lemma idx_state a off : start a = kStartOffset + off -> node a (state p) = state p -> idx (a, state p) = kStartOffset + (off + state p).
Proof using Type. intros E En. unfold idx. cbn [fst snd]. rewrite E, En. lia. Qed.

Lemma rep_len_follow dist len rs :
  dist = 0 \/ dist = 1 \/ dist = 2 \/ dist = 3 -> 2 <= len <= 273 ->
  rs = len_reqs repLenProbs_low repLenProbs_high (len - 2) ps ->
  let r := rotate p dist in
  follow idx (rep_len q (reps0 r) (reps1 r) (reps2 r) (reps3 r)) rs = Some (sym_of p len dist 0).
Proof using All.
  intros Hd Hlen -> r. unfold rep_len, sym_of. fold r.
  destruct (Z.eqb_spec dist MARK_LIT) as [E|_]; [unfold MARK_LIT in E; lia|].
  destruct (Z.ltb_spec dist 4); [|lia]. destruct (Z.eqb_spec len 1); [lia|].
  rewrite posState_eq, (lk_state _ _ _ Hq).
  etransitivity; [apply (follow_map (real_len RepLenCoder (ps * 16)) (fun x => SymRep (if state p <? kNumLitStates then 8 else 11) _ _ _ _ x) _ (len - 2))|done].
  apply follow_len; try done. lia.
Qed.

Lemma rep_follow dist len :
  0 <= dist < 4 -> (dist = 0 /\ len = 1 \/ 2 <= len <= 273) ->
  follow idx (real_rep q) (which_rep_reqs (state p) ps dist len ++
      (if len =? 1 then [] else len_reqs repLenProbs_low repLenProbs_high (len - 2) ps)) = Some (sym_of p len dist 0).
Proof using All.
  intros Hd Hlen. pose proof (pos_state_ok p nowPos32 Hp) as Hps. unfold real_rep, which_rep_reqs. cbv zeta.
  rewrite (lk_state _ _ _ Hq), posState_eq, (lk_rep0 _ _ _ Hq), (lk_rep1 _ _ _ Hq), (lk_rep2 _ _ _ Hq), (lk_rep3 _ _ _ Hq).
  assert (idx (isRepG0, state p) = kStartOffset + (IsRepG0 + state p)) as E0 by by apply idx_state.
  assert (idx (isRepG1, state p) = kStartOffset + (IsRepG1 + state p)) as E1 by by apply idx_state.
  assert (idx (isRepG2, state p) = kStartOffset + (IsRepG2 + state p)) as E2 by by apply idx_state.
  destruct (Z.eqb_spec dist 0) as [->|]; [|destruct (Z.eqb_spec dist 1) as [->|]]; cbn [app]; rewrite (follow_P _ _ _ _ _ E0); cbn [negb].
  - rewrite (follow_P (IsRep0Long + (ps * 16 + state p)))
      by (rewrite idx_row16 by (done || by right); change (start isRep0Long) with (kStartOffset + IsRep0Long); lia).
    destruct (Z.eqb_spec len 1) as [->|]; cbn [negb]; [done|].
    by apply (rep_len_follow 0); [lia|lia|].
  - destruct (Z.eqb_spec len 1); [lia|].
    rewrite (follow_P _ _ _ _ _ E1). by apply (rep_len_follow 1); [lia|lia|].
  - destruct (Z.eqb_spec len 1); [lia|].
    rewrite (follow_P _ _ _ _ _ E1). cbn [negb]. rewrite (follow_P _ _ _ _ _ E2). destruct (Z.eqb_spec dist 2) as [->|]; cbn [negb].
    + by apply (rep_len_follow 2); [lia|lia|].
    + assert (dist = 3) as -> by lia. by apply (rep_len_follow 3); [lia|lia|].
Qed.

Lemma match_follow dist len :
  4 <= dist < MARK_LIT -> 2 <= len <= 273 ->
  follow idx (real_match q) (match_reqs ps (dist - 4) len) = Some (sym_of p len dist 0).
Proof using All.
  intros Hd Hlen. unfold MARK_LIT in Hd. unfold real_match, match_reqs, sym_of. cbv zeta. rewrite posState_eq, (lk_state _ _ _ Hq).
  apply (follow_bind idx _ _ _ _ (len - 2)); [apply follow_len; try done; lia|].
  destruct (GetPosSlot_ok (dist - 4)) as (s & Es & Hslot & Hs); [lia|]. unfold slot_of. rewrite Es. cbn [default from_option id].
  pose proof (follow_distance (len - 2) s (dist - 4) Hslot Hs ltac:(lia) ltac:(lia)) as F.
  replace (len - 2 + 2) with len in F by lia.
  etransitivity; [apply (follow_map _ _ _ _ F)|]. cbv beta.
  destruct (Z.eqb_spec dist MARK_LIT) as [E|_]; [unfold MARK_LIT in E; lia|]. destruct (Z.ltb_spec dist 4); [lia|].
  change LzmaDec.kNumStates with 12. change kNumLitStates with 7. unfold next_of. do 2 f_equal.
  destruct (Z.ltb_spec (state p + 12) (12 + 7)), (Z.ltb_spec (state p) 7); lia.
Qed.

Lemma symbol_follow len dist prev cur mb :
  choice_ok len dist ->
  (dist = MARK_LIT -> (nowPos32 <> 0 \/ checkDicSize q <> 0) /\ prev_byte q = Some prev /\ in_width 8 prev /\ in_width 8 cur) ->
  (dist = MARK_LIT -> 7 <= state p -> match_byte q = Some mb) ->
  follow idx (decode_real q) (sym_reqs p nowPos32 len dist prev cur mb) = Some (sym_of p len dist cur).
Proof using All.
  intros Hch Hlit Hmb. pose proof (pos_state_ok p nowPos32 Hp) as Hps. unfold decode_real, sym_reqs. cbv zeta. rewrite posState_eq, (lk_state _ _ _ Hq).
  assert (idx (row16 isMatch (state p) ps) = kStartOffset + (IsMatch + (ps * 16 + state p))) as EM.
  { rewrite idx_row16 by (done || by left). change (start isMatch) with (kStartOffset + IsMatch). lia. }
  destruct (Z.eqb_spec dist MARK_LIT) as [Hd|Hd].
  - rewrite (follow_P _ _ _ _ _ EM). cbn [negb]. destruct (Hlit Hd) as (Hnz & Hprev & Wp & Wc).
    destruct (LIT_PROBS_ok p nowPos32 prev Hp) as (k & Ek & _); [unfold in_width in Hpos; lia|done|]. rewrite Ek.
    unfold sym_of. destruct (Z.eqb_spec dist MARK_LIT); [|done].
    apply literal_follow; [by apply (literal_base_eq prev)|done|by apply Hmb].
  - rewrite (follow_P _ _ _ _ _ EM). cbn [negb]. destruct Hch as [[? _]|Hch]; [done|].
    assert (idx (isRep, state p) = kStartOffset + (IsRep + state p)) as ER by by apply idx_state.
    assert (sym_of p len dist cur = sym_of p len dist 0) as -> by (unfold sym_of; by destruct (Z.eqb_spec dist MARK_LIT)).
    destruct (Z.ltb_spec dist 4); rewrite (follow_P _ _ _ _ _ ER); cbn [negb].
    + apply rep_follow; lia.
    + apply match_follow; unfold MARK_LIT; lia.
Qed.

Lemma end_mark_follow : follow idx (decode_real q) (end_mark_reqs p ps) = Some (SymEnd (state p)).
Proof using All.
  pose proof (pos_state_ok p nowPos32 Hp) as Hps. unfold decode_real, end_mark_reqs. rewrite posState_eq, (lk_state _ _ _ Hq).
  rewrite (follow_P (IsMatch + (ps * 16 + state p)))
    by (rewrite idx_row16 by (done || by left); change (start isMatch) with (kStartOffset + IsMatch); lia). cbn [negb].
  rewrite (follow_P (IsRep + state p)) by (by apply idx_state). cbn [negb].
  unfold real_match. cbv zeta. rewrite posState_eq, (lk_state _ _ _ Hq).
  apply (follow_bind idx _ _ _ _ 0); [apply follow_len; try done; lia|].
  etransitivity; [apply (follow_map _ _ _ _ follow_end)|]. cbv beta. do 2 f_equal. lia.
Qed.
End Linked.
