(* ===== verification/LzmaRun.v ===== *)
(** * LZMA: the whole encoding

    A parse of the data that the optimiser may choose ([parse_valid]), the states the encoder
    goes through when it codes it ([coded]), and LzmaEnc_Encode2 (LzmaEnc.v), which goes
    through them block by block. *)

From stdpp Require Import base numbers list list_numbers.
From Stdlib Require Import ZArith Lia.
From S2P Require Import Prelude.
From S2P Require Import SzTypes.
From S2P Require Import LzmaParse.
From S2P Require Import LzmaDec.
From S2P Require Import LzmaDecSym.
From S2P Require Import RangeEnc.
From S2P Require Import LzmaEnc.
From S2P Require Import RangeCoder.
From S2P Require Import LzmaCodec.
From S2P Require Import LzmaDist.
From S2P Require Import LzmaSymbols.
From S2P Require Import LzmaFollow.
Local Open Scope Z_scope.
Local Open Scope word_scope.

(** ** Valid parses *)

(** How far back the bytes of a match are. *)
Definition dist_of (p : CLzmaEnc) (dist : Z) : Z := if dist <? 4 then reps0 (rotate p dist) else dist - 3.

Definition repeats (win : list Z) (pos r len : Z) : bool :=
  (1 <=? r) && (r <=? pos) && forallb (fun i => bool_decide (rd win (pos + i) = rd win (pos + i - r))) (seqZ 0 len).

Definition choice_valid (p : CLzmaEnc) (win : list Z) (dictSize pos len dist : Z) : bool :=
  (pos + len <=? Z.of_nat (length win)) &&
  if dist =? MARK_LIT then len =? 1
  else (0 <=? dist) && (dist <? MARK_LIT) &&
       (((2 <=? len) && (len <=? 273)) || ((dist =? 0) && (len =? 1))) &&
       repeats win pos (dist_of p dist) len && (dist_of p dist <=? dictSize).

Fixpoint parse_valid (p : CLzmaEnc) (win : list Z) (dictSize pos : Z) (cs : list choice) : bool :=
  match cs with
  | [] => pos =? Z.of_nat (length win)
  | c :: cs =>
      choice_valid p win dictSize pos (ch_len c) (ch_dist c) && (ch_last c || negb (bool_decide (cs = []))) &&
      parse_valid (enc_after p (ch_len c) (ch_dist c)) win dictSize (pos + ch_len c) cs
  end.

Lemma repeats_iff win pos r len :
  repeats win pos r len = true <-> 1 <= r <= pos /\ forall i, 0 <= i < len -> rd win (pos + i) = rd win (pos + i - r).
Proof.
  unfold repeats. rewrite !andb_true_iff, !Z.leb_le, forallb_forall. split; intros [H1 H2]; (split; [lia|]); intros i Hi.
  - specialize (H2 i). rewrite bool_decide_eq_true in H2. apply H2, list_elem_of_In, elem_of_seqZ. lia.
  - apply bool_decide_eq_true, H2. apply list_elem_of_In, elem_of_seqZ in Hi. lia.
Qed.

(** The distances a repeat can take are behind the start. *)
Definition reps_ok (p : CLzmaEnc) (pos : Z) : Prop :=
  1 <= reps0 p <= pos /\ 1 <= reps1 p <= pos /\ 1 <= reps2 p <= pos /\ 1 <= reps3 p <= pos.

Lemma choice_valid_ok p win d pos len dist :
  choice_valid p win d pos len dist = true ->
  choice_ok len dist /\ pos + len <= Z.of_nat (length win) /\ 1 <= len /\
  (dist <> MARK_LIT -> 0 <= dist < MARK_LIT /\ 1 <= dist_of p dist <= pos /\ dist_of p dist <= d /\
     forall i, 0 <= i < len -> rd win (pos + i) = rd win (pos + i - dist_of p dist)).
Proof.
  unfold choice_valid, choice_ok, MARK_LIT. destruct (Z.eqb_spec dist (2 ^ 32 - 1)) as [E|E].
  - rewrite andb_true_iff, Z.leb_le, Z.eqb_eq. intros [H ->]. split; [by left|]. split; [done|]. split; [lia|done].
  - rewrite !andb_true_iff, orb_true_iff, !andb_true_iff, repeats_iff, !Z.leb_le, !Z.ltb_lt, !Z.eqb_eq.
    intros (H1 & (([H2 H3] & H4) & [H5 H6]) & H7). split; [right; lia|]. split; [done|]. split; [lia|]. auto.
Qed.

Lemma enc_after_wf p len dist : enc_wf p -> enc_wf (enc_after p len dist).
Proof.
  intros [Hs Hprops Hpb Hlp Hslots].
  assert (forall x y, 0 <= x < 12 -> 0 <= y < 12 -> 0 <= next_of x y (state p) < 12) as Hn
    by (intros x y Hx Hy; unfold next_of; destruct (state p <? 7); done).
  assert (0 <= lit_next (state p) < 12) as Hl
    by (unfold lit_next; destruct (Z.ltb_spec (state p) 4), (Z.ltb_spec (state p) 10); lia).
  unfold enc_after, rotate. destruct (dist =? MARK_LIT), (dist <? 4), (len =? 1), (dist =? 0), (dist =? 1), (dist =? 2);
    constructor; try done; cbn; (apply Hn; lia) || done.
Qed.

Lemma enc_after_keep p len dist :
  let p' := enc_after p len dist in
  lc p' = lc p /\ lp p' = lp p /\ pb p' = pb p /\ cod p' = cod p /\ result p' = result p /\ finished p' = finished p /\
  nowPos64 p' = nowPos64 p /\ writeEndMark p' = writeEndMark p.
Proof.
  unfold enc_after, rotate. by destruct (dist =? MARK_LIT), (dist <? 4), (len =? 1), (dist =? 0), (dist =? 1), (dist =? 2).
Qed.

Lemma enc_after_reps p win d pos len dist :
  reps_ok p pos -> choice_valid p win d pos len dist = true -> pos < 2 ^ 32 -> reps_ok (enc_after p len dist) (pos + len).
Proof.
  intros (R0 & R1 & R2 & R3) Hv Hpos. destruct (choice_valid_ok _ _ _ _ _ _ Hv) as (_ & _ & Hlen & Hd).
  unfold reps_ok, enc_after. destruct (Z.eqb_spec dist MARK_LIT) as [E|E]; [cbn; lia|]. destruct (Hd E) as (H0 & H1 & _).
  unfold dist_of in H1. destruct (Z.ltb_spec dist 4).
  - unfold rotate. destruct (len =? 1); [cbn; lia|]. destruct (dist =? 0), (dist =? 1), (dist =? 2); cbn; lia.
  - cbn. rewrite wrap_small by (unfold in_width; lia). lia.
Qed.

(** ** One choice *)

(** The fields that the coding does not touch. *)
Definition set_meta (n : Z) (f : bool) (r : SRes) (p : CLzmaEnc) : CLzmaEnc := set_pos n (set_result f r p).

Lemma set_meta_same p : set_meta (nowPos64 p) (finished p) (result p) p = p.
Proof. by destruct p. Qed.

Definition at_choice (p : CLzmaEnc) (win : list Z) (pos len dist : Z) : list req :=
  sym_reqs p (u32 pos) len dist (default 0 (rd win (pos - 1))) (default 0 (rd win pos)) (default 0 (rd win (pos - reps0 p))).

Definition first_reqs (cur : Z) : list req :=
  RBit (row16 isMatch 0 0) false :: reqs_of (litProbs, 0) (tree_offs 8 1 cur).

Abbreviation esz p := (arr_size (lclp p)).

Lemma rd_default win i : bytes win -> 0 <= i < Z.of_nat (length win) ->
  rd win i = Some (default 0 (rd win i)) /\ in_width 8 (default 0 (rd win i)).
Proof.
  intros Hw Hi. destruct (rd_Some win i) as [x Hx]; [done|]. rewrite Hx. cbn [default from_option id].
  split; [done|]. exact (rd_Forall _ _ _ _ Hw Hx).
Qed.

Lemma first_encode p n cur :
  enc_wf p -> enc_ok (esz p) (n + 64) (cod p) -> 0 <= n -> in_width 8 cur ->
  exists c, encode (first_reqs cur) (cod p) = Some c /\ enc_ok (esz p) n c /\
    Forall (valid_req (esz p)) (first_reqs cur) /\ (length (first_reqs cur) <= 64)%nat /\
    code_first p cur = Some (set_cod c p).
Proof.
  intros Hp Hc Hn Hcur. destruct (ew_props _ Hp) as (Hlc & Hlp & _).
  assert (valid (esz p) (row16 isMatch 0 0)) as V0 by (unfold valid; change (0 <= 0 < 192); lia).
  assert (Forall (valid_req (esz p)) (first_reqs cur)) as Hv.
  { constructor; [done|]. apply tree_valid; [lia|]. unfold arr_size, lclp. rewrite Z.shiftl_mul_pow2 by lia.
    pose proof (Z.pow_pos_nonneg 2 (lp p + lc p)). change (0x300) with 768. change (2 ^ Z.of_nat 8) with 256. lia. }
  assert (length (first_reqs cur) <= 64)%nat as Hlen by (cbn [first_reqs length]; rewrite reqs_of_length, tree_offs_length; lia).
  destruct (encode_ok (esz p) (first_reqs cur) n (cod p)) as (c & Ec & Hc' & _);
    [apply (enc_ok_le _ (n + 64)); [done|lia]|done|done|].
  exists c. split_and!; try done.
  unfold code_first, RangeEnc_EncodeBit_0. destruct (pre_ok (lclp p) _ (cod p) _ Hc V0) as (pre & -> & E0 & _). opt. rewrite E0.
  unfold first_reqs in Ec. rewrite encode_cons in Ec. destruct (encode1 _ _) as [c1|]; [|done]. opt. cbn [mbind option_bind] in Ec.
  rewrite LitEnc_encode by done. by rewrite Ec.
Qed.
Section Step.
Context (win : list Z) (d : Z) (win_bytes : bytes win) (win_size : Z.of_nat (length win) < 2 ^ 32).

Lemma choice_encode p n pos len dist :
  enc_wf p -> enc_ok (esz p) (n + 64) (cod p) -> 0 <= n -> reps_ok p pos -> 1 <= pos ->
  choice_valid p win d pos len dist = true ->
  exists c, encode (at_choice p win pos len dist) (cod p) = Some c /\ enc_ok (esz p) n c /\
    Forall (valid_req (esz p)) (at_choice p win pos len dist) /\ (length (at_choice p win pos len dist) <= 64)%nat /\
    code_symbol p win pos (u32 pos) len dist = Some (set_cod c (enc_after p len dist)).
Proof using win_bytes win_size.
  intros Hp Hc Hn (R0 & _) Hpos Hv. destruct (choice_valid_ok _ _ _ _ _ _ Hv) as (Hch & Hend & Hlen & _).
  assert (0 <= u32 pos) as Hu by (apply (wrap_in_width 32); lia).
  destruct (rd_default win (pos - 1)) as [E1 W1]; [done|lia|]. destruct (rd_default win pos) as [E2 W2]; [done|lia|].
  destruct (rd_default win (pos - reps0 p)) as [E3 W3]; [done|lia|].
  destruct (sym_reqs_ok p Hp (u32 pos) len dist _ (default 0 (rd win pos)) (default 0 (rd win (pos - reps0 p))) Hch Hu W1) as [Hvr Hl].
  fold (at_choice p win pos len dist) in Hvr, Hl. set (rs := at_choice p win pos len dist) in *.
  destruct (encode_ok (esz p) rs n (cod p)) as (c & Ec & Hc' & _); [apply (enc_ok_le _ (n + 64)); [done|lia]|done|done|].
  exists c. split_and!; try done.
  rewrite (symbol_encode p Hp n win pos (u32 pos) len dist (default 0 (rd win (pos - 1))) (default 0 (rd win pos)) (default 0 (rd win (pos - reps0 p))));
    [|apply (enc_ok_le _ (n + 64)); [done|lia]|done|done|done|done].
  fold (at_choice p win pos len dist) rs. by rewrite Ec.
Qed.

(** ** Runs *)

(** The states from [p] at [pos] on, as the choices are coded. *)
Inductive coded : CLzmaEnc -> Z -> list choice -> CLzmaEnc -> Prop :=
  | coded_end p : coded p (Z.of_nat (length win)) [] p
  | coded_first p cur p1 cs p2 :
      rd win 0 = Some cur -> code_first p cur = Some p1 -> coded p1 1 cs p2 -> coded p 0 cs p2
  | coded_next p pos c cs p1 p2 :
      1 <= pos -> code_symbol p win pos (u32 pos) (ch_len c) (ch_dist c) = Some p1 ->
      coded p1 (pos + ch_len c) cs p2 -> coded p pos (c :: cs) p2
  | coded_meta p pos cs p2 n f r : coded (set_meta n f r p) pos cs p2 -> coded p pos cs p2.

(** One step of [coded], the changes of other fields apart. *)
Lemma coded_inv p pos cs pz :
  coded p pos cs pz ->
  exists n f r, let p' := set_meta n f r p in
    (pos = Z.of_nat (length win) /\ cs = [] /\ pz = p') \/
    (exists cur p1, pos = 0 /\ rd win 0 = Some cur /\ code_first p' cur = Some p1 /\ coded p1 1 cs pz) \/
    (exists c cs' p1, cs = c :: cs' /\ 1 <= pos /\ code_symbol p' win pos (u32 pos) (ch_len c) (ch_dist c) = Some p1 /\
       coded p1 (pos + ch_len c) cs' pz).
Proof using Type.
  induction 1 as [p|p cur p1 cs p2 H1 H2 H3 IH|p pos c cs p1 p2 H1 H2 H3 IH|p pos cs p2 n f r H IH].
  - exists (nowPos64 p), (finished p), (result p). left. by rewrite set_meta_same.
  - exists (nowPos64 p), (finished p), (result p). rewrite set_meta_same. right; left. by exists cur, p1.
  - exists (nowPos64 p), (finished p), (result p). rewrite set_meta_same. right; right. by exists c, cs, p1.
  - destruct IH as (n' & f' & r' & Hc). exists n', f', r'. exact Hc.
Qed.

(** An encoder that can code the choices, with room for [n] more requests. *)
Record ready_enc (n : Z) (p : CLzmaEnc) (pos : Z) (cs : list choice) : Prop := {
  re_wf : enc_wf p;
  re_ok : enc_ok (esz p) (n + 64 * (Z.of_nat (length cs) + (if pos =? 0 then 1 else 0))) (cod p);
  re_plan :
    if pos =? 0 then
      state p = 0 /\ reps_ok p 1 /\ (if Z.of_nat (length win) =? 0 then cs = [] else parse_valid p win d 1 cs = true)
    else 1 <= pos /\ reps_ok p pos /\ parse_valid p win d pos cs = true
}.

Lemma valid_ext cs : forall p q pos,
  state p = state q -> reps0 p = reps0 q -> reps1 p = reps1 q -> reps2 p = reps2 q -> reps3 p = reps3 q ->
  parse_valid p win d pos cs = parse_valid q win d pos cs.
Proof using Type.
  induction cs as [|c cs IH]; intros p q pos Es E0 E1 E2 E3; cbn [parse_valid]; [done|].
  assert (dist_of p (ch_dist c) = dist_of q (ch_dist c)) as Ed.
  { unfold dist_of, rotate. destruct (ch_dist c <? 4), (ch_dist c =? 0), (ch_dist c =? 1), (ch_dist c =? 2); cbn; congruence. }
  unfold choice_valid. rewrite Ed. f_equal. apply IH; unfold enc_after, rotate;
    destruct (ch_dist c =? MARK_LIT), (ch_dist c <? 4), (ch_len c =? 1), (ch_dist c =? 0), (ch_dist c =? 1), (ch_dist c =? 2); cbn; congruence.
Qed.

Lemma ready_meta n p pos cs m f r : ready_enc n p pos cs -> ready_enc n (set_meta m f r p) pos cs.
Proof using Type.
  intros [[] Hok Hplan]. constructor; [by constructor|done|].
  destruct (pos =? 0), (Z.of_nat (length win) =? 0); try done; by rewrite (valid_ext cs _ p).
Qed.

Lemma ready_first n p cs :
  ready_enc n p 0 cs -> 0 <= n -> Z.of_nat (length win) <> 0 ->
  exists cur c, rd win 0 = Some cur /\ in_width 8 cur /\ encode (first_reqs cur) (cod p) = Some c /\
    code_first p cur = Some (set_cod c p) /\ ready_enc n (set_cod c p) 1 cs.
Proof using win_bytes.
  intros [Hp Hc (Hst & Hr & Hv)] Hn Hl. destruct (rd_default win 0 win_bytes ltac:(lia)) as [Ecur Wcur].
  set (cur := default 0 (rd win 0)) in *. cbn [Z.eqb] in Hc. destruct (Z.eqb_spec (Z.of_nat (length win)) 0); [done|].
  set (m := n + 64 * (Z.of_nat (length cs) + 0)).
  destruct (first_encode p m cur Hp) as (c & E & Hc' & _ & _ & F);
    [by replace (m + 64) with (n + 64 * (Z.of_nat (length cs) + 1)) by lia|lia|done|].
  exists cur, c. split_and!; try done. constructor; [by destruct Hp; constructor|exact Hc'|].
  split; [lia|]. split; [exact Hr|]. by rewrite (valid_ext cs _ p).
Qed.

Lemma ready_next n p pos c cs :
  ready_enc n p pos (c :: cs) -> 1 <= pos -> 0 <= n ->
  exists c', encode (at_choice p win pos (ch_len c) (ch_dist c)) (cod p) = Some c' /\
    let p1 := set_cod c' (enc_after p (ch_len c) (ch_dist c)) in
    code_symbol p win pos (u32 pos) (ch_len c) (ch_dist c) = Some p1 /\ ready_enc n p1 (pos + ch_len c) cs /\
    choice_valid p win d pos (ch_len c) (ch_dist c) = true /\ 1 <= ch_len c /\
    pos + ch_len c <= Z.of_nat (length win) /\ (cs = [] -> ch_last c = true /\ pos + ch_len c = Z.of_nat (length win)).
Proof using win_bytes win_size.
  intros [Hp Hc Hplan] Hpos Hn. destruct (Z.eqb_spec pos 0); [lia|]. destruct Hplan as (_ & Hr & Hv).
  cbn [parse_valid] in Hv. rewrite !andb_true_iff in Hv. destruct Hv as [[Hv Hlast] Hrest].
  destruct (choice_valid_ok _ _ _ _ _ _ Hv) as (_ & Hend & Hlen & _).
  set (m := n + 64 * (Z.of_nat (length cs) + 0)).
  destruct (choice_encode p m pos (ch_len c) (ch_dist c) Hp) as (c' & E & Hc' & _ & _ & F); try done;
    [by replace (m + 64) with (n + 64 * (Z.of_nat (length (c :: cs)) + 0)) by (cbn [length]; lia)|lia|].
  exists c'. split; [exact E|]. cbv zeta. split; [exact F|]. split; [|split; [done|split; [done|split; [done|]]]].
  - pose proof (enc_after_wf p (ch_len c) (ch_dist c) Hp) as Hwf.
    destruct (enc_after_keep p (ch_len c) (ch_dist c)) as (K1 & K2 & _).
    constructor; [by destruct Hwf; constructor| |]; (destruct (Z.eqb_spec (pos + ch_len c) 0); [lia|]).
    + unfold lclp. cbn [lc lp set_cod]. rewrite K1, K2. exact Hc'.
    + split; [lia|]. split; [exact (enc_after_reps p win d pos _ _ Hr Hv ltac:(lia))|].
      by rewrite (valid_ext cs _ (enc_after p (ch_len c) (ch_dist c))).
  - intros ->. cbn in Hlast, Hrest. rewrite orb_false_r in Hlast. split; [done|]. by apply Z.eqb_eq.
Qed.

(** ** Blocks *)

(** The fields outside the coding are those of [p]. *)
Definition meta_eq (p p' : CLzmaEnc) : Prop :=
  result p' = result p /\ finished p' = finished p /\ nowPos64 p' = nowPos64 p /\ writeEndMark p' = writeEndMark p /\
  lc p' = lc p /\ lp p' = lp p /\ pb p' = pb p.

Definition loop_post (n : Z) (p : CLzmaEnc) (pos : Z) (cs : list choice) (e : block_end) : Prop :=
  match e with
  | AtEnd p' nowPos32 =>
      nowPos32 = u32 (Z.of_nat (length win)) /\ coded p pos cs p' /\ ready_enc n p' (Z.of_nat (length win)) [] /\ meta_eq p p'
  | Full p' nowPos32 cs' =>
      exists pos', nowPos32 = u32 pos' /\ pos < pos' < Z.of_nat (length win) /\ (length cs' < length cs)%nat /\
        ready_enc n p' pos' cs' /\ (forall p2, coded p' pos' cs' p2 -> coded p pos cs p2) /\ meta_eq p p'
  end.

Lemma code_loop_ok n start : forall cs p pos,
  ready_enc n p pos cs -> 1 <= pos < Z.of_nat (length win) -> 0 <= n ->
  exists e, code_loop p win pos start cs = Some e /\ loop_post n p pos cs e.
Proof using win_bytes win_size.
  induction cs as [|c cs IH]; intros p pos Hr Hpos Hn.
  { destruct Hr as [_ _ Hplan]. destruct (Z.eqb_spec pos 0); [lia|]. destruct Hplan as (_ & _ & Hv). cbn in Hv.
    apply Z.eqb_eq in Hv. lia. }
  destruct (ready_next n p pos c cs Hr ltac:(lia) Hn) as (c' & _ & F & Hr1 & _ & Hlen & Hend & Hlast).
  destruct (enc_after_keep p (ch_len c) (ch_dist c)) as (K1 & K2 & K3 & _ & K4 & K5 & K6 & K7).
  cbn [code_loop]. rewrite F. opt. set (p1 := set_cod c' (enc_after p (ch_len c) (ch_dist c))) in *.
  assert (meta_eq p p1) as Hm by (unfold meta_eq, p1; cbn; by split_and!).
  assert (forall p2, coded p1 (pos + ch_len c) cs p2 -> coded p pos (c :: cs) p2) as Hnext
    by (intros p2; apply (coded_next p pos c cs p1); (done || lia)).
  assert (pos + ch_len c < Z.of_nat (length win) ->
    exists e, code_loop p1 win (pos + ch_len c) start cs = Some e /\ loop_post n p pos (c :: cs) e) as Hgo.
  { intros Hlt. destruct (IH p1 (pos + ch_len c) Hr1 ltac:(lia) Hn) as (e & -> & He). exists e. split; [done|].
    unfold meta_eq in Hm. destruct Hm as (M1 & M2 & M3 & M4 & M5 & M6 & M7).
    destruct e as [p2 np|p2 np cs']; cbn [loop_post] in *.
    - destruct He as (-> & Hc & Hr2 & (N1 & N2 & N3 & N4 & N5 & N6 & N7)). split_and!; [done|by apply Hnext|done|].
      unfold meta_eq. split_and!; congruence.
    - destruct He as (pos' & -> & Hp' & Hl' & Hr2 & Hc & (N1 & N2 & N3 & N4 & N5 & N6 & N7)). exists pos'.
      split_and!; [done|lia|lia|cbn [length]; lia|done|auto|unfold meta_eq; split_and!; congruence]. }
  cbv zeta. destruct (Z.eqb_spec (pos + ch_len c) (Z.of_nat (length win))) as [Ee|Ee].
  - assert (cs = []) as ->.
    { destruct cs as [|c2 cs]; [done|exfalso]. destruct (ready_next n p1 (pos + ch_len c) c2 cs Hr1 ltac:(lia) Hn) as (? & _ & _ & _ & _ & ? & ? & _). lia. }
    destruct (Hlast eq_refl) as [-> _]. eexists. split; [reflexivity|]. cbn [loop_post]. rewrite <-Ee.
    split_and!; [done|apply Hnext; rewrite Ee; apply coded_end|done|done].
  - destruct (ch_last c); [|by apply Hgo; lia].
    destruct (Z.leb_spec (1 <<< 17) (u32 (u32 (pos + ch_len c) - start))); [|by apply Hgo; lia].
    eexists. split; [reflexivity|]. cbn [loop_post]. exists (pos + ch_len c).
    split_and!; [done|lia|lia|cbn [length]; lia|done|exact Hnext|done].
Qed.

(** The requests and the bytes of the end of the stream. *)
Definition end_of (p : CLzmaEnc) : list req :=
  if writeEndMark p then end_mark_reqs p (pos_state p (Z.of_nat (length win))) else [].

Lemma end_of_length p : enc_wf p -> (length (end_of p) <= 64)%nat.
Proof using Type.
  intros Hp. unfold end_of. destruct (writeEndMark p); [|cbn; lia]. apply end_mark_reqs_ok; [done|]. by apply pos_state_ok.
Qed.

Definition closed (p p' : CLzmaEnc) : Prop :=
  exists c, encode (end_of p) (cod p) = Some c /\ enc_ok (esz p) 5 c /\ Forall (valid_req (esz p)) (end_of p) /\
    let s := rc (cod p') in
    (exists q, RangeEnc_FlushData (rc c) = Some q /\ s = RangeEnc_FlushStream q) /\
    (res s = SZ_OK -> res (rc c) = SZ_OK /\ be_val (written (outStream s)) = total (rc c) /\
       Z.of_nat (length (written (outStream s))) = shifts (rc c) + 5 /\
       (bytes (out (rc c)) -> bytes (written (outStream s)))).

Lemma Flush_ok p b :
  enc_wf p -> enc_ok (esz p) 69 (cod p) ->
  exists r p', Flush p (u32 (Z.of_nat (length win))) b = Some (r, p') /\ closed p p' /\ finished p' = true /\
    nowPos64 p' = nowPos64 p /\
    (r = SZ_OK -> res (rc (cod p')) = SZ_OK) /\ (b = false -> result p = SZ_OK -> res (rc (cod p')) = SZ_OK -> r = SZ_OK).
Proof using win_size.
  intros Hp Hc. unfold Flush. set (L := Z.of_nat (length win)). rewrite (wrap_small 32 L) by (unfold in_width, L; lia).
  set (p0 := set_result true (result p) p). assert (enc_wf p0) as Hp0 by (destruct Hp; by constructor).
  pose proof (pos_state_ok p L Hp) as Hps. change (pos_state p L) with (pos_state p0 L) in Hps.
  destruct (end_mark_reqs_ok p Hp (pos_state p L) Hps) as [Hv Hl].
  assert (exists c p2, (if writeEndMark p0 then WriteEndMarker p0 (L &&& pbMask p0) else Some p0) = Some p2 /\
    cod p2 = c /\ result p2 = result p /\ finished p2 = true /\ nowPos64 p2 = nowPos64 p /\ encode (end_of p) (cod p) = Some c /\ enc_ok (esz p) 5 c /\
    Forall (valid_req (esz p)) (end_of p)) as (c & p2 & E2 & <- & R2 & F2 & N2 & Ee & Hc2 & Hve).
  { unfold end_of. change (writeEndMark p0) with (writeEndMark p). fold L. destruct (writeEndMark p).
    - destruct (encode_ok (esz p) (end_mark_reqs p (pos_state p L)) 5 (cod p)) as (c & E & Hc' & _);
        [apply (enc_ok_le _ 69); [done|lia]|lia|done|].
      change (L &&& pbMask p0) with (pos_state p0 L).
      rewrite (WriteEndMarker_encode p0 Hp0 5 L) by (done || lia). change (end_mark_reqs p0 (pos_state p0 L)) with (end_mark_reqs p (pos_state p L)).
      change (cod p0) with (cod p). rewrite E. opt. by eexists _, _.
    - exists (cod p), p0. split_and!; try done; by apply (enc_ok_le _ 69); [|lia]. }
  cbv zeta. rewrite E2. opt. pose proof (eo_inv _ _ _ Hc2) as Hi.
  destruct (flush_stream 0 _ (rc (cod p2)) Hi ltac:(lia)) as (q & Eq & Hq). rewrite Eq. opt. cbv zeta in Hq.
  set (s := RangeEnc_FlushStream q) in *. set (p3 := set_cod (set_rc s (cod p2)) p2).
  exists (CheckErrors p3 b).1, (CheckErrors p3 b).2. split; [by rewrite <-surjective_pairing|]. assert (rc (cod p3) = s) as E3 by done.
  assert (result p3 = result p /\ finished p3 = true /\ nowPos64 p3 = nowPos64 p) as (R3 & F3 & N3) by done.
  assert (rc (cod (CheckErrors p3 b).2) = s /\ finished (CheckErrors p3 b).2 = true /\ nowPos64 (CheckErrors p3 b).2 = nowPos64 p) as (C1 & C2 & C3).
  { unfold CheckErrors. destruct (not_ok (result p3)); [done|]. cbn [snd].
    split_and!; [done| |done]. unfold set_result. cbn [finished]. rewrite F3. by destruct (not_ok _). }
  split.
  { exists (cod p2). rewrite C1. do 3 (split; [done|]). cbv zeta. split; [by exists q|]. intros Hok. destruct (Hq Hok) as (H1 & H2 & H3 & H4 & H5).
    rewrite H2. by split_and!. }
  split_and!; try done; rewrite C1.
  - unfold CheckErrors. rewrite R3, E3. destruct (result p); cbn; try done. destruct b, (res s); by cbn.
  - intros -> Hres Hok. unfold CheckErrors. by rewrite R3, E3, Hres, Hok.
Qed.

(** A whole run: from [p] at [pos] to the closed stream of [p']. *)
Definition encoded (p : CLzmaEnc) (pos : Z) (cs : list choice) (p' : CLzmaEnc) : Prop :=
  exists p1, coded p pos cs p1 /\ ready_enc 69 p1 (Z.of_nat (length win)) [] /\ closed p1 p' /\
    res (rc (cod p')) = SZ_OK /\ nowPos64 p' = Z.of_nat (length win) /\
    lc p1 = lc p /\ lp p1 = lp p /\ pb p1 = pb p /\ writeEndMark p1 = writeEndMark p.

(** What a block leaves: an end, an error, or an encoder that goes on. *)
Definition block_post (p : CLzmaEnc) (cs : list choice) (b : bool) (r : SRes) (p' : CLzmaEnc) (cs' : list choice) : Prop :=
  if not_ok r || finished p' then
    (r = SZ_OK -> encoded p (nowPos64 p) cs p') /\ (b = false -> res (rc (cod p')) = SZ_OK -> r = SZ_OK /\ nowPos64 p' = Z.of_nat (length win))
  else
    result p' = SZ_OK /\ ready_enc 69 p' (nowPos64 p') cs' /\ (length cs' < length cs)%nat /\
    0 <= nowPos64 p' <= Z.of_nat (length win) /\
    lc p' = lc p /\ lp p' = lp p /\ pb p' = pb p /\ writeEndMark p' = writeEndMark p /\
    forall p2, coded p' (nowPos64 p') cs' p2 -> coded p (nowPos64 p) cs p2.

Lemma ready_nowPos n p pos cs : ready_enc n p pos cs -> pos <> 0 -> 1 <= pos /\ (pos < Z.of_nat (length win) \/ pos = Z.of_nat (length win) /\ cs = []).
Proof using win_bytes win_size.
  intros [Hp Hc Hplan] Hpos. destruct (Z.eqb_spec pos 0); [done|]. destruct Hplan as (H1 & _ & Hv). split; [done|].
  destruct cs as [|c cs]; cbn [parse_valid] in Hv; [right; split; [by apply Z.eqb_eq|done]|left].
  rewrite !andb_true_iff in Hv. destruct Hv as [[Hv _] _]. destruct (choice_valid_ok _ _ _ _ _ _ Hv) as (_ & ? & ? & _). lia.
Qed.

Lemma coded_meta_r p pos cs p1 n f r : coded p pos cs p1 -> coded p pos cs (set_meta n f r p1).
Proof using Type.
  induction 1; [apply (coded_meta _ _ _ _ n f r); constructor|by eapply coded_first|by eapply coded_next|by eapply coded_meta].
Qed.

(** The end of a block: the part after the loop. *)
Lemma block_end_ok p p1 cs b :
  coded p (nowPos64 p) cs p1 -> ready_enc 69 p1 (Z.of_nat (length win)) [] -> meta_eq p p1 -> result p = SZ_OK ->
  0 <= nowPos64 p <= Z.of_nat (length win) ->
  let q := set_pos (u64 (nowPos64 p1 + u32 (u32 (Z.of_nat (length win)) - u32 (nowPos64 p)))) p1 in
  exists r p', ('(r, p) ← Flush q (u32 (Z.of_nat (length win))) b; Some (r, p, [] : list choice)) = Some (r, p', []) /\
    block_post p cs b r p' [].
Proof using win_bytes win_size.
  intros Hcd Hr (M1 & M2 & M3 & M4 & M5 & M6 & M7) Hres Hpos q. set (L := Z.of_nat (length win)) in *.
  assert (nowPos64 q = L) as Hq.
  { unfold q. cbn [nowPos64 set_pos]. rewrite M3, !(wrap_small 32) by (rewrite ?(wrap_small 32); unfold in_width; lia).
    rewrite (wrap_small 64) by (unfold in_width; lia). lia. }
  pose proof (ready_meta 69 p1 L [] L (finished p1) (result p1) Hr) as Hr'.
  assert (set_meta L (finished p1) (result p1) p1 = q) as Eq by (rewrite <-Hq; by destruct p1).
  rewrite Eq in Hr'. destruct Hr' as [Hwf Hok _].
  destruct (Flush_ok q b Hwf) as (r & p' & E & Hcl & Hf & Hn & Hr1 & Hr2); [apply (enc_ok_le _ _ 69) in Hok; [done|cbn [length]; destruct (L =? 0); lia]|].
  fold L in E. rewrite E. opt. exists r, p'. split; [done|]. unfold block_post, encoded. fold L. rewrite Hf, orb_true_r.
  split; [|intros -> Hok'; split; [apply Hr2; (done || change (result q) with (result p1); congruence)|congruence]].
  intros ->. exists q. split_and!; try done; try congruence; [|by rewrite <-Eq; apply ready_meta|by apply Hr1].
  rewrite <-Eq. by apply coded_meta_r.
Qed.

Lemma CheckErrors_ok p b :
  result p = SZ_OK ->
  let '(r, p') := CheckErrors p b in
  if not_ok r then b = true \/ res (rc (cod p)) <> SZ_OK
  else result p' = SZ_OK /\ p' = p.
Proof using Type.
  intros Hr. unfold CheckErrors. rewrite Hr. cbn [not_ok]. destruct (not_ok (res (rc (cod p)))) eqn:Hres; cbn [not_ok]; destruct b; cbn [not_ok].
  - by left.
  - right. intros E. by rewrite E in Hres.
  - by left.
  - split; [done|]. rewrite <-Hr at 1. by destruct p.
Qed.

(** The choices from [pos] on: the loop, then the end of the block. *)
Lemma block_rest p p0 pos cs0 cs b :
  result p = SZ_OK -> finished p = false -> meta_eq p p0 -> (forall p2, coded p0 pos cs p2 -> coded p (nowPos64 p) cs0 p2) -> (length cs <= length cs0)%nat ->
  ready_enc 69 p0 pos cs -> pos <> 0 -> 0 <= nowPos64 p <= pos ->
  exists r p' cs', (e ← (if pos =? Z.of_nat (length win) then Some (AtEnd p0 (u32 pos))
             else code_loop p0 win pos (u32 (nowPos64 p)) cs);
        match e with
        | AtEnd p nowPos32 =>
            '(r, p) ← Flush (set_pos (u64 (nowPos64 p + u32 (nowPos32 - u32 (nowPos64 p0)))) p) nowPos32 b; Some (r, p, [])
        | Full p nowPos32 cs =>
            let p := set_pos (u64 (nowPos64 p + u32 (nowPos32 - u32 (nowPos64 p0)))) p in
            let '(r, p) := CheckErrors p b in Some (r, p, cs)
        end) = Some (r, p', cs') /\ block_post p cs0 b r p' cs'.
Proof using win_bytes win_size.
  intros Hres Hfin Hm Hcd Hlen Hr Hpos Hle. destruct (ready_nowPos _ _ _ _ Hr Hpos) as [H1 H2].
  pose proof Hm as (M1 & M2 & M3 & M4 & M5 & M6 & M7). rewrite M3.
  assert (forall p1, coded p0 pos cs p1 -> ready_enc 69 p1 (Z.of_nat (length win)) [] -> meta_eq p0 p1 ->
    exists r p' cs', ('(r, p2) ← Flush (set_pos (u64 (nowPos64 p1 + u32 (u32 (Z.of_nat (length win)) - u32 (nowPos64 p)))) p1) (u32 (Z.of_nat (length win))) b; Some (r, p2, [])) = Some (r, p', cs') /\ block_post p cs0 b r p' cs') as Hend.
  { intros p1 Hc1 Hr1 (N1 & N2 & N3 & N4 & N5 & N6 & N7).
    destruct (block_end_ok p p1 cs0 b (Hcd _ Hc1) Hr1) as (r & p' & E & Hpost); [unfold meta_eq; split_and!; congruence|done|lia|].
    by exists r, p', []. }
  destruct (Z.eqb_spec pos (Z.of_nat (length win))) as [Epos|Epos].
  - opt. destruct H2 as [H2|[_ ->]]; [lia|]. rewrite Epos. rewrite Epos in Hr. apply Hend; [rewrite Epos; apply coded_end|done|by unfold meta_eq; split_and!].
  - destruct (code_loop_ok 69 (u32 (nowPos64 p)) cs p0 pos Hr ltac:(lia) ltac:(lia)) as (e & -> & He). opt.
    destruct e as [p1 np|p1 np cs']; cbn [loop_post] in He.
    + destruct He as (-> & Hc1 & Hr1 & Hm1). by apply Hend.
    + destruct He as (pos' & -> & Hp' & Hl' & Hr1 & Hc1 & (N1 & N2 & N3 & N4 & N5 & N6 & N7)).
      set (q := set_pos _ p1). assert (nowPos64 q = pos') as Hq.
      { unfold q. cbn [nowPos64 set_pos]. rewrite N3, M3, !(wrap_small 32) by (rewrite ?(wrap_small 32); unfold in_width; lia).
        rewrite (wrap_small 64) by (unfold in_width; lia). lia. }
      assert (set_meta pos' (finished p1) (result p1) p1 = q) as Eq by (rewrite <-Hq; by destruct p1).
      pose proof (CheckErrors_ok q b ltac:(cbn; congruence)) as Hce. cbv zeta. destruct (CheckErrors q b) as [r p'] eqn:Ece.
      exists r, p', cs'. split; [done|]. unfold block_post.
      destruct (not_ok r) eqn:Hok; cbn [orb].
      { split; [by intros ->|]. intros -> Hx. destruct Hce as [?|Hce]; [done|]. exfalso. apply Hce.
        replace (rc (cod q)) with (rc (cod p')); [done|]. clear -Ece. unfold CheckErrors in Ece. destruct (not_ok (result q)); by injection Ece as _ <-. }
      destruct Hce as [Hrq ->]. assert (finished q = false) as -> by (cbn; congruence). split; [done|].
      rewrite Hq. split; [rewrite <-Eq; by apply ready_meta|]. split; [lia|]. split; [lia|].
      do 4 (split; [cbn; congruence|]). intros p2 Hp2. apply Hcd, Hc1. rewrite <-Eq in Hp2. by apply (coded_meta _ _ _ _ _ _ _ Hp2).
Qed.

Lemma block_ok p cs b :
  finished p = false -> result p = SZ_OK -> ready_enc 69 p (nowPos64 p) cs -> 0 <= nowPos64 p <= Z.of_nat (length win) ->
  exists r p' cs', LzmaEnc_CodeOneBlock p win cs b = Some (r, p', cs') /\ block_post p cs b r p' cs'.
Proof using win_bytes win_size.
  intros Hfin Hres Hr Hpos. unfold LzmaEnc_CodeOneBlock. rewrite Hfin.
  pose proof (CheckErrors_ok p b Hres) as Hce. destruct (CheckErrors p b) as [r p'] eqn:Ece.
  destruct (not_ok r) eqn:Hok.
  { exists r, p', cs. split; [done|]. unfold block_post. rewrite Hok. cbn [orb]. split; [by intros ->|].
    intros -> Hx. destruct Hce as [?|Hce]; [done|]. exfalso. apply Hce.
    replace (rc (cod p)) with (rc (cod p')); [done|]. clear -Ece. unfold CheckErrors in Ece. destruct (not_ok (result p)); by injection Ece as _ <-. }
  destruct Hce as [_ ->]. cbv zeta.
  destruct (Z.eqb_spec (nowPos64 p) 0) as [E0|E0]; cbn [andb].
  - rewrite E0 in Hr. pose proof Hr as [Hwf Hc (Hst & Hrep & Hplan)]. destruct (Z.eqb_spec (Z.of_nat (length win)) 0) as [EL|EL].
    + subst cs. change (u32 (nowPos64 p)) with (u32 (nowPos64 p)). rewrite E0, <-EL.
      destruct (block_end_ok p p [] b) as (r0 & p0 & E & Hpost); [rewrite E0, <-EL; apply coded_end|by rewrite EL|by unfold meta_eq; split_and!|done|lia|].
      exists r0, p0, []. split; [|done]. rewrite <-E. clear E. rewrite E0, EL. change (u64 (0 + u32 (u32 0 - u32 0))) with 0.
      rewrite <-E0 at 2. by replace (set_pos (nowPos64 p) p) with p by by destruct p.
    + destruct (ready_first 69 p cs Hr ltac:(lia) EL) as (cur & c & Ecur & Wcur & Eenc & Efirst & Hr1). rewrite Ecur. opt. rewrite Efirst. opt.
      apply (block_rest p (set_cod c p) 1 cs cs b); try done; [|lia].
      intros p2 Hp2. rewrite E0. by eapply coded_first.
  - opt. apply (block_rest p p (nowPos64 p) cs cs b); try done; lia.
Qed.

Lemma Encode2_ok b : forall k p cs r0,
  (length cs <= k)%nat ->
  finished p = false -> result p = SZ_OK -> ready_enc 69 p (nowPos64 p) cs -> 0 <= nowPos64 p <= Z.of_nat (length win) ->
  exists r p', (forall fuel, (k < fuel)%nat -> exists cs', loop fuel
      (fun '(_, p, cs) =>
         '(r, p, cs) ← LzmaEnc_CodeOneBlock p win cs b;
         Some (if not_ok r || finished p then inr (r, p, cs) else inl (r, p, cs))) (r0, p, cs) = Some (r, p', cs')) /\
    (r = SZ_OK -> encoded p (nowPos64 p) cs p') /\
    (b = false -> res (rc (cod p')) = SZ_OK -> r = SZ_OK /\ nowPos64 p' = Z.of_nat (length win)).
Proof using win_bytes win_size.
  induction k as [|k IH]; intros p cs r0 Hlen Hfin Hres Hr Hpos;
    destruct (block_ok p cs b Hfin Hres Hr Hpos) as (r & p1 & cs1 & E & Hpost); unfold block_post in Hpost;
    destruct (not_ok r || finished p1) eqn:Hstop.
  - exists r, p1. split; [|done]. intros [|fuel] Hf; [lia|]. exists cs1. cbn [loop]. rewrite E. opt. by rewrite Hstop.
  - destruct Hpost as (_ & _ & ? & _). lia.
  - exists r, p1. split; [|done]. intros [|fuel] Hf; [lia|]. exists cs1. cbn [loop]. rewrite E. opt. by rewrite Hstop.
  - destruct Hpost as (H1 & H2 & H3 & H4 & H5 & H6 & H7 & H8 & H9). rewrite orb_false_iff in Hstop.
    destruct (IH p1 cs1 r ltac:(lia) (proj2 Hstop) H1 H2 H4) as (r2 & p2 & Hl & He & Hb). exists r2, p2. split; [|split; [|done]].
    + intros [|fuel] Hf; [lia|]. destruct (Hl fuel ltac:(lia)) as (cs2 & E2). exists cs2. cbn [loop]. rewrite E. opt.
      destruct Hstop as [-> ->]. exact E2.
    + intros Hok. destruct (He Hok) as (p3 & C1 & C2 & C3 & C4 & C5 & C6 & C7 & C8 & C9). exists p3. split_and!; try done; try congruence. by apply H9.
Qed.

Lemma parse_valid_length cs : forall p pos, parse_valid p win d pos cs = true -> pos + Z.of_nat (length cs) <= Z.of_nat (length win).
Proof using Type.
  induction cs as [|c cs IH]; intros p pos Hv; cbn [parse_valid] in Hv.
  - apply Z.eqb_eq in Hv. cbn [length]. lia.
  - rewrite !andb_true_iff in Hv. destruct Hv as [[Hv _] Hrest]. destruct (choice_valid_ok _ _ _ _ _ _ Hv) as (_ & _ & ? & _).
    specialize (IH _ _ Hrest). cbn [length]. lia.
Qed.

(** A parse of all the data, from the start. *)
Definition plan_valid (p : CLzmaEnc) (cs : list choice) : bool :=
  if Z.of_nat (length win) =? 0 then bool_decide (cs = []) else parse_valid p win d 1 cs.

Lemma init_probs_at l m a : init_probs l m a = replicate (Z.to_nat (arr_size l a)) kProbInitValue.
Proof using Type. by destruct a. Qed.

(** A new encoder, with room for [n] requests. *)
Lemma Init_ok p n :
  0 <= lc p <= 8 /\ 0 <= lp p <= 4 /\ 0 <= pb p <= 4 -> g_FastPos p = LzmaEnc_FastPosInit -> n < 2 ^ 63 ->
  enc_wf (LzmaEnc_AllocAndInit p) /\ enc_ok (esz (LzmaEnc_AllocAndInit p)) n (cod (LzmaEnc_AllocAndInit p)).
Proof using Type.
  clear win_bytes win_size. intros Hprops Hslots Hn. set (q := LzmaEnc_AllocAndInit p) in *. split.
  - constructor; [cbn; lia|exact Hprops| |  |exact Hslots].
    + unfold q, LzmaEnc_AllocAndInit. cbn [pbMask pb LzmaEnc_Init set_pos set_result]. rewrite Z.shiftl_mul_pow2, Z.mul_1_l by lia. done.
    + unfold q, LzmaEnc_AllocAndInit. cbn [lpMask lp lc LzmaEnc_Init set_pos set_result]. apply wrap_small. unfold in_width.
      rewrite Z.shiftl_mul_pow2, Z.shiftr_div_pow2 by lia. pose proof (Z.pow_pos_nonneg 2 (lc p) ltac:(lia) ltac:(lia)).
      assert (2 ^ lp p <= 2 ^ 4) by (apply Z.pow_le_mono_r; lia). assert (1 <= 2 ^ lp p) by (pose proof (Z.pow_pos_nonneg 2 (lp p)); lia).
      pose proof (Z.div_le_upper_bound 0x100 (2 ^ lc p) 0x100 ltac:(lia) ltac:(nia)). pose proof (Z.div_pos 0x100 (2 ^ lc p)). lia.
  - assert (forall a, mem (cod q) a = replicate (Z.to_nat (arr_size (lclp q) a)) kProbInitValue) as Hmem by (intros a; apply init_probs_at).
    constructor.
    + constructor; cbn; lia.
    + cbn. lia.
    + intros a. rewrite Hmem, length_replicate. apply Z2Nat.id.
      destruct a; [|vm_compute; discriminate..]. unfold arr_size. rewrite Z.shiftl_mul_pow2 by (unfold lclp; cbn; lia).
      pose proof (Z.pow_pos_nonneg 2 (lclp q) ltac:(lia) ltac:(unfold lclp; cbn; lia)). lia.
    + intros a x Hx. unfold load in Hx. rewrite Hmem in Hx. pose proof (rd_range _ _ _ Hx). rewrite rd_lookup in Hx by lia.
      apply lookup_replicate in Hx as [-> _]. unfold prob_ok. change kProbInitValue with 1024. lia.
Qed.

Lemma Init_ready p cs :
  0 <= lc p <= 8 /\ 0 <= lp p <= 4 /\ 0 <= pb p <= 4 -> g_FastPos p = LzmaEnc_FastPosInit ->
  plan_valid (LzmaEnc_AllocAndInit p) cs = true -> ready_enc 69 (LzmaEnc_AllocAndInit p) 0 cs.
Proof using win_size.
  intros Hprops Hslots Hplan. set (q := LzmaEnc_AllocAndInit p) in *.
  assert (Z.of_nat (length cs) < 2 ^ 32) as Hlen.
  { unfold plan_valid in Hplan. destruct (Z.of_nat (length win) =? 0); [apply bool_decide_eq_true in Hplan as ->; cbn; lia|].
    pose proof (parse_valid_length cs q 1 Hplan). lia. }
  cbn [Z.eqb]. destruct (Init_ok p (69 + 64 * (Z.of_nat (length cs) + 1)) Hprops Hslots ltac:(lia)) as [Hwf Hok]. constructor; [done|exact Hok|].
  cbn [Z.eqb]. split; [done|]. split; [unfold reps_ok; cbn; lia|]. unfold plan_valid in Hplan.
  destruct (Z.of_nat (length win) =? 0); [by apply bool_decide_eq_true in Hplan|done].
Qed.

Lemma Encode_ok p cs b :
  0 <= lc p <= 8 /\ 0 <= lp p <= 4 /\ 0 <= pb p <= 4 -> g_FastPos p = LzmaEnc_FastPosInit ->
  plan_valid (LzmaEnc_AllocAndInit p) cs = true ->
  exists r p', LzmaEnc_Encode2 (LzmaEnc_AllocAndInit p) win cs b = Some (r, p') /\
    (r = SZ_OK -> encoded (LzmaEnc_AllocAndInit p) 0 cs p') /\
    (b = false -> res (rc (cod p')) = SZ_OK -> r = SZ_OK /\ nowPos64 p' = Z.of_nat (length win)).
Proof using win_bytes win_size.
  intros Hprops Hslots Hplan. pose proof (Init_ready p cs Hprops Hslots Hplan) as Hr.
  destruct (Encode2_ok b (length cs) (LzmaEnc_AllocAndInit p) cs SZ_OK) as (r & p' & Hl & H); try done; [cbn; lia|].
  destruct (Hl (S (length cs)) ltac:(lia)) as (cs' & E). exists r, p'. split; [|done]. unfold LzmaEnc_Encode2. by rewrite E.
Qed.
End Step.
