(* ===== verification/LzmaReplay.v ===== *)
(** * LZMA: the decoder replays the encoding

    The decoder that reads the stream of an encoding (LzmaRun.v) goes through the states of
    the encoder, one symbol after the other, whatever the places where its loops stop: its
    dictionary is a prefix of the data, its coder and its fields are those of the encoder. *)

From stdpp Require Import base numbers list list_numbers.
From Stdlib Require Import ZArith Lia.
From S2P Require Import Prelude.
From S2P Require Import SzTypes.
From S2P Require Import LzmaParse.
From S2P Require Import LzmaDec.
From S2P Require Import LzmaDecSym.
From S2P Require Import LzmaDecSafe.
From S2P Require Import RangeEnc.
From S2P Require Import LzmaEnc.
From S2P Require Import RangeCoder.
From S2P Require Import LzmaCodec.
From S2P Require Import LzmaDist.
From S2P Require Import LzmaSymbols.
From S2P Require Import LzmaFollow.
From S2P Require Import LzmaRun.
Local Open Scope Z_scope.
Local Open Scope word_scope.

(** ** The dictionary as a prefix of the data *)

Section Prefix.
Context (win : list Z) (win_bytes : bytes win).

Definition prefix_of (dic : list Z) (n : Z) : Prop :=
  n <= Z.of_nat (length win) <= Z.of_nat (length dic) /\ forall i, 0 <= i < n -> rd dic i = rd win i.

Lemma prefix_write dic n b :
  prefix_of dic n -> 0 <= n < Z.of_nat (length win) -> rd win n = Some b ->
  exists dic', wrz dic n b = Some dic' /\ prefix_of dic' (n + 1) /\ length dic' = length dic.
Proof using Type.
  intros [Hl Hp] Hn Hb. rewrite wrz_Some by lia. eexists. split; [reflexivity|]. rewrite length_insert. split; [|done].
  split; [rewrite length_insert; lia|]. intros i Hi. destruct (Z.eq_dec i n) as [->|Hne].
  - by rewrite rd_insert_eq by lia.
  - rewrite rd_insert_ne by lia. apply Hp. lia.
Qed.

(** What follows at distance [r] is in the dictionary when it is copied. *)
Definition matches (n len r : Z) : Prop :=
  n + len <= Z.of_nat (length win) /\ 1 <= r <= n /\ forall i, 0 <= i < len -> rd win (n + i) = rd win (n + i - r).

Lemma matches_byte dic n len r i :
  prefix_of dic (n + i) -> matches n len r -> 0 <= i < len -> exists b, rd dic (n + i - r) = Some b /\ rd win (n + i) = Some b.
Proof using Type.
  intros [Hl Hp] (Hend & Hr & Hm) Hi. destruct (rd_Some win (n + i)) as [b Hb]; [lia|]. exists b. split; [|done].
  rewrite Hp by lia. by rewrite <-Hm by lia.
Qed.

Lemma copy_fwd_prefix dic n len len' r :
  prefix_of dic n -> matches n len' r -> 1 <= len <= len' ->
  exists dic', copy_fwd dic (n - r) n len = Some dic' /\ prefix_of dic' (n + len) /\ length dic' = length dic.
Proof using Type.
  intros Hp Hm Hlen. pose proof Hm as (Hend & Hr & _). unfold copy_fwd.
  do_while_inv (fun '(i, l) => 0 <= i < len /\ prefix_of l (n + i) /\ length l = length dic) (fun '(i, _) => Z.to_nat (len - i))
    (fun '(i, l) => prefix_of l (n + len) /\ length l = length dic).
  - split; [lia|]. by rewrite Z.add_0_r.
  - lia.
  - intros [i l] (Hi & Hl & Hll). destruct (matches_byte l n len' r i Hl Hm ltac:(lia)) as (b & Hb & Hw).
    replace (n - r + i) with (n + i - r) by lia. rewrite Hb. opt.
    destruct (prefix_write l (n + i) b Hl ltac:(lia) Hw) as (l' & -> & Hl' & Hll'). opt.
    eexists. split; [reflexivity|]. cbv beta iota zeta. rewrite <-Z.add_assoc in Hl'.
    destruct (Z.eqb_spec (i + 1) len) as [<-|]; cbn [negb]; [split; [done|congruence]|].
    split; [split; [lia|split; [done|congruence]]|lia].
  - intros [i l] Hc. exists l. done.
Qed.

Lemma write_rem_prefix dic n len len' r :
  prefix_of dic n -> matches n len' r -> 1 <= len <= len' -> Z.of_nat (length dic) < 2 ^ 63 ->
  exists l, do_while (S (Z.to_nat len))
    (fun '(dic, pos, len) =>
       b ← rd dic (u64 (pos - r + (if pos <? r then Z.of_nat (length dic) else 0)));
       dic ← wrz dic pos b; Some (dic, pos + 1, len - 1))
    (fun '(_, _, len) => negb (len =? 0)) (dic, n, len) = Some (l, n + len, 0) /\ prefix_of l (n + len) /\ length l = length dic.
Proof using Type.
  intros Hp Hm Hlen Hd. pose proof Hm as (Hend & Hr & _).
  do_while_inv (fun '(l, e, k) => e = n + (len - k) /\ 1 <= k <= len /\ prefix_of l (n + (len - k)) /\ length l = length dic)
    (fun '(_, _, k) => Z.to_nat k) (fun '(l, e, k) => e = n + len /\ k = 0 /\ prefix_of l (n + len) /\ length l = length dic).
  - rewrite Z.sub_diag, Z.add_0_r. split_and!; (done || lia).
  - lia.
  - intros [[l e] k] (-> & Hk & Hl & Hll). pose proof Hl as [Hle _].
    destruct (Z.ltb_spec (n + (len - k)) r); [lia|]. rewrite Z.add_0_r, wrap_small by (unfold in_width; lia).
    destruct (matches_byte l n len' r (len - k) Hl Hm ltac:(lia)) as (b & -> & Hw). opt.
    destruct (prefix_write l (n + (len - k)) b Hl ltac:(lia) Hw) as (l' & -> & Hl' & Hll'). opt.
    eexists. split; [reflexivity|]. replace (n + (len - k) + 1) with (n + (len - (k - 1))) in * by lia.
    destruct (Z.eqb_spec (k - 1) 0) as [E|E]; cbn [negb].
    + split_and!; [lia|lia| |congruence]. by replace (n + len) with (n + (len - (k - 1))) by lia.
    + split_and!; (done || lia || congruence).
  - intros [[l e] k] (-> & -> & Hl). by exists l.
Qed.

Lemma prefix_full dic : prefix_of dic (Z.of_nat (length win)) -> length dic = length win -> dic = win.
Proof using Type.
  intros [_ Hp] Hl. apply list_eq. intros i. destruct (decide (i < length win)%nat) as [Hi|Hi].
  - specialize (Hp (Z.of_nat i) ltac:(lia)). by rewrite !rd_lookup, Nat2Z.id in Hp by lia.
  - rewrite !lookup_ge_None_2 by lia. done.
Qed.
End Prefix.

(** ** One symbol *)

(** With bytes after the input, a run is the same. *)
Lemma rd_app_Some (inp more : list Z) i b : rd inp i = Some b -> rd (inp ++ more) i = Some b.
Proof.
  intros H. pose proof (rd_range _ _ _ H). rewrite rd_lookup in * by lia. by apply lookup_app_l_Some.
Qed.

Lemma NORMALIZE_app inp more c c' : NORMALIZE inp c = Some c' -> NORMALIZE (inp ++ more) c = Some c'.
Proof.
  unfold NORMALIZE. destruct (_ <? _); [|done]. destruct (rd inp (LzmaParse.buf c)) as [b|] eqn:Hb; [|done].
  by rewrite (rd_app_Some _ _ _ _ Hb).
Qed.

Lemma run_app {A} inp more (t : parse A) : forall c r, run inp t c = Some r -> run (inp ++ more) t c = Some r.
Proof.
  induction t as [a|p k IH|k IH|]; intros c r H; cbn [run] in *; [done| | |done].
  - destruct (rd (probs c) p) as [x|]; [|done]. cbn [mbind option_bind] in *.
    destruct (NORMALIZE inp c) as [c1|] eqn:Hn; [|done]. rewrite (NORMALIZE_app _ _ _ _ Hn). cbn [mbind option_bind] in *.
    destruct (_ <? _); [destruct (UPDATE_0 _ _ _ _); [|done]|destruct (UPDATE_1 _ _ _ _); [|done]]; by apply IH.
  - destruct (NORMALIZE inp c) as [c1|] eqn:Hn; [|done]. rewrite (NORMALIZE_app _ _ _ _ Hn). cbn [mbind option_bind] in *.
    destruct (direct_real c1). by apply IH.
Qed.

(** The symbol is complete: LzmaDec_TryDummy sees it. *)
Lemma TryDummy_complete inp q s x c c1 :
  bytes inp -> sym_pre q -> rc_ok (nprobs q) (LzmaDec.coder q) -> normalized (LzmaDec.coder q) -> 0 <= s <= Z.of_nat (length inp) ->
  run inp (decode_real q) (LzmaParse.set_buf s (LzmaDec.coder q)) = Some (x, c) -> NORMALIZE inp c = Some c1 ->
  LzmaParse.buf c1 <= Z.of_nat (length inp) ->
  LzmaDec_TryDummy q inp s (Z.of_nat (length inp)) = Some (kind x, LzmaParse.buf c1) /\
  sym_ok q x /\ length (probs c) = length (probs (LzmaDec.coder q)) /\ ready (nprobs q) inp c (LzmaParse.buf c1) /\ s <= LzmaParse.buf c /\
  s <= LzmaParse.buf c1 <= s + 20.
Proof.
  intros Hi Hp Hok Hn Hs Hrun Hnc Hb. set (L := Z.of_nat (length inp)) in *. set (inp2 := inp ++ replicate 20 0).
  assert (bytes inp2) as Hi2 by (apply Forall_app; split; [done|apply bytes_zeros]).
  assert (Z.of_nat (length inp2) = L + 20) as Hl2 by (unfold inp2, L; rewrite length_app, length_replicate; lia).
  destruct (TryDummy_spec inp2 q s (L + 20) Hi2 Hp Hok Hn) as (d2 & b2 & E2 & [(_ & _ & ?)|(Hd2 & _ & _ & x2 & c2 & Hrun2 & _ & _ & _ & (c3 & Hn3 & _ & _ & _ & Hb3) & _)]);
    [lia|lia|lia|].
  pose proof (run_app inp (replicate 20 0) _ _ _ Hrun) as Hrun1. fold inp2 in Hrun1. rewrite Hrun1 in Hrun2. clear Hrun1. injection Hrun2 as <- <-.
  pose proof (NORMALIZE_app inp (replicate 20 0) _ _ Hnc) as Hn1. fold inp2 in Hn1. rewrite Hn1 in Hn3. clear Hn1. injection Hn3 as <-.
  destruct (TryDummy_spec inp q s L Hi Hp Hok Hn) as (d & b & E & Hspec); [lia|lia|].
  pose proof (TryDummy_more inp inp2 q s L (L + 20) d b d2 b2) as Hmore.
  assert (is_eof d = false) as Hd.
  { destruct (is_eof d) eqn:Hd; [|done]. specialize (Hmore ltac:(intros i Hlt; unfold inp2; destruct (Z.lt_ge_cases i 0);
      [unfold rd; by rewrite (proj2 (Z.ltb_lt _ _) ltac:(eassumption))|rewrite !rd_lookup by lia; apply lookup_app_l; unfold L in *; lia]) ltac:(lia) ltac:(lia) E E2 Hd2). cbn in Hmore. lia. }
  destruct Hspec as [(-> & _)|(_ & Hbr & Hb20 & x' & c' & Hrun' & <- & Hsx & Hlen & Hready & Hbuf)]; [done|].
  rewrite Hrun in Hrun'. injection Hrun' as <- <-.
  assert (b = LzmaParse.buf c1) as -> by (destruct Hready as (c4 & Hn4 & _ & _ & _ & <-); congruence).
  split_and!; (done || lia).
Qed.

(** A symbol does not touch the coder. *)
Lemma exec_sym_coder limit x q q' go : exec_sym limit x q = Some (q', go) -> LzmaDec.coder q' = LzmaDec.coder q.
Proof.
  assert (forall len q q' go, copy_match limit len q = Some (q', go) -> LzmaDec.coder q' = LzmaDec.coder q) as Hcopy.
  { clear. intros len q q' go. unfold copy_match. destruct (_ =? 0); [by intros [= <- _]|].
    destruct (if _ <=? _ then _ else _); [|done]. by intros [= <- _]. }
  destruct x as [st y|st|st r0 r1 r2 r3 len|st dist len|st]; cbn [exec_sym].
  - destruct (wrz _ _ _); [|done]. by intros [= <- _].
  - destruct (match_byte q); [|done]. cbn [mbind option_bind]. destruct (wrz _ _ _); [|done]. by intros [= <- _].
  - intros H. apply Hcopy in H. exact H.
  - destruct (_ <=? _); [by intros [= <- _]|]. intros H. apply Hcopy in H. exact H.
  - by intros [= <- _].
Qed.

Lemma u8_literal cur : in_width 8 cur -> u8 (256 + cur) = cur.
Proof. intros Hc. unfold wrap. replace (256 + cur) with (cur + 1 * 2 ^ 8) by lia. rewrite Z.mod_add by lia. by apply wrap_small. Qed.

Section Replay.
Context (win : list Z) (d : Z) (inp : list Z).
Hypothesis win_bytes : bytes win.
Hypothesis win_size : Z.of_nat (length win) < 2 ^ 32.
Hypothesis inp_bytes : bytes inp.

(** The decoder's fields when the encoder is at [pos], of which [remainLen] bytes are still
    to be copied. *)
Record aligned (p : CLzmaEnc) (pos : Z) (q : CLzmaDec) : Prop := {
  al_lc : LzmaDec.lc (prop q) = lc p;
  al_lp : LzmaDec.lp (prop q) = lp p;
  al_pb : LzmaDec.pb (prop q) = pb p;
  al_state : LzmaDec.state q = state p;
  al_rep0 : rep0 q = reps0 p;
  al_rep1 : rep1 q = reps1 p;
  al_rep2 : rep2 q = reps2 p;
  al_rep3 : rep3 q = reps3 p;
  al_pos : dicPos q + remainLen q = pos;
  al_remain : 0 <= remainLen q <= 273;
  al_left : remainLen q <> 0 -> matches win (dicPos q) (remainLen q) (rep0 q);
  al_processed : processedPos q = dicPos q;
  al_start : 0 <= dicPos q;
  al_dic : prefix_of win (dic q) (dicPos q);
  al_size : dicBufSize q < 2 ^ 63;
  al_dict : d <= dicSize (prop q);
  al_check : checkDicSize q = 0 \/ checkDicSize q = dicSize (prop q);
  al_temp : tempBufSize q = 0;
  al_first : dicPos q = 0 -> checkDicSize q = 0
}.

Lemma aligned_coder c p pos q : aligned p pos q -> aligned p pos (set_coder c q).
Proof using Type. intros []. by constructor. Qed.

Lemma aligned_enc p p' pos q :
  aligned p pos q -> lc p' = lc p -> lp p' = lp p -> pb p' = pb p -> state p' = state p -> reps0 p' = reps0 p ->
  reps1 p' = reps1 p -> reps2 p' = reps2 p -> reps3 p' = reps3 p -> aligned p' pos q.
Proof using Type. intros [] ? ? ? ? ? ? ? ?. constructor; first [done|congruence]. Qed.

(** What every symbol keeps. *)
Definition kept (q q' : CLzmaDec) : Prop :=
  prop q' = prop q /\ checkDicSize q' = checkDicSize q /\ LzmaDec.coder q' = LzmaDec.coder q /\ length (dic q') = length (dic q).

Definition went (limit : Z) (q q' : CLzmaDec) : Prop :=
  dicPos q < dicPos q' <= limit /\ (dicPos q' < limit -> remainLen q' = 0) /\ kept q q'.

Lemma put_aligned limit p p' pos q st b :
  aligned p pos q -> remainLen q = 0 -> dicPos q < limit -> limit <= Z.of_nat (length win) -> rd win pos = Some b ->
  state p' = st -> lc p' = lc p -> lp p' = lp p -> pb p' = pb p -> reps0 p' = reps0 p -> reps1 p' = reps1 p ->
  reps2 p' = reps2 p -> reps3 p' = reps3 p ->
  exists dic', wrz (dic q) (dicPos q) b = Some dic' /\
    let q' := LzmaDec.set_state st (rep0 q) (rep1 q) (rep2 q) (rep3 q) (set_dic dic' (dicPos q + 1) (u32 (processedPos q + 1)) q) in
    aligned p' (pos + 1) q' /\ went limit q q'.
Proof using win_size.
  intros [] Hrem Hlt Hlim Hb Hst E1 E2 E3 E4 E5 E6 E7. rewrite Hrem in al_pos0.
  destruct (prefix_write win (dic q) (dicPos q) b al_dic0) as (dic' & -> & Hp & Hl); [lia|by replace (dicPos q) with pos by lia|].
  exists dic'. split; [done|]. cbv zeta. split.
  - constructor; cbn; rewrite ?E1, ?E2, ?E3, ?E4, ?E5, ?E6, ?E7; try done; try lia; unfold dicBufSize in *; cbn;
      rewrite ?Hl, ?al_processed0; try done; try lia. apply wrap_small. unfold in_width. lia.
  - split; [cbn; lia|]. split; [done|]. by split_and!.
Qed.

Lemma copy_aligned limit p pos q len :
  aligned p pos q -> remainLen q = 0 -> dicPos q < limit -> limit <= Z.of_nat (length win) ->
  2 <= len <= 273 -> matches win pos len (reps0 p) ->
  exists q', copy_match limit (len - 2) q = Some (q', true) /\ aligned p (pos + len) q' /\ went limit q q'.
Proof using win_size.
  intros Hal Hrem Hlt Hlim Hlen Hm. pose proof Hal as []. rewrite Hrem in al_pos0. assert (dicPos q = pos) as Epos by lia.
  pose proof Hm as (Hend & Hr & Hmi). pose proof al_dic0 as [Hdl _].
  unfold copy_match. change kMatchMinLen with 2. replace (len - 2 + 2) with len by lia.
  rewrite (wrap_small 64 (limit - dicPos q)) by (unfold in_width, dicBufSize in *; lia).
  destruct (Z.eqb_spec (limit - dicPos q) 0); [lia|].
  set (cur := if limit - dicPos q <? len then limit - dicPos q else len). cbv zeta.
  assert (1 <= cur <= len /\ cur <= limit - dicPos q /\ (dicPos q + cur < limit -> cur = len)) as (Hc1 & Hc2 & Hc3)
    by (unfold cur; destruct (Z.ltb_spec (limit - dicPos q) len); lia).
  assert (rep_pos q = dicPos q - reps0 p) as ->.
  { unfold rep_pos. rewrite (al_rep0 _ _ _ Hal). destruct (Z.ltb_spec (dicPos q) (reps0 p)); [lia|]. rewrite Z.add_0_r.
    apply wrap_small. unfold in_width, dicBufSize in *. lia. }
  destruct (Z.leb_spec cur (dicBufSize q - (dicPos q - reps0 p))) as [_|H]; [|unfold dicBufSize in *; lia].
  destruct (copy_fwd_prefix win (dic q) (dicPos q) cur len (reps0 p) al_dic0) as (dic' & -> & Hp & Hl); [by rewrite Epos|lia|]. opt.
  eexists. split; [reflexivity|]. split.
  - constructor; cbn; try done; try lia; unfold dicBufSize in *; cbn; rewrite ?Hl, ?al_processed0; try done; try lia.
    + intros _. split; [lia|]. rewrite (al_rep0 _ _ _ Hal). split; [lia|]. intros i Hi. specialize (Hmi (cur + i) ltac:(lia)).
      by replace (dicPos q + cur + i) with (pos + (cur + i)) by lia.
    + apply wrap_small. unfold in_width. lia.
  - split; [cbn; lia|]. split; [cbn; lia|]. by split_and!.
Qed.

Lemma exec_choice p pos q limit len dist :
  reps_ok p pos -> 1 <= pos -> choice_valid p win d pos len dist = true ->
  aligned p pos q -> remainLen q = 0 -> dicPos q < limit -> limit <= Z.of_nat (length win) ->
  exists q', exec_sym limit (sym_of p len dist (default 0 (rd win pos))) q = Some (q', true) /\
    aligned (enc_after p len dist) (pos + len) q' /\ went limit q q'.
Proof using win_size win_bytes.
  intros Hreps Hpos Hv Hal Hrem Hlt Hlim. destruct (choice_valid_ok _ _ _ _ _ _ Hv) as (Hch & Hend & Hlen & Hd).
  pose proof (al_pos _ _ _ Hal) as Epos. rewrite Hrem, Z.add_0_r in Epos. pose proof (al_dic _ _ _ Hal) as [Hdl Hdp].
  destruct (rd_default win pos win_bytes ltac:(lia)) as [Ecur Wcur]. set (cur := default 0 (rd win pos)) in *.
  unfold sym_of, enc_after. destruct (Z.eqb_spec dist MARK_LIT) as [E|E].
  - assert (len = 1) as -> by (destruct Hch as [[_ ?]|[[E0 _]|[H _]]]; [done|by rewrite E0 in E|unfold MARK_LIT in E; lia]).
    cbn [exec_sym]. rewrite u8_literal by done.
    destruct (put_aligned limit p (set_state (lit_next (state p)) p) pos q (lit_next (state p)) cur Hal) as (dic' & -> & H); try done.
    opt. by eexists.
  - destruct (Hd E) as (Hd0 & Hd1 & Hd2 & Hm). unfold MARK_LIT in Hd0. destruct (Z.ltb_spec dist 4) as [H4|H4].
    + assert (matches win pos len (reps0 (rotate p dist))) as Hmat.
      { unfold dist_of in *. destruct (Z.ltb_spec dist 4); [|lia]. done. }
      destruct (Z.eqb_spec len 1) as [->|Hl1]; cbn [exec_sym].
      * assert (dist = 0) as -> by (destruct Hch as [[? _]|[[? _]|[_ ?]]]; [done|done|lia]).
        change (rotate p 0) with p in Hmat. destruct Hmat as (_ & Hr & Hm1). specialize (Hm1 0 ltac:(lia)). rewrite Z.add_0_r in Hm1.
        assert (match_byte q = Some cur) as ->.
        { unfold match_byte, rep_pos. rewrite (al_rep0 _ _ _ Hal). destruct (Z.ltb_spec (dicPos q) (reps0 p)); [lia|].
          rewrite Z.add_0_r, wrap_small by (pose proof (al_size _ _ _ Hal); unfold in_width, dicBufSize in *; lia).
          rewrite Hdp by lia. by rewrite Epos, <-Hm1. }
        opt. destruct (put_aligned limit p (set_state (next_of 9 11 (state p)) p) pos q (next_of 9 11 (state p)) cur Hal) as (dic' & -> & H); try done.
        opt. by eexists.
      * set (p1 := set_state (next_of 8 11 (state p)) (set_counts (matchPriceCount p) (repLenEncCounter p - 1) (rotate p dist))).
        assert (reps0 p1 = reps0 (rotate p dist) /\ reps1 p1 = reps1 (rotate p dist) /\ reps2 p1 = reps2 (rotate p dist) /\
          reps3 p1 = reps3 (rotate p dist)) as (P0 & P1 & P2 & P3) by done.
        assert (lc p1 = lc p /\ lp p1 = lp p /\ pb p1 = pb p) as (P4 & P5 & P6) by (unfold p1, rotate; by destruct (dist =? 0), (dist =? 1), (dist =? 2)).
        destruct (copy_aligned limit p1 pos (LzmaDec.set_state (next_of 8 11 (state p)) (reps0 (rotate p dist)) (reps1 (rotate p dist)) (reps2 (rotate p dist)) (reps3 (rotate p dist)) q) len)
          as (q' & Eq & Hq' & Hw); try done; [destruct Hal; constructor; rewrite ?P4, ?P5, ?P6; done|destruct Hch as [[? _]|[[_ ?]|[_ ?]]]; (done || lia)|].
        exists q'. split; [exact Eq|]. split; [exact Hq'|exact Hw].
    + cbn [exec_sym]. cbn [checkDicSize processedPos LzmaDec.set_state].
      assert (dist_of p dist = dist - 3) as Ed by (unfold dist_of; destruct (Z.ltb_spec dist 4); [lia|done]). rewrite Ed in *.
      destruct (Z.leb_spec (if checkDicSize q =? 0 then processedPos q else checkDicSize q) (dist - 4)) as [Hbad|_].
      { exfalso. pose proof (al_processed _ _ _ Hal). pose proof (al_dict _ _ _ Hal).
        destruct (al_check _ _ _ Hal) as [Hc|Hc]; destruct (Z.eqb_spec (checkDicSize q) 0); lia. }
      assert (u32 (dist - 4 + 1) = dist - 3) as Eu by (rewrite wrap_small by (unfold in_width; lia); lia). rewrite Eu.
      set (p1 := set_state (next_of 7 10 (state p)) _).
      destruct (copy_aligned limit p1 pos (LzmaDec.set_state (next_of 7 10 (state p)) (dist - 3) (rep0 q) (rep1 q) (rep2 q) q) len)
        as (q' & Eq & Hq' & Hw); try done; [destruct Hal; by constructor|destruct Hch as [[? _]|[[? _]|[_ ?]]]; (done || lia)|].
      exists q'. split; [exact Eq|]. split; [exact Hq'|exact Hw].
Qed.

(** ** The rest of the encoding *)

(** The encoding ends in [pz], and [cz] is its coder after the end mark; the stream is the
    number it stands for. *)
Context (pz : CLzmaEnc) (cz : RangeEnc.coder).
Hypothesis pz_ready : ready_enc win d 69 pz (Z.of_nat (length win)) [].
Hypothesis cz_encode : encode (end_of win pz) (cod pz) = Some cz.
Hypothesis cz_ok : res (rc cz) = SZ_OK.
Hypothesis cz_compat : compat inp (rc cz).

Definition future (p : CLzmaEnc) (pos : Z) (cs : list choice) : Prop :=
  ready_enc win d 69 p pos cs /\ coded win p pos cs pz.

(** The requests of the next symbol, in the order coded. *)
Definition sync_at (p : CLzmaEnc) (q : CLzmaDec) : Prop := sync idx inp (cod p) (LzmaDec.coder q).

Lemma encode_back n p rs c :
  enc_ok (esz p) (n + Z.of_nat (length rs)) (cod p) -> 0 <= n -> Forall (valid_req (esz p)) rs -> encode rs (cod p) = Some c ->
  res (rc c) = SZ_OK -> compat inp (rc c) -> res (rc (cod p)) = SZ_OK /\ compat inp (rc (cod p)).
Proof using inp_bytes.
  intros Hc Hn Hv He Hok Hcp. destruct (encode_ok (esz p) rs n (cod p) Hc Hn Hv) as (c' & E & _ & H).
  assert (c' = c) as -> by congruence. destruct (H Hok) as (H1 & _ & H2). split; [done|]. by apply H2.
Qed.

Lemma pz_back : res (rc (cod pz)) = SZ_OK /\ compat inp (rc (cod pz)) /\ Forall (valid_req (esz pz)) (end_of win pz) /\
  enc_ok (esz pz) (5 + Z.of_nat (length (end_of win pz))) (cod pz).
Proof using inp_bytes pz_ready cz_encode cz_ok cz_compat.
  destruct pz_ready as [Hwf Hok _].
  assert (Forall (valid_req (esz pz)) (end_of win pz) /\ (length (end_of win pz) <= 64)%nat) as [Hv Hl].
  { unfold end_of. destruct (writeEndMark pz); [|split; [constructor|cbn; lia]].
    apply end_mark_reqs_ok; [done|]. by apply pos_state_ok. }
  assert (enc_ok (esz pz) (5 + Z.of_nat (length (end_of win pz))) (cod pz)) as Hok' by (apply (enc_ok_le _ _ _ _ Hok); cbn [length]; destruct (_ =? 0); lia).
  destruct (encode_back 5 pz (end_of win pz) cz Hok' ltac:(lia) Hv cz_encode cz_ok cz_compat). done.
Qed.

(** The requests [rs] take [p] to [p1], and the stream is still right. *)
Definition step (p : CLzmaEnc) (rs : list req) (p1 : CLzmaEnc) : Prop :=
  exists m, 0 <= m /\ enc_ok (esz p) (m + Z.of_nat (length rs)) (cod p) /\ Forall (valid_req (esz p)) rs /\
    encode rs (cod p) = Some (cod p1).

Lemma step_back p rs p1 : step p rs p1 -> res (rc (cod p1)) = SZ_OK -> compat inp (rc (cod p1)) ->
  res (rc (cod p)) = SZ_OK /\ compat inp (rc (cod p)).
Proof using inp_bytes. intros (m & Hm & Hc & Hv & He) Hok Hcp. by apply (encode_back m p rs (cod p1)). Qed.

(** The first byte, or one choice. *)
Lemma future_step p pos cs :
  future p pos cs -> pos < Z.of_nat (length win) ->
  exists p1 pos1 cs1 rs, future p1 pos1 cs1 /\ step p rs p1 /\
    ((pos = 0 /\ pos1 = 1 /\ cs1 = cs /\ exists cur, rd win 0 = Some cur /\ in_width 8 cur /\ rs = first_reqs cur /\
        state p = 0 /\ exists k n f r, p1 = set_cod k (set_meta n f r p)) \/
     (exists c, cs = c :: cs1 /\ 1 <= pos /\ pos1 = pos + ch_len c /\ rs = at_choice p win pos (ch_len c) (ch_dist c) /\
        choice_valid p win d pos (ch_len c) (ch_dist c) = true /\ reps_ok p pos /\
        exists k n f r, p1 = set_cod k (enc_after (set_meta n f r p) (ch_len c) (ch_dist c)))).
Proof using win_bytes win_size.
  intros [Hr Hcd] Hlt. destruct (coded_inv win p pos cs pz Hcd) as (n & f & r & [(? & _)|[Hf|Hnx]]); [lia|..].
  - destruct Hf as (cur & p1 & -> & Ecur & Efirst & Hcd1). pose proof (ready_meta win d 69 p 0 cs n f r Hr) as Hr'.
    destruct (ready_first win d win_bytes 69 _ cs Hr' ltac:(lia) ltac:(lia)) as (cur' & c & Ecur' & Wcur & Eenc & Efirst' & Hr1).
    assert (cur' = cur) as -> by congruence. assert (p1 = set_cod c (set_meta n f r p)) as -> by congruence.
    pose proof Hr as [Hwf Hc (Hst & _)]. cbn [Z.eqb] in Hc. set (m := 69 + 64 * Z.of_nat (length cs)).
    assert (enc_ok (esz p) (m + 64) (cod p)) as Hc' by (by replace (m + 64) with (69 + 64 * (Z.of_nat (length cs) + 1)) by lia).
    destruct (first_encode p m cur Hwf Hc') as (c' & E & Hc2 & Hv & Hl & _); [lia|done|].
    assert (encode (first_reqs cur) (cod p) = Some c) as Eenc' by exact Eenc. assert (c' = c) as -> by congruence.
    exists (set_cod c (set_meta n f r p)), 1, cs, (first_reqs cur). split; [done|]. split.
    { exists m. split; [lia|]. split; [by apply (enc_ok_le _ (m + 64)); [|lia]|]. done. }
    left. split_and!; try done. exists cur. split_and!; try done. by exists c, n, f, r.
  - destruct Hnx as (c & cs' & p1 & -> & Hpos & Esym & Hcd1). pose proof (ready_meta win d 69 p pos (c :: cs') n f r Hr) as Hr'.
    destruct (ready_next win d win_bytes win_size 69 _ pos c cs' Hr' Hpos ltac:(lia)) as (k & Eenc & Esym' & Hr1 & Hv & Hlen & Hend & _).
    assert (p1 = set_cod k (enc_after (set_meta n f r p) (ch_len c) (ch_dist c))) as -> by congruence.
    pose proof Hr as [Hwf Hc Hplan]. destruct (Z.eqb_spec pos 0); [lia|]. destruct Hplan as (_ & Hrep & _). cbn [length] in Hc.
    set (m := 69 + 64 * Z.of_nat (length cs')).
    assert (enc_ok (esz p) (m + 64) (cod p)) as Hc' by (by replace (m + 64) with (69 + 64 * (Z.of_nat (S (length cs')) + 0)) by lia).
    assert (choice_valid p win d pos (ch_len c) (ch_dist c) = true) as Hv'.
    { revert Hv. unfold choice_valid. by replace (dist_of (set_meta n f r p) (ch_dist c)) with (dist_of p (ch_dist c))
        by (unfold dist_of, rotate; by destruct (ch_dist c =? 0), (ch_dist c =? 1), (ch_dist c =? 2)). }
    destruct (choice_encode win d win_bytes win_size p m pos (ch_len c) (ch_dist c) Hwf Hc') as (k' & E & Hc2 & Hvr & Hl & _); [lia|done|done|done|].
    assert (k' = k) as ->.
    { change (at_choice (set_meta n f r p) win pos (ch_len c) (ch_dist c)) with (at_choice p win pos (ch_len c) (ch_dist c)) in Eenc.
      change (cod (set_meta n f r p)) with (cod p) in Eenc. congruence. }
    exists (set_cod k (enc_after (set_meta n f r p) (ch_len c) (ch_dist c))), (pos + ch_len c), cs', (at_choice p win pos (ch_len c) (ch_dist c)).
    split; [done|]. split.
    { exists m. split; [lia|]. split; [by apply (enc_ok_le _ (m + 64)); [|lia]|]. done. }
    right. exists c. split_and!; try done. by exists k, n, f, r.
Qed.

Lemma future_end p pos cs : future p pos cs -> Z.of_nat (length win) <= pos -> pos = Z.of_nat (length win) /\ cs = [] /\ exists n f r, pz = set_meta n f r p.
Proof using win_bytes win_size.
  intros [Hr Hcd] Hge. destruct (coded_inv win p pos cs pz Hcd) as (n & f & r & [(Ep & Ec & E)|[(cur & p1 & -> & Ecur & _)|(c & cs' & p1 & -> & Hpos & _)]]).
  - split; [done|]. split; [done|]. by exists n, f, r.
  - apply rd_range in Ecur. lia.
  - destruct (ready_next win d win_bytes win_size 69 _ pos c cs' Hr Hpos ltac:(lia)) as (k & _ & _ & _ & _ & ? & ? & _). lia.
Qed.

(** The stream the encoding has written so far is made of bytes. *)
Lemma future_bytes p pos cs :
  future p pos cs -> res (rc (cod pz)) = SZ_OK ->
  res (rc (cod p)) = SZ_OK /\ (bytes (out (rc (cod p))) -> bytes (out (rc (cod pz)))).
Proof using win_bytes win_size.
  remember (Z.to_nat (Z.of_nat (length win) - pos)) as k eqn:Ek. revert p pos cs Ek. induction (lt_wf k) as [k _ IH].
  intros p pos cs -> Hf Hok. destruct (Z.lt_ge_cases pos (Z.of_nat (length win))) as [Hlt|Hge].
  - destruct (future_step p pos cs Hf Hlt) as (p1 & pos1 & cs1 & rs & Hf1 & (m & Hm & Hc & Hv & He) & Hcase).
    assert (pos < pos1) as Hp1.
    { destruct Hcase as [(-> & -> & _)|(c & _ & _ & -> & _ & Hch & _)]; [lia|].
      destruct (choice_valid_ok _ _ _ _ _ _ Hch) as (_ & _ & ? & _). lia. }
    destruct (IH (Z.to_nat (Z.of_nat (length win) - pos1)) ltac:(lia) p1 pos1 cs1 eq_refl Hf1 Hok) as [H1 H2].
    destruct (encode_ok (esz p) rs m (cod p) Hc Hm Hv) as (c' & E & _ & H). assert (c' = cod p1) as -> by congruence.
    destruct (H H1) as (H3 & H4 & _). split; [done|]. auto.
  - destruct (future_end p pos cs Hf Hge) as (_ & _ & n & f & r & E). rewrite E in Hok |- *. done.
Qed.

(** The stream is right at every state of the encoding. *)
Lemma future_back p pos cs : future p pos cs -> res (rc (cod p)) = SZ_OK /\ compat inp (rc (cod p)).
Proof using All.
  remember (Z.to_nat (Z.of_nat (length win) - pos)) as k eqn:Ek. revert p pos cs Ek. induction (lt_wf k) as [k _ IH].
  intros p pos cs -> Hf. destruct (Z.lt_ge_cases pos (Z.of_nat (length win))) as [Hlt|Hge].
  - destruct (future_step p pos cs Hf Hlt) as (p1 & pos1 & cs1 & rs & Hf1 & Hst & Hcase).
    assert (pos < pos1) as Hp1.
    { destruct Hcase as [(-> & -> & _)|(c & _ & _ & -> & _ & Hv & _)]; [lia|].
      destruct (choice_valid_ok _ _ _ _ _ _ Hv) as (_ & _ & ? & _). lia. }
    destruct (IH (Z.to_nat (Z.of_nat (length win) - pos1)) ltac:(lia) p1 pos1 cs1 eq_refl Hf1) as [H1 H2]. by apply (step_back p rs p1).
  - destruct Hf as [Hr Hcd]. destruct (coded_inv win p pos cs pz Hcd) as (n & f & r & [(_ & _ & E)|[(cur & p1 & -> & Ecur & _)|(c & cs' & p1 & -> & Hpos & _)]]).
    + destruct pz_back as (H1 & H2 & _). by rewrite E in H1, H2.
    + apply rd_range in Ecur. lia.
    + destruct (ready_next win d win_bytes win_size 69 _ pos c cs' Hr Hpos ltac:(lia)) as (k & _ & _ & _ & _ & ? & ? & _). lia.
Qed.

Lemma run_step {A} p rs p1 q (t : parse A) a :
  enc_wf p -> step p rs p1 -> res (rc (cod p1)) = SZ_OK -> compat inp (rc (cod p1)) -> sync_at p q -> follow idx t rs = Some a ->
  exists c, run inp t (LzmaDec.coder q) = Some (a, c) /\ sync idx inp (cod p1) c.
Proof using inp_bytes win_size.
  intros Hp (m & Hm & Hc & Hv & He) Hok Hcp Hs Hf. destruct (ew_props _ Hp) as (Hlc & Hlp & _). assert (0 <= lclp p) by (unfold lclp; lia).
  apply (run_follow (esz p) idx ltac:(intros; by apply (idx_inj (lclp p))) ltac:(intros; by apply (idx_pos (lclp p))) inp rs t m (cod p) (cod p1)); done.
Qed.

(** The first bit of a step: the decoder reads it, and the rest of the step is ahead. *)
Lemma step_bit p q b rs p1 dc :
  enc_wf p -> step p (RBit q b :: rs) p1 -> res (rc (cod p1)) = SZ_OK -> compat inp (rc (cod p1)) ->
  agree idx (mem (cod p)) (probs dc) -> dmatch inp (rc (cod p)) dc ->
  exists x c1 d1, load (mem (cod p)) q = Some x /\ bound_of dc x = new_bound (cod p) x /\ 2 ^ 17 <= new_bound (cod p) x /\
    (code dc <? bound_of dc x) = negb b /\
    (if b then UPDATE_1 (idx q) x (bound_of dc x) dc else UPDATE_0 (idx q) x (bound_of dc x) dc) = Some d1 /\
    sync idx inp c1 d1 /\ step (set_cod c1 p) rs p1.
Proof using inp_bytes win_size.
  intros Hp Hst Hok Hcp Ha Hd. destruct (step_back _ _ _ Hst Hok Hcp) as [_ Hcp0]. destruct Hst as (m & Hm & Hc & Hv & He).
  apply Forall_cons_1 in Hv as [V0 Vs]. cbn [length encode] in *. set (k := m + Z.of_nat (length rs)) in *.
  assert (enc_ok (esz p) (k + 1) (cod p)) as Hc' by (by replace (k + 1) with (m + Z.of_nat (S (length rs))) by lia).
  destruct (encode1_ok (esz p) k (cod p) (RBit q b) Hc' ltac:(lia) V0) as (c1 & E1 & Hc1 & _). rewrite E1 in He. cbn [mbind option_bind] in He.
  destruct (encode_back m (set_cod c1 p) rs (cod p1) Hc1 Hm Vs He Hok Hcp) as [Hok1 Hcp1].
  destruct (load_Some (esz p) _ _ _ Hc' V0) as (x & Hx & Hpx). cbn [encode1] in E1.
  rewrite (RC_BIT_branch (cod p) q x Hx (eo_range _ _ _ Hc') (eo_low _ _ _ Hc') Hpx) in E1.
  destruct (ew_props _ Hp) as (Hlc & Hlp & _). assert (0 <= lclp p) by (unfold lclp; lia).
  destruct (bit_follow (esz p) idx ltac:(intros; by apply (idx_inj (lclp p))) ltac:(intros; by apply (idx_pos (lclp p))) k inp (cod p) q b x c1 dc
    Hc' ltac:(lia) Hx E1 Hok1 inp_bytes Hcp1 Hcp0 Ha Hd) as (Hb & d1 & E & Hs).
  pose proof (new_bound_ok (cod p) x (eo_range _ _ _ Hc') Hpx) as [B1 B2]. pose proof (eo_range _ _ _ Hc') as Hr.
  assert (bound_of dc x = new_bound (cod p) x) as Ebd.
  { unfold bound_of. rewrite (proj1 Hd). change ((range (rc (cod p)) >>> LzmaParse.kNumBitModelTotalBits) * x) with (new_bound (cod p) x).
    apply wrap_small. unfold in_width. lia. }
  exists x, c1, d1. split_and!; try done. exists m. by split_and!.
Qed.

Lemma aligned_linked p pos q : aligned p pos q -> remainLen q = 0 -> linked p pos q.
Proof using win_size. intros [] Hrem. constructor; try done. lia. Qed.

Lemma first_follow p q cur :
  enc_wf p -> aligned p 0 q -> remainLen q = 0 -> state p = 0 -> in_width 8 cur ->
  follow idx (decode_real q) (first_reqs cur) = Some (SymLit 0 (256 + cur)).
Proof using win_size.
  intros Hp Hal Hrem Hst Hcur. pose proof (aligned_linked p 0 q Hal Hrem) as Hq.
  assert (in_width 32 0) as H0 by done. pose proof (posState_eq p 0 q Hp Hq H0) as Eps. change (pos_state p 0) with 0 in Eps.
  unfold decode_real. rewrite Eps, (lk_state _ _ _ Hq), Hst. unfold first_reqs.
  rewrite (follow_P (IsMatch + (0 * 16 + 0))) by done. cbn [negb].
  pose proof (literal_follow p 0 q Hp Hq H0 0 cur 0) as F. unfold lit_offs, IsLitState in F. rewrite Hst in F. cbn [Z.ltb Z.compare] in F.
  rewrite F; [done| |done|lia]. unfold real_literal. pose proof (al_pos _ _ _ Hal). rewrite (al_processed _ _ _ Hal), (al_first _ _ _ Hal) by lia.
  by replace (dicPos q) with 0 by lia.
Qed.

Lemma choice_follow p pos q len dist :
  enc_wf p -> aligned p pos q -> remainLen q = 0 -> 1 <= pos -> reps_ok p pos -> choice_valid p win d pos len dist = true ->
  follow idx (decode_real q) (at_choice p win pos len dist) = Some (sym_of p len dist (default 0 (rd win pos))).
Proof using win_bytes win_size.
  intros Hp Hal Hrem Hpos (Hr0 & _) Hv. pose proof (aligned_linked p pos q Hal Hrem) as Hq.
  destruct (choice_valid_ok _ _ _ _ _ _ Hv) as (Hch & Hend & Hlen & _).
  assert (in_width 32 pos) as Hw by (unfold in_width; lia). unfold at_choice. rewrite (wrap_small 32 pos Hw).
  pose proof (al_dic _ _ _ Hal) as [Hdl Hdp]. pose proof (al_pos _ _ _ Hal) as Epos. rewrite Hrem, Z.add_0_r in Epos.
  apply symbol_follow; try done.
  - intros _. destruct (rd_default win (pos - 1) win_bytes ltac:(lia)) as [E1 W1]. destruct (rd_default win pos win_bytes ltac:(lia)) as [_ W2].
    split; [left; lia|]. split; [|done]. unfold prev_byte. destruct (Z.eqb_spec (dicPos q) 0); [lia|]. rewrite Hdp by lia. by rewrite Epos.
  - intros _ _. destruct (rd_default win (pos - reps0 p) win_bytes ltac:(lia)) as [E3 W3].
    unfold match_byte, rep_pos. rewrite (al_rep0 _ _ _ Hal). destruct (Z.ltb_spec (dicPos q) (reps0 p)); [lia|].
    rewrite Z.add_0_r, wrap_small by (pose proof (al_size _ _ _ Hal); unfold in_width, dicBufSize in *; lia).
    rewrite Hdp by lia. by rewrite Epos.
Qed.

(** A decoder before a symbol of the encoding. *)
Definition before (p : CLzmaEnc) (pos : Z) (cs : list choice) (q : CLzmaDec) : Prop :=
  future p pos cs /\ aligned p pos q /\ sync_at p q.

Definition moved_on (limit : Z) (q q' : CLzmaDec) : Prop :=
  dicPos q < dicPos q' <= limit /\ (dicPos q' < limit -> remainLen q' = 0) /\
  prop q' = prop q /\ checkDicSize q' = checkDicSize q /\ length (dic q') = length (dic q).

Lemma real_turn_replays p pos cs q limit :
  before p pos cs q -> remainLen q = 0 -> dicPos q < limit -> limit <= Z.of_nat (length win) ->
  exists p1 pos1 cs1 q', real_turn inp limit q = Some (q', true) /\ before p1 pos1 cs1 q' /\ moved_on limit q q'.
Proof using All.
  intros (Hf & Hal & Hs) Hrem Hlt Hlim. pose proof (al_pos _ _ _ Hal) as Epos. rewrite Hrem, Z.add_0_r in Epos.
  destruct (future_step p pos cs Hf ltac:(lia)) as (p1 & pos1 & cs1 & rs & Hf1 & Hst & Hcase).
  destruct (future_back p1 pos1 cs1 Hf1) as [Hok1 Hcp1]. pose proof (re_wf _ _ _ _ _ _ (proj1 Hf)) as Hp.
  exists p1, pos1, cs1. unfold real_turn.
  destruct Hcase as [(-> & -> & -> & cur & Ecur & Wcur & -> & Hst0 & k & n & f & r & E1)|(c & -> & Hpos & -> & -> & Hv & Hrep & k & n & f & r & E1)].
  - destruct (run_step p _ p1 q (decode_real q) _ Hp Hst Hok1 Hcp1 Hs (first_follow p q cur Hp Hal Hrem Hst0 Wcur)) as (c & -> & Hs1). opt.
    cbn [exec_sym]. rewrite u8_literal by done.
    destruct (put_aligned limit p p1 0 (set_coder c q) 0 cur) as (dic' & -> & Hal1 & Hw); try done; try (by rewrite E1); try (by apply aligned_coder).
    opt. eexists. split; [reflexivity|]. destruct Hw as (W1 & W2 & W3 & W4 & W5 & W6).
    split; [by split|exact (conj W1 (conj W2 (conj W3 (conj W4 W6))))].
  - destruct (run_step p _ p1 q (decode_real q) _ Hp Hst Hok1 Hcp1 Hs (choice_follow p pos q _ _ Hp Hal Hrem Hpos Hrep Hv)) as (c' & -> & Hs1). opt.
    destruct (exec_choice p pos (set_coder c' q) limit (ch_len c) (ch_dist c)) as (q' & -> & Hal1 & Hw); try done; [by apply aligned_coder|].
    exists q'. split; [done|]. destruct Hw as (W1 & W2 & W3 & W4 & W5 & W6).
    split; [|exact (conj W1 (conj W2 (conj W3 (conj W4 W6))))]. split; [done|]. split.
    + apply (aligned_enc _ p1) in Hal1; [done|..]; rewrite E1; unfold enc_after, rotate;
        by destruct (ch_dist c =? MARK_LIT), (ch_dist c <? 4), (ch_len c =? 1), (ch_dist c =? 0), (ch_dist c =? 1), (ch_dist c =? 2).
    + unfold sync_at. by rewrite W5.
Qed.

(** ** LzmaDec_DecodeReal_3 *)

Lemma moved_on_trans limit q1 q2 q3 : moved_on limit q1 q2 -> moved_on limit q2 q3 -> moved_on limit q1 q3.
Proof using win_size.
  intros (A1 & A2 & A3 & A4 & A5) (B1 & B2 & B3 & B4 & B5). unfold moved_on. split; [lia|]. split; [done|]. split_and!; congruence.
Qed.

Lemma real_loop_replays limit bufLimit : limit <= Z.of_nat (length win) ->
  forall k q p pos cs, before p pos cs q -> remainLen q = 0 -> dicPos q < limit -> (Z.to_nat (limit - dicPos q) <= k)%nat ->
  exists p1 pos1 cs1 q1, (forall fuel, (k < fuel)%nat -> loop fuel
        (fun p =>
           '(p, go) ← real_turn inp limit p;
           if go && (dicPos p <? limit) && (LzmaParse.buf (LzmaDec.coder p) <? bufLimit)
           then Some (inl p) else Some (inr p)) q = Some q1) /\
    before p1 pos1 cs1 q1 /\ moved_on limit q q1.
Proof using All.
  intros Hlim. induction k as [|k IH]; intros q p pos cs Hb Hrem Hlt Hk; [lia|].
  destruct (real_turn_replays p pos cs q limit Hb Hrem Hlt Hlim) as (p1 & pos1 & cs1 & q1 & Et & Hb1 & Hm).
  pose proof Hm as (M1 & M2 & _).
  destruct ((dicPos q1 <? limit) && (LzmaParse.buf (LzmaDec.coder q1) <? bufLimit)) eqn:Hgo.
  - apply andb_true_iff in Hgo as [Hlt1%Z.ltb_lt Hbuf].
    destruct (IH q1 p1 pos1 cs1 Hb1 (M2 Hlt1) Hlt1 ltac:(lia)) as (p2 & pos2 & cs2 & q2 & El & Hb2 & Hm2).
    exists p2, pos2, cs2, q2. split; [|split; [done|by apply (moved_on_trans limit q q1)]].
    intros [|fuel] Hf; [lia|]. cbn [loop]. rewrite Et. opt. cbn [andb]. rewrite (proj2 (Z.ltb_lt _ _) Hlt1), Hbuf. apply El. lia.
  - exists p1, pos1, cs1, q1. split; [|done]. intros [|fuel] Hf; [lia|]. cbn [loop]. rewrite Et. opt. cbn [andb]. by rewrite Hgo.
Qed.

(** Where the coder is, normalised. *)
Definition settled_at (p : CLzmaEnc) (q : CLzmaDec) : Prop :=
  agree idx (mem (cod p)) (probs (LzmaDec.coder q)) /\ dmatch inp (rc (cod p)) (LzmaDec.coder q).

Lemma sync_settles p q : sync_at p q ->
  exists c, NORMALIZE inp (LzmaDec.coder q) = Some c /\ settled_at p (set_coder c q).
Proof using Type. intros [Ha (c & En & Hd & Ep)]. exists c. split; [done|]. split; [cbn; by rewrite Ep|done]. Qed.

Lemma settled_sync n p q : enc_ok (esz p) n (cod p) -> settled_at p q -> sync_at p q.
Proof using win_size.
  intros Hc [Ha Hd]. split; [done|]. exists (LzmaDec.coder q). split; [|done]. apply NORMALIZE_normalized.
  unfold normalized. destruct Hd as [-> _]. pose proof (eo_range _ _ _ Hc). lia.
Qed.

Definition ahead (p : CLzmaEnc) (pos : Z) (cs : list choice) (q : CLzmaDec) : Prop :=
  future p pos cs /\ aligned p pos q /\ settled_at p q.

Lemma ahead_before p pos cs q : ahead p pos cs q -> before p pos cs q.
Proof using win_size. intros (Hf & Hal & Hs). split; [done|]. split; [done|]. by apply (settled_sync _ _ _ (re_ok _ _ _ _ _ _ (proj1 Hf))). Qed.

Lemma Real_3_replays p pos cs q limit bufLimit :
  before p pos cs q -> remainLen q = 0 -> dicPos q < limit -> limit <= Z.of_nat (length win) ->
  exists p1 pos1 cs1 q1, LzmaDec_DecodeReal_3 inp q limit bufLimit = Some (q1, SZ_OK) /\ ahead p1 pos1 cs1 q1 /\ moved_on limit q q1.
Proof using All.
  intros Hb Hrem Hlt Hlim. unfold LzmaDec_DecodeReal_3.
  assert (set_remain 0 q = q) as -> by (destruct q; cbn in *; by subst).
  destruct (real_loop_replays limit bufLimit Hlim (Z.to_nat (limit - dicPos q)) q p pos cs Hb Hrem Hlt ltac:(lia))
    as (p1 & pos1 & cs1 & q1 & -> & (Hf1 & Hal1 & Hs1) & Hm); [|lia]. opt.
  destruct (sync_settles p1 q1 Hs1) as (c & -> & Hset). opt.
  exists p1, pos1, cs1, (set_coder c q1). split.
  - cbn [remainLen set_coder]. pose proof (al_remain _ _ _ Hal1). change kMatchSpecLen_Error_Data with 512.
    by destruct (Z.leb_spec 512 (remainLen q1)); [lia|].
  - split; [|exact Hm]. split; [done|]. split; [by apply aligned_coder|done].
Qed.

(** ** LzmaDec_WriteRem and LzmaDec_DecodeReal2, up to the end of the data *)

Abbreviation total_len := (Z.of_nat (length win)).

Lemma WriteRem_replays p pos q :
  aligned p pos q -> pos <= total_len -> dicSize (prop q) < 2 ^ 32 ->
  exists q1, LzmaDec_WriteRem q total_len = Some q1 /\ aligned p pos q1 /\ remainLen q1 = 0 /\
    LzmaDec.coder q1 = LzmaDec.coder q /\ (remainLen q = 0 -> q1 = q).
Proof using win_size.
  intros Hal Hle Hds. pose proof Hal as []. unfold LzmaDec_WriteRem.
  destruct (Z.eqb_spec (remainLen q) 0) as [E|E]; [by exists q|].
  rewrite (wrap_small 64) by (unfold in_width, dicBufSize in *; destruct al_dic0; lia).
  destruct (Z.ltb_spec (total_len - dicPos q) (remainLen q)); [lia|]. destruct (Z.eqb_spec (remainLen q) 0); [done|].
  set (len := remainLen q) in *. cbv zeta. set (c0 := checkDicSize q =? 0) in *.
  set (q0 := if c0 && _ then _ else q).
  assert (exists chk, q0 = set_check chk q /\ (chk = 0 \/ chk = dicSize (prop q))) as (chk & Eq0 & Hchk).
  { unfold q0. destruct (c0 && _); [by exists (dicSize (prop q)); split; [|right]|]. exists (checkDicSize q). split; [by destruct q|done]. }
  assert (remainLen q0 = len /\ rep0 q0 = rep0 q /\ dic q0 = dic q /\ dicPos q0 = dicPos q /\ processedPos q0 = processedPos q) as (-> & -> & -> & -> & ->)
    by (rewrite Eq0; done).
  specialize (al_left0 E). destruct (write_rem_prefix win (dic q) (dicPos q) len len (rep0 q)) as (l & -> & Hp & Hl); try done; [lia|]. opt.
  eexists. split; [reflexivity|]. rewrite Z.sub_diag, Eq0. change (u32 0) with 0. split; [|done].
  destruct al_left0 as (? & ? & _).
  constructor; cbn; try done; try lia; unfold dicBufSize in *; cbn; rewrite ?Hl; try done; try lia.
  rewrite al_processed0. apply wrap_small. unfold in_width. lia.
Qed.

Lemma aligned_check_full p pos q : aligned p pos q -> 0 < dicPos q -> aligned p pos (check_full q).
Proof using win_size.
  intros Hal Hpos. unfold check_full. destruct (_ && _); [|done]. destruct Hal. constructor; try done; [by right|cbn; lia].
Qed.

Lemma Real2_replays p pos cs q bufLimit :
  before p pos cs q -> remainLen q = 0 -> dicPos q < total_len -> dicSize (prop q) < 2 ^ 32 ->
  (checkDicSize q = 0 -> processedPos q < dicSize (prop q)) ->
  exists p1 pos1 cs1 q1, LzmaDec_DecodeReal2 inp q total_len bufLimit = Some (q1, SZ_OK) /\ ahead p1 pos1 cs1 q1 /\
    dicPos q < dicPos q1 <= total_len /\ prop q1 = prop q /\ length (dic q1) = length (dic q).
Proof using All.
  intros Hb Hrem Hlt Hds Hck. pose proof (proj1 (proj2 Hb)) as Hal. pose proof (al_start _ _ _ Hal). pose proof (al_processed _ _ _ Hal).
  rewrite DecodeReal2_eq.
  assert (dicPos q < real_limit q total_len <= total_len) as Hlim.
  { unfold real_limit. destruct (Z.eqb_spec (checkDicSize q) 0) as [E|E]; [|lia]. specialize (Hck E).
    rewrite (wrap_small 32), (wrap_small 64) by (unfold in_width; lia).
    destruct (Z.ltb_spec (dicSize (prop q) - processedPos q) (total_len - dicPos q)); lia. }
  destruct (Real_3_replays p pos cs q (real_limit q total_len) bufLimit Hb Hrem ltac:(lia) ltac:(lia)) as (p1 & pos1 & cs1 & q1 & -> & (Hf & Hal1 & Hs) & (M1 & M2 & M3 & M4 & M5)).
  opt. exists p1, pos1, cs1, (check_full q1). split; [done|].
  assert (forall A (f : CLzmaDec -> A), (forall n, f (set_check n q1) = f q1) -> f (check_full q1) = f q1) as Hcf
    by (intros A f Hff; unfold check_full; destruct (_ && _); [apply Hff|done]).
  rewrite (Hcf _ dicPos), (Hcf _ (fun q => length (dic q))), (Hcf _ prop) by done.
  split; [|split_and!; (done || lia)]. split; [done|]. split; [apply aligned_check_full; (done || lia)|].
  unfold settled_at. by rewrite (Hcf _ LzmaDec.coder).
Qed.

(** ** One turn of LzmaDec_DecodeToDic *)

(** The next symbol is complete in the stream. *)
Lemma symbol_runs p pos cs q :
  before p pos cs q -> remainLen q = 0 -> dicPos q < total_len ->
  exists x c c1, run inp (decode_real q) (LzmaDec.coder q) = Some (x, c) /\ NORMALIZE inp c = Some c1 /\
    LzmaParse.buf c1 <= Z.of_nat (length inp).
Proof using All.
  intros Hb Hrem Hlt. destruct (real_turn_replays p pos cs q total_len Hb Hrem Hlt ltac:(lia)) as (p1 & pos1 & cs1 & q1 & Et & (Hf1 & _ & Hs1) & _).
  unfold real_turn in Et. destruct (run inp (decode_real q) (LzmaDec.coder q)) as [[x c]|]; [|done]. cbn [mbind option_bind] in Et.
  apply exec_sym_coder in Et. change (LzmaDec.coder (set_coder c q)) with c in Et.
  destruct (sync_settles p1 q1 Hs1) as (c1 & En & _ & Hd). rewrite Et in En. exists x, c, c1. split; [done|]. split; [done|].
  destruct Hd as (_ & _ & Eb). cbn in Eb. destruct (future_back p1 pos1 cs1 Hf1) as (_ & _ & Hl & _). lia.
Qed.

(** [q] is to decode from [s] on. *)
Definition from (s : Z) (q : CLzmaDec) : CLzmaDec := set_coder (LzmaParse.set_buf s (LzmaDec.coder q)) q.

Record able (s : Z) (q : CLzmaDec) : Prop := {
  ab_pre : sym_pre q;
  ab_rc : rc_ok (nprobs q) (LzmaDec.coder q);
  ab_norm : normalized (LzmaDec.coder q);
  ab_s : 0 <= s <= Z.of_nat (length inp);
  ab_base : base q;
  ab_limit : dicPos q <= total_len <= dicBufSize q;
  ab_remain : remainLen q = 0
}.

Lemma turn_src_replays p pos cs q s :
  ahead p pos cs (from s q) -> able s q -> dicPos q < total_len ->
  exists p1 pos1 cs1 q1, turn_src q total_len inp s false = Some (inl (q1, LzmaParse.buf (LzmaDec.coder q1))) /\
    ahead p1 pos1 cs1 q1 /\ dicPos q < dicPos q1 <= total_len /\ prop q1 = prop q /\ length (dic q1) = length (dic q).
Proof using All.
  intros Ha [Hp Hrc Hn Hs Hbase Hlim Hrem] Hlt. pose proof (base_dicSize _ Hbase) as [_ Hds].
  assert (checkDicSize q = 0 -> processedPos q < dicSize (prop q)) as Hck by (intros E; pose proof (base_window _ Hbase) as Hw; unfold window_ok in Hw; rewrite E in Hw; apply Hw).
  pose proof (ahead_before _ _ _ _ Ha) as Hb. unfold turn_src. change LZMA_REQUIRED_INPUT_MAX with 20.
  set (inSize := Z.of_nat (length inp) - s). replace (s + inSize) with (Z.of_nat (length inp)) by (unfold inSize; lia).
  assert (forall p1 pos1 cs1 q1, ahead p1 pos1 cs1 q1 -> LzmaParse.buf (LzmaDec.coder q1) <= Z.of_nat (length inp)) as Hbuf.
  { intros p1 pos1 cs1 q1 (Hf1 & _ & _ & Hd). destruct Hd as (_ & _ & ->). destruct (future_back p1 pos1 cs1 Hf1) as (_ & _ & Hl & _). lia. }
  destruct ((inSize <? 20) || false) eqn:Hsz.
  - destruct (symbol_runs p pos cs (from s q) Hb Hrem Hlt) as (x & c & c1 & Hrun & Hnc & Hc1).
    change (decode_real (from s q)) with (decode_real q) in Hrun. change (LzmaDec.coder (from s q)) with (LzmaParse.set_buf s (LzmaDec.coder q)) in Hrun.
    destruct (TryDummy_complete inp q s x c c1) as (-> & Hx & Hl & Hready & Hbc & Hb20); try done. opt.
    replace (is_eof (kind x)) with false by (by destruct x). destruct (Z.ltb_spec 20 (LzmaParse.buf c1 - s)); [lia|]. cbn [andb]. opt.
    fold (from s q). destruct (Real2_replays p pos cs (from s q) s Hb Hrem Hlt Hds Hck) as (p1 & pos1 & cs1 & q1 & E2 & Ha1 & Hd1 & Hp1 & Hl1).
    rewrite E2. opt.
    assert (turn_pre total_len q) as Htp by (by constructor).
    destruct (DecodeReal2_single inp total_len q s s x c (LzmaParse.buf c1) Htp) as (q2 & E3 & Hpost); try done; try lia; try (by right).
    fold (from s q) in E3. rewrite E2 in E3. injection E3 as <- _. pose proof (r2_buf _ _ _ _ Hpost) as Eb. rewrite Eb.
    destruct (Z.ltb_spec (LzmaParse.buf c1 - s) 0); [lia|]. rewrite Z.eqb_refl. cbn [negb not_ok].
    exists p1, pos1, cs1, q1. replace (s + (LzmaParse.buf c1 - s)) with (LzmaParse.buf (LzmaDec.coder q1)) by lia.
    exact (conj eq_refl (conj Ha1 (conj Hd1 (conj Hp1 Hl1)))).
  - opt. fold (from s q). destruct (Real2_replays p pos cs (from s q) (Z.of_nat (length inp) - 20) Hb Hrem Hlt Hds Hck) as (p1 & pos1 & cs1 & q1 & E2 & Ha1 & Hd1 & Hp1 & Hl1).
    rewrite E2. opt. cbn [Z.ltb Z.compare]. specialize (Hbuf _ _ _ _ Ha1).
    destruct (Z.ltb_spec inSize (LzmaParse.buf (LzmaDec.coder q1) - s)); [unfold inSize in *; lia|]. cbn [not_ok].
    exists p1, pos1, cs1, q1. replace (s + (LzmaParse.buf (LzmaDec.coder q1) - s)) with (LzmaParse.buf (LzmaDec.coder q1)) by lia.
    exact (conj eq_refl (conj Ha1 (conj Hd1 (conj Hp1 Hl1)))).
Qed.

(** ** The end of the stream *)

(** The stream ends with the digits of that number. *)
Hypothesis inp_total : be_val inp = total (rc cz).
Hypothesis inp_length : Z.of_nat (length inp) = shifts (rc cz) + 5.

Lemma final_code c : dmatch inp (rc cz) c -> code c = 0 /\ LzmaParse.buf c = Z.of_nat (length inp).
Proof using All.
  intros (_ & -> & ->). unfold val. rewrite take_ge by lia. lia.
Qed.

Section AtEnd.
Context (p : CLzmaEnc) (q : CLzmaDec) (s : Z).
Hypothesis Hahead : ahead p total_len [] (from s q).
Hypothesis Hable : able s q.

Lemma end_same : cod pz = cod p /\ writeEndMark pz = writeEndMark p /\ end_of win pz = end_of win p /\ esz pz = esz p.
Proof using All. destruct (future_end p _ _ (proj1 Hahead) ltac:(lia)) as (_ & _ & n & f & r & ->). done. Qed.

Lemma end_without_mark : writeEndMark pz = false -> code (LzmaDec.coder q) = 0 /\ s = Z.of_nat (length inp).
Proof using All.
  intros Hm. destruct end_same as (Ec & _ & _ & _). pose proof cz_encode as E. unfold end_of in E. rewrite Hm in E. injection E as E.
  destruct Hahead as (_ & _ & _ & Hd). rewrite <-Ec, E in Hd. exact (final_code _ Hd).
Qed.

Hypothesis Hmark : writeEndMark pz = true.

Lemma end_step : step p (end_of win p) (set_cod cz p).
Proof using All.
  destruct pz_back as (_ & _ & Hv & Hc). destruct end_same as (Ec & _ & Ee & Es). pose proof cz_encode as E.
  rewrite Ee, Es in Hv. rewrite Ec, Ee, Es in Hc. rewrite Ec, Ee in E. exists 5. by split; [lia|].
Qed.

Lemma end_code : code (LzmaDec.coder q) <> 0.
Proof using All.
  pose proof (re_wf _ _ _ _ _ _ (proj1 (proj1 Hahead))) as Hwf. pose proof end_step as Hst. destruct end_same as (_ & Em & _).
  unfold end_of in Hst. rewrite <-Em, Hmark in Hst. unfold end_mark_reqs in Hst. destruct Hahead as (_ & _ & Ha & Hd).
  destruct (step_bit p _ true _ _ _ Hwf Hst cz_ok cz_compat Ha Hd) as (x & _ & _ & _ & Eb & Hb & Hcode & _).
  rewrite Eb in Hcode. apply Z.ltb_ge in Hcode. change (code (LzmaDec.coder (from s q))) with (code (LzmaDec.coder q)) in Hcode. lia.
Qed.

Lemma turn_src_end : dicPos q = total_len ->
  exists q1, turn_src q total_len inp s true = Some (inl (q1, Z.of_nat (length inp))) /\ remainLen q1 = kMatchSpecLenStart /\
    code (LzmaDec.coder q1) = 0 /\ dic q1 = dic q /\ dicPos q1 = dicPos q.
Proof using All.
  intros Hpos. destruct Hable as [Hp Hrc Hn Hs Hbase Hlim Hrem]. pose proof (proj1 Hahead) as Hf. pose proof (re_wf _ _ _ _ _ _ (proj1 Hf)) as Hwf.
  pose proof (ahead_before _ _ _ _ Hahead) as (_ & Hal & Hsy).
  pose proof (aligned_linked p total_len (from s q) Hal Hrem) as Hlk.
  assert (follow idx (decode_real (from s q)) (end_of win p) = Some (SymEnd (state p))) as Hfol.
  { unfold end_of. destruct end_same as (_ & <- & _). rewrite Hmark. apply end_mark_follow; [done|done|unfold in_width; lia]. }
  destruct (run_step p _ (set_cod cz p) (from s q) _ _ Hwf end_step cz_ok cz_compat Hsy Hfol) as (c & Hrun & Hsc).
  destruct Hsc as [_ (c1 & Hnc & Hd & _)]. destruct (final_code c1 Hd) as [Hcode Hb1].
  assert (run inp (decode_real q) (LzmaParse.set_buf s (LzmaDec.coder q)) = Some (SymEnd (state p), c)) as Hrun' by exact Hrun.
  unfold turn_src. rewrite orb_true_r. set (inSize := Z.of_nat (length inp) - s). replace (s + inSize) with (Z.of_nat (length inp)) by (unfold inSize; lia).
  destruct (TryDummy_complete inp q s (SymEnd (state p)) c c1) as (-> & Hx & Hl & Hready & Hbc & Hb20); try done; [lia|]. opt. cbn [kind is_eof is_match].
  change LZMA_REQUIRED_INPUT_MAX with 20. destruct (Z.ltb_spec 20 (LzmaParse.buf c1 - s)); [lia|]. cbn [andb negb]. opt. fold (from s q).
  rewrite DecodeReal2_eq. unfold LzmaDec_DecodeReal_3. cbn [loop]. unfold real_turn at 1.
  change (decode_real (set_remain 0 (from s q))) with (decode_real (from s q)). change (LzmaDec.coder (set_remain 0 (from s q))) with (LzmaDec.coder (from s q)).
  rewrite Hrun. cbn [mbind option_bind exec_sym andb]. cbn [LzmaDec.coder set_remain LzmaDec.set_state set_coder]. rewrite Hnc. cbn [mbind option_bind].
  match goal with |- context [check_full ?y] => set (q2 := y) end.
  assert (LzmaDec.coder (check_full q2) = c1 /\ remainLen (check_full q2) = kMatchSpecLenStart /\ dic (check_full q2) = dic q /\ dicPos (check_full q2) = dicPos q)
    as (E1 & E2 & E3 & E4) by (unfold check_full; by destruct (_ && _)).
  exists (check_full q2). rewrite E1. destruct (Z.ltb_spec (LzmaParse.buf c1 - s) 0); [lia|]. rewrite Z.eqb_refl. cbn [negb].
  assert ((kMatchSpecLen_Error_Data <=? remainLen q2) = false) as -> by done. cbn [not_ok].
  replace (s + (LzmaParse.buf c1 - s)) with (Z.of_nat (length inp)) by lia. by split_and!.
Qed.
End AtEnd.

(** ** LzmaDec_DecodeToDic *)

Lemma from_same q : from (LzmaParse.buf (LzmaDec.coder q)) q = q.
Proof using Type. destruct q as [? [] ? ? ? ? ? ? ? ? ? ? ? ?]. done. Qed.

(** The stream is being decoded, or its end mark was read. *)
Definition tracked (q : CLzmaDec) (s : Z) : Prop :=
  base q /\ running q /\ dicPos q <= total_len <= dicBufSize q /\ 0 <= s <= Z.of_nat (length inp) /\
  ((exists p pos cs, ahead p pos cs (from s q)) \/
   remainLen q = kMatchSpecLenStart /\ code (LzmaDec.coder q) = 0 /\ s = Z.of_nat (length inp) /\ writeEndMark pz = true /\
     dicPos q = total_len /\ prefix_of win (dic q) total_len).

(** The whole stream was decoded. *)
Definition finished (o : outcome) : Prop :=
  let '(q, n, r, st) := o in
  n = Z.of_nat (length inp) /\ r = SZ_OK /\ dicPos q = total_len /\ prefix_of win (dic q) total_len /\
  st = if writeEndMark pz then LZMA_STATUS_FINISHED_WITH_MARK else LZMA_STATUS_MAYBE_FINISHED_WITHOUT_MARK.

(** After LzmaDec_WriteRem. *)
Lemma tracked_able q s p pos cs :
  base q -> running q -> dicPos q <= total_len <= dicBufSize q -> 0 <= s <= Z.of_nat (length inp) -> ahead p pos cs (from s q) ->
  exists q1, LzmaDec_WriteRem q total_len = Some q1 /\ ahead p pos cs (from s q1) /\ able s q1 /\ tempBufSize q1 = 0.
Proof using All.
  intros Hb Hr Hlim Hs (Hf & Hal & Hset). pose proof (base_dicSize _ Hb) as [_ Hds]. pose proof Hr as [Hp Hrc Hn Hrem _ _].
  assert (pos <= total_len) as Hpos by (destruct (Z.lt_ge_cases pos total_len); [lia|]; destruct (future_end p pos cs Hf); lia).
  assert (aligned p pos q) as Hal' by (destruct Hal; by constructor).
  destruct (WriteRem_replays p pos q Hal' Hpos Hds) as (q1 & E & Hal1 & Hrem1 & Hc1 & _). exists q1. split; [done|].
  pose proof (al_remain _ _ _ Hal').
  destruct (LzmaDec_WriteRem_ok q total_len) as (q1' & E' & Ha & Hp1 & Hwin1 & _ & _ & Hd1); [done|apply Hb|apply Hb|lia|by change kMatchSpecLenStart with 274; lia|].
  assert (q1' = q1) as -> by congruence.
  split; [split; [done|]; split; [by apply aligned_coder|by unfold settled_at, from in *; rewrite Hc1]|].
  split; [|by destruct Hal1]. constructor; rewrite ?Hc1; try done.
  - unfold nprobs. by rewrite (adv_prop _ _ Ha).
  - destruct Hb. constructor; unfold nprobs in *; rewrite ?Hc1, ?(adv_prop _ _ Ha), ?(adv_temp _ _ Ha), ?(adv_tempSize _ _ Ha); done.
  - unfold dicBufSize in *. rewrite (adv_size _ _ Ha). lia.
Qed.

(** The data end at the limit: unless there is an end mark, both ways to finish stop there. *)
Context (mode : ELzmaFinishMode) (mode_ok : writeEndMark pz = true -> mode = LZMA_FINISH_END).

Lemma dic_turn_replays q s : tracked q s ->
  exists r, dic_turn total_len inp mode (q, s) = Some r /\
    match r with
    | inl (q', s') => tracked q' s' /\ (turn_measure total_len q' < turn_measure total_len q)%nat
    | inr o => finished o
    end.
Proof using All.
  intros (Hb & Hr & Hlim & Hs & Hcase).
  destruct (dic_turn_ok total_len inp mode q s inp_bytes Hb Hr Hlim Hs) as (r & E & Hok). exists r. split; [done|].
  destruct Hcase as [(p & pos & cs & Ha)|(Hrem & Hcode & -> & Hmark & Hpos & Hpre)].
  2:{ revert E. unfold dic_turn. rewrite Hrem, Z.eqb_refl, Hcode. cbn [Z.eqb negb]. intros [= <-]. unfold finished. by rewrite Hmark. }
  assert (forall q1 s1, r = inl (q1, s1) -> (exists p pos cs, ahead p pos cs (from s1 q1)) \/
     remainLen q1 = kMatchSpecLenStart /\ code (LzmaDec.coder q1) = 0 /\ s1 = Z.of_nat (length inp) /\ writeEndMark pz = true /\
     dicPos q1 = total_len /\ prefix_of win (dic q1) total_len ->
     tracked q1 s1 /\ (turn_measure total_len q1 < turn_measure total_len q)%nat) as Hnext.
  { intros q1 s1 -> H. destruct Hok as (H1 & H2 & H3 & H4 & H5 & H6). split; [|done]. split; [done|]. split; [done|].
    split; [unfold dicBufSize in *; rewrite (gr_size _ _ H3); lia|]. split; [lia|done]. }
  destruct (tracked_able q s p pos cs Hb Hr Hlim Hs Ha) as (q1 & Ew & Ha1 & Hable & Ht).
  pose proof (proj1 (proj2 Ha)) as Hal. pose proof (al_remain _ _ _ Hal) as Hrem. cbn in Hrem.
  pose proof (proj1 (proj2 Ha1)) as Hal1. pose proof (al_pos _ _ _ Hal1) as Epos. cbn in Epos. pose proof (ab_remain _ _ Hable) as Hrem1.
  revert E. unfold dic_turn. change kMatchSpecLenStart with 274 in *. destruct (Z.eqb_spec (remainLen q) 274); [lia|]. rewrite Ew. opt.
  rewrite Hrem1, Ht. cbn [Z.eqb negb]. rewrite andb_true_r, !andb_false_r.
  pose proof (ab_limit _ _ Hable) as Hlim1. destruct (Z.leb_spec total_len (dicPos q1)) as [Hge|Hlt]; cbn [andb].
  - assert (pos = total_len) as -> by lia. destruct (future_end p total_len cs (proj1 Ha1)) as (_ & -> & _); [lia|].
    destruct (writeEndMark pz) eqn:Hmark.
    + pose proof (end_code p q1 s Ha1 Hable Hmark) as Hcode. destruct (Z.eqb_spec (code (LzmaDec.coder q1)) 0); [done|].
      rewrite (mode_ok eq_refl).
      destruct (turn_src_end p q1 s Ha1 Hable Hmark ltac:(lia)) as (q2 & -> & R1 & R2 & R3 & R4). intros [= <-]. apply (Hnext _ _ eq_refl).
      right. rewrite R3, R4. split_and!; try done; [lia|]. pose proof (al_dic _ _ _ Hal1) as H. cbn in H. by replace total_len with (dicPos q1) by lia.
    + destruct (end_without_mark p q1 s Ha1 Hable Hmark) as [-> ->]. cbn [Z.eqb]. intros [= <-]. unfold finished. rewrite Hmark.
      split_and!; try done; [lia|]. pose proof (al_dic _ _ _ Hal1) as H. cbn in H. by replace total_len with (dicPos q1) by lia.
  - destruct (turn_src_replays p pos cs q1 s Ha1 Hable Hlt) as (p2 & pos2 & cs2 & q2 & -> & Ha2 & _). intros [= <-].
    apply (Hnext _ _ eq_refl). left. exists p2, pos2, cs2. by rewrite from_same.
Qed.

Lemma loop_replays q s fuel : tracked q s -> (turn_measure total_len q < fuel)%nat ->
  exists o, loop fuel (dic_turn total_len inp mode) (q, s) = Some o /\ finished o.
Proof using All.
  intros Hq Hf. apply (loop_total (fun '(q, s) => tracked q s) (fun '(q, _) => turn_measure total_len q)); [|done|done].
  intros [q' s'] H. destruct (dic_turn_replays q' s' H) as (r & -> & Hr). destruct r as [[q2 s2]|o]; [|done]. exact Hr.
Qed.
End Replay.
