(* ===== verification/LzmaStart.v ===== *)
(** * LZMA: the decoder at the start of an encoding

    LzmaDec_DecodeToDic of a new decoder reads the first five bytes of the stream and
    initialises its probabilities, which puts it in step with the encoder that has coded
    nothing yet; from there on it replays the encoding (LzmaReplay.v). *)

From stdpp Require Import base numbers list list_numbers.
From Stdlib Require Import ZArith Lia.
From S2P Require Import Prelude.
From S2P Require Import SzTypes.
From S2P Require Import LzmaParse.
From S2P Require Import LzmaDec.
From S2P Require Import LzmaDecSym.
From S2P Require Import LzmaDecSafe.
From S2P Require Import RangeEnc.
From S2P Require Import LzmaEnc.
From S2P Require Import RangeCoder.
From S2P Require Import LzmaCodec.
From S2P Require Import LzmaDist.
From S2P Require Import LzmaSymbols.
From S2P Require Import LzmaFollow.
From S2P Require Import LzmaRun.
From S2P Require Import LzmaReplay.
Local Open Scope Z_scope.
Local Open Scope word_scope.

(** ** The first five bytes *)

Lemma fill_init_full src p :
  length (tempBuf p) = 20%nat -> tempBufSize p = 0 -> 5 <= Z.of_nat (length src) ->
  exists l, fill_init src p = Some (set_temp 5 l p, 5) /\ length l = 20%nat /\ forall i, 0 <= i < 5 -> rd l i = rd src i.
Proof.
  intros Hl0 Ht Hsrc. unfold fill_init. change RC_INIT_SIZE with 5.
  while_inv (fun '(q, s) => exists l, q = set_temp s l p /\ length l = 20%nat /\ 0 <= s <= 5 /\ forall i, 0 <= i < s -> rd l i = rd src i)
    (fun '(_, s) => Z.to_nat (5 - s)).
  - exists (tempBuf p). split_and!; try done; try lia. destruct p. cbn in *. by subst.
  - lia.
  - intros [q s] (l & -> & Hl & Hs & Hi) Hc. cbn [tempBufSize tempBuf set_temp] in *.
    apply andb_true_iff in Hc as [_ Hc%Z.ltb_lt]. destruct (rd_Some src s) as [b Hr]; [lia|]. rewrite Hr. opt.
    rewrite wrz_Some by lia. opt. eexists. split; [done|]. split; [|lia]. eexists. split; [reflexivity|].
    split; [by rewrite length_insert|]. split; [lia|]. intros i Hlt. destruct (Z.eq_dec i s) as [->|Hne].
    + by rewrite rd_insert_eq by lia.
    + rewrite rd_insert_ne by lia. apply Hi. lia.
  - intros [q s] (l & -> & Hl & Hs & Hi) Hc. cbn [tempBufSize set_temp] in *. exists l.
    apply andb_false_iff in Hc as [Hc%Z.ltb_ge|Hc%Z.ltb_ge]; assert (s = 5) as -> by lia; done.
Qed.

(** The five bytes are the digits of a number. *)
Lemma first_digits src :
  bytes src -> 5 <= Z.of_nat (length src) -> val src 0 < 2 ^ 32 ->
  exists t1 t2 t3 t4, rd src 0 = Some 0 /\ rd src 1 = Some t1 /\ rd src 2 = Some t2 /\ rd src 3 = Some t3 /\ rd src 4 = Some t4 /\
    (t1 <<< 24) ||| (t2 <<< 16) ||| (t3 <<< 8) ||| t4 = val src 0.
Proof.
  intros Hb Hl Hv. destruct src as [|t0 [|t1 [|t2 [|t3 [|t4 src]]]]]; try (cbn in Hl; lia).
  assert (val (t0 :: t1 :: t2 :: t3 :: t4 :: src) 0 = (((t0 * 256 + t1) * 256 + t2) * 256 + t3) * 256 + t4) as Ev by done.
  rewrite Ev in *. do 5 (apply Forall_cons_1 in Hb as [? Hb]). unfold in_width in *. change (2 ^ 8) with 256 in *.
  assert (t0 = 0) as -> by lia. exists t1, t2, t3, t4. do 5 (split; [done|]).
  transitivity (t4 ||| (t3 <<< 8) ||| (t2 <<< 16) ||| (t1 <<< 24)).
  { rewrite (Z.lor_comm _ t4), (Z.lor_comm _ (t3 <<< 8)), (Z.lor_comm (t1 <<< 24)). by rewrite !Z.lor_assoc. }
  rewrite (lor_shiftl_add 8), (lor_shiftl_add 16), (lor_shiftl_add 24) by lia. lia.
Qed.

(** ** The probabilities *)

Lemma init_probs_value p :
  0 <= nprobs p <= Z.of_nat (length (probs (LzmaDec.coder p))) ->
  exists l, LzmaDec.init_probs p = Some l /\ forall i, 0 <= i < nprobs p -> rd l i = Some kProbInitValue.
Proof.
  intros Hlen. unfold LzmaDec.init_probs. set (n := nprobs p) in *.
  while_inv (fun '(i, l) => 0 <= i <= n /\ length l = length (probs (LzmaDec.coder p)) /\ forall k, 0 <= k < i -> rd l k = Some kProbInitValue)
    (fun '(i, _) => Z.to_nat (n - i)).
  - split_and!; [lia|lia|done|lia].
  - lia.
  - intros [i l] (Hi & Hl & Hk) Hc. apply Z.ltb_lt in Hc. rewrite wrz_Some by lia. opt.
    eexists. split; [done|]. split; [|lia]. split; [lia|]. split; [by rewrite length_insert|].
    intros k Hki. destruct (Z.eq_dec k i) as [->|Hne].
    + by rewrite rd_insert_eq by lia.
    + rewrite rd_insert_ne by lia. apply Hk. lia.
  - intros [i l] (Hi & Hl & Hk) Hc. apply Z.ltb_ge in Hc. exists l. split; [done|]. intros k Hk'. apply Hk. lia.
Qed.

(** Every probability of the encoder is one of the decoder's. *)
Lemma idx_bound k q : 0 <= k -> valid (arr_size k) q -> 0 <= idx q < 1984 + 768 * 2 ^ k.
Proof.
  destruct q as [a i]. unfold valid, idx. cbn [fst snd]. intros Hk Hi. destruct (node_ok k a i i Hk Hi) as [[I1 I2] _].
  assert (0 <= start a) by (destruct a; vm_compute; discriminate).
  destruct (decide (a = litProbs)) as [->|Ha].
  - change (start litProbs) with 1984. cbn [node arr_size] in *. rewrite Z.shiftl_mul_pow2 in Hi by lia. lia.
  - specialize (I2 Ha). pose proof (Z.pow_pos_nonneg 2 k).
    assert (start a + span a <= 1984) by (destruct a; vm_compute; done || discriminate). lia.
Qed.

Lemma AllocAndInit_probs e q x : load (mem (cod (LzmaEnc_AllocAndInit e))) q = Some x -> x = kProbInitValue.
Proof.
  destruct q as [a i]. unfold load. change (mem (cod (LzmaEnc_AllocAndInit e))) with (LzmaEnc.init_probs (lp e + lc e) (mem (cod e))).
  cbn [fst snd]. rewrite init_probs_at. intros Hx. pose proof (rd_range _ _ _ Hx). rewrite rd_lookup in Hx by lia.
  by apply lookup_replicate in Hx as [-> _].
Qed.

Lemma initial_agree e n l :
  0 <= lclp e -> (forall a, Z.of_nat (length (mem (cod (LzmaEnc_AllocAndInit e)) a)) = arr_size (lclp e) a) ->
  n = 1984 + 768 * 2 ^ (lclp e) -> (forall i, 0 <= i < n -> rd l i = Some kProbInitValue) ->
  agree idx (mem (cod (LzmaEnc_AllocAndInit e))) l.
Proof.
  intros Hk Hsz -> Hl q x Hx. pose proof (AllocAndInit_probs e q x Hx) as ->. apply Hl, idx_bound; [done|].
  pose proof (rd_range _ _ _ Hx) as Hr. rewrite Hsz in Hr. exact Hr.
Qed.

(** ** The first code *)

Section Start.
Context (win : list Z) (d : Z) (inp : list Z) (win_bytes : bytes win) (win_size : Z.of_nat (length win) < 2 ^ 32) (inp_bytes : bytes inp).
Context (pz : CLzmaEnc) (cz : RangeEnc.coder).
Hypothesis pz_ready : ready_enc win d 69 pz (Z.of_nat (length win)) [].
Hypothesis cz_encode : encode (end_of win pz) (cod pz) = Some cz.
Hypothesis cz_ok : res (rc cz) = SZ_OK.
Hypothesis cz_compat : compat inp (rc cz).
Hypothesis inp_total : be_val inp = total (rc cz).
Hypothesis inp_length : Z.of_nat (length inp) = shifts (rc cz) + 5.

Context (e : CLzmaEnc) (cs : list choice).
Hypothesis nothing_written : written (outStream (rc (cod e))) = [].
Let p0 := LzmaEnc_AllocAndInit e.
Hypothesis p0_future : future win d pz p0 0 cs.

Lemma start_number : range (rc (cod p0)) = 2 ^ 32 - 1 /\ total (rc (cod p0)) = 0 /\ shifts (rc (cod p0)) = 0.
Proof using nothing_written.
  unfold total, digits, shifts, out, p0, LzmaEnc_AllocAndInit. cbn. by rewrite nothing_written.
Qed.

Lemma start_compat : 5 <= Z.of_nat (length inp) /\ 0 <= val inp 0 < 2 ^ 32 - 1.
Proof using All.
  destruct (future_back win d inp win_bytes win_size inp_bytes pz cz pz_ready cz_encode cz_ok cz_compat p0 0 cs p0_future) as (_ & H0 & H1 & H2).
  destruct start_number as (Er & Et & Es). rewrite Es in H1, H2. rewrite Er, Et in H2. lia.
Qed.

(** No stream starts with a match: the code is small. *)
Lemma start_code l :
  agree idx (mem (cod p0)) l -> (forall x q, load (mem (cod p0)) q = Some x -> x = 1024) ->
  (forall i x, rd l i = Some x -> 0 <= i < 1984 -> x = 1024) ->
  val inp 0 < kBadRepCode.
Proof using All.
  intros Ha Hinit Hl. destruct start_number as (Er & Et & Es). destruct start_compat as [Hlen Hval].
  set (dc := {| LzmaParse.probs := l; LzmaParse.range := 2 ^ 32 - 1; LzmaParse.code := val inp 0; LzmaParse.buf := 5 |}).
  assert (dmatch inp (rc (cod p0)) dc) as Hd by (unfold dmatch; rewrite Er, Et, Es; cbn; split_and!; (done || lia)).
  assert (forall x, load (mem (cod p0)) (row16 isMatch 0 0) = Some x -> bound_of dc x = kBound0) as Hbound
    by (intros x Hx; by rewrite (Hinit _ _ Hx)).
  pose proof (re_wf _ _ _ _ _ _ (proj1 p0_future)) as Hwf.
  destruct (Z.lt_ge_cases 0 (Z.of_nat (length win))) as [Hpos|Hnil].
  - destruct (future_step win d win_bytes win_size pz p0 0 cs p0_future Hpos) as (p1 & pos1 & cs1 & rs & Hf1 & Hst & [(_ & _ & _ & cur & _ & _ & -> & _)|(c & _ & ? & _)]); [|lia].
    destruct (future_back win d inp win_bytes win_size inp_bytes pz cz pz_ready cz_encode cz_ok cz_compat p1 pos1 cs1 Hf1) as [Hok1 Hcp1].
    destruct (step_bit win inp win_size inp_bytes p0 _ _ _ _ dc Hwf Hst Hok1 Hcp1 Ha Hd) as (x & _ & _ & Hx & _ & _ & Hb & _).
    rewrite (Hbound x Hx) in Hb. apply Z.ltb_lt in Hb. change (code dc) with (val inp 0) in Hb. assert (kBound0 <= kBadRepCode) by (vm_compute; discriminate). lia.
  - destruct (future_end win d win_bytes win_size pz p0 0 cs p0_future ltac:(lia)) as (E0 & -> & n & f & r & Epz).
    destruct (writeEndMark p0) eqn:Hmark.
    + assert (step p0 (end_of win p0) (set_cod cz p0)) as Hst.
      { destruct (pz_back win d inp inp_bytes pz cz pz_ready cz_encode cz_ok cz_compat) as (_ & _ & Hv & Hc). pose proof cz_encode as E.
        rewrite Epz in Hv, Hc, E. exists 5. by split; [lia|]. }
      unfold end_of in Hst. rewrite Hmark in Hst. unfold end_mark_reqs in Hst. rewrite <-E0 in Hst. change (pos_state p0 0) with 0 in Hst. change (state p0) with 0 in Hst.
      destruct (step_bit win inp win_size inp_bytes p0 _ true _ _ dc Hwf Hst cz_ok cz_compat Ha Hd) as (x & c1 & d1 & Hx & _ & _ & Hb & Eu & Hs & Hst1).
      rewrite (Hbound x Hx) in Hb, Eu. apply Z.ltb_ge in Hb. change (code dc) with (val inp 0) in Hb.
      unfold UPDATE_1 in Eu. rewrite wrz_Some in Eu by exact (rd_range _ _ _ (Ha _ _ Hx)). cbn [mbind option_bind] in Eu. injection Eu as Eu.
      change (code dc) with (val inp 0) in Eu. change (LzmaParse.range dc) with (2 ^ 32 - 1) in Eu.
      rewrite !wrap_small in Eu by (unfold in_width; change kBound0 with 2147482624 in *; lia).
      destruct Hs as [Ha1 (d2 & En & Hd1 & Ep1)].
      assert (d2 = d1) as ->.
      { unfold NORMALIZE in En. assert (LzmaParse.range d1 = 2 ^ 32 - 1 - kBound0) as E by by rewrite <-Eu. rewrite E in En. by injection En. }
      assert (enc_wf (set_cod c1 p0)) as Hwf1 by (destruct Hwf; by constructor).
      destruct (step_bit win inp win_size inp_bytes (set_cod c1 p0) _ false _ _ d1 Hwf1 Hst1 cz_ok cz_compat Ha1 Hd1) as (y & _ & _ & Hy & _ & _ & Hb1 & _).
      assert (y = 1024) as ->.
      { pose proof (Ha1 _ _ Hy) as Hr. rewrite <-Eu in Hr. cbn [probs LzmaParse.set_range set_probs] in Hr.
        rewrite rd_insert_ne in Hr by (vm_compute; discriminate).
        apply (Hl _ _ Hr). by vm_compute. }
      assert (bound_of d1 1024 = ((2 ^ 32 - 1 - kBound0) >>> 11) * 1024) as Ebd by by rewrite <-Eu.
      cbn [negb] in Hb1. rewrite Ebd in Hb1. apply Z.ltb_lt in Hb1.
      assert (code d1 = val inp 0 - kBound0) as Ec by by rewrite <-Eu. rewrite Ec in Hb1.
      assert (kBadRepCode = kBound0 + ((2 ^ 32 - 1 - kBound0) >>> 11) * 1024) as -> by by vm_compute. lia.
    + assert (cz = cod p0) as E.
      { pose proof cz_encode as E. unfold end_of in E. rewrite Epz in E. change (writeEndMark (set_meta n f r p0)) with (writeEndMark p0) in E. rewrite Hmark in E. by injection E. }
      assert (dmatch inp (rc cz) dc) as Hdz by by rewrite E.
      destruct (final_code win d inp win_bytes win_size inp_bytes pz cz pz_ready cz_encode cz_ok cz_compat inp_total inp_length dc Hdz) as [Hc0 _].
      change (code dc) with (val inp 0) in Hc0. rewrite Hc0. by vm_compute.
Qed.

(** ** LzmaDec_DecodeToDic *)

(** A decoder to which nothing was given yet, with room for the data. *)
Record fresh (q : CLzmaDec) : Prop := {
  fr_wf : wf q;
  fr_remain : remainLen q = kMatchSpecLenStart + 2;
  fr_temp : tempBufSize q = 0;
  fr_pos : dicPos q = 0;
  fr_processed : processedPos q = 0;
  fr_check : checkDicSize q = 0;
  fr_lc : LzmaDec.lc (prop q) = lc e;
  fr_lp : LzmaDec.lp (prop q) = lp e;
  fr_pb : LzmaDec.pb (prop q) = pb e;
  fr_dict : d <= dicSize (prop q);
  fr_size : Z.of_nat (length win) <= dicBufSize q
}.

Lemma start_stream_tracked q :
  fresh q -> exists q1, start_stream q inp = Some (inr (q1, 5)) /\ dicPos q1 = 0 /\ tracked win d inp pz q1 5.
Proof using All.
  intros [Hw Hrem Htemp Hpos Hproc Hchk Elc Elp Epb Hdict Hsize]. destruct start_compat as [Hlen Hval]. destruct start_number as (Er & Et & Es).
  pose proof (re_wf _ _ _ _ _ _ (proj1 p0_future)) as Hwf. destruct (ew_props _ Hwf) as (Hlc & Hlp & _).
  destruct (start_stream_ok (dicPos q) inp LZMA_FINISH_END q inp_bytes Hw) as (r & Er0 & Hr); [rewrite Hrem; by change kMatchSpecLenStart with 274; lia|lia|].
  pose proof (wf_base _ Hw) as Hb. destruct (fill_init_full inp q) as (l & Hfill & Hll & Hl); [apply Hb|done|lia|].
  destruct (first_digits inp inp_bytes Hlen ltac:(lia)) as (t1 & t2 & t3 & t4 & R0 & R1 & R2 & R3 & R4 & Ecode).
  assert (nprobs q = 1984 + 768 * 2 ^ (lclp e)) as Hn.
  { rewrite num_probs by apply (wf_props _ Hw). rewrite Elc, Elp. unfold lclp. by rewrite Z.add_comm with (n := lc e). }
  pose proof (Z.pow_pos_nonneg 2 (lclp e) ltac:(lia) ltac:(unfold lclp; change (lc p0) with (lc e) in Hlc; change (lp p0) with (lp e) in Hlp; lia)) as Hpow.
  set (q2 := set_temp 0 l (set_coder (LzmaParse.set_range 0xFFFFFFFF (val inp 0) (LzmaDec.coder q)) q)).
  destruct (init_probs_value q2) as (pl & Epl & Hpl); [change (nprobs q2) with (nprobs q); pose proof (base_probs _ Hb) as Hbp; change (probs (LzmaDec.coder q2)) with (probs (LzmaDec.coder q)); lia|].
  change (nprobs q2) with (nprobs q) in Hpl. rewrite Hn in Hpl.
  assert (agree idx (mem (cod p0)) pl) as Ha.
  { apply (initial_agree e _ pl) in Hpl; [done| | |done]; [unfold lclp; change (lc p0) with (lc e) in Hlc; change (lp p0) with (lp e) in Hlp; lia|].
    intros a. apply (eo_size _ _ _ (re_ok _ _ _ _ _ _ (proj1 p0_future))). }
  assert (val inp 0 < kBadRepCode) as Hcode.
  { apply (start_code pl Ha).
    - intros x p Hx. by rewrite (AllocAndInit_probs e p x Hx).
    - intros i x Hx Hi. rewrite Hpl in Hx by lia. by injection Hx. }
  set (q1 := set_remain 0 (LzmaDec.set_state 0 1 1 1 1 (set_coder (set_probs pl (LzmaDec.coder q2)) q2))).
  assert (start_stream q inp = Some (inr (q1, 5))) as E1.
  { unfold start_stream. rewrite Hrem. change kMatchSpecLenStart with 274. destruct (Z.ltb_spec (274 + 2) (274 + 2)); [lia|].
    rewrite Hfill. opt. cbn [tempBuf set_temp]. rewrite !Hl by lia. rewrite R0, R1, R2, R3, R4. opt. cbn [tempBufSize set_temp].
    change (5 =? 0) with false. cbn [negb andb]. change RC_INIT_SIZE with 5. change (5 <? 5) with false. cbv zeta iota. rewrite Ecode.
    destruct (Z.leb_spec kBadRepCode (val inp 0)); [lia|]. rewrite andb_false_r. cbn [remainLen set_temp set_coder]. rewrite Hrem. change (kMatchSpecLenStart) with 274.
    destruct (Z.ltb_spec (274 + 1) (274 + 2)); [|lia]. match goal with |- context [LzmaDec.init_probs ?x] => change x with q2 end. rewrite Epl. opt. reflexivity. }
  exists q1. split; [done|]. split; [done|]. rewrite E1 in Er0. injection Er0 as <-. destruct Hr as (H1 & H2 & H3 & H4 & H5).
  split; [done|]. split; [done|]. split; [split; [rewrite H4; lia|exact Hsize]|]. split; [lia|]. left. exists p0, 0, cs.
  split; [done|]. split.
  - pose proof (wf_size _ Hw) as Hsz. unfold dicBufSize in *. constructor; try done; unfold dicBufSize; cbn; try lia; try (by left).
    rewrite Hpos. split; [lia|]. intros i Hi. lia.
  - split; [done|]. unfold dmatch. rewrite Er, Et, Es. split; [done|]. split; [|done].
    change (val inp 0 = val inp 0 - 0). lia.
Qed.

Lemma DecodeToDic_replays mode q :
  (writeEndMark pz = true -> mode = LZMA_FINISH_END) -> fresh q ->
  exists o, LzmaDec_DecodeToDic q (Z.of_nat (length win)) inp mode = Some o /\ finished win inp pz o.
Proof using All.
  intros Hmode Hq. destruct (start_stream_tracked q Hq) as (q1 & E & Hpos & Htr). unfold LzmaDec_DecodeToDic. rewrite (fr_remain q Hq).
  change kMatchSpecLenStart with 274. change (274 <? 274 + 2) with true. cbv iota. rewrite E. opt.
  apply (loop_replays win d inp win_bytes win_size inp_bytes pz cz pz_ready cz_encode cz_ok cz_compat inp_total inp_length mode Hmode); [done|].
  rewrite Hpos. unfold turn_measure. rewrite Hpos. destruct (remainLen q1 =? 0); lia.
Qed.
End Start.
