(* ===== verification/LzmaRoundtrip.v ===== *)
(** * LZMA: what LzmaEnc.c encodes, LzmaDec.c decodes

    For every valid choice of literals, matches and repeats, the stream that
    LzmaEnc_MemEncode writes is decoded by LzmaDecode to the data. *)

From stdpp Require Import base numbers list list_numbers.
From Stdlib Require Import ZArith Lia.
From S2P Require Import Prelude.
From S2P Require Import SzTypes.
From S2P Require Import LzmaParse.
From S2P Require Import LzmaDec.
From S2P Require Import LzmaDecSym.
From S2P Require Import LzmaDecSafe.
From S2P Require Import LzmaApi.
From S2P Require Import RangeEnc.
From S2P Require Import LzmaEnc.
From S2P Require Import LzmaEncMem.
From S2P Require Import RangeCoder.
From S2P Require Import LzmaCodec.
From S2P Require Import LzmaDist.
From S2P Require Import LzmaSymbols.
From S2P Require Import LzmaFollow.
From S2P Require Import LzmaRun.

From S2P Require Import LzmaReplay.
From S2P Require Import LzmaStart.
Local Open Scope Z_scope.
Local Open Scope word_scope.

(** ** A finished stream *)

Section Stream.
Context (win : list Z) (d : Z) (win_bytes : bytes win) (win_size : Z.of_nat (length win) < 2 ^ 32).

Lemma encoded_decodes e cs p' :
  written (outStream (rc (cod e))) = [] -> ready_enc win d 69 (LzmaEnc_AllocAndInit e) 0 cs -> encoded win d (LzmaEnc_AllocAndInit e) 0 cs p' ->
  let inp := written (outStream (rc (cod p'))) in
  bytes inp /\ 5 <= Z.of_nat (length inp) /\
  forall mode q, (writeEndMark e = true -> mode = LZMA_FINISH_END) -> fresh win d e q -> exists q', LzmaDec_DecodeToDic q (Z.of_nat (length win)) inp mode =
    Some (q', Z.of_nat (length inp), SZ_OK,
          if writeEndMark e then LZMA_STATUS_FINISHED_WITH_MARK else LZMA_STATUS_MAYBE_FINISHED_WITHOUT_MARK) /\
    dicPos q' = Z.of_nat (length win) /\ prefix_of win (dic q') (Z.of_nat (length win)).
Proof using win_bytes win_size.
  intros Hnil Hr (p1 & Hcd & Hr1 & (cz & Ez & Hcz & Hv & (fl & _) & Hclosed) & Hok & _ & _ & _ & _ & Em).
  set (inp := written (outStream (rc (cod p')))) in *. destruct (Hclosed Hok) as (Hokz & Htot & Hlen & Hbytes).
  pose proof (re_ok _ _ _ _ _ _ Hr1) as Hc1. pose proof (re_wf _ _ _ _ _ _ Hr1) as Hwf1.
  assert (future win d p1 (LzmaEnc_AllocAndInit e) 0 cs) as Hf by done.
  assert (enc_ok (arr_size (lclp p1)) (5 + Z.of_nat (length (end_of win p1))) (cod p1)) as Hc1'.
  { apply (enc_ok_le _ _ _ _ Hc1). pose proof (end_of_length win p1 Hwf1). cbn [length]. destruct (_ =? 0); lia. }
  destruct (encode_ok _ (end_of win p1) 5 (cod p1) Hc1' ltac:(lia) Hv) as (c' & E & _ & He). assert (c' = cz) as -> by congruence. clear E.
  destruct (He Hokz) as (Hok1 & Hb1 & _).
  destruct (future_bytes win d win_bytes win_size p1 _ _ _ Hf Hok1) as [_ Hb0].
  assert (bytes inp) as Hinp.
  { apply Hbytes, Hb1, Hb0. unfold out, LzmaEnc_AllocAndInit. cbn. rewrite Hnil. apply Forall_nil_2. }
  pose proof (inv_size _ _ _ (eo_inv _ _ _ Hcz)) as [Hcs _]. pose proof (eo_range _ _ _ Hcz) as Hrange.
  assert (compat inp (rc cz)) as Hcompat.
  { assert (0 <= shifts (rc cz)) by (unfold shifts; lia). split; [done|]. split; [lia|]. unfold val.
    rewrite take_ge by lia. lia. }
  split; [done|]. split; [unfold shifts in Hlen; lia|]. intros mode q Hmode Hq.
  assert (writeEndMark p1 = true -> mode = LZMA_FINISH_END) as Hmode' by (rewrite Em; exact Hmode).
  destruct (DecodeToDic_replays win d inp win_bytes win_size Hinp p1 cz Hr1 Ez Hokz Hcompat Htot Hlen e cs Hnil Hf mode q Hmode' Hq) as ([[[q' n] r] st] & E & Hfin).
  exists q'. rewrite E. destruct Hfin as (-> & -> & Hp & Hpre & ->). by rewrite Em.
Qed.
End Stream.

(** ** LzmaDecode *)

(** The properties the encoder writes for its fields and its dictionary size. *)
Definition enc_props (e : CLzmaEnc) (dictSize : Z) : CLzmaProps :=
  {| LzmaDec.lc := lc e; LzmaDec.lp := lp e; LzmaDec.pb := pb e; dicSize := dictSize |}.

Lemma LzmaDecode_encoded A raw dest win d e cs p' data v mode :
  (writeEndMark e = true -> mode = LZMA_FINISH_END) ->
  alloc_laws A -> alloc_probs A (LzmaProps_GetNumProbs (enc_props e v)) <> None -> raw_ok raw -> bytes dest -> length dest = length win ->
  bytes win -> 1 <= Z.of_nat (length win) < 2 ^ 32 ->
  LzmaProps_Decode data = Some (SZ_OK, Some (enc_props e v)) -> bytes data -> d <= v ->
  written (outStream (rc (cod e))) = [] -> ready_enc win d 69 (LzmaEnc_AllocAndInit e) 0 cs -> encoded win d (LzmaEnc_AllocAndInit e) 0 cs p' ->
  let inp := written (outStream (rc (cod p'))) in
  LzmaDecode A raw dest inp data mode = Some (win, Z.of_nat (length win), Z.of_nat (length inp), SZ_OK,
    if writeEndMark e then LZMA_STATUS_FINISHED_WITH_MARK else LZMA_STATUS_MAYBE_FINISHED_WITHOUT_MARK).
Proof.
  intros Hmode HA Hmem Hraw Hdest Hlen Hwin Hsize Hdata Hb Hv Hnil Hr Henc. cbv zeta.
  destruct (encoded_decodes win d Hwin ltac:(lia) e cs p' Hnil Hr Henc) as (Hinp & H5 & Hdec).
  unfold LzmaDecode. change RC_INIT_SIZE with 5. destruct (Z.ltb_spec (Z.of_nat (length (written (outStream (rc (cod p')))))) 5); [lia|].
  destruct (LzmaProps_Decode_ok data Hb) as (res & o & Eo & Ho). assert (o = Some (enc_props e v)) as -> by congruence. destruct Ho as [-> Hq].
  unfold LzmaDec_AllocateProbs. rewrite Hdata. opt.
  destruct (AllocateProbs2_ok A (enc_props e v) (LzmaDec_Free raw) HA Hq) as (p1 & r & E & Hd1 & Hq1 & Hr1 & Hres).
  assert (r = SZ_OK) as ->.
  { unfold LzmaDec_AllocateProbs2 in E. cbn [LzmaDec_Free LzmaDec_FreeDict set_dic_buf LzmaDec.coder set_dic LzmaDec_FreeProbs set_coder probs set_probs is_null orb] in E.
    destruct (alloc_probs A _) eqn:El; [by injection E as <- <-|done]. }
  rewrite E. cbn [not_ok mbind option_bind]. set (p := set_dic_buf dest (set_prop (enc_props e v) p1)).
  assert (raw_ok p1) as Hraw1 by (apply Hr1; destruct Hraw; by constructor).
  assert (wf (LzmaDec_Init p)) as Hwf.
  { apply Init_wf; try done; [by destruct Hraw1|unfold dicBufSize; cbn; lia]. }
  destruct (Hdec mode (LzmaDec_Init p) Hmode) as (q' & E' & Hpos & Hpre); [by constructor; try done; unfold dicBufSize; cbn; lia|].
  rewrite Hlen, E'. opt. replace (dic q') with win.
  2:{ symmetry. apply prefix_full; [done|]. destruct (DecodeToDic_ok (LzmaDec_Init p) (Z.of_nat (length win)) (written (outStream (rc (cod p')))) mode Hwf)
      as (o & Eo2 & H1); [unfold dicBufSize; cbn; lia|done|]. rewrite E' in Eo2. injection Eo2 as <-. destruct H1 as (_ & Hg & _).
      pose proof (gr_size _ _ Hg) as Hs. cbn in Hs. lia. }
  rewrite Hpos. by destruct (writeEndMark e).
Qed.

(** ** LzmaEnc_MemEncode *)

(** The encoder as LzmaEnc_MemEncode prepares it. *)
Definition mem_prepare (e : CLzmaEnc) (destLen : Z) (endMark : bool) : CLzmaEnc :=
  let e := set_endMark endMark e in set_cod (set_rc (set_outStream (outStreamBuf destLen) (rc (cod e))) (cod e)) e.

Record enc_ready (e : CLzmaEnc) : Prop := {
  er_props : 0 <= lc e <= 8 /\ 0 <= lp e <= 4 /\ 0 <= pb e <= 4;
  er_slots : g_FastPos e = LzmaEnc_FastPosInit
}.

Lemma MemEncode_run e destLen src endMark cs d :
  enc_ready e -> bytes src -> Z.of_nat (length src) < 2 ^ 32 -> 0 <= destLen ->
  plan_valid src d (LzmaEnc_AllocAndInit e) cs = true ->
  let e1 := mem_prepare e destLen endMark in
  exists p', LzmaEnc_MemEncode e destLen src endMark cs =
      Some (if not_ok (res (rc (cod p'))) then SZ_ERROR_OUTPUT_EOF else SZ_OK, written (outStream (rc (cod p')))) /\
    Z.of_nat (length (written (outStream (rc (cod p'))))) <= destLen /\
    ready_enc src d 69 (LzmaEnc_AllocAndInit e1) 0 cs /\
    (res (rc (cod p')) = SZ_OK -> encoded src d (LzmaEnc_AllocAndInit e1) 0 cs p').
Proof.
  intros [Hprops Hslots] Hb Hsize Hdl Hplan e1. assert (plan_valid src d (LzmaEnc_AllocAndInit e1) cs = true) as Hplan'.
  { revert Hplan. unfold plan_valid. destruct (_ =? 0); [done|]. by rewrite (valid_ext src d cs _ (LzmaEnc_AllocAndInit e1)). }
  destruct (Encode_ok src d Hb Hsize e1 cs false Hprops Hslots Hplan') as (r & p' & E & Henc & Hend).
  destruct (MemEncode_in_buffer destLen (LzmaEnc_AllocAndInit e1) src cs false) with (a := (r, p')) as (_ & Hlen & Hov); [done|done|]. cbn [snd] in *.
  exists p'. split; [|split; [done|]].
  - unfold LzmaEnc_MemEncode. change (set_cod _ _) with e1. rewrite E. opt. rewrite Hov.
    destruct (res (rc (cod p'))) eqn:Hres; cbn [not_ok]; try done.
    destruct (Hend eq_refl eq_refl) as [-> Hn]. rewrite Hn, Z.eqb_refl. by cbn.
  - split; [by apply Init_ready|]. intros Hres. destruct (Hend eq_refl Hres) as [-> _]. by apply Henc.
Qed.

(** C19: LzmaEnc_MemEncode always returns, for data of less than 2^32 bytes, empty data
    included, and whatever choices it is given as long as they are a parse of the data, and never writes past the buffer; the result is SZ_OK, or
    SZ_ERROR_OUTPUT_EOF when the buffer is too small. *)
Theorem LzmaEnc_MemEncode_total (e : CLzmaEnc) (destLen d : Z) (src : list Z) (endMark : bool) (cs : list choice)
    (He : enc_ready e) (Hsrc : bytes src) (Hsize : Z.of_nat (length src) < 2 ^ 32) (Hdest : 0 <= destLen)
    (Hplan : plan_valid src d (LzmaEnc_AllocAndInit e) cs = true) :
  exists r stream, LzmaEnc_MemEncode e destLen src endMark cs = Some (r, stream) /\
    Z.of_nat (length stream) <= destLen /\ (r = SZ_OK \/ r = SZ_ERROR_OUTPUT_EOF) /\ (r = SZ_OK -> 5 <= Z.of_nat (length stream)).
Proof.
  destruct (MemEncode_run e destLen src endMark cs d He Hsrc Hsize Hdest Hplan) as (p' & E & Hlen & Hr & Henc).
  eexists _, _. split; [exact E|]. split; [done|]. destruct (res (rc (cod p'))); cbn [not_ok]; (split; [auto|]); try done.
  intros _. by destruct (encoded_decodes src d Hsrc Hsize (mem_prepare e destLen endMark) cs p' eq_refl Hr (Henc eq_refl)) as (_ & ? & _).
Qed.

(** C2: What LzmaEnc_MemEncode encodes with SZ_OK, LzmaDecode decodes to exactly the data,
    given the properties LzmaEnc_WriteProperties writes: it takes the whole stream, returns
    SZ_OK and reports the end mark if and only if one was asked for.  This holds for any
    data of 1 to 2^32 - 1 bytes and any valid parse of it into literals, matches and repeats;
    empty data and data of 4 GiB and more are not covered. *)
Theorem LzmaEnc_LzmaDecode_roundtrip (A : allocator) (raw : CLzmaDec) (e : CLzmaEnc) (dictSize destLen : Z)
    (src dest stream : list Z) (endMark : bool) (cs : list choice)
    (HA : alloc_laws A) (Hmem : alloc_probs A (LzmaProps_GetNumProbs (enc_props e dictSize)) <> None) (Hraw : raw_ok raw)
    (Hdest : bytes dest) (Hlen : length dest = length src) (He : enc_ready e) (Hdict : 0 <= dictSize < 2 ^ 32)
    (Hsrc : bytes src) (Hsize : 1 <= Z.of_nat (length src) < 2 ^ 32) (Hdl : 0 <= destLen)
    (Hplan : plan_valid src dictSize (LzmaEnc_AllocAndInit e) cs = true)
    (Henc : LzmaEnc_MemEncode e destLen src endMark cs = Some (SZ_OK, stream)) :
  exists props, LzmaEnc_WriteProperties (enc_props e dictSize) LZMA_PROPS_SIZE = Some (SZ_OK, props) /\
    LzmaDecode A raw dest stream props LZMA_FINISH_END = Some (src, Z.of_nat (length src), Z.of_nat (length stream), SZ_OK,
      if endMark then LZMA_STATUS_FINISHED_WITH_MARK else LZMA_STATUS_MAYBE_FINISHED_WITHOUT_MARK).
Proof.
  destruct (MemEncode_run e destLen src endMark cs dictSize He Hsrc (proj2 Hsize) Hdl Hplan) as (p' & E & _ & Hr & Hp).
  rewrite E in Henc. injection Henc as Hok <-. assert (res (rc (cod p')) = SZ_OK) as Hres by by destruct (res (rc (cod p'))).
  destruct (er_props _ He) as (Hlc & Hlp & Hpb).
  destruct (WriteProperties_decodes (enc_props e dictSize) LZMA_PROPS_SIZE Hlc Hlp Hpb Hdict ltac:(done)) as (data & v & Ew & _ & Hb & Hd & Hv & _).
  exists data. split; [done|].
  exact (LzmaDecode_encoded A raw dest src dictSize (mem_prepare e destLen endMark) cs p' data v LZMA_FINISH_END (fun _ => eq_refl) HA Hmem Hraw Hdest Hlen Hsrc Hsize Hd Hb (proj1 Hv) eq_refl Hr (Hp Hres)).
Qed.

(** A literal, two more, and a match that overlaps itself, as xz encodes them. *)
Definition example_encoder : CLzmaEnc :=
  {| state := 0; reps0 := 1; reps1 := 1; reps2 := 1; reps3 := 1; lpMask := 0; pbMask := 0;
     cod := {| rc := {| range := 0; cache := 0; low := 0; cacheSize := 0; RangeEnc.buf := []; bufSize := RC_BUF_SIZE;
                        outStream := outStreamBuf 0; processed := 0; res := SZ_OK |};
               mem := fun _ => [] |};
     lc := 3; lp := 0; pb := 2; writeEndMark := false; LzmaEnc.finished := false; matchPriceCount := 0; repLenEncCounter := 0;
     g_FastPos := LzmaEnc_FastPosInit; result := SZ_OK; nowPos64 := 0 |}.

Definition example_src : list Z := [97; 98; 99; 97; 98; 99; 97; 98].
Definition example_plan : list choice :=
  [ {| ch_len := 1; ch_dist := MARK_LIT; ch_last := false |}; {| ch_len := 1; ch_dist := MARK_LIT; ch_last := false |};
    {| ch_len := 5; ch_dist := 6; ch_last := true |} ].
Definition example_stream : list Z := [0; 48; 152; 136; 165; 132; 50; 129; 163; 255; 255; 97; 100; 0; 0].

Lemma example_ready : enc_ready example_encoder.
Proof. constructor; [cbn; lia|reflexivity]. Qed.

Lemma LzmaEnc_MemEncode_total_witness :
  exists r stream, LzmaEnc_MemEncode example_encoder 4 example_src true example_plan = Some (r, stream) /\ Z.of_nat (length stream) <= 4.
Proof.
  destruct (LzmaEnc_MemEncode_total example_encoder 4 4096 example_src true example_plan example_ready
    ltac:(byte_list) ltac:(cbn; lia) ltac:(lia) ltac:(vm_compute; reflexivity)) as (r & stream & H1 & H2 & _).
  exists r, stream. split; [exact H1|exact H2].
Defined.

Lemma LzmaEnc_LzmaDecode_roundtrip_witness :
  exists props, LzmaEnc_WriteProperties (enc_props example_encoder 4096) LZMA_PROPS_SIZE = Some (SZ_OK, props) /\
    LzmaDecode zero_alloc example_start [0; 0; 0; 0; 0; 0; 0; 0] example_stream props LZMA_FINISH_END =
      Some (example_src, 8, 15, SZ_OK, LZMA_STATUS_FINISHED_WITH_MARK).
Proof.
  destruct (LzmaEnc_LzmaDecode_roundtrip zero_alloc example_start example_encoder 4096 100 example_src [0; 0; 0; 0; 0; 0; 0; 0]
    example_stream true example_plan zero_alloc_laws ltac:(discriminate) (wf_raw _ example_start_wf) ltac:(byte_list) ltac:(reflexivity) example_ready
    ltac:(lia) ltac:(byte_list) ltac:(cbn; lia) ltac:(lia) ltac:(vm_compute; reflexivity) ltac:(vm_compute; reflexivity)) as (props & H1 & H2).
  exists props. split; [exact H1|exact H2].
Defined.
