(* ===== verification/MatchFinder.v ===== *)
(** * Match finders

    The interface IMatchFinder2 of LzFind.h between the LZMA encoder and its match finder,
    and what the encoder relies on: the pairs of length and distance are matches in the
    data, with increasing lengths. *)

From stdpp Require Import base numbers list list_numbers.
From Stdlib Require Import ZArith Lia.
From S2P Require Import Prelude.
Local Open Scope Z_scope.

(** The methods of the vtable; a pointer into the data is its index. *)
Class IMatchFinder2 (M : Type) := {
  mf_GetNumAvailableBytes : M -> Z;
  mf_GetPointerToCurrentPos : M -> Z;
  mf_GetMatches : M -> list Z -> option (list Z * M);
  mf_Skip : M -> Z -> option M
}.

(** The [len] bytes at [cur] are those [dist] back. *)
Definition match_at (l : list Z) (cur len dist : Z) : Prop :=
  1 <= dist <= cur /\ cur + len <= Z.of_nat (length l) /\ forall i, 0 <= i < len -> rd l (cur + i) = rd l (cur + i - dist).

(** Pairs of a length and a distance less one, with matches of increasing length; [m] is
    the last length, 1 without a match. *)
Inductive matches_ok (l : list Z) (cur lim hist : Z) : Z -> list Z -> Prop :=
  | matches_nil : matches_ok l cur lim hist 1 []
  | matches_snoc m d len dist :
      matches_ok l cur lim hist m d -> m < len <= lim -> 0 <= dist < hist -> match_at l cur len (dist + 1) ->
      matches_ok l cur lim hist len (d ++ [len; dist]).

(** [lim] is the longest match it reports, [hist] the farthest. *)
Class MatchFinderLaws (M : Type) `{IMatchFinder2 M} := {
  mf_ok : list Z -> Z -> Z -> M -> Prop;
  mf_position l lim hist m :
    mf_ok l lim hist m ->
    0 <= mf_GetPointerToCurrentPos m <= Z.of_nat (length l) /\
    mf_GetNumAvailableBytes m = Z.of_nat (length l) - mf_GetPointerToCurrentPos m;
  mf_GetMatches_ok l lim hist m :
    mf_ok l lim hist m -> mf_GetPointerToCurrentPos m < Z.of_nat (length l) ->
    exists n d m', mf_GetMatches m [] = Some (d, m') /\ mf_ok l lim hist m' /\
      mf_GetPointerToCurrentPos m' = mf_GetPointerToCurrentPos m + 1 /\
      matches_ok l (mf_GetPointerToCurrentPos m) lim hist n d;
  mf_Skip_ok l lim hist m num :
    mf_ok l lim hist m -> 1 <= num <= Z.of_nat (length l) - mf_GetPointerToCurrentPos m ->
    exists m', mf_Skip m num = Some m' /\ mf_ok l lim hist m' /\
      mf_GetPointerToCurrentPos m' = mf_GetPointerToCurrentPos m + num
}.

Lemma matches_len l cur lim hist m d : matches_ok l cur lim hist m d -> 1 <= m.
Proof. induction 1; lia. Qed.

Lemma match_at_le l cur len len' dist : match_at l cur len dist -> len' <= len -> match_at l cur len' dist.
Proof. intros (H1 & H2 & H3) Hl. split; [done|]. split; [lia|]. intros i Hi. apply H3. lia. Qed.

Lemma match_at_byte l cur len dist i :
  match_at l cur len dist -> 0 <= i < len -> exists b, rd l (cur + i) = Some b /\ rd l (cur + i - dist) = Some b.
Proof.
  intros (H1 & H2 & H3) Hi. destruct (rd_Some l (cur + i)) as [b Hb]; [lia|]. exists b. split; [done|]. by rewrite <-H3.
Qed.

Lemma match_at_extend l cur len dist b :
  match_at l cur len dist -> 0 <= len -> rd l (cur + len) = Some b -> rd l (cur + len - dist) = Some b -> match_at l cur (len + 1) dist.
Proof.
  intros (H1 & H2 & H3) Hl E1 E2. split; [done|]. split; [apply rd_range in E1; lia|].
  intros i Hi. destruct (Z.eq_dec i len) as [->|]; [congruence|]. apply H3. lia.
Qed.

(** ** The length of a match *)

(** [for (; len != lim; len++) if (data[b + len] != data[a + len]) break;] *)
Definition extend (l : list Z) (a b len lim : Z) : option Z :=
  loop (S (Z.to_nat (lim - len)))
    (fun len =>
       if len =? lim then Some (inr len)
       else x ← rd l (a + len); y ← rd l (b + len);
            Some (if x =? y then inl (len + 1) else inr len)) len.

Lemma extend_ok l cur dist len lim :
  match_at l cur len dist -> 0 <= len <= lim -> cur + lim <= Z.of_nat (length l) ->
  exists r, extend l cur (cur - dist) len lim = Some r /\ len <= r <= lim /\ match_at l cur r dist.
Proof.
  intros Hm Hl Hc. unfold extend.
  apply (loop_total (fun n => len <= n <= lim /\ match_at l cur n dist) (fun n => Z.to_nat (lim - n))); [|split; [lia|done]|lia].
  intros n [Hn Hmn]. destruct (Z.eqb_spec n lim) as [->|]; [done|]. pose proof Hmn as ([? ?] & ? & ?).
  destruct (rd_Some l (cur + n)) as [x Ex]; [lia|]. destruct (rd_Some l (cur + n - dist)) as [y Ey]; [lia|].
  rewrite Ex. cbn. replace (cur - dist + n) with (cur + n - dist) by lia. rewrite Ey. cbn.
  destruct (Z.eqb_spec x y) as [->|]; [|done]. split; [|lia]. split; [lia|]. apply (match_at_extend _ _ _ _ y); [done|lia|done..].
Qed.

(** Where the match ends before [lim], the bytes differ. *)
Lemma extend_max l cur dist len lim :
  match_at l cur len dist -> 0 <= len <= lim -> cur + lim <= Z.of_nat (length l) ->
  exists r, extend l cur (cur - dist) len lim = Some r /\ len <= r <= lim /\ match_at l cur r dist /\
    (r = lim \/ exists x y, rd l (cur - dist + r) = Some x /\ rd l (cur + r) = Some y /\ x <> y).
Proof.
  intros Hm Hl Hc. unfold extend.
  apply (loop_total (fun n => len <= n <= lim /\ match_at l cur n dist) (fun n => Z.to_nat (lim - n))); [|split; [lia|done]|lia].
  intros n [Hn Hmn]. destruct (Z.eqb_spec n lim) as [->|]; [tauto|]. pose proof Hmn as ([? ?] & ? & ?).
  destruct (rd_Some l (cur + n)) as [x Ex]; [lia|]. destruct (rd_Some l (cur - dist + n)) as [y Ey]; [lia|].
  rewrite Ex. cbn. rewrite Ey. cbn. destruct (Z.eqb_spec x y) as [->|].
  - split; [|lia]. split; [lia|]. apply (match_at_extend _ _ _ _ y); [done|lia|done|]. by replace (cur + n - dist) with (cur - dist + n) by lia.
  - split; [lia|]. split; [done|]. right. exists y, x. split; [done|]. by split; [|congruence].
Qed.
