(* ===== verification/LzFind.v ===== *)
(** * LZ match finder

    src/native/sevenzip_bridge/7z2604-src/C/LzFind.c for data in memory
    ([directInput = 1]): the window with its limits, the hash heads, hash chains
    (Hc4, Hc5, Hc3Zip) and binary trees (Bt2 .. Bt5, Bt3Zip), GetMatches and Skip.
    A pointer into the data is its index, [cur]; the references stored in [hash] and
    [son] are values of [pos], 0 for none. *)

From stdpp Require Import base numbers list list_numbers.
From Stdlib Require Import ZArith Lia.
From S2P Require Import Prelude MatchFinder.
Local Open Scope Z_scope.
Local Open Scope word_scope.

Definition kEmptyHashValue : Z := 0.
Definition kMaxValForNormalize : Z := 0.
Definition kHash2Size : Z := 1 <<< 10.
Definition kHash3Size : Z := 1 <<< 16.
Definition kFix3HashSize : Z := kHash2Size.
Definition kFix4HashSize : Z := kHash2Size + kHash3Size.
Definition kFix5HashSize : Z := kFix4HashSize.
Definition kLzHash_CrcShift_1 : Z := 5.
Definition kLzHash_CrcShift_2 : Z := 10.

(** The fields that are used for data in memory; [data] is what [buffer] points into,
    [hash_addr] the address of [hash] in references ([son] follows [hash]). *)
Record CMatchFinder := {
  data : list Z; buffer : Z;
  pos : Z; posLimit : Z; streamPos : Z; lenLimit : Z; cyclicBufferPos : Z; cyclicBufferSize : Z;
  streamEndWasReached : bool; btMode : bool; matchMaxLen : Z;
  hash : list Z; son : list Z; hashMask : Z; cutValue : Z;
  keepSizeBefore : Z; keepSizeAfter : Z; numHashBytes : Z; numHashBytes_Min : Z; numHashOutBits : Z;
  directInputRem : Z; historySize : Z; fixedHashSize : Z; numRefs : Z; expectedDataSize : Z; crc : list Z;
  hash_addr : Z
}.

Definition set_window (b n c : Z) (p : CMatchFinder) : CMatchFinder :=
  {| data := data p; buffer := b; pos := n; posLimit := posLimit p; streamPos := streamPos p; lenLimit := lenLimit p;
     cyclicBufferPos := c; cyclicBufferSize := cyclicBufferSize p; streamEndWasReached := streamEndWasReached p;
     btMode := btMode p; matchMaxLen := matchMaxLen p; hash := hash p; son := son p; hashMask := hashMask p;
     cutValue := cutValue p; keepSizeBefore := keepSizeBefore p; keepSizeAfter := keepSizeAfter p;
     numHashBytes := numHashBytes p; numHashBytes_Min := numHashBytes_Min p; numHashOutBits := numHashOutBits p;
     directInputRem := directInputRem p; historySize := historySize p; fixedHashSize := fixedHashSize p;
     numRefs := numRefs p; expectedDataSize := expectedDataSize p; crc := crc p; hash_addr := hash_addr p |}.
Definition set_limits (lim len : Z) (p : CMatchFinder) : CMatchFinder :=
  {| data := data p; buffer := buffer p; pos := pos p; posLimit := lim; streamPos := streamPos p; lenLimit := len;
     cyclicBufferPos := cyclicBufferPos p; cyclicBufferSize := cyclicBufferSize p;
     streamEndWasReached := streamEndWasReached p; btMode := btMode p; matchMaxLen := matchMaxLen p; hash := hash p;
     son := son p; hashMask := hashMask p; cutValue := cutValue p; keepSizeBefore := keepSizeBefore p;
     keepSizeAfter := keepSizeAfter p; numHashBytes := numHashBytes p; numHashBytes_Min := numHashBytes_Min p;
     numHashOutBits := numHashOutBits p; directInputRem := directInputRem p; historySize := historySize p;
     fixedHashSize := fixedHashSize p; numRefs := numRefs p; expectedDataSize := expectedDataSize p; crc := crc p;
     hash_addr := hash_addr p |}.
Definition set_stream (n rem : Z) (e : bool) (p : CMatchFinder) : CMatchFinder :=
  {| data := data p; buffer := buffer p; pos := pos p; posLimit := posLimit p; streamPos := n;
     lenLimit := lenLimit p; cyclicBufferPos := cyclicBufferPos p; cyclicBufferSize := cyclicBufferSize p;
     streamEndWasReached := e; btMode := btMode p; matchMaxLen := matchMaxLen p; hash := hash p; son := son p;
     hashMask := hashMask p; cutValue := cutValue p; keepSizeBefore := keepSizeBefore p;
     keepSizeAfter := keepSizeAfter p; numHashBytes := numHashBytes p; numHashBytes_Min := numHashBytes_Min p;
     numHashOutBits := numHashOutBits p; directInputRem := rem; historySize := historySize p;
     fixedHashSize := fixedHashSize p; numRefs := numRefs p; expectedDataSize := expectedDataSize p; crc := crc p;
     hash_addr := hash_addr p |}.
Definition set_refs (h s : list Z) (p : CMatchFinder) : CMatchFinder :=
  {| data := data p; buffer := buffer p; pos := pos p; posLimit := posLimit p; streamPos := streamPos p;
     lenLimit := lenLimit p; cyclicBufferPos := cyclicBufferPos p; cyclicBufferSize := cyclicBufferSize p;
     streamEndWasReached := streamEndWasReached p; btMode := btMode p; matchMaxLen := matchMaxLen p; hash := h;
     son := s; hashMask := hashMask p; cutValue := cutValue p; keepSizeBefore := keepSizeBefore p;
     keepSizeAfter := keepSizeAfter p; numHashBytes := numHashBytes p; numHashBytes_Min := numHashBytes_Min p;
     numHashOutBits := numHashOutBits p; directInputRem := directInputRem p; historySize := historySize p;
     fixedHashSize := fixedHashSize p; numRefs := numRefs p; expectedDataSize := expectedDataSize p; crc := crc p;
     hash_addr := hash_addr p |}.
Definition set_keep (before after : Z) (p : CMatchFinder) : CMatchFinder :=
  {| data := data p; buffer := buffer p; pos := pos p; posLimit := posLimit p; streamPos := streamPos p;
     lenLimit := lenLimit p; cyclicBufferPos := cyclicBufferPos p; cyclicBufferSize := cyclicBufferSize p;
     streamEndWasReached := streamEndWasReached p; btMode := btMode p; matchMaxLen := matchMaxLen p; hash := hash p;
     son := son p; hashMask := hashMask p; cutValue := cutValue p; keepSizeBefore := before; keepSizeAfter := after;
     numHashBytes := numHashBytes p; numHashBytes_Min := numHashBytes_Min p; numHashOutBits := numHashOutBits p;
     directInputRem := directInputRem p; historySize := historySize p; fixedHashSize := fixedHashSize p;
     numRefs := numRefs p; expectedDataSize := expectedDataSize p; crc := crc p; hash_addr := hash_addr p |}.
Definition set_hash_sizes (mask fixed : Z) (p : CMatchFinder) : CMatchFinder :=
  {| data := data p; buffer := buffer p; pos := pos p; posLimit := posLimit p; streamPos := streamPos p;
     lenLimit := lenLimit p; cyclicBufferPos := cyclicBufferPos p; cyclicBufferSize := cyclicBufferSize p;
     streamEndWasReached := streamEndWasReached p; btMode := btMode p; matchMaxLen := matchMaxLen p; hash := hash p;
     son := son p; hashMask := mask; cutValue := cutValue p; keepSizeBefore := keepSizeBefore p;
     keepSizeAfter := keepSizeAfter p; numHashBytes := numHashBytes p; numHashBytes_Min := numHashBytes_Min p;
     numHashOutBits := numHashOutBits p; directInputRem := directInputRem p; historySize := historySize p;
     fixedHashSize := fixed; numRefs := numRefs p; expectedDataSize := expectedDataSize p; crc := crc p;
     hash_addr := hash_addr p |}.
Definition set_history (len size cyc : Z) (p : CMatchFinder) : CMatchFinder :=
  {| data := data p; buffer := buffer p; pos := pos p; posLimit := posLimit p; streamPos := streamPos p;
     lenLimit := lenLimit p; cyclicBufferPos := cyclicBufferPos p; cyclicBufferSize := cyc;
     streamEndWasReached := streamEndWasReached p; btMode := btMode p; matchMaxLen := len; hash := hash p;
     son := son p; hashMask := hashMask p; cutValue := cutValue p; keepSizeBefore := keepSizeBefore p;
     keepSizeAfter := keepSizeAfter p; numHashBytes := numHashBytes p; numHashBytes_Min := numHashBytes_Min p;
     numHashOutBits := numHashOutBits p; directInputRem := directInputRem p; historySize := size;
     fixedHashSize := fixedHashSize p; numRefs := numRefs p; expectedDataSize := expectedDataSize p; crc := crc p;
     hash_addr := hash_addr p |}.
Definition set_block (n addr : Z) (p : CMatchFinder) : CMatchFinder :=
  {| data := data p; buffer := buffer p; pos := pos p; posLimit := posLimit p; streamPos := streamPos p;
     lenLimit := lenLimit p; cyclicBufferPos := cyclicBufferPos p; cyclicBufferSize := cyclicBufferSize p;
     streamEndWasReached := streamEndWasReached p; btMode := btMode p; matchMaxLen := matchMaxLen p; hash := hash p;
     son := son p; hashMask := hashMask p; cutValue := cutValue p; keepSizeBefore := keepSizeBefore p;
     keepSizeAfter := keepSizeAfter p; numHashBytes := numHashBytes p; numHashBytes_Min := numHashBytes_Min p;
     numHashOutBits := numHashOutBits p; directInputRem := directInputRem p; historySize := historySize p;
     fixedHashSize := fixedHashSize p; numRefs := n; expectedDataSize := expectedDataSize p; crc := crc p;
     hash_addr := addr |}.
Definition set_settings (bt : bool) (n nmin nout cut : Z) (p : CMatchFinder) : CMatchFinder :=
  {| data := data p; buffer := buffer p; pos := pos p; posLimit := posLimit p; streamPos := streamPos p;
     lenLimit := lenLimit p; cyclicBufferPos := cyclicBufferPos p; cyclicBufferSize := cyclicBufferSize p;
     streamEndWasReached := streamEndWasReached p; btMode := bt; matchMaxLen := matchMaxLen p; hash := hash p;
     son := son p; hashMask := hashMask p; cutValue := cut; keepSizeBefore := keepSizeBefore p;
     keepSizeAfter := keepSizeAfter p; numHashBytes := n; numHashBytes_Min := nmin; numHashOutBits := nout;
     directInputRem := directInputRem p; historySize := historySize p; fixedHashSize := fixedHashSize p;
     numRefs := numRefs p; expectedDataSize := expectedDataSize p; crc := crc p; hash_addr := hash_addr p |}.
Definition set_input (l : list Z) (b rem : Z) (p : CMatchFinder) : CMatchFinder :=
  {| data := l; buffer := b; pos := pos p; posLimit := posLimit p; streamPos := streamPos p; lenLimit := lenLimit p;
     cyclicBufferPos := cyclicBufferPos p; cyclicBufferSize := cyclicBufferSize p;
     streamEndWasReached := streamEndWasReached p; btMode := btMode p; matchMaxLen := matchMaxLen p; hash := hash p;
     son := son p; hashMask := hashMask p; cutValue := cutValue p; keepSizeBefore := keepSizeBefore p;
     keepSizeAfter := keepSizeAfter p; numHashBytes := numHashBytes p; numHashBytes_Min := numHashBytes_Min p;
     numHashOutBits := numHashOutBits p; directInputRem := rem; historySize := historySize p;
     fixedHashSize := fixedHashSize p; numRefs := numRefs p; expectedDataSize := expectedDataSize p; crc := crc p;
     hash_addr := hash_addr p |}.
Definition set_expected (n : Z) (p : CMatchFinder) : CMatchFinder :=
  {| data := data p; buffer := buffer p; pos := pos p; posLimit := posLimit p; streamPos := streamPos p;
     lenLimit := lenLimit p; cyclicBufferPos := cyclicBufferPos p; cyclicBufferSize := cyclicBufferSize p;
     streamEndWasReached := streamEndWasReached p; btMode := btMode p; matchMaxLen := matchMaxLen p; hash := hash p;
     son := son p; hashMask := hashMask p; cutValue := cutValue p; keepSizeBefore := keepSizeBefore p;
     keepSizeAfter := keepSizeAfter p; numHashBytes := numHashBytes p; numHashBytes_Min := numHashBytes_Min p;
     numHashOutBits := numHashOutBits p; directInputRem := directInputRem p; historySize := historySize p;
     fixedHashSize := fixedHashSize p; numRefs := numRefs p; expectedDataSize := n; crc := crc p;
     hash_addr := hash_addr p |}.

Definition GET_AVAIL_BYTES (p : CMatchFinder) : Z := u32 (streamPos p - pos p).
Definition MatchFinder_GetNumAvailableBytes (p : CMatchFinder) : Z := GET_AVAIL_BYTES p.
Definition MatchFinder_GetPointerToCurrentPos (p : CMatchFinder) : Z := buffer p.

(** ** The window *)

Definition MatchFinder_ReadBlock (p : CMatchFinder) : CMatchFinder :=
  if streamEndWasReached p then p
  else
    let curSize := u32 (0xFFFFFFFF - GET_AVAIL_BYTES p) in
    let curSize := if directInputRem p <? curSize then u32 (directInputRem p) else curSize in
    let rem := directInputRem p - curSize in
    set_stream (u32 (streamPos p + curSize)) rem (rem =? 0) p.

Definition MatchFinder_SetLimits (p : CMatchFinder) : CMatchFinder :=
  let n := u32 (kMaxValForNormalize - pos p) in
  let n := if n =? 0 then 2 ^ 32 - 1 else n in
  let k := u32 (cyclicBufferSize p - cyclicBufferPos p) in
  let n := if k <? n then k else n in
  let k := GET_AVAIL_BYTES p in
  let ksa := keepSizeAfter p in
  let mm := matchMaxLen p in
  let '(k, mm) :=
    if ksa <? k then (k - ksa, mm)
    else if mm <=? k then (k - mm + 1, mm)
    else (if negb (k =? 0) then 1 else k, k) in
  let n := if k <? n then k else n in
  set_limits (u32 (pos p + n)) mm p.

(** [SASUB_32] *)
Definition SASUB_32 (subValue v : Z) : Z := (if v <? subValue then subValue else v) - subValue.

(** A block of eight references; [None] if [lim] is not a whole number of blocks away. *)
Fixpoint LzFind_SaturSub_32 (subValue : Z) (items : list Z) : option (list Z) :=
  match items with
  | [] => Some []
  | a :: b :: c :: d :: e :: f :: g :: h :: items =>
      l ← LzFind_SaturSub_32 subValue items;
      Some (SASUB_32 subValue a :: SASUB_32 subValue b :: SASUB_32 subValue c :: SASUB_32 subValue d ::
            SASUB_32 subValue e :: SASUB_32 subValue f :: SASUB_32 subValue g :: SASUB_32 subValue h :: l)
  | _ => None
  end.

(** [addr]: the address of [items] in references; the first loop aligns it to 32 of them. *)
Fixpoint normalize_head (addr subValue : Z) (items : list Z) (numItems : nat) : list Z * Z * list Z * nat :=
  match items, numItems with
  | v :: items', S n =>
      if negb ((addr &&& (2 ^ 5 - 1)) =? 0) then
        let '(l, a, rest, k) := normalize_head (addr + 1) subValue items' n in
        (SASUB_32 subValue v :: l, a, rest, k)
      else ([], addr, items, numItems)
  | _, _ => ([], addr, items, numItems)
  end.

Definition MatchFinder_Normalize3 (addr subValue : Z) (items : list Z) (numItems : Z) : option (list Z) :=
  let '(l1, _, items, n) := normalize_head addr subValue items (Z.to_nat numItems) in
  let k_Align_Mask := 2 ^ 7 / 4 - 1 in
  let lim := Z.to_nat (Z.of_nat n &&& Z.lnot k_Align_Mask) in
  let n := Z.to_nat (Z.of_nat n &&& k_Align_Mask) in
  l2 ← LzFind_SaturSub_32 subValue (take lim items);
  let items := drop lim items in
  Some (l1 ++ l2 ++ map (SASUB_32 subValue) (take n items) ++ drop n items).

Definition MatchFinder_CheckLimits (p : CMatchFinder) : option CMatchFinder :=
  let p := if keepSizeAfter p =? GET_AVAIL_BYTES p then MatchFinder_ReadBlock p else p in
  p ← (if (pos p =? kMaxValForNormalize) && (numHashBytes p <=? GET_AVAIL_BYTES p) then
         let subValue := u32 (pos p - historySize p - 1) in
         let p := set_stream (u32 (streamPos p - subValue)) (directInputRem p) (streamEndWasReached p)
                    (set_window (buffer p) (u32 (pos p - subValue)) (cyclicBufferPos p) p) in
         h ← MatchFinder_Normalize3 (hash_addr p) subValue (hash p) (hashMask p + 1 + fixedHashSize p);
         let numSonRefs := if btMode p then cyclicBufferSize p <<< 1 else cyclicBufferSize p in
         s ← MatchFinder_Normalize3 (hash_addr p + Z.of_nat (length (hash p))) subValue (son p) numSonRefs;
         Some (set_refs h s p)
       else Some p);
  let p := if cyclicBufferPos p =? cyclicBufferSize p then set_window (buffer p) (pos p) 0 p else p in
  Some (MatchFinder_SetLimits p).

Definition MOVE_POS (p : CMatchFinder) : option CMatchFinder :=
  let pos1 := u32 (pos p + 1) in
  let p := set_window (buffer p + 1) pos1 (u32 (cyclicBufferPos p + 1)) p in
  if pos1 =? posLimit p then MatchFinder_CheckLimits p else Some p.

Definition MatchFinder_MovePos (p : CMatchFinder) : option CMatchFinder := MOVE_POS p.

(** ** Hashes *)

Definition crc_at (p : CMatchFinder) (i : Z) : option Z := b ← rd (data p) i; rd (crc p) b.

Definition HASH2_CALC (p : CMatchFinder) (cur : Z) : option Z :=
  b0 ← rd (data p) cur; b1 ← rd (data p) (cur + 1); Some (b0 ||| (b1 <<< 8)).

(** [h2] and [hv] *)
Definition HASH3_CALC (p : CMatchFinder) (cur : Z) : option (Z * Z) :=
  c0 ← crc_at p cur; b1 ← rd (data p) (cur + 1); b2 ← rd (data p) (cur + 2);
  let temp := c0 ^^^ b1 in
  let h2 := temp &&& (kHash2Size - 1) in
  Some (h2, (temp ^^^ (b2 <<< 8)) &&& hashMask p).

(** [h2], [h3] and [hv] *)
Definition HASH4_CALC (p : CMatchFinder) (cur : Z) : option (Z * Z * Z) :=
  c0 ← crc_at p cur; b1 ← rd (data p) (cur + 1); b2 ← rd (data p) (cur + 2); c3 ← crc_at p (cur + 3);
  let temp := c0 ^^^ b1 in
  let h2 := temp &&& (kHash2Size - 1) in
  let temp := temp ^^^ (b2 <<< 8) in
  let h3 := temp &&& (kHash3Size - 1) in
  Some (h2, h3, (temp ^^^ u32 (c3 <<< kLzHash_CrcShift_1)) &&& hashMask p).

Definition HASH5_CALC (p : CMatchFinder) (cur : Z) : option (Z * Z * Z) :=
  c0 ← crc_at p cur; b1 ← rd (data p) (cur + 1); b2 ← rd (data p) (cur + 2); c3 ← crc_at p (cur + 3);
  c4 ← crc_at p (cur + 4);
  let temp := c0 ^^^ b1 in
  let h2 := temp &&& (kHash2Size - 1) in
  let temp := temp ^^^ (b2 <<< 8) in
  let h3 := temp &&& (kHash3Size - 1) in
  let temp := temp ^^^ u32 (c3 <<< kLzHash_CrcShift_1) in
  Some (h2, h3, (temp ^^^ u32 (c4 <<< kLzHash_CrcShift_2)) &&& hashMask p).

Definition HASH_ZIP_CALC (p : CMatchFinder) (cur : Z) : option Z :=
  b0 ← rd (data p) cur; c1 ← crc_at p (cur + 1); b2 ← rd (data p) (cur + 2);
  Some (((b2 ||| (b0 <<< 8)) ^^^ c1) &&& 0xFFFF).

(** ** Searches *)

(** The place of the references of the position [delta] back. *)
Definition cyc_back (cyc delta cycSize : Z) : Z := cyc - delta + (if cyc <? delta then cycSize else 0).

(** Hash chains: the matches [d] with the new ones, and [son]. *)
Definition Hc_GetMatchesSpec (l : list Z) (lenLimit curMatch pos cur : Z) (son : list Z)
    (cyc cycSize cutValue : Z) (d : list Z) (maxLen : Z) : option (list Z * list Z) :=
  son ← wrz son cyc curMatch;
  d ← loop (S (Z.to_nat pos))
    (fun '(curMatch, cutValue, d, maxLen) =>
       if curMatch =? 0 then Some (inr d)
       else
         let delta := u32 (pos - curMatch) in
         if cycSize <=? delta then Some (inr d)
         else
           next ← rd son (cyc_back cyc delta cycSize);
           x ← rd l (cur + maxLen); y ← rd l (cur + maxLen - delta);
           r ← (if x =? y then
                  len ← extend l cur (cur - delta) 0 lenLimit;
                  Some (if len =? lenLimit then inr (d ++ [lenLimit; delta - 1])
                        else inl (if maxLen <? len then (d ++ [len; delta - 1], len) else (d, maxLen)))
                else Some (inl (d, maxLen)));
           match r with
           | inr d => Some (inr d)
           | inl (d, maxLen) =>
               let cutValue := u32 (cutValue - 1) in
               Some (if negb (cutValue =? 0) then inl (next, cutValue, d, maxLen) else inr d)
           end) (curMatch, cutValue, d, maxLen);
  Some (d, son).

Definition cm_check (pos cycSize : Z) : Z := if pos <? cycSize then 0 else u32 (pos - cycSize).

(** The last lines of a turn in the trees: [curMatch] becomes a child, the search goes on
    below it.  [son], [ptr0], [ptr1], [len0], [len1] and [curMatch] after it. *)
Definition bt_descend (l : list Z) (cur delta len pair curMatch : Z)
    '((son, ptr0, ptr1, len0, len1) : list Z * Z * Z * Z * Z) : option (list Z * Z * Z * Z * Z * Z) :=
  x ← rd l (cur - delta + len); y ← rd l (cur + len);
  if x <? y then
    son ← wrz son ptr1 curMatch; next ← rd son (pair + 1); Some (son, ptr0, pair + 1, len0, len, next)
  else
    son ← wrz son ptr0 curMatch; next ← rd son pair; Some (son, pair, ptr1, len, len1, next).

(** [*ptr1 = pair[0]; *ptr0 = pair[1];] *)
Definition bt_replace (son : list Z) (ptr0 ptr1 pair : Z) : option (list Z) :=
  pair0 ← rd son pair; son ← wrz son ptr1 pair0; pair1 ← rd son (pair + 1); wrz son ptr0 pair1.

(** [*ptr0 = *ptr1 = kEmptyHashValue;] *)
Definition bt_close (son : list Z) (ptr0 ptr1 : Z) : option (list Z) :=
  son ← wrz son ptr1 kEmptyHashValue; wrz son ptr0 kEmptyHashValue.

(** A turn of GetMatchesSpec1: the new state or the matches and [son] at the end. *)
Definition bt_turn (l : list Z) (lenLimit pos cur cyc cycSize cmCheck : Z)
    '((son, ptr0, ptr1, len0, len1, curMatch, cutValue, d, maxLen) : list Z * Z * Z * Z * Z * Z * Z * list Z * Z)
  : option (list Z * Z * Z * Z * Z * Z * Z * list Z * Z + list Z * list Z) :=
  let delta := u32 (pos - curMatch) in
  let pair := cyc_back cyc delta cycSize <<< 1 in
  let len := if len0 <? len1 then len0 else len1 in
  x ← rd l (cur - delta + len); y ← rd l (cur + len);
  '(len, d, maxLen, full) ←
    (if x =? y then
       len ← extend l cur (cur - delta) (len + 1) lenLimit;
       Some (if maxLen <? len then (len, d ++ [len; delta - 1], len, len =? lenLimit) else (len, d, maxLen, false))
     else Some (len, d, maxLen, false));
  if full : bool then son ← bt_replace son ptr0 ptr1 pair; Some (inr (d, son))
  else
    '(son, ptr0, ptr1, len0, len1, curMatch) ← bt_descend l cur delta len pair curMatch (son, ptr0, ptr1, len0, len1);
    let cutValue := u32 (cutValue - 1) in
    if negb (cutValue =? 0) && (cmCheck <? curMatch)
    then Some (inl (son, ptr0, ptr1, len0, len1, curMatch, cutValue, d, maxLen))
    else son ← bt_close son ptr0 ptr1; Some (inr (d, son)).

Definition GetMatchesSpec1 (l : list Z) (lenLimit curMatch pos cur : Z) (son : list Z)
    (cyc cycSize cutValue : Z) (d : list Z) (maxLen : Z) : option (list Z * list Z) :=
  let ptr0 := (cyc <<< 1) + 1 in
  let ptr1 := cyc <<< 1 in
  let cmCheck := cm_check pos cycSize in
  if cmCheck <? curMatch then
    loop (S (Z.to_nat pos)) (bt_turn l lenLimit pos cur cyc cycSize cmCheck) (son, ptr0, ptr1, 0, 0, curMatch, cutValue, d, maxLen)
  else son ← bt_close son ptr0 ptr1; Some (d, son).

(** A turn of SkipMatchesSpec. *)
Definition bt_skip_turn (l : list Z) (lenLimit pos cur cyc cycSize cmCheck : Z)
    '((son, ptr0, ptr1, len0, len1, curMatch, cutValue) : list Z * Z * Z * Z * Z * Z * Z)
  : option (list Z * Z * Z * Z * Z * Z * Z + list Z) :=
  let delta := u32 (pos - curMatch) in
  let pair := cyc_back cyc delta cycSize <<< 1 in
  let len := if len0 <? len1 then len0 else len1 in
  x ← rd l (cur - delta + len); y ← rd l (cur + len);
  len ← (if x =? y then extend l cur (cur - delta) (len + 1) lenLimit else Some len);
  if (x =? y) && (len =? lenLimit) then son ← bt_replace son ptr0 ptr1 pair; Some (inr son)
  else
    '(son, ptr0, ptr1, len0, len1, curMatch) ← bt_descend l cur delta len pair curMatch (son, ptr0, ptr1, len0, len1);
    let cutValue := u32 (cutValue - 1) in
    if negb (cutValue =? 0) && (cmCheck <? curMatch)
    then Some (inl (son, ptr0, ptr1, len0, len1, curMatch, cutValue))
    else son ← bt_close son ptr0 ptr1; Some (inr son).

Definition SkipMatchesSpec (l : list Z) (lenLimit curMatch pos cur : Z) (son : list Z)
    (cyc cycSize cutValue : Z) : option (list Z) :=
  let ptr0 := (cyc <<< 1) + 1 in
  let ptr1 := cyc <<< 1 in
  let cmCheck := cm_check pos cycSize in
  if cmCheck <? curMatch then
    loop (S (Z.to_nat pos)) (bt_skip_turn l lenLimit pos cur cyc cycSize cmCheck) (son, ptr0, ptr1, 0, 0, curMatch, cutValue)
  else bt_close son ptr0 ptr1.

(** ** GetMatches

    Each function takes the pairs of length and distance found so far, [d] (the array
    before [distances]), and returns them with the new ones. *)

(** [hash[i]], and [hash[i] = v] *)
Definition hash_at (p : CMatchFinder) (i : Z) : option Z := rd (hash p) i.
Definition set_hash (i v : Z) (p : CMatchFinder) : option CMatchFinder :=
  h ← wrz (hash p) i v; Some (set_refs h (son p) p).

(** The searches by their parameters, [MF_PARAMS] (and [distances], [maxLen]): the pairs and
    [son] after them; a skip gives [son]. *)
Abbreviation get_spec := (list Z -> Z -> Z -> Z -> Z -> list Z -> Z -> Z -> Z -> list Z -> Z -> option (list Z * list Z)).
Abbreviation skip_spec := (list Z -> Z -> Z -> Z -> Z -> list Z -> Z -> Z -> Z -> option (list Z)).

(** [GET_MATCHES_FOOTER_BASE(maxLen, func)] *)
Definition footer (func : get_spec) (lenLimit curMatch : Z) (d : list Z) (maxLen : Z) (p : CMatchFinder) : option (list Z * CMatchFinder) :=
  '(d, son) ← func (data p) lenLimit curMatch (pos p) (buffer p) (son p) (cyclicBufferPos p) (cyclicBufferSize p) (cutValue p) d maxLen;
  p ← MOVE_POS (set_refs (hash p) son p); Some (d, p).

(** [SkipMatchesSpec(MF_PARAMS(p)); MOVE_POS] *)
Definition skip_footer (func : skip_spec) (lenLimit curMatch : Z) (p : CMatchFinder) : option CMatchFinder :=
  son ← func (data p) lenLimit curMatch (pos p) (buffer p) (son p) (cyclicBufferPos p) (cyclicBufferSize p) (cutValue p);
  MOVE_POS (set_refs (hash p) son p).

(** [p->son[p->cyclicBufferPos] = curMatch] *)
Definition Hc_SkipSpec : skip_spec := fun _ _ curMatch _ _ son cyc _ _ => wrz son cyc curMatch.

(** [GET_MATCHES_HEADER(minLen)] *)
Definition get_matches_header (minLen : Z) (d : list Z) (p : CMatchFinder)
    (body : option (list Z * CMatchFinder)) : option (list Z * CMatchFinder) :=
  if lenLimit p <? minLen then p ← MatchFinder_MovePos p; Some (d, p) else body.

(** One head, and the heads of the last 2 and 3 bytes besides; the old values. *)
Definition head1 (hv : Z) (p : CMatchFinder) : option (Z * CMatchFinder) :=
  curMatch ← hash_at p hv; p ← set_hash hv (pos p) p; Some (curMatch, p).

Definition head2 (h2 hv : Z) (p : CMatchFinder) : option (Z * Z * CMatchFinder) :=
  v2 ← hash_at p h2; curMatch ← hash_at p (kFix3HashSize + hv);
  p ← set_hash h2 (pos p) p; p ← set_hash (kFix3HashSize + hv) (pos p) p;
  Some (v2, curMatch, p).

Definition head3 (fix_size h2 h3 hv : Z) (p : CMatchFinder) : option (Z * Z * Z * CMatchFinder) :=
  v2 ← hash_at p h2; v3 ← hash_at p (kFix3HashSize + h3); curMatch ← hash_at p (fix_size + hv);
  p ← set_hash h2 (pos p) p; p ← set_hash (kFix3HashSize + h3) (pos p) p; p ← set_hash (fix_size + hv) (pos p) p;
  Some (v2, v3, curMatch, p).

(** [SET_mmm] *)
Definition set_mmm (p : CMatchFinder) : Z := if pos p <? cyclicBufferSize p then pos p else cyclicBufferSize p.

(** [d < mmm && *(cur - d) == *cur] *)
Definition head_matches (l : list Z) (cur d mmm : Z) : option bool :=
  if d <? mmm then x ← rd l (cur - d); y ← rd l cur; Some (x =? y) else Some false.

(** The part of Bt4, Bt5, Hc4 and Hc5 that looks at the heads of 2 and 3 bytes: the pairs
    and, unless the loop is left, the distance of a further pair of length 3 at least. *)
Definition short_heads (l : list Z) (cur d2 d3 mmm : Z) (d : list Z) : option (list Z * option Z) :=
  m2 ← head_matches l cur d2 mmm;
  if m2 : bool then
    x ← rd l (cur - d2 + 2); y ← rd l (cur + 2);
    if x =? y then Some (d, Some d2)
    else
      m3 ← head_matches l cur d3 mmm;
      Some (if m3 : bool then (d ++ [2; d2 - 1], Some d3) else (d ++ [2; d2 - 1], None))
  else
    m3 ← head_matches l cur d3 mmm;
    Some (if m3 : bool then (d, Some d3) else (d, None)).

(** On 2 bytes, and the variant of deflate on 3. *)
Definition Bt2_MatchFinder_GetMatches (p : CMatchFinder) (d : list Z) : option (list Z * CMatchFinder) :=
  get_matches_header 2 d p
    (hv ← HASH2_CALC p (buffer p);
     '(curMatch, p) ← head1 hv p;
     footer GetMatchesSpec1 (lenLimit p) curMatch d 1 p).

Definition Bt3Zip_MatchFinder_GetMatches (p : CMatchFinder) (d : list Z) : option (list Z * CMatchFinder) :=
  get_matches_header 3 d p
    (hv ← HASH_ZIP_CALC p (buffer p);
     '(curMatch, p) ← head1 hv p;
     footer GetMatchesSpec1 (lenLimit p) curMatch d 2 p).

Definition Hc3Zip_MatchFinder_GetMatches (p : CMatchFinder) (d : list Z) : option (list Z * CMatchFinder) :=
  get_matches_header 3 d p
    (hv ← HASH_ZIP_CALC p (buffer p);
     '(curMatch, p) ← head1 hv p;
     footer Hc_GetMatchesSpec (lenLimit p) curMatch d 2 p).

(** A match [d2] back is extended; if it is as long as can be there is no search. *)
Definition long_head (get : get_spec) (skip : skip_spec) (curMatch : Z) (d : list Z) (d2 maxLen : Z) (p : CMatchFinder)
  : option (list Z * CMatchFinder) :=
  maxLen ← extend (data p) (buffer p) (buffer p - d2) maxLen (lenLimit p);
  let d := d ++ [maxLen; d2 - 1] in
  if maxLen =? lenLimit p then p ← skip_footer skip (lenLimit p) curMatch p; Some (d, p)
  else footer get (lenLimit p) curMatch d maxLen p.

Definition Bt3_MatchFinder_GetMatches (p : CMatchFinder) (d : list Z) : option (list Z * CMatchFinder) :=
  get_matches_header 3 d p
    (let cur := buffer p in
     '(h2, hv) ← HASH3_CALC p cur;
     '(v2, curMatch, p) ← head2 h2 hv p;
     let d2 := u32 (pos p - v2) in
     m2 ← head_matches (data p) cur d2 (set_mmm p);
     if m2 : bool then long_head GetMatchesSpec1 SkipMatchesSpec curMatch d d2 2 p
     else footer GetMatchesSpec1 (lenLimit p) curMatch d 2 p).

(** Bt4 and Hc4, and Bt5 and Hc5, are the same but for the search. *)
Definition GetMatches4 (get : get_spec) (skip : skip_spec) (p : CMatchFinder) (d : list Z) : option (list Z * CMatchFinder) :=
  get_matches_header 4 d p
    (let cur := buffer p in
     '(h2, h3, hv) ← HASH4_CALC p cur;
     '(v2, v3, curMatch, p) ← head3 kFix4HashSize h2 h3 hv p;
     '(d, more) ← short_heads (data p) cur (u32 (pos p - v2)) (u32 (pos p - v3)) (set_mmm p) d;
     match more with
     | None => footer get (lenLimit p) curMatch d 3 p
     | Some d2 => long_head get skip curMatch d d2 3 p
     end).

Definition GetMatches5 (get : get_spec) (skip : skip_spec) (p : CMatchFinder) (d : list Z) : option (list Z * CMatchFinder) :=
  get_matches_header 5 d p
    (let cur := buffer p in
     '(h2, h3, hv) ← HASH5_CALC p cur;
     '(v2, v3, curMatch, p) ← head3 kFix5HashSize h2 h3 hv p;
     '(d, more) ← short_heads (data p) cur (u32 (pos p - v2)) (u32 (pos p - v3)) (set_mmm p) d;
     match more with
     | None => footer get (lenLimit p) curMatch d 4 p
     | Some d2 =>
         x ← rd (data p) (cur - d2 + 3); y ← rd (data p) (cur + 3);
         if negb (x =? y) then footer get (lenLimit p) curMatch (d ++ [3; d2 - 1]) 4 p
         else long_head get skip curMatch d d2 4 p
     end).

Definition Bt4_MatchFinder_GetMatches : CMatchFinder -> list Z -> option (list Z * CMatchFinder) := GetMatches4 GetMatchesSpec1 SkipMatchesSpec.
Definition Bt5_MatchFinder_GetMatches : CMatchFinder -> list Z -> option (list Z * CMatchFinder) := GetMatches5 GetMatchesSpec1 SkipMatchesSpec.
Definition Hc4_MatchFinder_GetMatches : CMatchFinder -> list Z -> option (list Z * CMatchFinder) := GetMatches4 Hc_GetMatchesSpec Hc_SkipSpec.
Definition Hc5_MatchFinder_GetMatches : CMatchFinder -> list Z -> option (list Z * CMatchFinder) := GetMatches5 Hc_GetMatchesSpec Hc_SkipSpec.

(** ** Skip *)

(** [do { SKIP_HEADER(minLen) heads SKIP_FOOTER } while (--num)]; [heads] gives [curMatch]. *)
Definition skip_loop_bt (minLen : Z) (heads : CMatchFinder -> option (Z * CMatchFinder)) (p : CMatchFinder) (num : Z)
  : option CMatchFinder :=
  loop (S (Z.to_nat num))
    (fun '(p, num) =>
       p ← (if lenLimit p <? minLen then MatchFinder_MovePos p
            else '(curMatch, p) ← heads p; skip_footer SkipMatchesSpec (lenLimit p) curMatch p);
       let num := u32 (num - 1) in
       Some (if negb (num =? 0) then inl (p, num) else inr p)) (p, num).

Definition Bt2_MatchFinder_Skip (p : CMatchFinder) (num : Z) : option CMatchFinder :=
  skip_loop_bt 2 (fun p => hv ← HASH2_CALC p (buffer p); head1 hv p) p num.
Definition Bt3Zip_MatchFinder_Skip (p : CMatchFinder) (num : Z) : option CMatchFinder :=
  skip_loop_bt 3 (fun p => hv ← HASH_ZIP_CALC p (buffer p); head1 hv p) p num.
Definition Bt3_MatchFinder_Skip (p : CMatchFinder) (num : Z) : option CMatchFinder :=
  skip_loop_bt 3 (fun p => '(h2, hv) ← HASH3_CALC p (buffer p); '(_, curMatch, p) ← head2 h2 hv p; Some (curMatch, p)) p num.
Definition Bt4_MatchFinder_Skip (p : CMatchFinder) (num : Z) : option CMatchFinder :=
  skip_loop_bt 4 (fun p => '(h2, h3, hv) ← HASH4_CALC p (buffer p);
                           '(_, _, curMatch, p) ← head3 kFix4HashSize h2 h3 hv p; Some (curMatch, p)) p num.
Definition Bt5_MatchFinder_Skip (p : CMatchFinder) (num : Z) : option CMatchFinder :=
  skip_loop_bt 5 (fun p => '(h2, h3, hv) ← HASH5_CALC p (buffer p);
                           '(_, _, curMatch, p) ← head3 kFix5HashSize h2 h3 hv p; Some (curMatch, p)) p num.

(** [HC_SKIP_HEADER] .. [HC_SKIP_FOOTER]: the inner loop keeps [cur], [pos] and the place in
    [son] in variables and moves on without looking at the limits. *)
Definition skip_loop_hc (minLen : Z) (heads : CMatchFinder -> option (Z * CMatchFinder)) (p : CMatchFinder) (num : Z)
  : option CMatchFinder :=
  loop (S (Z.to_nat num))
    (fun '(p, num) =>
       '(p, num) ←
         (if lenLimit p <? minLen then p ← MatchFinder_MovePos p; Some (p, u32 (num - 1))
          else
            let rem := u32 (posLimit p - pos p) in
            let num2 := if rem <=? num then rem else num in
            let num := num - num2 in
            p ← loop (S (Z.to_nat num2))
                  (fun '(p, num2) =>
                     '(curMatch, p) ← heads p;
                     s ← wrz (son p) (cyclicBufferPos p) curMatch;
                     let p := set_window (buffer p + 1) (u32 (pos p + 1)) (u32 (cyclicBufferPos p + 1)) (set_refs (hash p) s p) in
                     let num2 := u32 (num2 - 1) in
                     Some (if negb (num2 =? 0) then inl (p, num2) else inr p)) (p, num2);
            p ← (if pos p =? posLimit p then MatchFinder_CheckLimits p else Some p);
            Some (p, num));
       Some (if negb (num =? 0) then inl (p, num) else inr p)) (p, num).

Definition Hc4_MatchFinder_Skip (p : CMatchFinder) (num : Z) : option CMatchFinder :=
  skip_loop_hc 4 (fun p => '(h2, h3, hv) ← HASH4_CALC p (buffer p);
                           '(_, _, curMatch, p) ← head3 kFix4HashSize h2 h3 hv p; Some (curMatch, p)) p num.
Definition Hc5_MatchFinder_Skip (p : CMatchFinder) (num : Z) : option CMatchFinder :=
  skip_loop_hc 5 (fun p => '(h2, h3, hv) ← HASH5_CALC p (buffer p);
                           '(_, _, curMatch, p) ← head3 kFix5HashSize h2 h3 hv p; Some (curMatch, p)) p num.
Definition Hc3Zip_MatchFinder_Skip (p : CMatchFinder) (num : Z) : option CMatchFinder :=
  skip_loop_hc 3 (fun p => hv ← HASH_ZIP_CALC p (buffer p); head1 hv p) p num.

(** ** The choice of the functions, and the start *)

Definition vt_GetMatches (p : CMatchFinder) : CMatchFinder -> list Z -> option (list Z * CMatchFinder) :=
  if negb (btMode p) then
    if numHashBytes p <=? 4 then Hc4_MatchFinder_GetMatches else Hc5_MatchFinder_GetMatches
  else if numHashBytes p =? 2 then Bt2_MatchFinder_GetMatches
  else if numHashBytes p =? 3 then Bt3_MatchFinder_GetMatches
  else if numHashBytes p =? 4 then Bt4_MatchFinder_GetMatches
  else Bt5_MatchFinder_GetMatches.

Definition vt_Skip (p : CMatchFinder) : CMatchFinder -> Z -> option CMatchFinder :=
  if negb (btMode p) then
    if numHashBytes p <=? 4 then Hc4_MatchFinder_Skip else Hc5_MatchFinder_Skip
  else if numHashBytes p =? 2 then Bt2_MatchFinder_Skip
  else if numHashBytes p =? 3 then Bt3_MatchFinder_Skip
  else if numHashBytes p =? 4 then Bt4_MatchFinder_Skip
  else Bt5_MatchFinder_Skip.

Definition MatchFinder_Init_LowHash (p : CMatchFinder) : option CMatchFinder :=
  '(_, h) ← while (S (Z.to_nat (fixedHashSize p))) (fun '(i, _) => i <? fixedHashSize p)
              (fun '(i, h) => h ← wrz h i kEmptyHashValue; Some (i + 1, h)) (0, hash p);
  Some (set_refs h (son p) p).

Definition MatchFinder_Init_HighHash (p : CMatchFinder) : option CMatchFinder :=
  let numItems := hashMask p + 1 in
  '(_, h) ← while (S (Z.to_nat numItems)) (fun '(i, _) => i <? numItems)
              (fun '(i, h) => h ← wrz h (fixedHashSize p + i) kEmptyHashValue; Some (i + 1, h)) (0, hash p);
  Some (set_refs h (son p) p).

Definition MatchFinder_Init_4 (p : CMatchFinder) : CMatchFinder :=
  set_stream 1 (directInputRem p) false (set_window (buffer p) 1 (cyclicBufferPos p) p).

Definition MatchFinder_Init (p : CMatchFinder) : option CMatchFinder :=
  p ← MatchFinder_Init_HighHash p;
  p ← MatchFinder_Init_LowHash p;
  let p := MatchFinder_ReadBlock (MatchFinder_Init_4 p) in
  Some (MatchFinder_SetLimits (set_window (buffer p) (pos p) (pos p) p)).

(** ** Memory *)

(** [hs |= hs >> 1; ... hs |= hs >> 8] *)
Definition propagate (hs : Z) : Z :=
  let hs := hs ||| (hs >>> 1) in
  let hs := hs ||| (hs >>> 2) in
  let hs := hs ||| (hs >>> 4) in
  hs ||| (hs >>> 8).

Definition min_mask (numHashBytes hs : Z) : Z :=
  let hs := hs ||| ((1 <<< 16) - 1) in
  if 5 <=? numHashBytes then hs ||| ((256 <<< kLzHash_CrcShift_2) - 1) else hs.

Definition MatchFinder_GetHashMask2 (p : CMatchFinder) (hs : Z) : Z :=
  if numHashBytes p =? 2 then (1 <<< 16) - 1
  else
    let hs := propagate (if negb (hs =? 0) then hs - 1 else hs) in
    let hs := if (1 <<< 24) <=? hs then if numHashBytes p =? 3 then (1 <<< 24) - 1 else hs else hs in
    min_mask (numHashBytes p) hs.

Definition MatchFinder_GetHashMask (p : CMatchFinder) (hs : Z) : Z :=
  if numHashBytes p =? 2 then (1 <<< 16) - 1
  else
    let hs := propagate (if negb (hs =? 0) then hs - 1 else hs) >>> 1 in
    let hs := if (1 <<< 24) <=? hs then if numHashBytes p =? 3 then (1 <<< 24) - 1 else hs >>> 1 else hs in
    min_mask (numHashBytes p) hs.

(** [hs] and [hsCur] of MatchFinder_Create *)
Definition create_masks (p : CMatchFinder) (historySize : Z) : Z * Z :=
  if negb (numHashOutBits p =? 0) then
    let nbMax := if numHashBytes p =? 2 then 16 else if numHashBytes p =? 3 then 24 else 32 in
    let numBits := if nbMax <=? numHashOutBits p then nbMax else numHashOutBits p in
    let hs := if 32 <=? numBits then 2 ^ 32 - 1 else (1 <<< numBits) - 1 in
    let hs := min_mask (numHashBytes p) hs in
    let hs2 := MatchFinder_GetHashMask2 p historySize in
    let hs := if hs2 <=? hs then hs2 else hs in
    (hs, if expectedDataSize p <? historySize then
           let hs2 := MatchFinder_GetHashMask2 p (u32 (expectedDataSize p)) in
           if hs2 <=? hs then hs2 else hs
         else hs)
  else
    let hs := MatchFinder_GetHashMask p historySize in
    (hs, if expectedDataSize p <? historySize then
           let hsCur := MatchFinder_GetHashMask p (u32 (expectedDataSize p)) in
           if hs <=? hsCur then hs else hsCur
         else hs).

(** [alloc n]: a block of [n] references and its address.  A block kept from before stays as
    it is, with [son] where it was. *)
Definition is_null (l : list Z) : bool := match l with [] => true | _ => false end.

Definition MatchFinder_Create (alloc : Z -> option (list Z * Z)) (p : CMatchFinder)
    (historySize keepAddBufferBefore matchMaxLen keepAddBufferAfter : Z) : bool * CMatchFinder :=
  let keepAddBufferAfter := u32 (keepAddBufferAfter + matchMaxLen) in
  let keepAddBufferAfter := if keepAddBufferAfter <? numHashBytes p then numHashBytes p else keepAddBufferAfter in
  let p := set_keep (u32 (historySize + keepAddBufferBefore + 1)) keepAddBufferAfter p in
  let '(hs, hsCur) := create_masks p historySize in
  let fixedHashSize :=
    (if (2 <? numHashBytes p) && (numHashBytes_Min p <=? 2) then kHash2Size else 0) +
    (if (3 <? numHashBytes p) && (numHashBytes_Min p <=? 3) then kHash3Size else 0) in
  let hashSizeSum := hs + 1 + fixedHashSize in
  let p := set_hash_sizes hsCur fixedHashSize p in
  let newCyclicBufferSize := u32 (historySize + 1) in
  let p := set_history matchMaxLen historySize newCyclicBufferSize p in
  let numSons := if btMode p then newCyclicBufferSize <<< 1 else newCyclicBufferSize in
  let newSize := (hashSizeSum + numSons + 0xF) &&& Z.lnot 0xF in
  if negb (is_null (hash p)) && (newSize <=? numRefs p) then (true, p)
  else match alloc newSize with
  | None => (false, set_block newSize 0 (set_refs [] [] p))
  | Some (refs, addr) =>
      (true, set_block newSize addr (set_refs (take (Z.to_nat hashSizeSum) refs) (drop (Z.to_nat hashSizeSum) refs) p))
  end.
