(* ===== verification/LzFindWindow.v ===== *)
(** * The window of the match finder

    The invariant of the window of LzFind.v for data in memory, which does not depend on the
    kind of search: the limits are set so that the current position has room for a match and
    a place in [son]. *)

From stdpp Require Import base numbers list list_numbers.
From Stdlib Require Import ZArith Lia.
From S2P Require Import Prelude MatchFinder LzFind.
Local Open Scope Z_scope.
Local Open Scope word_scope.

(** The bytes a position needs to be entered, by [numHashBytes] (chains use 4 or more). *)
Definition min_len (nb : Z) : Z := if nb =? 2 then 2 else if nb =? 3 then 3 else if nb <=? 4 then 4 else 5.
(** Where the table of the longest hash begins. *)
Definition fix_size (nb : Z) : Z := if nb =? 2 then 0 else if nb =? 3 then kFix3HashSize else kFix4HashSize.

(** The head of the longest hash at a place in the data, as an index in [hash]. *)
Definition main_index (p : CMatchFinder) (cur : Z) : option Z :=
  if numHashBytes p =? 2 then HASH2_CALC p cur
  else if numHashBytes p =? 3 then '(_, hv) ← HASH3_CALC p cur; Some (kFix3HashSize + hv)
  else if numHashBytes p <=? 4 then '(_, _, hv) ← HASH4_CALC p cur; Some (kFix4HashSize + hv)
  else '(_, _, hv) ← HASH5_CALC p cur; Some (kFix5HashSize + hv).

Section Window.
Variables (l crct : list Z) (N mm mask nb : Z) (bt : bool) (key : Z -> option Z).

Abbreviation L := (Z.of_nat (length l)).
Abbreviation minLen := (min_len nb).

(** What Create and Init fix: the data, the CRC table, the history, the longest match. *)
Record settings : Prop := {
  st_bytes : bytes l; st_table : length crct = 256%nat; st_len : L <= 2 ^ 32 - 2;
  st_N : 2 <= N < 2 ^ 32; st_mask : 0 <= mask < 2 ^ 32; st_two : nb = 2 -> 0xFFFF <= mask;
  st_nb : 2 <= nb; st_mode : bt = false -> 4 <= nb; st_min : minLen <= mm
}.

Lemma min_len_range : 2 <= nb -> 2 <= minLen <= 5.
Proof. intros H. unfold min_len. destruct (nb =? 2), (nb =? 3), (nb <=? 4); lia. Qed.

(** ** The window *)
Record fixed (p : CMatchFinder) : Prop := {
  fx_data : data p = l; fx_crc : crc p = crct; fx_N : cyclicBufferSize p = N; fx_mm : matchMaxLen p = mm;
  fx_keep : mm <= keepSizeAfter p; fx_mask : hashMask p = mask; fx_stream : streamPos p = L + 1;
  fx_end : streamEndWasReached p = true; fx_bt : btMode p = bt; fx_nb : numHashBytes p = nb;
  fx_key : forall cur, main_index p cur = key cur
}.

Record placed (p : CMatchFinder) : Prop := {
  pl_buffer : 0 <= buffer p <= L; pl_pos : pos p = buffer p + 1; pl_cyc : 0 <= cyclicBufferPos p <= N;
  pl_mod : cyclicBufferPos p mod N = pos p mod N
}.

(** Up to [posLimit] there is room in [son] and for matches of [lenLimit] bytes, which is
    the longest match or what is left. *)
Record limited (p : CMatchFinder) : Prop := {
  lm_pos : pos p <= posLimit p; lm_cyc : posLimit p - pos p <= N - cyclicBufferPos p;
  lm_len : posLimit p + lenLimit p <= L + 2; lm_nonneg : 0 <= lenLimit p <= mm;
  lm_lim : lenLimit p = mm \/ posLimit p <= pos p \/ (lenLimit p = L - buffer p /\ posLimit p <= pos p + 1)
}.

Definition active (p : CMatchFinder) : Prop := buffer p < L -> pos p < posLimit p.

Definition same_refs (p p' : CMatchFinder) : Prop :=
  buffer p' = buffer p /\ hash p' = hash p /\ son p' = son p.

Lemma avail p : settings -> fixed p -> placed p -> GET_AVAIL_BYTES p = L - buffer p.
Proof.
  intros Hs Hf Hp. unfold GET_AVAIL_BYTES. rewrite (fx_stream _ Hf), (pl_pos _ Hp). pose proof (pl_buffer _ Hp). pose proof (st_len Hs).
  rewrite wrap_small by (unfold in_width; lia). lia.
Qed.

Lemma SetLimits_ok p :
  settings -> fixed p -> placed p -> cyclicBufferPos p < N ->
  exists lim len, MatchFinder_SetLimits p = set_limits lim len p /\ limited (set_limits lim len p) /\ active (set_limits lim len p).
Proof.
  intros Hs Hf Hp Hc. unfold MatchFinder_SetLimits, active. pose proof (avail p Hs Hf Hp) as Ha.
  pose proof (min_len_range (st_nb Hs)).
  destruct Hs, Hf, Hp. rewrite Ha, fx_N0, fx_mm0, pl_pos0.
  rewrite (wrap_small 32 (N - cyclicBufferPos p)) by (unfold in_width; lia).
  assert (u32 (kMaxValForNormalize - (buffer p + 1)) = 2 ^ 32 - (buffer p + 1)) as ->.
  { unfold kMaxValForNormalize, wrap. symmetry. apply (Z.mod_unique_pos _ _ (-1)); lia. }
  destruct (Z.eqb_spec (2 ^ 32 - (buffer p + 1)) 0) as [|_]; [lia|].
  set (n := if N - cyclicBufferPos p <? 2 ^ 32 - (buffer p + 1) then N - cyclicBufferPos p else 2 ^ 32 - (buffer p + 1)).
  assert (1 <= n <= N - cyclicBufferPos p) as Hn.
  { unfold n. destruct (Z.ltb_spec (N - cyclicBufferPos p) (2 ^ 32 - (buffer p + 1))); lia. }
  clearbody n.
  assert (exists k len, (if keepSizeAfter p <? L - buffer p then (L - buffer p - keepSizeAfter p, mm)
     else if mm <=? L - buffer p then (L - buffer p - mm + 1, mm)
     else (if negb (L - buffer p =? 0) then 1 else L - buffer p, L - buffer p)) = (k, len) /\
     0 <= k <= L - buffer p /\ (buffer p < L -> 1 <= k) /\ k + len <= L - buffer p + 1 /\ 0 <= len <= mm /\
     (len = mm \/ len = L - buffer p /\ k <= 1)) as (k & len & -> & Hk).
  { destruct (Z.ltb_spec (keepSizeAfter p) (L - buffer p)); [do 2 eexists; split; [done|]; lia|].
    destruct (Z.leb_spec mm (L - buffer p)); [do 2 eexists; split; [done|]; lia|].
    destruct (Z.eqb_spec (L - buffer p) 0); do 2 eexists; (split; [done|]); cbn [negb]; lia. }
  set (r := if k <? n then k else n).
  assert (0 <= r <= k /\ r <= n /\ (buffer p < L -> 1 <= r)) as Hr.
  { unfold r. destruct (Z.ltb_spec k n); lia. }
  clearbody r. rewrite (wrap_small 32 (buffer p + 1 + r)) by (unfold in_width; lia).
  exists (buffer p + 1 + r), len. split; [done|]. split; [|cbn; lia].
  constructor; cbn; lia.
Qed.

Lemma CheckLimits_ok p :
  settings -> fixed p -> placed p ->
  exists p', MatchFinder_CheckLimits p = Some p' /\ fixed p' /\ placed p' /\ limited p' /\ active p' /\ same_refs p p'.
Proof.
  intros Hs Hf Hp. unfold MatchFinder_CheckLimits.
  assert ((if keepSizeAfter p =? GET_AVAIL_BYTES p then MatchFinder_ReadBlock p else p) = p) as ->.
  { unfold MatchFinder_ReadBlock. rewrite (fx_end _ Hf). by destruct (_ =? _). }
  assert ((pos p =? kMaxValForNormalize) = false) as ->.
  { apply Z.eqb_neq. unfold kMaxValForNormalize. destruct Hp. lia. }
  cbn [andb]. opt. set (q := if cyclicBufferPos p =? cyclicBufferSize p then _ else p).
  assert (fixed q /\ placed q /\ cyclicBufferPos q < N /\ same_refs p q) as (Hf' & Hp' & Hc & Hr).
  { unfold q. rewrite (fx_N _ Hf). destruct (Z.eqb_spec (cyclicBufferPos p) N) as [E|].
    - destruct Hf, Hp, Hs. split; [by constructor|]. split; [|cbn; split; [lia|done]].
      constructor; cbn; [done..|lia|]. rewrite <-pl_mod0, E. by rewrite Z_mod_same_full, Zmod_0_l.
    - destruct Hp. split; [done|]. split; [done|]. split; [lia|done]. }
  destruct (SetLimits_ok q) as (lim & len & -> & Hl & Ha); [done..|].
  eexists. split; [done|]. split; [by destruct Hf'; constructor|]. split; [by destruct Hp'; constructor|]. done.
Qed.

(** One byte on, without a look at the limits. *)
Definition advance (p : CMatchFinder) : CMatchFinder :=
  set_window (buffer p + 1) (u32 (pos p + 1)) (u32 (cyclicBufferPos p + 1)) p.

Lemma advance_ok p :
  settings -> fixed p -> placed p -> limited p -> buffer p < L -> pos p < posLimit p ->
  fixed (advance p) /\ placed (advance p) /\ limited (advance p) /\ pos (advance p) = pos p + 1.
Proof.
  intros Hs Hf Hp Hl HL Hlt. destruct Hs, Hf, Hp, Hl. unfold advance.
  rewrite !wrap_small by (unfold in_width; lia). split; [by constructor|]. split; [|split; [|done]].
  - constructor; cbn; [lia..|]. by rewrite <-Zplus_mod_idemp_l, pl_mod0, Zplus_mod_idemp_l.
  - constructor; cbn; lia.
Qed.

Lemma MOVE_POS_ok p :
  settings -> fixed p -> placed p -> limited p -> buffer p < L -> pos p < posLimit p ->
  exists p', MOVE_POS p = Some p' /\ fixed p' /\ placed p' /\ limited p' /\ active p' /\ same_refs (advance p) p'.
Proof.
  intros Hs Hf Hp Hl HL Hlt. destruct (advance_ok p) as (Hf' & Hp' & Hl' & E); [done..|].
  unfold MOVE_POS. fold (advance p). change (posLimit (advance p)) with (posLimit p).
  destruct (Z.eqb_spec (u32 (pos p + 1)) (posLimit p)) as [E'|E'].
  - by apply CheckLimits_ok.
  - exists (advance p). do 4 (split; [done|]). split; [|done]. intros _. destruct Hl'. cbn in *. lia.
Qed.

Lemma set_refs_fixed h s p : fixed p -> fixed (set_refs h s p).
Proof. by intros []; constructor. Qed.
Lemma set_refs_placed h s p : placed p -> placed (set_refs h s p).
Proof. by intros []; constructor. Qed.
Lemma set_refs_limited h s p : limited p -> limited (set_refs h s p).
Proof. by intros []; constructor. Qed.

(** While there is data left the current position is in front of the limit. *)
Lemma current p :
  settings -> placed p -> limited p -> active p -> buffer p < L ->
  pos p < posLimit p /\ 0 <= buffer p /\ pos p = buffer p + 1 /\ buffer p + lenLimit p <= L /\ lenLimit p <= mm /\
  (lenLimit p = mm \/ lenLimit p = L - buffer p) /\ cyclicBufferPos p = pos p mod N.
Proof.
  intros Hs Hp Hl Ha HL. pose proof (Ha HL). destruct Hp, Hl. do 5 (split; [lia|]). split; [lia|].
  rewrite <-pl_mod0. symmetry. apply Z.mod_small. lia.
Qed.
End Window.

Arguments st_bytes {_ _ _ _ _ _ _}.
Arguments st_table {_ _ _ _ _ _ _}.
Arguments st_len {_ _ _ _ _ _ _}.
Arguments st_N {_ _ _ _ _ _ _}.
Arguments st_mask {_ _ _ _ _ _ _}.
Arguments st_two {_ _ _ _ _ _ _}.
Arguments st_nb {_ _ _ _ _ _ _}.
Arguments st_mode {_ _ _ _ _ _ _}.
Arguments st_min {_ _ _ _ _ _ _}.
Arguments fx_data {_ _ _ _ _ _ _ _}.
Arguments fx_crc {_ _ _ _ _ _ _ _}.
Arguments fx_N {_ _ _ _ _ _ _ _}.
Arguments fx_mm {_ _ _ _ _ _ _ _}.
Arguments fx_mask {_ _ _ _ _ _ _ _}.
Arguments fx_bt {_ _ _ _ _ _ _ _}.
Arguments fx_nb {_ _ _ _ _ _ _ _}.
Arguments fx_key {_ _ _ _ _ _ _ _}.
Arguments pl_buffer {_ _}.
Arguments pl_pos {_ _}.
Arguments pl_mod {_ _}.
Arguments lm_len {_ _ _}.
