(* ===== verification/LzFindTree.v ===== *)
(** * Search trees of positions

    What the array [son] of LzFind.c holds with binary trees: search trees of positions,
    ordered by the data that follows a position, with the newest position at the root. *)

From stdpp Require Import base numbers list list_numbers.
From Stdlib Require Import ZArith Lia.
From S2P Require Import Prelude MatchFinder.
Local Open Scope Z_scope.

Inductive tree := Leaf | Node (q : Z) (a b : tree).

Fixpoint nodes (t : tree) : list Z :=
  match t with Leaf => [] | Node q a b => q :: nodes a ++ nodes b end.

Section Tree.
Variables (l : list Z) (N : Z).

(** ** The order *)

(** The first [m] bytes at [a] and [b] are the same. *)
Definition agree (a b m : Z) : Prop := forall i, 0 <= i < m -> rd l (a + i) = rd l (b + i).

(** By the first [m] bytes the data at [a] is not after the data at [b]. *)
Definition upto (m a b : Z) : Prop :=
  forall k, 0 <= k < m -> agree a b k -> exists x y, rd l (a + k) = Some x /\ rd l (b + k) = Some y /\ x <= y.

Lemma agree_sym a b m : agree a b m -> agree b a m.
Proof. intros H i Hi. symmetry. by apply H. Qed.
Lemma agree_trans a b c m : agree a b m -> agree b c m -> agree a c m.
Proof. intros H1 H2 i Hi. rewrite H1 by done. by apply H2. Qed.
Lemma agree_le a b m m' : agree a b m -> m' <= m -> agree a b m'.
Proof. intros H Hm i Hi. apply H. lia. Qed.
Lemma agree_nil a b m : m <= 0 -> agree a b m.
Proof. intros Hm i Hi. lia. Qed.
Lemma agree_snoc a b m : agree a b m -> rd l (a + m) = rd l (b + m) -> agree a b (m + 1).
Proof. intros H E i Hi. destruct (Z.eq_dec i m) as [->|]; [done|]. apply H. lia. Qed.

Lemma upto_le m m' a b : upto m a b -> m' <= m -> upto m' a b.
Proof. intros H Hm k Hk. apply H. lia. Qed.

(** What lies between two positions that agree on [m'] bytes agrees with them. *)
Lemma upto_squeeze m m' a b c : upto m a b -> upto m b c -> m' <= m -> agree a c m' -> agree a b m'.
Proof.
  intros H1 H2 Hm A. assert (forall n : nat, Z.of_nat n <= m' -> agree a b (Z.of_nat n)) as Hn.
  { intros n. induction n as [|n IH]; intros Hn; [apply agree_nil; lia|]. rewrite Nat2Z.inj_succ. apply agree_snoc; [apply IH; lia|].
    specialize (IH ltac:(lia)). assert (agree b c (Z.of_nat n)) as IH'.
    { apply (agree_trans _ a); [by apply agree_sym|apply (agree_le _ _ m'); [done|lia]]. }
    destruct (H1 (Z.of_nat n)) as (x & y & Ex & Ey & Hle); [lia|done|]. destruct (H2 (Z.of_nat n)) as (y' & z & Ey' & Ez & Hle'); [lia|done|].
    pose proof (A (Z.of_nat n) ltac:(lia)) as E. rewrite Ex, Ez in E. rewrite Ey in Ey'. injection E. injection Ey'.
    intros <- ->. rewrite Ex, Ey. f_equal. lia. }
  destruct (Z.le_gt_cases m' 0); [by apply agree_nil|]. rewrite <-(Z2Nat.id m') by lia. apply Hn. lia.
Qed.

Lemma upto_trans m a b c : upto m a b -> upto m b c -> upto m a c.
Proof.
  intros H1 H2 k Hk A. pose proof (upto_squeeze m k a b c H1 H2 ltac:(lia) A) as Hab.
  assert (agree b c k) as Hbc by (apply (agree_trans _ a); [by apply agree_sym|done]).
  destruct (H1 k Hk Hab) as (x & y & Ex & Ey & Hle). destruct (H2 k Hk Hbc) as (y' & z & Ey' & Ez & Hle').
  rewrite Ey in Ey'. injection Ey' as <-. exists x, z. do 2 (split; [done|]). lia.
Qed.

Lemma upto_between m m' lo x hi cur :
  upto m lo x -> upto m x hi -> m' <= m -> agree lo cur m' -> agree hi cur m' -> agree x cur m'.
Proof.
  intros H1 H2 Hm A1 A2. apply (agree_trans _ lo); [|done]. apply agree_sym, (upto_squeeze m m' lo x hi); [done..|].
  apply (agree_trans _ cur); [done|by apply agree_sym].
Qed.

(** The first difference decides. *)
Lemma upto_diff m a b n x y :
  0 <= n -> agree a b n -> rd l (a + n) = Some x -> rd l (b + n) = Some y -> x < y -> 0 <= a -> 0 <= b -> upto m a b.
Proof.
  intros Hn A Ex Ey Hlt Ha Hb k Hk Ak. destruct (Z.lt_total k n) as [Hkn|[->|Hkn]]; [|exists x, y; do 2 (split; [done|]); lia|].
  - apply rd_range in Ey as Hr. destruct (rd_Some l (b + k)) as [z Ez]; [lia|]. exists z, z. split; [|split; [done|lia]].
    by rewrite (A k) by lia.
  - exfalso. rewrite (Ak n) in Ex by lia. rewrite Ex in Ey. injection Ey. lia.
Qed.

Lemma upto_agree m a b : agree a b m -> 0 <= b -> b + m <= Z.of_nat (length l) -> upto m a b.
Proof.
  intros A Hb Hl k Hk _. destruct (rd_Some l (b + k)) as [z Ez]; [lia|]. exists z, z. split; [by rewrite A by lia|]. split; [done|lia].
Qed.

(** ** Trees in memory *)

(** The two cells of a position: where it is after and before its children. *)
Definition cell (q : Z) : Z := 2 * (q mod N).
Definition touches (i : Z) (t : tree) : Prop := exists q, q ∈ nodes t /\ (i = cell q \/ i = cell q + 1).

(** [v] is the root of [t]; what is not above [lo] is out of reach and no node. *)
Fixpoint repr (lo : Z) (s : list Z) (v : Z) (t : tree) : Prop :=
  match t with
  | Leaf => 0 <= v <= lo
  | Node q a b =>
      v = q /\ lo < q /\
      exists va vb, rd s (cell q) = Some va /\ rd s (cell q + 1) = Some vb /\ va < q /\ vb < q /\ repr lo s va a /\ repr lo s vb b
  end.

(** Positions are ordered by the first [m] bytes at them, and in one place only. *)
Fixpoint bst (m : Z) (t : tree) : Prop :=
  match t with
  | Leaf => True
  | Node q a b =>
      (forall x, x ∈ nodes a -> upto m (x - 1) (q - 1)) /\ (forall x, x ∈ nodes b -> upto m (q - 1) (x - 1)) /\
      (forall x, x ∈ nodes a -> x ∉ nodes b) /\ bst m a /\ bst m b
  end.

Lemma nodes_Node x q a b : x ∈ nodes (Node q a b) <-> x = q \/ x ∈ nodes a \/ x ∈ nodes b.
Proof. cbn [nodes]. by rewrite elem_of_cons, elem_of_app. Qed.

Lemma touches_Node i q a b : touches i (Node q a b) <-> i = cell q \/ i = cell q + 1 \/ touches i a \/ touches i b.
Proof.
  unfold touches. split.
  - intros (x & [->|[Hx|Hx]]%nodes_Node & Hi); [tauto|right; right; left; by exists x|right; right; right; by exists x].
  - intros [->|[->|[(x & Hx & Hi)|(x & Hx & Hi)]]];
      [exists q; rewrite nodes_Node; tauto..|exists x; rewrite nodes_Node; tauto|exists x; rewrite nodes_Node; tauto].
Qed.

Lemma repr_range lo s : forall t v, repr lo s v t -> 0 <= lo -> 0 <= v /\ forall x, x ∈ nodes t -> lo < x <= v.
Proof.
  intros t. induction t as [|q a IHa b IHb]; intros v; cbn [repr].
  - intros ? ?. split; [lia|]. by intros x ?%elem_of_nil.
  - intros (-> & Hq & va & vb & _ & _ & ? & ? & Ha & Hb) Hlo. split; [lia|].
    intros x [->|[Hx|Hx]]%nodes_Node; [lia|apply (IHa va Ha Hlo) in Hx; lia|apply (IHb vb Hb Hlo) in Hx; lia].
Qed.

Lemma repr_frame lo s s' : forall t v, repr lo s v t -> (forall i, touches i t -> rd s' i = rd s i) -> repr lo s' v t.
Proof.
  intros t. induction t as [|q a IHa b IHb]; intros v; cbn [repr]; [done|].
  intros (-> & Hq & va & vb & Ea & Eb & ? & ? & Ha & Hb) Hf. split; [done|]. split; [done|]. exists va, vb.
  rewrite !Hf by (rewrite touches_Node; tauto). do 4 (split; [done|]).
  split; [apply IHa; [done|intros; apply Hf; rewrite touches_Node; tauto]|apply IHb; [done|intros; apply Hf; rewrite touches_Node; tauto]].
Qed.

(** Later on fewer positions are in reach. *)
Fixpoint prune (lo : Z) (t : tree) : tree :=
  match t with
  | Leaf => Leaf
  | Node q a b => if lo <? q then Node q (prune lo a) (prune lo b) else Leaf
  end.

Lemma nodes_prune lo x : forall t, x ∈ nodes (prune lo t) -> x ∈ nodes t.
Proof.
  intros t. induction t as [|q a IHa b IHb]; cbn [prune]; [done|]. destruct (lo <? q); [|by intros ?%elem_of_nil].
  rewrite !nodes_Node. tauto.
Qed.

Lemma bst_prune m m' lo : m' <= m -> forall t, bst m t -> bst m' (prune lo t).
Proof.
  intros Hm t. induction t as [|q a IHa b IHb]; cbn [prune bst]; [done|]. intros (Ha & Hb & Hd & ? & ?). destruct (lo <? q); [|done].
  cbn [bst]. split; [intros x Hx; by apply (upto_le m), Hm; apply Ha, (nodes_prune lo)|].
  split; [intros x Hx; by apply (upto_le m), Hm; apply Hb, (nodes_prune lo)|].
  split; [|auto]. intros x Hx%nodes_prune Hx'%nodes_prune. by apply (Hd x).
Qed.

Lemma repr_prune lo lo' s : lo <= lo' -> 0 <= lo -> forall t v, repr lo s v t -> repr lo' s v (prune lo' t).
Proof.
  intros Hlo H0 t. induction t as [|q a IHa b IHb]; intros v; cbn [repr prune]; [lia|].
  intros (-> & Hq & va & vb & Ea & Eb & ? & ? & Ha & Hb). destruct (Z.ltb_spec lo' q); cbn [repr]; [|lia].
  split; [done|]. split; [done|]. exists va, vb. auto 10.
Qed.

(** Cells of different positions in reach are different. *)
Lemma cell_inj lo hi q r : 0 < N -> hi - lo <= N + 1 -> lo < q < hi -> lo < r < hi -> cell q = cell r -> q = r.
Proof.
  intros HN Hw Hq Hr E. unfold cell in E. pose proof (Z.div_mod q N ltac:(lia)). pose proof (Z.div_mod r N ltac:(lia)).
  assert (q / N = r / N \/ q / N + 1 <= r / N \/ r / N + 1 <= q / N) as [|[]] by lia; nia.
Qed.

Lemma cell_parity q r : cell q <> cell r + 1.
Proof. unfold cell. lia. Qed.

(** ** Splitting a tree

    The search for a new position takes a tree apart: the positions before it are linked
    from the cell [ptr1], those after it from [ptr0]. *)
Section Split.
Variables (lo hi cur m : Z).
Hypotheses (HN : 0 < N) (Hlo : 0 <= lo) (Hhi : hi - lo <= N).

(** [ptr] has the root of [t], [c] at most. *)
Definition linked (s : list Z) (ptr c : Z) (t : tree) : Prop := exists v, rd s ptr = Some v /\ repr lo s v t /\ v <= c.

Definition before (q : Z) : Prop := upto m (q - 1) cur.
Definition after (q : Z) : Prop := upto m cur (q - 1).

Record split_tree (s s' : list Z) (ptr0 ptr1 c : Z) (t t1 t0 : tree) : Prop := {
  sp_len : length s' = length s; sp_low : linked s' ptr1 c t1; sp_high : linked s' ptr0 c t0; sp_bst : bst m t1 /\ bst m t0;
  sp_before : forall x, x ∈ nodes t1 -> x ∈ nodes t /\ before x; sp_after : forall x, x ∈ nodes t0 -> x ∈ nodes t /\ after x;
  sp_disj : forall x, x ∈ nodes t1 -> x ∉ nodes t0;
  sp_frame : forall i, i <> ptr0 -> i <> ptr1 -> ~ touches i t -> rd s' i = rd s i
}.

(** The cells of the parts of a tree in reach are different. *)
Lemma Node_separate s c a b :
  repr lo s c (Node c a b) -> bst m (Node c a b) -> c < hi ->
  ((c ∉ nodes a) /\ (c ∉ nodes b)) /\
  (~ touches (cell c) a /\ ~ touches (cell c) b /\ ~ touches (cell c + 1) a /\ ~ touches (cell c + 1) b) /\
  (forall i, touches i a -> ~ touches i b).
Proof using HN Hhi Hlo.
  intros Hr (_ & _ & Hd & _) Hc. pose proof Hr as (_ & _ & va & vb & _ & _ & Hva & Hvb & Ra & Rb).
  apply repr_range in Hr as [_ Hr]; [|done]. apply repr_range in Ra as [_ Ra]; [|done]. apply repr_range in Rb as [_ Rb]; [|done].
  assert (c ∉ nodes a) as Na by (intros H%Ra; lia). assert (c ∉ nodes b) as Nb by (intros H%Rb; lia).
  assert (forall i x y, x ∈ nodes (Node c a b) -> y ∈ nodes (Node c a b) ->
    (i = cell x \/ i = cell x + 1) -> (i = cell y \/ i = cell y + 1) -> x = y) as Hsame.
  { intros i x y Hx%Hr Hy%Hr Ex Ey. pose proof (cell_parity x y). pose proof (cell_parity y x). apply (cell_inj lo hi); lia. }
  split; [done|]. split.
  - assert (forall i x, (i = cell c \/ i = cell c + 1) -> (i = cell x \/ i = cell x + 1) -> x ∈ nodes a \/ x ∈ nodes b -> False) as H.
    { intros i x Hi Hi' Hx. assert (c = x) as <- by (apply (Hsame i); [rewrite nodes_Node; tauto|rewrite nodes_Node; tauto|done|done]). tauto. }
    split; [|split; [|split]]; intros (x & Hx & Ex);
      [apply (H (cell c) x)|apply (H (cell c) x)|apply (H (cell c + 1) x)|apply (H (cell c + 1) x)]; tauto.
  - intros i (x & Hx & Ex) (y & Hy & Ey). assert (x = y) as <- by (apply (Hsame i); [rewrite nodes_Node; tauto|rewrite nodes_Node; tauto|done|done]).
    by apply (Hd x).
Qed.

(** The search ends: what is left is out of reach. *)
Lemma split_close s ptr0 ptr1 c t :
  0 <= c -> 0 <= ptr0 < Z.of_nat (length s) -> 0 <= ptr1 < Z.of_nat (length s) -> ptr0 <> ptr1 ->
  split_tree s (<[Z.to_nat ptr0 := 0]> (<[Z.to_nat ptr1 := 0]> s)) ptr0 ptr1 c t Leaf Leaf.
Proof using Hlo.
  intros Hc H0 H1 Hne. constructor; cbn [nodes bst].
  - by rewrite !length_insert.
  - exists 0. split; [|cbn; lia]. rewrite rd_insert_ne, rd_lookup, list_lookup_insert_eq by lia. done.
  - exists 0. split; [|cbn; lia]. rewrite rd_lookup, list_lookup_insert_eq by (rewrite ?length_insert; lia). done.
  - done.
  - by intros x ?%elem_of_nil.
  - by intros x ?%elem_of_nil.
  - by intros x ?%elem_of_nil.
  - intros i Hi0 Hi1 _. by rewrite !rd_insert_ne by lia.
Qed.

(** The search meets a position that agrees with the new one on [m] bytes, which takes its
    place. *)
Lemma split_replace s ptr0 ptr1 c a b va vb :
  repr lo s c (Node c a b) -> bst m (Node c a b) -> c < hi -> before c -> after c ->
  0 <= ptr0 < Z.of_nat (length s) -> 0 <= ptr1 < Z.of_nat (length s) -> ptr0 <> ptr1 ->
  ~ touches ptr0 (Node c a b) -> ~ touches ptr1 (Node c a b) -> rd s (cell c) = Some va -> rd s (cell c + 1) = Some vb ->
  split_tree s (<[Z.to_nat ptr0 := vb]> (<[Z.to_nat ptr1 := va]> s)) ptr0 ptr1 c (Node c a b) a b.
Proof using HN Hhi Hlo.
  intros Hr Hb Hc Hbef Haft H0 H1 Hne T0 T1 Ea Eb. destruct Hr as (_ & Hq & va' & vb' & Ea' & Eb' & Hva & Hvb & Ra & Rb).
  rewrite Ea in Ea'. injection Ea' as <-. rewrite Eb in Eb'. injection Eb' as <-. destruct Hb as (Ba & Bb & Hd & ? & ?).
  rewrite touches_Node in T0, T1.
  assert (forall i, i <> ptr0 -> i <> ptr1 -> rd (<[Z.to_nat ptr0 := vb]> (<[Z.to_nat ptr1 := va]> s)) i = rd s i) as Hf.
  { intros i Hi0 Hi1. by rewrite !rd_insert_ne by lia. }
  constructor.
  - by rewrite !length_insert.
  - exists va. split; [rewrite rd_insert_ne, rd_lookup, list_lookup_insert_eq by lia; done|]. split; [|lia].
    apply (repr_frame _ s); [done|]. intros i Hi. apply Hf; intros ->; tauto.
  - exists vb. split; [rewrite rd_lookup, list_lookup_insert_eq by (rewrite ?length_insert; lia); done|]. split; [|lia].
    apply (repr_frame _ s); [done|]. intros i Hi. apply Hf; intros ->; tauto.
  - done.
  - intros x Hx. split; [rewrite nodes_Node; tauto|]. apply (upto_trans _ _ (c - 1)); [by apply Ba|done].
  - intros x Hx. split; [rewrite nodes_Node; tauto|]. apply (upto_trans _ _ (c - 1)); [done|by apply Bb].
  - done.
  - intros i ? ? _. by apply Hf.
Qed.

(** The position [c] is before the new one: it is linked from [ptr1] and the search goes on
    after it, with the cell after it in the place of [ptr1]. *)
Lemma split_low s s' ptr0 ptr1 c a b vb t1 t0 :
  repr lo s c (Node c a b) -> bst m (Node c a b) -> c < hi -> before c ->
  0 <= ptr1 < Z.of_nat (length s) -> ptr0 <> ptr1 -> ~ touches ptr0 (Node c a b) -> ~ touches ptr1 (Node c a b) ->
  rd s (cell c + 1) = Some vb ->
  split_tree (<[Z.to_nat ptr1 := c]> s) s' ptr0 (cell c + 1) vb b t1 t0 ->
  split_tree s s' ptr0 ptr1 c (Node c a b) (Node c a t1) t0.
Proof using HN Hhi Hlo.
  intros Hr Hb Hc Hbef H1 Hne T0 T1 Eb [Hlen Hlow Hhigh [Bt1 Bt0] S1 S0 Hd Hf].
  destruct (Node_separate s c a b Hr Hb Hc) as ([Na Nb] & (_ & Tb & Ta' & Tb') & Tab).
  destruct Hr as (_ & Hq & va & vb' & Ea & Eb' & Hva & Hvb & Ra & Rb). rewrite Eb in Eb'. injection Eb' as <-.
  destruct Hb as (Ba & Bb & Dab & Hba & Hbb). rewrite touches_Node in T0, T1.
  pose proof (rd_range _ _ _ Ea) as Hra.
  assert (forall i, i <> ptr0 -> i <> ptr1 -> i <> cell c + 1 -> ~ touches i b -> rd s' i = rd s i) as Hf'.
  { intros i ? ? ? ?. rewrite Hf by done. apply rd_insert_ne; lia. }
  constructor.
  - by rewrite Hlen, length_insert.
  - exists c. split; [rewrite Hf, rd_lookup, list_lookup_insert_eq by (lia || tauto); done|]. split; [|lia].
    destruct Hlow as (v & Ev & Rv & Hv). split; [done|]. split; [done|]. exists va, v.
    split; [rewrite Hf'; [done|intros <-; tauto|intros <-; tauto|lia|done]|]. split; [done|]. split; [done|]. split; [lia|].
    split; [|done]. apply (repr_frame _ s); [done|]. intros i Hi. apply Hf'; [intros ->; tauto|intros ->; tauto|intros ->; tauto|by apply Tab].
  - destruct Hhigh as (v & Ev & Rv & Hv). exists v. do 2 (split; [done|]). lia.
  - split; [|done]. split; [done|]. split; [intros x Hx; by apply Bb, S1|]. split; [|done]. intros x Hx [Hx' _]%S1. by apply (Dab x Hx).
  - intros x [->|[Hx|Hx]]%nodes_Node; rewrite nodes_Node; [tauto| |apply S1 in Hx; tauto].
    split; [tauto|]. apply (upto_trans _ _ (c - 1)); [by apply Ba|done].
  - intros x Hx%S0. rewrite nodes_Node. tauto.
  - intros x [->|[Hx|Hx]]%nodes_Node Hx0; [by apply S0 in Hx0 as [? _]|apply S0 in Hx0 as [? _]; by apply (Dab x Hx)|by apply (Hd x)].
  - intros i ? ? Ht. rewrite touches_Node in Ht. apply Hf'; tauto.
Qed.

(** The position [c] is after the new one. *)
Lemma split_high s s' ptr0 ptr1 c a b va t1 t0 :
  repr lo s c (Node c a b) -> bst m (Node c a b) -> c < hi -> after c ->
  0 <= ptr0 < Z.of_nat (length s) -> ptr0 <> ptr1 -> ~ touches ptr0 (Node c a b) -> ~ touches ptr1 (Node c a b) ->
  rd s (cell c) = Some va ->
  split_tree (<[Z.to_nat ptr0 := c]> s) s' (cell c) ptr1 va a t1 t0 ->
  split_tree s s' ptr0 ptr1 c (Node c a b) t1 (Node c t0 b).
Proof using HN Hhi Hlo.
  intros Hr Hb Hc Haft H0 Hne T0 T1 Ea [Hlen Hlow Hhigh [Bt1 Bt0] S1 S0 Hd Hf].
  destruct (Node_separate s c a b Hr Hb Hc) as ([Na Nb] & (Ta & Tb & Ta' & Tb') & Tab).
  destruct Hr as (_ & Hq & va' & vb & Ea' & Eb & Hva & Hvb & Ra & Rb). rewrite Ea in Ea'. injection Ea' as <-.
  destruct Hb as (Ba & Bb & Dab & Hba & Hbb). rewrite touches_Node in T0, T1.
  pose proof (rd_range _ _ _ Ea) as Hra.
  assert (forall i, i <> ptr0 -> i <> ptr1 -> i <> cell c -> ~ touches i a -> rd s' i = rd s i) as Hf'.
  { intros i ? ? ? ?. rewrite Hf by done. apply rd_insert_ne; lia. }
  constructor.
  - by rewrite Hlen, length_insert.
  - destruct Hlow as (v & Ev & Rv & Hv). exists v. do 2 (split; [done|]). lia.
  - exists c. split; [rewrite Hf, rd_lookup, list_lookup_insert_eq by (lia || tauto); done|]. split; [|lia].
    destruct Hhigh as (v & Ev & Rv & Hv). split; [done|]. split; [done|]. exists v, vb.
    split; [done|]. split; [rewrite Hf'; [done|intros <-; tauto|intros <-; tauto|lia|done]|]. split; [lia|]. split; [done|].
    split; [done|]. apply (repr_frame _ s); [done|]. intros i Hi.
    apply Hf'; [intros ->; tauto|intros ->; tauto|intros ->; tauto|]. intros Hia. by apply (Tab i).
  - split; [done|]. split; [intros x Hx; by apply Ba, S0|]. split; [done|]. split; [|done]. intros x [Hx _]%S0 Hx'. by apply (Dab x).
  - intros x Hx%S1. rewrite nodes_Node. tauto.
  - intros x [->|[Hx|Hx]]%nodes_Node; rewrite nodes_Node; [tauto|apply S0 in Hx; tauto|].
    split; [tauto|]. apply (upto_trans _ _ (c - 1)); [done|by apply Bb].
  - intros x Hx1 [->|[Hx|Hx]]%nodes_Node; [by apply S1 in Hx1 as [? _]|by apply (Hd x)|apply S1 in Hx1 as [? _]; by apply (Dab x)].
  - intros i ? ? Ht. rewrite touches_Node in Ht. apply Hf'; tauto.
Qed.
End Split.
End Tree.
