(* ===== verification/LzFindBt.v ===== *)
(** * Binary trees

    GetMatchesSpec1 and SkipMatchesSpec of LzFind.v split the tree of a head around the new
    position and report matches: the trees stay search trees, every access is in range. *)

From stdpp Require Import base numbers list list_numbers.
From Stdlib Require Import ZArith Lia.
From S2P Require Import Prelude MatchFinder LzFind LzFindTree.
Local Open Scope Z_scope.
Local Open Scope word_scope.

Lemma cyc_back_mod N pos delta : 0 < delta < N -> 0 <= pos - delta -> cyc_back (pos mod N) delta N = (pos - delta) mod N.
Proof.
  intros Hd Hp. unfold cyc_back. pose proof (Z.mod_pos_bound pos N). pose proof (Z.div_mod pos N).
  destruct (Z.ltb_spec (pos mod N) delta).
  - apply (Z.mod_unique_pos _ _ (pos / N - 1)); lia.
  - apply (Z.mod_unique_pos _ _ (pos / N)); lia.
Qed.

Lemma cm_check_ok pos N : 0 <= pos < 2 ^ 32 -> 0 < N -> 0 <= cm_check pos N /\ pos - N <= cm_check pos N /\ (N <= pos -> cm_check pos N = pos - N) /\ (pos < N -> cm_check pos N = 0).
Proof.
  intros Hp HN. unfold cm_check. destruct (Z.ltb_spec pos N); [lia|]. rewrite wrap_small by (unfold in_width; lia). lia.
Qed.

Section Search.
Variables (l : list Z) (N mm pos cur lim : Z).
Hypotheses (HN : 2 <= N) (Hpos : pos = cur + 1) (Hcur : 0 <= cur) (Hw : pos < 2 ^ 32).
Hypotheses (Hlim : 0 < lim <= mm) (HL : cur + lim <= Z.of_nat (length l)).

Abbreviation lo := (cm_check pos N).

Lemma lo_ok : 0 <= lo < pos /\ pos - lo <= N.
Proof using All. pose proof (cm_check_ok pos N). lia. Qed.

(** What a search may report at this point. *)
Definition reported (maxLen : Z) (d : list Z) : Prop := exists m, matches_ok l cur mm (N - 1) m d /\ m <= maxLen < lim.
Definition reports (d : list Z) : Prop := exists m, matches_ok l cur mm (N - 1) m d.

Lemma agree_match_at c n : lo < c < pos -> agree l (c - 1) cur n -> 0 <= n <= lim -> match_at l cur n (pos - c).
Proof using All.
  intros Hc A Hn. pose proof lo_ok. split; [lia|]. split; [lia|]. intros i Hi. rewrite <-(A i Hi). f_equal. lia.
Qed.

Lemma match_at_agree c n : match_at l cur n (pos - c) -> agree l (c - 1) cur n.
Proof using All. intros (_ & _ & H) i Hi. rewrite (H i Hi). f_equal. lia. Qed.

(** The bytes are compared from [n] on: how far they agree, and the matches after it. *)
Lemma compare_ok c n d maxLen :
  lo < c < pos -> agree l (c - 1) cur n -> 0 <= n < lim -> reported maxLen d ->
  exists x y r d' maxLen' full, rd l (cur - (pos - c) + n) = Some x /\ rd l (cur + n) = Some y /\
    (if x =? y then
       len ← extend l cur (cur - (pos - c)) (n + 1) lim;
       Some (if maxLen <? len then (len, d ++ [len; pos - c - 1], len, len =? lim) else (len, d, maxLen, false))
     else Some (n, d, maxLen, false)) = Some (r, d', maxLen', full) /\
    agree l (c - 1) cur r /\ reports d' /\
    if full : bool then r = lim
    else 0 <= r < lim /\ reported maxLen' d' /\
         exists x y, rd l (cur - (pos - c) + r) = Some x /\ rd l (cur + r) = Some y /\ x <> y.
Proof using All.
  intros Hc A Hn (m & Hd & Hm). pose proof lo_ok. pose proof (matches_len _ _ _ _ _ _ Hd).
  destruct (rd_Some l (cur - (pos - c) + n)) as [x Ex]; [lia|]. destruct (rd_Some l (cur + n)) as [y Ey]; [lia|].
  exists x, y. destruct (Z.eqb_spec x y) as [->|Hxy]; cycle 1.
  { exists n, d, maxLen, false. do 4 (split; [done|]). split; [by exists m|]. split; [done|]. split; [by exists m|]. by exists x, y. }
  assert (match_at l cur (n + 1) (pos - c)) as Hat.
  { apply (match_at_extend _ _ _ _ y); [apply agree_match_at; [done|done|lia]|lia|done|]. by replace (cur + n - (pos - c)) with (cur - (pos - c) + n) by lia. }
  destruct (extend_max l cur (pos - c) (n + 1) lim Hat) as (r & -> & Hr & Hat' & Hend); [lia|done|]. opt.
  assert (maxLen < r -> matches_ok l cur mm (N - 1) r (d ++ [r; pos - c - 1])) as Hadd.
  { intros Hlt. apply (matches_snoc _ _ _ _ m); [done|lia|lia|]. by replace (pos - c - 1 + 1) with (pos - c) by lia. }
  destruct (Z.ltb_spec maxLen r) as [Hlt|Hge].
  - exists r, (d ++ [r; pos - c - 1]), r, (r =? lim). do 3 (split; [done|]). split; [by apply match_at_agree|].
    split; [exists r; auto|]. destruct (Z.eqb_spec r lim); [done|]. split; [lia|]. split; [exists r; split; [auto|lia]|].
    destruct Hend; done.
  - exists r, d, maxLen, false. do 3 (split; [done|]). split; [by apply match_at_agree|]. split; [by exists m|]. split; [lia|].
    split; [by exists m|]. destruct Hend; [lia|done].
Qed.

(** Bounds of a tree: a position before it agrees with [cur] on [len1] bytes, one after it
    on [len0]. *)
Definition bounded (t : tree) (len0 len1 : Z) : Prop :=
  (len1 = 0 \/ exists w, agree l w cur len1 /\ forall x, x ∈ nodes t -> upto l lim w (x - 1)) /\
  (len0 = 0 \/ exists w, agree l w cur len0 /\ forall x, x ∈ nodes t -> upto l lim (x - 1) w).

Lemma bounded_agree t len0 len1 x :
  bounded t len0 len1 -> 0 <= len0 < lim -> 0 <= len1 < lim -> x ∈ nodes t -> agree l (x - 1) cur (if len0 <? len1 then len0 else len1).
Proof using.
  intros [[->|(w1 & A1 & H1)] [->|(w0 & A0 & H0)]] L0 L1 Hx.
  - by apply agree_nil.
  - apply agree_nil. destruct (Z.ltb_spec len0 0); lia.
  - apply agree_nil. destruct (Z.ltb_spec 0 len1); lia.
  - apply (upto_between l lim _ w1 _ w0); [by apply H1|by apply H0|destruct (Z.ltb_spec len0 len1); lia|
      eapply agree_le; [exact A1|destruct (Z.ltb_spec len0 len1); lia]|eapply agree_le; [exact A0|destruct (Z.ltb_spec len0 len1); lia]].
Qed.

Lemma bounded_sub t t' len0 len1 : bounded t len0 len1 -> (forall x, x ∈ nodes t' -> x ∈ nodes t) -> bounded t' len0 len1.
Proof using. intros [[|(w1 & A1 & H1)] [|(w0 & A0 & H0)]] Hs; split; eauto 6. Qed.

(** ** A turn *)

Lemma pair_cell c : lo < c < pos -> u32 (pos - c) = pos - c /\ cyc_back (pos mod N) (pos - c) N <<< 1 = cell N c.
Proof using All.
  intros Hc. pose proof lo_ok. split; [apply wrap_small; unfold in_width; lia|].
  rewrite cyc_back_mod, Z.shiftl_mul_pow2 by lia. unfold cell. replace (pos - (pos - c)) with c by lia. lia.
Qed.

(** The places where the two parts are linked. *)
Record places (s : list Z) (ptr0 ptr1 : Z) (t : tree) : Prop := {
  pc_range : 0 <= ptr0 < Z.of_nat (length s) /\ 0 <= ptr1 < Z.of_nat (length s);
  pc_ne : ptr0 <> ptr1; pc_t0 : ~ touches N ptr0 t; pc_t1 : ~ touches N ptr1 t
}.

Lemma bt_close_ok s ptr0 ptr1 t c :
  places s ptr0 ptr1 t -> 0 <= c -> exists s', bt_close s ptr0 ptr1 = Some s' /\ split_tree l N lo cur lim s s' ptr0 ptr1 c t Leaf Leaf.
Proof using All.
  intros [[H0 H1] Hne _ _] Hc. unfold bt_close. rewrite wrz_Some by done. opt. rewrite wrz_Some by (rewrite length_insert; done).
  eexists. split; [done|]. apply split_close; try done. pose proof lo_ok. lia.
Qed.

Lemma bt_replace_ok s ptr0 ptr1 c a b :
  places s ptr0 ptr1 (Node c a b) -> repr N lo s c (Node c a b) -> bst l lim (Node c a b) -> c < pos -> agree l (c - 1) cur lim ->
  exists s', bt_replace s ptr0 ptr1 (cell N c) = Some s' /\ split_tree l N lo cur lim s s' ptr0 ptr1 c (Node c a b) a b.
Proof using All.
  intros [[H0 H1] Hne T0 T1] Hr Hb Hc A. pose proof lo_ok. pose proof Hr as (_ & Hq & va & vb & Ea & Eb & _).
  unfold bt_replace. rewrite Ea. opt. rewrite wrz_Some by done. opt. rewrite touches_Node in T1.
  apply rd_range in Eb as Hrb. rewrite rd_insert_ne by lia. rewrite Eb. opt. rewrite wrz_Some by (rewrite length_insert; done).
  eexists. split; [done|]. apply (split_replace l N lo pos); try done; try lia.
  - apply upto_agree; [done|lia|lia].
  - apply upto_agree; [by apply agree_sym|lia|lia].
  - by rewrite touches_Node.
Qed.

(** The cells of the node in hand and its child take the place of a hole. *)
Lemma places_low s ptr0 ptr1 c a b :
  places s ptr0 ptr1 (Node c a b) -> repr N lo s c (Node c a b) -> bst l lim (Node c a b) -> c < pos ->
  places (<[Z.to_nat ptr1 := c]> s) ptr0 (cell N c + 1) b.
Proof using All.
  intros [[H0 H1] Hne T0 T1] Hr Hb Hc. pose proof lo_ok.
  destruct (Node_separate l N lo pos lim ltac:(lia) ltac:(lia) ltac:(lia) s c a b Hr Hb Hc) as (_ & (_ & _ & _ & Tb) & _).
  destruct Hr as (_ & _ & va & vb & _ & Eb & _). apply rd_range in Eb. rewrite touches_Node in T0.
  constructor; rewrite ?length_insert; [done|intros ->; tauto|tauto|done].
Qed.

Lemma places_high s ptr0 ptr1 c a b :
  places s ptr0 ptr1 (Node c a b) -> repr N lo s c (Node c a b) -> bst l lim (Node c a b) -> c < pos ->
  places (<[Z.to_nat ptr0 := c]> s) (cell N c) ptr1 a.
Proof using All.
  intros [[H0 H1] Hne T0 T1] Hr Hb Hc. pose proof lo_ok.
  destruct (Node_separate l N lo pos lim ltac:(lia) ltac:(lia) ltac:(lia) s c a b Hr Hb Hc) as (_ & (Ta & _) & _).
  destruct Hr as (_ & _ & va & vb & Ea & _). apply rd_range in Ea. rewrite touches_Node in T1.
  constructor; rewrite ?length_insert; [done|intros <-; tauto|done|tauto].
Qed.

Lemma repr_place s ptr v c t : 0 <= ptr -> ~ touches N ptr t -> repr N lo s c t -> repr N lo (<[Z.to_nat ptr := v]> s) c t.
Proof using All. intros Hp Ht Hr. apply (repr_frame N lo s); [done|]. intros i Hi. apply rd_insert_ne; [lia|]. by intros ->. Qed.

(** The descent: to the child on the side of [cur], with the tree split there. *)
Lemma bt_descend_ok s ptr0 ptr1 len0 len1 c a b r x y :
  places s ptr0 ptr1 (Node c a b) -> repr N lo s c (Node c a b) -> bst l lim (Node c a b) -> c < pos ->
  agree l (c - 1) cur r -> 0 <= r < lim -> bounded (Node c a b) len0 len1 -> 0 <= len0 < lim -> 0 <= len1 < lim ->
  rd l (cur - (pos - c) + r) = Some x -> rd l (cur + r) = Some y -> x <> y ->
  exists s1 ptr0' ptr1' len0' len1' c' t',
    bt_descend l cur (pos - c) r (cell N c) c (s, ptr0, ptr1, len0, len1) = Some (s1, ptr0', ptr1', len0', len1', c') /\
    (t' = a \/ t' = b) /\ c' < c /\ repr N lo s1 c' t' /\ bst l lim t' /\ places s1 ptr0' ptr1' t' /\
    bounded t' len0' len1' /\ 0 <= len0' < lim /\ 0 <= len1' < lim /\
    forall s' t1 t0, split_tree l N lo cur lim s1 s' ptr0' ptr1' c' t' t1 t0 ->
      exists t1 t0, split_tree l N lo cur lim s s' ptr0 ptr1 c (Node c a b) t1 t0.
Proof using All.
  intros Hp Hr Hb Hc A Hrl Hbd L0 L1 Ex Ey Hxy. pose proof lo_ok. pose proof Hp as [[H0 H1] Hne T0 T1].
  pose proof Hr as (_ & Hq & va & vb & Ea & Eb & Hva & Hvb & Ra & Rb). pose proof Hb as (Ba & Bb & _ & Hba & Hbb).
  assert (cur - (pos - c) = c - 1) as Ec by lia. unfold bt_descend. rewrite Ex. opt. rewrite Ey. opt. rewrite Ec in Ex.
  pose proof T0 as T0'. pose proof T1 as T1'. rewrite touches_Node in T0', T1'. apply rd_range in Ea as Hra. apply rd_range in Eb as Hrb.
  destruct (Z.ltb_spec x y) as [Hlt|Hge]; rewrite wrz_Some by done; opt; rewrite rd_insert_ne by lia; [rewrite Eb|rewrite Ea]; opt.
  - exists (<[Z.to_nat ptr1 := c]> s), ptr0, (cell N c + 1), len0, r, vb, b. split; [done|]. split; [tauto|]. split; [done|].
    split; [apply repr_place; [lia|tauto|done]|]. split; [done|]. split; [by apply (places_low _ _ _ _ a)|].
    split; [|split; [done|split; [done|]]].
    + split; [right; by exists (c - 1)|]. apply (bounded_sub (Node c a b) _ len0 len1); [done|]. intros z Hz. rewrite nodes_Node. tauto.
    + intros s' t1 t0 Hs. exists (Node c a t1), t0. apply (split_low l N lo pos cur lim ltac:(lia) ltac:(lia) ltac:(lia) s s' ptr0 ptr1 c a b vb); try done.
      apply (upto_diff l lim _ _ r x y); try done; lia.
  - exists (<[Z.to_nat ptr0 := c]> s), (cell N c), ptr1, r, len1, va, a. split; [done|]. split; [tauto|]. split; [done|].
    split; [apply repr_place; [lia|tauto|done]|]. split; [done|]. split; [by apply (places_high _ _ _ _ _ b)|].
    split; [|split; [done|split; [done|]]].
    + split; [|right; by exists (c - 1)]. apply (bounded_sub (Node c a b) _ len0 len1); [done|]. intros z Hz. rewrite nodes_Node. tauto.
    + intros s' t1 t0 Hs. exists t1, (Node c t0 b). apply (split_high l N lo pos cur lim ltac:(lia) ltac:(lia) ltac:(lia) s s' ptr0 ptr1 c a b va); try done.
      apply (upto_diff l lim _ _ r y x); try done; try lia. by apply agree_sym.
Qed.

(** ** The search *)
Lemma bt_loop_ok : forall t fuel s ptr0 ptr1 len0 len1 c cut d maxLen,
  repr N lo s c t -> bst l lim t -> lo < c < pos -> (Z.to_nat c < fuel)%nat -> places s ptr0 ptr1 t ->
  bounded t len0 len1 -> 0 <= len0 < lim -> 0 <= len1 < lim -> reported maxLen d ->
  exists d' s' t1 t0, loop fuel (bt_turn l lim pos cur (pos mod N) N lo) (s, ptr0, ptr1, len0, len1, c, cut, d, maxLen) = Some (d', s') /\
    reports d' /\ split_tree l N lo cur lim s s' ptr0 ptr1 c t t1 t0.
Proof using All.
  intros t. induction t as [|q a IHa b IHb]; intros fuel s ptr0 ptr1 len0 len1 c cut d maxLen Hr Hb Hc Hfuel Hp Hbd L0 L1 Hd;
    [cbn in Hr; lia|]. pose proof Hr as (<- & _). destruct fuel as [|fuel]; [lia|]. cbn [loop].
  unfold bt_turn at 1. destruct (pair_cell c Hc) as [-> ->]. set (n := if len0 <? len1 then len0 else len1).
  assert (0 <= n < lim) as Hn by (unfold n; destruct (len0 <? len1); lia).
  assert (agree l (c - 1) cur n) as A by (apply (bounded_agree _ _ _ _ Hbd); [done|done|rewrite nodes_Node; tauto]).
  destruct (compare_ok c n d maxLen Hc A Hn Hd) as (x & y & r & d1 & maxLen1 & full & -> & -> & E & Ar & Hd1 & Hfull). opt.
  rewrite E. opt. clear E. destruct full.
  - subst r. destruct (bt_replace_ok s ptr0 ptr1 c a b Hp Hr Hb ltac:(lia) Ar) as (s' & -> & Hs). opt. by exists d1, s', a, b.
  - destruct Hfull as (Hrl & Hrep & x' & y' & Ex & Ey & Hxy).
    destruct (bt_descend_ok s ptr0 ptr1 len0 len1 c a b r x' y' Hp Hr Hb ltac:(lia) Ar Hrl Hbd L0 L1 Ex Ey Hxy)
      as (s1 & p0 & p1 & n0 & n1 & c' & t' & -> & Ht' & Hc' & Hr' & Hb' & Hp' & Hbd' & L0' & L1' & Hback). opt.
    pose proof (repr_range N lo s1 t' c' Hr' (proj1 (proj1 lo_ok))) as [Hc0 _].
    destruct (negb (u32 (cut - 1) =? 0) && (lo <? c')) eqn:Ego; opt.
    + apply andb_prop in Ego as [_ Hlo%Z.ltb_lt].
      assert (exists d' s' t1 t0, loop fuel (bt_turn l lim pos cur (pos mod N) N lo) (s1, p0, p1, n0, n1, c', u32 (cut - 1), d1, maxLen1) = Some (d', s') /\
        reports d' /\ split_tree l N lo cur lim s1 s' p0 p1 c' t' t1 t0) as (d' & s' & t1 & t0 & -> & Hd' & Hs).
      { destruct Ht' as [->| ->]; [apply IHa|apply IHb]; try done; lia. }
      destruct (Hback s' t1 t0 Hs) as (u1 & u0 & Hs'). by exists d', s', u1, u0.
    + destruct (bt_close_ok s1 p0 p1 t' c' Hp' Hc0) as (s' & -> & Hs). opt.
      destruct (Hback s' Leaf Leaf Hs) as (u1 & u0 & Hs'). by exists d1, s', u1, u0.
Qed.

(** ** The new tree *)

(** The new position is the root of what is kept of the tree. *)
Record grown (s s' : list Z) (t u : tree) : Prop := {
  gr_len : length s' = length s; gr_repr : repr N lo s' pos u; gr_bst : bst l lim u;
  gr_nodes : forall x, x ∈ nodes u -> x = pos \/ x ∈ nodes t;
  gr_frame : forall i, i <> cell N pos -> i <> cell N pos + 1 -> ~ touches N i t -> rd s' i = rd s i
}.

Lemma new_places s c t : repr N lo s c t -> c < pos -> 2 * N <= Z.of_nat (length s) -> places s (cell N pos + 1) (cell N pos) t.
Proof using All.
  intros Hr Hc Hl. pose proof lo_ok. apply repr_range in Hr as [_ Hr]; [|lia]. pose proof (Z.mod_pos_bound pos N ltac:(lia)) as Hm.
  assert (forall i, (i = cell N pos \/ i = cell N pos + 1) -> ~ touches N i t) as Ht.
  { intros i Hi (x & Hx%Hr & Ex). pose proof (cell_parity N x pos). pose proof (cell_parity N pos x).
    assert (x = pos); [|lia]. apply (cell_inj N lo (pos + 1)); lia. }
  constructor; [unfold cell; lia|lia|apply Ht; tauto|apply Ht; tauto].
Qed.

Lemma split_grown s s' c t t1 t0 :
  repr N lo s c t -> c < pos -> split_tree l N lo cur lim s s' (cell N pos + 1) (cell N pos) c t t1 t0 -> grown s s' t (Node pos t1 t0).
Proof using All.
  intros Hr Hc [Hlen (v1 & E1 & R1 & V1) (v0 & E0 & R0 & V0) [B1 B0] S1 S0 Hd Hf]. pose proof lo_ok.
  constructor; [done| | |  |intros; apply Hf; done].
  - cbn [repr]. split; [done|]. split; [lia|]. exists v1, v0. do 2 (split; [done|]). split; [lia|]. split; [lia|done].
  - cbn [bst]. replace (pos - 1) with cur by lia. split; [intros x Hx; by apply S1|]. split; [intros x Hx; by apply S0|done].
  - intros x [->|[Hx|Hx]]%nodes_Node; [by left|right; by apply S1|right; by apply S0].
Qed.

Lemma GetMatchesSpec1_ok s c t cut d maxLen :
  repr N lo s c t -> bst l lim t -> 0 <= c < pos -> 2 * N <= Z.of_nat (length s) -> reported maxLen d ->
  exists d' s' u, GetMatchesSpec1 l lim c pos cur s (pos mod N) N cut d maxLen = Some (d', s') /\ reports d' /\ grown s s' t u.
Proof using All.
  intros Hr Hb Hc Hl Hd. pose proof (new_places s c t Hr ltac:(lia) Hl) as Hp. unfold GetMatchesSpec1.
  replace ((pos mod N) <<< 1) with (cell N pos) by (unfold cell; rewrite Z.shiftl_mul_pow2 by lia; lia).
  destruct (Z.ltb_spec lo c).
  - destruct (bt_loop_ok t (S (Z.to_nat pos)) s (cell N pos + 1) (cell N pos) 0 0 c cut d maxLen) as (d' & s' & t1 & t0 & -> & Hd' & Hs);
      try done; try lia; [split; by left|]. exists d', s', (Node pos t1 t0). split; [done|]. split; [done|]. apply (split_grown s s' c); [done|lia|done].
  - destruct (bt_close_ok s _ _ t c Hp ltac:(lia)) as (s' & -> & Hs). opt. exists d, s', (Node pos Leaf Leaf). split; [done|].
    split; [destruct Hd as (m & Hd & _); by exists m|]. apply (split_grown s s' c); [done|lia|done].
Qed.
End Search.

(** ** Skip

    A skip takes the tree apart in the same way. *)
Lemma extend_le l a b len lim r : extend l a b len lim = Some r -> len <= lim -> r <= lim.
Proof.
  intros E Hl. revert r E. apply (returns_loop (fun n => n <= lim) (fun r => r <= lim)); [|done].
  intros n Hn. destruct (Z.eqb_spec n lim); [apply returns_Some; lia|].
  destruct (rd l (a + n)) as [x|]; [|apply returns_None]. destruct (rd l (b + n)) as [y|]; [|apply returns_None]. opt.
  apply returns_Some. destruct (x =? y); lia.
Qed.

Lemma bt_descend_lens l cur delta len pair c s p0 p1 n0 n1 s' q0 q1 m0 m1 c' lim :
  bt_descend l cur delta len pair c (s, p0, p1, n0, n1) = Some (s', q0, q1, m0, m1, c') ->
  n0 < lim -> n1 < lim -> len < lim -> m0 < lim /\ m1 < lim.
Proof.
  unfold bt_descend. destruct (rd l (cur - delta + len)) as [x|]; [|done]. destruct (rd l (cur + len)) as [y|]; [|done]. opt.
  destruct (x <? y); [destruct (wrz s p1 c) as [s1|]|destruct (wrz s p0 c) as [s1|]]; try done; opt;
    [destruct (rd s1 (pair + 1)) as [z|]|destruct (rd s1 pair) as [z|]]; try done; opt; by intros [= <- <- <- <- <- <-].
Qed.

Lemma bt_skip_same l lim pos cur cyc cycSize lo : forall fuel s p0 p1 n0 n1 c cut d maxLen d' s',
  n0 < lim -> n1 < lim -> maxLen < lim ->
  loop fuel (bt_turn l lim pos cur cyc cycSize lo) (s, p0, p1, n0, n1, c, cut, d, maxLen) = Some (d', s') ->
  loop fuel (bt_skip_turn l lim pos cur cyc cycSize lo) (s, p0, p1, n0, n1, c, cut) = Some s'.
Proof.
  intros fuel. induction fuel as [|fuel IH]; intros s p0 p1 n0 n1 c cut d maxLen d' s' H0 H1 Hmax; [done|]. cbn [loop].
  unfold bt_turn at 1, bt_skip_turn at 1. cbv zeta. set (n := if n0 <? n1 then n0 else n1). set (pair := cyc_back _ _ _ <<< 1).
  assert (n < lim) as Hn by (unfold n; destruct (n0 <? n1); done).
  destruct (rd l (cur - u32 (pos - c) + n)) as [x|]; [|done]. destruct (rd l (cur + n)) as [y|]; [|done]. opt.
  set (go := fun len => bt_descend l cur (u32 (pos - c)) len pair c (s, p0, p1, n0, n1)).
  assert (forall len d1 maxLen1, len < lim -> maxLen1 < lim ->
    match
      ('(son, ptr0, ptr1, len0, len1, curMatch) ← go len;
       if negb (u32 (cut - 1) =? 0) && (lo <? curMatch)
       then Some (inl (son, ptr0, ptr1, len0, len1, curMatch, u32 (cut - 1), d1, maxLen1))
       else son ← bt_close son ptr0 ptr1; Some (inr (d1, son)))
    with
    | Some (inl st) => loop fuel (bt_turn l lim pos cur cyc cycSize lo) st
    | Some (inr r) => Some r
    | None => None
    end = Some (d', s') ->
    match
      ('(son, ptr0, ptr1, len0, len1, curMatch) ← go len;
       if negb (u32 (cut - 1) =? 0) && (lo <? curMatch)
       then Some (inl (son, ptr0, ptr1, len0, len1, curMatch, u32 (cut - 1)))
       else son ← bt_close son ptr0 ptr1; Some (inr son))
    with
    | Some (inl st) => loop fuel (bt_skip_turn l lim pos cur cyc cycSize lo) st
    | Some (inr r) => Some r
    | None => None
    end = Some s') as Hon.
  { intros len d1 maxLen1 Hlen H2. destruct (go len) as [[[[[[s1 q0] q1] m0] m1] c1]|] eqn:Eg; [|done]. opt.
    destruct (bt_descend_lens _ _ _ _ _ _ _ _ _ _ _ _ _ _ _ _ _ lim Eg) as [Hm0 Hm1]; [done..|].
    destruct (negb (u32 (cut - 1) =? 0) && (lo <? c1)); [by apply IH|].
    destruct (bt_close s1 q0 q1) as [s2|]; [|done]. opt. by intros [= _ <-]. }
  destruct (x =? y); opt.
  - destruct (extend _ _ _ _ _) as [r|] eqn:Ex; [|done]. opt. apply extend_le in Ex; [|lia].
    destruct (Z.eqb_spec r lim) as [->|]; cbn [andb].
    + destruct (Z.ltb_spec maxLen lim); [|lia]. destruct (bt_replace s p0 p1 pair) as [s2|]; [|done]. opt. by intros [= _ <-].
    + destruct (maxLen <? r); apply Hon; lia.
  - cbn [andb]. apply Hon; [lia|done].
Qed.

Lemma Skip_same l lim c pos cur s cyc N cut d maxLen d' s' :
  0 <= maxLen < lim -> GetMatchesSpec1 l lim c pos cur s cyc N cut d maxLen = Some (d', s') -> SkipMatchesSpec l lim c pos cur s cyc N cut = Some s'.
Proof.
  intros Hm. unfold GetMatchesSpec1, SkipMatchesSpec. cbv zeta. destruct (_ <? c); [apply bt_skip_same; lia|].
  destruct (bt_close _ _ _) as [s1|]; [|done]. opt. by intros [= _ <-].
Qed.

(** C14: GetMatchesSpec1 is insertion into a search tree.  Whatever tree of earlier positions
    [curMatch] is the root of, ordered by the data at them, the search returns, without an
    access out of range; it reports matches only, with increasing lengths; the new position
    is the root of a search tree of some of those positions; nothing else in [son] changes;
    and SkipMatchesSpec makes the same tree. *)
Theorem GetMatchesSpec1_inserts (l : list Z) (N mm pos lim c cut maxLen : Z) (s d : list Z) (t : tree)
    (HN : 2 <= N) (Hpos : 1 <= pos < 2 ^ 32) (Hlim : 0 < lim <= mm) (HL : pos - 1 + lim <= Z.of_nat (length l))
    (Hr : repr N (cm_check pos N) s c t) (Hb : bst l lim t) (Hc : 0 <= c < pos) (Hs : 2 * N <= Z.of_nat (length s))
    (Hd : exists m, matches_ok l (pos - 1) mm (N - 1) m d /\ m <= maxLen < lim) :
  exists d' s' u, GetMatchesSpec1 l lim c pos (pos - 1) s (pos mod N) N cut d maxLen = Some (d', s') /\
    SkipMatchesSpec l lim c pos (pos - 1) s (pos mod N) N cut = Some s' /\
    (exists m, matches_ok l (pos - 1) mm (N - 1) m d') /\
    length s' = length s /\ repr N (cm_check pos N) s' pos u /\ bst l lim u /\ (forall x, x ∈ nodes u -> x = pos \/ x ∈ nodes t) /\
    (forall i, i <> cell N pos -> i <> cell N pos + 1 -> ~ touches N i t -> rd s' i = rd s i).
Proof.
  destruct (GetMatchesSpec1_ok l N mm pos (pos - 1) lim HN ltac:(lia) ltac:(lia) ltac:(lia) Hlim HL s c t cut d maxLen Hr Hb Hc Hs Hd)
    as (d' & s' & u & E & Hd' & []). exists d', s', u. split; [done|]. split; [|done].
  destruct Hd as (m & Hm & ?). pose proof (matches_len _ _ _ _ _ _ Hm). apply (Skip_same _ _ _ _ _ _ _ _ _ d maxLen d'); [lia|done].
Qed.

Lemma GetMatchesSpec1_inserts_witness :
  exists d' s' u, GetMatchesSpec1 [5; 6; 5; 6; 7] 3 1 3 2 [0; 0; 0; 0; 0; 0; 0; 0] (3 mod 4) 4 32 [] 1 = Some (d', s') /\
    repr 4 0 s' 3 u /\ d' = [2; 1].
Proof.
  destruct (GetMatchesSpec1_inserts [5; 6; 5; 6; 7] 4 3 3 3 1 32 1 [0; 0; 0; 0; 0; 0; 0; 0] [] (Node 1 Leaf Leaf))
    as (d' & s' & u & E & _ & _ & _ & Hr & _).
  - lia.
  - lia.
  - lia.
  - cbn. lia.
  - cbn. split; [done|]. split; [lia|]. exists 0, 0. split; [done|]. split; [done|]. lia.
  - cbn. split; [by intros x ?%elem_of_nil|]. split; [by intros x ?%elem_of_nil|]. split; [by intros x ?%elem_of_nil|]. done.
  - lia.
  - cbn. lia.
  - exists 1. split; [constructor|lia].
  - exists d', s', u. split; [exact E|]. split; [exact Hr|].
    assert (GetMatchesSpec1 [5; 6; 5; 6; 7] 3 1 3 2 [0; 0; 0; 0; 0; 0; 0; 0] (3 mod 4) 4 32 [] 1 = Some ([2; 1], [0; 0; 0; 0; 0; 0; 1; 0])) as E' by reflexivity.
    change (3 - 1) with 2 in E. rewrite E' in E. by injection E as <- _.
Defined.
