(* ===== verification/LzFindSearch.v ===== *)
(** * Heads and searches

    The heads of 2 and 3 bytes of LzFind.v, and GetMatches over any search that keeps the
    laws of [engine]: hash chains and binary trees. *)

From stdpp Require Import base numbers list list_numbers.
From Stdlib Require Import ZArith Lia.
From S2P Require Import Prelude MatchFinder LzFind LzFindWindow.
Local Open Scope Z_scope.
Local Open Scope word_scope.

(** ** Keys

    The parts of the data the small hashes are made of: equal keys after an equal first byte
    give equal bytes. *)

Lemma lxor_cancel_l c a b : c ^^^ a = c ^^^ b -> a = b.
Proof.
  intros H. apply (f_equal (Z.lxor c)) in H. by rewrite <-!Z.lxor_assoc, Z.lxor_nilpotent, !Z.lxor_0_l in H.
Qed.

Lemma land_lxor_l a b m : (a ^^^ b) &&& m = (a &&& m) ^^^ (b &&& m).
Proof. apply Z.bits_inj'. intros i _. rewrite !Z.lxor_spec, !Z.land_spec, Z.lxor_spec. by do 3 destruct (Z.testbit _ i). Qed.

(** The low [n] bits of an exclusive or with a value of that width determine it. *)
Lemma lxor_mask_inj n c a b :
  0 <= n -> in_width n a -> in_width n b -> (c ^^^ a) &&& (2 ^ n - 1) = (c ^^^ b) &&& (2 ^ n - 1) -> a = b.
Proof.
  intros Hn Ha Hb. rewrite !land_lxor_l. intros H. apply lxor_cancel_l in H.
  rewrite !land_ones_mod, !Z.mod_small in H by (done || lia). done.
Qed.

Lemma lxor_bytes_inj a b c d :
  in_width 8 a -> in_width 8 b -> in_width 8 c -> in_width 8 d -> a ^^^ (b <<< 8) = c ^^^ (d <<< 8) -> a = c /\ b = d.
Proof. unfold in_width. intros ?? ?? H. rewrite !lxor_shiftl_add in H by lia. lia. Qed.

Lemma land_mask_le x m : 0 <= m -> 0 <= x &&& m <= m.
Proof.
  intros Hm. split; [apply Z.land_nonneg; by right|].
  assert (0 <= m - (x &&& m)); [|lia]. rewrite Z.sub_nocarry_ldiff.
  - apply Z.ldiff_nonneg. by left.
  - apply Z.bits_inj'. intros i _. rewrite Z.ldiff_spec, Z.land_spec, Z.bits_0. by do 2 destruct (Z.testbit _ i).
Qed.

(** There is room for [lim] bytes at the position [n]: the longest match or what is left. *)
Definition room (l : list Z) (mm n lim : Z) : Prop :=
  1 <= n < 2 ^ 32 /\ 1 < lim <= mm /\ n - 1 + lim <= Z.of_nat (length l) /\ (lim = mm \/ lim = Z.of_nat (length l) - (n - 1)).

(** ** Searches

    What GetMatches needs of a search.  [eg_table n]: the heads from [fix_sz] on and [son]
    before the position [n] is entered; [eg_open n c]: its head refers to it and gave [c].
    The search enters the position in [son] and reports matches; a skip only enters it. *)
Record engine (l : list Z) (N mm fix_sz mask : Z) (key : Z -> option Z) := {
  eg_get : get_spec; eg_skip : skip_spec;
  eg_table : Z -> list Z -> list Z -> Prop; eg_open : Z -> Z -> list Z -> list Z -> Prop;
  eg_enter n i h s :
    eg_table n h s -> 1 <= n -> key (n - 1) = Some i -> fix_sz <= i <= fix_sz + mask ->
    exists c, rd h i = Some c /\ 0 <= c < n /\
      forall h', (forall j, fix_sz <= j -> rd h' j = rd h j) -> exists h'', wrz h' i n = Some h'' /\ eg_open n c h'' s;
  eg_get_ok n lim c h s cut d maxLen :
    eg_open n c h s -> room l mm n lim -> (exists m, matches_ok l (n - 1) mm (N - 1) m d /\ m <= maxLen < lim) ->
    exists d' s', eg_get l lim c n (n - 1) s (n mod N) N cut d maxLen = Some (d', s') /\
      (exists m, matches_ok l (n - 1) mm (N - 1) m d') /\ eg_table (n + 1) h s';
  eg_skip_ok n lim c h s cut :
    eg_open n c h s -> room l mm n lim ->
    exists s', eg_skip l lim c n (n - 1) s (n mod N) N cut = Some s' /\ eg_table (n + 1) h s'
}.
Arguments eg_get {_ _ _ _ _ _}.
Arguments eg_skip {_ _ _ _ _ _}.
Arguments eg_table {_ _ _ _ _ _}.
Arguments eg_open {_ _ _ _ _ _}.
Arguments eg_enter {_ _ _ _ _ _}.
Arguments eg_get_ok {_ _ _ _ _ _}.
Arguments eg_skip_ok {_ _ _ _ _ _}.

Section Search.
Variables (l crct : list Z) (N mm mask nb : Z) (bt : bool) (key : Z -> option Z).
Variable G : engine l N mm (fix_size nb) mask key.

Abbreviation L := (Z.of_nat (length l)).
Abbreviation minLen := (min_len nb).
Abbreviation config := (settings l crct N mm mask nb bt).
Abbreviation is_fixed := (fixed l crct N mm mask nb bt key).
Abbreviation is_placed := (placed l N).
Abbreviation is_limited := (limited l N mm).

Lemma fix_size_cases : 2 <= nb ->
  (nb = 2 /\ fix_size nb = 0 /\ minLen = 2) \/ (nb = 3 /\ fix_size nb = 1024 /\ minLen = 3) \/
  (4 <= nb /\ fix_size nb = 66560 /\ 4 <= minLen).
Proof.
  intros H. unfold fix_size, min_len. destruct (Z.eqb_spec nb 2); [tauto|]. destruct (Z.eqb_spec nb 3); [tauto|].
  right. right. split; [lia|]. split; [done|]. destruct (nb <=? 4); lia.
Qed.

Definition key_temp (i : Z) : option Z := b0 ← rd l i; c0 ← rd crct b0; b1 ← rd l (i + 1); Some (c0 ^^^ b1).
Definition key2 (i : Z) : option Z := temp ← key_temp i; Some (temp &&& (kHash2Size - 1)).
Definition key3 (i : Z) : option Z :=
  temp ← key_temp i; b2 ← rd l (i + 2); Some ((temp ^^^ (b2 <<< 8)) &&& (kHash3Size - 1)).

Lemma rd_byte i b : config -> rd l i = Some b -> in_width 8 b.
Proof. intros Hs. apply rd_Forall, Hs. Qed.

Lemma key_temp_Some i : config -> 0 <= i -> i + 1 < L -> exists t, key_temp i = Some t.
Proof.
  intros Hs H1 H2. unfold key_temp.
  destruct (rd_Some l i) as [b0 E0]; [lia|]. destruct (rd_Some l (i + 1)) as [b1 E1]; [lia|].
  pose proof (rd_byte i b0 Hs E0) as Hb. unfold in_width in Hb. pose proof (st_table Hs).
  destruct (rd_Some crct b0) as [c0 Ec]; [lia|]. rewrite E0. cbn. rewrite Ec. cbn. rewrite E1. cbn. eauto.
Qed.

Lemma key_temp_match i j b t t' :
  rd l i = Some b -> rd l j = Some b -> key_temp i = Some t -> key_temp j = Some t' ->
  exists c b1 b1', rd l (i + 1) = Some b1 /\ rd l (j + 1) = Some b1' /\ t = c ^^^ b1 /\ t' = c ^^^ b1'.
Proof.
  unfold key_temp. intros -> ->. cbn. destruct (rd crct b) as [c|]; [|done]. cbn.
  destruct (rd l (i + 1)) as [b1|]; [|done]. destruct (rd l (j + 1)) as [b1'|]; [|done]. cbn.
  intros [= <-] [= <-]. by exists c, b1, b1'.
Qed.

Lemma key2_match i j b h :
  config -> rd l i = Some b -> rd l j = Some b -> key2 i = Some h -> key2 j = Some h -> rd l (i + 1) = rd l (j + 1).
Proof.
  intros Hs Hi Hj. unfold key2. destruct (key_temp i) as [t|] eqn:Et; [|done]. destruct (key_temp j) as [t'|] eqn:Et'; [|done].
  cbn. intros [= <-] [= E]. destruct (key_temp_match i j b t t') as (c & b1 & b1' & E1 & E1' & -> & ->); [done..|].
  apply (rd_byte _ _ Hs) in E1 as H1. apply (rd_byte _ _ Hs) in E1' as H2. rewrite E1, E1'. f_equal. symmetry.
  apply (lxor_mask_inj 10 c); [lia|(eapply (in_width_mono 8); [lia|done])..|done].
Qed.

Lemma key3_match i j b h :
  config -> rd l i = Some b -> rd l j = Some b -> key3 i = Some h -> key3 j = Some h ->
  rd l (i + 1) = rd l (j + 1) /\ rd l (i + 2) = rd l (j + 2).
Proof.
  intros Hs Hi Hj. unfold key3. destruct (key_temp i) as [t|] eqn:Et; [|done]. destruct (key_temp j) as [t'|] eqn:Et'; [|done].
  cbn. destruct (rd l (i + 2)) as [b2|] eqn:E2; [|done]. destruct (rd l (j + 2)) as [b2'|] eqn:E2'; [|done].
  cbn. intros [= <-] [= E]. destruct (key_temp_match i j b t t') as (c & b1 & b1' & E1 & E1' & -> & ->); [done..|].
  apply (rd_byte _ _ Hs) in E1 as H1. apply (rd_byte _ _ Hs) in E1' as H1'.
  apply (rd_byte _ _ Hs) in E2 as H2. apply (rd_byte _ _ Hs) in E2' as H2'.
  rewrite !Z.lxor_assoc in E. apply (lxor_mask_inj 16) in E; [|lia| |]; cycle 1.
  - unfold in_width in *. rewrite lxor_shiftl_add by lia. lia.
  - unfold in_width in *. rewrite lxor_shiftl_add by lia. lia.
  - apply lxor_bytes_inj in E; [|done..]. destruct E. split; congruence.
Qed.

(** ** The heads of 2 and 3 bytes

    Before the position [n] is entered: a head refers to an earlier position with its key. *)
Definition head_ok (n i v : Z) : Prop :=
  0 <= v < n /\ (v <> 0 -> (i < kHash2Size -> key2 (v - 1) = Some i) /\ (kHash2Size <= i -> key3 (v - 1) = Some (i - kHash2Size))).
Definition heads (n : Z) (h : list Z) : Prop := forall i, 0 <= i < fix_size nb -> exists v, rd h i = Some v /\ head_ok n i v.

Lemma heads_mono n h : heads n h -> heads (n + 1) h.
Proof. intros H i Hi. destruct (H i Hi) as (v & ? & ? & ?). exists v. split; [done|]. split; [lia|done]. Qed.

Lemma heads_write n h i :
  heads (n + 1) h -> 0 <= i < fix_size nb -> head_ok (n + 1) i n ->
  exists h', wrz h i n = Some h' /\ heads (n + 1) h' /\ forall j, fix_size nb <= j -> rd h' j = rd h j.
Proof.
  intros Hh Hi Hok. destruct (Hh i Hi) as (v & Hv & _). apply rd_range in Hv. exists (<[Z.to_nat i := n]> h).
  split; [by apply wrz_Some|]. split; [|intros j Hj; apply rd_insert_ne; lia]. intros j Hj. destruct (Z.eq_dec j i) as [->|].
  - exists n. split; [|done]. rewrite rd_lookup by lia. apply list_lookup_insert_eq. lia.
  - rewrite rd_insert_ne by lia. by apply Hh.
Qed.

Lemma heads_above n h h' i v : heads n h -> wrz h i v = Some h' -> fix_size nb <= i -> heads n h'.
Proof.
  intros Hh [Hr ->]%wrz_inv Hi j Hj.
  rewrite rd_insert_ne by lia. by apply Hh.
Qed.

Lemma match2 cur d h x :
  config -> 1 <= d <= cur -> cur + 2 <= L -> rd l cur = Some x -> rd l (cur - d) = Some x ->
  key2 cur = Some h -> key2 (cur - d) = Some h -> match_at l cur 2 d.
Proof.
  intros Hs Hd HL Ex Ey K1 K2. split; [done|]. split; [done|]. intros i Hi.
  destruct (Z.eq_dec i 0) as [->|]; [rewrite Z.add_0_r; congruence|]. replace i with 1 by lia.
  replace (cur + 1 - d) with (cur - d + 1) by lia. by apply (key2_match _ _ x h).
Qed.

Lemma match3 cur d h x :
  config -> 1 <= d <= cur -> cur + 3 <= L -> rd l cur = Some x -> rd l (cur - d) = Some x ->
  key3 cur = Some h -> key3 (cur - d) = Some h -> match_at l cur 3 d.
Proof.
  intros Hs Hd HL Ex Ey K1 K2. split; [done|]. split; [done|]. intros i Hi.
  destruct (key3_match cur (cur - d) x h) as [E1 E2]; [done..|].
  destruct (Z.eq_dec i 0) as [->|]; [rewrite Z.add_0_r; congruence|].
  destruct (Z.eq_dec i 1) as [->|]; [by replace (cur + 1 - d) with (cur - d + 1) by lia|].
  replace i with 2 by lia. by replace (cur + 2 - d) with (cur - d + 2) by lia.
Qed.

Lemma head_matches_ok cur d mmm :
  (d < mmm -> 1 <= d <= cur) -> 0 <= cur < L ->
  exists b, head_matches l cur d mmm = Some b /\
    (b = true -> d < mmm /\ exists x, rd l cur = Some x /\ rd l (cur - d) = Some x).
Proof.
  intros Hd Hc. unfold head_matches. destruct (Z.ltb_spec d mmm); [|by exists false].
  destruct (rd_Some l (cur - d)) as [x Ex]; [lia|]. destruct (rd_Some l cur) as [y Ey]; [lia|].
  rewrite Ex. cbn. rewrite Ey. cbn. eexists. split; [done|]. intros ->%Z.eqb_eq. split; [done|]. by exists y.
Qed.

Lemma short_heads_ok cur d2 d3 mmm h2 h3 :
  config -> 0 <= cur -> cur + 3 <= L -> mmm <= N -> key2 cur = Some h2 -> key3 cur = Some h3 ->
  (d2 < mmm -> 1 <= d2 <= cur /\ key2 (cur - d2) = Some h2) ->
  (d3 < mmm -> 1 <= d3 <= cur /\ key3 (cur - d3) = Some h3) ->
  exists d more m, short_heads l cur d2 d3 mmm [] = Some (d, more) /\ matches_ok l cur mm (N - 1) m d /\ m <= 2 /\
    forall e, more = Some e -> 1 <= e < N /\ match_at l cur 3 e.
Proof.
  intros Hs Hc HL Hm K2 K3 H2 H3. pose proof (st_min Hs). pose proof (min_len_range nb (st_nb Hs)). unfold short_heads.
  destruct (head_matches_ok cur d2 mmm) as (m2 & -> & Hm2); [intros; by apply H2|lia|]. opt.
  destruct (head_matches_ok cur d3 mmm) as (m3 & -> & Hm3); [intros; by apply H3|lia|]. opt.
  pose proof (matches_nil l cur mm (N - 1)) as Hnil.
  assert (m3 = true -> 1 <= d3 < N /\ match_at l cur 3 d3) as Hd3.
  { intros E. destruct (Hm3 E) as (Hlt & x & Ex & Ex'). destruct (H3 Hlt) as [? ?].
    split; [lia|]. by apply (match3 cur d3 h3 x). }
  destruct m2.
  - destruct (Hm2 eq_refl) as (Hlt & x & Ex & Ex'). destruct (H2 Hlt) as [Hr ?].
    assert (match_at l cur 2 d2) as Hat by (apply (match2 cur d2 h2 x); (done || lia)).
    destruct (rd_Some l (cur - d2 + 2)) as [y Ey]; [lia|]. destruct (rd_Some l (cur + 2)) as [z Ez]; [lia|].
    rewrite Ey. opt. rewrite Ez. opt. destruct (Z.eqb_spec y z) as [->|].
    + exists [], (Some d2), 1. split; [done|]. split; [done|]. split; [lia|]. intros e [= <-]. split; [lia|].
      apply (match_at_extend _ _ 2 _ z); [done|lia|done|by replace (cur + 2 - d2) with (cur - d2 + 2) by lia].
    + assert (matches_ok l cur mm (N - 1) 2 ([] ++ [2; d2 - 1])) as Hmk.
      { apply (matches_snoc _ _ _ _ 1); [done|lia|lia|]. by replace (d2 - 1 + 1) with d2 by lia. }
      destruct m3; eexists _, _, 2; (split; [done|]); (split; [done|]); (split; [lia|]); intros e [= <-]. by apply Hd3.
  - destruct m3; eexists _, _, 1; (split; [done|]); (split; [done|]); (split; [lia|]); intros e [= <-]. by apply Hd3.
Qed.

(** ** Hashes of a position *)
Lemma crc_at_Some p i : config -> is_fixed p -> 0 <= i < L -> exists c, crc_at p i = Some c.
Proof.
  intros Hs Hf Hi. unfold crc_at. rewrite (fx_data _ Hf), (fx_crc _ Hf). destruct (rd_Some l i) as [b Eb]; [lia|].
  rewrite Eb. opt. pose proof (rd_byte i b Hs Eb) as Hb. unfold in_width in Hb. apply rd_Some. pose proof (st_table Hs). lia.
Qed.

Lemma key_temp_eq p i c b1 : is_fixed p -> crc_at p i = Some c -> rd l (i + 1) = Some b1 -> key_temp i = Some (c ^^^ b1).
Proof.
  intros Hf. unfold crc_at, key_temp. rewrite (fx_data _ Hf), (fx_crc _ Hf). destruct (rd l i) as [b|]; [|done]. opt.
  intros ->. opt. intros ->. done.
Qed.

Lemma key2_ok cur t : key_temp cur = Some t -> key2 cur = Some (t &&& (kHash2Size - 1)) /\ 0 <= t &&& (kHash2Size - 1) < 1024.
Proof. intros Ht. unfold key2. rewrite Ht. split; [done|]. pose proof (land_mask_le t (kHash2Size - 1) ltac:(done)). change (kHash2Size - 1) with 1023 in *. lia. Qed.

Lemma key3_ok cur t b2 :
  key_temp cur = Some t -> rd l (cur + 2) = Some b2 ->
  key3 cur = Some ((t ^^^ (b2 <<< 8)) &&& (kHash3Size - 1)) /\ 0 <= (t ^^^ (b2 <<< 8)) &&& (kHash3Size - 1) < 65536.
Proof.
  intros Ht Hb. unfold key3. rewrite Ht. opt. rewrite Hb. split; [done|].
  pose proof (land_mask_le (t ^^^ (b2 <<< 8)) (kHash3Size - 1) ltac:(done)). change (kHash3Size - 1) with 65535 in *. lia.
Qed.

(** ** Entering a position *)

(** Before a position with enough bytes. *)
Record mid (p : CMatchFinder) : Prop := {
  md_fixed : is_fixed p; md_placed : is_placed p; md_limited : is_limited p; md_len : minLen <= lenLimit p;
  md_pos : pos p < posLimit p; md_heads : heads (pos p) (hash p); md_table : eg_table G (pos p) (hash p) (son p)
}.

(** Inside a position: its heads refer to it, [c] is what the head of the longest hash had. *)
Record entered (c : Z) (p : CMatchFinder) : Prop := {
  en_fixed : is_fixed p; en_placed : is_placed p; en_limited : is_limited p; en_pos : pos p < posLimit p;
  en_len : minLen <= lenLimit p; en_range : 0 <= c < pos p; en_heads : heads (pos p + 1) (hash p);
  en_open : eg_open G (pos p) c (hash p) (son p)
}.

Lemma entered_intro p c h :
  mid p -> 0 <= c < pos p -> heads (pos p + 1) h -> eg_open G (pos p) c h (son p) -> entered c (set_refs h (son p) p).
Proof. intros [Hf Hp Hl Hlen Hpos Hh Ht] Hc Hh' Ho. by constructor; [apply set_refs_fixed|apply set_refs_placed|apply set_refs_limited|..]. Qed.

(** The head of the longest hash, after the others are written. *)
Lemma main_head p i h :
  mid p -> key (buffer p) = Some i -> fix_size nb <= i <= fix_size nb + mask ->
  heads (pos p + 1) h -> (forall j, fix_size nb <= j -> rd h j = rd (hash p) j) ->
  exists c h', rd (hash p) i = Some c /\ wrz h i (pos p) = Some h' /\ entered c (set_refs h' (son p) p).
Proof.
  intros Hm Hk Hi Hh Hsame. pose proof (pl_pos _ (md_placed _ Hm)). pose proof (pl_buffer _ (md_placed _ Hm)).
  destruct (eg_enter G (pos p) i (hash p) (son p)) as (c & Ec & Hc & Hw); [apply Hm|lia|by replace (pos p - 1) with (buffer p) by lia|done|].
  destruct (Hw h Hsame) as (h' & Ew & Ho). exists c, h'. split; [done|]. split; [done|].
  apply entered_intro; [done|done| |done]. apply (heads_above _ h _ i (pos p)); [done|done|lia].
Qed.

Lemma room_ok p : config -> is_placed p -> is_limited p -> pos p < posLimit p -> 1 < lenLimit p -> room l mm (pos p) (lenLimit p).
Proof.
  intros Hs [Hb Hp _ _] [_ _ Hlen Hnn Hlim] Hpos H0. pose proof (st_len Hs). split; [lia|]. split; [lia|]. split; lia.
Qed.

Lemma mid_room p : config -> mid p -> room l mm (pos p) (lenLimit p) /\ pos p = buffer p + 1 /\ 0 <= buffer p /\
  minLen <= L - buffer p /\ cyclicBufferPos p = pos p mod N.
Proof.
  intros Hs [Hf Hp Hl Hlen Hpos _ _]. pose proof (min_len_range nb (st_nb Hs)).
  assert (room l mm (pos p) (lenLimit p)) as Hr by (apply room_ok; (done || lia)). destruct Hp as [Hb Ep Hc Hm], Hl as [? Hcyc Hlen' _ _].
  do 3 (split; [done || lia|]). split; [lia|]. rewrite <-Hm. symmetry. apply Z.mod_small. lia.
Qed.

Lemma enter1 p :
  config -> mid p -> nb = 2 ->
  exists hv c h, HASH2_CALC p (buffer p) = Some hv /\ head1 hv p = Some (c, set_refs h (son p) p) /\ entered c (set_refs h (son p) p).
Proof.
  intros Hs Hm Hnb. destruct (mid_room p Hs Hm) as (_ & Ep & Hb & HL & _). pose proof (md_fixed _ Hm) as Hf.
  assert (minLen = 2 /\ fix_size nb = 0) as [Hml Hfix] by (unfold min_len, fix_size; rewrite Hnb; done).
  pose proof (fx_key _ Hf (buffer p)) as Hk. unfold main_index in Hk. rewrite (fx_nb _ Hf), Hnb in Hk. change (2 =? 2) with true in Hk.
  cbv beta iota in Hk. unfold HASH2_CALC in *. rewrite (fx_data _ Hf) in *.
  destruct (rd_Some l (buffer p)) as [b0 E0]; [lia|]. destruct (rd_Some l (buffer p + 1)) as [b1 E1]; [lia|].
  pose proof (rd_byte _ _ Hs E0) as H0. pose proof (rd_byte _ _ Hs E1) as H1. rewrite E0, E1 in *. opt. cbn [mbind option_bind] in Hk.
  pose proof (st_two Hs Hnb). unfold in_width in *.
  assert (0 <= b0 ||| (b1 <<< 8) <= 65535) as Hr by (rewrite lor_shiftl_add by lia; lia).
  destruct (main_head p (b0 ||| (b1 <<< 8)) (hash p)) as (c & h & Ec & Ew & He); [done|done|lia|intros j Hj; lia|done|].
  exists (b0 ||| (b1 <<< 8)), c, h. split; [done|]. split; [|done]. unfold head1, hash_at, set_hash. rewrite Ec. opt. by rewrite Ew.
Qed.

(** The head of 2 bytes. *)
Lemma head2_ok p h2 :
  mid p -> key2 (buffer p) = Some h2 -> 0 <= h2 < 1024 -> 1024 <= fix_size nb ->
  exists v2 h, rd (hash p) h2 = Some v2 /\ wrz (hash p) h2 (pos p) = Some h /\ 0 <= v2 < pos p /\
    (v2 <> 0 -> key2 (v2 - 1) = Some h2) /\ heads (pos p + 1) h /\ forall j, fix_size nb <= j -> rd h j = rd (hash p) j.
Proof.
  intros Hm K2 H2 Hfix. pose proof (md_heads _ Hm) as Hh. pose proof (pl_pos _ (md_placed _ Hm)). pose proof (pl_buffer _ (md_placed _ Hm)).
  destruct (Hh h2) as (v2 & E2 & Hv2 & Hk2); [lia|]. change kHash2Size with 1024 in Hk2.
  destruct (heads_write (pos p) (hash p) h2) as (h & Ew & Hh' & Hsame); [by apply heads_mono|lia| |].
  { split; [lia|]. intros _. change kHash2Size with 1024. replace (pos p - 1) with (buffer p) by lia. split; [done|lia]. }
  exists v2, h. do 3 (split; [done|]). split; [|done]. intros Hne. apply Hk2; [done|lia].
Qed.

Lemma enter2 p :
  config -> mid p -> nb = 3 ->
  exists h2 hv v2 c h, HASH3_CALC p (buffer p) = Some (h2, hv) /\ head2 h2 hv p = Some (v2, c, set_refs h (son p) p) /\
    entered c (set_refs h (son p) p) /\ key2 (buffer p) = Some h2 /\ 0 <= v2 < pos p /\ (v2 <> 0 -> key2 (v2 - 1) = Some h2).
Proof.
  intros Hs Hm Hnb. destruct (mid_room p Hs Hm) as (_ & Ep & Hb & HL & _). pose proof (md_fixed _ Hm) as Hf.
  assert (minLen = 3 /\ fix_size nb = 1024) as [Hml Hfix] by (unfold min_len, fix_size; rewrite Hnb; done).
  pose proof (fx_key _ Hf (buffer p)) as Hk. unfold main_index in Hk. rewrite (fx_nb _ Hf), Hnb in Hk.
  change (3 =? 2) with false in Hk. change (3 =? 3) with true in Hk. cbv beta iota in Hk. unfold HASH3_CALC in *.
  destruct (crc_at_Some p (buffer p)) as [c0 E0]; [done..|lia|]. rewrite (fx_data _ Hf), (fx_mask _ Hf), E0 in *.
  destruct (rd_Some l (buffer p + 1)) as [b1 E1]; [lia|]. destruct (rd_Some l (buffer p + 2)) as [b2 E2]; [lia|]. rewrite E1, E2 in *.
  opt. cbn [mbind option_bind] in Hk. pose proof (key_temp_eq p _ _ _ Hf E0 E1) as Ht. destruct (key2_ok _ _ Ht) as [K2 R2].
  set (h2 := (c0 ^^^ b1) &&& (kHash2Size - 1)) in *. set (hv := ((c0 ^^^ b1) ^^^ (b2 <<< 8)) &&& mask) in *.
  assert (0 <= hv <= mask) as Rv by (apply land_mask_le; apply (st_mask Hs)). change kFix3HashSize with 1024 in *.
  destruct (head2_ok p h2 Hm K2 R2 ltac:(lia)) as (v2 & h & Ev2 & Ew2 & Rv2 & Hk2 & Hh & Hsame).
  destruct (main_head p (1024 + hv) h) as (c & h' & Ec & Ew & He); [done|done|lia|done|done|].
  exists h2, hv, v2, c, h'. split; [done|]. split; [|done]. unfold head2, hash_at, set_hash. change kFix3HashSize with 1024.
  rewrite Ev2. opt. rewrite Ec. opt. rewrite Ew2. opt. cbn [hash set_refs pos]. by rewrite Ew.
Qed.

(** The hashes of 2 and 3 bytes and the longest one, by [numHashBytes]. *)
Definition HASH_CALC (p : CMatchFinder) : option (Z * Z * Z) :=
  if numHashBytes p <=? 4 then HASH4_CALC p (buffer p) else HASH5_CALC p (buffer p).

Lemma HASH_CALC_ok p :
  config -> mid p -> 4 <= nb ->
  exists h2 h3 hv, HASH_CALC p = Some (h2, h3, hv) /\ key2 (buffer p) = Some h2 /\ 0 <= h2 < 1024 /\ key3 (buffer p) = Some h3 /\
    0 <= h3 < 65536 /\ 0 <= hv <= mask /\ key (buffer p) = Some (kFix4HashSize + hv).
Proof.
  intros Hs Hm Hnb. destruct (mid_room p Hs Hm) as (_ & Ep & Hb & HL & _). pose proof (md_fixed _ Hm) as Hf.
  rewrite <-(fx_key _ Hf). unfold main_index, HASH_CALC. rewrite (fx_nb _ Hf), (proj2 (Z.eqb_neq nb 2)), (proj2 (Z.eqb_neq nb 3)) by lia.
  unfold min_len in HL. rewrite (proj2 (Z.eqb_neq nb 2)), (proj2 (Z.eqb_neq nb 3)) in HL by lia. pose proof (land_mask_le) as Hland.
  assert (4 <= L - buffer p) by (destruct (nb <=? 4); lia). unfold HASH4_CALC, HASH5_CALC. change kFix5HashSize with kFix4HashSize.
  destruct (crc_at_Some p (buffer p)) as [c0 E0]; [done..|lia|]. rewrite (fx_data _ Hf), (fx_mask _ Hf), E0.
  destruct (rd_Some l (buffer p + 1)) as [b1 E1]; [lia|]. destruct (rd_Some l (buffer p + 2)) as [b2 E2]; [lia|]. rewrite E1, E2.
  destruct (crc_at_Some p (buffer p + 3)) as [c3 ->]; [done..|lia|]. pose proof (key_temp_eq p _ _ _ Hf E0 E1) as Ht.
  destruct (key2_ok _ _ Ht) as [K2 R2]. destruct (key3_ok _ _ _ Ht E2) as [K3 R3]. pose proof (proj1 (st_mask Hs)).
  destruct (nb <=? 4); opt.
  - eexists _, _, _. split; [done|]. do 4 (split; [done|]). split; [by apply Hland|done].
  - destruct (crc_at_Some p (buffer p + 4)) as [c4 ->]; [done..|lia|]. opt.
    eexists _, _, _. split; [done|]. do 4 (split; [done|]). split; [by apply Hland|done].
Qed.

Lemma enter3 p :
  config -> mid p -> 4 <= nb ->
  exists h2 h3 hv v2 v3 c h, HASH_CALC p = Some (h2, h3, hv) /\ head3 kFix4HashSize h2 h3 hv p = Some (v2, v3, c, set_refs h (son p) p) /\
    entered c (set_refs h (son p) p) /\ key2 (buffer p) = Some h2 /\ key3 (buffer p) = Some h3 /\ 0 <= v2 < pos p /\ 0 <= v3 < pos p /\
    (v2 <> 0 -> key2 (v2 - 1) = Some h2) /\ (v3 <> 0 -> key3 (v3 - 1) = Some h3).
Proof.
  intros Hs Hm Hnb. destruct (HASH_CALC_ok p Hs Hm Hnb) as (h2 & h3 & hv & EH & K2 & R2 & K3 & R3 & Rv & Hk).
  assert (fix_size nb = 66560) as Hfix by (unfold fix_size; rewrite (proj2 (Z.eqb_neq nb 2)), (proj2 (Z.eqb_neq nb 3)) by lia; done).
  destruct (head2_ok p h2 Hm K2 R2 ltac:(lia)) as (v2 & h & Ev2 & Ew2 & Rv2 & Hk2 & Hh & Hsame).
  pose proof (md_heads _ Hm) as Hh0. pose proof (pl_pos _ (md_placed _ Hm)). pose proof (pl_buffer _ (md_placed _ Hm)).
  pose proof (eq_refl : kHash2Size = 1024) as C2.
  destruct (Hh0 (1024 + h3)) as (v3 & E3 & Hv3 & Hk3); [lia|].
  destruct (heads_write (pos p) h (1024 + h3)) as (g & Ew3 & Hg & Hsame'); [done|lia| |].
  { split; [lia|]. intros _. rewrite C2. split; [lia|]. intros _. replace (pos p - 1) with (buffer p) by lia. rewrite K3. f_equal. lia. }
  change kFix4HashSize with 66560 in *.
  destruct (main_head p (66560 + hv) g) as (c & h' & Ec & Ew & He); [done|done|lia|done| |].
  { intros j Hj. rewrite Hsame' by lia. by apply Hsame. }
  exists h2, h3, hv, v2, v3, c, h'. split; [done|]. split; [|do 5 (split; [done|]); split; [done|]].
  - unfold head3, hash_at, set_hash. change kFix3HashSize with 1024. rewrite Ev2. opt. rewrite E3. opt. rewrite Ec. opt. rewrite Ew2. opt.
    cbn [hash set_refs pos son]. rewrite Ew3. opt. cbn [hash set_refs pos son]. by rewrite Ew.
  - intros Hne. rewrite (proj2 (Hk3 Hne)) by lia. f_equal. lia.
Qed.

(** ** Leaving a position *)
Definition tables (p : CMatchFinder) : Prop :=
  minLen <= L - buffer p -> heads (pos p) (hash p) /\ eg_table G (pos p) (hash p) (son p).
Definition ready (p : CMatchFinder) : Prop :=
  is_fixed p /\ is_placed p /\ is_limited p /\ active l p /\ tables p.

Lemma ready_mid p : config -> ready p -> buffer p < L -> minLen <= lenLimit p -> mid p.
Proof.
  intros Hs (Hf & Hp & Hl & Ha & Ht) HL Hmin. destruct (current l crct N mm mask nb bt p) as (? & ? & ? & ? & ? & _); [done..|].
  destruct Ht as [Hh Hc]; [lia|]. by constructor.
Qed.

Lemma entered_room c p : config -> entered c p -> room l mm (pos p) (lenLimit p) /\ pos p = buffer p + 1 /\ 0 <= buffer p /\
  buffer p < L /\ cyclicBufferPos p = pos p mod N.
Proof.
  intros Hs [Hf Hp Hl Hpos Hlen _ _ _]. pose proof (min_len_range nb (st_nb Hs)).
  assert (room l mm (pos p) (lenLimit p)) as Hr by (apply room_ok; (done || lia)). destruct Hp as [Hb Ep Hc Hm], Hl as [? Hcyc Hlen' _ _].
  do 3 (split; [done || lia|]). split; [lia|]. rewrite <-Hm. symmetry. apply Z.mod_small. lia.
Qed.

Lemma leave_ok c p s :
  config -> entered c p -> eg_table G (pos p + 1) (hash p) s ->
  exists p', MOVE_POS (set_refs (hash p) s p) = Some p' /\ ready p' /\ buffer p' = buffer p + 1.
Proof.
  intros Hs He Hc. destruct (entered_room c p Hs He) as (_ & Ep & _ & HL & _). destruct He.
  destruct (MOVE_POS_ok l crct N mm mask nb bt key (set_refs (hash p) s p)) as (p' & -> & Hf & Hp & Hl & Ha & E1 & E2 & E3);
    [done|by apply set_refs_fixed|by apply set_refs_placed|by apply set_refs_limited|done|done|].
  exists p'. split; [done|]. split; [|exact E1]. do 4 (split; [done|]). intros _.
  assert (pos p' = pos p + 1) as ->. { rewrite (pl_pos _ Hp), E1, Ep. done. }
  rewrite E2, E3. done.
Qed.

Lemma footer_ok c p d m maxLen :
  config -> entered c p -> matches_ok l (buffer p) mm (N - 1) m d -> m <= maxLen < lenLimit p ->
  exists d' p' m', footer (eg_get G) (lenLimit p) c d maxLen p = Some (d', p') /\ ready p' /\ buffer p' = buffer p + 1 /\
    matches_ok l (buffer p) mm (N - 1) m' d'.
Proof.
  intros Hs He Hd Hm. destruct (entered_room c p Hs He) as (Hr & Ep & Hb & HL & Hcyc). pose proof (en_fixed _ _ He) as Hf.
  unfold footer. rewrite (fx_data _ Hf), (fx_N _ Hf), Hcyc. assert (buffer p = pos p - 1) as Eb by lia.
  rewrite Eb in Hd |- *. destruct (eg_get_ok G (pos p) (lenLimit p) c (hash p) (son p) (cutValue p) d maxLen) as (d' & s' & -> & [m' Hm'] & Ht);
    [apply He|done|by exists m|]. opt.
  destruct (leave_ok c p s') as (p' & -> & Hp' & E'); [done..|]. opt. exists d', p', m'. do 2 (split; [done|]). split; [lia|done].
Qed.

Lemma skip_footer_ok c p :
  config -> entered c p -> exists p', skip_footer (eg_skip G) (lenLimit p) c p = Some p' /\ ready p' /\ buffer p' = buffer p + 1.
Proof.
  intros Hs He. destruct (entered_room c p Hs He) as (Hr & Ep & Hb & HL & Hcyc). pose proof (en_fixed _ _ He) as Hf.
  unfold skip_footer. rewrite (fx_data _ Hf), (fx_N _ Hf), Hcyc. assert (pos p - 1 = buffer p) as Eb by lia.
  destruct (eg_skip_ok G (pos p) (lenLimit p) c (hash p) (son p) (cutValue p)) as (s' & Es & Ht); [apply He|done|].
  rewrite Eb in Es. rewrite Es. opt.
  by apply (leave_ok c).
Qed.

(** ** GetMatches *)

(** Too few bytes are left to enter the position. *)
Lemma short_move p :
  config -> ready p -> buffer p < L -> lenLimit p < minLen ->
  exists p', MOVE_POS p = Some p' /\ ready p' /\ buffer p' = buffer p + 1.
Proof.
  intros Hs (Hf & Hp & Hl & Ha & _) HL Hlt. destruct (current l crct N mm mask nb bt p) as (? & ? & ? & ? & ? & ? & _); [done..|].
  destruct (MOVE_POS_ok l crct N mm mask nb bt key p) as (p' & -> & Hf' & Hp' & Hl' & Ha' & E1 & _); [done..|].
  exists p'. split; [done|]. split; [|exact E1]. do 4 (split; [done|]). intros Hmin. rewrite E1 in Hmin. pose proof (st_min Hs). cbn in Hmin. lia.
Qed.

Lemma back_head p v d : config -> is_placed p -> 0 <= v < pos p -> d = u32 (pos p - v) ->
  d = pos p - v /\ (d < set_mmm p -> v <> 0 /\ 1 <= d <= buffer p /\ d < cyclicBufferSize p).
Proof.
  intros Hs [Hb Ep _ _] Hv ->. pose proof (st_len Hs). rewrite wrap_small by (unfold in_width; lia). split; [done|].
  unfold set_mmm. destruct (Z.ltb_spec (pos p) (cyclicBufferSize p)); lia.
Qed.

Lemma heads_matches_ok c p v2 v3 h2 h3 :
  config -> entered c p -> 4 <= nb -> key2 (buffer p) = Some h2 -> key3 (buffer p) = Some h3 -> 0 <= v2 < pos p -> 0 <= v3 < pos p ->
  (v2 <> 0 -> key2 (v2 - 1) = Some h2) -> (v3 <> 0 -> key3 (v3 - 1) = Some h3) ->
  exists d more m,
    short_heads (data p) (buffer p) (u32 (pos p - v2)) (u32 (pos p - v3)) (set_mmm p) [] = Some (d, more) /\
    matches_ok l (buffer p) mm (N - 1) m d /\ m <= 2 /\
    forall e, more = Some e -> 1 <= e < N /\ match_at l (buffer p) 3 e.
Proof.
  intros Hs He Hnb K2 K3 R2 R3 H2 H3. destruct (entered_room c p Hs He) as ((_ & _ & Hroom & _) & Ep & Hb & _). pose proof He as [].
  assert (3 <= minLen) by (destruct (fix_size_cases (st_nb Hs)); lia). pose proof (fx_N _ en_fixed0) as EN.
  destruct (back_head p v2 _ Hs en_placed0 R2 eq_refl) as [E2 B2]. destruct (back_head p v3 _ Hs en_placed0 R3 eq_refl) as [E3 B3].
  rewrite (fx_data _ en_fixed0). apply (short_heads_ok _ _ _ _ h2 h3); [done|done|lia| |done|done| |].
  - unfold set_mmm. rewrite EN. destruct (Z.ltb_spec (pos p) N); lia.
  - intros (Hne & ? & _)%B2. split; [done|]. rewrite E2. replace (buffer p - (pos p - v2)) with (v2 - 1) by lia. by apply H2.
  - intros (Hne & ? & _)%B3. split; [done|]. rewrite E3. replace (buffer p - (pos p - v3)) with (v3 - 1) by lia. by apply H3.
Qed.

(** A match of [len] bytes at least is extended as far as it goes. *)
Lemma long_match c p e len d m :
  config -> entered c p -> match_at l (buffer p) len e -> 1 <= e < N -> m < len <= lenLimit p -> 1 <= m ->
  matches_ok l (buffer p) mm (N - 1) m d ->
  exists n d' p', long_head (eg_get G) (eg_skip G) c d e len p = Some (d', p') /\
    ready p' /\ buffer p' = buffer p + 1 /\ matches_ok l (buffer p) mm (N - 1) n d'.
Proof.
  intros Hs He Hat Hr Hlen Hm Hd. destruct (entered_room c p Hs He) as ((_ & ? & Hroom & _) & Ep & Hb & _). pose proof He as [].
  unfold long_head. rewrite (fx_data _ en_fixed0). destruct (extend_ok l (buffer p) e len (lenLimit p)) as (r & -> & Hr' & Hat'); [done|lia..|]. opt.
  assert (matches_ok l (buffer p) mm (N - 1) r (d ++ [r; e - 1])) as Hd'.
  { apply (matches_snoc _ _ _ _ m); [done|lia|lia|]. by replace (e - 1 + 1) with e by lia. }
  destruct (Z.eqb_spec r (lenLimit p)) as [->|].
  - destruct (skip_footer_ok c p) as (p' & -> & Hp' & E'); [done..|]. opt. by eexists _, _, _.
  - destruct (footer_ok c p (d ++ [r; e - 1]) r r) as (d' & p' & m' & -> & Hp' & E' & Hm'); [done..|lia|]. by eexists _, _, _.
Qed.

(** What GetMatches promises. *)
Definition found (p : CMatchFinder) (r : option (list Z * CMatchFinder)) : Prop :=
  exists n d p', r = Some (d, p') /\ ready p' /\ buffer p' = buffer p + 1 /\ matches_ok l (buffer p) mm (N - 1) n d.

Lemma header_ok p body :
  config -> ready p -> buffer p < L -> (mid p -> found p body) -> found p (get_matches_header minLen [] p body).
Proof.
  intros Hs Hr HL Hbody. unfold get_matches_header, MatchFinder_MovePos. destruct (Z.ltb_spec (lenLimit p) minLen).
  - destruct (short_move p) as (p' & -> & Hp' & Hb); [done..|]. opt. exists 1, [], p'. do 3 (split; [done|]). constructor.
  - by apply Hbody, ready_mid.
Qed.

Lemma GetMatches2_ok p :
  config -> ready p -> buffer p < L -> nb = 2 ->
  found p (get_matches_header 2 [] p
    (hv ← HASH2_CALC p (buffer p); '(curMatch, p) ← head1 hv p; footer (eg_get G) (lenLimit p) curMatch [] 1 p)).
Proof.
  intros Hs Hr HL Hnb. assert (minLen = 2) as Hml by (unfold min_len; by rewrite Hnb). rewrite <-Hml at 1.
  apply header_ok; [done..|]. intros Hm. destruct (enter1 p Hs Hm Hnb) as (hv & c & h & -> & E1 & He). opt. rewrite E1. opt.
  pose proof (md_len _ Hm).
  destruct (footer_ok c _ [] 1 1 Hs He) as (d' & p' & m' & E & Hp' & Hb & Hm'); [constructor|cbn; lia|]. exists m', d', p'. by rewrite E.
Qed.

Lemma GetMatches3_ok p :
  config -> ready p -> buffer p < L -> nb = 3 ->
  found p (get_matches_header 3 [] p
    (let cur := buffer p in
     '(h2, hv) ← HASH3_CALC p cur;
     '(v2, curMatch, p) ← head2 h2 hv p;
     let d2 := u32 (pos p - v2) in
     m2 ← head_matches (data p) cur d2 (set_mmm p);
     if m2 : bool then long_head (eg_get G) (eg_skip G) curMatch [] d2 2 p
     else footer (eg_get G) (lenLimit p) curMatch [] 2 p)).
Proof.
  intros Hs Hr HL Hnb. assert (minLen = 3) as Hml by (unfold min_len; by rewrite Hnb). rewrite <-Hml at 1.
  apply header_ok; [done..|]. cbv zeta. intros Hm. destruct (enter2 p Hs Hm Hnb) as (h2 & hv & v2 & c & h & -> & E2 & He & K2 & R2 & Hk2).
  opt. rewrite E2. opt. pose proof (md_len _ Hm) as Hlen. set (q := set_refs h (son p) p) in *.
  destruct (entered_room c q Hs He) as ((_ & _ & Hroom & _) & Ep & Hb & HL' & _). pose proof (en_fixed _ _ He) as Hf.
  destruct (back_head q v2 _ Hs (en_placed _ _ He) R2 eq_refl) as [E B]. change (pos p) with (pos q). rewrite E in *.
  change (buffer p) with (buffer q) in *. change (lenLimit p) with (lenLimit q) in Hlen. rewrite (fx_data _ Hf).
  destruct (head_matches_ok (buffer q) (pos q - v2) (set_mmm q)) as (m2 & -> & Hm2); [by intros (_ & ? & _)%B|lia|]. opt.
  destruct m2.
  - destruct (Hm2 eq_refl) as (Hlt & x & Ex & Ex'). destruct (B Hlt) as (Hne & Hr2 & HN). rewrite (fx_N _ Hf) in HN.
    destruct (long_match c q (pos q - v2) 2 [] 1) as (n & d' & p' & E' & Hp' & Hb' & Hm'); [done|done| |lia|lia|lia|constructor|by exists n, d', p'].
    apply (match2 _ _ h2 x); [done|done|lia|done|done|done|].
    replace (buffer q - (pos q - v2)) with (v2 - 1) by lia. by apply Hk2.
  - destruct (footer_ok c q [] 1 2 Hs He) as (d' & p' & m' & E' & Hp' & Hb' & Hm'); [constructor|lia|]. exists m', d', p'. by rewrite E'.
Qed.

Lemma GetMatches4_ok p :
  config -> ready p -> buffer p < L -> 4 <= nb ->
  found p (if nb <=? 4 then GetMatches4 (eg_get G) (eg_skip G) p [] else GetMatches5 (eg_get G) (eg_skip G) p []).
Proof.
  intros Hs Hr HL Hnb. assert (minLen = if nb <=? 4 then 4 else 5) as Hml.
  { unfold min_len. rewrite (proj2 (Z.eqb_neq nb 2)), (proj2 (Z.eqb_neq nb 3)) by lia. done. }
  unfold GetMatches4, GetMatches5. change kFix5HashSize with kFix4HashSize.
  assert (forall body4 body5, (mid p -> found p (if nb <=? 4 then body4 else body5)) ->
    found p (if nb <=? 4 then get_matches_header 4 [] p body4 else get_matches_header 5 [] p body5)) as Hhead.
  { intros body4 body5 Hb. pose proof (header_ok p (if nb <=? 4 then body4 else body5) Hs Hr HL Hb) as H. rewrite Hml in H. by destruct (nb <=? 4). }
  apply Hhead. clear Hhead. intros Hm. pose proof (md_len _ Hm) as Hlen.
  destruct (enter3 p Hs Hm Hnb) as (h2 & h3 & hv & v2 & v3 & c & h & EH & E3 & He & K2 & K3 & R2 & R3 & V2 & V3).
  set (q := set_refs h (son p) p) in *. destruct (heads_matches_ok c q v2 v3 h2 h3 Hs He Hnb) as (d & more & m & Es & Hd & Hm2 & Hmore); [done..|].
  destruct (entered_room c q Hs He) as ((_ & Hlm & Hroom & _) & Ep & _). pose proof (matches_len _ _ _ _ _ _ Hd).
  change (lenLimit p) with (lenLimit q) in Hlen. unfold HASH_CALC in EH. rewrite (fx_nb _ (md_fixed _ Hm)) in EH. cbv zeta.
  assert (forall d' m', matches_ok l (buffer q) mm (N - 1) m' d' -> m' < minLen -> found p (footer (eg_get G) (lenLimit q) c d' (minLen - 1) q)) as Hfoot.
  { intros d0 m0 Hd0 Hm0. destruct (footer_ok c q d0 m0 (minLen - 1) Hs He Hd0) as (d' & p' & m' & E' & Hp' & Hb' & Hm'); [lia|].
    exists m', d', p'. by rewrite E'. }
  revert EH Hml. destruct (Z.leb_spec nb 4) as [H4|H4]; intros EH Hml; rewrite EH; opt; rewrite E3; opt; change (buffer p) with (buffer q); rewrite Es; opt; destruct more as [e|].
  - destruct (Hmore e eq_refl). destruct (long_match c q e 3 d m) as (n & d' & p' & E' & Hp' & Hb' & Hm'); [done|done|done|done|lia|lia|done|].
    by exists n, d', p'.
  - replace 3 with (minLen - 1) by lia. apply (Hfoot d m); [done|lia].
  - destruct (Hmore e eq_refl) as [Re Hat]. pose proof Hat as ([? ?] & _). pose proof (en_fixed _ _ He) as Hq.
    destruct (rd_Some l (buffer q - e + 3)) as [x Ex]; [lia|]. destruct (rd_Some l (buffer q + 3)) as [y Ey]; [lia|].
    rewrite (fx_data _ Hq), Ex, Ey. opt. destruct (Z.eqb_spec x y) as [->|]; cbn [negb].
    + destruct (long_match c q e 4 d m) as (n & d' & p' & E' & Hp' & Hb' & Hm'); [done|done| |done|lia|lia|done|by exists n, d', p'].
      apply (match_at_extend _ _ 3 _ y); [done|lia|done|by replace (buffer q + 3 - e) with (buffer q - e + 3) by lia].
    + replace 4 with (minLen - 1) at 1 by lia. apply (Hfoot _ 3); [|lia].
      apply (matches_snoc _ _ _ _ m); [done|lia|lia|]. by replace (e - 1 + 1) with e by lia.
  - replace 4 with (minLen - 1) at 1 by lia. apply (Hfoot d m); [done|lia].
Qed.

(** ** Skip *)

(** What Skip does to the heads, by [numHashBytes]. *)
Definition enter (p : CMatchFinder) : option (Z * CMatchFinder) :=
  if numHashBytes p =? 2 then hv ← HASH2_CALC p (buffer p); head1 hv p
  else if numHashBytes p =? 3 then '(h2, hv) ← HASH3_CALC p (buffer p); '(_, curMatch, p) ← head2 h2 hv p; Some (curMatch, p)
  else '(h2, h3, hv) ← HASH_CALC p; '(_, _, curMatch, p) ← head3 kFix4HashSize h2 h3 hv p; Some (curMatch, p).

Lemma enter_ok p : config -> mid p -> exists c h, enter p = Some (c, set_refs h (son p) p) /\ entered c (set_refs h (son p) p).
Proof.
  intros Hs Hm. unfold enter. rewrite (fx_nb _ (md_fixed _ Hm)). pose proof (st_nb Hs).
  destruct (Z.eqb_spec nb 2) as [H2|]; [|destruct (Z.eqb_spec nb 3) as [H3|]].
  - destruct (enter1 p Hs Hm H2) as (hv & c & h & -> & Eh & He). opt. by exists c, h.
  - destruct (enter2 p Hs Hm H3) as (h2 & hv & v2 & c & h & -> & Eh & He & _). opt. rewrite Eh. opt. by exists c, h.
  - destruct (enter3 p Hs Hm ltac:(lia)) as (h2 & h3 & hv & v2 & v3 & c & h & -> & Eh & He & _). opt. rewrite Eh. opt. by exists c, h.
Qed.

End Search.
