(* ===== verification/LzFindHc.v ===== *)
(** * Hash chains

    The searches of Hc4 and Hc5 of LzFind.v: [son] links every position to the one its head
    had before.  Every read is in range, and the pairs are matches. *)

From stdpp Require Import base numbers list list_numbers.
From Stdlib Require Import ZArith Lia.
From S2P Require Import Prelude MatchFinder LzFind LzFindWindow LzFindBt LzFindSearch.
Local Open Scope Z_scope.
Local Open Scope word_scope.

Section Hc.
Variables (l : list Z) (N mm : Z).
Abbreviation L := (Z.of_nat (length l)).

(** The chain goes back from every position in reach before [n]. *)
Definition chain (n : Z) (s : list Z) : Prop :=
  N <= Z.of_nat (length s) /\
  forall q, 1 <= q -> n - N <= q < n -> exists v, rd s (q mod N) = Some v /\ 0 <= v < q.

Lemma chain_step n s v :
  2 <= N -> chain n s -> 1 <= n -> 0 <= v < n -> exists s', wrz s (n mod N) v = Some s' /\ chain (n + 1) s'.
Proof.
  intros HN [Hl Hc] Hn Hv. pose proof (Z.mod_pos_bound n N). exists (<[Z.to_nat (n mod N) := v]> s).
  split; [apply wrz_Some; lia|]. split; [by rewrite length_insert|]. intros q Hq Hr.
  destruct (Z.eq_dec q n) as [->|].
  - exists v. split; [|done]. rewrite rd_lookup by lia. apply list_lookup_insert_eq. lia.
  - rewrite rd_insert_ne; [apply Hc; lia|lia|]. intros E. pose proof (Z.div_mod n N ltac:(lia)). pose proof (Z.div_mod q N ltac:(lia)).
    assert (n / N <= q / N \/ q / N + 1 <= n / N) as [] by lia; nia.
Qed.

(** ** The search *)
Lemma Hc_GetMatchesSpec_ok pos cur s c lim cut d m maxLen :
  2 <= N -> chain pos s -> pos = cur + 1 -> 0 <= cur -> pos < 2 ^ 32 -> 0 <= c < pos ->
  matches_ok l cur mm (N - 1) m d -> m <= maxLen < lim -> lim <= mm -> cur + lim <= L ->
  exists d' s' m', Hc_GetMatchesSpec l lim c pos cur s (pos mod N) N cut d maxLen = Some (d', s') /\
    chain (pos + 1) s' /\ matches_ok l cur mm (N - 1) m' d'.
Proof.
  intros HN Hch Hp Hcur Hw Hc Hd Hm Hlim HL. unfold Hc_GetMatchesSpec.
  destruct (chain_step pos s c) as (s' & -> & Hs'); [lia|done|lia|done|]. opt.
  loop_inv (fun '(c, cut, d, maxLen) => 0 <= c < pos /\ exists m, matches_ok l cur mm (N - 1) m d /\ m <= maxLen < lim)
    (fun '(c, cut, d, maxLen) => Z.to_nat c) (fun d => exists m, matches_ok l cur mm (N - 1) m d);
    [by eauto|lia| |intros d' [m' Hd']; cbn; by eauto 7].
  clear c cut d m maxLen Hc Hd Hm. intros [[[c cut] d] maxLen] (Hc & m & Hd & Hm). pose proof (matches_len _ _ _ _ _ _ Hd).
  destruct (Z.eqb_spec c 0); [by eauto|]. cbv zeta. rewrite (wrap_small 32 (pos - c)) by (unfold in_width; lia).
  destruct (Z.leb_spec N (pos - c)) as [|HN']; [by eauto|].
  rewrite cyc_back_mod by lia. replace (pos - (pos - c)) with c by lia.
  destruct Hs' as [_ Hs']. destruct (Hs' c) as (next & -> & Hnext); [lia..|]. opt.
  destruct (rd_Some l (cur + maxLen)) as [x ->]; [lia|]. opt.
  destruct (rd_Some l (cur + maxLen - (pos - c))) as [y ->]; [lia|]. opt.
  assert (forall len, maxLen < len <= lim -> match_at l cur len (pos - c) ->
            matches_ok l cur mm (N - 1) len (d ++ [len; pos - c - 1])) as Hadd.
  { intros len Hlen Hat. apply (matches_snoc _ _ _ _ m); [done|lia|lia|]. by replace (pos - c - 1 + 1) with (pos - c) by lia. }
  assert (forall d' maxLen', (exists m, matches_ok l cur mm (N - 1) m d' /\ m <= maxLen' < lim) ->
    match (if negb (u32 (cut - 1) =? 0) then inl (next, u32 (cut - 1), d', maxLen') else inr d') with
    | inl (c', _, d', maxLen') =>
        (0 <= c' < pos /\ exists m, matches_ok l cur mm (N - 1) m d' /\ m <= maxLen' < lim) /\ (Z.to_nat c' < Z.to_nat c)%nat
    | inr d => exists m, matches_ok l cur mm (N - 1) m d
    end) as Hon.
  { intros d' maxLen' Hr. destruct (negb _); [|destruct Hr as (m' & ? & ?); by eauto]. split; [split; [lia|done]|lia]. }
  destruct (x =? y); opt.
  - destruct (extend_ok l cur (pos - c) 0 lim) as (r & -> & Hr & Hat); [split; [lia|]; split; [lia|intros; lia]|lia..|]. opt.
    destruct (Z.eqb_spec r lim) as [->|]; cbn; [exists lim; apply Hadd; [lia|done]|].
    destruct (Z.ltb_spec maxLen r); cbn; [specialize (Hon (d ++ [r; pos - c - 1]) r)|specialize (Hon d maxLen)];
      destruct (negb _); apply Hon; [exists r; split; [apply Hadd; [lia|done]|lia]..|eauto|eauto].
  - specialize (Hon d maxLen). destruct (negb _); apply Hon; eauto.
Qed.

End Hc.

(** ** The engine *)
Section Engine.
Variables (l : list Z) (N mm fix_sz mask : Z) (key : Z -> option Z).
Hypothesis HN : 2 <= N.

(** The heads refer to positions before [n]. *)
Definition refs_before (n : Z) (h : list Z) : Prop := forall i, fix_sz <= i <= fix_sz + mask -> exists v, rd h i = Some v /\ 0 <= v < n.

Program Definition chains : engine l N mm fix_sz mask key := {|
  eg_get := Hc_GetMatchesSpec; eg_skip := Hc_SkipSpec;
  eg_table n h s := refs_before n h /\ chain N n s;
  eg_open n c h s := refs_before (n + 1) h /\ chain N n s /\ 0 <= c < n
|}.
Next Obligation.
  intros n i h s [Hh Hc] Hn Hk Hi. destruct (Hh i Hi) as (c & Ec & Hc'). exists c. split; [done|]. split; [done|].
  intros h' Hsame. assert (rd h' i = Some c) as Ec' by (rewrite Hsame by lia; done). apply rd_range in Ec' as Hr.
  exists (<[Z.to_nat i := n]> h'). split; [by apply wrz_Some|]. split; [|done]. intros j Hj. destruct (Z.eq_dec j i) as [->|].
  - exists n. split; [|lia]. rewrite rd_lookup by lia. apply list_lookup_insert_eq. lia.
  - destruct (Hh j Hj) as (v & Ev & ?). exists v. rewrite rd_insert_ne, Hsame by lia. split; [done|lia].
Qed.
Next Obligation.
  intros n lim c h s cut d maxLen (Hh & Hc & Hr) (Hn & Hlim & HL & _) (m & Hd & Hm).
  destruct (Hc_GetMatchesSpec_ok l N mm n (n - 1) s c lim cut d m maxLen) as (d' & s' & m' & -> & Hs' & Hd'); [done || lia..|].
  exists d', s'. split; [done|]. split; [by exists m'|done].
Qed.
Next Obligation.
  intros n lim c h s cut (Hh & Hc & Hr) (Hn & _). destruct (chain_step N n s c) as (s' & E & Hs'); [done || lia..|].
  exists s'. split; [exact E|done].
Qed.

(** No references at all. *)
Lemma chains_empty h s : (forall i, fix_sz <= i <= fix_sz + mask -> rd h i = Some 0) -> N <= Z.of_nat (length s) -> eg_table chains 1 h s.
Proof using.
  intros Hh Hl. split; [intros i Hi; exists 0; split; [by apply Hh|lia]|]. split; [done|]. intros q ? ?. lia.
Qed.
End Engine.

(** ** Skip *)
Section Skip.
Variables (l crct : list Z) (N mm mask nb : Z) (bt : bool) (key : Z -> option Z).
Hypothesis HN : 2 <= N.

Abbreviation L := (Z.of_nat (length l)).
Abbreviation minLen := (min_len nb).
Abbreviation config := (settings l crct N mm mask nb bt).
Abbreviation is_fixed := (fixed l crct N mm mask nb bt key).
Abbreviation G := (chains l N mm (fix_size nb) mask key HN).
Abbreviation is_ready := (ready l crct N mm mask nb bt key G).
Abbreviation is_mid := (mid l crct N mm mask nb bt key G).

(** What holds between the turns of the inner loop, at the limit too. *)
Record halfway (p : CMatchFinder) : Prop := {
  hw_fixed : is_fixed p; hw_placed : placed l N p; hw_limited : limited l N mm p; hw_len : minLen <= lenLimit p;
  hw_heads : heads l crct nb (pos p) (hash p); hw_table : eg_table G (pos p) (hash p) (son p)
}.

Variable hf : CMatchFinder -> option (Z * CMatchFinder).
Hypothesis hf_eq : forall p, is_fixed p -> hf p = enter p.

Lemma halfway_mid p : halfway p -> pos p < posLimit p -> is_mid p.
Proof using. intros [] Hp. by constructor. Qed.

(** One turn of the inner loop. *)
Lemma skip_turn p :
  config -> halfway p -> buffer p < L -> pos p < posLimit p ->
  exists c q s, hf p = Some (c, q) /\ wrz (son q) (cyclicBufferPos q) c = Some s /\
    set_window (buffer q + 1) (u32 (pos q + 1)) (u32 (cyclicBufferPos q + 1)) (set_refs (hash q) s q) = advance (set_refs (hash q) s p) /\
    halfway (advance (set_refs (hash q) s p)) /\ pos (advance (set_refs (hash q) s p)) = pos p + 1 /\ posLimit q = posLimit p.
Proof using hf_eq.
  intros Hs Hw HL Hlt. pose proof (halfway_mid p Hw Hlt) as Hm. rewrite (hf_eq p (hw_fixed _ Hw)).
  destruct (enter_ok l crct N mm mask nb bt key G p Hs Hm) as (c & h & -> & He).
  destruct (entered_room l crct N mm mask nb bt key G c _ Hs He) as (Hr & _ & _ & _ & Hcyc).
  destruct (eg_skip_ok G (pos p) (lenLimit p) c h (son p) 0) as (s & Ew & Ht); [apply He|done|]. cbn in Hcyc, Ew. unfold Hc_SkipSpec in Ew.
  destruct Hw as [Hf Hp Hl Hmin Hh Hc]. exists c, (set_refs h (son p) p), s. split; [done|]. split; [cbn; by rewrite Hcyc|]. split; [done|].
  destruct (advance_ok l crct N mm mask nb bt key (set_refs h s p)) as (Hf' & Hp' & Hl' & E);
    [done|by apply set_refs_fixed|by apply set_refs_placed|by apply set_refs_limited|done..|].
  split; [|split; [exact E|done]]. change (hash (set_refs h (son p) p)) with h. constructor; [done..| |]; rewrite E; [apply He|exact Ht].
Qed.

Lemma skip_inner p num2 :
  config -> halfway p -> 1 <= num2 <= posLimit p - pos p -> buffer p + num2 <= L ->
  exists p', loop (S (Z.to_nat num2))
    (fun '(p, num2) =>
       '(curMatch, p) ← hf p;
       s ← wrz (son p) (cyclicBufferPos p) curMatch;
       let p := set_window (buffer p + 1) (u32 (pos p + 1)) (u32 (cyclicBufferPos p + 1)) (set_refs (hash p) s p) in
       let num2 := u32 (num2 - 1) in
       Some (if negb (num2 =? 0) then inl (p, num2) else inr p)) (p, num2) = Some p' /\
    halfway p' /\ buffer p' = buffer p + num2.
Proof using hf_eq.
  intros Hs Hm Hn HL. pose proof (pl_buffer _ (hw_placed _ Hm)). pose proof (st_len Hs).
  apply (loop_total (fun '(q, n) => halfway q /\ 1 <= n <= posLimit q - pos q /\ buffer q + n = buffer p + num2)
           (fun '(q, n) => Z.to_nat n)); [|split; [done|lia]|lia].
  intros [q n] (Hq & Hnq & Hb). pose proof (pl_buffer _ (hw_placed _ Hq)).
  destruct (skip_turn q) as (c & r & s & -> & E & Ea & Ha & Hp & El); [done|done|lia|lia|]. opt. rewrite E. opt. rewrite Ea.
  rewrite wrap_small by (unfold in_width; lia). destruct (Z.eqb_spec (n - 1) 0); cbn [negb].
  - split; [done|]. change (buffer q + 1 = buffer p + num2). lia.
  - split; [|lia]. split; [done|]. rewrite Hp. split; [change (1 <= n - 1 <= posLimit q - (pos q + 1)); lia|].
    change (buffer q + 1 + (n - 1) = buffer p + num2). lia.
Qed.

Lemma halfway_ready p :
  config -> halfway p -> exists t, (if pos p =? posLimit p then MatchFinder_CheckLimits p else Some p) = Some t /\ is_ready t /\ buffer t = buffer p.
Proof using.
  intros Hs [Hf Hp Hl Hmin Hh Hc]. destruct (Z.eqb_spec (pos p) (posLimit p)) as [E|E].
  - destruct (CheckLimits_ok l crct N mm mask nb bt key p) as (t & -> & Hft & Hpt & Hlt' & Hat & E1 & E2 & E3); [done..|].
    exists t. split; [done|]. split; [|done]. do 4 (split; [done|]). intros _.
    rewrite E2, E3, (pl_pos _ Hpt), E1, <-(pl_pos _ Hp). done.
  - exists p. split; [done|]. split; [|done]. do 3 (split; [done|]). split; [|by intros _].
    intros _. destruct Hl. lia.
Qed.

Lemma skip_loop_ok p num :
  config -> is_ready p -> 1 <= num -> buffer p + num <= L ->
  exists p', skip_loop_hc minLen hf p num = Some p' /\ is_ready p' /\ buffer p' = buffer p + num.
Proof using hf_eq.
  intros Hs Hr Hn HL. pose proof Hr as (_ & Hp & _). pose proof (pl_buffer _ Hp). pose proof (st_len Hs). unfold skip_loop_hc.
  apply (loop_total (fun '(q, n) => is_ready q /\ 1 <= n /\ buffer q + n = buffer p + num) (fun '(q, n) => Z.to_nat n));
    [|split; [done|lia]|lia].
  intros [q n] (Hq & Hnq & Hb). pose proof Hq as (Hf & Hpq & Hl & Hact & Ht).
  destruct (current l crct N mm mask nb bt q) as (Hlt & Hb0 & Epos & Hroom & Hmm & _ & Hcyc); [done|done|done|done|lia|].
  destruct (Z.ltb_spec (lenLimit q) minLen) as [Hsh|Hge].
  - destruct (short_move l crct N mm mask nb bt key G q) as (q' & E & Hq' & Eb); [done|done|lia|done|]. unfold MatchFinder_MovePos. rewrite E. opt.
    rewrite wrap_small by (unfold in_width; lia). destruct (Z.eqb_spec (n - 1) 0); cbn [negb]; [split; [done|lia]|].
    split; [|lia]. split; [done|lia].
  - cbv zeta. assert (0 <= posLimit q - pos q <= L) by (destruct Hl; pose proof (min_len_range nb (st_nb Hs)); lia).
    rewrite wrap_small by (unfold in_width; lia). set (n2 := if posLimit q - pos q <=? n then posLimit q - pos q else n).
    assert (1 <= n2 <= n /\ n2 <= posLimit q - pos q) as Hn2.
    { unfold n2. destruct (Z.leb_spec (posLimit q - pos q) n); lia. }
    assert (halfway q) as Hw by (destruct Ht as [Hh Hc]; [lia|by constructor]).
    destruct (skip_inner q n2) as (r & El & Hmr & Er); [done|done|lia|lia|]. cbv zeta in El. rewrite El. opt.
    destruct (halfway_ready r Hs Hmr) as (t & -> & Htr & Et). opt.
    destruct (Z.eqb_spec (n - n2) 0); cbn [negb]; [split; [done|lia]|]. split; [|lia]. split; [done|lia].
Qed.
End Skip.

(** ** GetMatches and Skip *)
Section Hc45.
Variables (l crct : list Z) (N mm mask nb : Z) (key : Z -> option Z).
Hypothesis HN : 2 <= N.

Abbreviation G := (chains l N mm (fix_size nb) mask key HN).
Abbreviation is_ready := (ready l crct N mm mask nb false key G).

Lemma Hc_GetMatches_ok p :
  settings l crct N mm mask nb false -> is_ready p -> buffer p < Z.of_nat (length l) ->
  found l crct N mm mask nb false key G p (vt_GetMatches p p []).
Proof.
  intros Hs Hr HL. pose proof (st_mode Hs eq_refl). destruct Hr as (Hf & Hr'). unfold vt_GetMatches. rewrite (fx_bt _ Hf), (fx_nb _ Hf). cbn [negb].
  pose proof (GetMatches4_ok l crct N mm mask nb false key G p Hs (conj Hf Hr') HL ltac:(lia)) as H'. by destruct (nb <=? 4).
Qed.

Lemma Hc_Skip_ok p num :
  settings l crct N mm mask nb false -> is_ready p -> 1 <= num -> buffer p + num <= Z.of_nat (length l) ->
  exists p', vt_Skip p p num = Some p' /\ is_ready p' /\ buffer p' = buffer p + num.
Proof.
  intros Hs Hr Hn HL. pose proof (st_mode Hs eq_refl). pose proof Hr as (Hf & _). unfold vt_Skip. rewrite (fx_bt _ Hf), (fx_nb _ Hf). cbn [negb].
  assert (min_len nb = if nb <=? 4 then 4 else 5) as Hml.
  { unfold min_len. rewrite (proj2 (Z.eqb_neq nb 2)), (proj2 (Z.eqb_neq nb 3)) by lia. done. }
  unfold Hc4_MatchFinder_Skip, Hc5_MatchFinder_Skip. change kFix5HashSize with kFix4HashSize.
  destruct (nb <=? 4) eqn:E4; rewrite <-Hml; apply (skip_loop_ok l crct N mm mask nb false key HN); try done;
    intros q Hq; unfold enter, HASH_CALC; rewrite (fx_nb _ Hq), (proj2 (Z.eqb_neq nb 2)), (proj2 (Z.eqb_neq nb 3)), E4 by lia; done.
Qed.
End Hc45.
