(* ===== verification/LzFindForest.v ===== *)
(** * Binary trees as a search

    The searches of Bt2 .. Bt5 of LzFind.v: every head of the longest hash is the root of a
    search tree of positions with its key, and [son] holds the trees. *)

From stdpp Require Import base numbers list list_numbers.
From Stdlib Require Import ZArith Lia.
From S2P Require Import Prelude MatchFinder LzFind LzFindWindow LzFindTree LzFindBt LzFindSearch.
Local Open Scope Z_scope.
Local Open Scope word_scope.

(** ** The engine *)
Section Engine.
Variables (l : list Z) (N mm fix_sz mask : Z) (key : Z -> option Z).
Hypothesis HN : 2 <= N.

Abbreviation L := (Z.of_nat (length l)).

(** Positions up to this one are out of reach of [n]. *)
Definition reach (n : Z) : Z := Z.max 0 (n - N).
(** The bytes that order the trees at [n]: no more than are left. *)
Definition order (n : Z) : Z := Z.min mm (L - (n - 1)).

(** [v] is the root of a tree of positions with the key [i]. *)
Definition planted (n i : Z) (s : list Z) (v : Z) (t : tree) : Prop :=
  repr N (reach n) s v t /\ bst l (order n) t /\ forall x, x ∈ nodes t -> key (x - 1) = Some i.

Definition rooted (n i : Z) (h s : list Z) : Prop := exists v t, rd h i = Some v /\ 0 <= v < n /\ planted n i s v t.

Definition forest (n : Z) (h s : list Z) : Prop :=
  2 * N <= Z.of_nat (length s) /\ forall i, fix_sz <= i <= fix_sz + mask -> rooted n i h s.

(** The head of [n] refers to it already, its tree hangs on [c]. *)
Definition uprooted (n c : Z) (h s : list Z) : Prop :=
  2 * N <= Z.of_nat (length s) /\
  exists i t, fix_sz <= i <= fix_sz + mask /\ key (n - 1) = Some i /\ rd h i = Some n /\ 0 <= c < n /\ planted n i s c t /\
    forall j, fix_sz <= j <= fix_sz + mask -> j <> i -> rooted n j h s.

Lemma planted_range n i s v t x : planted n i s v t -> v < n -> x ∈ nodes t -> reach n < x < n.
Proof using. intros (Hr & _) Hv Hx. apply repr_range in Hr as [_ Hr]; [|unfold reach; lia]. apply Hr in Hx. lia. Qed.

(** Trees with different keys have no cell in common. *)
Lemma planted_apart n i j s v w t u x :
  planted n i s v t -> planted n j s w u -> v < n -> w < n -> i <> j -> touches N x t -> ~ touches N x u.
Proof using HN.
  intros Ht Hu Hv Hw Hij (p & Hp & Ep) (q & Hq & Eq). pose proof (planted_range _ _ _ _ _ _ Ht Hv Hp). pose proof (planted_range _ _ _ _ _ _ Hu Hw Hq).
  pose proof (cell_parity N p q). pose proof (cell_parity N q p). unfold reach in *.
  assert (p = q) as <- by (apply (cell_inj N (Z.max 0 (n - N)) n); lia).
  destruct Ht as (_ & _ & Kt), Hu as (_ & _ & Ku). specialize (Ku p Hq). rewrite (Kt p Hp) in Ku. congruence.
Qed.

(** The cells of [n] are not in use before. *)
Lemma planted_new n i s v t x : planted n i s v t -> v < n -> touches N x t -> x <> cell N n /\ x <> cell N n + 1.
Proof using HN.
  intros Ht Hv (q & Hq & Eq). pose proof (planted_range _ _ _ _ _ _ Ht Hv Hq). unfold reach in *.
  pose proof (cell_parity N q n). pose proof (cell_parity N n q). assert (cell N q = cell N n -> q = n) as Hinj.
  { apply (cell_inj N (Z.max 0 (n - N)) (n + 1)); lia. }
  split; intros ->; lia.
Qed.

(** The next position sees the same trees, less what is out of its reach. *)
Lemma planted_next n i s v t : planted n i s v t -> 0 <= n -> planted (n + 1) i s v (prune (reach (n + 1)) t).
Proof using.
  intros (Hr & Hb & Hk) Hn. split; [apply (repr_prune N (reach n)); [unfold reach; lia|unfold reach; lia|done]|].
  split; [apply (bst_prune l (order n)); [unfold order; lia|done]|]. intros x Hx. by apply Hk, (nodes_prune (reach (n + 1))).
Qed.

Lemma planted_frame n i s s' v t :
  planted n i s v t -> (forall x, touches N x t -> rd s' x = rd s x) -> planted n i s' v t.
Proof using. intros (Hr & Hb & Hk) Hf. split; [by apply (repr_frame N _ s)|done]. Qed.

Lemma forest_enter n i h s :
  forest n h s -> 1 <= n -> key (n - 1) = Some i -> fix_sz <= i <= fix_sz + mask ->
  exists c, rd h i = Some c /\ 0 <= c < n /\
    forall h', (forall j, fix_sz <= j -> rd h' j = rd h j) -> exists h'', wrz h' i n = Some h'' /\ uprooted n c h'' s.
Proof using.
  intros [Hl Hf] Hn Hk Hi. destruct (Hf i Hi) as (c & t & Ec & Hc & Ht). exists c. do 2 (split; [done|]).
  intros h' Hsame. assert (rd h' i = Some c) as Ec' by (rewrite Hsame by lia; done). apply rd_range in Ec' as Hr.
  exists (<[Z.to_nat i := n]> h'). split; [by apply wrz_Some|]. split; [done|]. exists i, t. do 2 (split; [done|]).
  split; [rewrite rd_lookup by lia; apply list_lookup_insert_eq; lia|]. do 2 (split; [done|]).
  intros j Hj Hne. destruct (Hf j Hj) as (v & u & Ev & Hv). exists v, u. split; [|done]. rewrite rd_insert_ne, Hsame by lia. done.
Qed.

(** The tree of the position is split, the others stay. *)
Lemma forest_grown n i c h s s' t u lim :
  planted n i s c t -> 0 <= c < n -> 1 <= n < 2 ^ 32 -> lim = order n ->
  grown l N n lim s s' t u -> key (n - 1) = Some i -> rd h i = Some n -> 2 * N <= Z.of_nat (length s) ->
  (forall j, fix_sz <= j <= fix_sz + mask -> j <> i -> rooted n j h s) -> forest (n + 1) h s'.
Proof using HN.
  intros Ht Hc Hn -> [Hlen Hr Hb Hx Hf] Hk Eh Hl Hrest. assert (cm_check n N = reach n) as Elo.
  { destruct (cm_check_ok n N) as (_ & _ & ? & ?); [lia|lia|]. unfold reach. lia. }
  rewrite Elo in Hr. split; [by rewrite Hlen|]. intros j Hj. destruct (Z.eq_dec j i) as [->|Hne].
  - exists n, (prune (reach (n + 1)) u). split; [done|]. split; [lia|]. apply planted_next; [|lia]. split; [done|]. split; [done|].
    intros x [->|Hin]%Hx; [done|]. by apply Ht.
  - destruct (Hrest j Hj Hne) as (v & w & Ev & Hv & Hw). exists v, (prune (reach (n + 1)) w). split; [done|]. split; [lia|].
    apply planted_next; [|lia]. apply (planted_frame _ _ s); [done|]. intros x Hxw. destruct (planted_new _ _ _ _ _ _ Hw ltac:(lia) Hxw). apply Hf; [done..|].
    intros Hxt. exact (planted_apart n i j s c v t w x Ht Hw ltac:(lia) ltac:(lia) (not_eq_sym Hne) Hxt Hxw).
Qed.

Lemma forest_search n lim c h s cut d maxLen :
  uprooted n c h s -> room l mm n lim -> (exists m, matches_ok l (n - 1) mm (N - 1) m d /\ m <= maxLen < lim) ->
  exists d' s', GetMatchesSpec1 l lim c n (n - 1) s (n mod N) N cut d maxLen = Some (d', s') /\
    (exists m, matches_ok l (n - 1) mm (N - 1) m d') /\ forest (n + 1) h s'.
Proof using HN.
  intros (Hl & i & t & Hi & Hk & Eh & Hc & Ht & Hrest) (Hn & Hlim & HL & Hor) Hd.
  assert (lim = order n) as Elim by (unfold order; lia). assert (cm_check n N = reach n) as Elo.
  { destruct (cm_check_ok n N) as (_ & _ & ? & ?); [lia|lia|]. unfold reach. lia. }
  destruct (GetMatchesSpec1_ok l N mm n (n - 1) lim ltac:(lia) ltac:(lia) ltac:(lia) ltac:(lia) ltac:(lia) ltac:(lia) s c t cut d maxLen)
    as (d' & s' & u & E & Hd' & Hg); [rewrite Elo; apply Ht|rewrite Elim; apply Ht|done|done|done|].
  exists d', s'. split; [done|]. split; [done|]. by apply (forest_grown n i c h s s' t u lim).
Qed.

Program Definition trees : engine l N mm fix_sz mask key := {|
  eg_get := GetMatchesSpec1; eg_skip := SkipMatchesSpec; eg_table := forest; eg_open := uprooted;
  eg_enter := forest_enter; eg_get_ok := forest_search
|}.
Next Obligation.
  intros n lim c h s cut Ho Hroom. pose proof Hroom as (Hn & Hlim & HL & Hor).
  destruct (forest_search n lim c h s cut [] 1 Ho Hroom) as (d' & s' & E & _ & Hf); [exists 1; split; [constructor|lia]|].
  exists s'. split; [|done]. apply (Skip_same _ _ _ _ _ _ _ _ _ [] 1 d'); [lia|done].
Qed.
(** No references at all. *)
Lemma trees_empty h s : (forall i, fix_sz <= i <= fix_sz + mask -> rd h i = Some 0) -> 2 * N <= Z.of_nat (length s) -> eg_table trees 1 h s.
Proof using.
  intros Hh Hl. split; [done|]. intros i Hi. exists 0, Leaf. split; [by apply Hh|]. split; [lia|]. split; [cbn; unfold reach; lia|].
  split; [done|]. by intros x ?%elem_of_nil.
Qed.
End Engine.

(** ** Skip *)
Section Skip.
Variables (l crct : list Z) (N mm mask nb : Z) (bt : bool) (key : Z -> option Z).
Hypothesis HN : 2 <= N.

Abbreviation L := (Z.of_nat (length l)).
Abbreviation G := (trees l N mm (fix_size nb) mask key HN).
Abbreviation is_ready := (ready l crct N mm mask nb bt key G).

Lemma skip_loop_bt_ok hf p num :
  (forall p, fixed l crct N mm mask nb bt key p -> hf p = enter p) ->
  settings l crct N mm mask nb bt -> is_ready p -> 1 <= num -> buffer p + num <= L ->
  exists p', skip_loop_bt (min_len nb) hf p num = Some p' /\ is_ready p' /\ buffer p' = buffer p + num.
Proof.
  intros Hhf Hs Hr Hn HL. pose proof Hr as (_ & Hp & _). pose proof (pl_buffer _ Hp). pose proof (st_len Hs). unfold skip_loop_bt.
  apply (loop_total (fun '(q, n) => is_ready q /\ 1 <= n /\ buffer q + n = buffer p + num) (fun '(q, n) => Z.to_nat n));
    [|split; [done|lia]|lia].
  intros [q n] (Hq & Hnq & Hb). pose proof Hq as (Hf & Hpq & _). pose proof (pl_buffer _ Hpq).
  assert (exists q', (if lenLimit q <? min_len nb then MatchFinder_MovePos q
      else '(curMatch, p) ← hf q; skip_footer SkipMatchesSpec (lenLimit p) curMatch p) = Some q' /\ is_ready q' /\ buffer q' = buffer q + 1)
    as (q' & -> & Hq' & Eb).
  { destruct (Z.ltb_spec (lenLimit q) (min_len nb)).
    - apply (short_move l crct N mm mask nb bt key G); [done|done|lia|done].
    - rewrite (Hhf q Hf). destruct (enter_ok l crct N mm mask nb bt key G q Hs) as (c & h & -> & He);
        [by apply ready_mid; [..|lia|]|]. opt.
      exact (skip_footer_ok l crct N mm mask nb bt key G c _ Hs He). }
  opt. rewrite wrap_small by (unfold in_width; lia). destruct (Z.eqb_spec (n - 1) 0); cbn [negb]; [split; [done|lia]|].
  split; [|lia]. split; [done|lia].
Qed.
End Skip.

(** ** GetMatches and Skip *)
Section Bt.
Variables (l crct : list Z) (N mm mask nb : Z) (key : Z -> option Z).
Hypothesis HN : 2 <= N.

Abbreviation G := (trees l N mm (fix_size nb) mask key HN).
Abbreviation is_ready := (ready l crct N mm mask nb true key G).

Lemma Bt_GetMatches_ok p :
  settings l crct N mm mask nb true -> is_ready p -> buffer p < Z.of_nat (length l) ->
  found l crct N mm mask nb true key G p (vt_GetMatches p p []).
Proof.
  intros Hs Hr HL. pose proof (st_nb Hs). pose proof Hr as (Hf & _). unfold vt_GetMatches. rewrite (fx_bt _ Hf), (fx_nb _ Hf). cbn [negb].
  destruct (Z.eqb_spec nb 2) as [E2|]; [by apply (GetMatches2_ok l crct N mm mask nb true key G)|].
  destruct (Z.eqb_spec nb 3) as [E3|]; [by apply (GetMatches3_ok l crct N mm mask nb true key G)|].
  pose proof (GetMatches4_ok l crct N mm mask nb true key G p Hs Hr HL ltac:(lia)) as H'.
  destruct (Z.eqb_spec nb 4) as [->|]; [done|]. by rewrite (proj2 (Z.leb_gt nb 4)) in H' by lia.
Qed.

Lemma Bt_Skip_ok p num :
  settings l crct N mm mask nb true -> is_ready p -> 1 <= num -> buffer p + num <= Z.of_nat (length l) ->
  exists p', vt_Skip p p num = Some p' /\ is_ready p' /\ buffer p' = buffer p + num.
Proof.
  intros Hs Hr Hn HL. pose proof (st_nb Hs). pose proof Hr as (Hf & _). unfold vt_Skip. rewrite (fx_bt _ Hf), (fx_nb _ Hf). cbn [negb].
  assert (forall m hf, m = min_len nb -> (forall p, fixed l crct N mm mask nb true key p -> hf p = enter p) ->
    exists p', skip_loop_bt m hf p num = Some p' /\ is_ready p' /\ buffer p' = buffer p + num) as Hskip.
  { intros m hf -> Hhf. by apply skip_loop_bt_ok. }
  unfold min_len in Hskip. unfold Bt2_MatchFinder_Skip, Bt3_MatchFinder_Skip, Bt4_MatchFinder_Skip, Bt5_MatchFinder_Skip.
  destruct (Z.eqb_spec nb 2) as [E2|]; [|destruct (Z.eqb_spec nb 3) as [E3|]; [|destruct (Z.eqb_spec nb 4) as [E4|]]];
    apply Hskip; try (done || (destruct (Z.leb_spec nb 4); lia));
    intros q Hq; unfold enter, HASH_CALC; rewrite (fx_nb _ Hq); subst; try done.
  rewrite (proj2 (Z.eqb_neq nb 2)), (proj2 (Z.eqb_neq nb 3)), (proj2 (Z.leb_gt nb 4)) by lia. done.
Qed.
End Bt.
