(* ===== verification/LzFindLaws.v ===== *)
(** * The match finder behind its interface

    Hash chains and binary trees both implement the interface of MatchFinder.v, by
    [btMode] and [numHashBytes]. *)

From stdpp Require Import base numbers list list_numbers.
From Stdlib Require Import ZArith Lia.
From S2P Require Import Prelude MatchFinder LzFind LzFindWindow LzFindSearch LzFindHc LzFindForest.
Local Open Scope Z_scope.

(** The search by [btMode]. *)
Definition engine_of (bt : bool) (l : list Z) (N mm fix_sz mask : Z) (key : Z -> option Z) (HN : 2 <= N) : engine l N mm fix_sz mask key :=
  if bt then trees l N mm fix_sz mask key HN else chains l N mm fix_sz mask key HN.

Section Laws.
Variables (l crct : list Z) (N mm mask nb : Z) (bt : bool) (key : Z -> option Z).
Hypothesis HN : 2 <= N.

Abbreviation is_ready := (ready l crct N mm mask nb bt key (engine_of bt l N mm (fix_size nb) mask key HN)).

Lemma GetMatches_ok p :
  settings l crct N mm mask nb bt -> is_ready p -> buffer p < Z.of_nat (length l) ->
  exists n d p', vt_GetMatches p p [] = Some (d, p') /\ is_ready p' /\ buffer p' = buffer p + 1 /\ matches_ok l (buffer p) mm (N - 1) n d.
Proof. unfold engine_of. destruct bt; [apply Bt_GetMatches_ok|apply Hc_GetMatches_ok]. Qed.

Lemma Skip_ok p num :
  settings l crct N mm mask nb bt -> is_ready p -> 1 <= num -> buffer p + num <= Z.of_nat (length l) ->
  exists p', vt_Skip p p num = Some p' /\ is_ready p' /\ buffer p' = buffer p + num.
Proof. unfold engine_of. destruct bt; [apply Bt_Skip_ok|apply Hc_Skip_ok]. Qed.
End Laws.

#[export] Instance CMatchFinder_ops : IMatchFinder2 CMatchFinder := {
  mf_GetNumAvailableBytes := MatchFinder_GetNumAvailableBytes;
  mf_GetPointerToCurrentPos := MatchFinder_GetPointerToCurrentPos;
  mf_GetMatches p d := vt_GetMatches p p d;
  mf_Skip p num := vt_Skip p p num
}.

(** In use over the data [l]. *)
Definition finder_ok (l : list Z) (lim hist : Z) (p : CMatchFinder) : Prop :=
  exists crct mask nb bt key HN, settings l crct (hist + 1) lim mask nb bt /\
    ready l crct (hist + 1) lim mask nb bt key (engine_of bt l (hist + 1) lim (fix_size nb) mask key HN) p.

#[export] Program Instance CMatchFinder_laws : MatchFinderLaws CMatchFinder := {| mf_ok := finder_ok |}.
Next Obligation.
  intros l lim hist p (crct & mask & nb & bt & key & HN & Hs & Hf & Hp & _). cbn.
  unfold MatchFinder_GetPointerToCurrentPos, MatchFinder_GetNumAvailableBytes.
  rewrite (avail l crct (hist + 1) lim mask nb bt key) by done. by pose proof (pl_buffer _ Hp).
Qed.
Next Obligation.
  intros l lim hist p (crct & mask & nb & bt & key & HN & Hs & Hr) Hlt.
  destruct (GetMatches_ok l crct (hist + 1) lim mask nb bt key HN p) as (n & d & p' & E & Hr' & Eb & Hm); [done..|].
  exists n, d, p'. split; [exact E|]. split; [by exists crct, mask, nb, bt, key, HN|]. split; [exact Eb|].
  by replace (hist + 1 - 1) with hist in Hm by lia.
Qed.
Next Obligation.
  intros l lim hist p num (crct & mask & nb & bt & key & HN & Hs & Hr) Hn. cbn in Hn. unfold MatchFinder_GetPointerToCurrentPos in Hn.
  destruct (Skip_ok l crct (hist + 1) lim mask nb bt key HN p num) as (p' & E & Hr' & Eb); [done|done|lia..|].
  exists p'. split; [exact E|]. split; [by exists crct, mask, nb, bt, key, HN|exact Eb].
Qed.
