(* ===== verification/LzFindInit.v ===== *)
(** * The start of the match finder

    LzFind.c: after MatchFinder_Create on a new object and MatchFinder_Init the references
    and the window meet the invariant of LzFindLaws.v; sequences of searches. *)

From stdpp Require Import base numbers list list_numbers.
From Stdlib Require Import ZArith Lia.
From S2P Require Import Prelude MatchFinder LzFind LzFindWindow LzFindSearch LzFindHc LzFindForest LzFindLaws.
Local Open Scope Z_scope.
Local Open Scope word_scope.

(** ** Init *)
Lemma fill_zero (h : list Z) a n :
  0 <= a -> 0 <= n -> a + n <= Z.of_nat (length h) ->
  exists h', while (S (Z.to_nat n)) (fun '(i, _) => i <? n) (fun '(i, h) => h ← wrz h (a + i) kEmptyHashValue; Some (i + 1, h)) (0, h) =
      Some (n, h') /\ length h' = length h /\
    forall i, rd h' i = if (a <=? i) && (i <? a + n) then Some kEmptyHashValue else rd h i.
Proof.
  intros Ha Hn Hl.
  while_inv (fun '(i, h') => 0 <= i <= n /\ length h' = length h /\
      forall j, rd h' j = if (a <=? j) && (j <? a + i) then Some kEmptyHashValue else rd h j) (fun '(i, _) => Z.to_nat (n - i)).
  - split; [lia|]. split; [done|]. intros j. by destruct (Z.leb_spec a j), (Z.ltb_spec j (a + 0)); [lia|..].
  - lia.
  - intros [i h'] (Hi & Hl' & Hh) Hc%Z.ltb_lt. rewrite wrz_Some by lia. opt. eexists. split; [done|].
    split; [|lia]. split; [lia|]. split; [by rewrite length_insert|]. intros j. destruct (Z.eq_dec j (a + i)) as [->|].
    + rewrite rd_lookup, list_lookup_insert_eq by lia. by destruct (Z.leb_spec a (a + i)), (Z.ltb_spec (a + i) (a + (i + 1))); [|lia..].
    + rewrite rd_insert_ne, Hh by lia. destruct (Z.leb_spec a j); [|done].
      by destruct (Z.ltb_spec j (a + i)), (Z.ltb_spec j (a + (i + 1))); cbn; try done; lia.
  - intros [i h'] (Hi & Hl' & Hh) Hc%Z.ltb_ge. assert (i = n) as -> by lia. by exists h'.
Qed.

Lemma Init_hash_ok p :
  0 <= hashMask p -> 0 <= fixedHashSize p -> fixedHashSize p + hashMask p + 1 <= Z.of_nat (length (hash p)) ->
  exists h, MatchFinder_Init_HighHash p ≫= MatchFinder_Init_LowHash = Some (set_refs h (son p) p) /\
    forall i, 0 <= i <= fixedHashSize p + hashMask p -> rd h i = Some 0.
Proof.
  intros Hm Hf Hl. unfold MatchFinder_Init_HighHash, MatchFinder_Init_LowHash.
  destruct (fill_zero (hash p) (fixedHashSize p) (hashMask p + 1)) as (h1 & -> & L1 & H1); [lia..|]. opt.
  cbn [hash son fixedHashSize set_refs].
  destruct (fill_zero h1 0 (fixedHashSize p)) as (h2 & E & L2 & H2); [lia..|]. 
  lazymatch type of E with ?w = _ => match goal with |- context [while ?f ?c ?b ?s] => change (while f c b s) with w end end.
  rewrite E. opt.
  exists h2. split; [done|]. intros i Hi. rewrite H2, H1.
  destruct (Z.leb_spec 0 i), (Z.ltb_spec i (0 + fixedHashSize p)), (Z.leb_spec (fixedHashSize p) i),
    (Z.ltb_spec i (fixedHashSize p + (hashMask p + 1))); cbn; done || lia.
Qed.

(** What MatchFinder_Create leaves for [N] positions of history. *)
Record created (N mm mask nb : Z) (bt : bool) (p : CMatchFinder) : Prop := {
  cr_N : cyclicBufferSize p = N; cr_mm : matchMaxLen p = mm; cr_keep : mm <= keepSizeAfter p; cr_mask : hashMask p = mask;
  cr_fixed : fixedHashSize p = fix_size nb; cr_bt : btMode p = bt; cr_nb : numHashBytes p = nb;
  cr_hash : fix_size nb + mask + 1 <= Z.of_nat (length (hash p));
  cr_son : (if bt then 2 * N else N) <= Z.of_nat (length (son p))
}.

Lemma engine_empty l N mm fix_sz mask key bt HN h s :
  (forall i, fix_sz <= i <= fix_sz + mask -> rd h i = Some 0) -> (if bt : bool then 2 * N else N) <= Z.of_nat (length s) ->
  eg_table (engine_of bt l N mm fix_sz mask key HN) 1 h s.
Proof. destruct bt; [apply trees_empty|apply chains_empty]. Qed.

Lemma fix_size_nonneg nb : 0 <= fix_size nb.
Proof. unfold fix_size. by destruct (nb =? 2), (nb =? 3). Qed.

Lemma MatchFinder_Init_ok l crct N mm mask nb bt p :
  settings l crct N mm mask nb bt -> created N mm mask nb bt p ->
  data p = l -> buffer p = 0 -> directInputRem p = Z.of_nat (length l) -> crc p = crct ->
  exists p' key HN, MatchFinder_Init p = Some p' /\
    ready l crct N mm mask nb bt key (engine_of bt l N mm (fix_size nb) mask key HN) p' /\ buffer p' = 0.
Proof.
  intros Hs Hc Hd Hb Hr Ht. unfold MatchFinder_Init. pose proof (fix_size_nonneg nb).
  pose proof Hs as []. destruct Hc.
  destruct (Init_hash_ok p) as (h & E & Hh); [lia..|].
  destruct (MatchFinder_Init_HighHash p) as [q|]; [|done]. cbn [mbind option_bind] in E. opt. rewrite E. opt.
  unfold MatchFinder_ReadBlock, MatchFinder_Init_4, GET_AVAIL_BYTES.
  cbn [streamEndWasReached streamPos pos directInputRem set_stream set_window set_refs buffer]. rewrite Hr.
  change (u32 (0xFFFFFFFF - u32 (1 - 1))) with 0xFFFFFFFF.
  destruct (Z.ltb_spec (Z.of_nat (length l)) 0xFFFFFFFF); [|lia].
  rewrite (wrap_small 32 (Z.of_nat (length l))) by (unfold in_width; lia). rewrite Z.sub_diag. change (0 =? 0) with true.
  rewrite (wrap_small 32 (1 + Z.of_nat (length l))) by (unfold in_width; lia).
  match goal with |- exists p' _ _, Some (MatchFinder_SetLimits ?q) = _ /\ _ => set (r := q) end.
  assert (fixed l crct N mm mask nb bt (main_index r) r) as Hf by (constructor; cbn; (done || lia)).
  assert (placed l N r) as Hp by (constructor; cbn; try lia; by rewrite Hb).
  destruct (SetLimits_ok l crct N mm mask nb bt (main_index r) r) as (lim & len & -> & Hl & Ha); [done|done|done|cbn; lia|].
  eexists _, (main_index r), (proj1 st_N). split; [done|]. split; [|done]. split; [by destruct Hf; constructor|]. split; [by destruct Hp; constructor|].
  split; [done|]. split; [done|]. intros _. cbn. split.
  - intros i Hi. exists 0. split; [apply Hh; lia|]. split; [lia|done].
  - apply engine_empty; [|done]. intros i Hi. apply Hh. lia.
Qed.

(** ** Create *)

(** [alloc] gives blocks of the size asked for. *)
Definition alloc_ok (alloc : Z -> option (list Z * Z)) : Prop :=
  forall n refs addr, 0 <= n -> alloc n = Some (refs, addr) -> Z.of_nat (length refs) = n.

Lemma lor_width w a b : in_width w a -> in_width w b -> 0 <= w -> in_width w (a ||| b).
Proof. intros. by apply lor_in_width. Qed.

Lemma propagate_width hs : in_width 32 hs -> in_width 32 (propagate hs).
Proof. intros H. unfold propagate. repeat (apply lor_width; [|apply shiftr_in_width; [lia|]|lia]); done. Qed.

Lemma min_mask_width n hs : in_width 32 hs -> in_width 32 (min_mask n hs).
Proof.
  intros H. unfold min_mask.
  assert (in_width 32 (hs ||| (1 <<< 16 - 1))) by (apply lor_width; [done|by unfold in_width|lia]).
  destruct (5 <=? n); [|done]. apply lor_width; [done|by unfold in_width|lia].
Qed.

Lemma pred_width hs : in_width 32 hs -> in_width 32 (if negb (hs =? 0) then hs - 1 else hs).
Proof. unfold in_width. intros ?. destruct (Z.eqb_spec hs 0); cbn; lia. Qed.

Lemma GetHashMask_width p hs : in_width 32 hs -> in_width 32 (MatchFinder_GetHashMask p hs).
Proof.
  intros H. unfold MatchFinder_GetHashMask. destruct (_ =? 2); [by unfold in_width|]. apply min_mask_width.
  pose proof (shiftr_in_width 32 _ 1 ltac:(lia) (propagate_width _ (pred_width _ H))) as H1.
  destruct (_ <=? _); [|done]. destruct (_ =? 3); [by unfold in_width|]. by apply shiftr_in_width.
Qed.

Lemma GetHashMask2_width p hs : in_width 32 hs -> in_width 32 (MatchFinder_GetHashMask2 p hs).
Proof.
  intros H. unfold MatchFinder_GetHashMask2. destruct (_ =? 2); [by unfold in_width|]. apply min_mask_width.
  pose proof (propagate_width _ (pred_width _ H)) as H1.
  destruct (_ <=? _); [|done]. destruct (_ =? 3); [by unfold in_width|done].
Qed.

(** The mask in use is not above the one the block was sized for. *)
Lemma create_masks_ok p size hs cur :
  in_width 32 size -> 0 <= numHashOutBits p -> create_masks p size = (hs, cur) -> 0 <= cur <= hs /\ hs < 2 ^ 32.
Proof.
  intros Hs Hn. unfold create_masks.
  pose proof (GetHashMask_width p _ Hs) as M1. pose proof (GetHashMask2_width p _ Hs) as M2.
  pose proof (GetHashMask_width p _ (wrap_in_width 32 (expectedDataSize p) ltac:(lia))) as E1.
  pose proof (GetHashMask2_width p _ (wrap_in_width 32 (expectedDataSize p) ltac:(lia))) as E2. unfold in_width in *.
  destruct (negb _) eqn:Eb.
  - set (bits := if _ <=? numHashOutBits p then _ else numHashOutBits p).
    set (top := if 32 <=? bits then _ else _). assert (in_width 32 top) as Ht.
    { unfold top. destruct (Z.leb_spec 32 bits); [by unfold in_width|]. unfold in_width. rewrite Z.shiftl_mul_pow2.
      - assert (2 ^ bits <= 2 ^ 31) by (apply Z.pow_le_mono_r; lia).
        assert (0 < 2 ^ bits); [|lia]. apply Z.pow_pos_nonneg; [lia|]. unfold bits.
        by repeat (match goal with |- context [if ?b then _ else _] => destruct b end).
      - unfold bits. by repeat (match goal with |- context [if ?b then _ else _] => destruct b end). }
    pose proof (min_mask_width (numHashBytes p) _ Ht) as Hm. unfold in_width in Hm.
    destruct (Z.leb_spec (MatchFinder_GetHashMask2 p size) (min_mask (numHashBytes p) top));
      destruct (expectedDataSize p <? size);
      try (match goal with |- context [if ?a <=? ?b then _ else _] => destruct (Z.leb_spec a b) end); intros [= <- <-]; lia.
  - destruct (expectedDataSize p <? size);
      try (match goal with |- context [if ?a <=? ?b then _ else _] => destruct (Z.leb_spec a b) end); intros [= <- <-]; lia.
Qed.

Lemma le_lor x m : 0 <= x -> 0 <= m -> m <= x ||| m.
Proof.
  intros Hx Hm. pose proof (land_mask_le m (x ||| m)) as H. assert (m &&& (x ||| m) = m) as E.
  { apply Z.bits_inj'. intros i _. rewrite Z.land_spec, Z.lor_spec. by destruct (Z.testbit m i), (Z.testbit x i). }
  rewrite E in H. apply H. apply Z.lor_nonneg. lia.
Qed.

(** On 2 bytes every value has its head. *)
Lemma create_masks_two p size hs cur :
  numHashBytes p = 2 -> 0 <= numHashOutBits p -> create_masks p size = (hs, cur) -> 0xFFFF <= cur.
Proof.
  intros Hn Ho. unfold create_masks, MatchFinder_GetHashMask, MatchFinder_GetHashMask2. rewrite Hn. change (2 =? 2) with true. cbv beta iota zeta.
  change (1 <<< 16 - 1) with 0xFFFF. change (65535 <=? 65535) with true. destruct (negb _); cycle 1.
  { destruct (_ <? _); by intros [= _ <-]. }
  set (top := if 32 <=? _ then _ else _). assert (65535 <= min_mask 2 top) as Hge.
  { unfold min_mask. change (5 <=? 2) with false. change (1 <<< 16 - 1) with 65535. apply le_lor; [|done].
    unfold top. destruct (32 <=? _); [done|]. rewrite Z.shiftl_1_l. pose proof (Z.pow_pos_nonneg 2 (if 16 <=? numHashOutBits p then 16 else numHashOutBits p)).
    destruct (16 <=? _) in *; lia. }
  rewrite (proj2 (Z.leb_le _ _) Hge). destruct (_ <? _); by intros [= _ <-].
Qed.

Lemma align16 n : 0 <= n -> n <= (n + 0xF) &&& Z.lnot 0xF.
Proof.
  intros Hn. rewrite <-Z.ldiff_land. change 0xF with (Z.ones 4). rewrite Z.ldiff_ones_r by lia.
  rewrite Z.shiftl_mul_pow2, Z.shiftr_div_pow2 by lia. change (Z.ones 4) with 15. change (2 ^ 4) with 16.
  pose proof (Z.div_mod (n + 15) 16). pose proof (Z.mod_pos_bound (n + 15) 16). lia.
Qed.

Lemma MatchFinder_Create_ok alloc p historySize before mm after :
  alloc_ok alloc -> hash p = [] -> 2 <= numHashBytes p -> 0 <= numHashBytes_Min p <= 2 -> 0 <= numHashOutBits p ->
  1 <= historySize <= 2 ^ 32 - 2 -> 0 <= after -> 0 <= mm -> mm + after < 2 ^ 32 ->
  let '(ok, p') := MatchFinder_Create alloc p historySize before mm after in
  ok = true ->
  created (historySize + 1) mm (hashMask p') (numHashBytes p) (btMode p) p' /\ 0 <= hashMask p' < 2 ^ 32 /\
  (numHashBytes p = 2 -> 0xFFFF <= hashMask p') /\
  data p' = data p /\ buffer p' = buffer p /\ directInputRem p' = directInputRem p /\ crc p' = crc p.
Proof.
  intros Ha Hh Hn Hmin Hout Hsize Haft Hmm Hsum. unfold MatchFinder_Create. rewrite (wrap_small 32 (after + mm)) by (unfold in_width; lia).
  set (ka := if after + mm <? numHashBytes p then numHashBytes p else after + mm).
  assert (mm <= ka) as Hka by (unfold ka; destruct (Z.ltb_spec (after + mm) (numHashBytes p)); lia). clearbody ka.
  set (p1 := set_keep _ ka p). destruct (create_masks p1 historySize) as [hs cur] eqn:Em.
  pose proof (fun H => create_masks_two p1 historySize hs cur H Hout Em) as Htwo.
  apply create_masks_ok in Em as [Hcur Hhs]; [|unfold in_width; lia|exact Hout].
  cbn [hash numHashBytes numHashBytes_Min btMode numRefs set_keep set_hash_sizes set_history p1] in *. rewrite Hh.
  cbn [is_null negb andb]. rewrite (proj2 (Z.leb_le (numHashBytes_Min p) 2)), (proj2 (Z.leb_le (numHashBytes_Min p) 3)) by lia.
  rewrite !andb_true_r. rewrite (wrap_small 32 (historySize + 1)) by (unfold in_width; lia).
  assert ((if 2 <? numHashBytes p then kHash2Size else 0) + (if 3 <? numHashBytes p then kHash3Size else 0) = fix_size (numHashBytes p)) as ->.
  { unfold fix_size. destruct (Z.ltb_spec 2 (numHashBytes p)), (Z.ltb_spec 3 (numHashBytes p)), (Z.eqb_spec (numHashBytes p) 2),
      (Z.eqb_spec (numHashBytes p) 3); done || lia. }
  pose proof (fix_size_nonneg (numHashBytes p)). set (sum := hs + 1 + fix_size (numHashBytes p)).
  set (sons := if btMode p then _ else _). assert (sons = if btMode p then 2 * (historySize + 1) else historySize + 1) as Esons.
  { unfold sons. destruct (btMode p); [|done]. rewrite Z.shiftl_mul_pow2; lia. }
  assert (0 <= sons) as Hsons by (rewrite Esons; destruct (btMode p); lia).
  pose proof (align16 (sum + sons) ltac:(lia)) as Hal. set (size := (sum + sons + 0xF) &&& Z.lnot 0xF) in *.
  destruct (alloc size) as [[refs addr]|] eqn:Eal; [|done]. intros _. apply Ha in Eal; [|lia].
  split; [|split; [cbn; lia|split; [exact Htwo|done]]].
  constructor; cbn; try done; rewrite ?length_take, ?length_drop; [lia|]. rewrite <-Esons. lia.
Qed.

Lemma Create_succeeds alloc p size before mm after :
  hash p = [] -> (forall n, alloc n <> None) -> exists p', MatchFinder_Create alloc p size before mm after = (true, p').
Proof.
  intros Hh Ha. unfold MatchFinder_Create. destruct (create_masks _ _) as [hs cur].
  cbn [hash set_history set_hash_sizes set_keep]. rewrite Hh. cbn [is_null negb andb].
  match goal with |- context [alloc ?n] => specialize (Ha n); destruct (alloc n) as [[? ?]|]; [|done] end. by eexists.
Qed.

(** ** Searches over the data *)

(** What a client does at the current position: search it, or skip some. *)
Inductive search := Get | Skip (num : Z).

Definition advance_of (s : search) : Z := match s with Get => 1 | Skip num => num end.

(** The searched positions with what was found. *)
Fixpoint run_search (p : CMatchFinder) (ops : list search) : option (list (Z * list Z)) :=
  match ops with
  | [] => Some []
  | Get :: ops => '(d, p') ← vt_GetMatches p p []; l ← run_search p' ops; Some ((buffer p, d) :: l)
  | Skip num :: ops => p' ← vt_Skip p p num; run_search p' ops
  end.

Lemma run_search_ok l lim hist : forall ops p,
  finder_ok l lim hist p -> Forall (fun s => 1 <= advance_of s) ops ->
  foldr (fun s n => advance_of s + n) (buffer p) ops <= Z.of_nat (length l) ->
  exists r, run_search p ops = Some r /\ Forall (fun '(cur, d) => exists m, matches_ok l cur lim hist m d) r.
Proof.
  intros ops. induction ops as [|s ops IH]; intros p Hp Hpos Hsum; cbn [run_search foldr] in *; [exists []; split; [done|apply Forall_nil_2]|].
  apply Forall_cons in Hpos as [Hs Hpos].
  assert (forall n, foldr (fun s n => advance_of s + n) n ops = foldr (fun s n => advance_of s + n) 0 ops + n) as Hfold.
  { intros n. clear. induction ops as [|s ops IH]; cbn [foldr]; [lia|]. rewrite IH. lia. }
  assert (0 <= foldr (fun s n => advance_of s + n) 0 ops) as Hnn.
  { clear -Hpos. induction Hpos as [|s ops Hs _ IH]; cbn [foldr]; lia. }
  rewrite Hfold in Hsum. destruct s as [|num]; cbn [advance_of] in *.
  - destruct (mf_GetMatches_ok (MatchFinderLaws := CMatchFinder_laws) l lim hist p Hp) as (m & d & p' & E & Hp' & Eb & Hm); [cbn; unfold MatchFinder_GetPointerToCurrentPos; lia|].
    cbn in E, Eb. unfold MatchFinder_GetPointerToCurrentPos in Eb. rewrite E. opt.
    destruct (IH p' Hp' Hpos) as (r & -> & Hr); [rewrite Hfold; lia|]. opt. eexists. split; [done|]. apply Forall_cons. split; [by exists m|done].
  - destruct (mf_Skip_ok (MatchFinderLaws := CMatchFinder_laws) l lim hist p num Hp) as (p' & E & Hp' & Eb); [cbn; unfold MatchFinder_GetPointerToCurrentPos; lia|].
    cbn in E, Eb. unfold MatchFinder_GetPointerToCurrentPos in Eb. rewrite E. opt. apply IH; [done|done|]. rewrite Hfold. lia.
Qed.

(** A match finder over the data that has no block yet: with chains, or with trees. *)
Record new_finder (l : list Z) (p : CMatchFinder) : Prop := {
  nf_data : data p = l /\ buffer p = 0 /\ directInputRem p = Z.of_nat (length l); nf_hash : hash p = [];
  nf_bytes : 2 <= numHashBytes p; nf_mode : btMode p = false -> 4 <= numHashBytes p;
  nf_min : 0 <= numHashBytes_Min p <= 2; nf_out : 0 <= numHashOutBits p; nf_crc : length (crc p) = 256%nat
}.

Lemma new_finder_ok alloc l p historySize before mm after :
  alloc_ok alloc -> (forall n, alloc n <> None) -> new_finder l p -> bytes l -> Z.of_nat (length l) <= 2 ^ 32 - 2 ->
  1 <= historySize <= 2 ^ 32 - 2 -> 5 <= mm -> 0 <= after -> mm + after < 2 ^ 32 ->
  exists p1 p2, MatchFinder_Create alloc p historySize before mm after = (true, p1) /\ MatchFinder_Init p1 = Some p2 /\
    finder_ok l mm historySize p2 /\ buffer p2 = 0.
Proof.
  intros Ha Hmem [(Hd & Hbuf & Hrem) Hhash Hbytes Hmode Hmin Hout Hcrc] Hb Hl Hsize Hmm Hafter Hsum.
  destruct (Create_succeeds alloc p historySize before mm after Hhash Hmem) as [p1 E1].
  pose proof (MatchFinder_Create_ok alloc p historySize before mm after Ha Hhash Hbytes Hmin Hout Hsize Hafter ltac:(lia) Hsum) as Hc.
  rewrite E1 in Hc. destruct (Hc eq_refl) as (Hcr & Hmask & Htwo & Ed & Eb & Er & Ec).
  pose proof (min_len_range (numHashBytes p) Hbytes).
  assert (settings l (crc p) (historySize + 1) mm (hashMask p1) (numHashBytes p) (btMode p)) as Hs by (constructor; done || lia).
  destruct (MatchFinder_Init_ok l (crc p) (historySize + 1) mm (hashMask p1) (numHashBytes p) (btMode p) p1 Hs Hcr)
    as (p2 & key & HN & E2 & Hr & Eb2); [congruence..|].
  exists p1, p2. do 2 (split; [done|]). split; [|done]. by exists (crc p), (hashMask p1), (numHashBytes p), (btMode p), key, HN.
Qed.

(** C11: The match finder is safe and sound, with hash chains (4 or 5 bytes) and with binary
    trees (2 to 5 bytes): when MatchFinder_Create gets its memory, MatchFinder_Init returns,
    and after it every sequence of GetMatches and Skip that stays within the data returns,
    without an access out of range, and GetMatches reports only matches: pairs of increasing
    lengths up to [matchMaxLen] with distances within [historySize], each the distance of an
    equal run of bytes.  The data have at most 2^32 - 2 bytes, so no position wraps around to
    [kMaxValForNormalize] and no call normalises. *)
Theorem MatchFinder_sound (alloc : Z -> option (list Z * Z)) (l : list Z) (p : CMatchFinder) (historySize before mm after : Z) (ops : list search)
    (Ha : alloc_ok alloc) (Hmem : forall n, alloc n <> None) (Hp : new_finder l p) (Hb : bytes l) (Hl : Z.of_nat (length l) <= 2 ^ 32 - 2)
    (Hsize : 1 <= historySize <= 2 ^ 32 - 2) (Hmm : 5 <= mm) (Hafter : 0 <= after) (Hsum : mm + after < 2 ^ 32)
    (Hpos : Forall (fun s => 1 <= advance_of s) ops) (Hops : foldr (fun s n => advance_of s + n) 0 ops <= Z.of_nat (length l)) :
  exists p1 p2 r, MatchFinder_Create alloc p historySize before mm after = (true, p1) /\ MatchFinder_Init p1 = Some p2 /\
    run_search p2 ops = Some r /\ Forall (fun '(cur, d) => exists m, matches_ok l cur mm historySize m d) r.
Proof.
  destruct (new_finder_ok alloc l p historySize before mm after) as (p1 & p2 & E1 & E2 & Hok & Eb); [done..|].
  destruct (run_search_ok l mm historySize ops p2 Hok Hpos) as (r & E3 & H3); [by rewrite Eb|]. by exists p1, p2, r.
Qed.

(** An allocator of cleared blocks, and a new object over some data. *)
Definition cleared_block (n : Z) : option (list Z * Z) := Some (replicate (Z.to_nat n) 0, 0).

Definition hc_example (l : list Z) : CMatchFinder :=
  {| data := l; buffer := 0; pos := 0; posLimit := 0; streamPos := 0; lenLimit := 0; cyclicBufferPos := 0; cyclicBufferSize := 0;
     streamEndWasReached := false; btMode := false; matchMaxLen := 0; hash := []; son := []; hashMask := 0; cutValue := 16;
     keepSizeBefore := 0; keepSizeAfter := 0; numHashBytes := 5; numHashBytes_Min := 2; numHashOutBits := 0;
     directInputRem := Z.of_nat (length l); historySize := 0; fixedHashSize := 0; numRefs := 0; expectedDataSize := 2 ^ 64 - 1;
     crc := replicate 256 0; hash_addr := 0 |}.

(** With binary trees on 2 bytes. *)
Definition bt_example (l : list Z) : CMatchFinder := set_settings true 2 2 0 32 (hc_example l).

Lemma MatchFinder_sound_witness :
  exists p1 p2 r, MatchFinder_Create cleared_block (bt_example [1; 2; 3; 1; 2; 3; 1; 2; 3; 4]) 4096 2048 32 274 = (true, p1) /\
    MatchFinder_Init p1 = Some p2 /\ run_search p2 [Get; Skip 2; Get; Get] = Some r.
Proof.
  destruct (MatchFinder_sound cleared_block [1; 2; 3; 1; 2; 3; 1; 2; 3; 4] (bt_example [1; 2; 3; 1; 2; 3; 1; 2; 3; 4])
    4096 2048 32 274 [Get; Skip 2; Get; Get]) as (p1 & p2 & r & H1 & H2 & H3 & _); [| | | |cbn; lia..| | |by exists p1, p2, r].
  - intros n refs addr Hn [= <- <-]. rewrite length_replicate. by apply Z2Nat.id.
  - done.
  - constructor; try done; cbn; lia.
  - byte_list.
  - repeat (apply Forall_cons_2; [cbn; lia|]). apply Forall_nil_2.
  - cbn. lia.
Defined.
