(* ===== verification/LzFindNorm.v ===== *)
(** * Normalisation of the references, and a kept block

    MatchFinder_Normalize3 of LzFind.c: whatever the address of the references, the aligned
    blocks and the ends before and after them make up one pass over all items.  And what
    MatchFinder_Create does when it keeps the block of an earlier call. *)

From stdpp Require Import base numbers list list_numbers.
From Stdlib Require Import ZArith Lia.
From S2P Require Import Prelude LzFind LzFindInit.
Local Open Scope Z_scope.
Local Open Scope word_scope.

Section Norm.
Variable sub : Z.

Lemma SaturSub_map (k : nat) : forall items, length items = (8 * k)%nat -> LzFind_SaturSub_32 sub items = Some (map (SASUB_32 sub) items).
Proof.
  induction k as [|k IH]; intros items Hl; [by destruct items|].
  destruct items as [|i0 [|i1 [|i2 [|i3 [|i4 [|i5 [|i6 [|i7 items]]]]]]]]; cbn [length] in Hl; try lia.
  cbn [LzFind_SaturSub_32 map]. rewrite IH by lia. done.
Qed.

Lemma normalize_head_ok : forall items addr (n : nat), (n <= length items)%nat ->
  exists (k : nat) a, (k <= n)%nat /\ normalize_head addr sub items n = (map (SASUB_32 sub) (take k items), a, drop k items, (n - k)%nat).
Proof.
  induction items as [|v items IH]; intros addr n Hn; cbn [normalize_head].
  { exists 0%nat, addr. split; [lia|]. by rewrite Nat.sub_0_r. }
  destruct n as [|n]; [exists 0%nat, addr; split; [lia|done]|]. destruct (negb _).
  - destruct (IH (addr + 1) n ltac:(cbn in Hn; lia)) as (k & a & Hk & E). exists (S k), a. split; [lia|]. by rewrite E.
  - exists 0%nat, addr. split; [lia|]. by rewrite Nat.sub_0_r.
Qed.

(** The number of items in whole blocks of 32. *)
Lemma blocks_of (n : nat) :
  exists k : nat, Z.to_nat (Z.of_nat n &&& Z.lnot (2 ^ 7 / 4 - 1)) = (8 * k)%nat /\ (8 * k <= n)%nat /\
    Z.to_nat (Z.of_nat n &&& (2 ^ 7 / 4 - 1)) = (n - 8 * k)%nat.
Proof.
  change (2 ^ 7 / 4 - 1) with (Z.ones 5). rewrite <-Z.ldiff_land, Z.ldiff_ones_r, Z.land_ones, Z.shiftl_mul_pow2, Z.shiftr_div_pow2 by lia.
  change (2 ^ 5) with 32. exists (4 * Z.to_nat (Z.of_nat n / 32))%nat.
  pose proof (Z.div_mod (Z.of_nat n) 32 ltac:(lia)). pose proof (Z.mod_pos_bound (Z.of_nat n) 32 ltac:(lia)).
  pose proof (Z.div_pos (Z.of_nat n) 32). lia.
Qed.

(** C33: MatchFinder_Normalize3 subtracts [subValue], saturating at zero, from the first
    [numItems] items and leaves the rest: the loop up to the alignment, the blocks of 32
    and the loop over what remains are one map, for every alignment of the array. *)
Theorem MatchFinder_Normalize3_map (addr : Z) (items : list Z) (numItems : Z) (Hn : 0 <= numItems <= Z.of_nat (length items)) :
  MatchFinder_Normalize3 addr sub items numItems =
    Some (map (fun v => Z.max (v - sub) 0) (take (Z.to_nat numItems) items) ++ drop (Z.to_nat numItems) items).
Proof.
  assert (forall xs, map (SASUB_32 sub) xs = map (fun v => Z.max (v - sub) 0) xs) as Emap.
  { intros xs. apply map_ext. intros v. unfold SASUB_32. destruct (Z.ltb_spec v sub); lia. }
  unfold MatchFinder_Normalize3. destruct (normalize_head_ok items addr (Z.to_nat numItems)) as (k & a & Hk & ->); [lia|].
  set (n := Z.to_nat numItems) in *. destruct (blocks_of (n - k)) as (b & -> & Hb & ->).
  rewrite (SaturSub_map b) by (rewrite length_take, length_drop; lia). opt. f_equal. rewrite !Emap.
  rewrite <-(take_drop k (take n items)), map_app, take_take, Nat.min_l, <-app_assoc by lia. f_equal.
  rewrite <-(take_drop (8 * b) (drop k (take n items))), map_app, <-app_assoc. f_equal.
  - f_equal. rewrite !take_drop_commute, take_take. do 2 f_equal. lia.
  - rewrite !drop_drop. f_equal; [f_equal; rewrite take_drop_commute; f_equal; f_equal; lia|f_equal; lia].
Qed.
End Norm.

(** ** A kept block *)

(** An object with binary trees on 2 bytes, as LzmaEnc_SetProps leaves a new one for
    [btMode = 1], [numHashBytes = 2]. *)
Record bt2_object (p : CMatchFinder) : Prop := {
  bt2_hash : hash p = []; bt2_mode : btMode p = true; bt2_bytes : numHashBytes p = 2; bt2_min : numHashBytes_Min p = 2;
  bt2_out : numHashOutBits p = 0; bt2_size : expectedDataSize p = 2 ^ 64 - 1
}.

Lemma length_take_Z (refs : list Z) n : 0 <= n <= Z.of_nat (length refs) -> Z.of_nat (length (take (Z.to_nat n) refs)) = n.
Proof. intros Hn. rewrite length_take. lia. Qed.

(** The sizes of the first call, and that the second takes the way of the kept block. *)
Lemma Create_bt2 alloc p refs addr :
  bt2_object p -> alloc 8454160 = Some (refs, addr) -> Z.of_nat (length refs) = 8454160 ->
  exists q h s, MatchFinder_Create alloc p (1 <<< 22) 2048 32 274 = (true, set_block 8454160 addr (set_refs h s q)) /\
    expectedDataSize q = 2 ^ 64 - 1 /\ numHashBytes_Min q = 2 /\ Z.of_nat (length h) = 65536.
Proof.
  intros [H1 H2 H3 H4 H5 H6] Ha Hl. unfold MatchFinder_Create.
  set (p1 := set_keep _ _ p). assert (create_masks p1 (1 <<< 22) = (65535, 65535)) as ->.
  { unfold create_masks, MatchFinder_GetHashMask. cbn [numHashOutBits numHashBytes expectedDataSize p1 set_keep]. by rewrite H5, H3, H6. }
  cbn [hash btMode numRefs numHashBytes numHashBytes_Min p1 set_keep set_hash_sizes set_history]. rewrite H1, H2, H3, H4.
  change (65535 + 1 + _) with 65536. change ((65536 + _ + 0xF) &&& Z.lnot 0xF) with 8454160. cbn [is_null negb andb].
  rewrite Ha. do 3 eexists. split; [reflexivity|]. split; [exact H6|]. split; [exact H4|]. apply length_take_Z. lia.
Qed.

Lemma Create_kept alloc q h s addr :
  expectedDataSize q = 2 ^ 64 - 1 -> numHashBytes_Min q = 2 -> h <> [] ->
  let p1 := set_block 8454160 addr (set_refs h s q) in
  exists p2, MatchFinder_Create alloc (set_settings true 4 2 0 32 p1) (1 <<< 21) 2048 32 274 = (true, p2) /\
    hash p2 = h /\ son p2 = s /\ fixedHashSize p2 + hashMask p2 + 1 = 1115136.
Proof.
  intros H1 H2 Hh. cbv zeta. unfold MatchFinder_Create.
  set (p1 := set_keep _ _ _). assert (create_masks p1 (1 <<< 21) = (1048575, 1048575)) as ->.
  { unfold create_masks, MatchFinder_GetHashMask. cbn [numHashOutBits numHashBytes expectedDataSize p1 set_keep set_settings set_block set_refs]. by rewrite H1. }
  cbn [hash btMode numRefs numHashBytes numHashBytes_Min p1 set_keep set_hash_sizes set_history set_settings set_block set_refs].
  assert (is_null h = false) as -> by (by destruct h). change (1048575 + 1 + _) with 1115136.
  change ((1115136 + _ + 0xF) &&& Z.lnot 0xF) with 5309456. cbn [negb andb]. eexists. split; [reflexivity|]. done.
Qed.

(** C36: A match finder that was created for trees on 2 bytes over 4 MiB and is created again
    for trees on 4 bytes over 2 MiB keeps its block, since that is large enough, but also
    keeps [son] where the first call put it: 65536 references stay in front of [son], the
    new hash tables have more than a million, so their upper part and the trees are the same
    memory. *)
Theorem MatchFinder_Create_kept_block (alloc : Z -> option (list Z * Z)) (p : CMatchFinder) (refs : list Z) (addr : Z)
    (Hp : bt2_object p) (Halloc : alloc 8454160 = Some (refs, addr)) (Hrefs : Z.of_nat (length refs) = 8454160) :
  let '(ok1, p1) := MatchFinder_Create alloc p (1 <<< 22) 2048 32 274 in
  let '(ok2, p2) := MatchFinder_Create alloc (set_settings true 4 2 0 32 p1) (1 <<< 21) 2048 32 274 in
  ok1 = true /\ ok2 = true /\ son p2 = son p1 /\ Z.of_nat (length (hash p2)) = 65536 /\ fixedHashSize p2 + hashMask p2 + 1 = 1115136.
Proof.
  destruct (Create_bt2 alloc p refs addr Hp Halloc Hrefs) as (q & h & s & -> & Hq & Hmin & Hlen).
  destruct (Create_kept alloc q h s addr Hq Hmin) as (p2 & -> & -> & -> & ->); [by intros ->|]. done.
Qed.

(** A new object. *)
Definition bt2_example : CMatchFinder :=
  {| data := []; buffer := 0; pos := 0; posLimit := 0; streamPos := 0; lenLimit := 0; cyclicBufferPos := 0; cyclicBufferSize := 0;
     streamEndWasReached := false; btMode := true; matchMaxLen := 0; hash := []; son := []; hashMask := 0; cutValue := 32;
     keepSizeBefore := 0; keepSizeAfter := 0; numHashBytes := 2; numHashBytes_Min := 2; numHashOutBits := 0; directInputRem := 0;
     historySize := 0; fixedHashSize := 0; numRefs := 0; expectedDataSize := 2 ^ 64 - 1; crc := []; hash_addr := 0 |}.

Lemma MatchFinder_Create_kept_block_witness :
  let '(_, p1) := MatchFinder_Create cleared_block bt2_example (1 <<< 22) 2048 32 274 in
  let '(_, p2) := MatchFinder_Create cleared_block (set_settings true 4 2 0 32 p1) (1 <<< 21) 2048 32 274 in
  Z.of_nat (length (hash p2)) < fixedHashSize p2 + hashMask p2 + 1.
Proof.
  assert (bt2_object bt2_example) as Hp by (by constructor).
  assert (forall n, cleared_block n = Some (replicate (Z.to_nat n) 0, 0)) as Ha by done.
  assert (Z.of_nat (length (replicate (Z.to_nat 8454160) 0)) = 8454160) as Hl by (rewrite length_replicate; apply Z2Nat.id; lia).
  pose proof (MatchFinder_Create_kept_block cleared_block bt2_example (replicate (Z.to_nat 8454160) 0) 0 Hp (Ha _) Hl) as H.
  destruct (MatchFinder_Create cleared_block bt2_example (1 <<< 22) 2048 32 274) as [ok1 p1].
  destruct (MatchFinder_Create cleared_block (set_settings true 4 2 0 32 p1) (1 <<< 21) 2048 32 274) as [ok2 p2].
  destruct H as (_ & _ & _ & E1 & E2). lia.
Defined.

Lemma MatchFinder_Normalize3_map_witness :
  MatchFinder_Normalize3 5 10 [3; 10; 12; 100] 3 = Some [0; 0; 2; 100].
Proof. rewrite (MatchFinder_Normalize3_map 10 5 [3; 10; 12; 100] 3); [reflexivity|cbn; lia]. Defined.
