(* ===== verification/LzmaEncFast.v ===== *)
(** * LZMA encoder: the look-ahead and fast mode

    LzmaEnc.c: the look-ahead (MOVE_POS, ReadMatchDistances) and GetOptimumFast, over the match
    finder interface of MatchFinder.v.  The window is the data, pointers are indices in it. *)

From stdpp Require Import base numbers list list_numbers.
From Stdlib Require Import ZArith Lia.
From S2P Require Import Prelude SzTypes RangeEnc LzmaEnc MatchFinder.
Local Open Scope Z_scope.
Local Open Scope word_scope.

Definition LZMA_MATCH_LEN_MAX : Z := 273.
Definition ChangePair (smallDist bigDist : Z) : bool := smallDist <? bigDist >>> 7.

Section Fast.
Context {M : Type} `{IMatchFinder2 M}.

(** The fields of CLzmaEnc between the match finder and the choices. *)
Record lookahead := {
  mf : M; additionalOffset : Z; numAvail : Z; matches : list Z; numPairs : Z; longestMatchLen : Z
}.

(** [MOVE_POS(p, num)] *)
Definition move_pos (num : Z) (f : lookahead) : option lookahead :=
  m ← mf_Skip (mf f) (u32 num);
  Some {| mf := m; additionalOffset := u32 (additionalOffset f + num); numAvail := numAvail f; matches := matches f;
          numPairs := numPairs f; longestMatchLen := longestMatchLen f |}.

(** The length of the longest match, the number of values in [matches]. *)
Definition ReadMatchDistances (numFastBytes : Z) (win : list Z) (f : lookahead) : option (Z * Z * lookahead) :=
  let avail := mf_GetNumAvailableBytes (mf f) in
  '(d, m) ← mf_GetMatches (mf f) [];
  let pairs := Z.of_nat (length d) in
  let f := {| mf := m; additionalOffset := u32 (additionalOffset f + 1); numAvail := avail; matches := d;
              numPairs := numPairs f; longestMatchLen := longestMatchLen f |} in
  if pairs =? 0 then Some (0, pairs, f)
  else
    len ← rd d (pairs - 2);
    if negb (len =? numFastBytes) then Some (len, pairs, f)
    else
      let avail := if LZMA_MATCH_LEN_MAX <? avail then LZMA_MATCH_LEN_MAX else avail in
      let p1 := mf_GetPointerToCurrentPos m - 1 in
      dist ← rd d (pairs - 1);
      len ← extend win p1 (p1 - 1 - dist) len avail;
      Some (len, pairs, f).

(** [data[0] != data2[0] || data[1] != data2[1]] *)
Definition two_differ (win : list Z) (data data2 : Z) : option bool :=
  a ← rd win data; b ← rd win data2;
  if negb (a =? b) then Some true else c ← rd win (data + 1); d ← rd win (data2 + 1); Some (negb (c =? d)).

(** [for (; len < limit && data[len] == data2[len]; len++)] *)
Definition match_len (win : list Z) (data data2 len limit : Z) : option Z :=
  loop (S (Z.to_nat limit))
    (fun len =>
       if negb (len <? limit) then Some (inr len)
       else x ← rd win (data + len); y ← rd win (data2 + len);
            Some (if x =? y then inl (len + 1) else inr len)) len.

Definition rep_len (win : list Z) (data data2 numAvail : Z) : option Z := match_len win data data2 2 numAvail.

(** The first loop over the repeated distances, from the [i]-th on: a repeat that is taken at
    once, or the longest one. *)
Fixpoint rep_search (numFastBytes : Z) (win : list Z) (data numAvail i : Z) (reps : list Z) (repIndex repLen : Z)
  : option (Z * Z + Z * Z) :=
  match reps with
  | [] => Some (inl (repIndex, repLen))
  | rep :: reps =>
      let data2 := data - rep in
      differ ← two_differ win data data2;
      if differ : bool then rep_search numFastBytes win data numAvail (i + 1) reps repIndex repLen
      else
        len ← rep_len win data data2 numAvail;
        if numFastBytes <=? len then Some (inr (i, len))
        else if repLen <? len then rep_search numFastBytes win data numAvail (i + 1) reps i len
        else rep_search numFastBytes win data numAvail (i + 1) reps repIndex repLen
  end.

(** The pair to take: a shorter match that is much nearer wins. *)
Definition main_pair (d : list Z) (numPairs mainLen : Z) : option (Z * Z) :=
  if 2 <=? mainLen then
    mainDist ← rd d (numPairs - 1);
    '(mainLen, mainDist) ← loop (S (Z.to_nat numPairs))
      (fun '(numPairs, mainLen, mainDist) =>
         if 2 <? numPairs then
           len2 ← rd d (numPairs - 4);
           if negb (mainLen =? len2 + 1) then Some (inr (mainLen, mainDist))
           else
             dist2 ← rd d (numPairs - 3);
             if negb (ChangePair dist2 mainDist) then Some (inr (mainLen, mainDist))
             else Some (inl (numPairs - 2, mainLen - 1, dist2))
         else Some (inr (mainLen, mainDist))) (numPairs, mainLen, mainDist);
    Some (if (mainLen =? 2) && (0x80 <=? mainDist) then 1 else mainLen, mainDist)
  else Some (mainLen, 0).

Definition rep_wins (repLen mainLen mainDist : Z) : bool :=
  (2 <=? repLen) &&
  ((mainLen <=? repLen + 1) ||
   ((mainLen <=? repLen + 2) && (1 <<< 9 <=? mainDist)) ||
   ((mainLen <=? repLen + 3) && (1 <<< 15 <=? mainDist))).

(** The match at the next byte is worth a literal before it. *)
Definition next_wins (d : list Z) (numPairs len1 mainLen mainDist : Z) : option bool :=
  if 2 <=? len1 then
    newDist ← rd d (numPairs - 1);
    Some (((mainLen <=? len1) && (newDist <? mainDist)) ||
          ((len1 =? mainLen + 1) && negb (ChangePair mainDist newDist)) ||
          (mainLen + 1 <? len1) ||
          ((mainLen <=? len1 + 1) && (3 <=? mainLen) && ChangePair newDist mainDist))
  else Some false.

(** The loop [for (len = 2;; len++)] of the second search: does the repeat reach [limit]? *)
Definition rep_reaches (win : list Z) (data data2 limit : Z) : option bool :=
  loop (S (Z.to_nat limit))
    (fun len =>
       if limit <=? len then Some (inr true)
       else x ← rd win (data + len); y ← rd win (data2 + len);
            Some (if negb (x =? y) then inr false else inl (len + 1))) 2.

Fixpoint near_rep (win : list Z) (data limit : Z) (reps : list Z) : option bool :=
  match reps with
  | [] => Some false
  | rep :: reps =>
      let data2 := data - rep in
      differ ← two_differ win data data2;
      if differ : bool then near_rep win data limit reps
      else
        r ← rep_reaches win data data2 limit;
        if r : bool then Some true else near_rep win data limit reps
  end.

Definition set_longest (len pairs : Z) (f : lookahead) : lookahead :=
  {| mf := mf f; additionalOffset := additionalOffset f; numAvail := numAvail f; matches := matches f;
     numPairs := pairs; longestMatchLen := len |}.

(** The length and [backRes]; [reps] are the last four distances. *)
Definition GetOptimumFast (numFastBytes : Z) (win reps : list Z) (f : lookahead) : option (Z * Z * lookahead) :=
  '(mainLen, pairs, f) ← (if additionalOffset f =? 0 then ReadMatchDistances numFastBytes win f
                          else Some (longestMatchLen f, numPairs f, f));
  let avail := numAvail f in
  if avail <? 2 then Some (1, MARK_LIT, f)
  else
    let avail := if LZMA_MATCH_LEN_MAX <? avail then LZMA_MATCH_LEN_MAX else avail in
    let data := mf_GetPointerToCurrentPos (mf f) - 1 in
    r ← rep_search numFastBytes win data avail 0 reps 0 0;
    match r with
    | inr (i, len) => f ← move_pos (len - 1) f; Some (len, i, f)
    | inl (repIndex, repLen) =>
        if numFastBytes <=? mainLen then
          dist ← rd (matches f) (pairs - 1);
          f ← move_pos (mainLen - 1) f; Some (mainLen, u32 (dist + LZMA_NUM_REPS), f)
        else
          '(mainLen, mainDist) ← main_pair (matches f) pairs mainLen;
          if rep_wins repLen mainLen mainDist then f ← move_pos (repLen - 1) f; Some (repLen, repIndex, f)
          else if (mainLen <? 2) || (avail <=? 2) then Some (1, MARK_LIT, f)
          else
            '(len1, pairs1, f) ← ReadMatchDistances numFastBytes win f;
            let f := set_longest len1 pairs1 f in
            next ← next_wins (matches f) pairs1 len1 mainLen mainDist;
            if next : bool then Some (1, MARK_LIT, f)
            else
              near ← near_rep win (mf_GetPointerToCurrentPos (mf f) - 1) (mainLen - 1) reps;
              if near : bool then Some (1, MARK_LIT, f)
              else
                f ← (if negb (mainLen =? 2) then move_pos (mainLen - 2) f else Some f);
                Some (mainLen, u32 (mainDist + LZMA_NUM_REPS), f)
    end.

(** [p->additionalOffset -= len] *)
Definition take_offset (len : Z) (f : lookahead) : lookahead :=
  {| mf := mf f; additionalOffset := u32 (additionalOffset f - len); numAvail := numAvail f; matches := matches f;
     numPairs := numPairs f; longestMatchLen := longestMatchLen f |}.

Definition reps (p : CLzmaEnc) : list Z := [reps0 p; reps1 p; reps2 p; reps3 p].

End Fast.
Arguments lookahead : clear implicits.
