(* ===== verification/LzmaPrices.v ===== *)
(** * LZMA encoder: prices

    src/native/sevenzip_bridge/7z2604-src/C/LzmaEnc.c: what coding a bit, a literal, a length
    or a distance costs with the present probabilities, in sixteenths of a bit, and the
    tables of prices that normal mode keeps: LzmaEnc_InitPriceTables, LitEnc_GetPrice,
    LitEnc_Matched_GetPrice, SetPrices_3, LenPriceEnc_UpdateTables, FillAlignPrices,
    FillDistancesPrices, LzmaEnc_InitPrices.  Tables of two dimensions are stored row by row. *)

From stdpp Require Import base numbers list list_numbers.
From Stdlib Require Import ZArith Lia.
From S2P Require Import Prelude SzTypes RangeEnc LzmaEnc.
Local Open Scope Z_scope.
Local Open Scope word_scope.

Definition kNumMoveReducingBits : Z := 4.
Definition kNumBitPriceShiftBits : Z := 4.
Definition REP_LEN_COUNT : Z := 64.
Definition kDicLogSizeMax : Z := 32.
Definition kDistTableSizeMax : Z := kDicLogSizeMax * 2.
Definition kAlignMask : Z := kAlignTableSize - 1.
Definition kLenNumSymbolsTotal : Z := kLenNumLowSymbols * 2 + kLenNumHighSymbols.
Definition kInfinityPrice : Z := 1 <<< 30.

(** ** One bit *)

(** One turn of the loop over [j]: the inner loop halves a 32-bit [w]. *)
Definition price_round (s : Z * Z) : option (Z * Z) :=
  let '(w, bitCount) := s in
  while 17 (fun '(w, _) => 1 <<< 16 <=? w) (fun '(w, bitCount) => Some (w >>> 1, u32 (bitCount + 1)))
    (u32 (w * w), u32 (bitCount <<< 1)).

(** [ProbPrices[i]]; [kCyclesBits] is 4. *)
Definition prob_price (i : Z) : option Z :=
  let w := u32 ((i <<< kNumMoveReducingBits) + (1 <<< (kNumMoveReducingBits - 1))) in
  s ← price_round (w, 0);
  s ← price_round s;
  s ← price_round s;
  '(_, bitCount) ← price_round s;
  Some (u32 ((kNumBitModelTotalBits <<< kNumBitPriceShiftBits) - 15 - bitCount)).

Definition LzmaEnc_InitPriceTables : option (list Z) :=
  mapM prob_price (seqZ 0 (kBitModelTotal >>> kNumMoveReducingBits)).

(** [GET_PRICEa]: [ProbPrices] of the probability itself or of its complement. *)
Definition GET_PRICEa (pp : list Z) (prob bit : Z) : option Z :=
  rd pp ((prob ^^^ (u32 (0 - bit) &&& (kBitModelTotal - 1))) >>> kNumMoveReducingBits).

(** [GET_PRICEa(probs[..], bit)] *)
Definition price_at (pp : list Z) (m : store) (q : ptr) (bit : Z) : option Z :=
  prob ← load m q; GET_PRICEa pp prob bit.

(** ** Literals *)

Definition LitEnc_GetPrice (pp : list Z) (m : store) (probs : ptr) (sym : Z) : option Z :=
  '(_, price) ← do_while 9
    (fun '(sym, price) =>
       let bit := sym &&& 1 in
       let sym := sym >>> 1 in
       x ← price_at pp m (padd probs sym) bit;
       Some (sym, u32 (price + x)))
    (fun '(sym, _) => 2 <=? sym) (sym ||| 0x100, 0);
  Some price.

Definition LitEnc_Matched_GetPrice (pp : list Z) (m : store) (probs : ptr) (sym matchByte : Z) : option Z :=
  '(_, _, _, price) ← do_while 9
    (fun '(sym, matchByte, offs, price) =>
       let matchByte := u32 (matchByte <<< 1) in
       x ← price_at pp m (padd probs (offs + (matchByte &&& offs) + (sym >>> 8))) ((sym >>> 7) &&& 1);
       let sym := u32 (sym <<< 1) in
       let offs := offs &&& u32 (Z.lnot (matchByte ^^^ sym)) in
       Some (sym, matchByte, offs, u32 (price + x)))
    (fun '(sym, _, _, _) => sym <? 0x10000) (sym ||| 0x100, matchByte, 0x100, 0);
  Some price.

(** ** Lengths *)

Record CLenPriceEnc := { tableSize : Z; len_prices : list Z }.

(** [GET_PRICE_LEN] *)
Definition GET_PRICE_LEN (e : CLenPriceEnc) (posState len : Z) : option Z :=
  rd (len_prices e) (posState * kLenNumSymbolsTotal + (len - LZMA_MATCH_LEN_MIN)).

(** [prices] is a place in the table [t]. *)
Definition SetPrices_3 (pp : list Z) (m : store) (probs : ptr) (startPrice prices : Z) (t : list Z) : option (list Z) :=
  '(_, t) ← while 9 (fun '(i, _) => i <? 8)
    (fun '(i, t) =>
       a ← price_at pp m (padd probs 1) (i >>> 2);
       b ← price_at pp m (padd probs (2 + (i >>> 2))) ((i >>> 1) &&& 1);
       let price := u32 (u32 (startPrice + a) + b) in
       prob ← load m (padd probs (4 + (i >>> 1)));
       x ← GET_PRICEa pp prob 0;
       t ← wrz t (prices + i) (u32 (price + x));
       y ← GET_PRICEa pp prob 1;
       t ← wrz t (prices + i + 1) (u32 (price + y));
       Some (i + 2, t)) (0, t);
  Some t.

(** The first loop: the low and the middle symbols of every [posState]. *)
Definition low_prices (pp : list Z) (m : store) (lowA : arr) (a c numPosStates : Z) (t : list Z) : option (list Z) :=
  '(_, t) ← while (S (Z.to_nat numPosStates)) (fun '(posState, _) => posState <? numPosStates)
    (fun '(posState, t) =>
       let prices := posState * kLenNumSymbolsTotal in
       let probs := (lowA, posState <<< (1 + kLenNumLowBits)) in
       t ← SetPrices_3 pp m probs a prices t;
       t ← SetPrices_3 pp m (padd probs kLenNumLowSymbols) c (prices + kLenNumLowSymbols) t;
       Some (posState + 1, t)) (0, t);
  Some t.

(** The loop down to [i = 0] over the pairs of high symbols of the first row. *)
Definition high_prices (pp : list Z) (m : store) (highA : arr) (b i : Z) (t : list Z) : option (list Z) :=
  '(_, t) ← do_while (S (Z.to_nat i))
    (fun '(i, t) =>
       let i := i - 1 in
       '(_, price) ← do_while 8
         (fun '(sym, price) =>
            let bit := sym &&& 1 in
            let sym := sym >>> 1 in
            x ← price_at pp m (highA, sym) bit;
            Some (sym, u32 (price + x)))
         (fun '(sym, _) => 2 <=? sym) (i + (1 <<< (kLenNumHighBits - 1)), b);
       prob ← load m (highA, i + (1 <<< (kLenNumHighBits - 1)));
       x ← GET_PRICEa pp prob 0;
       t ← wrz t (kLenNumLowSymbols * 2 + i * 2) (u32 (price + x));
       y ← GET_PRICEa pp prob 1;
       t ← wrz t (kLenNumLowSymbols * 2 + i * 2 + 1) (u32 (price + y));
       Some (i, t)) (fun '(i, _) => negb (i =? 0)) (i, t);
  Some t.

(** The rows after the first are copies of it from the high symbols on. *)
Definition copy_high (numPosStates num : Z) (t : list Z) : option (list Z) :=
  '(_, t) ← while (S (Z.to_nat numPosStates)) (fun '(posState, _) => posState <? numPosStates)
    (fun '(posState, t) =>
       row ← slice t (Z.to_nat (kLenNumLowSymbols * 2)) (Z.to_nat num);
       t ← blit t (Z.to_nat (posState * kLenNumSymbolsTotal + kLenNumLowSymbols * 2)) row;
       Some (posState + 1, t)) (1, t);
  Some t.

Definition LenPriceEnc_UpdateTables (pp : list Z) (m : store) (lowA highA : arr) (numPosStates : Z) (p : CLenPriceEnc)
  : option CLenPriceEnc :=
  prob ← load m (lowA, 0);
  b ← GET_PRICEa pp prob 1;
  a ← GET_PRICEa pp prob 0;
  x ← price_at pp m (lowA, kLenNumLowSymbols) 0;
  t ← low_prices pp m lowA a (u32 (b + x)) numPosStates (len_prices p);
  t ← (if kLenNumLowSymbols * 2 <? tableSize p then
         y ← price_at pp m (lowA, kLenNumLowSymbols) 1;
         t ← high_prices pp m highA (u32 (b + y)) ((tableSize p - (kLenNumLowSymbols * 2 - 1)) >>> 1) t;
         copy_high numPosStates (tableSize p - kLenNumLowSymbols * 2) t
       else Some t);
  Some {| tableSize := tableSize p; len_prices := t |}.

(** ** Distances *)

(** One bit of a reverse tree: the price and the node so far. *)
Definition reverse_step (pp : list Z) (m : store) (probs : ptr) (s : Z * Z * Z) : option (Z * Z * Z) :=
  let '(price, sym, node) := s in
  let bit := sym &&& 1 in
  x ← price_at pp m (padd probs node) bit;
  Some (u32 (price + x), sym >>> 1, (node <<< 1) + bit).

Definition FillAlignPrices (pp : list Z) (m : store) (t : list Z) : option (list Z) :=
  let probs := (posAlignEncoder, 0) in
  '(_, t) ← while 9 (fun '(i, _) => i <? kAlignTableSize / 2)
    (fun '(i, t) =>
       s ← reverse_step pp m probs (0, i, 1);
       s ← reverse_step pp m probs s;
       '(price, _, node) ← reverse_step pp m probs s;
       prob ← load m (padd probs node);
       x ← GET_PRICEa pp prob 0;
       t ← wrz t i (u32 (price + x));
       y ← GET_PRICEa pp prob 1;
       t ← wrz t (i + 8) (u32 (price + y));
       Some (i + 1, t)) (0, t);
  Some t.

(** The loop that fills [tempPrices]; its first four values are never read.  GetPosSlot1 is a
    read of [g_FastPos]. *)
Definition temp_prices (pp : list Z) (m : store) (g_FastPos : list Z) : option (list Z) :=
  '(_, t) ← while 64 (fun '(i, _) => i <? kNumFullDistances / 2)
    (fun '(i, t) =>
       posSlot ← rd g_FastPos i;
       let footerBits := (posSlot >>> 1) - 1 in
       let base := (2 ||| (posSlot &&& 1)) <<< footerBits in
       let probs := (posEncoders, base * 2) in
       let offset := 1 <<< footerBits in
       let base := base + i in
       '(price, _, node, _) ← while 7 (fun '(_, _, _, footerBits) => negb (footerBits =? 0))
         (fun '(price, sym, node, footerBits) =>
            '(price, sym, node) ← reverse_step pp m probs (price, sym, node);
            Some (price, sym, node, footerBits - 1)) (0, i, 1, footerBits);
       prob ← load m (padd probs node);
       x ← GET_PRICEa pp prob 0;
       t ← wrz t base (u32 (price + x));
       y ← GET_PRICEa pp prob 1;
       t ← wrz t (base + offset) (u32 (price + y));
       Some (i + 1, t)) (kStartPosModelIndex / 2, replicate (Z.to_nat kNumFullDistances) 0);
  Some t.

(** One bit of the tree of slots, from the leaf up. *)
Definition slot_step (pp : list Z) (m : store) (probs : ptr) (s : Z * Z) : option (Z * Z) :=
  let '(sym, price) := s in
  let bit := sym &&& 1 in
  let sym := sym >>> 1 in
  x ← price_at pp m (padd probs sym) bit;
  Some (sym, u32 (price + x)).

(** The first loop over the slots for one [lps]; [row] is where its prices start in [t]. *)
Definition slot_prices (pp : list Z) (m : store) (probs : ptr) (row distTableSize2 : Z) (t : list Z) : option (list Z) :=
  '(_, t) ← while (S (Z.to_nat distTableSize2)) (fun '(slot, _) => slot <? distTableSize2)
    (fun '(slot, t) =>
       s ← slot_step pp m probs (slot + (1 <<< (kNumPosSlotBits - 1)), 0);
       s ← slot_step pp m probs s;
       s ← slot_step pp m probs s;
       s ← slot_step pp m probs s;
       '(_, price) ← slot_step pp m probs s;
       prob ← load m (padd probs (slot + (1 <<< (kNumPosSlotBits - 1))));
       x ← GET_PRICEa pp prob 0;
       t ← wrz t (row + slot * 2) (u32 (price + x));
       y ← GET_PRICEa pp prob 1;
       t ← wrz t (row + slot * 2 + 1) (u32 (price + y));
       Some (slot + 1, t)) (0, t);
  Some t.

(** [t[i] += delta] *)
Definition add_price (i delta : Z) (t : list Z) : option (list Z) := x ← rd t i; wrz t i (u32 (x + delta)).

(** The second loop over the slots: the direct bits. *)
Definition slot_deltas (row distTableSize2 : Z) (t : list Z) : option (list Z) :=
  '(_, _, t) ← while (S (Z.to_nat distTableSize2)) (fun '(slot, _, _) => slot <? distTableSize2)
    (fun '(slot, delta, t) =>
       t ← add_price (row + slot * 2) delta t;
       t ← add_price (row + slot * 2 + 1) delta t;
       Some (slot + 1, u32 (delta + (1 <<< kNumBitPriceShiftBits)), t))
    (kEndPosModelIndex / 2, u32 ((kEndPosModelIndex / 2 - 1 - kNumAlignBits) <<< kNumBitPriceShiftBits), t);
  Some t.

(** [dp], a row of [distancesPrices] that starts at [dp]; [row] is the row of [posSlotPrices]. *)
Definition distance_row (g_FastPos temp slots : list Z) (row dp : Z) (t : list Z) : option (list Z) :=
  x ← rd slots row; t ← wrz t dp x;
  x ← rd slots (row + 1); t ← wrz t (dp + 1) x;
  x ← rd slots (row + 2); t ← wrz t (dp + 2) x;
  x ← rd slots (row + 3); t ← wrz t (dp + 3) x;
  '(_, t) ← while 128 (fun '(i, _) => i <? kNumFullDistances)
    (fun '(i, t) =>
       slot ← rd g_FastPos i;
       slotPrice ← rd slots (row + slot);
       x ← rd temp i;
       t ← wrz t (dp + i) (u32 (slotPrice + x));
       y ← rd temp (i + 1);
       t ← wrz t (dp + i + 1) (u32 (slotPrice + y));
       Some (i + 2, t)) (4, t);
  Some t.

(** [posSlotPrices] and [distancesPrices]; [matchPriceCount = 0] is left to the callers. *)
Definition FillDistancesPrices (pp : list Z) (m : store) (g_FastPos : list Z) (distTableSize : Z) (tabs : list Z * list Z)
  : option (list Z * list Z) :=
  temp ← temp_prices pp m g_FastPos;
  let distTableSize2 := (distTableSize + 1) >>> 1 in
  '(_, slots, dists) ← while 5 (fun '(lps, _, _) => lps <? kNumLenToPosStates)
    (fun '(lps, slots, dists) =>
       let row := lps * kDistTableSizeMax in
       slots ← slot_prices pp m (posSlotEncoder, lps * (1 <<< kNumPosSlotBits)) row distTableSize2 slots;
       slots ← slot_deltas row distTableSize2 slots;
       dists ← distance_row g_FastPos temp slots row (lps * kNumFullDistances) dists;
       Some (lps + 1, slots, dists)) (0, tabs.1, tabs.2);
  Some (slots, dists).

(** ** The tables of the encoder *)

Record price_tables := {
  ProbPrices : list Z; alignPrices : list Z; posSlotPrices : list Z; distancesPrices : list Z;
  lenEnc : CLenPriceEnc; repLenEnc : CLenPriceEnc; distTableSize : Z
}.

Definition fill_align (m : store) (t : price_tables) : option price_tables :=
  a ← FillAlignPrices (ProbPrices t) m (alignPrices t);
  Some {| ProbPrices := ProbPrices t; alignPrices := a; posSlotPrices := posSlotPrices t; distancesPrices := distancesPrices t;
          lenEnc := lenEnc t; repLenEnc := repLenEnc t; distTableSize := distTableSize t |}.

Definition fill_distances (m : store) (g_FastPos : list Z) (t : price_tables) : option price_tables :=
  '(slots, dists) ← FillDistancesPrices (ProbPrices t) m g_FastPos (distTableSize t) (posSlotPrices t, distancesPrices t);
  Some {| ProbPrices := ProbPrices t; alignPrices := alignPrices t; posSlotPrices := slots; distancesPrices := dists;
          lenEnc := lenEnc t; repLenEnc := repLenEnc t; distTableSize := distTableSize t |}.

Definition update_lenEnc (m : store) (numPosStates : Z) (t : price_tables) : option price_tables :=
  e ← LenPriceEnc_UpdateTables (ProbPrices t) m lenProbs_low lenProbs_high numPosStates (lenEnc t);
  Some {| ProbPrices := ProbPrices t; alignPrices := alignPrices t; posSlotPrices := posSlotPrices t;
          distancesPrices := distancesPrices t; lenEnc := e; repLenEnc := repLenEnc t; distTableSize := distTableSize t |}.

Definition update_repLenEnc (m : store) (numPosStates : Z) (t : price_tables) : option price_tables :=
  e ← LenPriceEnc_UpdateTables (ProbPrices t) m repLenProbs_low repLenProbs_high numPosStates (repLenEnc t);
  Some {| ProbPrices := ProbPrices t; alignPrices := alignPrices t; posSlotPrices := posSlotPrices t;
          distancesPrices := distancesPrices t; lenEnc := lenEnc t; repLenEnc := e; distTableSize := distTableSize t |}.

Definition set_tableSize (n : Z) (t : price_tables) : price_tables :=
  {| ProbPrices := ProbPrices t; alignPrices := alignPrices t; posSlotPrices := posSlotPrices t; distancesPrices := distancesPrices t;
     lenEnc := {| tableSize := n; len_prices := len_prices (lenEnc t) |};
     repLenEnc := {| tableSize := n; len_prices := len_prices (repLenEnc t) |}; distTableSize := distTableSize t |}.

Definition LzmaEnc_InitPrices (fastMode : bool) (numFastBytes : Z) (p : CLzmaEnc) (t : price_tables) : option (CLzmaEnc * price_tables) :=
  let m := mem (cod p) in
  '(p, t) ← (if negb fastMode then
               t ← fill_distances m (g_FastPos p) t;
               t ← fill_align m t;
               Some (set_counts 0 (repLenEncCounter p) p, t)
             else Some (p, t));
  let t := set_tableSize (numFastBytes + 1 - LZMA_MATCH_LEN_MIN) t in
  let p := set_counts (matchPriceCount p) REP_LEN_COUNT p in
  t ← update_lenEnc m (1 <<< pb p) t;
  t ← update_repLenEnc m (1 <<< pb p) t;
  Some (p, t).

(** The end of a turn of LzmaEnc_CodeOneBlock in normal mode, when no byte is read ahead. *)
Definition refresh_prices (p : CLzmaEnc) (t : price_tables) : option (CLzmaEnc * price_tables) :=
  let m := mem (cod p) in
  '(p, t) ← (if 64 <=? matchPriceCount p then
               t ← fill_align m t;
               t ← fill_distances m (g_FastPos p) t;
               t ← update_lenEnc m (1 <<< pb p) t;
               Some (set_counts 0 (repLenEncCounter p) p, t)
             else Some (p, t));
  if repLenEncCounter p <=? 0 then
    let p := set_counts (matchPriceCount p) REP_LEN_COUNT p in
    t ← update_repLenEnc m (1 <<< pb p) t;
    Some (p, t)
  else Some (p, t).
