(* ===== verification/LzmaEncOpt.v ===== *)
(** * LZMA encoder: normal mode

    src/native/sevenzip_bridge/7z2604-src/C/LzmaEnc.c: GetOptimum.  [opt[i]] is the cheapest way found
    so far to code the next [i] bytes: the step that ends there ([len], [dist], [extra]), its
    [price], and the encoder's state and repeated distances after it.  The blocks of the C function
    are definitions of their own, in its order; Backward follows the steps back and leaves
    the symbols to code in [opt] itself. *)

From stdpp Require Import base numbers list list_numbers.
From Stdlib Require Import ZArith Lia.
From S2P Require Import Prelude SzTypes RangeEnc LzmaEnc LzmaPrices MatchFinder LzmaEncFast.
Local Open Scope Z_scope.
Local Open Scope word_scope.

Definition kNumOpts : Z := 1 <<< 11.
Definition kState_LitAfterMatch : Z := 4.
Definition kState_LitAfterRep : Z := 5.
Definition kState_MatchAfterLit : Z := 7.
Definition kState_RepAfterLit : Z := 8.

Record COptimal := { o_price : Z; o_state : Z; o_extra : Z; o_len : Z; o_dist : Z; o_reps : list Z }.

Definition set_price (x : Z) (c : COptimal) : COptimal :=
  {| o_price := x; o_state := o_state c; o_extra := o_extra c; o_len := o_len c; o_dist := o_dist c; o_reps := o_reps c |}.
Definition set_step (price len dist extra : Z) (c : COptimal) : COptimal :=
  {| o_price := price; o_state := o_state c; o_extra := u16 extra; o_len := len; o_dist := dist; o_reps := o_reps c |}.
Definition set_place (state : Z) (reps : list Z) (c : COptimal) : COptimal :=
  {| o_price := o_price c; o_state := u16 state; o_extra := o_extra c; o_len := o_len c; o_dist := o_dist c; o_reps := reps |}.
Definition set_back (len dist : Z) (c : COptimal) : COptimal :=
  {| o_price := o_price c; o_state := o_state c; o_extra := o_extra c; o_len := len; o_dist := dist; o_reps := o_reps c |}.

Definition update (i : Z) (f : COptimal -> COptimal) (o : list COptimal) : option (list COptimal) :=
  c ← rd o i; wrz o i (f c).

(** [if (price < opt->price) { opt->price = price; .. }] *)
Definition relax (i price len dist extra : Z) (o : list COptimal) : option (list COptimal) :=
  c ← rd o i;
  if price <? o_price c then wrz o i (set_step price len dist extra c) else Some o.

(** ** The way back *)

(** The loop: [cur], [wr]; the length and distance of the first symbol at the end. *)
Definition Backward_turn (s : Z * Z * list COptimal) : option (Z * Z * list COptimal + Z * Z * Z * list COptimal) :=
  let '(cur, wr, o) := s in
  c ← rd o cur;
  let dist := o_dist c in
  let len := o_len c in
  let extra := o_extra c in
  let cur := cur - len in
  '(cur, wr, len, dist, o) ←
    (if negb (extra =? 0) then
       let wr := wr - 1 in
       o ← update wr (fun c => set_back len (o_dist c) c) o;
       let cur := cur - extra in
       if extra =? 1 then
         o ← update wr (fun c => set_back (o_len c) dist c) o;
         Some (cur, wr, extra, MARK_LIT, o)
       else
         o ← update wr (fun c => set_back (o_len c) 0 c) o;
         let wr := wr - 1 in
         o ← update wr (set_back 1 MARK_LIT) o;
         Some (cur, wr, extra - 1, dist, o)
     else Some (cur, wr, len, dist, o));
  if cur =? 0 then Some (inr (len, dist, wr, o))
  else
    let wr := wr - 1 in
    o ← update wr (set_back len dist) o;
    Some (inl (cur, wr, o)).

(** The length, [backRes], [optCur], [optEnd] and [opt]. *)
Definition Backward (cur : Z) (o : list COptimal) : option (Z * Z * Z * Z * list COptimal) :=
  '(len, dist, wr, o) ← loop (S (Z.to_nat cur)) Backward_turn (cur, cur + 1, o);
  Some (len, dist, wr, cur + 1, o).

(** ** Prices of symbols *)

Section Optimum.
Context {M : Type} `{IMatchFinder2 M}.
Variables (numFastBytes : Z) (win : list Z) (p : CLzmaEnc) (t : price_tables).

(** [GET_PRICE(prob, bit)] *)
Definition GET_PRICE (q : ptr) (bit : Z) : option Z := price_at (ProbPrices t) (mem (cod p)) q bit.

Definition GetPrice_ShortRep (state posState : Z) : option Z :=
  a ← GET_PRICE (isRepG0, state) 0;
  b ← GET_PRICE (row16 isRep0Long state posState) 0;
  Some (u32 (a + b)).

Definition GetPrice_Rep_0 (state posState : Z) : option Z :=
  a ← GET_PRICE (row16 isMatch state posState) 1;
  b ← GET_PRICE (row16 isRep0Long state posState) 1;
  c ← GET_PRICE (isRep, state) 1;
  d ← GET_PRICE (isRepG0, state) 0;
  Some (u32 (u32 (u32 (a + b) + c) + d)).

Definition GetPrice_PureRep (repIndex state posState : Z) : option Z :=
  if repIndex =? 0 then
    a ← GET_PRICE (isRepG0, state) 0;
    b ← GET_PRICE (row16 isRep0Long state posState) 1;
    Some (u32 (a + b))
  else
    a ← GET_PRICE (isRepG0, state) 1;
    if repIndex =? 1 then b ← GET_PRICE (isRepG1, state) 0; Some (u32 (a + b))
    else
      b ← GET_PRICE (isRepG1, state) 1;
      c ← GET_PRICE (isRepG2, state) (repIndex - 2);
      Some (u32 (u32 (a + b) + c)).

(** The literal at [data] after [state], [matchByte] the byte at the last distance. *)
Definition literal_price (position data state matchByte : Z) : option Z :=
  prev ← rd win (data - 1);
  curByte ← rd win data;
  let probs := LIT_PROBS p position prev in
  if negb (IsLitState state) then LitEnc_Matched_GetPrice (ProbPrices t) (mem (cod p)) probs curByte matchByte
  else LitEnc_GetPrice (ProbPrices t) (mem (cod p)) probs curByte.

(** A distance; [posSlot] is used for far ones only. *)
Definition distance_price (len dist posSlot : Z) : option Z :=
  let lenToPosState := GetLenToPosState len in
  if dist <? kNumFullDistances then rd (distancesPrices t) (lenToPosState * kNumFullDistances + (dist &&& (kNumFullDistances - 1)))
  else
    a ← rd (alignPrices t) (dist &&& kAlignMask);
    b ← rd (posSlotPrices t) (lenToPosState * kDistTableSizeMax + posSlot);
    Some (u32 (a + b)).

(** [do { .. } while (--repLen >= 2)] over the lengths of a repeat from [cur]. *)
Definition rep_fill (cur price posState repLen repIndex : Z) (o : list COptimal) : option (list COptimal) :=
  '(_, o) ← do_while (S (Z.to_nat repLen))
    (fun '(repLen, o) =>
       x ← GET_PRICE_LEN (repLenEnc t) posState repLen;
       o ← relax (cur + repLen) (u32 (price + x)) repLen repIndex 0 o;
       Some (repLen - 1, o))
    (fun '(repLen, _) => 2 <=? repLen) (repLen, o);
  Some o.

(** [while (len > MATCHES[offs]) offs += 2] *)
Definition skip_pairs (ms : list Z) (len : Z) : option Z :=
  loop (S (length ms)) (fun offs => l ← rd ms offs; Some (if l <? len then inl (offs + 2) else inr offs)) 0.

(** ** The first position *)

(** The loop over the repeated distances: [repLens] and [repMaxIndex]. *)
Fixpoint rep_lens (data numAvail i : Z) (reps lens : list Z) (repMaxIndex : Z) : option (list Z * Z) :=
  match reps with
  | [] => Some (lens, repMaxIndex)
  | rep :: reps =>
      let data2 := data - rep in
      differ ← two_differ win data data2;
      if differ : bool then rep_lens data numAvail (i + 1) reps (lens ++ [0]) repMaxIndex
      else
        len ← rep_len win data data2 numAvail;
        let lens := lens ++ [len] in
        best ← rd lens repMaxIndex;
        let repMaxIndex := if best <? len then i else repMaxIndex in
        if len =? LZMA_MATCH_LEN_MAX then Some (lens, repMaxIndex)
        else rep_lens data numAvail (i + 1) reps lens repMaxIndex
  end.

(** The loop over [repLens] that fills [opt]. *)
Fixpoint first_reps (repMatchPrice posState i : Z) (lens : list Z) (o : list COptimal) : option (list COptimal) :=
  match lens with
  | [] => Some o
  | repLen :: lens =>
      o ← (if repLen <? 2 then Some o
           else price ← GetPrice_PureRep i (state p) posState;
                rep_fill 0 (u32 (repMatchPrice + price)) posState repLen i o);
      first_reps repMatchPrice posState (i + 1) lens o
  end.

(** The loop over the lengths of the matches, from [len] or 2 on. *)
Definition first_matches (ms : list Z) (numPairs mainLen normalMatchPrice posState len : Z) (o : list COptimal)
  : option (list COptimal) :=
  offs ← (if len <? 2 then Some 0 else skip_pairs ms len);
  let len := if len <? 2 then 2 else len in
  loop (S (Z.to_nat mainLen))
    (fun '(len, offs, o) =>
       dist ← rd ms (offs + 1);
       x ← GET_PRICE_LEN (lenEnc t) posState len;
       slot ← (if dist <? kNumFullDistances then Some 0 else BSR2_RET (g_FastPos p) dist);
       y ← distance_price len dist slot;
       o ← relax len (u32 (u32 (normalMatchPrice + x) + y)) len (u32 (dist + LZMA_NUM_REPS)) 0 o;
       l ← rd ms offs;
       Some (if len =? l then
               let offs := offs + 2 in
               if offs =? numPairs then inr o else inl (len + 1, offs, o)
             else inl (len + 1, offs, o))) (len, offs, o).

(** ** One more position *)

(** The repeated distances after a match or a repeat. *)
Definition next_reps (r : list Z) (dist : Z) : option (list Z) :=
  b0 ← rd r 0;
  if dist <? LZMA_NUM_REPS then
    if dist =? 0 then r1 ← rd r 1; r2 ← rd r 2; r3 ← rd r 3; Some [b0; r1; r2; r3]
    else
      r1 ← rd r 1;
      if dist =? 1 then r2 ← rd r 2; r3 ← rd r 3; Some [r1; b0; r2; r3]
      else a ← rd r dist; b ← rd r (dist ^^^ 1); Some [a; b0; r1; b]
  else r1 ← rd r 1; r2 ← rd r 2; Some [u32 (dist - LZMA_NUM_REPS + 1); b0; r1; r2].

(** The state and the distances at [cur], which were found last: [reps] are those of the
    position before. *)
Definition settle (cur : Z) (reps : list Z) (o : list COptimal) : option (Z * list Z * list COptimal) :=
  c ← rd o cur;
  let prev := cur - o_len c in
  '(state, reps) ←
    (if o_len c =? 1 then
       prevOpt ← rd o prev;
       state ← (if o_dist c =? 0 then rd kShortRepNextStates (o_state prevOpt) else rd kLiteralNextStates (o_state prevOpt));
       Some (state, reps)
     else
       let dist := o_dist c in
       '(prev, state) ←
         (if negb (o_extra c =? 0) then
            Some (prev - o_extra c,
                  if o_extra c =? 1 then (if dist <? LZMA_NUM_REPS then kState_RepAfterLit else kState_MatchAfterLit)
                  else kState_RepAfterLit)
          else
            prevOpt ← rd o prev;
            state ← (if dist <? LZMA_NUM_REPS then rd kRepNextStates (o_state prevOpt) else rd kMatchNextStates (o_state prevOpt));
            Some (prev, state));
       prevOpt ← rd o prev;
       reps ← next_reps (o_reps prevOpt) dist;
       Some (state, reps));
  o ← update cur (set_place state reps) o;
  Some (state, reps, o).

(** The literal: the new [litPrice], whether it is the next step. *)
Definition try_literal (cur position data state curByte matchByte litPrice : Z) (o : list COptimal)
  : option (Z * bool * list COptimal) :=
  nextOpt ← rd o (cur + 1);
  if ((o_price nextOpt <? kInfinityPrice) && (matchByte =? curByte)) || (o_price nextOpt <? litPrice) then Some (0, false, o)
  else
    x ← literal_price position data state matchByte;
    let litPrice := u32 (litPrice + x) in
    o ← relax (cur + 1) litPrice 1 MARK_LIT 0 o;
    Some (litPrice, litPrice <? o_price nextOpt, o).

Definition try_short_rep (cur state posState curByte matchByte repMatchPrice : Z) (nextIsLit : bool) (o : list COptimal)
  : option (bool * list COptimal) :=
  nextOpt ← rd o (cur + 1);
  if IsLitState state && (matchByte =? curByte) && (repMatchPrice <? o_price nextOpt) &&
     ((o_len nextOpt <? 2) || negb (o_dist nextOpt =? 0)) then
    x ← GetPrice_ShortRep state posState;
    let shortRepPrice := u32 (repMatchPrice + x) in
    o ← relax (cur + 1) shortRepPrice 1 0 0 o;
    Some (if shortRepPrice <? o_price nextOpt then false else nextIsLit, o)
  else Some (nextIsLit, o).

(** LIT : REP_0 *)
Definition try_lit_rep (cur position data rep0 state numAvailFull litPrice last : Z) (o : list COptimal)
  : option (Z * list COptimal) :=
  let data2 := data - rep0 in
  differ ← two_differ win (data + 1) (data2 + 1);
  if differ : bool then Some (last, o)
  else
    let limit := numFastBytes + 1 in
    let limit := if numAvailFull <? limit then numAvailFull else limit in
    len ← match_len win data data2 3 limit;
    state2 ← rd kLiteralNextStates state;
    let posState2 := (u32 (position + 1)) &&& pbMask p in
    y ← GetPrice_Rep_0 state2 posState2;
    let price := u32 (litPrice + y) in
    let offset := cur + len in
    let last := if last <? offset then offset else last in
    let len := len - 1 in
    x ← GET_PRICE_LEN (repLenEnc t) posState2 len;
    o ← relax offset (u32 (price + x)) len 0 1 o;
    Some (last, o).

(** After a repeat or a match of [len] bytes that costs [price]: LIT : REP_0.  [state2] is the
    state after it, [state3] the one after the literal. *)
Definition try_after (cur position data data2 len numAvailFull dist state3 : Z) (next : list Z) (state : Z) (price : option Z) (last : Z)
    (o : list COptimal) : option (Z * list COptimal) :=
  let len2 := len + 1 in
  let limit := len2 + numFastBytes in
  let limit := if numAvailFull <? limit then numAvailFull else limit in
  let len2 := len2 + 2 in
  if len2 <=? limit then
    differ ← two_differ win (data + len2 - 2) (data2 + len2 - 2);
    if differ : bool then Some (last, o)
    else
      len2 ← match_len win data data2 len2 limit;
      let len2 := len2 - len in
      state2 ← rd next state;
      let posState2 := (u32 (position + len)) &&& pbMask p in
      price ← price;
      x ← GET_PRICE (row16 isMatch state2 posState2) 0;
      prev ← rd win (data + len - 1);
      a ← rd win (data + len);
      b ← rd win (data2 + len);
      y ← LitEnc_Matched_GetPrice (ProbPrices t) (mem (cod p)) (LIT_PROBS p (u32 (position + len)) prev) a b;
      let posState2 := (u32 (posState2 + 1)) &&& pbMask p in
      z ← GetPrice_Rep_0 state3 posState2;
      let price := u32 (u32 (u32 (price + x) + y) + z) in
      let offset := cur + len + len2 in
      let last := if last <? offset then offset else last in
      let len2 := len2 - 1 in
      w ← GET_PRICE_LEN (repLenEnc t) posState2 len2;
      o ← relax offset (u32 (price + w)) len2 dist (len + 1) o;
      Some (last, o)
  else Some (last, o).

(** REP : [last], [startLen], [opt]. *)
Fixpoint try_reps (cur position data numAvail numAvailFull state posState repMatchPrice repIndex : Z) (reps : list Z)
    (last startLen : Z) (o : list COptimal) : option (Z * Z * list COptimal) :=
  match reps with
  | [] => Some (last, startLen, o)
  | rep :: reps =>
      let data2 := data - rep in
      differ ← two_differ win data data2;
      if differ : bool then
        try_reps cur position data numAvail numAvailFull state posState repMatchPrice (repIndex + 1) reps last startLen o
      else
        len ← rep_len win data data2 numAvail;
        let offset := cur + len in
        let last := if last <? offset then offset else last in
        price ← GetPrice_PureRep repIndex state posState;
        let price := u32 (repMatchPrice + price) in
        o ← rep_fill cur price posState len repIndex o;
        let startLen := if repIndex =? 0 then len + 1 else startLen in
        '(last, o) ← try_after cur position data data2 len numAvailFull repIndex kState_LitAfterRep kRepNextStates state
                       (x ← GET_PRICE_LEN (repLenEnc t) posState len; Some (u32 (price + x))) last o;
        try_reps cur position data numAvail numAvailFull state posState repMatchPrice (repIndex + 1) reps last startLen o
  end.

(** MATCH, after [newLen] and [numPairs] were limited to [numAvail]. *)
Definition try_matches (cur position data numAvailFull state posState normalMatchPrice : Z) (ms : list Z)
    (newLen numPairs startLen last : Z) (o : list COptimal) : option (Z * list COptimal) :=
  let offset := cur + newLen in
  let last := if last <? offset then offset else last in
  offs ← skip_pairs ms startLen;
  dist ← rd ms (offs + 1);
  posSlot ← BSR2_RET (g_FastPos p) dist;
  loop (S (Z.to_nat newLen))
    (fun '(len, offs, dist, posSlot, last, o) =>
       x ← GET_PRICE_LEN (lenEnc t) posState len;
       y ← distance_price len dist posSlot;
       let price := u32 (u32 (normalMatchPrice + x) + y) in
       o ← relax (cur + len) price len (u32 (dist + LZMA_NUM_REPS)) 0 o;
       l ← rd ms offs;
       if len =? l then
         '(last, o) ← try_after cur position data (data - dist - 1) len numAvailFull (u32 (dist + LZMA_NUM_REPS)) kState_LitAfterMatch
                        kMatchNextStates state (Some price) last o;
         let offs := offs + 2 in
         if offs =? numPairs then Some (inr (last, o))
         else
           dist ← rd ms (offs + 1);
           posSlot ← BSR2_RET (g_FastPos p) dist;
           Some (inl (len + 1, offs, dist, posSlot, last, o))
       else Some (inl (len + 1, offs, dist, posSlot, last, o))) (startLen, offs, dist, posSlot, last, o).

Definition set_matches (ms : list Z) (f : lookahead M) : lookahead M :=
  {| mf := mf f; additionalOffset := additionalOffset f; numAvail := numAvail f; matches := ms;
     numPairs := numPairs f; longestMatchLen := longestMatchLen f |}.

(** Where the search of the cheapest way stands. *)
Record search := { s_cur : Z; s_last : Z; s_position : Z; s_reps : list Z; s_look : lookahead M; s_opt : list COptimal }.

(** The body of the loop from the place where [cur] has a state on: [newLen] and [numPairs]
    are what ReadMatchDistances found there. *)
Definition expand (cur last position : Z) (reps : list Z) (newLen numPairs state : Z) (f : lookahead M) (o : list COptimal)
  : option search :=
  let data := mf_GetPointerToCurrentPos (mf f) - 1 in
  rep0 ← rd reps 0;
  curByte ← rd win data;
  matchByte ← rd win (data - rep0);
  let posState := position &&& pbMask p in
  curOpt ← rd o cur;
  x ← GET_PRICE (row16 isMatch state posState) 1;
  y ← GET_PRICE (row16 isMatch state posState) 0;
  let matchPrice := u32 (o_price curOpt + x) in
  let litPrice := u32 (o_price curOpt + y) in
  '(litPrice, nextIsLit, o) ← try_literal cur position data state curByte matchByte litPrice o;
  z ← GET_PRICE (isRep, state) 1;
  let repMatchPrice := u32 (matchPrice + z) in
  let numAvailFull := numAvail f in
  let temp := kNumOpts - 1 - cur in
  let numAvailFull := if temp <? numAvailFull then temp else numAvailFull in
  '(nextIsLit, o) ← try_short_rep cur state posState curByte matchByte repMatchPrice nextIsLit o;
  let next last f o := {| s_cur := cur; s_last := last; s_position := position; s_reps := reps; s_look := f; s_opt := o |} in
  if numAvailFull <? 2 then Some (next last f o)
  else
    let avail := if numAvailFull <=? numFastBytes then numAvailFull else numFastBytes in
    '(last, o) ←
      (if negb nextIsLit && negb (litPrice =? 0) && negb (matchByte =? curByte) && (2 <? numAvailFull) then
         try_lit_rep cur position data rep0 state numAvailFull litPrice last o
       else Some (last, o));
    '(last, startLen, o) ← try_reps cur position data avail numAvailFull state posState repMatchPrice 0 reps last 2 o;
    '(newLen, numPairs, f) ←
      (if avail <? newLen then
         pairs ← skip_pairs (matches f) avail;
         ms ← wrz (matches f) pairs avail;
         Some (avail, pairs + 2, set_matches ms f)
       else Some (newLen, numPairs, f));
    '(last, o) ←
      (if startLen <=? newLen then
         w ← GET_PRICE (isRep, state) 0;
         try_matches cur position data numAvailFull state posState (u32 (matchPrice + w)) (matches f) newLen numPairs startLen last o
       else Some (last, o));
    Some (next last f o).

(** When [opt] is nearly full: the cheapest of the ends from [cur] on. *)
Definition cheapest (cur last : Z) (o : list COptimal) : option Z :=
  c ← rd o cur;
  '(_, _, best) ← while (S (Z.to_nat (last - cur))) (fun '(j, _, _) => j <=? last)
    (fun '(j, price, best) =>
       c ← rd o j;
       Some (if o_price c <=? price then (j + 1, o_price c, j) else (j + 1, price, best))) (cur + 1, o_price c, cur);
  Some best.

Definition optimal_turn (s : search) : option (search + search) :=
  let cur := s_cur s + 1 in
  let at_cur cur f := {| s_cur := cur; s_last := s_last s; s_position := s_position s; s_reps := s_reps s; s_look := f; s_opt := s_opt s |} in
  if cur =? s_last s then Some (inr (at_cur cur (s_look s)))
  else if kNumOpts - 64 <=? cur then
    best ← cheapest cur (s_last s) (s_opt s);
    f ← (if negb (best - cur =? 0) then move_pos (best - cur) (s_look s) else Some (s_look s));
    Some (inr (at_cur best f))
  else
    '(newLen, numPairs, f) ← ReadMatchDistances numFastBytes win (s_look s);
    if numFastBytes <=? newLen then Some (inr (at_cur cur (set_longest newLen numPairs f)))
    else
      let position := u32 (s_position s + 1) in
      '(state, reps, o) ← settle cur (s_reps s) (s_opt s);
      s ← expand cur (s_last s) position reps newLen numPairs state f o;
      Some (inl s).

(** [do opt[last].price = kInfinityPrice; while (--last);] *)
Definition reset_prices (last : Z) (o : list COptimal) : option (list COptimal) :=
  '(_, o) ← do_while (S (Z.to_nat last))
    (fun '(last, o) => o ← update last (set_price kInfinityPrice) o; Some (last - 1, o))
    (fun '(last, _) => negb (last =? 0)) (last, o);
  Some o.

(** The first steps: the literal or short repeat, the repeats and the matches from the
    first position; [None] in the sum when one of them is all there is to code. *)
Definition first_steps (position data : Z) (reps lens : list Z) (last mainLen numPairs : Z) (ms : list Z) (o : list COptimal)
  : option (list COptimal * option Z) :=
  let posState := position &&& pbMask p in
  rep0 ← rd reps 0;
  curByte ← rd win data;
  matchByte ← rd win (data - rep0);
  len0 ← rd lens 0;
  o ← update 0 (fun c => set_place (state p) (o_reps c) c) o;
  x ← GET_PRICE (row16 isMatch (state p) posState) 0;
  y ← literal_price position data (state p) matchByte;
  o ← update 1 (fun c => set_step (u32 (x + y)) (o_len c) MARK_LIT 0 c) o;
  z ← GET_PRICE (row16 isMatch (state p) posState) 1;
  w ← GET_PRICE (isRep, state p) 1;
  let repMatchPrice := u32 (z + w) in
  '(o, stop) ←
    (if (matchByte =? curByte) && (len0 =? 0) then
       s ← GetPrice_ShortRep (state p) posState;
       c ← rd o 1;
       o ← relax 1 (u32 (repMatchPrice + s)) (o_len c) 0 0 o;
       c ← rd o 1;
       Some (o, if last <? 2 then Some (o_dist c) else None)
     else Some (o, None));
  match stop with
  | Some back => Some (o, Some back)
  | None =>
      o ← update 1 (fun c => set_back 1 (o_dist c) c) o;
      o ← update 0 (fun c => set_place (o_state c) reps c) o;
      o ← first_reps repMatchPrice posState 0 lens o;
      let len := len0 + 1 in
      o ← (if len <=? mainLen then
             v ← GET_PRICE (isRep, state p) 0;
             first_matches ms numPairs mainLen (u32 (z + v)) posState len o
           else Some o);
      Some (o, None)
  end.

(** The length, [backRes], [opt], [optCur] and [optEnd]. *)
Definition GetOptimum (position : Z) (f : lookahead M) (o : list COptimal)
  : option (Z * Z * lookahead M * (list COptimal * Z * Z)) :=
  let reps := reps p in
  '(mainLen, pairs, f) ← (if additionalOffset f =? 0 then ReadMatchDistances numFastBytes win f
                          else Some (longestMatchLen f, numPairs f, f));
  let avail := numAvail f in
  if avail <? 2 then Some (1, MARK_LIT, f, (o, 0, 0))
  else
    let avail := if LZMA_MATCH_LEN_MAX <? avail then LZMA_MATCH_LEN_MAX else avail in
    let data := mf_GetPointerToCurrentPos (mf f) - 1 in
    '(lens, repMaxIndex) ← rep_lens data avail 0 reps [] 0;
    repMax ← rd lens repMaxIndex;
    if numFastBytes <=? repMax then
      f ← move_pos (repMax - 1) f; Some (repMax, repMaxIndex, f, (o, 0, 0))
    else if numFastBytes <=? mainLen then
      dist ← rd (matches f) (pairs - 1);
      f ← move_pos (mainLen - 1) f; Some (mainLen, u32 (dist + LZMA_NUM_REPS), f, (o, 0, 0))
    else
      rep0 ← rd reps 0;
      curByte ← rd win data;
      matchByte ← rd win (data - rep0);
      let last := if repMax <=? mainLen then mainLen else repMax in
      if (last <? 2) && negb (curByte =? matchByte) then Some (1, MARK_LIT, f, (o, 0, 0))
      else
        '(o, stop) ← first_steps position data reps lens last mainLen pairs (matches f) o;
        match stop with
        | Some back => Some (1, back, f, (o, 0, 0))
        | None =>
            s ← loop (S (Z.to_nat kNumOpts)) optimal_turn
                  {| s_cur := 0; s_last := last; s_position := position; s_reps := reps; s_look := f; s_opt := o |};
            o ← reset_prices (s_last s) (s_opt s);
            '(len, back, wr, wr_end, o) ← Backward (s_cur s) o;
            Some (len, back, s_look s, (o, wr, wr_end))
        end.
End Optimum.
Arguments search : clear implicits.
