(* ===== verification/LzmaEncBlocks.v ===== *)
(** * LZMA encoder: blocks

    src/native/sevenzip_bridge/7z2604-src/C/LzmaEnc.c: LzmaEnc_CodeOneBlock and
    LzmaEnc_Encode2 in both modes, with the choices of GetOptimumFast or of GetOptimum, and
    the refresh of the prices. *)

From stdpp Require Import base numbers list list_numbers.
From Stdlib Require Import ZArith Lia.
From S2P Require Import Prelude SzTypes RangeEnc LzmaEnc LzmaPrices MatchFinder LzmaEncFast LzmaEncOpt.
Local Open Scope Z_scope.
Local Open Scope word_scope.

(** The fields of CLzmaEnc of normal mode. *)
Record optimizer := { opt : list COptimal; optCur : Z; optEnd : Z; tables : price_tables }.

Definition set_optCur (i : Z) (o : optimizer) : optimizer :=
  {| opt := opt o; optCur := i; optEnd := optEnd o; tables := tables o |}.
Definition set_tables (t : price_tables) (o : optimizer) : optimizer :=
  {| opt := opt o; optCur := optCur o; optEnd := optEnd o; tables := t |}.

Section Blocks.
Context {M : Type} `{IMatchFinder2 M}.
Variables (fastMode : bool) (numFastBytes : Z) (win : list Z).

(** The length and [backRes] of the next symbol. *)
Definition next_choice (p : CLzmaEnc) (f : lookahead M) (o : optimizer) (nowPos32 : Z) : option (Z * Z * lookahead M * optimizer) :=
  if fastMode then '(len, dist, f) ← GetOptimumFast numFastBytes win (reps p) f; Some (len, dist, f, o)
  else if optEnd o =? optCur o then
    '(len, dist, f, (l, oci, oend)) ← GetOptimum numFastBytes win p (tables o) nowPos32 f (opt o);
    Some (len, dist, f, {| opt := l; optCur := oci; optEnd := oend; tables := tables o |})
  else c ← rd (opt o) (optCur o); Some (o_len c, o_dist c, f, set_optCur (optCur o + 1) o).

(** How the loop ends: at the end of the data, or with a block that is full. *)
Inductive turn_end :=
  | TurnEnd (p : CLzmaEnc) (f : lookahead M) (o : optimizer) (nowPos32 : Z)
  | TurnFull (p : CLzmaEnc) (f : lookahead M) (o : optimizer) (nowPos32 : Z).

(** One turn of the loop of LzmaEnc_CodeOneBlock. *)
Definition turn (startPos32 : Z) (s : CLzmaEnc * lookahead M * optimizer * Z)
  : option (CLzmaEnc * lookahead M * optimizer * Z + turn_end) :=
  let '(p, f, o, nowPos32) := s in
  '(len, dist, f, o) ← next_choice p f o nowPos32;
  let data := mf_GetPointerToCurrentPos (mf f) - additionalOffset f in
  p ← code_symbol p win data nowPos32 len dist;
  let nowPos32 := u32 (nowPos32 + len) in
  let f := take_offset len f in
  if additionalOffset f =? 0 then
    '(p, o) ← (if negb fastMode then '(p, t) ← refresh_prices p (tables o); Some (p, set_tables t o) else Some (p, o));
    Some (if mf_GetNumAvailableBytes (mf f) =? 0 then inr (TurnEnd p f o nowPos32)
          else if 1 <<< 17 <=? u32 (nowPos32 - startPos32) then inr (TurnFull p f o nowPos32)
          else inl (p, f, o, nowPos32))
  else Some (inl (p, f, o, nowPos32)).

(** Every turn codes a byte at least. *)
Definition turns (p : CLzmaEnc) (f : lookahead M) (o : optimizer) (nowPos32 startPos32 : Z) : option turn_end :=
  loop (S (length win)) (turn startPos32) (p, f, o, nowPos32).

(** LzmaEnc_CodeOneBlock with [maxPackSize] 0 and the match finder initialised. *)
Definition CodeOneBlock (p : CLzmaEnc) (f : lookahead M) (o : optimizer) (mf_error : bool)
  : option (SRes * CLzmaEnc * lookahead M * optimizer) :=
  if finished p then Some (result p, p, f, o)
  else
    let '(r, p) := CheckErrors p mf_error in
    if not_ok r then Some (r, p, f, o)
    else
      let startPos32 := u32 (nowPos64 p) in
      let flush p f o nowPos32 := '(r, p) ← Flush p nowPos32 mf_error; Some (r, p, f, o) in
      if (nowPos64 p =? 0) && (mf_GetNumAvailableBytes (mf f) =? 0) then flush p f o startPos32
      else
        '(p, f, nowPos32) ← (if nowPos64 p =? 0 then
                               '(_, _, f) ← ReadMatchDistances numFastBytes win f;
                               cur ← rd win (mf_GetPointerToCurrentPos (mf f) - additionalOffset f);
                               p ← code_first p cur; Some (p, take_offset 1 f, u32 (startPos32 + 1))
                             else Some (p, f, startPos32));
        e ← (if mf_GetNumAvailableBytes (mf f) =? 0 then Some (TurnEnd p f o nowPos32)
             else turns p f o nowPos32 startPos32);
        match e with
        | TurnEnd p f o nowPos32 => flush (set_pos (u64 (nowPos64 p + u32 (nowPos32 - startPos32))) p) f o nowPos32
        | TurnFull p f o nowPos32 =>
            let p := set_pos (u64 (nowPos64 p + u32 (nowPos32 - startPos32))) p in
            let '(r, p) := CheckErrors p mf_error in Some (r, p, f, o)
        end.

(** The blocks of LzmaEnc_Encode2: at most one for every byte, and one more. *)
Definition Encode2 (p : CLzmaEnc) (f : lookahead M) (o : optimizer) (mf_error : bool) : option (SRes * CLzmaEnc) :=
  '(r, p, _, _) ← loop (S (S (length win)))
    (fun '(_, p, f, o) =>
       '(r, p, f, o) ← CodeOneBlock p f o mf_error;
       Some (if not_ok r || finished p then inr (r, p, f, o) else inl (r, p, f, o)))
    (SZ_OK, p, f, o);
  Some (r, p).
End Blocks.
Arguments turn_end : clear implicits.
