(* ===== verification/LzmaPricesOk.v ===== *)
(** * LZMA encoder: prices are there and bounded

    Every function of LzmaPrices.v returns when the probabilities are in range, and every
    price that normal mode reads from a table is below a bound that leaves a path of
    2048 steps far below kInfinityPrice. *)

From stdpp Require Import base numbers list list_numbers.
From Stdlib Require Import ZArith Lia.
From S2P Require Import Prelude SzTypes LzmaParse RangeEnc LzmaEnc RangeCoder LzmaCodec LzmaDist LzmaPrices.
Local Open Scope Z_scope.
Local Open Scope word_scope.

(** ** The table of prices *)

(** What one bit can cost. *)
Abbreviation bit_max := 161.

Definition bit_prices (pp : list Z) : Prop := length pp = 128%nat /\ Forall (fun x => 0 <= x <= bit_max) pp.

Lemma InitPriceTables_ok : exists pp, LzmaEnc_InitPriceTables = Some pp /\ bit_prices pp.
Proof.
  assert (match LzmaEnc_InitPriceTables with
          | Some pp => (length pp =? 128)%nat && forallb (fun x => (0 <=? x) && (x <=? bit_max)) pp
          | None => false end = true) as H by (vm_compute; reflexivity).
  destruct LzmaEnc_InitPriceTables as [pp|]; [|done]. apply andb_true_iff in H as [H1%Nat.eqb_eq H2].
  exists pp. split; [done|]. split; [done|]. apply Forall_forall. intros x Hx. rewrite forallb_forall in H2.
  apply list_elem_of_In, H2, andb_true_iff in Hx as [?%Z.leb_le ?%Z.leb_le]. lia.
Qed.

(** The bits the code asks prices for. *)
Lemma land_1_bit x : (x &&& 1) = 0 \/ (x &&& 1) = 1.
Proof. rewrite land_1. destruct (Z.testbit x 0); auto. Qed.

Lemma shiftr_1_bounds x a b : 2 * a <= x < 2 * b -> a <= x >>> 1 < b.
Proof. rewrite Z.shiftr_div_pow2 by lia. change (2 ^ 1) with 2. intros. Z.to_euclidean_division_equations. lia. Qed.

Lemma log2_shiftr_1 x : 2 <= x -> Z.log2 (x >>> 1) = Z.log2 x - 1 /\ 1 <= Z.log2 x.
Proof. intros Hx. pose proof (Z.log2_le_mono 2 x Hx) as H. change (Z.log2 2) with 1 in H. rewrite Z.log2_shiftr by lia. lia. Qed.

Lemma land_shiftl x n : 0 <= n -> 0 <= x < 2 ^ n -> (x ||| 2 ^ n) = x + 2 ^ n.
Proof.
  intros Hn Hx. rewrite <-(Z.shiftl_1_l n), lor_shiftl_add by done. rewrite Z.shiftl_1_l. lia.
Qed.

Lemma u32_le x B : 0 <= x <= B -> 0 <= u32 x <= B.
Proof. intros Hx. pose proof (wrap_le 32 x ltac:(lia) ltac:(lia)). lia. Qed.

(** ** Tables *)

(** [t] has a price at [j]. *)
Definition bounded (B : Z) (t : list Z) (j : Z) : Prop := exists x, rd t j = Some x /\ 0 <= x <= B.

(** [t'] is [t] with prices written to the places from [lo] to [hi]. *)
Definition written (B lo hi : Z) (t t' : list Z) : Prop :=
  length t' = length t /\
  (forall j, lo <= j < hi -> bounded B t' j) /\ (forall j, ~ lo <= j < hi -> rd t' j = rd t j).

Lemma written_nil B lo t : written B lo lo t t.
Proof. split; [done|]. split; [intros; lia|done]. Qed.

Lemma written_frame B lo hi t t' j C : written B lo hi t t' -> ~ lo <= j < hi -> bounded C t j -> bounded C t' j.
Proof. intros (_ & _ & Hf) Hj (x & Hx & ?). exists x. by rewrite Hf. Qed.

Lemma written_seq B lo mid hi t t1 t2 : lo <= mid <= hi -> written B lo mid t t1 -> written B mid hi t1 t2 -> written B lo hi t t2.
Proof.
  intros Hm (L1 & W1 & F1) (L2 & W2 & F2). split; [congruence|]. split; intros j Hj.
  - destruct (Z.lt_ge_cases j mid); [|apply W2; lia]. destruct (W1 j) as (x & Hx & ?); [lia|]. exists x. rewrite F2 by lia. done.
  - rewrite F2, F1 by lia. done.
Qed.

Lemma written_mono B C lo hi t t' : written B lo hi t t' -> B <= C -> written C lo hi t t'.
Proof. intros (L & W & F) Hle. split; [done|]. split; [|done]. intros j Hj. destruct (W j Hj) as (x & Hx & ?). exists x. split; [done|lia]. Qed.

Lemma wrz_written B t i v : 0 <= i < Z.of_nat (length t) -> 0 <= v <= B -> yields (wrz t i v) (written B i (i + 1) t).
Proof.
  intros Hi Hv. rewrite wrz_Some by done. cbn. split; [by rewrite length_insert|]. split; intros j Hj.
  - assert (j = i) as -> by lia. exists v. split; [|done]. rewrite rd_lookup, list_lookup_insert_eq by lia. done.
  - apply rd_insert_ne; lia.
Qed.

(** The pointer is inside its array. *)
Ltac vptr := unfold valid, padd; cbn [fst snd]; lia.

Section Prices.
Context (sz : arr -> Z) (m : store) (pp : list Z).
Context (m_ok : forall q, valid sz q -> exists x, load m q = Some x /\ prob_ok x) (pp_ok : bit_prices pp).

Lemma GET_PRICEa_ok prob bit : prob_ok prob -> bit = 0 \/ bit = 1 -> yields (GET_PRICEa pp prob bit) (fun x => 0 <= x <= bit_max).
Proof using pp_ok.
  intros Hp Hb. destruct pp_ok as [Hlen Hall].
  unfold GET_PRICEa. set (i := _ >>> _). assert (0 <= i < 128) as Hi.
  { unfold prob_ok in Hp. assert (in_width 7 i) as Hw; [|exact Hw]. unfold i.
    assert (in_width 11 (u32 (0 - bit) &&& (kBitModelTotal - 1))) as H1 by (destruct Hb as [->| ->]; split; done).
    assert (in_width 11 (prob ^^^ (u32 (0 - bit) &&& (kBitModelTotal - 1)))) as H2.
    { apply lxor_in_width; [lia|unfold in_width; lia|done]. }
    unfold in_width in *. unfold kNumMoveReducingBits. rewrite Z.shiftr_div_pow2 by lia. change (2 ^ 4) with 16. change (2 ^ 7) with 128. change (2 ^ 11) with (16 * 128) in H2.
    split; [apply Z.div_pos; lia|apply Z.div_lt_upper_bound; lia]. }
  apply yields_rd; [lia|]. intros x Hx. exact (rd_Forall _ _ _ _ Hall Hx).
Qed.

Lemma price_at_ok q bit : valid sz q -> bit = 0 \/ bit = 1 -> yields (price_at pp m q bit) (fun x => 0 <= x <= bit_max).
Proof using m_ok pp_ok.
  intros Hq Hb. unfold price_at. destruct (m_ok q Hq) as (x & -> & Hx). opt. by apply GET_PRICEa_ok.
Qed.

(** [prices[i] = price + GET_PRICEa_0(prob); prices[i + d] = price + GET_PRICEa_1(prob);] *)
Lemma put_pair {R} B price prob i d t (K : list Z -> option R) (Q : R -> Prop) :
  prob_ok prob -> 0 <= price -> price + bit_max <= B ->
  0 <= i < Z.of_nat (length t) -> 0 <= i + d < Z.of_nat (length t) -> d <> 0 ->
  (forall t', length t' = length t -> bounded B t' i -> bounded B t' (i + d) -> (forall j, j <> i -> j <> i + d -> rd t' j = rd t j) -> yields (K t') Q) ->
  yields (x ← GET_PRICEa pp prob 0; t ← wrz t i (u32 (price + x));
          y ← GET_PRICEa pp prob 1; t ← wrz t (i + d) (u32 (price + y)); K t) Q.
Proof using pp_ok.
  intros Hp Hprice HB Hi Hd Hne HK.
  eapply yields_then; [by apply GET_PRICEa_ok; [|left]|intros x Hx; cbn beta in Hx].
  eapply yields_then; [apply (wrz_written B); [done|apply u32_le; lia]|intros t1 (L1 & W1 & F1)].
  eapply yields_then; [by apply GET_PRICEa_ok; [|right]|intros y Hy; cbn beta in Hy].
  eapply yields_then; [apply (wrz_written B); [lia|apply u32_le; lia]|intros t2 (L2 & W2 & F2)].
  apply HK; [congruence| |apply W2; lia|].
  - destruct (W1 i) as (v & Hv & ?); [lia|]. exists v. rewrite F2 by lia. done.
  - intros j H1 H2. rewrite F2, F1 by lia. done.
Qed.

(** ** Literals *)

Lemma LitEnc_GetPrice_ok k sym :
  0 <= k -> k + 768 <= sz litProbs -> in_width 8 sym -> yields (LitEnc_GetPrice pp m (litProbs, k) sym) (fun x => 0 <= x <= 8 * bit_max).
Proof using m_ok pp_ok.
  intros Hk Hsz Hs. unfold in_width in Hs. change (2 ^ 8) with 256 in Hs. unfold LitEnc_GetPrice. change 0x100 with (2 ^ 8). rewrite land_shiftl by lia. change (2 ^ 8) with 256.
  eapply yields_then; [eapply (yields_do_while (fun '(sym, price) => 2 <= sym < 512 /\ 0 <= price <= (8 - Z.log2 sym) * bit_max)
    (fun '(sym, _) => Z.to_nat (Z.log2 sym)) (fun '(_, price) => 0 <= price <= 8 * bit_max))|by intros [? price] Hp].
  - intros [s price] [Hrange Hp]. cbn beta iota. destruct (log2_shiftr_1 s) as [El Hl]; [lia|]. pose proof (shiftr_1_bounds s 1 256) as Hb.
    eapply yields_then; [apply price_at_ok; [vptr|apply land_1_bit]|intros x Hx; cbn in *].
    assert (Z.log2 s < 9) by (apply Z.log2_lt_pow2; [lia|change (2 ^ 9) with 512; lia]).
    destruct (Z.leb_spec 2 (s >>> 1)); [rewrite El; split; [split; [lia|]|lia]|]; apply u32_le; lia.
  - assert (Z.log2 (sym + 256) = 8) as -> by (apply Z.log2_unique; lia). lia.
  - assert (Z.log2 (sym + 256) = 8) as -> by (apply Z.log2_unique; lia). lia.
Qed.

(** ** One literal after a match *)

Lemma match_index_ok offs mb s :
  offs = 0 \/ offs = 256 -> 256 <= s < 65536 ->
  1 <= offs + (mb &&& offs) + (s >>> 8) < 768 /\ (forall x, (offs &&& x) = 0 \/ (offs &&& x) = 256).
Proof using Type.
  intros Ho Hs. assert (1 <= s >>> 8 < 256) as H1.
  { rewrite Z.shiftr_div_pow2 by lia. change (2 ^ 8) with 256. split; [apply Z.div_le_lower_bound; lia|apply Z.div_lt_upper_bound; lia]. }
  destruct Ho as [->| ->].
  - rewrite Z.land_0_r. split; [lia|]. intros x. rewrite Z.land_0_l. by left.
  - rewrite land_256. split; [destruct (Z.testbit mb 8); lia|]. intros x. rewrite Z.land_comm, land_256. destruct (Z.testbit x 8); auto.
Qed.

Lemma LitEnc_Matched_GetPrice_ok k sym mb :
  0 <= k -> k + 768 <= sz litProbs -> in_width 8 sym ->
  yields (LitEnc_Matched_GetPrice pp m (litProbs, k) sym mb) (fun x => 0 <= x <= 8 * bit_max).
Proof using m_ok pp_ok.
  intros Hk Hsz Hs. unfold in_width in Hs. change (2 ^ 8) with 256 in Hs. unfold LitEnc_Matched_GetPrice.
  change 0x100 with (2 ^ 8) at 1. rewrite land_shiftl by lia. change (2 ^ 8) with 256.
  eapply yields_then; [eapply (yields_do_while (fun '(sym, mb, offs, price) => 256 <= sym < 65536 /\ (offs = 0 \/ offs = 256) /\ 0 <= price <= (Z.log2 sym - 8) * bit_max)
    (fun '(sym, _, _, _) => Z.to_nat (16 - Z.log2 sym)) (fun '(_, _, _, price) => 0 <= price <= 8 * bit_max))|by intros [[[? ?] ?] price] Hp].
  - intros [[[s b] offs] price] (Hrange & Ho & Hp). cbn beta iota zeta. destruct (match_index_ok offs (u32 (b <<< 1)) s Ho Hrange) as [Hi Hland].
    eapply yields_then; [apply price_at_ok; [vptr|apply land_1_bit]|intros x Hx; cbn beta in Hx].
    assert (u32 (s <<< 1) = 2 * s) as -> by (rewrite Z.shiftl_mul_pow2, wrap_small by (unfold in_width; lia); lia).
    assert (Z.log2 (2 * s) = Z.log2 s + 1) as El by (apply Z.log2_double; lia).
    assert (Z.log2 s < 16) by (apply Z.log2_lt_pow2; [lia|change (2 ^ 16) with 65536; lia]).
    cbn [yields]. change 0x10000 with 65536. destruct (Z.ltb_spec (2 * s) 65536); [|apply u32_le; lia].
    rewrite El. split; [|lia]. split; [lia|]. split; [apply Hland|]. apply u32_le. lia.
  - assert (Z.log2 (sym + 256) = 8) as -> by (apply Z.log2_unique; lia). split; [lia|]. split; [by right|lia].
  - assert (Z.log2 (sym + 256) = 8) as -> by (apply Z.log2_unique; lia). lia.
Qed.

(** ** Lengths *)

(** A pair written behind the others. *)
Lemma written_pair B lo i t t1 t2 :
  lo <= i -> written B lo i t t1 -> length t2 = length t1 -> bounded B t2 i -> bounded B t2 (i + 1) ->
  (forall j, j <> i -> j <> i + 1 -> rd t2 j = rd t1 j) -> written B lo (i + 2) t t2.
Proof using Type.
  intros Hi Hw HL H0 H1 HF. apply (written_seq B lo i (i + 2) t t1 t2); [lia|done|]. split; [done|]. split; intros j Hj; [|apply HF; lia].
  assert (j = i \/ j = i + 1) as [->| ->] by lia; done.
Qed.

Lemma SetPrices_3_ok B a k startPrice prices t :
  0 <= k -> k + 8 <= sz a -> 0 <= startPrice -> startPrice + 3 * bit_max <= B -> 0 <= prices -> prices + 8 <= Z.of_nat (length t) ->
  yields (SetPrices_3 pp m (a, k) startPrice prices t) (written B prices (prices + 8) t).
Proof using m_ok pp_ok.
  intros Hk Hsz Hs HB Hp Hlen. unfold SetPrices_3.
  eapply yields_then; [apply (yields_while (fun '(i, t') => (exists h, i = 2 * h) /\ 0 <= i <= 8 /\ written B prices (prices + i) t t') (fun '(i, _) => Z.to_nat (8 - i)))|].
  - intros [i t'] ([h Eh] & Hi & Hw) Hlt%Z.ltb_lt. pose proof Hw as (L & _).
    assert (0 <= i >>> 2 <= 1 /\ ((i >>> 2) = 0 \/ (i >>> 2) = 1) /\ 0 <= i >>> 1 <= 3) as (H2 & B2 & H1).
    { rewrite !Z.shiftr_div_pow2 by lia. change (2 ^ 2) with 4. change (2 ^ 1) with 2. Z.to_euclidean_division_equations. lia. }
    eapply yields_then; [apply price_at_ok; [vptr|done]|intros x Hx; cbn beta in Hx].
    eapply yields_then; [apply price_at_ok; [vptr|apply land_1_bit]|intros y Hy; cbn beta in Hy].
    assert (0 <= u32 (u32 (startPrice + x) + y) <= startPrice + 2 * 161) as Hprice.
    { apply u32_le. pose proof (u32_le (startPrice + x) (startPrice + 161) ltac:(lia)). lia. }
    destruct (m_ok (padd (a, k) (4 + (i >>> 1)))) as (prob & -> & Hprob); [vptr|]. opt.
    apply (put_pair B); [done|lia|lia|lia|lia|lia|]. intros t2 L2 B0 B1 F. split; [|lia].
    split; [exists (h + 1); lia|]. split; [lia|]. rewrite Z.add_assoc. apply (written_pair B prices (prices + i) t t' t2); (done || lia).
  - split; [by exists 0|]. split; [lia|]. rewrite Z.add_0_r. apply written_nil.
  - lia.
  - intros [i t'] [([h ->] & Hi & Hw) Hge%Z.ltb_ge]. cbn. by replace 8 with (2 * h) by lia.
Qed.

(** The rows up to [n] have prices for the first [k] lengths. *)
Definition rows_ok (B n k : Z) (t : list Z) : Prop := forall ps j, 0 <= ps < n -> 0 <= j < k -> bounded B t (ps * kLenNumSymbolsTotal + j).

Lemma low_prices_ok B lowA a c n t :
  sz lowA = 256 -> 0 <= a -> a + 3 * bit_max <= B -> 0 <= c -> c + 3 * bit_max <= B -> 0 <= n <= 16 -> length t = Z.to_nat (16 * kLenNumSymbolsTotal) ->
  yields (low_prices pp m lowA a c n t) (fun t' => length t' = length t /\ rows_ok B n 16 t').
Proof using m_ok pp_ok.
  intros Hsz Ha HaB Hc HcB Hn Hlen. unfold low_prices. change kLenNumSymbolsTotal with 272 in *. change (Z.to_nat (16 * 272)) with (Z.to_nat 4352) in Hlen.
  eapply yields_then; [apply (yields_while (fun '(k, t') => 0 <= k <= n /\ length t' = length t /\ rows_ok B k 16 t') (fun '(k, _) => Z.to_nat (n - k)))|].
  - intros [k t'] (Hk & L & Hr) Hlt%Z.ltb_lt. change kLenNumLowSymbols with 8.
    assert (k <<< (1 + kLenNumLowBits) = 16 * k) as -> by (rewrite Z.shiftl_mul_pow2 by done; change (2 ^ (1 + kLenNumLowBits)) with 16; lia).
    eapply yields_then; [apply (SetPrices_3_ok B); lia|intros t1 W1]. pose proof W1 as (L1 & _).
    eapply yields_then; [apply (SetPrices_3_ok B); cbn [fst snd]; lia|intros t2 W2].
    assert (written B (k * 272) (k * 272 + 8 + 8) t' t2) as W by (apply (written_seq B _ (k * 272 + 8) _ t' t1); (done || lia)).
    split; [|lia]. split; [lia|]. pose proof W as (L2 & Wr & _). split; [lia|].
    intros ps j Hps Hj. change kLenNumSymbolsTotal with 272 in *. destruct (Z.eq_dec ps k) as [->|]; [apply Wr; lia|].
    apply (written_frame _ _ _ _ _ _ _ W); [lia|]. apply Hr; lia.
  - split; [lia|]. split; [done|]. intros ps j Hps. lia.
  - lia.
  - intros [k t'] [(Hk & L & Hr) Hge%Z.ltb_ge]. cbn. split; [done|]. by replace n with k by lia.
Qed.

(** The high tree, from the leaf up. *)
Lemma high_tree_ok highA s0 b :
  sz highA = 256 -> 128 <= s0 < 256 -> 0 <= b ->
  yields (do_while 8 (fun '(sym, price) =>
            let bit := sym &&& 1 in
            let sym := sym >>> 1 in
            x ← price_at pp m (highA, sym) bit;
            Some (sym, u32 (price + x))) (fun '(sym, _) => 2 <=? sym) (s0, b))
    (fun '(_, price) => 0 <= price <= b + 7 * bit_max).
Proof using m_ok pp_ok.
  intros Hsz Hs Hb.
  assert (Z.log2 s0 = 7) as El0 by (apply Z.log2_unique; lia).
  eapply (yields_do_while (fun '(sym, price) => 2 <= sym < 256 /\ 0 <= price <= b + (7 - Z.log2 sym) * bit_max) (fun '(sym, _) => Z.to_nat (Z.log2 sym))).
  - intros [s price] [Hrange Hp]. cbn beta iota zeta. destruct (log2_shiftr_1 s) as [El Hl]; [lia|]. pose proof (shiftr_1_bounds s 1 128) as Hb1.
    eapply yields_then; [apply price_at_ok; [vptr|apply land_1_bit]|intros x Hx; cbn in *].
    assert (Z.log2 s < 8) by (apply Z.log2_lt_pow2; [lia|change (2 ^ 8) with 256; lia]).
    destruct (Z.leb_spec 2 (s >>> 1)); [rewrite El; split; [split; [lia|]|lia]|]; apply u32_le; lia.
  - rewrite El0. lia.
  - rewrite El0. lia.
Qed.

Lemma high_prices_ok B highA b n t :
  sz highA = 256 -> 0 <= b -> b + 8 * bit_max <= B -> 1 <= n <= 128 -> 16 + 2 * n <= Z.of_nat (length t) ->
  yields (high_prices pp m highA b n t) (written B 16 (16 + 2 * n) t).
Proof using m_ok pp_ok.
  intros Hsz Hb HB Hn Hlen. unfold high_prices. change (kLenNumLowSymbols * 2) with 16. change (1 <<< (kLenNumHighBits - 1)) with 128.
  eapply yields_then; [apply (yields_do_while (fun '(i, t') => 1 <= i <= n /\ written B (16 + 2 * i) (16 + 2 * n) t t') (fun '(i, _) => Z.to_nat i)
    (fun '(_, t') => written B 16 (16 + 2 * n) t t'))|by intros [? ?] ?].
  - intros [i t'] (Hi & Hw). cbn beta iota zeta. pose proof Hw as (L & _).
    eapply yields_then; [apply (high_tree_ok highA (i - 1 + 128) b); [done|lia|done]|intros [s price] Hp; cbn beta iota].
    destruct (m_ok (highA, i - 1 + 128)) as (prob & -> & Hprob); [vptr|]. opt.
    apply (put_pair B); [done|lia|lia|lia|lia|lia|]. intros t2 L2 B0 B1 F.
    assert (written B (16 + 2 * (i - 1)) (16 + 2 * n) t t2) as W.
    { pose proof Hw as (_ & Wr & Fr). split; [congruence|]. split; intros j Hj; [|rewrite F, Fr by lia; done].
      destruct (Z.eq_dec j (16 + (i - 1) * 2)) as [->|]; [done|]. destruct (Z.eq_dec j (16 + (i - 1) * 2 + 1)) as [->|]; [done|].
      destruct (Wr j) as (v & Hv & ?); [lia|]. exists v. rewrite F by lia. done. }
    cbn [yields]. destruct (Z.eqb_spec (i - 1) 0) as [E0|]; cbn [negb]; [by rewrite E0 in W|]. split; [|lia]. split; [lia|done].
  - split; [lia|]. apply written_nil.
  - lia.
Qed.

(** [memcpy] *)
Lemma slice_rd (l : list Z) p n :
  0 <= p -> 0 <= n -> p + n <= Z.of_nat (length l) ->
  yields (slice l (Z.to_nat p) (Z.to_nat n)) (fun v => Z.of_nat (length v) = n /\ forall j, 0 <= j < n -> rd v j = rd l (p + j)).
Proof using Type.
  intros Hp Hn Hl. rewrite slice_Some by lia. cbn. rewrite length_take, length_drop. split; [lia|]. intros j Hj.
  rewrite !rd_lookup, lookup_take_lt, lookup_drop by lia. f_equal. lia.
Qed.

Lemma blit_rd (l v : list Z) p :
  0 <= p -> p + Z.of_nat (length v) <= Z.of_nat (length l) ->
  yields (blit l (Z.to_nat p) v) (fun l' => length l' = length l /\
    (forall j, p <= j < p + Z.of_nat (length v) -> rd l' j = rd v (j - p)) /\
    (forall j, ~ p <= j < p + Z.of_nat (length v) -> rd l' j = rd l j)).
Proof using Type.
  intros Hp Hl. unfold blit. rewrite decide_True by lia. cbn.
  assert (length (take (Z.to_nat p) l) = Z.to_nat p) as Ht by (rewrite length_take; lia).
  split; [rewrite !length_app, length_take, length_drop; lia|]. split; intros j Hj.
  - rewrite !rd_lookup, lookup_app_r, lookup_app_l by lia. f_equal. lia.
  - destruct (Z.lt_ge_cases j 0); [unfold rd; by rewrite (proj2 (Z.ltb_lt j 0))|]. rewrite !rd_lookup by lia.
    destruct (Z.lt_ge_cases j p); [rewrite lookup_app_l, lookup_take_lt by lia; done|].
    rewrite !lookup_app_r, lookup_drop by lia. f_equal. lia.
Qed.

(** The low prices of every row stay as they are. *)
Definition low_kept (t t' : list Z) : Prop :=
  length t' = length t /\ forall ps j, 0 <= j < 16 -> rd t' (ps * kLenNumSymbolsTotal + j) = rd t (ps * kLenNumSymbolsTotal + j).

Lemma copy_high_ok B n num t :
  1 <= n <= 16 -> 0 <= num <= 256 -> length t = Z.to_nat (16 * kLenNumSymbolsTotal) -> (forall j, 16 <= j < 16 + num -> bounded B t j) ->
  yields (copy_high n num t) (fun t' => low_kept t t' /\
    forall ps j, 0 <= ps < n -> 16 <= j < 16 + num -> bounded B t' (ps * kLenNumSymbolsTotal + j)).
Proof using Type.
  intros Hn Hnum Hlen Hrow. unfold copy_high. unfold low_kept. change kLenNumSymbolsTotal with 272 in *.
  change (Z.to_nat (16 * 272)) with (Z.to_nat 4352) in Hlen. change (kLenNumLowSymbols * 2) with 16.
  eapply yields_then; [apply (yields_while (fun '(k, t') => 1 <= k <= n /\ low_kept t t' /\
    forall ps j, 0 <= ps < k -> 16 <= j < 16 + num -> bounded B t' (ps * 272 + j)) (fun '(k, _) => Z.to_nat (n - k)))|].
  - intros [k t'] (Hk & (L & F) & Hr) Hlt%Z.ltb_lt. change kLenNumSymbolsTotal with 272 in *.
    eapply yields_then; [apply slice_rd; lia|intros row [Lr Hv]].
    eapply yields_then; [apply blit_rd; lia|intros t1 (L1 & W1 & F1)]. rewrite Lr in W1, F1. cbn [yields]. split; [|lia]. split; [lia|]. split.
    + split; [congruence|]. intros ps j Hj. change kLenNumSymbolsTotal with 272. rewrite F1, F by lia. done.
    + intros ps j Hps Hj. destruct (Z.eq_dec ps k) as [->|].
      * destruct (Hr 0 j) as (x & Hx & ?); [lia|lia|]. exists x. rewrite W1, Hv by lia. split; [|done]. rewrite <-Hx. f_equal. lia.
      * destruct (Hr ps j) as (x & Hx & ?); [lia|lia|]. exists x. rewrite F1 by lia. done.
  - split; [lia|]. split; [done|]. intros ps j Hps Hj. assert (ps = 0) as -> by lia. by apply Hrow.
  - lia.
  - intros [k t'] [(Hk & Hlow & Hr) Hge%Z.ltb_ge]. cbn. split; [exact Hlow|]. by replace n with k by lia.
Qed.

(** The prices of all lengths up to [tableSize + 1]. *)
Definition lens_ok (B n : Z) (e : CLenPriceEnc) : Prop := rows_ok B n (tableSize e) (len_prices e).
Definition lens_shape (e : CLenPriceEnc) : Prop := length (len_prices e) = Z.to_nat (16 * kLenNumSymbolsTotal) /\ 1 <= tableSize e <= kLenNumSymbolsTotal.

Lemma UpdateTables_ok lowA highA n e :
  sz lowA = 256 -> sz highA = 256 -> 1 <= n <= 16 -> lens_shape e ->
  yields (LenPriceEnc_UpdateTables pp m lowA highA n e) (fun e' => tableSize e' = tableSize e /\ lens_shape e' /\ lens_ok 2048 n e').
Proof using m_ok pp_ok.
  intros Hl Hh Hn [Hlen Hsize]. unfold LenPriceEnc_UpdateTables. change kLenNumLowSymbols with 8. change (8 * 2) with 16.
  destruct (m_ok (lowA, 0)) as (prob & -> & Hprob); [vptr|]. opt.
  eapply yields_then; [by apply GET_PRICEa_ok; [|right]|intros b Hb; cbn beta in Hb].
  eapply yields_then; [by apply GET_PRICEa_ok; [|left]|intros a Ha; cbn beta in Ha].
  eapply yields_then; [apply price_at_ok; [vptr|by left]|intros x Hx; cbn beta in Hx].
  pose proof (u32_le (b + x) (2 * bit_max) ltac:(lia)) as Hc.
  eapply yields_then; [apply (low_prices_ok 2048); (done || lia)|intros t1 [L1 R1]].
  destruct (Z.ltb_spec 16 (tableSize e)) as [Hbig|Hsmall].
  - eapply yields_then; [|intros t' H; exact H].
    eapply yields_then; [apply price_at_ok; [vptr|by right]|intros y Hy; cbn beta in Hy].
    pose proof (u32_le (b + y) (2 * bit_max) ltac:(lia)) as Hd. change kLenNumSymbolsTotal with 272 in Hsize.
    set (i := (tableSize e - (16 - 1)) >>> 1). assert (1 <= i <= 128 /\ tableSize e <= 16 + 2 * i) as [Hi Hti].
    { unfold i. rewrite Z.shiftr_div_pow2 by lia. change (2 ^ 1) with 2. Z.to_euclidean_division_equations. lia. }
    change kLenNumSymbolsTotal with 272 in Hlen. change (Z.to_nat (16 * 272)) with (Z.to_nat 4352) in Hlen.
    eapply yields_then; [apply (high_prices_ok 2048); (done || lia)|intros t2 W2]. pose proof W2 as (L2 & Wr & Wf).
    eapply yields_mono; [apply (copy_high_ok 2048); [done|lia|rewrite L2, L1; exact Hlen|intros j Hj; apply Wr; lia]|].
    intros t3 [[L3 K3] H3]. cbn [yields tableSize]. split; [done|]. split; [split; [cbn; rewrite L3, L2, L1; exact Hlen|exact Hsize]|].
    intros ps j Hps Hj. cbn [len_prices tableSize] in *. destruct (Z.lt_ge_cases j 16) as [Hj16|]; [|apply H3; lia].
    destruct (R1 ps j) as (v & Hv & ?); [done|lia|]. exists v. split; [|done]. rewrite K3 by lia.
    change kLenNumSymbolsTotal with 272 in *. rewrite Wf by lia. exact Hv.
  - opt. cbn [yields tableSize]. split; [done|]. split; [split; [cbn; by rewrite L1|exact Hsize]|].
    intros ps j Hps Hj. cbn [len_prices tableSize] in *. apply R1; lia.
Qed.

Lemma GET_PRICE_LEN_ok n e ps len :
  lens_ok 2048 n e -> 0 <= ps < n -> 2 <= len <= tableSize e + 1 -> yields (GET_PRICE_LEN e ps len) (fun x => 0 <= x <= 2048).
Proof using Type.
  intros He Hps Hl. unfold GET_PRICE_LEN. destruct (He ps (len - 2)) as (x & Hx & ?); [done|lia|]. change LZMA_MATCH_LEN_MIN with 2.
  rewrite Hx. done.
Qed.

(** ** Distances *)

Lemma reverse_step_ok a k price sym node P :
  0 <= k -> 1 <= node -> k + node < sz a -> 0 <= price <= P ->
  yields (reverse_step pp m (a, k) (price, sym, node)) (fun '(price', _, node') => 0 <= price' <= P + bit_max /\ 2 * node <= node' <= 2 * node + 1).
Proof using m_ok pp_ok.
  intros Hk Hn Hsz Hp. unfold reverse_step.
  eapply yields_then; [apply price_at_ok; [vptr|apply land_1_bit]|intros x Hx; cbn beta in Hx]. cbn [yields].
  split; [apply u32_le; lia|]. rewrite Z.shiftl_mul_pow2 by lia. destruct (land_1_bit sym) as [->| ->]; lia.
Qed.

Lemma FillAlignPrices_ok t :
  sz posAlignEncoder = 16 -> length t = 16%nat -> yields (FillAlignPrices pp m t) (fun t' => length t' = 16%nat /\ forall j, 0 <= j < 16 -> bounded 2048 t' j).
Proof using m_ok pp_ok.
  intros Hsz Hlen. unfold FillAlignPrices. change (kAlignTableSize / 2) with 8.
  eapply yields_then; [apply (yields_while (fun '(i, t') => 0 <= i <= 8 /\ length t' = 16%nat /\ forall j, 0 <= j < i -> bounded 2048 t' j /\ bounded 2048 t' (j + 8)) (fun '(i, _) => Z.to_nat (8 - i)))|].
  - intros [i t'] (Hi & L & Hr) Hlt%Z.ltb_lt.
    eapply yields_then; [apply (reverse_step_ok _ _ _ _ _ 0); lia|intros [[p1 s1] n1] [P1 N1]].
    eapply yields_then; [apply (reverse_step_ok _ _ _ _ _ (0 + bit_max)); lia|intros [[p2 s2] n2] [P2 N2]].
    eapply yields_then; [apply (reverse_step_ok _ _ _ _ _ (0 + bit_max + bit_max)); lia|intros [[p3 s3] n3] [P3 N3]].
    destruct (m_ok (padd (posAlignEncoder, 0) n3)) as (prob & -> & Hprob); [vptr|]. opt.
    apply (put_pair 2048); [done|lia|lia|lia|lia|lia|]. intros t2 L2 B0 B1 F. cbn [yields]. split; [|lia]. split; [lia|]. split; [congruence|].
    intros j Hj. destruct (Z.eq_dec j i) as [->|]; [done|]. destruct (Hr j) as [(x & Hx & ?) (y & Hy & ?)]; [lia|].
    split; [exists x|exists y]; (split; [|done]); rewrite F by lia; done.
  - split; [lia|]. split; [done|]. intros j Hj. lia.
  - lia.
  - intros [i t'] [(Hi & L & Hr) Hge%Z.ltb_ge]. cbn. split; [done|]. intros j Hj. assert (i = 8) as -> by lia.
    destruct (Z.lt_ge_cases j 8); [apply Hr; lia|]. replace j with (j - 8 + 8) by lia. apply Hr; lia.
Qed.

(** The slots of the distances that [tempPrices] is indexed with. *)
Definition small_slot_check (i : Z) : bool :=
  match rd LzmaEnc_FastPosInit i with
  | Some s =>
      let fb := (s >>> 1) - 1 in let base := (2 ||| (s &&& 1)) <<< fb in
      (0 <=? fb) && (fb <=? 4) && (0 <=? base) && (base * 2 + 2 ^ (fb + 1) <=? 128) && (base + i + (1 <<< fb) <? 128) && (1 <=? 1 <<< fb)
  | None => false
  end.

Lemma small_slots_checked : forallb small_slot_check (seqZ 2 62) = true.
Proof using Type. vm_compute. reflexivity. Qed.

Lemma small_slot i :
  2 <= i < 64 -> exists s, rd LzmaEnc_FastPosInit i = Some s /\ let fb := (s >>> 1) - 1 in let base := (2 ||| (s &&& 1)) <<< fb in
    0 <= fb <= 4 /\ 0 <= base /\ base * 2 + 2 ^ (fb + 1) <= 128 /\ base + i + (1 <<< fb) < 128 /\ 1 <= (1 <<< fb).
Proof using Type.
  intros Hi. assert (small_slot_check i = true) as H.
  { pose proof small_slots_checked as H. rewrite forallb_forall in H. apply H, list_elem_of_In, elem_of_seqZ. lia. }
  unfold small_slot_check in H. destruct (rd LzmaEnc_FastPosInit i) as [s|]; [|done]. exists s. split; [done|].
  cbv zeta in *. rewrite !andb_true_iff, !Z.leb_le, Z.ltb_lt in H. lia.
Qed.

Lemma temp_prices_ok :
  sz posEncoders = 128 -> yields (temp_prices pp m LzmaEnc_FastPosInit) (fun t => length t = 128%nat /\ forall j, 0 <= j < 128 -> bounded 1024 t j).
Proof using m_ok pp_ok.
  intros Hsz. unfold temp_prices. change (kNumFullDistances / 2) with 64. change (kStartPosModelIndex / 2) with 2. change (Z.to_nat kNumFullDistances) with 128%nat.
  eapply yields_then; [apply (yields_while (fun '(i, t') => 2 <= i <= 64 /\ length t' = 128%nat /\ forall j, 0 <= j < 128 -> bounded 1024 t' j) (fun '(i, _) => Z.to_nat (64 - i)))|].
  - intros [i t'] (Hi & L & Hr) Hlt%Z.ltb_lt. destruct (small_slot i) as (s & -> & Hf & Hb & Hn & Hhi & Hoff); [lia|]. opt. cbv zeta in *.
    set (fb := (s >>> 1) - 1) in *. set (base := (2 ||| (s &&& 1)) <<< fb) in *. clearbody base. set (off := 1 <<< fb) in *.
    eapply yields_then; [apply (yields_while (fun '(price, _, node, k) => 0 <= k <= fb /\ 2 ^ (fb - k) <= node < 2 ^ (fb - k + 1) /\ 0 <= price <= bit_max * (fb - k)) (fun '(_, _, _, k) => Z.to_nat k))|].
    + intros [[[price sym] node] k] (Hk & Hnode & Hprice) Hk0%negb_true_iff%Z.eqb_neq.
      assert (2 ^ (fb - k + 1) <= 2 ^ (fb + 1)) by (apply Z.pow_le_mono_r; lia).
      assert (2 ^ (fb - (k - 1)) = 2 * 2 ^ (fb - k) /\ 2 ^ (fb - k + 1) = 2 * 2 ^ (fb - k) /\ 2 ^ (fb - (k - 1) + 1) = 4 * 2 ^ (fb - k)) as (E1 & E2 & E3).
      { pose proof (Z.pow_add_r 2 (fb - k) 1 ltac:(lia) ltac:(lia)). pose proof (Z.pow_add_r 2 (fb - k) 2 ltac:(lia) ltac:(lia)).
        replace (fb - (k - 1)) with (fb - k + 1) by lia. replace (fb - k + 1 + 1) with (fb - k + 2) by lia. change (2 ^ 1) with 2 in *. change (2 ^ 2) with 4 in *. lia. }
      assert (1 <= 2 ^ (fb - k)) by (pose proof (Z.pow_pos_nonneg 2 (fb - k)); lia).
      eapply yields_then; [apply (reverse_step_ok _ _ _ _ _ (bit_max * (fb - k))); lia|intros [[p1 s1] n1] [P1 N1]]. cbn [yields]. lia.
    + split; [lia|]. rewrite Z.sub_diag. cbn. lia.
    + lia.
    + intros [[[price sym] node] k] [(Hk & Hnode & Hprice) Hk0%negb_false_iff%Z.eqb_eq]. subst k. rewrite Z.sub_0_r in *.
      assert (1 <= 2 ^ fb) by (pose proof (Z.pow_pos_nonneg 2 fb); lia).
      destruct (m_ok (padd (posEncoders, base * 2) node)) as (prob & -> & Hprob); [vptr|]. opt.
      apply (put_pair 1024); [done|lia|lia|lia|lia|lia|]. intros t2 L2 B0 B1 F. cbn [yields]. split; [|lia]. split; [lia|]. split; [congruence|].
      intros j Hj. destruct (Z.eq_dec j (base + i)) as [->|]; [done|]. destruct (Z.eq_dec j (base + i + off)) as [->|]; [done|].
      destruct (Hr j Hj) as (x & Hx & ?). exists x. rewrite F by lia. done.
  - split; [lia|]. split; [done|]. intros j Hj. exists 0. split; [|lia]. rewrite rd_lookup by lia. apply lookup_replicate_2. lia.
  - lia.
  - intros [i t'] [(Hi & L & Hr) _]. cbn. done.
Qed.

Lemma slot_step_ok a k sym price lo hi P :
  0 <= k -> 1 <= lo -> 2 * lo <= sym < 2 * hi -> k + hi <= sz a -> 0 <= price <= P ->
  yields (slot_step pp m (a, k) (sym, price)) (fun '(sym', price') => lo <= sym' < hi /\ 0 <= price' <= P + bit_max).
Proof using m_ok pp_ok.
  intros Hk Hlo Hs Hsz Hp. unfold slot_step. pose proof (shiftr_1_bounds sym lo hi Hs).
  eapply yields_then; [apply price_at_ok; [vptr|apply land_1_bit]|intros x Hx; cbn beta in Hx]. cbn [yields]. split; [lia|]. apply u32_le. lia.
Qed.

Lemma slot_prices_ok a k row n t :
  0 <= k -> k + 64 <= sz a -> 0 <= row -> 0 <= n <= 32 -> row + 64 <= Z.of_nat (length t) ->
  yields (slot_prices pp m (a, k) row n t) (written 1000 row (row + 2 * n) t).
Proof using m_ok pp_ok.
  intros Hk Hsz Hrow Hn Hlen. unfold slot_prices. change (1 <<< (kNumPosSlotBits - 1)) with 32.
  eapply yields_then; [apply (yields_while (fun '(i, t') => 0 <= i <= n /\ written 1000 row (row + 2 * i) t t') (fun '(i, _) => Z.to_nat (n - i)))|].
  - intros [i t'] (Hi & Hw) Hlt%Z.ltb_lt. pose proof Hw as (L & _).
    eapply yields_then; [apply (slot_step_ok _ _ _ _ 16 32 0); lia|intros [s1 p1] [S1 P1]].
    eapply yields_then; [apply (slot_step_ok _ _ _ _ 8 16 (0 + bit_max)); lia|intros [s2 p2] [S2 P2]].
    eapply yields_then; [apply (slot_step_ok _ _ _ _ 4 8 (0 + bit_max + bit_max)); lia|intros [s3 p3] [S3 P3]].
    eapply yields_then; [apply (slot_step_ok _ _ _ _ 2 4 (0 + bit_max + bit_max + bit_max)); lia|intros [s4 p4] [S4 P4]].
    eapply yields_then; [apply (slot_step_ok _ _ _ _ 1 2 (0 + bit_max + bit_max + bit_max + bit_max)); lia|intros [s5 p5] [S5 P5]].
    destruct (m_ok (padd (a, k) (i + 32))) as (prob & -> & Hprob); [vptr|]. opt.
    apply (put_pair 1000); [done|lia|lia|lia|lia|lia|]. intros t2 L2 B0 B1 F. cbn [yields]. split; [|lia]. split; [lia|].
    replace (row + 2 * (i + 1)) with (row + 2 * i + 2) by lia. replace (row + i * 2) with (row + 2 * i) in * by lia.
    apply (written_pair 1000 row _ t t'); (done || lia).
  - split; [lia|]. replace (row + 2 * 0) with row by lia. apply written_nil.
  - lia.
  - intros [i t'] [(Hi & Hw) Hge%Z.ltb_ge]. cbn. by replace n with i by lia.
Qed.

Lemma add_price_ok B C i delta t :
  bounded B t i -> 0 <= delta -> B + delta <= C -> yields (add_price i delta t) (written C i (i + 1) t).
Proof using Type.
  intros (x & Hx & Hb) Hd HC. unfold add_price. rewrite Hx. opt. apply wrz_written; [apply rd_range in Hx; lia|]. apply u32_le. lia.
Qed.

Lemma slot_deltas_ok row n t :
  7 <= n <= 32 -> (forall j, row <= j < row + 2 * n -> bounded 1000 t j) ->
  yields (slot_deltas row n t) (written 2048 (row + 14) (row + 2 * n) t).
Proof using Type.
  intros Hn Ht. unfold slot_deltas. change (u32 ((kEndPosModelIndex / 2 - 1 - kNumAlignBits) <<< kNumBitPriceShiftBits)) with 32.
  change (kEndPosModelIndex / 2) with 7.
  eapply yields_then; [apply (yields_while (fun '(i, delta, t') => 7 <= i <= n /\ 0 <= delta <= 16 * i /\ written 2048 (row + 14) (row + 2 * i) t t') (fun '(i, _, _) => Z.to_nat (n - i)))|].
  - intros [[i delta] t'] (Hi & Hd & Hw) Hlt%Z.ltb_lt. replace (row + i * 2) with (row + 2 * i) by lia. pose proof Hw as (L & W & F).
    assert (forall j, row + 2 * i <= j < row + 2 * n -> bounded 1000 t' j) as Hb.
    { intros j Hj. apply (written_frame _ _ _ _ _ _ _ Hw); [lia|]. apply Ht. lia. }
    eapply yields_then; [apply (add_price_ok 1000 2048); [apply Hb; lia|lia|lia]|intros t1 W1].
    eapply yields_then; [apply (add_price_ok 1000 2048); [apply (written_frame _ _ _ _ _ _ _ W1); [lia|apply Hb; lia]|lia|lia]|intros t2 W2].
    change (1 <<< kNumBitPriceShiftBits) with 16. cbn [yields]. split; [|lia]. split; [lia|]. split; [pose proof (u32_le (delta + 16) (delta + 16) ltac:(lia)); lia|].
    apply (written_seq 2048 _ (row + 2 * i) _ t t'); [lia|done|]. apply (written_seq 2048 _ (row + 2 * i + 1) _ t' t1); [lia|done|].
    by replace (row + 2 * (i + 1)) with (row + 2 * i + 1 + 1) by lia.
  - split; [lia|]. split; [lia|]. replace (row + 2 * 7) with (row + 14) by lia. apply written_nil.
  - lia.
  - intros [[i delta] t'] [(Hi & _ & Hw) Hge%Z.ltb_ge]. cbn. by replace n with i by lia.
Qed.

Lemma distance_row_ok temp slots row dp t :
  0 <= row -> (forall j, row <= j < row + 14 -> bounded 2048 slots j) -> (forall j, 0 <= j < 128 -> bounded 1024 temp j) -> 0 <= dp -> dp + 128 <= Z.of_nat (length t) ->
  yields (distance_row LzmaEnc_FastPosInit temp slots row dp t) (written 4096 dp (dp + 128) t).
Proof using Type.
  intros Hrow Hs Ht Hdp Hlen. unfold distance_row.
  destruct (Hs row) as (x0 & E0 & B0); [lia|]. rewrite E0. opt.
  eapply yields_then; [apply (wrz_written 4096); lia|intros t0 W0]. pose proof W0 as (L0 & _).
  destruct (Hs (row + 1)) as (x1 & E1 & B1); [lia|]. rewrite E1. opt.
  eapply yields_then; [apply (wrz_written 4096); lia|intros t1 W1]. pose proof W1 as (L1 & _).
  destruct (Hs (row + 2)) as (x2 & E2 & B2); [lia|]. rewrite E2. opt.
  eapply yields_then; [apply (wrz_written 4096); lia|intros t2 W2]. pose proof W2 as (L2 & _).
  destruct (Hs (row + 3)) as (x3 & E3 & B3); [lia|]. rewrite E3. opt.
  eapply yields_then; [apply (wrz_written 4096); lia|intros t3 W3]. pose proof W3 as (L3 & _).
  assert (written 4096 dp (dp + 4) t t3) as W.
  { apply (written_seq _ _ (dp + 1) _ t t0); [lia|done|]. apply (written_seq _ _ (dp + 2) _ t0 t1); [lia|by replace (dp + 2) with (dp + 1 + 1) by lia|].
    apply (written_seq _ _ (dp + 3) _ t1 t2); [lia|by replace (dp + 3) with (dp + 2 + 1) by lia|by replace (dp + 4) with (dp + 3 + 1) by lia]. }
  change kNumFullDistances with 128.
  eapply yields_then; [apply (yields_while (fun '(i, t') => (exists h, i = 2 * h) /\ 4 <= i <= 128 /\ written 4096 dp (dp + i) t t') (fun '(i, _) => Z.to_nat (128 - i)))|].
  - intros [i t'] ([h Eh] & Hi & Hw) Hlt%Z.ltb_lt. pose proof Hw as (L & _).
    destruct (FastPos_ok i) as (s & -> & His & Hs0); [lia|]. opt. destruct (slot_range s i His Hs0) as (_ & _ & _ & R4 & _).
    destruct (Hs (row + s)) as (sp & -> & Bsp); [lia|]. opt. destruct (Ht i) as (x & -> & Bx); [lia|]. opt.
    eapply yields_then; [apply (wrz_written 4096); [lia|apply u32_le; lia]|intros t4 W4]. pose proof W4 as (L4 & _).
    destruct (Ht (i + 1)) as (y & -> & By); [lia|]. opt.
    eapply yields_then; [apply (wrz_written 4096); [lia|apply u32_le; lia]|intros t5 W5]. cbn [yields]. split; [|lia].
    split; [exists (h + 1); lia|]. split; [lia|]. apply (written_seq _ _ (dp + i) _ t t'); [lia|done|].
    apply (written_seq _ _ (dp + i + 1) _ t' t4); [lia|done|]. by replace (dp + (i + 2)) with (dp + i + 1 + 1) by lia.
  - split; [by exists 2|]. split; [lia|done].
  - lia.
  - intros [i t'] [([h ->] & Hi & Hw) Hge%Z.ltb_ge]. cbn. by replace 128 with (2 * h) by lia.
Qed.

Lemma FillDistancesPrices_ok dts tabs :
  sz posEncoders = 128 -> sz posSlotEncoder = 256 -> 14 <= dts <= 64 -> length tabs.1 = Z.to_nat 256 -> length tabs.2 = Z.to_nat 512 ->
  yields (FillDistancesPrices pp m LzmaEnc_FastPosInit dts tabs) (fun '(slots, dists) =>
    length slots = Z.to_nat 256 /\ length dists = Z.to_nat 512 /\
    (forall lps j, 0 <= lps < 4 -> 0 <= j < dts -> bounded 4096 slots (lps * 64 + j)) /\
    (forall lps j, 0 <= lps < 4 -> 0 <= j < 128 -> bounded 4096 dists (lps * 128 + j))).
Proof using m_ok pp_ok.
  intros Hpe Hps Hdts L1 L2. unfold FillDistancesPrices. change kNumLenToPosStates with 4. change kDistTableSizeMax with 64.
  change (1 <<< kNumPosSlotBits) with 64. change kNumFullDistances with 128.
  eapply yields_then; [by apply temp_prices_ok|intros temp [_ Htemp]]. set (n := (dts + 1) >>> 1).
  assert (7 <= n <= 32 /\ dts <= 2 * n) as [Hn Hdn].
  { unfold n. rewrite Z.shiftr_div_pow2 by lia. change (2 ^ 1) with 2. Z.to_euclidean_division_equations. lia. }
  eapply yields_then; [apply (yields_while (fun '(lps, slots, dists) => 0 <= lps <= 4 /\ length slots = Z.to_nat 256 /\ length dists = Z.to_nat 512 /\
    (forall l j, 0 <= l < lps -> 0 <= j < dts -> bounded 4096 slots (l * 64 + j)) /\
    (forall l j, 0 <= l < lps -> 0 <= j < 128 -> bounded 4096 dists (l * 128 + j))) (fun '(lps, _, _) => Z.to_nat (4 - lps)))|].
  - intros [[lps slots] dists] (Hl & Ls & Ld & Hs & Hd) Hlt%Z.ltb_lt.
    eapply yields_then; [apply slot_prices_ok; lia|intros s1 W1]. pose proof W1 as (E1 & _).
    eapply yields_then; [apply slot_deltas_ok; [lia|intros j Hj; apply W1; lia]|intros s2 W2]. pose proof W2 as (E2 & _).
    assert (forall j, lps * 64 <= j < lps * 64 + 2 * n -> bounded 2048 s2 j) as Hnew.
    { intros j Hj. destruct (Z.lt_ge_cases j (lps * 64 + 14)); [|apply W2; lia].
      apply (written_frame _ _ _ _ _ _ _ W2); [lia|]. apply (written_mono _ 2048) in W1; [|lia]. apply W1. lia. }
    eapply yields_then; [apply distance_row_ok; [lia|intros j Hj; apply Hnew; lia|done|lia|lia]|intros d1 W3]. pose proof W3 as (E3 & _).
    cbn [yields]. split; [|lia]. split; [lia|]. split; [congruence|]. split; [congruence|]. split; intros l j Hl' Hj.
    + destruct (Z.eq_dec l lps) as [->|].
      * destruct (Hnew (lps * 64 + j)) as (x & Hx & ?); [lia|]. exists x. split; [done|lia].
      * apply (written_frame _ _ _ _ _ _ _ W2); [lia|]. apply (written_frame _ _ _ _ _ _ _ W1); [lia|]. apply Hs; lia.
    + destruct (Z.eq_dec l lps) as [->|]; [apply W3; lia|]. apply (written_frame _ _ _ _ _ _ _ W3); [lia|]. apply Hd; lia.
  - split; [lia|]. split; [done|]. split; [done|]. split; intros; lia.
  - lia.
  - intros [[lps slots] dists] [(Hl & Ls & Ld & Hs & Hd) Hge%Z.ltb_ge]. cbn. assert (lps = 4) as -> by lia. done.
Qed.
End Prices.

(** ** The tables *)

(** Memory of the right size. *)
Record tables_shape (t : price_tables) : Prop := {
  tsh_bits : bit_prices (ProbPrices t); tsh_align : length (alignPrices t) = 16%nat;
  tsh_slots : length (posSlotPrices t) = Z.to_nat 256; tsh_dists : length (distancesPrices t) = Z.to_nat 512;
  tsh_len : length (len_prices (lenEnc t)) = Z.to_nat (16 * kLenNumSymbolsTotal);
  tsh_rep : length (len_prices (repLenEnc t)) = Z.to_nat (16 * kLenNumSymbolsTotal); tsh_size : 14 <= distTableSize t <= 64
}.

(** What normal mode reads: lengths up to [nfb] in [n] rows, all distances below
    [2 ^ (distTableSize / 2)]. *)
Record tables_ok (nfb n : Z) (t : price_tables) : Prop := {
  to_shape : tables_shape t;
  to_align : forall j, 0 <= j < 16 -> bounded 4096 (alignPrices t) j;
  to_slots : forall lps j, 0 <= lps < 4 -> 0 <= j < distTableSize t -> bounded 4096 (posSlotPrices t) (lps * 64 + j);
  to_dists : forall lps j, 0 <= lps < 4 -> 0 <= j < 128 -> bounded 4096 (distancesPrices t) (lps * 128 + j);
  to_size : tableSize (lenEnc t) = nfb - 1 /\ tableSize (repLenEnc t) = nfb - 1;
  to_len : lens_ok 2048 n (lenEnc t); to_rep : lens_ok 2048 n (repLenEnc t)
}.

(** The counters of the price refreshes apart. *)
Definition set_counts_eq (p q : CLzmaEnc) : Prop := exists a b, q = set_counts a b p.

Section Tables.
Context (l : Z) (m : store) (n nfb : Z).
Context (m_ok : forall q, valid (arr_size l) q -> exists x, load m q = Some x /\ prob_ok x) (n_ok : 1 <= n <= 16) (nfb_ok : 2 <= nfb <= 273).

Lemma fill_align_ok t :
  tables_shape t -> yields (fill_align m t) (fun t' => tables_shape t' /\ (forall j, 0 <= j < 16 -> bounded 4096 (alignPrices t') j) /\
    posSlotPrices t' = posSlotPrices t /\ distancesPrices t' = distancesPrices t /\ lenEnc t' = lenEnc t /\ repLenEnc t' = repLenEnc t /\ distTableSize t' = distTableSize t).
Proof using m_ok.
  intros [H1 H2 H3 H4 H5 H6 H7]. unfold fill_align.
  eapply yields_then; [by apply (FillAlignPrices_ok (arr_size l)); [exact m_ok|..]|intros a [La Ha]]. cbn.
  split; [by constructor|]. split; [|done]. intros j Hj. destruct (Ha j Hj) as (x & ? & ?). exists x. split; [done|lia].
Qed.

Lemma fill_distances_ok t :
  tables_shape t -> yields (fill_distances m LzmaEnc_FastPosInit t) (fun t' => tables_shape t' /\
    (forall lps j, 0 <= lps < 4 -> 0 <= j < distTableSize t' -> bounded 4096 (posSlotPrices t') (lps * 64 + j)) /\
    (forall lps j, 0 <= lps < 4 -> 0 <= j < 128 -> bounded 4096 (distancesPrices t') (lps * 128 + j)) /\
    alignPrices t' = alignPrices t /\ lenEnc t' = lenEnc t /\ repLenEnc t' = repLenEnc t /\ distTableSize t' = distTableSize t).
Proof using m_ok.
  intros [H1 H2 H3 H4 H5 H6 H7]. unfold fill_distances.
  eapply yields_then; [by apply (FillDistancesPrices_ok (arr_size l)); [exact m_ok|..]|intros [s d] (L1 & L2 & B1 & B2)]. cbn.
  split; [by constructor|]. done.
Qed.

Lemma update_lenEnc_ok t :
  tables_shape t -> tableSize (lenEnc t) = nfb - 1 ->
  yields (update_lenEnc m n t) (fun t' => tables_shape t' /\ tableSize (lenEnc t') = nfb - 1 /\ lens_ok 2048 n (lenEnc t') /\
    alignPrices t' = alignPrices t /\ posSlotPrices t' = posSlotPrices t /\ distancesPrices t' = distancesPrices t /\ repLenEnc t' = repLenEnc t /\ distTableSize t' = distTableSize t).
Proof using m_ok n_ok nfb_ok.
  intros [H1 H2 H3 H4 H5 H6 H7] Hsize. unfold update_lenEnc.
  eapply yields_then; [apply (UpdateTables_ok (arr_size l)); [exact m_ok|done|done|done|done|split; [done|change kLenNumSymbolsTotal with 272; lia]]|].
  intros e (S & [L _] & B). cbn. split; [by constructor|]. split; [congruence|done].
Qed.

Lemma update_repLenEnc_ok t :
  tables_shape t -> tableSize (repLenEnc t) = nfb - 1 ->
  yields (update_repLenEnc m n t) (fun t' => tables_shape t' /\ tableSize (repLenEnc t') = nfb - 1 /\ lens_ok 2048 n (repLenEnc t') /\
    alignPrices t' = alignPrices t /\ posSlotPrices t' = posSlotPrices t /\ distancesPrices t' = distancesPrices t /\ lenEnc t' = lenEnc t /\ distTableSize t' = distTableSize t).
Proof using m_ok n_ok nfb_ok.
  intros [H1 H2 H3 H4 H5 H6 H7] Hsize. unfold update_repLenEnc.
  eapply yields_then; [apply (UpdateTables_ok (arr_size l)); [exact m_ok|done|done|done|done|split; [done|change kLenNumSymbolsTotal with 272; lia]]|].
  intros e (S & [L _] & B). cbn. split; [by constructor|]. split; [congruence|done].
Qed.
End Tables.

Lemma InitPrices_ok l fastMode nfb p t :
  (forall q, valid (arr_size l) q -> exists x, load (mem (cod p)) q = Some x /\ prob_ok x) -> 0 <= pb p <= 4 -> 2 <= nfb <= 273 ->
  g_FastPos p = LzmaEnc_FastPosInit -> tables_shape t ->
  yields (LzmaEnc_InitPrices fastMode nfb p t) (fun '(p', t') => set_counts_eq p p' /\ distTableSize t' = distTableSize t /\ (fastMode = false -> tables_ok nfb (2 ^ pb p) t')).
Proof.
  intros Hm Hpb Hnfb Hslots Ht. unfold LzmaEnc_InitPrices. rewrite Hslots.
  assert (1 <= 2 ^ pb p <= 16) as Hn by (split; [pose proof (Z.pow_pos_nonneg 2 (pb p)); lia|change 16 with (2 ^ 4); apply Z.pow_le_mono_r; lia]).
  eapply (yields_then (fun '(p1, t1) => (exists a b, p1 = set_counts a b p) /\ distTableSize t1 = distTableSize t /\ tables_shape t1 /\ (fastMode = false ->
    (forall j, 0 <= j < 16 -> bounded 4096 (alignPrices t1) j) /\
    (forall lps j, 0 <= lps < 4 -> 0 <= j < distTableSize t1 -> bounded 4096 (posSlotPrices t1) (lps * 64 + j)) /\
    (forall lps j, 0 <= lps < 4 -> 0 <= j < 128 -> bounded 4096 (distancesPrices t1) (lps * 128 + j))))).
  { destruct fastMode; cbn [negb]; [cbn; split; [exists (matchPriceCount p), (repLenEncCounter p); by destruct p|done]|].
    eapply yields_then; [by apply (fill_distances_ok l)|intros t1 (S1 & B1 & B2 & _ & _ & _ & E4)].
    eapply yields_then; [by apply (fill_align_ok l)|intros t2 (S2 & B3 & E1 & E2 & _ & _ & E3)]. cbn. rewrite E1, E2, E3. split; [by do 2 eexists|]. split; [done|done]. }
  intros [p1 t1] ((a & b & ->) & E1 & S1 & B). cbn [pb set_counts cod].
  assert (tables_shape (set_tableSize (nfb + 1 - LZMA_MATCH_LEN_MIN) t1)) as S1' by (destruct S1; by constructor).
  rewrite Z.shiftl_1_l. change LZMA_MATCH_LEN_MIN with 2 in *.
  eapply yields_then; [apply (update_lenEnc_ok l _ _ nfb); [done..|cbn; lia]|intros t2 (S2 & Z2 & L2 & A2 & P2 & D2 & R2 & T2)].
  eapply yields_then; [apply (update_repLenEnc_ok l _ _ nfb); [done..|rewrite R2; cbn; lia]|intros t3 (S3 & Z3 & L3 & A3 & P3 & D3 & R3 & T3)].
  cbn. split; [by do 2 eexists|]. split; [by rewrite T3, T2|]. intros Hfast. destruct (B Hfast) as (B1 & B2 & B3).
  constructor; rewrite ?A3, ?P3, ?D3, ?R3, ?T3, ?A2, ?P2, ?D2, ?T2; done.
Qed.

Lemma refresh_prices_ok l nfb p t :
  (forall q, valid (arr_size l) q -> exists x, load (mem (cod p)) q = Some x /\ prob_ok x) -> 0 <= pb p <= 4 -> 2 <= nfb <= 273 ->
  g_FastPos p = LzmaEnc_FastPosInit -> tables_ok nfb (2 ^ pb p) t ->
  yields (refresh_prices p t) (fun '(p', t') => set_counts_eq p p' /\ distTableSize t' = distTableSize t /\ tables_ok nfb (2 ^ pb p) t').
Proof.
  intros Hm Hpb Hnfb Hslots Ht. unfold refresh_prices. rewrite Hslots.
  assert (1 <= 2 ^ pb p <= 16) as Hn by (split; [pose proof (Z.pow_pos_nonneg 2 (pb p)); lia|change 16 with (2 ^ 4); apply Z.pow_le_mono_r; lia]).
  eapply (yields_then (fun '(p1, t1) => (exists a b, p1 = set_counts a b p) /\ distTableSize t1 = distTableSize t /\ tables_ok nfb (2 ^ pb p) t1)).
  { destruct (64 <=? matchPriceCount p); [|cbn; split; [exists (matchPriceCount p), (repLenEncCounter p); by destruct p|done]].
    rewrite Z.shiftl_1_l. destruct Ht as [S B1 B2 B3 [Z1 Z2] L1 L2].
    eapply yields_then; [by apply (fill_align_ok l)|intros t2 (S2 & B4 & E1 & E2 & E3 & E4 & E5)].
    eapply yields_then; [by apply (fill_distances_ok l)|intros t3 (S3 & B5 & B6 & E6 & E7 & E8 & E9)].
    eapply yields_then; [apply (update_lenEnc_ok l _ _ nfb); [done..|congruence]|intros t4 (S4 & Z4 & L4 & A4 & P4 & D4 & R4 & T4)].
    cbn. split; [by do 2 eexists|]. split; [congruence|]. constructor; rewrite ?A4, ?P4, ?D4, ?R4, ?T4, ?E6, ?E7, ?E8, ?E4; done. }
  intros [p1 t1] ((a & b & ->) & E1 & [S B1 B2 B3 [Z1 Z2] L1 L2]). cbn [repLenEncCounter pb set_counts cod].
  destruct (b <=? 0); [|cbn; split; [by do 2 eexists|]; split; [done|by constructor]]. rewrite Z.shiftl_1_l.
  eapply yields_then; [apply (update_repLenEnc_ok l _ _ nfb); done|intros t2 (S2 & Z3 & L3 & A2 & P2 & D2 & R2 & T2)].
  cbn. split; [by do 2 eexists|]. split; [congruence|]. constructor; rewrite ?A2, ?P2, ?D2, ?R2, ?T2; done.
Qed.
