(* ===== verification/LzmaFastOk.v ===== *)
(** * Fast mode chooses valid matches

    GetOptimumFast (LzmaEncFast.v) over a match finder that keeps the laws of MatchFinder.v:
    it always returns, and its choice is a literal, a match or a repeat of the data. *)

From stdpp Require Import base numbers list list_numbers.
From Stdlib Require Import ZArith Lia.
From S2P Require Import Prelude SzTypes RangeEnc LzmaEnc LzmaSymbols LzmaRun MatchFinder LzmaEncFast.
Local Open Scope Z_scope.
Local Open Scope word_scope.

Section Fast.
Context {M : Type} {IM : IMatchFinder2 M} {LM : MatchFinderLaws M}.
Variables (win : list Z) (nfb hist d : Z).

Abbreviation L := (Z.of_nat (length win)).
Abbreviation matched pos m dists := (matches_ok win pos nfb hist m dists).

Record fast_settings : Prop := {
  fs_len : L < 2 ^ 32; fs_nfb : 5 <= nfb <= LZMA_MATCH_LEN_MAX; fs_hist : 0 <= hist <= 15 <<< 28; fs_dict : hist <= d
}.

(** What a search at [pos] found: the pairs, and the length of the last one, which goes on
    beyond [nfb] when the match finder stopped there. *)
Definition found (pos : Z) (dists : list Z) (len : Z) : Prop :=
  (dists = [] /\ len = 0) \/
  exists m ds dist, dists = ds ++ [m; dist] /\ matched pos m dists /\ 0 <= dist < hist /\ match_at win pos len (dist + 1) /\
    2 <= m <= len /\ len <= LZMA_MATCH_LEN_MAX /\ (len < nfb -> len = m).

Record look_ok (pos : Z) (f : lookahead M) : Prop := {
  lk_mf : mf_ok win nfb hist (mf f);
  lk_pos : mf_GetPointerToCurrentPos (mf f) = pos + additionalOffset f;
  lk_off : additionalOffset f = 0 \/
    (additionalOffset f = 1 /\ found pos (matches f) (longestMatchLen f) /\ numPairs f = Z.of_nat (length (matches f)) /\
     numAvail f = L - pos)
}.

Lemma rd_app_r {A} (l1 l2 : list A) i : Z.of_nat (length l1) <= i -> rd (l1 ++ l2) i = rd l2 (i - Z.of_nat (length l1)).
Proof. intros Hi. rewrite !rd_lookup, lookup_app_r by lia. f_equal. lia. Qed.

Lemma rd_app_l {A} (l1 l2 : list A) i : 0 <= i < Z.of_nat (length l1) -> rd (l1 ++ l2) i = rd l1 i.
Proof. intros Hi. rewrite !rd_lookup, lookup_app_l by lia. done. Qed.

(** The last pair. *)
Lemma last_pair {A} (ds : list A) a b : let n := Z.of_nat (length (ds ++ [a; b])) in
  rd (ds ++ [a; b]) (n - 2) = Some a /\ rd (ds ++ [a; b]) (n - 1) = Some b /\ n = Z.of_nat (length ds) + 2.
Proof.
  cbv zeta. rewrite length_app. cbn [length]. split; [|split; [|lia]]; rewrite rd_app_r by lia.
  - by replace (_ - _ - _) with 0 by lia.
  - by replace (_ - _ - _) with 1 by lia.
Qed.

Lemma matches_last pos m ds :
  matched pos m ds -> ds = [] /\ m = 1 \/
  exists ds' dist m', ds = ds' ++ [m; dist] /\ 0 <= dist < hist /\ match_at win pos m (dist + 1) /\ 2 <= m <= nfb /\ matched pos m' ds'.
Proof.
  intros Hm. destruct Hm as [|m' ds' m dist Hm Hl Hd Hat]; [by left|right]. pose proof (matches_len _ _ _ _ _ _ Hm).
  exists ds', dist, m'. split; [done|]. split; [done|]. split; [done|]. split; [lia|done].
Qed.

(** The result is there already. *)
Ltac give_result := match goal with |- exists _ _, Some (?a, _, ?f) = _ /\ _ => exists a, f end.

(** A search reads one position more, the one at the pointer. *)
Lemma ReadMatchDistances_ok f :
  fast_settings -> mf_ok win nfb hist (mf f) -> mf_GetPointerToCurrentPos (mf f) < L ->
  0 <= additionalOffset f <= mf_GetPointerToCurrentPos (mf f) ->
  exists len f', ReadMatchDistances nfb win f = Some (len, Z.of_nat (length (matches f')), f') /\
    found (mf_GetPointerToCurrentPos (mf f)) (matches f') len /\ mf_ok win nfb hist (mf f') /\
    mf_GetPointerToCurrentPos (mf f') = mf_GetPointerToCurrentPos (mf f) + 1 /\
    additionalOffset f' = additionalOffset f + 1 /\ numAvail f' = L - mf_GetPointerToCurrentPos (mf f).
Proof.
  intros Hs Hm HL Ho. unfold ReadMatchDistances. set (pos := mf_GetPointerToCurrentPos (mf f)) in *.
  destruct (mf_position _ _ _ _ Hm) as [Hp Ha]. fold pos in Hp, Ha. rewrite Ha.
  destruct (mf_GetMatches_ok _ _ _ _ Hm HL) as (m & ds & g & -> & Hg & Eg & Hd). opt. fold pos in Eg, Hd.
  pose proof (fs_len Hs). rewrite (wrap_small 32) by (unfold in_width; lia). pose proof (fs_nfb Hs). unfold LZMA_MATCH_LEN_MAX in *.
  destruct (matches_last pos m ds Hd) as [[-> ->]|(ds' & dist & m' & -> & Hdist & Hat & Hml & Hd')].
  - change (Z.of_nat (@length Z []) =? 0) with true. cbv iota. give_result. split; [done|]. split; [by left|]. done.
  - destruct (last_pair ds' m dist) as (E1 & E2 & E3). rewrite E3 in *. destruct (Z.eqb_spec (Z.of_nat (length ds') + 2) 0); [lia|].
    rewrite E1. opt.
    assert (forall len, m <= len <= 273 -> (len < nfb -> len = m) -> match_at win pos len (dist + 1) -> found pos (ds' ++ [m; dist]) len) as Hf.
    { intros len ? ? ?. right. exists m, ds', dist. repeat (split; [done|]). unfold LZMA_MATCH_LEN_MAX. lia. }
    destruct (Z.eqb_spec m nfb) as [->|Hne]; cbn [negb].
    + rewrite E2. opt. rewrite Eg. pose proof Hat as (_ & Hend & _).
      set (av := if 273 <? L - pos then 273 else L - pos). assert (nfb <= av <= 273 /\ pos + av <= L) as Hav.
      { unfold av. destruct (Z.ltb_spec 273 (L - pos)); lia. }
      replace (pos + 1 - 1) with pos by lia. replace (pos - 1 - dist) with (pos - (dist + 1)) by lia.
      destruct (extend_ok win pos (dist + 1) nfb av Hat) as (r & -> & Hr & Hatr); [lia|lia|]. opt.
      give_result. split; [cbn [matches]; by rewrite E3|]. split; [apply Hf; (done || lia)|]. done.
    + give_result. split; [cbn [matches]; by rewrite E3|]. split; [apply Hf; (done || lia)|]. done.
Qed.

(** ** Repeats *)
Lemma two_differ_ok data rep :
  data + 2 <= L -> 1 <= rep <= data ->
  exists b, two_differ win data (data - rep) = Some b /\ (b = false -> match_at win data 2 rep).
Proof using Type.
  intros HL Hr. unfold two_differ. destruct (rd_Some win data) as [a Ea]; [lia|]. destruct (rd_Some win (data - rep)) as [b Eb]; [lia|].
  rewrite Ea, Eb. opt. destruct (Z.eqb_spec a b) as [->|]; cbn [negb]; [|by exists true].
  destruct (rd_Some win (data + 1)) as [c Ec]; [lia|]. destruct (rd_Some win (data - rep + 1)) as [e Ee]; [lia|].
  rewrite Ec, Ee. opt. eexists. split; [done|]. intros Hn%negb_false_iff%Z.eqb_eq. subst e.
  split; [done|]. split; [lia|]. intros i Hi. destruct (Z.eq_dec i 0) as [->|]; [rewrite Z.add_0_r; congruence|].
  replace i with 1 by lia. replace (data + 1 - rep) with (data - rep + 1) by lia. congruence.
Qed.

(** From [a] on, the bytes are those of the match. *)
Lemma match_len_from data a rep len lim :
  match_at win (data + a) (len - a) rep -> 0 <= a <= len -> len <= lim -> data + lim <= L ->
  exists r, match_len win data (data - rep) len lim = Some r /\ len <= r <= lim /\ match_at win (data + a) (r - a) rep.
Proof using Type.
  intros Hm Ha Hlim HL. unfold match_len.
  apply (loop_total (fun n => len <= n <= lim /\ match_at win (data + a) (n - a) rep) (fun n => Z.to_nat (lim - n))); [|split; [lia|done]|lia].
  intros n [Hn Hmn]. destruct (Z.ltb_spec n lim); cbn [negb]; [|split; [lia|done]]. pose proof Hmn as ([? ?] & ? & ?).
  destruct (rd_Some win (data + n)) as [x Ex]; [lia|]. destruct (rd_Some win (data + n - rep)) as [y Ey]; [lia|].
  rewrite Ex. opt. replace (data - rep + n) with (data + n - rep) by lia. rewrite Ey. opt.
  destruct (Z.eqb_spec x y) as [->|]; [|split; [lia|done]]. split; [|lia]. split; [lia|].
  replace (n + 1 - a) with (n - a + 1) by lia. apply (match_at_extend _ _ _ _ y); [done|lia|by replace (data + a + (n - a)) with (data + n) by lia|].
  by replace (data + a + (n - a) - rep) with (data + n - rep) by lia.
Qed.

Lemma rep_len_ok data rep av :
  match_at win data 2 rep -> 2 <= av -> data + av <= L ->
  exists r, rep_len win data (data - rep) av = Some r /\ 2 <= r <= av /\ match_at win data r rep.
Proof using Type.
  intros Hm Hav HL. destruct (match_len_from data 0 rep 2 av) as (r & E & Hr & Hmr); [by rewrite Z.add_0_r|lia|done|done|].
  exists r. split; [done|]. split; [done|]. by rewrite Z.add_0_r, Z.sub_0_r in Hmr.
Qed.

Definition rep_match (all : list Z) (data av j len : Z) : Prop :=
  exists rep, rd all j = Some rep /\ match_at win data len rep /\ 2 <= len <= av.

Lemma rep_search_ok all data av : 2 <= av -> data + av <= L -> Forall (fun rep => 1 <= rep <= data) all ->
  forall reps i j0 len0, 0 <= i -> reps = drop (Z.to_nat i) all -> len0 = 0 \/ rep_match all data av j0 len0 ->
  exists r, rep_search nfb win data av i reps j0 len0 = Some r /\
    match r with
    | inr (j, len) => rep_match all data av j len /\ nfb <= len
    | inl (j, len) => len = 0 \/ rep_match all data av j len
    end.
Proof using Type.
  intros Hav HL Hall reps. induction reps as [|rep reps IH]; intros i j0 len0 Hi E H0; cbn [rep_search]; [by eexists|].
  assert (rd all i = Some rep) as Erep.
  { rewrite rd_lookup by lia. replace (Z.to_nat i) with (Z.to_nat i + 0)%nat by lia. by rewrite <-lookup_drop, <-E. }
  assert (reps = drop (Z.to_nat (i + 1)) all) as E'.
  { replace (Z.to_nat (i + 1)) with (Z.to_nat i + 1)%nat by lia. by rewrite <-drop_drop, <-E. }
  assert (1 <= rep <= data) as Hr by exact (rd_Forall _ _ _ _ Hall Erep).
  destruct (two_differ_ok data rep) as (b & -> & Hb); [lia|done|]. opt. destruct b; [apply IH; (done || lia)|].
  destruct (rep_len_ok data rep av) as (len & -> & Hlen & Hm); [by apply Hb|done|done|]. opt.
  assert (rep_match all data av i len) as Hmatch by (by exists rep).
  destruct (Z.leb_spec nfb len); [by eexists|]. destruct (len0 <? len); apply IH; auto; lia.
Qed.

Lemma rep_reaches_ok data rep limit :
  1 <= rep <= data -> data + limit <= L -> exists b, rep_reaches win data (data - rep) limit = Some b.
Proof using Type.
  intros Hr HL. unfold rep_reaches.
  destruct (loop_total (fun n => 2 <= n) (fun n => Z.to_nat (limit - n)) (fun _ : bool => True)
    (fun len => if limit <=? len then Some (inr true)
       else x ← rd win (data + len); y ← rd win (data - rep + len);
            Some (if negb (x =? y) then inr false else inl (len + 1)))) with (fuel := S (Z.to_nat limit)) (s := 2) as (b & -> & _); [|lia|lia|by exists b].
  intros n Hn. destruct (Z.leb_spec limit n); [done|]. destruct (rd_Some win (data + n)) as [x ->]; [lia|].
  destruct (rd_Some win (data - rep + n)) as [y ->]; [lia|]. opt. destruct (x =? y); cbn [negb]; [lia|done].
Qed.

Lemma near_rep_ok data limit reps :
  data + 2 <= L -> data + limit <= L -> Forall (fun rep => 1 <= rep <= data) reps -> exists b, near_rep win data limit reps = Some b.
Proof using Type.
  intros H2 HL. induction 1 as [|rep reps Hr Hall IH]; cbn [near_rep]; [by eexists|].
  destruct (two_differ_ok data rep) as (b & -> & _); [done|done|]. opt. destruct b; [done|].
  destruct (rep_reaches_ok data rep limit) as (r & ->); [done|done|]. opt. destruct r; [by eexists|done].
Qed.

(** ** The pair to take *)
Lemma main_pair_ok pos dists len :
  found pos dists len -> len < nfb ->
  exists len' dist, main_pair dists (Z.of_nat (length dists)) len = Some (len', dist) /\
    (len' < 2 \/ match_at win pos len' (dist + 1) /\ 0 <= dist < hist /\ 2 <= len' <= nfb).
Proof using Type.
  intros Hf Hlt. unfold main_pair. destruct Hf as [[-> ->]|(m & ds & dist & -> & Hm & Hd & Hat & Hml & _ & Elen)]; [exists 0, 0; split; [done|left; lia]|].
  specialize (Elen Hlt). subst m. destruct (Z.leb_spec 2 len); [|lia].
  destruct (last_pair ds len dist) as (_ & -> & En). opt. rewrite En.
  set (dists := ds ++ [len; dist]) in *.
  assert (exists ml md, loop (S (Z.to_nat (Z.of_nat (length ds) + 2)))
      (fun '(numPairs, mainLen, mainDist) =>
         if 2 <? numPairs then
           len2 ← rd dists (numPairs - 4);
           if negb (mainLen =? len2 + 1) then Some (inr (mainLen, mainDist))
           else
             dist2 ← rd dists (numPairs - 3);
             if negb (ChangePair dist2 mainDist) then Some (inr (mainLen, mainDist))
             else Some (inl (numPairs - 2, mainLen - 1, dist2))
         else Some (inr (mainLen, mainDist))) (Z.of_nat (length ds) + 2, len, dist) = Some (ml, md) /\
      match_at win pos ml (md + 1) /\ 0 <= md < hist /\ 2 <= ml <= nfb) as (ml & md & E & H1' & H2' & H3').
  { destruct (loop_total
      (fun '(np, ml, md) => exists ds rest, dists = ds ++ [ml; md] ++ rest /\ np = Z.of_nat (length ds) + 2 /\ matched pos ml (ds ++ [ml; md]))
      (fun '(np, ml, md) => Z.to_nat np)
      (fun '(ml, md) => match_at win pos ml (md + 1) /\ 0 <= md < hist /\ 2 <= ml <= nfb)
      (fun '(numPairs, mainLen, mainDist) =>
         if 2 <? numPairs then
           len2 ← rd dists (numPairs - 4);
           if negb (mainLen =? len2 + 1) then Some (inr (mainLen, mainDist))
           else
             dist2 ← rd dists (numPairs - 3);
             if negb (ChangePair dist2 mainDist) then Some (inr (mainLen, mainDist))
             else Some (inl (numPairs - 2, mainLen - 1, dist2))
         else Some (inr (mainLen, mainDist)))) with (fuel := S (Z.to_nat (Z.of_nat (length ds) + 2))) (s := (Z.of_nat (length ds) + 2, len, dist))
      as ([ml md] & E & Hq); [|by exists ds, []|lia|by exists ml, md].
    clearbody dists. clear ds En dist len Hm Hd Hat Hml Hlt H. intros [[np ml] md] (ds & rest & Ed & -> & Hm).
    destruct (matches_last pos ml _ Hm) as [[Hnil _]|(ds' & dist & m' & Eds & Hd & Hat & Hml & Hm')]; [by destruct ds|].
    apply app_inj_2 in Eds as [<- [= <-]]; [|done]. destruct (Z.ltb_spec 2 (Z.of_nat (length ds) + 2)); [|done].
    destruct (matches_last pos m' _ Hm') as [[-> _]|(ds2 & dist2 & m2 & -> & Hd2 & Hat2 & Hml2 & Hm2)]; [cbn in *; lia|].
    assert (Z.of_nat (length (ds2 ++ [m'; dist2])) = Z.of_nat (length ds2) + 2) as El by (rewrite length_app; cbn; lia).
    rewrite El. rewrite <-!app_assoc in Ed.
    assert (rd dists (Z.of_nat (length ds2) + 2 + 2 - 4) = Some m') as ->.
    { rewrite Ed, rd_app_r by lia. by replace (_ - _ - _) with 0 by lia. }
    assert (rd dists (Z.of_nat (length ds2) + 2 + 2 - 3) = Some dist2) as ->.
    { rewrite Ed, rd_app_r by lia. by replace (_ - _ - _) with 1 by lia. }
    opt. destruct (Z.eqb_spec ml (m' + 1)) as [->|]; cbn [negb]; [|done].
    destruct (ChangePair dist2 md); cbn [negb]; [|done]. replace (m' + 1 - 1) with m' by lia. split; [|lia].
    exists ds2, ([m' + 1; md] ++ rest). split; [done|]. split; [lia|done]. }
  rewrite E. opt. do 2 eexists. split; [done|]. destruct ((ml =? 2) && (0x80 <=? md)); [left; lia|by right].
Qed.

(** ** The choices are valid *)
Lemma match_repeats pos len r : match_at win pos len r -> repeats win pos r len = true /\ pos + len <= L.
Proof using Type. intros (Hr & Hl & Hi). split; [|done]. by apply repeats_iff. Qed.

Lemma valid_literal p pos : pos < L -> choice_valid p win d pos 1 MARK_LIT = true.
Proof using Type. intros Hp. unfold choice_valid. rewrite Z.eqb_refl. apply andb_true_iff. split; [apply Z.leb_le; lia|done]. Qed.

Lemma valid_match p pos len dist :
  fast_settings -> match_at win pos len (dist + 1) -> 0 <= dist < hist -> 2 <= len <= LZMA_MATCH_LEN_MAX ->
  choice_valid p win d pos len (u32 (dist + LZMA_NUM_REPS)) = true.
Proof using Type.
  intros Hs Hm Hd Hl. destruct (match_repeats _ _ _ Hm) as [Hr HL]. pose proof (fs_hist Hs) as Hh. pose proof (fs_dict Hs).
  change (15 <<< 28) with 4026531840 in Hh. unfold LZMA_MATCH_LEN_MAX, LZMA_NUM_REPS in *.
  rewrite wrap_small by (unfold in_width; lia). unfold choice_valid, MARK_LIT, dist_of.
  destruct (Z.eqb_spec (dist + 4) (2 ^ 32 - 1)); [lia|]. destruct (Z.ltb_spec (dist + 4) 4); [lia|].
  replace (dist + 4 - 3) with (dist + 1) by lia. rewrite Hr.
  rewrite !andb_true_iff, orb_true_iff, !andb_true_iff, !Z.leb_le, !Z.ltb_lt. lia.
Qed.

Definition reps_in (p : CLzmaEnc) (pos : Z) : Prop := reps_ok p pos /\ Forall (fun rep => rep <= d) (reps p).

Lemma valid_rep p pos av j len :
  reps_in p pos -> av <= LZMA_MATCH_LEN_MAX -> rep_match (reps p) pos av j len -> choice_valid p win d pos len j = true.
Proof using Type.
  intros [Hr Hd] Hav (rep & Ej & Hm & Hl). destruct (match_repeats _ _ _ Hm) as [Hrep HL]. unfold LZMA_MATCH_LEN_MAX in *.
  pose proof (rd_Forall _ _ _ _ Hd Ej) as Hrd. cbn beta in Hrd. pose proof (rd_range _ _ _ Ej) as Hj. unfold reps in Hj. cbn [length] in Hj.
  assert (dist_of p j = rep) as E.
  { unfold dist_of, rotate. destruct (Z.ltb_spec j 4); [|lia].
    assert (j = 0 \/ j = 1 \/ j = 2 \/ j = 3) as [->|[->|[->| ->]]] by lia; injection Ej as <-; done. }
  unfold choice_valid, MARK_LIT. rewrite E, Hrep. destruct (Z.eqb_spec j (2 ^ 32 - 1)); [lia|].
  rewrite !andb_true_iff, orb_true_iff, !andb_true_iff, !Z.leb_le, !Z.ltb_lt. lia.
Qed.

Lemma reps_in_after p pos len back :
  fast_settings -> reps_in p pos -> pos < L -> choice_valid p win d pos len back = true -> reps_in (enc_after p len back) (pos + len).
Proof using Type.
  intros Hs [Hr Hd] Hpos Hv. pose proof (fs_len Hs). split; [apply (enc_after_reps p win d); (done || lia)|].
  destruct (choice_valid_ok _ _ _ _ _ _ Hv) as (_ & _ & _ & Hb). unfold reps in *.
  rewrite !Forall_cons in Hd |- *. destruct Hd as (D0 & D1 & D2 & D3 & _).
  unfold enc_after. destruct (Z.eqb_spec back MARK_LIT) as [E|E]; [by cbn|]. destruct (Hb E) as (Hrange & _ & Hd & _).
  unfold dist_of in Hd. destruct (Z.ltb_spec back 4).
  - unfold rotate in *. destruct (len =? 1); [by cbn|]. destruct (back =? 0), (back =? 1), (back =? 2); by cbn.
  - cbn. split; [|by auto]. unfold MARK_LIT in Hrange. rewrite wrap_small by (unfold in_width; lia). lia.
Qed.

(** No byte is read ahead at the end. *)
Lemma look_end f pos : look_ok pos f -> pos = L -> additionalOffset f = 0.
Proof using Type.
  intros [Hm Hp Ho] E. destruct (mf_position _ _ _ _ Hm) as [Hr _]. destruct Ho as [?|[Ho _]]; [done|lia].
Qed.

(** ** GetOptimumFast *)
Lemma move_pos_ok num f :
  fast_settings -> mf_ok win nfb hist (mf f) -> 1 <= num -> mf_GetPointerToCurrentPos (mf f) + num <= L ->
  0 <= additionalOffset f <= mf_GetPointerToCurrentPos (mf f) ->
  exists f', move_pos num f = Some f' /\ mf_ok win nfb hist (mf f') /\
    mf_GetPointerToCurrentPos (mf f') = mf_GetPointerToCurrentPos (mf f) + num /\ additionalOffset f' = additionalOffset f + num.
Proof using Type.
  intros Hs Hm Hn HL Ho. unfold move_pos. destruct (mf_position _ _ _ _ Hm) as [Hp _]. pose proof (fs_len Hs).
  rewrite (wrap_small 32 num) by (unfold in_width; lia).
  destruct (mf_Skip_ok _ _ _ _ num Hm) as (m & -> & Hm' & E); [lia|]. opt. eexists. split; [done|]. split; [done|]. split; [done|].
  cbn. apply wrap_small. unfold in_width. lia.
Qed.

(** The state when [len] bytes from [pos] on have been chosen. *)
Definition chosen (pos len : Z) (f : lookahead M) : Prop :=
  mf_GetPointerToCurrentPos (mf f) - additionalOffset f = pos /\ 1 <= len /\ pos + len <= L /\ look_ok (pos + len) (take_offset len f).

(** All bytes read are used up. *)
Lemma chosen_all pos len f :
  fast_settings -> mf_ok win nfb hist (mf f) -> 0 <= pos -> 1 <= len -> mf_GetPointerToCurrentPos (mf f) = pos + len ->
  additionalOffset f = len -> chosen pos len f.
Proof using Type.
  intros Hs Hm Hp Hl E Ho. destruct (mf_position _ _ _ _ Hm) as [Hpos _]. split; [lia|]. split; [done|]. split; [lia|].
  assert (u32 (additionalOffset f - len) = 0) as E0 by (rewrite Ho, Z.sub_diag; done).
  constructor; cbn; rewrite ?E0; [done|lia|by left].
Qed.

Lemma begin_ok pos f :
  fast_settings -> look_ok pos f -> 0 <= pos < L ->
  exists len f', (if additionalOffset f =? 0 then ReadMatchDistances nfb win f else Some (longestMatchLen f, numPairs f, f)) =
      Some (len, Z.of_nat (length (matches f')), f') /\
    found pos (matches f') len /\ mf_ok win nfb hist (mf f') /\ mf_GetPointerToCurrentPos (mf f') = pos + 1 /\
    additionalOffset f' = 1 /\ numAvail f' = L - pos.
Proof using Type.
  intros Hs [Hm Hp Ho] Hpos. destruct Ho as [Ho|(Ho & Hf & Hn & Ha)]; rewrite Ho in Hp |- *.
  - destruct (ReadMatchDistances_ok f) as (len & f' & E & Hf & Hm' & Ep & Eo & En); [done|done|lia|lia|].
    rewrite Z.add_0_r in Hp. rewrite Hp in *. exists len, f'. change (0 =? 0) with true. cbv iota.
    split; [exact E|]. split; [done|]. split; [done|]. split; [done|]. split; [lia|done].
  - change (1 =? 0) with false. cbv iota. exists (longestMatchLen f), f. rewrite Hn. done.
Qed.

(** All ways on after the first search. *)
Lemma take_ok pos len back num p f :
  fast_settings -> mf_ok win nfb hist (mf f) -> 1 <= pos -> mf_GetPointerToCurrentPos (mf f) = pos + additionalOffset f ->
  0 <= additionalOffset f -> 1 <= num -> len = additionalOffset f + num -> pos + len <= L ->
  choice_valid p win d pos len back = true ->
  exists f', move_pos num f = Some f' /\ chosen pos len f'.
Proof using Type.
  intros Hs Hm Hpos Hp Ho Hn -> HL Hv. destruct (move_pos_ok num f) as (f' & -> & Hm' & E & Eo); [done|done|done|lia|lia|].
  exists f'. split; [done|]. apply chosen_all; (done || lia).
Qed.

Lemma chosen_one pos f :
  fast_settings -> mf_ok win nfb hist (mf f) -> 0 <= pos -> mf_GetPointerToCurrentPos (mf f) = pos + additionalOffset f ->
  additionalOffset f = 1 \/
    (additionalOffset f = 2 /\ found (pos + 1) (matches f) (longestMatchLen f) /\ numPairs f = Z.of_nat (length (matches f)) /\
     numAvail f = L - (pos + 1)) ->
  chosen pos 1 f.
Proof using Type.
  intros Hs Hm Hpos Hp Ho. destruct (mf_position _ _ _ _ Hm) as [Hr _]. split; [lia|]. split; [done|]. split; [lia|].
  assert (u32 (additionalOffset f - 1) = additionalOffset f - 1) as E by (apply wrap_small; unfold in_width; lia).
  constructor; cbn; [done|rewrite E; lia|]. rewrite E. destruct Ho as [->|(-> & Hf & Hn & Ha)]; [by left|by right].
Qed.

Lemma GetOptimumFast_ok p pos f :
  fast_settings -> look_ok pos f -> reps_in p pos -> 1 <= pos < L ->
  exists len back f', GetOptimumFast nfb win (reps p) f = Some (len, back, f') /\
    chosen pos len f' /\ choice_valid p win d pos len back = true.
Proof using Type.
  intros Hs Hf Hr Hpos. unfold GetOptimumFast. pose proof (fs_nfb Hs) as Hnfb. unfold LZMA_MATCH_LEN_MAX in Hnfb.
  destruct (begin_ok pos f) as (len & g & -> & Hg & Hm & Ep & Eo & Ea); [done|done|lia|]. opt. rewrite Ea.
  assert (chosen pos 1 g) as Hone by (apply chosen_one; (done || lia || by left)).
  destruct (Z.ltb_spec (L - pos) 2).
  { exists 1, MARK_LIT, g. split; [done|]. split; [done|]. apply valid_literal. lia. }
  unfold LZMA_MATCH_LEN_MAX. set (av := if 273 <? L - pos then 273 else L - pos). assert (2 <= av <= 273 /\ pos + av <= L) as Hav.
  { unfold av. destruct (Z.ltb_spec 273 (L - pos)); lia. }
  clearbody av. rewrite Ep. replace (pos + 1 - 1) with pos by lia.
  assert (Forall (fun rep => 1 <= rep <= pos) (reps p)) as Hall.
  { destruct Hr as [(R0 & R1 & R2 & R3) _]. unfold reps. repeat (apply Forall_cons_2; [done|]). apply Forall_nil_2. }
  destruct (rep_search_ok (reps p) pos av ltac:(lia) ltac:(lia) Hall (reps p) 0 0 0) as (r & -> & Hrep); [done|done|by left|]. opt.
  destruct r as [[j rl]|[j rl]].
  2:{ destruct Hrep as [Hj Hrl]. pose proof Hj as (rep & _ & (_ & HL & _) & Hlen).
      assert (choice_valid p win d pos rl j = true) as Hv by (apply (valid_rep p pos av); (done || unfold LZMA_MATCH_LEN_MAX; lia)).
      destruct (take_ok pos rl j (rl - 1) p g) as (g' & -> & Hc); [done|done|lia|lia|lia|lia|lia|lia|done|]. opt. by exists rl, j, g'. }
  destruct (Z.leb_spec nfb len) as [Hge|Hlt].
  { destruct Hg as [[_ ->]|(m & ds & dist & Ed & Hmd & Hd & Hat & Hlen & Hmax & _)]; [lia|]. pose proof Hat as (_ & HL & _).
    assert (choice_valid p win d pos len (u32 (dist + LZMA_NUM_REPS)) = true) as Hv by (apply valid_match; (done || lia)).
    destruct (last_pair ds m dist) as (_ & E2 & _). rewrite <-Ed in E2. rewrite E2. opt.
    destruct (take_ok pos len (u32 (dist + LZMA_NUM_REPS)) (len - 1) p g) as (g' & -> & Hc); [done|done|lia|lia|lia|lia|lia|lia|done|]. opt.
    by eexists len, _, g'. }
  destruct (main_pair_ok pos (matches g) len Hg Hlt) as (ml & md & -> & Hmain). opt.
  destruct (rep_wins rl ml md) eqn:Hw.
  { unfold rep_wins in Hw. apply andb_true_iff in Hw as [Hrl%Z.leb_le _]. destruct Hrep as [->|Hj]; [lia|].
    pose proof Hj as (rep & _ & (_ & HL & _) & Hlen).
    assert (choice_valid p win d pos rl j = true) as Hv by (apply (valid_rep p pos av); (done || unfold LZMA_MATCH_LEN_MAX; lia)).
    destruct (take_ok pos rl j (rl - 1) p g) as (g' & -> & Hc); [done|done|lia|lia|lia|lia|lia|lia|done|]. opt. by exists rl, j, g'. }
  destruct (Z.ltb_spec ml 2) as [|Hml2]; cbn [orb].
  { exists 1, MARK_LIT, g. split; [done|]. split; [done|]. apply valid_literal. lia. }
  destruct (Z.leb_spec av 2) as [|Hav2].
  { exists 1, MARK_LIT, g. split; [done|]. split; [done|]. apply valid_literal. lia. }
  destruct Hmain as [?|(Hat & Hd & Hml)]; [lia|]. pose proof Hat as (_ & HL & _).
  destruct (ReadMatchDistances_ok g) as (len1 & h & -> & Hh & Hmh & Eph & Eoh & Eah); [done|done|lia|lia|]. opt.
  rewrite Ep in Hh, Eph, Eah. set (h' := set_longest len1 (Z.of_nat (length (matches h))) h).
  assert (chosen pos 1 h') as Hone' by (apply chosen_one; [done|done|lia|cbn; lia|right; cbn; split; [lia|done]]).
  assert (exists b, next_wins (matches h') (Z.of_nat (length (matches h))) len1 ml md = Some b) as (b & Eb).
  { unfold next_wins. destruct (Z.leb_spec 2 len1); [|by eexists].
    destruct Hh as [[_ ->]|(m & ds & dist & Ed & _)]; [lia|]. destruct (last_pair ds m dist) as (_ & E2 & _). rewrite <-Ed in E2.
    change (matches h') with (matches h). rewrite E2. opt. by eexists. }
  rewrite Eb. opt. destruct b; [by exists 1, MARK_LIT, h'; split; [done|]; split; [done|]; apply valid_literal; lia|].
  change (mf h') with (mf h). rewrite Eph. replace (pos + 1 + 1 - 1) with (pos + 1) by lia.
  destruct (near_rep_ok (pos + 1) (ml - 1) (reps p)) as (b & ->); [lia|lia|by eapply Forall_impl; [exact Hall|]; intros; cbn beta in *; lia|].
  opt. destruct b; [by exists 1, MARK_LIT, h'; split; [done|]; split; [done|]; apply valid_literal; lia|].
  assert (choice_valid p win d pos ml (u32 (md + LZMA_NUM_REPS)) = true) as Hv
    by (apply valid_match; (done || unfold LZMA_MATCH_LEN_MAX; lia)).
  destruct (Z.eqb_spec ml 2) as [->|Hne]; cbn [negb].
  - eexists 2, _, h'. split; [done|]. split; [|done]. apply chosen_all; (done || (cbn; lia)).
  - destruct (take_ok pos ml (u32 (md + LZMA_NUM_REPS)) (ml - 2) p h') as (h2 & -> & Hc); [done|done|lia|cbn; lia|cbn; lia|lia|cbn; lia|lia|done|].
    opt. by eexists ml, _, h2.
Qed.
End Fast.
