(* ===== verification/LzmaOptPath.v ===== *)
(** * Normal mode: the paths in [opt]

    What the array [opt] of LzmaEncOpt.v stands for.  An entry is the last step of a way to
    code the bytes before it: one symbol, a literal and a repeat, or a match, a literal and a
    repeat.  The entries one after the other, back to the start, are a path ([chain]); the
    paths of all entries with a price are valid choices ([walk]), and the state and the
    distances of an entry that is settled are those of the encoder after its path.  Backward
    lays the path out symbol by symbol. *)

From stdpp Require Import base numbers list list_numbers.
From Stdlib Require Import ZArith Lia.
From S2P Require Import Prelude SzTypes RangeEnc LzmaEnc LzmaSymbols LzmaRun LzmaPrices LzmaPricesOk LzmaEncFast LzmaEncOpt.
Local Open Scope Z_scope.
Local Open Scope word_scope.

(** ** Symbols *)

(** A length and a distance as the encoder codes them. *)
Abbreviation syms := (list (Z * Z)).

Definition span (s : syms) : Z := foldr (fun '(len, _) n => len + n) 0 s.
Definition after (q : CLzmaEnc) (s : syms) : CLzmaEnc := foldl (fun q '(len, dist) => enc_after q len dist) q s.

Lemma span_app a b : span (a ++ b) = span a + span b.
Proof. unfold span. induction a as [|[len dist] a IH]; [done|]. cbn [app foldr]. rewrite IH. lia. Qed.

Lemma after_app q a b : after q (a ++ b) = after (after q a) b.
Proof. unfold after. by rewrite foldl_app. Qed.

(** The symbols of a step. *)
Definition steps (len dist extra : Z) : syms :=
  if extra =? 0 then [(len, dist)]
  else if extra =? 1 then [(1, MARK_LIT); (len, dist)]
  else [(extra - 1, dist); (1, MARK_LIT); (len, 0)].

Abbreviation steps_of e := (steps (o_len e) (o_dist e) (o_extra e)).

(** The steps the code makes. *)
Definition step_shape (len extra : Z) : Prop := 1 <= len /\ 0 <= extra < 2 ^ 16 /\ (extra = 0 \/ (2 <= len /\ extra <> 2)).

Lemma steps_span len dist extra : 0 <= extra -> span (steps len dist extra) = len + extra.
Proof.
  intros He. unfold steps, span. destruct (Z.eqb_spec extra 0) as [->|]; [cbn; lia|].
  destruct (Z.eqb_spec extra 1) as [->|]; cbn [foldr]; lia.
Qed.

(** ** Updates of one entry *)

Lemma update_ok i f o :
  0 <= i < Z.of_nat (length o) ->
  yields (update i f o) (fun o' => length o' = length o /\ (exists e, rd o i = Some e /\ rd o' i = Some (f e)) /\ forall j, j <> i -> rd o' j = rd o j).
Proof.
  intros Hi. unfold update. apply yields_bind, yields_rd; [done|]. intros e He. rewrite wrz_Some by done. cbn. rewrite length_insert.
  split; [done|]. split; [|intros j Hj; apply rd_insert_ne; lia]. exists e. split; [done|]. rewrite rd_lookup, list_lookup_insert_eq by lia. done.
Qed.

(** ** Chains *)

Definition same_step (e e' : COptimal) : Prop := o_len e' = o_len e /\ o_dist e' = o_dist e /\ o_extra e' = o_extra e.

Inductive chain (o : list COptimal) : Z -> syms -> Prop :=
  | chain_start : chain o 0 []
  | chain_step j e s :
      0 < j -> rd o j = Some e -> step_shape (o_len e) (o_extra e) -> chain o (j - o_len e - o_extra e) s -> chain o j (s ++ steps_of e).

Lemma chain_pos o j s : chain o j s -> 0 <= j.
Proof. destruct 1; lia. Qed.

(** There is one way back. *)
Lemma chain_unique o j s : chain o j s -> forall s', chain o j s' -> s' = s.
Proof.
  induction 1 as [|j e s Hj He Hs Hc IH]; intros s' H'; inversion H' as [|j' e' s1 Hj' He' Hs' Hc']; subst; try lia; try done.
  assert (e' = e) as -> by congruence. by rewrite (IH _ Hc').
Qed.

(** Only the steps up to [j] matter. *)
Lemma chain_same o o' j s :
  chain o j s -> (forall i e, 0 < i <= j -> rd o i = Some e -> exists e', rd o' i = Some e' /\ same_step e e') -> chain o' j s.
Proof.
  induction 1 as [|j e s Hj He Hs Hc IH]; intros Ho; [constructor|].
  destruct (Ho j e) as (e' & He' & E1 & E2 & E3); [lia|done|]. rewrite <-E1, <-E2, <-E3.
  destruct Hs as (H1 & H2 & H3). constructor; [done|done|by rewrite E1, E3|]. rewrite E1, E3. apply IH. intros i x Hi. apply Ho. lia.
Qed.

Lemma chain_agree o o' j s : chain o j s -> (forall i, i <= j -> rd o' i = rd o i) -> chain o' j s.
Proof. intros Hc Ho. apply (chain_same o); [done|]. intros i e Hi He. exists e. rewrite Ho by lia. done. Qed.

Section Path.
Variables (win : list Z) (d : Z).

(** Every symbol is a valid choice. *)
Fixpoint walk (q : CLzmaEnc) (pos : Z) (s : syms) : Prop :=
  match s with
  | [] => True
  | (len, dist) :: s => choice_valid q win d pos len dist = true /\ walk (enc_after q len dist) (pos + len) s
  end.

Lemma walk_app a b : forall q pos, walk q pos (a ++ b) <-> walk q pos a /\ walk (after q a) (pos + span a) b.
Proof using Type.
  induction a as [|[len dist] a IH]; intros q pos; cbn; [rewrite Z.add_0_r; tauto|]. rewrite IH. unfold span, after. cbn. rewrite Z.add_assoc. tauto.
Qed.

Lemma walk_end s : forall q pos, walk q pos s -> pos <= Z.of_nat (length win) -> 0 <= span s /\ pos + span s <= Z.of_nat (length win).
Proof using Type.
  induction s as [|[len dist] s IH]; intros q pos; cbn; [lia|]. intros [Hv Hw] Hp.
  destruct (choice_valid_ok _ _ _ _ _ _ Hv) as (_ & H1 & H2 & _). specialize (IH _ _ Hw H1). unfold span in *. lia.
Qed.

Context (p : CLzmaEnc) (pos0 : Z).

(** ** Entries *)

(** What a step costs at most, for every byte. *)
Abbreviation cost_max := 16384.

(** An entry with a price: its step comes from a settled place, at most [k]. *)
Definition entry (k : Z) (o : list COptimal) (j : Z) (e : COptimal) : Prop :=
  0 <= o_price e <= cost_max * j /\ step_shape (o_len e) (o_extra e) /\ 0 <= j - o_len e - o_extra e <= k /\
  exists s, chain o (j - o_len e - o_extra e) s /\ walk p pos0 (s ++ steps_of e) /\ span s = j - o_len e - o_extra e.

Definition reached (k : Z) (o : list COptimal) (j : Z) : Prop := exists e, rd o j = Some e /\ entry k o j e.

(** A place up to [k], with the state of the encoder there. *)
Definition settled (o : list COptimal) (j : Z) : Prop :=
  exists e s, rd o j = Some e /\ chain o j s /\ walk p pos0 s /\ span s = j /\
    o_reps e = reps (after p s) /\ o_state e = state (after p s) /\ (0 < j -> 0 <= o_price e <= cost_max * j).

Definition free (o : list COptimal) (j : Z) : Prop := exists e, rd o j = Some e /\ o_price e = kInfinityPrice.

Record opts (k last : Z) (o : list COptimal) : Prop := {
  op_length : length o = Z.to_nat kNumOpts; op_range : 0 <= k <= last /\ last < kNumOpts;
  op_done : forall j, 0 <= j <= k -> settled o j;
  op_ahead : forall j, k < j <= last -> free o j \/ reached k o j;
  op_beyond : forall j, last < j < kNumOpts -> free o j
}.

Lemma entry_agree k o o' j e : entry k o j e -> (forall i, i <= k -> rd o' i = rd o i) -> entry k o' j e.
Proof using Type.
  intros (H1 & H2 & H3 & s & Hc & Hw) Ho. split; [done|]. split; [done|]. split; [done|]. exists s. split; [|done].
  apply (chain_agree o); [done|]. intros i Hi. apply Ho. lia.
Qed.

Lemma entry_mono k k' o j e : entry k o j e -> k <= k' -> entry k' o j e.
Proof using Type. intros (H1 & H2 & H3 & H4) Hk. split; [done|]. split; [done|]. split; [lia|done]. Qed.

Lemma settled_agree o o' j : settled o j -> (forall i, i <= j -> rd o' i = rd o i) -> settled o' j.
Proof using Type.
  intros (e & s & He & Hc & H) Ho. exists e, s. rewrite Ho by lia. split; [done|]. split; [by apply (chain_agree o)|done].
Qed.

Lemma opts_grow k last last' o : opts k last o -> last <= last' < kNumOpts -> opts k last' o.
Proof using Type.
  intros [H1 H2 H3 H4 H5] Hl. constructor; [done|lia|done| |intros j Hj; apply H5; lia].
  intros j Hj. destruct (Z.lt_ge_cases last j); [left; apply H5; lia|apply H4; lia].
Qed.

(** What a function that changes entries after [k] leaves. *)
Definition extended (k : Z) (o o' : list COptimal) : Prop :=
  (forall j, j <= k -> rd o' j = rd o j) /\ (forall j, reached k o j -> reached k o' j).

Lemma extended_refl k o : extended k o o.
Proof using Type. done. Qed.

Lemma extended_trans k o1 o2 o3 : extended k o1 o2 -> extended k o2 o3 -> extended k o1 o3.
Proof using Type. intros [A1 A2] [B1 B2]. split; [intros j Hj; rewrite B1, A1 by done; done|auto]. Qed.

(** A cheaper step from [k] to [i]. *)
Lemma relax_ok k last o s i price len dist extra :
  opts k last o -> chain o k s -> walk p pos0 s -> span s = k -> k < i <= last -> i = k + len + extra -> step_shape len extra ->
  walk (after p s) (pos0 + k) (steps len dist extra) -> 0 <= price <= cost_max * i ->
  yields (relax i price len dist extra o) (fun o' => opts k last o' /\ extended k o o' /\ reached k o' i).
Proof using Type.
  intros Ho Hc Hw Hspan Hi Ei Hshape Hstep Hprice. pose proof Ho as [Hlen Hrange Hdone Hahead Hbeyond]. unfold relax.
  assert (Z.of_nat (length o) = kNumOpts) as HL by (rewrite Hlen; done). apply yields_bind, yields_rd; [lia|]. intros c Ec.
  destruct (Z.ltb_spec price (o_price c)) as [Hlt|Hge].
  2:{ cbn. split; [done|]. split; [apply extended_refl|]. destruct (Hahead i Hi) as [(e & He & Einf)|Hr]; [|done].
      assert (e = c) as -> by congruence. change kInfinityPrice with 1073741824 in Einf. change kNumOpts with 2048 in *. lia. }
  rewrite wrz_Some by lia. cbn [yields]. set (e := set_step price len dist extra c). set (o' := <[Z.to_nat i := e]> o).
  assert (forall j, j <> i -> rd o' j = rd o j) as Hne by (intros j Hj; apply rd_insert_ne; lia).
  assert (rd o' i = Some e) as Hie by (unfold o'; rewrite rd_lookup, list_lookup_insert_eq by lia; done).
  assert (forall j, j <= k -> rd o' j = rd o j) as Hle by (intros j Hj; apply Hne; lia).
  assert (entry k o' i e) as Hentry.
  { destruct Hshape as (S1 & S2 & S3). assert (o_extra e = extra) as Ee by (cbn; apply wrap_small; exact S2). unfold entry. rewrite Ee. cbn [o_len o_price o_dist e set_step].
    replace (i - len - extra) with k by lia. split; [done|]. split; [done|]. split; [lia|]. exists s.
    split; [by apply (chain_agree o)|]. split; [|done]. apply walk_app. rewrite Hspan. done. }
  assert (forall j, reached k o j -> reached k o' j) as Hreach.
  { intros j (x & Hx & Hex). destruct (Z.eq_dec j i) as [->|]; [by exists e|]. exists x. rewrite Hne by done. split; [done|]. by apply (entry_agree k o). }
  split; [|by split; [|exists e]].
  constructor; [unfold o'; by rewrite length_insert|done| | |].
  - intros j Hj. apply (settled_agree o); [by apply Hdone|]. intros x Hx. apply Hle. lia.
  - intros j Hj. destruct (Z.eq_dec j i) as [->|]; [right; by exists e|].
    destruct (Hahead j Hj) as [(x & Hx & E)|Hr]; [left; exists x; by rewrite Hne|right; by apply Hreach].
  - intros j Hj. destruct (Hbeyond j Hj) as (x & Hx & E). exists x. rewrite Hne by lia. done.
Qed.

(** ** States *)

Lemma after_wf s : forall q, enc_wf q -> enc_wf (after q s).
Proof using Type. induction s as [|[len dist] s IH]; intros q Hq; [done|]. cbn. by apply IH, enc_after_wf. Qed.

Lemma lit_next_range s : 0 <= s < 12 -> 0 <= lit_next s < 7.
Proof using Type. intros Hs. unfold lit_next. destruct (Z.ltb_spec s 4), (Z.ltb_spec s 10); lia. Qed.

Lemma after_literal q : state (enc_after q 1 MARK_LIT) = lit_next (state q) /\ reps (enc_after q 1 MARK_LIT) = reps q.
Proof using Type. unfold enc_after. by rewrite Z.eqb_refl. Qed.

Lemma after_short q : state (enc_after q 1 0) = next_of 9 11 (state q) /\ reps (enc_after q 1 0) = reps q.
Proof using Type. done. Qed.

Lemma after_rep0 q len : reps (enc_after q len 0) = reps q.
Proof using Type. unfold enc_after. change (0 =? MARK_LIT) with false. change (0 <? 4) with true. cbv iota. by destruct (len =? 1). Qed.

Lemma after_other q len dist :
  0 <= dist < MARK_LIT -> len <> 1 ->
  state (enc_after q len dist) = (if dist <? 4 then next_of 8 11 (state q) else next_of 7 10 (state q)).
Proof using Type.
  intros Hd Hl. unfold enc_after. destruct (Z.eqb_spec dist MARK_LIT); [lia|]. destruct (dist <? 4); [|done].
  by destruct (Z.eqb_spec len 1).
Qed.

Lemma next_reps_ok q len dist :
  0 <= dist < MARK_LIT -> len <> 1 \/ dist = 0 -> next_reps (reps q) dist = Some (reps (enc_after q len dist)).
Proof using Type.
  intros Hd Hl. unfold next_reps, enc_after. change LZMA_NUM_REPS with 4. destruct (Z.eqb_spec dist MARK_LIT); [lia|].
  destruct (Z.ltb_spec dist 4); [|done].
  assert (dist = 0 \/ dist = 1 \/ dist = 2 \/ dist = 3) as [->|[->|[->| ->]]] by lia; destruct (Z.eqb_spec len 1); done || lia.
Qed.

(** Lengths and distances of a valid choice. *)
Lemma valid_cases q pos len dist :
  choice_valid q win d pos len dist = true -> (dist = MARK_LIT /\ len = 1) \/ (dist = 0 /\ len = 1) \/ (0 <= dist < MARK_LIT /\ 2 <= len <= 273).
Proof using Type.
  intros Hv. unfold choice_valid in Hv. apply andb_true_iff in Hv as [_ Hv]. destruct (Z.eqb_spec dist MARK_LIT).
  - apply Z.eqb_eq in Hv. auto.
  - rewrite !andb_true_iff, orb_true_iff, !andb_true_iff, !Z.leb_le, Z.ltb_lt, !Z.eqb_eq in Hv. lia.
Qed.

(** ** The next place *)

(** The state and distances that the code computes for a step from a settled place. *)
Lemma step_state q pos len dist extra (prev_reps : list Z) :
  enc_wf q -> step_shape len extra -> walk q pos (steps len dist extra) ->
  yields (if len =? 1 then
            state ← (if dist =? 0 then rd kShortRepNextStates (state q) else rd kLiteralNextStates (state q)); Some (state, reps q)
          else
            st ← (if negb (extra =? 0) then
                    Some (if extra =? 1 then (if dist <? LZMA_NUM_REPS then kState_RepAfterLit else kState_MatchAfterLit) else kState_RepAfterLit)
                  else if dist <? LZMA_NUM_REPS then rd kRepNextStates (state q) else rd kMatchNextStates (state q));
            r ← next_reps (reps q) dist; Some (st, r))
    (fun '(st, r) => st = state (after q (steps len dist extra)) /\ r = reps (after q (steps len dist extra))).
Proof using Type.
  intros Hq (S1 & S2 & S3) Hw. destruct (next_states (state q) (ew_state _ Hq)) as (N1 & N2 & N3 & N4). change LZMA_NUM_REPS with 4.
  pose proof (lit_next_range _ (ew_state _ Hq)) as Hlit. destruct (after_literal q) as [A1 A2].
  unfold steps in *. destruct (Z.eqb_spec extra 0) as [->|He]; cbn [walk negb] in *.
  - destruct Hw as [Hv _]. destruct (valid_cases _ _ _ _ Hv) as [[-> ->]|[[-> ->]|[Hd Hl]]].
    + change (1 =? 1) with true. change (MARK_LIT =? 0) with false. cbv iota. rewrite N1. cbn. by rewrite A1, A2.
    + change (1 =? 1) with true. change (0 =? 0) with true. cbv iota. rewrite N4. done.
    + destruct (Z.eqb_spec len 1); [lia|]. rewrite N3, N2, (next_reps_ok q len) by lia. cbn [after foldl]. rewrite after_other by lia.
      destruct (dist <? 4); done.
  - destruct (Z.eqb_spec len 1); [lia|]. destruct (Z.eqb_spec extra 1) as [->|He1].
    + cbn [walk] in Hw. destruct Hw as (_ & Hv & _). destruct (valid_cases _ _ _ _ Hv) as [[-> ->]|[[-> ->]|[Hd Hl]]]; [lia|lia|].
      opt. cbn [after foldl]. rewrite <-A2, (next_reps_ok _ len) by lia. cbn. split; [|done]. rewrite after_other, A1 by lia.
      unfold next_of. destruct (Z.ltb_spec (lit_next (state q)) 7); [done|lia].
    + cbn [walk] in Hw. destruct Hw as (Hv & _ & Hv2 & _). destruct (valid_cases _ _ _ _ Hv) as [[-> E]|Hd]; [lia|].
      opt. cbn [after foldl]. set (q1 := enc_after q (extra - 1) dist) in *. destruct (after_literal q1) as [B1 B2].
      assert (next_reps (reps q) dist = Some (reps q1)) as -> by (apply next_reps_ok; unfold MARK_LIT in *; lia). cbn.
      pose proof (lit_next_range _ (ew_state _ (enc_after_wf q (extra - 1) dist Hq))) as Hl1. fold q1 in Hl1. split.
      * rewrite after_other, B1 by (unfold MARK_LIT; lia). change (0 <? 4) with true. cbv iota. unfold next_of.
        destruct (Z.ltb_spec (lit_next (state q1)) 7); [done|lia].
      * by rewrite after_rep0, B2.
Qed.

(** The state of [k + 1]: its entry becomes settled. *)
Lemma settle_ok k last o s :
  enc_wf p -> opts k last o -> k + 1 <= last -> chain o k s -> walk p pos0 s -> span s = k -> reached k o (k + 1) ->
  yields (settle (k + 1) (reps (after p s)) o) (fun '(st, r, o') => exists s',
    chain o' (k + 1) s' /\ walk p pos0 s' /\ span s' = k + 1 /\ st = state (after p s') /\ r = reps (after p s') /\ opts (k + 1) last o').
Proof using Type.
  intros Hp Ho Hlast Hc Hw Hspan (e & He & Hprice & Hshape & Hprev & s0 & Hc0 & Hw0 & Hs0).
  pose proof Ho as [Hlen Hrange Hdone Hahead Hbeyond]. assert (Z.of_nat (length o) = kNumOpts) as HL by (rewrite Hlen; done).
  set (prev := k + 1 - o_len e - o_extra e) in *.
  destruct (Hdone prev Hprev) as (ep & sp & Hep & Hcp & Hwp & Hsp & Er & Es & _). rewrite (chain_unique _ _ _ Hc0 _ Hcp) in Er, Es. clear sp Hcp Hwp Hsp.
  pose proof Hw0 as Hstep. apply walk_app in Hstep as [Hwalk0 Hstep].
  pose proof (step_state (after p s0) _ _ _ _ [] (after_wf s0 p Hp) Hshape Hstep) as Hst. rewrite <-Es in Hst.
  assert (0 <= u16 (state (after p (s0 ++ steps_of e))) /\ u16 (state (after p (s0 ++ steps_of e))) = state (after p (s0 ++ steps_of e))) as [_ Hu].
  { pose proof (ew_state _ (after_wf (s0 ++ steps_of e) p Hp)). split; [apply (wrap_in_width 16); lia|apply wrap_small; unfold in_width; lia]. }
  pose proof Hshape as (S1 & S2 & S3). unfold settle. rewrite He. opt. cbv zeta.
  apply (yields_then (fun '(st, r) => st = state (after p (s0 ++ steps_of e)) /\ r = reps (after p (s0 ++ steps_of e)))).
  { rewrite after_app. destruct (Z.eqb_spec (o_len e) 1) as [E1|E1].
    - assert (o_extra e = 0) as E0 by lia. assert (k + 1 - o_len e = prev) as -> by lia. rewrite Hep. opt.
      assert (prev = k) as Ek by lia. rewrite Ek in Hc0. rewrite (chain_unique _ _ _ Hc _ Hc0) in Hst. rewrite (chain_unique _ _ _ Hc _ Hc0). exact Hst.
    - rewrite <-Er in Hst. destruct (Z.eqb_spec (o_extra e) 0) as [E0|E0]; cbn [negb] in *.
      + assert (k + 1 - o_len e = prev) as -> by lia. rewrite Hep. opt.
        destruct (if o_dist e <? LZMA_NUM_REPS then rd kRepNextStates (o_state ep) else rd kMatchNextStates (o_state ep)) as [st|]; [|done]. opt. rewrite Hep. exact Hst.
      + assert (k + 1 - o_len e - o_extra e = prev) as Eprev by done. opt. rewrite Eprev, Hep. exact Hst. }
  intros [st r] [-> ->]. eapply yields_then; [apply update_ok; lia|intros o' (L' & (e' & He' & Hset) & Hne)]. assert (e' = e) as -> by congruence. cbn [yields].
  assert (forall j x, rd o j = Some x -> exists x', rd o' j = Some x' /\ same_step x x') as Hsame.
  { intros j x Hx. destruct (Z.eq_dec j (k + 1)) as [->|]; [|exists x; by rewrite Hne].
    exists (set_place (state (after p (s0 ++ steps_of e))) (reps (after p (s0 ++ steps_of e))) e). split; [done|]. by assert (x = e) as -> by congruence. }
  assert (forall j t, chain o j t -> chain o' j t) as Hchain by (intros j t Ht; apply (chain_same o); [done|]; intros i x _; apply Hsame).
  assert (chain o (k + 1) (s0 ++ steps_of e)) as Hck by (constructor; [lia|done|done|exact Hc0]).
  assert (span (s0 ++ steps_of e) = k + 1) as Hsk by (rewrite span_app, steps_span by lia; lia).
  exists (s0 ++ steps_of e). split; [by apply Hchain|]. split; [done|]. split; [done|]. split; [done|]. split; [done|].
  constructor; [congruence|lia| | |].
  - intros j Hj. destruct (Z.eq_dec j (k + 1)) as [->|].
    + eexists _, (s0 ++ steps_of e). split; [exact Hset|]. split; [by apply Hchain|]. split; [done|]. split; [done|]. cbn. rewrite Hu. split; [done|]. split; [done|]. intros _. exact Hprice.
    + apply (settled_agree o); [apply Hdone; lia|]. intros i Hi. apply Hne. lia.
  - intros j Hj. destruct (Hahead j) as [(x & Hx & E)|(x & Hx & Hex)]; [lia|left; exists x; rewrite Hne by lia; done|right].
    exists x. rewrite Hne by lia. split; [done|]. destruct Hex as (X1 & X2 & X3 & t & X4 & X5). split; [done|]. split; [done|]. split; [lia|]. exists t. split; [by apply Hchain|done].
  - intros j Hj. destruct (Hbeyond j) as (x & Hx & E); [lia|]. exists x. rewrite Hne by lia. done.
Qed.

(** ** The end *)

(** Any reached place has a path. *)
Lemma reached_path k o j : reached k o j -> exists s, chain o j s /\ walk p pos0 s /\ span s = j /\ 0 < j.
Proof using Type.
  intros (e & He & _ & Hs & Hprev & s & Hc & Hw & Hspan). pose proof Hs as (S1 & S2 & S3). exists (s ++ steps_of e).
  split; [by constructor; [lia|..]|]. split; [done|]. rewrite span_app, steps_span by lia. lia.
Qed.

Lemma reset_prices_ok last o :
  1 <= last < Z.of_nat (length o) ->
  yields (reset_prices last o) (fun o' => length o' = length o /\
    (forall j e, rd o j = Some e -> exists e', rd o' j = Some e' /\ same_step e e') /\
    (forall j, 1 <= j <= last -> free o' j) /\ (forall j, last < j -> rd o' j = rd o j)).
Proof using Type.
  intros Hl. unfold reset_prices. set (Post := fun (i : Z) (o' : list COptimal) => length o' = length o /\
    (forall j e, rd o j = Some e -> exists e', rd o' j = Some e' /\ same_step e e') /\
    (forall j, i < j <= last -> free o' j) /\ (forall j, last < j -> rd o' j = rd o j)).
  eapply yields_then; [apply (yields_do_while (fun '(i, o') => 1 <= i <= last /\ Post i o') (fun '(i, _) => Z.to_nat i) (fun '(_, o') => Post 0 o'))|].
  - intros [i o'] [Hi (L & Hst & Hf & Hb)]. eapply yields_then; [apply update_ok; lia|intros o2 (L2 & (x & Hx & Hx2) & Hne)]. cbn [yields].
    assert (Post (i - 1) o2) as HP.
    { split; [congruence|]. split; [|split].
      - intros j e He. destruct (Hst j e He) as (e' & He' & E). destruct (Z.eq_dec j i) as [->|]; [|exists e'; by rewrite Hne].
        assert (e' = x) as -> by congruence. exists (set_price kInfinityPrice x). split; [done|exact E].
      - intros j Hj. destruct (Z.eq_dec j i) as [->|]; [by eexists|]. destruct (Hf j) as (e & He & E); [lia|]. exists e. rewrite Hne by done. done.
      - intros j Hj. rewrite Hne by lia. by apply Hb. }
    destruct (Z.eqb_spec (i - 1) 0) as [E|E]; cbn [negb]; [by rewrite E in HP|]. split; [|lia]. split; [lia|done].
  - split; [lia|]. split; [done|]. split; [intros j e He; by exists e|]. split; [intros; lia|done].
  - lia.
  - intros [i o'] (L & Hst & Hf & Hb). cbn. split; [done|]. split; [done|]. split; [|done]. intros j Hj. apply Hf. lia.
Qed.
End Path.

(** ** The way back *)

(** The symbols [l] from [w] on. *)
Definition stored (o : list COptimal) (w : Z) (l : syms) : Prop :=
  forall i len dist, l !! i = Some (len, dist) -> exists e, rd o (w + Z.of_nat i) = Some e /\ o_len e = len /\ o_dist e = dist.

Definition prices_kept (o o' : list COptimal) : Prop :=
  length o' = length o /\ forall j e, rd o j = Some e -> exists e', rd o' j = Some e' /\ o_price e' = o_price e.

(** The length and distance at [w]. *)
Definition placed (w len dist : Z) (o o' : list COptimal) : Prop :=
  prices_kept o o' /\ (exists e, rd o' w = Some e /\ o_len e = len /\ o_dist e = dist) /\ forall j, j <> w -> rd o' j = rd o j.

Lemma prices_kept_refl o : prices_kept o o.
Proof. split; [done|]. intros j e He. by exists e. Qed.

Lemma prices_kept_trans o1 o2 o3 : prices_kept o1 o2 -> prices_kept o2 o3 -> prices_kept o1 o3.
Proof.
  intros [L1 K1] [L2 K2]. split; [congruence|]. intros j e He. destruct (K1 j e He) as (e2 & H2 & E2). destruct (K2 j e2 H2) as (e3 & H3 & E3).
  exists e3. split; [done|congruence].
Qed.

Lemma update_placed w f o :
  0 <= w < Z.of_nat (length o) -> (forall e, o_price (f e) = o_price e) ->
  yields (update w f o) (fun o' => prices_kept o o' /\ (exists e, rd o w = Some e /\ rd o' w = Some (f e)) /\ forall j, j <> w -> rd o' j = rd o j).
Proof.
  intros Hw Hf. eapply yields_mono; [by apply update_ok|]. intros o' (L & (e & He & He') & Hne). split; [|split; [by exists e|done]].
  split; [done|]. intros j x Hx. destruct (Z.eq_dec j w) as [->|]; [|exists x; by rewrite Hne].
  exists (f e). split; [done|]. assert (x = e) as -> by congruence. apply Hf.
Qed.

Lemma put_back_ok w len dist o : 0 <= w < Z.of_nat (length o) -> yields (update w (set_back len dist) o) (placed w len dist o).
Proof.
  intros Hw. eapply yields_mono; [by apply update_placed|]. intros o' (K & (e & _ & He) & Hne). split; [done|]. split; [|done].
  eexists. split; [exact He|done].
Qed.

(** The length first, the distance later. *)
Lemma put_len_dist w len dist o {R} (K : list COptimal -> option R) (Q : R -> Prop) :
  0 <= w < Z.of_nat (length o) -> (forall o', placed w len dist o o' -> yields (K o') Q) ->
  yields (o ← update w (fun c => set_back len (o_dist c) c) o; o ← update w (fun c => set_back (o_len c) dist c) o; K o) Q.
Proof.
  intros Hw HK. eapply yields_then; [by apply update_placed|intros o1 (K1 & (e1 & _ & He1) & N1)]. pose proof (proj1 K1) as L1.
  eapply yields_then; [apply update_placed; [lia|done]|intros o2 (K2 & (e2 & He2 & He2') & N2)]. apply HK.
  split; [by apply (prices_kept_trans _ o1)|]. split; [|intros j Hj; by rewrite N2, N1].
  eexists. split; [exact He2'|]. assert (e2 = set_back len (o_dist e1) e1) as -> by congruence. done.
Qed.

Lemma stored_cons o o' w len dist l : placed w len dist o o' -> stored o (w + 1) l -> stored o' w ((len, dist) :: l).
Proof.
  intros (_ & (e & He & E1 & E2) & Hne) Hl [|i] len' dist'; cbn [lookup list_lookup].
  - intros [= <- <-]. exists e. by rewrite Z.add_0_r.
  - intros Hi. destruct (Hl i len' dist' Hi) as (x & Hx & E). exists x. rewrite Hne by lia. split; [|done].
    by replace (w + Z.of_nat (S i)) with (w + 1 + Z.of_nat i) by lia.
Qed.

Lemma steps_length len dist extra : step_shape len extra -> 1 <= Z.of_nat (length (steps len dist extra)) <= len + extra.
Proof. intros (S1 & S2 & S3). unfold steps. destruct (Z.eqb_spec extra 0), (Z.eqb_spec extra 1); cbn [length]; lia. Qed.

(** The state of the loop at [c]: the symbols after it are stored from [wr] on. *)
Record going_back (cur : Z) (o : list COptimal) (s : syms) (c wr : Z) (o' : list COptimal) : Prop := {
  gb_split : exists s1 s2, s = s1 ++ s2 /\ chain o c s1 /\ stored o' wr s2 /\ wr + Z.of_nat (length s2) = cur + 1;
  gb_range : 0 < c < wr /\ wr <= cur + 1; gb_kept : prices_kept o o'; gb_before : forall j, j <= c -> rd o' j = rd o j
}.

Lemma Backward_turn_ok cur o s c wr o' :
  cur + 1 <= Z.of_nat (length o) -> going_back cur o s c wr o' ->
  yields (Backward_turn (c, wr, o')) (fun r => match r with
    | inl (c', wr', o2) => going_back cur o s c' wr' o2 /\ c' < c
    | inr (len, dist, wr', o2) => exists rest, s = (len, dist) :: rest /\ stored o2 wr' rest /\ 1 <= wr' /\
        wr' + Z.of_nat (length rest) = cur + 1 /\ prices_kept o o2
    end).
Proof.
  intros Hcur [(s1 & s2 & -> & Hc & Hst & Hlen) Hr Hk Hb].
  inversion Hc as [|j e s0 Hj He Hs Hc0]; subst; [lia|]. pose proof (chain_pos _ _ _ Hc0) as Hpos.
  pose proof (steps_length (o_len e) (o_dist e) (o_extra e) Hs) as Hsl. pose proof Hs as (S1 & S2 & S3). pose proof (proj1 Hk) as L.
  unfold Backward_turn. rewrite Hb, He by lia. opt. cbv zeta.
  (* the symbols of this step but the first are stored *)
  set (Mid := fun '(c1, wr1, len, dist, o1) => c1 = c - o_len e - o_extra e /\ exists tl, steps_of e = (len, dist) :: tl /\
    stored o1 wr1 (tl ++ s2) /\ wr1 + Z.of_nat (length (tl ++ s2)) = cur + 1 /\ prices_kept o o1 /\ (forall j, j <= c1 -> rd o1 j = rd o j)).
  apply (yields_then Mid).
  - unfold Mid. destruct (Z.eqb_spec (o_extra e) 0) as [E0|E0]; cbn [negb].
    { cbn. split; [lia|]. exists []. unfold steps. rewrite E0. split; [done|]. split; [done|]. split; [done|]. split; [done|]. intros i Hi. apply Hb. lia. }
    destruct (Z.eqb_spec (o_extra e) 1) as [E1|E1].
    + apply (put_len_dist (wr - 1) (o_len e) (o_dist e)); [lia|]. intros o1 P1. pose proof P1 as (K1 & _ & N1). cbn [yields].
      split; [lia|]. exists [(o_len e, o_dist e)]. unfold steps. rewrite E1. split; [done|].
      split; [apply (stored_cons o'); [done|by replace (wr - 1 + 1) with wr by lia]|]. split; [cbn; lia|].
      split; [by apply (prices_kept_trans _ o')|]. intros i Hi. rewrite N1, Hb by lia. done.
    + apply (put_len_dist (wr - 1) (o_len e) 0); [lia|]. intros o1 P1. pose proof P1 as (K1 & _ & N1). pose proof (proj1 K1) as L1.
      eapply yields_then; [apply put_back_ok; lia|]. intros o2 P2. pose proof P2 as (K2 & _ & N2). cbn [yields].
      split; [lia|]. exists [(1, MARK_LIT); (o_len e, 0)]. unfold steps.
      rewrite (proj2 (Z.eqb_neq _ _) E0), (proj2 (Z.eqb_neq _ _) E1). split; [done|].
      split; [apply (stored_cons o1); [done|]; replace (wr - 1 - 1 + 1) with (wr - 1) by lia; apply (stored_cons o'); [done|by replace (wr - 1 + 1) with wr by lia]|].
      split; [cbn; lia|]. split; [by apply (prices_kept_trans _ o1); [apply (prices_kept_trans _ o')|]|].
      intros i Hi. rewrite N2, N1, Hb by lia. done.
  - intros [[[[c1 wr1] len] dist] o1] (-> & tl & Etl & Hst1 & Hl1 & K1 & B1).
    assert (length (steps_of e) = S (length tl)) as EL by (by rewrite Etl). rewrite length_app in Hl1.
    destruct (Z.eqb_spec (c - o_len e - o_extra e) 0) as [E0|E0].
    + cbn [yields]. inversion Hc0; subst; [|lia]. exists (tl ++ s2). rewrite Etl. split; [done|]. split; [done|]. split; [lia|]. by rewrite length_app.
    + pose proof (proj1 K1). eapply yields_then; [apply (put_back_ok (wr1 - 1) len dist); lia|]. intros o2 P2. pose proof P2 as (K2 & _ & N2). cbn [yields].
      split; [|lia]. constructor.
      * exists s0, (steps_of e ++ s2). rewrite app_assoc. split; [done|]. split; [done|]. rewrite Etl. cbn [app length]. rewrite length_app.
        split; [apply (stored_cons o1); [done|by replace (wr1 - 1 + 1) with wr1 by lia]|lia].
      * lia.
      * by apply (prices_kept_trans _ o1).
      * intros i Hi. rewrite N2, B1 by lia. done.
Qed.

(** Backward lays out the path of [cur]. *)
Lemma Backward_ok cur o s :
  chain o cur s -> 0 < cur -> cur + 1 <= Z.of_nat (length o) ->
  yields (Backward cur o) (fun '(len, dist, wr, wend, o') => exists rest, s = (len, dist) :: rest /\ stored o' wr rest /\
    1 <= wr /\ wr + Z.of_nat (length rest) = wend /\ wend <= Z.of_nat (length o') /\ prices_kept o o').
Proof.
  intros Hc Hpos Hlen. unfold Backward.
  eapply yields_then; [apply (yields_loop (fun '(c, wr, o') => going_back cur o s c wr o') (fun '(c, _, _) => Z.to_nat c)
    (fun '(len, dist, wr', o2) => exists rest, s = (len, dist) :: rest /\ stored o2 wr' rest /\ 1 <= wr' /\
        wr' + Z.of_nat (length rest) = cur + 1 /\ prices_kept o o2))|].
  - intros [[c wr] o'] Hg. pose proof (gb_range _ _ _ _ _ _ Hg). eapply yields_mono; [by apply (Backward_turn_ok cur o s)|].
    intros [[[c' wr'] o2]|[[[len dist] wr'] o2]]; [|done]. intros [Hg' Hlt]. split; [done|]. lia.
  - constructor; [|lia|apply prices_kept_refl|done]. exists s, []. rewrite app_nil_r. split; [done|]. split; [done|]. split; [intros i len dist; by rewrite lookup_nil|cbn; lia].
  - lia.
  - intros [[[len dist] wr] o'] (rest & E & H1 & H2 & H3 & H4). cbn. exists rest. split; [done|]. split; [done|]. split; [done|]. split; [done|].
    split; [rewrite (proj1 H4); lia|done].
Qed.
