(* ===== verification/LzmaOptPrices.v ===== *)
(** * Normal mode: what the steps cost

    The prices that GetOptimum (LzmaEncOpt.v) adds up are there for every state, length and
    distance it asks for, and small: the cheapest way to any of the 2048 places of [opt]
    stays below kInfinityPrice. *)

From stdpp Require Import base numbers list list_numbers.
From Stdlib Require Import ZArith Lia.
From S2P Require Import Prelude SzTypes LzmaParse RangeEnc LzmaEnc RangeCoder LzmaCodec LzmaDist LzmaSymbols LzmaRun LzmaPrices LzmaPricesOk LzmaEncOpt.
Local Open Scope Z_scope.
Local Open Scope word_scope.

(** The tables fit the encoder and the distances below [hist]. *)
Record priced (nfb hist : Z) (p : CLzmaEnc) (t : price_tables) : Prop := {
  pd_wf : enc_wf p;
  pd_probs : forall q, valid (esz p) q -> exists x, load (mem (cod p)) q = Some x /\ prob_ok x;
  pd_tables : tables_ok nfb (2 ^ pb p) t;
  pd_slots : forall dist s, 0 <= dist < hist -> is_slot s dist -> s < distTableSize t
}.

Lemma u32_add a b A B : 0 <= a <= A -> 0 <= b <= B -> 0 <= u32 (a + b) <= A + B.
Proof. intros. apply u32_le. lia. Qed.

Section Prices.
Context (win : list Z) (nfb hist : Z) (p : CLzmaEnc) (t : price_tables) (Hp : priced nfb hist p t) (win_bytes : bytes win).

Abbreviation costs o B := (yields o (fun x => 0 <= x <= B)).

Lemma GET_PRICE_ok q bit : valid (esz p) q -> bit = 0 \/ bit = 1 -> costs (GET_PRICE p t q bit) bit_max.
Proof using Hp.
  intros Hq Hb. unfold GET_PRICE. apply (price_at_ok (esz p)); [apply (pd_probs _ _ _ _ Hp)|apply (tsh_bits _ (to_shape _ _ _ (pd_tables _ _ _ _ Hp)))|done|done].
Qed.

(** The low bits of the position. *)
Definition pos_state_in (posState : Z) : Prop := 0 <= posState < 2 ^ pb p.

Lemma pos_state_below n : pos_state_in (n &&& pbMask p).
Proof using Hp.
  pose proof (pd_wf _ _ _ _ Hp) as Hw. destruct (ew_props _ Hw) as (_ & _ & Hpb). unfold pos_state_in. rewrite (ew_pbMask _ Hw), land_ones_mod by lia.
  apply Z.mod_pos_bound, Z.pow_pos_nonneg; lia.
Qed.

Lemma pos_state_16 ps : pos_state_in ps -> 0 <= ps < 16.
Proof using Hp.
  unfold pos_state_in. destruct (ew_props _ (pd_wf _ _ _ _ Hp)) as (_ & _ & Hpb). pose proof (Z.pow_le_mono_r 2 (pb p) 4 ltac:(lia) ltac:(lia)). lia.
Qed.

Lemma row_price a st ps bit :
  arr_size (lclp p) a = 192 -> 0 <= st < 12 -> pos_state_in ps -> bit = 0 \/ bit = 1 -> costs (GET_PRICE p t (row16 a st ps) bit) bit_max.
Proof using Hp.
  intros Ha Hs Hps Hb. apply GET_PRICE_ok; [|done]. unfold valid, row16. cbn [fst snd]. rewrite Ha. pose proof (pos_state_16 ps Hps).
  change LZMA_NUM_PB_STATES_MAX with 16. lia.
Qed.

Lemma state_price a st bit : arr_size (lclp p) a = 12 -> 0 <= st < 12 -> bit = 0 \/ bit = 1 -> costs (GET_PRICE p t (a, st) bit) bit_max.
Proof using Hp. intros Ha Hs Hb. apply GET_PRICE_ok; [|done]. unfold valid. cbn [fst snd]. lia. Qed.

(** One bit after the other. *)
Ltac bit_price := first
  [ apply row_price; [reflexivity|lia|assumption|(left; reflexivity) || (right; reflexivity)]
  | apply state_price; [reflexivity|lia|(left; reflexivity) || (right; reflexivity)] ].
Ltac next_price x := eapply yields_then; [bit_price|intros x ?; cbn beta in *].

Lemma GetPrice_ShortRep_ok st ps : 0 <= st < 12 -> pos_state_in ps -> costs (GetPrice_ShortRep p t st ps) (2 * bit_max).
Proof using Hp. intros. unfold GetPrice_ShortRep. next_price a. next_price b. cbn. apply u32_le. lia. Qed.

Lemma GetPrice_Rep_0_ok st ps : 0 <= st < 12 -> pos_state_in ps -> costs (GetPrice_Rep_0 p t st ps) (4 * bit_max).
Proof using Hp.
  intros. unfold GetPrice_Rep_0. next_price a. next_price b. next_price c. next_price d. cbn [yields].
  pose proof (u32_add a b bit_max bit_max ltac:(lia) ltac:(lia)). pose proof (u32_add (u32 (a + b)) c (2 * bit_max) bit_max ltac:(lia) ltac:(lia)).
  apply u32_le. lia.
Qed.

Lemma GetPrice_PureRep_ok i st ps : 0 <= i < 4 -> 0 <= st < 12 -> pos_state_in ps -> costs (GetPrice_PureRep p t i st ps) (3 * bit_max).
Proof using Hp.
  intros. unfold GetPrice_PureRep. destruct (Z.eqb_spec i 0).
  { next_price a. next_price b. cbn. apply u32_le. lia. }
  next_price a. destruct (Z.eqb_spec i 1).
  { next_price b. cbn. apply u32_le. lia. }
  next_price b. eapply yields_then; [apply state_price; [reflexivity|lia|lia]|intros c Hc; cbn beta in Hc]. cbn [yields].
  pose proof (u32_add a b bit_max bit_max ltac:(lia) ltac:(lia)). apply u32_le. lia.
Qed.

(** ** Literals *)

Lemma LIT_PROBS_in n prev : 0 <= n -> in_width 8 prev ->
  exists k, LIT_PROBS p n prev = (litProbs, k) /\ 0 <= k /\ k + 768 <= esz p litProbs.
Proof using Hp.
  intros Hn Hprev. destruct (LIT_PROBS_ok p n prev (pd_wf _ _ _ _ Hp) Hn Hprev) as (k & E & H1 & H2 & _). by exists k.
Qed.

Lemma matched_price n prev cur mb :
  0 <= n -> in_width 8 prev -> in_width 8 cur ->
  costs (LitEnc_Matched_GetPrice (ProbPrices t) (mem (cod p)) (LIT_PROBS p n prev) cur mb) (8 * bit_max).
Proof using Hp.
  intros Hn Hprev Hcur. destruct (LIT_PROBS_in n prev Hn Hprev) as (k & -> & H1 & H2).
  apply (LitEnc_Matched_GetPrice_ok (esz p)); [apply (pd_probs _ _ _ _ Hp)|apply (tsh_bits _ (to_shape _ _ _ (pd_tables _ _ _ _ Hp)))|done..].
Qed.

Lemma literal_price_ok position data st mb :
  0 <= position -> 1 <= data < Z.of_nat (length win) -> costs (literal_price win p t position data st mb) (8 * bit_max).
Proof using Hp win_bytes.
  intros Hn Hd. unfold literal_price. destruct (rd_default win (data - 1) win_bytes ltac:(lia)) as [-> W1].
  destruct (rd_default win data win_bytes ltac:(lia)) as [-> W2]. opt. destruct (negb (IsLitState st)); [by apply matched_price|].
  destruct (LIT_PROBS_in position (default 0 (rd win (data - 1))) Hn W1) as (k & -> & H1 & H2).
  apply (LitEnc_GetPrice_ok (esz p)); [apply (pd_probs _ _ _ _ Hp)|apply (tsh_bits _ (to_shape _ _ _ (pd_tables _ _ _ _ Hp)))|done..].
Qed.

(** ** Lengths and distances *)

Lemma len_price ps len : pos_state_in ps -> 2 <= len <= nfb -> costs (GET_PRICE_LEN (lenEnc t) ps len) 2048.
Proof using Hp.
  intros Hps Hlen. destruct (pd_tables _ _ _ _ Hp) as [_ _ _ _ [Z1 _] L1 _]. apply (GET_PRICE_LEN_ok (2 ^ pb p)); [done|done|lia].
Qed.

Lemma rep_len_price ps len : pos_state_in ps -> 2 <= len <= nfb -> costs (GET_PRICE_LEN (repLenEnc t) ps len) 2048.
Proof using Hp.
  intros Hps Hlen. destruct (pd_tables _ _ _ _ Hp) as [_ _ _ _ [_ Z2] _ L2]. apply (GET_PRICE_LEN_ok (2 ^ pb p)); [done|done|lia].
Qed.

Lemma GetLenToPosState_range len : 2 <= len -> 0 <= GetLenToPosState len < 4.
Proof using Type. intros Hl. unfold GetLenToPosState. change kNumLenToPosStates with 4. destruct (Z.ltb_spec len (4 + 1)); lia. Qed.

Lemma distance_price_ok len dist slot :
  2 <= len -> 0 <= dist < hist -> (kNumFullDistances <= dist -> is_slot slot dist /\ 0 <= slot) -> costs (distance_price t len dist slot) 8192.
Proof using Hp.
  intros Hl Hd Hs. pose proof (GetLenToPosState_range len Hl) as Hlps. destruct (pd_tables _ _ _ _ Hp) as [_ A B C _ _ _].
  unfold distance_price. change kNumFullDistances with 128 in *. change kDistTableSizeMax with 64. change (128 - 1) with (2 ^ 7 - 1). change kAlignMask with (2 ^ 4 - 1).
  rewrite !land_ones_mod by lia. change (2 ^ 7) with 128. change (2 ^ 4) with 16. destruct (Z.ltb_spec dist 128).
  - destruct (C (GetLenToPosState len) (dist mod 128)) as (x & -> & Hx); [lia|apply Z.mod_pos_bound; lia|]. cbn. lia.
  - destruct (Hs ltac:(lia)) as [H1 H2]. pose proof (pd_slots _ _ _ _ Hp dist slot Hd H1). destruct (A (dist mod 16)) as (x & -> & Hx); [apply Z.mod_pos_bound; lia|]. opt.
    destruct (B (GetLenToPosState len) slot) as (y & -> & Hy); [lia|lia|]. cbn. apply u32_le. lia.
Qed.

(** The slot that is looked up for any distance, and right for the far ones. *)
Lemma BSR2_RET_ok dist :
  0 <= dist < 2 ^ 32 -> yields (BSR2_RET (g_FastPos p) dist) (fun slot => kNumFullDistances <= dist -> is_slot slot dist /\ 0 <= slot).
Proof using Hp.
  intros Hd. rewrite (ew_slots _ (pd_wf _ _ _ _ Hp)). destruct (GetPosSlot_ok dist Hd) as (s & E & Hs & H64). unfold GetPosSlot in E.
  destruct (Z.ltb_spec dist kNumFullDistances).
  - unfold BSR2_RET. change (1 <<< (kNumLogBits + 6)) with (2 ^ 20). change kNumFullDistances with 128 in *.
    destruct (Z.ltb_spec dist (2 ^ 20)); [|lia]. assert (0 <= dist >>> 6 < 2) as Hi.
    { rewrite Z.shiftr_div_pow2 by lia. change (2 ^ 6) with 64. split; [apply Z.div_pos; lia|apply Z.div_lt_upper_bound; lia]. }
    destruct (FastPos_ok (dist >>> 6)) as (v & -> & _); [lia|]. cbn. lia.
  - rewrite E. cbn. intros _. split; [done|lia].
Qed.
End Prices.
