(* ===== verification/LzmaOptPairs.v ===== *)
(** * Normal mode: the pairs of the match finder

    The array [matches] as GetOptimum (LzmaEncOpt.v) walks through it: pairs of increasing
    lengths, the first that is long enough, the array cut at a shorter length. *)

From stdpp Require Import base numbers list list_numbers.
From Stdlib Require Import ZArith Lia.
From S2P Require Import Prelude LzmaPricesOk MatchFinder LzmaEncFast LzmaEncOpt LzmaFastOk.
Local Open Scope Z_scope.

Section Pairs.
Context (win : list Z) (pos hist : Z).

(** The first [n] values of [ms] are the pairs [l], the last of them of length [top]. *)
Record pairs_ok (l : list (Z * Z)) (ms : list Z) (n top : Z) : Prop := {
  pk_size : n = 2 * Z.of_nat (length l) /\ n <= Z.of_nat (length ms);
  pk_at : forall i len dist, l !! i = Some (len, dist) ->
    rd ms (2 * Z.of_nat i) = Some len /\ rd ms (2 * Z.of_nat i + 1) = Some dist /\
    match_at win pos len (dist + 1) /\ 0 <= dist < hist /\ 2 <= len <= top;
  pk_order : forall i j a b, l.*1 !! i = Some a -> l.*1 !! j = Some b -> (i < j)%nat -> a < b;
  pk_last : exists dist, l !! (length l - 1)%nat = Some (top, dist)
}.

Lemma matches_pairs lim m ds :
  matches_ok win pos lim hist m ds -> (ds = [] /\ m = 1) \/ ((exists l, pairs_ok l ds (Z.of_nat (length ds)) m) /\ m <= lim).
Proof using Type.
  induction 1 as [|m ds len dist Hm IH Hl Hd Hat]; [by left|right]. pose proof (matches_len _ _ _ _ _ _ Hm) as H1. split; [|lia].
  assert (exists l, Z.of_nat (length ds) = 2 * Z.of_nat (length l) /\
    (forall i len dist, l !! i = Some (len, dist) -> rd ds (2 * Z.of_nat i) = Some len /\ rd ds (2 * Z.of_nat i + 1) = Some dist /\
       match_at win pos len (dist + 1) /\ 0 <= dist < hist /\ 2 <= len <= m) /\
    (forall i j a b, l.*1 !! i = Some a -> l.*1 !! j = Some b -> (i < j)%nat -> a < b)) as (l & Hn & Hat' & Hord).
  { destruct IH as [[-> _]|[(l & [[Hn _] HA HO _]) _]]; [exists []; split; [done|]; by split|].
    exists l. by split. }
  exists (l ++ [(len, dist)]). constructor.
  - rewrite !length_app. cbn [length]. lia.
  - intros i a b Hi. apply lookup_snoc_Some in Hi as [[Hlt Hi]|[-> [= <- <-]]].
    + destruct (Hat' i a b Hi) as (A1 & A2 & A3 & A4 & A5). rewrite !rd_app_l by lia. split_and!; (done || lia).
    + rewrite !rd_app_r by lia. replace (2 * Z.of_nat (length l) - Z.of_nat (length ds)) with 0 by lia.
      replace (2 * Z.of_nat (length l) + 1 - Z.of_nat (length ds)) with 1 by lia. split_and!; (done || lia).
  - intros i j a b. rewrite fmap_app. cbn [fmap list_fmap fst]. intros Hi Hj Hij.
    apply lookup_snoc_Some in Hi as [[Hi1 Hi]|[Hi1 ->]]; apply lookup_snoc_Some in Hj as [[Hj1 Hj]|[Hj1 ->]]; try lia.
    + by apply (Hord i j).
    + apply list_lookup_fmap_Some in Hi as ([a' b'] & -> & Hi). destruct (Hat' _ _ _ Hi) as (_ & _ & _ & _ & ?). cbn. lia.
  - exists dist. rewrite length_app. cbn [length]. replace (length l + 1 - 1)%nat with (length l) by lia. by rewrite lookup_app_r, Nat.sub_diag by lia.
Qed.

Context (l : list (Z * Z)) (ms : list Z) (n top : Z) (Hl : pairs_ok l ms n top).

Lemma pair_at i : (i < length l)%nat -> exists len dist, l !! i = Some (len, dist).
Proof using Type. intros Hi. destruct (lookup_lt_is_Some_2 l i Hi) as [[len dist] E]. by exists len, dist. Qed.

Lemma pairs_nonempty : (0 < length l)%nat.
Proof using Hl. destruct Hl as [_ _ _ [dist Hd]]. apply lookup_lt_Some in Hd. lia. Qed.

Lemma pair_before i j a b a' b' : l !! i = Some (a, b) -> l !! j = Some (a', b') -> (i < j)%nat -> a < a'.
Proof using Hl.
  intros Hi Hj. apply (pk_order _ _ _ _ Hl); apply list_lookup_fmap_Some; [by exists (a, b)|by exists (a', b')].
Qed.

(** The pair of the top length is the last. *)
Lemma pair_top i dist : l !! i = Some (top, dist) -> S i = length l.
Proof using Hl.
  intros Hi. destruct (pk_last _ _ _ _ Hl) as [dist' Hd]. pose proof (lookup_lt_Some _ _ _ Hi).
  destruct (decide (i = (length l - 1)%nat)) as [->|]; [lia|]. pose proof (pair_before _ _ _ _ _ _ Hi Hd ltac:(lia)). lia.
Qed.

Lemma skip_pairs_ok len :
  len <= top -> yields (skip_pairs ms len) (fun offs => exists i m dist, offs = 2 * Z.of_nat i /\ l !! i = Some (m, dist) /\ len <= m /\
    forall j a b, (j < i)%nat -> l !! j = Some (a, b) -> a < len).
Proof using Hl.
  intros Hlen. unfold skip_pairs. pose proof pairs_nonempty as Hne. pose proof (pk_size _ _ _ _ Hl) as [Hn1 Hn2].
  apply (yields_loop (fun offs => exists i, offs = 2 * Z.of_nat i /\ (i < length l)%nat /\ forall j a b, (j < i)%nat -> l !! j = Some (a, b) -> a < len)
    (fun offs => Z.to_nat (n - offs))).
  - intros offs (i & -> & Hi & Hbefore). destruct (pair_at i Hi) as (m & dist & Ei). destruct (pk_at _ _ _ _ Hl i m dist Ei) as (-> & _). cbn.
    destruct (Z.ltb_spec m len) as [Hlt|Hge]; [|by exists i, m, dist]. split; [|lia].
    exists (S i). split; [lia|]. split.
    + destruct (pk_last _ _ _ _ Hl) as [dist' Hd]. destruct (decide (i = (length l - 1)%nat)) as [->|]; [|lia].
      rewrite Hd in Ei. injection Ei as <- <-. lia.
    + intros j a b Hj Ej. destruct (decide (j = i)) as [->|]; [|by apply (Hbefore j a b); [lia|]]. rewrite Ei in Ej. by injection Ej as <- <-.
  - exists 0%nat. split; [done|]. split; [done|lia].
  - lia.
Qed.

(** Where the search for a length below 2 starts: at the first pair. *)
Lemma first_pair_ok len :
  len <= top ->
  yields (if len <? 2 then Some 0 else skip_pairs ms len)
    (fun offs => exists i m dist, offs = 2 * Z.of_nat i /\ l !! i = Some (m, dist) /\ (if len <? 2 then 2 else len) <= m).
Proof using Hl.
  intros Hlen. destruct (Z.ltb_spec len 2).
  - destruct (pair_at 0 pairs_nonempty) as (m & dist & Hi). destruct (pk_at _ _ _ _ Hl 0 m dist Hi) as (_ & _ & _ & _ & ?).
    exists 0%nat, m, dist. split_and!; (done || lia).
  - eapply yields_mono; [by apply skip_pairs_ok|]. intros offs (i & m & dist & A & B & D & _). by exists i, m, dist.
Qed.

(** Cut at a shorter length. *)
Lemma cut_ok i m dist av :
  l !! i = Some (m, dist) -> 2 <= av <= m -> (forall j a b, (j < i)%nat -> l !! j = Some (a, b) -> a < av) ->
  yields (wrz ms (2 * Z.of_nat i) av) (fun ms' => pairs_ok (take i l ++ [(av, dist)]) ms' (2 * Z.of_nat i + 2) av).
Proof using Hl.
  intros Hi Hav Hbefore. pose proof (lookup_lt_Some _ _ _ Hi) as Hlt. pose proof (pk_size _ _ _ _ Hl) as [Hn1 Hn2].
  destruct (pk_at _ _ _ _ Hl i m dist Hi) as (A1 & A2 & A3 & A4 & A5). rewrite wrz_Some by lia. cbn [yields].
  assert (length (take i l) = i) as Ht by (rewrite length_take; lia).
  assert (forall j a b, (take i l ++ [(av, dist)]) !! j = Some (a, b) -> (j < i)%nat /\ l !! j = Some (a, b) \/ j = i /\ a = av /\ b = dist) as Hcases.
  { intros j a b Hj. apply lookup_snoc_Some in Hj as [[Hj1 Hj]|[Hj1 [= <- <-]]]; [left|right; split; [lia|done]].
    rewrite Ht in Hj1. rewrite lookup_take_lt in Hj by done. done. }
  constructor.
  - rewrite length_app, length_insert, Ht. cbn [length]. lia.
  - intros j a b Hj. destruct (Hcases j a b Hj) as [[Hlt' Hj']|(-> & -> & ->)].
    + destruct (pk_at _ _ _ _ Hl j a b Hj') as (B1 & B2 & B3 & B4 & B5). rewrite !rd_insert_ne by lia. specialize (Hbefore j a b Hlt' Hj'). split_and!; (done || lia).
    + rewrite (rd_insert_ne ms _ (2 * Z.of_nat i + 1)) by lia. rewrite rd_lookup, list_lookup_insert_eq by lia. split_and!; try done; try lia. by apply (match_at_le _ _ m); [|lia].
  - intros j j' a b Hj Hj' Hjj. apply list_lookup_fmap_Some in Hj as ([x y] & -> & Hj). apply list_lookup_fmap_Some in Hj' as ([x' y'] & -> & Hj'). cbn [fst].
    destruct (Hcases _ _ _ Hj) as [[H1 H2]|(-> & -> & ->)], (Hcases _ _ _ Hj') as [[H3 H4]|(-> & -> & ->)]; try lia.
    + by apply (pair_before j j' _ y _ y').
    + by apply (Hbefore j x y).
  - exists dist. rewrite length_app, Ht. cbn [length]. replace (i + 1 - 1)%nat with i by lia. by rewrite lookup_app_r, Ht, Nat.sub_diag by lia.
Qed.
End Pairs.
