(* ===== verification/LzmaOptSteps.v ===== *)
(** * Normal mode: the steps from one place

    The blocks of GetOptimum (LzmaEncOpt.v) that try the literal, the repeats and the matches
    from one place of [opt]: each returns, and every step it records is valid for the data
    (LzmaOptPath.v) and has a bounded price (LzmaOptPrices.v). *)

From stdpp Require Import base numbers list list_numbers.
From Stdlib Require Import ZArith Lia.
From S2P Require Import Prelude SzTypes RangeEnc LzmaEnc LzmaDist LzmaSymbols LzmaRun LzmaPrices LzmaPricesOk MatchFinder LzmaEncFast LzmaEncOpt LzmaOptPath LzmaOptPrices LzmaFastOk LzmaOptPairs.
Local Open Scope Z_scope.
Local Open Scope word_scope.

(** The pointer to the data and the distances give what [dist] stands for. *)
Lemma reps0_after q len dist : 0 <= dist < MARK_LIT -> len <> 1 -> reps0 (enc_after q len dist) = dist_of q dist.
Proof.
  intros Hd Hl. unfold enc_after, dist_of. destruct (Z.eqb_spec dist MARK_LIT); [lia|]. destruct (Z.ltb_spec dist 4).
  - destruct (Z.eqb_spec len 1); [lia|]. done.
  - cbn. unfold MARK_LIT in *. rewrite wrap_small by (unfold in_width; lia). lia.
Qed.

Section Place.
Context (win : list Z) (nfb hist d : Z) (Hs : fast_settings win nfb hist d) (win_bytes : bytes win).
Context (p : CLzmaEnc) (t : price_tables) (Hp : priced nfb hist p t) (pos0 : Z).
(** The place: the path to it. *)
Context (k : Z) (s : syms) (Hk : 0 <= k) (Hwalk : walk win d p pos0 s) (Hspan : span s = k).

Abbreviation L := (Z.of_nat (length win)).
Abbreviation q := (after p s).
Abbreviation pos := (pos0 + k).
Abbreviation cost_max := 16384.

Context (Hreps : reps_in d q pos) (Hpos : 1 <= pos0).

(** [opt] when the steps from [k] are tried. *)
Definition standing (last : Z) (o : list COptimal) : Prop := opts win d p pos0 k last o /\ chain o k s /\ pos0 + last <= L.

Definition grown (last : Z) (o : list COptimal) (last' : Z) (o' : list COptimal) : Prop :=
  last <= last' /\ standing last' o' /\ extended win d p pos0 k o o'.

Lemma standing_grow last last' o : standing last o -> last <= last' < kNumOpts -> pos0 + last' <= L -> standing last' o.
Proof using Type. intros (H1 & H2 & H3) Hl HL. split; [|done]. apply (opts_grow _ _ _ _ _ last); [done|lia]. Qed.

Lemma grown_refl last o : standing last o -> grown last o last o.
Proof using Type. intros H. split; [lia|]. split; [done|apply extended_refl]. Qed.

Lemma grown_trans l1 l2 l3 o1 o2 o3 : grown l1 o1 l2 o2 -> grown l2 o2 l3 o3 -> grown l1 o1 l3 o3.
Proof using Type. intros (A1 & A2 & A3) (B1 & B2 & B3). split; [lia|]. split; [done|]. by apply (extended_trans _ _ _ _ _ _ o2). Qed.

Lemma settled_wf : enc_wf q.
Proof using Hp. apply after_wf, (pd_wf _ _ _ _ Hp). Qed.

Lemma relax_here last o i price len dist extra :
  standing last o -> k < i <= last -> i = k + len + extra -> step_shape len extra -> walk win d q pos (steps len dist extra) ->
  0 <= price <= cost_max * i ->
  yields (relax i price len dist extra o) (fun o' => standing last o' /\ extended win d p pos0 k o o' /\ reached win d p pos0 k o' i).
Proof using Hwalk Hspan.
  intros (Ho & Hc & HL) Hi Ei Hsh Hst Hpr. eapply yields_mono; [by apply (relax_ok win d p pos0 k last o s)|].
  intros o' (H1 & [H2 H3] & H4). split; [|by split]. split; [done|]. split; [|done]. by apply (chain_agree o).
Qed.

(** A step of one symbol. *)
Lemma relax_symbol last o len dist price :
  standing last o -> 1 <= len -> k + len <= last -> choice_valid q win d pos len dist = true -> 0 <= price <= cost_max * (k + len) ->
  yields (relax (k + len) price len dist 0 o) (fun o' => standing last o' /\ extended win d p pos0 k o o' /\ reached win d p pos0 k o' (k + len)).
Proof using Hwalk Hspan.
  intros Ho Hl Hlast Hv Hpr. apply relax_here; [done|lia|lia|split; [done|split; [lia|by left]]|by split|lia].
Qed.

(** ** Repeats *)

Lemma valid_rep_here j rep len : rd (reps q) j = Some rep -> match_at win pos len rep -> 2 <= len <= LZMA_MATCH_LEN_MAX -> choice_valid q win d pos len j = true.
Proof using Hreps.
  intros Hj Hm Hl. apply (valid_rep win d q pos LZMA_MATCH_LEN_MAX); [done|done|]. by exists rep.
Qed.

Lemma rep_bounds j rep : rd (reps q) j = Some rep -> 1 <= rep <= pos /\ rep <= d /\ 0 <= j < 4 /\ dist_of q j = rep.
Proof using Hreps.
  destruct Hreps as [(R0 & R1 & R2 & R3) Hd]. intros Ej. pose proof (rd_Forall _ _ _ _ Hd Ej) as Hrd. cbn beta in Hrd.
  pose proof (rd_range _ _ _ Ej) as Hj. unfold reps in Hj. cbn [length] in Hj. unfold dist_of, rotate.
  destruct (Z.ltb_spec j 4); [|lia]. assert (j = 0 \/ j = 1 \/ j = 2 \/ j = 3) as [->|[->|[->| ->]]] by lia; injection Ej as <-; cbn; lia.
Qed.

Lemma rep_fill_ok last o price ps j rep repLen :
  standing last o -> 0 <= price <= cost_max * k + 5 * bit_max -> pos_state_in p ps -> rd (reps q) j = Some rep ->
  match_at win pos repLen rep -> 2 <= repLen <= nfb -> k + repLen <= last ->
  yields (rep_fill t k price ps repLen j o) (fun o' => standing last o' /\ extended win d p pos0 k o o').
Proof using Hs Hp Hwalk Hspan Hreps.
  intros Ho Hprice Hps Hj Hm Hl Hlast. pose proof (fs_nfb _ _ _ _ Hs) as Hnfb. unfold rep_fill.
  eapply yields_then; [apply (yields_do_while (fun '(n, o') => 2 <= n <= repLen /\ standing last o' /\ extended win d p pos0 k o o')
    (fun '(n, _) => Z.to_nat n) (fun '(_, o') => standing last o' /\ extended win d p pos0 k o o'))|by intros [n o'] H].
  - intros [n o'] (Hn & Ho' & He). eapply yields_then; [apply (rep_len_price nfb hist p t Hp ps n Hps); lia|intros x Hx; cbn beta in Hx].
    assert (choice_valid q win d pos n j = true) as Hv by (apply (valid_rep_here j rep); [done|by apply (match_at_le _ _ repLen); [|lia]|lia]).
    pose proof (u32_le (price + x) (cost_max * k + 5 * bit_max + 2048) ltac:(lia)).
    eapply yields_then; [apply (relax_symbol last); [done|lia|lia|done|lia]|intros o2 (H1 & H2 & _)]. cbn [yields].
    assert (extended win d p pos0 k o o2) by (by apply (extended_trans _ _ _ _ _ _ o')).
    destruct (Z.leb_spec 2 (n - 1)); [split; [|lia]; split; [lia|]|]; done.
  - split; [lia|]. split; [done|apply extended_refl].
  - lia.
Qed.

(** ** A literal and a repeat of the last distance *)

Lemma valid_rep0 r x len :
  match_at win x len (reps0 r) -> reps0 r <= d -> 2 <= len <= LZMA_MATCH_LEN_MAX -> choice_valid r win d x len 0 = true.
Proof using Type.
  intros Hm Hd Hl. destruct (match_repeats _ _ _ _ Hm) as [Hr HL]. unfold LZMA_MATCH_LEN_MAX in *.
  unfold choice_valid, dist_of, rotate. change (0 =? MARK_LIT) with false. change (0 <? 4) with true. change (0 =? 0) with true. cbv iota.
  rewrite Hr, !andb_true_iff, orb_true_iff, !andb_true_iff, !Z.leb_le. unfold MARK_LIT. lia.
Qed.

Lemma try_lit_rep_ok last o position n litPrice :
  standing last o -> 0 <= position -> 2 < n -> n <= kNumOpts - 1 - k -> pos + n <= L -> 0 <= litPrice <= cost_max * k + 9 * bit_max ->
  yields (try_lit_rep nfb win p t k position pos (reps0 q) (state q) n litPrice last o) (fun '(last', o') => grown last o last' o').
Proof using Hs Hp Hwalk Hspan Hreps Hk Hpos.
  intros Ho Hposition Hn Hn2 HnL Hprice. pose proof (fs_nfb _ _ _ _ Hs) as Hnfb. destruct (rep_bounds 0 (reps0 q) eq_refl) as (Hr & Hrd & _ & _).
  unfold try_lit_rep. replace (pos - reps0 q + 1) with (pos + 1 - reps0 q) by lia.
  destruct (two_differ_ok win (pos + 1) (reps0 q)) as (b & -> & Hb); [lia|lia|]. opt. destruct b; [by apply grown_refl|]. specialize (Hb eq_refl).
  set (lim := if n <? nfb + 1 then n else nfb + 1). assert (3 <= lim <= nfb + 1 /\ lim <= n) as Hlim by (unfold lim; destruct (Z.ltb_spec n (nfb + 1)); lia).
  destruct (match_len_from win pos 1 (reps0 q) 3 lim) as (r & -> & Hlen & Hm); [done|lia|lia|lia|]. opt.
  destruct (next_states (state q) (ew_state _ settled_wf)) as (E1 & _). rewrite E1. opt. cbv zeta.
  pose proof (lit_next_range _ (ew_state _ settled_wf)) as Hst. pose proof (pos_state_below nfb hist p t Hp (u32 (position + 1))) as Hps.
  eapply yields_then; [apply (GetPrice_Rep_0_ok nfb hist p t Hp); [lia|done]|intros y Hy; cbn beta in Hy].
  eapply yields_then; [apply (rep_len_price nfb hist p t Hp _ _ Hps); lia|intros x Hx; cbn beta in Hx].
  set (last' := if last <? k + r then k + r else last). assert (last <= last' /\ k + r <= last' /\ (last' = last \/ last' = k + r)) as Hlast.
  { unfold last'. destruct (Z.ltb_spec last (k + r)); lia. }
  assert (standing last' o) as Ho'. { pose proof Ho as ([_ Hr0 _ _ _] & _ & HL). apply (standing_grow last); [done|lia|lia]. }
  pose proof (u32_le (litPrice + y) (cost_max * k + 13 * bit_max) ltac:(lia)).
  pose proof (u32_le (u32 (litPrice + y) + x) (cost_max * k + 13 * bit_max + 2048) ltac:(lia)).
  eapply yields_then; [apply (relax_here last'); [done|lia|lia|split; [lia|split; [lia|right; lia]]| |lia]|intros o2 (H1 & H2 & _)].
  - change (steps (r - 1) 0 1) with [(1, MARK_LIT); (r - 1, 0)]. split; [apply valid_literal; lia|]. split; [|done].
    apply valid_rep0; [exact Hm|exact Hrd|unfold LZMA_MATCH_LEN_MAX in *; lia].
  - cbn [yields]. split; [lia|]. by split.
Qed.

Lemma try_after_ok last o position len n dist rep state3 next price B :
  standing last o -> 0 <= position -> n <= kNumOpts - 1 - k -> pos + n <= L -> 2 <= len <= nfb -> 0 <= dist < MARK_LIT ->
  match_at win pos len rep -> dist_of q dist = rep -> rep <= d -> choice_valid q win d pos len dist = true -> 0 <= state3 < 12 ->
  (exists st2, rd next (state q) = Some st2 /\ 0 <= st2 < 12) -> yields price (fun x => 0 <= x <= cost_max * k + B) -> B <= 11000 ->
  yields (try_after nfb win p t k position pos (pos - rep) len n dist state3 next (state q) price last o) (fun '(last', o') => grown last o last' o').
Proof using Hs Hp Hwalk Hspan Hreps Hk Hpos win_bytes.
  intros Ho Hposition Hn2 HnL Hlen Hdist Hm Hdof Hrd Hv Hst3 (st2 & Est2 & Hst2) Hprice HB.
  pose proof (fs_nfb _ _ _ _ Hs) as Hnfb. unfold LZMA_MATCH_LEN_MAX in Hnfb. pose proof Hm as (Hr & _ & _). unfold try_after. cbv zeta.
  set (lim := if n <? len + 1 + nfb then n else len + 1 + nfb). assert (lim <= len + 1 + nfb /\ lim <= n) as Hlim.
  { unfold lim. destruct (Z.ltb_spec n (len + 1 + nfb)); lia. }
  destruct (Z.leb_spec (len + 1 + 2) lim) as [Hle|]; [|by apply grown_refl].
  replace (pos + (len + 1 + 2) - 2) with (pos + (len + 1)) by lia. replace (pos - rep + (len + 1 + 2) - 2) with (pos + (len + 1) - rep) by lia.
  destruct (two_differ_ok win (pos + (len + 1)) rep) as (b & -> & Hb); [lia|lia|]. opt. destruct b; [by apply grown_refl|]. specialize (Hb eq_refl).
  destruct (match_len_from win pos (len + 1) rep (len + 1 + 2) lim) as (r & -> & Hlr & Hmr); [by replace (len + 1 + 2 - (len + 1)) with 2 by lia|lia|lia|lia|]. opt.
  rewrite Est2. opt. pose proof (pos_state_below nfb hist p t Hp (u32 (position + len))) as Hps.
  eapply yields_then; [exact Hprice|intros pr Hpr; cbn beta in Hpr].
  eapply yields_then; [apply (row_price nfb hist p t Hp); [done|done|done|by left]|intros x Hx; cbn beta in Hx].
  destruct (rd_default win (pos + len - 1) win_bytes ltac:(lia)) as [-> W1]. opt.
  destruct (rd_default win (pos + len) win_bytes ltac:(lia)) as [-> W2]. opt. replace (pos - rep + len) with (pos + len - rep) by lia.
  destruct (rd_default win (pos + len - rep) win_bytes ltac:(lia)) as [-> W3]. opt.
  eapply yields_then; [apply (matched_price nfb hist p t Hp); [apply (wrap_in_width 32); lia|done|done]|intros y Hy; cbn beta in Hy].
  pose proof (pos_state_below nfb hist p t Hp (u32 ((u32 (position + len) &&& pbMask p) + 1))) as Hps2.
  eapply yields_then; [apply (GetPrice_Rep_0_ok nfb hist p t Hp); [lia|done]|intros z Hz; cbn beta in Hz].
  eapply yields_then; [apply (rep_len_price nfb hist p t Hp _ _ Hps2); lia|intros w Hw; cbn beta in Hw].
  set (off := k + len + (r - len)). set (last' := if last <? off then off else last).
  assert (last <= last' /\ k + r <= last' /\ (last' = last \/ last' = k + r)) as Hlast by (unfold last', off; destruct (Z.ltb_spec last (k + len + (r - len))); lia).
  assert (standing last' o) as Ho'. { pose proof Ho as ([_ Hr0 _ _ _] & _ & HL). apply (standing_grow last); [done|lia|lia]. }
  pose proof (u32_le (pr + x) (cost_max * k + B + bit_max) ltac:(lia)).
  pose proof (u32_le (u32 (pr + x) + y) (cost_max * k + B + 9 * bit_max) ltac:(lia)).
  pose proof (u32_le (u32 (u32 (pr + x) + y) + z) (cost_max * k + B + 13 * bit_max) ltac:(lia)).
  pose proof (u32_le (u32 (u32 (u32 (pr + x) + y) + z) + w) (cost_max * k + B + 13 * bit_max + 2048) ltac:(lia)).
  eapply yields_then; [apply (relax_here last'); [done|unfold off; lia|unfold off; lia|split; [lia|split; [lia|right; lia]]| |unfold off; lia]|intros o2 (G1 & G2 & _)].
  - unfold steps. rewrite (proj2 (Z.eqb_neq (len + 1) 0)), (proj2 (Z.eqb_neq (len + 1) 1)) by lia. replace (len + 1 - 1) with len by lia.
    pose proof (reps0_after q len dist Hdist ltac:(lia)) as E0.
    split; [done|]. split; [apply valid_literal; lia|]. split; [|done]. replace (r - len - 1) with (r - (len + 1)) by lia.
    replace (pos + len + 1) with (pos + (len + 1)) by lia. apply valid_rep0.
    + change (reps0 (enc_after (enc_after q len dist) 1 MARK_LIT)) with (reps0 (enc_after q len dist)). by rewrite E0, Hdof.
    + change (reps0 (enc_after (enc_after q len dist) 1 MARK_LIT)) with (reps0 (enc_after q len dist)). by rewrite E0, Hdof.
    + unfold LZMA_MATCH_LEN_MAX in *. lia.
  - cbn [yields]. split; [lia|]. by split.
Qed.

(** ** One byte *)

Lemma valid_short_rep b : rd win pos = Some b -> rd win (pos - reps0 q) = Some b -> choice_valid q win d pos 1 0 = true.
Proof using Hreps.
  intros H1 H2. destruct (rep_bounds 0 (reps0 q) eq_refl) as (Hr & Hrd & _ & Ed). pose proof (rd_range _ _ _ H1).
  unfold choice_valid. change (0 =? MARK_LIT) with false. cbv iota. rewrite Ed.
  rewrite !andb_true_iff, orb_true_iff, !andb_true_iff, !Z.leb_le, repeats_iff. unfold MARK_LIT.
  split_and!; try lia. intros i Hi. assert (i = 0) as -> by lia. by rewrite Z.add_0_r, H1, H2.
Qed.

(** Whatever happens, there is a way to the next place. *)
Lemma try_literal_ok last o position cb mb litPrice :
  standing last o -> k + 1 <= last -> 0 <= position -> 0 <= litPrice <= cost_max * k + bit_max ->
  yields (try_literal win p t k position pos (state q) cb mb litPrice o) (fun '(litPrice', _, o') =>
    standing last o' /\ extended win d p pos0 k o o' /\ reached win d p pos0 k o' (k + 1) /\ 0 <= litPrice' <= cost_max * k + 9 * bit_max).
Proof using Hp Hwalk Hspan Hk Hpos win_bytes.
  intros Ho Hlast Hposition Hprice. pose proof Ho as (Hopts & Hc & HL). pose proof (op_range _ _ _ _ _ _ _ Hopts) as Hrange.
  change kNumOpts with 2048 in Hrange. unfold try_literal.
  destruct (op_ahead _ _ _ _ _ _ _ Hopts (k + 1) ltac:(lia)) as [(e & He & Einf)|Hr].
  - rewrite He. opt. change kInfinityPrice with 1073741824 in *. rewrite Einf. change (1073741824 <? 1073741824) with false. cbn [andb orb].
    destruct (Z.ltb_spec 1073741824 litPrice); [lia|].
    eapply yields_then; [apply (literal_price_ok win nfb hist p t Hp win_bytes); [done|lia]|intros x Hx; cbn beta in Hx]. cbv zeta.
    pose proof (u32_le (litPrice + x) (cost_max * k + 9 * bit_max) ltac:(lia)).
    eapply yields_then; [apply (relax_symbol last); [done|lia|lia|apply valid_literal; lia|lia]|intros o2 (G1 & G2 & G3)]. done.
  - pose proof Hr as (e & He & _). rewrite He. opt. destruct (_ || _).
    { cbn. split; [done|]. split; [apply extended_refl|]. split; [done|lia]. }
    eapply yields_then; [apply (literal_price_ok win nfb hist p t Hp win_bytes); [done|lia]|intros x Hx; cbn beta in Hx]. cbv zeta.
    pose proof (u32_le (litPrice + x) (cost_max * k + 9 * bit_max) ltac:(lia)).
    eapply yields_then; [apply (relax_symbol last); [done|lia|lia|apply valid_literal; lia|lia]|intros o2 (G1 & G2 & G3)]. done.
Qed.

Lemma try_short_rep_ok last o ps cb mb price b :
  standing last o -> k + 1 <= last -> pos_state_in p ps -> rd win pos = Some cb -> rd win (pos - reps0 q) = Some mb ->
  0 <= price <= cost_max * k + 2 * bit_max ->
  yields (try_short_rep p t k (state q) ps cb mb price b o) (fun '(_, o') => standing last o' /\ extended win d p pos0 k o o').
Proof using Hp Hwalk Hspan Hk Hreps.
  intros Ho Hlast Hps Hcb Hmb Hprice. pose proof Ho as (Hopts & Hc & HL). pose proof (op_range _ _ _ _ _ _ _ Hopts) as Hrange.
  change kNumOpts with 2048 in Hrange. unfold try_short_rep.
  destruct (rd_Some o (k + 1)) as [e He]; [rewrite (op_length _ _ _ _ _ _ _ Hopts); change (Z.to_nat kNumOpts) with (Z.to_nat 2048); lia|]. rewrite He. opt.
  assert (yields (Some (b, o)) (fun '(_, o') => standing last o' /\ extended win d p pos0 k o o')) as Hno by (split; [done|apply extended_refl]).
  destruct (IsLitState (state q)); cbn [andb]; [|done]. destruct (Z.eqb_spec mb cb) as [->|]; cbn [andb]; [|done].
  destruct ((price <? o_price e) && ((o_len e <? 2) || negb (o_dist e =? 0))); [|done].
  eapply yields_then; [apply (GetPrice_ShortRep_ok nfb hist p t Hp); [apply (ew_state _ settled_wf)|done]|intros x Hx; cbn beta in Hx]. cbv zeta.
  pose proof (u32_le (price + x) (cost_max * k + 4 * bit_max) ltac:(lia)).
  eapply yields_then; [apply (relax_symbol last); [done|lia|lia|by apply (valid_short_rep cb)|lia]|intros o2 (G1 & G2 & _)]. done.
Qed.

Lemma try_reps_ok position n av ps price :
  0 <= position -> n <= kNumOpts - 1 - k -> pos + n <= L -> 2 <= av <= nfb -> av <= n -> pos_state_in p ps -> 0 <= price <= cost_max * k + 2 * bit_max ->
  forall rs i last startLen o, standing last o -> 0 <= i -> rs = drop (Z.to_nat i) (reps q) -> 2 <= startLen ->
  yields (try_reps nfb win p t k position pos av n (state q) ps price i rs last startLen o)
    (fun '(last', startLen', o') => grown last o last' o' /\ 2 <= startLen').
Proof using Hs Hp Hwalk Hspan Hreps Hk Hpos win_bytes.
  intros Hposition Hn HnL Hav Havn Hps Hprice. induction rs as [|rep rs IH]; intros i last startLen o Ho Hi E Hsl; cbn [try_reps]; [by split; [apply grown_refl|]|].
  assert (rd (reps q) i = Some rep) as Erep.
  { rewrite rd_lookup by lia. replace (Z.to_nat i) with (Z.to_nat i + 0)%nat by lia. by rewrite <-lookup_drop, <-E. }
  assert (rs = drop (Z.to_nat (i + 1)) (reps q)) as E'.
  { replace (Z.to_nat (i + 1)) with (Z.to_nat i + 1)%nat by lia. by rewrite <-drop_drop, <-E. }
  destruct (rep_bounds i rep Erep) as (Hr & Hrd & Hi4 & Edof). pose proof (fs_nfb _ _ _ _ Hs) as Hnfb.
  destruct (two_differ_ok win pos rep) as (b & -> & Hb); [lia|lia|]. opt. destruct b; [apply IH; (done || lia)|].
  destruct (rep_len_ok win pos rep av) as (len & -> & Hlen & Hm); [by apply Hb|lia|lia|]. opt. cbv zeta.
  set (last' := if last <? k + len then k + len else last). assert (last <= last' /\ k + len <= last' /\ (last' = last \/ last' = k + len)) as Hlast.
  { unfold last'. destruct (Z.ltb_spec last (k + len)); lia. }
  assert (standing last' o) as Ho'. { pose proof Ho as ([_ Hr0 _ _ _] & _ & HL). apply (standing_grow last); [done|lia|lia]. }
  pose proof (ew_state _ settled_wf) as Hst. destruct (next_states _ Hst) as (_ & _ & E3 & _).
  eapply yields_then; [apply (GetPrice_PureRep_ok nfb hist p t Hp); done|intros x Hx; cbn beta in Hx].
  pose proof (u32_le (price + x) (cost_max * k + 5 * bit_max) ltac:(lia)) as Hpx.
  eapply yields_then; [apply (rep_fill_ok last' o (u32 (price + x)) ps i rep len); (done || lia)|intros o2 (G1 & G2)].
  eapply yields_then; [apply (try_after_ok last' o2 position len n i rep _ _ _ (5 * bit_max + 2048)); try done; try lia|].
  - unfold MARK_LIT. lia.
  - apply (valid_rep_here i rep); [done|done|lia].
  - eexists. split; [exact E3|]. unfold next_of. destruct (state q <? 7); lia.
  - eapply yields_then; [apply (rep_len_price nfb hist p t Hp _ _ Hps); lia|intros y Hy; cbn beta in Hy]. cbn. apply u32_le. lia.
  - intros [last2 o3] G3. eapply yields_mono; [apply IH; [apply G3|lia|done|destruct (i =? 0); lia]|].
    intros [[last4 sl] o4] (G4 & H4). split; [|done]. apply (grown_trans _ last2 _ _ o3); [|done]. apply (grown_trans _ last' _ _ o2); [|done].
    split; [lia|by split].
Qed.

(** ** Matches *)

Lemma match_symbol dist : 0 <= dist < hist -> 0 <= u32 (dist + LZMA_NUM_REPS) < MARK_LIT /\ dist_of q (u32 (dist + LZMA_NUM_REPS)) = dist + 1 /\ dist + 1 <= d.
Proof using Hs.
  intros Hd. pose proof (fs_hist _ _ _ _ Hs) as Hh. pose proof (fs_dict _ _ _ _ Hs). change (15 <<< 28) with 4026531840 in Hh. unfold LZMA_NUM_REPS, MARK_LIT, dist_of in *.
  rewrite wrap_small by (unfold in_width; lia). destruct (Z.ltb_spec (dist + 4) 4); lia.
Qed.

(** The step of one match. *)
Lemma match_step_ok last o len m dist slot ps price :
  standing last o -> pos_state_in p ps -> 0 <= price <= cost_max * k + 2 * bit_max -> match_at win pos m (dist + 1) -> 0 <= dist < hist ->
  2 <= len <= m -> m <= nfb -> k + m <= last -> (kNumFullDistances <= dist -> is_slot slot dist /\ 0 <= slot) ->
  yields (x ← GET_PRICE_LEN (lenEnc t) ps len; y ← distance_price t len dist slot;
          o ← relax (k + len) (u32 (u32 (price + x) + y)) len (u32 (dist + LZMA_NUM_REPS)) 0 o; Some (u32 (u32 (price + x) + y), o))
    (fun '(x, o') => standing last o' /\ extended win d p pos0 k o o' /\ 0 <= x <= cost_max * k + 2 * bit_max + 10240).
Proof using Hs Hp Hwalk Hspan.
  intros Ho Hps Hprice Hm Hd Hlen Hnfb Hlast Hslot. pose proof (fs_nfb _ _ _ _ Hs) as Hn.
  eapply yields_then; [apply (len_price nfb hist p t Hp _ _ Hps); lia|intros x Hx; cbn beta in Hx].
  eapply yields_then; [apply (distance_price_ok nfb hist p t Hp len dist slot); (done || lia)|intros y Hy; cbn beta in Hy].
  pose proof (u32_le (price + x) (cost_max * k + 2 * bit_max + 2048) ltac:(lia)).
  pose proof (u32_le (u32 (price + x) + y) (cost_max * k + 2 * bit_max + 10240) ltac:(lia)).
  eapply yields_then; [apply (relax_symbol last); [done|lia|lia| |lia]|intros o2 (G1 & G2 & _); by cbn].
  apply (valid_match win nfb hist d); [done|by apply (match_at_le _ _ m); [|lia]|done|lia].
Qed.

Lemma try_matches_ok l ms n position nfull ps price newLen startLen last o :
  standing last o -> pairs_ok win pos hist l ms n newLen -> 0 <= position -> nfull <= kNumOpts - 1 - k -> pos + nfull <= L -> pos_state_in p ps ->
  0 <= price <= cost_max * k + 2 * bit_max -> 2 <= startLen <= newLen -> newLen <= nfb -> newLen <= nfull ->
  yields (try_matches nfb win p t k position pos nfull (state q) ps price ms newLen n startLen last o) (fun '(last', o') => grown last o last' o').
Proof using Hs Hp Hwalk Hspan Hreps Hk Hpos win_bytes.
  intros Ho Hl Hposition Hfull HL Hps Hprice Hsl Hnfb Hnf. unfold try_matches. cbv zeta.
  set (last1 := if last <? k + newLen then k + newLen else last). assert (last <= last1 /\ k + newLen <= last1 /\ (last1 = last \/ last1 = k + newLen)) as Hlast.
  { unfold last1. destruct (Z.ltb_spec last (k + newLen)); lia. }
  assert (standing last1 o) as Ho1. { pose proof Ho as ([_ Hr0 _ _ _] & _ & HL1). apply (standing_grow last); [done|lia|lia]. }
  eapply yields_then; [apply (skip_pairs_ok win pos hist l ms n newLen Hl); lia|intros offs (i & m & dist & -> & Hi & Hm & _)].
  destruct (pk_at _ _ _ _ _ _ _ Hl i m dist Hi) as (_ & A2 & _ & A4 & _). rewrite A2. opt.
  pose proof (fs_hist _ _ _ _ Hs) as Hh. change (15 <<< 28) with 4026531840 in Hh.
  eapply yields_then; [apply (BSR2_RET_ok nfb hist p t Hp); lia|intros slot Hslot]. cbn beta in Hslot.
  apply (yields_loop (fun '(len, offs, dist, slot, last', o') => exists i m, offs = 2 * Z.of_nat i /\ l !! i = Some (m, dist) /\ 2 <= len <= m /\
      (kNumFullDistances <= dist -> is_slot slot dist /\ 0 <= slot) /\ last1 <= last' /\ grown last1 o last' o')
    (fun '(len, _, _, _, _, _) => Z.to_nat (newLen - len)) (fun '(last', o') => grown last o last' o')).
  2:{ exists i, m. split_and!; try done; try lia. }
  2:{ lia. }
  clear i m dist Hi Hm A2 A4 slot Hslot. intros [[[[[len offs] dist] slot] last2] o2] (i & m & -> & Hi & Hlen & Hslot & Hl12 & Hg).
  destruct (pk_at _ _ _ _ _ _ _ Hl i m dist Hi) as (A1 & _ & A3 & A4 & A5). pose proof (proj1 (proj2 Hg)) as Ho2.
  destruct (match_symbol dist A4) as (M1 & M2 & M3).
  pose proof (match_step_ok last2 o2 len m dist slot ps price Ho2 Hps Hprice A3 A4 ltac:(lia) ltac:(lia) ltac:(lia) Hslot) as Hstep. revert Hstep.
  destruct (GET_PRICE_LEN (lenEnc t) ps len) as [x|]; [|done]. opt. destruct (distance_price t len dist slot) as [y|]; [|done]. opt. cbv zeta.
  destruct (relax (k + len) _ len _ 0 o2) as [o3|]; [|done]. opt. intros (Ho3 & He3 & Hx). rewrite A1. opt.
  assert (grown last1 o last2 o3) as Hg3 by (apply (grown_trans _ last2 _ _ o2); [done|]; split; [lia|by split]).
  assert (grown last o last1 o) as Hg0 by (split; [lia|split; [done|apply extended_refl]]).
  destruct (Z.eqb_spec len m) as [->|Hne]; cbn [yields].
  2:{ split; [|lia]. exists i, m. split_and!; (done || lia). }
  replace (pos - dist - 1) with (pos - (dist + 1)) by lia. destruct (next_states (state q) (ew_state _ settled_wf)) as (_ & E2 & _).
  eapply yields_then; [apply (try_after_ok last2 o3 position m nfull _ (dist + 1) _ _ _ (2 * bit_max + 10240)); try done; try lia|].
  - apply (valid_match win nfb hist d); [done|done|done|]. pose proof (fs_nfb _ _ _ _ Hs). lia.
  - eexists. split; [exact E2|]. unfold next_of. destruct (state q <? 7); lia.
  - cbn. lia.
  - intros [last4 o4] Hg4. cbv zeta. assert (grown last1 o last4 o4) as Hg' by (by apply (grown_trans _ last2 _ _ o3)).
    destruct (Z.eqb_spec (2 * Z.of_nat i + 2) n) as [En|En]; [by apply (grown_trans _ last1 _ _ o)|].
    destruct (pk_size _ _ _ _ _ _ _ Hl) as [Hn _]. pose proof (lookup_lt_Some _ _ _ Hi) as Hlt.
    destruct (pair_at l (S i)) as (m' & dist' & Hi'); [lia|]. destruct (pk_at _ _ _ _ _ _ _ Hl (S i) m' dist' Hi') as (_ & B2 & _ & B4 & B5).
    pose proof (pair_before _ _ _ _ _ _ _ Hl i (S i) _ _ _ _ Hi Hi' ltac:(lia)) as Hmm.
    replace (2 * Z.of_nat i + 2 + 1) with (2 * Z.of_nat (S i) + 1) by lia. rewrite B2. opt.
    eapply yields_then; [apply (BSR2_RET_ok nfb hist p t Hp); lia|intros slot' Hslot']. cbn beta in Hslot'. cbn [yields]. split; [|lia].
    exists (S i), m'. split_and!; try done; try lia. pose proof (proj1 Hg4). lia.
Qed.
End Place.
