(* ===== verification/LzmaOptStart.v ===== *)
(** * Normal mode: the first position

    The beginning of GetOptimum (LzmaEncOpt.v): the lengths of the four repeats, and the steps
    from the first position, which fill [opt]. *)

From stdpp Require Import base numbers list list_numbers.
From Stdlib Require Import ZArith Lia.
From S2P Require Import Prelude SzTypes RangeEnc LzmaEnc LzmaDist LzmaSymbols LzmaRun LzmaPrices LzmaPricesOk MatchFinder LzmaEncFast LzmaEncOpt LzmaOptPath LzmaOptPrices LzmaFastOk LzmaOptPairs LzmaOptSteps.
Local Open Scope Z_scope.
Local Open Scope word_scope.

(** ** The repeats *)

Section Repeats.
Context (win : list Z) (pos av : Z).
Abbreviation L := (Z.of_nat (length win)).

(** The lengths of the first repeats of [all]: none, or as long as the data repeats. *)
Definition lens_ok (all lens : list Z) : Prop :=
  forall i x, lens !! i = Some x -> x = 0 \/ exists rep, all !! i = Some rep /\ match_at win pos x rep /\ 2 <= x <= av.

(** The longest is at [idx]. *)
Definition longest (lens : list Z) (idx : Z) : Prop :=
  exists best, rd lens idx = Some best /\ forall i x, lens !! i = Some x -> x <= best.

Lemma longest_snoc lens idx x :
  lens = [] /\ idx = 0 \/ longest lens idx -> 0 <= x ->
  yields (rd (lens ++ [x]) idx) (fun best => longest (lens ++ [x]) (if best <? x then Z.of_nat (length lens) else idx)).
Proof using Type.
  intros [[-> ->]|(best & Hb & Hall)] Hx.
  - change (rd ([] ++ [x]) 0) with (Some x). cbn [yields]. rewrite Z.ltb_irrefl. exists x. split; [done|]. intros i y Hi. apply list_lookup_singleton_Some in Hi as [_ <-]. lia.
  - pose proof (rd_range _ _ _ Hb) as Hr. rewrite rd_app_l, Hb by lia. cbn. destruct (Z.ltb_spec best x) as [Hlt|Hge].
    + exists x. split; [rewrite rd_app_r, Z.sub_diag by lia; done|]. intros i y Hi. apply lookup_snoc_Some in Hi as [[_ Hi]|[_ <-]]; [|lia].
      specialize (Hall i y Hi). lia.
    + exists best. split; [by rewrite rd_app_l by lia|]. intros i y Hi. apply lookup_snoc_Some in Hi as [[_ Hi]|[_ <-]]; [by apply (Hall i)|lia].
Qed.

Lemma lens_snoc all lens x :
  lens_ok all lens -> x = 0 \/ (exists rep, all !! length lens = Some rep /\ match_at win pos x rep /\ 2 <= x <= av) -> lens_ok all (lens ++ [x]).
Proof using Type. intros Hl Hx i y Hi. apply lookup_snoc_Some in Hi as [[_ Hi]|[-> <-]]; [by apply Hl|done]. Qed.

Lemma rep_lens_ok all : 2 <= av <= LZMA_MATCH_LEN_MAX -> pos + av <= L -> Forall (fun rep => 1 <= rep <= pos) all ->
  forall reps lens idx, reps = drop (length lens) all -> lens_ok all lens -> lens = [] /\ idx = 0 \/ longest lens idx -> 0 < Z.of_nat (length lens + length reps) ->
  yields (rep_lens win pos av (Z.of_nat (length lens)) reps lens idx) (fun '(lens', idx') => lens_ok all lens' /\ longest lens' idx' /\
    (length lens' = (length lens + length reps)%nat \/ rd lens' idx' = Some LZMA_MATCH_LEN_MAX)).
Proof using Type.
  intros Hav HL Hall. induction reps as [|rep reps IH]; intros lens idx E Hl Hidx Hlen; cbn [rep_lens].
  { cbn. destruct Hidx as [[-> _]|Hidx]; [by cbn in Hlen|]. split; [done|]. split; [done|]. left. cbn. lia. }
  assert (all !! length lens = Some rep) as Erep.
  { rewrite <-(Nat.add_0_r (length lens)), <-lookup_drop, <-E. done. }
  assert (reps = drop (S (length lens)) all) as E'.
  { replace (S (length lens)) with (length lens + 1)%nat by lia. by rewrite <-drop_drop, <-E. }
  assert (1 <= rep <= pos) as Hr by (rewrite Forall_lookup in Hall; by apply (Hall _ _ Erep)).
  destruct (two_differ_ok win pos rep) as (b & -> & Hb); [lia|done|]. opt.
  assert (forall lens' : list Z, length lens' = S (length lens) -> Z.of_nat (length lens) + 1 = Z.of_nat (length lens')) as Hsucc by lia. destruct b.
  - rewrite (Hsucc (lens ++ [0])) by (rewrite length_app; cbn; lia).
    eapply yields_mono; [apply IH|].
    + by rewrite length_app, Nat.add_1_r.
    + apply lens_snoc; [done|by left].
    + right. destruct Hidx as [[-> ->]|(best & Hb' & Hmax)].
      * exists 0. split; [done|]. intros i y Hi. apply list_lookup_singleton_Some in Hi as [_ <-]. lia.
      * exists best. pose proof (rd_range _ _ _ Hb') as Hrg. split; [by rewrite rd_app_l by lia|]. intros i y Hi.
        apply lookup_snoc_Some in Hi as [[_ Hi]|[_ <-]]; [by apply (Hmax i)|]. rewrite rd_lookup in Hb' by lia.
        destruct (Hl _ _ Hb') as [->|(? & _ & _ & ?)]; lia.
    + rewrite length_app. cbn. lia.
    + intros [lens' idx'] (H1 & H2 & H3). split; [done|]. split; [done|]. rewrite length_app in H3. cbn in *. destruct H3 as [->|?]; [left; lia|by right].
  - destruct (rep_len_ok win pos rep av) as (len & -> & Hlen' & Hm); [by apply Hb|lia|done|]. opt. cbv zeta.
    assert (lens_ok all (lens ++ [len])) as Hl' by (apply lens_snoc; [done|right; by exists rep]).
    eapply yields_then; [apply longest_snoc; [done|lia]|intros best Hbest; cbn beta in Hbest].
    destruct (Z.eqb_spec len LZMA_MATCH_LEN_MAX) as [E273|_].
    + cbn. split; [done|]. split; [done|]. right. destruct Hbest as (top & Ht & Hmax). rewrite Ht. f_equal.
      assert (len <= top) by (apply (Hmax (length lens)); rewrite lookup_app_r, Nat.sub_diag by lia; done).
      pose proof (rd_range _ _ _ Ht). rewrite rd_lookup in Ht by lia. destruct (Hl' _ _ Ht) as [->|(? & _ & _ & ?)]; lia.
    + rewrite (Hsucc (lens ++ [len])) by (rewrite length_app; cbn; lia).
      eapply yields_mono; [apply IH; [by rewrite length_app, Nat.add_1_r|done|by right|rewrite length_app; cbn; lia]|].
      intros [lens' idx'] (H1 & H2 & H3). split; [done|]. split; [done|]. rewrite length_app in H3. cbn in *. destruct H3 as [->|?]; [left; lia|by right].
Qed.
End Repeats.

Section First.
Context (win : list Z) (nfb hist d : Z) (Hs : fast_settings win nfb hist d) (win_bytes : bytes win).
Context (p : CLzmaEnc) (t : price_tables) (Hp : priced nfb hist p t) (pos : Z) (Hpos : 1 <= pos) (Hreps : reps_in d p pos).

Abbreviation L := (Z.of_nat (length win)).
Abbreviation cost_max := 16384.
Abbreviation at_start := (standing win d p pos 0 []).
Abbreviation extends := (extended win d p pos 0).

Lemma reps_at_start : reps_in d (after p []) (pos + 0).
Proof using Hreps. by rewrite Z.add_0_r. Qed.

Lemma start_walk : walk win d p pos [].
Proof using Type. done. Qed.

(** ** Repeats and matches *)

Lemma first_reps_ok last price ps av :
  pos_state_in p ps -> 0 <= price <= 2 * bit_max -> av <= last ->
  forall lens o i all, at_start last o -> all = reps p -> 0 <= i ->
  (forall j x, lens !! j = Some x -> x = 0 \/ exists rep, rd all (i + Z.of_nat j) = Some rep /\ match_at win pos x rep /\ 2 <= x <= av /\ x <= nfb) ->
  yields (first_reps p t price ps i lens o) (fun o' => at_start last o' /\ extends o o').
Proof using Hs Hp Hreps.
  intros Hps Hprice Hav. pose proof (ew_state _ (pd_wf _ _ _ _ Hp)) as Hst.
  induction lens as [|x lens IH]; intros o i all Ho -> Hi Hlens; cbn [first_reps]; [split; [done|apply extended_refl]|].
  eapply (yields_then (fun o' => at_start last o' /\ extends o o')).
  - destruct (Z.ltb_spec x 2) as [|Hx]; [split; [done|apply extended_refl]|].
    destruct (Hlens 0%nat x eq_refl) as [->|(rep & Ej & Hm & Hxav & Hxn)]; [lia|]. rewrite Z.add_0_r in Ej.
    destruct (rep_bounds d p pos 0 [] reps_at_start i rep Ej) as (_ & _ & Hi4 & _).
    eapply yields_then; [apply (GetPrice_PureRep_ok nfb hist p t Hp); done|intros y Hy; cbn beta in Hy].
    pose proof (u32_le (price + y) (5 * bit_max) ltac:(lia)).
    apply (rep_fill_ok win nfb hist d Hs p t Hp pos 0 [] start_walk eq_refl reps_at_start last o _ ps i rep x); try done; try lia. by rewrite Z.add_0_r.
  - intros o2 (G1 & G2). eapply yields_mono; [apply (IH o2 (i + 1) (reps p)); [done|done|lia|]|].
    + intros j y Hj. replace (i + 1 + Z.of_nat j) with (i + Z.of_nat (S j)) by lia. by apply (Hlens (S j)).
    + intros o3 (G3 & G4). split; [done|]. by apply (extended_trans _ _ _ _ _ _ o2).
Qed.

Lemma first_matches_ok l ms n last price ps mainLen len o :
  at_start last o -> pairs_ok win pos hist l ms n mainLen -> pos_state_in p ps -> 0 <= price <= 2 * bit_max ->
  len <= mainLen -> mainLen <= nfb -> mainLen <= last ->
  yields (first_matches p t ms n mainLen price ps len o) (fun o' => at_start last o' /\ extends o o').
Proof using Hs Hp.
  intros Ho Hl Hps Hprice Hlen Hnfb Hlast. unfold first_matches.
  eapply yields_then; [apply (first_pair_ok win pos hist l ms n mainLen Hl len Hlen)|intros offs (i & m & dist & -> & Hi & Hm)].
  set (len' := if len <? 2 then 2 else len) in *. assert (2 <= len') as Hlen' by (unfold len'; destruct (Z.ltb_spec len 2); lia).
  clearbody len'. clear len Hlen. rename len' into len. apply (yields_loop (fun '(len, offs, o') => exists i m dist, offs = 2 * Z.of_nat i /\ l !! i = Some (m, dist) /\ 2 <= len <= m /\ at_start last o' /\ extends o o')
    (fun '(len, _, _) => Z.to_nat (mainLen - len))).
  2:{ exists i, m, dist. split_and!; try done; try lia. }
  2:{ lia. }
  clear i m dist Hi Hm. clear len Hlen'. intros [[len offs] o2] (i & m & dist & -> & Hi & Hlen & Ho2 & He).
  destruct (pk_at _ _ _ _ _ _ _ Hl i m dist Hi) as (A1 & A2 & A3 & A4 & A5). rewrite A2. opt.
  pose proof (fs_hist _ _ _ _ Hs) as Hh. change (15 <<< 28) with 4026531840 in Hh.
  assert (yields (if dist <? kNumFullDistances then Some 0 else BSR2_RET (g_FastPos p) dist) (fun slot => kNumFullDistances <= dist -> is_slot slot dist /\ 0 <= slot)) as Hslot.
  { destruct (Z.ltb_spec dist kNumFullDistances); [cbn; lia|]. apply (BSR2_RET_ok nfb hist p t Hp). lia. }
  destruct (if dist <? kNumFullDistances then _ else _) as [slot|]; [|done]. cbn [yields] in Hslot.
  pose proof (match_step_ok win nfb hist d Hs p t Hp pos 0 [] start_walk eq_refl last o2 len m dist slot ps price Ho2 Hps ltac:(lia)
    ltac:(by rewrite Z.add_0_r) A4 ltac:(lia) ltac:(lia) ltac:(lia) Hslot) as Hstep. revert Hstep. change (0 + len) with len.
  destruct (GET_PRICE_LEN (lenEnc t) ps len) as [x|]; [|done]. opt. destruct (distance_price t len dist slot) as [y|]; [|done]. opt.
  destruct (relax len _ len _ 0 o2) as [o3|]; [|done]. opt. intros (Ho3 & He3 & _). rewrite A1. opt. cbn [yields].
  assert (extends o o3) by (by apply (extended_trans _ _ _ _ _ _ o2)).
  destruct (Z.eqb_spec len m) as [->|Hne]; [|split; [exists i, m, dist; split_and!; (done || lia)|lia]].
  destruct (Z.eqb_spec (2 * Z.of_nat i + 2) n) as [En|En]; [done|].
  destruct (pk_size _ _ _ _ _ _ _ Hl) as [Hn _]. pose proof (lookup_lt_Some _ _ _ Hi) as Hlt.
  destruct (pair_at l (S i)) as (m' & dist' & Hi'); [lia|]. destruct (pk_at _ _ _ _ _ _ _ Hl (S i) m' dist' Hi') as (_ & _ & _ & _ & B5).
  pose proof (pair_before _ _ _ _ _ _ _ Hl i (S i) _ _ _ _ Hi Hi' ltac:(lia)) as Hmm.
  split; [|lia]. exists (S i), m', dist'. split_and!; (done || lia).
Qed.

(** ** The first byte *)

(** What [opt] is like between two searches. *)
Definition idle (o : list COptimal) : Prop := length o = Z.to_nat kNumOpts /\ forall j, 2 <= j < kNumOpts -> free o j.

(** The first two entries, when the literal and the short repeat were tried. *)
Record first_byte (o o' : list COptimal) (c : COptimal) : Prop := {
  fb_rest : length o' = length o /\ forall j, 2 <= j -> rd o' j = rd o j;
  fb_zero : exists e, rd o' 0 = Some e /\ o_state e = state p;
  fb_one : rd o' 1 = Some c /\ 0 <= o_price c <= cost_max /\ o_extra c = 0 /\ choice_valid p win d pos 1 (o_dist c) = true
}.

Lemma first_short_rep ps price len cb o c :
  first_byte o o c -> 1 < Z.of_nat (length o) -> pos_state_in p ps -> rd win pos = Some cb -> rd win (pos - reps0 p) = Some cb -> 0 <= price <= 2 * bit_max ->
  yields (s ← GetPrice_ShortRep p t (state p) ps; relax 1 (u32 (price + s)) len 0 0 o) (fun o' => exists c', first_byte o o' c').
Proof using Hp Hreps.
  intros [F1 F2 F3] Hlen Hps H1 H2 Hprice. pose proof F3 as (F4 & F5 & F6 & F7).
  eapply yields_then; [apply (GetPrice_ShortRep_ok nfb hist p t Hp); [apply (ew_state _ (pd_wf _ _ _ _ Hp))|done]|intros x Hx; cbn beta in Hx].
  pose proof (u32_le (price + x) (4 * bit_max) ltac:(lia)). unfold relax. rewrite F4. opt.
  destruct (_ <? o_price c); [|exists c; by constructor]. rewrite wrz_Some by lia. cbn [yields]. exists (set_step (u32 (price + x)) len 0 0 c).
  constructor.
  - split; [by rewrite length_insert|]. intros j Hj. apply rd_insert_ne; lia.
  - destruct F2 as (e & He & Est). exists e. rewrite rd_insert_ne by lia. done.
  - rewrite rd_lookup, list_lookup_insert_eq by lia. split; [done|]. cbn. split; [lia|]. split; [done|].
    pose proof (valid_short_rep win d p pos 0 [] reps_at_start cb) as Hv. rewrite Z.add_0_r in Hv. by apply Hv.
Qed.

(** When the repeats and the matches are to be tried. *)
Lemma first_ready o o' c reps' last :
  first_byte o o' c -> idle o -> 2 <= last < kNumOpts -> pos + last <= L -> reps' = reps p ->
  yields (o ← update 1 (fun c => set_back 1 (o_dist c) c) o'; update 0 (fun c => set_place (o_state c) reps' c) o)
    (fun o2 => at_start last o2 /\ reached win d p pos 0 o2 1).
Proof using Hp.
  intros [[L1 F1] (e0 & He0 & Est) (F4 & F5 & F6 & F7)] [Hlen Hfree] Hlast HL ->. change kNumOpts with 2048 in *.
  assert (length o' = Z.to_nat 2048) as L0 by congruence.
  eapply yields_then; [apply update_ok; lia|intros o1 (L2 & (c1 & Hc1 & Hc1') & N1)].
  eapply yields_mono; [apply update_ok; lia|intros o2 (L3 & (e1 & He1 & He1') & N2)].
  assert (c1 = c) as -> by congruence. assert (e1 = e0) as -> by (rewrite N1 in He1 by lia; congruence).
  assert (rd o2 1 = Some (set_back 1 (o_dist c) c)) as E1 by (by rewrite N2 by lia).
  assert (reached win d p pos 0 o2 1) as Hr.
  { eexists. split; [exact E1|]. unfold entry. cbn [o_price o_len o_extra o_dist set_back]. rewrite F6. split; [lia|]. split; [split; [lia|split; [lia|by left]]|].
    split; [lia|]. exists []. split; [constructor|]. split; [|done]. by split. }
  split; [|done]. split; [|split; [constructor|done]]. constructor.
  - change (Z.to_nat kNumOpts) with (Z.to_nat 2048). lia.
  - change kNumOpts with 2048. lia.
  - intros j Hj. assert (j = 0) as -> by lia. eexists _, []. split; [exact He1'|]. split; [constructor|]. split; [done|]. split; [done|]. split; [done|].
    split; [|lia]. cbn. rewrite Est. apply wrap_small. unfold in_width. pose proof (ew_state _ (pd_wf _ _ _ _ Hp)). lia.
  - intros j Hj. destruct (Z.eq_dec j 1) as [->|]; [by right|left]. destruct (Hfree j) as (e & He & E); [lia|]. exists e. rewrite N2, N1, F1 by lia. done.
  - intros j Hj. destruct (Hfree j) as (e & He & E); [change kNumOpts with 2048 in Hj; lia|]. exists e. rewrite N2, N1, F1 by lia. done.
Qed.

Lemma idle_first o o' c : first_byte o o' c -> idle o -> idle o'.
Proof using Type.
  intros [[L1 F1] _ _] [H1 H2]. split; [congruence|]. intros j Hj. destruct (H2 j Hj) as (e & He & E). exists e. rewrite F1 by lia. done.
Qed.

Lemma first_steps_ok position lens last mainLen n ms o av :
  idle o -> 0 <= position -> pos + 2 <= L -> lens_ok win pos av (reps p) lens -> (0 < length lens)%nat -> av <= nfb ->
  (forall i x, lens !! i = Some x -> x <= last) -> 0 <= last < kNumOpts -> pos + last <= L -> mainLen <= last ->
  (mainLen = 0 \/ (exists l, pairs_ok win pos hist l ms n mainLen) /\ mainLen <= nfb) ->
  (last < 2 -> rd win pos = rd win (pos - reps0 p)) ->
  yields (first_steps win p t position pos (reps p) lens last mainLen n ms o) (fun '(o', stop) =>
    match stop with
    | Some back => idle o' /\ choice_valid p win d pos 1 back = true
    | None => at_start last o' /\ reached win d p pos 0 o' 1 /\ 2 <= last
    end).
Proof using Hs Hp Hreps Hpos win_bytes.
  intros Hidle Hposition HL2 Hlens Hne Hav Hmax Hlast HL Hmain Hpairs Hshort.
  pose proof Hidle as [Hlen Hfree]. change kNumOpts with 2048 in Hlast, Hlen. pose proof (ew_state _ (pd_wf _ _ _ _ Hp)) as Hst.
  destruct (rep_bounds d p pos 0 [] reps_at_start 0 (reps0 p) eq_refl) as (Hr & _ & _ & _). rewrite Z.add_0_r in Hr.
  destruct lens as [|len0 lens]; [cbn in Hne; lia|]. unfold first_steps. change (rd (reps p) 0) with (Some (reps0 p)). opt.
  destruct (rd_Some win pos) as [cb Ecb]; [lia|]. destruct (rd_Some win (pos - reps0 p)) as [mb Emb]; [lia|]. rewrite Ecb, Emb. opt.
  change (rd (len0 :: lens) 0) with (Some len0). opt. pose proof (pos_state_below nfb hist p t Hp position) as Hps.
  eapply yields_then; [apply update_ok; lia|intros o1 (L1 & (e0 & _ & E0) & N1)].
  eapply yields_then; [apply (row_price nfb hist p t Hp); [done|done|done|by left]|intros x Hx; cbn beta in Hx].
  eapply yields_then; [apply (literal_price_ok win nfb hist p t Hp win_bytes); [done|lia]|intros y Hy; cbn beta in Hy].
  pose proof (u32_le (x + y) (9 * bit_max) ltac:(lia)).
  eapply yields_then; [apply update_ok; lia|intros o2 (L2 & (e1 & _ & E1) & N2)].
  assert (first_byte o o2 (set_step (u32 (x + y)) (o_len e1) MARK_LIT 0 e1)) as Hfb.
  { constructor; [split; [congruence|]; intros j Hj; by rewrite N2, N1 by lia| |].
    - eexists. split; [rewrite N2 by lia; exact E0|]. cbn. apply wrap_small. unfold in_width. lia.
    - split; [exact E1|]. cbn. split; [lia|]. split; [done|]. apply valid_literal. lia. }
  eapply yields_then; [apply (row_price nfb hist p t Hp); [done|done|done|by right]|intros z Hz; cbn beta in Hz].
  eapply yields_then; [apply (state_price nfb hist p t Hp); [done|done|by right]|intros w Hw; cbn beta in Hw].
  pose proof (u32_le (z + w) (2 * bit_max) ltac:(lia)).
  eapply (yields_then (fun '(o3, stop) => exists c, first_byte o o3 c /\ match stop with Some b => b = o_dist c | None => 2 <= last end)).
  - destruct (Z.eqb_spec mb cb) as [->|Hne']; cbn [andb].
    2:{ cbn. eexists. split; [exact Hfb|]. destruct (Z.lt_ge_cases last 2) as [Hlt|]; [|done]. specialize (Hshort Hlt). congruence. }
    destruct (Z.eqb_spec len0 0) as [->|Hl0].
    2:{ cbn. eexists. split; [exact Hfb|]. destruct (Hlens 0%nat len0 eq_refl) as [?|(? & _ & _ & ?)]; [lia|]. specialize (Hmax 0%nat len0 eq_refl). lia. }
    pose proof Hfb as [_ _ (Hone & _)].
    assert (first_byte o2 o2 (set_step (u32 (x + y)) (o_len e1) MARK_LIT 0 e1)) as Hfb2 by (by destruct Hfb; constructor).
    pose proof (first_short_rep (position &&& pbMask p) (u32 (z + w)) (o_len (set_step (u32 (x + y)) (o_len e1) MARK_LIT 0 e1)) cb o2 _ Hfb2 ltac:(lia) Hps Ecb Emb ltac:(lia)) as Hsr.
    revert Hsr. destruct (GetPrice_ShortRep p t (state p) (position &&& pbMask p)) as [sp|]; [|done]. opt. rewrite Hone. opt.
    destruct (relax 1 _ _ 0 0 o2) as [o3|]; [|done]. opt. intros (c' & Hfb3). pose proof Hfb3 as [[L3 N3] F2 F3]. rewrite (proj1 F3). opt. cbn [yields].
    exists c'. split; [constructor; [|done|done]|].
    + split; [congruence|]. intros j Hj. rewrite N3, N2, N1 by lia. done.
    + destruct (Z.ltb_spec last 2); [done|lia].
  - intros [o3 stop] (c & Hfb3 & Hstop). destruct stop as [back|].
    { cbn. split; [by apply (idle_first o o3 c)|]. rewrite Hstop. apply Hfb3. }
    pose proof (first_ready o o3 c (reps p) last Hfb3 Hidle ltac:(change kNumOpts with 2048; lia) HL eq_refl) as Hready. revert Hready.
    destruct (update 1 (fun c0 => set_back 1 (o_dist c0) c0) o3) as [o4|]; [|done]. opt.
    destruct (update 0 (fun c0 => set_place (o_state c0) (reps p) c0) o4) as [o5|]; [|done]. opt. intros [Hat Hreach].
    eapply yields_then; [apply (first_reps_ok last (u32 (z + w)) _ last Hps ltac:(lia) ltac:(lia) _ _ 0 (reps p)); [exact Hat|reflexivity|lia|]|].
    + intros j v Hj. destruct (Hlens j v Hj) as [->|(rep & Er & Hm & Hv)]; [by left|right]. exists rep.
      rewrite Z.add_0_l, rd_lookup by lia. rewrite Nat2Z.id. specialize (Hmax j v Hj). split_and!; (done || lia).
    + intros o6 (G1 & G2). eapply (yields_then (fun o7 => at_start last o7 /\ extends o6 o7)).
      * destruct (Z.leb_spec (len0 + 1) mainLen) as [Hle|]; [|split; [done|apply extended_refl]].
        assert (0 <= len0) by (destruct (Hlens 0%nat len0 eq_refl) as [->|(? & _ & _ & ?)]; lia).
        destruct Hpairs as [?|[(l & Hl) Hmn]]; [lia|].
        assert (2 <= mainLen) as Hm2.
        { destruct (pk_last _ _ _ _ _ _ _ Hl) as [dd Hd]. destruct (pk_at _ _ _ _ _ _ _ Hl _ _ _ Hd) as (_ & _ & _ & _ & ?). lia. }
        eapply yields_then; [apply (state_price nfb hist p t Hp); [done|done|by left]|intros v Hv; cbn beta in Hv].
        pose proof (u32_le (z + v) (2 * bit_max) ltac:(lia)). apply (first_matches_ok l); try done; lia.
      * intros o7 (G3 & G4). cbn. split; [done|]. split; [|done]. apply G4, G2, Hreach.
Qed.
End First.
