(* ===== verification/LzmaOptOk.v ===== *)
(** * Normal mode chooses valid symbols

    GetOptimum (LzmaEncOpt.v) over a match finder that keeps the laws of MatchFinder.v: it
    always returns, and the symbols it leaves in [opt] are a valid way to code the data up to
    where the match finder stands. *)

From stdpp Require Import base numbers list list_numbers.
From Stdlib Require Import ZArith Lia.
From S2P Require Import Prelude SzTypes RangeEnc LzmaEnc LzmaDist LzmaSymbols LzmaRun LzmaPrices LzmaPricesOk MatchFinder LzmaEncFast LzmaEncOpt LzmaOptPath LzmaOptPrices LzmaFastOk LzmaOptPairs LzmaOptSteps LzmaOptStart.
Local Open Scope Z_scope.
Local Open Scope word_scope.

Section Optimum.
Context {M : Type} {IM : IMatchFinder2 M} {LM : MatchFinderLaws M}.
Context (win : list Z) (nfb hist d : Z) (Hs : fast_settings win nfb hist d) (win_bytes : bytes win).
Context (p : CLzmaEnc) (t : price_tables) (Hp : priced nfb hist p t) (pos0 : Z) (Hpos : 1 <= pos0) (Hreps : reps_in d p pos0).

Abbreviation L := (Z.of_nat (length win)).
Abbreviation cost_max := 16384.
Abbreviation is_open := (opts win d p pos0).
Abbreviation reach := (reached win d p pos0).
Abbreviation found_at := (found win nfb hist).

(** The distances stay behind the start of the data. *)
Lemma reps_after s : forall q pos, reps_in d q pos -> 1 <= pos -> walk win d q pos s -> pos + span s <= L -> reps_in d (after q s) (pos + span s).
Proof using Hs.
  induction s as [|[len dist] s IH]; intros q pos Hq Hpos1 Hw HL; [by rewrite Z.add_0_r|]. cbn [walk] in Hw. destruct Hw as [Hv Hw].
  destruct (choice_valid_ok _ _ _ _ _ _ Hv) as (_ & Hend & Hlen & _). change (span ((len, dist) :: s)) with (len + span s) in *.
  change (after q ((len, dist) :: s)) with (after (enc_after q len dist) s). rewrite Z.add_assoc. apply IH; [|lia|done|lia].
  apply (reps_in_after win nfb hist d); (done || lia).
Qed.

(** The pairs that a search found, if it found any. *)
Lemma found_pairs pos ds len : found_at pos ds len -> len < nfb ->
  len = 0 \/ (exists l, pairs_ok win pos hist l ds (Z.of_nat (length ds)) len) /\ 2 <= len.
Proof using Type.
  intros [[_ ->]|(m & ds' & dist & E & Hm & _ & _ & Hml & _ & Elen)] Hlt; [by left|right]. specialize (Elen Hlt) as ->.
  destruct (matches_pairs win pos hist nfb m ds Hm) as [[-> _]|[Hl _]]; [by destruct ds'|]. split; [done|lia].
Qed.

(** ** One place *)

(** What the search at [k] found, cut at [av] when it is longer. *)
Lemma cut_matches_ok pos (f : lookahead M) newLen av :
  newLen = 0 \/ (exists l, pairs_ok win pos hist l (matches f) (Z.of_nat (length (matches f))) newLen) /\ 2 <= newLen -> newLen <= nfb -> 2 <= av ->
  yields (if av <? newLen then pairs ← skip_pairs (matches f) av; ms ← wrz (matches f) pairs av; Some (av, pairs + 2, set_matches ms f)
          else Some (newLen, Z.of_nat (length (matches f)), f))
    (fun '(newLen', n, f') => mf f' = mf f /\ additionalOffset f' = additionalOffset f /\ newLen' <= nfb /\ newLen' <= av /\
       (newLen' = 0 \/ (exists l, pairs_ok win pos hist l (matches f') n newLen') /\ 2 <= newLen')).
Proof using Type.
  intros Hf Hn Hav. destruct (Z.ltb_spec av newLen) as [Hlt|Hge]; [|cbn [yields]; split_and!; (done || lia)].
  destruct Hf as [?|[(l & Hl) _]]; [lia|].
  eapply yields_then; [apply (skip_pairs_ok win pos hist l _ _ _ Hl); lia|intros offs (i & m & dist & -> & Hi & Hm & Hbefore)].
  eapply yields_then; [apply (cut_ok win pos hist l _ _ _ Hl i m dist av Hi); (done || lia)|intros ms' Hms]. cbn [yields].
  split_and!; try done; try lia. right. split; [eexists; exact Hms|lia].
Qed.

Lemma expand_ok k s last o position newLen (f : lookahead M) :
  1 <= k < kNumOpts - 64 -> walk win d p pos0 s -> span s = k -> standing win d p pos0 k s last o -> k + 1 <= last -> 0 <= position ->
  mf_GetPointerToCurrentPos (mf f) = pos0 + k + 1 -> numAvail f = L - (pos0 + k) -> found_at (pos0 + k) (matches f) newLen -> newLen < nfb ->
  yields (expand nfb win p t k last position (reps (after p s)) newLen (Z.of_nat (length (matches f))) (state (after p s)) f o) (fun sr =>
    s_cur sr = k /\ s_position sr = position /\ s_reps sr = reps (after p s) /\ mf (s_look sr) = mf f /\ additionalOffset (s_look sr) = additionalOffset f /\
    standing win d p pos0 k s (s_last sr) (s_opt sr) /\ reach k (s_opt sr) (k + 1) /\ last <= s_last sr).
Proof using Hs Hp win_bytes Hpos Hreps.
  intros Hk Hw Hspan Ho Hlast Hposition Hptr Hnum Hfound Hnew. pose proof Ho as (Hopts & Hc & HL). change kNumOpts with 2048 in Hk.
  assert (reps_in d (after p s) (pos0 + k)) as Hrk by (rewrite <-Hspan; apply reps_after; (done || lia)).
  assert (0 <= k) as Hk0 by lia. set (q := after p s) in *. pose proof (ew_state _ (settled_wf nfb hist p t Hp s)) as Hst. fold q in Hst.
  destruct (rep_bounds d p pos0 k s Hrk 0 (reps0 q) eq_refl) as (Hr & _ & _ & _). unfold expand.
  replace (mf_GetPointerToCurrentPos (mf f) - 1) with (pos0 + k) by lia. change (rd (reps q) 0) with (Some (reps0 q)). opt.
  destruct (rd_Some win (pos0 + k)) as [cb Ecb]; [lia|]. destruct (rd_Some win (pos0 + k - reps0 q)) as [mb Emb]; [lia|]. rewrite Ecb, Emb. opt.
  pose proof (pos_state_below nfb hist p t Hp position) as Hps.
  destruct (op_done _ _ _ _ _ _ _ Hopts k ltac:(lia)) as (c & s' & Hcur & _ & _ & _ & _ & _ & Hprice). specialize (Hprice ltac:(lia)). rewrite Hcur. opt.
  eapply yields_then; [apply (row_price nfb hist p t Hp); [done|done|done|by right]|intros x Hx; cbn beta in Hx].
  eapply yields_then; [apply (row_price nfb hist p t Hp); [done|done|done|by left]|intros y Hy; cbn beta in Hy].
  pose proof (u32_le (o_price c + x) (cost_max * k + bit_max) ltac:(lia)). pose proof (u32_le (o_price c + y) (cost_max * k + bit_max) ltac:(lia)).
  eapply yields_then; [apply (try_literal_ok win nfb hist d win_bytes p t Hp pos0 k s Hk0 Hw Hspan Hpos last); done || lia|].
  intros [[litPrice nextIsLit] o1] (Ho1 & He1 & Hr1 & Hlit).
  eapply yields_then; [apply (state_price nfb hist p t Hp); [done|done|by right]|intros z Hz; cbn beta in Hz].
  pose proof (u32_le (u32 (o_price c + x) + z) (cost_max * k + 2 * bit_max) ltac:(lia)). cbv zeta. rewrite Hnum.
  set (n := if kNumOpts - 1 - k <? L - (pos0 + k) then kNumOpts - 1 - k else L - (pos0 + k)).
  assert (n <= kNumOpts - 1 - k /\ pos0 + k + n <= L) as [Hn HnL] by (unfold n; destruct (Z.ltb_spec (kNumOpts - 1 - k) (L - (pos0 + k))); lia). clearbody n.
  eapply yields_then; [apply (try_short_rep_ok win nfb hist d p t Hp pos0 k s Hk0 Hw Hspan Hrk last); done || lia|].
  intros [next2 o2] (Ho2 & He2). assert (reach k o2 (k + 1)) as Hr2 by (by apply He2).
  destruct (Z.ltb_spec n 2) as [|Hn2]; [cbn; split_and!; (done || lia)|]. pose proof (fs_nfb _ _ _ _ Hs) as Hnfb.
  set (av := if n <=? nfb then n else nfb). assert (2 <= av <= nfb /\ av <= n) as [Hav Havn] by (unfold av; destruct (Z.leb_spec n nfb); lia). clearbody av.
  eapply (yields_then (fun '(last', o') => grown win d p pos0 k s last o2 last' o')).
  { destruct (_ && (2 <? n)) eqn:Ec; [|by apply grown_refl]. apply andb_true_iff in Ec as [_ Ec%Z.ltb_lt].
    apply (try_lit_rep_ok win nfb hist d Hs p t Hp pos0 k s Hk0 Hw Hspan Hrk Hpos); (done || lia). }
  intros [last3 o3] G3. eapply yields_then; [apply (try_reps_ok win nfb hist d Hs win_bytes p t Hp pos0 k s Hk0 Hw Hspan Hrk Hpos); try done; try lia; apply G3|].
  intros [[last4 startLen] o4] (G4 & Hsl). assert (grown win d p pos0 k s last o2 last4 o4) as G4' by (by apply (grown_trans _ _ _ _ _ _ _ last3 _ _ o3)).
  eapply yields_then; [apply (cut_matches_ok (pos0 + k) f newLen av); [by apply found_pairs|lia|lia]|].
  intros [[newLen' np] f'] (Emf & Eao & Hn1 & Hn3 & Hl).
  eapply (yields_then (fun '(last', o') => grown win d p pos0 k s last4 o4 last' o')).
  { destruct (Z.leb_spec startLen newLen'); [|apply grown_refl, G4]. destruct Hl as [?|[(l & Hl) _]]; [lia|].
    eapply yields_then; [apply (state_price nfb hist p t Hp); [done|done|by left]|intros w Hwp; cbn beta in Hwp].
    pose proof (u32_le (u32 (o_price c + x) + w) (cost_max * k + 2 * bit_max) ltac:(lia)).
    apply (try_matches_ok win nfb hist d Hs win_bytes p t Hp pos0 k s Hk0 Hw Hspan Hrk Hpos l); try done; try lia. apply G4. }
  intros [last5 o5] G5. assert (grown win d p pos0 k s last o2 last5 o5) as (G6 & G7 & G8) by (by apply (grown_trans _ _ _ _ _ _ _ last4 _ _ o4)).
  cbn. split_and!; try done. by apply G8.
Qed.

(** ** The search *)

Lemma opts_lookup k last o j : is_open k last o -> 0 <= j < kNumOpts -> exists e, rd o j = Some e.
Proof using Type.
  intros H Hj. apply rd_Some. rewrite (op_length _ _ _ _ _ _ _ H). change kNumOpts with 2048 in *. change (Z.to_nat 2048) with (Z.to_nat 2048). lia.
Qed.

Lemma cheapest_ok k last o :
  is_open k last o -> 0 <= k -> k + 1 <= last -> reach k o (k + 1) ->
  yields (cheapest (k + 1) last o) (fun best => k + 1 <= best <= last /\ reach k o best).
Proof using Type.
  intros Ho Hk Hlast Hr. pose proof (op_range _ _ _ _ _ _ _ Ho) as [_ Hnum]. pose proof Hr as (c & Hc & Hprice & _). unfold cheapest. rewrite Hc. opt.
  eapply yields_then; [apply (yields_while (fun '(j, price, best) => k + 1 < j <= last + 1 /\ k + 1 <= best <= last /\ reach k o best /\ price < kInfinityPrice)
    (fun '(j, _, _) => Z.to_nat (last + 1 - j)))|].
  - intros [[j price] best] (Hj & Hb & Hbest & Hinf) Hle%Z.leb_le. destruct (opts_lookup k last o j Ho) as [e He]; [lia|]. rewrite He. opt. cbn [yields].
    destruct (Z.leb_spec (o_price e) price); (split; [split_and!; try done; try lia|lia]).
    destruct (op_ahead _ _ _ _ _ _ _ Ho j) as [(e' & He' & Einf)|?]; [lia| |done]. assert (e' = e) as -> by congruence. lia.
  - split_and!; try done; try lia. change kNumOpts with 2048 in Hnum. change kInfinityPrice with 1073741824. lia.
  - lia.
  - intros [[j price] best] [(_ & Hb & Hbest & _) _]. done.
Qed.

(** The state of the loop at [s_cur sr], and at its end. *)
Record searching (s : syms) (sr : search M) : Prop := {
  sg_path : walk win d p pos0 s /\ span s = s_cur sr;
  sg_cur : 0 <= s_cur sr;
  sg_open : standing win d p pos0 (s_cur sr) s (s_last sr) (s_opt sr);
  sg_next : reach (s_cur sr) (s_opt sr) (s_cur sr + 1) /\ s_cur sr + 1 <= s_last sr;
  sg_reps : s_reps sr = reps (after p s) /\ 0 <= s_position sr;
  sg_look : mf_ok win nfb hist (mf (s_look sr)) /\ mf_GetPointerToCurrentPos (mf (s_look sr)) = pos0 + s_cur sr + 1 /\
    additionalOffset (s_look sr) = s_cur sr + 1
}.

Definition searched (sr : search M) : Prop :=
  (exists k, is_open k (s_last sr) (s_opt sr) /\ reach k (s_opt sr) (s_cur sr)) /\ s_cur sr <= s_last sr /\
  chosen win nfb hist pos0 (s_cur sr) (s_look sr).

(** The match finder is one position further, and what it found there is kept. *)
Lemma chosen_ahead len (f : lookahead M) newLen :
  mf_ok win nfb hist (mf f) -> 1 <= len -> mf_GetPointerToCurrentPos (mf f) = pos0 + len + 1 -> additionalOffset f = len + 1 ->
  found_at (pos0 + len) (matches f) newLen -> numAvail f = L - (pos0 + len) ->
  chosen win nfb hist pos0 len (set_longest newLen (Z.of_nat (length (matches f))) f).
Proof using Hs.
  intros Hm Hl Hptr Ho Hf Hn. destruct (mf_position _ _ _ _ Hm) as [Hr _]. pose proof (fs_len _ _ _ _ Hs).
  assert (u32 (additionalOffset f - len) = 1) as E by (rewrite Ho; replace (len + 1 - len) with 1 by lia; done).
  split; [cbn; lia|]. split; [done|]. split; [lia|]. constructor; cbn; rewrite ?E; [done|lia|by right].
Qed.

Lemma optimal_turn_ok s sr :
  searching s sr -> s_cur sr < kNumOpts - 64 ->
  yields (optimal_turn nfb win p t sr) (fun r => match r with
    | inl sr' => (exists s', searching s' sr') /\ s_cur sr' = s_cur sr + 1 /\ s_cur sr' < kNumOpts - 64
    | inr sr' => searched sr'
    end).
Proof using Hs Hp win_bytes Hpos Hreps.
  destruct sr as [k last position rs f o]. intros [[Hw Hspan] Hk Hopen [Hreach Hlast] [Ers Hposition] (Hm & Hptr & Hao)] Hnum. cbn [s_cur s_last s_position s_reps s_look s_opt] in *. subst rs.
  pose proof Hopen as (Hopts & Hc & HL). pose proof (op_range _ _ _ _ _ _ _ Hopts) as [_ Hlast2].
  unfold optimal_turn. cbn [s_cur s_last s_position s_reps s_look s_opt]. destruct (Z.eqb_spec (k + 1) last) as [E|Hne]; [subst last|].
  { cbn. split; [exists k; split; done|]. cbn. split; [lia|]. apply chosen_all with (hist := hist) (d := d); try done; lia. }
  destruct (Z.leb_spec (kNumOpts - 64) (k + 1)) as [Hfull|Hroom].
  { eapply yields_then; [apply (cheapest_ok k); done|intros best [Hb Hrb]].
    eapply (yields_then (fun f' => mf_ok win nfb hist (mf f') /\ mf_GetPointerToCurrentPos (mf f') = pos0 + best /\ additionalOffset f' = best)).
    - destruct (Z.eqb_spec (best - (k + 1)) 0); cbn [negb]; [cbn; split_and!; (done || lia)|].
      destruct (move_pos_ok win nfb hist d (best - (k + 1)) f) as (f' & -> & G1 & G2 & G3); [done|done|lia|lia|lia|]. cbn. split_and!; (done || lia).
    - intros f' (G1 & G2 & G3). cbn. split; [exists k; split; done|]. cbn. split; [lia|]. apply chosen_all with (hist := hist) (d := d); try done; lia. }
  destruct (ReadMatchDistances_ok win nfb hist d f Hs Hm) as (newLen & f' & -> & Hfound & Hm' & Hptr' & Hao' & Hav'); [lia|lia|]. opt.
  rewrite Hptr in *. replace (pos0 + k + 1) with (pos0 + (k + 1)) in * by lia. destruct (Z.leb_spec nfb newLen) as [|Hnew].
  { cbn [yields]. split; [exists k; split; done|]. cbn [s_cur s_last]. split; [lia|]. apply chosen_ahead; (done || lia). }
  eapply yields_then; [apply (settle_ok win d p pos0 k last o s); try done; [apply (pd_wf _ _ _ _ Hp)]|].
  intros [[st rs] o2] (s' & Hc' & Hw' & Hspan' & -> & -> & Hopts').
  eapply yields_then; [apply (expand_ok (k + 1) s' last o2); try done; try lia; apply (wrap_in_width 32); lia|].
  intros sr' (E1 & E2 & E3 & E4 & E5 & Hopen' & Hr' & Hlast'). cbn [yields]. rewrite E1. split; [|split; [done|lia]].
  exists s'. constructor; rewrite ?E1, ?E2, ?E3, ?E4, ?E5; try done; try lia.
  - split; [done|lia].
  - split; [done|]. apply (wrap_in_width 32). lia.
  - split_and!; (done || lia).
Qed.

(** The way back from the end of the search. *)
Lemma finish_ok sr :
  searched sr ->
  yields (o ← reset_prices (s_last sr) (s_opt sr); Backward (s_cur sr) o) (fun '(len, back, wr, wend, o') => exists rest,
    walk win d p pos0 ((len, back) :: rest) /\ stored o' wr rest /\ 0 <= wr /\ wr + Z.of_nat (length rest) = wend /\ wend <= kNumOpts /\ idle o' /\
    span ((len, back) :: rest) = s_cur sr).
Proof using Type.
  intros [(k & Hopts & Hr) [Hcur _]]. destruct (reached_path _ _ _ _ _ _ _ Hr) as (s & Hc & Hw & Hspan & Hpos').
  pose proof (op_range _ _ _ _ _ _ _ Hopts) as [_ Hlast]. pose proof (op_length _ _ _ _ _ _ _ Hopts) as Hlen. change kNumOpts with 2048 in *.
  eapply yields_then; [apply reset_prices_ok; lia|intros o1 (L1 & Hsame & Hfree & Hrest)].
  eapply yields_mono; [apply (Backward_ok (s_cur sr) o1 s); [|lia|lia]|].
  { apply (chain_same (s_opt sr)); [done|]. intros i e _. apply Hsame. }
  intros [[[[len back] wr] wend] o2] (rest & E & H1 & H2 & H3 & H4 & [L2 Hkept]). exists rest. rewrite <-E. split_and!; try done; try lia.
  split; [change (Z.to_nat kNumOpts) with (Z.to_nat 2048); lia|]. intros j Hj. change kNumOpts with 2048 in Hj.
  assert (free o1 j) as (e & He & Einf).
  { destruct (Z.le_gt_cases j (s_last sr)); [apply Hfree; lia|]. destruct (op_beyond _ _ _ _ _ _ _ Hopts j) as (e & He & Einf); [change kNumOpts with 2048; lia|].
    exists e. rewrite Hrest by lia. done. }
  destruct (Hkept j e He) as (e' & He' & E'). exists e'. split; [done|congruence].
Qed.

Lemma search_ok sr :
  searching [] sr -> s_cur sr = 0 -> yields (loop (S (Z.to_nat kNumOpts)) (optimal_turn nfb win p t) sr) searched.
Proof using Hs Hp win_bytes Hpos Hreps.
  intros Hsr E0. apply (yields_loop (fun sr => (exists s, searching s sr) /\ s_cur sr < kNumOpts - 64) (fun sr => Z.to_nat (kNumOpts - s_cur sr))).
  - intros sr1 [(s & Hs1) Hlt]. pose proof (sg_cur _ _ Hs1) as Hcur. eapply yields_mono; [by apply (optimal_turn_ok s)|].
    intros [sr2|sr2]; [|done]. intros (H1 & H2 & H3). split; [by split|]. lia.
  - split; [by exists []|]. rewrite E0. done.
  - lia.
Qed.

(** ** GetOptimum *)

(** The symbols that are left: the first one, those from [wr] to [wend], and a match finder
    that stands at their end. *)
Definition chooses (len back wr wend : Z) (f : lookahead M) (o : list COptimal) : Prop :=
  exists rest, walk win d p pos0 ((len, back) :: rest) /\ stored o wr rest /\ 0 <= wr /\ wr + Z.of_nat (length rest) = wend /\ wend <= kNumOpts /\
    idle o /\ chosen win nfb hist pos0 (span ((len, back) :: rest)) f.

Lemma chooses_one len back f o :
  choice_valid p win d pos0 len back = true -> idle o -> chosen win nfb hist pos0 len f -> chooses len back 0 0 f o.
Proof using Type.
  intros Hv Ho Hf. exists []. split; [by split|]. split; [intros i ? ?; by rewrite lookup_nil|]. split; [done|]. split; [done|]. split; [done|].
  split; [done|]. change (span [(len, back)]) with (len + 0). by rewrite Z.add_0_r.
Qed.

(** A repeat or a match that is long enough is taken at once. *)
Lemma take_at_once len back f o :
  mf_ok win nfb hist (mf f) -> mf_GetPointerToCurrentPos (mf f) = pos0 + 1 -> additionalOffset f = 1 -> 2 <= len -> pos0 + len <= L ->
  choice_valid p win d pos0 len back = true -> idle o ->
  yields (f ← move_pos (len - 1) f; Some (len, back, f, (o, 0, 0))) (fun '(len, back, f, (o, wr, wend)) => chooses len back wr wend f o).
Proof using Hs Hpos.
  intros Hm Hptr Ho Hlen HL Hv Hi. destruct (take_ok win nfb hist d pos0 len back (len - 1) p f) as (f' & -> & Hc); [done|done|lia|lia|lia|lia|lia|lia|done|].
  opt. by apply chooses_one.
Qed.

Lemma GetOptimum_ok position (f : lookahead M) o :
  look_ok win nfb hist pos0 f -> pos0 < L -> idle o -> 0 <= position ->
  yields (GetOptimum nfb win p t position f o) (fun '(len, back, f, (o, wr, wend)) => chooses len back wr wend f o).
Proof using Hs Hp win_bytes Hpos Hreps.
  intros Hf HL Ho Hposition. unfold GetOptimum. pose proof (fs_nfb _ _ _ _ Hs) as Hnfb. unfold LZMA_MATCH_LEN_MAX in *.
  destruct (begin_ok win nfb hist d pos0 f) as (len & g & -> & Hg & Hm & Ep & Eo & Ea); [done|done|lia|]. opt. rewrite Ea.
  assert (chooses 1 MARK_LIT 0 0 g o) as Hone.
  { apply chooses_one; [apply valid_literal; lia|done|apply (chosen_one win nfb hist d); (done || lia || by left)]. }
  destruct (Z.ltb_spec (L - pos0) 2); [done|].
  set (av := if 273 <? L - pos0 then 273 else L - pos0). assert (2 <= av <= LZMA_MATCH_LEN_MAX /\ pos0 + av <= L) as [Hav HavL].
  { unfold av, LZMA_MATCH_LEN_MAX. destruct (Z.ltb_spec 273 (L - pos0)); lia. }
  clearbody av. rewrite Ep. replace (pos0 + 1 - 1) with pos0 by lia.
  assert (Forall (fun rep => 1 <= rep <= pos0) (reps p)) as Hall.
  { destruct Hreps as [(R0 & R1 & R2 & R3) _]. unfold reps. repeat (apply Forall_cons_2; [done|]). apply Forall_nil_2. }
  eapply yields_then; [apply (rep_lens_ok win pos0 av (reps p) Hav HavL Hall (reps p) [] 0); [done|intros i x; by rewrite lookup_nil|by left|done]|].
  intros [lens idx] (Hlens & (best & Hbest & Hmax) & Hfull). rewrite Hbest. opt. pose proof (rd_range _ _ _ Hbest) as Hidx.
  pose proof Hbest as Hbest'. rewrite rd_lookup in Hbest' by lia. pose proof (Hlens _ _ Hbest') as Hb.
  destruct (Z.leb_spec nfb best) as [Hbig|Hsmall].
  { destruct Hb as [?|(rep & Er & Hmr & Hlen)]; [lia|]. pose proof Hmr as (_ & HLr & _). apply take_at_once; try done; try lia.
    apply (valid_rep win d p pos0 av); [done|lia|]. exists rep. split; [|done]. rewrite rd_lookup by lia. exact Er. }
  destruct (Z.leb_spec nfb len) as [Hge|Hlt].
  { destruct Hg as [[_ ->]|(m & ds & dist & Ed & Hmd & Hd & Hat & Hlen & Hml & _)]; [lia|]. pose proof Hat as (_ & HLm & _).
    destruct (last_pair ds m dist) as (_ & E2 & _). rewrite <-Ed in E2. rewrite E2. opt.
    apply take_at_once; try done; try lia. apply (valid_match win nfb hist d); (done || lia). }
  change (rd (reps p) 0) with (Some (reps0 p)). opt.
  destruct (rd_Some win pos0) as [cb Ecb]; [lia|]. pose proof Hall as Hall0. unfold reps in Hall0. apply Forall_cons_1 in Hall0 as [Hr0 _].
  destruct (rd_Some win (pos0 - reps0 p)) as [mb Emb]; [lia|]. rewrite Ecb, Emb. opt. cbv zeta.
  pose proof (found_pairs pos0 (matches g) len Hg Hlt) as Hpairs.
  assert (0 <= best <= av) as Hbestr by (destruct Hb as [->|(? & _ & _ & ?)]; lia).
  assert (0 <= len /\ pos0 + len <= L) as [Hlen0 HlenL].
  { destruct Hg as [[_ ->]|(m & ds & dist & _ & _ & _ & (_ & HLm & _) & Hlm & _)]; lia. }
  set (last := if best <=? len then len else best). assert (best <= last /\ len <= last /\ (last = best \/ last = len)) as Hlast by (unfold last; destruct (Z.leb_spec best len); lia).
  clearbody last. destruct ((last <? 2) && negb (cb =? mb)) eqn:Elit; [done|]. change kNumOpts with 2048 in *.
  eapply yields_then; [apply (first_steps_ok win nfb hist d Hs win_bytes p t Hp pos0 Hpos Hreps position lens last len _ (matches g) o nfb); try done; try lia|].
  - intros i x Hx. destruct (Hlens i x Hx) as [?|(rep & Er & Hmr & Hx2)]; [by left|right]. exists rep. specialize (Hmax i x Hx). split_and!; (done || lia).
  - intros i x Hx. specialize (Hmax i x Hx). lia.
  - change kNumOpts with 2048. unfold LZMA_MATCH_LEN_MAX in *. lia.
  - destruct Hpairs as [?|[? _]]; [by left|right; split; [done|lia]].
  - intros Hlt2. rewrite (proj2 (Z.ltb_lt _ _) Hlt2) in Elit. apply negb_false_iff, Z.eqb_eq in Elit. congruence.
  - intros [o1 stop] Hstop. destruct stop as [back|].
    { destruct Hstop as [Hi Hv]. apply chooses_one; [done|done|]. apply (chosen_one win nfb hist d); (done || lia || by left). }
    destruct Hstop as (Hopen & Hr1 & Hl2).
    eapply yields_then; [apply search_ok; [|done]|].
    + constructor; cbn [s_cur s_last s_position s_reps s_look s_opt]; split_and?; done || lia.
    + intros sr Hsr. pose proof (finish_ok sr Hsr) as Hfin. revert Hfin. destruct (reset_prices _ _) as [o2|]; [|done]. opt.
      destruct (Backward _ o2) as [[[[[len' back] wr] wend] o3]|]; [|done]. opt. cbn [yields]. intros (rest & G1 & G2 & G3 & G4 & G5 & G6 & G7).
      exists rest. split_and!; try done. rewrite G7. apply Hsr.
Qed.
End Optimum.
