(* ===== verification/LzmaEncRun.v ===== *)
(** * Both modes as a plan

    Coding block by block with the choices of GetOptimumFast or GetOptimum (LzmaEncBlocks.v)
    is coding a valid parse of the data (LzmaEnc.v): a simulation, turn by turn, that builds
    the parse.  The two encoders differ in the counters of the price refreshes only. *)

From stdpp Require Import base numbers list list_numbers.
From Stdlib Require Import ZArith Lia.
From S2P Require Import Prelude SzTypes LzmaParse RangeEnc LzmaEnc RangeCoder LzmaCodec LzmaDist LzmaSymbols LzmaRun LzmaRoundtrip LzmaPrices LzmaPricesOk MatchFinder LzmaEncFast LzmaEncOpt LzmaEncBlocks LzmaOptPath LzmaOptPrices LzmaFastOk LzmaOptStart LzmaOptOk.
Local Open Scope Z_scope.
Local Open Scope word_scope.

(** ** The counters *)

Lemma counted_refl p : set_counts_eq p p.
Proof. exists (matchPriceCount p), (repLenEncCounter p). by destruct p. Qed.

Lemma counted_trans p1 p2 p3 : set_counts_eq p1 p2 -> set_counts_eq p2 p3 -> set_counts_eq p1 p3.
Proof. intros (a & b & ->) (a' & b' & ->). by exists a', b'. Qed.

Lemma counted_after p q len dist : set_counts_eq p q -> set_counts_eq (enc_after p len dist) (enc_after q len dist).
Proof.
  intros (a & b & ->). unfold enc_after, rotate.
  destruct (dist =? MARK_LIT), (dist <? 4), (len =? 1), (dist =? 0), (dist =? 1), (dist =? 2); eexists _, _; reflexivity.
Qed.

Lemma counted_cod c p q : set_counts_eq p q -> set_counts_eq (set_cod c p) (set_cod c q).
Proof. intros (a & b & ->). by exists a, b. Qed.

Lemma counted_pos n p q : set_counts_eq p q -> set_counts_eq (set_pos n p) (set_pos n q).
Proof. intros (a & b & ->). by exists a, b. Qed.

Lemma WriteEndMarker_counts a b p n : WriteEndMarker (set_counts a b p) n = p' ← WriteEndMarker p n; Some (set_counts a b p').
Proof.
  unfold WriteEndMarker. cbn [state cod set_counts].
  repeat match goal with
  | |- context [match ?o with Some _ => _ | None => _ end] => fail 1
  | |- context [mbind _ ?o] => destruct o as [?|]; [|reflexivity]; opt
  | |- context [let '(_, _) := ?x in _] => destruct x
  end; try reflexivity.
Qed.

Lemma CheckErrors_counts a b p e : CheckErrors (set_counts a b p) e = ((CheckErrors p e).1, set_counts a b (CheckErrors p e).2).
Proof. unfold CheckErrors. cbn [result cod set_counts finished]. by destruct (not_ok (result p)). Qed.

Lemma Flush_counts a b p n e : Flush (set_counts a b p) n e = '(r, p') ← Flush p n e; Some (r, set_counts a b p').
Proof.
  unfold Flush. change (set_result true (result (set_counts a b p)) (set_counts a b p)) with (set_counts a b (set_result true (result p) p)).
  set (p0 := set_result true (result p) p). change (writeEndMark (set_counts a b p0)) with (writeEndMark p0). change (pbMask (set_counts a b p0)) with (pbMask p0).
  assert ((if writeEndMark p0 then WriteEndMarker (set_counts a b p0) (n &&& pbMask p0) else Some (set_counts a b p0)) =
    p' ← (if writeEndMark p0 then WriteEndMarker p0 (n &&& pbMask p0) else Some p0); Some (set_counts a b p')) as ->.
  { destruct (writeEndMark p0); [apply WriteEndMarker_counts|done]. }
  destruct (if writeEndMark p0 then WriteEndMarker p0 (n &&& pbMask p0) else Some p0) as [p1|]; [|done]. opt. change (cod (set_counts a b p1)) with (cod p1).
  destruct (RangeEnc_FlushData (rc (cod p1))) as [r|]; [|done]. opt.
  change (set_cod ?c (set_counts a b p1)) with (set_counts a b (set_cod c p1)). rewrite CheckErrors_counts. by destruct (CheckErrors _ e).
Qed.

Section Run.
Context {M : Type} {IM : IMatchFinder2 M} {LM : MatchFinderLaws M}.
Context (fastMode : bool) (win : list Z) (nfb hist d : Z) (Hs : fast_settings win nfb hist d) (win_bytes : bytes win).

Abbreviation L := (Z.of_nat (length win)).
Abbreviation look_at := (look_ok win nfb hist).
Abbreviation chosen_at := (chosen win nfb hist).
Abbreviation counted := set_counts_eq.

Lemma win_size : L < 2 ^ 32.
Proof using Hs. exact (fs_len _ _ _ _ Hs). Qed.

(** ** What the next choice depends on *)

(** Only the repeated distances matter for what is valid. *)
Lemma reps_enc_after p q len back : reps p = reps q -> reps (enc_after p len back) = reps (enc_after q len back).
Proof using Type.
  unfold reps. intros [= E0 E1 E2 E3]. unfold enc_after, rotate.
  destruct (back =? MARK_LIT), (back <? 4), (len =? 1), (back =? 0), (back =? 1), (back =? 2); cbn; congruence.
Qed.

Lemma choice_valid_reps p q pos len back : reps p = reps q -> choice_valid p win d pos len back = choice_valid q win d pos len back.
Proof using Type.
  unfold reps. intros [= E0 E1 E2 E3]. assert (dist_of p back = dist_of q back) as Ed.
  { unfold dist_of, rotate. destruct (back <? 4), (back =? 0), (back =? 1), (back =? 2); cbn; congruence. }
  unfold choice_valid. by rewrite Ed.
Qed.

Lemma walk_reps s : forall p q pos, reps p = reps q -> walk win d p pos s -> walk win d q pos s.
Proof using Type.
  induction s as [|[len back] s IH]; intros p q pos E; [done|]. cbn [walk]. intros [Hv Hw]. rewrite <-(choice_valid_reps p q) by done.
  split; [done|]. apply (IH (enc_after p len back)); [by apply reps_enc_after|done].
Qed.

(** The symbols that normal mode has found and not coded yet: the match finder stands at
    their end. *)
Definition pending (p : CLzmaEnc) (f : lookahead M) (o : optimizer) (pos : Z) : Prop :=
  exists s, walk win d p pos s /\ stored (opt o) (optCur o) s /\ 0 <= optCur o /\ optCur o + Z.of_nat (length s) = optEnd o /\ idle (opt o) /\
    match s with [] => look_at pos f | _ => chosen_at pos (span s) f end.

(** The match finder and the optimiser when the byte at [pos] is next. *)
Definition mode_ok (p : CLzmaEnc) (f : lookahead M) (o : optimizer) (pos : Z) : Prop :=
  if fastMode then look_at pos f
  else tables_ok nfb (2 ^ pb p) (tables o) /\ (forall dist s, 0 <= dist < hist -> is_slot s dist -> s < distTableSize (tables o)) /\ pending p f o pos.

Lemma mode_ext p q f o pos : mode_ok p f o pos -> reps p = reps q -> pb p = pb q -> mode_ok q f o pos.
Proof using Type.
  unfold mode_ok. destruct fastMode; [done|]. intros (H1 & H2 & s & Hw & H) Er Ep. rewrite <-Ep. split; [done|]. split; [done|].
  exists s. split; [by apply (walk_reps s p)|done].
Qed.

(** Part of the bytes that were chosen. *)
Lemma chosen_split pos a b f :
  chosen_at pos (a + b) f -> 0 <= pos -> 1 <= a -> 1 <= b -> chosen_at (pos + a) b (take_offset a f) /\ additionalOffset (take_offset a f) <> 0.
Proof using Hs.
  intros (Hptr & _ & HL & [Hm Hp Ho]) Hpos Ha Hb. pose proof win_size as Hsize. destruct (mf_position _ _ _ _ Hm) as [Hr _].
  change (mf (take_offset (a + b) f)) with (mf f) in *. change (additionalOffset (take_offset (a + b) f)) with (u32 (additionalOffset f - (a + b))) in *.
  pose proof (wrap_in_width 32 (additionalOffset f - (a + b)) ltac:(lia)) as Hw. unfold in_width in Hw.
  assert (u32 (additionalOffset f - a) = additionalOffset f - a) as Ea by (apply wrap_small; unfold in_width; lia).
  assert (take_offset b (take_offset a f) = take_offset (a + b) f) as Et.
  { unfold take_offset. cbn. rewrite Ea. by replace (additionalOffset f - a - b) with (additionalOffset f - (a + b)) by lia. }
  cbn. rewrite Ea. split; [|lia]. split; [cbn; lia|]. split; [done|]. split; [lia|]. rewrite Et. replace (pos + a + b) with (pos + (a + b)) by lia. by constructor.
Qed.

(** The match finder when the first of the pending symbols is coded. *)
Lemma pending_next p pos len back s f :
  walk win d p pos ((len, back) :: s) -> 1 <= pos -> chosen_at pos (span ((len, back) :: s)) f ->
  match s with [] => look_at (pos + len) (take_offset len f) | _ => chosen_at (pos + len) (span s) (take_offset len f) end.
Proof using Hs.
  intros [Hv Hw] Hpos. change (span ((len, back) :: s)) with (len + span s). destruct s as [|[len' back'] s].
  { cbn [span foldr]. rewrite Z.add_0_r. by intros (_ & _ & _ & ?). }
  destruct (choice_valid_ok _ _ _ _ _ _ Hv) as (_ & _ & ? & _). destruct Hw as [Hv' Hw]. destruct (choice_valid_ok _ _ _ _ _ _ Hv') as (_ & Hle & ? & _).
  pose proof (walk_end win d s _ _ Hw Hle). intros Hc. apply chosen_split; [done|lia|done|].
  change (span ((len', back') :: s)) with (len' + span s). lia.
Qed.

(** Nothing is read ahead: nothing is pending. *)
Lemma mode_look p f o pos : mode_ok p f o pos -> 0 <= pos -> additionalOffset f = 0 -> look_at pos f.
Proof using Hs.
  unfold mode_ok. destruct fastMode; [done|]. intros (_ & _ & s & Hw & _ & _ & _ & _ & Hl) Hpos E0. destruct s as [|[len back] s]; [done|].
  destruct Hl as (Hptr & H1 & HL & [Hm Hp _]). destruct (mf_position _ _ _ _ Hm) as [Hr _]. change (mf (take_offset (span ((len, back) :: s)) f)) with (mf f) in *.
  change (additionalOffset (take_offset (span ((len, back) :: s)) f)) with (u32 (additionalOffset f - span ((len, back) :: s))) in Hp.
  pose proof (wrap_in_width 32 (additionalOffset f - span ((len, back) :: s)) ltac:(lia)) as Hx. unfold in_width in Hx. lia.
Qed.

Lemma mode_end p f o : mode_ok p f o L -> additionalOffset f = 0.
Proof using Type.
  unfold mode_ok. destruct fastMode; [by intros H; apply (look_end win nfb hist f L)|]. intros (_ & _ & s & Hw & _ & _ & _ & _ & Hl).
  destruct s as [|c s]; [by apply (look_end win nfb hist f L)|]. destruct Hl as (_ & ? & ? & _). lia.
Qed.

(** ** One choice *)

(** An encoder that can code all of the data from [pos] on. *)
Record able (p : CLzmaEnc) (pos : Z) : Prop := {
  ab_wf : enc_wf p; ab_ok : enc_ok (esz p) (69 + 64 * (L - pos)) (cod p); ab_reps : reps_in d p (Z.max 1 pos)
}.

Lemma able_probs p pos q : able p pos -> valid (esz p) q -> exists x, load (mem (cod p)) q = Some x /\ prob_ok x.
Proof using Type. intros [_ Hok _] Hq. exact (load_Some (esz p) _ _ _ Hok Hq). Qed.

Lemma able_counted p q pos : counted p q -> able p pos -> able q pos.
Proof using Type. intros (a & b & ->) [[] H2 H3]. constructor; [by constructor|exact H2|exact H3]. Qed.

(** The choice is valid, and the rest is as before. *)
Lemma next_choice_ok p f o pos :
  able p pos -> mode_ok p f o pos -> 1 <= pos < L ->
  exists len back g o', next_choice fastMode nfb win p f o (u32 pos) = Some (len, back, g, o') /\ choice_valid p win d pos len back = true /\
    mf_GetPointerToCurrentPos (mf g) - additionalOffset g = pos /\ mode_ok (enc_after p len back) (take_offset len g) o' (pos + len).
Proof using Hs win_bytes.
  intros Hab Hmode Hpos. pose proof Hab as [Hwf Hok Hreps]. rewrite Z.max_r in Hreps by lia. unfold next_choice, mode_ok in *. destruct fastMode.
  - destruct (GetOptimumFast_ok win nfb hist d p pos f Hs Hmode Hreps Hpos) as (len & back & g & -> & (Hptr & H1 & HL & Hl) & Hv). opt.
    exists len, back, g, o. done.
  - destruct Hmode as (Ht & Hslots & s & Hw & Hst & Hcur & Hend & Hidle & Hl).
    assert (forall len back, pb (enc_after p len back) = pb p) as Epb by (intros len back; apply (enc_after_keep p len back)).
    destruct s as [|[len back] s]; cbn [length] in Hend.
    + destruct (Z.eqb_spec (optEnd o) (optCur o)); [|lia].
      assert (priced nfb hist p (tables o)) as Hpr by (constructor; [done|intros q Hq; by apply (able_probs p pos)|done|done]).
      pose proof (GetOptimum_ok win nfb hist d Hs win_bytes p (tables o) Hpr pos ltac:(lia) Hreps (u32 pos) f (opt o) Hl ltac:(lia) Hidle
        (proj1 (wrap_in_width 32 pos ltac:(lia)))) as Hc.
      destruct (GetOptimum nfb win p (tables o) (u32 pos) f (opt o)) as [[[[len back] g] [[l wr] wend]]|]; [|done]. opt. cbn [yields] in Hc.
      destruct Hc as (rest & Hw' & Hst' & H0 & Hend' & _ & Hidle' & Hch). pose proof Hch as (Hptr & _).
      exists len, back, g, {| opt := l; optCur := wr; optEnd := wend; tables := tables o |}. split; [done|]. split; [apply Hw'|]. split; [done|].
      rewrite Epb. split; [done|]. split; [done|]. exists rest. cbn [opt optCur optEnd]. split; [apply Hw'|]. do 4 (split; [done|]).
      apply (pending_next p pos len back rest); (done || lia).
    + destruct (Z.eqb_spec (optEnd o) (optCur o)); [lia|]. destruct (Hst 0%nat len back eq_refl) as (e & He & <- & <-). rewrite Z.add_0_r in He. rewrite He. opt.
      pose proof Hl as (Hptr & _). eexists _, _, f, _. split; [done|]. split; [apply Hw|]. split; [done|].
      rewrite Epb. split; [done|]. split; [done|]. exists s. cbn [opt optCur optEnd set_optCur]. split; [apply Hw|].
      split; [intros i len back Hi; destruct (Hst (S i) len back Hi) as (x & Hx & E); exists x; split; [by replace (optCur o + 1 + Z.of_nat i) with (optCur o + Z.of_nat (S i)) by lia|done]|].
      do 2 (split; [lia|]). split; [done|]. apply (pending_next p pos _ (o_dist e) s); (done || lia).
Qed.

Abbreviation next := (next_choice fastMode nfb win).

Lemma coded_next_ok q p f o pos :
  counted q p -> able p pos -> mode_ok p f o pos -> 1 <= pos < L ->
  exists len back g o' q1 p1, next p f o (u32 pos) = Some (len, back, g, o') /\ choice_valid q win d pos len back = true /\
    mf_GetPointerToCurrentPos (mf g) - additionalOffset g = pos /\
    code_symbol q win pos (u32 pos) len back = Some q1 /\ code_symbol p win pos (u32 pos) len back = Some p1 /\
    counted q1 p1 /\ meta_eq q q1 /\ state q1 = state (enc_after q len back) /\ reps q1 = reps (enc_after q len back) /\
    able p1 (pos + len) /\ mode_ok p1 (take_offset len g) o' (pos + len) /\ 1 <= len /\ pos + len <= L.
Proof using Hs win_bytes.
  intros (a & b & ->) Hab Hmode Hpos. destruct (next_choice_ok _ f o pos Hab Hmode Hpos) as (len & back & g & o' & E & Hv & Hptr & Hmode').
  set (p := set_counts a b q) in *. destruct Hab as [Hwf Hok Hreps]. rewrite Z.max_r in Hreps by lia.
  destruct (choice_valid_ok _ _ _ _ _ _ Hv) as (_ & HL & Hlen & _).
  assert (enc_ok (esz p) (69 + 64 * (L - (pos + len)) + 64) (cod p)) as Hok' by (apply (enc_ok_le _ (69 + 64 * (L - pos))); [done|lia]).
  destruct (choice_encode win d win_bytes win_size p _ pos len back Hwf Hok' ltac:(lia) (proj1 Hreps) ltac:(lia) Hv) as (c & Ec & Hc & _ & _ & F).
  assert (enc_wf q) as Hwfq by (destruct Hwf; by constructor).
  assert (choice_valid q win d pos len back = true) as Hvq by (by rewrite (choice_valid_reps q p)).
  destruct (choice_encode win d win_bytes win_size q _ pos len back Hwfq Hok' ltac:(lia) (proj1 Hreps) ltac:(lia) Hvq) as (c' & Ec' & _ & _ & _ & F').
  assert (c' = c) as -> by (change (at_choice q win pos len back) with (at_choice p win pos len back) in Ec'; change (cod q) with (cod p) in Ec'; congruence).
  destruct (enc_after_keep p len back) as (K1 & K2 & K3 & _). destruct (enc_after_keep q len back) as (Q1 & Q2 & Q3 & _ & Q5 & Q6 & Q7 & Q8).
  exists len, back, g, o', (set_cod c (enc_after q len back)), (set_cod c (enc_after p len back)). split_and!; try done.
  - apply counted_cod, counted_after. by exists a, b.
  - constructor.
    + pose proof (enc_after_wf p len back Hwf) as []. by constructor.
    + unfold lclp. cbn [lc lp set_cod cod]. rewrite K1, K2. exact Hc.
    + rewrite Z.max_r by lia. apply (reps_in_after win nfb hist d p); (done || lia).
  - by apply (mode_ext (enc_after p len back)).
Qed.

(** ** The loop of a block *)

Lemma step_pos pos len : 0 <= pos <= L -> u32 (u32 pos + len) = u32 (pos + len).
Proof using Hs. intros Hp. pose proof win_size. by rewrite (wrap_small 32 pos) by (unfold in_width; lia). Qed.

(** The ends of the two loops: at the end of the data, or before the byte at [pos']. *)
Definition same_end (q : CLzmaEnc) (pos : Z) (cs : list choice) (e : block_end) (e' : turn_end M) : Prop :=
  match e, e' with
  | AtEnd q1 n, TurnEnd p1 _ _ n' => n = u32 L /\ n' = u32 L /\ counted q1 p1 /\ able p1 L /\ meta_eq q q1 /\ parse_valid q win d pos cs = true
  | Full q1 n [], TurnFull p1 f1 o1 n' => exists pos', n = u32 pos' /\ n' = u32 pos' /\ pos < pos' < L /\ counted q1 p1 /\ able p1 pos' /\ meta_eq q q1 /\
      mode_ok p1 f1 o1 pos' /\ additionalOffset f1 = 0 /\ cs <> [] /\
      forall rest, parse_valid q1 win d pos' rest = true -> parse_valid q win d pos (cs ++ rest) = true
  | _, _ => False
  end.

Definition more (e : block_end) (rest : list choice) : block_end :=
  match e with AtEnd p n => AtEnd p n | Full p n cs => Full p n (cs ++ rest) end.

(** The prices are refreshed, or not. *)
Lemma refresh_ok p f o pos :
  able p pos -> mode_ok p f o pos ->
  yields (if negb fastMode then '(p, t) ← refresh_prices p (tables o); Some (p, set_tables t o) else Some (p, o))
    (fun '(p', o') => counted p p' /\ mode_ok p' f o' pos).
Proof using Hs.
  intros Hab Hmode. pose proof Hab as [Hwf Hok Hreps]. pose proof (fs_nfb _ _ _ _ Hs) as Hnfb. unfold LZMA_MATCH_LEN_MAX in Hnfb.
  unfold mode_ok in *. destruct fastMode; cbn [negb]; [cbn; split; [apply counted_refl|done]|].
  destruct Hmode as (Ht & Hslots & Hpend). destruct (ew_props _ Hwf) as (_ & _ & Hpb).
  eapply yields_then; [apply (refresh_prices_ok (lclp p) nfb); [intros q Hq; by apply (able_probs p pos)|done|lia|apply (ew_slots _ Hwf)|done]|].
  intros [p' t'] ((a & b & ->) & Et & Ht'). cbn [yields]. split; [by exists a, b|]. cbn [tables set_tables pb set_counts]. rewrite Et. split; [done|]. split; [done|].
  destruct Hpend as (s & Hw & H). exists s. split; [by apply (walk_reps s p)|done].
Qed.

Lemma meta_eq_trans p1 p2 p3 : meta_eq p1 p2 -> meta_eq p2 p3 -> meta_eq p1 p3.
Proof using Type.
  intros (A1 & A2 & A3 & A4 & A5 & A6 & A7) (B1 & B2 & B3 & B4 & B5 & B6 & B7). unfold meta_eq. split_and!; congruence.
Qed.

(** A parse from [pos] on, by its first choice. *)
Lemma parse_cons q q1 pos c cs :
  choice_valid q win d pos (ch_len c) (ch_dist c) = true -> state q1 = state (enc_after q (ch_len c) (ch_dist c)) ->
  reps q1 = reps (enc_after q (ch_len c) (ch_dist c)) -> ch_last c = true \/ cs <> [] -> parse_valid q1 win d (pos + ch_len c) cs = true ->
  parse_valid q win d pos (c :: cs) = true.
Proof using Type.
  intros Hv Est Er Hlast Hcs. cbn [parse_valid]. unfold reps in Er. injection Er as E0 E1 E2 E3. rewrite Hv, <-(valid_ext win d cs q1), Hcs by done.
  rewrite andb_true_r. cbn [andb]. destruct Hlast as [->|Hne]; [done|]. rewrite bool_decide_false by done. by rewrite orb_true_r.
Qed.

Lemma parse_nonempty q pos cs : parse_valid q win d pos cs = true -> pos < L -> cs <> [].
Proof using Type. intros Hv Hpos ->. cbn in Hv. apply Z.eqb_eq in Hv. lia. Qed.

Lemma same_end_cons q q1 pos c cs e e' :
  choice_valid q win d pos (ch_len c) (ch_dist c) = true -> state q1 = state (enc_after q (ch_len c) (ch_dist c)) ->
  reps q1 = reps (enc_after q (ch_len c) (ch_dist c)) -> meta_eq q q1 -> 1 <= ch_len c -> pos + ch_len c < L ->
  same_end q1 (pos + ch_len c) cs e e' -> same_end q pos (c :: cs) e e'.
Proof using Type.
  intros Hv Est Er Hm Hlen HL. destruct e as [q2 n|q2 n [|]], e' as [p2 f2 o2 n'|p2 f2 o2 n']; cbn [same_end]; try done.
  - intros (-> & -> & H1 & H2 & H3 & H4). split_and!; try done; [by apply (meta_eq_trans q q1)|].
    apply (parse_cons q q1); try done. right. by apply (parse_nonempty q1 (pos + ch_len c)).
  - intros (pos' & -> & -> & Hp & H1 & H2 & H3 & H4 & H5 & H6 & H7). exists pos'. split_and!; try done; try lia; [by apply (meta_eq_trans q q1)|].
    intros rest Hrest. apply (parse_cons q q1); try done; [right; by destruct cs|by apply H7].
Qed.

Lemma turns_sim start : forall fuel q p f o pos,
  counted q p -> able p pos -> mode_ok p f o pos -> 1 <= pos < L -> L - pos <= Z.of_nat fuel ->
  exists cs e e', (forall rest, code_loop q win pos start (cs ++ rest) = Some (more e rest)) /\
    loop fuel (turn fastMode nfb win start) (p, f, o, u32 pos) = Some e' /\ same_end q pos cs e e'.
Proof using Hs win_bytes.
  induction fuel as [|fuel IH]; intros q p f o pos Hcount Hab Hmode Hpos Hfuel; [lia|].
  destruct (coded_next_ok q p f o pos Hcount Hab Hmode Hpos)
    as (len & back & g & o' & q1 & p1 & E & Hv & Hptr & Fq & Fp & Hc1 & Hm1 & Est & Er & Hab1 & Hmode1 & Hlen & HL).
  set (g' := take_offset len g) in *. set (c := {| ch_len := len; ch_dist := back; ch_last := additionalOffset g' =? 0 |}).
  cbn [loop turn]. rewrite E. opt. rewrite Hptr, Fp. opt. cbv zeta. fold g'. rewrite (step_pos pos len) by lia.
  assert (forall p2 o2, counted q1 p2 -> able p2 (pos + len) -> mode_ok p2 g' o2 (pos + len) -> pos + len < L ->
    (if additionalOffset g' =? 0 then (pos + len =? L) = false /\ (1 <<< 17 <=? u32 (u32 (pos + len) - start)) = false else True) ->
    exists cs e e', (forall rest, code_loop q win pos start (cs ++ rest) = Some (more e rest)) /\
      loop fuel (turn fastMode nfb win start) (p2, g', o2, u32 (pos + len)) = Some e' /\ same_end q pos cs e e') as Hgo.
  { intros p2 o2 Hc2 Hab2 Hmode2 HL2 Hon. destruct (IH q1 p2 g' o2 (pos + len) Hc2 Hab2 Hmode2 ltac:(lia) ltac:(lia)) as (cs & e & e' & He & He' & Hend).
    exists (c :: cs), e, e'. split; [|split; [done|by apply (same_end_cons q q1)]]. intros rest. cbn [app code_loop ch_len ch_dist ch_last c]. rewrite Fq. opt.
    destruct (additionalOffset g' =? 0); [|apply He]. destruct Hon as [-> ->]. apply He. }
  destruct (Z.eqb_spec (additionalOffset g') 0) as [E0|E0].
  - pose proof (refresh_ok p1 g' o' (pos + len) Hab1 Hmode1) as Href. destruct (if negb fastMode then _ else _) as [[p2 o2]|]; [|done]. opt.
    destruct Href as [Hc2 Hmode2]. pose proof (able_counted p1 p2 (pos + len) Hc2 Hab1) as Hab2. pose proof (counted_trans q1 p1 p2 Hc1 Hc2) as Hc3.
    destruct (mode_look p2 g' o2 (pos + len) Hmode2 ltac:(lia) E0) as [Hmf Hp _]. rewrite E0, Z.add_0_r in Hp. destruct (mf_position _ _ _ _ Hmf) as [_ Hav]. rewrite Hav, Hp.
    destruct (Z.eqb_spec (pos + len) L) as [EL|EL].
    + rewrite (proj2 (Z.eqb_eq (L - (pos + len)) 0)) by lia. exists [c], (AtEnd q1 (u32 (pos + len))). eexists. split; [|split; [done|]].
      * intros rest. cbn [app code_loop ch_len ch_dist ch_last c]. rewrite Fq. opt. by rewrite (proj2 (Z.eqb_eq _ _) EL).
      * cbn [same_end]. rewrite <-EL. split_and!; try done. rewrite EL in *. apply (parse_cons q q1); try done; [by left|].
        cbn [ch_len c parse_valid]. by apply Z.eqb_eq.
    + rewrite (proj2 (Z.eqb_neq (L - (pos + len)) 0)) by lia. destruct (1 <<< 17 <=? u32 (u32 (pos + len) - start)) eqn:Ebig.
      * exists [c], (Full q1 (u32 (pos + len)) []). eexists. split; [|split; [done|]].
        { intros rest. cbn [app code_loop ch_len ch_dist ch_last c]. rewrite Fq. opt. by rewrite (proj2 (Z.eqb_neq _ _) EL), Ebig. }
        cbn [same_end]. exists (pos + len). split_and!; try done; try lia. intros rest Hrest. apply (parse_cons q q1); try done. by left.
      * apply Hgo; try done. lia.
  - assert (pos + len < L) as HL2.
    { destruct (Z.eq_dec (pos + len) L) as [EL|]; [|lia]. rewrite EL in Hmode1. by destruct (E0 (mode_end _ _ _ Hmode1)). }
    by apply Hgo.
Qed.

(** ** Blocks *)

Lemma counted_sym p q : counted p q -> counted q p.
Proof using Type. intros (a & b & ->). exists (matchPriceCount p), (repLenEncCounter p). by destruct p. Qed.

Lemma after_pos n pos : 0 <= n <= pos -> pos < 2 ^ 32 -> u64 (n + u32 (u32 pos - u32 n)) = pos.
Proof using Type.
  intros Hn Hp. rewrite !(wrap_small 32) by (rewrite ?(wrap_small 32); unfold in_width; lia).
  rewrite (wrap_small 64) by (unfold in_width; lia). lia.
Qed.

(** Literals to the end: a parse for an encoder that stops with an error. *)
Lemma literals_valid n : forall q pos, Z.of_nat n = L - pos -> exists cs, parse_valid q win d pos cs = true.
Proof using Type.
  induction n as [|n IH]; intros q pos Hn; [exists []; cbn; apply Z.eqb_eq; lia|].
  destruct (IH (enc_after q 1 MARK_LIT) (pos + 1)) as [cs Hcs]; [lia|]. exists ({| ch_len := 1; ch_dist := MARK_LIT; ch_last := true |} :: cs).
  cbn [parse_valid ch_len ch_dist ch_last]. rewrite Hcs, valid_literal by lia. done.
Qed.

Lemma some_parse q pos : pos <= L -> exists cs, parse_valid q win d pos cs = true.
Proof using Type. intros Hp. apply (literals_valid (Z.to_nat (L - pos))). lia. Qed.

(** The choices from a block on. *)
Definition plan_from (q : CLzmaEnc) (cs : list choice) : Prop :=
  if nowPos64 q =? 0 then plan_valid win d q cs = true else parse_valid q win d (nowPos64 q) cs = true.

(** The two encoders before a block. *)
Record block_ready (q p : CLzmaEnc) (f : lookahead M) (o : optimizer) : Prop := {
  br_counted : counted q p; br_able : able p (nowPos64 p); br_mode : mode_ok p f o (nowPos64 p); br_look : additionalOffset f = 0;
  br_open : finished p = false /\ result p = SZ_OK; br_pos : 0 <= nowPos64 p <= L
}.

(** What a block leaves; [plan] are the parses of which the choices [cs] are a beginning. *)
Definition block_sim (plan : list choice -> Prop) (b : bool) (r : SRes) (q' p' : CLzmaEnc) (f' : lookahead M) (o' : optimizer) (cs : list choice) (n : Z) : Prop :=
  counted q' p' /\
  if not_ok r || finished p' then exists tail, plan (cs ++ tail)
  else block_ready q' p' f' o' /\ n < nowPos64 p' /\ cs <> [] /\ forall rest, parse_valid q' win d (nowPos64 q') rest = true -> plan (cs ++ rest).

(** The end of a block of the two encoders. *)
Definition turn_rest (b : bool) (start : Z) (e : turn_end M) : option (SRes * CLzmaEnc * lookahead M * optimizer) :=
  match e with
  | TurnEnd p f o n => '(r, p) ← Flush (set_pos (u64 (nowPos64 p + u32 (n - start))) p) n b; Some (r, p, f, o)
  | TurnFull p f o n =>
      let p := set_pos (u64 (nowPos64 p + u32 (n - start))) p in
      let '(r, p) := CheckErrors p b in Some (r, p, f, o)
  end.

Definition plan_rest (b : bool) (start : Z) (e : block_end) : option (SRes * CLzmaEnc * list choice) :=
  match e with
  | AtEnd p n => '(r, p) ← Flush (set_pos (u64 (nowPos64 p + u32 (n - start))) p) n b; Some (r, p, [])
  | Full p n cs =>
      let p := set_pos (u64 (nowPos64 p + u32 (n - start))) p in
      let '(r, p) := CheckErrors p b in Some (r, p, cs)
  end.

Lemma flush_sim q p n b : counted q p -> able p L ->
  exists r q' p', Flush (set_pos n q) (u32 L) b = Some (r, q') /\ Flush (set_pos n p) (u32 L) b = Some (r, p') /\ counted q' p' /\ finished p' = true.
Proof using Hs.
  intros Hcount Hab. pose proof (able_counted p q L (counted_sym _ _ Hcount) Hab) as [Hwf Hok _].
  assert (enc_wf (set_pos n q)) as Hwf' by (destruct Hwf; by constructor).
  destruct (Flush_ok win win_size (set_pos n q) b Hwf') as (r & q' & E & _ & Hf & _); [apply (enc_ok_le _ (69 + 64 * (L - L))); [exact Hok|lia]|].
  destruct Hcount as (x & y & ->). exists r, q', (set_counts x y q'). split; [done|]. split; [|split; [by exists x, y|done]].
  change (set_pos n (set_counts x y q)) with (set_counts x y (set_pos n q)). by rewrite Flush_counts, E.
Qed.

Lemma check_sim q p b : counted q p -> result p = SZ_OK ->
  exists r q' p', CheckErrors q b = (r, q') /\ CheckErrors p b = (r, p') /\ counted q' p' /\ (not_ok r = false -> q' = q /\ p' = p).
Proof using Type.
  intros Hcount Hres. pose proof (CheckErrors_ok p b Hres) as Hp. destruct Hcount as (x & y & ->). pose proof (CheckErrors_ok q b Hres) as Hq.
  rewrite CheckErrors_counts in *. destruct (CheckErrors q b) as [r q'] eqn:E. cbn [fst snd] in *. exists r, q', (set_counts x y q').
  split; [done|]. split; [done|]. split; [by exists x, y|]. intros Hr. rewrite Hr in Hq, Hp. destruct Hq as [_ ->]. by destruct Hp as [_ ?].
Qed.

Lemma rest_sim (plan : list choice -> Prop) q p f o pos b :
  counted q p -> able p pos -> mode_ok p f o pos -> additionalOffset f = 0 -> 1 <= pos <= L -> finished p = false /\ result p = SZ_OK ->
  0 <= nowPos64 p <= pos -> (forall cs, parse_valid q win d pos cs = true -> plan cs) ->
  exists cs r q' p' f' o',
    (forall rest, exists x, (e ← (if pos =? L then Some (AtEnd q (u32 pos)) else code_loop q win pos (u32 (nowPos64 p)) (cs ++ rest));
       plan_rest b (u32 (nowPos64 p)) e) = Some (r, q', x) /\ (not_ok r || finished p' = false -> x = rest)) /\
    (e ← (if mf_GetNumAvailableBytes (mf f) =? 0 then Some (TurnEnd p f o (u32 pos)) else turns fastMode nfb win p f o (u32 pos) (u32 (nowPos64 p)));
       turn_rest b (u32 (nowPos64 p)) e) = Some (r, p', f', o') /\
    block_sim plan b r q' p' f' o' cs (nowPos64 p).
Proof using Hs win_bytes.
  intros Hcount Hab Hmode Ho Hpos [Hfin Hres] Hn Hplan. pose proof win_size as Hsize.
  destruct (mode_look p f o pos Hmode ltac:(lia) Ho) as [Hmf Hp _]. rewrite Ho, Z.add_0_r in Hp. destruct (mf_position _ _ _ _ Hmf) as [_ Hav]. rewrite Hav, Hp.
  assert (forall q1 p1 f1 o1 cs, counted q1 p1 -> able p1 L -> plan cs -> nowPos64 q1 = nowPos64 p1 ->
    exists r q' p', ('(r, p) ← Flush (set_pos (u64 (nowPos64 q1 + u32 (u32 L - u32 (nowPos64 p)))) q1) (u32 L) b; Some (r, p, [] : list choice)) = Some (r, q', []) /\
      ('(r, p) ← Flush (set_pos (u64 (nowPos64 p1 + u32 (u32 L - u32 (nowPos64 p)))) p1) (u32 L) b; Some (r, p, f1, o1)) = Some (r, p', f1, o1) /\
      finished p' = true /\ block_sim plan b r q' p' f1 o1 cs (nowPos64 p)) as Hflush.
  { intros q1 p1 f1 o1 cs Hc1 Hab1 Hcs ->. destruct (flush_sim q1 p1 (u64 (nowPos64 p1 + u32 (u32 L - u32 (nowPos64 p)))) b Hc1 Hab1) as (r & q' & p' & -> & -> & Hc' & Hf).
    opt. exists r, q', p'. split; [done|]. split; [done|]. split; [done|]. split; [done|]. rewrite Hf, orb_true_r. exists []. by rewrite app_nil_r. }
  assert (nowPos64 q = nowPos64 p) as Enow by (by destruct Hcount as (? & ? & ->)).
  destruct (Z.eqb_spec pos L) as [EL|EL].
  - rewrite EL in *. rewrite (proj2 (Z.eqb_eq (L - L) 0)) by lia. opt. cbn [plan_rest turn_rest].
    destruct (Hflush q p f o [] Hcount Hab) as (r & q' & p' & E1 & E2 & Hf & Hsim); [by apply Hplan, Z.eqb_eq|done|].
    exists [], r, q', p', f, o. split; [|by split]. intros rest. exists []. split; [done|]. by rewrite Hf, orb_true_r.
  - rewrite (proj2 (Z.eqb_neq (L - pos) 0)) by lia.
    destruct (turns_sim (u32 (nowPos64 p)) (S (length win)) q p f o pos Hcount Hab Hmode ltac:(lia) ltac:(lia)) as (cs & e & e' & He & He' & Hend).
    unfold turns. rewrite He'. opt. exists cs. destruct e as [q1 n|q1 n [|]], e' as [p1 f1 o1 n'|p1 f1 o1 n']; cbn [same_end] in Hend; try done.
    + destruct Hend as (-> & -> & Hc1 & Hab1 & Hm1 & Hv). cbn [turn_rest].
      destruct (Hflush q1 p1 f1 o1 cs Hc1 Hab1) as (r & q' & p' & E1 & E2 & Hf & Hsim); [by apply Hplan|by destruct Hc1 as (? & ? & ->)|].
      exists r, q', p', f1, o1. split; [|by split]. intros rest. rewrite He. opt. cbn [more plan_rest]. exists []. split; [done|]. by rewrite Hf, orb_true_r.
    + destruct Hend as (pos' & -> & -> & Hp' & Hc1 & Hab1 & (M1 & M2 & M3 & _) & Hmode1 & Ho1 & Hne & Hrest). cbn [turn_rest].
      assert (nowPos64 p1 = nowPos64 p) as Ep1 by (destruct Hc1 as (? & ? & ->); cbn; congruence). rewrite Ep1, after_pos by lia.
      assert (result p1 = SZ_OK /\ finished p1 = false) as [Hr1 Hf1].
      { destruct Hc1 as (? & ? & ->), Hcount as (? & ? & ->). cbn in *. split; congruence. }
      destruct (check_sim (set_pos pos' q1) (set_pos pos' p1) b (counted_pos _ _ _ Hc1) Hr1) as (r & q' & p' & E1 & E2 & Hc' & Hok). rewrite E2.
      exists r, q', p', f1, o1. split; [|split; [done|]].
      * intros rest. rewrite He. opt. cbn [more plan_rest app]. assert (nowPos64 q1 = nowPos64 p) as -> by congruence. rewrite after_pos by lia. rewrite E1.
        exists rest. done.
      * split; [done|]. destruct (not_ok r) eqn:Er; cbn [orb].
        { destruct (some_parse q1 pos') as [tail Ht]; [lia|]. exists tail. by apply Hplan, Hrest. }
        destruct (Hok eq_refl) as [-> ->]. change (finished (set_pos pos' p1)) with (finished p1). rewrite Hf1. cbn [nowPos64 set_pos].
        split; [|split; [lia|split; [done|]]].
        -- constructor; try done; try (cbn; lia). destruct Hab1 as [[] A2 A3]. constructor; [by constructor|exact A2|exact A3].
           by apply (mode_ext p1).
        -- intros rest Hv. apply Hplan, Hrest. rewrite <-Hv. by apply valid_ext.
Qed.

(** The first byte: a search, and a literal without a context. *)
Lemma first_ok q p f o :
  counted q p -> able p 0 -> mode_ok p f o 0 -> additionalOffset f = 0 -> 0 < L ->
  exists len np f' cur q1 p1, ReadMatchDistances nfb win f = Some (len, np, f') /\ mf_GetPointerToCurrentPos (mf f') - additionalOffset f' = 0 /\
    rd win 0 = Some cur /\ code_first q cur = Some q1 /\ code_first p cur = Some p1 /\ counted q1 p1 /\ meta_eq q q1 /\ meta_eq p p1 /\
    state q1 = state q /\ reps q1 = reps q /\ able p1 1 /\ mode_ok p1 (take_offset 1 f') o 1 /\ additionalOffset (take_offset 1 f') = 0.
Proof using Hs win_bytes.
  intros (a & b & ->) Hab Hmode Ho HL. set (p := set_counts a b q) in *. pose proof Hab as [Hwf Hok Hreps].
  destruct (mode_look p f o 0 Hmode ltac:(lia) Ho) as [Hm Hp _]. rewrite Ho in Hp.
  destruct (ReadMatchDistances_ok win nfb hist d f Hs Hm) as (len & f' & E & _ & Hm' & Ep & Eo & _); [lia|lia|].
  destruct (chosen_one win nfb hist d 0 f' Hs Hm' ltac:(lia) ltac:(lia) ltac:(left; lia)) as (Hptr & _ & _ & Hl).
  destruct (rd_default win 0 win_bytes ltac:(lia)) as [Ecur Wcur]. set (cur := default 0 (rd win 0)) in *.
  assert (enc_ok (esz p) (69 + 64 * (L - 1) + 64) (cod p)) as Hok' by (apply (enc_ok_le _ (69 + 64 * (L - 0))); [done|lia]).
  destruct (first_encode p _ cur Hwf Hok' ltac:(lia) Wcur) as (c & Ec & Hc & _ & _ & F).
  assert (enc_wf q) as Hwfq by (destruct Hwf; by constructor).
  destruct (first_encode q _ cur Hwfq Hok' ltac:(lia) Wcur) as (c' & Ec' & _ & _ & _ & F').
  assert (c' = c) as -> by (change (cod q) with (cod p) in Ec'; congruence).
  exists len, (Z.of_nat (length (matches f'))), f', cur, (set_cod c q), (set_cod c p). split_and!; try done.
  - apply counted_cod. by exists a, b.
  - constructor; [destruct Hwf; by constructor|exact Hc|exact Hreps].
  - unfold mode_ok in *. destruct fastMode; [exact Hl|]. destruct Hmode as (H1 & H2 & s & Hw & Hst & H3 & H4 & H5 & Hpend). split; [done|]. split; [done|].
    destruct s as [|[l0 b0] s]; [exists []; split_and!; done|].
    exfalso. destruct Hpend as (Hq & H6 & H7 & [Hm0 Hp0 _]). destruct (mf_position _ _ _ _ Hm0) as [Hr0 _]. change (mf (take_offset (span ((l0, b0) :: s)) f)) with (mf f) in *.
    change (additionalOffset (take_offset (span ((l0, b0) :: s)) f)) with (u32 (additionalOffset f - span ((l0, b0) :: s))) in Hp0.
    pose proof (wrap_in_width 32 (additionalOffset f - span ((l0, b0) :: s)) ltac:(lia)) as Hx. unfold in_width in Hx. lia.
  - cbn. rewrite Eo, Ho. done.
Qed.

Lemma block_step q p f o b :
  block_ready q p f o ->
  exists cs r q' p' f' o',
    (forall rest, exists x, LzmaEnc_CodeOneBlock q win (cs ++ rest) b = Some (r, q', x) /\ (not_ok r || finished p' = false -> x = rest)) /\
    CodeOneBlock fastMode nfb win p f o b = Some (r, p', f', o') /\ block_sim (plan_from q) b r q' p' f' o' cs (nowPos64 p).
Proof using Hs win_bytes.
  intros [Hcount Hab Hmode Ho [Hfin Hres] Hpos]. assert (nowPos64 q = nowPos64 p /\ finished q = finished p) as [En Ef] by (by destruct Hcount as (? & ? & ->)).
  unfold LzmaEnc_CodeOneBlock, CodeOneBlock. rewrite Ef, Hfin.
  destruct (check_sim q p b Hcount Hres) as (r0 & q0 & p0 & E1 & E2 & Hc0 & Hok0). rewrite E1, E2. destruct (not_ok r0) eqn:Er0.
  { exists [], r0, q0, p0, f, o. split; [intros rest; by exists rest|]. split; [done|]. split; [done|]. rewrite Er0. cbn [orb]. unfold plan_from, plan_valid.
    destruct (nowPos64 q =? 0); [|apply some_parse; lia]. destruct (Z.eqb_spec L 0) as [|HL]; [by exists []|apply some_parse; lia]. }
  destruct (Hok0 eq_refl) as [-> ->]. cbv zeta. rewrite En. destruct (mode_look p f o _ Hmode ltac:(lia) Ho) as [Hmf Hp _]. rewrite Ho, Z.add_0_r in Hp.
  destruct (mf_position _ _ _ _ Hmf) as [_ Hav]. destruct (Z.eqb_spec (nowPos64 p) 0) as [E0|E0]; cbn [andb].
  - rewrite Hav, Hp. rewrite E0 in Hab, Hmode, En |- *. rewrite Z.sub_0_r. destruct (Z.eqb_spec L 0) as [EL|EL].
    + destruct (flush_sim q p 0 b Hcount) as (r & q' & p' & F1 & F2 & Hc' & Hf); [by rewrite EL|].
      assert (set_pos 0 q = q) as Eq by (rewrite <-En; by destruct q). assert (set_pos 0 p = p) as Epp by (rewrite <-E0; by destruct p).
      rewrite EL, Eq in F1. rewrite EL, Epp in F2. rewrite F1, F2. opt. exists [], r, q', p', f, o. split.
      { intros rest. exists []. split; [done|]. by rewrite Hf, orb_true_r. }
      split; [done|]. split; [done|]. rewrite Hf, orb_true_r. exists []. unfold plan_from, plan_valid. by rewrite En, EL.
    + destruct (first_ok q p f o Hcount Hab Hmode Ho ltac:(lia)) as (len & np & f' & cur & q1 & p1 & -> & Hptr & Ecur & Fq & Fp & Hc1 & Mq & Mp & Est & Er & Hab1 & Hmode1 & Ho1).
      opt. rewrite Hptr, Ecur. opt. rewrite Fq, Fp. opt. change (u32 (u32 0 + 1)) with (u32 1).
      destruct Mp as (M1 & M2 & M3 & _). assert (nowPos64 p1 = 0) as En1 by congruence.
      destruct (rest_sim (plan_from q) q1 p1 (take_offset 1 f') o 1 b Hc1 Hab1 Hmode1 Ho1 ltac:(lia) ltac:(split; congruence) ltac:(lia)) as (cs & r & q' & p' & f2 & o2 & R1 & R2 & R3).
      { intros cs Hcs. unfold plan_from, plan_valid. rewrite En. cbn [Z.eqb]. rewrite (proj2 (Z.eqb_neq L 0) EL), <-Hcs. unfold reps in Er. injection Er as ? ? ? ?. symmetry. by apply valid_ext. }
      rewrite En1 in *. exists cs, r, q', p', f2, o2. done.
  - opt. destruct (rest_sim (plan_from q) q p f o (nowPos64 p) b Hcount Hab Hmode Ho ltac:(lia) ltac:(split; congruence) ltac:(lia)) as (cs & r & q' & p' & f2 & o2 & R1 & R2 & R3).
    { intros cs Hcs. unfold plan_from. rewrite En. by rewrite (proj2 (Z.eqb_neq _ _) E0). }
    exists cs, r, q', p', f2, o2. done.
Qed.

(** ** All blocks *)

Lemma blocks_sim b : forall (m : nat) q p f o r0,
  block_ready q p f o -> (Z.to_nat (L - nowPos64 p) < m)%nat ->
  exists cs r q' p', plan_from q cs /\ counted q' p' /\
    (forall fuel, (length cs < fuel)%nat -> exists cs', loop fuel
      (fun '(_, p, cs) =>
         '(r, p, cs) ← LzmaEnc_CodeOneBlock p win cs b;
         Some (if not_ok r || finished p then inr (r, p, cs) else inl (r, p, cs))) (r0, q, cs) = Some (r, q', cs')) /\
    (forall fuel, (m <= fuel)%nat -> exists f' o', loop fuel
      (fun '(_, p, f, o) =>
         '(r, p, f, o) ← CodeOneBlock fastMode nfb win p f o b;
         Some (if not_ok r || finished p then inr (r, p, f, o) else inl (r, p, f, o))) (r0, p, f, o) = Some (r, p', f', o')).
Proof using Hs win_bytes.
  induction m as [|m IH]; intros q p f o r0 Hb Hm; [lia|].
  destruct (block_step q p f o b Hb) as (cs & r & q1 & p1 & f1 & o1 & Hq & Hp & Hc1 & Hsim).
  assert (finished q1 = finished p1) as Ef by (by destruct Hc1 as (? & ? & ->)). destruct (not_ok r || finished p1) eqn:Hstop.
  - destruct Hsim as [tail Htail]. exists (cs ++ tail), r, q1, p1. split; [done|]. split; [done|]. destruct (Hq tail) as (x & Ex & _). split.
    + intros [|fuel] Hf; [lia|]. exists x. cbn [loop]. rewrite Ex. opt. by rewrite Ef, Hstop.
    + intros [|fuel] Hf; [lia|]. exists f1, o1. cbn [loop]. rewrite Hp. opt. by rewrite Hstop.
  - destruct Hsim as (Hb1 & Hlt & Hne & Hplan). pose proof (br_pos _ _ _ _ Hb) as Hpos. pose proof (br_pos _ _ _ _ Hb1) as Hpos1.
    destruct (IH q1 p1 f1 o1 r Hb1 ltac:(lia)) as (cs1 & r2 & q2 & p2 & Hplan1 & Hc2 & H1 & H2).
    assert (nowPos64 q1 = nowPos64 p1) as En by (by destruct Hc1 as (? & ? & ->)).
    unfold plan_from in Hplan1. rewrite En, (proj2 (Z.eqb_neq (nowPos64 p1) 0)), <-En in Hplan1 by lia.
    exists (cs ++ cs1), r2, q2, p2. split; [by apply Hplan|]. split; [done|]. destruct (Hq cs1) as (x & Ex & Hx). rewrite (Hx eq_refl) in Ex. split.
    + intros [|fuel] Hf; [lia|]. assert (1 <= length cs)%nat by (destruct cs; [done|cbn; lia]). rewrite length_app in Hf.
      destruct (H1 fuel ltac:(lia)) as (cs' & E). exists cs'. cbn [loop]. rewrite Ex. opt. by rewrite Ef, Hstop.
    + intros [|fuel] Hf; [lia|]. destruct (H2 fuel ltac:(lia)) as (f' & o' & E). exists f', o'. cbn [loop]. rewrite Hp. opt. by rewrite Hstop.
Qed.

(** A new encoder and a match finder at the start of the data. *)
Lemma Encode2_plan e p m o b :
  1 <= d -> mf_ok win nfb hist m -> mf_GetPointerToCurrentPos m = 0 ->
  0 <= lc e <= 8 /\ 0 <= lp e <= 4 /\ 0 <= pb e <= 4 -> g_FastPos e = LzmaEnc_FastPosInit -> counted (LzmaEnc_AllocAndInit e) p ->
  (fastMode = false -> tables_ok nfb (2 ^ pb e) (tables o) /\ (forall dist s, 0 <= dist < hist -> is_slot s dist -> s < distTableSize (tables o)) /\
     idle (opt o) /\ optCur o = 0 /\ optEnd o = 0) ->
  let f := {| mf := m; additionalOffset := 0; numAvail := 0; matches := []; numPairs := 0; longestMatchLen := 0 |} in
  exists cs r q' p', plan_valid win d (LzmaEnc_AllocAndInit e) cs = true /\ Encode2 fastMode nfb win p f o b = Some (r, p') /\
    LzmaEnc_Encode2 (LzmaEnc_AllocAndInit e) win cs b = Some (r, q') /\ counted q' p'.
Proof using Hs win_bytes.
  intros Hd Hm Hptr Hprops Hslots Hcount Hmode f. set (q := LzmaEnc_AllocAndInit e) in *. pose proof win_size as Hsize.
  assert (look_at 0 f) as Hl by (constructor; [done|cbn; lia|by left]).
  assert (able q 0) as Habq.
  { destruct (Init_ok e (69 + 64 * (L - 0)) Hprops Hslots ltac:(lia)) as [Hwf Hok]. constructor; [done|exact Hok|].
    split; [unfold reps_ok; cbn; lia|]. unfold reps. cbn. repeat (apply Forall_cons_2; [lia|]). apply Forall_nil_2. }
  pose proof (able_counted q p 0 Hcount Habq) as Hab.
  assert (block_ready q p f o) as Hb.
  { assert (nowPos64 p = 0 /\ finished p = false /\ result p = SZ_OK /\ pb p = pb e) as (E1 & E2 & E3 & E4) by (by destruct Hcount as (? & ? & ->)).
    constructor; rewrite ?E1; try done; try lia. unfold mode_ok in *. destruct fastMode; [done|]. destruct (Hmode eq_refl) as (H1 & H2 & H3 & H4 & H5). rewrite E4.
    split; [done|]. split; [done|]. exists []. split; [done|]. split; [intros i ? ?; by rewrite lookup_nil|]. cbn. split_and!; (done || lia). }
  destruct (blocks_sim b (S (S (length win))) q p f o SZ_OK Hb) as (cs & r & q' & p' & Hplan & Hc' & H1 & H2).
  { assert (nowPos64 p = 0) as -> by (by destruct Hcount as (? & ? & ->)). lia. }
  exists cs, r, q', p'. split; [exact Hplan|]. unfold Encode2, LzmaEnc_Encode2.
  destruct (H2 (S (S (length win))) ltac:(lia)) as (f' & o' & ->). destruct (H1 (S (length cs)) ltac:(lia)) as (cs' & ->). done.
Qed.
End Run.

(** Enough slots for all distances. *)
Lemma slot_below s dist k : is_slot s dist -> 1 <= k -> dist < 2 ^ k -> s < 2 * k.
Proof.
  intros [[Hs _]|[Hs [Hd _]]] Hk Hlt; [lia|]. destruct (Z.lt_ge_cases s (2 * k)) as [|Hge]; [done|exfalso]. unfold slot_start, slot_width in Hd.
  assert (k <= s / 2) by (apply Z.div_le_lower_bound; lia). pose proof (Z.pow_le_mono_r 2 (k - 1) (s / 2 - 1) ltac:(lia) ltac:(lia)).
  pose proof (Z.mod_pos_bound s 2 ltac:(lia)). assert (2 ^ k = 2 * 2 ^ (k - 1)) by (rewrite <-Z.pow_succ_r by lia; f_equal; lia). nia.
Qed.

(** Both modes from LzmaEnc_InitPrices on, without the threads of the match finder. *)
Lemma InitPrices_plan {M : Type} {IM : IMatchFinder2 M} {LM : MatchFinderLaws M} fastMode win nfb hist d e m o t0 b :
  bytes win -> fast_settings win nfb hist d -> 1 <= d -> mf_ok win nfb hist m -> mf_GetPointerToCurrentPos m = 0 ->
  0 <= lc e <= 8 /\ 0 <= lp e <= 4 /\ 0 <= pb e <= 4 -> g_FastPos e = LzmaEnc_FastPosInit ->
  tables_shape t0 -> (fastMode = false -> hist <= 2 ^ (distTableSize t0 / 2) /\ idle o) ->
  let f := {| mf := m; additionalOffset := 0; numAvail := 0; matches := []; numPairs := 0; longestMatchLen := 0 |} in
  exists cs r p t q' p', plan_valid win d (LzmaEnc_AllocAndInit e) cs = true /\
    LzmaEnc_InitPrices fastMode nfb (LzmaEnc_AllocAndInit e) t0 = Some (p, t) /\
    Encode2 fastMode nfb win p f {| opt := o; optCur := 0; optEnd := 0; tables := t |} b = Some (r, p') /\
    LzmaEnc_Encode2 (LzmaEnc_AllocAndInit e) win cs b = Some (r, q') /\ set_counts_eq q' p'.
Proof.
  intros Hw Hs Hd Hm Hp Hprops Hslots Ht Hmode f. pose proof (fs_nfb _ _ _ _ Hs) as Hnfb. unfold LZMA_MATCH_LEN_MAX in Hnfb.
  destruct (Init_ok e 5 Hprops Hslots ltac:(lia)) as [Hwf Hok].
  pose proof (InitPrices_ok (lclp e) fastMode nfb (LzmaEnc_AllocAndInit e) t0) as Hprices.
  destruct (LzmaEnc_InitPrices fastMode nfb (LzmaEnc_AllocAndInit e) t0) as [[p t]|].
  2:{ destruct Hprices; [|apply Hprops|lia|done|done]. intros q Hq. exact (load_Some _ _ _ _ Hok Hq). }
  destruct Hprices as (Hcount & Et & Htab); [intros q Hq; exact (load_Some _ _ _ _ Hok Hq)|apply Hprops|lia|done|done|].
  destruct (Encode2_plan fastMode win nfb hist d Hs Hw e p m {| opt := o; optCur := 0; optEnd := 0; tables := t |} b Hd Hm Hp Hprops Hslots Hcount)
    as (cs & r & q' & p' & H1 & H2 & H3 & H4).
  { intros Hfast. destruct (Hmode Hfast) as [Hdist Hidle]. cbn [tables opt optCur optEnd]. split; [exact (Htab Hfast)|]. split; [|done].
    intros dist s Hrange Hslot. rewrite Et. pose proof (tsh_size _ Ht) as Hsize. set (k := distTableSize t0 / 2) in *.
    assert (7 <= k /\ 2 * k <= distTableSize t0) as [Hk1 Hk2] by (split; [apply Z.div_le_lower_bound; lia|apply Z.mul_div_le; lia]).
    pose proof (slot_below s dist k Hslot ltac:(lia) ltac:(lia)). lia. }
  exists cs, r, p, t, q', p'. done.
Qed.

(** ** Both modes refine the coding of a plan *)

(** C8: For every match finder that keeps the laws, fast mode refines the abstract encoder
    that is given its choices: GetOptimumFast always returns, its choices make up a valid
    parse of the data within the dictionary, and LzmaEnc_Encode2 with them has the same
    result and state as LzmaEnc_Encode2 in fast mode, the counters of the price refreshes
    apart. *)
Theorem LzmaEnc_fast_mode_refines {M : Type} {IM : IMatchFinder2 M} {LM : MatchFinderLaws M} (win : list Z) (nfb hist d : Z)
    (e : CLzmaEnc) (m : M) (o : optimizer) (b : bool)
    (Hw : bytes win) (Hs : fast_settings win nfb hist d) (Hd : 1 <= d) (Hm : mf_ok win nfb hist m) (Hp : mf_GetPointerToCurrentPos m = 0)
    (Hprops : 0 <= lc e <= 8 /\ 0 <= lp e <= 4 /\ 0 <= pb e <= 4) (Hslots : g_FastPos e = LzmaEnc_FastPosInit) :
  exists cs r q' p', plan_valid win d (LzmaEnc_AllocAndInit e) cs = true /\
    Encode2 true nfb win (LzmaEnc_AllocAndInit e)
      {| mf := m; additionalOffset := 0; numAvail := 0; matches := []; numPairs := 0; longestMatchLen := 0 |} o b = Some (r, p') /\
    LzmaEnc_Encode2 (LzmaEnc_AllocAndInit e) win cs b = Some (r, q') /\ set_counts_eq q' p'.
Proof.
  destruct (Encode2_plan true win nfb hist d Hs Hw e _ m o b Hd Hm Hp Hprops Hslots (counted_refl _) ltac:(done)) as (cs & r & q' & p' & H).
  by exists cs, r, q', p'.
Qed.

(** C5: Normal mode refines the coding of a plan: from the prices that LzmaEnc_InitPrices
    computes, with 14 slots at least and enough for the farthest distance of the match finder,
    GetOptimum always returns within the 2048 entries of [opt], the paths that Backward lays
    out, with every refresh of the prices on the way, make up a valid parse of the data, and
    LzmaEnc_Encode2 with it has the same result and state, the counters of the refreshes
    apart. *)
Theorem LzmaEnc_normal_mode_refines {M : Type} {IM : IMatchFinder2 M} {LM : MatchFinderLaws M} (win : list Z) (nfb hist d : Z)
    (e : CLzmaEnc) (m : M) (t0 : price_tables) (o : list COptimal) (b : bool)
    (Hw : bytes win) (Hs : fast_settings win nfb hist d) (Hd : 1 <= d) (Hm : mf_ok win nfb hist m) (Hp : mf_GetPointerToCurrentPos m = 0)
    (Hprops : 0 <= lc e <= 8 /\ 0 <= lp e <= 4 /\ 0 <= pb e <= 4) (Hslots : g_FastPos e = LzmaEnc_FastPosInit)
    (Ht : tables_shape t0) (Hhist : hist <= 2 ^ (distTableSize t0 / 2)) (Ho : idle o) :
  exists cs r p t q' p', plan_valid win d (LzmaEnc_AllocAndInit e) cs = true /\
    LzmaEnc_InitPrices false nfb (LzmaEnc_AllocAndInit e) t0 = Some (p, t) /\
    Encode2 false nfb win p
      {| mf := m; additionalOffset := 0; numAvail := 0; matches := []; numPairs := 0; longestMatchLen := 0 |}
      {| opt := o; optCur := 0; optEnd := 0; tables := t |} b = Some (r, p') /\
    LzmaEnc_Encode2 (LzmaEnc_AllocAndInit e) win cs b = Some (r, q') /\ set_counts_eq q' p'.
Proof. apply (InitPrices_plan false win nfb hist d); done. Qed.

(** A match finder that finds nothing: the position and the size of the data. *)
Record nothing := { no_pos : Z; no_size : Z }.

#[export] Instance nothing_ops : IMatchFinder2 nothing := {
  mf_GetNumAvailableBytes m := no_size m - no_pos m;
  mf_GetPointerToCurrentPos m := no_pos m;
  mf_GetMatches m d := Some (d, {| no_pos := no_pos m + 1; no_size := no_size m |});
  mf_Skip m num := Some {| no_pos := no_pos m + num; no_size := no_size m |}
}.

#[export] Program Instance nothing_laws : MatchFinderLaws nothing :=
  {| mf_ok l lim hist m := 0 <= no_pos m <= no_size m /\ no_size m = Z.of_nat (length l) |}.
Next Obligation. intros l lim hist m [H1 H2]. cbn. lia. Qed.
Next Obligation. intros l lim hist m [H1 H2] Hlt. cbn in *. eexists 1, [], _. split; [done|]. cbn. split; [lia|]. split; [done|constructor]. Qed.
Next Obligation. intros l lim hist m num [H1 H2] Hn. cbn in *. eexists. split; [done|]. cbn. lia. Qed.

Definition zero_tables : price_tables :=
  {| ProbPrices := replicate 128 0; alignPrices := replicate 16 0; posSlotPrices := replicate (Z.to_nat 256) 0;
     distancesPrices := replicate (Z.to_nat 512) 0; lenEnc := {| tableSize := 0; len_prices := replicate (Z.to_nat (16 * kLenNumSymbolsTotal)) 0 |};
     repLenEnc := {| tableSize := 0; len_prices := replicate (Z.to_nat (16 * kLenNumSymbolsTotal)) 0 |}; distTableSize := 24 |}.

Definition free_opt : COptimal := {| o_price := kInfinityPrice; o_state := 0; o_extra := 0; o_len := 0; o_dist := 0; o_reps := [] |}.

Lemma zero_shape : tables_shape zero_tables.
Proof.
  constructor; cbn [zero_tables ProbPrices alignPrices posSlotPrices distancesPrices lenEnc repLenEnc len_prices distTableSize]; rewrite ?length_replicate; try done; try lia.
  split; [by rewrite length_replicate|]. by apply Forall_replicate.
Qed.

Lemma free_idle : idle (replicate (Z.to_nat kNumOpts) free_opt).
Proof.
  split; [by rewrite length_replicate|]. intros j Hj. exists free_opt. split; [|done]. rewrite rd_lookup by lia. apply lookup_replicate. split; [done|lia].
Qed.

Lemma example_settings : fast_settings example_src 32 4096 4096.
Proof. constructor; [cbn; lia|unfold LZMA_MATCH_LEN_MAX; lia|change (15 <<< 28) with 4026531840; lia|lia]. Qed.

Lemma LzmaEnc_fast_mode_refines_witness :
  exists cs r q' p', plan_valid example_src 4096 (LzmaEnc_AllocAndInit example_encoder) cs = true /\
    Encode2 true 32 example_src (LzmaEnc_AllocAndInit example_encoder)
      {| mf := {| no_pos := 0; no_size := 8 |}; additionalOffset := 0; numAvail := 0; matches := []; numPairs := 0; longestMatchLen := 0 |}
      {| opt := []; optCur := 0; optEnd := 0; tables := zero_tables |} false = Some (r, p') /\
    LzmaEnc_Encode2 (LzmaEnc_AllocAndInit example_encoder) example_src cs false = Some (r, q') /\ set_counts_eq q' p'.
Proof.
  apply (LzmaEnc_fast_mode_refines example_src 32 4096 4096 example_encoder {| no_pos := 0; no_size := 8 |} _ false).
  - byte_list.
  - apply example_settings.
  - lia.
  - cbn. lia.
  - reflexivity.
  - cbn. lia.
  - reflexivity.
Defined.

Lemma LzmaEnc_normal_mode_refines_witness :
  exists cs r p t q' p', plan_valid example_src 4096 (LzmaEnc_AllocAndInit example_encoder) cs = true /\
    LzmaEnc_InitPrices false 32 (LzmaEnc_AllocAndInit example_encoder) zero_tables = Some (p, t) /\
    Encode2 false 32 example_src p
      {| mf := {| no_pos := 0; no_size := 8 |}; additionalOffset := 0; numAvail := 0; matches := []; numPairs := 0; longestMatchLen := 0 |}
      {| opt := replicate (Z.to_nat kNumOpts) free_opt; optCur := 0; optEnd := 0; tables := t |} false = Some (r, p') /\
    LzmaEnc_Encode2 (LzmaEnc_AllocAndInit example_encoder) example_src cs false = Some (r, q') /\ set_counts_eq q' p'.
Proof.
  apply (LzmaEnc_normal_mode_refines example_src 32 4096 4096 example_encoder {| no_pos := 0; no_size := 8 |}).
  - byte_list.
  - apply example_settings.
  - lia.
  - cbn. lia.
  - reflexivity.
  - cbn. lia.
  - reflexivity.
  - apply zero_shape.
  - change (2 ^ (distTableSize zero_tables / 2)) with 4096. lia.
  - apply free_idle.
Defined.
