(* ===== verification/LzmaEncProps.v ===== *)
(** * LZMA encoder: properties, creation, LzmaEncode

    LzmaEnc.c: LzmaEncProps_Init and _Normalize, LzmaEnc_SetProps, LzmaEnc_Construct,
    LzmaEnc_Alloc, LzmaEnc_AllocAndInit, LzmaEnc_MemPrepare, LzmaEnc_MemEncode and LzmaEncode,
    in both modes, with the match finder of LzFind.v; LzFind.c: MatchFinder_Construct. *)

From stdpp Require Import base numbers list list_numbers.
From Stdlib Require Import ZArith Lia.
From S2P Require Import Prelude SzTypes LzmaDec LzmaApi RangeEnc LzmaEnc LzmaRoundtrip MatchFinder LzFind LzFindLaws LzmaPrices LzmaEncFast LzmaEncOpt LzmaEncBlocks.
Local Open Scope Z_scope.
Local Open Scope word_scope.

(** ** Properties *)

(** Without the affinities, which only threads use. *)
Record CLzmaEncProps := {
  pr_level : Z; pr_dictSize : Z; pr_lc : Z; pr_lp : Z; pr_pb : Z; pr_algo : Z; pr_fb : Z; pr_btMode : Z; pr_numHashBytes : Z;
  pr_numHashOutBits : Z; pr_mc : Z; pr_writeEndMark : Z; pr_numThreads : Z; pr_reduceSize : Z
}.

Definition LzmaEncProps_Init : CLzmaEncProps :=
  {| pr_level := 5; pr_dictSize := 0; pr_lc := -1; pr_lp := -1; pr_pb := -1; pr_algo := -1; pr_fb := -1; pr_btMode := -1;
     pr_numHashBytes := -1; pr_numHashOutBits := 0; pr_mc := 0; pr_writeEndMark := 0; pr_numThreads := -1;
     pr_reduceSize := 2 ^ 64 - 1 |}.

(** [sizeof(size_t)] is 8. *)
Definition sizeof_size_t : Z := 8.

Definition default_dictSize (level : Z) : Z :=
  if level <=? 4 then 1 <<< (level * 2 + 16)
  else if level <=? sizeof_size_t / 2 + 4 then 1 <<< (level + 20) else 1 <<< (sizeof_size_t / 2 + 24).

Definition reduce_dictSize (dictSize reduceSize : Z) : Z :=
  if reduceSize <? dictSize then
    let v := u32 reduceSize in
    let kReduceMin := 1 <<< 12 in
    let v := if v <? kReduceMin then kReduceMin else v in
    if v <? dictSize then v else dictSize
  else dictSize.

Definition LzmaEncProps_Normalize (p : CLzmaEncProps) : CLzmaEncProps :=
  let level := if pr_level p <? 0 then 5 else pr_level p in
  let dictSize := if pr_dictSize p =? 0 then default_dictSize level else pr_dictSize p in
  let dictSize := reduce_dictSize dictSize (pr_reduceSize p) in
  let algo := if pr_algo p <? 0 then (if level <? 5 then 0 else 1) else pr_algo p in
  let fb := if pr_fb p <? 0 then (if level <? 7 then 32 else 64) else pr_fb p in
  let btMode := if pr_btMode p <? 0 then (if algo =? 0 then 0 else 1) else pr_btMode p in
  {| pr_level := level; pr_dictSize := dictSize;
     pr_lc := if pr_lc p <? 0 then 3 else pr_lc p; pr_lp := if pr_lp p <? 0 then 0 else pr_lp p;
     pr_pb := if pr_pb p <? 0 then 2 else pr_pb p; pr_algo := algo; pr_fb := fb; pr_btMode := btMode;
     pr_numHashBytes := if pr_numHashBytes p <? 0 then (if negb (btMode =? 0) then 4 else 5) else pr_numHashBytes p;
     pr_numHashOutBits := pr_numHashOutBits p;
     pr_mc := if pr_mc p =? 0 then (16 + (fb >>> 1)) >>> (if negb (btMode =? 0) then 0 else 1) else pr_mc p;
     pr_writeEndMark := pr_writeEndMark p;
     pr_numThreads := if pr_numThreads p <? 0 then (if negb (btMode =? 0) && negb (algo =? 0) then 2 else 1) else pr_numThreads p;
     pr_reduceSize := pr_reduceSize p |}.

Definition LzmaEncProps_GetDictSize (p : CLzmaEncProps) : Z := pr_dictSize (LzmaEncProps_Normalize p).

(** ** The encoder and its match finder *)

Definition LZMA_LC_MAX : Z := 8.
Definition LZMA_LP_MAX : Z := 4.
Definition LZMA_PB_MAX : Z := 4.
Definition kLzmaMaxHistorySize : Z := 15 <<< 28.
Definition kDicLogSizeMaxCompress : Z := (kNumLogBits - 1) * 2 + 7.

(** The fields of CLzmaEnc outside the coding of symbols. *)
Record encoder := {
  enc : CLzmaEnc; MFB : CMatchFinder; dictSize : Z; numFastBytes : Z; fastMode : bool; multiThread : bool; optim : optimizer
}.

Definition set_enc (e : CLzmaEnc) (p : encoder) : encoder :=
  {| enc := e; MFB := MFB p; dictSize := dictSize p; numFastBytes := numFastBytes p; fastMode := fastMode p;
     multiThread := multiThread p; optim := optim p |}.
Definition set_MFB (m : CMatchFinder) (p : encoder) : encoder :=
  {| enc := enc p; MFB := m; dictSize := dictSize p; numFastBytes := numFastBytes p; fastMode := fastMode p;
     multiThread := multiThread p; optim := optim p |}.
Definition set_optim (o : optimizer) (p : encoder) : encoder :=
  {| enc := enc p; MFB := MFB p; dictSize := dictSize p; numFastBytes := numFastBytes p; fastMode := fastMode p;
     multiThread := multiThread p; optim := o |}.

Definition set_lclppb (c l b : Z) (slots : list Z) (p : CLzmaEnc) : CLzmaEnc :=
  {| state := state p; reps0 := reps0 p; reps1 := reps1 p; reps2 := reps2 p; reps3 := reps3 p;
     lpMask := lpMask p; pbMask := pbMask p; cod := cod p; LzmaEnc.lc := c; LzmaEnc.lp := l; LzmaEnc.pb := b;
     writeEndMark := writeEndMark p; LzmaEnc.finished := LzmaEnc.finished p; matchPriceCount := matchPriceCount p;
     repLenEncCounter := repLenEncCounter p; g_FastPos := slots; result := result p; nowPos64 := nowPos64 p |}.

(** [numHashBytes] of the match finder *)
Definition hash_bytes (btMode numHashBytes : Z) : Z :=
  let n := if negb (btMode =? 0) then
             if numHashBytes <? 2 then 2 else if numHashBytes <? 4 then numHashBytes else 4
           else 4 in
  if 5 <=? numHashBytes then 5 else n.

Definition LzmaEnc_SetProps (p : encoder) (props2 : CLzmaEncProps) : SRes * encoder :=
  let props := LzmaEncProps_Normalize props2 in
  if (LZMA_LC_MAX <? pr_lc props) || (LZMA_LP_MAX <? pr_lp props) || (LZMA_PB_MAX <? pr_pb props) then (SZ_ERROR_PARAM, p)
  else
    let dict := if kLzmaMaxHistorySize <? pr_dictSize props then kLzmaMaxHistorySize else pr_dictSize props in
    if 1 <<< kDicLogSizeMaxCompress <? dict then (SZ_ERROR_PARAM, p)
    else
      let fb := pr_fb props in
      let fb := if fb <? 5 then 5 else fb in
      let fb := if LZMA_MATCH_LEN_MAX <? fb then LZMA_MATCH_LEN_MAX else fb in
      (SZ_OK,
       {| enc := set_endMark (negb (pr_writeEndMark props =? 0))
                   (set_lclppb (pr_lc props) (pr_lp props) (pr_pb props) (g_FastPos (enc p)) (enc p));
          MFB := set_settings (negb (pr_btMode props =? 0)) (hash_bytes (pr_btMode props) (pr_numHashBytes props))
                   (numHashBytes_Min (MFB p)) (u8 (pr_numHashOutBits props)) (pr_mc props) (MFB p);
          dictSize := dict; numFastBytes := fb; fastMode := pr_algo props =? 0; multiThread := 1 <? pr_numThreads props;
          optim := optim p |}).

(** ** Construction *)

Definition kCrcPoly : Z := 0xEDB88320.

Definition crc_entry (i : Z) : Z :=
  Nat.iter 8 (fun r => (r >>> 1) ^^^ (kCrcPoly &&& u32 (0 - (r &&& 1)))) i.

Definition crc_table : list Z := map crc_entry (seqZ 0 256).

Definition set_crc (t : list Z) (p : CMatchFinder) : CMatchFinder :=
  {| data := data p; buffer := buffer p; pos := pos p; posLimit := posLimit p; streamPos := streamPos p; lenLimit := lenLimit p;
     cyclicBufferPos := cyclicBufferPos p; cyclicBufferSize := cyclicBufferSize p;
     streamEndWasReached := streamEndWasReached p; LzFind.btMode := LzFind.btMode p; matchMaxLen := matchMaxLen p; hash := hash p;
     son := son p; hashMask := hashMask p; cutValue := cutValue p; keepSizeBefore := keepSizeBefore p;
     keepSizeAfter := keepSizeAfter p; LzFind.numHashBytes := LzFind.numHashBytes p; numHashBytes_Min := numHashBytes_Min p;
     LzFind.numHashOutBits := LzFind.numHashOutBits p; directInputRem := directInputRem p; historySize := historySize p;
     fixedHashSize := fixedHashSize p; numRefs := numRefs p; expectedDataSize := expectedDataSize p; crc := t;
     hash_addr := hash_addr p |}.

Definition MatchFinder_SetDefaultSettings (p : CMatchFinder) : CMatchFinder := set_settings true 4 2 0 32 p.

(** [hash = NULL]; there is no data yet. *)
Definition MatchFinder_Construct (p : CMatchFinder) : CMatchFinder :=
  set_crc crc_table (MatchFinder_SetDefaultSettings (set_expected (2 ^ 64 - 1) (set_refs [] (son p) (set_input [] 0 (directInputRem p) p)))).

Definition set_ProbPrices (pp : list Z) (t : price_tables) : price_tables :=
  {| ProbPrices := pp; alignPrices := alignPrices t; posSlotPrices := posSlotPrices t; distancesPrices := distancesPrices t;
     lenEnc := lenEnc t; repLenEnc := repLenEnc t; distTableSize := distTableSize t |}.
Definition set_distTableSize (n : Z) (t : price_tables) : price_tables :=
  {| ProbPrices := ProbPrices t; alignPrices := alignPrices t; posSlotPrices := posSlotPrices t; distancesPrices := distancesPrices t;
     lenEnc := lenEnc t; repLenEnc := repLenEnc t; distTableSize := n |}.

(** [p]: what the memory held. *)
Definition LzmaEnc_Construct (p : encoder) : option encoder :=
  let p := set_MFB (MatchFinder_Construct (MFB p)) p in
  let '(_, p) := LzmaEnc_SetProps p LzmaEncProps_Init in
  let p := set_enc (set_lclppb (LzmaEnc.lc (enc p)) (LzmaEnc.lp (enc p)) (LzmaEnc.pb (enc p)) LzmaEnc_FastPosInit (enc p)) p in
  pp ← LzmaEnc_InitPriceTables;
  Some (set_optim (set_tables (set_ProbPrices pp (tables (optim p))) (optim p)) p).

(** ** Encoding to memory *)

(** Which allocations succeed: the encoder, the buffer of the range coder, the literal
    probabilities; [refs n] is a block of [n] references with its address. *)
Record enc_memory := { mem_enc : bool; mem_rc : bool; mem_lits : bool; refs : Z -> option (list Z * Z) }.

Definition mtMode (p : encoder) : bool := multiThread p && negb (fastMode p) && LzFind.btMode (MFB p).

(** [None] if the match finder is to run in threads of its own. *)
Definition LzmaEnc_Alloc (A : enc_memory) (keepWindowSize : Z) (p : encoder) : option (SRes * encoder) :=
  if negb (mem_rc A) then Some (SZ_ERROR_MEM, p)
  else if negb (mem_lits A) then Some (SZ_ERROR_MEM, p)
  else
    let dict := dictSize p in
    let dict := if (dict =? 2 <<< 30) || (dict =? 3 <<< 30) then dict - 1 else dict in
    let beforeSize := if u32 (kNumOpts + dict) <? keepWindowSize then u32 (keepWindowSize - dict) else kNumOpts in
    if mtMode p then None
    else
      let '(ok, m) := MatchFinder_Create (refs A) (MFB p) dict beforeSize (numFastBytes p) (LZMA_MATCH_LEN_MAX + 1) in
      let p := set_MFB m p in
      Some (if ok then SZ_OK else SZ_ERROR_MEM, p).

(** [distTableSize] for a dictionary: two slots for every bit. *)
Definition dist_table_size (dictSize : Z) : option Z :=
  i ← while 33 (fun i => (i <? kDicLogSizeMax) && negb (dictSize <=? u32 (1 <<< i))) (fun i => Some (i + 1)) (kEndPosModelIndex / 2);
  Some (i * 2).

(** What LzmaEnc_Init does to the optimiser. *)
Definition init_optim (o : optimizer) : optimizer :=
  {| opt := map (set_price kInfinityPrice) (opt o); optCur := 0; optEnd := 0; tables := tables o |}.

Definition LzmaEnc_AllocAndInit_full (A : enc_memory) (keepWindowSize : Z) (p : encoder) : option (SRes * encoder) :=
  n ← dist_table_size (dictSize p);
  let p := set_optim (set_tables (set_distTableSize n (tables (optim p))) (optim p)) p in
  let p := set_enc (set_pos 0 (set_result false SZ_OK (enc p))) p in
  '(r, p) ← LzmaEnc_Alloc A keepWindowSize p;
  if not_ok r then Some (r, p)
  else
    let p := set_optim (init_optim (optim p)) (set_enc (LzmaEnc_Init (enc p)) p) in
    '(e, t) ← LzmaEnc_InitPrices (fastMode p) (numFastBytes p) (enc p) (tables (optim p));
    Some (SZ_OK, set_optim (set_tables t (optim p)) (set_enc e p)).

Definition LzmaEnc_MemPrepare (A : enc_memory) (src : list Z) (keepWindowSize : Z) (p : encoder) : option (SRes * encoder) :=
  let p := set_MFB (set_expected (Z.of_nat (length src)) (set_input src 0 (Z.of_nat (length src)) (MFB p))) p in
  LzmaEnc_AllocAndInit_full A keepWindowSize p.

(** A look-ahead of nothing. *)
Definition start_lookahead (m : CMatchFinder) : lookahead CMatchFinder :=
  {| mf := m; additionalOffset := 0; numAvail := 0; matches := []; numPairs := 0; longestMatchLen := 0 |}.

(** The result and what was written to [dest]; the match finder is initialised by the first
    block. *)
Definition LzmaEnc_MemEncode_full (A : enc_memory) (p : encoder) (destLen : Z) (src : list Z) (endMark : bool)
  : option (SRes * list Z) :=
  let p := set_enc (mem_prepare (enc p) destLen endMark) p in
  '(r, p) ← LzmaEnc_MemPrepare A src 0 p;
  '(r, e) ← (if not_ok r then Some (r, enc p)
             else
               m ← MatchFinder_Init (MFB p);
               '(r, e) ← Encode2 (fastMode p) (numFastBytes p) src (enc p) (start_lookahead m) (optim p) false;
               Some (if negb (not_ok r) && negb (nowPos64 e =? Z.of_nat (length src)) then SZ_ERROR_FAIL else r, e));
  let s := outStream (rc (cod e)) in
  Some (if overflow s then SZ_ERROR_OUTPUT_EOF else r, written s).

(** [raw]: the memory of the encoder.  The result, what was written to [dest] and the
    encoded properties. *)
Definition LzmaEncode (A : enc_memory) (raw : encoder) (destLen : Z) (src : list Z) (props : CLzmaEncProps)
    (propsSize : Z) (endMark : bool) : option (SRes * list Z * list Z) :=
  if negb (mem_enc A) then Some (SZ_ERROR_MEM, [], [])
  else
    p ← LzmaEnc_Construct raw;
    let '(r, p) := LzmaEnc_SetProps p props in
    if not_ok r then Some (r, [], [])
    else
      '(r, propsEncoded) ← LzmaEnc_WriteProperties (enc_props (enc p) (dictSize p)) propsSize;
      if not_ok r then Some (r, [], propsEncoded)
      else '(r, dest) ← LzmaEnc_MemEncode_full A p destLen src endMark; Some (r, dest, propsEncoded).

(** ** What the properties are after SetProps *)

Record encoder_ok (p : encoder) : Prop := {
  en_lclppb : 0 <= LzmaEnc.lc (enc p) <= 8 /\ 0 <= LzmaEnc.lp (enc p) <= 4 /\ 0 <= LzmaEnc.pb (enc p) <= 4;
  en_dict : 1 <= dictSize p <= kLzmaMaxHistorySize; en_fb : 5 <= numFastBytes p <= LZMA_MATCH_LEN_MAX;
  en_bytes : 2 <= LzFind.numHashBytes (MFB p); en_mode : LzFind.btMode (MFB p) = false -> 4 <= LzFind.numHashBytes (MFB p);
  en_out : 0 <= LzFind.numHashOutBits (MFB p)
}.

Lemma default_dictSize_pos level : 0 <= level -> 0 < default_dictSize level < 2 ^ 32.
Proof.
  intros Hl. unfold default_dictSize, sizeof_size_t. destruct (Z.leb_spec level 4); [|destruct (Z.leb_spec level (8 / 2 + 4)) as [H8|]].
  - rewrite Z.shiftl_mul_pow2 by lia. pose proof (Z.pow_le_mono_r 2 (level * 2 + 16) 24). pose proof (Z.pow_pos_nonneg 2 (level * 2 + 16)). lia.
  - change (8 / 2 + 4) with 8 in H8. rewrite Z.shiftl_mul_pow2 by lia. pose proof (Z.pow_le_mono_r 2 (level + 20) 28). pose proof (Z.pow_pos_nonneg 2 (level + 20)). lia.
  - done.
Qed.

Lemma reduce_dictSize_pos n r : 1 <= n -> 1 <= reduce_dictSize n r.
Proof.
  intros Hn. unfold reduce_dictSize. change (1 <<< 12) with 4096. destruct (r <? n); [|done].
  destruct (Z.ltb_spec (u32 r) 4096); repeat (match goal with |- context [?a <? ?b] => destruct (Z.ltb_spec a b) end); lia.
Qed.

Lemma hash_bytes_ok bt n : 2 <= hash_bytes bt n /\ (bt = 0 -> 4 <= hash_bytes bt n).
Proof.
  unfold hash_bytes. destruct (Z.eqb_spec bt 0); cbn [negb]; destruct (Z.leb_spec 5 n); try lia.
  destruct (Z.ltb_spec n 2); [lia|]. destruct (Z.ltb_spec n 4); lia.
Qed.

Lemma SetProps_ok p props p' :
  0 <= pr_dictSize props -> LzmaEnc_SetProps p props = (SZ_OK, p') ->
  encoder_ok p' /\ hash (MFB p') = hash (MFB p) /\ numHashBytes_Min (MFB p') = numHashBytes_Min (MFB p) /\
  crc (MFB p') = crc (MFB p) /\ g_FastPos (enc p') = g_FastPos (enc p) /\
  fastMode p' = (pr_algo (LzmaEncProps_Normalize props) =? 0) /\ multiThread p' = (1 <? pr_numThreads (LzmaEncProps_Normalize props)) /\
  LzFind.btMode (MFB p') = negb (pr_btMode (LzmaEncProps_Normalize props) =? 0) /\ optim p' = optim p.
Proof.
  intros Hd. unfold LzmaEnc_SetProps. set (q := LzmaEncProps_Normalize props).
  assert (0 <= pr_lc q /\ 0 <= pr_lp q /\ 0 <= pr_pb q) as Hq.
  { unfold q, LzmaEncProps_Normalize. cbn. repeat (match goal with |- context [?a <? 0] => destruct (Z.ltb_spec a 0) end); lia. }
  assert (1 <= pr_dictSize q) as Hdict.
  { unfold q, LzmaEncProps_Normalize. cbn [pr_dictSize]. apply reduce_dictSize_pos.
    destruct (Z.eqb_spec (pr_dictSize props) 0); [|lia].
    pose proof (default_dictSize_pos (if pr_level props <? 0 then 5 else pr_level props)). destruct (Z.ltb_spec (pr_level props) 0); lia. }
  clearbody q. destruct (_ || _) eqn:Ep; [done|]. rewrite !orb_false_iff, !Z.ltb_ge in Ep. unfold LZMA_LC_MAX, LZMA_LP_MAX, LZMA_PB_MAX in Ep.
  set (dict := if kLzmaMaxHistorySize <? pr_dictSize q then kLzmaMaxHistorySize else pr_dictSize q).
  assert (1 <= dict <= kLzmaMaxHistorySize) as Hdict'.
  { unfold dict. destruct (Z.ltb_spec kLzmaMaxHistorySize (pr_dictSize q)); [done|lia]. }
  destruct (1 <<< kDicLogSizeMaxCompress <? dict); [done|]. intros [= <-]. cbn [hash MFB numHashBytes_Min crc g_FastPos enc fastMode multiThread optim set_settings LzFind.btMode].
  pose proof (hash_bytes_ok (pr_btMode q) (pr_numHashBytes q)) as [Hb Hc].
  split; [|done]. constructor; cbn; [lia|done| |done|by intros E%negb_false_iff%Z.eqb_eq; apply Hc|].
  - unfold LZMA_MATCH_LEN_MAX. repeat (match goal with |- context [?a <? ?b] => destruct (Z.ltb_spec a b) end); lia.
  - apply (wrap_in_width 8). lia.
Qed.

(** ** Normalisation *)

Lemma reduce_dictSize_idem n r : n <> 0 -> reduce_dictSize n r <> 0 /\ reduce_dictSize (reduce_dictSize n r) r = reduce_dictSize n r.
Proof.
  intros Hn. unfold reduce_dictSize. change (1 <<< 12) with 4096. cbv zeta.
  set (v := if u32 r <? 4096 then 4096 else u32 r). assert (4096 <= v) as Hv by (unfold v; destruct (Z.ltb_spec (u32 r) 4096); lia).
  clearbody v. destruct (Z.ltb_spec r n) as [H1|H1].
  - destruct (Z.ltb_spec v n) as [H2|H2].
    + rewrite Z.ltb_irrefl. split; [lia|]. by destruct (r <? v).
    + rewrite (proj2 (Z.ltb_lt r n)), (proj2 (Z.ltb_ge v n)) by lia. done.
  - rewrite (proj2 (Z.ltb_ge r n)) by lia. done.
Qed.

Lemma not_neg x d : 0 <= d -> ((if x <? 0 then d else x) <? 0) = false.
Proof. intros Hd. destruct (Z.ltb_spec x 0); apply Z.ltb_ge; lia. Qed.

(** LzmaEncProps_Normalize settles every property: normalising again changes nothing,
    and the properties of LzmaEncProps_Init give a dictionary of 32 MiB (level 5), normal
    mode with binary trees on 4 bytes, 32 fast bytes and a cut value of 32. *)
Theorem LzmaEncProps_Normalize_idempotent (p : CLzmaEncProps) :
  LzmaEncProps_Normalize (LzmaEncProps_Normalize p) = LzmaEncProps_Normalize p /\
  LzmaEncProps_Normalize LzmaEncProps_Init =
    {| pr_level := 5; pr_dictSize := 1 <<< 25; pr_lc := 3; pr_lp := 0; pr_pb := 2; pr_algo := 1; pr_fb := 32; pr_btMode := 1;
       pr_numHashBytes := 4; pr_numHashOutBits := 0; pr_mc := 32; pr_writeEndMark := 0; pr_numThreads := 2; pr_reduceSize := 2 ^ 64 - 1 |}.
Proof.
  split; [|reflexivity]. unfold LzmaEncProps_Normalize at 1. set (q := LzmaEncProps_Normalize p).
  assert (0 <= pr_level q /\ pr_dictSize q <> 0 /\ reduce_dictSize (pr_dictSize q) (pr_reduceSize q) = pr_dictSize q /\
    0 <= pr_lc q /\ 0 <= pr_lp q /\ 0 <= pr_pb q /\ 0 <= pr_algo q /\ 0 <= pr_fb q /\ 0 <= pr_btMode q /\ 0 <= pr_numHashBytes q /\
    pr_mc q <> 0 /\ 0 <= pr_numThreads q) as (Hl & Hd & Hr & Hlc & Hlp & Hpb & Ha & Hfb & Hbt & Hnb & Hmc & Hnt).
  { unfold q, LzmaEncProps_Normalize. cbn [pr_level pr_dictSize pr_lc pr_lp pr_pb pr_algo pr_fb pr_btMode pr_numHashBytes pr_mc pr_numThreads pr_reduceSize].
    assert (forall x d, 0 <= d -> 0 <= (if x <? 0 then d else x)) as Hset by (intros x d Hx; destruct (Z.ltb_spec x 0); lia).
    assert (forall (b : bool) x y, 0 <= x -> 0 <= y -> 0 <= (if b then x else y)) as Hif by (by intros []).
    set (level := if pr_level p <? 0 then 5 else pr_level p). assert (0 <= level) as Hlevel by (apply Hset; lia).
    set (n := if pr_dictSize p =? 0 then default_dictSize level else pr_dictSize p).
    assert (n <> 0) as Hn. { unfold n. pose proof (default_dictSize_pos level Hlevel). destruct (Z.eqb_spec (pr_dictSize p) 0); lia. }
    destruct (reduce_dictSize_idem n (pr_reduceSize p) Hn) as [R1 R2]. split; [done|]. split; [exact R1|]. split; [exact R2|].
    do 7 (split; [apply Hset; try apply Hif; lia|]). split; [|apply Hset, Hif; lia].
    set (fb := if pr_fb p <? 0 then _ else pr_fb p). assert (0 <= fb) by (apply Hset, Hif; lia).
    destruct (Z.eqb_spec (pr_mc p) 0); [|done]. pose proof (Z.shiftr_nonneg fb 1). rewrite Z.shiftr_div_pow2 by (by destruct (negb _)).
    assert (1 <= 16 + (fb >>> 1)) by lia. match goal with |- (?a / 2 ^ (if ?b then 0 else 1)) <> 0 => destruct b end; [rewrite Z.div_1_r; lia|].
    change (2 ^ 1) with 2. pose proof (Z.div_le_mono 16 (16 + (fb >>> 1)) 2). change (16 / 2) with 8 in *. lia. }
  clearbody q. destruct q. cbn in *. rewrite !(proj2 (Z.ltb_ge _ 0)), !(proj2 (Z.eqb_neq _ 0)), Hr by done. done.
Qed.
