(* ===== verification/LzmaEncode.v ===== *)
(** * LzmaEncode and LzmaDecode

    The composition of everything: properties, match finder, fast or normal mode, range coder
    and stream on one side, the decoder on the other. *)

From stdpp Require Import base numbers list list_numbers.
From Stdlib Require Import ZArith Lia.
From S2P Require Import Prelude SzTypes LzmaParse LzmaDec LzmaDecSym LzmaDecSafe LzmaApi RangeEnc LzmaEnc LzmaRun LzmaRoundtrip.
From S2P Require Import MatchFinder LzFind LzFindLaws LzFindInit LzmaPrices LzmaPricesOk LzmaEncFast LzmaEncOpt LzmaEncBlocks LzmaOptPath LzmaOptStart LzmaFastOk LzmaEncRun LzmaEncProps.
Local Open Scope Z_scope.
Local Open Scope word_scope.

(** All allocations succeed. *)
Record memory_ok (A : enc_memory) : Prop := {
  me_enc : mem_enc A = true; me_rc : mem_rc A = true; me_lits : mem_lits A = true;
  me_refs : forall n, refs A n <> None; me_size : alloc_ok (refs A)
}.

(** The arrays of the encoder's memory have their sizes; what they hold does not matter. *)
Record optim_shape (o : optimizer) : Prop := {
  os_opt : length (opt o) = Z.to_nat kNumOpts; os_align : length (alignPrices (tables o)) = 16%nat;
  os_slots : length (posSlotPrices (tables o)) = Z.to_nat 256; os_dists : length (distancesPrices (tables o)) = Z.to_nat 512;
  os_len : length (len_prices (lenEnc (tables o))) = Z.to_nat (16 * kLenNumSymbolsTotal);
  os_rep : length (len_prices (repLenEnc (tables o))) = Z.to_nat (16 * kLenNumSymbolsTotal)
}.

(** An encoder that has not encoded yet. *)
Record new_encoder (p : encoder) : Prop := {
  ne_ok : encoder_ok p; ne_hash : hash (MFB p) = []; ne_min : numHashBytes_Min (MFB p) = 2;
  ne_crc : crc (MFB p) = crc_table; ne_slots : g_FastPos (enc p) = LzmaEnc_FastPosInit;
  ne_shape : optim_shape (optim p); ne_prices : bit_prices (ProbPrices (tables (optim p))); ne_single : mtMode p = false
}.

Lemma crc_table_length : length crc_table = 256%nat.
Proof. unfold crc_table. by rewrite length_map, length_seqZ. Qed.

(** The slots that are reserved are enough for the dictionary. *)
Lemma dist_table_size_ok n :
  1 <= n <= kLzmaMaxHistorySize -> yields (dist_table_size n) (fun k => 14 <= k <= 64 /\ n <= 2 ^ (k / 2)).
Proof.
  intros Hn. unfold kLzmaMaxHistorySize in Hn. change (15 <<< 28) with 4026531840 in Hn. unfold dist_table_size. change (kEndPosModelIndex / 2) with 7. change kDicLogSizeMax with 32.
  eapply yields_then; [apply (yields_while (fun i => 7 <= i <= 32) (fun i => Z.to_nat (32 - i)))|].
  - intros i Hi [Hlt%Z.ltb_lt _]%andb_true_iff. cbn. lia.
  - lia.
  - lia.
  - intros i [Hi Hstop]. cbn [yields]. split; [lia|]. rewrite Z.div_mul by lia. apply andb_false_iff in Hstop as [H32%Z.ltb_ge|Hle%negb_false_iff%Z.leb_le].
    + replace i with 32 by lia. lia.
    + destruct (Z.eq_dec i 32) as [->|]; [lia|]. rewrite Z.shiftl_1_l in Hle. rewrite wrap_small in Hle; [done|].
      split; [apply Z.pow_nonneg; lia|apply Z.pow_lt_mono_r; lia].
Qed.

Lemma init_optim_idle o : length (opt o) = Z.to_nat kNumOpts -> idle (opt (init_optim o)).
Proof.
  intros Hl. split; [cbn; by rewrite length_map|]. intros j Hj. destruct (rd_Some (opt o) j) as [e He]; [rewrite Hl; lia|].
  exists (set_price kInfinityPrice e). split; [|done]. rewrite rd_lookup in He |- * by lia. cbn [opt init_optim]. by rewrite list_lookup_fmap, He.
Qed.

(** The match finder that LzmaEnc_Alloc creates. *)
Lemma Alloc_ok A p src :
  new_encoder p -> memory_ok A -> bytes src -> Z.of_nat (length src) <= 2 ^ 32 - 2 ->
  let p1 := set_MFB (set_expected (Z.of_nat (length src)) (set_input src 0 (Z.of_nat (length src)) (MFB p))) p in
  forall o e, exists hist m m', LzmaEnc_Alloc A 0 (set_enc e (set_optim o p1)) = Some (SZ_OK, set_MFB m (set_enc e (set_optim o p))) /\
    MatchFinder_Init m = Some m' /\ finder_ok src (numFastBytes p) hist m' /\ LzFind.buffer m' = 0 /\ 0 <= hist <= dictSize p.
Proof.
  intros Hp HA Hb Hl p1 o e. destruct Hp as [[Hprops Hdict Hfb Hbytes Hmode Hout] Hhash Hmin Hcrc _ _ _ Hmt]. destruct HA as [_ Hrc Hlits Hrefs Hsize].
  unfold LzmaEnc_Alloc. cbn [set_enc set_MFB set_optim dictSize MFB enc numFastBytes p1]. rewrite Hrc, Hlits.
  cbn [negb]. set (hist := if (dictSize p =? 2 <<< 30) || (dictSize p =? 3 <<< 30) then dictSize p - 1 else dictSize p).
  unfold kLzmaMaxHistorySize, LZMA_MATCH_LEN_MAX in *. change (15 <<< 28) with 4026531840 in Hdict.
  assert (1 <= hist <= 4026531840 /\ hist <= dictSize p) as Hh.
  { unfold hist. change (2 <<< 30) with 2147483648. change (3 <<< 30) with 3221225472.
    destruct (Z.eqb_spec (dictSize p) 2147483648), (Z.eqb_spec (dictSize p) 3221225472); cbn [orb]; lia. }
  clearbody hist. set (m0 := set_expected _ _). set (before := if _ <? 0 then _ else kNumOpts). clearbody before.
  change (mtMode _) with (mtMode p). rewrite Hmt.
  destruct (new_finder_ok (refs A) src m0 hist before (numFastBytes p) (273 + 1)) as (m & m' & Em & Ei & Hok & Eb);
    [done|done| |done|done|lia|lia|lia|lia|].
  { constructor; cbn; try done; [by rewrite Hmin|rewrite Hcrc; apply crc_table_length]. }
  rewrite Em. exists hist, m, m'. do 4 (split; [done|]). lia.
Qed.

(** LzmaEnc_MemEncode codes a valid plan. *)
Lemma MemEncode_plan A p destLen src endMark :
  new_encoder p -> memory_ok A -> bytes src -> Z.of_nat (length src) <= 2 ^ 32 - 2 ->
  exists cs, plan_valid src (dictSize p) (LzmaEnc_AllocAndInit (enc p)) cs = true /\
    LzmaEnc_MemEncode_full A p destLen src endMark = LzmaEnc_MemEncode (enc p) destLen src endMark cs.
Proof.
  intros Hp HA Hb Hl. set (e1 := mem_prepare (enc p) destLen endMark). set (p1 := set_enc e1 p).
  pose proof (ne_ok _ Hp) as [Hprops Hdict Hfb _ _]. unfold LzmaEnc_MemEncode_full, LzmaEnc_MemPrepare, LzmaEnc_AllocAndInit_full. fold e1 p1.
  pose proof (dist_table_size_ok (dictSize p) Hdict) as Hn. cbn [dictSize set_MFB set_enc p1].
  destruct (dist_table_size (dictSize p)) as [n|]; [|done]. cbn [yields] in Hn. opt.
  assert (new_encoder p1) as Hp1 by (destruct Hp as [[]]; constructor; [constructor|..]; done).
  cbn [enc optim set_MFB set_enc set_optim]. set (e2 := set_pos 0 (set_result false SZ_OK e1)). set (o2 := set_tables (set_distTableSize n (tables (optim p))) (optim p)).
  destruct (Alloc_ok A p1 src Hp1 HA Hb Hl o2 e2) as (hist & m & m' & Ealloc & Einit & Hm & Eb & Hh). cbn [numFastBytes dictSize set_enc p1] in Hm, Hh.
  match type of Ealloc with LzmaEnc_Alloc A 0 ?x = _ => match goal with |- context [LzmaEnc_Alloc A 0 ?y] => change y with x end end.
  rewrite Ealloc. opt. cbn [not_ok]. unfold kLzmaMaxHistorySize in Hdict.
  assert (fast_settings src (numFastBytes p) hist (dictSize p)) as Hs by (constructor; [lia|done|lia|lia]).
  destruct (ne_shape _ Hp) as [S1 S2 S3 S4 S5 S6].
  assert (tables_shape (tables o2)) as Ht by (constructor; try done; [apply (ne_prices _ Hp)|apply Hn]).
  destruct (InitPrices_plan (LM := CMatchFinder_laws) (fastMode p) src (numFastBytes p) hist (dictSize p) e1 m' (opt (init_optim o2)) (tables o2) false Hb Hs ltac:(lia) Hm Eb Hprops
    (ne_slots _ Hp) Ht) as (cs & r & q & t & q' & p' & Hcs & Eprices & Er & Er' & (x & y & Hcount)).
  { intros _. cbn [distTableSize tables o2 set_tables set_distTableSize]. split; [lia|]. by apply init_optim_idle. }
  exists cs. split.
  { revert Hcs. unfold plan_valid. destruct (_ =? 0); [done|]. by rewrite (valid_ext src (dictSize p) cs _ (LzmaEnc_AllocAndInit (enc p))). }
  cbn [enc optim set_enc set_MFB set_optim fastMode numFastBytes tables init_optim MFB p1]. change (LzmaEnc_Init e2) with (LzmaEnc_AllocAndInit e1).
  change (tables o2) with (set_distTableSize n (tables (optim p))) in Eprices |- *. rewrite Eprices. opt.
  cbn [not_ok MFB set_MFB set_optim set_enc enc optim fastMode numFastBytes]. rewrite Einit. opt. unfold start_lookahead.
  match type of Er with ?x = _ => match goal with |- context [Encode2 ?a ?b ?c ?d ?e ?f ?g] => change (Encode2 a b c d e f g) with x end end.
  rewrite Er. opt.
  unfold LzmaEnc_MemEncode. change (set_cod _ _) with e1. rewrite Er'. opt. by rewrite Hcount.
Qed.

Lemma Construct_ok raw : optim_shape (optim raw) ->
  exists p0, LzmaEnc_Construct raw = Some p0 /\ hash (MFB p0) = [] /\ numHashBytes_Min (MFB p0) = 2 /\ crc (MFB p0) = crc_table /\
    g_FastPos (enc p0) = LzmaEnc_FastPosInit /\ optim_shape (optim p0) /\ bit_prices (ProbPrices (tables (optim p0))).
Proof.
  intros [S1 S2 S3 S4 S5 S6]. destruct InitPriceTables_ok as (pp & E & Hpp). unfold LzmaEnc_Construct. rewrite E. clear E.
  eexists. split; [reflexivity|]. split; [reflexivity|]. split; [reflexivity|]. split; [reflexivity|]. split; [reflexivity|]. split; [|exact Hpp]. by constructor.
Qed.

(** Every mode but normal mode with binary trees and more than one thread: then the match
    finder runs in threads of its own. *)
Definition single_thread (props : CLzmaEncProps) : Prop :=
  let q := LzmaEncProps_Normalize props in pr_algo q = 0 \/ pr_btMode q = 0 \/ pr_numThreads q <= 1.

Definition encode_props (props : CLzmaEncProps) : Prop :=
  0 <= pr_dictSize props /\ single_thread props /\ pr_lc props <= 8 /\ pr_lp props <= 4 /\ pr_pb props <= 4.

Lemma SetProps_new p0 props p :
  0 <= pr_dictSize props -> single_thread props -> hash (MFB p0) = [] -> numHashBytes_Min (MFB p0) = 2 -> crc (MFB p0) = crc_table ->
  g_FastPos (enc p0) = LzmaEnc_FastPosInit -> optim_shape (optim p0) -> bit_prices (ProbPrices (tables (optim p0))) ->
  LzmaEnc_SetProps p0 props = (SZ_OK, p) -> new_encoder p.
Proof.
  intros Hd Hsingle H1 H2 H3 H4 H5 H6 E. destruct (SetProps_ok _ _ _ Hd E) as (Hok & Hhash & Hmin & Hcrc & Hslots & Hfast & Hmt & Hbt & Hopt).
  constructor; try done; try congruence. unfold mtMode. rewrite Hmt, Hfast, Hbt.
  destruct Hsingle as [->|[->|Hle]]; [by rewrite andb_false_r|by rewrite !andb_false_r|]. by rewrite (proj2 (Z.ltb_ge _ _)) by lia.
Qed.

Lemma SetProps_accepts p props : pr_lc props <= 8 -> pr_lp props <= 4 -> pr_pb props <= 4 -> exists p', LzmaEnc_SetProps p props = (SZ_OK, p').
Proof.
  intros Hc Hl Hb. unfold LzmaEnc_SetProps. set (q := LzmaEncProps_Normalize props).
  assert (pr_lc q <= 8 /\ pr_lp q <= 4 /\ pr_pb q <= 4) as Hq.
  { unfold q, LzmaEncProps_Normalize. cbn. repeat (match goal with |- context [?a <? 0] => destruct (Z.ltb_spec a 0) end); lia. }
  clearbody q. unfold LZMA_LC_MAX, LZMA_LP_MAX, LZMA_PB_MAX.
  rewrite !(proj2 (Z.ltb_ge _ _)) by lia. cbn [orb]. unfold kLzmaMaxHistorySize.
  assert ((1 <<< kDicLogSizeMaxCompress <? (if 15 <<< 28 <? pr_dictSize q then 15 <<< 28 else pr_dictSize q)) = false) as ->.
  { apply Z.ltb_ge. change (1 <<< kDicLogSizeMaxCompress) with 8589934592. change (15 <<< 28) with 4026531840.
    destruct (Z.ltb_spec 4026531840 (pr_dictSize q)); lia. }
  by eexists.
Qed.

(** LzmaEncode, and LzmaDecode of what it wrote: without an end mark either way to finish does. *)
Lemma LzmaEncode_decodes EA raw_enc props src destLen endMark :
  memory_ok EA -> optim_shape (optim raw_enc) -> encode_props props ->
  bytes src -> 1 <= Z.of_nat (length src) <= 2 ^ 32 - 2 -> 0 <= destLen ->
  exists r stream header, LzmaEncode EA raw_enc destLen src props LZMA_PROPS_SIZE endMark = Some (r, stream, header) /\
    Z.of_nat (length stream) <= destLen /\ (r = SZ_OK \/ r = SZ_ERROR_OUTPUT_EOF) /\ length header = Z.to_nat LZMA_PROPS_SIZE /\ bytes header /\
    (r = SZ_OK -> bytes stream /\ forall (A : allocator) raw dest mode,
       alloc_laws A -> (forall n, alloc_probs A n <> None) -> raw_ok raw -> bytes dest -> length dest = length src ->
       (endMark = true -> mode = LZMA_FINISH_END) ->
       LzmaDecode A raw dest stream header mode = Some (src, Z.of_nat (length src), Z.of_nat (length stream), SZ_OK,
         if endMark then LZMA_STATUS_FINISHED_WITH_MARK else LZMA_STATUS_MAYBE_FINISHED_WITHOUT_MARK)).
Proof.
  intros HEA Hraw_enc Hprops Hsrc Hsize Hdl.
  destruct Hprops as (Hd & Hsingle & Hlc & Hlp & Hpb). unfold LzmaEncode. rewrite (me_enc _ HEA). cbn [negb].
  destruct (Construct_ok raw_enc Hraw_enc) as (p0 & -> & N1 & N2 & N3 & N4 & N5 & N6). cbn [mbind option_bind].
  destruct (SetProps_accepts p0 props Hlc Hlp Hpb) as (p & Ep). rewrite Ep. cbn [not_ok].
  pose proof (SetProps_new p0 props p Hd Hsingle N1 N2 N3 N4 N5 N6 Ep) as Hp.
  destruct (ne_ok _ Hp) as [(Plc & Plp & Ppb) Pdict _ _ _]. change kLzmaMaxHistorySize with 4026531840 in Pdict.
  assert (enc_ready (enc p)) as He by (constructor; [done|apply Hp]).
  destruct (WriteProperties_decodes (enc_props (enc p) (dictSize p)) LZMA_PROPS_SIZE Plc Plp Ppb) as (data & v & Ew & Hdl' & Hb & Hdec & Hv & _);
    [cbn; lia|done|].
  rewrite Ew. cbn [mbind option_bind not_ok].
  destruct (MemEncode_plan EA p destLen src endMark Hp HEA Hsrc ltac:(lia)) as (cs & Hcs & ->).
  destruct (MemEncode_run (enc p) destLen src endMark cs (dictSize p) He Hsrc ltac:(lia) Hdl Hcs) as (p' & -> & Hout & Hr & Henc).
  cbn [mbind option_bind]. eexists _, _, _. split; [done|]. split; [done|].
  destruct (res (rc (cod p'))) eqn:Hres; cbn [not_ok]; (split; [auto|]); (split; [done|]); (split; [done|]); try done. intros _.
  destruct (encoded_decodes src (dictSize p) Hsrc ltac:(lia) (mem_prepare (enc p) destLen endMark) cs p' eq_refl Hr (Henc eq_refl)) as (Hbs & _).
  split; [exact Hbs|]. intros A raw dest mode HA Hmem Hraw Hdest Hlen Hmode.
  exact (LzmaDecode_encoded A raw dest src (dictSize p) (mem_prepare (enc p) destLen endMark) cs p' data v mode Hmode HA (Hmem _) Hraw Hdest Hlen
    Hsrc ltac:(lia) Hdec Hb (proj1 Hv) eq_refl Hr (Henc eq_refl)).
Qed.

(** C1: LzmaEncode followed by LzmaDecode gives the data back.  For any data of 1 to
    2^32 - 2 bytes (the match finder then never normalises its positions), any properties that do not ask for a match finder in threads of its own (fast mode, or normal mode with
    one thread or with hash chains), with hash chains or binary trees, and whatever the memory
    of the new objects held: if the allocations succeed LzmaEncode returns, writes at most
    [destLen] bytes and ends with SZ_OK or SZ_ERROR_OUTPUT_EOF; after SZ_OK, LzmaDecode with
    the encoded properties takes the whole stream and writes exactly the data.  Empty data and
    data of 4 GiB and more are not covered. *)
Theorem LzmaEncode_LzmaDecode (A : allocator) (raw : CLzmaDec) (EA : enc_memory) (raw_enc : encoder) (props : CLzmaEncProps)
    (src dest : list Z) (destLen : Z) (endMark : bool)
    (HA : alloc_laws A) (Hmem : forall n, alloc_probs A n <> None) (Hraw : raw_ok raw) (HEA : memory_ok EA) (Hraw_enc : optim_shape (optim raw_enc)) (Hprops : encode_props props)
    (Hsrc : bytes src) (Hsize : 1 <= Z.of_nat (length src) <= 2 ^ 32 - 2) (Hdest : bytes dest) (Hlen : length dest = length src)
    (Hdl : 0 <= destLen) :
  exists r stream header, LzmaEncode EA raw_enc destLen src props LZMA_PROPS_SIZE endMark = Some (r, stream, header) /\
    Z.of_nat (length stream) <= destLen /\ (r = SZ_OK \/ r = SZ_ERROR_OUTPUT_EOF) /\
    (r = SZ_OK -> LzmaDecode A raw dest stream header LZMA_FINISH_END =
       Some (src, Z.of_nat (length src), Z.of_nat (length stream), SZ_OK,
             if endMark then LZMA_STATUS_FINISHED_WITH_MARK else LZMA_STATUS_MAYBE_FINISHED_WITHOUT_MARK)).
Proof.
  destruct (LzmaEncode_decodes EA raw_enc props src destLen endMark HEA Hraw_enc Hprops Hsrc Hsize Hdl) as (r & stream & header & E & Hout & Hr & _ & _ & Hdec).
  exists r, stream, header. split; [done|]. split; [done|]. split; [done|]. intros H. destruct (Hdec H) as [_ Hd]. by apply Hd.
Qed.

(** ** Examples *)

Definition example_memory : enc_memory := {| mem_enc := true; mem_rc := true; mem_lits := true; refs := cleared_block |}.

Lemma example_memory_ok : memory_ok example_memory.
Proof. constructor; try done. intros n l addr Hn [= <- <-]. rewrite length_replicate. by apply Z2Nat.id. Qed.

Definition example_raw : encoder :=
  {| enc := example_encoder; MFB := hc_example []; dictSize := 0; numFastBytes := 0; fastMode := false; multiThread := false;
     optim := {| opt := replicate (Z.to_nat kNumOpts) free_opt; optCur := 0; optEnd := 0; tables := zero_tables |} |}.

Lemma example_shape : optim_shape (optim example_raw).
Proof. constructor; cbn [optim example_raw opt tables zero_tables alignPrices posSlotPrices distancesPrices lenEnc repLenEnc len_prices]; by rewrite length_replicate. Qed.

(** Level 5 with one thread: normal mode with binary trees. *)
Definition example_props : CLzmaEncProps :=
  {| pr_level := 5; pr_dictSize := 0; pr_lc := -1; pr_lp := -1; pr_pb := -1; pr_algo := -1; pr_fb := -1; pr_btMode := -1;
     pr_numHashBytes := -1; pr_numHashOutBits := 0; pr_mc := 0; pr_writeEndMark := 0; pr_numThreads := 1; pr_reduceSize := 2 ^ 64 - 1 |}.

Lemma LzmaEncode_LzmaDecode_witness :
  exists r stream header, LzmaEncode example_memory example_raw 100 example_src example_props LZMA_PROPS_SIZE true = Some (r, stream, header) /\
    (r = SZ_OK -> LzmaDecode zero_alloc example_start [0; 0; 0; 0; 0; 0; 0; 0] stream header LZMA_FINISH_END =
       Some (example_src, 8, Z.of_nat (length stream), SZ_OK, LZMA_STATUS_FINISHED_WITH_MARK)).
Proof.
  destruct (LzmaEncode_LzmaDecode zero_alloc example_start example_memory example_raw example_props example_src [0; 0; 0; 0; 0; 0; 0; 0] 100 true
    zero_alloc_laws ltac:(discriminate) (wf_raw _ example_start_wf) example_memory_ok example_shape) as (r & stream & header & H1 & _ & _ & H2).
  - split; [cbn; lia|]. split; [right; right; cbn; lia|]. cbn. lia.
  - byte_list.
  - cbn. lia.
  - byte_list.
  - reflexivity.
  - lia.
  - exists r, stream, header. split; [exact H1|exact H2].
Defined.
