(* ===== verification/Lzma86.v ===== *)
(** * LZMA86: LZMA over the x86 converter

    src/native/sevenzip_bridge/7z2604-src/C/Lzma86Enc.c and Lzma86Dec.c.  The stream is a byte
    that tells whether the data were converted, the LZMA properties, the size of the data and
    the LZMA stream; in SZ_FILTER_AUTO the encoder tries both ways and repeats the better one
    if it was not the last.  Every call of LzmaEncode makes its encoder anew: [A i] is what the
    allocator does in pass [i], [raw i] what the memory it gives holds. *)

From stdpp Require Import base numbers list list_numbers.
From Stdlib Require Import ZArith Lia.
From S2P Require Import Prelude SzTypes LzmaDec LzmaDecSym LzmaDecSafe LzmaApi LzmaEnc LzmaRoundtrip LzmaEncProps LzmaEncode.
From S2P Require Import Bra Bra86 Bra86Ok.
Local Open Scope Z_scope.
Local Open Scope word_scope.

(** ** Definitions *)

Definition LZMA86_SIZE_OFFSET : Z := 1 + 5.
Definition LZMA86_HEADER_SIZE : Z := LZMA86_SIZE_OFFSET + 8.
Definition Z7_BRANCH_CONV_ST_X86_STATE_INIT_VAL : Z := 0.

(** The names of the values that [filterMode], an int, is compared with. *)
Definition SZ_FILTER_NO : Z := 0.
Definition SZ_FILTER_YES : Z := 1.
Definition SZ_FILTER_AUTO : Z := 2.

Definition lzma86_get_turn (src : list Z) (s : Z * Z) : option (Z * Z + Z) :=
  let '(i, size) := s in
  if i <? 8 then
    b ← rd src (LZMA86_SIZE_OFFSET + i);
    Some (inl (i + 1, u64 (size + u64 (b <<< (8 * i)))))
  else Some (inr size).

(** [*unpackSize] is left alone when the header is not there. *)
Definition Lzma86_GetUnpackSize (src : list Z) (unpackSize : Z) : option (SRes * Z) :=
  if Z.of_nat (length src) <? LZMA86_HEADER_SIZE then Some (SZ_ERROR_INPUT_EOF, unpackSize)
  else size ← loop 9 (lzma86_get_turn src) (0, 0); Some (SZ_OK, size).

(** [dest], [*destLen], [*srcLen] and the result. *)
Definition Lzma86_Decode (A : allocator) (raw : CLzmaDec) (dest src : list Z) : option (list Z * Z * Z * SRes) :=
  if Z.of_nat (length src) <? LZMA86_HEADER_SIZE
  then Some (dest, Z.of_nat (length dest), Z.of_nat (length src), SZ_ERROR_INPUT_EOF)
  else
    useFilter ← rd src 0;
    if 1 <? useFilter then Some (dest, 0, Z.of_nat (length src), SZ_ERROR_UNSUPPORTED)
    else
      propData ← slice src 1 (Z.to_nat LZMA_PROPS_SIZE);
      '(dest, destLen, inSizePure, res, _) ←
        LzmaDecode A raw dest (drop (Z.to_nat LZMA86_HEADER_SIZE) src) propData LZMA_FINISH_ANY;
      let srcLen := inSizePure + LZMA86_HEADER_SIZE in
      if not_ok res then Some (dest, destLen, srcLen, res)
      else if useFilter =? 1 then
        '(dest, _, _) ← z7_BranchConvSt_X86 false dest destLen 0 Z7_BRANCH_CONV_ST_X86_STATE_INIT_VAL;
        Some (dest, destLen, srcLen, SZ_OK)
      else Some (dest, destLen, srcLen, SZ_OK).

(** [dest[LZMA86_SIZE_OFFSET + i] = (Byte)t] for the eight bytes of [t = srcLen]. *)
Definition lzma86_put_turn (s : Z * Z * list Z) : option (Z * Z * list Z + list Z) :=
  let '(i, t, dest) := s in
  if i <? 8 then
    dest ← wrz dest (LZMA86_SIZE_OFFSET + i) (u8 t);
    Some (inl (i + 1, t >>> 8, dest))
  else Some (inr dest).

Definition lzma86_put_size (dest : list Z) (srcLen : Z) : option (list Z) := loop 9 lzma86_put_turn (0, srcLen, dest).

Definition lzma86_props (level dictSize : Z) : CLzmaEncProps :=
  let props := LzmaEncProps_Init in
  {| pr_level := level; pr_dictSize := dictSize; pr_lc := pr_lc props; pr_lp := pr_lp props; pr_pb := pr_pb props;
     pr_algo := pr_algo props; pr_fb := pr_fb props; pr_btMode := pr_btMode props; pr_numHashBytes := pr_numHashBytes props;
     pr_numHashOutBits := pr_numHashOutBits props; pr_mc := pr_mc props; pr_writeEndMark := pr_writeEndMark props;
     pr_numThreads := pr_numThreads props; pr_reduceSize := pr_reduceSize props |}.

(** One turn of the loop over the passes: [i], [dest], [minSize], [bestIsFiltered], [mainResult]. *)
Definition lzma86_pass (A : Z -> enc_memory) (raw : Z -> encoder) (props : CLzmaEncProps) (filteredStream src : list Z)
    (useFilter : bool) (numPasses outSize2 : Z) (s : Z * list Z * Z * bool * SRes)
  : option (Z * list Z * Z * bool * SRes + list Z * Z * bool * SRes) :=
  let '(i, dest, minSize, bestIsFiltered, mainResult) := s in
  if negb (i <? numPasses) then Some (inr (dest, minSize, bestIsFiltered, mainResult))
  else
    let curModeIsFiltered := (1 <? numPasses) && (i =? numPasses - 1) in
    if curModeIsFiltered && negb bestIsFiltered then Some (inr (dest, minSize, bestIsFiltered, mainResult))
    else
      let curModeIsFiltered := if useFilter && (i =? 0) then true else curModeIsFiltered in
      '(curRes, stream, propsEncoded) ←
        LzmaEncode (A i) (raw i) (outSize2 - LZMA86_HEADER_SIZE) (if curModeIsFiltered then filteredStream else src) props LZMA_PROPS_SIZE false;
      dest ← blit dest 1 propsEncoded;
      dest ← blit dest (Z.to_nat LZMA86_HEADER_SIZE) stream;
      match curRes with
      | SZ_ERROR_OUTPUT_EOF => Some (inl (i + 1, dest, minSize, bestIsFiltered, mainResult))
      | SZ_OK =>
          let outSizeProcessed := Z.of_nat (length stream) in
          if (outSizeProcessed <=? minSize) || not_ok mainResult
          then Some (inl (i + 1, dest, outSizeProcessed, curModeIsFiltered, SZ_OK))
          else Some (inl (i + 1, dest, minSize, bestIsFiltered, mainResult))
      | _ => Some (inr (dest, minSize, bestIsFiltered, curRes))
      end.

(** The result, [dest] and [*destLen], which is the size of [dest] before; [M] tells whether
    there is memory for the converted data. *)
Definition Lzma86_Encode (M : bool) (A : Z -> enc_memory) (raw : Z -> encoder) (dest src : list Z) (level dictSize filterMode : Z)
  : option (SRes * list Z * Z) :=
  let outSize2 := Z.of_nat (length dest) in
  let srcLen := Z.of_nat (length src) in
  let props := lzma86_props level dictSize in
  if outSize2 <? LZMA86_HEADER_SIZE then Some (SZ_ERROR_OUTPUT_EOF, dest, 0)
  else
    dest ← lzma86_put_size dest srcLen;
    let useFilter := negb (filterMode =? SZ_FILTER_NO) in
    if useFilter && negb (srcLen =? 0) && negb M then Some (SZ_ERROR_MEM, dest, 0)
    else
      filteredStream ← (if useFilter then '(f, _, _) ← z7_BranchConvSt_X86 true src srcLen 0 Z7_BRANCH_CONV_ST_X86_STATE_INIT_VAL; Some f
                        else Some []);
      let numPasses := if filterMode =? SZ_FILTER_AUTO then 3 else 1 in
      '(dest, minSize, bestIsFiltered, mainResult) ←
        loop 4 (lzma86_pass A raw props filteredStream src useFilter numPasses outSize2) (0, dest, 0, false, SZ_ERROR_OUTPUT_EOF);
      dest ← wrz dest 0 (if (bestIsFiltered : bool) then 1 else 0);
      Some (mainResult, dest, LZMA86_HEADER_SIZE + minSize).

(** ** The header *)

(** The buffer: the flag, the properties, the size and the stream. *)
Definition framed (d0 : Z) (h sz rest : list Z) : list Z := d0 :: h ++ sz ++ rest.

Lemma lzma86_put_loop k : forall fuel i t pre mid rest,
  length mid = k -> i + Z.of_nat k = 8 -> Z.of_nat (length pre) = LZMA86_SIZE_OFFSET + i -> (k < fuel)%nat ->
  loop fuel lzma86_put_turn (i, t, pre ++ mid ++ rest) = Some (pre ++ le_bytes k t ++ rest).
Proof.
  unfold LZMA86_SIZE_OFFSET. induction k as [|k IH]; intros [|fuel] i t pre mid rest Hm Hi Hp Hf; try lia; cbn [loop]; unfold lzma86_put_turn at 1.
  - destruct mid; [|done]. by rewrite (proj2 (Z.ltb_ge _ _)) by lia.
  - destruct mid as [|b mid]; [done|]. rewrite (proj2 (Z.ltb_lt _ _)) by lia. unfold LZMA86_SIZE_OFFSET. rewrite wrz_Some by (rewrite length_app; cbn [app length]; lia). opt.
    replace (Z.to_nat (1 + 5 + i)) with (length pre + 0)%nat by lia. rewrite insert_app_r. cbn [app insert list_insert].
    assert (pre ++ u8 t :: mid ++ rest = (pre ++ [u8 t]) ++ mid ++ rest) as -> by (by rewrite <-app_assoc).
    cbn [length] in Hm. rewrite IH; [|lia|lia|rewrite length_app; cbn [length]; lia|lia].
    rewrite <-app_assoc. rewrite Z.shiftr_div_pow2 by lia. done.
Qed.

Lemma lzma86_get_loop k : forall fuel i size pre mid rest,
  length mid = k -> bytes mid -> i + Z.of_nat k = 8 -> Z.of_nat (length pre) = LZMA86_SIZE_OFFSET + i -> (k < fuel)%nat -> 0 <= i ->
  0 <= size < 2 ^ (8 * i) ->
  loop fuel (lzma86_get_turn (pre ++ mid ++ rest)) (i, size) = Some (size + 2 ^ (8 * i) * le_load mid).
Proof.
  unfold LZMA86_SIZE_OFFSET. induction k as [|k IH]; intros [|fuel] i size pre mid rest Hm Hb Hi Hp Hf Hi0 Hs; try lia; cbn [loop]; unfold lzma86_get_turn at 1.
  - destruct mid; [|done]. rewrite (proj2 (Z.ltb_ge _ _)) by lia. cbn [le_load]. do 2 f_equal. lia.
  - destruct mid as [|b mid]; [done|]. apply Forall_cons in Hb as [Hb0 Hb]. unfold in_width in Hb0. rewrite (proj2 (Z.ltb_lt _ _)) by lia. unfold LZMA86_SIZE_OFFSET.
    rewrite rd_lookup, lookup_app_r by lia. replace (Z.to_nat (1 + 5 + i) - length pre)%nat with 0%nat by lia. cbn [app lookup list_lookup]. opt.
    rewrite Z.shiftl_mul_pow2 by lia. assert (2 ^ (8 * (i + 1)) = 256 * 2 ^ (8 * i)) as E8 by (replace (8 * (i + 1)) with (8 + 8 * i) by lia; by rewrite Z.pow_add_r by lia).
    assert (2 ^ (8 * (i + 1)) <= 2 ^ 64) as H64 by (apply Z.pow_le_mono_r; lia). pose proof (Z.pow_pos_nonneg 2 (8 * i) ltac:(lia) ltac:(lia)) as HP.
    assert (0 <= b * 2 ^ (8 * i) <= 255 * 2 ^ (8 * i)) as Hbp by nia. rewrite !(wrap_small 64); [|unfold in_width; lia..| rewrite wrap_small; unfold in_width; lia].
    assert (pre ++ b :: mid ++ rest = (pre ++ [b]) ++ mid ++ rest) as -> by (by rewrite <-app_assoc). cbn [length] in Hm.
    rewrite IH; [|lia|done|lia|rewrite length_app; cbn [length]; lia|lia|lia|rewrite E8; lia]. cbn [le_load]. rewrite E8. f_equal. lia.
Qed.

Lemma put_size_framed d0 h sz rest n :
  length h = 5%nat -> length sz = 8%nat -> lzma86_put_size (framed d0 h sz rest) n = Some (framed d0 h (le_bytes 8 n) rest).
Proof.
  intros Hh Hs. exact (lzma86_put_loop 8 9 0 n (d0 :: h) sz rest Hs eq_refl ltac:(cbn; rewrite Hh; done) ltac:(lia)).
Qed.

Lemma get_size_framed d0 h rest n u :
  length h = 5%nat -> 0 <= n < 2 ^ 64 -> Lzma86_GetUnpackSize (framed d0 h (le_bytes 8 n) rest) u = Some (SZ_OK, n).
Proof.
  intros Hh Hn. unfold Lzma86_GetUnpackSize. change LZMA86_HEADER_SIZE with 14.
  rewrite (proj2 (Z.ltb_ge _ _)) by (unfold framed; cbn [length]; rewrite !length_app, length_le_bytes; lia).
  pose proof (lzma86_get_loop 8 9 0 0 (d0 :: h) (le_bytes 8 n) rest eq_refl (bytes_le_bytes 8 n) eq_refl ltac:(cbn; rewrite Hh; done) ltac:(lia) ltac:(lia) ltac:(cbn; lia)) as E.
  rewrite le_load_bytes in E by (cbn; lia). unfold framed. rewrite app_comm_cons, E. opt. do 2 f_equal. lia.
Qed.

Lemma blit_app (pre rest v : list Z) k :
  length pre = k -> (length v <= length rest)%nat -> blit (pre ++ rest) k v = Some (pre ++ v ++ drop (length v) rest).
Proof.
  intros <- Hv. unfold blit. rewrite decide_True by (rewrite length_app; lia). rewrite take_app_length, drop_app_ge by lia. do 4 f_equal. lia.
Qed.

Lemma store_framed d0 h sz rest header stream :
  length h = 5%nat -> length sz = 8%nat -> length header = 5%nat -> (length stream <= length rest)%nat ->
  blit (framed d0 h sz rest) 1 header = Some (framed d0 header sz rest) /\
  blit (framed d0 header sz rest) (Z.to_nat LZMA86_HEADER_SIZE) stream = Some (framed d0 header sz (stream ++ drop (length stream) rest)).
Proof.
  intros Hh Hs Hd Hl. unfold framed. change (Z.to_nat LZMA86_HEADER_SIZE) with 14%nat. split.
  - pose proof (blit_app [d0] (h ++ sz ++ rest) header 1 eq_refl ltac:(rewrite !length_app; lia)) as E. rewrite drop_app_length' in E by lia. exact E.
  - assert (forall r, d0 :: header ++ sz ++ r = (d0 :: header ++ sz) ++ r) as E by (intros r; cbn; by rewrite <-app_assoc).
    rewrite !E. apply blit_app; [cbn [length]; rewrite length_app; lia|done].
Qed.

(** ** The passes *)

Section Passes.
Context (A : Z -> enc_memory) (raw : Z -> encoder) (props : CLzmaEncProps) (filtered src : list Z) (size : Z).
Let run (i : Z) (best : bool) := LzmaEncode (A i) (raw i) (size - LZMA86_HEADER_SIZE) (if best then filtered else src) props LZMA_PROPS_SIZE false.
(** Every pass has room for its result, and ends well or runs out of it. *)
Hypothesis run_ok : forall i best, exists r stream header, run i best = Some (r, stream, header) /\
  Z.of_nat (length stream) <= size - LZMA86_HEADER_SIZE /\ (r = SZ_OK \/ r = SZ_ERROR_OUTPUT_EOF) /\ length header = Z.to_nat LZMA_PROPS_SIZE.
(** The repetition gets memory like that of the first pass. *)
Hypothesis run_again : forall best, run 2 best = run 0 best.

Context (d0 : Z) (sz : list Z) (Hsz : length sz = 8%nat).

(** The buffer holds the stream of some pass. *)
Definition holds (s : list Z * Z * bool * SRes) : Prop :=
  let '(dest, minSize, best, r) := s in
  exists header body, dest = framed d0 header sz body /\ length header = 5%nat /\ Z.of_nat (length body) = size - LZMA86_HEADER_SIZE /\
    0 <= minSize <= size - LZMA86_HEADER_SIZE /\
    (r = SZ_OK \/ r = SZ_ERROR_OUTPUT_EOF) /\ (r = SZ_OK -> exists i, run i best = Some (SZ_OK, take (Z.to_nat minSize) body, header)).

(** One pass over the buffer. *)
Lemma pass_run useFilter n i dest minSize best r (cur : bool) :
  i < n -> (if useFilter && (i =? 0) then true else (1 <? n) && (i =? n - 1)) = cur -> ((1 <? n) && (i =? n - 1)) && negb best = false ->
  (exists header body, dest = framed d0 header sz body /\ length header = 5%nat /\ Z.of_nat (length body) = size - LZMA86_HEADER_SIZE) ->
  exists r' stream header body, run i cur = Some (r', stream, header) /\ (r' = SZ_OK \/ r' = SZ_ERROR_OUTPUT_EOF) /\
    length header = 5%nat /\ Z.of_nat (length body) = size - LZMA86_HEADER_SIZE /\ take (length stream) body = stream /\ Z.of_nat (length stream) <= size - LZMA86_HEADER_SIZE /\
    lzma86_pass A raw props filtered src useFilter n size (i, dest, minSize, best, r) =
      let dest := framed d0 header sz body in
      Some (inl (match r' with
                 | SZ_OK => if (Z.of_nat (length stream) <=? minSize) || not_ok r then (i + 1, dest, Z.of_nat (length stream), cur, SZ_OK)
                            else (i + 1, dest, minSize, best, r)
                 | _ => (i + 1, dest, minSize, best, r)
                 end)).
Proof using run_ok Hsz.
  intros Hi Hcur Hgo (h & b & -> & Hh & Hb). destruct (run_ok i cur) as (r' & stream & header & E & Hs & Hr & Hl). change (Z.to_nat LZMA_PROPS_SIZE) with 5%nat in Hl.
  exists r', stream, header, (stream ++ drop (length stream) b). split; [done|]. split; [done|]. split; [done|].
  split; [rewrite length_app, length_drop; lia|]. split; [by rewrite take_app_length|]. split; [done|].
  unfold lzma86_pass. rewrite (proj2 (Z.ltb_lt i n)) by done. cbn [negb]. rewrite Hgo, Hcur. unfold run in E. rewrite E. opt.
  destruct (store_framed d0 h sz b header stream Hh Hsz Hl ltac:(lia)) as [-> E2]. opt. rewrite E2. opt.
  destruct Hr as [-> | ->]; [|done]. by destruct (_ || _).
Qed.

Lemma passes_one useFilter h rest :
  length h = 5%nat -> Z.of_nat (length rest) = size - LZMA86_HEADER_SIZE ->
  exists s, loop 4 (lzma86_pass A raw props filtered src useFilter 1 size) (0, framed d0 h sz rest, 0, false, SZ_ERROR_OUTPUT_EOF) = Some s /\ holds s.
Proof using run_ok Hsz.
  intros Hh Hr. destruct (pass_run useFilter 1 0 (framed d0 h sz rest) 0 false SZ_ERROR_OUTPUT_EOF useFilter) as (r & stream & header & body & E & Hres & Hh' & Hb & Ht & Hs & Ep);
    [lia|by destruct useFilter|done|by exists h, rest|].
  rewrite (eq_refl : loop 4 _ _ = match lzma86_pass _ _ _ _ _ _ _ _ _ with Some (inl s') => loop 3 _ s' | Some (inr r) => Some r | None => None end), Ep.
  destruct Hres as [-> | ->]; cbn [not_ok orb]; rewrite ?orb_true_r; (eexists; split; [reflexivity|]); exists header, body.
  - do 3 (split; [done|]). split; [lia|]. split; [by left|]. intros _. exists 0. by rewrite Nat2Z.id, Ht.
  - do 3 (split; [done|]). split; [lia|]. split; [by right|done].
Qed.

(** SZ_FILTER_AUTO *)
Lemma passes_three h rest :
  length h = 5%nat -> Z.of_nat (length rest) = size - LZMA86_HEADER_SIZE ->
  exists s, loop 4 (lzma86_pass A raw props filtered src true 3 size) (0, framed d0 h sz rest, 0, false, SZ_ERROR_OUTPUT_EOF) = Some s /\ holds s.
Proof using run_ok run_again Hsz.
  intros Hh Hr. destruct (pass_run true 3 0 (framed d0 h sz rest) 0 false SZ_ERROR_OUTPUT_EOF true) as (r0 & s0 & h0 & b0 & E0 & Hr0 & Hh0 & Hb0 & Ht0 & Hs0 & Ep0);
    [lia|done|done|by exists h, rest|].
  assert (forall s1, lzma86_pass A raw props filtered src true 3 size (0, framed d0 h sz rest, 0, false, SZ_ERROR_OUTPUT_EOF) = Some (inl s1) ->
    loop 4 (lzma86_pass A raw props filtered src true 3 size) (0, framed d0 h sz rest, 0, false, SZ_ERROR_OUTPUT_EOF) = loop 3 (lzma86_pass A raw props filtered src true 3 size) s1) as Hstart by (intros s1 E; cbn [loop]; by rewrite E).
  rewrite (Hstart _ Ep0). clear Hstart Ep0.
  assert (forall minSize best r, exists r1 s1 h1 b1, run 1 false = Some (r1, s1, h1) /\ (r1 = SZ_OK \/ r1 = SZ_ERROR_OUTPUT_EOF) /\ length h1 = 5%nat /\
    Z.of_nat (length b1) = size - LZMA86_HEADER_SIZE /\ take (length s1) b1 = s1 /\ Z.of_nat (length s1) <= size - LZMA86_HEADER_SIZE /\
    loop 3 (lzma86_pass A raw props filtered src true 3 size) (1, framed d0 h0 sz b0, minSize, best, r) =
    loop 2 (lzma86_pass A raw props filtered src true 3 size)
      (match r1 with SZ_OK => if (Z.of_nat (length s1) <=? minSize) || not_ok r then (2, framed d0 h1 sz b1, Z.of_nat (length s1), false, SZ_OK) else (2, framed d0 h1 sz b1, minSize, best, r)
       | _ => (2, framed d0 h1 sz b1, minSize, best, r) end)) as Hsecond.
  { intros minSize best r. destruct (pass_run true 3 1 (framed d0 h0 sz b0) minSize best r false) as (r1 & s1 & h1 & b1 & E1 & Hr1 & Hh1 & Hb1 & Ht1 & Hs1 & Ep); [lia|done|done|by exists h0, b0|].
    exists r1, s1, h1, b1. do 6 (split; [done|]). cbn [loop] in Ep |- *. by rewrite Ep. }
  destruct Hr0 as [-> | ->]; cbv zeta; cbn [not_ok orb]; rewrite ?orb_true_r; change (0 + 1) with 1.
  - destruct (Hsecond (Z.of_nat (length s0)) true SZ_OK) as (r1 & s1 & h1 & b1 & E1 & Hr1 & Hh1 & Hb1 & Ht1 & Hs1 & ->). clear Hsecond.
    (* the first pass was better *)
    assert (exists s, loop 2 (lzma86_pass A raw props filtered src true 3 size) (2, framed d0 h1 sz b1, Z.of_nat (length s0), true, SZ_OK) = Some s /\ holds s) as Hagain.
    { destruct (pass_run true 3 2 (framed d0 h1 sz b1) (Z.of_nat (length s0)) true SZ_OK true) as (r2 & s2 & h2 & b2 & E2 & Hr2 & Hh2 & Hb2 & Ht2 & Hs2 & Ep); [lia|done|done|by exists h1, b1|].
      rewrite run_again, E0 in E2. injection E2 as <- <- <-. cbn [loop]. rewrite Ep, Z.leb_refl. cbn [orb]. eexists. split; [reflexivity|].
      exists h0, b2. do 3 (split; [done|]). split; [lia|]. split; [by left|]. intros _. exists 0. by rewrite Nat2Z.id, Ht2. }
    destruct Hr1 as [-> | ->]; [|exact Hagain]. cbn [not_ok]. rewrite orb_false_r. destruct (_ <=? _); [|exact Hagain].
    eexists. split; [reflexivity|]. exists h1, b1. do 3 (split; [done|]). split; [lia|]. split; [by left|]. intros _. exists 1. by rewrite Nat2Z.id, Ht1.
  - destruct (Hsecond 0 false SZ_ERROR_OUTPUT_EOF) as (r1 & s1 & h1 & b1 & E1 & Hr1 & Hh1 & Hb1 & Ht1 & Hs1 & ->). clear Hsecond.
    destruct Hr1 as [-> | ->]; cbn [not_ok]; rewrite ?orb_true_r; (eexists; split; [reflexivity|]); exists h1, b1; (do 3 (split; [done|])); (split; [lia|]).
    + split; [by left|]. intros _. exists 1. by rewrite Nat2Z.id, Ht1.
    + by split; [right|].
Qed.
End Passes.

(** ** Theorems *)

Lemma lzma86_encode_props level dictSize : 0 <= level <= 4 -> 0 <= dictSize -> encode_props (lzma86_props level dictSize).
Proof.
  intros Hl Hd. split; [done|]. split; [|cbn; lia]. left. unfold LzmaEncProps_Normalize. cbn.
  destruct (Z.ltb_spec level 0); [lia|]. destruct (Z.ltb_spec level 5); [done|lia].
Qed.

Lemma x86_filter e data : bytes data ->
  exists data' n m, z7_BranchConvSt_X86 e data (Z.of_nat (length data)) 0 Z7_BRANCH_CONV_ST_X86_STATE_INIT_VAL = Some (data', n, m) /\
    z7_BranchConvSt_X86 (negb e) data' (Z.of_nat (length data)) 0 Z7_BRANCH_CONV_ST_X86_STATE_INIT_VAL = Some (data, n, m) /\
    bytes data' /\ length data' = length data.
Proof.
  intros Hd. destruct (x86_run e data (Z.of_nat (length data)) 0 Z7_BRANCH_CONV_ST_X86_STATE_INIT_VAL Hd ltac:(lia) ltac:(done)) as (n & m & H1 & H2 & _).
  eexists _, _, _. split; [exact H1|]. split; [exact H2|]. rewrite Nat2Z.id, take_ge, drop_ge, app_nil_r by lia. split; [|apply x86_map_length].
  apply (x86_map_bytes _ _ (S (length data))); [lia|done|done].
Qed.

(** What the decoder makes of a stream. *)
Lemma Lzma86_Decode_framed A raw dest h sz stream data src (flag : bool) st :
  length h = 5%nat -> length sz = 8%nat ->
  LzmaDecode A raw dest stream h LZMA_FINISH_ANY = Some (data, Z.of_nat (length data), Z.of_nat (length stream), SZ_OK, st) ->
  (if flag then exists n m, z7_BranchConvSt_X86 false data (Z.of_nat (length data)) 0 Z7_BRANCH_CONV_ST_X86_STATE_INIT_VAL = Some (src, n, m) else data = src) ->
  let out := framed (if flag then 1 else 0) h sz stream in
  Lzma86_Decode A raw dest out = Some (src, Z.of_nat (length data), Z.of_nat (length out), SZ_OK).
Proof.
  intros Hh Hs Hdec Hf out. assert (length out = (14 + length stream)%nat) as Hl by (unfold out, framed; cbn [length]; rewrite !length_app; lia).
  unfold Lzma86_Decode. change LZMA86_HEADER_SIZE with 14. rewrite (proj2 (Z.ltb_ge _ _)) by lia.
  assert (rd out 0 = Some (if flag then 1 else 0)) as -> by done. opt. rewrite (proj2 (Z.ltb_ge _ _)) by (destruct flag; lia).
  rewrite slice_Some by (rewrite Hl; change (Z.to_nat LZMA_PROPS_SIZE) with 5%nat; lia). opt.
  assert (take (Z.to_nat LZMA_PROPS_SIZE) (drop 1 out) = h) as -> by (unfold out, framed; cbn [drop]; rewrite drop_0; by apply take_app_length').
  assert (drop (Z.to_nat 14) out = stream) as ->.
  { unfold out, framed. change (Z.to_nat 14) with 14%nat. rewrite app_assoc, app_comm_cons. apply drop_app_length'. cbn [length]. rewrite length_app. lia. }
  rewrite Hdec. opt. cbn [not_ok]. rewrite Hl, Nat2Z.inj_add, Z.add_comm. destruct flag.
  - destruct Hf as (n & m & E). cbn [Z.eqb Pos.eqb]. rewrite E. done.
  - subst. done.
Qed.

(** C13: Lzma86_Encode followed by Lzma86_GetUnpackSize and Lzma86_Decode gives the data back.
    For data of 1 to 2^32 - 2 bytes, any filter mode, a level from 0 to 4 (from 5 on, the default
    included, LzmaEncode asks for a match finder in threads, which is not modelled) and any buffer, if the allocations succeed: Lzma86_Encode returns
    within the buffer, with SZ_OK or SZ_ERROR_OUTPUT_EOF; after SZ_OK the header gives the size
    of the data, and Lzma86_Decode into a buffer of that size takes the whole stream and leaves
    exactly the data, converted back if the encoder had chosen to convert them.  In
    SZ_FILTER_AUTO the repetition of the first pass is to find its memory as that one did. *)
Theorem Lzma86_Encode_Decode (EA : Z -> enc_memory) (raw_enc : Z -> encoder) (A : allocator) (raw : CLzmaDec)
    (src dest buf : list Z) (level dictSize filterMode u : Z)
    (HEA : forall i, memory_ok (EA i)) (Hraw_enc : forall i, optim_shape (LzmaEncProps.optim (raw_enc i)))
    (Hagain : filterMode = SZ_FILTER_AUTO -> EA 2 = EA 0 /\ raw_enc 2 = raw_enc 0)
    (HA : alloc_laws A) (Hmem : forall n, alloc_probs A n <> None) (Hraw : raw_ok raw)
    (Hsrc : bytes src) (Hsize : 1 <= Z.of_nat (length src) <= 2 ^ 32 - 2) (Hlevel : 0 <= level <= 4) (Hdict : 0 <= dictSize)
    (Hbuf : bytes buf) (Hlen : length buf = length src) :
  exists r dest' destLen, Lzma86_Encode true EA raw_enc dest src level dictSize filterMode = Some (r, dest', destLen) /\
    length dest' = length dest /\ 0 <= destLen <= Z.of_nat (length dest) /\ (r = SZ_OK \/ r = SZ_ERROR_OUTPUT_EOF) /\
    (r = SZ_OK -> let out := take (Z.to_nat destLen) dest' in
       Lzma86_GetUnpackSize out u = Some (SZ_OK, Z.of_nat (length src)) /\
       Lzma86_Decode A raw buf out = Some (src, Z.of_nat (length src), Z.of_nat (length out), SZ_OK)).
Proof.
  unfold Lzma86_Encode. change LZMA86_HEADER_SIZE with 14. destruct (Z.ltb_spec (Z.of_nat (length dest)) 14) as [Hsmall|Hroom].
  { exists SZ_ERROR_OUTPUT_EOF, dest, 0. split; [done|]. split; [done|]. split; [lia|]. split; [by right|done]. }
  assert (exists d0 h sz rest, dest = framed d0 h sz rest /\ length h = 5%nat /\ length sz = 8%nat /\ Z.of_nat (length rest) = Z.of_nat (length dest) - LZMA86_HEADER_SIZE)
    as (d0 & h & sz & rest & Ed & Hh & Hs & Hr).
  { destruct dest as [|d0 dest]; [cbn in Hroom; lia|]. exists d0, (take 5 dest), (take 8 (drop 5 dest)), (drop 13 dest). cbn [length] in Hroom.
    unfold framed. change (drop 13 dest) with (drop (5 + 8) dest). rewrite <-drop_drop, !take_drop, !length_take, !length_drop. change LZMA86_HEADER_SIZE with 14. cbn [length]. split_and!; try done; lia. }
  set (size := Z.of_nat (length dest)) in *. rewrite Ed, put_size_framed by done. opt. set (sz' := le_bytes 8 (Z.of_nat (length src))).
  rewrite andb_false_r. destruct (x86_filter true src Hsrc) as (f & n & m & Ef & Eback & Hf & Hfl). cbn [negb] in Eback.
  set (props := lzma86_props level dictSize). set (useFilter := negb (filterMode =? SZ_FILTER_NO)).
  assert (forall data : list Z, bytes data -> length data = length src -> forall i, exists r stream header,
    LzmaEncode (EA i) (raw_enc i) (size - LZMA86_HEADER_SIZE) data props LZMA_PROPS_SIZE false = Some (r, stream, header) /\
    Z.of_nat (length stream) <= size - LZMA86_HEADER_SIZE /\ (r = SZ_OK \/ r = SZ_ERROR_OUTPUT_EOF) /\ length header = Z.to_nat LZMA_PROPS_SIZE /\
    (r = SZ_OK -> exists st, LzmaDecode A raw buf stream header LZMA_FINISH_ANY = Some (data, Z.of_nat (length data), Z.of_nat (length stream), SZ_OK, st))) as Hrun.
  { intros data Hd Hdl i. destruct (LzmaEncode_decodes (EA i) (raw_enc i) props data (size - LZMA86_HEADER_SIZE) false (HEA i) (Hraw_enc i)) as (r & stream & header & E & E1 & E2 & E3 & _ & E4);
      [by apply lzma86_encode_props|done|lia|change LZMA86_HEADER_SIZE with 14; lia|].
    exists r, stream, header. split; [done|]. split; [done|]. split; [done|]. split; [done|]. intros H. destruct (E4 H) as [_ E5]. eexists. apply E5; (done || lia). }
  assert (exists filtered dest1 minSize best r,
    (if useFilter then '(f, _, _) ← z7_BranchConvSt_X86 true src (Z.of_nat (length src)) 0 Z7_BRANCH_CONV_ST_X86_STATE_INIT_VAL; Some f else Some []) = Some filtered /\
    loop 4 (lzma86_pass EA raw_enc props filtered src useFilter (if filterMode =? SZ_FILTER_AUTO then 3 else 1) size) (0, framed d0 h sz' rest, 0, false, SZ_ERROR_OUTPUT_EOF) = Some (dest1, minSize, best, r) /\
    holds EA raw_enc props f src size d0 sz' (dest1, minSize, best, r)) as (filtered & dest1 & minSize & best & r & -> & El & Hs1).
  { assert (forall i best, exists r stream header, LzmaEncode (EA i) (raw_enc i) (size - LZMA86_HEADER_SIZE) (if (best : bool) then f else src) props LZMA_PROPS_SIZE false = Some (r, stream, header) /\
      Z.of_nat (length stream) <= size - LZMA86_HEADER_SIZE /\ (r = SZ_OK \/ r = SZ_ERROR_OUTPUT_EOF) /\ length header = Z.to_nat LZMA_PROPS_SIZE) as Hruns.
    { intros i best. destruct (Hrun (if best then f else src) ltac:(by destruct best) ltac:(by destruct best) i) as (r & s & h' & ? & ? & ? & ? & _). by exists r, s, h'. }
    unfold useFilter. destruct (Z.eqb_spec filterMode SZ_FILTER_NO) as [->|Hno]; cbn [negb].
    - destruct (passes_one EA raw_enc props f src size Hruns d0 sz' eq_refl false h rest Hh Hr) as ([[[dest1 minSize] best] r] & E & H).
      exists [], dest1, minSize, best, r. split; [done|]. split; [exact E|exact H].
    - rewrite Ef. destruct (Z.eqb_spec filterMode SZ_FILTER_AUTO) as [Hauto|_].
      + destruct (Hagain Hauto) as [H1 H2].
        assert (forall best : bool, LzmaEncode (EA 2) (raw_enc 2) (size - LZMA86_HEADER_SIZE) (if best then f else src) props LZMA_PROPS_SIZE false =
          LzmaEncode (EA 0) (raw_enc 0) (size - LZMA86_HEADER_SIZE) (if best then f else src) props LZMA_PROPS_SIZE false) as Hsame by (intros best; by rewrite H1, H2).
        destruct (passes_three EA raw_enc props f src size Hruns Hsame d0 sz' eq_refl h rest Hh Hr) as ([[[dest1 minSize] best] r] & E & H).
        exists f, dest1, minSize, best, r. done.
      + destruct (passes_one EA raw_enc props f src size Hruns d0 sz' eq_refl true h rest Hh Hr) as ([[[dest1 minSize] best] r] & E & H).
        exists f, dest1, minSize, best, r. done. }
  opt. rewrite El. opt. destruct Hs1 as (header & body & -> & Hh1 & Hb1 & Hm1 & Hr1 & Hok).
  change LZMA86_HEADER_SIZE with 14 in *. exists r, (framed (if best then 1 else 0) header sz' body), (14 + minSize).
  assert (wrz (framed d0 header sz' body) 0 (if best then 1 else 0) = Some (framed (if best then 1 else 0) header sz' body)) as -> by done. opt. split; [done|].
  assert (length sz' = 8%nat) as Hs' by done.
  split; [unfold framed; cbn [length]; rewrite !length_app; unfold size in *; lia|]. split; [lia|]. split; [done|]. intros Hr2.
  destruct (Hok Hr2) as (i & Ei). set (stream := take (Z.to_nat minSize) body) in *. assert (Z.of_nat (length stream) = minSize) as Hsl by (unfold stream; rewrite length_take; lia).
  assert (take (Z.to_nat (14 + minSize)) (framed (if best then 1 else 0) header sz' body) = framed (if best then 1 else 0) header sz' stream) as ->.
  { unfold framed. rewrite app_assoc, app_comm_cons, take_app_ge by (cbn [length]; rewrite length_app; lia). cbn [app]. rewrite <-app_assoc. do 3 f_equal. f_equal.
    unfold stream. f_equal. cbn [length]. rewrite length_app. lia. }
  cbv zeta. split; [apply get_size_framed; lia|].
  destruct (Hrun (if best then f else src) ltac:(by destruct best) ltac:(by destruct best) i) as (r' & s' & h' & E & _ & _ & _ & Hd). rewrite E in Ei. injection Ei as -> -> ->.
  destruct (Hd eq_refl) as (st & E').
  assert (length (if best then f else src) = length src) as <- by (by destruct best).
  apply (Lzma86_Decode_framed A raw buf header sz' stream (if best then f else src) src best st Hh1 Hs' E').
  destruct best; [exists n, m; by rewrite Hfl|done].
Qed.

Lemma Lzma86_Encode_Decode_witness :
  exists r dest' destLen,
    Lzma86_Encode true (fun _ => example_memory) (fun _ => example_raw) (replicate 64 0) example_src 4 0 SZ_FILTER_AUTO = Some (r, dest', destLen) /\
    (r = SZ_OK -> let out := take (Z.to_nat destLen) dest' in
       Lzma86_GetUnpackSize out 0 = Some (SZ_OK, 8) /\
       Lzma86_Decode zero_alloc example_start [0; 0; 0; 0; 0; 0; 0; 0] out = Some (example_src, 8, Z.of_nat (length out), SZ_OK)).
Proof.
  destruct (Lzma86_Encode_Decode (fun _ => example_memory) (fun _ => example_raw) zero_alloc example_start example_src (replicate 64 0)
    [0; 0; 0; 0; 0; 0; 0; 0] 4 0 SZ_FILTER_AUTO 0 (fun _ => example_memory_ok) (fun _ => example_shape) (fun _ => conj eq_refl eq_refl)
    zero_alloc_laws ltac:(discriminate) (wf_raw _ example_start_wf)) as (r & d & n & H1 & _ & _ & _ & H2).
  - byte_list.
  - cbn. lia.
  - lia.
  - lia.
  - byte_list.
  - reflexivity.
  - exists r, d, n. split; [exact H1|exact H2].
Defined.
